(* ===== verification/_CoqProject ===== *)
-Q . S2P
Prelude.v
GoStr.v
Utf8.v
GoPath.v
Json.v
Keys.v
Message.v
Access.v
Hub.v
Throttle.v
Order.v
Convert.v
Store.v
Tasks.v
Participant.v
ParticipantInbox.v
ParticipantProtocol.v
ParticipantTurns.v
Turns.v
Working.v
Stops.v
Table.v
MachineData.v
Choice.v
Machines.v
Directives.v
JsonValid.v
MachineMessage.v
MachineTables.v
Lifecycle.v
Codes.v
MachineInputs.v
Gateway.v
Client.v
Dispatch.v
DispatchProofs.v
DispatchInvariant.v
DispatchTheorems.v
TokenProtocol.v
JsonFields.v
CallInputs.v
AgentData.v
AgentLLM.v
AgentTurn.v
AgentSteps.v
AgentTranscript.v
AgentStore.v
AgentRoute.v
AgentTheorems.v
Background.v
Catalog.v
CatalogRun.v
Prompt.v
LLMCall.v
Anthropic.v
LLMAccepted.v
LLMTheorems.v
LLMHandoff.v
Password.v
Users.v
AdminUsers.v
Groups.v
Agents.v
Sessions.v
Deliver.v
SessionOps.v
TaskSweep.v
StatusCache.v
Transcript.v
ForkFlow.v
CodingData.v
CodingRun.v
PickRun.v
CodingRoute.v
Files.v
FileServe.v
Schedules.v
ClaudeCLI.v
Coder.v
Worker.v
