(* ===== verification/Prelude.v ===== *)
(** * Shared vocabulary, and the documentation of the whole development

    The program is a Go server, with its workers and the [agent connect]
    command of users' machines, in which agents (models with tools) answer
    messages in shared sessions. Temporal runs its workflows, PostgreSQL keeps
    its tables. This library models its core: how messages reach an agent and
    are answered, what an agent's model reads, who may do what, and how work
    is handed to users' machines.

    ** The parts, and how they interact

    A session is a conversation. Someone posts a message (src/session,
    src/store); each agent it names is a participant, a workflow that answers
    its messages one at a time (src/workflow/participant.go). An answer is a
    turn: a child workflow that reads the conversation (src/conversation), calls
    the model and its tools, and writes messages under the turn's key. A turn
    may relay to another agent, start a background task
    (src/store/background_task.go), or take its runs and its calls to the model
    to a machine of the user's (src/store/machine.go, src/gateway, src/machine). A
    coding run clones a repository and has the Claude CLI work in it, on such a
    machine (src/machine/connect) or on a worker of the installation
    (src/workflow/claude_code*.go, src/activity/claude_code.go,
    src/claudecode). A turn publishes files (src/tool/publish.go) and plans
    tasks of its own (src/tool/schedule.go).
    Pages follow through the event hub (src/sse/hub.go) and what the server
    knows of the participants at work (src/session/turns.go).

    ** Files, and what they model

    Go's standard library, as far as the program uses it: GoStr.v (strings,
    strconv), Utf8.v, GoStr.v, GoPath.v (path.Match), Json.v (JSON of
    strings), JsonValid.v (the scanner of encoding/json), JsonFields.v (its
    objects: decoding into maps and structs, encoding). Table.v: a database's
    table as the list of its rows under a unique key ([Keyed], [KeepsKey]).

    - Keys.v: message keys, turn keys, workflow identifiers (store/message.go,
      workflow/participant.go, workflow/agent.go, store/background_task.go).
      Message.v: the stored messages.
    - Access.v: access rules and their cache (access/access.go,
      session/access.go).
    - Hub.v: the event hub (sse/hub.go). Throttle.v: login limits and client
      addresses (auth/throttle.go).
    - Order.v, Convert.v: the order a conversation is read in, and what an
      agent's model reads of it (conversation/order.go, convert.go).
    - Store.v, Tasks.v: the messages, memory and background tasks tables
      (store/postgres.go, store/background_task.go, activity/task.go).
    - Participant.v: the participant's workflow, as a function of an environment
      that gives, at each wait, the signals that arrived and the activity's or
      the turn's result. ParticipantInbox.v, ParticipantProtocol.v,
      ParticipantTurns.v: its proofs. Turns.v: the activities of a turn's start
      and end (activity/turn.go).
    - CallInputs.v, AgentData.v: what a tool call carries (activity/background.go,
      tool/metadata.go, activity/task.go) and the data of an agent's run.
      AgentLLM.v: where its model runs (workflow/agent_llm.go; the machine chosen,
      activity/llm_machine.go, in AgentRoute.v). AgentTurn.v: the
      agent's workflow (workflow/agent.go), again a function of an environment
      that gives each activity's and each child's result and says when the run
      was cancelled. AgentSteps.v, AgentTranscript.v, AgentStore.v, AgentRoute.v,
      AgentTheorems.v: its proofs. Background.v: a background task's workflow
      (workflow/background.go).
    - Catalog.v: the worker's copy of the agents, the tools and the rules
      (activity/catalog.go); CatalogRun.v composes it with the agent's workflow.
    - Prompt.v: an agent's system prompt, from its skills and its tools
      (activity/prompt.go, skill/loader.go). LLMCall.v: a call to the model, on
      the server and on a machine (activity/llm.go, llm_machine.go).
      Anthropic.v: the request and the answer of the Messages API
      (provider/anthropic.go, retry_after.go). LLMAccepted.v (the API accepts
      the requests), LLMTheorems.v, LLMHandoff.v: its proofs.
    - Password.v, Users.v: passwords, the users' and the login
      sessions' tables, the login's service (auth/password.go, auth/service.go,
      store/users.go, store/session.go). AdminUsers.v: the back-office's users
      (web/admin/users.go). Groups.v: the tables of groups and access rules
      (store/access.go); their proofs, and the sweep
      of rules that target nothing (cmd/agent/access.go).
    - Agents.v: the agents' and the tools' tables, their seed, form and
      publication (store/store.go, store/postgres.go, config/config.go,
      web/admin/edit.go, cmd/agent/agents.go, cmd/agent/tools.go).
    - Sessions.v: the tables of sessions, members, forks and
      reports (store/session.go, store/users.go, store/report.go). Deliver.v: a
      message into a session (session/messages.go). SessionOps.v: opening,
      forking, inviting, leaving, deleting, answering (session/ops.go, fork.go).
      TaskSweep.v: the stop and the sweep of background tasks
      (session/tasks.go). StatusCache.v: what pages are told of the sessions
      (session/status.go). Transcript.v, ForkFlow.v: a fork's transcript,
      summary and reports (activity/fork.go, activity/report.go, workflow/fork.go,
      workflow/report.go, session/report.go). Their proofs
      follow in the same files.
    - Working.v, Stops.v: which participants work, and who stops what
      (session/turns.go, session/participants.go).
    - MachineData.v, Choice.v, Machines.v, Directives.v: the tables of the
      machines, one definition for each method of the store (store/machine.go,
      store/machine_llm.go). MachineTables.v makes them one transition system
      ([machine_op], [apply_op], [table_step]) with its invariant [mdb_ok];
      Lifecycle.v states what the operations promise together, the directive's
      life as an abstract state machine ([phase], [phase_step]) the tables
      refine.
    - MachineMessage.v, MachineInputs.v, Codes.v: what a
      machine and the gateway say to each other, and how each checks the other
      (machine/protocol.go, llm.go, skills.go, coding.go, directive.go,
      token.go, gateway/enroll.go).
    - Gateway.v, Client.v: the gateway's side of a machine's connection
      (gateway/conn.go, gateway.go, llm.go) and the machine's
      (machine/connect/client.go, state.go). Dispatch.v composes them with the
      tables and the connection, one event at a time; DispatchProofs.v (the
      gateway's moves), Client.v (the machine's), DispatchInvariant.v
      (the system's invariant) and DispatchTheorems.v prove what the dispatch
      promises. TokenProtocol.v: the rotation of a machine's token over
      overlapping connections.

    - Files.v: the files of sessions, published by tools and by machines
      (store/file.go, tool/publish.go, gateway/files.go, machine/connect/upload.go).
      FileServe.v: their download (cmd/agent/files.go). Schedules.v: scheduled
      tasks (tool/schedule.go, workflow/scheduled_agent.go, activity/schedule.go,
      activity/delivery.go, store/task_log.go).
    - CodingData.v, CodingRun.v: what a coding run says, and its workflows on a
      worker (workflow/claude_code.go, claude_code_write.go,
      claude_code_session.go). PickRun.v, CodingRoute.v: the machine a run takes,
      or the worker it falls back on (activity/machine.go, workflow/coding_run.go,
      workflow/machine.go).
    - ClaudeCLI.v: the CLI's arguments, environment, credential, stream and stall
      (claudecode/run.go, stream.go, auth.go, subproc/subproc.go). Coder.v: a run
      on a user's machine (machine/connect/analyze.go, implement.go, outputs.go,
      machine/outputs/outputs.go, machine/bundle.go, claudecode/login.go). Both
      a machine's and a worker's run are lists of what they ask, in order
      ([Asks], in Coder.v), over an environment that answers from all that was
      asked before.
    - Worker.v: the steps of a run on a worker (activity/claude_code.go), the
      user its commands run as (subproc/identity.go, runs.go), the git it finds in
      its path (subproc/gitshim.go), its CLI's configuration
      (claudecode/config.go), and the workers that share a directory
      (activity/claude_code_sweep.go), as a step function over their locks
      ([root_step]). It composes the steps with the workflows of CodingRun.v
      ([worked]).

    A record stands for a struct, with the fields the modelled code reads; an
    inductive type for an enum or a set of errors; a Go map for a [gmap] or, when
    its order or its duplicates matter, a list. A method of a store, or one that
    runs under a mutex, is one step on its state. Integers that can overflow are
    wrapped where the code computes with them ([wrap64]).

    ** What the theorems show

    - A participant follows its protocol (a refinement of an automaton over its
      effects), accounts for every message it got, gives each message one end,
      stops a turn exactly when asked, relays as mentions say, and ends.
    - A conversation's order keeps turns whole and after what they answer; the
      model reads nothing private of others; a turn is not run twice.
    - A run writes its turn's messages once each and never a call without its
      result; it sends calls to the tools its agent is given and its user may
      use, and to no other; its delegations and its calls to the model are
      bounded; its model runs where its agent says; what the model writes cannot
      pass for the run's own context. The tools offered are those the catalog
      and the rules make, and a background task's end is told as it was.
    - A reconnecting page misses nothing it is not told of; what the server says
      of participants is what their events and messages make of them.
    - A background task ends once; an instruction accepted on it reaches its end.
    - The machines' tables stay well formed; a directive lives as its state
      machine says; loads stay within caps; revoking is for good; the choice of
      a machine is the minimum of a total order.
    - What a machine sends is accepted exactly within its bounds, and the model's
      answer exactly when a turn can carry it.
    - Gateway and machine together: a directive is started at most once, and one
      that still runs is held by its machine; a machine's token is never refused.
    - Every request a run makes of its model is one the API accepts, and does
      not depend on the order of a map; what fails is told as what it was.
    - A login's token names its user exactly until the login ends; an admin who
      may log in always remains; revoking opens nothing; a name, an ID or a
      mention calls one agent at most.
    - A message into a session is refused whole or taken once; no session is left
      to nobody; a fork's reports cover each of its messages once; what is asked
      of the model for them hides what is private; a page asked for after an action
      is not shown what was read before it; a sweep ends what it can and no running task.
    - A coding run goes to one place, once. What it publishes is the newest commit
      inspected, on its own branch, in an allowed repository, with the clone's
      configuration untouched: on a machine, on a worker, and over workflow and
      worker together, retries included. A worker's identity reaches allowed
      repositories alone; workers that share a directory delete no run in use;
      the CLI gets the variables named for it, one credential, and its owner's
      budget; the operator's login outlives the runs that renew it.
    - Every file listed has its content, within its bounds, and a download's header
      cannot be broken by its name, whoever reads it by its grammar; a scheduled task
      stays its user's, recorded or not.
    - Some theorems show code that does not do what it means to: a message lost
      during a clear, a finished run reported lost, a machine revoked for a
      connection that came late, a stopped run that reads as done, a fork taken
      for failed while its summary is written, a stop the sweep erases, a git
      that reads files out of the clone, a login never renewed.

    ** Bounds and fuel

    Recursions that are not structural take fuel that their callers compute from
    the size of what they read, so that it never runs out: the bytes of a string
    (UTF-8, JSON, user codes), the mentions left (a relay), the steps of a run of
    a participant ([participant_ends] bounds a run by what is delivered to it and
    by its history's limit), a text to cut or to match. [complete] tries as many times as the code says.

    ** What is not modelled, and why

    - Failures of the database and of the disk, unless the code decides on them:
      a statement that fails leaves the tables as they were. A clock is read once
      per operation. Log lines, alerts and notes shown on pages are left out.
    - Third-party code is a parameter of the definitions that use it: Temporal's
      answers, net/netip, google/uuid, the Unicode tables of case, SHA-256, the
      decoding of most JSON into structs and the texts of its errors, Go's %q,
      argon2, the collation of Postgres, the model itself. A
      Temporal workflow is taken as the SDK documents it: one coroutine, that
      gives way only where it waits.
    - git, the Claude CLI and the files they share are parameters of a coding run:
      what each answers may be anything, and depends on all that was asked
      before it. Their processes (signals, pipes, heartbeats) are not modelled, nor
      are the log lines and the progress shown while they work.
    - The web pages but for the forms named above, the Telegram channel, the HTTP
      API's routes, the start and stop of the server, HTTP clients, the MCP
      clients, the documents and web tools, the reading of the configuration and
      the git store of skills: input and output with little state of their
      own. *)

From Stdlib Require Export List ZArith Lia Bool Ascii String.
From stdpp Require Export base tactics option list gmap strings fin_maps sorting.
Export ListNotations.

#[global] Arguments String.append !s1 s2 : simpl nomatch.
#[global] Arguments Ascii.eqb !a !b : simpl nomatch.

(** ** Tactics *)

(** Case analysis on the scrutinee of the innermost [match] or [if] of the
    goal, keeping the equation. *)
Ltac split_match :=
  match goal with
  | |- context [match ?x with _ => _ end] =>
      lazymatch x with
      | context [match _ with _ => _ end] => fail
      | _ => destruct x eqn:?
      end
  end.

(** The same in a hypothesis. *)
Ltac split_match_in H :=
  match type of H with
  | context [match ?x with _ => _ end] =>
      lazymatch x with
      | context [match _ with _ => _ end] => fail
      | _ => destruct x eqn:?
      end
  end.

(** Turns boolean tests of hypotheses and goal into propositions. *)
Ltac bool_to_prop :=
  repeat match goal with
  | H : (_ =? _)%Z = true |- _ => apply Z.eqb_eq in H
  | H : (_ =? _)%Z = false |- _ => apply Z.eqb_neq in H
  | H : (_ <=? _)%Z = true |- _ => apply Z.leb_le in H
  | H : (_ <=? _)%Z = false |- _ => apply Z.leb_gt in H
  | H : (_ <? _)%Z = true |- _ => apply Z.ltb_lt in H
  | H : (_ <? _)%Z = false |- _ => apply Z.ltb_ge in H
  | H : (_ <? _)%nat = true |- _ => apply Nat.ltb_lt in H
  | H : (_ <? _)%nat = false |- _ => apply Nat.ltb_ge in H
  | H : (_ <=? _)%nat = true |- _ => apply Nat.leb_le in H
  | H : (_ <=? _)%nat = false |- _ => apply Nat.leb_gt in H
  | H : (_ =? _)%nat = true |- _ => apply Nat.eqb_eq in H
  | H : (_ =? _)%nat = false |- _ => apply Nat.eqb_neq in H
  | H : String.eqb _ _ = true |- _ => apply String.eqb_eq in H
  | H : String.eqb _ _ = false |- _ => apply String.eqb_neq in H
  | H : Ascii.eqb _ _ = true |- _ => apply Ascii.eqb_eq in H
  | H : Ascii.eqb _ _ = false |- _ => apply Ascii.eqb_neq in H
  | H : _ && _ = true |- _ => apply andb_true_iff in H as [? ?]
  | H : _ || _ = false |- _ => apply orb_false_iff in H as [? ?]
  | H : negb _ = true |- _ => apply negb_true_iff in H
  | H : negb _ = false |- _ => apply negb_false_iff in H
  | H : bool_decide _ = true |- _ => apply bool_decide_eq_true in H
  | H : bool_decide _ = false |- _ => apply bool_decide_eq_false in H
  end.

(** ** Reachability *)

(** [star R]: zero, one or several steps of a transition relation. *)
Inductive star {S : Type} (R : S → S → Prop) : S → S → Prop :=
| star_refl s : star R s s
| star_step s t u : R s t → star R t u → star R s u.

Lemma star_trans {S} (R : S → S → Prop) s t u :
  star R s t → star R t u → star R s u.
Proof. induction 1; eauto using star. Qed.

Lemma star_one {S} (R : S → S → Prop) s t : R s t → star R s t.
Proof. eauto using star. Qed.

(** A predicate kept by every step holds of every state reached. *)
Lemma star_invariant {S} (R : S → S → Prop) (P : S → Prop) s t :
  (∀ a b, P a → R a b → P b) → star R s t → P s → P t.
Proof. intros Hstep; induction 1; eauto. Qed.

(** ** Go's scalar conventions *)

Open Scope Z_scope.

Definition int64_min : Z := - 2 ^ 63.
Definition int64_max : Z := 2 ^ 63 - 1.
Definition uint64_max : Z := 2 ^ 64 - 1.

(** [time.Time]: nanoseconds since the zero time, which [IsZero] tests. *)
Abbreviation time := Z (only parsing).

Definition is_zero_time (t : time) : bool := t =? 0.

(** [t.Sub(u)]: a [time.Duration], saturated to an int64 as Go does. *)
Definition time_sub (t u : time) : Z := Z.max int64_min (Z.min int64_max (t - u)).

(** [time.Duration] units, in nanoseconds. *)
Definition second : Z := 1000000000.
Definition minute : Z := 60 * second.
Definition hour : Z := 60 * minute.

Lemma time_sub_ge t u d :
  int64_min < d ≤ int64_max → d ≤ time_sub t u ↔ d ≤ t - u.
Proof. unfold time_sub. lia. Qed.

Lemma time_sub_lt t u d :
  int64_min < d ≤ int64_max → time_sub t u < d ↔ t - u < d.
Proof. unfold time_sub. lia. Qed.

Lemma time_sub_self t : time_sub t t = 0.
Proof. unfold time_sub, int64_min, int64_max. lia. Qed.

(** [cmp.Or] on strings: the first one that is not empty. *)
Definition cmp_or (a b : string) : string := if String.eqb a "" then b else a.

Lemma cmp_or_nonempty a b : b ≠ ""%string → cmp_or a b ≠ ""%string.
Proof. unfold cmp_or. destruct (String.eqb_spec a ""); congruence. Qed.

(** [slices.Contains] on strings. *)
Definition contains (l : list string) (s : string) : bool := existsb (String.eqb s) l.

Lemma contains_spec l s : contains l s = true ↔ s ∈ l.
Proof.
  unfold contains. rewrite existsb_exists. setoid_rewrite list_elem_of_In.
  split.
  - intros (x & Hx & ->%String.eqb_eq). done.
  - intros H. exists s. split; [done|apply String.eqb_refl].
Qed.

Lemma contains_false l s : contains l s = false ↔ s ∉ l.
Proof. rewrite <- contains_spec. destruct (contains l s); naive_solver. Qed.

(** A nil pointer, or NULL. *)
Definition is_none {A} (o : option A) : bool := match o with Some _ => false | None => true end.

(** ** Lists *)

Lemma filter_existsb_nil {A} (f : A → bool) (l : list A) :
  List.filter f l = [] ↔ Forall (λ x, f x = false) l.
Proof.
  induction l as [|x l IH]; simpl; [split; constructor|].
  rewrite Forall_cons. destruct (f x) eqn:E; [naive_solver|]. rewrite IH. naive_solver.
Qed.

(** ** Hints *)

Create HintDb go.
Create Rewrite HintDb go_rw.
#[export] Hint Resolve star_refl star_one : go.
#[export] Hint Rewrite String.eqb_refl Z.eqb_refl Ascii.eqb_refl : go_rw.

(** ** Stable sorting

    [slices.SortStableFunc]: what is less first, the order kept among equals.
    The result is determined by that, so insertion stands for Go's algorithm. *)
Section StableSort.
Context {A : Type} (le : A → A → bool).

Fixpoint insert_stable (x : A) (l : list A) : list A :=
  match l with
  | [] => [x]
  | y :: l' => if le x y then x :: l else y :: insert_stable x l'
  end.

Definition sort_stable (l : list A) : list A := fold_right insert_stable [] l.

Lemma insert_stable_perm x l : insert_stable x l ≡ₚ x :: l.
Proof.
  induction l as [|y l IH]; simpl; [done|]. destruct (le x y); [done|].
  rewrite IH. apply Permutation_swap.
Qed.

Lemma sort_stable_perm l : sort_stable l ≡ₚ l.
Proof. induction l as [|x l IH]; simpl; [done|]. by rewrite insert_stable_perm, IH. Qed.

Hypothesis le_total : ∀ x y, le x y = true ∨ le y x = true.
Hypothesis le_trans : ∀ x y z, le x y = true → le y z = true → le x z = true.

Lemma insert_stable_sorted x l :
  StronglySorted (λ a b, le a b = true) l → StronglySorted (λ a b, le a b = true) (insert_stable x l).
Proof.
  induction 1 as [|y l Hl IH Hf]; simpl; [repeat constructor|]. destruct (le x y) eqn:E.
  - constructor; [by constructor|]. constructor; [done|]. eapply Forall_impl; [done|]. eauto.
  - constructor; [done|]. rewrite Forall_forall in *. intros z Hz.
    rewrite insert_stable_perm in Hz. apply elem_of_cons in Hz as [->|Hz]; [|by apply Hf].
    destruct (le_total x y); congruence.
Qed.

Lemma sort_stable_sorted l : StronglySorted (λ a b, le a b = true) (sort_stable l).
Proof. induction l; simpl; [constructor|]. by apply insert_stable_sorted. Qed.

(** What is sorted already stays as it is. *)
Lemma sort_stable_id l : StronglySorted (λ a b, le a b = true) l → sort_stable l = l.
Proof.
  induction 1 as [|x l Hl IH Hf]; simpl; [done|]. rewrite IH.
  destruct l as [|y l]; simpl; [done|]. inversion Hf as [|? ? Hxy ?]; subst. by rewrite Hxy.
Qed.
End StableSort.

(** [x] comes before [y] in [l]. *)
Definition before {A} (l : list A) (x y : A) : Prop := ∃ l1 l2 l3, l = l1 ++ x :: l2 ++ y :: l3.

Lemma before_app {A} (l1 l2 : list A) x y : x ∈ l1 → y ∈ l2 → before (l1 ++ l2) x y.
Proof.
  intros (a & b & ->)%list_elem_of_split (c & d & ->)%list_elem_of_split.
  exists a, (b ++ c), d. by rewrite <- !app_assoc.
Qed.

Lemma before_app_r {A} (l1 l2 : list A) x y : before l2 x y → before (l1 ++ l2) x y.
Proof. intros (a & b & c & ->). exists (l1 ++ a), b, c. by rewrite <- !app_assoc. Qed.

Lemma elem_filter {A} (f : A → bool) l x : x ∈ List.filter f l ↔ x ∈ l ∧ f x = true.
Proof. by rewrite list_elem_of_In, filter_In, <- list_elem_of_In. Qed.
