(* ===== verification/GoStr.v ===== *)
(** * Go's strings

    A Go string is a sequence of bytes: a [string] here. This file models what
    the program uses of packages [strings], [strconv], [unicode/utf8] and
    [path] of Go's standard library, and the dates of [time], and the lemmas the key and identifier
    round trips rest on. *)

From S2P Require Import Prelude.
Open Scope string_scope.
Open Scope Z_scope.
Open Scope list_scope.

(** ** Bytes *)

Definition byte_of (c : ascii) : Z := Z.of_N (N_of_ascii c).
Definition byte (z : Z) : ascii := ascii_of_N (Z.to_N z).

Lemma byte_of_range c : 0 ≤ byte_of c < 256.
Proof. unfold byte_of. pose proof (N_ascii_bounded c). lia. Qed.

Lemma byte_of_byte z : 0 ≤ z < 256 → byte_of (byte z) = z.
Proof. intros. unfold byte_of, byte. rewrite N_ascii_embedding; lia. Qed.

Lemma byte_of_inj a b : byte_of a = byte_of b → a = b.
Proof.
  unfold byte_of. intros H. apply N2Z.inj in H.
  rewrite <- (ascii_N_embedding a), <- (ascii_N_embedding b). congruence.
Qed.

(** [len(s)]. *)
Definition len (s : string) : Z := Z.of_nat (String.length s).

(** ** Concatenation, slices *)

Lemma app_nil_r_str s : s +:+ "" = s.
Proof. induction s; simpl; congruence. Qed.

Lemma app_assoc_str a b c : (a +:+ b) +:+ c = a +:+ (b +:+ c).
Proof. induction a; simpl; congruence. Qed.

Lemma length_app_str a b : String.length (a +:+ b) = (String.length a + String.length b)%nat.
Proof. induction a; simpl; congruence. Qed.

Lemma len_app a b : len (a +:+ b) = len a + len b.
Proof. unfold len. rewrite length_app_str. lia. Qed.

(** What every byte of a string is. *)
Fixpoint all_bytes (p : ascii → bool) (s : string) : bool :=
  match s with "" => true | String c s => p c && all_bytes p s end.

Lemma all_bytes_app p a b : all_bytes p (a +:+ b) = all_bytes p a && all_bytes p b.
Proof. induction a as [|c a IH]; [done|]. cbn. by rewrite IH, andb_assoc. Qed.

(** [s[:n]] and [s[n:]]. *)
Fixpoint take_str (n : nat) (s : string) : string :=
  match n, s with
  | S n, String c s => String c (take_str n s)
  | _, _ => ""
  end.

Fixpoint drop_str (n : nat) (s : string) : string :=
  match n, s with
  | S n, String _ s => drop_str n s
  | _, s => s
  end.

Lemma take_drop_str n s : take_str n s +:+ drop_str n s = s.
Proof. revert s; induction n; destruct s; simpl; try done. by rewrite IHn. Qed.

Lemma take_app_str a b : take_str (String.length a) (a +:+ b) = a.
Proof. induction a; simpl; [by destruct b|congruence]. Qed.

Lemma drop_app_str a b : drop_str (String.length a) (a +:+ b) = b.
Proof. induction a; simpl; [by destruct b|done]. Qed.

Lemma drop_app_sep a c b : drop_str (S (String.length a)) (a +:+ String c b) = b.
Proof. induction a; simpl; [by destruct b|done]. Qed.

Lemma length_take_str n s : String.length (take_str n s) = (n `min` String.length s)%nat.
Proof. revert s; induction n; destruct s; simpl; try done. by rewrite IHn. Qed.

Lemma length_drop_str n s : String.length (drop_str n s) = (String.length s - n)%nat.
Proof. revert s; induction n; destruct s; simpl; try done. Qed.

(** ** Searching *)

(** [strings.ContainsRune] for an ASCII byte. *)
Fixpoint has_byte (sep : ascii) (s : string) : bool :=
  match s with
  | "" => false
  | String c s => Ascii.eqb c sep || has_byte sep s
  end.

(** [strings.Cut(s, sep)] for a one-byte separator: before, after, found. *)
Fixpoint cut_byte (sep : ascii) (s : string) : string * string * bool :=
  match s with
  | "" => ("", "", false)
  | String c s =>
      if Ascii.eqb c sep then ("", s, true)
      else let '(before, after, found) := cut_byte sep s in (String c before, after, found)
  end.

(** [strings.IndexByte]: -1 when absent. *)
Fixpoint index_byte (sep : ascii) (s : string) : Z :=
  match s with
  | "" => -1
  | String c s =>
      if Ascii.eqb c sep then 0
      else let i := index_byte sep s in if i <? 0 then -1 else i + 1
  end.

(** [strings.LastIndexByte]: -1 when absent. *)
Fixpoint last_index_byte (sep : ascii) (s : string) : Z :=
  match s with
  | "" => -1
  | String c s =>
      let i := last_index_byte sep s in
      if 0 <=? i then i + 1 else if Ascii.eqb c sep then 0 else -1
  end.

(** [strings.CutPrefix]: what follows the prefix, or [None]. *)
Fixpoint cut_prefix (prefix s : string) : option string :=
  match prefix, s with
  | "", s => Some s
  | String p prefix, String c s => if Ascii.eqb p c then cut_prefix prefix s else None
  | _, _ => None
  end.

(** [strings.HasPrefix]. *)
Definition has_prefix (s prefix : string) : bool :=
  match cut_prefix prefix s with Some _ => true | None => false end.

(** [strings.TrimPrefix]. *)
Definition trim_prefix (s prefix : string) : string :=
  match cut_prefix prefix s with Some r => r | None => s end.

(** [strings.Index(s, sub)]: the first occurrence, -1 when there is none. *)
Fixpoint index_str (sub s : string) : Z :=
  match cut_prefix sub s with
  | Some _ => 0
  | None =>
      match s with
      | "" => -1
      | String _ s => let i := index_str sub s in if i <? 0 then -1 else i + 1
      end
  end.

Lemma has_byte_app c a b : has_byte c (a +:+ b) = has_byte c a || has_byte c b.
Proof. induction a; simpl; [done|]. by rewrite IHa, orb_assoc. Qed.

Lemma cut_byte_app sep a b :
  has_byte sep a = false → cut_byte sep (a +:+ String sep b) = (a, b, true).
Proof.
  induction a as [|c a IH]; simpl.
  - by rewrite Ascii.eqb_refl.
  - intros [-> H]%orb_false_iff. by rewrite IH.
Qed.

Lemma cut_byte_absent sep s : has_byte sep s = false → cut_byte sep s = (s, "", false).
Proof.
  induction s as [|c s IH]; simpl; [done|].
  intros [-> H]%orb_false_iff. by rewrite IH.
Qed.

Lemma cut_byte_found sep s a b :
  cut_byte sep s = (a, b, true) → s = a +:+ String sep b ∧ has_byte sep a = false.
Proof.
  revert a b; induction s as [|c s IH]; simpl; intros a b; [done|].
  destruct (Ascii.eqb_spec c sep) as [->|Hne].
  - intros [= <- <-]. done.
  - destruct (cut_byte sep s) as [[a' b'] f] eqn:E. intros [= <- <- ->].
    destruct (IH a' b' eq_refl) as [-> Ha]. split; [done|]. simpl.
    rewrite Ha. by destruct (Ascii.eqb_spec c sep).
Qed.

Lemma cut_byte_before sep s : has_byte sep (fst (fst (cut_byte sep s))) = false.
Proof.
  induction s as [|c s IH]; simpl; [done|].
  destruct (Ascii.eqb_spec c sep); [done|].
  destruct (cut_byte sep s) as [[a b] f]; simpl in *. rewrite IH.
  by destruct (Ascii.eqb_spec c sep).
Qed.

Lemma last_index_absent sep s : has_byte sep s = false → last_index_byte sep s = -1.
Proof.
  induction s as [|c s IH]; simpl; [done|].
  intros [-> H]%orb_false_iff. by rewrite IH.
Qed.

Lemma last_index_lb sep s : -1 ≤ last_index_byte sep s.
Proof.
  induction s as [|c s IH]; simpl; [done|].
  destruct (0 <=? last_index_byte sep s) eqn:E; bool_to_prop; [lia|].
  destruct (Ascii.eqb c sep); lia.
Qed.

Lemma last_index_neg sep s : last_index_byte sep s < 0 → has_byte sep s = false.
Proof.
  induction s as [|c s IH]; simpl; [done|].
  destruct (0 <=? last_index_byte sep s) eqn:E; bool_to_prop; [lia|].
  destruct (Ascii.eqb_spec c sep); [lia|]. auto.
Qed.

Lemma last_index_app sep a b :
  has_byte sep b = false → last_index_byte sep (a +:+ String sep b) = len a.
Proof.
  intros Hb. unfold len. induction a as [|c a IH]; simpl.
  - by rewrite last_index_absent, Ascii.eqb_refl.
  - rewrite IH. destruct (0 <=? Z.of_nat (String.length a)) eqn:E; bool_to_prop; lia.
Qed.

Lemma last_index_split sep s i :
  last_index_byte sep s = i → 0 ≤ i →
  s = take_str (Z.to_nat i) s +:+ String sep (drop_str (Z.to_nat (i + 1)) s) ∧
  has_byte sep (drop_str (Z.to_nat (i + 1)) s) = false.
Proof.
  revert i; induction s as [|c s IH]; simpl; intros i Hi Hpos; [lia|].
  destruct (0 <=? last_index_byte sep s) eqn:E; bool_to_prop.
  - destruct (IH _ eq_refl E) as [Hs Hb]. subst i.
    replace (Z.to_nat (last_index_byte sep s + 1))
      with (S (Z.to_nat (last_index_byte sep s))) in * by lia.
    replace (Z.to_nat (last_index_byte sep s + 1 + 1))
      with (S (S (Z.to_nat (last_index_byte sep s)))) by lia.
    simpl. split; [by f_equal|done].
  - destruct (Ascii.eqb_spec c sep) as [->|]; [|lia]. subst i. simpl.
    split; [by destruct s|].
    enough (has_byte sep s = false) by by destruct s.
    by apply last_index_neg.
Qed.

Lemma cut_prefix_app p s : cut_prefix p (p +:+ s) = Some s.
Proof. induction p; simpl; [by destruct s|]. by rewrite Ascii.eqb_refl. Qed.

Lemma cut_prefix_some p s r : cut_prefix p s = Some r ↔ s = p +:+ r.
Proof.
  split.
  - revert s; induction p as [|c p IH]; intros s; simpl.
    + destruct s; congruence.
    + destruct s as [|c' s]; [done|]. destruct (Ascii.eqb_spec c c'); [|done].
      intros H%IH. congruence.
  - intros ->. apply cut_prefix_app.
Qed.

(** ** Numbers in base ten *)

Definition is_digit (c : ascii) : bool := (48 <=? byte_of c) && (byte_of c <=? 57).

(** Every byte is a digit: a byte above 0x7f belongs to a rune above '9'. *)
Fixpoint all_digits (s : string) : bool :=
  match s with
  | "" => true
  | String c s => is_digit c && all_digits s
  end.

Definition digit (z : Z) : ascii := byte (48 + z).

(** The value of a string of digits, [acc] being that of the digits before. *)
Fixpoint dec_value (acc : Z) (s : string) : Z :=
  match s with
  | "" => acc
  | String c s => dec_value (10 * acc + (byte_of c - 48)) s
  end.

Fixpoint itoa_loop (fuel : nat) (z : Z) (acc : string) : string :=
  let acc := String (digit (z mod 10)) acc in
  match fuel with
  | O => acc
  | S fuel => if z / 10 =? 0 then acc else itoa_loop fuel (z / 10) acc
  end.

(** [strconv.FormatInt(z, 10)], also what [%d] prints. The fuel is the number
    of bits of [z], above its number of digits ([itoa_value]). *)
Definition itoa (z : Z) : string :=
  if z <? 0 then String "-" (itoa_loop (Z.to_nat (Z.log2 (- z))) (- z) "")
  else itoa_loop (Z.to_nat (Z.log2 z)) z "".

(** [strconv.ParseInt(s, 10, 64)] on a string of digits; [None] past int64. *)
Definition parse_digits (limit : Z) (s : string) : option Z :=
  if (negb (String.eqb s "")) && all_digits s && (dec_value 0 s <=? limit)
  then Some (dec_value 0 s) else None.

(** [strconv.ParseUint(s, 10, 64)]: digits only, no sign, no underscore. *)
Definition parse_uint (s : string) : option Z := parse_digits uint64_max s.

(** [strconv.ParseInt(s, 10, 64)]. *)
Definition parse_int64 (s : string) : option Z :=
  match s with
  | String c r =>
      if Ascii.eqb c "-" then Z.opp <$> parse_digits (- int64_min) r
      else if Ascii.eqb c "+" then parse_digits int64_max r
      else parse_digits int64_max s
  | "" => None
  end.

Lemma digit_is_digit z : 0 ≤ z < 10 → is_digit (digit z) = true ∧ byte_of (digit z) = 48 + z.
Proof. intros. unfold is_digit, digit. rewrite byte_of_byte by lia. lia. Qed.

Lemma itoa_loop_value fuel z acc :
  0 ≤ z < 2 ^ (Z.of_nat fuel + 1) →
  dec_value 0 (itoa_loop fuel z acc) = dec_value z acc.
Proof.
  revert z acc; induction fuel as [|fuel IH]; intros z acc Hz.
  - simpl. rewrite (Z.mod_small z 10) by (simpl in Hz; lia).
    destruct (digit_is_digit z) as [_ ->]; [simpl in Hz; lia|]. f_equal; lia.
  - cbn [itoa_loop].
    assert (0 ≤ z mod 10 < 10) as Hm by (apply Z.mod_pos_bound; lia).
    pose proof (Z.div_mod z 10 ltac:(lia)) as Hdm.
    destruct (digit_is_digit (z mod 10) Hm) as [_ Hd].
    destruct (z / 10 =? 0) eqn:E; bool_to_prop.
    + simpl. rewrite Hd. f_equal. lia.
    + rewrite IH.
      * simpl. rewrite Hd. f_equal. lia.
      * replace (Z.of_nat (S fuel) + 1) with (Z.succ (Z.of_nat fuel + 1)) in Hz by lia.
        rewrite Z.pow_succ_r in Hz by lia. lia.
Qed.

Lemma itoa_loop_digits fuel z acc :
  0 ≤ z → all_digits acc = true →
  all_digits (itoa_loop fuel z acc) = true ∧ itoa_loop fuel z acc ≠ "".
Proof.
  revert z acc; induction fuel as [|fuel IH]; intros z acc Hz Hacc; cbn [itoa_loop].
  - destruct (digit_is_digit (z mod 10)) as [Hd _]; [apply Z.mod_pos_bound; lia|].
    simpl. by rewrite Hd, Hacc.
  - destruct (digit_is_digit (z mod 10)) as [Hd _]; [apply Z.mod_pos_bound; lia|].
    destruct (z / 10 =? 0) eqn:E.
    + simpl. by rewrite Hd, Hacc.
    + apply IH; [apply Z.div_pos; lia|]. simpl. by rewrite Hd, Hacc.
Qed.

Lemma itoa_digits z : 0 ≤ z → all_digits (itoa z) = true ∧ itoa z ≠ "".
Proof.
  intros Hz. unfold itoa. destruct (z <? 0) eqn:E; bool_to_prop; [lia|].
  by apply itoa_loop_digits.
Qed.

Lemma itoa_value z : 0 ≤ z → dec_value 0 (itoa z) = z.
Proof.
  intros Hz. unfold itoa. destruct (z <? 0) eqn:E; bool_to_prop; [lia|].
  rewrite itoa_loop_value; [done|]. split; [done|].
  destruct (decide (z = 0)) as [->|]; [done|].
  rewrite Z2Nat.id by apply Z.log2_nonneg.
  replace (Z.log2 z + 1) with (Z.succ (Z.log2 z)) by lia.
  apply Z.log2_spec. lia.
Qed.

Lemma parse_itoa limit z : 0 ≤ z ≤ limit → parse_digits limit (itoa z) = Some z.
Proof.
  intros [Hz Hl]. unfold parse_digits. rewrite (itoa_value z Hz).
  destruct (itoa_digits z Hz) as [-> Hne].
  destruct (String.eqb_spec (itoa z) ""); [done|]. simpl.
  by destruct (Z.leb_spec z limit); [|lia].
Qed.

Lemma itoa_inj a b : 0 ≤ a → 0 ≤ b → itoa a = itoa b → a = b.
Proof. intros Ha Hb H. rewrite <- (itoa_value a), <- (itoa_value b) by done. congruence. Qed.

Lemma all_digits_no_byte c s : is_digit c = false → all_digits s = true → has_byte c s = false.
Proof.
  intros Hc. induction s as [|d s IH]; simpl; [done|]. intros [Hd Hs]%andb_true_iff.
  rewrite IH by done. destruct (Ascii.eqb_spec d c); [congruence|done].
Qed.

Lemma itoa_no_byte c z : 0 ≤ z → is_digit c = false → has_byte c (itoa z) = false.
Proof. intros. apply all_digits_no_byte; [done|]. by apply itoa_digits. Qed.

(** [strings.Split(s, sep)] for a one-byte separator. *)
Fixpoint split_byte (sep : ascii) (s : string) : list string :=
  match s with
  | "" => [""]
  | String c s =>
      if Ascii.eqb c sep then "" :: split_byte sep s
      else
        match split_byte sep s with
        | x :: l => String c x :: l
        | [] => [String c ""]
        end
  end.

Lemma split_byte_app sep a b :
  split_byte sep (a +:+ String sep b) = split_byte sep a ++ split_byte sep b.
Proof.
  induction a as [|c a IH]; cbn [String.append split_byte].
  - by rewrite Ascii.eqb_refl.
  - rewrite IH. destruct (Ascii.eqb c sep); [done|].
    by destruct (split_byte sep a) as [|x l] eqn:E; [destruct a; cbn in E; repeat case_match|].
Qed.

(** ** Order

    Go's order on strings, byte by byte ([strings.Compare], [<]). *)
Definition str_le (a b : string) : bool := match String.compare a b with Gt => false | _ => true end.
Definition str_lt (a b : string) : bool := match String.compare a b with Lt => true | _ => false end.

Lemma ascii_compare a b : Ascii.compare a b = (byte_of a ?= byte_of b).
Proof. unfold Ascii.compare, byte_of. by rewrite N2Z.inj_compare. Qed.

Lemma str_compare_cons a s b t :
  String.compare (String a s) (String b t) = match byte_of a ?= byte_of b with Eq => String.compare s t | c => c end.
Proof. rewrite <- ascii_compare. done. Qed.

Lemma str_compare_refl s : String.compare s s = Eq.
Proof. induction s as [|a s IH]; [done|]. by rewrite str_compare_cons, Z.compare_refl. Qed.

Lemma str_compare_eq s t : String.compare s t = Eq → s = t.
Proof.
  revert t. induction s as [|a s IH]; intros [|b t]; try done. rewrite str_compare_cons.
  destruct (Z.compare_spec (byte_of a) (byte_of b)) as [H| |]; [|done..]. intros Hs. apply byte_of_inj in H as ->. f_equal. by apply IH.
Qed.

Lemma str_compare_sym s t : String.compare t s = CompOpp (String.compare s t).
Proof.
  revert t. induction s as [|a s IH]; intros [|b t]; try done. rewrite !str_compare_cons, Z.compare_antisym, IH.
  by destruct (byte_of a ?= byte_of b).
Qed.

Lemma str_compare_trans s t u c : String.compare s t = c → String.compare t u = c → String.compare s u = c.
Proof.
  revert t u. induction s as [|a s IH]; intros [|b t] [|d u] H1 H2; try (cbn in *; congruence).
  rewrite str_compare_cons in *.
  destruct (Z.compare_spec (byte_of a) (byte_of b)), (Z.compare_spec (byte_of b) (byte_of d)); try congruence;
    destruct (Z.compare_spec (byte_of a) (byte_of d)); try congruence; try lia; by apply (IH t u).
Qed.

Lemma str_le_total a b : str_le a b = true ∨ str_le b a = true.
Proof. unfold str_le. rewrite (str_compare_sym a b). destruct (String.compare a b); auto. Qed.

Lemma str_le_lt a b : str_le a b = negb (str_lt b a).
Proof. unfold str_le, str_lt. rewrite (str_compare_sym a b). by destruct (String.compare a b). Qed.

Lemma str_lt_trans a b c : str_lt a b = true → str_lt b c = true → str_lt a c = true.
Proof.
  unfold str_lt. destruct (String.compare a b) eqn:E1; try done. destruct (String.compare b c) eqn:E2; try done.
  by rewrite (str_compare_trans a b c Lt).
Qed.

Lemma str_le_cases a b : str_le a b = true ↔ a = b ∨ str_lt a b = true.
Proof.
  unfold str_le, str_lt. split.
  - destruct (String.compare a b) eqn:E; [left; by apply str_compare_eq|by right|done].
  - intros [->|H]; [by rewrite str_compare_refl|]. by destruct (String.compare a b).
Qed.

Lemma str_le_trans a b c : str_le a b = true → str_le b c = true → str_le a c = true.
Proof.
  rewrite !str_le_cases. intros [->|H1] [->|H2]; auto. right. by eapply str_lt_trans.
Qed.

Lemma str_lt_irrefl a : str_lt a a = false.
Proof. unfold str_lt. by rewrite str_compare_refl. Qed.

(** ** Dates, as Go's [time] formats them

    A time is its nanoseconds since January 1 of year 1, UTC. *)

Definition day : Z := 24 * hour.

(** Year, month and day of a number of days since January 1 of year 1, by
    400-year eras that start on a March 1. *)
Definition civil (days : Z) : Z * Z * Z :=
  let z := days + 306 in
  let era := z / 146097 in
  let doe := z mod 146097 in
  let yoe := (doe - doe / 1460 + doe / 36524 - doe / 146096) / 365 in
  let doy := doe - (365 * yoe + yoe / 4 - yoe / 100) in
  let mp := (5 * doy + 2) / 153 in
  let d := doy - (153 * mp + 2) / 5 + 1 in
  let m := if mp <? 10 then mp + 3 else mp - 9 in
  (yoe + era * 400 + (if m <=? 2 then 1 else 0), m, d).

Fixpoint zeros (n : nat) : string := match n with O => "" | S n => String "0" (zeros n) end.

(** [z] in decimal, on [n] digits at least. *)
Definition pad (n : nat) (z : Z) : string := zeros (n - String.length (itoa z)) +:+ itoa z.

(** [t.UTC().Format("2006-01-02 15:04 UTC")]. *)
Definition format_utc (t : time) : string :=
  let '(y, m, d) := civil (t / day) in
  let s := t mod day in
  pad 4 y +:+ "-" +:+ pad 2 m +:+ "-" +:+ pad 2 d +:+ " " +:+
  pad 2 (s / hour) +:+ ":" +:+ pad 2 (s mod hour / minute) +:+ " UTC".

(** [time.Unix(s, 0)]. *)
Definition unix (s : Z) : time := (719162 * 86400 + s) * second.

Example format_zero : format_utc 0 = "0001-01-01 00:00 UTC".
Proof. vm_compute. reflexivity. Qed.

Example format_leap : format_utc (unix 1709251199) = "2024-02-29 23:59 UTC".
Proof. vm_compute. reflexivity. Qed.

(** [d.Round(m)] for a positive [d] and [m]: halves away from zero. *)
Definition round_duration (d m : Z) : Z :=
  let r := d mod m in
  if r + r <? m then d - r else Z.min int64_max (d + (m - r)).
