(* ===== verification/Utf8.v ===== *)
(** * UTF-8, as Go's [unicode/utf8] reads and writes it

    Runes are integers; a byte that starts no well-formed sequence decodes to
    U+FFFD with size 1, as [utf8.DecodeRuneInString] answers. *)

From S2P Require Import Prelude GoStr.
Open Scope string_scope.
Open Scope Z_scope.
Open Scope list_scope.

Definition RuneError : Z := 65533.

(** [utf8.RuneStart]: not a continuation byte 10xxxxxx. *)
Definition rune_start (c : ascii) : bool := negb (byte_of c / 64 =? 2).

Definition in_range (lo hi : Z) (c : ascii) : bool := (lo <=? byte_of c) && (byte_of c <=? hi).

(** [utf8.DecodeRuneInString]: the rune and how many bytes it takes; 0 for the
    empty string. *)
Definition decode_rune (s : string) : Z * nat :=
  match s with
  | "" => (RuneError, 0%nat)
  | String c0 s0 =>
      let b0 := byte_of c0 in
      if b0 <? 128 then (b0, 1%nat)
      else if in_range 194 223 c0 then
        match s0 with
        | String c1 _ =>
            if in_range 128 191 c1 then (b0 mod 32 * 64 + byte_of c1 mod 64, 2%nat)
            else (RuneError, 1%nat)
        | _ => (RuneError, 1%nat)
        end
      else if in_range 224 239 c0 then
        match s0 with
        | String c1 (String c2 _) =>
            if in_range (if b0 =? 224 then 160 else 128) (if b0 =? 237 then 159 else 191) c1
               && in_range 128 191 c2
            then ((b0 mod 16 * 64 + byte_of c1 mod 64) * 64 + byte_of c2 mod 64, 3%nat)
            else (RuneError, 1%nat)
        | _ => (RuneError, 1%nat)
        end
      else if in_range 240 244 c0 then
        match s0 with
        | String c1 (String c2 (String c3 _)) =>
            if in_range (if b0 =? 240 then 144 else 128) (if b0 =? 244 then 143 else 191) c1
               && in_range 128 191 c2 && in_range 128 191 c3
            then (((b0 mod 8 * 64 + byte_of c1 mod 64) * 64 + byte_of c2 mod 64) * 64
                  + byte_of c3 mod 64, 4%nat)
            else (RuneError, 1%nat)
        | _ => (RuneError, 1%nat)
        end
      else (RuneError, 1%nat)
  end.

(** The UTF-8 of a scalar value. *)
Definition encode_scalar (r : Z) : string :=
  if r <? 128 then String (byte r) ""
  else if r <? 2048 then String (byte (192 + r / 64)) (String (byte (128 + r mod 64)) "")
  else if r <? 65536 then
    String (byte (224 + r / 4096)) (String (byte (128 + r / 64 mod 64))
      (String (byte (128 + r mod 64)) ""))
  else
    String (byte (240 + r / 262144)) (String (byte (128 + r / 4096 mod 64))
      (String (byte (128 + r / 64 mod 64)) (String (byte (128 + r mod 64)) ""))).

Definition is_scalar (r : Z) : bool :=
  (0 <=? r) && (r <=? 1114111) && negb ((55296 <=? r) && (r <=? 57343)).

(** [utf8.AppendRune("", r)]: a surrogate or an out-of-range rune is written
    as U+FFFD. *)
Definition encode_rune (r : Z) : string := encode_scalar (if is_scalar r then r else RuneError).

(** The first byte of [s] starts no well-formed sequence. *)
Definition invalid_start (s : string) : bool :=
  let '(r, n) := decode_rune s in (r =? RuneError) && (n =? 1)%nat.

(** [utf8.ValidString]. The fuel is the length: each rune takes a byte. *)
Fixpoint valid_loop (fuel : nat) (s : string) : bool :=
  match fuel, s with
  | _, "" => true
  | O, _ => false
  | S fuel, s => negb (invalid_start s) && valid_loop fuel (drop_str (snd (decode_rune s)) s)
  end.

Definition valid_utf8 (s : string) : bool := valid_loop (String.length s) s.

(** [for len(s) > n { n-- while !RuneStart(s[n]) }]: the largest rune start at
    most [n], the loop [Clip], [TurnEnd] and [runeStart] share. *)
Fixpoint back_to_rune (s : string) (n : nat) : nat :=
  match n with
  | O => O
  | S n' =>
      match String.get n s with
      | Some c => if rune_start c then n else back_to_rune s n'
      | None => n
      end
  end.

Lemma decode_rune_size s : s ≠ "" → (1 ≤ snd (decode_rune s) ≤ 4)%nat.
Proof.
  intros Hs. unfold decode_rune. destruct s as [|c0 s0]; [done|].
  repeat (case_match; simpl; try lia).
Qed.

Lemma decode_rune_len s : (snd (decode_rune s) ≤ String.length s)%nat.
Proof.
  unfold decode_rune. destruct s as [|c0 s0]; [simpl; lia|].
  repeat (case_match; simpl; try lia).
Qed.

Lemma back_to_rune_le s n : (back_to_rune s n ≤ n)%nat.
Proof. induction n; simpl; [done|]. repeat (case_match; try lia). Qed.

Lemma back_to_rune_start s n c :
  (n < String.length s)%nat → String.get (back_to_rune s n) s = Some c →
  back_to_rune s n = 0%nat ∨ rune_start c = true.
Proof.
  intros Hn. induction n as [|n IH]; cbn [back_to_rune]; [by left|].
  destruct (String.get (S n) s) as [c'|] eqn:E.
  - destruct (rune_start c') eqn:Hr.
    + rewrite E. intros [= <-]. by right.
    + apply IH. lia.
  - rewrite E. done.
Qed.

Lemma get_lt s n : (n < String.length s)%nat → ∃ c, String.get n s = Some c.
Proof. revert n; induction s; intros [|n]; simpl; intros; try lia; eauto. apply IHs. lia. Qed.

(** Arithmetic on the bytes of a rune. *)
Local Ltac Zify.zify_post_hook ::= Z.to_euclidean_division_equations.

Lemma byte_eq z c : z = byte_of c → byte z = c.
Proof. intros ->. apply byte_of_inj, byte_of_byte, byte_of_range. Qed.

Lemma is_scalar_spec r : is_scalar r = true ↔ 0 ≤ r ≤ 1114111 ∧ ¬ (55296 ≤ r ≤ 57343).
Proof. unfold is_scalar. rewrite !andb_true_iff, negb_true_iff, andb_false_iff. lia. Qed.

Ltac encode_case :=
  unfold encode_scalar; repeat (case_match; bool_to_prop; try (exfalso; lia));
  repeat (apply f_equal2; [f_equal; lia|]); reflexivity.

Lemma encode_2 b0 b1 :
  194 ≤ b0 ≤ 223 → 128 ≤ b1 ≤ 191 →
  encode_scalar (b0 mod 32 * 64 + b1 mod 64) = String (byte b0) (String (byte b1) "").
Proof. intros. encode_case. Qed.

Lemma encode_3 b0 b1 b2 :
  224 ≤ b0 ≤ 239 → (if b0 =? 224 then 160 else 128) ≤ b1 ≤ 191 → 128 ≤ b2 ≤ 191 →
  encode_scalar ((b0 mod 16 * 64 + b1 mod 64) * 64 + b2 mod 64) =
  String (byte b0) (String (byte b1) (String (byte b2) "")).
Proof. intros ? H1 ?. destruct (b0 =? 224) eqn:E; bool_to_prop; encode_case. Qed.

Lemma encode_4 b0 b1 b2 b3 :
  240 ≤ b0 ≤ 244 → (if b0 =? 240 then 144 else 128) ≤ b1 ≤ 191 → 128 ≤ b2 ≤ 191 → 128 ≤ b3 ≤ 191 →
  encode_scalar (((b0 mod 8 * 64 + b1 mod 64) * 64 + b2 mod 64) * 64 + b3 mod 64) =
  String (byte b0) (String (byte b1) (String (byte b2) (String (byte b3) ""))).
Proof. intros ? H1 ? ?. destruct (b0 =? 240) eqn:E; bool_to_prop; encode_case. Qed.

Lemma byte_byte_of c : byte (byte_of c) = c.
Proof. by apply byte_eq. Qed.

Lemma in_range_spec lo hi c : in_range lo hi c = true ↔ lo ≤ byte_of c ≤ hi.
Proof. unfold in_range. rewrite andb_true_iff, !Z.leb_le. done. Qed.

(** The four shapes of a string that starts with a rune. *)
Lemma decode_rune_cases s :
  s ≠ "" → invalid_start s = false →
  is_scalar (fst (decode_rune s)) = true ∧
  encode_scalar (fst (decode_rune s)) = take_str (snd (decode_rune s)) s.
Proof.
  unfold invalid_start. intros Hne. destruct s as [|c0 s0]; [done|]. clear Hne.
  unfold decode_rune. pose proof (byte_of_range c0) as H0.
  destruct (byte_of c0 <? 128) eqn:E0.
  { intros _. bool_to_prop. cbn [fst snd take_str]. split; [apply is_scalar_spec; lia|].
    unfold encode_scalar. destruct (byte_of c0 <? 128) eqn:E; bool_to_prop; [|lia].
    by rewrite byte_byte_of. }
  destruct (in_range 194 223 c0) eqn:E1.
  { destruct s0 as [|c1 s1]; [done|]. destruct (in_range 128 191 c1) eqn:E2; [|done].
    intros _. apply in_range_spec in E1, E2. cbn [fst snd take_str]. split; [apply is_scalar_spec; lia|].
    rewrite encode_2, !byte_byte_of by done. by destruct s1. }
  destruct (in_range 224 239 c0) eqn:E2.
  { destruct s0 as [|c1 [|c2 s2]]; [done|done|].
    match goal with |- context [if ?b && ?d then _ else _] => destruct (b && d) eqn:E3 end; [|done].
    intros _. apply andb_true_iff in E3 as [E3 E4]. apply in_range_spec in E2, E3, E4.
    cbn [fst snd take_str]. split.
    - apply is_scalar_spec. destruct (byte_of c0 =? 224) eqn:?, (byte_of c0 =? 237) eqn:?; bool_to_prop; lia.
    - rewrite encode_3, !byte_byte_of; [by destruct s2|done| |done].
      destruct (byte_of c0 =? 237); lia. }
  destruct (in_range 240 244 c0) eqn:E3; [|done].
  destruct s0 as [|c1 [|c2 [|c3 s3]]]; [done|done|done|].
  match goal with |- context [if ?b && ?d then _ else _] => destruct (b && d) eqn:E4 end; [|done].
  intros _. apply andb_true_iff in E4 as [[E4 E5]%andb_true_iff E6]. apply in_range_spec in E3, E4, E5, E6.
  cbn [fst snd take_str]. split.
  - apply is_scalar_spec. destruct (byte_of c0 =? 240) eqn:?, (byte_of c0 =? 244) eqn:?; bool_to_prop; lia.
  - rewrite encode_4, !byte_byte_of; [by destruct s3|done| |done|done].
    destruct (byte_of c0 =? 244); lia.
Qed.

(** What the encoder writes of a decoded rune is the bytes it came from. *)
Lemma encode_decode s :
  s ≠ "" → invalid_start s = false →
  encode_rune (fst (decode_rune s)) = take_str (snd (decode_rune s)) s.
Proof.
  intros Hne Hv. destruct (decode_rune_cases s Hne Hv) as [Hs He].
  unfold encode_rune. by rewrite Hs.
Qed.

(** ** White space *)

(** [unicode.IsSpace]. *)
Definition is_space (r : Z) : bool :=
  ((9 <=? r) && (r <=? 13)) || (r =? 32) || (r =? 133) || (r =? 160) || (r =? 5760) ||
  ((8192 <=? r) && (r <=? 8202)) || (r =? 8232) || (r =? 8233) || (r =? 8239) ||
  (r =? 8287) || (r =? 12288).

Fixpoint trim_left_loop (fuel : nat) (s : string) : string :=
  match fuel, s with
  | S fuel, String _ _ =>
      let '(r, n) := decode_rune s in
      if is_space r then trim_left_loop fuel (drop_str n s) else s
  | _, _ => s
  end.

(** [strings.TrimLeftFunc(s, unicode.IsSpace)]; a rune is one byte at least. *)
Definition trim_left (s : string) : string := trim_left_loop (String.length s) s.

(** [strings.TrimRightFunc(s, unicode.IsSpace)]: without its longest suffix of
    spaces. No encoding of a space ends another, so reading the runes from the
    end, as Go does, stops at the same place. *)
Fixpoint trim_right (s : string) : string :=
  match s with
  | "" => ""
  | String c s' => if String.eqb (trim_left s) "" then "" else String c (trim_right s')
  end.

(** [strings.TrimSpace]. *)
Definition trim_space (s : string) : string := trim_right (trim_left s).

(** [strings.Fields]: what the white space separates, [cur] read already. *)
Definition flush_field (cur : string) : list string := if String.eqb cur "" then [] else [cur].

Fixpoint fields_loop (fuel : nat) (cur s : string) : list string :=
  match fuel, s with
  | S fuel, String _ _ =>
      let '(r, n) := decode_rune s in
      if is_space r then flush_field cur ++ fields_loop fuel "" (drop_str n s)
      else fields_loop fuel (cur +:+ take_str n s) (drop_str n s)
  | _, _ => flush_field cur
  end.

Definition fields (s : string) : list string := fields_loop (String.length s) "" s.

Example trim_space_ascii : trim_space (" a b" +:+ String (byte 10) " ") = "a b".
Proof. reflexivity. Qed.

Example trim_space_unicode :
  trim_space (encode_rune 12288 +:+ "x" +:+ encode_rune 160 +:+ " ") = "x".
Proof. vm_compute. reflexivity. Qed.

Example fields_mixed :
  fields (" a" +:+ String (byte 10) "bc " +:+ encode_rune 8239 +:+ encode_rune 233) = ["a"; "bc"; encode_rune 233].
Proof. vm_compute. reflexivity. Qed.

Lemma trim_left_idle c s : is_space (fst (decode_rune (String c s))) = false → trim_left (String c s) = String c s.
Proof. unfold trim_left. cbn [String.length trim_left_loop]. by destruct (decode_rune _) as [r k]; cbn; intros ->. Qed.

Lemma trim_right_empty s : trim_left s = "" → trim_right s = "".
Proof. destruct s; cbn [trim_right]; [done|]. by intros ->. Qed.

Lemma decode_rune_app s t :
  s ≠ "" → invalid_start s = false → decode_rune (take_str (snd (decode_rune s)) s +:+ t) = decode_rune s.
Proof.
  unfold invalid_start. intros Hne. destruct s as [|c0 s0]; [done|]. clear Hne.
  unfold decode_rune.
  destruct (byte_of c0 <? 128) eqn:E0; [intros _; cbn [fst snd take_str String.append]; by rewrite E0|].
  destruct (in_range 194 223 c0) eqn:E1.
  { destruct s0 as [|c1 s1]; [done|]. destruct (in_range 128 191 c1) eqn:E2; [|done].
    intros _. cbn [fst snd take_str String.append]. by rewrite E0, E1, E2. }
  destruct (in_range 224 239 c0) eqn:E2.
  { destruct s0 as [|c1 [|c2 s2]]; [done|done|].
    match goal with |- context [if ?b && ?d then _ else _] => destruct (b && d) eqn:E3 end; [|done].
    intros _. cbn [fst snd take_str String.append]. by rewrite E0, E1, E2, E3. }
  destruct (in_range 240 244 c0) eqn:E3; [|done].
  destruct s0 as [|c1 [|c2 [|c3 s3]]]; [done|done|done|].
  match goal with |- context [if ?b && ?d then _ else _] => destruct (b && d) eqn:E4 end; [|done].
  intros _. cbn [fst snd take_str String.append]. by rewrite E0, E1, E2, E3, E4.
Qed.

(** ** Cutting valid text *)

Lemma continuation_no_start c lo hi : 128 ≤ lo → hi ≤ 191 → in_range lo hi c = true → rune_start c = false.
Proof.
  intros Hl Hh [H1 H2]%in_range_spec. unfold rune_start. replace (byte_of c / 64) with 2; [done|].
  pose proof (byte_of_range c). lia.
Qed.

(** Inside a rune there is no rune start. *)
Lemma rune_inside s k c :
  s ≠ "" → invalid_start s = false → (0 < k < snd (decode_rune s))%nat → String.get k s = Some c → rune_start c = false.
Proof.
  unfold invalid_start. intros Hne. destruct s as [|c0 s0]; [done|]. clear Hne.
  unfold decode_rune.
  destruct (byte_of c0 <? 128) eqn:E0; [intros _; cbn [snd]; lia|].
  destruct (in_range 194 223 c0) eqn:E1.
  { destruct s0 as [|c1 s1]; [done|]. destruct (in_range 128 191 c1) eqn:E2; [|done].
    intros _ Hk. cbn [snd] in Hk. assert (k = 1%nat) as -> by lia. cbn. intros [= <-].
    by eapply continuation_no_start; [..|exact E2]. }
  destruct (in_range 224 239 c0) eqn:E2.
  { destruct s0 as [|c1 [|c2 s2]]; [done|done|].
    match goal with |- context [if ?b && ?d then _ else _] => destruct (b && d) eqn:E3 end; [|done].
    intros _ Hk. cbn [snd] in Hk. apply andb_true_iff in E3 as [E3 E4].
    assert (k = 1 ∨ k = 2)%nat as [->| ->] by lia; cbn; intros [= <-];
      (eapply continuation_no_start; [..|eassumption]); repeat case_match; lia. }
  destruct (in_range 240 244 c0) eqn:E3; [|done].
  destruct s0 as [|c1 [|c2 [|c3 s3]]]; [done|done|done|].
  match goal with |- context [if ?b && ?d then _ else _] => destruct (b && d) eqn:E4 end; [|done].
  intros _ Hk. cbn [snd] in Hk. apply andb_true_iff in E4 as [[E4 E5]%andb_true_iff E6].
  assert (k = 1 ∨ k = 2 ∨ k = 3)%nat as [->|[->| ->]] by lia; cbn; intros [= <-];
    (eapply continuation_no_start; [..|eassumption]); repeat case_match; lia.
Qed.

Lemma get_drop n k s : String.get k (drop_str n s) = String.get (n + k) s.
Proof. revert s; induction n; destruct s; cbn; done. Qed.

Lemma take_add n k s : take_str (n + k) s = take_str n s +:+ take_str k (drop_str n s).
Proof.
  revert s; induction n as [|n IH]; intros s; [by destruct s|].
  destruct s; cbn [Nat.add take_str drop_str String.append]; [by destruct k|by rewrite IH].
Qed.

Lemma valid_loop_mono f g s : (String.length s ≤ g)%nat → valid_loop f s = true → valid_loop g s = true.
Proof.
  revert g s. induction f as [|f IH]; intros g [|c s]; try (by destruct g); cbn [valid_loop].
  destruct g as [|g]; cbn [String.length]; [lia|]. intros Hg. cbn [valid_loop]. intros [-> Hr]%andb_true_iff.
  cbn [andb]. apply IH; [|done]. rewrite length_drop_str. cbn [String.length].
  pose proof (decode_rune_size (String c s) ltac:(done)). lia.
Qed.

Lemma valid_loop_take f s k :
  valid_loop f s = true →
  (k = 0%nat ∨ (String.length s ≤ k)%nat ∨ ∃ c, String.get k s = Some c ∧ rune_start c = true) →
  valid_loop f (take_str k s) = true.
Proof.
  revert s k. induction f as [|f IH]; intros [|c0 s0] k; try (by destruct k); cbn [valid_loop].
  set (s := String c0 s0). set (n := snd (decode_rune s)). intros [Hv%negb_true_iff Hr]%andb_true_iff Hk.
  pose proof (decode_rune_size s ltac:(done)) as Hsz. pose proof (decode_rune_len s) as Hln. fold n in Hsz, Hln.
  destruct (decide (k = 0%nat)) as [->|Hk0]; [by destruct s|].
  assert (n ≤ k)%nat as Hnk.
  { destruct (decide (n ≤ k)%nat); [done|]. exfalso. destruct Hk as [?|[?|(c & Hc & Hs)]]; [done|lia|].
    rewrite (rune_inside s k c) in Hs; [done|done|done|fold n; lia|done]. }
  assert (Htk : take_str k s = take_str n s +:+ take_str (k - n) (drop_str n s)).
  { rewrite <- take_add. f_equal. lia. }
  assert (Hdec : decode_rune (take_str k s) = decode_rune s) by (rewrite Htk; apply decode_rune_app; done).
  destruct (take_str k s) as [|c1 s1] eqn:Ek; [by destruct k|]. cbn [valid_loop]. rewrite <- Ek in *.
  unfold invalid_start in *. rewrite Hdec. destruct (decode_rune s) as [r m] eqn:Ed. cbn [snd] in *. subst n.
  rewrite Hv. cbn [negb andb]. rewrite Htk.
  replace (drop_str m (take_str m s +:+ take_str (k - m) (drop_str m s))) with (take_str (k - m) (drop_str m s)).
  - apply IH; [done|]. destruct (decide (k = m)) as [->|Hne]; [left; lia|].
    destruct Hk as [?|[Hk|(c & Hc & Hs)]]; [done| |].
    + right; left. rewrite length_drop_str. lia.
    + right; right. exists c. rewrite get_drop. replace (m + (k - m))%nat with k by lia. done.
  - pose proof (drop_app_str (take_str m s) (take_str (k - m) (drop_str m s))) as Hd.
    by rewrite length_take_str, Nat.min_l in Hd by lia.
Qed.

(** Valid text cut at a rune start is valid. *)
Lemma valid_take s k :
  valid_utf8 s = true → (k = 0%nat ∨ ∃ c, String.get k s = Some c ∧ rune_start c = true) →
  valid_utf8 (take_str k s) = true.
Proof.
  intros Hv Hk. apply valid_loop_mono with (String.length s); [done|]. apply valid_loop_take; [done|tauto].
Qed.

Lemma valid_loop_app f g s t :
  valid_loop f s = true → valid_utf8 t = true → (String.length s + String.length t ≤ g)%nat →
  valid_loop g (s +:+ t) = true.
Proof.
  intros Hs Ht. revert g s Hs. induction f as [|f IH]; intros g [|c0 s0]; cbn [valid_loop]; try done;
    cbn [String.append String.length].
  - intros _ Hg. apply valid_loop_mono with (String.length t); [lia|done].
  - intros _ Hg. apply valid_loop_mono with (String.length t); [lia|done].
  - set (s := String c0 s0). intros [Hv%negb_true_iff Hr]%andb_true_iff Hg.
    pose proof (decode_rune_size s ltac:(done)) as Hsz. pose proof (decode_rune_len s) as Hln.
    assert (Hst : s +:+ t = take_str (snd (decode_rune s)) s +:+ (drop_str (snd (decode_rune s)) s +:+ t))
      by (by rewrite <- app_assoc_str, take_drop_str).
    destruct g as [|g]; [lia|]. change (String c0 (s0 +:+ t)) with (s +:+ t). rewrite Hst.
    pose proof (decode_rune_app s (drop_str (snd (decode_rune s)) s +:+ t) ltac:(done) Hv) as Hd.
    unfold invalid_start in Hv.
    destruct (take_str (snd (decode_rune s)) s +:+ _) as [|c1 s1] eqn:E; [done|]. cbn [valid_loop].
    unfold invalid_start. rewrite Hd, <- E. destruct (decode_rune s) as [r n]. cbn [fst snd] in *. rewrite Hv. cbn [negb andb].
    pose proof (drop_app_str (take_str n s) (drop_str n s +:+ t)) as Hda.
    rewrite length_take_str, Nat.min_l in Hda by lia. rewrite Hda.
    apply IH; [done|]. rewrite length_drop_str. cbn in Hsz. subst s. cbn [String.length]. lia.
Qed.

Lemma valid_app s t : valid_utf8 s = true → valid_utf8 t = true → valid_utf8 (s +:+ t) = true.
Proof.
  intros Hs Ht. unfold valid_utf8 at 1. rewrite length_app_str. by apply (valid_loop_app (String.length s)).
Qed.
