(* ===== verification/GoPath.v ===== *)
(** * Globs: [path.Match] of Go's standard library

    The access rules and the agents' tool lists are globs read by
    [path.Match]. The pattern is cut into chunks (a run of stars, then what
    precedes the next star outside a class), each matched in turn. *)

From S2P Require Import Prelude GoStr Utf8.
Open Scope string_scope.
Open Scope Z_scope.
Open Scope list_scope.

Definition slash : ascii := "/".
Definition star_char : ascii := "*".
Definition backslash : ascii := "\".

(** [scanChunk], past the stars: what precedes the next star outside a class,
    and what follows. *)
Fixpoint scan_loop (inrange : bool) (s : string) : string * string :=
  match s with
  | "" => ("", "")
  | String c s' =>
      if Ascii.eqb c backslash then
        match s' with
        | "" => (String c "", "")
        | String d s'' => let '(ch, r) := scan_loop inrange s'' in (String c (String d ch), r)
        end
      else if Ascii.eqb c "[" then let '(ch, r) := scan_loop true s' in (String c ch, r)
      else if Ascii.eqb c "]" then let '(ch, r) := scan_loop false s' in (String c ch, r)
      else if Ascii.eqb c star_char && negb inrange then ("", s)
      else let '(ch, r) := scan_loop inrange s' in (String c ch, r)
  end.

Fixpoint trim_stars (s : string) : bool * string :=
  match s with
  | String c s' => if Ascii.eqb c star_char then (true, snd (trim_stars s')) else (false, s)
  | "" => (false, "")
  end.

(** [scanChunk]. *)
Definition scan_chunk (pattern : string) : bool * string * string :=
  let '(st, p) := trim_stars pattern in
  let '(ch, r) := scan_loop false p in (st, ch, r).

(** All the chunks of a pattern; the length is enough fuel, each chunk taking
    a byte at least ([scan_chunk_shorter]). *)
Fixpoint chunks (fuel : nat) (pattern : string) : list (bool * string) :=
  match fuel, pattern with
  | S fuel, String _ _ =>
      let '(st, ch, r) := scan_chunk pattern in (st, ch) :: chunks fuel r
  | _, _ => []
  end.

(** [getEsc]: a possibly escaped character of a class; [None]: ErrBadPattern. *)
Definition get_esc (chunk : string) : option (Z * string) :=
  match chunk with
  | "" => None
  | String c rest =>
      if Ascii.eqb c "-" || Ascii.eqb c "]" then None
      else
        let chunk := if Ascii.eqb c backslash then rest else chunk in
        if String.eqb chunk "" then None
        else
          let '(r, n) := decode_rune chunk in
          if (r =? RuneError) && (n =? 1)%nat then None
          else
            let nchunk := drop_str n chunk in
            if String.eqb nchunk "" then None else Some (r, nchunk)
  end.

(** The ranges of a class, up to its ']': whether [r] is in one of them. *)
Fixpoint class_loop (fuel : nat) (r : Z) (matched first : bool) (chunk : string) : option (bool * string) :=
  match fuel with
  | O => None
  | S fuel =>
      match chunk, first with
      | String "]" rest, false => Some (matched, rest)
      | _, _ =>
          '(lo, chunk) ← get_esc chunk;
          '(hi, chunk) ←
            match chunk with
            | String "-" rest => get_esc rest
            | _ => Some (lo, chunk)
            end;
          class_loop fuel r (matched || ((lo <=? r) && (r <=? hi))) false chunk
      end
  end.

(** [matchChunk]: a malformed chunk, no match, or what is left of the name. *)
Inductive chunk_result := BadPattern | NoMatch | Rest (t : string).

Fixpoint match_chunk (fuel : nat) (failed : bool) (chunk s : string) : chunk_result :=
  match chunk with
  | "" => if failed then NoMatch else Rest s
  | String c chunk' =>
      match fuel with
      | O => BadPattern
      | S fuel =>
          let failed := failed || String.eqb s "" in
          if Ascii.eqb c "[" then
            let '(r, s) :=
              if failed then (0, s)
              else let '(r, n) := decode_rune s in (r, drop_str n s) in
            let '(negated, chunk') :=
              match chunk' with
              | String "^" rest => (true, rest)
              | _ => (false, chunk')
              end in
            match class_loop (S (String.length chunk')) r false true chunk' with
            | None => BadPattern
            | Some (matched, chunk') =>
                match_chunk fuel (failed || Bool.eqb matched negated) chunk' s
            end
          else if Ascii.eqb c "?" then
            if failed then match_chunk fuel true chunk' s
            else
              match_chunk fuel (match s with String "/" _ => true | _ => false end) chunk'
                (drop_str (snd (decode_rune s)) s)
          else
            let literal d rest :=
              if failed then match_chunk fuel true rest s
              else
                match_chunk fuel (match s with String e _ => negb (Ascii.eqb d e) | _ => true end)
                  rest (drop_str 1 s) in
            if Ascii.eqb c backslash then
              match chunk' with
              | "" => BadPattern
              | String d rest => literal d rest
              end
            else literal c chunk'
      end
  end.

(** [matchChunk(chunk, s)]: each step of its loop takes a byte of the chunk. *)
Definition matchChunk (chunk s : string) : chunk_result :=
  match_chunk (String.length chunk) false chunk s.

(** Trying a starred chunk further in the name, never past a '/': what is left
    once it matches, ([None] inside [inr]) when it does not, or [inl] for a
    malformed chunk. [last]: no pattern follows, so the name must be used up. *)
Fixpoint star_loop (chunk : string) (last : bool) (name : string) : unit + option string :=
  match name with
  | "" => inr None
  | String c name' =>
      if Ascii.eqb c slash then inr None
      else
        match matchChunk chunk name' with
        | BadPattern => inl tt
        | Rest t => if last && negb (String.eqb t "") then star_loop chunk last name' else inr (Some t)
        | NoMatch => star_loop chunk last name'
        end
  end.

(** The rest of the pattern, checked once the match failed. *)
Fixpoint well_formed (cs : list (bool * string)) : bool :=
  match cs with
  | [] => true
  | (_, ch) :: cs =>
      match matchChunk ch "" with BadPattern => false | _ => well_formed cs end
  end.

(** [Match] on the chunks: whether the name matches, or [None] for
    ErrBadPattern. *)
Fixpoint match_chunks (cs : list (bool * string)) (name : string) : option bool :=
  match cs with
  | [] => Some (String.eqb name "")
  | (st, ch) :: cs =>
      if st && String.eqb ch "" then Some (negb (has_byte slash name))
      else
        let last := match cs with [] => true | _ => false end in
        let no_match := if well_formed cs then Some false else None in
        match matchChunk ch name with
        | BadPattern => None
        | r =>
            let direct :=
              match r with
              | Rest t => if String.eqb t "" || negb last then Some t else None
              | _ => None
              end in
            match direct with
            | Some t => match_chunks cs t
            | None =>
                if st then
                  match star_loop ch last name with
                  | inl _ => None
                  | inr (Some t) => match_chunks cs t
                  | inr None => no_match
                  end
                else no_match
            end
        end
  end.

(** [path.Match(pattern, name)]: [None] is ErrBadPattern. *)
Definition path_match (pattern name : string) : option bool :=
  match_chunks (chunks (String.length pattern) pattern) name.

#[global] Arguments path_match : simpl never.

Example path_match_1 : path_match "agent_*" "agent_jarvis" = Some true. Proof. reflexivity. Qed.
Example path_match_2 : path_match "web_*" "web/x" = Some false. Proof. reflexivity. Qed.
Example path_match_3 : path_match "[" "" = None. Proof. reflexivity. Qed.
Example path_match_4 : path_match "a[b-d]?e*f" "acze12f" = Some true. Proof. reflexivity. Qed.
Example path_match_5 : path_match "*a*b" "xxaybzb" = Some true. Proof. reflexivity. Qed.
Example path_match_6 : path_match "a[^b]\*" "ac*" = Some true. Proof. reflexivity. Qed.
Example path_match_7 : path_match "*" "a/b" = Some false. Proof. reflexivity. Qed.
Example path_match_8 : path_match "a*[" "b" = None. Proof. reflexivity. Qed.

(** ** Patterns without wildcards *)

Definition is_meta (c : ascii) : bool :=
  Ascii.eqb c star_char || Ascii.eqb c "?" || Ascii.eqb c "[" || Ascii.eqb c backslash.

(** A pattern whose every byte stands for itself. *)
Fixpoint plain (s : string) : bool :=
  match s with "" => true | String c s => negb (is_meta c) && plain s end.

Lemma is_meta_false c :
  is_meta c = false →
  Ascii.eqb c star_char = false ∧ Ascii.eqb c "?" = false ∧
  Ascii.eqb c "[" = false ∧ Ascii.eqb c backslash = false.
Proof. unfold is_meta. rewrite !orb_false_iff. naive_solver. Qed.

Lemma scan_plain p r :
  plain p = true → r = "" ∨ (∃ r', r = String star_char r') → scan_loop false (p +:+ r) = (p, r).
Proof.
  intros Hp Hr. induction p as [|c p IH]; simpl.
  - destruct Hr as [->|[r' ->]]; reflexivity.
  - simpl in Hp. apply andb_true_iff in Hp as [Hc Hp]. rewrite negb_true_iff in Hc.
    apply is_meta_false in Hc as (-> & _ & -> & ->). rewrite IH by done.
    simpl. by destruct (Ascii.eqb c "]").
Qed.

Lemma match_chunk_plain fuel failed p s :
  plain p = true → (String.length p ≤ fuel)%nat →
  match_chunk fuel failed p s =
  if failed then NoMatch
  else match cut_prefix p s with Some t => Rest t | None => NoMatch end.
Proof.
  revert failed p s. induction fuel as [|fuel IH]; intros failed p s Hp Hf.
  - destruct p; simpl in *; [by destruct failed, s|lia].
  - destruct p as [|c p]; simpl in *; [by destruct failed, s|].
    apply andb_true_iff in Hp as [Hc Hp]. rewrite negb_true_iff in Hc.
    apply is_meta_false in Hc as (_ & -> & -> & ->).
    destruct failed; simpl.
    + rewrite IH by (done || lia). done.
    + destruct s as [|d s]; simpl.
      * rewrite IH by (done || lia). done.
      * rewrite IH by (done || lia). destruct (Ascii.eqb c d); simpl; [|done].
        by destruct s.
Qed.

Lemma matchChunk_plain p s :
  plain p = true →
  matchChunk p s = match cut_prefix p s with Some t => Rest t | None => NoMatch end.
Proof. intros. unfold matchChunk. by rewrite match_chunk_plain. Qed.

Lemma scan_chunk_plain p r :
  plain p = true → p ≠ "" → r = "" ∨ (∃ r', r = String star_char r') →
  scan_chunk (p +:+ r) = (false, p, r).
Proof.
  intros Hp Hne Hr. unfold scan_chunk. destruct p as [|c p]; [done|].
  assert (Ascii.eqb c star_char = false) as Hc.
  { simpl in Hp. apply andb_true_iff in Hp as [Hc _]. rewrite negb_true_iff in Hc.
    by apply is_meta_false in Hc as (? & _). }
  simpl String.append. cbn [trim_stars]. rewrite Hc.
  change (String c (p +:+ r)) with (String c p +:+ r). by rewrite scan_plain.
Qed.

Lemma chunks_S n p : p ≠ "" →
  chunks (S n) p = let '(st, ch, r) := scan_chunk p in (st, ch) :: chunks n r.
Proof. by destruct p. Qed.

Lemma cut_prefix_exact p s :
  match cut_prefix p s with Some t => String.eqb t "" | None => false end = String.eqb p s.
Proof.
  revert s; induction p as [|c p IH]; intros [|d s]; simpl; try done.
  destruct (Ascii.eqb c d); [apply IH|done].
Qed.

(** A plain pattern matches its own text alone. *)
Lemma path_match_plain p name : plain p = true → path_match p name = Some (String.eqb p name).
Proof.
  intros Hp. unfold path_match. destruct p as [|c p].
  { simpl. by destruct name. }
  cbn [String.length]. rewrite chunks_S by done.
  pose proof (scan_chunk_plain (String c p) "" Hp ltac:(done) (or_introl eq_refl)) as E.
  rewrite app_nil_r_str in E. rewrite E.
  assert (chunks (String.length p) "" = []) as -> by by destruct (String.length p).
  cbn [match_chunks andb negb]. rewrite matchChunk_plain by done.
  rewrite <- cut_prefix_exact. destruct (cut_prefix (String c p) name) as [t|]; [|done].
  destruct (String.eqb t "") eqn:Ht; cbn; [|done]. by rewrite Ht.
Qed.

(** A plain prefix and a final star match what starts with the prefix, its
    rest holding no '/'. *)
Lemma path_match_prefix p name :
  plain p = true → p ≠ "" →
  path_match (p +:+ "*") name =
  Some (match cut_prefix p name with Some t => negb (has_byte slash t) | None => false end).
Proof.
  intros Hp Hne. unfold path_match.
  rewrite length_app_str, Nat.add_comm. cbn [String.length Nat.add].
  rewrite chunks_S by by destruct p.
  rewrite scan_chunk_plain by (done || right; eauto).
  destruct (String.length p) as [|n] eqn:Hl; [by destruct p|].
  cbn [chunks]. change (scan_chunk "*") with (true, "", ""). cbv iota beta.
  assert (chunks n "" = []) as -> by by destruct n.
  cbn [match_chunks andb negb]. rewrite matchChunk_plain by done.
  destruct (cut_prefix p name) as [t|]; [|done].
  by rewrite orb_true_r.
Qed.
