(* ===== verification/Json.v ===== *)
(** * JSON strings, as Go's [encoding/json] reads and writes them

    A message's content is the JSON of a string; the program only marshals
    strings and unmarshals into strings what it puts in a conversation
    (src/conversation/convert.go, src/store/message.go). [marshal] escapes as
    [json.Marshal] does (HTML characters too), [unmarshal] is
    [json.Unmarshal] into a Go [string]: a string literal or [null]. *)

From S2P Require Import Prelude GoStr Utf8.
Open Scope string_scope.
Open Scope Z_scope.
Open Scope list_scope.

Definition dquote : ascii := byte 34.
Definition bslash : ascii := byte 92.

(** ** Writing *)

Definition hex_digit (z : Z) : ascii := byte (if z <? 10 then 48 + z else 87 + z).

(** [\u] and four hexadecimal digits. *)
Definition u_escape (z : Z) : string :=
  String bslash (String "u" (String (hex_digit (z / 4096 mod 16)) (String (hex_digit (z / 256 mod 16))
    (String (hex_digit (z / 16 mod 16)) (String (hex_digit (z mod 16)) ""))))).

(** [htmlSafeSet], for a byte below 128. *)
Definition html_safe (b : Z) : bool :=
  (32 <=? b) && negb (b =? 34) && negb (b =? 92) && negb (b =? 60) && negb (b =? 62) && negb (b =? 38).

Definition ascii_escape (c : ascii) : string :=
  let b := byte_of c in
  if html_safe b then String c ""
  else if (b =? 34) || (b =? 92) then String bslash (String c "")
  else if b =? 8 then String bslash "b"
  else if b =? 12 then String bslash "f"
  else if b =? 10 then String bslash "n"
  else if b =? 13 then String bslash "r"
  else if b =? 9 then String bslash "t"
  else u_escape b.

(** What [json.Marshal] writes for the first rune of a string. *)
Definition escape_first (s : string) : string :=
  match s with
  | "" => ""
  | String c _ =>
      if byte_of c <? 128 then ascii_escape c
      else
        let '(r, n) := decode_rune s in
        if (r =? RuneError) && (n =? 1)%nat then u_escape RuneError
        else if (r =? 8232) || (r =? 8233) then u_escape r
        else take_str n s
  end.

(** A rune takes a byte at least: the length is enough fuel. *)
Fixpoint escape_loop (fuel : nat) (s : string) : string :=
  match fuel, s with
  | S fuel, String _ _ => escape_first s +:+ escape_loop fuel (drop_str (snd (decode_rune s)) s)
  | _, _ => ""
  end.

(** [json.Marshal] of a string. *)
Definition marshal (s : string) : string :=
  String dquote (escape_loop (String.length s) s +:+ String dquote "").

(** ** Reading *)

Definition hex_value (c : ascii) : option Z :=
  let b := byte_of c in
  if (48 <=? b) && (b <=? 57) then Some (b - 48)
  else if (97 <=? b) && (b <=? 102) then Some (b - 87)
  else if (65 <=? b) && (b <=? 70) then Some (b - 55)
  else None.

Definition hex4 (s : string) : option Z :=
  match s with
  | String a (String b (String c (String d _))) =>
      match hex_value a, hex_value b, hex_value c, hex_value d with
      | Some a, Some b, Some c, Some d => Some (((a * 16 + b) * 16 + c) * 16 + d)
      | _, _, _, _ => None
      end
  | _ => None
  end.

(** [getu4]: the value of a leading [\uXXXX]. *)
Definition getu4 (s : string) : option Z :=
  match s with
  | String b (String u s) => if Ascii.eqb b bslash && Ascii.eqb u "u" then hex4 s else None
  | _ => None
  end.

Definition is_surrogate (r : Z) : bool := (55296 <=? r) && (r <=? 57343).

(** [utf16.DecodeRune] of a pair, when it is one. *)
Definition surrogate_pair (r1 r2 : Z) : option Z :=
  if (55296 <=? r1) && (r1 <=? 56319) && ((56320 <=? r2) && (r2 <=? 57343))
  then Some ((r1 - 55296) * 1024 + (r2 - 56320) + 65536) else None.

Definition simple_escape (c : ascii) : option ascii :=
  if Ascii.eqb c dquote || Ascii.eqb c bslash || Ascii.eqb c "/" then Some c
  else if Ascii.eqb c "b" then Some (byte 8)
  else if Ascii.eqb c "f" then Some (byte 12)
  else if Ascii.eqb c "n" then Some (byte 10)
  else if Ascii.eqb c "r" then Some (byte 13)
  else if Ascii.eqb c "t" then Some (byte 9)
  else None.

Definition prefix_with (p : string) (r : option (string * string)) : option (string * string) :=
  match r with Some (s, rest) => Some (p +:+ s, rest) | None => None end.

(** A string literal past its opening quote: its value, and what follows it. *)
Fixpoint unquote (fuel : nat) (s : string) : option (string * string) :=
  match fuel, s with
  | S fuel, String c r =>
      if Ascii.eqb c dquote then Some ("", r)
      else if Ascii.eqb c bslash then
        match getu4 s with
        | Some u =>
            let r := drop_str 6 s in
            if is_surrogate u then
              match getu4 r with
              | Some v =>
                  match surrogate_pair u v with
                  | Some d => prefix_with (encode_rune d) (unquote fuel (drop_str 6 r))
                  | None => prefix_with (encode_rune RuneError) (unquote fuel r)
                  end
              | None => prefix_with (encode_rune RuneError) (unquote fuel r)
              end
            else prefix_with (encode_rune u) (unquote fuel r)
        | None =>
            match r with
            | String e r =>
                match simple_escape e with
                | Some x => prefix_with (String x "") (unquote fuel r)
                | None => None
                end
            | "" => None
            end
        end
      else if byte_of c <? 32 then None
      else
        let '(u, n) := decode_rune s in
        prefix_with (encode_rune u) (unquote fuel (drop_str n s))
  | _, _ => None
  end.

Definition is_ws (c : ascii) : bool :=
  let b := byte_of c in (b =? 32) || (b =? 9) || (b =? 13) || (b =? 10).

Fixpoint skip_ws (s : string) : string :=
  match s with
  | String c r => if is_ws c then skip_ws r else s
  | "" => ""
  end.

(** [json.Unmarshal(content, &text)] into an empty [text]: its value when
    there is no error. [null] leaves it empty; any other value is an error. *)
Definition unmarshal (content : string) : option string :=
  match skip_ws content with
  | String c r =>
      if Ascii.eqb c dquote then
        match unquote (String.length r) r with
        | Some (text, rest) => if String.eqb (skip_ws rest) "" then Some text else None
        | None => None
        end
      else
        match cut_prefix "null" (String c r) with
        | Some rest => if String.eqb (skip_ws rest) "" then Some "" else None
        | None => None
        end
  | "" => None
  end.

Example unmarshal_escapes :
  unmarshal (" " +:+ String dquote ("a\n\u00e9\ud83d\ude00\u003c" +:+ String dquote " ")) =
  Some ("a" +:+ String (byte 10) (encode_rune 233 +:+ encode_rune 128512 +:+ "<")).
Proof. vm_compute. reflexivity. Qed.

Example unmarshal_others :
  unmarshal "null" = Some "" ∧ unmarshal "12" = None ∧ unmarshal "" = None ∧ unmarshal "{}" = None.
Proof. vm_compute. done. Qed.

Example marshal_html : marshal "<a>" = String dquote ("\u003ca\u003e" +:+ String dquote "").
Proof. vm_compute. reflexivity. Qed.

(** ** The round trip *)

(** An ASCII byte, read back from its escape. *)
Lemma unquote_ascii c f rest :
  byte_of c < 128 →
  unquote (S f) (ascii_escape c +:+ rest) = prefix_with (String c "") (unquote f rest).
Proof.
  intros Hc. destruct (html_safe (byte_of c)) eqn:Hs.
  - unfold ascii_escape. rewrite Hs. cbn [String.append unquote]. unfold html_safe in Hs. bool_to_prop.
    destruct (Ascii.eqb_spec c dquote) as [->|]; [done|].
    destruct (Ascii.eqb_spec c bslash) as [->|]; [done|].
    destruct (Z.ltb_spec (byte_of c) 32); [lia|]. unfold decode_rune.
    destruct (Z.ltb_spec (byte_of c) 128); [|lia]. cbn [drop_str]. f_equal.
    unfold encode_rune, is_scalar, encode_scalar.
    destruct (Z.leb_spec 0 (byte_of c)), (Z.leb_spec (byte_of c) 1114111), (Z.leb_spec 55296 (byte_of c)); try lia.
    cbn [andb negb]. destruct (Z.ltb_spec (byte_of c) 128); [|lia]. by rewrite byte_byte_of.
  - destruct c as [[] [] [] [] [] [] [] []]; try (exfalso; revert Hc; vm_compute; discriminate);
      try discriminate Hs; reflexivity.
Qed.

Lemma unquote_u_escape z f rest :
  z = 8232 ∨ z = 8233 ∨ z = RuneError →
  unquote (S f) (u_escape z +:+ rest) = prefix_with (encode_rune z) (unquote f rest).
Proof. intros [-> |[-> | ->]]; reflexivity. Qed.

(** A rune, read back from what is written of it. *)
Lemma unquote_first s f rest :
  s ≠ "" →
  unquote (S f) (escape_first s +:+ rest) =
  prefix_with (encode_rune (fst (decode_rune s))) (unquote f rest).
Proof.
  intros Hne. destruct s as [|c s0]; [done|]. unfold escape_first.
  destruct (byte_of c <? 128) eqn:E0; bool_to_prop.
  - rewrite unquote_ascii by done. f_equal. unfold decode_rune. destruct (Z.ltb_spec (byte_of c) 128); [|lia].
    cbn [fst]. pose proof (byte_of_range c). unfold encode_rune, is_scalar, encode_scalar.
    destruct (Z.leb_spec 0 (byte_of c)), (Z.leb_spec (byte_of c) 1114111), (Z.leb_spec 55296 (byte_of c)); try lia.
    cbn [andb negb]. destruct (Z.ltb_spec (byte_of c) 128); [|lia]. by rewrite byte_byte_of.
  - destruct (invalid_start (String c s0)) eqn:Hv; unfold invalid_start in Hv.
    + destruct (decode_rune (String c s0)) as [r n]. rewrite Hv.
      rewrite unquote_u_escape by auto. apply andb_true_iff in Hv as [->%Z.eqb_eq _]. done.
    + pose proof (encode_decode (String c s0) Hne Hv) as Henc.
      pose proof (decode_rune_app (String c s0) rest Hne Hv) as Happ.
      pose proof (decode_rune_size (String c s0) Hne) as Hsz.
      pose proof (decode_rune_len (String c s0)) as Hlen.
      destruct (decode_rune (String c s0)) as [r n] eqn:Ed. cbn [fst snd] in *. rewrite Hv.
      destruct ((r =? 8232) || (r =? 8233)) eqn:E2.
      * apply unquote_u_escape. apply orb_true_iff in E2 as [?%Z.eqb_eq|?%Z.eqb_eq]; auto.
      * destruct n as [|n]; [lia|]. cbn [take_str String.append unquote] in *.
        destruct (Ascii.eqb_spec c dquote) as [->|]; [done|].
        destruct (Ascii.eqb_spec c bslash) as [->|]; [done|].
        destruct (Z.ltb_spec (byte_of c) 32); [lia|].
        rewrite Happ, Henc. do 2 f_equal.
        change (String c (take_str n s0 +:+ rest)) with (take_str (S n) (String c s0) +:+ rest).
        replace (S n) with (String.length (take_str (S n) (String c s0))) at 1 by (rewrite length_take_str; lia).
        apply drop_app_str.
Qed.

Lemma escape_first_nonempty c s : (1 ≤ String.length (escape_first (String c s)))%nat.
Proof.
  unfold escape_first, ascii_escape, u_escape. pose proof (decode_rune_size (String c s) ltac:(done)).
  repeat case_match; cbn; try lia. destruct n; cbn in *; lia.
Qed.

(** What [json.Marshal] keeps of a string: a byte that starts no rune becomes
    U+FFFD. *)
Fixpoint to_valid_loop (fuel : nat) (s : string) : string :=
  match fuel, s with
  | S fuel, String _ _ =>
      encode_rune (fst (decode_rune s)) +:+ to_valid_loop fuel (drop_str (snd (decode_rune s)) s)
  | _, _ => ""
  end.

Definition to_valid (s : string) : string := to_valid_loop (String.length s) s.

Lemma to_valid_idem_loop fuel s : valid_loop fuel s = true → to_valid_loop fuel s = s.
Proof.
  revert s. induction fuel as [|fuel IH]; intros [|c s]; cbn [valid_loop to_valid_loop]; try done.
  set (s1 := String c s). intros [Hv%negb_true_iff Hr]%andb_true_iff.
  rewrite IH by done. rewrite encode_decode by done. apply take_drop_str.
Qed.

Lemma to_valid_valid s : valid_utf8 s = true → to_valid s = s.
Proof. apply to_valid_idem_loop. Qed.

Lemma unquote_escaped fuel s f rest :
  (String.length (escape_loop fuel s) < f)%nat →
  unquote f (escape_loop fuel s +:+ String dquote rest) = Some (to_valid_loop fuel s, rest).
Proof.
  revert s f. induction fuel as [|fuel IH]; intros s f Hf; (destruct f as [|f]; [lia|]); [reflexivity|].
  destruct s as [|c s]; [reflexivity|]. cbn [escape_loop to_valid_loop] in *.
  pose proof (escape_first_nonempty c s). set (s1 := String c s) in *. rewrite length_app_str in Hf.
  by rewrite app_assoc_str, unquote_first, IH by (done || lia).
Qed.

(** What is written is read back: valid UTF-8 whole. *)
Lemma unmarshal_marshal_any s : unmarshal (marshal s) = Some (to_valid s).
Proof.
  unfold unmarshal, marshal. cbn [skip_ws]. change (is_ws dquote) with false. cbn [skip_ws].
  rewrite Ascii.eqb_refl, unquote_escaped; [done|]. rewrite length_app_str. cbn. lia.
Qed.

Lemma unmarshal_marshal s : valid_utf8 s = true → unmarshal (marshal s) = Some s.
Proof. intros Hv. by rewrite unmarshal_marshal_any, to_valid_valid. Qed.
