(* ===== verification/Keys.v ===== *)
(** * Message keys, turn keys and workflow identifiers

    The identifiers the components share: a message's idempotency key
    (src/store/message.go), the turn that wrote it, which of a session's
    messages a turn reads, and the workflow identifiers that name a session's
    participants, their turns, their tools and their background tasks
    (src/workflow/participant.go, src/workflow/agent.go,
    src/store/background_task.go). *)

From S2P Require Import Prelude GoStr.
Open Scope string_scope.
Open Scope Z_scope.
Open Scope list_scope.

Definition dot : ascii := ".".
Definition colon : ascii := ":".

(** ** Keys of a session's messages *)

Definition humanKeyPrefix : string := "msg:".
Definition scheduledKeyPrefix : string := "sched:".
Definition reportKeyPrefix : string := "report:".
Definition turnEndSuffix : string := "end".
Definition ForkSummaryKey : string := "fork-summary:0".

Definition HumanMessageKey (id : string) : string := humanKeyPrefix +:+ id.

Definition ForkReportKey (forkSessionID : string) (from upTo : Z) : string :=
  reportKeyPrefix +:+ forkSessionID +:+ ":" +:+ itoa from +:+ "-" +:+ itoa upTo.

Definition TurnKey (messageID : Z) (participant : string) : string :=
  "m" +:+ itoa messageID +:+ "." +:+ participant.

Definition digits (s : string) : bool := all_digits s && negb (String.eqb s "").

(** The anchor and the participant of a turn key; [None] is Go's [false]. *)
Definition parseTurn (turn : string) : option (Z * string) :=
  let '(rest, found) :=
    match cut_prefix "m" turn with Some r => (r, true) | None => (turn, false) end in
  let '(digitsOf, participant, dotFound) := cut_byte dot rest in
  if negb found || negb dotFound || negb (digits digitsOf) then None
  else
    match parse_digits int64_max digitsOf with
    | None => None
    | Some anchor =>
        if String.eqb participant "" || (has_byte dot participant || has_byte colon participant)
        then None
        else Some (anchor, participant)
    end.

Definition TurnOf (msgKey : string) : option string :=
  let i := last_index_byte colon msgKey in
  if i <=? 0 then None
  else
    let suffix := drop_str (Z.to_nat (i + 1)) msgKey in
    if negb (String.eqb suffix turnEndSuffix) && negb (digits suffix) then None
    else
      let turn := take_str (Z.to_nat i) msgKey in
      match parseTurn turn with
      | None => None
      | Some _ => Some turn
      end.

Definition TurnAnchor (turnKey : string) : option Z := fst <$> parseTurn turnKey.

Definition TurnParticipant (turnKey : string) : string :=
  match parseTurn turnKey with Some (_, participant) => participant | None => "" end.

Definition TurnEndKey (turnKey : string) : string := turnKey +:+ ":" +:+ turnEndSuffix.

Definition IsTurnEnd (msgKey : string) : bool :=
  match TurnOf msgKey with
  | Some turn => String.eqb msgKey (TurnEndKey turn)
  | None => false
  end.

Definition TurnMessageKey (turnKey : string) (index : Z) : string :=
  turnKey +:+ ":" +:+ itoa index.

Definition IsScheduledResult (msgKey : string) : bool := has_prefix msgKey scheduledKeyPrefix.

Definition ScheduledMessageKey (scheduleID : string) (runUnixMilli : Z) : string :=
  scheduledKeyPrefix +:+ scheduleID +:+ ":" +:+ itoa runUnixMilli.

Definition TaskResultKey (taskID : string) : string := "task:" +:+ taskID.

(** ** What a turn reads *)

Record TurnScope := mkScope {
  UpTo : Z;
  Participant : string;
  Turns : list string
}.

(** The anchor and participant of a string that is no turn key are Go's zero
    values. *)
Definition ScopeOf (turnKey : string) (earlier : list string) : TurnScope :=
  let '(anchor, participant) :=
    match parseTurn turnKey with Some ap => ap | None => (0, "") end in
  mkScope anchor participant (earlier ++ [turnKey]).

Definition TurnReads (id : Z) (key : string) (scope : TurnScope) (ends : gmap string Z) : bool :=
  match TurnOf key with
  | None => id <=? UpTo scope
  | Some turn =>
      if IsTurnEnd key then false
      else if contains (Turns scope) turn then true
      else
        let '(anchor, participant) :=
          match parseTurn turn with Some ap => ap | None => (0, "") end in
        if UpTo scope <? anchor then false
        else if String.eqb participant (Participant scope) then true
        else
          match ends !! turn with
          | Some end_ => end_ <=? UpTo scope
          | None => false
          end
  end.

(** A stored message as the keys see it: its ID and its key. *)
Definition TurnEndIDs (msgs : list (Z * string)) : gmap string Z :=
  fold_left (λ ends '(id, key),
    if IsTurnEnd key then
      match TurnOf key with Some turn => <[turn := id]> ends | None => ends end
    else ends) msgs ∅.

(** ** Workflow identifiers *)

Definition participantMark : string := ":p:".
Definition toolMark : string := ":tool:".
Definition bgMark : string := ":bg:".

Definition ParticipantWorkflowID (sessionID agentID : string) : string :=
  sessionID +:+ participantMark +:+ agentID.

Definition turnWorkflowID (participantID : string) (messageID : Z) : string :=
  participantID +:+ ":m" +:+ itoa messageID.

Definition SessionOf (workflowID : string) : option string :=
  let i := index_byte colon workflowID in
  if i <=? 0 then None else Some (take_str (Z.to_nat i) workflowID).

Definition ParticipantOf (workflowID : string) : option string :=
  let '(session, ok) :=
    match SessionOf workflowID with Some s => (s, true) | None => ("", false) end in
  match cut_prefix participantMark (drop_str (String.length session) workflowID) with
  | Some rest =>
      if negb ok then None
      else
        let agent := fst (fst (cut_byte colon rest)) in
        if String.eqb agent "" then None else Some agent
  | None => None
  end.

Definition BackgroundTaskID (turnWorkflowID callID : string) : string :=
  turnWorkflowID +:+ bgMark +:+ callID.

Definition TaskOfWorkflow (workflowID : string) : option string :=
  let i := index_str bgMark workflowID in
  if i <=? 0 then None
  else
    let rest := drop_str (Z.to_nat i + String.length bgMark) workflowID in
    let call := fst (fst (cut_byte colon rest)) in
    if String.eqb call "" then None
    else Some (take_str (Z.to_nat i + String.length bgMark + String.length call) workflowID).

Definition callKey (callID : string) (iteration index : Z) : string :=
  if String.eqb callID "" then itoa iteration +:+ "-" +:+ itoa index else callID.

Definition childWorkflowID (parentID toolName callID : string) (iteration index : Z) : string :=
  parentID +:+ toolMark +:+ toolName +:+ ":" +:+ callKey callID iteration index.

(** ** Lemmas *)

(** A participant as turn keys hold it: not empty, without a dot or a colon. *)
Definition valid_participant (p : string) : bool :=
  negb (String.eqb p "") && negb (has_byte dot p) && negb (has_byte colon p).

Lemma valid_participant_spec p :
  valid_participant p = true ↔ p ≠ "" ∧ has_byte dot p = false ∧ has_byte colon p = false.
Proof.
  unfold valid_participant. rewrite !andb_true_iff, !negb_true_iff, String.eqb_neq. naive_solver.
Qed.

Lemma digits_itoa z : 0 ≤ z → digits (itoa z) = true.
Proof.
  intros Hz. unfold digits. destruct (itoa_digits z Hz) as [-> Hne].
  by destruct (String.eqb_spec (itoa z) "").
Qed.

Lemma parseTurn_TurnKey_aux id p :
  0 ≤ id ≤ int64_max → valid_participant p = true → parseTurn (TurnKey id p) = Some (id, p).
Proof.
  intros Hid (Hne & Hdot & Hcol)%valid_participant_spec.
  unfold parseTurn, TurnKey. rewrite cut_prefix_app.
  change ("." +:+ p) with (String dot p).
  rewrite cut_byte_app by (apply itoa_no_byte; [lia|reflexivity]).
  rewrite (digits_itoa id) by lia. cbn [negb orb].
  rewrite (parse_itoa int64_max id Hid), Hdot, Hcol.
  by destruct (String.eqb_spec p "").
Qed.

(** What a key that parses looks like. *)
Lemma parseTurn_inv t a p :
  parseTurn t = Some (a, p) →
  0 ≤ a ≤ int64_max ∧ valid_participant p = true ∧
  ∃ ds, digits ds = true ∧ t = "m" +:+ ds +:+ String dot p.
Proof.
  unfold parseTurn. destruct (cut_prefix "m" t) as [rest|] eqn:Hm; simpl.
  2: { by destruct (cut_byte dot t) as [[? ?] ?]. }
  apply cut_prefix_some in Hm as ->.
  destruct (cut_byte dot rest) as [[ds p'] [|]] eqn:Hc; simpl; [|done].
  apply cut_byte_found in Hc as [-> Hds].
  destruct (digits ds) eqn:Hd; simpl; [|done].
  destruct (parse_digits int64_max ds) as [a'|] eqn:Hp; [|done].
  destruct (String.eqb p' "" || (has_byte dot p' || has_byte colon p')) eqn:Hv; [done|].
  intros [= <- <-]. split; [|split].
  - unfold parse_digits in Hp. split_match_in Hp; [|done]. injection Hp as <-. bool_to_prop.
    split; [|done]. assert (∀ s acc, 0 ≤ acc → all_digits s = true → 0 ≤ dec_value acc s) as Hnn.
    { clear. induction s as [|c s IH]; simpl; [done|]. intros acc Ha [Hc Hs]%andb_true_iff.
      apply IH; [|done]. unfold is_digit in Hc. bool_to_prop. lia. }
    by apply Hnn.
  - apply valid_participant_spec. bool_to_prop. done.
  - exists ds. done.
Qed.

Lemma parseTurn_no_colon t ap : parseTurn t = Some ap → has_byte colon t = false.
Proof.
  destruct ap as [a p]. intros (_ & (_ & _ & Hp)%valid_participant_spec & ds & Hd & ->)%parseTurn_inv.
  rewrite has_byte_app. simpl. rewrite has_byte_app. simpl. rewrite Hp.
  unfold digits in Hd. apply andb_true_iff in Hd as [Hd _].
  rewrite (all_digits_no_byte colon ds) by done. done.
Qed.

Lemma TurnOf_app_aux t ap suffix :
  parseTurn t = Some ap → suffix = turnEndSuffix ∨ digits suffix = true →
  TurnOf (t +:+ String colon suffix) = Some t.
Proof.
  intros Ht Hs. unfold TurnOf; cbv zeta.
  assert (has_byte colon suffix = false) as Hc.
  { destruct Hs as [->|Hs]; [done|]. apply all_digits_no_byte; [done|].
    unfold digits in Hs. by apply andb_true_iff in Hs as [? _]. }
  rewrite last_index_app by done.
  assert (0 < len t).
  { destruct t; [done|]. unfold len. simpl. lia. }
  destruct (len t <=? 0) eqn:E; bool_to_prop; [lia|].
  unfold len in *.
  replace (Z.to_nat (Z.of_nat (String.length t) + 1)) with (S (String.length t)) by lia.
  rewrite drop_app_sep, Nat2Z.id, take_app_str, Ht.
  destruct Hs as [->| ->]; [done|]. by rewrite andb_false_r.
Qed.

Lemma TurnOf_parse key t : TurnOf key = Some t → ∃ ap, parseTurn t = Some ap.
Proof.
  unfold TurnOf. destruct (_ <=? 0); [done|]. destruct (_ && _); [done|].
  destruct (parseTurn _) eqn:E; [|done]. intros [= <-]. eauto.
Qed.

(** A key whose turn part does not start like a turn key is no turn's. *)
Lemma TurnOf_prefix_none p key r :
  cut_prefix p key = Some r → has_byte colon p = false →
  (∀ s, parseTurn (p +:+ s) = None) → TurnOf key = None.
Proof.
  intros ->%cut_prefix_some Hp Hno. unfold TurnOf; cbv zeta.
  destruct (_ <=? 0) eqn:E; [done|]. bool_to_prop.
  destruct (_ && _); [done|].
  assert (∃ s, take_str (Z.to_nat (last_index_byte colon (p +:+ r))) (p +:+ r) = p +:+ s) as [s ->].
  2: { by rewrite Hno. }
  pose proof (last_index_split colon (p +:+ r) _ eq_refl ltac:(lia)) as [Hs Hb].
  revert Hs Hb. generalize (drop_str (Z.to_nat (last_index_byte colon (p +:+ r) + 1)) (p +:+ r)) as d.
  generalize (Z.to_nat (last_index_byte colon (p +:+ r))) as i. intros i d Hs Hb.
  destruct (decide (String.length p ≤ i)%nat) as [Hle|Hgt].
  - exists (take_str (i - String.length p) r).
    clear -Hle. revert i Hle. induction p as [|c p IH]; simpl; intros i Hle.
    + f_equal. lia.
    + destruct i; simpl in *; [lia|]. f_equal. apply IH. lia.
  - exfalso. clear -Hs Hgt Hp. revert i Hgt Hs. induction p as [|c p IH]; simpl; intros i Hgt Hs; [lia|].
    simpl in Hp. apply orb_false_iff in Hp as [Hc Hp].
    destruct i; simpl in Hs.
    + injection Hs as -> _. by rewrite Ascii.eqb_refl in Hc.
    + injection Hs as Hs. eapply (IH Hp i); [lia|done].
Qed.

(** ** Identifiers *)

Definition no_colon (s : string) : bool := negb (String.eqb s "") && negb (has_byte colon s).

(** A workflow's own identifier, or that of one it started: "<id>:…". *)
Definition below (id : string) (s : string) : Prop :=
  s = id ∨ ∃ rest, s = id +:+ String colon rest.

Lemma index_byte_app sep a b :
  has_byte sep a = false → index_byte sep (a +:+ String sep b) = len a.
Proof.
  unfold len. induction a as [|c a IH]; simpl.
  - by rewrite Ascii.eqb_refl.
  - intros [-> H]%orb_false_iff. rewrite IH by done.
    destruct (Z.of_nat (String.length a) <? 0) eqn:E; bool_to_prop; lia.
Qed.

Lemma SessionOf_app s r : no_colon s = true → SessionOf (s +:+ String colon r) = Some s.
Proof.
  unfold no_colon. rewrite andb_true_iff, !negb_true_iff. intros [Hne Hc]. bool_to_prop.
  unfold SessionOf; cbv zeta. rewrite index_byte_app by done.
  assert (0 < len s). { destruct s; [done|]. unfold len. simpl. lia. }
  destruct (len s <=? 0) eqn:E; bool_to_prop; [lia|].
  unfold len. by rewrite Nat2Z.id, take_app_str.
Qed.

Lemma cut_byte_below a s : no_colon a = true → below a s → fst (fst (cut_byte colon s)) = a.
Proof.
  unfold no_colon. rewrite andb_true_iff, !negb_true_iff. intros [_ Hc] [->|[r ->]].
  - by rewrite cut_byte_absent.
  - by rewrite cut_byte_app.
Qed.

Lemma below_app p a s : below (p +:+ a) s → ∃ s', s = p +:+ s' ∧ below a s'.
Proof.
  intros [->|[r ->]]; [exists a; split; [done|by left]|].
  exists (a +:+ String colon r). rewrite app_assoc_str. split; [done|right; eauto].
Qed.

Lemma ParticipantOf_aux s a w :
  no_colon s = true → no_colon a = true → below (ParticipantWorkflowID s a) w →
  SessionOf w = Some s ∧ ParticipantOf w = Some a.
Proof.
  intros Hs Ha (w1 & -> & (w2 & -> & Hw)%below_app)%below_app.
  change (participantMark +:+ w2) with (String colon ("p:" +:+ w2)).
  split; [by apply SessionOf_app|].
  unfold ParticipantOf. rewrite SessionOf_app, drop_app_str by done.
  change (String colon ("p:" +:+ w2)) with (participantMark +:+ w2).
  rewrite cut_prefix_app. cbn [negb]. rewrite (cut_byte_below a) by done.
  unfold no_colon in Ha. apply andb_true_iff in Ha as [Ha _].
  destruct (String.eqb_spec a ""); [done|]. done.
Qed.

(** Skipping a byte, and a run without a colon, in the search of ":bg:". *)
Lemma index_str_skip c s :
  cut_prefix bgMark (String c s) = None → 0 ≤ index_str bgMark s →
  index_str bgMark (String c s) = index_str bgMark s + 1.
Proof.
  intros H Hp. cbn [index_str]. rewrite H.
  destruct (index_str bgMark s <? 0) eqn:E; bool_to_prop; lia.
Qed.

Lemma index_str_nocolon a s :
  has_byte colon a = false → 0 ≤ index_str bgMark s →
  index_str bgMark (a +:+ s) = len a + index_str bgMark s.
Proof.
  unfold len. induction a as [|c a IH]; intros Ha Hs; [done|].
  simpl in Ha. apply orb_false_iff in Ha as [Hc Ha]. specialize (IH Ha Hs).
  simpl String.append. rewrite index_str_skip.
  - rewrite IH. simpl String.length. lia.
  - simpl. destruct (Ascii.eqb_spec ":" c) as [<-|]; done.
  - rewrite IH. lia.
Qed.

(** Skipping ":m", ":p": a colon not followed by the "b" of ":bg:". *)
Lemma index_str_mark c s :
  c ≠ "b"%char → c ≠ colon → 0 ≤ index_str bgMark s →
  index_str bgMark (String colon (String c s)) = index_str bgMark s + 2.
Proof.
  intros Hb Hc Hs.
  assert (index_str bgMark (String c s) = index_str bgMark s + 1) as H1.
  { apply index_str_skip; [|done]. cbn [cut_prefix bgMark].
    by destruct (Ascii.eqb_spec ":" c). }
  rewrite index_str_skip; [lia| |lia]. cbn [cut_prefix bgMark]. rewrite Ascii.eqb_refl.
  by destruct (Ascii.eqb_spec "b" c).
Qed.

(** The colon before an agent's name, unless the name is "bg". *)
Lemma index_str_agent a s :
  has_byte colon a = false → a ≠ "bg" → 0 ≤ index_str bgMark (String colon s) →
  index_str bgMark (String colon (a +:+ String colon s)) =
  index_str bgMark (String colon s) + len a + 1.
Proof.
  intros Ha Hbg Hs. rewrite index_str_skip.
  - rewrite index_str_nocolon by done. lia.
  - destruct a as [|c1 [|c2 [|c3 a]]]; cbn [has_byte String.append cut_prefix bgMark] in *;
      rewrite Ascii.eqb_refl.
    + by destruct (Ascii.eqb "b" colon) eqn:?.
    + destruct (Ascii.eqb_spec "b" c1); [|done]. by destruct (Ascii.eqb "g" colon) eqn:?.
    + destruct (Ascii.eqb_spec "b" c1) as [<-|]; [|done].
      destruct (Ascii.eqb_spec "g" c2) as [<-|]; done.
    + destruct (Ascii.eqb "b" c1), (Ascii.eqb "g" c2); try done.
      destruct (Ascii.eqb_spec ":" c3) as [<-|]; [|done].
      rewrite Ascii.eqb_refl, !orb_true_r in Ha. done.
  - rewrite index_str_nocolon by done. unfold len. lia.
Qed.

(** A turn's workflow, seen by the search of ":bg:", when its agent is not
    named "bg". *)
Lemma index_bg_task s a m rest :
  no_colon s = true → no_colon a = true → a ≠ "bg" → 0 ≤ m →
  index_str bgMark (BackgroundTaskID (turnWorkflowID (ParticipantWorkflowID s a) m) rest) =
  len (turnWorkflowID (ParticipantWorkflowID s a) m).
Proof.
  unfold no_colon. rewrite !andb_true_iff, !negb_true_iff. intros [_ Hs] [_ Ha] Hbg Hm.
  unfold BackgroundTaskID, turnWorkflowID, ParticipantWorkflowID. rewrite !app_assoc_str.
  assert (H0 : index_str bgMark (bgMark +:+ rest) = 0) by (destruct rest; reflexivity).
  assert (H1 : index_str bgMark (itoa m +:+ bgMark +:+ rest) = len (itoa m)).
  { rewrite index_str_nocolon; [lia|by apply itoa_no_byte|lia]. }
  assert (H2 : index_str bgMark (":m" +:+ itoa m +:+ bgMark +:+ rest) = len (itoa m) + 2).
  { change (":m" +:+ ?x) with (String colon (String "m" x)).
    rewrite index_str_mark; [lia|done|done|unfold len in *; lia]. }
  assert (H3 : index_str bgMark (participantMark +:+ a +:+ ":m" +:+ itoa m +:+ bgMark +:+ rest)
               = len (itoa m) + len a + 5).
  { change (":m" +:+ ?x) with (String colon (String "m" x)) in *.
    change (participantMark +:+ ?x) with (String colon (String "p" (String colon x))).
    rewrite index_str_mark by (done || rewrite index_str_agent; unfold len in *; (done || lia)).
    rewrite index_str_agent by (done || unfold len in *; lia). lia. }
  rewrite index_str_nocolon by (done || unfold len in *; lia).
  rewrite H3. unfold len. rewrite !length_app_str. simpl. lia.
Qed.

Lemma no_colon_spec s : no_colon s = true ↔ s ≠ "" ∧ has_byte colon s = false.
Proof.
  unfold no_colon. rewrite andb_true_iff, !negb_true_iff, String.eqb_neq. done.
Qed.

Lemma TaskOfWorkflow_aux s a m call w :
  no_colon s = true → no_colon a = true → a ≠ "bg" → 0 ≤ m → no_colon call = true →
  let task := BackgroundTaskID (turnWorkflowID (ParticipantWorkflowID s a) m) call in
  below task w → TaskOfWorkflow w = Some task.
Proof.
  intros Hs Ha Hbg Hm Hc task Hw. subst task.
  set (t := turnWorkflowID (ParticipantWorkflowID s a) m) in *.
  assert (0 < len t).
  { subst t. apply no_colon_spec in Hs as [Hs _]. destruct s; [done|].
    unfold len, turnWorkflowID, ParticipantWorkflowID. simpl. lia. }
  assert (∃ r, w = BackgroundTaskID t r ∧ below call r) as (r & -> & Hr).
  { destruct (below_app _ _ _ Hw) as (w1 & -> & (w2 & -> & Hb)%below_app).
    exists w2. done. }
  unfold TaskOfWorkflow; cbv zeta. subst t. rewrite index_bg_task by done.
  set (t := turnWorkflowID (ParticipantWorkflowID s a) m) in *.
  destruct (len t <=? 0) eqn:E; bool_to_prop; [lia|].
  unfold len. rewrite Nat2Z.id. unfold BackgroundTaskID.
  replace (String.length t + String.length bgMark)%nat with (String.length (t +:+ bgMark))
    by apply length_app_str.
  rewrite <- !app_assoc_str, drop_app_str, (cut_byte_below call) by done.
  apply no_colon_spec in Hc as [Hc _]. destruct (String.eqb_spec call ""); [done|].
  rewrite <- length_app_str. f_equal.
  destruct Hr as [->|[rest ->]]; [|rewrite <- app_assoc_str, take_app_str; done].
  rewrite <- (app_nil_r_str ((t +:+ bgMark) +:+ call)) at 2. by rewrite take_app_str.
Qed.

Lemma TurnEndKey_inj t t' : TurnEndKey t = TurnEndKey t' → t = t'.
Proof.
  unfold TurnEndKey. intros H.
  assert (String.length t = String.length t') as Hl.
  { apply (f_equal String.length) in H. rewrite !length_app_str in H. lia. }
  rewrite <- (take_app_str t (":" +:+ turnEndSuffix)), H, Hl. by rewrite take_app_str.
Qed.

Lemma TurnEndKey_not_message t i : 0 ≤ i → TurnMessageKey t i ≠ TurnEndKey t.
Proof.
  intros Hi H. unfold TurnEndKey, TurnMessageKey in H.
  assert (itoa i = "end") as He.
  { rewrite <- !app_assoc_str in H.
    rewrite <- (drop_app_str (t +:+ ":") (itoa i)), H. by rewrite drop_app_str. }
  destruct (itoa_digits i Hi) as [Hd _]. rewrite He in Hd. done.
Qed.

(** A read depends on a message's turn and on whether it is the turn's end,
    never on which of the turn's messages it is. *)
Lemma TurnReads_turn id id' key key' t scope ends :
  TurnOf key = Some t → TurnOf key' = Some t → IsTurnEnd key = false → IsTurnEnd key' = false →
  TurnReads id key scope ends = TurnReads id' key' scope ends.
Proof. intros H H' E E'. unfold TurnReads. by rewrite H, H', E, E'. Qed.

(** ** Properties *)

(** Turn keys round trip: the key of a participant's turn on a message
    parses back to that message and that participant, and the keys of the
    messages the turn writes, its end's included, are attributed to that very
    turn and to no other; only its end's key is a turn's end, whatever the
    index of the message. *)
Theorem turn_key_roundtrip id p i :
  0 ≤ id ≤ int64_max → valid_participant p = true → 0 ≤ i →
  parseTurn (TurnKey id p) = Some (id, p) ∧
  TurnAnchor (TurnKey id p) = Some id ∧
  TurnParticipant (TurnKey id p) = p ∧
  TurnOf (TurnMessageKey (TurnKey id p) i) = Some (TurnKey id p) ∧
  TurnOf (TurnEndKey (TurnKey id p)) = Some (TurnKey id p) ∧
  IsTurnEnd (TurnEndKey (TurnKey id p)) = true ∧
  IsTurnEnd (TurnMessageKey (TurnKey id p) i) = false.
Proof.
  intros Hid Hp Hi. pose proof (parseTurn_TurnKey_aux id p Hid Hp) as Hk.
  assert (TurnOf (TurnMessageKey (TurnKey id p) i) = Some (TurnKey id p)) as Hm.
  { eapply TurnOf_app_aux; [done|right; by apply digits_itoa]. }
  assert (TurnOf (TurnEndKey (TurnKey id p)) = Some (TurnKey id p)) as He.
  { eapply TurnOf_app_aux; [done|by left]. }
  unfold TurnAnchor, TurnParticipant, IsTurnEnd. rewrite Hk, Hm, He.
  repeat split; [apply String.eqb_refl|].
  apply String.eqb_neq. by apply TurnEndKey_not_message.
Qed.

Lemma turn_key_roundtrip_witness :
  valid_participant "jarvis" = true ∧ parseTurn (TurnKey 42 "jarvis") = Some (42, "jarvis").
Proof.
  split; [reflexivity|].
  apply (turn_key_roundtrip 42 "jarvis" 3); [vm_compute; split; discriminate|reflexivity|lia].
Defined.

(** The keys of the other writers are no turn's: a person's message, a
    scheduled task's result, a fork's report or summary, a background task's
    end, whatever the identifiers in them. So a message a person wrote cannot
    be taken for what an agent's turn wrote. *)
Theorem foreign_keys_no_turn id fork sched task from upTo run :
  TurnOf (HumanMessageKey id) = None ∧
  TurnOf (ScheduledMessageKey sched run) = None ∧
  TurnOf (ForkReportKey fork from upTo) = None ∧
  TurnOf (TaskResultKey task) = None ∧
  TurnOf ForkSummaryKey = None.
Proof.
  assert (Hpre : ∀ c s, c ≠ "m"%char → parseTurn (String c s) = None).
  { intros c s Hc. destruct (parseTurn (String c s)) as [[a p]|] eqn:E; [|done].
    apply parseTurn_inv in E as (_ & _ & ds & _ & E). simpl in E. congruence. }
  repeat split.
  - apply (TurnOf_prefix_none "msg" _ (":" +:+ id)); [exact (cut_prefix_app "msg" (":" +:+ id))|done|].
    intros s. destruct (parseTurn _) as [[a p]|] eqn:E; [|done].
    apply parseTurn_inv in E as (_ & _ & ds & Hds & E). simpl in E. injection E as E.
    destruct ds as [|c ds]; [done|]. injection E as <- E. done.
  - eapply (TurnOf_prefix_none "s"); [apply (cut_prefix_app "s")|done|]. intros; by apply Hpre.
  - eapply (TurnOf_prefix_none "r"); [apply (cut_prefix_app "r")|done|]. intros; by apply Hpre.
  - eapply (TurnOf_prefix_none "t"); [apply (cut_prefix_app "t")|done|]. intros; by apply Hpre.
Qed.

(** A turn reads another one whole or not at all, and its reading does not
    move under it: two messages of one turn, its end apart, are read together;
    a turn's end is never read; and an end written later than the message the
    reader answers (a participant finishing meanwhile) changes nothing of what
    it reads. *)
Theorem turn_reads_whole_and_stable scope ends id id' key key' t t' end_ :
  TurnOf key = Some t → TurnOf key' = Some t → IsTurnEnd key = false → IsTurnEnd key' = false →
  UpTo scope < end_ → ends !! t' = None →
  TurnReads id key scope ends = TurnReads id' key' scope ends ∧
  TurnReads id (TurnEndKey t) scope ends = false ∧
  TurnReads id key scope (<[t' := end_]> ends) = TurnReads id key scope ends.
Proof.
  intros Hk Hk' He He' Hend Hnew. split; [by eapply TurnReads_turn|split].
  - destruct (TurnOf_parse _ _ Hk) as [ap Hap].
    assert (TurnOf (TurnEndKey t) = Some t) as Ht by (eapply TurnOf_app_aux; [done|by left]).
    unfold TurnReads, IsTurnEnd. by rewrite Ht, String.eqb_refl.
  - unfold TurnReads. rewrite Hk, He.
    destruct (contains (Turns scope) t); [done|].
    destruct (match parseTurn t with Some ap => ap | None => (0, "") end) as [a p].
    destruct (UpTo scope <? a); [done|]. destruct (String.eqb p (Participant scope)); [done|].
    destruct (decide (t' = t)) as [->|]; [|by rewrite lookup_insert_ne].
    rewrite lookup_insert_eq, Hnew. apply Z.leb_gt. lia.
Qed.

Lemma turn_reads_whole_and_stable_witness :
  TurnReads 11 "m10.jarvis:0" (ScopeOf "m12.smith" []) ∅ =
  TurnReads 14 "m10.jarvis:1" (ScopeOf "m12.smith" []) ∅.
Proof.
  apply (turn_reads_whole_and_stable (ScopeOf "m12.smith" []) ∅ 11 14
           "m10.jarvis:0" "m10.jarvis:1" "m10.jarvis" "m10.jarvis" 40);
    vm_compute; reflexivity.
Defined.

(** Workflow identifiers name their owners: whatever a turn of a
    participant started, at any depth, gives back its session and its agent;
    and whatever a background task started gives back that task, unless its
    agent is named "bg". *)
Theorem workflow_ids_parse s a m call w :
  no_colon s = true → no_colon a = true → a ≠ "bg" → 0 ≤ m → no_colon call = true →
  (below (ParticipantWorkflowID s a) w → SessionOf w = Some s ∧ ParticipantOf w = Some a) ∧
  (below (BackgroundTaskID (turnWorkflowID (ParticipantWorkflowID s a) m) call) w →
   TaskOfWorkflow w = Some (BackgroundTaskID (turnWorkflowID (ParticipantWorkflowID s a) m) call)).
Proof.
  intros. split; [by apply ParticipantOf_aux|by apply TaskOfWorkflow_aux].
Qed.

Lemma workflow_ids_parse_witness :
  TaskOfWorkflow (childWorkflowID "s1:p:jarvis:m4:bg:c9" "ask_user" "k" 0 0) =
  Some "s1:p:jarvis:m4:bg:c9".
Proof.
  apply (workflow_ids_parse "s1" "jarvis" 4 "c9"); try reflexivity; [discriminate|lia|].
  right. exists "tool:ask_user:k". reflexivity.
Defined.

(** The exception of [workflow_ids_parse] is real: "bg" is a well-formed agent
    identifier (config.agentIDPattern), and what a plain turn of that agent
    starts is taken for a background task's: a question it asks is filed under
    a task that does not exist. *)
Theorem agent_bg_turn_taken_for_task s m :
  has_byte colon s = false → s ≠ "" → 0 ≤ m →
  ParticipantOf (turnWorkflowID (ParticipantWorkflowID s "bg") m) = Some "bg" ∧
  TaskOfWorkflow (turnWorkflowID (ParticipantWorkflowID s "bg") m) =
  Some (turnWorkflowID (ParticipantWorkflowID s "bg") m).
Proof.
  intros Hs Hne Hm. split.
  { apply (ParticipantOf_aux s "bg"); [by apply no_colon_spec|done|].
    right. exists ("m" +:+ itoa m). reflexivity. }
  unfold TaskOfWorkflow, turnWorkflowID, ParticipantWorkflowID; cbv zeta.
  rewrite !app_assoc_str.
  replace (participantMark +:+ "bg" +:+ ":m" +:+ itoa m)
    with (String colon (String "p" (bgMark +:+ ("m" +:+ itoa m)))) by reflexivity.
  rewrite index_str_nocolon by (done || rewrite index_str_mark; done).
  rewrite index_str_mark by done. change (index_str bgMark (bgMark +:+ _)) with 0.
  destruct (_ <=? 0) eqn:E; bool_to_prop; [unfold len in E; lia|].
  replace (Z.to_nat (len s + (0 + 2)) + String.length bgMark)%nat
    with (String.length (s +:+ ":p" +:+ bgMark)).
  2: { rewrite !length_app_str. unfold len. simpl. lia. }
  replace (s +:+ String colon (String "p" (bgMark +:+ "m" +:+ itoa m)))
    with ((s +:+ ":p" +:+ bgMark) +:+ ("m" +:+ itoa m)) by (by rewrite !app_assoc_str).
  assert (has_byte colon ("m" +:+ itoa m) = false) as Hc.
  { simpl. by apply itoa_no_byte. }
  rewrite drop_app_str, cut_byte_absent by done. cbn [fst].
  destruct (String.eqb_spec ("m" +:+ itoa m) ""); [done|].
  rewrite <- length_app_str. f_equal.
  rewrite <- (app_nil_r_str ((s +:+ ":p" +:+ bgMark) +:+ "m" +:+ itoa m)) at 2.
  by rewrite take_app_str.
Qed.
