(* ===== verification/Message.v ===== *)
(** * A session's stored messages (src/store/message.go)

    The data of a message as the store keeps it, the end of a turn and of a
    background task, and the bounds on the text they carry. *)

From S2P Require Import Prelude GoStr Utf8 Json Keys.
Open Scope string_scope.
Open Scope Z_scope.
Open Scope list_scope.

(** [type Role string]. *)
Definition RoleUser : string := "user".
Definition RoleAssistant : string := "assistant".
Definition RoleTool : string := "tool".

Record ToolCall := mkCall { CallID : string; CallName : string; CallInput : string }.

Record ToolResult := mkResult { ToolCallID : string; ResultContent : string; IsError : bool }.

Record ForkRef := mkForkRef { ForkSession : string; ForkTitle : string; UpToMessageID : Z }.

(** ** Background tasks, as messages name them *)

Definition BackgroundRunning : string := "running".
Definition BackgroundDone : string := "done".
Definition BackgroundFailed : string := "failed".
Definition BackgroundCancelled : string := "cancelled".

Record TaskFollowUp := mkFollowUp { FText : string; FUserID : string; FUserName : string; FAt : time }.

Record TaskFile := mkFile { FileID : string; FileName : string; FileSize : Z }.

Record TaskRef := mkTaskRef {
  RefID : string;
  RefTool : string;
  RefSummary : string;
  RefTurnKey : string;
  RefCallID : string;
  RefState : string;
  RequestedBy : string;
  RefStartedAt : time;
  RefEndedAt : time;
  RefCancelledBy : string;
  RefFollowUps : list TaskFollowUp;
  RefFile : option TaskFile
}.

(** ** Messages *)

Record Usage := mkUsage {
  InputTokens : Z;
  OutputTokens : Z;
  CacheCreationInputTokens : Z;
  CacheReadInputTokens : Z
}.

Record Message := mkMessage {
  Role : string;
  Content : string;
  UserID : string;
  AgentID : string;
  Author : string;
  Kind : string;
  ToolCalls : list ToolCall;
  Result : option ToolResult;
  Fork : option ForkRef;
  Task : option TaskRef;
  Model : string;
  UsageOf : option Usage;
  MachineID : string;
  Machine : string
}.

Record MessageWithID := mkMsg { MsgID : Z; CreatedAt : time; Key : string; Msg : Message }.

Definition KindForkSummary : string := "fork_summary".
Definition KindTurnEnd : string := "turn_end".
Definition KindForkReport : string := "fork_report".
Definition KindTaskResult : string := "task_result".

(** Go's [Message{...}]: the fields not named are zero. *)
Definition plainMessage (role content : string) : Message :=
  mkMessage role content "" "" "" "" [] None None None "" None "" "".

Definition zeroTask : TaskRef := mkTaskRef "" "" "" "" "" "" "" 0 0 "" [] None.

(** ** Bounded text *)

Definition ellipsis : string := encode_rune 8230.

(** [Clip]: at most [n] bytes, on a rune boundary. *)
Definition Clip (s : string) (n : Z) : string :=
  if len s <=? n then s
  else take_str (back_to_rune s (Z.to_nat n)) s +:+ ellipsis.

Definition maxTurnErrorBytes : Z := 2000.

Definition TurnEnd (agentID reason : string) : Message :=
  let m := mkMessage RoleAssistant "" "" agentID "" KindTurnEnd [] None None None "" None "" "" in
  if String.eqb reason "" then m
  else
    let reason :=
      if maxTurnErrorBytes <? len reason
      then take_str (back_to_rune reason (Z.to_nat maxTurnErrorBytes)) reason +:+ ellipsis
      else reason in
    mkMessage RoleAssistant (marshal reason) "" agentID "" KindTurnEnd [] None None None "" None "" "".

(** Why the turn failed; [""] when it did not, or [m] ends no turn. *)
Definition TurnEndError (m : Message) : string :=
  if negb (String.eqb (Kind m) KindTurnEnd) then ""
  else match unmarshal (Content m) with Some reason => reason | None => "" end.

(** ** Cutting text on a rune boundary *)

Lemma Clip_short s n : len s ≤ n → Clip s n = s.
Proof. intros H. unfold Clip. destruct (Z.leb_spec (len s) n); [done|lia]. Qed.

(** Clipped text is a prefix of at most [n] bytes, then an ellipsis. *)
Lemma Clip_spec s n :
  0 ≤ n → n < len s →
  ∃ k, (k ≤ Z.to_nat n)%nat ∧ Clip s n = take_str k s +:+ ellipsis ∧
    (k = 0%nat ∨ ∃ c, String.get k s = Some c ∧ rune_start c = true).
Proof.
  intros Hn Hl. unfold Clip. destruct (Z.leb_spec (len s) n); [lia|].
  exists (back_to_rune s (Z.to_nat n)). split; [apply back_to_rune_le|]. split; [done|].
  pose proof (back_to_rune_le s (Z.to_nat n)).
  assert (Z.to_nat n < String.length s)%nat as Hlt by (unfold len in *; lia).
  destruct (get_lt s (back_to_rune s (Z.to_nat n)) ltac:(lia)) as [c Hc].
  destruct (back_to_rune_start s (Z.to_nat n) c Hlt Hc) as [?|?]; [by left|]. right. eauto.
Qed.

Lemma length_ellipsis : String.length ellipsis = 3%nat.
Proof. reflexivity. Qed.

Lemma Clip_len s n : 0 ≤ n → len (Clip s n) ≤ n + 3.
Proof.
  intros Hn. destruct (Z.le_gt_cases (len s) n) as [Hl|Hl]; [rewrite Clip_short; lia|].
  destruct (Clip_spec s n Hn Hl) as (k & Hk & -> & _). unfold len in *.
  rewrite length_app_str, length_take_str, length_ellipsis. lia.
Qed.

Lemma valid_ellipsis : valid_utf8 ellipsis = true.
Proof. reflexivity. Qed.

Lemma back_to_rune_valid s n :
  valid_utf8 s = true → (n < String.length s)%nat → valid_utf8 (take_str (back_to_rune s n) s) = true.
Proof.
  intros Hv Hn. apply valid_take; [done|]. pose proof (back_to_rune_le s n).
  destruct (get_lt s (back_to_rune s n) ltac:(lia)) as [c Hc].
  destruct (back_to_rune_start s n c Hn Hc); [by left|]. right. eauto.
Qed.

Lemma Clip_valid s n : 0 ≤ n → valid_utf8 s = true → valid_utf8 (Clip s n) = true.
Proof.
  intros Hn Hv. unfold Clip. destruct (Z.leb_spec (len s) n); [done|].
  apply valid_app; [|apply valid_ellipsis]. apply back_to_rune_valid; [done|]. unfold len in *. lia.
Qed.

(** A failed turn's end says why, on a rune boundary and within its bound:
    what is read back of it is the reason, cut to 2000 bytes and an ellipsis
    when it is longer; a turn that did not fail says nothing. *)
Theorem turn_end_reason agentID reason :
  valid_utf8 reason = true →
  TurnEndError (TurnEnd agentID reason) = Clip reason maxTurnErrorBytes ∧
  len (TurnEndError (TurnEnd agentID reason)) ≤ maxTurnErrorBytes + 3 ∧
  (len reason ≤ maxTurnErrorBytes → TurnEndError (TurnEnd agentID reason) = reason) ∧
  valid_utf8 (TurnEndError (TurnEnd agentID reason)) = true.
Proof.
  intros Hv.
  assert (TurnEndError (TurnEnd agentID reason) = Clip reason maxTurnErrorBytes) as ->.
  { unfold TurnEnd, TurnEndError. destruct (String.eqb_spec reason "") as [->|Hne]; [done|].
    cbn [Kind Content]. change (String.eqb KindTurnEnd KindTurnEnd) with true. cbn [negb].
    pose proof (Clip_valid reason maxTurnErrorBytes ltac:(done) Hv) as Hc. unfold Clip in *.
    destruct (Z.leb_spec (len reason) maxTurnErrorBytes), (Z.ltb_spec maxTurnErrorBytes (len reason)); try lia;
      by rewrite unmarshal_marshal. }
  split_and!; [done|by apply Clip_len|by apply Clip_short|by apply Clip_valid].
Qed.

Lemma turn_end_reason_witness :
  TurnEndError (TurnEnd "jarvis" "été") = "été".
Proof.
  rewrite (proj1 (turn_end_reason "jarvis" "été" eq_refl)). reflexivity.
Defined.
