(* ===== verification/Access.v ===== *)
(** * Access rules (src/access/access.go, src/session/access.go)

    Who may use which tool, and so which agent answers whom. A rule closes
    what it targets to everyone but its holders; the rules are decided by pure
    functions over a snapshot, which the server caches for a few seconds
    ([Module Cache]). *)

From S2P Require Import Prelude GoStr Utf8 GoPath.
Open Scope string_scope.
Open Scope Z_scope.
Open Scope list_scope.

(** ** Rules, users, tools *)

Definition KindMCPServer : string := "mcp_server".
Definition KindPattern : string := "pattern".

Definition ValidKind (kind : string) : bool :=
  String.eqb kind KindMCPServer || String.eqb kind KindPattern.

Record Rule := mkRule {
  ruleID : Z;
  ruleKind : string;
  ruleTarget : string;
  ruleGroups : list string;
  ruleUsers : list string
}.

Record User := mkUser {
  userID : string;
  userAdmin : bool;
  userDisabled : bool;
  userGroups : list string
}.

Inductive sourceKind := sourceBuiltIn | sourceAgent | sourceMCP.

Record Source := mkSource { sourceKindOf : sourceKind; sourceServer : string }.

Record Tool := mkTool { toolName : string; toolSource : Source }.

Definition builtInSource : Source := mkSource sourceBuiltIn "".

(** [Source.MCPServer]: the server, when the tool comes from one. *)
Definition MCPServer (s : Source) : option string :=
  match sourceKindOf s with sourceMCP => Some (sourceServer s) | _ => None end.

Definition AgentToolPrefix : string := "agent_".

Definition BuiltIn (name : string) : Tool := mkTool name builtInSource.

Definition Agent (agentID : string) : Tool :=
  mkTool (AgentToolPrefix +:+ agentID) (mkSource sourceAgent "").

Definition FromMCP (server name : string) : Tool := mkTool name (mkSource sourceMCP server).

Definition validGlob (glob : string) : bool :=
  match path_match glob "" with Some _ => true | None => false end.

Definition ValidTarget (kind target : string) : bool :=
  if String.eqb target "" then false
  else if String.eqb kind KindPattern then validGlob target
  else true.

(** ** Decisions *)

Definition Matches (r : Rule) (t : Tool) : bool :=
  if String.eqb (ruleKind r) KindMCPServer then
    match MCPServer (toolSource t) with
    | Some server => String.eqb server (ruleTarget r)
    | None => false
    end
  else if String.eqb (ruleKind r) KindPattern then
    match path_match (ruleTarget r) (toolName t) with Some ok => ok | None => false end
  else false.

Definition Holds (r : Rule) (u : User) : bool :=
  contains (ruleUsers r) (userID u) || existsb (contains (ruleGroups r)) (userGroups u).

Definition HasHolder (r : Rule) : bool :=
  negb (Nat.eqb (length (ruleGroups r)) 0) || negb (Nat.eqb (length (ruleUsers r)) 0).

Definition Matching (t : Tool) (rules : list Rule) : list Rule :=
  List.filter (λ r, Matches r t) rules.

Definition Targets (r : Rule) (tools : list Tool) : list Tool := List.filter (Matches r) tools.

(** [Allowed]; a nil user is [None]. *)
Definition Allowed (u : option User) (t : Tool) (rules : list Rule) : bool :=
  match u with
  | None => Nat.eqb (length (Matching t rules)) 0
  | Some u =>
      if userDisabled u then false
      else if userAdmin u then true
      else negb (existsb (λ r, Matches r t && negb (Holds r u)) rules)
  end.

Record Snapshot := mkSnapshot { snapRules : list Rule; snapUsers : gmap string User }.

(** [Snapshot.User]: nobody for an empty ID; a user the snapshot does not know
    has no group and no role. *)
Definition SnapshotUser (s : Snapshot) (id : string) : option User :=
  if String.eqb id "" then None
  else
    match snapUsers s !! id with
    | Some u => Some u
    | None => Some (mkUser id false false [])
    end.

Definition SnapshotAllowed (s : Snapshot) (id : string) (t : Tool) : bool :=
  Allowed (SnapshotUser s id) t (snapRules s).

(** [Removes]: the users [rule] would leave without any of [agents]. *)
Definition Removes (rule : Rule) (others : list Rule) (users : list User) (agents : list Tool) : list User :=
  let with_ := others ++ [rule] in
  List.filter (λ u,
    let before := existsb (λ a, Allowed (Some u) a others) agents in
    let after := existsb (λ a, Allowed (Some u) a with_) agents in
    before && negb after) users.

(** [Service.OpenAgents], on the agents' identifiers. *)
Definition OpenAgents (snap : Snapshot) (id : string) (agents : list string) : list string :=
  List.filter (λ a, SnapshotAllowed snap id (Agent a)) agents.

(** [Service.openTo]: the agents open to a user, and the others, in order. *)
Definition openTo (snap : Snapshot) (id : string) (who : list string) : list string * list string :=
  (List.filter (λ a, SnapshotAllowed snap id (Agent a)) who,
   List.filter (λ a, negb (SnapshotAllowed snap id (Agent a))) who).

(** ** The server's copy of the rules *)

Module Cache.

Definition accessTTL : Z := 3 * second.
Definition accessRetry : Z := second.

(** [accessCache]: when the rules were read, and what was read. *)
Record t := mk { at_ : time; snap : Snapshot }.

Definition zero : t := mk 0 (mkSnapshot [] ∅).

(** [Service.access] at [now], [read] being what the store answers: [None] is
    an error. It returns the rules used and the cache afterwards. *)
Definition access (now : time) (read : option Snapshot) (c : t) : Snapshot * t :=
  if negb (is_zero_time (at_ c)) && (time_sub now (at_ c) <? accessTTL) then (snap c, c)
  else
    match read with
    | None => (snap c, mk (now + (accessRetry - accessTTL)) (snap c))
    | Some s => (s, mk now s)
    end.

End Cache.

(** ** Lemmas *)

Lemma Allowed_user u t rules :
  userDisabled u = false → userAdmin u = false →
  Allowed (Some u) t rules = true ↔ ∀ r, r ∈ rules → Matches r t = true → Holds r u = true.
Proof.
  intros Hd Ha. unfold Allowed. rewrite Hd, Ha, negb_true_iff, <- not_true_iff_false, existsb_exists.
  split.
  - intros H r Hr Hm. destruct (Holds r u) eqn:E; [done|]. exfalso. apply H.
    exists r. split; [by apply list_elem_of_In|]. by rewrite Hm, E.
  - intros H (r & Hr & [Hm Hh]%andb_true_iff). apply list_elem_of_In in Hr.
    rewrite (H r Hr Hm) in Hh. done.
Qed.

Lemma Allowed_nobody t rules :
  Allowed None t rules = true ↔ ∀ r, r ∈ rules → Matches r t = false.
Proof.
  unfold Allowed, Matching. rewrite Nat.eqb_eq, length_zero_iff_nil, filter_existsb_nil, Forall_forall.
  done.
Qed.

Lemma Allowed_mono u t rules rules' :
  rules ⊆ rules' → Allowed u t rules' = true → Allowed u t rules = true.
Proof.
  intros Hsub. destruct u as [u|].
  - destruct (userDisabled u) eqn:Hd; [unfold Allowed; by rewrite Hd|].
    destruct (userAdmin u) eqn:Ha; [unfold Allowed; by rewrite Hd, Ha|].
    rewrite !Allowed_user by done. naive_solver.
  - rewrite !Allowed_nobody. naive_solver.
Qed.

Lemma existsb_elem {A} (f : A → bool) l : existsb f l = true ↔ ∃ x, x ∈ l ∧ f x = true.
Proof. rewrite existsb_exists. by setoid_rewrite list_elem_of_In. Qed.

Lemma existsb_false_elem {A} (f : A → bool) l : existsb f l = false ↔ ∀ x, x ∈ l → f x = false.
Proof.
  rewrite <- not_true_iff_false, existsb_elem. split.
  - intros H x Hx. destruct (f x) eqn:E; [|done]. exfalso. eauto.
  - intros H (x & Hx & E). rewrite H in E; done.
Qed.

Lemma Holds_spec r u :
  Holds r u = true ↔ userID u ∈ ruleUsers r ∨ ∃ g, g ∈ userGroups u ∧ g ∈ ruleGroups r.
Proof.
  unfold Holds. rewrite orb_true_iff, contains_spec, existsb_elem.
  by setoid_rewrite contains_spec.
Qed.

(** ** Properties *)

(** A rule never opens anything: under more rules, whoever they are for,
    nobody is allowed a tool they were not allowed before; an admin keeps
    everything, a disabled user (an admin too) has nothing, and a request
    without a user has only what no rule targets. *)
Theorem rules_only_close u t rules rules' :
  rules ⊆ rules' →
  (Allowed u t rules' = true → Allowed u t rules = true) ∧
  (∀ v, u = Some v → userDisabled v = true → Allowed u t rules = false) ∧
  (∀ v, u = Some v → userDisabled v = false → userAdmin v = true → Allowed u t rules' = true) ∧
  (u = None → Allowed u t rules' = true ↔ ∀ r, r ∈ rules' → Matches r t = false).
Proof.
  intros Hsub. split; [by apply Allowed_mono|]. split; [|split].
  - intros v -> Hd. unfold Allowed. by rewrite Hd.
  - intros v -> Hd Ha. unfold Allowed. by rewrite Hd, Ha.
  - intros ->. apply Allowed_nobody.
Qed.

Definition crmRule : Rule := mkRule 1 KindPattern "crm_*" ["sales"] [].
Definition alice : User := mkUser "alice" false false ["sales"].
Definition bob : User := mkUser "bob" false false [].

Lemma rules_only_close_witness :
  Allowed (Some alice) (BuiltIn "crm_find") [] = true.
Proof.
  destruct (rules_only_close (Some alice) (BuiltIn "crm_find") [] [crmRule]) as [H _].
  - intros r Hr. by apply not_elem_of_nil in Hr.
  - apply H. vm_compute. reflexivity.
Defined.

(** A tool several rules target requires each of them, and a rule targets
    what its kind says: a rule on a server, the tools that come from that
    server, whatever their names; a rule on a plain pattern, the tool of that
    name alone; one on a prefix and a star, the names that start with it and
    hold no '/' past it. *)
Theorem allowed_requires_every_rule u t rules :
  userDisabled u = false → userAdmin u = false →
  (Allowed (Some u) t rules = true ↔
   ∀ r, r ∈ rules → Matches r t = true →
     userID u ∈ ruleUsers r ∨ ∃ g, g ∈ userGroups u ∧ g ∈ ruleGroups r) ∧
  (∀ id srv gs us, Matches (mkRule id KindMCPServer srv gs us) t = true ↔
     toolSource t = mkSource sourceMCP srv) ∧
  (∀ id p gs us, plain p = true →
     Matches (mkRule id KindPattern p gs us) t = true ↔ toolName t = p) ∧
  (∀ id p gs us, plain p = true → p ≠ "" →
     Matches (mkRule id KindPattern (p +:+ "*") gs us) t = true ↔
     ∃ rest, toolName t = p +:+ rest ∧ has_byte slash rest = false).
Proof.
  intros Hd Ha. split; [|split; [|split]].
  - rewrite Allowed_user by done. by setoid_rewrite Holds_spec.
  - intros id srv gs us. unfold Matches, MCPServer. cbn.
    destruct (toolSource t) as [[] server]; cbn; try (split; congruence).
    rewrite String.eqb_eq. split; congruence.
  - intros id p gs us Hp. unfold Matches. cbn. rewrite path_match_plain by done.
    rewrite String.eqb_eq. naive_solver.
  - intros id p gs us Hp Hne. unfold Matches. cbn. rewrite path_match_prefix by done.
    destruct (cut_prefix p (toolName t)) as [rest|] eqn:E.
    + apply cut_prefix_some in E as Hn. rewrite Hn, negb_true_iff. split; [eauto|].
      clear E. intros (r & E & Hr). apply (f_equal (drop_str (String.length p))) in E.
      rewrite !drop_app_str in E. congruence.
    + split; [done|]. intros (r & Hn & _). by rewrite Hn, cut_prefix_app in E.
Qed.

Lemma allowed_requires_every_rule_witness :
  Allowed (Some bob) (FromMCP "crm" "crm_find") [crmRule] = false ∧
  (Allowed (Some alice) (FromMCP "crm" "crm_find") [crmRule] = true ↔
   ∀ r, r ∈ [crmRule] → Matches r (FromMCP "crm" "crm_find") = true →
     userID alice ∈ ruleUsers r ∨ ∃ g, g ∈ userGroups alice ∧ g ∈ ruleGroups r).
Proof.
  split; [vm_compute; reflexivity|].
  apply (allowed_requires_every_rule alice (FromMCP "crm" "crm_find") [crmRule]); reflexivity.
Defined.

(** The warning of the back-office is exact: [Removes] lists, in order and
    each once as given, the users who may use an agent today and none once the
    rule is added; a user it does not list keeps an agent, or had none. *)
Theorem removes_exact rule others users agents u :
  (u ∈ Removes rule others users agents ↔
   u ∈ users ∧ (∃ a, a ∈ agents ∧ Allowed (Some u) a others = true) ∧
   (∀ a, a ∈ agents → Allowed (Some u) a (others ++ [rule]) = false)) ∧
  (u ∈ users → u ∉ Removes rule others users agents →
   (∀ a, a ∈ agents → Allowed (Some u) a others = false) ∨
   ∃ a, a ∈ agents ∧ Allowed (Some u) a others = true ∧
        Allowed (Some u) a (others ++ [rule]) = true) ∧
  sublist (Removes rule others users agents) users.
Proof.
  assert (Hin : u ∈ Removes rule others users agents ↔
   u ∈ users ∧ (∃ a, a ∈ agents ∧ Allowed (Some u) a others = true) ∧
   (∀ a, a ∈ agents → Allowed (Some u) a (others ++ [rule]) = false)).
  { unfold Removes. rewrite list_elem_of_In, filter_In, andb_true_iff, negb_true_iff,
      existsb_elem, existsb_false_elem, <- list_elem_of_In. done. }
  split; [done|split].
  - intros Hu Hno. rewrite Hin in Hno.
    destruct (existsb (λ a, Allowed (Some u) a (others ++ [rule])) agents) eqn:E.
    + right. apply existsb_elem in E as (a & Ha & E). exists a. repeat split; [done| |done].
      eapply Allowed_mono; [|done]. set_solver.
    + left. pose proof (proj1 (existsb_false_elem _ _) E) as E'. intros a Ha.
      destruct (Allowed (Some u) a others) eqn:Ea; [|done]. exfalso. apply Hno. eauto.
  - unfold Removes. generalize (λ u0 : User, existsb (λ a, Allowed (Some u0) a others) agents &&
      negb (existsb (λ a, Allowed (Some u0) a (others ++ [rule])) agents)) as f.
    clear. intros f. induction users as [|x l IH]; simpl; [constructor|].
    destruct (f x); by constructor.
Qed.

Definition agentsRule : Rule := mkRule 2 KindPattern "agent_*" [] ["alice"].

Lemma removes_exact_witness :
  bob ∈ Removes agentsRule [] [alice; bob] [Agent "a"; Agent "b"] ∧
  ∃ a, a ∈ [Agent "a"; Agent "b"] ∧ Allowed (Some alice) a [] = true ∧
       Allowed (Some alice) a ([] ++ [agentsRule]) = true.
Proof.
  split.
  - apply (proj1 (removes_exact agentsRule [] [alice; bob] [Agent "a"; Agent "b"] bob)).
    split; [right; left|split].
    + exists (Agent "a"). split; [left|reflexivity].
    + intros a Ha. apply list_elem_of_In in Ha.
      destruct Ha as [<-|[<-|[]]]; vm_compute; reflexivity.
  - destruct (removes_exact agentsRule [] [alice; bob] [Agent "a"; Agent "b"] alice)
      as (_ & H & _).
    destruct H as [H|H]; [left| |exfalso|exact H].
    + intros Hin. apply list_elem_of_In in Hin. vm_compute in Hin. destruct Hin as [E|[]]. discriminate.
    + specialize (H (Agent "a") (list_elem_of_here _ _)). vm_compute in H. discriminate.
Defined.

(** The rules the server uses are as fresh as the store allows: a read
    that succeeds is used at once and for less than [accessTTL]; one that fails
    keeps what was read before and is tried again [accessRetry] later, not
    sooner and not later; and a server that never read the rules opens every
    agent to a known user, leaving the turn to decide. *)
Theorem access_cache_fresh now later s c (r1 r2 : option Snapshot) :
  0 < now - Cache.accessTTL → now ≤ later → later - now < int64_max →
  let c' := snd (Cache.access now r1 c) in
  (r1 = Some s → time_sub now (Cache.at_ c) >= Cache.accessTTL →
     fst (Cache.access now r1 c) = s ∧
     fst (Cache.access later r2 c') =
       if later - now <? Cache.accessTTL then s else default s r2) ∧
  (r1 = None → Cache.accessTTL ≤ time_sub now (Cache.at_ c) →
     fst (Cache.access now r1 c) = Cache.snap c ∧
     fst (Cache.access later r2 c') =
       if later - now <? Cache.accessRetry then Cache.snap c else default (Cache.snap c) r2) ∧
  (∀ id a, id ≠ "" → SnapshotAllowed (Cache.snap Cache.zero) id (Agent a) = true).
Proof.
  intros Hnow Hle Hsat c'. subst c'. unfold Cache.access, Cache.accessTTL, Cache.accessRetry, second in *.
  split; [|split].
  - intros -> Hold. destruct (time_sub now (Cache.at_ c) <? _) eqn:E; bool_to_prop; [lia|].
    rewrite andb_false_r. cbn. split; [done|]. unfold is_zero_time.
    destruct (now =? 0) eqn:Ez; bool_to_prop; [lia|]. cbn.
    unfold time_sub, int64_min, int64_max in *.
    destruct (later - now <? 3 * 1000000000) eqn:Es; bool_to_prop.
    + destruct (_ <? 3 * 1000000000) eqn:Ec in |- *; bool_to_prop; [done|lia].
    + destruct (_ <? 3 * 1000000000) eqn:Ec in |- *; bool_to_prop; [lia|]. by destruct r2.
  - intros -> Hold. destruct (time_sub now (Cache.at_ c) <? _) eqn:E; bool_to_prop; [lia|].
    rewrite andb_false_r. cbn. split; [done|]. unfold is_zero_time.
    match goal with |- context [?x =? 0] => destruct (x =? 0) eqn:Ez end; bool_to_prop; [lia|]. cbn.
    unfold time_sub, int64_min, int64_max in *.
    destruct (later - now <? 1000000000) eqn:Es; bool_to_prop.
    + destruct (_ <? 3 * 1000000000) eqn:Ec in |- *; bool_to_prop; [done|lia].
    + destruct (_ <? 3 * 1000000000) eqn:Ec in |- *; bool_to_prop; [lia|]. by destruct r2.
  - intros id a Hid. unfold SnapshotAllowed, SnapshotUser. cbn.
    by destruct (String.eqb_spec id "").
Qed.

Lemma access_cache_fresh_witness :
  fst (Cache.access (100 * second) (Some (mkSnapshot [crmRule] ∅)) Cache.zero) =
  mkSnapshot [crmRule] ∅.
Proof.
  apply (access_cache_fresh (100 * second) (101 * second) (mkSnapshot [crmRule] ∅) Cache.zero
           (Some (mkSnapshot [crmRule] ∅)) None);
    vm_compute; congruence.
Defined.
