(* ===== verification/Hub.v ===== *)
(** * The event hub (src/sse/hub.go)

    The server's in-process pub/sub, by topic. Each topic keeps its latest
    events; a client that reconnects with the ID of the last event it got is
    sent the ones it missed, or told to reload when they are gone.

    A subscriber is shared by its topics (a Go pointer): the hub holds the
    store of subscribers, the topics their identifiers. An operation runs under
    the hub's lock, so it is one step; the clock is read once per operation
    and passed to it. *)

From S2P Require Import Prelude GoStr Keys.
Open Scope string_scope.
Open Scope Z_scope.
Open Scope list_scope.

Definition DefaultKeep : nat := 100.
Definition DefaultIdle : Z := 10 * minute.
Definition subscriberBuffer : nat := 64.

(** [activity.SSEEvent]. *)
Record SSEEvent := mkSSE { Type_ : string; Data : string }.

Record Event := mkEvent { ID : string; sse : SSEEvent }.

(** [topic]: [seqs] holds the seq of each of [recent]. *)
Record topic := mkTopic {
  subs : list nat;
  recent : list Event;
  seqs : list Z;
  floor : Z;
  used : time
}.

(** [subscriber]: what its channel holds, whether it is closed, its topics. *)
Record subscriber := mkSub { ch : list Event; closed : bool; topicsOf : list string }.

Record Hub := mkHub {
  epoch : string;
  keep : nat;
  idle : Z;
  seq : Z;
  topics : gmap string topic;
  swept : time;
  dropped : Z;
  subscribers : gmap nat subscriber;
  nextSub : nat
}.

Definition NewHub (epoch : string) : Hub :=
  mkHub epoch DefaultKeep DefaultIdle 0 ∅ 0 0 ∅ 0.

(** [subscriber.end]: closes the channel, once. *)
Definition end_sub (s : subscriber) : subscriber := mkSub (ch s) true (topicsOf s).

Definition id (h : Hub) (n : Z) : string := epoch h +:+ "-" +:+ itoa n.

(** [parse]: the seq of an ID of this hub, or [None]. *)
Definition parse (h : Hub) (s : string) : option Z :=
  let '(e, sq, ok) := cut_byte "-" s in
  if negb ok || negb (String.eqb e (epoch h)) then None
  else
    match parse_uint sq with
    | Some n => if n <=? seq h then Some n else None
    | None => None
    end.

Definition with_topics (h : Hub) (m : gmap string topic) : Hub :=
  mkHub (epoch h) (keep h) (idle h) (seq h) m (swept h) (dropped h) (subscribers h) (nextSub h).

Definition with_subscribers (h : Hub) (m : gmap nat subscriber) (n : nat) : Hub :=
  mkHub (epoch h) (keep h) (idle h) (seq h) (topics h) (swept h) (dropped h) m n.

(** What [sweep] drops of a topic: a topic created anew starts after it. *)
Definition last_seq (t : topic) : Z :=
  match last (seqs t) with Some s => Z.max (floor t) s | None => floor t end.

Definition expired (now : time) (h : Hub) (t : topic) : bool :=
  Nat.eqb (length (subs t)) 0 && (idle h <=? time_sub now (used t)).

Definition sweep (now : time) (h : Hub) : Hub :=
  if time_sub now (swept h) <? minute then h
  else
    mkHub (epoch h) (keep h) (idle h) (seq h)
      (filter (λ kv, expired now h kv.2 = false) (topics h))
      now
      (map_fold (λ _ t d, if expired now h t then Z.max d (last_seq t) else d) (dropped h) (topics h))
      (subscribers h) (nextSub h).

(** [topic]: the topic, created when there is none. *)
Definition get_topic (now : time) (h : Hub) (name : string) : topic :=
  match topics h !! name with
  | Some t => t
  | None => mkTopic [] [] [] (dropped h) now
  end.

(** The loop of [Publish] that makes room for an event. *)
Fixpoint trim (keep : nat) (floor : Z) (recent : list Event) (seqs : list Z) : Z * list Event * list Z :=
  match recent, seqs with
  | _ :: r, s :: q =>
      if (keep <=? length recent)%nat then trim keep s r q else (floor, recent, seqs)
  | _, _ => (floor, recent, seqs)
  end.

(** The loop of [Publish] over a topic's subscribers: those kept, and the
    store. A closed one is dropped, one whose channel is full is ended. *)
Fixpoint deliver (ev : Event) (ids : list nat) (store : gmap nat subscriber) : list nat * gmap nat subscriber :=
  match ids with
  | [] => ([], store)
  | i :: ids =>
      match store !! i with
      | None => deliver ev ids store
      | Some s =>
          if closed s then deliver ev ids store
          else if (length (ch s) <? subscriberBuffer)%nat then
            let '(kept, store) :=
              deliver ev ids (<[i := mkSub (ch s ++ [ev]) (closed s) (topicsOf s)]> store) in
            (i :: kept, store)
          else deliver ev ids (<[i := end_sub s]> store)
      end
  end.

(** [Publish], past the observers. The seq is a uint64. *)
Definition Publish (now : time) (name : string) (event : SSEEvent) (h : Hub) : Hub :=
  let h := sweep now h in
  let t := get_topic now h name in
  let sq := (seq h + 1) mod 2 ^ 64 in
  let ev := mkEvent (epoch h +:+ "-" +:+ itoa sq) event in
  let '(fl, rc, sqs) := trim (keep h) (floor t) (recent t) (seqs t) in
  let '(kept, store) := deliver ev (subs t) (subscribers h) in
  mkHub (epoch h) (keep h) (idle h) sq
    (<[name := mkTopic kept (rc ++ [ev]) (sqs ++ [sq]) fl now]> (topics h))
    (swept h) (dropped h) store (nextSub h).

Record Subscription := mkSubscription {
  Missed : list Event;
  Stale : bool;
  At : string;
  sub : nat
}.

(** Insertion by seq: the order [sort.Slice] gives, the seqs of distinct
    events being distinct. *)
Fixpoint insert_seq (x : Z * Event) (l : list (Z * Event)) : list (Z * Event) :=
  match l with
  | [] => [x]
  | y :: l' => if fst x <? fst y then x :: l else y :: insert_seq x l'
  end.

Definition sort_seq (l : list (Z * Event)) : list (Z * Event) := fold_right insert_seq [] l.

(** The loop of [Subscribe] over the names: the topics subscribed, what was
    missed, and whether some of it is gone. [last] is [None] for an ID unknown
    here; [wants] is false for a client that missed nothing. *)
Fixpoint subscribe_topics (now : time) (me : nat) (wants : bool) (last : option Z)
    (names : list string) (h : Hub) (all : list (Z * Event)) (stale : bool)
    : Hub * list (Z * Event) * bool :=
  match names with
  | [] => (h, all, stale)
  | name :: names =>
      let t := get_topic now h name in
      let h := with_topics h (<[name := mkTopic (subs t ++ [me]) (recent t) (seqs t) (floor t) (used t)]> (topics h)) in
      if negb wants then subscribe_topics now me wants last names h all stale
      else
        match last with
        | Some n =>
            if n <? floor t then subscribe_topics now me wants last names h all true
            else
              subscribe_topics now me wants last names h
                (all ++ List.filter (λ p, n <? fst p) (combine (seqs t) (recent t))) stale
        | None => subscribe_topics now me wants last names h all true
        end
  end.

Definition Subscribe (now : time) (lastID : string) (names : list string) (h : Hub) : Subscription * Hub :=
  let h := sweep now h in
  let me := nextSub h in
  let last := parse h lastID in
  let h := with_subscribers h (<[me := mkSub [] false names]> (subscribers h)) (S me) in
  let '(h, all, stale) :=
    subscribe_topics now me (negb (String.eqb lastID "")) last names h [] false in
  (mkSubscription (if stale then [] else snd <$> sort_seq all) stale (id h (seq h)) me, h).

Fixpoint remove_sub (now : time) (me : nat) (names : list string) (m : gmap string topic) : gmap string topic :=
  match names with
  | [] => m
  | name :: names =>
      match m !! name with
      | None => remove_sub now me names m
      | Some t =>
          remove_sub now me names
            (<[name := mkTopic (List.filter (λ i, negb (Nat.eqb i me)) (subs t)) (recent t) (seqs t) (floor t) now]> m)
      end
  end.

Definition Unsubscribe (now : time) (s : Subscription) (h : Hub) : Hub :=
  match subscribers h !! sub s with
  | None => h
  | Some sb =>
      with_subscribers (with_topics h (remove_sub now (sub s) (topicsOf sb) (topics h)))
        (<[sub s := end_sub sb]> (subscribers h)) (nextSub h)
  end.

Fixpoint touch (now : time) (names : list string) (h : Hub) : Hub :=
  match names with
  | [] => h
  | name :: names =>
      let t := get_topic now h name in
      touch now names
        (with_topics h (<[name := mkTopic (subs t) (recent t) (seqs t) (floor t) now]> (topics h)))
  end.

Definition Position (now : time) (names : list string) (h : Hub) : string * Hub :=
  let h := touch now names (sweep now h) in (id h (seq h), h).

(** A subscriber's client takes an event off its channel. *)
Definition Receive (i : nat) (h : Hub) : option (Event * Hub) :=
  match subscribers h !! i with
  | Some (mkSub (ev :: rest) c ts) =>
      Some (ev, with_subscribers h (<[i := mkSub rest c ts]> (subscribers h)) (nextSub h))
  | _ => None
  end.

(** ** The history of a hub

    The log is what the hub published, in order. It is not the program's: it is
    what the properties speak of. *)

Definition entry : Type := Z * string * SSEEvent.
Definition eseq (e : entry) : Z := fst (fst e).
Definition ename (e : entry) : string := snd (fst e).
Definition event_of (ep : string) (e : entry) : Event :=
  mkEvent (ep +:+ "-" +:+ itoa (eseq e)) (snd e).

Definition after (n : Z) (e : entry) : bool := n <? eseq e.

(** The events of a topic after a seq, and those of several topics. *)
Definition of_topic (name : string) (n : Z) (log : list entry) : list entry :=
  List.filter (λ e, String.eqb (ename e) name && after n e) log.
Definition of_topics (names : list string) (n : Z) (log : list entry) : list entry :=
  List.filter (λ e, contains names (ename e) && after n e) log.

Definition seq_lt (a b : entry) : Prop := eseq a < eseq b.

(** A topic holds exactly its events of the log after its floor. *)
Record topic_ok (ep : string) (sq : Z) (log : list entry) (name : string) (t : topic) : Prop := {
  ok_seqs : seqs t = eseq <$> of_topic name (floor t) log;
  ok_recent : recent t = event_of ep <$> of_topic name (floor t) log;
  ok_floor : 0 ≤ floor t ≤ sq
}.

Record hub_ok (h : Hub) (log : list entry) : Prop := {
  ok_sorted : StronglySorted seq_lt log;
  ok_range : ∀ e, e ∈ log → 0 < eseq e ≤ seq h;
  ok_seq : 0 ≤ seq h ≤ uint64_max;
  ok_keep : (0 < keep h)%nat;
  ok_topics : ∀ name t, topics h !! name = Some t →
    topic_ok (epoch h) (seq h) log name t ∧ (length (recent t) ≤ keep h)%nat;
  ok_absent : ∀ name, topics h !! name = None → of_topic name (dropped h) log = [];
  ok_dropped : 0 ≤ dropped h ≤ seq h
}.

Lemma filter_ext_elem {A} (f g : A → bool) l :
  (∀ x, x ∈ l → f x = g x) → List.filter f l = List.filter g l.
Proof.
  induction l as [|x l IH]; simpl; intros H; [done|].
  rewrite (H x) by left. rewrite IH; [done|]. intros y Hy. apply H. by right.
Qed.

Lemma filter_nil_iff {A} (f : A → bool) l : List.filter f l = [] ↔ ∀ x, x ∈ l → f x = false.
Proof. rewrite filter_existsb_nil, Forall_forall. done. Qed.

Lemma sorted_cons_elem x log y : StronglySorted seq_lt (x :: log) → y ∈ log → eseq x < eseq y.
Proof. intros [_ H]%StronglySorted_inv Hy. rewrite Forall_forall in H. by apply H. Qed.

(** Dropping the oldest event of a topic moves its floor to that event. *)
Lemma of_topic_tail name n log e l :
  StronglySorted seq_lt log → of_topic name n log = e :: l →
  n < eseq e ∧ of_topic name (eseq e) log = l.
Proof.
  intros Hs. induction log as [|x log IH]; simpl; [done|].
  unfold after. destruct (String.eqb (ename x) name && (n <? eseq x)) eqn:E.
  - intros [= -> <-]. bool_to_prop. split; [done|].
    rewrite Z.ltb_irrefl, andb_false_r. apply filter_ext_elem. intros y Hy.
    pose proof (sorted_cons_elem _ _ _ Hs Hy) as Hlt. unfold after.
    destruct (Z.ltb_spec (eseq e) (eseq y)), (Z.ltb_spec n (eseq y)); (done || lia).
  - intros He. apply StronglySorted_inv in Hs as [Hs _]. destruct (IH Hs He) as [Hn Hl].
    split; [done|]. rewrite <- Hl.
    destruct (String.eqb (ename x) name); simpl in *; [|done].
    destruct (Z.ltb_spec (eseq e) (eseq x)); [|done]. bool_to_prop. lia.
Qed.

Lemma of_topic_app name n log e :
  of_topic name n (log ++ [e]) =
  of_topic name n log ++ (if String.eqb (ename e) name && after n e then [e] else []).
Proof. unfold of_topic. rewrite List.filter_app. simpl. by destruct (_ && _). Qed.

Lemma of_topic_elem name n log e :
  e ∈ of_topic name n log ↔ e ∈ log ∧ ename e = name ∧ n < eseq e.
Proof.
  unfold of_topic, after. rewrite elem_filter, andb_true_iff, String.eqb_eq, Z.ltb_lt. done.
Qed.

Lemma of_topic_nil name n log :
  of_topic name n log = [] ↔ ∀ e, e ∈ log → ename e = name → eseq e ≤ n.
Proof.
  unfold of_topic, after. rewrite filter_nil_iff. split; intros H e He; specialize (H e He).
  - intros Hn. destruct (String.eqb_spec (ename e) name); [|done]. cbn in H. by apply Z.ltb_ge.
  - destruct (String.eqb_spec (ename e) name) as [Hn|]; [|done]. cbn. by apply Z.ltb_ge, H.
Qed.

Lemma of_topic_nil_mono name n m log : of_topic name n log = [] → n ≤ m → of_topic name m log = [].
Proof. rewrite !of_topic_nil. intros H Hm e He Hn. specialize (H e He Hn). lia. Qed.

Lemma of_topic_above name n log m :
  (∀ e, e ∈ log → eseq e ≤ m) → m ≤ n → of_topic name n log = [].
Proof.
  intros H Hn. apply filter_nil_iff. intros e He. unfold after. apply H in He.
  destruct (Z.ltb_spec n (eseq e)); [lia|]. apply andb_false_r.
Qed.

(** [trim] keeps a topic a suffix of its log. *)
Lemma trim_ok ep kp name log fl rc sq :
  StronglySorted seq_lt log → (0 < kp)%nat →
  sq = eseq <$> of_topic name fl log → rc = event_of ep <$> of_topic name fl log →
  let '(fl', rc', sq') := trim kp fl rc sq in
  sq' = eseq <$> of_topic name fl' log ∧ rc' = event_of ep <$> of_topic name fl' log ∧
  fl ≤ fl' ∧ (fl' = fl ∨ ∃ e, e ∈ log ∧ ename e = name ∧ eseq e = fl') ∧ (length rc' < kp)%nat.
Proof.
  intros Hs Hk. remember (of_topic name fl log) as l eqn:Hl. revert fl rc sq Hl.
  induction l as [|e l IH]; intros fl rc sq Hl -> ->; simpl.
  - rewrite <- Hl. split_and!; [done|done|lia|by left|lia].
  - symmetry in Hl. destruct (of_topic_tail _ _ _ _ _ Hs Hl) as [Hn Ht].
    destruct (kp <=? _)%nat eqn:E.
    + specialize (IH (eseq e) _ _ (eq_sym Ht) eq_refl eq_refl).
      destruct (trim kp (eseq e) _ _) as [[fl' rc'] sq'].
      destruct IH as (? & ? & ? & Hor & ?). split_and!; try done; [lia|].
      right. destruct Hor as [->|?]; [|done]. exists e.
      assert (e ∈ of_topic name fl log) as (? & ? & _)%of_topic_elem by (rewrite Hl; left). done.
    + bool_to_prop. rewrite Hl. cbn in E. simpl. split_and!; [done|done|lia|by left|lia].
Qed.

Lemma get_topic_ok now h log name :
  hub_ok h log →
  topic_ok (epoch h) (seq h) log name (get_topic now h name) ∧
  (length (recent (get_topic now h name)) ≤ keep h)%nat.
Proof.
  intros Hok. unfold get_topic. destruct (topics h !! name) as [t|] eqn:E.
  - by apply (ok_topics _ _ Hok).
  - pose proof (ok_absent _ _ Hok name E) as Ha. pose proof (ok_dropped _ _ Hok).
    split; [|simpl; lia]. split; cbn; rewrite ?Ha; (done || lia).
Qed.

(** What a topic keeps, apart from its subscribers and when it was used. *)
Definition core (t : topic) : Z * list Event * list Z := (floor t, recent t, seqs t).

Lemma topic_ok_core ep sq log name t t' :
  core t' = core t → topic_ok ep sq log name t → topic_ok ep sq log name t'.
Proof. unfold core. intros [= Hf Hr Hs] [? ? ?]. split; rewrite ?Hf, ?Hr, ?Hs; done. Qed.

Lemma hub_ok_topics now h log m :
  hub_ok h log →
  (∀ name t, m !! name = Some t → core t = core (get_topic now h name)) →
  (∀ name, m !! name = None → topics h !! name = None) →
  hub_ok (with_topics h m) log.
Proof.
  intros Hok Hm Hn. destruct Hok eqn:Eok. split; cbn; try done.
  - intros name t Ht. destruct (get_topic_ok now h log name Hok) as [Ho Hl].
    split; [by eapply topic_ok_core; [apply Hm|]|].
    specialize (Hm _ _ Ht). unfold core in Hm. by injection Hm as _ -> _.
  - intros name Hnone. auto.
Qed.

Lemma hub_ok_subscribers h log m n : hub_ok h log → hub_ok (with_subscribers h m n) log.
Proof. intros []. by split. Qed.

Lemma sweep_dropped now h :
  let d := map_fold (λ _ t d, if expired now h t then Z.max d (last_seq t) else d) (dropped h) (topics h) in
  dropped h ≤ d ∧
  (∀ name t, topics h !! name = Some t → expired now h t = true → last_seq t ≤ d) ∧
  (∀ b, dropped h ≤ b → (∀ name t, topics h !! name = Some t → last_seq t ≤ b) → d ≤ b).
Proof.
  apply (map_fold_weak_ind (λ d m, dropped h ≤ d ∧
    (∀ name t, m !! name = Some t → expired now h t = true → last_seq t ≤ d) ∧
    (∀ b, dropped h ≤ b → (∀ name t, m !! name = Some t → last_seq t ≤ b) → d ≤ b))).
  - split; [done|split; [|done]]. intros name t H. by rewrite lookup_empty in H.
  - intros i x m r Hi (Hd & He & Hb). split; [destruct (expired now h x); lia|split].
    + intros name t Ht Hex. destruct (decide (i = name)) as [->|Hne].
      * rewrite lookup_insert_eq in Ht. injection Ht as ->. rewrite Hex. lia.
      * rewrite lookup_insert_ne in Ht by done. specialize (He _ _ Ht Hex).
        destruct (expired now h x); lia.
    + intros b Hbd Hall. assert (r ≤ b) as Hr.
      { apply Hb; [done|]. intros name t Ht. apply (Hall name). rewrite lookup_insert_ne; [done|].
        intros ->. congruence. }
      specialize (Hall i x (lookup_insert_eq _ _ _)). destruct (expired now h x); lia.
Qed.

Lemma last_seq_ok ep sq log name t :
  StronglySorted seq_lt log → (∀ e, e ∈ log → eseq e ≤ sq) → topic_ok ep sq log name t →
  last_seq t ≤ sq ∧ ∀ d, last_seq t ≤ d → of_topic name d log = [].
Proof.
  intros Hs Hle [Hq _ Hf].
  assert (∀ s, last (seqs t) = Some s → ∃ e, e ∈ of_topic name (floor t) log ∧ eseq e = s) as Hlast.
  { intros s Hl. apply last_Some_elem_of in Hl. rewrite Hq in Hl.
    apply list_elem_of_fmap in Hl as (e & -> & He). eauto. }
  split.
  - unfold last_seq. destruct (last (seqs t)) as [s|] eqn:E; [|lia].
    destruct (Hlast s eq_refl) as (e & He & <-). apply of_topic_elem in He as (He & _). apply Hle in He. lia.
  - intros d Hd. apply filter_nil_iff. intros e He.
    destruct (String.eqb_spec (ename e) name) as [Hn|]; [|done]. cbn. unfold after.
    destruct (Z.ltb_spec d (eseq e)) as [Hlt|]; [|done]. exfalso.
    assert (e ∈ of_topic name (floor t) log) as Hin.
    { apply of_topic_elem. unfold last_seq in Hd. destruct (last (seqs t)); split_and!; try done; lia. }
    assert (eseq e ∈ seqs t) as Hin' by (rewrite Hq; apply list_elem_of_fmap; eauto).
    unfold last_seq in Hd. destruct (last (seqs t)) as [s|] eqn:E.
    2: { apply last_None in E. rewrite E in Hin'. by apply not_elem_of_nil in Hin'. }
    assert (StronglySorted Z.lt (seqs t)) as Hss.
    { rewrite Hq. apply (StronglySorted_fmap eseq seq_lt); [done|].
      clear -Hs. unfold of_topic. induction Hs as [|x l Hl IH Hf]; simpl; [constructor|].
      destruct (_ && _); [|done]. constructor; [done|]. rewrite Forall_forall in *.
      intros y Hy. apply Hf. by apply elem_filter in Hy as [? _]. }
    apply last_Some in E as [l' El]. rewrite El in Hss, Hin'.
    apply elem_of_app in Hin' as [Hin'|Hin'%list_elem_of_singleton]; [|lia].
    apply StronglySorted_app in Hss as (Hss & _). specialize (Hss _ _ Hin' (list_elem_of_here _ _)). lia.
Qed.

Lemma sweep_ok now h log : hub_ok h log → hub_ok (sweep now h) log.
Proof.
  intros Hok. unfold sweep. destruct (time_sub now (swept h) <? minute); [done|].
  destruct (sweep_dropped now h) as (Hd & He & Hb).
  set (d := map_fold _ _ _) in *. clearbody d. pose proof Hok as [Hs Hr Hq Hk Ht Ha Hdr].
  assert (∀ name t, topics h !! name = Some t → last_seq t ≤ seq h ∧
            ∀ d, last_seq t ≤ d → of_topic name d log = []) as Hls.
  { intros name t Hn. eapply last_seq_ok; [done| |by apply Ht]. intros e Hin. by apply Hr. }
  split; cbn; try done.
  - intros name t Hn. apply map_lookup_filter_Some in Hn as [Hn _]. auto.
  - intros name Hn. apply map_lookup_filter_None in Hn as [Hn|Hn].
    + apply of_topic_nil_mono with (dropped h); [by apply Ha|done].
    + destruct (topics h !! name) as [t|] eqn:E.
      * specialize (Hn t eq_refl). cbn in Hn. apply (Hls name t E). apply (He name t E).
        by destruct (expired now h t).
      * apply of_topic_nil_mono with (dropped h); [by apply Ha|done].
  - split; [lia|]. apply Hb; [lia|]. intros name t Hn. by apply Hls in Hn as [? _].
Qed.

Definition entry_of (h : Hub) (name : string) (event : SSEEvent) : entry := (seq h + 1, name, event).

Lemma sweep_fields now h :
  epoch (sweep now h) = epoch h ∧ keep (sweep now h) = keep h ∧ seq (sweep now h) = seq h ∧
  subscribers (sweep now h) = subscribers h ∧ nextSub (sweep now h) = nextSub h.
Proof. unfold sweep. by destruct (_ <? _). Qed.

Lemma next_seq h log : hub_ok h log → seq h < uint64_max → (seq h + 1) mod 2 ^ 64 = seq h + 1.
Proof.
  intros Hok Hlt. destruct (ok_seq _ _ Hok). unfold uint64_max in *. apply Z.mod_small. lia.
Qed.

Lemma Publish_ok now name event h log :
  hub_ok h log → seq h < uint64_max →
  hub_ok (Publish now name event h) (log ++ [entry_of h name event]) ∧
  seq (Publish now name event h) = seq h + 1.
Proof.
  intros Hok Hlt. pose proof (sweep_ok now h log Hok) as Hsw.
  destruct (sweep_fields now h) as (He & Hkp & Hsq & _ & _).
  unfold Publish. set (h1 := sweep now h) in *. clearbody h1.
  rewrite <- Hsq in Hlt. rewrite (next_seq h1 log) by done.
  destruct (get_topic_ok now h1 log name Hsw) as [[Hseqs Hrec Hfl] _].
  set (t := get_topic now h1 name) in *. clearbody t.
  pose proof (trim_ok (epoch h1) (keep h1) name log (floor t) (recent t) (seqs t)
    (ok_sorted _ _ Hsw) (ok_keep _ _ Hsw) Hseqs Hrec) as Htrim.
  destruct (trim _ _ _ _) as [[fl rc] sqs]. destruct Htrim as (Hs' & Hr' & Hge & Hor & Hlen).
  destruct (deliver _ _ _) as [kept store]. cbn [seq]. split; [|lia].
  destruct Hsw as [Hsort Hrange Hqb Hk Ht Ha Hd].
  unfold entry_of. rewrite <- Hsq. clear Hsq.
  assert (fl ≤ seq h1) as Hflb.
  { destruct Hor as [->|(e & Hin & _ & <-)]; [lia|]. by apply Hrange. }
  split; cbn; try done; try lia.
  - apply StronglySorted_app. split_and!; [|done|repeat constructor].
    intros x y Hx Hy%list_elem_of_singleton. subst y. unfold seq_lt. cbn. apply Hrange in Hx. lia.
  - intros e [Hin|Hin%list_elem_of_singleton]%elem_of_app; [apply Hrange in Hin; lia|]. subst e. cbn. lia.
  - intros n t' Ht'. destruct (decide (n = name)) as [->|Hne].
    + rewrite lookup_insert_eq in Ht'. injection Ht' as <-. cbn. split.
      * split; cbn; [| |lia]; rewrite of_topic_app; cbn; unfold after; rewrite String.eqb_refl; cbn;
          destruct (Z.ltb_spec fl (seq h1 + 1)); try lia; rewrite fmap_app; by rewrite <- ?Hs', <- ?Hr'.
      * rewrite length_app. cbn. lia.
    + rewrite lookup_insert_ne in Ht' by done. destruct (Ht _ _ Ht') as [[Hq Hr Hf] Hl].
      split; [|done]. split; [| |lia]; rewrite of_topic_app; cbn;
        (destruct (String.eqb_spec name n); [congruence|]); by rewrite app_nil_r.
  - intros n Hn. destruct (decide (n = name)) as [->|Hne]; [by rewrite lookup_insert_eq in Hn|].
    rewrite lookup_insert_ne in Hn by done. rewrite of_topic_app, Ha by done. cbn.
    by destruct (String.eqb_spec name n).
Qed.

(** [subscribe_topics] changes only the topics' subscribers. *)
Lemma get_topic_insert now h name name' t :
  core t = core (get_topic now h name) →
  core (get_topic now (with_topics h (<[name := t]> (topics h))) name') = core (get_topic now h name').
Proof.
  intros Hc. unfold get_topic at 1. cbn. destruct (decide (name = name')) as [->|Hne].
  - by rewrite lookup_insert_eq.
  - by rewrite lookup_insert_ne.
Qed.

Definition gone (now : time) (n : Z) (h : Hub) (names : list string) : bool :=
  existsb (λ name, n <? floor (get_topic now h name)) names.

Lemma gone_cons now n h name names :
  gone now n h (name :: names) = (n <? floor (get_topic now h name)) || gone now n h names.
Proof. done. Qed.

Definition kept_after (n : Z) (t : topic) : list (Z * Event) :=
  List.filter (λ p, n <? fst p) (combine (seqs t) (recent t)).

Lemma subscribe_topics_spec now me wants last names h all stale :
  let '(h', all', stale') := subscribe_topics now me wants last names h all stale in
  (∃ m, h' = with_topics h m ∧
    (∀ name t, m !! name = Some t → core t = core (get_topic now h name)) ∧
    (∀ name, m !! name = None → topics h !! name = None)) ∧
  (wants = true → ∀ n, last = Some n →
    stale' = stale || gone now n h names ∧
    (stale' = false → all' = all ++ concat ((λ name, kept_after n (get_topic now h name)) <$> names))) ∧
  (wants = true → last = None → stale' = stale || negb (Nat.eqb (length names) 0)) ∧
  (wants = false → stale' = stale ∧ all' = all).
Proof.
  revert h all stale. induction names as [|name names IH]; intros h all stale; cbn [subscribe_topics].
  - split; [|split; [|split]].
    + exists (topics h). split; [by destruct h|]. split; [|done].
      intros n t Ht. unfold get_topic. by rewrite Ht.
    + intros _ n _. cbn. rewrite orb_false_r, app_nil_r. done.
    + intros _ _. cbn. by rewrite orb_false_r.
    + done.
  - set (t := get_topic now h name).
    set (t' := mkTopic (subs t ++ [me]) (recent t) (seqs t) (floor t) (used t)).
    set (h1 := with_topics h (<[name := t']> (topics h))).
    assert (Hcore : ∀ n, core (get_topic now h1 n) = core (get_topic now h n)).
    { intros n. by apply get_topic_insert. }
    assert (Hsub : ∀ m : gmap string topic, (∀ n t, m !! n = Some t → core t = core (get_topic now h1 n)) ∧
              (∀ n, m !! n = None → topics h1 !! n = None) →
              (∀ n t, m !! n = Some t → core t = core (get_topic now h n)) ∧
              (∀ n, m !! n = None → topics h !! n = None)).
    { intros m [H1 H2]. split; [intros n t0 Hn; rewrite <- Hcore; auto|].
      intros n Hn. specialize (H2 n Hn). subst h1. cbn in H2.
      by apply lookup_insert_None in H2 as [? _]. }
    assert (Hgone : ∀ n, gone now n h1 names = gone now n h names).
    { intros n. unfold gone. clear -Hcore. induction names as [|x l IHl]; simpl; [done|].
      specialize (Hcore x) as Hx. unfold core in Hx. injection Hx as -> _ _. by rewrite IHl. }
    assert (Hkept : ∀ n, (λ name, kept_after n (get_topic now h1 name)) <$> names =
                         (λ name, kept_after n (get_topic now h name)) <$> names).
    { intros n. apply list_fmap_ext. intros i x _. specialize (Hcore x). unfold core in Hcore.
      injection Hcore as _ Hr Hq. unfold kept_after. by rewrite Hr, Hq. }
    destruct wants; cbn [negb].
    + destruct last as [n|].
      * destruct (n <? floor t) eqn:E.
        -- specialize (IH h1 all true). destruct (subscribe_topics _ _ _ _ _ _ _ _) as [[h' all'] stale'].
           destruct IH as ((m & -> & Hm) & IH2 & _ & _). split; [exists m; split; [done|by apply Hsub]|].
           split; [|split; [congruence|congruence]].
           intros _ n' [= <-]. destruct (IH2 eq_refl n eq_refl) as [-> _].
           rewrite gone_cons. fold t. rewrite E, !orb_true_l, orb_true_r. split; [done|discriminate].
        -- specialize (IH h1 (all ++ kept_after n t) stale).
           fold (kept_after n t). destruct (subscribe_topics _ _ _ _ _ _ _ _) as [[h' all'] stale'].
           destruct IH as ((m & -> & Hm) & IH2 & _ & _). split; [exists m; split; [done|by apply Hsub]|].
           split; [|split; [congruence|congruence]].
           intros _ n' [= <-]. destruct (IH2 eq_refl n eq_refl) as [-> Hall].
           rewrite gone_cons. fold t. rewrite E, orb_false_l, Hgone in *.
           split; [done|]. intros Hf. rewrite Hall, Hkept, fmap_cons, <- app_assoc by done. done.
      * specialize (IH h1 all true). destruct (subscribe_topics _ _ _ _ _ _ _ _) as [[h' all'] stale'].
        destruct IH as ((m & -> & Hm) & _ & IH3 & _). split; [exists m; split; [done|by apply Hsub]|].
        split; [congruence|split; [|congruence]]. intros _ _. rewrite (IH3 eq_refl eq_refl).
        cbn. by rewrite orb_true_r.
    + specialize (IH h1 all stale). destruct (subscribe_topics _ _ _ _ _ _ _ _) as [[h' all'] stale'].
      destruct IH as ((m & -> & Hm) & _ & _ & IH4). split; [exists m; split; [done|by apply Hsub]|].
      split; [congruence|split; [congruence|done]].
Qed.

(** ** What a reconnecting client is sent *)

Definition pair_lt (a b : Z * Event) : Prop := fst a < fst b.

#[export] Instance pair_lt_antisymm : AntiSymm (=) pair_lt.
Proof. intros x y Hx Hy. unfold pair_lt in *. lia. Qed.

Lemma insert_seq_perm x l : insert_seq x l ≡ₚ x :: l.
Proof.
  induction l as [|y l IH]; simpl; [done|]. destruct (fst x <? fst y); [done|].
  rewrite IH. apply Permutation_swap.
Qed.

Lemma sort_seq_perm l : sort_seq l ≡ₚ l.
Proof. induction l as [|x l IH]; simpl; [done|]. by rewrite insert_seq_perm, IH. Qed.

Lemma insert_seq_sorted x l :
  StronglySorted pair_lt l → (∀ y, y ∈ l → fst y ≠ fst x) → StronglySorted pair_lt (insert_seq x l).
Proof.
  induction l as [|y l IH]; simpl; intros Hs Hne.
  - repeat constructor.
  - apply StronglySorted_inv in Hs as Hs'. destruct Hs' as [Hs' Hf].
    destruct (Z.ltb_spec (fst x) (fst y)) as [Hlt|Hge].
    + constructor; [done|]. constructor; [done|]. eapply Forall_impl; [done|].
      unfold pair_lt in *. intros z Hz. simpl in Hz. lia.
    + constructor.
      * apply IH; [done|]. intros z Hz. apply Hne. by right.
      * rewrite Forall_forall in *. intros z Hz. rewrite insert_seq_perm in Hz.
        apply elem_of_cons in Hz as [->|Hz]; [|by apply Hf].
        unfold pair_lt. specialize (Hne y (list_elem_of_here _ _)). lia.
Qed.

Lemma sort_seq_sorted l : NoDup (fst <$> l) → StronglySorted pair_lt (sort_seq l).
Proof.
  induction l as [|x l IH]; simpl; [constructor|]. intros [Hx Hl]%NoDup_cons.
  apply insert_seq_sorted; [by apply IH|]. intros y Hy Heq. apply Hx.
  rewrite sort_seq_perm in Hy. rewrite <- Heq. by apply list_elem_of_fmap_2.
Qed.

(** The events of topics without repetition, topic by topic, are those of all
    of them. *)
Lemma of_topics_perm names n log :
  NoDup names → concat ((λ name, of_topic name n log) <$> names) ≡ₚ of_topics names n log.
Proof.
  induction names as [|name names IH]; intros Hnd.
  - simpl. unfold of_topics. simpl. induction log; simpl; done.
  - apply NoDup_cons in Hnd as [Hni Hnd]. rewrite fmap_cons. simpl concat. rewrite IH by done. clear IH.
    unfold of_topic, of_topics. induction log as [|e log IHl]; simpl; [done|].
    change (contains (name :: names) (ename e)) with (String.eqb (ename e) name || contains names (ename e)).
    destruct (String.eqb_spec (ename e) name) as [Hn|Hn]; simpl.
    + destruct (after n e); simpl; [|rewrite andb_false_r; done].
      assert (contains names (ename e) = false) as -> by (apply contains_false; congruence).
      simpl. by rewrite IHl.
    + destruct (contains names (ename e) && after n e); [|done].
      rewrite <- IHl. symmetry. apply Permutation_middle.
Qed.

Definition pair_of (ep : string) (e : entry) : Z * Event := (eseq e, event_of ep e).

Lemma combine_fmap {A B C} (f : A → B) (g : A → C) l :
  combine (f <$> l) (g <$> l) = (λ x, (f x, g x)) <$> l.
Proof. induction l; simpl; [done|]. by f_equal. Qed.

Lemma filter_map_comm {A B} (f : B → bool) (g : A → B) l :
  List.filter f (g <$> l) = g <$> List.filter (λ x, f (g x)) l.
Proof.
  induction l as [|x l IH]; [done|]. rewrite fmap_cons. cbn [List.filter]. rewrite IH.
  by destruct (f (g x)).
Qed.

Lemma of_topic_after name n m log :
  n ≤ m → of_topic name m log = List.filter (λ e, m <? eseq e) (of_topic name n log).
Proof.
  intros Hm. unfold of_topic, after. induction log as [|e l IH]; simpl; [done|].
  destruct (String.eqb (ename e) name); simpl; [|done].
  destruct (Z.ltb_spec n (eseq e)), (Z.ltb_spec m (eseq e)); simpl; rewrite ?IH; try done.
  - by destruct (Z.ltb_spec m (eseq e)); [|lia].
  - by destruct (Z.ltb_spec m (eseq e)); [lia|].
  - lia.
Qed.

Lemma kept_after_ok n ep sq log name t :
  topic_ok ep sq log name t → floor t ≤ n →
  kept_after n t = pair_of ep <$> of_topic name n log.
Proof.
  intros [Hq Hr Hf] Hn. unfold kept_after. rewrite Hq, Hr, combine_fmap, filter_map_comm.
  unfold pair_of. cbn [fst]. by rewrite (of_topic_after name (floor t) n).
Qed.

Lemma of_topics_sorted names n log :
  StronglySorted seq_lt log → StronglySorted seq_lt (of_topics names n log).
Proof.
  unfold of_topics. induction 1 as [|e l Hl IH Hf]; simpl; [constructor|].
  destruct (_ && _); [|done]. constructor; [done|]. rewrite Forall_forall in *.
  intros x Hx. apply Hf. by apply elem_filter in Hx as [? _].
Qed.

Lemma gone_false now n h names :
  gone now n h names = false ↔ ∀ name, name ∈ names → floor (get_topic now h name) ≤ n.
Proof.
  unfold gone. rewrite <- not_true_iff_false, existsb_exists.
  setoid_rewrite <- list_elem_of_In. setoid_rewrite Z.ltb_lt. split.
  - intros H name Hn. destruct (decide (floor (get_topic now h name) ≤ n)); [done|].
    exfalso. apply H. exists name. split; [done|lia].
  - intros H (name & Hn & Hlt). specialize (H name Hn). lia.
Qed.

(** The sorted concatenation of what the topics keep is the log's. *)
Lemma missed_sorted now n h log names :
  hub_ok h log → NoDup names → (∀ name, name ∈ names → floor (get_topic now h name) ≤ n) →
  snd <$> sort_seq (concat ((λ name, kept_after n (get_topic now h name)) <$> names)) =
  event_of (epoch h) <$> of_topics names n log.
Proof.
  intros Hok Hnd Hfl.
  assert (Hc : concat ((λ name, kept_after n (get_topic now h name)) <$> names) =
               pair_of (epoch h) <$> concat ((λ name, of_topic name n log) <$> names)).
  { clear Hnd. induction names as [|name names IH]; [done|]. rewrite !fmap_cons. simpl concat.
    rewrite fmap_app, IH by (intros; apply Hfl; by right). f_equal.
    apply (kept_after_ok n _ (seq h)); [by apply get_topic_ok|]. apply Hfl. left. }
  rewrite Hc. clear Hc.
  assert (Hp : sort_seq (pair_of (epoch h) <$> concat ((λ name, of_topic name n log) <$> names)) =
               pair_of (epoch h) <$> of_topics names n log).
  { assert (Hs : StronglySorted pair_lt (pair_of (epoch h) <$> of_topics names n log)).
    { apply (StronglySorted_fmap _ seq_lt); [done|]. apply of_topics_sorted, Hok. }
    apply (StronglySorted_unique pair_lt).
    - apply sort_seq_sorted. rewrite <- list_fmap_compose.
      rewrite (of_topics_perm names n log Hnd).
      assert (StronglySorted Z.lt ((fst ∘ pair_of (epoch h)) <$> of_topics names n log)) as Hss.
      { apply (StronglySorted_fmap _ seq_lt); [done|]. apply of_topics_sorted, Hok. }
      clear -Hss. induction Hss as [|x l Hl IH Hf]; constructor; [|done].
      intros Hin. rewrite Forall_forall in Hf. specialize (Hf _ Hin). lia.
    - done.
    - rewrite sort_seq_perm. by rewrite (of_topics_perm names n log Hnd). }
  rewrite Hp, <- list_fmap_compose. done.
Qed.

Lemma id_parse h n :
  has_byte "-" (epoch h) = false → 0 ≤ n ≤ seq h → seq h ≤ uint64_max → parse h (id h n) = Some n.
Proof.
  intros He Hn Hs. unfold parse, id. change ("-" +:+ itoa n) with (String "-" (itoa n)).
  rewrite cut_byte_app by done. rewrite String.eqb_refl. cbn [negb orb].
  unfold parse_uint. rewrite parse_itoa by lia. by destruct (Z.leb_spec n (seq h)); [|lia].
Qed.

Lemma id_nonempty h n : String.eqb (id h n) "" = false.
Proof. unfold id. apply String.eqb_neq. intros H. apply (f_equal String.length) in H.
  rewrite !length_app_str in H. simpl in H. lia. Qed.

(** ** Runs of a hub

    [since] is where each subscriber started, [got] what its client took off
    its channel. *)

Record run := mkRun {
  hub : Hub;
  log : list entry;
  since : gmap nat Z;
  got : gmap nat (list Event)
}.

Inductive step : run → run → Prop :=
| step_publish now name event r :
    seq (hub r) < uint64_max →
    step r (mkRun (Publish now name event (hub r)) (log r ++ [entry_of (hub r) name event]) (since r) (got r))
| step_subscribe now last names s h r :
    NoDup names → Subscribe now last names (hub r) = (s, h) →
    step r (mkRun h (log r) (<[sub s := seq (hub r)]> (since r)) (<[sub s := []]> (got r)))
| step_unsubscribe now s r :
    step r (mkRun (Unsubscribe now s (hub r)) (log r) (since r) (got r))
| step_position now names r :
    step r (mkRun (snd (Position now names (hub r))) (log r) (since r) (got r))
| step_receive i ev h g r :
    Receive i (hub r) = Some (ev, h) → got r !! i = Some g →
    step r (mkRun h (log r) (since r) (<[i := g ++ [ev]]> (got r))).

Definition start (ep : string) : run := mkRun (NewHub ep) [] ∅ ∅.

(** A subscriber's channel and its client hold its topics' events since it
    started; all of them while it is open. *)
Definition stream_ok (r : run) (i : nat) (s : subscriber) : Prop :=
  ∃ n g, since r !! i = Some n ∧ got r !! i = Some g ∧ 0 ≤ n ≤ seq (hub r) ∧
    (g ++ ch s) `prefix_of` (event_of (epoch (hub r)) <$> of_topics (topicsOf s) n (log r)) ∧
    (closed s = false → g ++ ch s = event_of (epoch (hub r)) <$> of_topics (topicsOf s) n (log r)).

Record subs_ok (h : Hub) : Prop := {
  so_fresh : ∀ i s, subscribers h !! i = Some s → (i < nextSub h)%nat;
  so_open : ∀ i s name, subscribers h !! i = Some s → closed s = false → name ∈ topicsOf s →
    ∃ t, topics h !! name = Some t ∧ i ∈ subs t;
  so_member : ∀ name t i, topics h !! name = Some t → i ∈ subs t →
    ∃ s, subscribers h !! i = Some s ∧ name ∈ topicsOf s;
  so_nodup : ∀ name t, topics h !! name = Some t → NoDup (subs t);
  so_buffer : ∀ i s, subscribers h !! i = Some s → (length (ch s) ≤ subscriberBuffer)%nat
}.

Record run_ok (r : run) : Prop := {
  ro_hub : hub_ok (hub r) (log r);
  ro_subs : subs_ok (hub r);
  ro_streams : ∀ i s, subscribers (hub r) !! i = Some s → stream_ok r i s
}.

Definition pushed (ev : Event) (s : subscriber) : subscriber :=
  if closed s then s
  else if (length (ch s) <? subscriberBuffer)%nat then mkSub (ch s ++ [ev]) (closed s) (topicsOf s)
  else end_sub s.

Definition takes (s : subscriber) : bool :=
  negb (closed s) && (length (ch s) <? subscriberBuffer)%nat.

Lemma deliver_spec ev ids store :
  NoDup ids → (∀ i, i ∈ ids → is_Some (store !! i)) →
  let '(kept, store') := deliver ev ids store in
  (∀ i, i ∉ ids → store' !! i = store !! i) ∧
  (∀ i s, i ∈ ids → store !! i = Some s → store' !! i = Some (pushed ev s)) ∧
  (∀ i, i ∈ kept ↔ i ∈ ids ∧ ∃ s, store !! i = Some s ∧ takes s = true) ∧
  NoDup kept.
Proof.
  revert store. induction ids as [|i ids IH]; intros store Hnd Hin; cbn [deliver].
  - split_and!; [done| |set_solver|constructor]. intros i s Hi. by apply not_elem_of_nil in Hi.
  - apply NoDup_cons in Hnd as [Hi Hnd]. destruct (Hin i (list_elem_of_here _ _)) as [s Hs]. rewrite Hs.
    assert (Hin' : ∀ (st : gmap nat subscriber) (x : subscriber), st = store ∨ st = <[i:=x]> store →
              ∀ j, j ∈ ids → is_Some (st !! j)).
    { intros st x [->| ->] j Hj; [by apply Hin; right|].
      rewrite lookup_insert_ne by (intros ->; done). apply Hin. by right. }
    assert (Hne : ∀ j (x : subscriber), j ∈ ids → <[i:=x]> store !! j = store !! j).
    { intros j x Hj. apply lookup_insert_ne. intros ->. done. }
    assert (Hpush : pushed ev s = if takes s then mkSub (ch s ++ [ev]) (closed s) (topicsOf s)
                                  else if closed s then s else end_sub s).
    { unfold pushed, takes. by destruct (closed s), (_ <? _)%nat. }
    unfold takes in Hpush. destruct (closed s) eqn:Hc; cbn [negb andb] in Hpush.
    + specialize (IH store Hnd (Hin' store s (or_introl eq_refl))).
      destruct (deliver ev ids store) as [kept store']. destruct IH as (H1 & H2 & H3 & H4).
      split_and!; [intros j Hj; apply H1; set_solver| | |done].
      * intros j sj [->|Hj]%elem_of_cons Hsj; [|by apply H2].
        rewrite H1, Hsj by done. rewrite Hs in Hsj. injection Hsj as <-. by rewrite Hpush.
      * intros j. rewrite H3, elem_of_cons. split; [naive_solver|].
        intros [[->|Hj] (sj & Hsj & Ht)]; [|eauto]. rewrite Hs in Hsj. injection Hsj as <-.
        unfold takes in Ht. by rewrite Hc in Ht.
    + destruct (length (ch s) <? subscriberBuffer)%nat eqn:Hl.
      * specialize (IH _ Hnd (Hin' _ (mkSub (ch s ++ [ev]) false (topicsOf s)) (or_intror eq_refl))).
        destruct (deliver ev ids _) as [kept store']. destruct IH as (H1 & H2 & H3 & H4).
        split_and!.
        -- intros j Hj. rewrite H1 by set_solver. apply lookup_insert_ne. set_solver.
        -- intros j sj [->|Hj]%elem_of_cons Hsj; [|apply H2; [done|by rewrite Hne]].
           rewrite H1, lookup_insert_eq by done. rewrite Hs in Hsj. injection Hsj as <-. by rewrite Hpush.
        -- intros j. rewrite !elem_of_cons, H3. split.
           ++ intros [->|(Hj & sj & Hsj & Ht)].
              ** split; [by left|]. exists s. split; [done|]. unfold takes. by rewrite Hc, Hl.
              ** rewrite Hne in Hsj by done. eauto.
           ++ intros [[->|Hj] (sj & Hsj & Ht)]; [by left|]. right. split; [done|]. exists sj. by rewrite Hne.
        -- constructor; [|done]. intros Hk%H3. by destruct Hk.
      * specialize (IH _ Hnd (Hin' _ (end_sub s) (or_intror eq_refl))).
        destruct (deliver ev ids _) as [kept store']. destruct IH as (H1 & H2 & H3 & H4).
        split_and!; [| | |done].
        -- intros j Hj. rewrite H1 by set_solver. apply lookup_insert_ne. set_solver.
        -- intros j sj [->|Hj]%elem_of_cons Hsj; [|apply H2; [done|by rewrite Hne]].
           rewrite H1, lookup_insert_eq by done. rewrite Hs in Hsj. injection Hsj as <-. by rewrite Hpush.
        -- intros j. rewrite H3, elem_of_cons. split.
           ++ intros (Hj & sj & Hsj & Ht). rewrite Hne in Hsj by done. eauto.
           ++ intros [[->|Hj] (sj & Hsj & Ht)].
              ** rewrite Hs in Hsj. injection Hsj as <-. unfold takes in Ht. by rewrite Hl, andb_false_r in Ht.
              ** split; [done|]. exists sj. by rewrite Hne.
Qed.

Lemma sweep_topics now h name t :
  topics (sweep now h) !! name = Some t → topics h !! name = Some t.
Proof.
  unfold sweep. destruct (_ <? _); [done|]. cbn. intros H.
  by apply map_lookup_filter_Some in H as [? _].
Qed.

Lemma sweep_keeps now h name t i :
  topics h !! name = Some t → i ∈ subs t → topics (sweep now h) !! name = Some t.
Proof.
  intros Ht Hi. unfold sweep. destruct (_ <? _); [done|]. cbn.
  apply map_lookup_filter_Some. split; [done|]. cbn. unfold expired.
  destruct (subs t); [by apply not_elem_of_nil in Hi|done].
Qed.

Lemma sweep_subs now h : subs_ok h → subs_ok (sweep now h).
Proof.
  intros [H1 H2 H3 H4 H5]. destruct (sweep_fields now h) as (_ & _ & _ & Hs & Hn).
  split; rewrite ?Hs, ?Hn; try done.
  - intros i s name Hi Hc Hnm. destruct (H2 i s name Hi Hc Hnm) as (t & Ht & Hin).
    exists t. split; [by eapply sweep_keeps|done].
  - intros name t i Ht%sweep_topics. by apply H3.
  - intros name t Ht%sweep_topics. by eapply H4.
Qed.

(** A topic's subscribers, none for a topic created anew. *)
Lemma get_topic_subs now h name :
  subs_ok h →
  NoDup (subs (get_topic now h name)) ∧
  ∀ i, i ∈ subs (get_topic now h name) →
    ∃ s, subscribers h !! i = Some s ∧ name ∈ topicsOf s.
Proof.
  intros Hok. unfold get_topic. destruct (topics h !! name) as [t|] eqn:E.
  - split; [by eapply so_nodup|]. intros i. by eapply so_member.
  - split; [constructor|]. intros i Hi. by apply not_elem_of_nil in Hi.
Qed.

Lemma pushed_topics ev s : topicsOf (pushed ev s) = topicsOf s.
Proof. unfold pushed. by repeat case_match. Qed.

Lemma of_topics_snoc names n log e :
  of_topics names n (log ++ [e]) =
  of_topics names n log ++ (if contains names (ename e) && after n e then [e] else []).
Proof. unfold of_topics. rewrite List.filter_app. simpl. by destruct (_ && _). Qed.

Lemma Publish_subs now name event h :
  subs_ok h →
  let h' := Publish now name event h in
  let ev := mkEvent (epoch h +:+ "-" +:+ itoa (seq h')) event in
  subs_ok h' ∧ epoch h' = epoch h ∧
  (∀ i s', subscribers h' !! i = Some s' → ∃ s, subscribers h !! i = Some s ∧
    ((s' = pushed ev s ∧ name ∈ topicsOf s) ∨
     (s' = s ∧ (closed s = true ∨ name ∉ topicsOf s)))).
Proof.
  intros Hok. pose proof (sweep_subs now h Hok) as Hsw.
  destruct (sweep_fields now h) as (He & _ & Hsq & Hst & Hnx).
  unfold Publish. set (h1 := sweep now h) in *. clearbody h1.
  destruct (get_topic_subs now h1 name Hsw) as [Hnd Hmem].
  pose proof (deliver_spec (mkEvent (epoch h1 +:+ "-" +:+ itoa ((seq h1 + 1) mod 2 ^ 64)) event)
    (subs (get_topic now h1 name)) (subscribers h1) Hnd) as Hdel.
  destruct (trim _ _ _ _) as [[fl rc] sqs].
  destruct (deliver _ _ _) as [kept store].
  destruct Hdel as (D1 & D2 & D3 & D4).
  { intros i Hi. destruct (Hmem i Hi) as (s & -> & _). done. }
  cbn [epoch seq subscribers]. rewrite He in *.
  set (ev := mkEvent (epoch h +:+ "-" +:+ itoa ((seq h1 + 1) mod 2 ^ 64)) event) in *.
  assert (Hback : ∀ i s', store !! i = Some s' → ∃ s, subscribers h1 !! i = Some s ∧
    ((s' = pushed ev s ∧ i ∈ subs (get_topic now h1 name)) ∨
     (s' = s ∧ i ∉ subs (get_topic now h1 name)))).
  { intros i s' Hi. destruct (decide (i ∈ subs (get_topic now h1 name))) as [Hin|Hin].
    - destruct (Hmem i Hin) as (s & Hs & _). exists s. split; [done|]. left.
      rewrite (D2 i s Hin Hs) in Hi. by injection Hi as <-.
    - rewrite D1 in Hi by done. exists s'. split; [done|]. right. done. }
  split; [|split; [done|]].
  2: { intros i s' Hi. destruct (Hback i s' Hi) as (s & Hs & [[-> Hin]|[-> Hin]]).
       - rewrite Hst in Hs. exists s. split; [done|]. left. split; [done|].
         destruct (Hmem i Hin) as (s0 & Hs0 & Hnm). rewrite Hst in Hs0. congruence.
       - exists s. rewrite Hst in Hs. split; [done|]. right. split; [done|].
         destruct (closed s) eqn:Hc; [by left|]. right. intros Hnm. apply Hin.
         rewrite <- Hst in Hs. destruct (so_open _ Hsw i s name Hs Hc Hnm) as (t & Ht & Hit).
         unfold get_topic. by rewrite Ht. }
  destruct Hsw as [H1 H2 H3 H4 H5]. split; cbn.
  - intros i s' Hi. destruct (Hback i s' Hi) as (s & Hs & _). by eapply H1.
  - intros i s' n Hi Hc Hn. destruct (Hback i s' Hi) as (s & Hs & [[-> Hin]|[-> Hin]]).
    + assert (Hcs : closed s = false ∧ takes s = true).
      { unfold pushed, takes in *. destruct (closed s) eqn:Ecs; [by rewrite Ecs in Hc|].
        destruct (_ <? _)%nat; done. }
      rewrite pushed_topics in Hn. destruct Hcs as [Hcs Htk].
      destruct (H2 i s n Hs Hcs Hn) as (t & Ht & Hit).
      destruct (decide (n = name)) as [->|Hne].
      * eexists. rewrite lookup_insert_eq. split; [done|]. cbn. apply D3. eauto.
      * exists t. by rewrite lookup_insert_ne.
    + destruct (H2 i s n Hs Hc Hn) as (t & Ht & Hit).
      exists t. rewrite lookup_insert_ne; [done|]. intros <-. apply Hin. unfold get_topic. by rewrite Ht.
  - intros n t i Ht Hit.
    assert (∃ s, subscribers h1 !! i = Some s ∧ n ∈ topicsOf s) as (s & Hs & Hn).
    { destruct (decide (n = name)) as [->|Hne].
      - rewrite lookup_insert_eq in Ht. injection Ht as <-. cbn in Hit.
        apply D3 in Hit as [Hit _]. by apply Hmem.
      - rewrite lookup_insert_ne in Ht by done. by eapply H3. }
    destruct (decide (i ∈ subs (get_topic now h1 name))) as [Hin|Hin].
    + rewrite (D2 i s Hin Hs). eexists. split; [done|]. by rewrite pushed_topics.
    + rewrite D1 by done. eauto.
  - intros n t Ht. destruct (decide (n = name)) as [->|Hne].
    + rewrite lookup_insert_eq in Ht. by injection Ht as <-.
    + rewrite lookup_insert_ne in Ht by done. by eapply H4.
  - intros i s' Hi. destruct (Hback i s' Hi) as (s & Hs & [[-> _]|[-> _]]); [|by eapply H5].
    pose proof (H5 i s Hs). unfold pushed. destruct (closed s); [done|].
    destruct (length (ch s) <? subscriberBuffer)%nat eqn:E; bool_to_prop; [|done].
    cbn. rewrite length_app. cbn. lia.
Qed.

Lemma Publish_run now name event r :
  run_ok r → seq (hub r) < uint64_max →
  run_ok (mkRun (Publish now name event (hub r)) (log r ++ [entry_of (hub r) name event]) (since r) (got r)).
Proof.
  intros [Hh Hs Hst] Hlt. destruct (Publish_ok now name event _ _ Hh Hlt) as [Hh' Hsq].
  pose proof (Publish_subs now name event (hub r) Hs) as Hps. cbv zeta in Hps.
  destruct Hps as (Hs' & He & Hback). split; cbn [hub log]; [done|done|].
  intros i s' Hi. destruct (Hback i s' Hi) as (s & Hsi & Hcase).
  destruct (Hst i s Hsi) as (n & g & Hn & Hg & Hb & Hp & Hopen).
  exists n, g. cbn [since got hub log]. rewrite He, Hsq in *. split_and!; try done; try lia.
  - rewrite of_topics_snoc, fmap_app.
    assert (topicsOf s' = topicsOf s) as ->.
    { destruct Hcase as [[-> _]|[-> _]]; [apply pushed_topics|done]. }
    destruct Hcase as [[-> Hnm]|[-> Hor]].
    + unfold pushed. destruct (closed s) eqn:Hc; [by apply prefix_app_r|].
      destruct (_ <? _)%nat; cbn [ch]; [|by apply prefix_app_r].
      rewrite app_assoc, (Hopen eq_refl). cbn.
      apply (proj2 (contains_spec _ _)) in Hnm. rewrite Hnm. unfold after, entry_of, eseq. cbn.
      destruct (Z.ltb_spec n (seq (hub r) + 1)); [|lia]. reflexivity.
    + by apply prefix_app_r.
  - intros Hc. rewrite of_topics_snoc, fmap_app.
    destruct Hcase as [[-> Hnm]|[-> Hor]].
    + rewrite pushed_topics. unfold pushed in *. destruct (closed s) eqn:Hcs; [congruence|].
      destruct (_ <? _)%nat; cbn [ch] in *; [|done].
      rewrite app_assoc, (Hopen eq_refl). cbn.
      apply (proj2 (contains_spec _ _)) in Hnm. rewrite Hnm. unfold after, entry_of, eseq. cbn.
      destruct (Z.ltb_spec n (seq (hub r) + 1)); [|lia]. reflexivity.
    + destruct Hor as [Hor|Hor]; [congruence|]. rewrite (Hopen Hc). cbn.
      apply (proj2 (contains_false _ _)) in Hor. rewrite Hor. by rewrite app_nil_r.
Qed.

(** [subscribe_topics] adds the new subscriber to each of its topics. *)
Lemma subscribe_topics_subs now me wants last names h all stale :
  NoDup names →
  let '(h', _, _) := subscribe_topics now me wants last names h all stale in
  ∃ m, h' = with_topics h m ∧
    (∀ name, name ∈ names → ∃ t, m !! name = Some t ∧ subs t = subs (get_topic now h name) ++ [me]) ∧
    (∀ name, name ∉ names → m !! name = topics h !! name).
Proof.
  intros Hnd. revert h all stale.
  induction names as [|name names IH]; intros h all stale; cbn [subscribe_topics].
  - exists (topics h). split; [by destruct h|]. split; [|done]. intros name Hn. by apply not_elem_of_nil in Hn.
  - apply NoDup_cons in Hnd as [Hni Hnd]. specialize (IH Hnd).
    set (t := get_topic now h name).
    set (t' := mkTopic (subs t ++ [me]) (recent t) (seqs t) (floor t) (used t)).
    set (h1 := with_topics h (<[name := t']> (topics h))).
    assert (Hgen : ∀ h' : Hub, (∃ m, h' = with_topics h1 m ∧
      (∀ n, n ∈ names → ∃ t, m !! n = Some t ∧ subs t = subs (get_topic now h1 n) ++ [me]) ∧
      (∀ n, n ∉ names → m !! n = topics h1 !! n)) →
      ∃ m, h' = with_topics h m ∧
      (∀ n, n ∈ name :: names → ∃ t, m !! n = Some t ∧ subs t = subs (get_topic now h n) ++ [me]) ∧
      (∀ n, n ∉ name :: names → m !! n = topics h !! n)).
    { intros h' (m & -> & Hin & Hout). exists m. split; [done|]. split.
      - intros n [->|Hn]%elem_of_cons.
        + exists t'. rewrite Hout by done. subst h1. cbn. by rewrite lookup_insert_eq.
        + destruct (Hin n Hn) as (tn & Htn & Hs). exists tn. split; [done|]. rewrite Hs.
          f_equal. f_equal. unfold get_topic. subst h1. cbn. rewrite lookup_insert_ne; [done|].
          intros ->. done.
      - intros n [Hne Hn]%not_elem_of_cons. rewrite Hout by done. subst h1. cbn.
        by rewrite lookup_insert_ne. }
    destruct (negb wants); [|destruct last as [n|]; [destruct (n <? floor t)|]].
    + specialize (IH h1 all stale). by destruct (subscribe_topics _ _ _ _ _ _ _ _) as [[h' ?] ?]; apply Hgen.
    + specialize (IH h1 all true). by destruct (subscribe_topics _ _ _ _ _ _ _ _) as [[h' ?] ?]; apply Hgen.
    + match goal with |- context [subscribe_topics _ _ _ _ _ _ ?a _] => specialize (IH h1 a stale) end.
      by destruct (subscribe_topics _ _ _ _ _ _ _ _) as [[h' ?] ?]; apply Hgen.
    + specialize (IH h1 all true). by destruct (subscribe_topics _ _ _ _ _ _ _ _) as [[h' ?] ?]; apply Hgen.
Qed.

Lemma Subscribe_log now last names h log s h' :
  hub_ok h log → Subscribe now last names h = (s, h') →
  hub_ok h' log ∧ seq h' = seq h ∧ epoch h' = epoch h ∧ At s = id h (seq h) ∧ sub s = nextSub h.
Proof.
  intros Hok. pose proof (sweep_ok now h log Hok) as Hsw.
  destruct (sweep_fields now h) as (He & _ & Hsq & _ & Hnx). unfold Subscribe.
  set (h1 := sweep now h) in *. clearbody h1.
  set (h2 := with_subscribers h1 _ _). assert (hub_ok h2 log) as H2 by by apply hub_ok_subscribers.
  pose proof (subscribe_topics_spec now (nextSub h1) (negb (String.eqb last "")) (parse h1 last) names h2 [] false) as Hsp.
  destruct (subscribe_topics _ _ _ _ _ _ _ _) as [[h3 all] stale].
  destruct Hsp as ((m & -> & Hm & Hn) & _). intros [= <- <-]. split; [by eapply hub_ok_topics|].
  unfold id. cbn. rewrite He, Hsq, Hnx. done.
Qed.

Lemma Subscribe_subs now last names h s h' :
  subs_ok h → NoDup names → Subscribe now last names h = (s, h') →
  subs_ok h' ∧ subscribers h' = <[nextSub h := mkSub [] false names]> (subscribers h).
Proof.
  intros Hok Hnd. pose proof (sweep_subs now h Hok) as Hsw.
  destruct (sweep_fields now h) as (_ & _ & _ & Hst & Hnx). unfold Subscribe.
  set (h1 := sweep now h) in *. clearbody h1. rewrite <- Hnx, <- Hst. clear Hnx Hst Hok.
  set (me := nextSub h1). set (h2 := with_subscribers h1 _ _).
  pose proof (subscribe_topics_subs now me (negb (String.eqb last "")) (parse h1 last) names h2 [] false Hnd) as Hsp.
  destruct (subscribe_topics _ _ _ _ _ _ _ _) as [[h3 all] stale].
  destruct Hsp as (m & -> & Hin & Hout). intros [= <- <-]. split; [|done].
  pose proof Hsw as [H1 H2 H3 H4 H5].
  assert (Hme : subscribers h1 !! me = None).
  { destruct (subscribers h1 !! me) eqn:E; [|done]. apply H1 in E. subst me. lia. }
  assert (Hmem : ∀ i s, subscribers h1 !! i = Some s →
            <[me := mkSub [] false names]> (subscribers h1) !! i = Some s).
  { intros i s0 Hi. rewrite lookup_insert_ne; [done|]. congruence. }
  assert (Hold : ∀ name, subs (get_topic now h2 name) = subs (get_topic now h1 name)).
  { intros name. unfold get_topic, h2. cbn. by destruct (topics h1 !! name). }
  split; cbn.
  - intros i s Hi. destruct (decide (i = me)) as [->|Hne]; [lia|].
    rewrite lookup_insert_ne in Hi by done. apply H1 in Hi. subst me. lia.
  - intros i s name Hi Hc Hn. destruct (decide (i = me)) as [->|Hne].
    + rewrite lookup_insert_eq in Hi. injection Hi as <-. cbn in Hn.
      destruct (Hin name Hn) as (t & Ht & Hs). exists t. split; [done|]. rewrite Hs. set_solver.
    + rewrite lookup_insert_ne in Hi by done. destruct (H2 i s name Hi Hc Hn) as (t & Ht & Hit).
      destruct (decide (name ∈ names)) as [Hnn|Hnn].
      * destruct (Hin name Hnn) as (t' & Ht' & Hs'). exists t'. split; [done|].
        rewrite Hs', Hold. unfold get_topic. rewrite Ht. set_solver.
      * exists t. by rewrite Hout.
  - intros name t i Ht Hit. destruct (decide (name ∈ names)) as [Hnn|Hnn].
    + destruct (Hin name Hnn) as (t' & Ht' & Hs'). rewrite Ht in Ht'. injection Ht' as <-.
      rewrite Hs', Hold in Hit. apply elem_of_app in Hit as [Hit|Hit%list_elem_of_singleton].
      * destruct (get_topic_subs now h1 name Hsw) as [_ Hm]. destruct (Hm i Hit) as (s & Hs & Hns).
        exists s. split; [by apply Hmem|done].
      * subst i. eexists. by rewrite lookup_insert_eq.
    + rewrite Hout in Ht by done. destruct (H3 name t i Ht Hit) as (s & Hs & Hns).
      exists s. split; [by apply Hmem|done].
  - intros name t Ht. destruct (decide (name ∈ names)) as [Hnn|Hnn].
    + destruct (Hin name Hnn) as (t' & Ht' & Hs'). rewrite Ht in Ht'. injection Ht' as <-. rewrite Hs', Hold.
      destruct (get_topic_subs now h1 name Hsw) as [Hnd1 Hm]. apply NoDup_app. split_and!; [done| |].
      * intros i Hi Hi'%list_elem_of_singleton. subst i. destruct (Hm me Hi) as (s & Hs & _). congruence.
      * apply NoDup_singleton.
    + rewrite Hout in Ht by done. by eapply H4.
  - intros i s Hi. destruct (decide (i = me)) as [->|Hne].
    + rewrite lookup_insert_eq in Hi. injection Hi as <-. cbn. lia.
    + rewrite lookup_insert_ne in Hi by done. by eapply H5.
Qed.

Lemma of_topics_above names n log m :
  (∀ e, e ∈ log → eseq e ≤ m) → m ≤ n → of_topics names n log = [].
Proof.
  intros H Hn. apply filter_nil_iff. intros e He. unfold after. apply H in He.
  destruct (Z.ltb_spec n (eseq e)); [lia|]. apply andb_false_r.
Qed.

Lemma Subscribe_run now last names r s h :
  run_ok r → NoDup names → Subscribe now last names (hub r) = (s, h) →
  run_ok (mkRun h (log r) (<[sub s := seq (hub r)]> (since r)) (<[sub s := []]> (got r))).
Proof.
  intros [Hh Hs Hst] Hnd Heq.
  destruct (Subscribe_log _ _ _ _ _ _ _ Hh Heq) as (Hh' & Hsq & He & _ & Hsub).
  destruct (Subscribe_subs _ _ _ _ _ _ Hs Hnd Heq) as (Hs' & Hstore).
  split; cbn; [done|done|]. intros i si Hi. rewrite Hstore in Hi. unfold stream_ok. cbn [since got hub log].
  rewrite He, Hsq, Hsub. destruct (decide (i = nextSub (hub r))) as [->|Hne].
  - rewrite lookup_insert_eq in Hi. injection Hi as <-. exists (seq (hub r)), [].
    rewrite !lookup_insert_eq. split_and!; try done.
    + apply (ok_seq _ _ Hh).
    + apply prefix_nil.
    + intros _. rewrite (of_topics_above _ _ _ (seq (hub r))); [done| |done].
      intros e Hin. by apply (ok_range _ _ Hh).
  - rewrite lookup_insert_ne in Hi by done. destruct (Hst i si Hi) as (n & g & ?).
    exists n, g. by rewrite !lookup_insert_ne.
Qed.

Lemma core_mkTopic sb rc sq fl u : core (mkTopic sb rc sq fl u) = (fl, rc, sq).
Proof. done. Qed.

Lemma remove_sub_spec now me names m :
  (∀ name t, remove_sub now me names m !! name = Some t → ∃ t0, m !! name = Some t0 ∧ core t = core t0 ∧
     ((name ∈ names ∧ subs t = List.filter (λ i, negb (Nat.eqb i me)) (subs t0)) ∨
      ((name ∉ names) ∧ t = t0))) ∧
  (∀ name, remove_sub now me names m !! name = None ↔ m !! name = None).
Proof.
  revert m. induction names as [|n names IH]; intros m; cbn [remove_sub].
  - split; [|done]. intros name t Ht. exists t. split_and!; [done..|]. right. split; [set_solver|done].
  - destruct (m !! n) as [t|] eqn:E.
    + destruct (IH (<[n := mkTopic (List.filter (λ i, negb (Nat.eqb i me)) (subs t)) (recent t) (seqs t) (floor t) now]> m))
        as [H1 H2]. split.
      * intros name t' Ht'. destruct (H1 name t' Ht') as (t0 & Ht0 & Hc & Hor).
        destruct (decide (name = n)) as [->|Hne].
        -- rewrite lookup_insert_eq in Ht0. injection Ht0 as <-. exists t. split_and!; [done|by rewrite Hc|].
           left. split; [left|]. destruct Hor as [[_ ->]|[_ ->]]; cbn; [|done].
           clear. induction (subs t) as [|x l IHl]; simpl; [done|].
           destruct (Nat.eqb x me) eqn:E; simpl; [done|]. rewrite E. simpl. by rewrite IHl.
        -- rewrite lookup_insert_ne in Ht0 by done. exists t0. split_and!; [done..|].
           destruct Hor as [[? ?]|[? ?]]; [left|right]; (split; [set_solver|done]).
      * intros name. rewrite H2. destruct (decide (name = n)) as [->|Hne].
        -- rewrite lookup_insert_eq, E. done.
        -- by rewrite lookup_insert_ne.
    + destruct (IH m) as [H1 H2]. split; [|done]. intros name t' Ht'.
      destruct (H1 name t' Ht') as (t0 & Ht0 & Hc & Hor). exists t0. split_and!; [done..|].
      destruct Hor as [[? ?]|[? ->]]; [left; split; [set_solver|done]|].
      right. split; [|done]. apply not_elem_of_cons. split; [congruence|done].
Qed.

Lemma Unsubscribe_run now s r :
  run_ok r → run_ok (mkRun (Unsubscribe now s (hub r)) (log r) (since r) (got r)).
Proof.
  intros [Hh Hs Hst]. unfold Unsubscribe.
  destruct (subscribers (hub r) !! sub s) as [sb|] eqn:Esb; [|by destruct r].
  destruct (remove_sub_spec now (sub s) (topicsOf sb) (topics (hub r))) as [R1 R2].
  set (m := remove_sub _ _ _ _) in *. clearbody m.
  assert (Hget : ∀ i si, <[sub s := end_sub sb]> (subscribers (hub r)) !! i = Some si →
    ∃ s0, subscribers (hub r) !! i = Some s0 ∧ topicsOf si = topicsOf s0 ∧ ch si = ch s0 ∧
      (closed si = false → i ≠ sub s ∧ closed s0 = false)).
  { intros i si Hi. destruct (decide (i = sub s)) as [->|Hne].
    - rewrite lookup_insert_eq in Hi. injection Hi as <-. exists sb. done.
    - rewrite lookup_insert_ne in Hi by done. exists si. done. }
  split; cbn [hub log].
  - apply hub_ok_subscribers, (hub_ok_topics now); [done| |by intros; apply R2].
    intros name t Ht. destruct (R1 name t Ht) as (t0 & Ht0 & Hc & _).
    unfold get_topic. by rewrite Ht0.
  - destruct Hs as [H1 H2 H3 H4 H5]. split; cbn.
    + intros i si Hi. destruct (Hget i si Hi) as (s0 & Hs0 & _). by eapply H1.
    + intros i si name Hi Hc Hn. destruct (Hget i si Hi) as (s0 & Hs0 & Ht0 & _ & Hcl).
      destruct (Hcl Hc) as [Hne Hc0]. rewrite Ht0 in Hn.
      destruct (H2 i s0 name Hs0 Hc0 Hn) as (t & Ht & Hin).
      destruct (m !! name) as [t'|] eqn:Em; [|apply R2 in Em; congruence]. exists t'. split; [done|].
      destruct (R1 name t' Em) as (t1 & Ht1 & _ & Hor). rewrite Ht in Ht1. injection Ht1 as <-.
      destruct Hor as [[_ ->]|[_ ->]]; [|done]. apply elem_filter. split; [done|].
      by destruct (Nat.eqb_spec i (sub s)).
    + intros name t i Ht Hin. destruct (R1 name t Ht) as (t0 & Ht0 & _ & Hor).
      assert (i ∈ subs t0) as Hin0.
      { destruct Hor as [[_ Hf]|[_ ->]]; [rewrite Hf in Hin; by apply elem_filter in Hin as [? _]|done]. }
      destruct (H3 name t0 i Ht0 Hin0) as (s0 & Hs0 & Hn).
      destruct (decide (i = sub s)) as [->|Hne].
      * rewrite lookup_insert_eq. eexists. split; [done|]. cbn. congruence.
      * rewrite lookup_insert_ne by done. eauto.
    + intros name t Ht. destruct (R1 name t Ht) as (t0 & Ht0 & _ & Hor). pose proof (H4 name t0 Ht0) as Hnd.
      destruct Hor as [[_ ->]|[_ ->]]; [|done].
      clear -Hnd. induction Hnd as [|x l Hx Hl IH]; simpl; [constructor|].
      destruct (negb _); [|done]. constructor; [|done]. intros Hin. by apply elem_filter in Hin as [? _].
    + intros i si Hi. destruct (Hget i si Hi) as (s0 & Hs0 & _ & -> & _). by eapply H5.
  - intros i si Hi. destruct (Hget i si Hi) as (s0 & Hs0 & Ht & Hc & Hcl).
    destruct (Hst i s0 Hs0) as (n & g & Hn & Hg & Hb & Hp & Hop). exists n, g.
    cbn [hub since got log]. rewrite Ht, Hc. repeat (split; [done|]). intros Hsi. apply Hop. by apply Hcl.
Qed.

Lemma touch_run now names r :
  run_ok r → run_ok (mkRun (touch now names (hub r)) (log r) (since r) (got r)).
Proof.
  destruct r as [h lg sn gt]. cbn. revert h. induction names as [|name names IH]; intros h Hok; cbn [touch]; [done|].
  apply IH. destruct Hok as [Hh Hs Hst]. cbn in *. set (t := get_topic now h name).
  split; cbn [hub log].
  - apply (hub_ok_topics now); [done| |].
    + intros n tn Hn. destruct (decide (n = name)) as [->|Hne].
      * rewrite lookup_insert_eq in Hn. by injection Hn as <-.
      * rewrite lookup_insert_ne in Hn by done. unfold get_topic. by rewrite Hn.
    + intros n Hn. by apply lookup_insert_None in Hn as [? _].
  - destruct (get_topic_subs now h name Hs) as [Hnd Hm].
    destruct Hs as [H1 H2 H3 H4 H5]. split; cbn; [done| | | |done].
    + intros i s n Hi Hc Hn. destruct (H2 i s n Hi Hc Hn) as (tn & Htn & Hin).
      destruct (decide (n = name)) as [->|Hne].
      * rewrite lookup_insert_eq. eexists. split; [done|]. cbn. subst t. unfold get_topic. by rewrite Htn.
      * rewrite lookup_insert_ne by done. eauto.
    + intros n tn i Hn Hin. destruct (decide (n = name)) as [->|Hne].
      * rewrite lookup_insert_eq in Hn. injection Hn as <-. by apply Hm.
      * rewrite lookup_insert_ne in Hn by done. by eapply H3.
    + intros n tn Hn. destruct (decide (n = name)) as [->|Hne].
      * rewrite lookup_insert_eq in Hn. by injection Hn as <-.
      * rewrite lookup_insert_ne in Hn by done. by eapply H4.
  - done.
Qed.

Lemma sweep_run now r : run_ok r → run_ok (mkRun (sweep now (hub r)) (log r) (since r) (got r)).
Proof.
  intros [Hh Hs Hst]. destruct (sweep_fields now (hub r)) as (He & _ & Hsq & Hsb & _).
  split; cbn [hub log]; [by apply sweep_ok|by apply sweep_subs|].
  intros i s Hi. rewrite Hsb in Hi. destruct (Hst i s Hi) as (n & g & ?).
  exists n, g. cbn [hub since got log]. by rewrite He, Hsq.
Qed.

Lemma Receive_run i ev h g r :
  run_ok r → Receive i (hub r) = Some (ev, h) → got r !! i = Some g →
  run_ok (mkRun h (log r) (since r) (<[i := g ++ [ev]]> (got r))).
Proof.
  intros [Hh Hs Hst] Hrc Hg. unfold Receive in Hrc.
  destruct (subscribers (hub r) !! i) as [[[|e rest] c ts]|] eqn:Ei; try done. injection Hrc as -> <-.
  assert (Hget : ∀ j sj, <[i := mkSub rest c ts]> (subscribers (hub r)) !! j = Some sj →
    (j = i ∧ sj = mkSub rest c ts) ∨ (j ≠ i ∧ subscribers (hub r) !! j = Some sj)).
  { intros j sj Hj. destruct (decide (j = i)) as [->|Hne].
    - rewrite lookup_insert_eq in Hj. injection Hj as <-. by left.
    - rewrite lookup_insert_ne in Hj by done. by right. }
  split; cbn [hub log].
  - by apply hub_ok_subscribers.
  - destruct Hs as [H1 H2 H3 H4 H5]. split; cbn.
    + intros j sj Hj. destruct (Hget j sj Hj) as [[-> _]|[_ ?]]; by eapply H1.
    + intros j sj n Hj Hc Hn. destruct (Hget j sj Hj) as [[-> ->]|[_ ?]]; [|by eapply H2]. by eapply (H2 i).
    + intros n t j Ht Hin. destruct (H3 n t j Ht Hin) as (s & Hs & Hn).
      destruct (decide (j = i)) as [->|Hne].
      * rewrite lookup_insert_eq. eexists. split; [done|]. rewrite Ei in Hs. by injection Hs as <-.
      * rewrite lookup_insert_ne by done. eauto.
    + done.
    + intros j sj Hj. destruct (Hget j sj Hj) as [[-> ->]|[_ ?]]; [|by eapply H5].
      specialize (H5 _ _ Ei). cbn in *. lia.
  - intros j sj Hj. destruct (Hget j sj Hj) as [[-> ->]|[Hne Hj']].
    + destruct (Hst i _ Ei) as (n & g' & Hn & Hg' & Hb & Hp & Hop).
      rewrite Hg in Hg'. injection Hg' as <-. exists n, (g ++ [ev]). cbn [hub since got log].
      rewrite lookup_insert_eq, <- app_assoc. cbn in *. done.
    + destruct (Hst j sj Hj') as (n & g' & ?). exists n, g'. cbn [hub since got log].
      by rewrite lookup_insert_ne.
Qed.

Lemma step_ok r r' : run_ok r → step r r' → run_ok r'.
Proof.
  intros Hok Hstep. destruct Hstep.
  - by apply Publish_run.
  - by eapply Subscribe_run.
  - by apply Unsubscribe_run.
  - unfold Position. cbn [snd]. apply (touch_run now names (mkRun _ _ _ _)). by apply sweep_run.
  - by eapply Receive_run.
Qed.

Lemma start_ok ep : run_ok (start ep).
Proof.
  split; cbn.
  - split; cbn; try done; try lia.
    + constructor.
    + intros e He. by apply not_elem_of_nil in He.
    + unfold DefaultKeep. lia.
  - split; cbn; intros *; rewrite ?lookup_empty; done.
  - intros i s. by rewrite lookup_empty.
Qed.

Lemma reachable_ok ep r : star step (start ep) r → run_ok r.
Proof. intros H. eapply (star_invariant step run_ok); [apply step_ok|done|apply start_ok]. Qed.

Lemma step_epoch r r' : step r r' → epoch (hub r') = epoch (hub r).
Proof.
  assert (Hsw : ∀ now h, epoch (sweep now h) = epoch h) by (intros; by apply sweep_fields).
  intros Hstep. destruct Hstep; cbn [hub].
  - unfold Publish. destruct (trim _ _ _ _) as [[? ?] ?], (deliver _ _ _). apply Hsw.
  - unfold Subscribe in H0.
    match type of H0 with context [subscribe_topics ?a ?b ?c ?d ?e ?f ?g ?i] =>
      pose proof (subscribe_topics_spec a b c d e f g i) as Hs;
      destruct (subscribe_topics a b c d e f g i) as [[h3 all] stale] end.
    destruct Hs as ((m & -> & _) & _). injection H0 as _ <-. apply Hsw.
  - unfold Unsubscribe. by destruct (_ !! _).
  - unfold Position. cbn [snd]. rewrite <- (Hsw now (hub r)). generalize (sweep now (hub r)).
    induction names as [|n l IH]; intros h; cbn [touch]; [done|]. by rewrite IH.
  - unfold Receive in H. repeat case_match; try done. by injection H as _ <-.
Qed.

Lemma reachable_epoch ep r : star step (start ep) r → epoch (hub r) = ep.
Proof.
  intros H. eapply (star_invariant step (λ r, epoch (hub r) = ep)); [|done|done].
  intros a b <- Hs. by apply step_epoch.
Qed.

(** ** Properties *)

(** What [Subscribe] gives back, whatever the ID. *)
Lemma Subscribe_result now lastID names h s h' :
  Subscribe now lastID names h = (s, h') →
  let h1 := sweep now h in
  (lastID = "" → Stale s = false ∧ Missed s = []) ∧
  (lastID ≠ "" → parse h lastID = None → names ≠ [] → Stale s = true ∧ Missed s = []) ∧
  (∀ n, lastID ≠ "" → parse h lastID = Some n →
    Stale s = gone now n h1 names ∧
    (Stale s = true → Missed s = []) ∧
    (Stale s = false →
      Missed s = snd <$> sort_seq (concat ((λ name, kept_after n (get_topic now h1 name)) <$> names)))).
Proof.
  unfold Subscribe. cbv zeta.
  assert (parse (sweep now h) lastID = parse h lastID) as ->.
  { destruct (sweep_fields now h) as (He & _ & Hsq & _). unfold parse. by rewrite He, Hsq. }
  set (h1 := sweep now h). set (h2 := with_subscribers h1 _ _).
  assert (Hg : ∀ name, get_topic now h2 name = get_topic now h1 name) by done.
  pose proof (subscribe_topics_spec now (nextSub h1) (negb (String.eqb lastID "")) (parse h lastID) names h2 [] false) as Hsp.
  destruct (subscribe_topics _ _ _ _ _ _ _ _) as [[h3 all] stale].
  destruct Hsp as (_ & S2 & S3 & S4). intros [= <- <-]. cbn [Stale Missed]. split_and!.
  - intros ->. by destruct (S4 eq_refl) as [-> ->].
  - intros Hne%String.eqb_neq Hp Hn. rewrite Hne in *. specialize (S3 eq_refl Hp). cbn in S3.
    destruct names; [done|]. by rewrite S3.
  - intros n Hne%String.eqb_neq Hp. rewrite Hne in *. destruct (S2 eq_refl n Hp) as [Hs Hall].
    cbn in Hs. split; [done|]. split; [by intros ->|].
    intros ->. by rewrite (Hall eq_refl).
Qed.

(** A position of this hub, read back. *)
Lemma Subscribe_known now n names h log s h' :
  hub_ok h log → has_byte "-" (epoch h) = false → NoDup names → 0 ≤ n ≤ seq h →
  Subscribe now (id h n) names h = (s, h') →
  Stale s = gone now n (sweep now h) names ∧
  Missed s = if Stale s then [] else event_of (epoch h) <$> of_topics names n log.
Proof.
  intros Hok He Hnd Hn Hsub. destruct (Subscribe_result _ _ _ _ _ _ Hsub) as (_ & _ & H).
  destruct (H n) as (Hs & Ht & Hf).
  { apply String.eqb_neq, id_nonempty. }
  { apply id_parse; [done|done|]. apply (ok_seq _ _ Hok). }
  split; [done|]. destruct (Stale s) eqn:E; [by apply Ht|]. rewrite Hf by done.
  rewrite (missed_sorted now n _ log) ; [|by apply sweep_ok|done|].
  - by destruct (sweep_fields now h) as (-> & _).
  - by apply gone_false.
Qed.

Lemma of_topics_cons names n e log :
  of_topics names n (e :: log) =
  if contains names (ename e) && after n e then e :: of_topics names n log else of_topics names n log.
Proof. done. Qed.

(** What follows an event in a sorted log is what comes after its seq. *)
Lemma of_topics_split names n log l1 e l2 :
  StronglySorted seq_lt log → of_topics names n log = l1 ++ e :: l2 →
  n < eseq e ∧ of_topics names (eseq e) log = l2.
Proof.
  intros Hs. revert l1. induction log as [|x log IH]; intros l1; [by destruct l1|].
  rewrite of_topics_cons. apply StronglySorted_inv in Hs as Hs'. destruct Hs' as [Hs' Hf].
    assert (Hlow : ∀ m, eseq x < m → of_topics names m (x :: log) = of_topics names m log).
    { intros m Hm. unfold of_topics, after. cbn. destruct (Z.ltb_spec m (eseq x)); [lia|]. by rewrite andb_false_r. }
    destruct (contains names (ename x) && after n x) eqn:E.
    - destruct l1 as [|y l1]; intros [= -> Hl].
      + bool_to_prop. split; [by apply Z.ltb_lt|]. rewrite of_topics_cons. unfold after at 1.
        rewrite Z.ltb_irrefl, andb_false_r, <- Hl. apply filter_ext_elem. intros y Hy.
        rewrite Forall_forall in Hf. specialize (Hf y Hy). unfold seq_lt in Hf.
        f_equal. unfold after in *. bool_to_prop.
        destruct (Z.ltb_spec (eseq e) (eseq y)), (Z.ltb_spec n (eseq y)); (done || lia).
      + destruct (IH Hs' l1 Hl) as [Hn Hr]. split; [done|]. rewrite Hlow; [done|]. rewrite Forall_forall in Hf. apply Hf.
        assert (e ∈ of_topics names n log) as Hin by (rewrite Hl; set_solver).
        by apply elem_filter in Hin as [? _].
    - intros Hl. destruct (IH Hs' l1 Hl) as [Hn Hr]. split; [done|]. rewrite Hlow; [done|]. rewrite Forall_forall in Hf. apply Hf.
      assert (e ∈ of_topics names n log) as Hin by (rewrite Hl; set_solver).
      by apply elem_filter in Hin as [? _].
Qed.

(** ** What a hub has dropped *)

Lemma app_inv_str a b c : a +:+ b = a +:+ c → b = c.
Proof. induction a as [|x a IH]; [done|]. intros H. apply IH. by injection H. Qed.

(** The event is in what its topic keeps. *)
Definition holds (h : Hub) (e : entry) : Prop :=
  ∃ t, topics h !! ename e = Some t ∧ event_of (epoch h) e ∈ recent t.

(** Where a topic starts. *)
Definition base (h : Hub) (name : string) : Z :=
  match topics h !! name with Some t => floor t | None => dropped h end.

Lemma get_topic_base now h name : floor (get_topic now h name) = base h name.
Proof. unfold get_topic, base. by destruct (topics h !! name). Qed.

Lemma holds_base h log e : hub_ok h log → e ∈ log → holds h e ↔ base h (ename e) < eseq e.
Proof.
  intros Hok He. pose proof (ok_range _ _ Hok) as Hr. unfold holds, base. split.
  - intros (t & Ht & Hin). rewrite Ht. destruct (ok_topics _ _ Hok _ _ Ht) as [[_ Hrec _] _].
    rewrite Hrec in Hin. apply list_elem_of_fmap in Hin as (e' & Hid & Hin).
    apply of_topic_elem in Hin as (Hin & _ & Hlt). apply (f_equal ID) in Hid. cbn in Hid.
    apply app_inv_str, (app_inv_str "-"), itoa_inj in Hid; [lia|apply Hr in He; lia|apply Hr in Hin; lia].
  - destruct (topics h !! ename e) as [t|] eqn:Ht; intros Hlt.
    + exists t. split; [done|]. destruct (ok_topics _ _ Hok _ _ Ht) as [[_ -> _] _].
      apply list_elem_of_fmap_2, of_topic_elem. done.
    + pose proof (ok_absent _ _ Hok _ Ht) as Ha. rewrite of_topic_nil in Ha. specialize (Ha e He eq_refl). lia.
Qed.

(** A topic starts at the beginning, or after an event the hub has dropped:
    one of its own, or one the sweeps dropped. *)
Definition after_dropped (h : Hub) (log : list entry) (own : option string) (n : Z) : Prop :=
  n = 0 ∨ ∃ e, e ∈ log ∧ eseq e = n ∧ n ≤ base h (ename e) ∧ (own = Some (ename e) ∨ n ≤ dropped h).

Record floors_ok (h : Hub) (log : list entry) : Prop := {
  fo_base : ∀ name, after_dropped h log (Some name) (base h name);
  fo_dropped : after_dropped h log None (dropped h)
}.

(** A hub that has dropped no less. *)
Definition further (h h' : Hub) : Prop := dropped h ≤ dropped h' ∧ ∀ name, base h name ≤ base h' name.

Lemma after_dropped_further h h' log log' own n :
  further h h' → (∀ e, e ∈ log → e ∈ log') → after_dropped h log own n → after_dropped h' log' own n.
Proof.
  intros [Hd Hb] Hl [->|(e & He & Hn & Hle & Hor)]; [by left|]. right. exists e.
  specialize (Hb (ename e)). split_and!; [auto|done|lia|]. destruct Hor; [by left|right; lia].
Qed.

(** An operation that drops nothing. *)
Lemma floors_same h h' log :
  dropped h' = dropped h → (∀ name, base h' name = base h name) → floors_ok h log → floors_ok h' log.
Proof.
  intros Hd Hb [F1 F2]. assert (further h h') as Hf by (split; [lia|intros; rewrite Hb; lia]).
  split; [intros name; rewrite Hb|rewrite Hd]; by eapply after_dropped_further.
Qed.

Lemma base_topics now h m :
  (∀ name t, m !! name = Some t → core t = core (get_topic now h name)) →
  (∀ name, m !! name = None → topics h !! name = None) →
  ∀ name, base (with_topics h m) name = base h name.
Proof.
  intros Hm Hn name. rewrite <- (get_topic_base now h). unfold base. cbn.
  destruct (m !! name) as [t|] eqn:E; [by injection (Hm _ _ E)|].
  unfold get_topic. by rewrite (Hn _ E).
Qed.

Lemma sweep_dropped_from now h :
  let d := map_fold (λ _ t d, if expired now h t then Z.max d (last_seq t) else d) (dropped h) (topics h) in
  d = dropped h ∨ ∃ name t, topics h !! name = Some t ∧ expired now h t = true ∧ d = last_seq t.
Proof.
  apply (map_fold_weak_ind (λ d m, d = dropped h ∨
    ∃ name t, m !! name = Some t ∧ expired now h t = true ∧ d = last_seq t)); [by left|].
  intros i x m r Hi Hr. destruct (expired now h x) eqn:Ex.
  2: { destruct Hr as [|(name & t & Ht & ?)]; [by left|]. right. exists name, t.
       rewrite lookup_insert_ne; [done|]. intros ->. congruence. }
  destruct (Z.max_spec r (last_seq x)) as [[_ ->]|[_ ->]].
  - right. exists i, x. by rewrite lookup_insert_eq.
  - destruct Hr as [|(name & t & Ht & ?)]; [by left|]. right. exists name, t.
    rewrite lookup_insert_ne; [done|]. intros ->. congruence.
Qed.

Lemma sweep_further now h : further h (sweep now h).
Proof.
  unfold sweep. destruct (_ <? minute); [by split|]. destruct (sweep_dropped now h) as (Hd & He & _).
  set (d := map_fold _ _ _) in *. clearbody d. split; [done|]. intros name. unfold base. cbn.
  destruct (topics h !! name) as [t|] eqn:E; destruct (filter _ (topics h) !! name) as [t'|] eqn:E'.
  - apply map_lookup_filter_Some in E' as [E' _]. rewrite E in E'. injection E' as <-. lia.
  - apply map_lookup_filter_None in E' as [E'|E']; [congruence|]. specialize (E' t E). cbn in E'.
    specialize (He name t E). destruct (expired now h t); [|done]. unfold last_seq in He.
    specialize (He eq_refl). destruct (last (seqs t)); lia.
  - apply map_lookup_filter_Some in E' as [E' _]. congruence.
  - done.
Qed.

Lemma sweep_floors now h log : hub_ok h log → floors_ok h log → floors_ok (sweep now h) log.
Proof.
  intros Hok [F1 F2]. pose proof (sweep_further now h) as Hf. revert Hf. unfold sweep.
  destruct (_ <? minute); [by split|]. pose proof (sweep_dropped_from now h) as Hd.
  destruct (sweep_dropped now h) as (_ & He & _). cbv zeta in Hd, He. set (d := map_fold _ _ _) in *. clearbody d.
  set (h' := mkHub _ _ _ _ _ _ d _ _). intros Hf.
  assert (after_dropped h' log None d) as Hdrop.
  { destruct Hd as [->|(name & t & Ht & Hex & Hd)]; [by eapply after_dropped_further|].
    specialize (He name t Ht Hex). pose proof (F1 name) as Hfl. unfold base in Hfl. rewrite Ht in Hfl.
    destruct (ok_topics _ _ Hok _ _ Ht) as [[Hq _ Hr] _].
    assert (topics h' !! name = None) as Hnone.
    { apply map_lookup_filter_None. right. intros t' Ht'. cbn. rewrite Ht in Ht'. injection Ht' as <-. by rewrite Hex. }
    unfold last_seq in Hd. destruct (last (seqs t)) as [q|] eqn:El.
    - apply last_Some_elem_of in El. rewrite Hq in El. apply list_elem_of_fmap in El as (e & -> & Hin).
      apply of_topic_elem in Hin as (Hin & Hnm & Hlt). right. exists e. unfold base. rewrite Hnm, Hnone. cbn.
      split_and!; [done|lia|done|right; lia].
    - subst d. destruct Hfl as [->|(e & Hin & Hn & Hle & _)]; [by left|]. right. exists e.
      destruct Hf as [_ Hb]. specialize (Hb (ename e)). split_and!; [done|done|lia|right; cbn; lia]. }
  split; [|done]. intros name. unfold base at 1. cbn.
  destruct (filter _ (topics h) !! name) as [t|] eqn:E.
  - apply map_lookup_filter_Some in E as [E _]. specialize (F1 name). unfold base in F1 at 1. rewrite E in F1.
    by eapply after_dropped_further.
  - destruct Hdrop as [->|(e & Hin & Hn & Hle & Hor)]; [by left|]. right. exists e. split_and!; [done..|]. by right.
Qed.

Lemma Publish_floors now name event h log :
  hub_ok h log → floors_ok h log → floors_ok (Publish now name event h) (log ++ [entry_of h name event]).
Proof.
  intros Hok Hfo. apply (sweep_floors now) in Hfo; [|done]. apply (sweep_ok now) in Hok.
  unfold Publish. set (h1 := sweep now h) in *. clearbody h1.
  destruct (get_topic_ok now h1 log name Hok) as [[Hseqs Hrec _] _].
  pose proof (get_topic_base now h1 name) as Hb. set (t := get_topic now h1 name) in *. clearbody t.
  pose proof (trim_ok (epoch h1) (keep h1) name log (floor t) (recent t) (seqs t)
    (ok_sorted _ _ Hok) (ok_keep _ _ Hok) Hseqs Hrec) as Htrim.
  destruct (trim _ _ _ _) as [[fl rc] sqs]. destruct Htrim as (_ & _ & Hge & Hor & _).
  destruct (deliver _ _ _) as [kept store]. destruct Hfo as [F1 F2].
  set (h' := mkHub _ _ _ _ _ _ _ _ _). set (log' := log ++ _).
  assert (∀ n, base h' n = if decide (n = name) then fl else base h1 n) as Hbase.
  { intros n. unfold base. cbn. destruct (decide (n = name)) as [->|Hne]; [by rewrite lookup_insert_eq|].
    by rewrite lookup_insert_ne. }
  assert (further h1 h') as Hf.
  { split; [done|]. intros n. rewrite Hbase. destruct (decide (n = name)) as [->|]; lia. }
  assert (∀ e, e ∈ log → e ∈ log') as Hl by (intros e He; subst log'; set_solver).
  split; [|by eapply after_dropped_further].
  intros n. rewrite Hbase. destruct (decide (n = name)) as [->|Hne]; [|by eapply after_dropped_further].
  destruct Hor as [->|(e & Hin & Hnm & <-)]; [rewrite Hb; by eapply after_dropped_further|].
  right. exists e. split_and!; [by apply Hl|done| |left; congruence].
  rewrite Hbase, Hnm. by destruct (decide (name = name)).
Qed.

Lemma Subscribe_floors now last names h log s h' :
  hub_ok h log → floors_ok h log → Subscribe now last names h = (s, h') →
  floors_ok h' log ∧ dropped h' = dropped (sweep now h) ∧ ∀ name, base h' name = base (sweep now h) name.
Proof.
  intros Hok Hfo. apply (sweep_floors now) in Hfo; [|done]. unfold Subscribe.
  set (h1 := sweep now h) in *. clearbody h1.
  set (h2 := with_subscribers h1 _ _).
  pose proof (subscribe_topics_spec now (nextSub h1) (negb (String.eqb last "")) (parse h1 last) names h2 [] false) as Hsp.
  destruct (subscribe_topics _ _ _ _ _ _ _ _) as [[h3 all] stale].
  destruct Hsp as ((m & -> & Hm & Hn) & _). intros [= <- <-].
  assert (∀ name, base (with_topics h2 m) name = base h1 name) as Hb by (by apply (base_topics now h2)).
  split; [|done]. by apply (floors_same h1).
Qed.

Lemma Unsubscribe_floors now s h log : floors_ok h log → floors_ok (Unsubscribe now s h) log.
Proof.
  intros Hfo. unfold Unsubscribe. destruct (subscribers h !! sub s) as [sb|]; [|done].
  destruct (remove_sub_spec now (sub s) (topicsOf sb) (topics h)) as [R1 R2].
  apply (floors_same h); [done| |done].
  apply (base_topics now); [|by intros; apply R2].
  intros name t Ht. destruct (R1 name t Ht) as (t0 & Ht0 & Hc & _). unfold get_topic. by rewrite Ht0.
Qed.

Lemma touch_floors now names h log : floors_ok h log → floors_ok (touch now names h) log.
Proof.
  revert h. induction names as [|name names IH]; intros h Hfo; cbn [touch]; [done|]. apply IH.
  apply (floors_same h); [done| |done]. apply (base_topics now).
  - intros n t Ht. destruct (decide (n = name)) as [->|Hne].
    + rewrite lookup_insert_eq in Ht. by injection Ht as <-.
    + rewrite lookup_insert_ne in Ht by done. unfold get_topic. by rewrite Ht.
  - intros n Hn. by apply lookup_insert_None in Hn as [? _].
Qed.

Lemma reachable_floors ep r : star step (start ep) r → floors_ok (hub r) (log r).
Proof.
  intros H. enough (run_ok r ∧ floors_ok (hub r) (log r)) by tauto.
  eapply (star_invariant step (λ r, run_ok r ∧ floors_ok (hub r) (log r))); [|done|].
  - intros a b [Ha Hf] Hs. split; [by eapply step_ok|]. pose proof (ro_hub _ Ha) as Hok. destruct Hs; cbn [hub log].
    + by apply Publish_floors.
    + by eapply Subscribe_floors.
    + by apply Unsubscribe_floors.
    + unfold Position. cbn [snd]. by apply touch_floors, sweep_floors.
    + unfold Receive in H0. repeat case_match; try done. injection H0 as _ <-. by apply (floors_same (hub r0)).
  - split; [apply start_ok|]. split; [intros name|]; by left.
Qed.

(** A position of another hub, or one this hub has not reached. *)
Lemma parse_unknown h ep n :
  has_byte "-" ep = false → 0 ≤ n ≤ uint64_max → ep ≠ epoch h ∨ seq h < n →
  parse h (ep +:+ "-" +:+ itoa n) = None.
Proof.
  intros He Hn Hor. unfold parse. change ("-" +:+ itoa n) with (String "-" (itoa n)).
  rewrite cut_byte_app by done. destruct (String.eqb_spec ep (epoch h)) as [->|]; [|done]. cbn [negb orb].
  unfold parse_uint. rewrite parse_itoa by lia. destruct Hor; [done|]. by destruct (Z.leb_spec n (seq h)); [lia|].
Qed.

(** C17. A client comes back to any reachable hub with a position: the ID
    [ep']-[n] of the last event it got. One of another hub (a server started
    since), or past what this hub published, is told to reload. With one of
    this hub: if the hub no longer holds some event its topics published after
    [n], it is told to reload; and if it is not told so, it is sent every
    event its topics published after [n], each once, in the order they were
    published. It is told to reload only if the hub has dropped an event
    published after [n]: one of its topics', or one of another topic, that the
    sweeps dropped. A hub that swept nothing tells it to reload exactly when
    its own topics dropped an event after [n]. *)
Theorem reconnect_complete ep r now ep' n names s h :
  star step (start ep) r → has_byte "-" ep' = false → NoDup names → names ≠ [] → 0 ≤ n ≤ uint64_max →
  Subscribe now (ep' +:+ "-" +:+ itoa n) names (hub r) = (s, h) →
  let lost names' := ∃ e, e ∈ log r ∧ (ename e ∈ names') ∧ n < eseq e ∧ ¬ holds h e in
  (Stale s = true → Missed s = []) ∧
  if decide (ep' = ep ∧ n ≤ seq (hub r)) then
    (lost names → Stale s = true) ∧
    (Stale s = false → Missed s = event_of ep <$> of_topics names n (log r)) ∧
    (Stale s = true → lost names ∨ (∃ e, e ∈ log r ∧ n < eseq e ≤ dropped h ∧ ¬ holds h e)) ∧
    (dropped h = 0 → Stale s = true ↔ lost names)
  else Stale s = true.
Proof.
  intros Hr He Hnd Hne Hn Hsub lost. pose proof (reachable_ok _ _ Hr) as [Hok _ _].
  pose proof (reachable_epoch _ _ Hr) as Hep. subst ep. destruct (decide _) as [[-> Hle]|Hno].
  2: { destruct (Subscribe_result _ _ _ _ _ _ Hsub) as (_ & H & _).
       destruct H as [-> ->]; [by apply String.eqb_neq, (id_nonempty (NewHub ep') n)| |done|done].
       apply parse_unknown; [done|done|]. destruct (decide (ep' = epoch (hub r))) as [E|E]; [right|by left].
       apply Z.nle_gt. tauto. }
  destruct (Subscribe_known _ _ _ _ _ _ _ Hok He Hnd (conj (proj1 Hn) Hle) Hsub) as [Hst Hm].
  destruct (Subscribe_log _ _ _ _ _ _ _ Hok Hsub) as (Hok' & _).
  destruct (Subscribe_floors _ _ _ _ _ _ _ Hok (reachable_floors _ _ Hr) Hsub) as ([F1 _] & _ & Hb).
  assert (lost names → Stale s = true) as H1.
  { intros (e & Hin & Hnm & Hlt & Hh). rewrite (holds_base h (log r)) in Hh by done.
    rewrite Hst. apply existsb_exists. exists (ename e). rewrite <- list_elem_of_In, get_topic_base, <- Hb.
    split; [done|]. apply Z.ltb_lt. lia. }
  assert (Stale s = true → lost names ∨ ∃ e, e ∈ log r ∧ n < eseq e ≤ dropped h ∧ ¬ holds h e) as H2.
  { rewrite Hst. intros (name & Hin & Hlt)%existsb_exists. rewrite <- list_elem_of_In in Hin.
    apply Z.ltb_lt in Hlt. rewrite get_topic_base, <- Hb in Hlt.
    destruct (F1 name) as [|(e & Hl & Hq & Hfl & Hor)]; [lia|]. rewrite <- Hq in *.
    assert (¬ holds h e) as Hh by (rewrite (holds_base h (log r)) by done; lia).
    destruct Hor as [[= ->]|Hd]; [left|right]; by exists e. }
  split; [by intros Hs; rewrite Hs in Hm|]. split_and!; [done|by intros Hs; rewrite Hs in Hm|done|].
  intros Hd. split; [|done]. intros Hs. destruct (H2 Hs) as [|(e & _ & Hq & _)]; [done|lia].
Qed.

(** In any reachable hub, what a subscriber's client took off its channel
    followed by what waits in it is a prefix of the events its topics
    published since it subscribed, in order; all of them as long as the hub
    has not dropped it. A channel never holds more than its buffer, a topic no
    more events than the hub keeps. *)
Theorem stream_complete ep r i s :
  star step (start ep) r → subscribers (hub r) !! i = Some s →
  (∃ n g, since r !! i = Some n ∧ got r !! i = Some g ∧
    (g ++ ch s) `prefix_of` (event_of ep <$> of_topics (topicsOf s) n (log r)) ∧
    (closed s = false → g ++ ch s = event_of ep <$> of_topics (topicsOf s) n (log r))) ∧
  (length (ch s) ≤ subscriberBuffer)%nat ∧
  (∀ name t, topics (hub r) !! name = Some t → (length (recent t) ≤ keep (hub r))%nat).
Proof.
  intros Hr Hi. pose proof (reachable_ok _ _ Hr) as [Hok Hs Hst].
  destruct (Hst i s Hi) as (n & g & Hn & Hg & _ & Hp & Ho). rewrite (reachable_epoch _ _ Hr) in *.
  split_and!; [by exists n, g|by eapply so_buffer|].
  intros name t Ht. by destruct (ok_topics _ _ Hok name t Ht).
Qed.

(** A client whose stream ended, whatever it lost of its channel, comes
    back with the ID of the last event it got: unless it is told to reload,
    what it had and what it is sent are the events of its topics since it
    first subscribed, none lost and none twice. *)
Theorem reconnect_no_loss ep r i sb g ev now s h :
  star step (start ep) r → has_byte "-" ep = false →
  subscribers (hub r) !! i = Some sb → NoDup (topicsOf sb) →
  got r !! i = Some g → last g = Some ev →
  Subscribe now (ID ev) (topicsOf sb) (hub r) = (s, h) → Stale s = false →
  ∃ n, since r !! i = Some n ∧
    g ++ Missed s = event_of ep <$> of_topics (topicsOf sb) n (log r).
Proof.
  intros Hr He Hi Hnd Hg Hl Hsub Hst. pose proof (reachable_ok _ _ Hr) as [Hok _ Hstr].
  pose proof (reachable_epoch _ _ Hr) as Hep. rewrite <- Hep in He |- *.
  destruct (Hstr i sb Hi) as (n & g' & Hn & Hg' & _ & [rest Hp] & _).
  rewrite Hg in Hg'. injection Hg' as <-. exists n. split; [done|].
  apply last_Some in Hl as [g0 ->]. rewrite <- !app_assoc in Hp. cbn in Hp.
  apply fmap_app_inv in Hp as (l1 & l2 & Hg0 & Hl2 & Hof). symmetry in Hl2.
  apply fmap_cons_inv in Hl2 as (e & l3 & Hev & Hrest & ->).
  destruct (of_topics_split _ _ _ _ _ _ (ok_sorted _ _ Hok) Hof) as [_ Haft].
  assert (e ∈ log r) as Hin.
  { assert (e ∈ of_topics (topicsOf sb) n (log r)) as Hin by (rewrite Hof; set_solver).
    by apply elem_filter in Hin as [? _]. }
  rewrite Hev in Hsub. cbn [ID event_of] in Hsub.
  fold (id (hub r) (eseq e)) in Hsub.
  assert (0 ≤ eseq e ≤ seq (hub r)) as Hrg by (pose proof (ok_range _ _ Hok e Hin); lia).
  destruct (Subscribe_known _ _ _ _ _ _ _ Hok He Hnd Hrg Hsub) as [_ Hm].
  rewrite Hst, Haft in Hm. rewrite Hm, Hof, !fmap_app, fmap_cons, <- app_assoc, Hev, Hg0. done.
Qed.

(** ** Witnesses *)

(** The operations of a run, as functions. *)
Definition do_publish (now : time) (name : string) (event : SSEEvent) (r : run) : run :=
  mkRun (Publish now name event (hub r)) (log r ++ [entry_of (hub r) name event]) (since r) (got r).

Definition do_subscribe (now : time) (last : string) (names : list string) (r : run) : run :=
  let '(s, h) := Subscribe now last names (hub r) in
  mkRun h (log r) (<[sub s := seq (hub r)]> (since r)) (<[sub s := []]> (got r)).

Definition do_receive (i : nat) (r : run) : run :=
  match Receive i (hub r), got r !! i with
  | Some (ev, h), Some g => mkRun h (log r) (since r) (<[i := g ++ [ev]]> (got r))
  | _, _ => r
  end.

Lemma do_publish_star now name event r r0 :
  star step r0 r → seq (hub r) < uint64_max → star step r0 (do_publish now name event r).
Proof. intros Hr H. eapply star_trans; [done|]. apply star_one. by constructor. Qed.

Lemma do_subscribe_star now last names r r0 :
  star step r0 r → NoDup names → star step r0 (do_subscribe now last names r).
Proof.
  intros Hr H. eapply star_trans; [done|]. apply star_one. unfold do_subscribe.
  destruct (Subscribe now last names (hub r)) eqn:E. by econstructor.
Qed.

Lemma do_receive_star i r r0 : star step r0 r → star step r0 (do_receive i r).
Proof.
  intros Hr. eapply star_trans; [done|]. unfold do_receive.
  destruct (Receive i (hub r)) as [[ev h]|] eqn:E; [|apply star_refl].
  destruct (got r !! i) as [g|] eqn:Eg; [|apply star_refl].
  apply star_one. by econstructor.
Qed.

(** A client of two topics that took the first of its two events. *)
Definition demo : run :=
  do_receive 0
    (do_publish minute "b" (mkSSE "text" "three")
      (do_publish 2 "c" (mkSSE "text" "two")
        (do_publish 1 "a" (mkSSE "text" "one")
          (do_subscribe 0 "" ["a"; "b"] (start "k1"))))).

Lemma demo_reachable : star step (start "k1") demo.
Proof.
  apply do_receive_star, do_publish_star; [apply do_publish_star; [apply do_publish_star;
    [apply do_subscribe_star; [apply star_refl|]|]|]|]; try (vm_compute; reflexivity).
  apply (bool_decide_unpack _). reflexivity.
Qed.

Lemma reconnect_complete_witness :
  Missed (fst (Subscribe minute ("k1" +:+ "-" +:+ itoa 1) ["b"; "c"] (hub demo))) =
  event_of "k1" <$> of_topics ["b"; "c"] 1 (log demo).
Proof.
  pose proof (reconnect_complete "k1" demo minute "k1" 1 ["b"; "c"]
    (fst (Subscribe minute ("k1" +:+ "-" +:+ itoa 1) ["b"; "c"] (hub demo)))
    (snd (Subscribe minute ("k1" +:+ "-" +:+ itoa 1) ["b"; "c"] (hub demo))) demo_reachable eq_refl
    ltac:(apply (bool_decide_unpack _); reflexivity) ltac:(discriminate)
    ltac:(unfold uint64_max; lia) (surjective_pairing _)) as [_ H].
  destruct (decide _) as [_|Hno]; [|exfalso; apply Hno; split; [reflexivity|vm_compute; discriminate]].
  destruct H as (_ & H & _). apply H. vm_compute. reflexivity.
Defined.

Lemma stream_complete_witness :
  ∃ s, subscribers (hub demo) !! 0%nat = Some s ∧ (length (ch s) ≤ subscriberBuffer)%nat.
Proof.
  eexists. split; [vm_compute; reflexivity|].
  refine (proj1 (proj2 (stream_complete "k1" demo 0 _ demo_reachable _))). vm_compute. reflexivity.
Defined.

Lemma reconnect_no_loss_witness :
  ∃ n, since demo !! 0%nat = Some n ∧
    [mkEvent "k1-1" (mkSSE "text" "one")] ++
      Missed (fst (Subscribe minute "k1-1" ["a"; "b"] (hub demo))) =
    event_of "k1" <$> of_topics ["a"; "b"] n (log demo).
Proof.
  refine (reconnect_no_loss "k1" demo 0 (mkSub [mkEvent "k1-3" (mkSSE "text" "three")] false ["a"; "b"])
    [mkEvent "k1-1" (mkSSE "text" "one")] (mkEvent "k1-1" (mkSSE "text" "one")) minute
    _ _ demo_reachable eq_refl _ _ _ eq_refl (surjective_pairing _) _).
  - vm_compute. reflexivity.
  - apply (bool_decide_unpack _). reflexivity.
  - vm_compute. reflexivity.
  - vm_compute. reflexivity.
Defined.
