(* ===== verification/Throttle.v ===== *)
(** * Login throttling (src/auth/throttle.go)

    Failure counts per key, the login limits made of two of them, and the
    client address a limit per address counts for. The clock of an operation
    is its argument. Packages [net] and [net/netip] and the Unicode lower case
    are parameters: nothing here depends on what an address is. *)

From S2P Require Import Prelude GoStr Utf8.
Open Scope string_scope.
Open Scope Z_scope.
Open Scope list_scope.

Record failureCount := mkCount { n : Z; since : time }.

Record Throttle := mkThrottle { Limit : Z; Window : Z; failures : gmap string failureCount }.

Definition maxTrackedKeys : Z := 10000.

Definition NewThrottle (limit window : Z) : Throttle := mkThrottle limit window ∅.

Definition with_failures (t : Throttle) (m : gmap string failureCount) : Throttle :=
  mkThrottle (Limit t) (Window t) m.

(** A window is over: what [current] drops. *)
Definition over (now : time) (window : Z) (f : failureCount) : bool := window <=? time_sub now (since f).

Definition current (now : time) (key : string) (t : Throttle) : option failureCount * Throttle :=
  match failures t !! key with
  | Some f =>
      if over now (Window t) f then (None, with_failures t (delete key (failures t)))
      else (Some f, t)
  | None => (None, t)
  end.

(** A nil [*Throttle] limits nothing: [None] here. *)
Definition Blocked (now : time) (key : string) (t : option Throttle) : bool * option Throttle :=
  match t with
  | None => (false, None)
  | Some t =>
      let '(f, t) := current now key t in
      (match f with Some f => Limit t <=? n f | None => false end, Some t)
  end.

(** The loop of [Fail] over the map: a closed window goes, whatever the order
    the keys come in. *)
Definition sweep (now : time) (t : Throttle) : Throttle :=
  with_failures t (filter (λ kv, over now (Window t) kv.2 = false) (failures t)).

Definition Fail_ (now : time) (key : string) (t : option Throttle) : option Throttle :=
  match t with
  | None => None
  | Some t =>
      let t := if maxTrackedKeys <=? Z.of_nat (size (failures t)) then sweep now t else t in
      let '(f, t) := current now key t in
      let f := match f with Some f => f | None => mkCount 0 now end in
      Some (with_failures t (<[key := mkCount (n f + 1) (since f)]> (failures t)))
  end.

Definition Reset_ (key : string) (t : option Throttle) : option Throttle :=
  match t with
  | None => None
  | Some t => Some (with_failures t (delete key (failures t)))
  end.

(** ** The limits of a login *)

Record LoginLimits := mkLimits { PerClient : option Throttle; PerAccount : option Throttle }.

Section Login.
(** [strings.ToLower]. *)
Variable ToLower : string → string.

Definition accountKey (email : string) : string := ToLower (trim_space email).

(** An empty client has no limit per address; [||] does not look at the
    account when the client is refused. *)
Definition LoginBlocked (now : time) (client email : string) (l : option LoginLimits) : bool * option LoginLimits :=
  match l with
  | None => (false, None)
  | Some l =>
      let '(b, pc) := if String.eqb client "" then (false, PerClient l) else Blocked now client (PerClient l) in
      if b then (true, Some (mkLimits pc (PerAccount l)))
      else
        let '(b, pa) := Blocked now (accountKey email) (PerAccount l) in
        (b, Some (mkLimits pc pa))
  end.

Definition LoginFail (now : time) (client email : string) (l : option LoginLimits) : option LoginLimits :=
  match l with
  | None => None
  | Some l =>
      Some (mkLimits (if String.eqb client "" then PerClient l else Fail_ now client (PerClient l))
              (Fail_ now (accountKey email) (PerAccount l)))
  end.

Definition LoginSucceed (email : string) (l : option LoginLimits) : option LoginLimits :=
  match l with
  | None => None
  | Some l => Some (mkLimits (PerClient l) (Reset_ (accountKey email) (PerAccount l)))
  end.
End Login.

(** ** The address a request comes from *)

Section Clients.
Context {Addr Prefix : Type}.
Variables (ParseAddr : string → option Addr) (ParsePrefix : string → option Prefix).
Variables (Unmap : Addr → Addr) (BitLen : Addr → Z) (PrefixFrom : Addr → Z → Prefix).
Variables (Masked : Prefix → Prefix) (Contains : Prefix → Addr → bool).
(** [net.SplitHostPort], without the port. *)
Variable SplitHostPort : string → option string.

Record ClientAddrs := mkClients { Direct : bool; TrustedProxies : list Prefix }.

(** [None]: an item is neither an address nor a range. *)
Fixpoint parse_items (items : list string) (c : ClientAddrs) : option ClientAddrs :=
  match items with
  | [] => Some c
  | item :: items =>
      let item := trim_space item in
      if String.eqb item "" then parse_items items c
      else
        let prefix :=
          match ParsePrefix item with
          | Some p => Some p
          | None =>
              match ParseAddr item with
              | Some a => Some (PrefixFrom (Unmap a) (BitLen (Unmap a)))
              | None => None
              end
          end in
        match prefix with
        | None => None
        | Some p => parse_items items (mkClients (Direct c) (TrustedProxies c ++ [Masked p]))
        end
  end.

Definition ParseClientAddrs (spec : string) : option ClientAddrs :=
  let spec := trim_space spec in
  if String.eqb spec "" then Some (mkClients false [])
  else if String.eqb spec "none" then Some (mkClients true [])
  else parse_items (split_byte "," spec) (mkClients false []).

Definition Known (c : ClientAddrs) : bool :=
  Direct c || (0 <? Z.of_nat (length (TrustedProxies c))).

Definition trusted (c : ClientAddrs) (addr : string) : bool :=
  match ParseAddr addr with
  | None => false
  | Some a => existsb (λ p, Contains p (Unmap a)) (TrustedProxies c)
  end.

(** A request: its peer, its X-Forwarded-For headers in order. *)
Record Request := mkRequest { RemoteAddr : string; Forwarded : list string }.

Definition peerAddr (r : Request) : string :=
  match SplitHostPort (RemoteAddr r) with Some host => host | None => RemoteAddr r end.

Definition hops (r : Request) : list string := concat (split_byte "," <$> Forwarded r).

(** The loop of [Of], from the last hop to the first. *)
Fixpoint last_hop (c : ClientAddrs) (rev_hops : list string) : string :=
  match rev_hops with
  | [] => ""
  | h :: l =>
      let hop := trim_space h in
      if negb (String.eqb hop "") && negb (trusted c hop) then hop else last_hop c l
  end.

Definition Of (c : ClientAddrs) (r : Request) : string :=
  let peer := peerAddr r in
  if negb (trusted c peer) then peer else last_hop c (rev (hops r)).

(** The default limits: per address only when the addresses are known. *)
Definition DefaultLoginLimits (c : ClientAddrs) : LoginLimits :=
  mkLimits (if Known c then Some (NewThrottle 20 (15 * minute)) else None)
    (Some (NewThrottle 10 (15 * minute))).

Lemma last_hop_app c l l' :
  last_hop c (l ++ l') = if String.eqb (last_hop c l) "" then last_hop c l' else last_hop c l.
Proof.
  induction l as [|h l IH]; cbn [last_hop app]; [done|].
  destruct (String.eqb_spec (trim_space h) ""); cbn [negb andb]; [done|].
  destruct (trusted c _); cbn [negb]; [done|]. by destruct (String.eqb_spec (trim_space h) "").
Qed.

Lemma last_hop_untrusted c l : last_hop c l ≠ "" → trusted c (last_hop c l) = false.
Proof.
  induction l as [|h l IH]; cbn [last_hop]; [done|].
  destruct (String.eqb_spec (trim_space h) ""); cbn [negb andb]; [apply IH|].
  destruct (trusted c (trim_space h)) eqn:E; cbn [negb]; [apply IH|done].
Qed.

(** Text written in front of a header only adds hops in front of its own. *)
Lemma hops_prepend peer front first rest :
  hops (mkRequest peer (front ++ first :: rest)) = concat (split_byte "," <$> front) ++ hops (mkRequest peer (first :: rest)).
Proof. unfold hops. cbn. by rewrite fmap_app, concat_app. Qed.

Lemma hops_forge peer forged first rest :
  hops (mkRequest peer ((forged +:+ String "," first) :: rest)) =
  split_byte "," forged ++ hops (mkRequest peer (first :: rest)).
Proof. unfold hops. cbn. by rewrite split_byte_app, app_assoc. Qed.
End Clients.

(** ** What a throttle counts

    [spec] is what it promises for one key, from the operations on that key
    alone: a window opens at the first failure and closes [Window] later, the
    count with it. The map, the windows dropped on the way and the sweep of the
    other keys are the implementation's. *)

Inductive op := OpFail (key : string) | OpReset (key : string) | OpBlocked (key : string).

Definition exec (h : time * op) (t : option Throttle) : option Throttle :=
  match h with
  | (now, OpFail key) => Fail_ now key t
  | (now, OpReset key) => Reset_ key t
  | (now, OpBlocked key) => snd (Blocked now key t)
  end.

Definition execs (hist : list (time * op)) (t : option Throttle) : option Throttle :=
  fold_left (λ t h, exec h t) hist t.

Definition open_window (now window : Z) (st : option failureCount) : option failureCount :=
  match st with Some f => if over now window f then None else Some f | None => None end.

Definition spec_step (window : Z) (key : string) (h : time * op) (st : option failureCount) : option failureCount :=
  match h with
  | (now, OpFail k) =>
      if String.eqb k key then
        match open_window now window st with
        | Some f => Some (mkCount (n f + 1) (since f))
        | None => Some (mkCount 1 now)
        end
      else st
  | (_, OpReset k) => if String.eqb k key then None else st
  | (_, OpBlocked _) => st
  end.

Definition spec (window : Z) (key : string) (hist : list (time * op)) : option failureCount :=
  fold_left (λ st h, spec_step window key h st) hist None.

Lemma over_mono now now' w f : now ≤ now' → over now w f = true → over now' w f = true.
Proof. unfold over, time_sub. rewrite !Z.leb_le. lia. Qed.

(** The times of a history go forward from [t0]. *)
Fixpoint forward (t0 : time) (hist : list (time * op)) : Prop :=
  match hist with
  | [] => True
  | h :: hist => t0 ≤ fst h ∧ forward (fst h) hist
  end.

(** From [now] on, the map and the specification see the same open window. *)
Definition agrees (now window : Z) (key : string) (m : gmap string failureCount) (st : option failureCount) : Prop :=
  ∀ t, now ≤ t → open_window t window (m !! key) = open_window t window st.

Lemma current_spec now key t :
  fst (current now key t) = open_window now (Window t) (failures t !! key) ∧
  Limit (snd (current now key t)) = Limit t ∧ Window (snd (current now key t)) = Window t ∧
  ∀ k, failures (snd (current now key t)) !! k =
    if decide (k = key) then open_window now (Window t) (failures t !! key) else failures t !! k.
Proof.
  unfold current. destruct (failures t !! key) as [f|] eqn:E; cbn [open_window].
  - destruct (over now (Window t) f); cbn; split_and!; try done; intros k; destruct (decide (k = key)) as [->|Hne].
    + by rewrite lookup_delete_eq.
    + by rewrite lookup_delete_ne.
    + done.
    + done.
  - cbn. split_and!; try done. intros k. by destruct (decide (k = key)) as [->|].
Qed.

Lemma sweep_lookup now t k : failures (sweep now t) !! k = open_window now (Window t) (failures t !! k).
Proof.
  unfold sweep. cbn. destruct (failures t !! k) as [f|] eqn:E; cbn [open_window].
  - destruct (over now (Window t) f) eqn:Ho.
    + apply map_lookup_filter_None. right. intros f' Hf'. cbn. rewrite E in Hf'. injection Hf' as <-. by rewrite Ho.
    + apply map_lookup_filter_Some. done.
  - apply map_lookup_filter_None. by left.
Qed.

(** Closing windows early shows to nobody. *)
Lemma open_window_again now t w st :
  now ≤ t → open_window t w (open_window now w st) = open_window t w st.
Proof.
  intros Ht. destruct st as [f|]; cbn [open_window]; [|done].
  destruct (over now w f) eqn:E; cbn [open_window]; [|done]. by rewrite (over_mono _ _ _ _ Ht E).
Qed.

Lemma exec_agrees t0 h t key st :
  t0 ≤ fst h → agrees t0 (Window t) key (failures t) st →
  ∃ t', exec h (Some t) = Some t' ∧ Limit t' = Limit t ∧ Window t' = Window t ∧
    agrees (fst h) (Window t) key (failures t') (spec_step (Window t) key h st).
Proof.
  destruct h as [now o]. cbn [fst]. intros Hle Ha. destruct o as [k|k|k]; cbn [exec spec_step].
  - unfold Fail_.
    set (t1 := if maxTrackedKeys <=? Z.of_nat (size (failures t)) then sweep now t else t).
    assert (Limit t1 = Limit t ∧ Window t1 = Window t) as [HL HW] by (subst t1; by case_match).
    assert (Ha1 : agrees now (Window t) key (failures t1) st).
    { intros u Hu. subst t1. case_match; [|apply Ha; lia].
      rewrite sweep_lookup, open_window_again by done. apply Ha. lia. }
    clearbody t1. destruct (current_spec now k t1) as (Hf & HL2 & HW2 & Hlk).
    destruct (current now k t1) as [f t2]. cbn [fst snd] in *. eexists. split; [done|]. cbn.
    split_and!; [congruence|congruence|]. intros u Hu.
    destruct (String.eqb_spec k key) as [->|Hne].
    + rewrite lookup_insert_eq. specialize (Ha1 now ltac:(lia)). rewrite <- Ha1. rewrite HW in Hf.
      rewrite <- Hf. by destruct f.
    + rewrite lookup_insert_ne by done. rewrite Hlk. destruct (decide (key = k)); [congruence|]. by apply Ha1.
  - eexists. split; [done|]. cbn. split_and!; [done..|]. intros u Hu.
    destruct (String.eqb_spec k key) as [->|Hne].
    + by rewrite lookup_delete_eq.
    + rewrite lookup_delete_ne by done. apply Ha. lia.
  - cbn [Blocked]. destruct (current_spec now k t) as (_ & HL2 & HW2 & Hlk).
    destruct (current now k t) as [f t2]. cbn [fst snd] in *. exists t2. split_and!; [done..|].
    intros u Hu. rewrite Hlk. destruct (decide (key = k)) as [->|]; [|apply Ha; lia].
    rewrite open_window_again by done. apply Ha. lia.
Qed.

Lemma execs_agrees t0 hist t key st :
  forward t0 hist → agrees t0 (Window t) key (failures t) st →
  ∃ t', execs hist (Some t) = Some t' ∧ Limit t' = Limit t ∧ Window t' = Window t ∧
    agrees (fold_left (λ _ h, fst h) hist t0) (Window t) key (failures t')
      (fold_left (λ st h, spec_step (Window t) key h st) hist st).
Proof.
  revert t0 t st. induction hist as [|h hist IH]; intros t0 t st Hf Ha; cbn [fold_left].
  - by exists t.
  - destruct Hf as [Hle Hf]. destruct (exec_agrees t0 h t key st Hle Ha) as (t1 & He & HL & HW & Ha1).
    unfold execs. cbn [fold_left]. rewrite He. rewrite <- HW in Ha1 |- *.
    destruct (IH (fst h) t1 _ Hf Ha1) as (t2 & He2 & HL2 & HW2 & Ha2). exists t2. rewrite <- HL. done.
Qed.

(** ** How many guesses pass *)

(** The failures of a key between [s] and [s + w], excluded. *)
Definition fails_in (key : string) (s e : time) (hist : list (time * op)) : Z :=
  Z.of_nat (length (List.filter (λ h,
    match snd h with OpFail k => String.eqb k key | _ => false end && (s <=? fst h) && (fst h <? e)) hist)).

Lemma fails_in_snoc key s e hist h :
  fails_in key s e (hist ++ [h]) =
  fails_in key s e hist +
  (if match snd h with OpFail k => String.eqb k key | _ => false end && (s <=? fst h) && (fst h <? e) then 1 else 0).
Proof.
  unfold fails_in. rewrite List.filter_app, length_app. cbn [List.filter]. case_match; cbn; lia.
Qed.

Definition within (key : string) (h : time * op) (s e : time) : bool :=
  match snd h with OpFail k => String.eqb k key | _ => false end && (s <=? fst h) && (fst h <? e).

Lemma fails_in_split key s m e hist :
  s ≤ m ≤ e → fails_in key s e hist = fails_in key s m hist + fails_in key m e hist.
Proof.
  intros Hm. induction hist as [|h hist IH] using rev_ind; [done|].
  rewrite !fails_in_snoc, IH. destruct (match snd h with OpFail k => _ | _ => _ end); cbn [andb]; [|lia].
  destruct (Z.leb_spec s (fst h)), (Z.ltb_spec (fst h) e), (Z.leb_spec m (fst h)), (Z.ltb_spec (fst h) m); cbn; lia.
Qed.

Lemma fails_in_nonneg key s e hist : 0 ≤ fails_in key s e hist.
Proof. unfold fails_in. lia. Qed.

Lemma fails_in_le key s s' e e' hist :
  s' ≤ s → e ≤ e' → fails_in key s e hist ≤ fails_in key s' e' hist.
Proof.
  intros Hs He. induction hist as [|h hist IH] using rev_ind; [done|]. rewrite !fails_in_snoc.
  destruct (match snd h with OpFail k => _ | _ => _ end); cbn [andb]; [|lia].
  destruct (Z.leb_spec s (fst h)), (Z.ltb_spec (fst h) e), (Z.leb_spec s' (fst h)), (Z.ltb_spec (fst h) e'); cbn; lia.
Qed.

(** Every failure of the key came when it was not blocked. *)
Definition guarded (limit window : Z) (key : string) (hist : list (time * op)) : Prop :=
  ∀ h1 now h2, hist = h1 ++ (now, OpFail key) :: h2 →
    fst (Blocked now key (execs h1 (Some (NewThrottle limit window)))) = false.

Lemma spec_snoc window key hist h : spec window key (hist ++ [h]) = spec_step window key h (spec window key hist).
Proof. unfold spec. by rewrite fold_left_app. Qed.

Lemma forward_snoc t0 hist h :
  forward t0 (hist ++ [h]) ↔ forward t0 hist ∧ fold_left (λ _ h, fst h) hist t0 ≤ fst h.
Proof.
  revert t0. induction hist as [|x hist IH]; intros t0; cbn; [tauto|]. rewrite IH. tauto.
Qed.

Lemma blocked_spec limit window key hist now :
  forward 0 hist → fold_left (λ _ h, fst h) hist 0 ≤ now →
  ∃ t, execs hist (Some (NewThrottle limit window)) = Some t ∧
    fst (Blocked now key (Some t)) =
    match open_window now window (spec window key hist) with Some f => limit <=? n f | None => false end.
Proof.
  intros Hf Hnow.
  destruct (execs_agrees 0 hist (NewThrottle limit window) key None Hf) as (t & He & HL & HW & Ha).
  { intros u _. cbn. by rewrite lookup_empty. }
  exists t. split; [done|]. cbn [Blocked]. destruct (current_spec now key t) as (Hc & HL2 & _ & _).
  destruct (current now key t) as [f t2]. cbn [fst snd] in *. subst f.
  rewrite HL2, HL, HW. cbn in Ha. cbn. unfold spec. by rewrite (Ha now Hnow).
Qed.

(** The windows of a guarded history: the failures of the open one, those of
    the one before, and the bound on any stretch of time. *)
Definition bounded (limit window : Z) (key : string) (hist : list (time * op)) : Prop :=
  (∀ s, fails_in key s (s + window) hist ≤ 2 * limit) ∧
  match spec window key hist with
  | None => ∀ s e, fails_in key s e hist = 0
  | Some f =>
      since f ≤ fold_left (λ _ h, fst h) hist 0 ∧ n f ≤ limit ∧
      (∀ e, fails_in key (since f) e hist ≤ n f) ∧
      (∀ e, fails_in key (since f + window) e hist = 0) ∧
      fails_in key (since f - window) (since f) hist ≤ limit
  end.

Lemma last_time_snoc (hist : list (time * op)) h t0 : fold_left (λ _ h, fst h) (hist ++ [h]) t0 = fst h.
Proof. by rewrite fold_left_app. Qed.

Lemma bounded_other limit window key hist h :
  0 < limit → forward 0 (hist ++ [h]) → bounded limit window key hist →
  spec_step window key h (spec window key hist) = spec window key hist →
  (∀ s e, within key h s e = false) → bounded limit window key (hist ++ [h]).
Proof.
  intros HL Hf [Hb Hm] Hs Hw.
  assert (Heq : ∀ s e, fails_in key s e (hist ++ [h]) = fails_in key s e hist).
  { intros s e. rewrite fails_in_snoc. specialize (Hw s e). unfold within in Hw. rewrite Hw. lia. }
  apply forward_snoc in Hf as [_ Hle]. split; [intros s; rewrite Heq; apply Hb|].
  rewrite spec_snoc, Hs, last_time_snoc. destruct (spec window key hist) as [f|].
  - destruct Hm as (? & ? & H1 & H2 & ?). split_and!; [lia|done| | |by rewrite Heq]; intros e; rewrite Heq; auto.
  - intros s e. by rewrite Heq.
Qed.

Lemma bounded_fail limit window key hist now :
  0 < limit → 0 < window ≤ int64_max → forward 0 (hist ++ [(now, OpFail key)]) → bounded limit window key hist →
  match open_window now window (spec window key hist) with Some f => limit <=? n f | None => false end = false →
  bounded limit window key (hist ++ [(now, OpFail key)]).
Proof.
  intros HL HW Hf [Hb Hm] Hg. apply forward_snoc in Hf as [_ Hle]. cbn [fst] in Hle.
  assert (Heq : ∀ s e, fails_in key s e (hist ++ [(now, OpFail key)]) =
            fails_in key s e hist + (if (s <=? now) && (now <? e) then 1 else 0)).
  { intros s e. rewrite fails_in_snoc. cbn [fst snd]. by rewrite String.eqb_refl. }
  unfold bounded. rewrite spec_snoc, last_time_snoc. cbn [spec_step fst]. rewrite String.eqb_refl.
  destruct (spec window key hist) as [f|]; cbn [open_window] in *.
  - destruct Hm as (Hs & Hn & H2 & H5 & H3). destruct (over now window f) eqn:Ho; unfold over in Ho; cbn [n since].
    + apply Z.leb_le in Ho. rewrite time_sub_ge in Ho by (unfold int64_min; lia).
      assert (H0 : ∀ e, fails_in key now e hist = 0).
      { intros e. pose proof (fails_in_nonneg key now e hist).
        pose proof (fails_in_le key now (since f + window) e e hist ltac:(lia) ltac:(lia)). rewrite H5 in *. lia. }
      split_and!.
      * intros s. rewrite Heq. specialize (Hb s).
        destruct (Z.leb_spec s now), (Z.ltb_spec now (s + window)); cbn [andb]; try lia.
        pose proof (fails_in_le key s (since f) (s + window) (s + window) hist ltac:(lia) ltac:(lia)).
        specialize (H2 (s + window)). lia.
      * lia.
      * lia.
      * intros e. rewrite Heq, H0. case_match; lia.
      * intros e. rewrite Heq. destruct (Z.leb_spec (now + window) now); [lia|]. cbn [andb].
        pose proof (fails_in_nonneg key (now + window) e hist).
        pose proof (fails_in_le key (now + window) (since f + window) e e hist ltac:(lia) ltac:(lia)).
        rewrite H5 in *. lia.
      * rewrite Heq, Z.ltb_irrefl, andb_false_r.
        pose proof (fails_in_le key (now - window) (since f) now now hist ltac:(lia) ltac:(lia)).
        specialize (H2 now). lia.
    + apply Z.leb_gt in Ho. rewrite time_sub_lt in Ho by (unfold int64_min; lia). bool_to_prop. split_and!.
      * intros s. rewrite Heq. specialize (Hb s).
        destruct (Z.leb_spec s now), (Z.ltb_spec now (s + window)); cbn [andb]; try lia.
        destruct (Z.le_gt_cases (since f) s).
        -- pose proof (fails_in_le key s (since f) (s + window) (s + window) hist ltac:(lia) ltac:(lia)).
           specialize (H2 (s + window)). lia.
        -- rewrite (fails_in_split key s (since f)) by lia.
           pose proof (fails_in_le key s (since f - window) (since f) (since f) hist ltac:(lia) ltac:(lia)).
           specialize (H2 (s + window)). lia.
      * lia.
      * lia.
      * intros e. rewrite Heq. specialize (H2 e). case_match; lia.
      * intros e. rewrite Heq, H5. destruct (Z.leb_spec (since f + window) now); [lia|done].
      * rewrite Heq. destruct (Z.ltb_spec now (since f)); [lia|]. rewrite andb_false_r. lia.
  - cbn [n since]. assert (H0 : ∀ s e, fails_in key s e (hist ++ [(now, OpFail key)]) =
       (if (s <=? now) && (now <? e) then 1 else 0)) by (intros; rewrite Heq, Hm; lia).
    split_and!; intros; rewrite ?H0; try lia.
    + case_match; lia.
    + case_match; lia.
    + destruct (Z.leb_spec (now + window) now); [lia|done].
    + rewrite Z.ltb_irrefl, andb_false_r. lia.
Qed.

Lemma guarded_bounded limit window key hist :
  0 < limit → 0 < window ≤ int64_max → forward 0 hist → guarded limit window key hist →
  (∀ now, (now, OpReset key) ∉ hist) → bounded limit window key hist.
Proof.
  intros HL HW. induction hist as [|h hist IH] using rev_ind; intros Hf Hg Hr.
  - split; [intros s; unfold fails_in; cbn; lia|]. done.
  - assert (Hb : bounded limit window key hist).
    { apply IH; [by apply forward_snoc in Hf as [? _]| |].
      - intros h1 now h2 ->. apply (Hg h1 now (h2 ++ [h])). by rewrite <- app_assoc.
      - intros now Hin. apply (Hr now). set_solver. }
    destruct h as [now [k|k|k]].
    + destruct (String.eqb_spec k key) as [->|Hne].
      * apply bounded_fail; try done. specialize (Hg hist now [] eq_refl).
        apply forward_snoc in Hf as [Hf Hle].
        destruct (blocked_spec limit window key hist now Hf Hle) as (t & He & Hbl). rewrite He in Hg. congruence.
      * apply bounded_other; try done; cbn; intros; unfold within; cbn;
          (destruct (String.eqb_spec k key); [congruence|done]).
    + apply bounded_other; try done. cbn. destruct (String.eqb_spec k key) as [->|]; [|done].
      exfalso. apply (Hr now). set_solver.
    + by apply bounded_other.
Qed.

(** ** Properties *)

(** Whatever happened to the other keys and whatever was swept, [Blocked]
    answers for a key what its own history says: it has used up its failures
    of the window its first one opened, while that window lasts. *)
Theorem throttle_exact limit window key hist now :
  forward 0 hist → fold_left (λ _ h, fst h) hist 0 ≤ now →
  fst (Blocked now key (execs hist (Some (NewThrottle limit window)))) =
  match open_window now window (spec window key hist) with Some f => limit <=? n f | None => false end.
Proof.
  intros Hf Hn. destruct (blocked_spec limit window key hist now Hf Hn) as (t & He & Hb). by rewrite He.
Qed.

(** A key that fails only when it is not blocked fails at most twice the
    limit in any stretch of one window, whatever the other keys do. *)
Theorem guesses_bounded limit window key hist s :
  0 < limit → 0 < window ≤ int64_max → forward 0 hist → guarded limit window key hist →
  (∀ now, (now, OpReset key) ∉ hist) →
  fails_in key s (s + window) hist ≤ 2 * limit.
Proof. intros HL HW Hf Hg Hr. by destruct (guarded_bounded limit window key hist HL HW Hf Hg Hr). Qed.

(** A client cannot choose the address it is counted under: behind a
    trusted proxy that names one, headers it sends first, and what it writes in
    front of the proxy's own, do not change the address; and the address found
    is never a trusted proxy's. *)
Theorem client_cannot_forge {Addr Prefix : Type} (ParseAddr : string → option Addr) (Unmap : Addr → Addr)
    (Contains : Prefix → Addr → bool) (SplitHostPort : string → option string)
    (c : @ClientAddrs Prefix) peer front forged first rest :
  let address r := Of ParseAddr Unmap Contains SplitHostPort c r in
  address (mkRequest peer (first :: rest)) ≠ "" →
  address (mkRequest peer (front ++ first :: rest)) = address (mkRequest peer (first :: rest)) ∧
  address (mkRequest peer ((forged +:+ String "," first) :: rest)) = address (mkRequest peer (first :: rest)) ∧
  trusted ParseAddr Unmap Contains c (address (mkRequest peer (first :: rest))) = false.
Proof.
  cbv zeta. unfold Of. cbn [RemoteAddr peerAddr].
  change (peerAddr SplitHostPort (mkRequest peer (front ++ first :: rest))) with (peerAddr SplitHostPort (mkRequest peer (first :: rest))).
  change (peerAddr SplitHostPort (mkRequest peer ((forged +:+ String "," first) :: rest))) with (peerAddr SplitHostPort (mkRequest peer (first :: rest))).
  destruct (trusted ParseAddr Unmap Contains c (peerAddr SplitHostPort (mkRequest peer (first :: rest)))) eqn:Ep; cbn [negb]; [|done].
  intros Hne. rewrite hops_prepend, hops_forge, !rev_app_distr, !last_hop_app.
  apply String.eqb_neq in Hne as Hne'. rewrite Hne'. split_and!; [done|done|]. by apply last_hop_untrusted.
Qed.

(** ** Witnesses *)

Definition login_history : list (time * op) :=
  [(1, OpFail "a"); (2, OpBlocked "b"); (3, OpFail "a"); (4, OpFail "b"); (5 * minute, OpFail "b")].

Lemma throttle_exact_witness :
  fst (Blocked 10 "a" (execs (take 4 login_history) (Some (NewThrottle 2 minute)))) = true ∧
  fst (Blocked (6 * minute) "a" (execs login_history (Some (NewThrottle 2 minute)))) = false.
Proof.
  split.
  - refine (eq_trans (throttle_exact 2 minute "a" (take 4 login_history) 10 _ _) _);
      [vm_compute; repeat split; discriminate|vm_compute; discriminate|vm_compute; reflexivity].
  - refine (eq_trans (throttle_exact 2 minute "a" login_history (6 * minute) _ _) _).
    + vm_compute. repeat split; discriminate.
    + vm_compute. discriminate.
    + vm_compute. reflexivity.
Defined.

Lemma guesses_bounded_witness : fails_in "a" 0 (0 + minute) (take 4 login_history) ≤ 2 * 2.
Proof.
  refine (guesses_bounded 2 minute "a" (take 4 login_history) 0 _ _ _ _ _).
  - reflexivity.
  - vm_compute. split; [reflexivity|discriminate].
  - vm_compute. repeat split; discriminate.
  - intros h1 now h2 Hh. cbn in Hh.
    do 4 (destruct h1 as [|? h1]; cbn in Hh; [first [discriminate Hh|injection Hh as <- <-; vm_compute; reflexivity]
                                  |injection Hh as <- Hh]).
    by destruct h1.
  - intros now Hin. vm_compute in Hin. repeat (apply elem_of_cons in Hin as [Hin|Hin]; [discriminate Hin|]).
    by apply not_elem_of_nil in Hin.
Defined.

(** Addresses as strings, a range as a list of them. *)
Lemma client_cannot_forge_witness :
  let client := mkRequest "10.0.0.1:80" ["1.2.3.4, 10.0.0.2"] in
  let forged := mkRequest "10.0.0.1:80" ["9.9.9.9,1.2.3.4, 10.0.0.2"] in
  let of_request := Of (λ a, Some a) (λ a, a) contains (λ s, Some (fst (fst (cut_byte ":" s))))
                      (mkClients false [["10.0.0.1"; "10.0.0.2"]]) in
  of_request client = "1.2.3.4" ∧ of_request forged = "1.2.3.4".
Proof.
  cbv zeta. split; [vm_compute; reflexivity|].
  refine (eq_trans (proj1 (proj2 (client_cannot_forge (λ a : string, Some a) (λ a, a) contains
    (λ s, Some (fst (fst (cut_byte ":" s)))) (mkClients false [["10.0.0.1"; "10.0.0.2"]]) "10.0.0.1:80"
    [] "9.9.9.9" "1.2.3.4, 10.0.0.2" [] _))) _); vm_compute; [discriminate|reflexivity].
Defined.
