(* ===== verification/Order.v ===== *)
(** * The order a conversation is read in (src/conversation/order.go)

    [Order] puts each turn, whole, right after the message it answers. *)

From S2P Require Import Prelude GoStr Keys Message.
Open Scope string_scope.
Open Scope Z_scope.
Open Scope list_scope.

Record block := mkBlock { anchor : Z; first : Z; msgs : list MessageWithID }.

(** [cmp.Compare(a.ID, b.ID) <= 0]. *)
Definition byID (a b : MessageWithID) : bool := MsgID a <=? MsgID b.

Definition byAnchor (a b : block) : bool :=
  (anchor a <? anchor b) || ((anchor a =? anchor b) && (first a <=? first b)).

(** [byTurn] and [blocks] in one list: the blocks in the order they were met,
    each under its turn. *)
Fixpoint add_to (turn : string) (m : MessageWithID) (blocks : list (string * block)) : list (string * block) :=
  match blocks with
  | [] =>
      let a := match TurnAnchor turn with Some a => a | None => 0 end in
      [(turn, mkBlock a (Z.min (MsgID m) (MsgID m)) [m])]
  | (t, b) :: blocks =>
      if String.eqb t turn then (t, mkBlock (anchor b) (Z.min (first b) (MsgID m)) (msgs b ++ [m])) :: blocks
      else (t, b) :: add_to turn m blocks
  end.

Definition gather_one (acc : list (string * block) * list MessageWithID) (m : MessageWithID) :
    list (string * block) * list MessageWithID :=
  let '(blocks, plain) := acc in
  match TurnOf (Key m) with
  | None => (blocks, plain ++ [m])
  | Some turn => (add_to turn m blocks, plain)
  end.

Definition sortedBlock (ms : list MessageWithID) : list MessageWithID := sort_stable byID ms.

(** The loop that writes the blocks anchored before a message: what it writes,
    and the blocks left. *)
Fixpoint flush (upTo : Z) (blocks : list block) : list MessageWithID * list block :=
  match blocks with
  | b :: l =>
      if anchor b <? upTo then let '(out, rest) := flush upTo l in (sortedBlock (msgs b) ++ out, rest)
      else ([], blocks)
  | [] => ([], [])
  end.

Fixpoint place (plain : list MessageWithID) (blocks : list block) : list MessageWithID :=
  match plain with
  | [] => concat ((λ b, sortedBlock (msgs b)) <$> blocks)
  | p :: plain => let '(out, rest) := flush (MsgID p) blocks in out ++ p :: place plain rest
  end.

Definition Order (messages : list MessageWithID) : list MessageWithID :=
  let '(blocks, plain) := fold_left gather_one messages ([], []) in
  place (sort_stable byID plain) (sort_stable byAnchor (snd <$> blocks)).

(** ** What is gathered *)

Definition of_turn (turn : string) (m : MessageWithID) : bool :=
  match TurnOf (Key m) with Some t => String.eqb t turn | None => false end.

Definition is_plain (m : MessageWithID) : bool := match TurnOf (Key m) with Some _ => false | None => true end.

Definition anchor_of (turn : string) : Z := match TurnAnchor turn with Some a => a | None => 0 end.

(** The blocks gathered from [ms]: one per turn, holding its messages. *)
Record gathered (ms : list MessageWithID) (blocks : list (string * block)) : Prop := {
  g_nodup : NoDup (fst <$> blocks);
  g_block : ∀ t b, (t, b) ∈ blocks → anchor b = anchor_of t ∧ msgs b = List.filter (of_turn t) ms;
  g_some : ∀ m t, m ∈ ms → TurnOf (Key m) = Some t → t ∈ (fst <$> blocks)
}.

Lemma add_to_keys turn m blocks :
  fst <$> add_to turn m blocks = (fst <$> blocks) ++ (if contains (fst <$> blocks) turn then [] else [turn]).
Proof.
  induction blocks as [|[t b] blocks IH]; [done|]. cbn [add_to]. rewrite fmap_cons. cbn [fst].
  change (contains (t :: (fst <$> blocks)) turn) with (String.eqb turn t || contains (fst <$> blocks) turn).
  rewrite (String.eqb_sym turn t).
  destruct (String.eqb t turn); cbn [orb]; rewrite fmap_cons; cbn [fst]; [by rewrite app_nil_r|].
  by rewrite IH.
Qed.

Lemma add_to_elem turn m blocks t b :
  NoDup (fst <$> blocks) → (t, b) ∈ add_to turn m blocks →
  (t ≠ turn ∧ (t, b) ∈ blocks) ∨
  (t = turn ∧ ∃ b0, (turn, b0) ∈ blocks ∧ anchor b = anchor b0 ∧ msgs b = msgs b0 ++ [m]) ∨
  (t = turn ∧ (turn ∉ (fst <$> blocks)) ∧ anchor b = anchor_of turn ∧ msgs b = [m]).
Proof.
  induction blocks as [|[t0 b0] blocks IH]; cbn [add_to]; rewrite ?fmap_cons; cbn [fst].
  - intros _ [= -> ->]%list_elem_of_singleton. right; right. split_and!; try done. set_solver.
  - intros [Hni Hnd]%NoDup_cons. destruct (String.eqb_spec t0 turn) as [->|Hne].
    + intros [[= -> ->]|Hin]%elem_of_cons.
      * right; left. split; [done|]. exists b0. split_and!; try done. set_solver.
      * left. split; [|set_solver]. intros ->. apply Hni. by apply (list_elem_of_fmap_2 fst) in Hin.
    + intros [[= -> ->]|Hin]%elem_of_cons; [left; set_solver|].
      destruct (IH Hnd Hin) as [[? ?]|[(? & b1 & ? & ?)|(? & ? & ?)]].
      * left. set_solver.
      * right; left. split; [done|]. exists b1. set_solver.
      * right; right. split_and!; try done; [set_solver|naive_solver|naive_solver].
Qed.

Lemma filter_none {A} (f : A → bool) l : (∀ x, x ∈ l → f x = false) → List.filter f l = [].
Proof. intros H. apply filter_existsb_nil, Forall_forall, H. Qed.

Lemma gather_spec ms :
  let '(blocks, plain) := fold_left gather_one ms ([], []) in
  gathered ms blocks ∧ plain = List.filter is_plain ms ∧ plain ++ concat ((λ tb, msgs tb.2) <$> blocks) ≡ₚ ms.
Proof.
  induction ms as [|m ms IH] using rev_ind.
  - cbn. split_and!; [|done|done]. split; [constructor|set_solver|set_solver].
  - rewrite fold_left_app. cbn [fold_left]. destruct (fold_left gather_one ms ([], [])) as [blocks plain].
    destruct IH as ([Hnd Hb Hs] & Hp & Hperm). unfold gather_one. rewrite List.filter_app. cbn [List.filter].
    assert (Hplain : is_plain m = match TurnOf (Key m) with Some _ => false | None => true end) by done.
    rewrite Hplain. destruct (TurnOf (Key m)) as [turn|] eqn:Et.
    + rewrite app_nil_r. split_and!; [|done|].
      * split.
        -- rewrite add_to_keys. destruct (contains _ turn) eqn:Ec; [by rewrite app_nil_r|].
           apply contains_false in Ec. apply NoDup_app. split_and!; [done|set_solver|apply NoDup_singleton].
        -- intros t b Hin. rewrite List.filter_app. cbn [List.filter].
           assert (Hot : of_turn t m = String.eqb turn t) by (unfold of_turn; by rewrite Et). rewrite Hot.
           destruct (add_to_elem _ _ _ _ _ Hnd Hin) as [[Hne Hin0]|[(-> & b0 & Hin0 & -> & ->)|(-> & Hni & -> & ->)]].
           ++ destruct (String.eqb_spec turn t); [congruence|]. rewrite app_nil_r. by apply Hb.
           ++ rewrite String.eqb_refl. destruct (Hb _ _ Hin0) as [-> ->]. done.
           ++ rewrite String.eqb_refl. split; [done|]. rewrite filter_none; [done|].
              intros x Hx. unfold of_turn. destruct (TurnOf (Key x)) as [tx|] eqn:Ex; [|done].
              apply String.eqb_neq. intros ->. apply Hni. by eapply Hs.
        -- intros x t Hx Htx. rewrite add_to_keys. apply elem_of_app in Hx as [Hx|Hx%list_elem_of_singleton].
           ++ apply elem_of_app. left. by eapply Hs.
           ++ subst x. rewrite Et in Htx. injection Htx as ->. apply elem_of_app.
              destruct (contains (fst <$> blocks) t) eqn:Ec; [left; by apply contains_spec|right; set_solver].
      * assert (concat ((λ tb, msgs tb.2) <$> add_to turn m blocks) ≡ₚ m :: concat ((λ tb, msgs tb.2) <$> blocks)) as ->.
        { clear. induction blocks as [|[t b] blocks IH]; [done|]. cbn [add_to].
          destruct (String.eqb t turn); rewrite !fmap_cons; cbn [snd msgs concat].
          - rewrite <- app_assoc. cbn. symmetry. apply Permutation_middle.
          - rewrite IH. symmetry. apply Permutation_middle. }
        rewrite <- Permutation_middle, Hperm. apply Permutation_cons_append.
    + split_and!.
      * split; [done| |].
        -- intros t b Hin. rewrite List.filter_app. cbn [List.filter].
           assert (of_turn t m = false) as -> by (unfold of_turn; by rewrite Et). rewrite app_nil_r. by apply Hb.
        -- intros x t Hx Htx. apply elem_of_app in Hx as [Hx|Hx%list_elem_of_singleton]; [by eapply Hs|].
           subst x. congruence.
      * by rewrite Hp.
      * rewrite <- app_assoc. cbn. rewrite <- Permutation_middle, Hperm. apply Permutation_cons_append.
Qed.

(** ** What is placed *)

Lemma flush_app upTo blocks :
  let '(out, rest) := flush upTo blocks in
  ∃ done_, blocks = done_ ++ rest ∧ out = concat ((λ b, sortedBlock (msgs b)) <$> done_) ∧
    Forall (λ b, anchor b < upTo) done_ ∧ (∀ b l, rest = b :: l → upTo ≤ anchor b).
Proof.
  induction blocks as [|b blocks IH]; cbn [flush].
  - exists []. split_and!; try done.
  - destruct (Z.ltb_spec (anchor b) upTo) as [Hlt|Hge].
    + destruct (flush upTo blocks) as [out rest]. destruct IH as (d & -> & -> & Hd & Hr).
      exists (b :: d). split_and!; try done. by constructor.
    + exists []. split_and!; try done. intros b' l [= -> ->]. done.
Qed.

Lemma place_perm plain blocks :
  place plain blocks ≡ₚ plain ++ concat (msgs <$> blocks).
Proof.
  revert blocks. induction plain as [|p plain IH]; intros blocks; cbn [place app].
  - induction blocks as [|b blocks IHb]; [done|]. rewrite !fmap_cons. cbn [concat]. rewrite IHb.
    by rewrite (sort_stable_perm byID (msgs b)).
  - pose proof (flush_app (MsgID p) blocks) as Hf. destruct (flush (MsgID p) blocks) as [out rest].
    destruct Hf as (d & -> & -> & _). rewrite <- Permutation_middle, IH. constructor.
    rewrite fmap_app, concat_app, !app_assoc. f_equiv. rewrite Permutation_app_comm. f_equiv.
    clear. induction d as [|b d IHd]; [done|]. rewrite !fmap_cons. cbn [concat]. rewrite IHd.
    by rewrite (sort_stable_perm byID (msgs b)).
Qed.

(** A block stays whole, sorted, between messages of other blocks and plain
    ones. *)
Lemma place_block plain blocks b :
  b ∈ blocks →
  ∃ l1 l2, place plain blocks = l1 ++ sortedBlock (msgs b) ++ l2.
Proof.
  revert blocks. induction plain as [|p plain IH]; intros blocks Hb; cbn [place].
  - apply list_elem_of_split in Hb as (x & y & ->). rewrite fmap_app, fmap_cons, concat_app. cbn [concat]. eauto.
  - pose proof (flush_app (MsgID p) blocks) as Hf. destruct (flush (MsgID p) blocks) as [out rest].
    destruct Hf as (d & -> & -> & _). apply elem_of_app in Hb as [Hb|Hb].
    + apply list_elem_of_split in Hb as (x & y & ->). rewrite fmap_app, fmap_cons, concat_app. cbn [concat].
      rewrite <- !app_assoc. eauto.
    + destruct (IH rest Hb) as (l1 & l2 & ->). eexists (_ ++ p :: l1), l2. by rewrite <- app_assoc.
Qed.

Definition anchor_le (a b : block) : Prop := anchor a ≤ anchor b.

(** With the messages by ID and the blocks by anchor, a block is right after
    its anchor. *)
Lemma place_before plain blocks p b m :
  StronglySorted (λ x y, byID x y = true) plain → StronglySorted anchor_le blocks →
  p ∈ plain → b ∈ blocks → m ∈ msgs b →
  (anchor b < MsgID p → before (place plain blocks) m p) ∧
  (MsgID p ≤ anchor b → before (place plain blocks) p m).
Proof.
  intros Hp. revert blocks. induction Hp as [|q plain Hs IH Hq]; intros blocks Hbs Hpin Hb Hm.
  { by apply not_elem_of_nil in Hpin. }
  cbn [place]. pose proof (flush_app (MsgID q) blocks) as Hf. destruct (flush (MsgID q) blocks) as [out rest].
  destruct Hf as (d & -> & -> & Hd & Hr).
  assert (Hrest : Forall (λ x, MsgID q ≤ anchor x) rest).
  { apply StronglySorted_app in Hbs as (_ & _ & Hrs). destruct rest as [|r rest]; [done|].
    specialize (Hr r rest eq_refl). apply StronglySorted_inv in Hrs as [_ Hrs]. constructor; [done|].
    eapply Forall_impl; [done|]. unfold anchor_le. intros x Hx. cbn in *. lia. }
  assert (Hqp : MsgID q ≤ MsgID p).
  { apply elem_of_cons in Hpin as [->|Hpin]; [done|]. rewrite Forall_forall in Hq. specialize (Hq p Hpin). by apply Z.leb_le. }
  assert (Hsort : ∀ b', b' ∈ d → ∀ x, x ∈ msgs b' → x ∈ concat ((λ b0, sortedBlock (msgs b0)) <$> d)).
  { intros b' Hb' x Hx. apply list_elem_of_In, in_concat. exists (sortedBlock (msgs b')). split.
    - apply list_elem_of_In, list_elem_of_fmap. eauto.
    - apply list_elem_of_In. unfold sortedBlock. by rewrite (sort_stable_perm byID (msgs b')). }
  assert (Hpl : ∀ x, x ∈ plain → x ∈ place plain rest).
  { intros x Hx. rewrite place_perm. apply elem_of_app. by left. }
  assert (Hbl : b ∈ rest → m ∈ place plain rest).
  { intros Hbr. destruct (place_block plain rest b Hbr) as (l1 & l2 & ->). apply elem_of_app; right.
    apply elem_of_app; left. unfold sortedBlock. by rewrite (sort_stable_perm byID (msgs b)). }
  apply elem_of_app in Hb as [Hb|Hb].
  - rewrite Forall_forall in Hd. specialize (Hd b Hb). split; [|lia]. intros _.
    apply before_app; [by eapply Hsort|]. apply elem_of_cons in Hpin as [->|Hpin]; [left|right; by apply Hpl].
  - rewrite Forall_forall in Hrest. specialize (Hrest b Hb).
    apply elem_of_cons in Hpin as [->|Hpin].
    + split; [lia|]. intros _. apply before_app_r. change (q :: place plain rest) with ([q] ++ place plain rest).
      apply before_app; [left|by apply Hbl].
    + destruct (IH rest) as [H1 H2]; try done.
      { by apply StronglySorted_app in Hbs as (_ & _ & ?). }
      split; intros H; apply before_app_r; change (q :: place plain rest) with ([q] ++ place plain rest);
        apply before_app_r; auto.
Qed.

Lemma byID_total a b : byID a b = true ∨ byID b a = true.
Proof. unfold byID. rewrite !Z.leb_le. lia. Qed.

Lemma byID_trans a b c : byID a b = true → byID b c = true → byID a c = true.
Proof. unfold byID. rewrite !Z.leb_le. lia. Qed.

Lemma byAnchor_spec a b :
  byAnchor a b = true ↔ anchor a < anchor b ∨ (anchor a = anchor b ∧ first a ≤ first b).
Proof. unfold byAnchor. rewrite orb_true_iff, andb_true_iff, Z.ltb_lt, Z.eqb_eq, Z.leb_le. done. Qed.

Lemma byAnchor_total a b : byAnchor a b = true ∨ byAnchor b a = true.
Proof. rewrite !byAnchor_spec. lia. Qed.

Lemma byAnchor_trans a b c : byAnchor a b = true → byAnchor b c = true → byAnchor a c = true.
Proof. rewrite !byAnchor_spec. lia. Qed.

Lemma sorted_blocks blocks : StronglySorted anchor_le (sort_stable byAnchor blocks).
Proof.
  pose proof (sort_stable_sorted byAnchor byAnchor_total byAnchor_trans blocks) as H.
  induction H as [|b l Hl IH Hf]; constructor; [done|]. eapply Forall_impl; [done|].
  intros c Hc%byAnchor_spec. unfold anchor_le. lia.
Qed.

(** The messages [Order] sorts, plain and in blocks. *)
Lemma Order_parts ms :
  ∃ blocks, gathered ms blocks ∧
    Order ms = place (sort_stable byID (List.filter is_plain ms)) (sort_stable byAnchor (snd <$> blocks)) ∧
    List.filter is_plain ms ++ concat ((λ tb, msgs tb.2) <$> blocks) ≡ₚ ms.
Proof.
  pose proof (gather_spec ms) as Hg. unfold Order. destruct (fold_left gather_one ms ([], [])) as [blocks plain].
  destruct Hg as (Hg & -> & Hp). exists blocks. done.
Qed.

Lemma Order_perm ms : Order ms ≡ₚ ms.
Proof.
  destruct (Order_parts ms) as (blocks & Hg & -> & Hp). rewrite place_perm, !sort_stable_perm.
  rewrite <- Hp at 2. rewrite <- (list_fmap_compose snd msgs). done.
Qed.

(** The block of a turn some message is of. *)
Lemma gathered_block ms blocks m t :
  gathered ms blocks → m ∈ ms → TurnOf (Key m) = Some t →
  ∃ b, (t, b) ∈ blocks ∧ anchor b = anchor_of t ∧ msgs b = List.filter (of_turn t) ms.
Proof.
  intros Hg Hm Ht. pose proof (g_some _ _ Hg m t Hm Ht) as Hin.
  apply list_elem_of_fmap in Hin as ([t' b] & -> & Hin). exists b. split; [done|]. by apply (g_block _ _ Hg).
Qed.

Lemma filter_split {A} (f : A → bool) l : l ≡ₚ List.filter f l ++ List.filter (λ x, negb (f x)) l.
Proof.
  induction l as [|x l IH]; simpl; [done|]. destruct (f x); simpl.
  - by rewrite <- IH.
  - by rewrite <- Permutation_middle, <- IH.
Qed.

Lemma filter_plain_place plain blocks :
  (∀ b m, b ∈ blocks → m ∈ msgs b → is_plain m = false) →
  List.filter is_plain (place plain blocks) = List.filter is_plain plain.
Proof.
  assert (Hnone : ∀ bs, (∀ b m, b ∈ bs → m ∈ msgs b → is_plain m = false) →
            List.filter is_plain (concat ((λ b, sortedBlock (msgs b)) <$> bs)) = []).
  { intros bs H. apply filter_none. intros x Hx. apply list_elem_of_In, in_concat in Hx as (l & Hl & Hx).
    apply list_elem_of_In, list_elem_of_fmap in Hl as (b & -> & Hb). apply list_elem_of_In in Hx.
    unfold sortedBlock in Hx. rewrite (sort_stable_perm byID (msgs b)) in Hx. by eapply H. }
  revert blocks. induction plain as [|p plain IH]; intros blocks Hb; cbn [place].
  - rewrite Hnone; done.
  - pose proof (flush_app (MsgID p) blocks) as Hf. destruct (flush (MsgID p) blocks) as [out rest].
    destruct Hf as (d & -> & -> & _). rewrite List.filter_app, Hnone by (intros; eapply Hb; [apply elem_of_app; by left|done]).
    cbn [app List.filter]. rewrite IH; [done|]. intros; eapply Hb; [apply elem_of_app; by right|done].
Qed.

Lemma of_turn_spec t m : of_turn t m = true ↔ TurnOf (Key m) = Some t.
Proof.
  unfold of_turn. destruct (TurnOf (Key m)) as [t'|]; [|done]. rewrite String.eqb_eq. naive_solver.
Qed.

(** ** Properties *)

(** [Order] loses and adds no message; each turn's messages are together,
    in the order it wrote them, with no message of another writer among them;
    the messages no turn wrote are in the order of their IDs. *)
Theorem order_whole_turns ms :
  Order ms ≡ₚ ms ∧
  (∀ m t, m ∈ ms → TurnOf (Key m) = Some t →
    ∃ l1 l2, Order ms = l1 ++ sortedBlock (List.filter (of_turn t) ms) ++ l2 ∧
      (∀ x, x ∈ l1 ++ l2 → TurnOf (Key x) ≠ Some t)) ∧
  StronglySorted (λ a b, byID a b = true) (List.filter is_plain (Order ms)).
Proof.
  split_and!; [apply Order_perm| |].
  - intros m t Hm Ht. destruct (Order_parts ms) as (blocks & Hg & He & _).
    destruct (gathered_block _ _ _ _ Hg Hm Ht) as (b & Hb & _ & Hms).
    destruct (place_block (sort_stable byID (List.filter is_plain ms)) (sort_stable byAnchor (snd <$> blocks)) b)
      as (l1 & l2 & Hpl).
    { rewrite sort_stable_perm. apply list_elem_of_fmap. by exists (t, b). }
    rewrite Hms in Hpl. exists l1, l2. split; [by rewrite He|].
    assert (l1 ++ l2 ≡ₚ List.filter (λ x, negb (of_turn t x)) ms) as Hl.
    { apply (Permutation_app_inv_l (List.filter (of_turn t) ms)). rewrite <- filter_split.
      transitivity (Order ms); [|apply Order_perm]. rewrite He, Hpl. unfold sortedBlock.
      rewrite (sort_stable_perm byID (List.filter (of_turn t) ms)). rewrite !app_assoc. f_equiv.
      apply Permutation_app_comm. }
    intros x Hx Hxt. rewrite Hl in Hx. apply elem_filter in Hx as [_ Hx].
    apply of_turn_spec in Hxt. by rewrite Hxt in Hx.
  - destruct (Order_parts ms) as (blocks & Hg & -> & _). rewrite filter_plain_place.
    + pose proof (sort_stable_sorted byID byID_total byID_trans (List.filter is_plain ms)) as Hs.
      induction Hs as [|x l Hl IH Hf]; cbn [List.filter]; [constructor|]. destruct (is_plain x); [|done].
      constructor; [done|]. rewrite Forall_forall in *. intros y [Hy _]%elem_filter. by apply Hf.
    + intros b m Hb Hm. rewrite sort_stable_perm in Hb. apply list_elem_of_fmap in Hb as ([t b'] & -> & Hb).
      destruct (g_block _ _ Hg t b' Hb) as [_ Hms]. cbn [snd] in Hm. rewrite Hms in Hm.
      apply elem_filter in Hm as [_ Hm]. apply of_turn_spec in Hm. unfold is_plain. by rewrite Hm.
Qed.

Lemma order_place ms p m t :
  p ∈ ms → TurnOf (Key p) = None → m ∈ ms → TurnOf (Key m) = Some t →
  (anchor_of t < MsgID p → before (Order ms) m p) ∧ (MsgID p ≤ anchor_of t → before (Order ms) p m).
Proof.
  intros Hp Hpt Hm Ht. destruct (Order_parts ms) as (blocks & Hg & -> & _).
  destruct (gathered_block _ _ _ _ Hg Hm Ht) as (b & Hb & <- & Hms).
  apply place_before.
  - apply sort_stable_sorted; [apply byID_total|apply byID_trans].
  - apply sorted_blocks.
  - rewrite sort_stable_perm. apply elem_filter. split; [done|]. unfold is_plain. by rewrite Hpt.
  - rewrite sort_stable_perm. apply list_elem_of_fmap. by exists (t, b).
  - rewrite Hms. apply elem_filter. split; [done|]. by apply of_turn_spec.
Qed.

(** A turn comes after every message no turn wrote up to its anchor and
    before those after it. So among the messages a turn reads, the message it
    answers follows whole every turn of the other participants: the
    conversation never ends on another's answer. *)
Theorem order_answers_follow_questions ms p m t :
  p ∈ ms → TurnOf (Key p) = None → m ∈ ms → TurnOf (Key m) = Some t →
  (anchor_of t < MsgID p → before (Order ms) m p) ∧
  (MsgID p ≤ anchor_of t → before (Order ms) p m) ∧
  (∀ scope ends, MsgID p = UpTo scope → TurnReads (MsgID m) (Key m) scope ends = true →
    t ∉ Turns scope → TurnParticipant t ≠ Participant scope →
    (∀ e, ends !! t = Some e → anchor_of t < e) → before (Order ms) m p).
Proof.
  intros Hp Hpt Hm Ht. destruct (order_place ms p m t Hp Hpt Hm Ht) as [H1 H2]. split_and!; [done|done|].
  intros scope ends Hup Hr Hni Hpart He. apply H1. rewrite Hup.
  unfold TurnReads in Hr. rewrite Ht in Hr. destruct (IsTurnEnd (Key m)); [done|].
  apply contains_false in Hni. rewrite Hni in Hr.
  assert (Hap : match parseTurn t with Some ap => ap | None => (0, "") end = (anchor_of t, TurnParticipant t)).
  { unfold anchor_of, TurnAnchor, TurnParticipant. by destruct (parseTurn t) as [[? ?]|]. }
  rewrite Hap in Hr. destruct (UpTo scope <? anchor_of t); [done|].
  destruct (String.eqb_spec (TurnParticipant t) (Participant scope)); [done|].
  destruct (ends !! t) as [e|] eqn:E; [|done]. specialize (He e eq_refl). bool_to_prop. lia.
Qed.

(** ** Witness *)

(** Jarvis answers message 10 while Smith answers message 12. *)
Definition talk : list MessageWithID :=
  let msg id key := mkMsg id 0 key (plainMessage RoleUser "") in
  [msg 10 "msg:a"; msg 11 "m10.jarvis:0"; msg 12 "msg:b"; msg 13 "m12.smith:0"; msg 14 "m10.jarvis:1";
   msg 15 "m12.smith:end"; msg 16 "m10.jarvis:end"].

Example talk_order :
  MsgID <$> Order talk = [10; 11; 14; 16; 12; 13; 15].
Proof. vm_compute. reflexivity. Qed.

Lemma order_answers_follow_questions_witness :
  before (Order talk) (nth 4 talk (mkMsg 0 0 "" (plainMessage "" ""))) (nth 2 talk (mkMsg 0 0 "" (plainMessage "" ""))).
Proof.
  refine (proj1 (order_answers_follow_questions talk _ _ "m10.jarvis" _ _ _ _) _); vm_compute;
    try reflexivity; repeat constructor.
Defined.
