(* ===== verification/Convert.v ===== *)
(** * What an agent's model reads (src/conversation/convert.go)

    [Convert] turns a session's messages into what the model of one agent
    reads: its own turns as they are, everything else as user text, private
    tool inputs and results hidden. *)

From S2P Require Import Prelude GoStr Utf8 Json Keys Message.
Open Scope string_scope.
Open Scope Z_scope.
Open Scope list_scope.

(** ** The view of a reader *)

Record Label := mkLabel { Name : string; Mention : string }.

(** A nil [Private] is [None]. *)
Record View := mkView {
  Self : string;
  User : string;
  Agents : gmap string Label;
  Private : option (string → bool)
}.

Definition maxOtherToolInputBytes : Z := 500.
Definition maxOtherToolResultBytes : Z := 1500.

Definition other (v : View) (m : Message) : bool :=
  String.eqb (Role m) RoleAssistant && negb (String.eqb (AgentID m) "") && negb (String.eqb (AgentID m) (Self v)).

Definition AgentLabel (name mention : string) : string :=
  if String.eqb mention "" then "agent " +:+ name else "agent " +:+ name +:+ " (@" +:+ mention +:+ ")".

Definition label (v : View) (m : Message) : string :=
  match Agents v !! AgentID m with
  | Some a => AgentLabel (Name a) (Mention a)
  | None => AgentLabel (cmp_or (Author m) (AgentID m)) ""
  end.

Definition agentLabel (v : View) (id : string) : string :=
  match Agents v !! id with
  | Some a => AgentLabel (Name a) (Mention a)
  | None => AgentLabel id ""
  end.

Definition privateInput (v : View) (toolName : string) : bool :=
  match Private v with Some f => f toolName | None => false end.

Definition forAnotherUser (v : View) (m : Message) : bool :=
  String.eqb (Role m) RoleAssistant && negb (other v m) &&
  negb (String.eqb (UserID m) "") && negb (String.eqb (UserID m) (User v)).

(** ** What members see of a private tool (src/tool/metadata.go) *)

Definition quoted (s : string) : string := String dquote (s +:+ String dquote "").

Definition hiddenInput : string := "{" +:+ quoted "content" +:+ ":" +:+ quoted "(private)" +:+ "}".

Definition DisplayInput (private : bool) (input : string) : string := if private then hiddenInput else input.

Definition hiddenResult : string := "(private)".

Definition DisplayResult (private : bool) (content : string) : string := if private then hiddenResult else content.

(** [PrivateSetOf] over the published tools, as names and their flag. *)
Definition PrivateSetOf (records : list (string * bool)) : gmap string bool :=
  fold_left (λ s r, if (r.2 : bool) then <[r.1 := true]> s else s) records ∅.

Definition PrivateSet_PrivateInput (s : gmap string bool) (name : string) : bool :=
  match s !! name with Some b => b | None => false end.

(** ** Messages of the model's API (src/provider/provider.go)

    An absent content is the empty string: neither is the JSON of a string. *)

Record ToolCallInfo := mkCallInfo { InfoID : string; InfoName : string; InfoInput : string }.

Record ToolResultInfo := mkResultInfo { InfoCallID : string; InfoContent : string; InfoIsError : bool }.

Record ChatMessage := mkChat {
  ChatRole : string;
  ChatContent : string;
  ChatCalls : list ToolCallInfo;
  ChatResult : option ToolResultInfo
}.

(** [messageText]. *)
Definition messageText (content : string) : string :=
  match unmarshal content with Some s => s | None => content end.

Definition plainUserText (cm : ChatMessage) : option string :=
  if negb (String.eqb (ChatRole cm) RoleUser) then None
  else
    match ChatResult cm, ChatCalls cm with
    | None, [] => unmarshal (ChatContent cm)
    | _, _ => None
    end.

Definition newline : string := String (byte 10) "".

Definition appendUserText (result : list ChatMessage) (text : string) : list ChatMessage :=
  if String.eqb text "" then result
  else
    let '(result, text) :=
      match last result with
      | Some prev =>
          match plainUserText prev with
          | Some p => (removelast result, p +:+ newline +:+ newline +:+ text)
          | None => (result, text)
          end
      | None => (result, text)
      end in
    result ++ [mkChat RoleUser (marshal text) [] None].

Definition asForkContext (content : string) : string :=
  match unmarshal content with
  | None => content
  | Some text =>
      marshal ("[Context carried over from an earlier conversation this one was forked from. A summary, not a message from the user.]"
               +:+ newline +:+ newline +:+ text)
  end.

Definition asForkReport (content : string) (m : Message) : string :=
  match unmarshal content with
  | None => content
  | Some text =>
      let title :=
        match Fork m with
        | Some f => if String.eqb (ForkTitle f) "" then "untitled" else ForkTitle f
        | None => "untitled"
        end in
      marshal ("[Report from fork « " +:+ title +:+ " » by " +:+ cmp_or (Author m) "a member" +:+
        ". A summary of the work done in that forked conversation, posted here for the record; not a request to you.]"
        +:+ newline +:+ newline +:+ text)
  end.

Definition withAuthor (content author : string) : string :=
  match unmarshal content with
  | None => content
  | Some text => if String.eqb text "" then content else marshal ("[" +:+ author +:+ "] " +:+ text)
  end.

(** ** Other agents' turns, as text *)

Record otherCall := mkOtherCall { tool : string; agent : string }.

Definition join (sep : string) (l : list string) : string :=
  match l with
  | [] => ""
  | x :: l => fold_left (λ s y, s +:+ sep +:+ y) l x
  end.

Definition otherTurn (v : View) (m : Message) : string :=
  let who := label v m in
  let text := messageText (Content m) in
  join newline
    ((if String.eqb text "" then [] else ["[" +:+ who +:+ "] " +:+ text]) ++
     ((λ tc,
        let input := DisplayInput (privateInput v (CallName tc)) (CallInput tc) in
        "[" +:+ who +:+ " called " +:+ CallName tc +:+ " " +:+
        Clip (cmp_or input "{}") maxOtherToolInputBytes +:+ "]") <$> ToolCalls m)).

Definition otherResult (call : otherCall) (r : ToolResult) (private : bool) : string :=
  let what := if IsError r then "error from" else "result of" in
  "[" +:+ what +:+ " " +:+ tool call +:+ ", called by " +:+ agent call +:+ "] " +:+
  Clip (DisplayResult private (ResultContent r)) maxOtherToolResultBytes.

(** ** A background task's end, as text *)

Definition taskOutcome (t : TaskRef) : string :=
  let after :=
    if negb (is_zero_time (RefStartedAt t)) && (RefStartedAt t <? RefEndedAt t) then
      let d := time_sub (RefEndedAt t) (RefStartedAt t) in
      if d <? minute then " after " +:+ itoa (Z.quot d second) +:+ " s"
      else " after " +:+ itoa (Z.quot (round_duration d minute) minute) +:+ " min"
    else "" in
  if String.eqb (RefState t) BackgroundFailed then "failed" +:+ after
  else if String.eqb (RefState t) BackgroundCancelled then
    "cancelled by " +:+ cmp_or (RefCancelledBy t) "a member" +:+ after +:+ ": it was not finished"
  else "done" +:+ after.

Definition followUp (f : TaskFollowUp) : string :=
  newline +:+ "- " +:+
  (if String.eqb (FUserName f) "" then "" else "(" +:+ FUserName f +:+ ") ") +:+ FText f.

Definition taskResult (v : View) (m : Message) : string :=
  let t := match Task m with Some t => t | None => zeroTask end in
  let mine := String.eqb (AgentID m) "" || String.eqb (AgentID m) (Self v) in
  let who := if mine then "you" else agentLabel v (AgentID m) in
  let text := messageText (Content m) in
  let text := if mine then text else Clip text maxOtherToolResultBytes in
  "[Task result: " +:+ cmp_or (RefTool t) "a tool" +:+
  (if String.eqb (RefSummary t) "" then "" else " (" +:+ RefSummary t +:+ ")") +:+
  ", a background task " +:+ who +:+ " started" +:+
  (if String.eqb (RequestedBy t) "" then "" else " for " +:+ RequestedBy t) +:+
  (if is_zero_time (RefStartedAt t) then "" else " at " +:+ format_utc (RefStartedAt t)) +:+
  ", " +:+ taskOutcome t +:+ ". Not a message from a person.]" +:+
  (if mine && (0 <? Z.of_nat (length (RefFollowUps t))) then
     newline +:+ "Instructions to apply now, attached while it ran:" +:+
     fold_left (λ s f, s +:+ followUp f) (RefFollowUps t) ""
   else "") +:+
  (if String.eqb text "" then "" else newline +:+ text) +:+
  match RefFile t with
  | Some f =>
      if mine then
        newline +:+ "[The whole result (" +:+ itoa (FileSize f) +:+ " bytes) is the file " +:+ FileName f +:+
        " (id " +:+ FileID f +:+ "), published in this session: above is its start.]"
      else ""
  | None => ""
  end.

(** ** The conversion *)

(** What the first pass learns of the calls: other agents' ones, the private
    ones of the reader's turns for another user, all of them. *)
Record calls := mkCalls {
  others : gmap string otherCall;
  hidden : gmap string bool;
  called : gmap string bool
}.

Definition scan (v : View) (c : calls) (m : Message) : calls :=
  let called := fold_left (λ s tc, <[CallID tc := true]> s) (ToolCalls m) (called c) in
  let others :=
    if other v m then
      fold_left (λ s tc, <[CallID tc := mkOtherCall (CallName tc) (label v m)]> s) (ToolCalls m) (others c)
    else others c in
  let hidden :=
    if forAnotherUser v m then
      fold_left (λ s tc, if privateInput v (CallName tc) then <[CallID tc := true]> s else s) (ToolCalls m) (hidden c)
    else hidden c in
  mkCalls others hidden called.

Definition scan_all (v : View) (ms : list Message) : calls := fold_left (scan v) ms (mkCalls ∅ ∅ ∅).

Definition flag (s : gmap string bool) (id : string) : bool := match s !! id with Some b => b | None => false end.

#[global] Arguments flag : simpl never.
#[global] Arguments privateInput : simpl never.

(** The content of a message kept as it is. *)
Definition keptContent (m : Message) : string :=
  let content := Content m in
  if String.eqb (Kind m) KindForkSummary then asForkContext content
  else if String.eqb (Kind m) KindForkReport then asForkReport content m
  else if String.eqb (Role m) RoleUser && negb (String.eqb (Author m) "") then withAuthor content (Author m)
  else content.

Definition kept (c : calls) (m : Message) : ChatMessage :=
  mkChat (Role m) (keptContent m)
    ((λ tc, mkCallInfo (CallID tc) (CallName tc) (DisplayInput (flag (hidden c) (CallID tc)) (CallInput tc))) <$> ToolCalls m)
    ((λ r, mkResultInfo (ToolCallID r)
             (DisplayResult (flag (hidden c) (ToolCallID r) || negb (flag (called c) (ToolCallID r))) (ResultContent r))
             (IsError r)) <$> Result m).

(** Another agent's call whose result the message holds. *)
Definition otherCallOf (c : calls) (m : Message) : option (otherCall * ToolResult) :=
  match Result m with
  | Some r => match others c !! ToolCallID r with Some call => Some (call, r) | None => None end
  | None => None
  end.

Definition convert_one (v : View) (c : calls) (result : list ChatMessage) (m : Message) : list ChatMessage :=
  if String.eqb (Kind m) KindTurnEnd then result
  else if String.eqb (Kind m) KindTaskResult then appendUserText result (taskResult v m)
  else if other v m then appendUserText result (otherTurn v m)
  else
    match otherCallOf c m with
    | Some (call, r) => appendUserText result (otherResult call r (privateInput v (tool call)))
    | None =>
        let cm := kept c m in
        match plainUserText cm with
        | Some text => appendUserText result text
        | None => result ++ [cm]
        end
    end.

Definition Convert (messages : list Message) (v : View) : list ChatMessage :=
  fold_left (convert_one v (scan_all v messages)) messages [].

(** ** User text is joined *)

Definition text_alone (cm : ChatMessage) : bool :=
  match plainUserText cm with Some _ => true | None => false end.

(** No two messages of user text follow one another. *)
Fixpoint separated (l : list ChatMessage) : bool :=
  match l with
  | x :: ((y :: _) as l') => negb (text_alone x && text_alone y) && separated l'
  | _ => true
  end.

Lemma text_alone_some cm t : plainUserText cm = Some t → text_alone cm = true.
Proof. unfold text_alone. by intros ->. Qed.

Lemma text_alone_none cm : plainUserText cm = None → text_alone cm = false.
Proof. unfold text_alone. by intros ->. Qed.

Definition ends_in_text (l : list ChatMessage) : bool :=
  match last l with Some x => text_alone x | None => false end.

Lemma separated_snoc l x :
  separated (l ++ [x]) = separated l && negb (ends_in_text l && text_alone x).
Proof.
  induction l as [|y l IH]; [done|]. destruct l as [|z l].
  - cbn. unfold ends_in_text. cbn. by rewrite andb_true_r.
  - cbn [app separated] in *. rewrite IH, andb_assoc. done.
Qed.

Lemma text_alone_marshal text : text_alone (mkChat RoleUser (marshal text) [] None) = true.
Proof. unfold text_alone, plainUserText. cbn. by rewrite unmarshal_marshal_any. Qed.

Lemma split_last {A} (l : list A) x : last l = Some x → l = removelast l ++ [x].
Proof. intros [l' ->]%last_Some. by rewrite removelast_last. Qed.

Lemma ends_in_text_snoc l x : ends_in_text (l ++ [x]) = text_alone x.
Proof. unfold ends_in_text. by rewrite last_snoc. Qed.

Lemma append_separated result text : separated result = true → separated (appendUserText result text) = true.
Proof.
  intros Hs. unfold appendUserText. destruct (String.eqb text ""); [done|].
  destruct (last result) as [prev|] eqn:El.
  - pose proof (split_last _ _ El) as Hl. destruct (plainUserText prev) as [p|] eqn:Ep; rewrite separated_snoc.
    + rewrite Hl, separated_snoc in Hs. apply andb_true_iff in Hs as [-> Hs]. cbn [andb].
      rewrite (text_alone_some _ _ Ep), andb_true_r in Hs. by destruct (ends_in_text (removelast result)).
    + rewrite Hs. unfold ends_in_text. rewrite El.
      by rewrite (text_alone_none _ Ep).
  - rewrite separated_snoc, Hs. unfold ends_in_text. by rewrite El.
Qed.

Lemma convert_one_separated v c result m : separated result = true → separated (convert_one v c result m) = true.
Proof.
  intros Hs. unfold convert_one. repeat (case_match; try done); try (by apply append_separated).
  rewrite separated_snoc, Hs, text_alone_none by done. by rewrite andb_false_r.
Qed.

(** ** What is kept as it is *)

(** A message of the session the reader keeps as it is, its own or a person's:
    user text is joined, the others are kept one by one. *)
Definition keeps (v : View) (c : calls) (m : Message) : bool :=
  negb (String.eqb (Kind m) KindTurnEnd) && negb (String.eqb (Kind m) KindTaskResult) && negb (other v m) &&
  match otherCallOf c m with Some _ => false | None => true end.

Definition blocks_of (l : list ChatMessage) : list ChatMessage := List.filter (λ cm, negb (text_alone cm)) l.

Lemma append_blocks result text : blocks_of (appendUserText result text) = blocks_of result.
Proof.
  unfold appendUserText. destruct (String.eqb text ""); [done|].
  assert (Hnew : ∀ l t, blocks_of (l ++ [mkChat RoleUser (marshal t) [] None]) = blocks_of l).
  { intros l t. unfold blocks_of. rewrite List.filter_app. cbn [List.filter]. by rewrite text_alone_marshal, app_nil_r. }
  destruct (last result) as [prev|] eqn:El; [|apply Hnew].
  destruct (plainUserText prev) as [p|] eqn:Ep; rewrite Hnew; [|done].
  rewrite (split_last _ _ El) at 2. unfold blocks_of. rewrite List.filter_app. cbn [List.filter].
  rewrite (text_alone_some _ _ Ep). by rewrite app_nil_r.
Qed.

Lemma convert_one_blocks v c result m :
  blocks_of (convert_one v c result m) =
  blocks_of result ++ (if keeps v c m then blocks_of [kept c m] else []).
Proof.
  unfold convert_one, keeps. destruct (String.eqb (Kind m) KindTurnEnd); cbn [negb andb]; [by rewrite app_nil_r|].
  destruct (String.eqb (Kind m) KindTaskResult); cbn [negb andb]; [by rewrite append_blocks, app_nil_r|].
  destruct (other v m); cbn [negb andb]; [by rewrite append_blocks, app_nil_r|].
  destruct (otherCallOf c m) as [[call r]|]; [by rewrite append_blocks, app_nil_r|].
  cbv zeta. destruct (plainUserText (kept c m)) as [text|] eqn:E.
  - rewrite append_blocks. unfold blocks_of. cbn [List.filter]. by rewrite (text_alone_some _ _ E), app_nil_r.
  - unfold blocks_of. rewrite List.filter_app. cbn [List.filter]. by rewrite (text_alone_none _ E).
Qed.

Lemma convert_blocks v c ms result :
  blocks_of (fold_left (convert_one v c) ms result) =
  blocks_of result ++ blocks_of (kept c <$> List.filter (keeps v c) ms).
Proof.
  revert result. induction ms as [|m ms IH]; intros result; cbn [fold_left]; [by rewrite app_nil_r|].
  rewrite IH, convert_one_blocks, <- app_assoc. f_equal. cbn [List.filter].
  destruct (keeps v c m); [|done]. rewrite fmap_cons. unfold blocks_of. cbn [List.filter].
  by destruct (negb (text_alone (kept c m))).
Qed.

(** ** What is hidden *)

Definition erase_call (private : bool) (tc : ToolCall) : ToolCall :=
  if private then mkCall (CallID tc) (CallName tc) "" else tc.

Definition erase_result (private : bool) (r : ToolResult) : ToolResult :=
  if private then mkResult (ToolCallID r) "" (IsError r) else r.

Definition with_tools (m : Message) (tcs : list ToolCall) (r : option ToolResult) : Message :=
  mkMessage (Role m) (Content m) (UserID m) (AgentID m) (Author m) (Kind m) tcs r (Fork m) (Task m)
    (Model m) (UsageOf m) (MachineID m) (Machine m).

(** Whether the reader may not see a call's input, or a call's result. *)
Definition private_call (v : View) (c : calls) (m : Message) (tc : ToolCall) : bool :=
  if other v m then privateInput v (CallName tc) else flag (hidden c) (CallID tc).

Definition private_result (v : View) (c : calls) (r : ToolResult) : bool :=
  match others c !! ToolCallID r with
  | Some call => privateInput v (tool call)
  | None => flag (hidden c) (ToolCallID r) || negb (flag (called c) (ToolCallID r))
  end.

(** [m] without what the reader may not see. *)
Definition erase (v : View) (c : calls) (m : Message) : Message :=
  with_tools m ((λ tc, erase_call (private_call v c m tc) tc) <$> ToolCalls m)
    ((λ r, if other v m then r else erase_result (private_result v c r) r) <$> Result m).

Definition erase_all (v : View) (ms : list Message) : list Message := erase v (scan_all v ms) <$> ms.

Lemma erase_call_id p tc : CallID (erase_call p tc) = CallID tc ∧ CallName (erase_call p tc) = CallName tc.
Proof. by destruct p. Qed.

Lemma erase_other v c m : other v (erase v c m) = other v m.
Proof. done. Qed.

Lemma fold_left_fmap {A B C} (f : A → C → A) (g : B → C) l a :
  fold_left f (g <$> l) a = fold_left (λ a x, f a (g x)) l a.
Proof. revert a. induction l as [|x l IH]; intros a; [done|]. rewrite fmap_cons. cbn [fold_left]. by rewrite IH. Qed.

Lemma fold_left_ext {A B} (f g : A → B → A) l a :
  (∀ a x, f a x = g a x) → fold_left f l a = fold_left g l a.
Proof. intros H. revert a. induction l as [|x l IH]; intros a; cbn [fold_left]; [done|]. by rewrite H, IH. Qed.

Lemma scan_erase v c0 c m : scan v c (erase v c0 m) = scan v c m.
Proof.
  unfold scan. cbn [ToolCalls erase with_tools].
  change (other v (erase v c0 m)) with (other v m).
  change (forAnotherUser v (erase v c0 m)) with (forAnotherUser v m).
  change (label v (erase v c0 m)) with (label v m).
  rewrite !fold_left_fmap. f_equal.
  - destruct (other v m); [|done]. apply fold_left_ext. intros a tc.
    by destruct (erase_call_id (private_call v c0 m tc) tc) as [-> ->].
  - destruct (forAnotherUser v m); [|done]. apply fold_left_ext. intros a tc.
    by destruct (erase_call_id (private_call v c0 m tc) tc) as [-> ->].
  - apply fold_left_ext. intros a tc. by destruct (erase_call_id (private_call v c0 m tc) tc) as [-> _].
Qed.

Lemma scan_all_erase v ms : scan_all v (erase_all v ms) = scan_all v ms.
Proof.
  unfold scan_all, erase_all. rewrite fold_left_fmap. apply fold_left_ext. intros a m. apply scan_erase.
Qed.

Lemma kept_erase v c m : other v m = false → otherCallOf c m = None → kept c (erase v c m) = kept c m.
Proof.
  intros Ho Hc. unfold kept. f_equal.
  - cbn [ToolCalls erase with_tools]. rewrite <- list_fmap_compose. apply list_fmap_ext. intros i tc _. cbn.
    unfold private_call. rewrite Ho. by destruct (flag (hidden c) (CallID tc)) eqn:E; cbn; rewrite E.
  - cbn [Result erase with_tools]. unfold otherCallOf in Hc. rewrite <- option_fmap_compose.
    destruct (Result m) as [r|]; [|done]. cbn. rewrite Ho. unfold private_result. destruct (others c !! _); [done|].
    by destruct (flag (hidden c) (ToolCallID r) || negb (flag (called c) (ToolCallID r))) eqn:E; cbn; rewrite E.
Qed.

Lemma otherCallOf_erase v c m :
  other v m = false →
  otherCallOf c (erase v c m) =
  (λ cr, (cr.1, erase_result (privateInput v (tool cr.1)) cr.2)) <$> otherCallOf c m.
Proof.
  intros Ho. unfold otherCallOf. cbn [Result erase with_tools].
  destruct (Result m) as [r|]; [|done]. cbn [fmap option_fmap option_map]. rewrite Ho.
  assert (ToolCallID (erase_result (private_result v c r) r) = ToolCallID r) as -> by (by destruct (private_result v c r)).
  destruct (others c !! ToolCallID r) as [call|] eqn:E; [|done]. cbn [fmap option_fmap option_map fst snd].
  unfold private_result. by rewrite E.
Qed.

Lemma otherResult_erase call r p : otherResult call (erase_result p r) p = otherResult call r p.
Proof. by destruct p. Qed.

Lemma convert_one_erase v c result m : convert_one v c result (erase v c m) = convert_one v c result m.
Proof.
  unfold convert_one. change (Kind (erase v c m)) with (Kind m). change (taskResult v (erase v c m)) with (taskResult v m).
  rewrite erase_other. destruct (String.eqb (Kind m) KindTurnEnd); [done|].
  destruct (String.eqb (Kind m) KindTaskResult); [done|]. destruct (other v m) eqn:Ho.
  - f_equal. unfold otherTurn. cbn [ToolCalls erase with_tools]. do 2 f_equal.
    rewrite <- list_fmap_compose. apply list_fmap_ext. intros i tc _. cbn.
    unfold private_call. rewrite Ho. by destruct (privateInput v (CallName tc)) eqn:E; cbn; rewrite E.
  - rewrite otherCallOf_erase by done. destruct (otherCallOf c m) as [[call r]|] eqn:Hc; cbn [fmap option_fmap option_map fst snd].
    + by rewrite otherResult_erase.
    + by rewrite kept_erase.
Qed.

Lemma Convert_erase v ms : Convert (erase_all v ms) v = Convert ms v.
Proof.
  unfold Convert. rewrite scan_all_erase. unfold erase_all. rewrite fold_left_fmap.
  apply fold_left_ext. intros a m. apply convert_one_erase.
Qed.

(** ** Properties *)

Lemma flag_insert s id k : flag s id = true → flag (<[k := true]> s) id = true.
Proof.
  unfold flag. destruct (decide (k = id)) as [->|Hne]; [by rewrite lookup_insert_eq|by rewrite lookup_insert_ne].
Qed.

Lemma fold_flag_keeps {A} (f : gmap string bool → A → gmap string bool) l s id :
  (∀ s x, flag s id = true → flag (f s x) id = true) → flag s id = true → flag (fold_left f l s) id = true.
Proof. intros Hf. revert s. induction l as [|x l IH]; cbn [fold_left]; auto. Qed.

Lemma fold_flag_sets {A} (f : gmap string bool → A → gmap string bool) l s id x :
  (∀ s x, flag s id = true → flag (f s x) id = true) → x ∈ l → (∀ s, flag (f s x) id = true) →
  flag (fold_left f l s) id = true.
Proof.
  intros Hf Hx Hs. revert s. induction l as [|y l IH]; intros s; cbn [fold_left].
  - by apply not_elem_of_nil in Hx.
  - apply elem_of_cons in Hx as [->|Hx]; [apply fold_flag_keeps; auto|by apply IH].
Qed.

(** The reader's private calls for another user are known as such. *)
Lemma scan_hidden v ms m tc :
  m ∈ ms → tc ∈ ToolCalls m → forAnotherUser v m = true → privateInput v (CallName tc) = true →
  flag (hidden (scan_all v ms)) (CallID tc) = true.
Proof.
  intros Hm Htc Hf Hp. unfold scan_all.
  assert (Hkeep : ∀ c m', flag (hidden c) (CallID tc) = true → flag (hidden (scan v c m')) (CallID tc) = true).
  { intros c m' H. cbn. destruct (forAnotherUser v m'); [|done]. apply fold_flag_keeps; [|done].
    intros s x Hs. destruct (privateInput v (CallName x)); [by apply flag_insert|done]. }
  assert (Hgen : ∀ c, flag (hidden c) (CallID tc) = true ∨ m ∈ ms →
            flag (hidden (fold_left (scan v) ms c)) (CallID tc) = true); [|by apply Hgen; right].
  clear Hm. induction ms as [|x ms IH]; intros c; cbn [fold_left].
  - intros [?|Hm]; [done|]. by apply not_elem_of_nil in Hm.
  - intros [H|[->|Hm]%elem_of_cons]; apply IH; [left; by apply Hkeep| |by right].
    left. cbn. rewrite Hf. apply fold_flag_sets with (x := tc); [|done|].
    + intros s y Hs. destruct (privateInput v (CallName y)); [by apply flag_insert|done].
    + intros s. rewrite Hp. unfold flag. by rewrite lookup_insert_eq.
Qed.

(** C21. What the model reads depends on no private input or result: two
    sessions that differ only there are read the same. Private are the inputs of
    the other agents' calls and of the reader's own calls for another user to
    a private tool, and the result of any call nothing in the session made. *)
Theorem convert_hides_private v ms :
  (∀ ms', erase_all v ms = erase_all v ms' → Convert ms v = Convert ms' v) ∧
  (∀ m tc, m ∈ ms → tc ∈ ToolCalls m → other v m || forAnotherUser v m = true →
    privateInput v (CallName tc) = true → private_call v (scan_all v ms) m tc = true) ∧
  (∀ m tc r, m ∈ ms → tc ∈ ToolCalls m → forAnotherUser v m = true → privateInput v (CallName tc) = true →
    ToolCallID r = CallID tc → others (scan_all v ms) !! CallID tc = None →
    private_result v (scan_all v ms) r = true) ∧
  (∀ r, others (scan_all v ms) !! ToolCallID r = None → flag (called (scan_all v ms)) (ToolCallID r) = false →
    private_result v (scan_all v ms) r = true).
Proof.
  split_and!.
  - intros ms' He. by rewrite <- (Convert_erase v ms), <- (Convert_erase v ms'), He.
  - intros m tc Hm Htc Ho Hp. unfold private_call. destruct (other v m); [done|]. by apply (scan_hidden v ms m).
  - intros m tc r Hm Htc Hf Hp Hid Hno. unfold private_result. rewrite Hid, Hno.
    by rewrite (scan_hidden v ms m tc).
  - intros r Hno Hc. unfold private_result. by rewrite Hno, Hc, orb_true_r.
Qed.

Lemma separated_adjacent l1 x y l2 : separated (l1 ++ x :: y :: l2) = true → text_alone x && text_alone y = false.
Proof.
  induction l1 as [|z l1 IH]; [by intros [H%negb_true_iff _]%andb_true_iff|].
  intros H. apply IH. destruct l1; cbn [app separated] in *; by apply andb_true_iff in H as [_ ?].
Qed.

(** Two messages of user text never follow one another: what people and
    other agents wrote between two turns of the reader is one message. *)
Theorem convert_joins_user_text v ms l1 x y l2 :
  Convert ms v = l1 ++ x :: y :: l2 → plainUserText x = None ∨ plainUserText y = None.
Proof.
  intros Hc. assert (separated (Convert ms v) = true) as Hs.
  { unfold Convert. generalize (scan_all v ms). intros c.
    assert (∀ l, separated l = true → separated (fold_left (convert_one v c) ms l) = true) as H; [|by apply H].
    clear Hc. induction ms as [|m ms' IH]; intros l Hl; cbn [fold_left]; [done|]. by apply IH, convert_one_separated. }
  rewrite Hc in Hs. apply separated_adjacent in Hs. unfold text_alone in Hs.
  destruct (plainUserText x), (plainUserText y); try discriminate Hs; auto.
Qed.

(** Past user text, what the model reads is, in order, the messages the
    reader may keep as they are: their role, each call under its ID, each result
    under its call's. No call of another agent is among them. *)
Theorem convert_keeps_own_blocks v ms :
  let c := scan_all v ms in
  blocks_of (Convert ms v) = blocks_of (kept c <$> List.filter (keeps v c) ms) ∧
  (∀ cm, cm ∈ Convert ms v → plainUserText cm = None →
    ∃ m, m ∈ ms ∧ other v m = false ∧ ChatRole cm = Role m ∧ InfoID <$> ChatCalls cm = CallID <$> ToolCalls m ∧
      (∀ r, ChatResult cm = Some r → others c !! InfoCallID r = None)).
Proof.
  cbv zeta. assert (Hb : blocks_of (Convert ms v) = blocks_of (kept (scan_all v ms) <$> List.filter (keeps v (scan_all v ms)) ms))
    by (unfold Convert; by rewrite convert_blocks).
  split; [done|]. intros cm Hin Hp.
  assert (cm ∈ blocks_of (Convert ms v)) as Hin'.
  { apply elem_filter. split; [done|]. by rewrite (text_alone_none _ Hp). }
  rewrite Hb in Hin'. apply elem_filter in Hin' as [Hin' _]. apply list_elem_of_fmap in Hin' as (m & -> & Hm).
  apply elem_filter in Hm as [Hm Hk]. unfold keeps in Hk. bool_to_prop. exists m.
  split_and!; try done.
  - cbn. by rewrite <- list_fmap_compose.
  - intros r Hr. cbn in Hr. unfold otherCallOf in *. destruct (Result m) as [r0|]; [|done].
    cbn in Hr. injection Hr as <-. cbn. by destruct (others (scan_all v ms) !! ToolCallID r0).
Qed.

(** ** Witnesses *)

(** Jarvis saved something for Alice, answered by Smith, and now answers Bob. *)
Definition demo_view : View :=
  mkView "jarvis" "bob" {[ "smith" := mkLabel "Smith" "smith" ]} (Some (String.eqb "save_user_memory")).

Definition demo_messages (secret : string) : list Message :=
  [ mkMessage RoleUser (quoted "Hello") "alice" "" "Alice" "" [] None None None "" None "" "";
    mkMessage RoleAssistant (quoted "") "alice" "jarvis" "Jarvis" "" [mkCall "c1" "save_user_memory" secret] None None None "" None "" "";
    mkMessage RoleTool "" "" "" "" "" [] (Some (mkResult "c1" secret false)) None None "" None "" "";
    mkMessage RoleAssistant (quoted "Noted") "alice" "smith" "Smith" "" [] None None None "" None "" "";
    mkMessage RoleUser (quoted "And me?") "bob" "" "Bob" "" [] None None None "" None "" "" ].

Lemma convert_hides_private_witness :
  Convert (demo_messages "Alice's secret") demo_view = Convert (demo_messages "nothing") demo_view.
Proof.
  refine (proj1 (convert_hides_private demo_view (demo_messages "Alice's secret")) (demo_messages "nothing") _).
  vm_compute. reflexivity.
Defined.

Lemma convert_joins_user_text_witness :
  plainUserText (nth 2 (Convert (demo_messages "s") demo_view) (mkChat "" "" [] None)) = None ∨
  plainUserText (nth 3 (Convert (demo_messages "s") demo_view) (mkChat "" "" [] None)) = None.
Proof.
  refine (convert_joins_user_text demo_view (demo_messages "s") (take 2 (Convert (demo_messages "s") demo_view)) _ _ [] _).
  vm_compute. reflexivity.
Defined.

Lemma convert_keeps_own_blocks_witness :
  ∃ m, m ∈ demo_messages "s" ∧
    ChatRole (nth 2 (Convert (demo_messages "s") demo_view) (mkChat "" "" [] None)) = Role m.
Proof.
  destruct (proj2 (convert_keeps_own_blocks demo_view (demo_messages "s"))
    (nth 2 (Convert (demo_messages "s") demo_view) (mkChat "" "" [] None))) as (m & Hm & _ & Hr & _).
  - vm_compute. do 2 right. left.
  - vm_compute. reflexivity.
  - exists m. split; [exact Hm|exact Hr].
Defined.

Example demo_converted :
  map (λ cm, (ChatRole cm, messageText (ChatContent cm))) (Convert (demo_messages "s") demo_view) =
  [ ("user", "[Alice] Hello"); ("assistant", ""); ("tool", "");
    ("user", "[agent Smith (@smith)] Noted" +:+ newline +:+ newline +:+ "[Bob] And me?") ].
Proof. vm_compute. reflexivity. Qed.
