(* ===== verification/Store.v ===== *)
(** * The messages and memory tables (src/store/postgres.go)

    A SQL statement, or a transaction that holds what it reads, is one step on
    the tables. A statement that fails leaves them as they were: the errors of
    the database itself are not modelled. A message is kept as it is: its JSON
    column reads back what was written. *)

From S2P Require Import Prelude GoStr Utf8 Json Keys Message.
Open Scope string_scope.
Open Scope Z_scope.
Open Scope list_scope.

(** ** Messages *)

(** A row of [messages]: its ID, session, key, message, and date. *)
Record row := mkRow { RowSession : string; RowMsg : MessageWithID }.

(** The table, in the order of the insertions, and the next ID of its sequence. *)
Record Messages := mkMessages { rows : list row; nextID : Z }.

Definition noMessages : Messages := mkMessages [] 1.

Definition under (session key : string) (r : row) : bool :=
  String.eqb (RowSession r) session && String.eqb (Key (RowMsg r)) key.

Definition row_under (session key : string) (t : Messages) : option row :=
  List.find (under session key) (rows t).

#[global] Arguments row_under : simpl never.

(** [INSERT ... ON CONFLICT (session_id, msg_key)]: the row already there, or
    the new one. The sequence moves either way. *)
Definition insert_row (now : time) (session key : string) (msg : Message) (t : Messages) : row * bool * Messages :=
  match row_under session key t with
  | Some r => (r, false, mkMessages (rows t) (nextID t + 1))
  | None =>
      let r := mkRow session (mkMsg (nextID t) now key msg) in
      (r, true, mkMessages (rows t ++ [r]) (nextID t + 1))
  end.

(** [AppendMessage]: the ID of the row under the key. *)
Definition AppendMessage (now : time) (session key : string) (msg : Message) (t : Messages) : Z * Messages :=
  let '(r, _, t) := insert_row now session key msg t in (MsgID (RowMsg r), t).

Fixpoint AppendMessages (now : time) (session turnKey : string) (startIndex : Z) (messages : list Message)
    (t : Messages) : Messages :=
  match messages with
  | [] => t
  | msg :: messages =>
      let '(_, _, t) := insert_row now session (TurnMessageKey turnKey startIndex) msg t in
      AppendMessages now session turnKey (startIndex + 1) messages t
  end.

Definition AppendTurnEnd (now : time) (session turnKey : string) (msg : Message) (t : Messages) : Z * Messages :=
  AppendMessage now session (TurnEndKey turnKey) msg t.

Definition HasTurnEnd (session turnKey : string) (t : Messages) : bool :=
  match row_under session (TurnEndKey turnKey) t with Some _ => true | None => false end.

Definition DeleteMessage (session : string) (id : Z) (t : Messages) : Messages :=
  mkMessages (List.filter (λ r, negb (String.eqb (RowSession r) session && (MsgID (RowMsg r) =? id))) (rows t)) (nextID t).

Definition DeleteMessagesBySession (session : string) (t : Messages) : Messages :=
  mkMessages (List.filter (λ r, negb (String.eqb (RowSession r) session)) (rows t)) (nextID t).

Definition row_le (a b : row) : bool := MsgID (RowMsg a) <=? MsgID (RowMsg b).

(** [SELECT ... WHERE session_id = $1 ORDER BY id]. *)
Definition session_rows (session : string) (t : Messages) : list MessageWithID :=
  RowMsg <$> sort_stable row_le (List.filter (λ r, String.eqb (RowSession r) session) (rows t)).

Definition LoadMessages (session : string) (t : Messages) : list Message := Msg <$> session_rows session t.

Definition LoadMessagesUpTo (session : string) (lastID : Z) (t : Messages) : list MessageWithID :=
  List.filter (λ m, (lastID =? 0) || (MsgID m <=? lastID)) (session_rows session t).

Definition LoadMessagesWithID (session : string) (t : Messages) : list MessageWithID := LoadMessagesUpTo session 0 t.

Definition LoadConversation (session : string) (scope : TurnScope) (t : Messages) : list MessageWithID :=
  let all := session_rows session t in
  let ends := TurnEndIDs ((λ m, (MsgID m, Key m)) <$> all) in
  List.filter (λ m, TurnReads (MsgID m) (Key m) scope ends) all.

(** ** Memory *)

Record Memory := mkMemory { MemContent : string; Version : Z }.

Abbreviation MemoryTable := (gmap (string * string) Memory) (only parsing).

Definition LoadMemory (scope scopeID : string) (t : MemoryTable) : Memory :=
  match t !! (scope, scopeID) with Some m => m | None => mkMemory "" 0 end.

(** [None]: ErrMemoryConflict. *)
Definition SaveMemory (scope scopeID content : string) (expected : Z) (t : MemoryTable) : option Z * MemoryTable :=
  let k := (scope, scopeID) in
  if expected =? 0 then
    match t !! k with
    | None => (Some 1, <[k := mkMemory content 1]> t)
    | Some m =>
        if Version m =? 0 then (Some (Version m + 1), <[k := mkMemory content (Version m + 1)]> t) else (None, t)
    end
  else
    match t !! k with
    | Some m =>
        if Version m =? expected then (Some (Version m + 1), <[k := mkMemory content (Version m + 1)]> t) else (None, t)
    | None => (None, t)
    end.

(** ** The invariant of the messages *)

Definition row_key (r : row) : string * string := (RowSession r, Key (RowMsg r)).
Definition row_id (r : row) : Z := MsgID (RowMsg r).
Definition row_lt (a b : row) : Prop := row_id a < row_id b.

(** One row per session and key; IDs grow, below the sequence. *)
Record messages_ok (t : Messages) : Prop := {
  mo_keys : NoDup (row_key <$> rows t);
  mo_sorted : StronglySorted row_lt (rows t);
  mo_below : ∀ r, r ∈ rows t → 0 < row_id r < nextID t;
  mo_next : 0 < nextID t
}.

Lemma noMessages_ok : messages_ok noMessages.
Proof. split; cbn; [constructor|constructor| |done]. intros r Hr. by apply not_elem_of_nil in Hr. Qed.

Lemma under_spec session key r : under session key r = true ↔ row_key r = (session, key).
Proof. unfold under, row_key. rewrite andb_true_iff, !String.eqb_eq. split; [intros [-> ->]; done|by intros [= -> ->]]. Qed.

Lemma row_under_some session key t r :
  row_under session key t = Some r → r ∈ rows t ∧ row_key r = (session, key).
Proof. intros H%find_some. rewrite <- list_elem_of_In in H. by rewrite <- under_spec. Qed.

Lemma row_under_none session key t :
  row_under session key t = None ↔ (session, key) ∉ (row_key <$> rows t).
Proof.
  unfold row_under. split.
  - intros H Hin. apply list_elem_of_fmap in Hin as (r & Hk & Hr). apply list_elem_of_In in Hr.
    apply (find_none _ _ H) in Hr. symmetry in Hk. apply under_spec in Hk. congruence.
  - intros H. destruct (List.find _ _) as [r|] eqn:E; [|done]. exfalso. apply H.
    apply (row_under_some session key t) in E as [Hr <-]. by apply list_elem_of_fmap_2.
Qed.

Lemma nodup_key_eq t r r' : NoDup (row_key <$> rows t) → r ∈ rows t → r' ∈ rows t → row_key r = row_key r' → r = r'.
Proof.
  intros Hnd Hr Hr' Hk. apply list_elem_of_lookup in Hr as [i Hi], Hr' as [j Hj].
  assert (i = j) as ->; [|congruence]. eapply NoDup_lookup; [done| |]; rewrite list_lookup_fmap; [by rewrite Hi|].
  rewrite Hj. cbn. by rewrite Hk.
Qed.

Lemma row_under_in t r : messages_ok t → r ∈ rows t → row_under (RowSession r) (Key (RowMsg r)) t = Some r.
Proof.
  intros Hok Hr. destruct (row_under _ _ t) as [r'|] eqn:E.
  - apply row_under_some in E as [Hr' Hk]. f_equal. by eapply nodup_key_eq; [apply Hok|..].
  - apply row_under_none in E. exfalso. apply E. apply list_elem_of_fmap. by exists r.
Qed.

Lemma insert_row_ok now session key msg t :
  messages_ok t → messages_ok (insert_row now session key msg t).2.
Proof.
  intros [Hk Hs Hb Hn]. unfold insert_row. destruct (row_under session key t) as [r|] eqn:E; cbn.
  - split; cbn; try done; try lia. intros x Hx. apply Hb in Hx. lia.
  - apply row_under_none in E. split; cbn; try lia.
    + rewrite fmap_app. apply NoDup_app. split_and!; [done| |apply NoDup_singleton].
      intros x Hx Hx'%list_elem_of_singleton. subst x. done.
    + apply StronglySorted_app. split_and!; [|done|repeat constructor].
      intros x y Hx Hy%list_elem_of_singleton. subst y. apply Hb in Hx. unfold row_lt, row_id. cbn. unfold row_id in Hx. lia.
    + intros x [Hx|Hx%list_elem_of_singleton]%elem_of_app; [apply Hb in Hx; lia|]. subst x. cbn. unfold row_id. cbn. lia.
Qed.

(** What a row under a key reads back, whoever wrote it. *)
Lemma insert_row_under now session key msg t :
  messages_ok t →
  let '(r, _, t') := insert_row now session key msg t in
  row_under session key t' = Some r ∧
  (∀ s k r', row_under s k t = Some r' → row_under s k t' = Some r') ∧
  (∀ s k, (s, k) ≠ (session, key) → row_under s k t' = row_under s k t).
Proof.
  intros Hok. pose proof (insert_row_ok now session key msg t Hok) as Hok'. unfold insert_row in *.
  destruct (row_under session key t) as [r|] eqn:E; cbn in *; [done|].
  assert (Hfind : ∀ s k, row_under s k (mkMessages (rows t ++ [mkRow session (mkMsg (nextID t) now key msg)]) (nextID t + 1)) =
    match row_under s k t with
    | Some r => Some r
    | None => if under s k (mkRow session (mkMsg (nextID t) now key msg)) then Some (mkRow session (mkMsg (nextID t) now key msg)) else None
    end).
  { intros s k. unfold row_under. cbn [rows]. clear. induction (rows t) as [|x l IH]; cbn; [by case_match|].
    by destruct (under s k x). }
  split_and!.
  - rewrite Hfind, E. unfold under. cbn. by rewrite !String.eqb_refl.
  - intros s k r' Hr. by rewrite Hfind, Hr.
  - intros s k Hne. rewrite Hfind. destruct (row_under s k t); [done|].
    destruct (under s k _) eqn:Eu; [|done]. apply under_spec in Eu. cbn in Eu. unfold row_key in Eu. cbn in Eu. congruence.
Qed.

(** ** Rows are never rewritten *)

(** [t'] has every row of [t], at its place in its session. *)
Definition extends (t t' : Messages) : Prop :=
  (∃ new, rows t' = rows t ++ new) ∧ nextID t ≤ nextID t'.

Lemma insert_row_extends now session key msg t : extends t (insert_row now session key msg t).2.
Proof.
  unfold insert_row, extends. destruct (row_under _ _ t); cbn; (split; [|lia]);
    [exists []; by rewrite app_nil_r|eauto].
Qed.

Lemma extends_trans a b c : extends a b → extends b c → extends a c.
Proof.
  intros [[x Hx] ?] [[y Hy] ?]. split; [|lia]. exists (x ++ y). by rewrite Hy, Hx, app_assoc.
Qed.

Lemma extends_under t t' s k r : extends t t' → row_under s k t = Some r → row_under s k t' = Some r.
Proof.
  intros [[new Hn] _] Hr. unfold row_under in *. rewrite Hn. clear Hn.
  induction (rows t) as [|x l IH]; [done|]. cbn in *. destruct (under s k x); [done|by apply IH].
Qed.

Lemma AppendMessages_ok now session turn start msgs t :
  messages_ok t → messages_ok (AppendMessages now session turn start msgs t).
Proof.
  revert start t. induction msgs as [|m msgs IH]; intros start t Hok; cbn [AppendMessages]; [done|].
  pose proof (insert_row_ok now session (TurnMessageKey turn start) m t Hok) as H.
  destruct (insert_row _ _ _ _ t) as [[r b] t']. by apply IH.
Qed.

Lemma AppendMessages_extends now session turn start msgs t :
  extends t (AppendMessages now session turn start msgs t).
Proof.
  revert start t. induction msgs as [|m msgs IH]; intros start t; cbn [AppendMessages].
  - split; [exists []; by rewrite app_nil_r|lia].
  - pose proof (insert_row_extends now session (TurnMessageKey turn start) m t) as H.
    destruct (insert_row _ _ _ _ t) as [[r b] t']. eapply extends_trans; [exact H|apply IH].
Qed.

(** Every message of a batch is under its key once it is written. *)
Lemma AppendMessages_under now session turn start msgs t i :
  messages_ok t → (i < length msgs)%nat →
  is_Some (row_under session (TurnMessageKey turn (start + Z.of_nat i)) (AppendMessages now session turn start msgs t)).
Proof.
  revert start t i. induction msgs as [|m msgs IH]; intros start t i Hok Hi; cbn in Hi; [lia|]. cbn [AppendMessages].
  pose proof (insert_row_ok now session (TurnMessageKey turn start) m t Hok) as Hok'.
  pose proof (insert_row_under now session (TurnMessageKey turn start) m t Hok) as Hu.
  destruct (insert_row _ _ _ _ t) as [[r b] t']. destruct Hu as (Hr & _). cbn in Hok'.
  destruct i as [|i].
  - rewrite Z.add_0_r. exists r. eapply extends_under; [apply AppendMessages_extends|done].
  - replace (start + Z.of_nat (S i)) with (start + 1 + Z.of_nat i) by lia. apply IH; [done|lia].
Qed.

(** Keys all taken: nothing is written. *)
Lemma AppendMessages_taken now session turn start msgs t :
  (∀ i, (i < length msgs)%nat → is_Some (row_under session (TurnMessageKey turn (start + Z.of_nat i)) t)) →
  rows (AppendMessages now session turn start msgs t) = rows t.
Proof.
  revert start t. induction msgs as [|m msgs IH]; intros start t Hall; cbn [AppendMessages]; [done|].
  destruct (Hall 0%nat ltac:(cbn; lia)) as [r Hr]. rewrite Z.add_0_r in Hr. unfold insert_row. rewrite Hr.
  rewrite IH; [done|]. intros i Hi. destruct (Hall (S i) ltac:(cbn; lia)) as [r' Hr'].
  exists r'. replace (start + 1 + Z.of_nat i) with (start + Z.of_nat (S i)) by lia. done.
Qed.

(** What a statement may do to the table meanwhile: any insertion. *)
Inductive appends : Messages → Messages → Prop :=
| appends_refl t : appends t t
| appends_insert t now session key msg t' :
    appends (insert_row now session key msg t).2 t' → appends t t'.

Lemma appends_ok t t' : appends t t' → messages_ok t → messages_ok t'.
Proof. induction 1; [done|]. intros Hok. by apply IHappends, insert_row_ok. Qed.

Lemma appends_extends t t' : appends t t' → extends t t'.
Proof.
  induction 1 as [t|t now s k m t' _ IH]; [split; [exists []; by rewrite app_nil_r|lia]|].
  eapply extends_trans; [apply insert_row_extends|done].
Qed.

(** ** A turn's conversation *)

Lemma sorted_filter (f : row → bool) l : StronglySorted row_lt l → StronglySorted row_lt (List.filter f l).
Proof.
  induction 1 as [|x l Hl IH Hf]; cbn; [constructor|]. destruct (f x); [|done]. constructor; [done|].
  rewrite Forall_forall in *. intros y [Hy _]%elem_filter. by apply Hf.
Qed.

(** In a well-formed table the rows of a session are by ID already. *)
Lemma session_rows_eq session t :
  messages_ok t → session_rows session t = RowMsg <$> List.filter (λ r, String.eqb (RowSession r) session) (rows t).
Proof.
  intros Hok. unfold session_rows. rewrite sort_stable_id; [done|].
  pose proof (sorted_filter (λ r, String.eqb (RowSession r) session) _ (mo_sorted _ Hok)) as Hs.
  induction Hs as [|x l Hl IH Hf]; constructor; [done|]. eapply Forall_impl; [done|].
  unfold row_lt, row_le, row_id. intros y Hy. cbn in *. apply Z.leb_le. lia.
Qed.

Lemma session_rows_insert session now s key msg t :
  messages_ok t →
  session_rows session (insert_row now s key msg t).2 =
  session_rows session t ++
  match row_under s key t with
  | None => if String.eqb s session then [mkMsg (nextID t) now key msg] else []
  | Some _ => []
  end.
Proof.
  intros Hok. rewrite !session_rows_eq; [|done|by apply insert_row_ok]. unfold insert_row.
  destruct (row_under s key t); cbn; [by rewrite app_nil_r|]. rewrite List.filter_app, fmap_app. cbn.
  by destruct (String.eqb s session).
Qed.

Definition keyed (m : MessageWithID) : Z * string := (MsgID m, Key m).

Definition ends_of (l : list MessageWithID) : gmap string Z := TurnEndIDs (keyed <$> l).

Lemma ends_of_snoc l m :
  ends_of (l ++ [m]) =
  if IsTurnEnd (Key m) then match TurnOf (Key m) with Some turn => <[turn := MsgID m]> (ends_of l) | None => ends_of l end
  else ends_of l.
Proof. unfold ends_of, TurnEndIDs. rewrite fmap_app, fold_left_app. cbn. by destruct (IsTurnEnd (Key m)). Qed.

Lemma ends_of_key l turn e : ends_of l !! turn = Some e → ∃ m, m ∈ l ∧ Key m = TurnEndKey turn ∧ MsgID m = e.
Proof.
  induction l as [|m l IH] using rev_ind; [unfold ends_of; cbn; by rewrite lookup_empty|].
  rewrite ends_of_snoc. intros H.
  assert (ends_of l !! turn = Some e → ∃ m0, m0 ∈ l ++ [m] ∧ Key m0 = TurnEndKey turn ∧ MsgID m0 = e) as IH'.
  { intros H'. destruct (IH H') as (m0 & Hm0 & ?). exists m0. split; [|done]. apply elem_of_app. by left. }
  destruct (IsTurnEnd (Key m)) eqn:Ee; [|by apply IH'].
  destruct (TurnOf (Key m)) as [t|] eqn:Et; [|by apply IH'].
  destruct (decide (t = turn)) as [->|Hne].
  - rewrite lookup_insert_eq in H. injection H as <-. exists m. split; [set_solver|].
    unfold IsTurnEnd in Ee. rewrite Et in Ee. by apply String.eqb_eq in Ee.
  - rewrite lookup_insert_ne in H by done. by apply IH'.
Qed.

Lemma LoadConversation_eq session scope t :
  LoadConversation session scope t =
  List.filter (λ m, TurnReads (MsgID m) (Key m) scope (ends_of (session_rows session t))) (session_rows session t).
Proof. done. Qed.

Lemma filter_ext_in {A} (f g : A → bool) l : (∀ x, x ∈ l → f x = g x) → List.filter f l = List.filter g l.
Proof. intros H. apply List.filter_ext_in. intros x Hx. apply H. by apply list_elem_of_In. Qed.

(** A write a turn of [scope] does not wait for: one that lands after the
    message it answers, of nobody, of another session, or of another
    participant's turn that was not over by then. *)
Definition meanwhile (session : string) (scope : TurnScope) (t : Messages) (s key : string) : Prop :=
  s = session →
  match TurnOf key with
  | None => True
  | Some turn =>
      contains (Turns scope) turn = false ∧ TurnParticipant turn ≠ Participant scope ∧
      ∀ e, ends_of (session_rows session t) !! turn = Some e → UpTo scope < e
  end.

Lemma TurnReads_ends id key scope ends ends' :
  (∀ turn, TurnOf key = Some turn → contains (Turns scope) turn = false → TurnParticipant turn ≠ Participant scope →
    match ends !! turn with Some e => e <=? UpTo scope | None => false end =
    match ends' !! turn with Some e => e <=? UpTo scope | None => false end) →
  TurnReads id key scope ends = TurnReads id key scope ends'.
Proof.
  intros H. unfold TurnReads. destruct (TurnOf key) as [turn|]; [|done]. destruct (IsTurnEnd key); [done|].
  destruct (contains (Turns scope) turn) eqn:Ec; [done|]. specialize (H turn eq_refl Ec).
  unfold TurnParticipant in H. destruct (parseTurn turn) as [[a p]|]; (destruct (UpTo scope <? _); [done|]).
  - destruct (String.eqb_spec p (Participant scope)); auto.
  - destruct (String.eqb_spec "" (Participant scope)); auto.
Qed.

Lemma TurnReads_unread id key scope ends :
  UpTo scope < id →
  match TurnOf key with
  | None => True
  | Some turn =>
      contains (Turns scope) turn = false ∧ TurnParticipant turn ≠ Participant scope ∧
      ∀ e, ends !! turn = Some e → UpTo scope < e
  end →
  TurnReads id key scope ends = false.
Proof.
  intros Hid Hk. unfold TurnReads, TurnParticipant in *. destruct (TurnOf key) as [turn|]; [|by apply Z.leb_gt].
  destruct Hk as (-> & Hp & He). destruct (IsTurnEnd key); [done|].
  assert (Hend : match ends !! turn with Some e => e <=? UpTo scope | None => false end = false).
  { destruct (ends !! turn) as [e|] eqn:E; [|done]. apply Z.leb_gt. by apply He. }
  destruct (parseTurn turn) as [[a p]|]; (destruct (UpTo scope <? _); [done|]); apply String.eqb_neq in Hp; by rewrite Hp.
Qed.

Lemma load_meanwhile session scope now s key msg t :
  messages_ok t → UpTo scope < nextID t → meanwhile session scope t s key →
  LoadConversation session scope (insert_row now s key msg t).2 = LoadConversation session scope t.
Proof.
  intros Hok Hup Hm. rewrite !LoadConversation_eq, session_rows_insert by done.
  destruct (row_under s key t) eqn:Er; [by rewrite !app_nil_r|].
  destruct (String.eqb_spec s session) as [->|]; [|by rewrite !app_nil_r].
  specialize (Hm eq_refl). set (l := session_rows session t) in *. set (m := mkMsg (nextID t) now key msg).
  assert (Hnoend : IsTurnEnd key = true → ∀ turn, TurnOf key = Some turn → ends_of l !! turn = None).
  { intros He turn Ht. destruct (ends_of l !! turn) as [e|] eqn:E; [|done]. exfalso.
    apply ends_of_key in E as (m0 & Hm0 & Hk0 & _). apply row_under_none in Er. apply Er.
    subst l. rewrite session_rows_eq in Hm0 by done. apply list_elem_of_fmap in Hm0 as (r & -> & Hr).
    apply elem_filter in Hr as [Hr Hs%String.eqb_eq]. apply list_elem_of_fmap. exists r. split; [|done].
    unfold row_key. rewrite Hs, Hk0. unfold IsTurnEnd in He. rewrite Ht in He. by apply String.eqb_eq in He as ->. }
  rewrite List.filter_app. cbn [List.filter].
  assert (Hnew : TurnReads (MsgID m) (Key m) scope (ends_of (l ++ [m])) = false).
  { apply TurnReads_unread; [done|]. cbn [Key m]. destruct (TurnOf key) as [turn|] eqn:Et; [|done].
    destruct Hm as (Hc & Hp & He). split_and!; [done..|]. intros e. rewrite ends_of_snoc. cbn [Key m MsgID].
    rewrite Et. destruct (IsTurnEnd key); [|apply He]. rewrite lookup_insert_eq. by intros [= <-]. }
  rewrite Hnew, app_nil_r. apply filter_ext_in. intros x Hx. apply TurnReads_ends.
  intros turn Ht Hc Hp. rewrite ends_of_snoc. cbn [Key m MsgID].
  destruct (IsTurnEnd key) eqn:Ee; [|done]. destruct (TurnOf key) as [turn'|] eqn:Et; [|done].
  destruct (decide (turn' = turn)) as [->|Hne]; [|by rewrite lookup_insert_ne].
  rewrite lookup_insert_eq, (Hnoend eq_refl turn eq_refl). apply Z.leb_gt. done.
Qed.

(** Any number of such writes. *)
Inductive meanwhiles (session : string) (scope : TurnScope) : Messages → Messages → Prop :=
| meanwhiles_refl t : meanwhiles session scope t t
| meanwhiles_insert t now s key msg t' :
    meanwhile session scope t s key → meanwhiles session scope (insert_row now s key msg t).2 t' →
    meanwhiles session scope t t'.

(** A save is kept exactly when the memory is at the version it names. *)
Lemma SaveMemory_some scope id content expected v t t' :
  SaveMemory scope id content expected t = (Some v, t') →
  Version (LoadMemory scope id t) = expected ∧ v = expected + 1 ∧
  t' = <[(scope, id) := mkMemory content (expected + 1)]> t.
Proof.
  unfold SaveMemory, LoadMemory. destruct (t !! (scope, id)) as [m|]; cbn [Version].
  - destruct (Z.eqb_spec expected 0) as [->|].
    + destruct (Z.eqb_spec (Version m) 0) as [->|]; [|done]. by intros [= <- <-].
    + destruct (Z.eqb_spec (Version m) expected) as [->|]; [|done]. by intros [= <- <-].
  - destruct (Z.eqb_spec expected 0) as [->|]; [|done]. by intros [= <- <-].
Qed.

Lemma SaveMemory_miss scope id content expected t :
  Version (LoadMemory scope id t) ≠ expected → SaveMemory scope id content expected t = (None, t).
Proof.
  unfold SaveMemory, LoadMemory. destruct (t !! (scope, id)) as [m|]; cbn [Version]; intros Hne.
  - destruct (Z.eqb_spec expected 0) as [->|].
    + by destruct (Z.eqb_spec (Version m) 0).
    + by destruct (Z.eqb_spec (Version m) expected).
  - by destruct (Z.eqb_spec expected 0) as [->|].
Qed.

(** ** Properties *)

(** A batch of a turn written again, whatever was written in between and
    whatever the second attempt holds, writes nothing: each of its messages is
    the one first stored under its key. *)
Theorem append_retried now now' session turn start msgs msgs' t t' :
  messages_ok t → length msgs = length msgs' →
  appends (AppendMessages now session turn start msgs t) t' →
  rows (AppendMessages now' session turn start msgs' t') = rows t' ∧
  (∀ i, (i < length msgs)%nat →
    is_Some (row_under session (TurnMessageKey turn (start + Z.of_nat i)) t') ∧
    row_under session (TurnMessageKey turn (start + Z.of_nat i)) t' =
    row_under session (TurnMessageKey turn (start + Z.of_nat i)) (AppendMessages now session turn start msgs t)).
Proof.
  intros Hok Hlen Ha. pose proof (appends_extends _ _ Ha) as He.
  assert (Hi : ∀ i, (i < length msgs)%nat → ∃ r,
    row_under session (TurnMessageKey turn (start + Z.of_nat i)) (AppendMessages now session turn start msgs t) = Some r ∧
    row_under session (TurnMessageKey turn (start + Z.of_nat i)) t' = Some r).
  { intros i Hi. destruct (AppendMessages_under now session turn start msgs t i Hok Hi) as [r Hr].
    exists r. split; [done|]. by eapply extends_under. }
  split.
  - apply AppendMessages_taken. intros i Hl. destruct (Hi i ltac:(lia)) as (r & _ & Hr). by exists r.
  - intros i Hl. destruct (Hi i Hl) as (r & -> & ->). done.
Qed.

(** What a turn reads of its session does not move while it works:
    whatever people, tasks and the other participants write after the message
    it answers, it reads the same messages. *)
Theorem conversation_stable session scope t t' :
  messages_ok t → UpTo scope < nextID t → meanwhiles session scope t t' →
  LoadConversation session scope t' = LoadConversation session scope t.
Proof.
  intros Hok Hup Hm. induction Hm as [|t now s key msg t' Hk _ IH]; [done|].
  rewrite IH; [by apply load_meanwhile|by apply insert_row_ok|].
  destruct (insert_row_extends now s key msg t) as [_ Hn]. lia.
Qed.

(** Of the saves made from one version of a memory, whatever their order,
    one at most is kept: a save is kept exactly when the memory is at the version
    it read, and it moves the memory to a version nobody read before. *)
Theorem memory_saves_exclusive scope id content content' expected v t t' :
  SaveMemory scope id content expected t = (Some v, t') →
  Version (LoadMemory scope id t) = expected ∧ v = expected + 1 ∧
  LoadMemory scope id t' = mkMemory content v ∧
  SaveMemory scope id content' expected t' = (None, t') ∧
  (∀ s i, (s, i) ≠ (scope, id) → LoadMemory s i t' = LoadMemory s i t).
Proof.
  intros (Hv & -> & ->)%SaveMemory_some.
  assert (Hload : LoadMemory scope id (<[(scope, id) := mkMemory content (expected + 1)]> t) = mkMemory content (expected + 1)).
  { unfold LoadMemory. by rewrite lookup_insert_eq. }
  split_and!; [done|done|done| |].
  - apply SaveMemory_miss. rewrite Hload. cbn. lia.
  - intros s i Hne. unfold LoadMemory. by rewrite lookup_insert_ne.
Qed.

(** ** Witnesses *)

Definition demo_table : Messages :=
  (insert_row 0 "s" (HumanMessageKey "a") (plainMessage RoleUser "x") noMessages).2.

Lemma demo_table_ok : messages_ok demo_table.
Proof. apply insert_row_ok, noMessages_ok. Qed.

Lemma append_retried_witness :
  rows (AppendMessages 2 "s" "m1.jarvis" 0 [plainMessage RoleAssistant "y"]
          (AppendMessages 1 "s" "m1.jarvis" 0 [plainMessage RoleAssistant "x"] demo_table)) =
  rows (AppendMessages 1 "s" "m1.jarvis" 0 [plainMessage RoleAssistant "x"] demo_table).
Proof.
  refine (proj1 (append_retried 1 2 "s" "m1.jarvis" 0 [plainMessage RoleAssistant "x"] [plainMessage RoleAssistant "y"]
    demo_table _ demo_table_ok eq_refl (appends_refl _))).
Defined.

Lemma conversation_stable_witness :
  LoadConversation "s" (ScopeOf "m1.jarvis" []) (insert_row 3 "s" (HumanMessageKey "b") (plainMessage RoleUser "y") demo_table).2 =
  LoadConversation "s" (ScopeOf "m1.jarvis" []) demo_table.
Proof.
  refine (conversation_stable "s" (ScopeOf "m1.jarvis" []) demo_table _ demo_table_ok _ _).
  - vm_compute. reflexivity.
  - eapply meanwhiles_insert; [|apply meanwhiles_refl]. intros _. vm_compute. exact I.
Defined.

Lemma memory_saves_exclusive_witness :
  SaveMemory "user" "u" "b" 0 (snd (SaveMemory "user" "u" "a" 0 ∅)) = (None, snd (SaveMemory "user" "u" "a" 0 ∅)).
Proof.
  refine (proj1 (proj2 (proj2 (proj2 (memory_saves_exclusive "user" "u" "a" "b" 0 1 ∅ _ _))))).
  reflexivity.
Defined.

(** ** Deleting a session's rows *)

Lemma delete_rows_ok session t : messages_ok t → messages_ok (DeleteMessagesBySession session t).
Proof.
  intros [Hk Hs Hb Hn]. split; cbn; [|by apply sorted_filter| |done].
  - induction (rows t) as [|r l IH]; cbn; [constructor|]. apply NoDup_cons in Hk as [Hr Hl].
    apply StronglySorted_inv in Hs as [Hs _]. specialize (IH Hl Hs ltac:(intros; apply Hb; by right)).
    destruct (negb _); [|done]. rewrite fmap_cons. constructor; [|done].
    intros Hin. apply Hr. apply list_elem_of_fmap in Hin as (x & -> & [Hx _]%elem_filter). by apply list_elem_of_fmap_2.
  - intros r [Hr _]%elem_filter. by apply Hb.
Qed.

Lemma delete_rows_under session s key t :
  s ≠ session → row_under s key (DeleteMessagesBySession session t) = row_under s key t.
Proof.
  intros Hne. unfold row_under, DeleteMessagesBySession. cbn [rows].
  induction (rows t) as [|r l IH]; cbn; [done|]. destruct (String.eqb_spec (RowSession r) session) as [He|He]; cbn [negb].
  - rewrite IH. unfold under at 2. destruct (String.eqb_spec (RowSession r) s); [congruence|done].
  - cbn. by rewrite IH.
Qed.
