(* ===== verification/Tasks.v ===== *)
(** * Background tasks in the store (src/store/background_task.go)

    The table of the tasks beside the messages. Each operation is one
    transaction, so one step: it locks the task's row, or the participant, for
    what it reads and writes. [AddTaskFollowUp] and [SetTaskCancelledBy] read
    again, in a later statement, why they changed nothing: the state of that
    statement is an argument of its own. *)

From S2P Require Import Prelude GoStr Utf8 Json Keys Message Store.
Open Scope string_scope.
Open Scope Z_scope.
Open Scope list_scope.

Definition TaskEndedByTask : string := "task".
Definition TaskEndedBySweep : string := "sweep".

Record BackgroundTask := mkTask {
  TaskID : string;
  SessionID : string;
  TaskParticipant : string;
  TaskUserID : string;
  TaskUserName : string;
  Tool : string;
  Summary : string;
  TurnKeyOf : string;
  TaskCallID : string;
  Channel : string;
  ChannelID : string;
  State : string;
  StartedAt : time;
  EndedAt : option time;
  EndedBy : string;
  ResultMessageID : Z;
  CancelledBy : string;
  CancelSentAt : option time;
  WokenAt : option time;
  FollowUps : list TaskFollowUp
}.

Inductive TaskError := ErrTooManyTasks | ErrTaskSessionGone | ErrTaskNotFound | ErrTaskOver | ErrTooManyFollowUps.

(** [BackgroundTask.Ref]. *)
Definition Ref (t : BackgroundTask) : TaskRef :=
  mkTaskRef (TaskID t) (Tool t) (Summary t) (TurnKeyOf t) (TaskCallID t) (State t) (TaskUserName t)
    (StartedAt t) (match EndedAt t with Some e => e | None => 0 end) (CancelledBy t) (FollowUps t) None.

(** What the tasks read of a session's row. *)
Record Session := mkSession { SessAgentID : string; SessChannel : string; SessChannelID : string }.

Record DB := mkDB {
  sessions : gmap string Session;
  messages : Messages;
  memory : MemoryTable;
  tasks : gmap string BackgroundTask
}.

Definition with_tasks (db : DB) (ts : gmap string BackgroundTask) : DB := mkDB (sessions db) (messages db) (memory db) ts.

Definition running (t : BackgroundTask) : bool := String.eqb (State t) BackgroundRunning.

Definition of_participant (session participant : string) (t : BackgroundTask) : bool :=
  String.eqb (SessionID t) session && String.eqb (TaskParticipant t) participant.

Definition running_of (session participant : string) (t : BackgroundTask) : bool :=
  of_participant session participant t && running t.

(** [SELECT count( * ) ... WHERE state = 'running']. *)
Definition count_running (session participant : string) (db : DB) : Z :=
  Z.of_nat (size (filter (λ kv, running_of session participant kv.2 = true) (tasks db))).

(** The row [RegisterTask] inserts: the columns it does not name take their
    default. *)
Definition registered (t : BackgroundTask) (now : time) : BackgroundTask :=
  mkTask (TaskID t) (SessionID t) (TaskParticipant t) (TaskUserID t) (TaskUserName t) (Tool t) (Summary t) (TurnKeyOf t)
    (TaskCallID t) (Channel t) (ChannelID t) BackgroundRunning now None "" 0 "" None None (FollowUps t).

Definition RegisterTask (now : time) (t : BackgroundTask) (max : Z) (db : DB) : option TaskError * DB :=
  match tasks db !! TaskID t with
  | Some _ => (None, db)
  | None =>
      if max <=? count_running (SessionID t) (TaskParticipant t) db then (Some ErrTooManyTasks, db)
      else
        match sessions db !! SessionID t with
        | Some _ => (None, with_tasks db (<[TaskID t := registered t now]> (tasks db)))
        | None => (Some ErrTaskSessionGone, db)
        end
  end.

Definition DropTask (id : string) (db : DB) : DB :=
  match tasks db !! id with
  | Some t => if running t then with_tasks db (delete id (tasks db)) else db
  | None => db
  end.

Definition GetTask (id : string) (db : DB) : option BackgroundTask := tasks db !! id.

(** ** Lists

    [ORDER BY] a date, then the ID in the database's collation. *)
Section Lists.
Variable collate : string → string → bool.

Definition by_time (f : BackgroundTask → time) (a b : BackgroundTask) : bool :=
(f a <? f b) || ((f a =? f b) && collate (TaskID a) (TaskID b)).

Definition listTasks (cond : BackgroundTask → bool) (f : BackgroundTask → time) (db : DB) : list BackgroundTask :=
sort_stable (by_time f) (List.filter cond (snd <$> map_to_list (tasks db))).

Definition ListRunningTasks (session participant : string) : DB → list BackgroundTask :=
listTasks (λ t, String.eqb (SessionID t) session &&
                (String.eqb participant "" || String.eqb (TaskParticipant t) participant) && running t) StartedAt.

Definition ended_at (t : BackgroundTask) : time := match EndedAt t with Some e => e | None => 0 end.

(** A NULL [ended_at] is before nothing. *)
Definition ListTasksToWake (endedBefore : time) : DB → list BackgroundTask :=
listTasks (λ t, (String.eqb (State t) BackgroundDone || String.eqb (State t) BackgroundFailed) &&
                match WokenAt t with None => true | Some _ => false end &&
                match EndedAt t with Some e => e <? endedBefore | None => false end) ended_at.

Definition ListTasksToCancel : DB → list BackgroundTask :=
listTasks (λ t, running t && negb (String.eqb (CancelledBy t) "") &&
                match CancelSentAt t with None => true | Some _ => false end) StartedAt.

Definition ListTasksRunningSince (before_ : time) : DB → list BackgroundTask :=
listTasks (λ t, running t && (StartedAt t <? before_)) StartedAt.
End Lists.

(** ** Changes of a row *)

Definition set_woken (now : time) (t : BackgroundTask) : BackgroundTask :=
  mkTask (TaskID t) (SessionID t) (TaskParticipant t) (TaskUserID t) (TaskUserName t) (Tool t) (Summary t) (TurnKeyOf t)
    (TaskCallID t) (Channel t) (ChannelID t) (State t) (StartedAt t) (EndedAt t) (EndedBy t) (ResultMessageID t)
    (CancelledBy t) (CancelSentAt t) (Some now) (FollowUps t).

Definition set_cancel_sent (now : time) (t : BackgroundTask) : BackgroundTask :=
  mkTask (TaskID t) (SessionID t) (TaskParticipant t) (TaskUserID t) (TaskUserName t) (Tool t) (Summary t) (TurnKeyOf t)
    (TaskCallID t) (Channel t) (ChannelID t) (State t) (StartedAt t) (EndedAt t) (EndedBy t) (ResultMessageID t)
    (CancelledBy t) (Some now) (WokenAt t) (FollowUps t).

Definition set_cancelled_by (name : string) (t : BackgroundTask) : BackgroundTask :=
  mkTask (TaskID t) (SessionID t) (TaskParticipant t) (TaskUserID t) (TaskUserName t) (Tool t) (Summary t) (TurnKeyOf t)
    (TaskCallID t) (Channel t) (ChannelID t) (State t) (StartedAt t) (EndedAt t) (EndedBy t) (ResultMessageID t)
    name (CancelSentAt t) (WokenAt t) (FollowUps t).

Definition add_follow_up (f : TaskFollowUp) (t : BackgroundTask) : BackgroundTask :=
  mkTask (TaskID t) (SessionID t) (TaskParticipant t) (TaskUserID t) (TaskUserName t) (Tool t) (Summary t) (TurnKeyOf t)
    (TaskCallID t) (Channel t) (ChannelID t) (State t) (StartedAt t) (EndedAt t) (EndedBy t) (ResultMessageID t)
    (CancelledBy t) (CancelSentAt t) (WokenAt t) (FollowUps t ++ [f]).

Definition end_task (by_ state : string) (now : time) (t : BackgroundTask) : BackgroundTask :=
  mkTask (TaskID t) (SessionID t) (TaskParticipant t) (TaskUserID t) (TaskUserName t) (Tool t) (Summary t) (TurnKeyOf t)
    (TaskCallID t) (Channel t) (ChannelID t) state (StartedAt t) (Some now) by_ (ResultMessageID t)
    (if String.eqb state BackgroundCancelled then CancelledBy t else "") (CancelSentAt t) (WokenAt t) (FollowUps t).

Definition set_result (id : Z) (t : BackgroundTask) : BackgroundTask :=
  mkTask (TaskID t) (SessionID t) (TaskParticipant t) (TaskUserID t) (TaskUserName t) (Tool t) (Summary t) (TurnKeyOf t)
    (TaskCallID t) (Channel t) (ChannelID t) (State t) (StartedAt t) (EndedAt t) (EndedBy t) id
    (CancelledBy t) (CancelSentAt t) (WokenAt t) (FollowUps t).

(** [UPDATE ... WHERE id = $1 AND cond]. *)
Definition update (id : string) (cond : BackgroundTask → bool) (f : BackgroundTask → BackgroundTask) (db : DB) : bool * DB :=
  match tasks db !! id with
  | Some t => if cond t then (true, with_tasks db (<[id := f t]> (tasks db))) else (false, db)
  | None => (false, db)
  end.

Definition SetTaskWoken (now : time) (id : string) (db : DB) : DB :=
  (update id (λ t, match WokenAt t with None => true | Some _ => false end) (set_woken now) db).2.

Definition SetTaskCancelSent (now : time) (id : string) (db : DB) : DB :=
  (update id (λ t, match CancelSentAt t with None => true | Some _ => false end) (set_cancel_sent now) db).2.

(** [later]: the database the second statement reads. *)
Definition AddTaskFollowUp (session participant id : string) (f : TaskFollowUp) (max : Z) (db later : DB) : option TaskError * DB :=
  let '(changed, db) :=
    update id (λ t, of_participant session participant t && running t && (Z.of_nat (length (FollowUps t)) <? max))
      (add_follow_up f) db in
  if changed then (None, db)
  else
    (match GetTask id later with
     | None => Some ErrTaskNotFound
     | Some t =>
         if negb (String.eqb (SessionID t) session) || negb (String.eqb (TaskParticipant t) participant) then Some ErrTaskNotFound
         else if negb (running t) then Some ErrTaskOver
         else Some ErrTooManyFollowUps
     end, db).

Definition SetTaskCancelledBy (id name : string) (db later : DB) : option TaskError * DB :=
  let '(changed, db) := update id running (set_cancelled_by name) db in
  if changed then (None, db)
  else (match GetTask id later with None => Some ErrTaskNotFound | Some _ => Some ErrTaskOver end, db).

(** ** The end of a task *)

Record TaskEnding := mkEnding { EndTaskOf : option BackgroundTask; EndMessageID : Z; Mine : bool; Gone : bool }.

(** The states the table's CHECK takes; [None] is the error of any other,
    nothing being written. *)
Definition valid_state (state : string) : bool :=
  contains [BackgroundRunning; BackgroundDone; BackgroundFailed; BackgroundCancelled] state.

Definition EndTask (now : time) (id by_ state : string) (build : BackgroundTask → Message) (db : DB) : option TaskEnding * DB :=
  match tasks db !! id with
  | None => (Some (mkEnding None 0 false true), db)
  | Some t =>
      if negb (running t) then
        (Some (mkEnding (Some t) (ResultMessageID t) (String.eqb (EndedBy t) by_) false), db)
      else
        let t := end_task by_ state now t in
        let '(r, _, msgs) := insert_row now (SessionID t) (TaskResultKey id) (build t) (messages db) in
        let t := set_result (MsgID (RowMsg r)) t in
        if valid_state state then
          (Some (mkEnding (Some t) (MsgID (RowMsg r)) true false), mkDB (sessions db) msgs (memory db) (<[id := t]> (tasks db)))
        else (None, db)
  end.

(** [DeleteSession]: its row, its tasks with it, then its messages and its
    memory. *)
Definition DeleteSession (session : string) (db : DB) : DB :=
  mkDB (delete session (sessions db)) (DeleteMessagesBySession session (messages db))
    (delete ("session", session) (memory db)) (filter (λ kv, SessionID kv.2 ≠ session) (tasks db)).

(** ** The activities (src/activity/task.go) *)

Definition MaxTaskMessageBytes : Z := 16384.
Definition MaxRunningTasks : Z := 3.

(** [RegisterTaskOutput.Refused]; ["" ]: registered. *)
Definition RegisterTaskActivity (now : time) (t : BackgroundTask) (db : DB) : string * DB :=
  let '(err, db) := RegisterTask now t MaxRunningTasks db in
  (match err with
   | Some ErrTooManyTasks =>
       "You have " +:+ itoa MaxRunningTasks +:+ " background tasks running already, the most you may: " +:+
       "wait for one of them to end, or run this call without background."
   | Some ErrTaskSessionGone => "The session was deleted: nothing was started."
   | _ => ""
   end, db).

Definition TaskResultFileName (toolName : string) : string := "resultat-" +:+ toolName +:+ ".md".

Definition TaskResultMessage (t : BackgroundTask) (content : string) (file : option TaskFile) : Message :=
  let r := Ref t in
  let ref := mkTaskRef (RefID r) (RefTool r) (RefSummary r) (RefTurnKey r) (RefCallID r) (RefState r) (RequestedBy r)
               (RefStartedAt r) (RefEndedAt r) (RefCancelledBy r) (RefFollowUps r) file in
  mkMessage RoleUser (if String.eqb content "" then "" else marshal content) (TaskUserID t) (TaskParticipant t) ""
    KindTaskResult [] None None (Some ref) "" None "" "".

Definition clipBytes (s : string) (n : Z) : string :=
  if len s <=? n then s else take_str (back_to_rune s (Z.to_nat n)) s.

Definition TaskSignsReply (sess : Session) (participant : string) : bool :=
  negb (String.eqb participant (SessAgentID sess)).

Record PostTaskResultOutput := mkPost {
  PostGone : bool;
  PostMessageID : Z;
  Wake : bool;
  PostTask : option BackgroundTask;
  PostSession : option Session;
  SignReply : bool;
  PostFile : option TaskFile
}.

Definition nothingPosted : PostTaskResultOutput := mkPost false 0 false None None false None.

(** [PostTaskResult], its reads in order: the task first, the task again when
    publishing failed, the end, the session. [publish] is the publisher's answer
    for the whole result. [None] is an error, for the activity's retry. *)
Definition PostTaskResult (now : time) (id state content : string) (publish : BackgroundTask → string → option TaskFile)
    (first again db : DB) (later : DB → DB) : option PostTaskResultOutput * DB :=
  match GetTask id first with
  | None => (Some (mkPost true 0 false None None false None), db)
  | Some t =>
      if negb (running t) && negb (String.eqb (EndedBy t) TaskEndedByTask) then (Some nothingPosted, db)
      else
        let published :=
          if (MaxTaskMessageBytes <? len content) && negb (String.eqb state BackgroundCancelled) then
            match publish t content with
            | Some f => Some (clipBytes content MaxTaskMessageBytes, Some f)
            | None => None
            end
          else Some (content, None) in
        match published with
        | None =>
            match GetTask id again with
            | None => (Some (mkPost true 0 false None None false None), db)
            | Some _ => (None, db)
            end
        | Some (content, file) =>
            let '(ending, db) :=
              EndTask now id TaskEndedByTask state (λ t, TaskResultMessage t content file) db in
            (match ending with
             | None => None
             | Some e =>
                 if Gone e then Some (mkPost true 0 false None None false None)
                 else if negb (Mine e) then Some nothingPosted
                 else
                   match EndTaskOf e with
                   | None => None
                   | Some ended =>
                       if String.eqb (State ended) BackgroundCancelled then
                         Some (mkPost false (EndMessageID e) false (Some ended) None false file)
                       else
                         match sessions (later db) !! SessionID ended with
                         | None => Some (mkPost false (EndMessageID e) false (Some ended) None false file)
                         | Some sess =>
                             Some (mkPost false (EndMessageID e) true (Some ended) (Some sess)
                                     (TaskSignsReply sess (TaskParticipant ended)) file)
                         end
                   end
             end, db)
        end
  end.

(** ** Operations in any order *)

Inductive op :=
| ORegister (now : time) (t : BackgroundTask)
| ODrop (id : string)
| OFollowUp (session participant id : string) (f : TaskFollowUp) (max : Z)
| OCancelledBy (id name : string)
| OWoken (now : time) (id : string)
| OCancelSent (now : time) (id : string)
| OEnd (now : time) (id by_ state content : string) (file : option TaskFile)
| OMessage (now : time) (session key : string) (msg : Message)
| OCreateSession (id : string) (sess : Session)
| ODeleteSession (id : string).

Definition exec (o : op) (db : DB) : DB :=
  match o with
  | ORegister now t => (RegisterTask now t MaxRunningTasks db).2
  | ODrop id => DropTask id db
  | OFollowUp session participant id f max => (AddTaskFollowUp session participant id f max db db).2
  | OCancelledBy id name => (SetTaskCancelledBy id name db db).2
  | OWoken now id => SetTaskWoken now id db
  | OCancelSent now id => SetTaskCancelSent now id db
  | OEnd now id by_ state content file => (EndTask now id by_ state (λ t, TaskResultMessage t content file) db).2
  | OMessage now session key msg => mkDB (sessions db) (insert_row now session key msg (messages db)).2 (memory db) (tasks db)
  | OCreateSession id sess =>
      match sessions db !! id with
      | Some _ => db
      | None => mkDB (<[id := sess]> (sessions db)) (messages db) (memory db) (tasks db)
      end
  | ODeleteSession id => DeleteSession id db
  end.

(** The other writers' keys are no task's; a task ends done, failed or
    cancelled. *)
Definition op_ok (o : op) : Prop :=
  match o with
  | OEnd _ _ _ state _ _ => state ∈ [BackgroundDone; BackgroundFailed; BackgroundCancelled]
  | OMessage _ _ key _ => cut_prefix "task:" key = None
  | _ => True
  end.

Definition execs (ops : list op) (db : DB) : DB := fold_left (λ db o, exec o db) ops db.

Definition emptyDB : DB := mkDB ∅ noMessages ∅ ∅.

(** ** The invariant *)

Record db_ok (db : DB) : Prop := {
  do_messages : messages_ok (messages db);
  do_task : ∀ id t, tasks db !! id = Some t → TaskID t = id ∧ is_Some (sessions db !! SessionID t);
  do_row : ∀ r id, r ∈ rows (messages db) → Key (RowMsg r) = TaskResultKey id →
    ∃ t, tasks db !! id = Some t ∧ SessionID t = RowSession r ∧ running t = false;
  do_ended : ∀ id t, tasks db !! id = Some t → running t = false →
    ∃ r t0 content file, row_under (SessionID t) (TaskResultKey id) (messages db) = Some r ∧
      MsgID (RowMsg r) = ResultMessageID t ∧ Msg (RowMsg r) = TaskResultMessage t0 content file ∧ Ref t0 = Ref t
}.

Lemma emptyDB_ok : db_ok emptyDB.
Proof.
  split; cbn; [apply noMessages_ok|..]; intros *; rewrite ?lookup_empty; try done.
  intros H. by apply not_elem_of_nil in H.
Qed.

Lemma TaskResultKey_inj a b : TaskResultKey a = TaskResultKey b → a = b.
Proof.
  unfold TaskResultKey. intros H. pose proof (cut_prefix_app "task:" a) as Ha. rewrite H, cut_prefix_app in Ha. congruence.
Qed.

(** A row changed as a task keeps its place and, once ended, its end. *)
Lemma db_ok_update db id t t' :
  db_ok db → tasks db !! id = Some t → TaskID t' = TaskID t → SessionID t' = SessionID t → running t' = running t →
  (running t = false → Ref t' = Ref t ∧ ResultMessageID t' = ResultMessageID t) →
  db_ok (with_tasks db (<[id := t']> (tasks db))).
Proof.
  intros [Hm Ht Hr He] Hid Hi Hs Hrun Hend. split; cbn; [done| | |].
  - intros i x Hx. destruct (decide (i = id)) as [->|Hne].
    + rewrite lookup_insert_eq in Hx. injection Hx as <-. rewrite Hi, Hs. by apply Ht.
    + rewrite lookup_insert_ne in Hx by done. by apply Ht.
  - intros r i Hin Hk. destruct (Hr r i Hin Hk) as (x & Hx & Hxs & Hxr).
    destruct (decide (i = id)) as [->|Hne].
    + rewrite lookup_insert_eq. exists t'. rewrite Hid in Hx. injection Hx as <-. rewrite Hs, Hrun. done.
    + rewrite lookup_insert_ne by done. eauto.
  - intros i x Hx Hxr. destruct (decide (i = id)) as [->|Hne].
    + rewrite lookup_insert_eq in Hx. injection Hx as <-. rewrite Hrun in Hxr.
      destruct (Hend Hxr) as [HR Hres]. rewrite Hs, HR, Hres. by apply He.
    + rewrite lookup_insert_ne in Hx by done. by apply He.
Qed.

Lemma update_ok db id cond f :
  db_ok db →
  (∀ t, cond t = true → TaskID (f t) = TaskID t ∧ SessionID (f t) = SessionID t ∧ running (f t) = running t ∧
    (running t = false → Ref (f t) = Ref t ∧ ResultMessageID (f t) = ResultMessageID t)) →
  db_ok (update id cond f db).2.
Proof.
  intros Hok Hf. unfold update. destruct (tasks db !! id) as [t|] eqn:E; [|done].
  destruct (cond t) eqn:Ec; [|done]. destruct (Hf t Ec) as (? & ? & ? & ?). by apply (db_ok_update db id t).
Qed.

Lemma task_key_row db session id :
  db_ok db → (∀ t, tasks db !! id = Some t → SessionID t = session → running t = true) →
  row_under session (TaskResultKey id) (messages db) = None.
Proof.
  intros Hok Hrun. destruct (row_under _ _ _) as [r|] eqn:E; [|done]. exfalso.
  apply row_under_some in E as [Hr Hk]. unfold row_key in Hk. injection Hk as Hs Hk.
  destruct (do_row _ Hok r id Hr Hk) as (t & Ht & Hts & Htr). rewrite (Hrun t Ht) in Htr by congruence. done.
Qed.

Lemma RegisterTask_ok now t max db : db_ok db → db_ok (RegisterTask now t max db).2.
Proof.
  intros Hok. unfold RegisterTask. destruct (tasks db !! TaskID t) eqn:E; [done|].
  destruct (_ <=? _); [done|]. destruct (sessions db !! SessionID t) as [sess|] eqn:Es; [|done].
  destruct Hok as [Hm Ht Hr He]. split; cbn; [done| | |].
  - intros i x Hx. destruct (decide (i = TaskID t)) as [->|Hne].
    + rewrite lookup_insert_eq in Hx. injection Hx as <-. cbn. eauto.
    + rewrite lookup_insert_ne in Hx by done. by apply Ht.
  - intros r i Hin Hk. destruct (Hr r i Hin Hk) as (x & Hx & ? & ?). exists x.
    rewrite lookup_insert_ne; [done|]. intros <-. congruence.
  - intros i x Hx Hxr. destruct (decide (i = TaskID t)) as [->|Hne].
    + rewrite lookup_insert_eq in Hx. by injection Hx as <-.
    + rewrite lookup_insert_ne in Hx by done. by apply He.
Qed.

Lemma EndTask_ok now id by_ state content file db :
  db_ok db → state ∈ [BackgroundDone; BackgroundFailed; BackgroundCancelled] →
  db_ok (EndTask now id by_ state (λ t, TaskResultMessage t content file) db).2.
Proof.
  intros Hok Hst. unfold EndTask. destruct (tasks db !! id) as [t|] eqn:E; [|done].
  destruct (running t) eqn:Hrun; cbn [negb]; [|done].
  set (t1 := end_task by_ state now t).
  pose proof (insert_row_ok now (SessionID t1) (TaskResultKey id) (TaskResultMessage t1 content file) _ (do_messages _ Hok)) as Hm'.
  pose proof (insert_row_under now (SessionID t1) (TaskResultKey id) (TaskResultMessage t1 content file) _ (do_messages _ Hok)) as Hu.
  assert (Hnone : row_under (SessionID t1) (TaskResultKey id) (messages db) = None).
  { apply task_key_row; [done|]. intros t0 Ht0 _. congruence. }
  assert (Hend : running (set_result (nextID (messages db)) t1) = false).
  { unfold running. cbn. apply String.eqb_neq. intros ->. vm_compute in Hst.
    repeat (apply elem_of_cons in Hst as [Hst|Hst]; [discriminate Hst|]). by apply not_elem_of_nil in Hst. }
  unfold insert_row in *. rewrite Hnone in *. cbn [fst snd] in *. destruct (valid_state state); [|done]. cbn [snd].
  destruct Hu as (Hu1 & Hu2 & Hu3). pose proof Hok as [Hm Ht Hr He]. split; cbn [messages tasks sessions RowMsg MsgID]; [done| | |].
  - intros i x Hx. destruct (decide (i = id)) as [->|Hne].
    + rewrite lookup_insert_eq in Hx. injection Hx as <-. by apply (Ht id t).
    + rewrite lookup_insert_ne in Hx by done. by apply Ht.
  - intros r i Hin Hk. cbn [rows] in Hin. apply elem_of_app in Hin as [Hin|Hin%list_elem_of_singleton].
    + destruct (Hr r i Hin Hk) as (x & Hx & ? & ?). exists x.
      rewrite lookup_insert_ne; [done|]. intros <-. congruence.
    + subst r. cbn in Hk. apply TaskResultKey_inj in Hk as <-. rewrite lookup_insert_eq. eauto.
  - intros i x Hx Hxr. destruct (decide (i = id)) as [->|Hne].
    + rewrite lookup_insert_eq in Hx. injection Hx as <-. eexists _, t1, content, file. split; [exact Hu1|]. done.
    + rewrite lookup_insert_ne in Hx by done. destruct (He i x Hx Hxr) as (r & t0 & c & f & Hru & Hrest).
      exists r, t0, c, f. split; [|done]. by apply Hu2.
Qed.

Lemma exec_ok o db : db_ok db → op_ok o → db_ok (exec o db).
Proof.
  intros Hok Ho. destruct o; cbn [exec].
  - by apply RegisterTask_ok.
  - unfold DropTask. destruct (tasks db !! id) as [t|] eqn:E; [|done]. destruct (running t) eqn:Hr; [|done].
    destruct Hok as [Hm Ht Hrow He]. split; cbn; [done| | |].
    + intros i x [_ Hx]%lookup_delete_Some. by apply Ht.
    + intros r i Hin Hk. destruct (Hrow r i Hin Hk) as (x & Hx & ? & ?). exists x.
      rewrite lookup_delete_ne; [done|]. intros <-. congruence.
    + intros i x [_ Hx]%lookup_delete_Some. by apply He.
  - unfold AddTaskFollowUp.
    assert (db_ok (update id (λ t, of_participant session participant t && running t && (Z.of_nat (length (FollowUps t)) <? max))
      (add_follow_up f) db).2) as H.
    { apply update_ok; [done|]. intros t [[_ Hr]%andb_true_iff _]%andb_true_iff. split_and!; try done. intros Hf. cbn in Hf. congruence. }
    destruct (update _ _ _ db) as [[] db']; done.
  - unfold SetTaskCancelledBy.
    assert (db_ok (update id running (set_cancelled_by name) db).2) as H.
    { apply update_ok; [done|]. intros t Hr. split_and!; try done. intros Hf. congruence. }
    destruct (update _ _ _ db) as [[] db']; done.
  - apply update_ok; [done|]. done.
  - apply update_ok; [done|]. done.
  - by apply EndTask_ok.
  - destruct Hok as [Hm Ht Hr He]. unfold op_ok in Ho. split; cbn; [by apply insert_row_ok|done| |].
    + intros r i Hin Hk. apply (Hr r i); [|done]. unfold insert_row in Hin. destruct (row_under _ _ _) in Hin; [done|].
      cbn in Hin. apply elem_of_app in Hin as [Hin|Hin%list_elem_of_singleton]; [done|]. subst r. cbn in Hk. subst key.
      discriminate Ho.
    + intros i x Hx Hxr. destruct (He i x Hx Hxr) as (r & t0 & c & f & Hru & Hrest).
      exists r, t0, c, f. split; [|done]. eapply extends_under; [apply insert_row_extends|done].
  - destruct (sessions db !! id) eqn:E; [done|]. destruct Hok as [Hm Ht Hr He]. split; cbn; try done.
    intros i x Hx. destruct (Ht i x Hx) as [? [s Hs]]. split; [done|].
    destruct (decide (id = SessionID x)) as [->|Hne]; [by rewrite lookup_insert_eq|].
    rewrite lookup_insert_ne by done. eauto.
  - destruct Hok as [Hm Ht Hr He]. split; cbn; [by apply delete_rows_ok| | |].
    + intros i x [Hx Hs]%map_lookup_filter_Some. cbn in Hs. destruct (Ht i x Hx) as [? ?]. split; [done|].
      by rewrite lookup_delete_ne.
    + intros r i [Hin Hs]%elem_filter Hk. destruct (Hr r i Hin Hk) as (x & Hx & Hxs & ?). exists x.
      split; [|done]. apply map_lookup_filter_Some. split; [done|]. cbn. rewrite Hxs.
      by apply negb_true_iff, String.eqb_neq in Hs.
    + intros i x [Hx Hs]%map_lookup_filter_Some Hxr. cbn in Hs.
      destruct (He i x Hx Hxr) as (r & t0 & c & f & Hru & Hrest). exists r, t0, c, f. split; [|done].
      by rewrite delete_rows_under.
Qed.

Lemma execs_ok ops db : db_ok db → Forall op_ok ops → db_ok (execs ops db).
Proof.
  intros Hok Hops. revert db Hok. induction Hops as [|o ops Ho _ IH]; intros db Hok; [done|]. by apply IH, exec_ok.
Qed.

(** ** An end is final *)

Definition same_end (t t' : BackgroundTask) : Prop :=
  Ref t' = Ref t ∧ ResultMessageID t' = ResultMessageID t ∧ EndedBy t' = EndedBy t ∧ SessionID t' = SessionID t ∧
  TaskParticipant t' = TaskParticipant t.

Lemma same_end_running t t' : same_end t t' → running t' = running t.
Proof. intros (HR & _). unfold Ref in HR. injection HR as _ _ _ _ _ Hs _ _ _ _ _. unfold running. by rewrite Hs. Qed.

Lemma same_end_trans a b c : same_end a b → same_end b c → same_end a c.
Proof. unfold same_end. intuition congruence. Qed.

(** A row [update] touches or not, when what it changes leaves an end alone. *)
Lemma update_end db id t i cond f :
  tasks db !! id = Some t → (∀ x, cond x = true → running x = false → same_end x (f x)) → running t = false →
  ∃ t', tasks (update i cond f db).2 !! id = Some t' ∧ same_end t t'.
Proof.
  intros Ht Hf Hr. unfold update. destruct (tasks db !! i) as [x|] eqn:E; [|by exists t].
  destruct (cond x) eqn:Ec; [|by exists t]. cbn. destruct (decide (i = id)) as [->|Hne].
  - rewrite lookup_insert_eq. rewrite Ht in E. injection E as <-. eauto.
  - rewrite lookup_insert_ne by done. by exists t.
Qed.

Lemma exec_end o db id t :
  db_ok db → tasks db !! id = Some t → running t = false → o ≠ ODeleteSession (SessionID t) →
  (∃ t', tasks (exec o db) !! id = Some t' ∧ same_end t t') ∧
  (∀ key r, row_under (SessionID t) key (messages db) = Some r → row_under (SessionID t) key (messages (exec o db)) = Some r).
Proof.
  intros Hok Ht Hr Hdel. assert (Hsame : ∃ t', tasks db !! id = Some t' ∧ same_end t t') by by exists t.
  assert (Hext : ∀ now session key msg k r, row_under (SessionID t) k (messages db) = Some r →
     row_under (SessionID t) k (insert_row now session key msg (messages db)).2 = Some r).
  { intros now session key msg k r Hrow. eapply extends_under; [apply insert_row_extends|done]. }
  destruct o; cbn [exec].
  - unfold RegisterTask. destruct (tasks db !! TaskID t0) eqn:E; [done|]. destruct (_ <=? _); [done|].
    destruct (sessions db !! _); [|done]. cbn. split; [|done]. rewrite lookup_insert_ne; [done|]. intros <-. congruence.
  - unfold DropTask. destruct (tasks db !! id0) as [x|] eqn:E; [|done]. destruct (running x) eqn:Hx; [|done].
    cbn. split; [|done]. rewrite lookup_delete_ne; [done|]. intros ->. congruence.
  - unfold AddTaskFollowUp. pose proof (update_end db id t id0
      (λ t, of_participant session participant t && running t && (Z.of_nat (length (FollowUps t)) <? max)) (add_follow_up f) Ht) as H.
    unfold update in *. destruct (tasks db !! id0) as [x|] eqn:E; [|done].
    destruct (of_participant session participant x && running x && (Z.of_nat (length (FollowUps x)) <? max)) eqn:Ec; [|done].
    cbn in *. split; [|done]. apply H; [|done]. intros y Hy Hyr. rewrite Hyr, andb_false_r in Hy. done.
  - unfold SetTaskCancelledBy. pose proof (update_end db id t id0 running (set_cancelled_by name) Ht) as H.
    unfold update in *. destruct (tasks db !! id0) as [x|] eqn:E; [|done]. destruct (running x) eqn:Ec; [|done].
    cbn in *. split; [|done]. apply H; [|done]. intros y Hy Hyr. congruence.
  - unfold SetTaskWoken. pose proof (update_end db id t id0 (λ t, match WokenAt t with None => true | Some _ => false end) (set_woken now) Ht) as H.
    split; [by apply H|]. unfold update. by repeat case_match.
  - unfold SetTaskCancelSent. pose proof (update_end db id t id0 (λ t, match CancelSentAt t with None => true | Some _ => false end) (set_cancel_sent now) Ht) as H.
    split; [by apply H|]. unfold update. by repeat case_match.
  - unfold EndTask. destruct (tasks db !! id0) as [x|] eqn:E; [|done]. destruct (running x) eqn:Hx; cbn [negb]; [|done].
    pose proof (Hext now (SessionID (end_task by_ state now x)) (TaskResultKey id0) (TaskResultMessage (end_task by_ state now x) content file)) as He.
    destruct (insert_row _ _ _ _ _) as [[r0 b] msgs]. cbn [snd] in He. destruct (valid_state state); [|done]. cbn [snd tasks messages].
    split; [|done]. rewrite lookup_insert_ne; [done|]. intros ->. congruence.
  - split; [done|]. cbn [messages]. intros k r. apply Hext.
  - destruct (sessions db !! id0); [done|]. done.
  - assert (SessionID t ≠ id0) as Hne by congruence. split.
    + exists t. split; [|done]. apply map_lookup_filter_Some. done.
    + intros k r Hrow. cbn [messages DeleteSession]. by rewrite delete_rows_under.
Qed.

Lemma execs_end ops db id t :
  db_ok db → Forall op_ok ops → tasks db !! id = Some t → running t = false → ODeleteSession (SessionID t) ∉ ops →
  (∃ t', tasks (execs ops db) !! id = Some t' ∧ same_end t t') ∧
  (∀ key r, row_under (SessionID t) key (messages db) = Some r → row_under (SessionID t) key (messages (execs ops db)) = Some r).
Proof.
  intros Hok Hops. revert db t Hok. induction Hops as [|o ops Ho _ IH]; intros db t Hok Ht Hr Hni; [split; [by exists t|done]|].
  apply not_elem_of_cons in Hni as [Hne Hni].
  destruct (exec_end o db id t Hok Ht Hr ltac:(congruence)) as [(t1 & Ht1 & Hs) Hrow].
  pose proof Hs as (_ & _ & _ & Hsess & _).
  destruct (IH (exec o db) t1) as [(t2 & Ht2 & Hs2) Hrow2]; [by apply exec_ok|done|by rewrite (same_end_running _ _ Hs)|by rewrite Hsess|].
  split; [exists t2; split; [done|by eapply same_end_trans]|]. intros k r H. rewrite Hsess in Hrow2. by apply Hrow2, Hrow.
Qed.

(** What [EndTask] does of a running task. *)
Lemma EndTask_running now id by_ state build db t :
  db_ok db → tasks db !! id = Some t → running t = true → valid_state state = true →
  let t1 := end_task by_ state now t in
  let m := nextID (messages db) in
  EndTask now id by_ state build db =
    (Some (mkEnding (Some (set_result m t1)) m true false),
     mkDB (sessions db) (mkMessages (rows (messages db) ++ [mkRow (SessionID t) (mkMsg m now (TaskResultKey id) (build t1))]) (m + 1))
       (memory db) (<[id := set_result m t1]> (tasks db))) ∧
  row_under (SessionID t) (TaskResultKey id)
    (mkMessages (rows (messages db) ++ [mkRow (SessionID t) (mkMsg m now (TaskResultKey id) (build t1))]) (m + 1)) =
    Some (mkRow (SessionID t) (mkMsg m now (TaskResultKey id) (build t1))).
Proof.
  intros Hok Ht Hr Hv. cbv zeta.
  assert (Hnone : row_under (SessionID t) (TaskResultKey id) (messages db) = None).
  { apply task_key_row; [done|]. intros t0 Ht0 _. congruence. }
  pose proof (insert_row_under now (SessionID t) (TaskResultKey id) (build (end_task by_ state now t)) _ (do_messages _ Hok)) as Hu.
  unfold EndTask. rewrite Ht, Hr. cbn [negb]. cbv zeta. unfold insert_row in *.
  change (SessionID (end_task by_ state now t)) with (SessionID t). rewrite Hnone in Hu |- *. rewrite Hv.
  split; [done|exact (proj1 Hu)].
Qed.

Lemma EndTask_over now id by_ state build db t :
  tasks db !! id = Some t → running t = false →
  EndTask now id by_ state build db = (Some (mkEnding (Some t) (ResultMessageID t) (String.eqb (EndedBy t) by_) false), db).
Proof. intros Ht Hr. unfold EndTask. by rewrite Ht, Hr. Qed.

Lemma ended_states state :
  state ∈ [BackgroundDone; BackgroundFailed; BackgroundCancelled] → valid_state state = true ∧ String.eqb state BackgroundRunning = false.
Proof.
  intros H. repeat (apply elem_of_cons in H as [->|H]; [done|]). by apply not_elem_of_nil in H.
Qed.

(** C31. A task ends once. Whoever ends it first, its workflow or the sweep,
    writes its message, built from its row as it ends, and is told it is his;
    later calls, whatever happened to the session but its deletion, change
    nothing, name the same message, and tell only the first one it is his. *)
Theorem task_ends_once now id by_ state content file db t ops now2 by2 state2 build2 :
  db_ok db → tasks db !! id = Some t → running t = true →
  state ∈ [BackgroundDone; BackgroundFailed; BackgroundCancelled] →
  Forall op_ok ops → ODeleteSession (SessionID t) ∉ ops →
  ∃ e db' r e2,
    EndTask now id by_ state (λ t, TaskResultMessage t content file) db = (Some e, db') ∧
    Mine e = true ∧ Gone e = false ∧
    row_under (SessionID t) (TaskResultKey id) (messages (execs ops db')) = Some r ∧ MsgID (RowMsg r) = EndMessageID e ∧
    Msg (RowMsg r) = TaskResultMessage (end_task by_ state now t) content file ∧
    EndTask now2 id by2 state2 build2 (execs ops db') = (Some e2, execs ops db') ∧
    EndMessageID e2 = EndMessageID e ∧ Mine e2 = String.eqb by_ by2 ∧ Gone e2 = false.
Proof.
  intros Hok Ht Hr Hst Hops Hni. destruct (ended_states state Hst) as [Hv Hnr].
  pose proof (EndTask_running now id by_ state (λ t, TaskResultMessage t content file) db t Hok Ht Hr Hv) as Hend.
  cbv zeta in Hend. destruct Hend as [Heq Hrow].
  pose proof (EndTask_ok now id by_ state content file db Hok Hst) as Hok'. rewrite Heq in Hok'.
  cbn [snd] in Hok'. set (db' := mkDB _ _ _ _) in *.
  assert (Ht' : tasks db' !! id = Some (set_result (nextID (messages db)) (end_task by_ state now t))) by apply lookup_insert_eq.
  destruct (execs_end ops db' id _ Hok' Hops Ht' Hnr Hni) as [(t2 & Ht2 & (_ & Hres & Heb & _)) Hrows].
  assert (running t2 = false) as Hr2.
  { destruct (execs_end ops db' id _ Hok' Hops Ht' Hnr Hni) as [(t3 & Ht3 & Hs) _].
    rewrite Ht2 in Ht3. injection Ht3 as <-. by rewrite (same_end_running _ _ Hs). }
  rewrite Heq. do 4 eexists. split; [reflexivity|]. split; [done|]. split; [done|].
  split; [by apply Hrows|]. split; [done|]. split; [done|].
  split; [by apply EndTask_over|]. cbn. rewrite Hres, Heb. done.
Qed.

(** ** Instructions attached to a task *)

Definition has_follow_up (id : string) (f : TaskFollowUp) (db : DB) : Prop :=
  ∃ t, tasks db !! id = Some t ∧ f ∈ FollowUps t.

Lemma update_follow id f i cond g db :
  has_follow_up id f db → (∀ t, f ∈ FollowUps t → f ∈ FollowUps (g t)) → has_follow_up id f (update i cond g db).2.
Proof.
  intros (t & Ht & Hf) Hg. unfold update. destruct (tasks db !! i) as [x|] eqn:E; [|by exists t].
  destruct (cond x); [|by exists t]. cbn. destruct (decide (i = id)) as [->|Hne].
  - rewrite Ht in E. injection E as <-. exists (g t). cbn. rewrite lookup_insert_eq. auto.
  - exists t. cbn. by rewrite lookup_insert_ne.
Qed.

Lemma exec_follow o db id f session :
  has_follow_up id f db → (∀ t, tasks db !! id = Some t → SessionID t = session) →
  o ≠ ODeleteSession session → o ≠ ODrop id →
  has_follow_up id f (exec o db) ∧ (∀ t, tasks (exec o db) !! id = Some t → SessionID t = session).
Proof.
  intros (t & Ht & Hf) Hs Hdel Hdrop.
  assert (Hupd : ∀ i cond g, (∀ t, SessionID (g t) = SessionID t) →
            ∀ x, tasks (update i cond g db).2 !! id = Some x → SessionID x = session).
  { intros i cond g Hg x. unfold update. destruct (tasks db !! i) as [y|] eqn:E; [|apply Hs].
    destruct (cond y); [|apply Hs]. cbn. destruct (decide (i = id)) as [->|Hne].
    - rewrite lookup_insert_eq. intros [= <-]. rewrite Hg. by apply Hs.
    - rewrite lookup_insert_ne by done. apply Hs. }
  assert (Hfu : has_follow_up id f db) by by exists t.
  destruct o; cbn [exec].
  - unfold RegisterTask. destruct (tasks db !! TaskID t0) eqn:E; [done|]. destruct (_ <=? _); [done|].
    destruct (sessions db !! _); [|done]. cbn. unfold has_follow_up. cbn. rewrite lookup_insert_ne by (intros <-; congruence). done.
  - unfold DropTask. destruct (tasks db !! id0) as [x|] eqn:E; [|done]. destruct (running x); [|done].
    unfold has_follow_up. cbn. rewrite lookup_delete_ne by congruence. done.
  - unfold AddTaskFollowUp.
    pose proof (update_follow id f id0 (λ t, of_participant session0 participant t && running t && (Z.of_nat (length (FollowUps t)) <? max))
      (add_follow_up f0) db Hfu ltac:(intros; cbn; apply elem_of_app; by left)) as H1.
    pose proof (Hupd id0 (λ t, of_participant session0 participant t && running t && (Z.of_nat (length (FollowUps t)) <? max))
      (add_follow_up f0) ltac:(done)) as H2.
    destruct (update _ _ _ db) as [[] db']; done.
  - unfold SetTaskCancelledBy.
    pose proof (update_follow id f id0 running (set_cancelled_by name) db Hfu ltac:(done)) as H1.
    pose proof (Hupd id0 running (set_cancelled_by name) ltac:(done)) as H2.
    destruct (update _ _ _ db) as [[] db']; done.
  - split; [by apply update_follow|by apply Hupd].
  - split; [by apply update_follow|by apply Hupd].
  - unfold EndTask. destruct (tasks db !! id0) as [x|] eqn:E; [|done]. destruct (running x); cbn [negb]; [|done].
    destruct (insert_row _ _ _ _ _) as [[r0 b] msgs]. destruct (valid_state state); [|done].
    unfold has_follow_up. cbn [snd tasks]. destruct (decide (id0 = id)) as [->|Hne].
    + rewrite lookup_insert_eq. rewrite Ht in E. injection E as <-. split; [eauto|]. intros x [= <-]. cbn. by apply Hs.
    + rewrite lookup_insert_ne by done. done.
  - done.
  - by destruct (sessions db !! id0).
  - unfold has_follow_up. cbn. assert (session ≠ id0) as Hne by congruence. split.
    + exists t. split; [|done]. apply map_lookup_filter_Some. split; [done|]. cbn. rewrite (Hs t Ht). done.
    + intros x [Hx _]%map_lookup_filter_Some. by apply Hs.
Qed.

Lemma execs_follow ops db id f session :
  has_follow_up id f db → (∀ t, tasks db !! id = Some t → SessionID t = session) →
  ODeleteSession session ∉ ops → ODrop id ∉ ops →
  has_follow_up id f (execs ops db) ∧ (∀ t, tasks (execs ops db) !! id = Some t → SessionID t = session).
Proof.
  revert db. induction ops as [|o ops IH]; intros db Hf Hs Hd Hp; [done|].
  apply not_elem_of_cons in Hd as [Hd Hd'], Hp as [Hp Hp'].
  destruct (exec_follow o db id f session Hf Hs) as [H1 H2]; [congruence|congruence|]. by apply (IH (exec o db)).
Qed.

(** An instruction is in its task's message or refused. Once accepted, it
    is in the message that ends the task, whatever happens in between; it is
    refused as over only when the task ended, and a task never holds more
    instructions than the bound its calls give. *)
Theorem instruction_delivered session participant id f max db err db' :
  db_ok db → AddTaskFollowUp session participant id f max db db = (err, db') →
  match err with
  | None =>
      (∃ t, tasks db' !! id = Some t ∧ running t = true ∧ Z.of_nat (length (FollowUps t)) ≤ max) ∧
      ∀ ops t, Forall op_ok ops → ODeleteSession session ∉ ops → ODrop id ∉ ops →
        tasks (execs ops db') !! id = Some t → running t = false →
        ∃ r ref, row_under session (TaskResultKey id) (messages (execs ops db')) = Some r ∧
          Task (Msg (RowMsg r)) = Some ref ∧ f ∈ RefFollowUps ref
  | Some ErrTaskOver => db' = db ∧ ∃ t, tasks db !! id = Some t ∧ running t = false
  | Some ErrTooManyFollowUps => db' = db ∧ ∃ t, tasks db !! id = Some t ∧ running t = true ∧ max ≤ Z.of_nat (length (FollowUps t))
  | Some ErrTaskNotFound => db' = db ∧ ∀ t, tasks db !! id = Some t → of_participant session participant t = false
  | Some _ => False
  end.
Proof.
  intros Hok Hadd.
  assert (Hok' : db_ok db').
  { change db' with ((err, db').2). rewrite <- Hadd. apply (exec_ok (OFollowUp session participant id f max)); done. }
  unfold AddTaskFollowUp, update, GetTask in Hadd. destruct (tasks db !! id) as [t|] eqn:Et.
  2: { injection Hadd as <- <-. done. }
  destruct (of_participant session participant t) eqn:Hp; cbn [andb] in Hadd.
  - pose proof Hp as [Hs%String.eqb_eq Hpp%String.eqb_eq]%andb_true_iff.
    destruct (running t) eqn:Hr; cbn [andb] in Hadd.
    + destruct (Z.of_nat (length (FollowUps t)) <? max) eqn:Hm; bool_to_prop.
      * injection Hadd as <- <-. split.
        -- exists (add_follow_up f t). split; [apply lookup_insert_eq|]. split; [done|]. cbn. rewrite length_app. cbn. lia.
        -- intros ops t' Hops Hd Hdr Ht' Hr'. set (db1 := with_tasks db _) in *.
           destruct (execs_follow ops db1 id f session) as [(t2 & Ht2 & Hin) Hsess]; [..|done|done|].
           { exists (add_follow_up f t). split; [apply lookup_insert_eq|]. cbn. set_solver. }
           { intros x Hx. subst db1. cbn in Hx. rewrite lookup_insert_eq in Hx. by injection Hx as <-. }
           rewrite Ht' in Ht2. injection Ht2 as <-.
           destruct (do_ended _ (execs_ok ops db1 Hok' Hops) id t' Ht' Hr') as (r & t0 & c & fl & Hrow & _ & Hmsg & HR).
           rewrite (Hsess t' Ht') in Hrow. eexists r, _. rewrite Hmsg. split; [done|]. split; [reflexivity|]. cbn.
           unfold Ref in HR. injection HR as _ _ _ _ _ _ _ _ _ _ HF. by rewrite HF.
      * rewrite Hs, Hpp, !String.eqb_refl in Hadd. cbn in Hadd. injection Hadd as <- <-. split; [done|]. exists t. done.
    + rewrite Hs, Hpp, !String.eqb_refl in Hadd. cbn in Hadd. injection Hadd as <- <-. split; [done|]. by exists t.
  - unfold of_participant in Hp. destruct (String.eqb (SessionID t) session) eqn:E1, (String.eqb (TaskParticipant t) participant) eqn:E2;
      try done; cbn in Hadd; injection Hadd as <- <-; (split; [done|]); intros x [= <-]; unfold of_participant; by rewrite E1, E2.
Qed.

(** ** How many tasks run *)

Lemma filter_size_le (P : BackgroundTask → bool) (m m' : gmap string BackgroundTask) :
  (∀ k x, m' !! k = Some x → P x = true → ∃ y, m !! k = Some y ∧ P y = true) →
  (size (filter (λ kv, P kv.2 = true) m') ≤ size (filter (λ kv, P kv.2 = true) m))%nat.
Proof.
  intros H. rewrite <- !size_dom. apply subseteq_size. intros k Hk.
  apply elem_of_dom in Hk as [x [Hx Hp]%map_lookup_filter_Some]. cbn in Hp.
  destruct (H k x Hx Hp) as (y & Hy & Hpy). apply elem_of_dom. exists y. by apply map_lookup_filter_Some.
Qed.

(** A row's change keeps its place, and starts no task again. *)
Definition no_restart (f : BackgroundTask → BackgroundTask) : Prop :=
  ∀ t, SessionID (f t) = SessionID t ∧ TaskParticipant (f t) = TaskParticipant t ∧ (running (f t) = true → running t = true).

Lemma update_count s p i cond f db :
  no_restart f → count_running s p (update i cond f db).2 ≤ count_running s p db.
Proof.
  intros Hf. unfold count_running. apply Nat2Z.inj_le, (filter_size_le (running_of s p)). intros k x Hx Hp.
  unfold update in Hx. destruct (tasks db !! i) as [t|] eqn:E; [|eauto]. destruct (cond t); [|eauto].
  cbn in Hx. destruct (decide (i = k)) as [->|Hne]; [|rewrite lookup_insert_ne in Hx by done; eauto].
  rewrite lookup_insert_eq in Hx. injection Hx as <-. exists t. split; [done|].
  destruct (Hf t) as (Hs & Hpa & Hr). unfold running_of, of_participant in *.
  apply andb_true_iff in Hp as [Hp Hru]. rewrite Hs, Hpa in Hp. by rewrite Hp, Hr.
Qed.

Lemma insert_count s p id t (m : gmap string BackgroundTask) :
  m !! id = None →
  (size (filter (λ kv, running_of s p kv.2 = true) (<[id := t]> m)) ≤
   size (filter (λ kv, running_of s p kv.2 = true) m) +
   (if running_of s p t then 1 else 0))%nat.
Proof.
  intros Hn. destruct (running_of s p t) eqn:E.
  - rewrite map_filter_insert_True by done. rewrite map_size_insert_None; [lia|].
    apply map_lookup_filter_None. by left.
  - rewrite map_filter_insert_not' ; [lia| |].
    + cbn. by rewrite E.
    + intros y Hy. congruence.
Qed.

Lemma exec_count o db s p : count_running s p db ≤ MaxRunningTasks → op_ok o → count_running s p (exec o db) ≤ MaxRunningTasks.
Proof.
  intros Hc Ho. destruct o; cbn [exec].
  - unfold RegisterTask. destruct (tasks db !! TaskID t) eqn:E; [done|]. destruct (Z.leb_spec MaxRunningTasks (count_running (SessionID t) (TaskParticipant t) db)) as [|Hlt]; [done|].
    destruct (sessions db !! _); [|done]. cbn. unfold count_running in *. cbn [tasks with_tasks].
    pose proof (insert_count s p (TaskID t) (registered t now) (tasks db) E) as Hi.
    destruct (running_of s p (registered t now)) eqn:Ei; [|lia].
    unfold running_of, of_participant in Ei. cbn in Ei. bool_to_prop. subst. lia.
  - unfold DropTask. destruct (tasks db !! id); [|done]. destruct (running _); [|done].
    etransitivity; [|exact Hc]. apply Nat2Z.inj_le, (filter_size_le (running_of s p)). cbn [tasks with_tasks].
    intros k x [_ Hx]%lookup_delete_Some Hp. eauto.
  - unfold AddTaskFollowUp.
    pose proof (update_count s p id (λ t, of_participant session participant t && running t && (Z.of_nat (length (FollowUps t)) <? max))
      (add_follow_up f) db ltac:(done)) as H.
    destruct (update _ _ _ db) as [[] db']; cbn in *; lia.
  - unfold SetTaskCancelledBy.
    pose proof (update_count s p id running (set_cancelled_by name) db ltac:(done)) as H.
    destruct (update _ _ _ db) as [[] db']; cbn in *; lia.
  - etransitivity; [by apply update_count|done].
  - etransitivity; [by apply update_count|done].
  - unfold EndTask. destruct (tasks db !! id) as [x|] eqn:E; [|done]. destruct (running x) eqn:Hx; cbn [negb]; [|done].
    destruct (insert_row _ _ _ _ _) as [[r0 b] msgs]. destruct (valid_state state); [|done]. cbn [snd].
    etransitivity; [|exact Hc]. apply Nat2Z.inj_le, (filter_size_le (running_of s p)). cbn [tasks]. intros k y Hy Hp.
    destruct (decide (id = k)) as [->|Hne]; [|rewrite lookup_insert_ne in Hy by done; eauto].
    rewrite lookup_insert_eq in Hy. injection Hy as <-. exists x. split; [done|].
    unfold running_of in *. apply andb_true_iff in Hp as [Hp _]. rewrite Hx, andb_true_r. exact Hp.
  - done.
  - by destruct (sessions db !! id).
  - etransitivity; [|exact Hc]. apply Nat2Z.inj_le, (filter_size_le (running_of s p)). cbn [tasks]. intros k x [Hx _]%map_lookup_filter_Some Hp. eauto.
Qed.

(** Whatever is registered, dropped, ended or deleted, and in any order, a
    participant never has more than [MaxRunningTasks] tasks running in a
    session. *)
Theorem running_tasks_bounded ops session participant :
  Forall op_ok ops → count_running session participant (execs ops emptyDB) ≤ MaxRunningTasks.
Proof.
  intros Hops. assert (count_running session participant emptyDB ≤ MaxRunningTasks) as H0 by done.
  revert H0. generalize emptyDB. induction Hops as [|o ops Ho _ IH]; intros db Hc; [done|]. by apply IH, exec_count.
Qed.

(** ** The end as the task's activity posts it *)

Lemma clipBytes_len s n : 0 ≤ n → len (clipBytes s n) ≤ n.
Proof.
  intros Hn. unfold clipBytes. destruct (Z.leb_spec (len s) n); [done|]. unfold len.
  rewrite length_take_str. pose proof (back_to_rune_le s (Z.to_nat n)). lia.
Qed.

(** What [PostTaskResult] does with a content it can post. *)
Definition posted (publish : BackgroundTask → string → option TaskFile) (t : BackgroundTask) (state content : string) :
    option (string * option TaskFile) :=
  if (MaxTaskMessageBytes <? len content) && negb (String.eqb state BackgroundCancelled) then
    match publish t content with
    | Some f => Some (clipBytes content MaxTaskMessageBytes, Some f)
    | None => None
    end
  else Some (content, None).

(** The end of a task is posted once: the first attempt that writes it says
    its message and whether to wake the participant, every later attempt, with
    whatever result, says the same message and writes nothing; when the sweep
    ended the task, nothing is written and nobody is woken. The message of a task
    that was not cancelled holds a bounded start of its result. *)
Theorem result_posted_once now id state content publish db t now2 state2 content2 publish2 ops :
  db_ok db → tasks db !! id = Some t →
  state ∈ [BackgroundDone; BackgroundFailed; BackgroundCancelled] →
  Forall op_ok ops → ODeleteSession (SessionID t) ∉ ops →
  match running t, posted publish t state content with
  | false, _ =>
      EndedBy t = TaskEndedBySweep →
      PostTaskResult now id state content publish db db db (λ d, d) = (Some nothingPosted, db)
  | true, None => PostTaskResult now id state content publish db db db (λ d, d) = (None, db)
  | true, Some (text, file) =>
      (state ≠ BackgroundCancelled → len text ≤ MaxTaskMessageBytes) ∧
      ∃ out db' r,
        PostTaskResult now id state content publish db db db (λ d, d) = (Some out, db') ∧
        row_under (SessionID t) (TaskResultKey id) (messages db') = Some r ∧ PostMessageID out = MsgID (RowMsg r) ∧
        Msg (RowMsg r) = TaskResultMessage (end_task TaskEndedByTask state now t) text file ∧
        Wake out = negb (String.eqb state BackgroundCancelled) ∧
        (posted publish2 t state2 content2 ≠ None →
         (∀ t' c, publish2 t' c = publish2 t c) →
          ∃ out2, PostTaskResult now2 id state2 content2 publish2 (execs ops db') (execs ops db') (execs ops db') (λ d, d) =
            (Some out2, execs ops db') ∧ PostMessageID out2 = PostMessageID out ∧ PostGone out2 = false)
  end.
Proof.
  intros Hok Ht Hst Hops Hni. destruct (ended_states state Hst) as [Hv Hnr].
  destruct (running t) eqn:Hr.
  2: { intros He. unfold PostTaskResult, GetTask. rewrite Ht, Hr, He. done. }
  destruct (posted publish t state content) as [[text file]|] eqn:Hp.
  2: { unfold PostTaskResult, GetTask. rewrite Ht, Hr. cbn [negb andb]. unfold posted in Hp. cbv zeta.
       rewrite Hp. done. }
  split.
  { intros Hne. unfold posted in Hp. destruct (Z.ltb_spec MaxTaskMessageBytes (len content)) as [Hl|Hl]; cbn [andb] in Hp.
    - destruct (String.eqb_spec state BackgroundCancelled); [done|]. cbn in Hp. destruct (publish t content); [|done].
      injection Hp as <- <-. by apply clipBytes_len.
    - by injection Hp as <- <-. }
  pose proof (EndTask_running now id TaskEndedByTask state (λ t, TaskResultMessage t text file) db t Hok Ht Hr Hv) as Hend.
  cbv zeta in Hend. destruct Hend as [Heq Hrow].
  pose proof (EndTask_ok now id TaskEndedByTask state text file db Hok Hst) as Hok'. rewrite Heq in Hok'. cbn [snd] in Hok'.
  set (db' := mkDB _ _ _ _) in *. set (t1 := set_result _ (end_task _ _ _ _)) in *.
  assert (Ht' : tasks db' !! id = Some t1) by apply lookup_insert_eq.
  destruct (do_task _ Hok id t Ht) as [_ [sess Hsess]].
  assert (Hpost : ∃ out, PostTaskResult now id state content publish db db db (λ d, d) = (Some out, db') ∧
            PostMessageID out = nextID (messages db) ∧ Wake out = negb (String.eqb state BackgroundCancelled)).
  { unfold PostTaskResult, GetTask. rewrite Ht, Hr. cbn [negb andb]. cbv zeta. unfold posted in Hp. rewrite Hp, Heq.
    cbn [Gone Mine negb EndTaskOf EndMessageID]. change (State t1) with state. change (SessionID t1) with (SessionID t).
    change (sessions db' !! SessionID t) with (sessions db !! SessionID t). rewrite Hsess.
    destruct (String.eqb state BackgroundCancelled); eexists; (split; [reflexivity|done]). }
  destruct Hpost as (out & Hpost & Hid & Hw). exists out, db'. eexists. split; [exact Hpost|].
  split; [exact Hrow|]. split; [done|]. split; [done|]. split; [done|]. intros Hp2 Hpub.
  destruct (execs_end ops db' id t1 Hok' Hops Ht' Hnr Hni) as [(t2 & Ht2 & Hse) _].
  pose proof (same_end_running _ _ Hse) as Hr2. destruct Hse as (_ & Hres & Heb & _).
  unfold PostTaskResult, GetTask. rewrite Ht2, Hr2, Heb. change (running t1) with (String.eqb state BackgroundRunning).
  rewrite Hnr. change (EndedBy t1) with TaskEndedByTask. rewrite String.eqb_refl. cbn [negb andb]. cbv zeta.
  rewrite (Hpub t2 content2). change (posted publish2 t state2 content2) with
    (if (MaxTaskMessageBytes <? len content2) && negb (String.eqb state2 BackgroundCancelled) then
       match publish2 t content2 with Some f => Some (clipBytes content2 MaxTaskMessageBytes, Some f) | None => None end
     else Some (content2, None)) in Hp2.
  destruct (if (MaxTaskMessageBytes <? len content2) && _ then _ else _) as [[text2 file2]|]; [|done].
  rewrite (EndTask_over now2 id TaskEndedByTask state2 _ (execs ops db') t2 Ht2) by (rewrite Hr2; exact Hnr).
  rewrite Heb. change (EndedBy t1) with TaskEndedByTask. rewrite String.eqb_refl. cbn [Gone Mine negb EndTaskOf EndMessageID].
  rewrite Hres. destruct (String.eqb (State t2) BackgroundCancelled); [eexists; split; [reflexivity|done]|].
  destruct (sessions (execs ops db') !! SessionID t2); eexists; (split; [reflexivity|done]).
Qed.

(** ** Witnesses *)

Definition demo_task : BackgroundTask :=
  mkTask "s:p:jarvis:m1:bg:c1" "s" "jarvis" "alice" "Alice" "analyze_repo" "the repository" "m1.jarvis" "c1" "web" ""
    "" 0 None "" 0 "" None None [].

Definition demo_ops : list op := [OCreateSession "s" (mkSession "jarvis" "web" ""); ORegister 5 demo_task].

Definition demo_db : DB := execs demo_ops emptyDB.

Lemma demo_db_ok : db_ok demo_db.
Proof. apply execs_ok; [apply emptyDB_ok|]. repeat constructor. Qed.

Lemma task_ends_once_witness :
  ∃ e2, EndTask 30 "s:p:jarvis:m1:bg:c1" TaskEndedBySweep BackgroundFailed (λ t, TaskResultMessage t "late" None)
    (EndTask 20 "s:p:jarvis:m1:bg:c1" TaskEndedByTask BackgroundDone (λ t, TaskResultMessage t "42" None) demo_db).2 =
    (Some e2, (EndTask 20 "s:p:jarvis:m1:bg:c1" TaskEndedByTask BackgroundDone (λ t, TaskResultMessage t "42" None) demo_db).2) ∧
    Mine e2 = false.
Proof.
  destruct (task_ends_once 20 "s:p:jarvis:m1:bg:c1" TaskEndedByTask BackgroundDone "42" None demo_db
    (registered demo_task 5) [] 30 TaskEndedBySweep BackgroundFailed (λ t, TaskResultMessage t "late" None) demo_db_ok)
    as (e & db' & r & e2 & He & _ & _ & _ & _ & _ & He2 & _ & Hmine & _).
  - vm_compute. reflexivity.
  - reflexivity.
  - apply list_elem_of_here.
  - constructor.
  - apply not_elem_of_nil.
  - rewrite He. exists e2. split; [exact He2|]. rewrite Hmine. reflexivity.
Defined.

Lemma instruction_delivered_witness :
  ∃ t, tasks (AddTaskFollowUp "s" "jarvis" "s:p:jarvis:m1:bg:c1" (mkFollowUp "mail it" "bob" "Bob" 7) 5 demo_db demo_db).2
         !! "s:p:jarvis:m1:bg:c1" = Some t ∧ running t = true ∧ Z.of_nat (length (FollowUps t)) ≤ 5.
Proof.
  refine (proj1 (instruction_delivered "s" "jarvis" "s:p:jarvis:m1:bg:c1" (mkFollowUp "mail it" "bob" "Bob" 7) 5 demo_db
    None _ demo_db_ok _)).
  vm_compute. reflexivity.
Defined.

Lemma running_tasks_bounded_witness : count_running "s" "jarvis" (execs demo_ops emptyDB) ≤ MaxRunningTasks.
Proof. apply (running_tasks_bounded demo_ops "s" "jarvis"). repeat constructor. Defined.

Lemma result_posted_once_witness :
  ∃ out db', PostTaskResult 20 "s:p:jarvis:m1:bg:c1" BackgroundDone "42" (λ _ _, None) demo_db demo_db demo_db (λ d, d) =
    (Some out, db') ∧ Wake out = true.
Proof.
  destruct (result_posted_once 20 "s:p:jarvis:m1:bg:c1" BackgroundDone "42" (λ _ _, None) demo_db
    (registered demo_task 5) 30 BackgroundDone "43" (λ _ _, None) [] demo_db_ok) as [_ H].
  - vm_compute. reflexivity.
  - apply list_elem_of_here.
  - constructor.
  - apply not_elem_of_nil.
  - destruct H as (out & db' & r & Hp & _ & _ & _ & Hw & _). exists out, db'. split; [exact Hp|]. rewrite Hw. reflexivity.
Defined.
