(* ===== verification/Participant.v ===== *)
(** * A session's participant (src/workflow/participant.go)

    A participant is an agent in a session: a Temporal workflow that answers
    its messages one at a time. The workflow is one coroutine. It gives way
    only where it waits for an activity or for its turn; the signals that
    arrive meanwhile are buffered in its channels, in order. So a state holds
    the participant's own fields, the channels, the number of waits so far and
    the trace of what it did; what comes from outside at the n-th wait (the
    signals, an activity's result, the time, the size of the history) is an
    environment, over which every theorem quantifies. While a turn runs, the
    environment gives a script: the signals that arrive, and which channel the
    selector picks next.

    An activity that only reports is a step of the trace: its failure is
    logged, and changes nothing of what follows. *)

From S2P Require Import Prelude GoStr Utf8 Json Keys Message Convert.
Open Scope string_scope.
Open Scope Z_scope.
Open Scope list_scope.

(** ** Data *)

Definition SignalMessage : string := "message".

Record AddressedAgent := mkAddressed { AddrID : string; AddrName : string; AddrMention : string }.

Record Part := mkPart { PartAgents : list AddressedAgent; PartQuote : string }.

Record ParticipantMessage := mkPM {
  MessageID : Z;
  PMUserID : string;
  PMUserName : string;
  Next : list AddressedAgent;
  EarlierTurns : list string;
  SignReply : bool;
  PMChannel : string;
  PMChannelID : string;
  PMPart : option Part
}.

Record ParticipantInput := mkInput {
  InSessionID : string;
  InAgentID : string;
  InChannel : string;
  InChannelID : string;
  Inbox : list ParticipantMessage
}.

Record CurrentMessage := mkCurrent {
  CurMessageID : Z;
  CurTurn : string;
  CurUserID : string;
  CurUserName : string;
  Since : time
}.

Record ParticipantState := mkState { Current : option CurrentMessage; Queued : Z }.

Definition EventTurnStarted : string := "turn_started".
Definition EventTurnDone : string := "turn_done".

Record TurnEvent := mkTurnEvent {
  EvAgentID : string;
  EvAgentName : string;
  EvTurn : string;
  EvUserID : string;
  EvUserName : string
}.

Definition maxParticipantHistoryEvents : Z := 4000.
Definition maxParticipantHistoryBytes : Z := 4 * 1024 * 1024.

Definition clearedReason : string := "Annulé avant d'être traité : la file de l'agent a été vidée.".
Definition stoppedBeforeReason : string := "Interrompu avant de commencer : un membre a arrêté ce tour.".

(** The activities' inputs and results (src/activity/turn.go), and what a
    participant gives its turn and reads of it (src/workflow/agent.go). *)
Record CheckTurnInput := mkCheckIn { ChkSession : string; ChkAgent : string; ChkTurn : string }.

Record CheckTurnOutput := mkCheckOut { Answered : bool; AgentName : string }.

(** How the check ends: with its output, with an ErrTypeSessionGone, or with
    another error, by its text ([failureText]). *)
Inductive CheckResult :=
| CheckOK (out : CheckTurnOutput)
| CheckSessionGone
| CheckFailed (text : string).

(** The message and the input of the participant started are what the code
    encodes as JSON. *)
Record RelayInput := mkRelay {
  WorkflowID : string;
  WorkflowType : string;
  TaskQueue : string;
  RelaySignal : string;
  RelayMessage : ParticipantMessage;
  RelayStart : ParticipantInput;
  RelaySession : string
}.

(** The fields a participant sets; the others are zero in what it gives. *)
Record AgentWorkflowInput := mkAgentIn {
  TurnSession : string;
  TurnUserID : string;
  TurnUserName : string;
  TurnAgent : string;
  TurnKeyIn : string;
  TurnEarlier : list string;
  TurnChannel : string;
  TurnChannelID : string;
  PartNote : string;
  TurnSignReply : bool
}.

Record AgentWorkflowOutput := mkAgentOut {
  Response : string;
  NewMessages : list Message;
  GoalAchieved : bool;
  CancelledRun : bool;
  OutError : string;
  ErrorType : string
}.

Definition noOutput : AgentWorkflowOutput := mkAgentOut "" [] false false "" "".

Definition AgentNotOpen : string := "AgentNotOpen".

(** How the turn's workflow ends: an output, or an error by its text. *)
Inductive ChildResult := ChildDone (out : AgentWorkflowOutput) | ChildFailed (text : string).

(** ** Part notes *)

Definition maxQuotedMessageBytes : Z := 200.

Definition quoteOpen : string := encode_rune 8220.
Definition quoteClose : string := encode_rune 8221.

Definition join (sep : string) (l : list string) : string := String.concat sep l.

(** [Quote]. *)
Definition Quote (text : string) : string := Clip (join " " (fields text)) maxQuotedMessageBytes.

Definition newline : string := String (byte 10) "".

Definition partName (a : AddressedAgent) : string :=
  trim_prefix (AgentLabel (cmp_or (AddrName a) (AddrID a)) (cmp_or (AddrMention a) (AddrID a))) "agent ".

Definition partNote (agents : list AddressedAgent) (i : nat) (quote userName : string) : string :=
  if (length agents <? 2)%nat then ""
  else
    let names := partName <$> agents in
    let from := if String.eqb userName "" then "" else " from " +:+ userName in
    newline +:+ "## Several agents addressed" +:+ newline +:+ newline +:+
    "You are answering the message" +:+ from +:+ " that reads " +:+ quoteOpen +:+ quote +:+ quoteClose +:+
    ". It addresses several agents, who answer it one after another, in this order: " +:+ join ", " names +:+
    ". You are " +:+ nth i names "" +:+ ": answer only the part meant for you." +:+
    (if (0 <? i)%nat
     then " The agents before you have answered already, above, in their [agent …] blocks: build on what they said rather than repeat it."
     else "") +:+
    (if (S i <? length agents)%nat
     then " The agents after you answer next and will see your reply: leave their part to them."
     else "") +:+
    " Messages written after it get their own turn: answer this one." +:+ newline.

(** [slices.IndexFunc] on the agents' IDs. *)
Fixpoint index_agent (agentID : string) (agents : list AddressedAgent) : option nat :=
  match agents with
  | [] => None
  | a :: rest => if String.eqb (AddrID a) agentID then Some O else S <$> index_agent agentID rest
  end.

(** [Part.noteFor]; a nil part has no note. *)
Definition noteFor (part : option Part) (agentID userName : string) : string :=
  match part with
  | None => ""
  | Some part =>
      match index_agent agentID (PartAgents part) with
      | None => ""
      | Some i => partNote (PartAgents part) i (PartQuote part) userName
      end
  end.

(** ** The participant's state, its channels and its surroundings *)

Inductive Signal :=
| SigMessage (m : ParticipantMessage)
| SigStop (turnKey : string)
| SigClear.

Record Channels := mkChannels { chMessages : list ParticipantMessage; chStops : list string; chClears : nat }.

Record participant := mkParticipant { inbox : list ParticipantMessage; current : option CurrentMessage; gone : bool }.

(** What the participant does. [Arrived], [Taken], [Dropped], [StopRead] and
    [ClearRead] are not visible outside: they say which signals came, which
    messages left the inbox and why, and which signals were read. *)
Inductive effect :=
| Arrived (s : Signal)
| Taken (m : ParticipantMessage)
| Dropped (m : ParticipantMessage)
| StopRead (turnKey : string)
| ClearRead
| Checked (i : CheckTurnInput) (r : CheckResult)
| TurnTold (event : string) (e : TurnEvent)
| Told (channel channelID signer content : string)
| ChildStarted (id : string) (i : AgentWorkflowInput)
| ChildCancelled (id : string)
| ChildEnded (id : string) (r : ChildResult)
| Persisted (turnKey : string) (msgs : list Message)
| EndWritten (turnKey : string) (m : Message)
| Relayed (i : RelayInput) (failed : option string).

Record World := mkWorld { me : participant; chans : Channels; step : nat; trace : list effect }.

(** What happens while a turn runs: signals arrive, or the selector reads
    one from a channel. Reading from an empty channel cannot be picked: it
    does nothing. *)
Inductive turn_event := Arrive (sigs : list Signal) | PickStop | PickClear | PickMessage.

Record Env := mkEnv {
  arrivals : nat → list Signal;
  now_at : nat → time;
  history : nat → Z * Z;
  check_result : nat → CheckTurnInput → CheckResult;
  relay_result : nat → RelayInput → option string;
  script : nat → list turn_event;
  child_result : nat → AgentWorkflowInput → ChildResult;
  TaskQueueName : string
}.

Definition set_inbox (l : list ParticipantMessage) (w : World) : World :=
  mkWorld (mkParticipant l (current (me w)) (gone (me w))) (chans w) (step w) (trace w).
Definition set_current (c : option CurrentMessage) (w : World) : World :=
  mkWorld (mkParticipant (inbox (me w)) c (gone (me w))) (chans w) (step w) (trace w).
Definition set_gone (w : World) : World :=
  mkWorld (mkParticipant (inbox (me w)) (current (me w)) true) (chans w) (step w) (trace w).
Definition set_chans (c : Channels) (w : World) : World := mkWorld (me w) c (step w) (trace w).
Definition emit (e : effect) (w : World) : World := mkWorld (me w) (chans w) (step w) (trace w ++ [e]).

(** A signal is buffered in its channel. *)
Definition deliver (s : Signal) (w : World) : World :=
  let c := chans w in
  emit (Arrived s)
    (set_chans
      (match s with
       | SigMessage m => mkChannels (chMessages c ++ [m]) (chStops c) (chClears c)
       | SigStop k => mkChannels (chMessages c) (chStops c ++ [k]) (chClears c)
       | SigClear => mkChannels (chMessages c) (chStops c) (S (chClears c))
       end) w).

Definition deliver_all (sigs : list Signal) (w : World) : World := fold_left (λ w s, deliver s w) sigs w.

(** One wait: the signals of the meantime are buffered. *)
Definition await (env : Env) (w : World) : World :=
  let w' := deliver_all (arrivals env (step w)) w in
  mkWorld (me w') (chans w') (S (step w)) (trace w').

(** An activity, waited for. *)
Definition perform (env : Env) (e : effect) (w : World) : World := await env (emit e w).

(** ** Reading the channels *)

Definition state (w : World) : ParticipantState :=
  mkState (current (me w)) (Z.of_nat (length (inbox (me w)) + length (chMessages (chans w)))).

Definition receive (w : World) : World :=
  let c := chans w in
  set_chans (mkChannels [] (chStops c) (chClears c)) (set_inbox (inbox (me w) ++ chMessages c) w).

(** [drained(clears)]. *)
Definition drained_clears (w : World) : bool * World :=
  let c := chans w in
  ((0 <? chClears c)%nat,
   set_chans (mkChannels (chMessages c) (chStops c) 0)
     (fold_left (λ w _, emit ClearRead w) (repeat tt (chClears c)) w)).

Definition read_stops (w : World) : World :=
  let c := chans w in
  set_chans (mkChannels (chMessages c) [] (chClears c)) (fold_left (λ w k, emit (StopRead k) w) (chStops c) w).

(** [drained(stops)]: its answer is not used. *)
Definition drained_stops (w : World) : World := read_stops w.

Definition stopsFor (turnKey : string) (w : World) : bool * World :=
  (existsb (String.eqb turnKey) (chStops (chans w)), read_stops w).

(** ** Steps of an answer *)

Definition notifyTurn (env : Env) (event : string) (e : TurnEvent) : World → World := perform env (TurnTold event e).

Definition notifyResponse (env : Env) (channel channelID signer content : string) : World → World :=
  perform env (Told channel channelID signer content).

Definition notifyError (env : Env) (channel channelID signer reason : string) : World → World :=
  notifyResponse env channel channelID signer ("Error processing message: " +:+ reason).

Definition endTurn (env : Env) (turnKey : string) (end_ : Message) : World → World := perform env (EndWritten turnKey end_).

Definition drop_one (env : Env) (in_ : ParticipantInput) (m : ParticipantMessage) (w : World) : World :=
  let w := emit (Dropped m) w in
  if MessageID m <=? 0 then w
  else
    let turnKey := TurnKey (MessageID m) (InAgentID in_) in
    notifyTurn env EventTurnDone (mkTurnEvent (InAgentID in_) "" turnKey "" "")
      (endTurn env turnKey (TurnEnd (InAgentID in_) clearedReason) w).

Definition clear (env : Env) (in_ : ParticipantInput) (w : World) : World :=
  let w := receive w in
  fold_left (λ w m, drop_one env in_ m w) (inbox (me w)) (set_inbox [] w).

Definition with_next (m : ParticipantMessage) (next : list AddressedAgent) (earlier : list string) : ParticipantMessage :=
  mkPM (MessageID m) (PMUserID m) (PMUserName m) next earlier (SignReply m) (PMChannel m) (PMChannelID m) (PMPart m).

(** [relay] to [next], the head of the message's Next; [rest] is its tail. *)
Definition relay_input (env : Env) (in_ : ParticipantInput) (msg : ParticipantMessage)
    (next : AddressedAgent) (rest : list AddressedAgent) (turnKey : string) : RelayInput :=
  mkRelay (ParticipantWorkflowID (InSessionID in_) (AddrID next)) "ParticipantWorkflow" (TaskQueueName env) SignalMessage
    (with_next msg rest (if String.eqb turnKey "" then EarlierTurns msg else EarlierTurns msg ++ [turnKey]))
    (mkInput (InSessionID in_) (AddrID next) (InChannel in_) (InChannelID in_) []) "".

Definition relay (env : Env) (in_ : ParticipantInput) (msg : ParticipantMessage) (next : AddressedAgent)
    (rest : list AddressedAgent) (turnKey channel channelID signer : string) (w : World) : World :=
  let i := relay_input env in_ msg next rest turnKey in
  let failed := relay_result env (step w) i in
  let w := perform env (Relayed i failed) w in
  match failed with
  | None => w
  | Some text =>
      let reason := "le relais vers @" +:+ cmp_or (AddrMention next) (AddrID next) +:+ " a échoué : " +:+ text in
      notifyError env channel channelID signer reason
        (endTurn env (TurnKey (MessageID msg) (AddrID next)) (TurnEnd (AddrID next) reason) w)
  end.

(** ** A turn *)

Record TurnRun := mkTurnRun { stopped : bool; cleared : bool; world : World }.

(** [stop] of runTurn: the turn is cancelled once. *)
Definition stop (id : string) (clear : bool) (r : TurnRun) : TurnRun :=
  mkTurnRun true (cleared r || clear) (if stopped r then world r else emit (ChildCancelled id) (world r)).

Definition turn_step (id turnKey : string) (e : turn_event) (r : TurnRun) : TurnRun :=
  let w := world r in
  let c := chans w in
  match e with
  | Arrive sigs => mkTurnRun (stopped r) (cleared r) (deliver_all sigs w)
  | PickStop =>
      match chStops c with
      | [] => r
      | k :: ks =>
          let r := mkTurnRun (stopped r) (cleared r)
                     (emit (StopRead k) (set_chans (mkChannels (chMessages c) ks (chClears c)) w)) in
          if negb (String.eqb k "") && negb (String.eqb k turnKey) then r else stop id false r
      end
  | PickClear =>
      match chClears c with
      | O => r
      | S n =>
          stop id true (mkTurnRun (stopped r) (cleared r)
            (emit ClearRead (set_chans (mkChannels (chMessages c) (chStops c) n) w)))
      end
  | PickMessage =>
      match chMessages c with
      | [] => r
      | m :: ms =>
          mkTurnRun (stopped r) (cleared r)
            (set_inbox (inbox (me w) ++ [m]) (set_chans (mkChannels ms (chStops c) (chClears c)) w))
      end
  end.

Definition turn_input (in_ : ParticipantInput) (msg : ParticipantMessage) (turnKey channel channelID : string) : AgentWorkflowInput :=
  mkAgentIn (InSessionID in_) (PMUserID msg) (PMUserName msg) (InAgentID in_) turnKey (EarlierTurns msg) channel channelID
    (noteFor (PMPart msg) (InAgentID in_) (PMUserName msg)) (SignReply msg).

Definition turn_id (in_ : ParticipantInput) (msg : ParticipantMessage) : string :=
  turnWorkflowID (ParticipantWorkflowID (InSessionID in_) (InAgentID in_)) (MessageID msg).

(** [runTurn]: the output, stopped or not, cleared or not, why it failed, and
    the state. *)
Definition runTurn (env : Env) (in_ : ParticipantInput) (msg : ParticipantMessage) (turnKey channel channelID : string)
    (w : World) : AgentWorkflowOutput * bool * bool * string * World :=
  let id := turn_id in_ msg in
  let i := turn_input in_ msg turnKey channel channelID in
  let r := fold_left (λ r e, turn_step id turnKey e r) (script env (step w))
             (mkTurnRun false false (emit (ChildStarted id i) w)) in
  let child := child_result env (step w) i in
  let w' := emit (ChildEnded id child) (world r) in
  let w' := mkWorld (me w') (chans w') (S (step w)) (trace w') in
  let result := match child with ChildDone out => out | ChildFailed _ => noOutput end in
  let reason :=
    if stopped r then ""
    else match child with ChildFailed text => "agent workflow: " +:+ text | ChildDone out => OutError out end in
  (result, stopped r, cleared r, reason, w').

(** ** The answer to a message *)

(** What follows the turn: its rewrite, its end, and what its end calls for. *)
Definition finishTurn (env : Env) (in_ : ParticipantInput) (msg : ParticipantMessage) (turnKey channel channelID signer : string)
    (result : AgentWorkflowOutput) (stopped cleared : bool) (reason : string) (w : World) : World :=
  let w :=
    match NewMessages result with
    | [] => w
    | msgs => perform env (Persisted turnKey msgs) w
    end in
  let w := endTurn env turnKey (TurnEnd (InAgentID in_) reason) w in
  let w :=
    if stopped then notifyResponse env channel channelID signer "Agent interrupted by user." w
    else if String.eqb (ErrorType result) AgentNotOpen then
      let w := notifyError env channel channelID signer reason w in
      match Next msg with
      | [] => w
      | next :: rest => relay env in_ msg next rest "" channel channelID signer w
      end
    else if negb (String.eqb reason "") then notifyError env channel channelID signer reason w
    else
      match Next msg with
      | [] => w
      | next :: rest => relay env in_ msg next rest turnKey channel channelID signer w
      end in
  if cleared then clear env in_ w else w.

(** [answer] between its deferred calls: the event they send, and the state. *)
Definition answerTurn (env : Env) (in_ : ParticipantInput) (msg : ParticipantMessage) (turnKey channel channelID : string)
    (w : World) : TurnEvent * World :=
  let event name := mkTurnEvent (InAgentID in_) name turnKey (PMUserID msg) (PMUserName msg) in
  let signer := if SignReply msg then InAgentID in_ else "" in
  let i := mkCheckIn (InSessionID in_) (InAgentID in_) turnKey in
  let r := check_result env (step w) i in
  let w := perform env (Checked i r) w in
  match r with
  | CheckSessionGone => (event "", set_gone w)
  | CheckFailed text =>
      let reason := "the agent could not answer: " +:+ text in
      (event "", notifyError env channel channelID signer reason
                   (endTurn env turnKey (TurnEnd (InAgentID in_) reason) w))
  | CheckOK check =>
      if Answered check then (event "", w)
      else
        let signer := if SignReply msg then cmp_or (AgentName check) (InAgentID in_) else signer in
        let '(found, w) := stopsFor turnKey w in
        if found then
          (event "", notifyResponse env channel channelID signer "Agent interrupted by user."
                       (endTurn env turnKey (TurnEnd (InAgentID in_) stoppedBeforeReason) w))
        else
          let e := event (AgentName check) in
          let w := notifyTurn env EventTurnStarted e w in
          let '(result, stopped, cleared, reason, w) := runTurn env in_ msg turnKey channel channelID w in
          (e, finishTurn env in_ msg turnKey channel channelID signer result stopped cleared reason w)
  end.

Definition answer (env : Env) (in_ : ParticipantInput) (msg : ParticipantMessage) (w : World) : World :=
  if MessageID msg <=? 0 then w
  else
    let turnKey := TurnKey (MessageID msg) (InAgentID in_) in
    let '(channel, channelID) :=
      if String.eqb (PMChannel msg) "" then (InChannel in_, InChannelID in_) else (PMChannel msg, PMChannelID msg) in
    let w := set_current (Some (mkCurrent (MessageID msg) turnKey (PMUserID msg) (PMUserName msg) (now_at env (step w)))) w in
    let '(event, w) := answerTurn env in_ msg turnKey channel channelID w in
    set_current None (notifyTurn env EventTurnDone event w).

(** ** The participant's run *)

Definition participantHistoryIsLarge (h : Z * Z) : bool :=
  (maxParticipantHistoryEvents <=? fst h) || (maxParticipantHistoryBytes <=? snd h).

(** How a run ends; [Running] when the fuel given did not see its end. *)
Inductive outcome := Closed | ContinuedAsNew (next : ParticipantInput) | Running.

(** What precedes a message's answer: the messages received, and a clear's
    work. *)
Definition collect (env : Env) (in_ : ParticipantInput) (w : World) : World :=
  let '(held, w) := drained_clears (receive w) in
  if held then clear env in_ w else w.

(** [ParticipantWorkflow]'s loop; the fuel is the number of messages it may
    answer. *)
Fixpoint run (env : Env) (in_ : ParticipantInput) (fuel : nat) (w : World) : outcome * World :=
  let w := collect env in_ w in
  match inbox (me w) with
  | [] => (Closed, drained_stops w)
  | msg :: rest =>
      if gone (me w) then (Closed, drained_stops w)
      else if participantHistoryIsLarge (history env (step w)) then
        (ContinuedAsNew (mkInput (InSessionID in_) (InAgentID in_) (InChannel in_) (InChannelID in_) (inbox (me w))),
         drained_stops w)
      else
        match fuel with
        | O => (Running, w)
        | S fuel => run env in_ fuel (answer env in_ msg (emit (Taken msg) (set_inbox rest w)))
        end
  end.

(** A run starts with its input's inbox and the signals delivered first. *)
Definition start (in_ : ParticipantInput) (sigs : list Signal) : World :=
  deliver_all sigs (mkWorld (mkParticipant (Inbox in_) None false) (mkChannels [] [] 0) 0 []).

Definition ParticipantWorkflow (env : Env) (in_ : ParticipantInput) (sigs : list Signal) (fuel : nat) : outcome * World :=
  run env in_ fuel (start in_ sigs).
