(* ===== verification/ParticipantInbox.v ===== *)
(** * A participant's inbox: what it does with the messages delivered to it

    Every message of a run is accounted for (answered, dropped by a clear, kept
    for the next run, or left unread at its end), what an answer may do, and
    the end of a run. *)

From S2P Require Import Prelude GoStr Utf8 Json Keys Message Convert Participant.
Open Scope string_scope.
Open Scope Z_scope.
Open Scope list_scope.

(** ** The trace, one operation after another *)

(** [w'] is [w] with more done, each effect of it satisfying [P]. *)
Definition does (P : effect → Prop) (w w' : World) : Prop :=
  ∃ new, trace w' = trace w ++ new ∧ Forall P new.

#[export] Instance does_refl P : Reflexive (does P).
Proof. intros w. exists []. by rewrite app_nil_r. Qed.

#[export] Instance does_trans P : Transitive (does P).
Proof.
  intros a b c (x & Hab & Hx) (y & Hbc & Hy). exists (x ++ y). by rewrite Hbc, Hab, app_assoc, Forall_app.
Qed.

Lemma does_emit (P : effect → Prop) e w : P e → does P w (emit e w).
Proof. intros He. exists [e]. by rewrite Forall_singleton. Qed.

Lemma does_fold {X} P (f : World → X → World) (l : list X) w :
  (∀ x w, x ∈ l → does P w (f w x)) → does P w (fold_left f l w).
Proof.
  revert w; induction l as [|x l IH]; intros w H; simpl; [done|].
  transitivity (f w x); [apply H; left|]. apply IH. intros y v Hy. apply H. by right.
Qed.

(** Several effects in a row change the trace only. *)
Lemma emits_frame {X} (g : X → effect) (l : list X) w :
  fold_left (λ w x, emit (g x) w) l w = mkWorld (me w) (chans w) (step w) (trace w ++ (g <$> l)).
Proof.
  revert w; induction l as [|x l IH]; intros w; simpl.
  - rewrite app_nil_r. by destruct w.
  - rewrite IH. unfold emit. cbn. by rewrite <- app_assoc.
Qed.

(** The ghost of an arrival is never part of what a property asks. *)
Class Quiet (P : effect → Prop) := quiet s : P (Arrived s).

Lemma does_deliver_all P `{!Quiet P} sigs w : does P w (deliver_all sigs w).
Proof. apply does_fold. intros s v _. exists [Arrived s]. split; [done|]. apply Forall_singleton, quiet. Qed.

Lemma does_await P `{!Quiet P} env w : does P w (await env w).
Proof. destruct (does_deliver_all P (arrivals env (step w)) w) as (new & H & HF). exists new. done. Qed.

Lemma does_perform P `{!Quiet P} env e w : P e → does P w (perform env e w).
Proof. intros He. etrans; [by apply does_emit|apply does_await, _]. Qed.

(** ** Every message is accounted for *)

Definition moved_one (e : effect) : list ParticipantMessage :=
  match e with Taken m | Dropped m => [m] | _ => [] end.

Definition arrived_one (e : effect) : list ParticipantMessage :=
  match e with Arrived (SigMessage m) => [m] | _ => [] end.

(** The messages that left the inbox, in order, and those that came. *)
Definition moved (tr : list effect) : list ParticipantMessage := tr ≫= moved_one.
Definition arrived (tr : list effect) : list ParticipantMessage := tr ≫= arrived_one.

(** What left the inbox, then [held] (out of the inbox, on its way), the
    inbox and the channel, are the messages of the start and those that
    came since, in the order they came. *)
Definition accounted (base held : list ParticipantMessage) (w : World) : Prop :=
  moved (trace w) ++ held ++ inbox (me w) ++ chMessages (chans w) = base ++ arrived (trace w).

Lemma moved_app a b : moved (a ++ b) = moved a ++ moved b.
Proof. apply bind_app. Qed.
Lemma arrived_app a b : arrived (a ++ b) = arrived a ++ arrived b.
Proof. apply bind_app. Qed.

Lemma moved_snoc tr e : moved (tr ++ [e]) = moved tr ++ moved_one e.
Proof. rewrite moved_app. unfold moved at 2. cbn. by rewrite app_nil_r. Qed.
Lemma arrived_snoc tr e : arrived (tr ++ [e]) = arrived tr ++ arrived_one e.
Proof. rewrite arrived_app. unfold arrived at 2. cbn. by rewrite app_nil_r. Qed.

Lemma accounted_emit base held e w :
  moved_one e = [] → arrived_one e = [] → accounted base held w → accounted base held (emit e w).
Proof.
  unfold accounted, emit. cbn [trace me chans]. rewrite moved_snoc, arrived_snoc. intros -> -> H.
  by rewrite !app_nil_r.
Qed.

Lemma accounted_deliver base held s w : accounted base held w → accounted base held (deliver s w).
Proof.
  unfold accounted, deliver, emit, set_chans. cbn [trace me chans]. rewrite moved_snoc, arrived_snoc.
  intros H. destruct s; cbn [chMessages moved_one arrived_one]; rewrite ?app_nil_r; [|done|done].
  by rewrite (app_assoc base), <- H, <- !app_assoc.
Qed.

Lemma accounted_deliver_all base held sigs w : accounted base held w → accounted base held (deliver_all sigs w).
Proof. unfold deliver_all. revert w; induction sigs as [|s l IH]; intros w H; simpl; [done|]. by apply IH, accounted_deliver. Qed.

Lemma accounted_perform base held env e w :
  moved_one e = [] → arrived_one e = [] → accounted base held w → accounted base held (perform env e w).
Proof. intros Hm Ha H. unfold perform, await. apply (accounted_deliver_all base held). by apply accounted_emit. Qed.

Lemma accounted_receive base held w : accounted base held w → accounted base held (receive w).
Proof. unfold accounted, receive, set_chans, set_inbox. cbn. by rewrite app_nil_r. Qed.

Lemma accounted_drop_all base env in_ l w :
  accounted base l w → accounted base [] (fold_left (λ w m, drop_one env in_ m w) l w).
Proof.
  revert w; induction l as [|m l IH]; intros w H; simpl; [done|]. apply IH.
  assert (accounted base l (emit (Dropped m) w)) as H'.
  { unfold accounted, emit in *. cbn [trace me chans]. rewrite moved_snoc, arrived_snoc.
    cbn [moved_one arrived_one]. rewrite app_nil_r, <- H. by rewrite <- !app_assoc. }
  unfold drop_one. destruct (MessageID m <=? 0); [done|].
  by apply accounted_perform, accounted_perform.
Qed.

Lemma accounted_clear base env in_ w : accounted base [] w → accounted base [] (clear env in_ w).
Proof.
  intros H. unfold clear. apply accounted_drop_all. apply accounted_receive in H.
  revert H. unfold accounted, set_inbox. by cbn.
Qed.

Lemma bind_nothing {X} (g : X → effect) (f : effect → list ParticipantMessage) (l : list X) :
  (∀ x, f (g x) = []) → (g <$> l) ≫= f = [].
Proof. intros H. induction l as [|x l IH]; [done|]. cbn. by rewrite H. Qed.

Lemma accounted_same base held w w' :
  inbox (me w') = inbox (me w) → chMessages (chans w') = chMessages (chans w) → moved (trace w') = moved (trace w) →
  arrived (trace w') = arrived (trace w) → accounted base held w → accounted base held w'.
Proof. unfold accounted. by intros -> -> -> ->. Qed.

Lemma accounted_stops base held w : accounted base held w → accounted base held (read_stops w).
Proof.
  unfold read_stops. rewrite emits_frame. apply accounted_same; cbn; [done|done| |].
  - rewrite moved_app. unfold moved at 2. by rewrite bind_nothing, app_nil_r.
  - rewrite arrived_app. unfold arrived at 2. by rewrite bind_nothing, app_nil_r.
Qed.

Lemma accounted_clears base held w : accounted base held w → accounted base held (snd (drained_clears w)).
Proof.
  unfold drained_clears. rewrite emits_frame. apply accounted_same; cbn; [done|done| |].
  - rewrite moved_app. unfold moved at 2. by rewrite bind_nothing, app_nil_r.
  - rewrite arrived_app. unfold arrived at 2. by rewrite bind_nothing, app_nil_r.
Qed.

Lemma accounted_collect base env in_ w : accounted base [] w → accounted base [] (collect env in_ w).
Proof.
  intros H. unfold collect. pose proof (accounted_clears _ _ _ (accounted_receive _ _ _ H)) as Hc.
  destruct (drained_clears (receive w)) as [held w']. cbn [snd] in Hc.
  destruct held; [by apply accounted_clear|done].
Qed.

Lemma accounted_relay base env in_ msg next rest turnKey channel channelID signer w :
  accounted base [] w → accounted base [] (relay env in_ msg next rest turnKey channel channelID signer w).
Proof.
  intros H. unfold relay. split_match; by repeat (apply accounted_perform; [done|done|]).
Qed.

Lemma accounted_stop base id b r :
  accounted base [] (world r) → accounted base [] (world (stop id b r)).
Proof. unfold stop. cbn. destruct (stopped r); [done|]. by apply accounted_emit. Qed.

Lemma accounted_turn_step base id turnKey e r :
  accounted base [] (world r) → accounted base [] (world (turn_step id turnKey e r)).
Proof.
  intros H. destruct e; cbn [turn_step world].
  - by apply accounted_deliver_all.
  - destruct (chStops _) as [|k ks]; [done|].
    assert (∀ w', me w' = me (world r) → chMessages (chans w') = chMessages (chans (world r)) → trace w' = trace (world r) →
              accounted base [] (emit (StopRead k) w')) as Hk.
    { intros w' E1 E2 E3. apply accounted_emit; [done|done|]. revert H. apply accounted_same; congruence. }
    split_match; [by apply Hk|]. apply accounted_stop. by apply Hk.
  - destruct (chClears _) as [|n]; [done|]. apply accounted_stop. cbn [world].
    apply accounted_emit; [done|done|]. revert H. by apply accounted_same.
  - destruct (chMessages _) as [|m ms] eqn:E; [done|]. cbn [world].
    revert H. unfold accounted. cbn. rewrite E. intros H. rewrite <- (app_assoc _ [m] ms). exact H.
Qed.

Lemma accounted_runTurn base env in_ msg turnKey channel channelID w :
  accounted base [] w → accounted base [] (snd (runTurn env in_ msg turnKey channel channelID w)).
Proof.
  intros H. unfold runTurn. cbn [snd].
  set (r := fold_left _ _ _).
  assert (accounted base [] (world r)) as Hr.
  { subst r. apply (accounted_emit _ _ (ChildStarted (turn_id in_ msg) (turn_input in_ msg turnKey channel channelID))) in H; [|done|done].
    revert H. generalize (script env (step w)) as l, (emit (ChildStarted (turn_id in_ msg) (turn_input in_ msg turnKey channel channelID)) w) as v.
    intros l v Hv. change v with (world (mkTurnRun false false v)) in Hv. revert Hv. generalize (mkTurnRun false false v) as q.
    induction l as [|e l IH]; intros q Hq; simpl; [done|]. by apply IH, accounted_turn_step. }
  apply (accounted_emit _ _ (ChildEnded (turn_id in_ msg) (child_result env (step w) (turn_input in_ msg turnKey channel channelID)))) in Hr; [|done|done].
  revert Hr. by apply accounted_same.
Qed.

(** Walks the activities of an operation. *)
Ltac accounted_steps :=
  repeat first [ assumption
               | apply accounted_perform; [reflexivity|reflexivity|]
               | apply accounted_relay | apply accounted_clear | apply accounted_stops ].

Lemma accounted_finishTurn base env in_ msg turnKey channel channelID signer result stopped cleared reason w :
  accounted base [] w →
  accounted base [] (finishTurn env in_ msg turnKey channel channelID signer result stopped cleared reason w).
Proof.
  intros H. unfold finishTurn. set (w1 := match NewMessages result with [] => w | _ => _ end).
  assert (accounted base [] w1) as H1 by (subst w1; destruct (NewMessages result); accounted_steps).
  destruct cleared; [apply accounted_clear|];
    (destruct stopped; [|destruct (String.eqb (ErrorType result) _); [|destruct (negb (String.eqb reason ""))]]);
    try destruct (Next msg); unfold notifyError, notifyResponse, endTurn; accounted_steps.
Qed.

Lemma accounted_set_current base held c w : accounted base held w → accounted base held (set_current c w).
Proof. done. Qed.

Lemma accounted_answer base env in_ msg w : accounted base [] w → accounted base [] (answer env in_ msg w).
Proof.
  intros H. unfold answer. destruct (MessageID msg <=? 0); [done|].
  set (turnKey := TurnKey _ _). destruct (if String.eqb (PMChannel msg) "" then _ else _) as [channel channelID].
  apply (accounted_set_current _ _ (Some (mkCurrent (MessageID msg) turnKey (PMUserID msg) (PMUserName msg) (now_at env (step w))))) in H.
  revert H. generalize (set_current (Some (mkCurrent (MessageID msg) turnKey (PMUserID msg) (PMUserName msg) (now_at env (step w)))) w) as v.
  intros v Hv.
  assert (accounted base [] (snd (answerTurn env in_ msg turnKey channel channelID v))) as Ha.
  { unfold answerTurn, stopsFor. destruct (check_result env (step v) _) as [out| |text]; cbn [snd].
    2: { change (accounted base [] (perform env (Checked (mkCheckIn (InSessionID in_) (InAgentID in_) turnKey) CheckSessionGone) v)).
         accounted_steps. }
    2: { unfold notifyError, notifyResponse, endTurn. accounted_steps. }
    destruct (Answered out); [cbn [snd]; accounted_steps|]. destruct (existsb _ _).
    { unfold notifyResponse, endTurn. cbn [snd]. accounted_steps. }
    match goal with |- context [runTurn ?a ?b ?c ?d ?e ?f ?g] => 
      pose proof (accounted_runTurn base a b c d e f g) as Hr; destruct (runTurn a b c d e f g) as [[[[result st] cl] reason] u] end.
    cbn [snd] in *. apply accounted_finishTurn, Hr. unfold notifyTurn. accounted_steps. }
  destruct (answerTurn env in_ msg turnKey channel channelID v) as [event u]. cbn [snd] in Ha.
  apply accounted_set_current. unfold notifyTurn. accounted_steps.
Qed.

Lemma accounted_take base m rest w :
  inbox (me w) = m :: rest → accounted base [] w → accounted base [] (emit (Taken m) (set_inbox rest w)).
Proof.
  unfold accounted, emit, set_inbox. cbn. rewrite moved_snoc, arrived_snoc. cbn [moved_one arrived_one].
  intros -> H. by rewrite app_nil_r, <- H, <- app_assoc.
Qed.

Lemma accounted_run base env in_ fuel w : accounted base [] w → accounted base [] (snd (run env in_ fuel w)).
Proof.
  revert w; induction fuel as [|fuel IH]; intros w H; cbn [run];
    apply (accounted_collect _ env in_) in H; revert H; generalize (collect env in_ w) as v; intros v H;
    destruct (inbox (me v)) as [|m rest] eqn:E; cbn [snd]; try by apply accounted_stops.
  - destruct (gone (me v)); [by apply accounted_stops|].
    destruct (participantHistoryIsLarge _); [by apply accounted_stops|done].
  - destruct (gone (me v)); [by apply accounted_stops|].
    destruct (participantHistoryIsLarge _); [by apply accounted_stops|].
    apply IH, accounted_answer. by apply accounted_take.
Qed.

Lemma accounted_start in_ sigs : accounted (Inbox in_) [] (start in_ sigs).
Proof. apply accounted_deliver_all. unfold accounted. cbn. by rewrite !app_nil_r. Qed.

(** What a wait leaves alone. *)
Lemma deliver_all_me sigs w : me (deliver_all sigs w) = me w.
Proof. unfold deliver_all. revert w; induction sigs as [|s l IH]; intros w; simpl; [done|]. by rewrite IH. Qed.

Lemma perform_me env e w : me (perform env e w) = me w.
Proof. unfold perform, await. cbn. by rewrite deliver_all_me. Qed.

Lemma drop_all_me env in_ l w : me (fold_left (λ w m, drop_one env in_ m w) l w) = me w.
Proof.
  revert w; induction l as [|m l IH]; intros w; simpl; [done|]. rewrite IH. unfold drop_one.
  destruct (MessageID m <=? 0); [done|]. unfold notifyTurn, endTurn. by rewrite !perform_me.
Qed.

Lemma clear_inbox env in_ w : inbox (me (clear env in_ w)) = [].
Proof. unfold clear. by rewrite drop_all_me. Qed.

(** [w'] is [w] with messages dropped since, and none taken. *)
Definition not_taken (e : effect) : Prop := match e with Taken _ => False | _ => True end.

#[export] Instance not_taken_quiet : Quiet not_taken.
Proof. by intros s. Qed.

Definition ends_dropping (tr : list effect) : Prop :=
  ∃ before m after, tr = before ++ Dropped m :: after ∧ Forall not_taken after.

Lemma drop_one_does env in_ m w : does not_taken w (drop_one env in_ m w).
Proof.
  unfold drop_one. etrans; [by apply (does_emit not_taken (Dropped m))|].
  destruct (MessageID m <=? 0); [done|].
  etrans; apply does_perform; try apply _; done.
Qed.

Lemma does_ends_dropping w w' : does not_taken w w' → ends_dropping (trace w) → ends_dropping (trace w').
Proof.
  intros (new & -> & Hn) (b & m & a & -> & Ha). exists b, m, (a ++ new).
  rewrite <- app_assoc. split; [done|]. by apply Forall_app.
Qed.

Lemma drop_all_dropping env in_ m l w :
  ends_dropping (trace (fold_left (λ w m, drop_one env in_ m w) (m :: l) w)).
Proof.
  simpl. eapply does_ends_dropping; [apply does_fold; intros; apply drop_one_does|].
  unfold drop_one. destruct (MessageID m <=? 0).
  - exists (trace w), m, []. done.
  - eapply does_ends_dropping; [etrans; apply does_perform; try apply _; done|]. exists (trace w), m, []. done.
Qed.

(** After [collect], messages are left unread only when a clear has just
    dropped others, and then the inbox is empty. *)
Lemma collect_reads env in_ w :
  let w' := collect env in_ w in
  chMessages (chans w') = [] ∨ (inbox (me w') = [] ∧ ends_dropping (trace w')).
Proof.
  cbn zeta. unfold collect, drained_clears. rewrite emits_frame.
  destruct (0 <? _)%nat; [|by left].
  destruct (inbox (me (receive w)) ++ []) as [|m l] eqn:E.
  - left. unfold clear. cbn [receive set_chans set_inbox me inbox current gone chans chMessages] in *. by rewrite E.
  - right. split; [apply clear_inbox|]. unfold clear. cbn [receive set_chans set_inbox me inbox current gone chans chMessages] in *. rewrite E.
    apply drop_all_dropping.
Qed.

Lemma drained_stops_frame w :
  me (drained_stops w) = me w ∧ chMessages (chans (drained_stops w)) = chMessages (chans w) ∧
  does not_taken w (drained_stops w).
Proof.
  unfold drained_stops, read_stops. rewrite emits_frame. split; [done|]. split; [done|].
  exists (StopRead <$> chStops (chans w)). split; [done|]. apply Forall_fmap, Forall_true. done.
Qed.

(** ** The session gone

    A participant leaves messages in its inbox only when the check of a
    message it took answered that its session is gone. *)

(** The check of [m]'s turn. *)
Definition check_of (in_ : ParticipantInput) (m : ParticipantMessage) : CheckTurnInput :=
  mkCheckIn (InSessionID in_) (InAgentID in_) (TurnKey (MessageID m) (InAgentID in_)).

Definition not_gone (e : effect) : Prop := match e with Checked _ CheckSessionGone => False | _ => True end.

(** Neither takes a message nor learns that the session is gone. *)
Definition calm (e : effect) : Prop :=
  match e with Taken _ | Checked _ CheckSessionGone => False | _ => True end.

#[export] Instance calm_quiet : Quiet calm.
Proof. by intros s. Qed.

Definition calmly (w w' : World) : Prop := gone (me w') = gone (me w) ∧ does calm w w'.

#[export] Instance calmly_refl : Reflexive calmly.
Proof. intros w. by split. Qed.

#[export] Instance calmly_trans : Transitive calmly.
Proof. intros a b c [E1 H1] [E2 H2]. split; [congruence|by etrans]. Qed.

Lemma calmly_same w w' : gone (me w') = gone (me w) → trace w' = trace w → calmly w w'.
Proof. intros E1 E2. split; [done|]. exists []. by rewrite E2, app_nil_r. Qed.

Lemma calmly_emit e w : calm e → calmly w (emit e w).
Proof. intros He. split; [done|]. by apply does_emit. Qed.

Lemma calmly_deliver_all sigs w : calmly w (deliver_all sigs w).
Proof. split; [by rewrite deliver_all_me|]. by apply does_deliver_all, _. Qed.

Lemma calmly_perform env e w : calm e → calmly w (perform env e w).
Proof. intros He. split; [by rewrite perform_me|]. by apply does_perform; [apply _|]. Qed.

Lemma calmly_fold {X} (f : World → X → World) (l : list X) w :
  (∀ x w, calmly w (f w x)) → calmly w (fold_left f l w).
Proof. intros H. revert w; induction l as [|x l IH]; intros w; simpl; [done|]. by etrans; [apply H|]. Qed.

Lemma calmly_read_stops w : calmly w (read_stops w).
Proof.
  unfold read_stops. etrans; [apply (calmly_fold (λ w k, emit (StopRead k) w) (chStops (chans w)))|by apply calmly_same].
  intros. by apply calmly_emit.
Qed.

Lemma calmly_clears w : calmly w (snd (drained_clears w)).
Proof.
  unfold drained_clears. cbn [snd].
  etrans; [apply (calmly_fold (λ w _, emit ClearRead w) (repeat tt (chClears (chans w))))|by apply calmly_same].
  intros. by apply calmly_emit.
Qed.

Lemma calmly_clear env in_ w : calmly w (clear env in_ w).
Proof.
  unfold clear. transitivity (set_inbox [] (receive w)); [by apply calmly_same|]. apply calmly_fold.
  intros m v. unfold drop_one. etrans; [by apply (calmly_emit (Dropped m))|].
  destruct (MessageID m <=? 0); [done|]. unfold notifyTurn, endTurn. etrans; by apply calmly_perform.
Qed.

Lemma calmly_collect env in_ w : calmly w (collect env in_ w).
Proof.
  unfold collect. transitivity (receive w); [by apply calmly_same|].
  pose proof (calmly_clears (receive w)) as Hc. destruct (drained_clears _) as [[] v]; [|done].
  etrans; [exact Hc|apply calmly_clear].
Qed.

Lemma calmly_turn_step id turnKey e r : calmly (world r) (world (turn_step id turnKey e r)).
Proof.
  assert (∀ b q, calmly (world r) (world q) → calmly (world r) (world (stop id b q))) as Hstop.
  { intros b q Hq. unfold stop. cbn. destruct (stopped q); [done|]. etrans; [done|]. by apply calmly_emit. }
  assert (∀ e' w', calm e' → me w' = me (world r) → trace w' = trace (world r) → calmly (world r) (emit e' w')) as Hemit.
  { intros e' w' He E1 E2. transitivity w'; [apply calmly_same; congruence|by apply calmly_emit]. }
  destruct e; cbn [turn_step].
  - apply calmly_deliver_all.
  - destruct (chStops _) as [|s ks]; [done|].
    destruct (negb _ && negb _); [by apply Hemit|by apply Hstop, Hemit].
  - destruct (chClears _) as [|n]; [done|]. by apply Hstop, Hemit.
  - destruct (chMessages _) as [|m ms]; [done|]. by apply calmly_same.
Qed.

Lemma calmly_runTurn env in_ msg turnKey channel channelID w :
  calmly w (snd (runTurn env in_ msg turnKey channel channelID w)).
Proof.
  unfold runTurn. cbn [snd]. set (i := turn_input _ _ _ _ _). set (id := turn_id _ _).
  set (r := fold_left _ _ _). transitivity (world r);
    [|transitivity (emit (ChildEnded id (child_result env (step w) i)) (world r)); [by apply calmly_emit|by apply calmly_same]].
  subst r. etrans; [by apply (calmly_emit (ChildStarted id i))|].
  change (emit (ChildStarted id i) w) with (world (mkTurnRun false false (emit (ChildStarted id i) w))) at 1.
  generalize (mkTurnRun false false (emit (ChildStarted id i) w)) as q.
  induction (script env (step w)) as [|e l IH]; intros q; simpl; [done|].
  etrans; [apply calmly_turn_step|apply IH].
Qed.

(** Walks the activities of an operation. *)
Ltac calm_steps :=
  unfold relay, notifyError, notifyResponse, notifyTurn, endTurn;
  repeat first [ reflexivity
               | etrans; [|apply calmly_clear]
               | etrans; [|by apply calmly_perform]
               | split_match ].

Lemma calmly_finishTurn env in_ msg turnKey channel channelID signer result st cl reason w :
  calmly w (finishTurn env in_ msg turnKey channel channelID signer result st cl reason w).
Proof. unfold finishTurn. calm_steps. Qed.

(** What follows the check. *)
Lemma answerTurn_checks env in_ msg turnKey channel channelID w :
  let i := mkCheckIn (InSessionID in_) (InAgentID in_) turnKey in
  let r := check_result env (step w) i in
  let v := perform env (Checked i r) w in
  let w' := snd (answerTurn env in_ msg turnKey channel channelID w) in
  match r with CheckSessionGone => w' = set_gone v | _ => calmly v w' end.
Proof.
  cbn zeta. unfold answerTurn. set (i := mkCheckIn _ _ _). generalize (perform env (Checked i (check_result env (step w) i)) w) as v.
  intros v. destruct (check_result env (step w) i) as [out| |text]; [|done|cbn [snd]; calm_steps].
  destruct (Answered out); [done|]. unfold stopsFor. destruct (existsb _ _).
  { cbn [snd]. etrans; [apply calmly_read_stops|]. calm_steps. }
  match goal with |- context [runTurn env in_ msg turnKey channel channelID ?u] =>
    pose proof (calmly_runTurn env in_ msg turnKey channel channelID u) as Hr end.
  destruct (runTurn _ _ _ _ _ _ _) as [[[[result st] cl] reason] x]. cbn [snd] in *.
  etrans; [|apply calmly_finishTurn]. etrans; [|exact Hr]. unfold notifyTurn. etrans; [|by apply calmly_perform].
  apply calmly_read_stops.
Qed.

(** The first check that answers that the session is gone is that of the last
    message taken. *)
Definition session_gone (in_ : ParticipantInput) (tr : list effect) : Prop :=
  ∃ before m after, tr = before ++ Taken m :: Checked (check_of in_ m) CheckSessionGone :: after ∧
    Forall not_gone before ∧ Forall calm after.

(** [gone] says exactly that. *)
Definition gone_told (in_ : ParticipantInput) (w : World) : Prop :=
  if gone (me w) then session_gone in_ (trace w) else Forall not_gone (trace w).

Lemma calm_not_gone tr : Forall calm tr → Forall not_gone tr.
Proof. intros H. eapply Forall_impl; [exact H|]. by intros [| | | | |? []| | | | | | | |]. Qed.

Lemma calmly_told in_ w w' : calmly w w' → gone_told in_ w → gone_told in_ w'.
Proof.
  unfold gone_told. intros (-> & new & -> & Hn). destruct (gone (me w)).
  - intros (b & m & a & -> & Hb & Ha). exists b, m, (a ++ new). rewrite <- app_assoc. split; [done|].
    split; [done|]. by apply Forall_app.
  - intros H. by apply Forall_app; split; [|apply calm_not_gone].
Qed.

(** An answer to the message just taken. *)
Lemma answer_told env in_ msg w before :
  trace w = before ++ [Taken msg] → gone (me w) = false → Forall not_gone before →
  gone_told in_ (answer env in_ msg w).
Proof.
  intros Et Eg Hb. unfold answer. destruct (MessageID msg <=? 0).
  { unfold gone_told. rewrite Eg, Et. by apply Forall_app; split; [|apply Forall_singleton]. }
  destruct (if String.eqb (PMChannel msg) "" then _ else _) as [channel channelID].
  set (k := TurnKey _ _). set (c := Some _).
  pose proof (answerTurn_checks env in_ msg k channel channelID (set_current c w)) as Ha. cbn zeta in Ha.
  change (mkCheckIn (InSessionID in_) (InAgentID in_) k) with (check_of in_ msg) in Ha.
  set (r := check_result env _ _) in Ha. set (v := perform env (Checked _ r) (set_current c w)) in Ha.
  destruct (answerTurn env in_ msg k channel channelID (set_current c w)) as [event u]. cbn [snd] in Ha.
  apply (calmly_told in_ u).
  { transitivity (notifyTurn env EventTurnDone event u); [|by apply calmly_same]. by apply calmly_perform. }
  assert (∃ after, trace v = before ++ Taken msg :: Checked (check_of in_ msg) r :: after ∧ Forall calm after) as (after & Ev & Hf).
  { destruct (does_await calm env (emit (Checked (check_of in_ msg) r) (set_current c w))) as (after & E & Hf).
    exists after. split; [|done]. subst v. unfold perform. rewrite E. cbn [emit trace set_current].
    by rewrite Et, <- !app_assoc. }
  assert (gone (me v) = false) as Gv by (subst v; by rewrite perform_me).
  clearbody v. destruct r as [out| |text].
  2: { subst u. unfold gone_told. cbn [set_gone me gone trace]. by exists before, msg, after. }
  all: apply (calmly_told in_ v); [done|]; unfold gone_told; rewrite Gv, Ev; repeat (constructor || apply Forall_app);
    auto using calm_not_gone.
Qed.

Lemma drained_stops_told in_ w : gone_told in_ w → gone_told in_ (drained_stops w).
Proof. apply calmly_told, calmly_read_stops. Qed.

Lemma run_told env in_ fuel w : gone_told in_ w → gone_told in_ (snd (run env in_ fuel w)).
Proof.
  revert w; induction fuel as [|fuel IH]; intros w H; cbn [run];
    apply (calmly_told in_ _ _ (calmly_collect env in_ w)) in H; revert H; generalize (collect env in_ w) as v; intros v H;
    destruct (inbox (me v)) as [|m rest]; cbn [snd]; try by apply drained_stops_told.
  all: destruct (gone (me v)) eqn:G; [by apply drained_stops_told|];
    destruct (participantHistoryIsLarge _); [by apply drained_stops_told|].
  1: done.
  apply IH, (answer_told env in_ m _ (trace v)); [done|done|]. revert H. unfold gone_told. by rewrite G.
Qed.

Lemma start_told in_ sigs : gone_told in_ (start in_ sigs).
Proof. eapply calmly_told; [apply calmly_deliver_all|]. by constructor. Qed.

(** What a run leaves unread, by how it ends. *)
Lemma run_leaves env in_ fuel w :
  let '(o, w') := run env in_ fuel w in
  match o with
  | Closed => gone (me w') = true ∨ (inbox (me w') = [] ∧ (chMessages (chans w') = [] ∨ ends_dropping (trace w')))
  | ContinuedAsNew next =>
      gone (me w') = false ∧ Inbox next = inbox (me w') ∧ Inbox next ≠ [] ∧ chMessages (chans w') = [] ∧
      next = mkInput (InSessionID in_) (InAgentID in_) (InChannel in_) (InChannelID in_) (Inbox next)
  | Running => gone (me w') = false ∧ inbox (me w') ≠ [] ∧ chMessages (chans w') = []
  end.
Proof.
  revert w; induction fuel as [|fuel IH]; intros w; cbn [run];
    pose proof (collect_reads env in_ w) as Hc; revert Hc; generalize (collect env in_ w) as v; intros v Hc;
    cbn zeta in Hc; destruct (drained_stops_frame v) as (Hm & Hch & Hd);
    destruct (inbox (me v)) as [|m rest] eqn:E.
  1, 3: right; rewrite Hm, Hch; split; [done|]; destruct Hc as [|[_ Hc]]; [by left|right; by eapply does_ends_dropping].
  all: destruct Hc as [Hc|[? _]]; [|done]; destruct (gone (me v)) eqn:G; [left; by rewrite Hm|];
    destruct (participantHistoryIsLarge _); [by rewrite Hm, Hch, E|].
  - by rewrite E.
  - apply IH.
Qed.

(** C6. No message is lost, answered out of order or twice taken: whatever
    signals arrive and whenever, the messages a run answered or a clear
    dropped, in that order, then those handed to the next run or left unread,
    are those of its inbox and those delivered to it, in the order they came.
    A run that ends leaves none, but in two cases: the check of the last
    message it took answered that the session is gone (no check had said so
    before, and no message is taken after); or the last thing it did is to
    drop messages for a clear, and those it leaves were delivered meanwhile. A
    check that fails otherwise leaves no message behind. *)
Theorem messages_conserved env in_ sigs fuel :
  let '(o, w) := ParticipantWorkflow env in_ sigs fuel in
  match o with
  | ContinuedAsNew next =>
      moved (trace w) ++ Inbox next = Inbox in_ ++ arrived (trace w) ∧ Forall not_gone (trace w)
  | Closed =>
      moved (trace w) ++ inbox (me w) ++ chMessages (chans w) = Inbox in_ ++ arrived (trace w) ∧
      (session_gone in_ (trace w) ∨
       (inbox (me w) = [] ∧ (chMessages (chans w) = [] ∨ ends_dropping (trace w))))
  | Running => moved (trace w) ++ inbox (me w) = Inbox in_ ++ arrived (trace w) ∧ Forall not_gone (trace w)
  end.
Proof.
  unfold ParticipantWorkflow.
  pose proof (accounted_run _ env in_ fuel _ (accounted_start in_ sigs)) as Ha.
  pose proof (run_leaves env in_ fuel (start in_ sigs)) as Hl.
  pose proof (run_told env in_ fuel _ (start_told in_ sigs)) as Hg.
  destruct (run env in_ fuel (start in_ sigs)) as [o w]. cbn [snd] in Ha, Hg. unfold accounted in Ha. cbn [app] in Ha.
  unfold gone_told in Hg. destruct o as [|next|].
  - split; [done|]. destruct Hl as [G|Hl]; [left; by rewrite G in Hg|by right].
  - destruct Hl as (G & -> & _ & E & _). rewrite G in Hg. by rewrite E, app_nil_r in Ha.
  - destruct Hl as (G & _ & E). rewrite G in Hg. by rewrite E, app_nil_r in Ha.
Qed.

(** ** The run ends *)

Definition taken_one (e : effect) : list ParticipantMessage := match e with Taken m => [m] | _ => [] end.
Definition taken (tr : list effect) : list ParticipantMessage := tr ≫= taken_one.

Lemma taken_le_moved tr : (length (taken tr) ≤ length (moved tr))%nat.
Proof.
  unfold taken, moved. induction tr as [|e tr IH]; [done|]. cbn. rewrite !length_app.
  destruct e; cbn; lia.
Qed.

(** The turn of a message. *)
Definition key_of (agent : string) (m : ParticipantMessage) : string := TurnKey (MessageID m) agent.

(** ** What an answer may do *)

(** The effects an answer to [msg] may have, by what the message and the
    participant say of them. *)
Definition answer_effect (env : Env) (in_ : ParticipantInput) (msg : ParticipantMessage) (e : effect) : Prop :=
  match e with
  | Taken _ => False
  | Checked i _ => i = mkCheckIn (InSessionID in_) (InAgentID in_) (key_of (InAgentID in_) msg)
  | ChildStarted id i =>
      id = turn_id in_ msg ∧
      ∃ channel channelID, i = turn_input in_ msg (key_of (InAgentID in_) msg) channel channelID
  | ChildCancelled id | ChildEnded id _ => id = turn_id in_ msg
  | Relayed i _ =>
      ∃ next rest turnKey, Next msg = next :: rest ∧ (turnKey = "" ∨ turnKey = key_of (InAgentID in_) msg) ∧
        i = relay_input env in_ msg next rest turnKey
  | _ => True
  end.

#[export] Instance answer_effect_quiet env in_ msg : Quiet (answer_effect env in_ msg).
Proof. by intros s. Qed.

Section AnswerDoes.
  Context (env : Env) (in_ : ParticipantInput) (msg : ParticipantMessage).
Let P := answer_effect env in_ msg.
Let k := key_of (InAgentID in_) msg.

Lemma does_same_trace w w' w'' : trace w'' = trace w' → does P w w' → does P w w''.
Proof. intros E (new & H & HF). exists new. by rewrite E. Qed.

Lemma does_act e w : P e → does P w (perform env e w).
Proof. apply does_perform. apply _. Qed.

Lemma does_read_stops w : does P w (read_stops w).
Proof.
  unfold read_stops. rewrite emits_frame. exists (StopRead <$> chStops (chans w)). split; [done|].
  by apply Forall_fmap, Forall_true.
Qed.

Lemma does_drop_one m w : does P w (drop_one env in_ m w).
Proof.
  unfold drop_one. etrans; [by apply (does_emit P (Dropped m))|]. destruct (MessageID m <=? 0); [done|].
  etrans; by apply does_act.
Qed.

Lemma does_clear w : does P w (clear env in_ w).
Proof.
  unfold clear. apply does_trans with (y := set_inbox [] (receive w)).
  - exists []. by rewrite app_nil_r.
  - apply does_fold. intros; apply does_drop_one.
Qed.

Lemma does_turn_step e r : does P (world r) (world (turn_step (turn_id in_ msg) k e r)).
Proof.
  assert (∀ b q, does P (world r) (world q) → does P (world r) (world (stop (turn_id in_ msg) b q))) as Hstop.
  { intros b q Hq. unfold stop. cbn. destruct (stopped q); [done|]. etrans; [done|]. by apply does_emit. }
  destruct e; cbn [turn_step].
  - by apply does_deliver_all, _.
  - destruct (chStops _) as [|s ks]; [done|].
    assert (∀ w', trace w' = trace (world r) → does P (world r) (emit (StopRead s) w')) as Hr.
    { intros w' E. exists [StopRead s]. cbn. rewrite E. split; [done|]. by apply Forall_singleton. }
    destruct (negb _ && negb _); [by apply Hr|by apply Hstop, Hr].
  - destruct (chClears _) as [|n]; [done|]. apply Hstop. exists [ClearRead]. split; [done|]. by apply Forall_singleton.
  - destruct (chMessages _) as [|m ms]; [done|]. exists []. by rewrite app_nil_r.
Qed.

Lemma does_runTurn channel channelID w : does P w (snd (runTurn env in_ msg k channel channelID w)).
Proof.
  unfold runTurn. cbn [snd]. set (i := turn_input _ _ _ _ _).
  apply (does_same_trace _ (emit (ChildEnded (turn_id in_ msg) (child_result env (step w) i))
    (world (fold_left (λ r e, turn_step (turn_id in_ msg) k e r) (script env (step w))
       (mkTurnRun false false (emit (ChildStarted (turn_id in_ msg) i) w)))))); [done|].
  etrans; [|by apply does_emit]. etrans; [apply (does_emit P (ChildStarted (turn_id in_ msg) i))|].
  { split; [done|]. by exists channel, channelID. }
  change (does P (world (mkTurnRun false false (emit (ChildStarted (turn_id in_ msg) i) w)))
    (world (fold_left (λ r e, turn_step (turn_id in_ msg) k e r) (script env (step w))
       (mkTurnRun false false (emit (ChildStarted (turn_id in_ msg) i) w))))).
  generalize (mkTurnRun false false (emit (ChildStarted (turn_id in_ msg) i) w)) as q.
  induction (script env (step w)) as [|e l IH]; intros q; simpl; [done|].
  etrans; [apply does_turn_step|apply IH].
Qed.

Lemma does_relay next rest turnKey channel channelID signer w :
  Next msg = next :: rest → turnKey = "" ∨ turnKey = k →
  does P w (relay env in_ msg next rest turnKey channel channelID signer w).
Proof.
  intros Hn Hk. unfold relay. set (i := relay_input _ _ _ _ _ _).
  etrans; [apply (does_act (Relayed i (relay_result env (step w) i)))|].
  { by exists next, rest, turnKey. }
  destruct (relay_result env (step w) i); [|done]. etrans; by apply does_act.
Qed.

(** Walks the activities of an operation. *)
Ltac does_steps :=
  repeat first [ reflexivity
               | apply does_clear | apply does_read_stops
               | by apply does_act
               | by apply does_relay; [|auto] ].

Lemma does_finishTurn channel channelID signer result st cl reason w :
  does P w (finishTurn env in_ msg k channel channelID signer result st cl reason w).
Proof.
  unfold finishTurn. set (w1 := match NewMessages result with [] => w | _ => _ end).
  transitivity w1. { subst w1. destruct (NewMessages result); does_steps. }
  transitivity (endTurn env k (TurnEnd (InAgentID in_) reason) w1); [by apply does_act|].
  generalize (endTurn env k (TurnEnd (InAgentID in_) reason) w1) as v. intros v.
  match goal with |- does _ _ (if cl then clear _ _ ?u else _) => transitivity u end; [|by destruct cl; does_steps].
  destruct st; [does_steps|]. destruct (String.eqb (ErrorType result) AgentNotOpen); [|destruct (negb (String.eqb reason ""))].
  - destruct (Next msg) as [|n r] eqn:E; [does_steps|].
    etrans; [by apply (does_act (Told channel channelID signer ("Error processing message: " +:+ reason)))|].
    does_steps.
  - does_steps.
  - destruct (Next msg) as [|n r] eqn:E; does_steps.
Qed.

Lemma does_answerTurn channel channelID w : does P w (snd (answerTurn env in_ msg k channel channelID w)).
Proof.
  unfold answerTurn. set (i := mkCheckIn _ _ _).
  set (v := perform env (Checked i (check_result env (step w) i)) w).
  assert (does P w v) as Hv by (by apply does_act).
  destruct (check_result env (step w) i) as [out| |text]; [|exact Hv|].
  - destruct (Answered out); [exact Hv|]. unfold stopsFor. destruct (existsb _ _).
    { cbn [snd]. etrans; [exact Hv|]. etrans; [apply does_read_stops|]. etrans; by apply does_act. }
    match goal with |- context [runTurn env in_ msg k channel channelID ?u] => pose proof (does_runTurn channel channelID u) as Hr;
      assert (does P w u) as Hu end.
    { etrans; [exact Hv|]. etrans; [apply does_read_stops|]. by apply does_act. }
    destruct (runTurn _ _ _ _ _ _ _) as [[[[result st] cl] reason] x]. cbn [snd] in *.
    etrans; [exact Hu|]. etrans; [exact Hr|]. apply does_finishTurn.
  - cbn [snd]. etrans; [exact Hv|]. etrans; by apply does_act.
Qed.

Lemma does_answer w : does P w (answer env in_ msg w).
Proof.
  unfold answer. destruct (MessageID msg <=? 0); [done|].
  destruct (if String.eqb (PMChannel msg) "" then _ else _) as [channel channelID].
  pose proof (does_answerTurn channel channelID
    (set_current (Some (mkCurrent (MessageID msg) k (PMUserID msg) (PMUserName msg) (now_at env (step w)))) w)) as Ha.
  change (TurnKey (MessageID msg) (InAgentID in_)) with k.
  destruct (answerTurn _ _ _ _ _ _ _) as [e u]. cbn [snd] in Ha.
  apply (does_same_trace _ (notifyTurn env EventTurnDone e u)); [done|].
  etrans; [exact Ha|]. by apply does_act.
Qed.
End AnswerDoes.

Lemma not_taken_none tr : Forall not_taken tr → taken tr = [].
Proof. unfold taken. induction 1 as [|e tr He Hl IH]; [done|]. cbn. rewrite IH. by destruct e. Qed.

Lemma does_not_taken w w' : does not_taken w w' → taken (trace w') = taken (trace w).
Proof.
  intros (new & -> & Hn). unfold taken. rewrite bind_app. fold (taken new). by rewrite (not_taken_none new Hn), app_nil_r.
Qed.

Lemma collect_not_taken env in_ w : does not_taken w (collect env in_ w).
Proof.
  unfold collect, drained_clears. rewrite emits_frame. set (v := set_chans _ _).
  assert (does not_taken w v) as Hv.
  { exists ((λ _, ClearRead) <$> repeat tt (chClears (chans (receive w)))). split; [done|].
    by apply Forall_fmap, Forall_true. }
  destruct (0 <? _)%nat; [|done]. etrans; [exact Hv|]. unfold clear.
  apply does_trans with (y := set_inbox [] (receive v)); [exists []; by rewrite app_nil_r|].
  apply does_fold. intros; apply drop_one_does.
Qed.

(** A run still going has answered as many messages as it was let. *)
Lemma run_takes env in_ fuel w :
  fst (run env in_ fuel w) = Running →
  length (taken (trace (snd (run env in_ fuel w)))) = (length (taken (trace w)) + fuel)%nat.
Proof.
  revert w; induction fuel as [|fuel IH]; intros w; cbn [run];
    rewrite <- (does_not_taken _ _ (collect_not_taken env in_ w)); generalize (collect env in_ w) as v; intros v;
    destruct (inbox (me v)) as [|m rest]; [done| |done|].
  all: destruct (gone (me v)); [done|]; destruct (participantHistoryIsLarge _); [done|].
  - cbn. lia.
  - intros H. rewrite (IH _ H). destruct (does_answer env in_ m (emit (Taken m) (set_inbox rest v))) as (new & -> & Hn).
    unfold taken. rewrite !bind_app. fold (taken new). cbn [trace emit set_inbox]. rewrite bind_app.
    rewrite (not_taken_none new); [|eapply Forall_impl; [exact Hn|]; by intros []].
    cbn. rewrite !length_app. cbn. lia.
Qed.

(** A run ends: with at most [B] messages delivered to it, whatever the
    clears, the stops, its activities and its turns do, it has answered them
    all, or handed them to the next run, by one more message than its inbox
    and [B]. *)
Theorem participant_ends env in_ sigs B :
  (∀ fuel, (length (arrived (trace (snd (ParticipantWorkflow env in_ sigs fuel)))) ≤ B)%nat) →
  fst (ParticipantWorkflow env in_ sigs (S (length (Inbox in_) + B))) ≠ Running.
Proof.
  intros HB Ho. specialize (HB (S (length (Inbox in_) + B))). revert Ho HB. unfold ParticipantWorkflow.
  pose proof (accounted_run _ env in_ (S (length (Inbox in_) + B)) _ (accounted_start in_ sigs)) as Ha.
  pose proof (run_takes env in_ (S (length (Inbox in_) + B)) (start in_ sigs)) as Ht.
  destruct (run env in_ (S (length (Inbox in_) + B)) (start in_ sigs)) as [o w]. cbn [fst snd] in *.
  intros -> HB. specialize (Ht eq_refl). pose proof (taken_le_moved (trace w)).
  apply (f_equal length) in Ha. rewrite !length_app in Ha. lia.
Qed.

(** ** Surroundings to run a participant in *)

Definition demo_message (id : Z) (next : list AddressedAgent) : ParticipantMessage :=
  mkPM id "u1" "Alice" next [] false "" "" None.

Definition demo_input : ParticipantInput := mkInput "s1" "jarvis" "web" "" [].

(** Nothing fails, and nothing comes but what [sigs] delivers at each wait. *)
Definition demo_env (sigs : nat → list Signal) : Env :=
  mkEnv sigs (λ _, 1) (λ _, (10, 1000)) (λ _ _, CheckOK (mkCheckOut false "Jarvis")) (λ _ _, None)
    (λ _, []) (λ _ _, ChildDone (mkAgentOut "ok" [plainMessage RoleAssistant "ok"] true false "" "")) "agents".

Lemma demo_quiet (fuel : nat) :
  (length (arrived (trace (snd (ParticipantWorkflow (demo_env (λ _, [])) demo_input [SigMessage (demo_message 1 [])] fuel)))) ≤ 1)%nat.
Proof. unfold ParticipantWorkflow. do 2 (destruct fuel as [|fuel]; [vm_compute; lia|]). vm_compute. lia. Qed.

Lemma participant_ends_witness :
  fst (ParticipantWorkflow (demo_env (λ _, [])) demo_input [SigMessage (demo_message 1 [])] 2) ≠ Running.
Proof.
  exact (participant_ends (demo_env (λ _, [])) demo_input [SigMessage (demo_message 1 [])] 1 demo_quiet).
Defined.
