(* ===== verification/ParticipantProtocol.v ===== *)
(** * The protocol of a participant

    The order of what a participant does for each message, as an automaton over
    its effects, and what it gives each message: one turn_done, after its end.
    Last, a message that a clear loses. *)

From S2P Require Import Prelude GoStr Utf8 Json Keys Message Convert Participant ParticipantInbox.
Open Scope string_scope.
Open Scope Z_scope.
Open Scope list_scope.

(** ** The order of a participant's steps

    What a member sees of a participant, and what the other participants may
    rely on, is the order of what it does for each message. The protocol is an
    automaton over its effects: [protocol φ e] is the phase after [e], none if
    [e] may not come then. *)

Inductive phase :=
| Idle
| Dropping (k : string) (back : phase)   (** a message was dropped: its end is next *)
| Dropped_ (k : string) (back : phase)   (** its turn_done is next *)
| Asked (k : string)                     (** taken from the inbox: its check is next *)
| Over (k : string)                      (** nothing more for it but its turn_done *)
| Failing (k : string)                   (** its check failed: its end is next *)
| Ready (k : string)                     (** it may start, or be stopped first *)
| Begun (k : string)                     (** the members are told: its turn is next *)
| Live (k : string) (cancelled : bool)   (** its turn runs *)
| Back (k : string) (relays : bool)      (** the turn is over: its rewrite and its end *)
| Rewritten (k : string) (relays : bool)
| Ended (k : string) (relays : bool)     (** its end is written: the channel is told, it is relayed *)
| RelayFailed (k next : string).         (** the next participant's end is next *)

Definition has_id (m : ParticipantMessage) : bool := 0 <? MessageID m.

(** A turn's message goes to the next agent unless the turn was cancelled or
    failed; a refusal of this agent's is not a failure of the message. *)
Definition relays (cancelled : bool) (r : ChildResult) : bool :=
  negb cancelled &&
  match r with
  | ChildDone out => String.eqb (ErrorType out) AgentNotOpen || String.eqb (OutError out) ""
  | ChildFailed _ => false
  end.

Definition when (b : bool) (φ : phase) : option phase := if b then Some φ else None.

Definition protocol (agent : string) (φ : phase) (e : effect) : option phase :=
  match e with
  | Arrived _ | StopRead _ | ClearRead => Some φ
  | Taken m =>
      match φ with
      | Idle => Some (if has_id m then Asked (key_of agent m) else Idle)
      | _ => None
      end
  | Dropped m =>
      match φ with
      | Idle | Ended _ false => Some (if has_id m then Dropping (key_of agent m) φ else φ)
      | _ => None
      end
  | Checked i r =>
      match φ with
      | Asked k =>
          when (String.eqb (ChkTurn i) k)
            (match r with
             | CheckSessionGone => Over k
             | CheckFailed _ => Failing k
             | CheckOK out => if Answered out then Over k else Ready k
             end)
      | _ => None
      end
  | TurnTold event e =>
      match φ with
      | Ready k => when (String.eqb event EventTurnStarted && String.eqb (EvTurn e) k) (Begun k)
      | Dropped_ k back => when (String.eqb event EventTurnDone && String.eqb (EvTurn e) k) back
      | Over k | Ended k _ => when (String.eqb event EventTurnDone && String.eqb (EvTurn e) k) Idle
      | _ => None
      end
  | Told _ _ _ _ => match φ with Ended _ _ => Some φ | _ => None end
  | ChildStarted _ i => match φ with Begun k => when (String.eqb (TurnKeyIn i) k) (Live k false) | _ => None end
  | ChildCancelled _ => match φ with Live k false => Some (Live k true) | _ => None end
  | ChildEnded _ r => match φ with Live k cancelled => Some (Back k (relays cancelled r)) | _ => None end
  | Persisted turnKey _ => match φ with Back k r => when (String.eqb turnKey k) (Rewritten k r) | _ => None end
  | EndWritten turnKey _ =>
      match φ with
      | Dropping k back => when (String.eqb turnKey k) (Dropped_ k back)
      | Failing k | Ready k => when (String.eqb turnKey k) (Ended k false)
      | Back k r | Rewritten k r => when (String.eqb turnKey k) (Ended k r)
      | RelayFailed k next => when (String.eqb turnKey next) (Ended k false)
      | _ => None
      end
  | Relayed i failed =>
      match φ with
      | Ended k true =>
          Some (match failed with
                | None => Ended k false
                | Some _ => RelayFailed k (TurnKey (MessageID (RelayMessage i)) (InAgentID (RelayStart i)))
                end)
      | _ => None
      end
  end.

Definition protocol_all (agent : string) (φ : phase) (tr : list effect) : option phase :=
  fold_left (λ o e, o ≫= λ φ, protocol agent φ e) tr (Some φ).

(** The phase a state is in, by its trace. *)
Definition at_ (agent : string) (φ : phase) (w : World) : Prop := protocol_all agent Idle (trace w) = Some φ.

Lemma at_emit agent φ ψ e w : at_ agent φ w → protocol agent φ e = Some ψ → at_ agent ψ (emit e w).
Proof. unfold at_, protocol_all, emit. cbn [trace]. rewrite fold_left_app. by intros ->. Qed.

Lemma at_emits {X} agent φ (g : X → effect) l w :
  (∀ x, protocol agent φ (g x) = Some φ) → at_ agent φ w →
  at_ agent φ (fold_left (λ w x, emit (g x) w) l w).
Proof. intros Hg. revert w; induction l as [|x l IH]; intros w H; simpl; [done|]. by eapply IH, at_emit. Qed.

Lemma at_deliver_all agent φ sigs w : at_ agent φ w → at_ agent φ (deliver_all sigs w).
Proof.
  unfold deliver_all. revert w; induction sigs as [|s l IH]; intros w H; simpl; [done|]. apply IH.
  unfold deliver. by eapply at_emit.
Qed.

Lemma at_perform agent φ ψ env e w : at_ agent φ w → protocol agent φ e = Some ψ → at_ agent ψ (perform env e w).
Proof. intros H Hs. apply (at_deliver_all agent ψ). by eapply at_emit. Qed.

Lemma at_read_stops agent φ w : at_ agent φ w → at_ agent φ (read_stops w).
Proof. intros H. apply (at_emits agent φ StopRead (chStops (chans w))); done. Qed.

Lemma when_eqb k φ : when (String.eqb k k) φ = Some φ.
Proof. by rewrite String.eqb_refl. Qed.

(** A message is dropped between two answers, or at the end of one that goes
    to no other agent. *)
Definition may_drop (φ : phase) : Prop := φ = Idle ∨ ∃ k, φ = Ended k false.

Lemma at_drop_one env in_ φ m w :
  may_drop φ → at_ (InAgentID in_) φ w → at_ (InAgentID in_) φ (drop_one env in_ m w).
Proof.
  intros Hφ H. unfold drop_one.
  assert (protocol (InAgentID in_) φ (Dropped m) =
          Some (if has_id m then Dropping (key_of (InAgentID in_) m) φ else φ)) as E by (by destruct Hφ as [->|[k ->]]).
  unfold has_id in E. apply (at_emit _ _ _ _ _ H) in E.
  destruct (Z.leb_spec (MessageID m) 0), (Z.ltb_spec 0 (MessageID m)); try lia; [done|].
  eapply at_perform; [eapply at_perform; [done|apply when_eqb]|]. cbn. by rewrite String.eqb_refl.
Qed.

Lemma at_clear env in_ φ w :
  may_drop φ → at_ (InAgentID in_) φ w → at_ (InAgentID in_) φ (clear env in_ w).
Proof.
  intros Hφ H. unfold clear. assert (at_ (InAgentID in_) φ (set_inbox [] (receive w))) as H' by exact H.
  revert H'. generalize (set_inbox [] (receive w)) as v. generalize (inbox (me (receive w))) as l.
  induction l as [|m l IH]; intros v Hv; simpl; [done|]. by apply IH, at_drop_one.
Qed.

Lemma at_collect env in_ w : at_ (InAgentID in_) Idle w → at_ (InAgentID in_) Idle (collect env in_ w).
Proof.
  intros H. unfold collect, drained_clears. set (v := set_chans _ _).
  assert (at_ (InAgentID in_) Idle v) as Hv by (by apply (at_emits _ _ (λ _, ClearRead))).
  destruct (0 <? _)%nat; [|done]. apply at_clear; [by left|done].
Qed.

Lemma at_relay env in_ msg next rest turnKey k channel channelID signer w :
  at_ (InAgentID in_) (Ended k true) w →
  at_ (InAgentID in_) (Ended k false) (relay env in_ msg next rest turnKey channel channelID signer w).
Proof.
  intros H. unfold relay. set (i := relay_input _ _ _ _ _ _).
  destruct (relay_result env (step w) i) as [text|]; [|by eapply at_perform].
  eapply at_perform; [eapply at_perform; [by eapply at_perform|apply when_eqb]|done].
Qed.

(** ** The protocol of a turn and of an answer *)

(** A turn that runs: cancelled if it was stopped, stopped if it was
    cleared. *)
Definition live (agent k : string) (r : TurnRun) : Prop :=
  at_ agent (Live k (stopped r)) (world r) ∧ (cleared r = true → stopped r = true).

Lemma live_emit agent k r e w' :
  trace w' = trace (world r) → (∀ c, protocol agent (Live k c) e = Some (Live k c)) →
  live agent k r → live agent k (mkTurnRun (stopped r) (cleared r) (emit e w')).
Proof.
  intros Ht He [H Hc]. split; [|done]. eapply at_emit; [|apply He]. unfold at_. by rewrite Ht.
Qed.

Lemma live_stop agent k id b r : live agent k r → live agent k (stop id b r).
Proof.
  intros [H Hc]. unfold stop. split; cbn; [|done].
  destruct (stopped r) eqn:E; [done|]. by eapply at_emit.
Qed.

Lemma live_turn_step agent id k e r : live agent k r → live agent k (turn_step id k e r).
Proof.
  intros H. destruct e; cbn [turn_step].
  - destruct H as [H Hc]. split; [by apply at_deliver_all|done].
  - destruct (chStops _) as [|s ks]; [done|].
    assert (∀ w', trace w' = trace (world r) → live agent k (mkTurnRun (stopped r) (cleared r) (emit (StopRead s) w'))) as Hr
      by (intros; by apply live_emit).
    destruct (negb _ && negb _); [by apply Hr|by apply live_stop, Hr].
  - destruct (chClears _) as [|n]; [done|]. apply live_stop. by apply live_emit.
  - destruct (chMessages _) as [|m ms]; [done|]. exact H.
Qed.

Lemma at_runTurn env in_ msg k channel channelID w :
  at_ (InAgentID in_) (Begun k) w →
  let '(result, stopped, cleared, reason, w') := runTurn env in_ msg k channel channelID w in
  (cleared = true → stopped = true) ∧
  at_ (InAgentID in_)
    (Back k (negb stopped && (String.eqb (ErrorType result) AgentNotOpen || String.eqb reason ""))) w'.
Proof.
  intros H. unfold runTurn. set (i := turn_input _ _ _ _ _). set (r := fold_left _ _ _).
  assert (live (InAgentID in_) k r) as [Hr Hc].
  { subst r. 
    assert (live (InAgentID in_) k (mkTurnRun false false (emit (ChildStarted (turn_id in_ msg) i) w))) as Hq.
    { split; [|done]. eapply at_emit; [done|]. apply when_eqb. }
    revert Hq. generalize (mkTurnRun false false (emit (ChildStarted (turn_id in_ msg) i) w)) as q.
    induction (script env (step w)) as [|e l IH]; intros q Hq; simpl; [done|]. by apply IH, live_turn_step. }
  split; [done|].
  apply (at_emit _ _ (Back k (relays (stopped r) (child_result env (step w) i))) (ChildEnded (turn_id in_ msg) (child_result env (step w) i))) in Hr; [|done].
  match goal with |- at_ _ ?φ _ => assert (φ = Back k (relays (stopped r) (child_result env (step w) i))) as -> end; [|exact Hr].
  f_equal. unfold relays. destruct (stopped r); [done|]. cbn.
  by destruct (child_result env (step w) i).
Qed.

Lemma at_finishTurn env in_ msg k channel channelID signer result stopped cleared reason w :
  (cleared = true → stopped = true) →
  at_ (InAgentID in_)
    (Back k (negb stopped && (String.eqb (ErrorType result) AgentNotOpen || String.eqb reason ""))) w →
  ∃ b, at_ (InAgentID in_) (Ended k b)
    (finishTurn env in_ msg k channel channelID signer result stopped cleared reason w).
Proof.
  intros Hc H. unfold finishTurn. set (w1 := match NewMessages result with [] => w | _ => _ end).
  set (b := negb stopped && _) in *.
  assert (at_ (InAgentID in_) (Ended k b) (endTurn env k (TurnEnd (InAgentID in_) reason) w1)) as H1.
  { subst w1. destruct (NewMessages result).
    - eapply at_perform; [done|apply when_eqb].
    - eapply at_perform; [eapply at_perform; [done|apply when_eqb]|apply when_eqb]. }
  revert H1. generalize (endTurn env k (TurnEnd (InAgentID in_) reason) w1) as v. intros v Hv. clear w1 H w.
  assert (∀ a a' a'' t φ u, at_ (InAgentID in_) (Ended k φ) u → at_ (InAgentID in_) (Ended k φ) (perform env (Told a a' a'' t) u)) as Ht
    by (intros; by eapply at_perform).
  destruct stopped; cbn [negb andb] in b; subst b.
  - exists false. destruct cleared; [apply at_clear; [right; by exists k|]|]; by apply Ht.
  - destruct cleared; [by discriminate Hc|].
    destruct (String.eqb (ErrorType result) AgentNotOpen); cbn [orb] in Hv.
    + destruct (Next msg); [exists true; by apply Ht|]. exists false. by apply at_relay, Ht.
    + destruct (String.eqb reason ""); cbn [negb].
      * destruct (Next msg); [by exists true|]. exists false. by apply at_relay.
      * exists false. by apply Ht.
Qed.

(** Where an answer stands when it has only its turn_done left to tell. *)
Definition may_finish (k : string) (φ : phase) : Prop := φ = Over k ∨ ∃ b, φ = Ended k b.

Lemma at_answerTurn env in_ msg k channel channelID w :
  at_ (InAgentID in_) (Asked k) w →
  let '(e, w') := answerTurn env in_ msg k channel channelID w in
  EvTurn e = k ∧ ∃ φ, may_finish k φ ∧ at_ (InAgentID in_) φ w'.
Proof.
  intros H. unfold answerTurn. set (i := mkCheckIn _ _ _).
  assert (at_ (InAgentID in_)
            (match check_result env (step w) i with
             | CheckSessionGone => Over k
             | CheckFailed _ => Failing k
             | CheckOK out => if Answered out then Over k else Ready k
             end) (perform env (Checked i (check_result env (step w) i)) w)) as Hc
    by (eapply at_perform; [done|apply when_eqb]).
  destruct (check_result env (step w) i) as [out| |text].
  - destruct (Answered out).
    { split; [done|]. exists (Over k). split; [by left|done]. }
    unfold stopsFor. apply at_read_stops in Hc. destruct (existsb _ _).
    { split; [done|]. exists (Ended k false). split; [right; by exists false|].
      eapply at_perform; [eapply at_perform; [done|apply when_eqb]|done]. }
    set (e := mkTurnEvent _ _ _ _ _).
    assert (at_ (InAgentID in_) (Begun k)
              (notifyTurn env EventTurnStarted e (read_stops (perform env (Checked i (CheckOK out)) w)))) as Hb.
    { eapply at_perform; [done|]. cbn. by rewrite String.eqb_refl. }
    revert Hb. generalize (notifyTurn env EventTurnStarted e (read_stops (perform env (Checked i (CheckOK out)) w))) as v. intros v Hb.
    pose proof (at_runTurn env in_ msg k channel channelID v Hb) as Hr.
    destruct (runTurn env in_ msg k channel channelID v) as [[[[result st] cl] reason] u]. destruct Hr as [Hcl Hr].
    split; [done|].
    destruct (at_finishTurn env in_ msg k channel channelID
                (if SignReply msg then cmp_or (AgentName out) (InAgentID in_) else if SignReply msg then InAgentID in_ else "")
                result st cl reason u Hcl Hr) as [b Hf].
    exists (Ended k b). split; [right; by exists b|done].
  - split; [done|]. exists (Over k). split; [by left|done].
  - split; [done|]. exists (Ended k false). split; [right; by exists false|].
    eapply at_perform; [eapply at_perform; [done|apply when_eqb]|done].
Qed.

Lemma at_answer env in_ msg w :
  at_ (InAgentID in_) (if has_id msg then Asked (key_of (InAgentID in_) msg) else Idle) w →
  at_ (InAgentID in_) Idle (answer env in_ msg w).
Proof.
  unfold answer, has_id. destruct (Z.leb_spec (MessageID msg) 0), (Z.ltb_spec 0 (MessageID msg)); try lia; [done|].
  unfold key_of. set (k := TurnKey _ _). destruct (if String.eqb (PMChannel msg) "" then _ else _) as [channel channelID].
  intros H'. pose proof (at_answerTurn env in_ msg k channel channelID
    (set_current (Some (mkCurrent (MessageID msg) k (PMUserID msg) (PMUserName msg) (now_at env (step w)))) w) H') as Ha.
  destruct (answerTurn _ _ _ _ _ _ _) as [e u]. destruct Ha as (He & φ & Hφ & Hu).
  change (at_ (InAgentID in_) Idle (notifyTurn env EventTurnDone e u)).
  eapply at_perform; [done|]. destruct Hφ as [->|[b ->]]; cbn; by rewrite He, String.eqb_refl.
Qed.

Lemma at_run env in_ fuel w :
  at_ (InAgentID in_) Idle w → at_ (InAgentID in_) Idle (snd (run env in_ fuel w)).
Proof.
  revert w; induction fuel as [|fuel IH]; intros w H; cbn [run];
    apply (at_collect env) in H; revert H; generalize (collect env in_ w) as v; intros v H;
    pose proof (at_read_stops _ _ _ H);
    destruct (inbox (me v)) as [|m rest]; [done| |done|].
  all: destruct (gone (me v)); [done|]; destruct (participantHistoryIsLarge _); [done|].
  - done.
  - apply IH, at_answer. by apply (at_emit _ Idle _ (Taken m) (set_inbox rest v)).
Qed.

(** C1. Whatever signals arrive and whatever its activities and turns answer,
    a participant follows its protocol: one message at a time; each checked
    before its turn; the turn started after the members are told, its rewrite
    and its end after it, the channel told and the relay made after the end;
    no relay of a turn cancelled or failed, one at most for a message, and the
    next participant's end when it failed; messages dropped only between
    answers or at the end of a cleared one; and turn_done last. *)
Theorem participant_protocol env in_ sigs fuel :
  protocol_all (InAgentID in_) Idle (trace (snd (ParticipantWorkflow env in_ sigs fuel))) = Some Idle.
Proof. apply at_run. by apply at_deliver_all. Qed.

(** ** What the protocol gives each message *)

(** The turns whose turn_done is still to come. *)
Fixpoint pending (φ : phase) : list string :=
  match φ with
  | Idle => []
  | Dropping k back | Dropped_ k back => k :: pending back
  | Asked k | Over k | Failing k | Ready k | Begun k | Live k _ | Back k _ | Rewritten k _ | Ended k _ | RelayFailed k _ => [k]
  end.

Definition done_one (e : effect) : list string :=
  match e with TurnTold event e => if String.eqb event EventTurnDone then [EvTurn e] else [] | _ => [] end.

(** The turns told done, in order, and the turns of the messages that left
    the inbox. *)
Definition told_done (tr : list effect) : list string := tr ≫= done_one.
Definition asked_one (agent : string) (e : effect) : list string :=
  key_of agent <$> List.filter has_id (moved_one e).
Definition asked (agent : string) (tr : list effect) : list string := tr ≫= asked_one agent.

Lemma asked_moved agent tr : asked agent tr = key_of agent <$> List.filter has_id (moved tr).
Proof.
  unfold asked, moved. induction tr as [|e tr IH]; [done|]. cbn. rewrite IH. unfold asked_one.
  rewrite List.filter_app, fmap_app. done.
Qed.

Lemma when_some b φ ψ : when b φ = Some ψ → b = true ∧ φ = ψ.
Proof. unfold when. destruct b; naive_solver. Qed.

(** Case analysis on a step of the protocol. *)
Ltac protocol_cases H :=
  repeat match type of H with
  | context [match ?x with _ => _ end] => is_var x; destruct x; try discriminate H
  end;
  try (apply when_some in H as [H ?]); try (injection H as <-); bool_to_prop; subst.

Lemma protocol_pending agent φ e ψ :
  protocol agent φ e = Some ψ → pending φ ++ asked_one agent e ≡ₚ done_one e ++ pending ψ.
Proof.
  intros H. unfold asked_one. destruct e; cbn [protocol] in H;
    [| | | | |destruct φ; try discriminate H; destruct r|destruct φ; try discriminate H| | | | | | | ];
    protocol_cases H; cbn;
    repeat match goal with |- context [has_id ?m] => destruct (has_id m) eqn:?; cbn end;
    repeat match goal with |- context [Answered ?m] => destruct (Answered m) eqn:?; cbn end;
    repeat match goal with |- context [match ?f with None => _ | Some _ => _ end] => destruct f; cbn end;
    rewrite ?app_nil_r; try reflexivity; try (by constructor).
Qed.

Lemma protocol_all_cons agent φ e tr ψ :
  protocol_all agent φ (e :: tr) = Some ψ →
  ∃ χ, protocol agent φ e = Some χ ∧ protocol_all agent χ tr = Some ψ.
Proof.
  unfold protocol_all. cbn. destruct (protocol agent φ e) as [χ|]; [by exists χ|].
  intros H. exfalso. induction tr as [|f tr IH]; [discriminate|]. exact (IH H).
Qed.

Lemma protocol_all_pending agent φ tr ψ :
  protocol_all agent φ tr = Some ψ → pending φ ++ asked agent tr ≡ₚ told_done tr ++ pending ψ.
Proof.
  revert φ; induction tr as [|e tr IH]; intros φ H.
  - injection H as <-. unfold asked, told_done. cbn. by rewrite app_nil_r.
  - apply protocol_all_cons in H as (χ & He & H). apply protocol_pending in He. apply IH in H.
    unfold asked, told_done in *. cbn. rewrite app_assoc, He, <- app_assoc, H. by rewrite app_assoc.
Qed.

(** The turns closed: their end written, or found over by their check. *)
Definition closed_one (e : effect) : list string :=
  match e with
  | EndWritten k _ => [k]
  | Checked i CheckSessionGone => [ChkTurn i]
  | Checked i (CheckOK out) => if Answered out then [ChkTurn i] else []
  | _ => []
  end.
Definition closed (tr : list effect) : list string := tr ≫= closed_one.

(** What a phase says is closed already. *)
Fixpoint settled (seen : list string) (φ : phase) : Prop :=
  match φ with
  | Dropping _ back => settled seen back
  | Dropped_ k back => k ∈ seen ∧ settled seen back
  | Over k | Ended k _ | RelayFailed k _ => k ∈ seen
  | _ => True
  end.

Lemma settled_more seen more φ : settled seen φ → settled (seen ++ more) φ.
Proof. induction φ; cbn; rewrite ?elem_of_app; tauto. Qed.

Lemma protocol_settled agent seen φ e ψ :
  protocol agent φ e = Some ψ → settled seen φ →
  settled (seen ++ closed_one e) ψ ∧ (∀ k, k ∈ done_one e → k ∈ seen).
Proof.
  intros H Hs. destruct e; cbn [protocol] in H;
    [| | | | |destruct φ; try discriminate H; destruct r|destruct φ; try discriminate H| | | | | | | ];
    protocol_cases H; cbn in *; rewrite ?app_nil_r;
    repeat match goal with |- context [has_id ?m] => destruct (has_id m) eqn:?; cbn end;
    repeat match goal with |- context [Answered ?m] => destruct (Answered m) eqn:?; cbn end;
    repeat match goal with |- context [match ?f with None => _ | Some _ => _ end] => destruct f; cbn end;
    rewrite ?app_nil_r; (split; [|intros ? ?]);
    repeat match goal with H : _ ∧ _ |- _ => destruct H end; repeat split;
    first [tauto | by apply settled_more | set_solver].
Qed.

Lemma protocol_all_settled agent seen φ tr ψ :
  protocol_all agent φ tr = Some ψ → settled seen φ →
  settled (seen ++ closed tr) ψ ∧ (∀ k, k ∈ told_done tr → k ∈ seen ++ closed tr).
Proof.
  revert φ seen; induction tr as [|e tr IH]; intros φ seen H Hs.
  - injection H as <-. unfold closed, told_done. cbn. rewrite app_nil_r. split; [done|].
    intros k Hk. by apply elem_of_nil in Hk.
  - apply protocol_all_cons in H as (χ & He & H). destruct (protocol_settled _ _ _ _ _ He Hs) as [Hχ Hd].
    destruct (IH _ _ H Hχ) as [Hψ Ht]. unfold closed, told_done in *. cbn.
    rewrite <- app_assoc in Hψ, Ht. split; [done|]. intros k [Hk|Hk]%elem_of_app; [|by apply Ht].
    apply elem_of_app. left. by apply Hd.
Qed.

(** Each message a participant answered or dropped is counted out exactly
    once, whatever happened to it: the turns told done are, one for one, those
    of the messages that left the inbox (one without an ID, which is not
    stored, apart), and each of them has its end written, or was found ended or
    without session by its check. *)
Theorem each_message_done_once env in_ sigs fuel :
  let tr := trace (snd (ParticipantWorkflow env in_ sigs fuel)) in
  told_done tr ≡ₚ key_of (InAgentID in_) <$> List.filter has_id (moved tr) ∧
  ∀ k, k ∈ told_done tr → k ∈ closed tr.
Proof.
  cbn zeta.
  assert (protocol_all (InAgentID in_) Idle (trace (snd (ParticipantWorkflow env in_ sigs fuel))) = Some Idle) as H
    by (apply at_run; by apply at_deliver_all).
  split.
  - apply protocol_all_pending in H. rewrite asked_moved in H. cbn in H. by rewrite H, app_nil_r.
  - by apply (protocol_all_settled _ [] _ _ _ H).
Qed.

(** A message is delivered while a clear drops the one before it. *)
Definition demo_clear_env : Env := demo_env (λ n, match n with O => [SigMessage (demo_message 2 [])] | _ => [] end).

Abbreviation demo_clear :=
  (ParticipantWorkflow demo_clear_env demo_input [SigMessage (demo_message 1 []); SigClear] 10) (only parsing).

Lemma demo_clear_run :
  fst demo_clear = Closed ∧ gone (me (snd demo_clear)) = false ∧
  arrived (trace (snd demo_clear)) = [demo_message 1 []; demo_message 2 []] ∧
  moved (trace (snd demo_clear)) = [demo_message 1 []] ∧
  chMessages (chans (snd demo_clear)) = [demo_message 2 []] ∧
  told_done (trace (snd demo_clear)) = ["m1.jarvis"] ∧ closed (trace (snd demo_clear)) = ["m1.jarvis"].
Proof. repeat split; vm_compute; reflexivity. Qed.

(** C40. A message delivered while a participant clears its inbox can be lost:
    the participant reads its channel before it drops what it read, waits for
    each message's end, and, its inbox empty, ends without reading the channel
    again. The session is there, the message is neither answered nor counted
    out, and no later run is handed it. *)
Theorem message_lost_during_clear :
  ∃ env in_ sigs fuel m,
    let '(o, w) := ParticipantWorkflow env in_ sigs fuel in
    o = Closed ∧ gone (me w) = false ∧ has_id m = true ∧
    m ∈ arrived (trace w) ∧ (m ∉ moved (trace w)) ∧ chMessages (chans w) = [m] ∧
    (key_of (InAgentID in_) m ∉ told_done (trace w)) ∧ key_of (InAgentID in_) m ∉ closed (trace w).
Proof.
  exists demo_clear_env, demo_input, [SigMessage (demo_message 1 []); SigClear], 10%nat, (demo_message 2 []).
  pose proof demo_clear_run as H.
  destruct (ParticipantWorkflow demo_clear_env demo_input [SigMessage (demo_message 1 []); SigClear] 10) as [o w].
  cbn [fst snd] in H. destruct H as (-> & -> & -> & -> & -> & -> & ->).
  assert (key_of (InAgentID demo_input) (demo_message 2 []) = "m2.jarvis") as -> by (vm_compute; reflexivity).
  repeat split; [by right; left| |set_solver|set_solver].
  intros H%list_elem_of_singleton. discriminate H.
Qed.
