(* ===== verification/ParticipantTurns.v ===== *)
(** * Stops, relays and part notes of a participant's turns *)

From S2P Require Import Prelude GoStr Utf8 Json Keys Message Convert Participant ParticipantInbox.
Open Scope string_scope.
Open Scope Z_scope.
Open Scope list_scope.

(** ** Stops *)

(** A signal read that stops the turn: a clear, a stop that names it, or one
    that names none. *)
Definition aims (turnKey : string) (e : effect) : bool :=
  match e with
  | ClearRead => true
  | StopRead k => String.eqb k "" || String.eqb k turnKey
  | _ => false
  end.

Definition is_clear (e : effect) : bool := match e with ClearRead => true | _ => false end.
Definition is_cancel (e : effect) : bool := match e with ChildCancelled _ => true | _ => false end.

(** The signals read so far have stopped the turn as they should: not at all
    when none aimed at it, else once, right after the first that did. *)
Definition stopped_right (id turnKey : string) (new : list effect) (r : TurnRun) : Prop :=
  stopped r = existsb (aims turnKey) new ∧ cleared r = existsb is_clear new ∧
  if stopped r then
    ∃ before e after, new = before ++ e :: ChildCancelled id :: after ∧ aims turnKey e = true ∧
      existsb (aims turnKey) before = false ∧ existsb is_cancel before = false ∧ existsb is_cancel after = false
  else existsb is_cancel new = false.

(** Effects that neither aim at the turn nor cancel it. *)
Definition idle_effect (turnKey : string) (e : effect) : bool := negb (aims turnKey e || is_clear e || is_cancel e).

Lemma stopped_right_idle id k new more r :
  forallb (idle_effect k) more = true → stopped_right id k new r → stopped_right id k (new ++ more) r.
Proof.
  intros Hm (H1 & H2 & H3).
  assert (existsb (aims k) more = false ∧ existsb is_clear more = false ∧ existsb is_cancel more = false) as (E1 & E2 & E3).
  { induction more as [|e more IH]; [done|]. cbn in *. apply andb_true_iff in Hm as [He Hm]. unfold idle_effect in He.
    destruct (IH Hm) as (-> & -> & ->). destruct (aims k e), (is_clear e), (is_cancel e); done. }
  unfold stopped_right. rewrite !existsb_app, E1, E2, E3, !orb_false_r. split; [done|]. split; [done|].
  destruct (stopped r); [|done]. destruct H3 as (b & e & a & -> & Ha & Hb & Hc & Hd).
  exists b, e, (a ++ more). rewrite <- app_assoc. do 4 (split; [done|]). by rewrite existsb_app, Hd, E3.
Qed.

(** [trace r] is [base] and then [new]. *)
Definition since (base : list effect) (P : list effect → TurnRun → Prop) (r : TurnRun) : Prop :=
  ∃ new, trace (world r) = base ++ new ∧ P new r.

Lemma stopped_right_stop base id k b e (r : TurnRun) (w : World) :
  aims k e = true → is_clear e = b →
  since base (stopped_right id k) r → trace w = trace (world r) ++ [e] →
  since base (stopped_right id k) (stop id b (mkTurnRun (stopped r) (cleared r) w)).
Proof.
  intros Ha Hb (new & Hn & H1 & H2 & H3) Hw. unfold stop, since, stopped_right. cbn [stopped cleared world].
  assert (is_cancel e = false) as Hc by (by destruct e).
  destruct (stopped r) eqn:E.
  - exists (new ++ [e]). rewrite Hw, Hn, <- app_assoc. split; [done|].
    rewrite !existsb_app, <- H1, <- H2. cbn. rewrite Hb, orb_false_r. split; [done|]. split; [done|].
    destruct H3 as (bf & e' & af & -> & ? & ? & ? & Hd). exists bf, e', (af ++ [e]). rewrite <- app_assoc.
    do 4 (split; [done|]). rewrite existsb_app, Hd. cbn. by rewrite Hc.
  - exists (new ++ [e; ChildCancelled id]). cbn [trace emit]. rewrite Hw, Hn, <- !app_assoc. split; [done|].
    rewrite !existsb_app, <- H1, <- H2. cbn. rewrite Ha, Hb, !orb_false_r. split; [done|]. split; [done|].
    exists new, e, []. done.
Qed.

Lemma stopped_right_step base id k ev r :
  since base (stopped_right id k) r → since base (stopped_right id k) (turn_step id k ev r).
Proof.
  intros H. destruct ev; cbn [turn_step].
  - destruct H as (new & Hn & H).
    assert (∃ more, trace (deliver_all sigs (world r)) = trace (world r) ++ more ∧ forallb (idle_effect k) more = true) as (more & Hm & Hi).
    { generalize (world r) as w. induction sigs as [|s l IH]; intros w; [exists []; by rewrite app_nil_r|].
      destruct (IH (deliver s w)) as (more & Hm & Hi). exists (Arrived s :: more).
      change (deliver_all (s :: l) w) with (deliver_all l (deliver s w)). rewrite Hm.
      cbn [trace emit deliver set_chans]. rewrite <- app_assoc. done. }
    exists (new ++ more). cbn [world]. rewrite Hm, Hn, <- app_assoc. split; [done|]. by apply stopped_right_idle.
  - destruct (chStops _) as [|s ks]; [done|].
    destruct (negb (String.eqb s "") && negb (String.eqb s k)) eqn:E.
    + destruct H as (new & Hn & H). exists (new ++ [StopRead s]). cbn [world trace emit set_chans]. rewrite Hn, <- app_assoc. split; [done|].
      apply stopped_right_idle; [|done]. cbn. unfold idle_effect. cbn. by destruct (String.eqb s ""), (String.eqb s k).
    + apply (stopped_right_stop _ _ _ _ (StopRead s)); [|done|done|done]. cbn.
      by destruct (String.eqb s ""), (String.eqb s k).
  - destruct (chClears _) as [|n]; [done|]. by apply (stopped_right_stop _ _ _ _ ClearRead).
  - destruct (chMessages _) as [|m ms]; [done|]. exact H.
Qed.

(** A turn is stopped by the first clear, stop naming it or stop naming no
    turn that it reads, and by nothing else: a stop for another turn than the
    one running is dropped. It is cancelled once, and it is counted as cleared
    exactly when it read a clear. *)
Theorem turn_stopped_exactly env in_ msg turnKey channel channelID w :
  let '(_, st, cl, _, w') := runTurn env in_ msg turnKey channel channelID w in
  ∃ read, trace w' = trace w ++ read ∧
    st = existsb (aims turnKey) read ∧ cl = existsb is_clear read ∧
    if st then
      ∃ before e after, read = before ++ e :: ChildCancelled (turn_id in_ msg) :: after ∧ aims turnKey e = true ∧
        existsb (aims turnKey) before = false ∧ existsb is_cancel before = false ∧ existsb is_cancel after = false
    else existsb is_cancel read = false.
Proof.
  unfold runTurn. set (i := turn_input _ _ _ _ _). set (r := fold_left _ _ _).
  assert (since (trace w) (stopped_right (turn_id in_ msg) turnKey) r) as (new & Hn & H).
  { subst r.
    assert (since (trace w) (stopped_right (turn_id in_ msg) turnKey) (mkTurnRun false false (emit (ChildStarted (turn_id in_ msg) i) w))) as Hq.
    { by exists [ChildStarted (turn_id in_ msg) i]. }
    revert Hq. generalize (mkTurnRun false false (emit (ChildStarted (turn_id in_ msg) i) w)) as q.
    induction (script env (step w)) as [|e l IH]; intros q Hq; simpl; [done|]. by apply IH, stopped_right_step. }
  set (child := child_result env (step w) i).
  exists (new ++ [ChildEnded (turn_id in_ msg) child]). cbn [trace emit]. rewrite Hn, <- app_assoc. split; [done|].
  by apply stopped_right_idle.
Qed.

(** ** Relays *)

(** In the session [session], the participant [agent], answering [m], may hand
    [m'] to the participant [agent']: under some surroundings, it does. *)
Definition hands (session : string) (a b : string * ParticipantMessage) : Prop :=
  ∃ env in_ w new i failed,
    InSessionID in_ = session ∧ InAgentID in_ = fst a ∧
    trace (answer env in_ (snd a) w) = trace w ++ new ∧ Relayed i failed ∈ new ∧
    WorkflowID i = ParticipantWorkflowID session (fst b) ∧ InAgentID (RelayStart i) = fst b ∧
    RelayMessage i = snd b.

Lemma hands_step session a b :
  hands session a b →
  ∃ next rest earlier,
    Next (snd a) = next :: rest ∧ fst b = AddrID next ∧ (earlier = [] ∨ earlier = [key_of (fst a) (snd a)]) ∧
    snd b = with_next (snd a) rest (EarlierTurns (snd a) ++ earlier).
Proof.
  destruct a as [agent m], b as [agent' m']. cbn [fst snd].
  intros (env & in_ & w & new & i & failed & Hs & Ha & Ht & Hi & _ & Hstart & Hm).
  destruct (does_answer env in_ m w) as (new' & Ht' & Hn). cbn [snd] in Ht. rewrite Ht in Ht'. apply app_inv_head in Ht'. subst new'.
  rewrite Forall_forall in Hn. apply Hn in Hi. cbn in Hi. destruct Hi as (next & rest & turnKey & HN & Hk & ->).
  cbn in Hstart, Hm. rewrite <- Hm, <- Hstart. unfold key_of in *. rewrite Ha in Hk.
  exists next, rest, (if String.eqb turnKey "" then [] else [turnKey]). repeat split; [done| |].
  - destruct (String.eqb_spec turnKey ""); [by left|]. destruct Hk as [?|Hk']; [done|rewrite Hk'; by right].
  - destruct (String.eqb turnKey ""); by rewrite ?app_nil_r.
Qed.

(** A message that addresses several agents goes through them in the order
    it names them: however many times it is relayed, those it went through are
    the first ones it named, the message says who is left, and among the turns
    to read before answering it come, in order, some of theirs (all but those
    refused); everything else in it is as it was delivered. So it stops after
    the last of them, and a chain of relays never comes back. *)
Theorem relay_follows_mentions session agent m agent' m' :
  star (hands session) (agent, m) (agent', m') →
  ∃ visited earlier,
    Next m = visited ++ Next m' ∧ last (agent :: (AddrID <$> visited)) = Some agent' ∧
    earlier `sublist_of` (λ a, key_of a m) <$> removelast (agent :: (AddrID <$> visited)) ∧
    m' = with_next m (Next m') (EarlierTurns m ++ earlier).
Proof.
  remember (agent, m) as a eqn:Ea. remember (agent', m') as b eqn:Eb. intros H. revert agent m Ea.
  induction H as [a|a c b Hac Hcb IH]; intros agent m ->.
  - injection Eb as <- <-. exists [], []. rewrite app_nil_r. repeat split; [constructor|]. by destruct m.
  - destruct (hands_step _ _ _ Hac) as (next & rest & e & HN & Hc & He & Hm). cbn [fst snd] in *.
    destruct c as [ac mc]. cbn [fst snd] in *. subst ac mc.
    destruct (IH Eb _ _ eq_refl) as (visited & earlier & HV & HL & HE & ->). cbn [Next with_next EarlierTurns MessageID] in *.
    exists (next :: visited), (e ++ earlier). rewrite HN, HV. split; [done|]. split; [by rewrite <- HL|]. split.
    + change (e ++ earlier `sublist_of` key_of agent m ::
        ((λ a, key_of a m) <$> removelast (AddrID next :: (AddrID <$> visited)))).
      change (λ a, key_of a (with_next m rest (EarlierTurns m ++ e))) with (λ a, key_of a m) in HE.
      destruct He as [->| ->]; cbn [app]; [by apply sublist_cons|by apply sublist_skip].
    + unfold with_next. cbn. by rewrite <- app_assoc.
Qed.

(** ** The quote of a part note *)

Definition ascii_space (c : ascii) : Prop := byte_of c < 128 ∧ is_space (byte_of c) = true.

Lemma in_range_other lo hi c d : 128 ≤ lo → in_range lo hi c = true → byte_of d < 128 → Ascii.eqb c d = false.
Proof. intros Hl [H _]%in_range_spec Hd. apply Ascii.eqb_neq. intros ->. lia. Qed.

(** A rune that is no white space holds no byte of white space. *)
Lemma rune_no_space s c :
  ascii_space c → is_space (fst (decode_rune s)) = false → has_byte c (take_str (snd (decode_rune s)) s) = false.
Proof.
  intros [Hc Hs]. destruct s as [|c0 s0]; [done|]. unfold decode_rune.
  destruct (byte_of c0 <? 128) eqn:E0.
  { cbn. intros Hn. rewrite orb_false_r. apply Ascii.eqb_neq. intros ->. congruence. }
  bool_to_prop. assert (Ascii.eqb c0 c = false) as H0 by (apply Ascii.eqb_neq; intros ->; lia).
  intros _. repeat split_match; cbn [snd take_str has_byte]; rewrite ?H0; try done;
    repeat match goal with H : _ && _ = true |- _ => apply andb_true_iff in H as [? ?] end;
    repeat match goal with
    | H : in_range ?a ?b ?d = true |- context [Ascii.eqb ?d c] =>
        rewrite (in_range_other a b d c) by (solve [lia | done | repeat split_match; lia])
    end; by destruct (String.eqb _ _) || done.
Qed.

Lemma has_byte_take c n s : has_byte c s = false → has_byte c (take_str n s) = false.
Proof. intros H. rewrite <- (take_drop_str n s), has_byte_app in H. by apply orb_false_iff in H as [? _]. Qed.

Lemma fields_loop_no_space c fuel cur s :
  ascii_space c → has_byte c cur = false → Forall (λ f, has_byte c f = false) (fields_loop fuel cur s).
Proof.
  intros Hc. revert cur s; induction fuel as [|fuel IH]; intros cur s Hcur;
    (assert (Forall (λ f, has_byte c f = false) (flush_field cur)) as Hf
      by (unfold flush_field; destruct (String.eqb cur ""); [constructor|by apply Forall_singleton])).
  - by destruct s.
  - destruct s as [|c0 s0]; [done|]. cbn [fields_loop].
    pose proof (rune_no_space (String c0 s0) c Hc) as Hr. destruct (decode_rune (String c0 s0)) as [r n]. cbn [fst snd] in Hr.
    destruct (is_space r); [apply Forall_app; split; [done|by apply IH]|].
    apply IH. by rewrite has_byte_app, Hcur, Hr.
Qed.

Lemma join_no_byte c l : Ascii.eqb " " c = false → Forall (λ f, has_byte c f = false) l → has_byte c (join " " l) = false.
Proof.
  intros Hc. unfold join. induction 1 as [|f l Hf Hl IH]; [done|]. destruct l as [|g l]; [done|].
  change (String.concat " " (f :: g :: l)) with (f +:+ " " +:+ String.concat " " (g :: l)).
  rewrite !has_byte_app, Hf, IH. cbn [has_byte]. by rewrite Hc.
Qed.

Lemma ellipsis_no_byte c : ascii_space c → has_byte c ellipsis = false.
Proof.
  intros [Hc _]. change ellipsis with (String (byte 226) (String (byte 128) (String (byte 166) ""))). cbn [has_byte].
  rewrite !orb_false_iff. repeat split; apply Ascii.eqb_neq; intros E; apply (f_equal byte_of) in E;
    rewrite byte_of_byte in E; lia.
Qed.

(** A message is quoted to an agent on one line, and bounded: the quote is
    at most its bound and an ellipsis long, and the only ASCII white space in
    it is the blank. *)
Theorem quote_one_line text c :
  ascii_space c → c ≠ " "%char →
  has_byte c (Quote text) = false ∧ len (Quote text) ≤ maxQuotedMessageBytes + 3.
Proof.
  intros Hc Hb. split.
  - assert (has_byte c (join " " (fields text)) = false) as Hj.
    { apply join_no_byte; [by apply Ascii.eqb_neq|]. by apply fields_loop_no_space. }
    unfold Quote, Clip. destruct (len _ <=? _); [done|]. rewrite has_byte_app, has_byte_take by done. cbn [orb].
    by apply ellipsis_no_byte.
  - unfold Quote. pose proof (Clip_len (join " " (fields text)) maxQuotedMessageBytes). unfold maxQuotedMessageBytes in *. lia.
Qed.

Lemma quote_one_line_witness :
  has_byte (byte 10) (Quote (" Bonjour," +:+ newline +:+ newline +:+ " tous ")) = false ∧
  Quote (" Bonjour," +:+ newline +:+ newline +:+ " tous ") = "Bonjour, tous".
Proof.
  split; [|vm_compute; reflexivity].
  exact (proj1 (quote_one_line _ (byte 10) (conj eq_refl eq_refl) (fun H => ltac:(discriminate H)))).
Defined.

Definition demo_next : list AddressedAgent := [mkAddressed "friday" "Friday" "friday"].

(** Jarvis answers a message that names Friday too, and hands it over. *)
Definition demo_answer : World := answer (demo_env (λ _, [])) demo_input (demo_message 1 demo_next) (start demo_input []).

Lemma demo_hands :
  hands "s1" ("jarvis", demo_message 1 demo_next) ("friday", with_next (demo_message 1 demo_next) [] ["m1.jarvis"]).
Proof.
  exists (demo_env (λ _, [])), demo_input, (start demo_input []), (trace demo_answer),
    (relay_input (demo_env (λ _, [])) demo_input (demo_message 1 demo_next) (mkAddressed "friday" "Friday" "friday") [] "m1.jarvis"), None.
  do 2 (split; [reflexivity|]). split; [reflexivity|]. split; [|repeat split; vm_compute; reflexivity].
  apply (list_elem_of_lookup_2 _ 6). vm_compute. reflexivity.
Qed.

Lemma relay_follows_mentions_witness :
  ∃ visited earlier, demo_next = visited ++ [] ∧ last ("jarvis" :: (AddrID <$> visited)) = Some "friday" ∧
    earlier `sublist_of` ["m1.jarvis"] ∧ ["m1.jarvis"] = [] ++ earlier.
Proof.
  destruct (relay_follows_mentions "s1" "jarvis" (demo_message 1 demo_next) "friday"
    (with_next (demo_message 1 demo_next) [] ["m1.jarvis"]) (star_one _ _ _ demo_hands)) as (visited & earlier & H1 & H2 & H3 & H4).
  exists visited, earlier. cbn [Next with_next demo_message] in H1. split; [exact H1|]. split; [exact H2|].
  rewrite app_nil_r in H1. subst visited. split; [exact H3|]. exact (f_equal EarlierTurns H4).
Defined.
