(* ===== verification/Turns.v ===== *)
(** * The activities of a participant's turns (src/activity/turn.go)

    Whether a turn may run, its end, and the relay of a message, on the tables
    of Tasks.v. The agents' table is given as the names of the agents that
    exist, by ID. A read that fails is not modelled: the activity is retried,
    and the participant's environment says how it ends at last. *)

From S2P Require Import Prelude GoStr Utf8 Json Keys Message Store Tasks Participant.
Open Scope string_scope.
Open Scope Z_scope.
Open Scope list_scope.

(** The errors never retried; the text of the second one names the agent. *)
Inductive TurnError := ErrTypeSessionGone | ErrTypeAgentNotFound (agentID : string).

(** [TurnActivities.CheckTurn]. *)
Definition CheckTurn (agents : gmap string string) (i : CheckTurnInput) (db : DB) : TurnError + CheckTurnOutput :=
  match sessions db !! ChkSession i with
  | None => inl ErrTypeSessionGone
  | Some _ =>
      if HasTurnEnd (ChkSession i) (ChkTurn i) (Tasks.messages db) then inr (mkCheckOut true "")
      else
        match agents !! ChkAgent i with
        | None => inl (ErrTypeAgentNotFound (ChkAgent i))
        | Some name => inr (mkCheckOut false name)
        end
  end.

(** [TurnActivities.EndTurn]. *)
Definition EndTurn (now : time) (session turnKey : string) (msg : Message) (db : DB) : Z * DB :=
  let '(id, t) := AppendTurnEnd now session turnKey msg (Tasks.messages db) in
  (id, mkDB (sessions db) t (memory db) (tasks db)).

(** [RelayActivities.Relay]: the SignalWithStart it makes, none when the
    session it is asked to read is gone. *)
Definition Relay (i : RelayInput) (db : DB) : option RelayInput :=
  if String.eqb (RelaySession i) "" then Some i
  else match sessions db !! RelaySession i with Some _ => Some i | None => None end.

(** ** A turn is not answered twice *)

Lemma find_filter {A} (f g : A → bool) l : (∀ x, f x = true → g x = true) → List.find f (List.filter g l) = List.find f l.
Proof.
  intros H. induction l as [|x l IH]; [done|]. cbn. destruct (g x) eqn:E; cbn; rewrite IH; [done|].
  destruct (f x) eqn:F; [|done]. by rewrite H in E.
Qed.

Lemma find_snoc {A} (f : A → bool) l x :
  List.find f (l ++ [x]) = match List.find f l with Some y => Some y | None => if f x then Some x else None end.
Proof. induction l as [|y l IH]; [done|]. cbn. by destruct (f y). Qed.

Lemma deleted_other session other key t :
  session ≠ other → row_under session key (DeleteMessagesBySession other t) = row_under session key t.
Proof.
  intros Hne. unfold row_under, DeleteMessagesBySession. cbn [rows]. apply find_filter. intros r Hr%under_spec.
  unfold row_key in Hr. injection Hr as Hr _. rewrite Hr. by destruct (String.eqb_spec session other).
Qed.

(** The turn has its end, or its session is gone. *)
Definition answered (session turnKey : string) (db : DB) : Prop :=
  sessions db !! session = None ∨ HasTurnEnd session turnKey (Tasks.messages db) = true.

Lemma HasTurnEnd_spec session turnKey t :
  HasTurnEnd session turnKey t = true ↔ ∃ r, row_under session (TurnEndKey turnKey) t = Some r.
Proof. unfold HasTurnEnd. destruct (row_under _ _ t); naive_solver. Qed.

Lemma HasTurnEnd_extends session turnKey t t' :
  extends t t' → HasTurnEnd session turnKey t = true → HasTurnEnd session turnKey t' = true.
Proof. rewrite !HasTurnEnd_spec. intros He [r Hr]. exists r. by eapply extends_under. Qed.

Definition no_creation (session : string) (o : op) : bool :=
  match o with OCreateSession id _ => negb (String.eqb id session) | _ => true end.

Lemma exec_answered session turnKey o db :
  no_creation session o = true → answered session turnKey db → answered session turnKey (exec o db).
Proof.
  unfold answered. intros Hn H. destruct o; cbn [exec no_creation] in *.
  - unfold RegisterTask. by repeat split_match.
  - unfold DropTask. by repeat split_match.
  - unfold AddTaskFollowUp, update. by repeat split_match.
  - unfold SetTaskCancelledBy, update. by repeat split_match.
  - unfold SetTaskWoken, update. by repeat split_match.
  - unfold SetTaskCancelSent, update. by repeat split_match.
  - unfold EndTask. repeat split_match; cbn; try done.
    destruct H as [H|H]; [by left|right]. eapply HasTurnEnd_extends; [|done].
    match goal with E : insert_row ?a ?b ?c ?d ?e = _ |- _ => pose proof (insert_row_extends a b c d e) as Hx; rewrite E in Hx end.
    exact Hx.
  - destruct H as [H|H]; [by left|right]. cbn. eapply HasTurnEnd_extends; [apply insert_row_extends|done].
  - destruct (sessions db !! id) eqn:E; [done|]. cbn. rewrite lookup_insert_ne; [done|]. by intros ->; bool_to_prop.
  - destruct (String.eqb_spec id session) as [->|Hne]; cbn.
    + left. apply lookup_delete_eq.
    + rewrite lookup_delete_ne by done. destruct H as [H|H]; [by left|right].
      rewrite HasTurnEnd_spec in *. destruct H as [r Hr]. exists r. by rewrite deleted_other.
Qed.

(** A turn whose end is written is never run again, whatever is done to the
    store since: its check answers that it was answered, or that its session
    is gone. It may run exactly while its end is not written, with its session
    and its agent there: the check then gives the agent's name. *)
Theorem turn_not_run_twice agents now i msg ops db :
  Forall (λ o, no_creation (ChkSession i) o = true) ops →
  let db' := (EndTurn now (ChkSession i) (ChkTurn i) msg db).2 in
  (CheckTurn agents i (execs ops db') = inl ErrTypeSessionGone ∨
   CheckTurn agents i (execs ops db') = inr (mkCheckOut true "")) ∧
  ∀ name, CheckTurn agents i db = inr (mkCheckOut false name) ↔
    is_Some (sessions db !! ChkSession i) ∧ HasTurnEnd (ChkSession i) (ChkTurn i) (Tasks.messages db) = false ∧
    agents !! ChkAgent i = Some name.
Proof.
  intros Hops. cbn zeta. split; [|intros name; unfold CheckTurn; repeat split_match; rewrite ?is_Some_alt; naive_solver].
  assert (answered (ChkSession i) (ChkTurn i) (EndTurn now (ChkSession i) (ChkTurn i) msg db).2) as H.
  { right. unfold EndTurn, AppendTurnEnd, AppendMessage, insert_row.
    destruct (row_under (ChkSession i) (TurnEndKey (ChkTurn i)) (Tasks.messages db)) as [r|] eqn:E; cbn; rewrite HasTurnEnd_spec.
    - by exists r.
    - eexists. unfold row_under in *. cbn [rows]. rewrite find_snoc, E. cbn. unfold under. cbn. by rewrite !String.eqb_refl. }
  revert H. generalize (EndTurn now (ChkSession i) (ChkTurn i) msg db).2 as d. intros d H.
  assert (answered (ChkSession i) (ChkTurn i) (execs ops d)) as He.
  { unfold execs. revert d H. induction Hops as [|o ops Ho Hops IH]; intros d H; cbn; [done|]. by apply IH, exec_answered. }
  unfold CheckTurn. destruct (sessions (execs ops d) !! ChkSession i) eqn:E; [|by left].
  destruct He as [He|He]; [congruence|]. right. by rewrite He.
Qed.

Lemma turn_not_run_twice_witness :
  CheckTurn {["jarvis" := "Jarvis"]} (mkCheckIn "s1" "jarvis" "m1.jarvis")
    (execs [OMessage 6 "s1" "msg:2" (plainMessage RoleUser "again"); ODeleteSession "s2"]
       (EndTurn 5 "s1" "m1.jarvis" (TurnEnd "jarvis" "")
          (execs [OCreateSession "s1" (mkSession "jarvis" "web" ""); OCreateSession "s2" (mkSession "jarvis" "web" "")] emptyDB)).2) =
  inr (mkCheckOut true "").
Proof.
  destruct (turn_not_run_twice {["jarvis" := "Jarvis"]} 5 (mkCheckIn "s1" "jarvis" "m1.jarvis") (TurnEnd "jarvis" "")
    [OMessage 6 "s1" "msg:2" (plainMessage RoleUser "again"); ODeleteSession "s2"]
    (execs [OCreateSession "s1" (mkSession "jarvis" "web" ""); OCreateSession "s2" (mkSession "jarvis" "web" "")] emptyDB)
    ltac:(repeat constructor)) as [[H|H] _];
    [exfalso; revert H; vm_compute; discriminate|exact H].
Defined.
