(* ===== verification/Working.v ===== *)
(** * Which participants work (src/session/turns.go)

    What the server knows of the sessions' participants, in memory: from the
    turn events that pass through its hub and the messages it delivered. Each
    method is one step, under the mutex; the clock is an argument, read once.
    A map of maps is a map of maps here too: a session with no participant
    left is not in it. The pointers of the code are not shared outside the
    map, so a participant is a value. *)

From S2P Require Import Prelude GoStr Utf8 Json Keys Message Convert Participant ParticipantInbox ParticipantProtocol.
Open Scope string_scope.
Open Scope Z_scope.
Open Scope list_scope.

Definition turnTrust : Z := 30 * second.
Definition turnForget : Z := 24 * hour.

Record participantTurns := mkPT {
  working_ : bool;
  event : TurnEvent;
  at_time : time;
  note : string;
  pending_ : gmap Z time
}.

Record taskNote := mkTaskNote { noteText : string; noteAt : time }.

Record turns := mkTurns {
  m : gmap string (gmap string participantTurns);
  taskNotes : gmap string (gmap string taskNote)
}.

Definition noTurns : turns := mkTurns ∅ ∅.
Definition noEvent : TurnEvent := mkTurnEvent "" "" "" "" "".

(** [&participantTurns{pending: map...{}}]. *)
Definition newTurns : participantTurns := mkPT false noEvent 0 "" ∅.

Definition with_m (t : turns) (x : gmap string (gmap string participantTurns)) : turns := mkTurns x (taskNotes t).

(** [t.m[sessionID]], nil when there is none, and [t.m[sessionID][name]]. *)
Definition session_of (sid : string) (t : turns) : gmap string participantTurns := default ∅ (m t !! sid).
Definition participant_of (sid name : string) (t : turns) : option participantTurns := session_of sid t !! name.

(** [participant]: the participant's state, created if need be; the code then
    changes it in place. *)
Definition on_participant (sid name : string) (f : participantTurns → participantTurns) (t : turns) : turns :=
  with_m t (<[sid := <[name := f (default newTurns (participant_of sid name t))]> (session_of sid t)]> (m t)).

Definition with_pending (p : participantTurns) (x : gmap Z time) : participantTurns :=
  mkPT (working_ p) (event p) (at_time p) (note p) x.

(** A time less than [turnForget] ago. *)
Definition recent_ (now at_ : time) : bool := time_sub now at_ <? turnForget.

Definition prune_pending (now : time) (x : gmap Z time) : gmap Z time := filter (λ kv, recent_ now kv.2 = true) x.

#[global] Arguments prune_pending : simpl never.
#[global] Arguments recent_ : simpl never.

Definition prune_one (now : time) (p : participantTurns) : option participantTurns :=
  let p := with_pending p (prune_pending now (pending_ p)) in
  if bool_decide (pending_ p = ∅) && negb (recent_ now (at_time p)) then None else Some p.

Definition prune_session (now : time) (ps : gmap string participantTurns) : option (gmap string participantTurns) :=
  let ps := omap (prune_one now) ps in
  if bool_decide (ps = ∅) then None else Some ps.

Definition prune (now : time) (t : turns) : turns := with_m t (omap (prune_session now) (m t)).

(** ** Events and deliveries *)

Definition event_message (e : TurnEvent) : Z := default 0 (TurnAnchor (EvTurn e)).
Definition event_participant (e : TurnEvent) : string := cmp_or (TurnParticipant (EvTurn e)) (EvAgentID e).

(** What a turn event changes of its participant. *)
Definition set_participant (now : time) (started : bool) (e : TurnEvent) (p : participantTurns) : participantTurns :=
  let x := delete (event_message e) (pending_ p) in
  if started then mkPT true e now "" x
  else if negb (working_ p) || String.eqb (EvTurn (event p)) (EvTurn e) then mkPT false e now "" x
  else with_pending p x.

Definition set (now : time) (sid : string) (started : bool) (e : TurnEvent) (t : turns) : turns :=
  on_participant sid (event_participant e) (set_participant now started e) (prune now t).

Definition expect (now : time) (sid name : string) (message : Z) (t : turns) : turns :=
  on_participant sid name (λ p, with_pending p (<[message := now]> (pending_ p))) (prune now t).

(** Changes a participant that is there. *)
Definition if_participant (sid name : string) (f : participantTurns → participantTurns) (t : turns) : turns :=
  match participant_of sid name t with Some _ => on_participant sid name f t | None => t end.

Definition unexpect (sid name : string) (message : Z) (t : turns) : turns :=
  if_participant sid name (λ p, with_pending p (delete message (pending_ p))) t.

(** ** What the server tells of a participant *)

Definition count_recent (now : time) (x : gmap Z time) : Z := Z.of_nat (size (prune_pending now x)).

Definition queued (now : time) (sid name : string) (t : turns) : Z :=
  match participant_of sid name t with None => 0 | Some p => count_recent now (pending_ p) end.

Definition current_of (now : time) (p : participantTurns) : Z :=
  if negb (working_ p) || negb (recent_ now (at_time p)) then 0 else event_message (event p).

(** [current]. *)
Definition current_ (now : time) (sid name : string) (t : turns) : Z :=
  match participant_of sid name t with None => 0 | Some p => current_of now p end.

Definition set_note (participant text : string) (name : string) (p : participantTurns) : participantTurns :=
  if working_ p && (String.eqb participant "" || String.eqb name participant)
  then mkPT (working_ p) (event p) (at_time p) text (pending_ p) else p.

Definition setNote (sid participant text : string) (t : turns) : turns :=
  match m t !! sid with
  | None => t
  | Some ps => with_m t (<[sid := map_imap (λ name p, Some (set_note participant text name p)) ps]> (m t))
  end.

Definition forget (sid : string) (t : turns) : turns := mkTurns (delete sid (m t)) (delete sid (taskNotes t)).

(** ** Background tasks' notes *)

Definition prune_notes (now : time) (notes : gmap string taskNote) : option (gmap string taskNote) :=
  let notes := filter (λ kv, recent_ now (noteAt kv.2) = true) notes in
  if bool_decide (notes = ∅) then None else Some notes.

Definition setTaskNote (now : time) (sid task text : string) (t : turns) : turns :=
  let all := omap (prune_notes now) (taskNotes t) in
  if String.eqb text "" then
    mkTurns (m t) (match all !! sid with Some notes => <[sid := delete task notes]> all | None => all end)
  else mkTurns (m t) (<[sid := <[task := mkTaskNote text now]> (default ∅ (all !! sid))]> all).

Definition taskNote_ (sid task : string) (t : turns) : string :=
  match default ∅ (taskNotes t !! sid) !! task with Some n => noteText n | None => "" end.

(** ** The snapshot of a session *)

(** The fields of [Participant] a snapshot fills. *)
Record ParticipantView := mkView {
  VName : string;
  VAgentID : string;
  VAgentName : string;
  VWorking : bool;
  VTurn : string;
  VUserID : string;
  VUserName : string;
  VSince : time;
  VNote : string;
  VQueued : Z;
  VKnown : bool
}.

Definition trusted_ (now : time) (p : participantTurns) : bool :=
  negb (is_zero_time (at_time p)) && (time_sub now (at_time p) <? turnTrust).

Definition works (now : time) (isRunning : bool) (p : participantTurns) : bool :=
  if trusted_ now p then working_ p
  else isRunning && (working_ p || negb (bool_decide (pending_ p = ∅))).

(** A pending message that counts as waiting. *)
Definition waits (now : time) (trusted isRunning : bool) (at_ : time) : bool :=
  recent_ now at_ && (trusted || isRunning || (time_sub now at_ <? turnTrust)).

Definition view_of (now : time) (running : list string) (name : string) (p : participantTurns) : ParticipantView :=
  let isRunning := contains running name in
  let w := works now isRunning p in
  let q := Z.of_nat (size (filter (λ kv, waits now (trusted_ now p) isRunning kv.2 = true) (pending_ p))) in
  if w && working_ p && recent_ now (at_time p) then
    let e := event p in
    mkView name (cmp_or (EvAgentID e) name) (EvAgentName e) w (EvTurn e) (EvUserID e) (EvUserName e) (at_time p) (note p) q true
  else mkView name name "" w "" "" "" 0 "" q true.

Definition unknown_view (name : string) : ParticipantView := mkView name name "" true "" "" "" 0 "" 0 false.

Definition by_name (a b : ParticipantView) : bool := String.leb (VName a) (VName b).

(** The participants known come in the order of the map, which the sort
    makes irrelevant: their names are distinct. *)
Definition snapshot (now : time) (sid : string) (running : list string) (t : turns) : list ParticipantView :=
  let known := session_of sid t in
  sort_stable by_name
    (((λ kv, view_of now running kv.1 kv.2) <$> map_to_list known) ++
     (unknown_view <$> List.filter (λ name, negb (bool_decide (is_Some (known !! name)))) running)).

Record WorkingAgent := mkWorking { WParticipant : string; WAgentID : string; WName : string; WNote : string }.

(** [Participant.working]. *)
Definition working_view (v : ParticipantView) : WorkingAgent := mkWorking (VName v) (VAgentID v) (VAgentName v) (VNote v).

Definition working (now : time) (sid : string) (running : list string) (t : turns) : list WorkingAgent :=
  working_view <$> List.filter VWorking (snapshot now sid running t).

Definition sessions_told (t : turns) : list string := (map_to_list (m t)).*1.

(** ** Steps in any order *)

Inductive op :=
| OSet (now : time) (sid : string) (started : bool) (e : TurnEvent)
| OExpect (now : time) (sid name : string) (message : Z)
| OUnexpect (sid name : string) (message : Z)
| ONote (sid participant text : string)
| OForget (sid : string)
| OTaskNote (now : time) (sid task text : string).

Definition exec (o : op) (t : turns) : turns :=
  match o with
  | OSet now sid started e => set now sid started e t
  | OExpect now sid name message => expect now sid name message t
  | OUnexpect sid name message => unexpect sid name message t
  | ONote sid participant text => setNote sid participant text t
  | OForget sid => forget sid t
  | OTaskNote now sid task text => setTaskNote now sid task text t
  end.

Definition execs (ops : list op) (t : turns) : turns := fold_left (λ t o, exec o t) ops t.

(** The clock of the operations, which does not go back, ends before [now]. *)
Fixpoint timed (from : time) (ops : list op) (now : time) : Prop :=
  match ops with
  | [] => from ≤ now
  | (OSet x _ _ _ | OExpect x _ _ _ | OTaskNote x _ _ _) :: ops => from ≤ x ∧ timed x ops now
  | _ :: ops => timed from ops now
  end.

(** What one participant's own history says of it, nothing forgotten. *)
Definition own_step (sid name : string) (o : op) (p : participantTurns) : participantTurns :=
  match o with
  | OSet now s started e =>
      if String.eqb s sid && String.eqb (event_participant e) name then set_participant now started e p else p
  | OExpect now s n message =>
      if String.eqb s sid && String.eqb n name then with_pending p (<[message := now]> (pending_ p)) else p
  | OUnexpect s n message =>
      if String.eqb s sid && String.eqb n name then with_pending p (delete message (pending_ p)) else p
  | ONote s participant text => if String.eqb s sid then set_note participant text name p else p
  | OForget s => if String.eqb s sid then newTurns else p
  | OTaskNote _ _ _ _ => p
  end.

Definition own_history (sid name : string) (ops : list op) : participantTurns :=
  fold_left (λ p o, own_step sid name o p) ops newTurns.

(** ** Reading after a step *)

Lemma participant_on sid name f t s n :
  participant_of s n (on_participant sid name f t) =
  if String.eqb s sid && String.eqb n name then Some (f (default newTurns (participant_of sid name t))) else participant_of s n t.
Proof.
  unfold participant_of, on_participant, session_of. cbn.
  destruct (String.eqb_spec s sid) as [->|Hs]; cbn; [|by rewrite lookup_insert_ne].
  rewrite lookup_insert_eq. cbn. destruct (String.eqb_spec n name) as [->|Hn]; [by rewrite lookup_insert_eq|by rewrite lookup_insert_ne].
Qed.

Lemma participant_prune now s n t : participant_of s n (prune now t) = participant_of s n t ≫= prune_one now.
Proof.
  unfold participant_of, session_of, prune. cbn. rewrite lookup_omap.
  destruct (m t !! s) as [ps|]; cbn; [|by rewrite !lookup_empty]. unfold prune_session.
  rewrite <- lookup_omap. destruct (bool_decide _) eqn:E; [|done]. cbn. bool_to_prop. by rewrite E.
Qed.

Lemma participant_if sid name f t s n :
  participant_of s n (if_participant sid name f t) =
  if String.eqb s sid && String.eqb n name then f <$> participant_of sid name t else participant_of s n t.
Proof.
  unfold if_participant. destruct (participant_of sid name t) as [p|] eqn:E.
  - rewrite participant_on, E. done.
  - destruct (String.eqb_spec s sid) as [->|]; [|done]. destruct (String.eqb_spec n name) as [->|]; [by rewrite E|done].
Qed.

Lemma participant_note sid participant text t s n :
  participant_of s n (setNote sid participant text t) =
  if String.eqb s sid then set_note participant text n <$> participant_of s n t else participant_of s n t.
Proof.
  unfold setNote, participant_of, session_of. destruct (m t !! sid) as [ps|] eqn:E.
  - cbn. destruct (String.eqb_spec s sid) as [->|Hs]; [|by rewrite lookup_insert_ne].
    rewrite lookup_insert_eq, E. cbn. rewrite map_lookup_imap. by destruct (ps !! n).
  - destruct (String.eqb_spec s sid) as [->|]; [|done]. by rewrite E.
Qed.

(** ** What matters of a participant at a time *)

(** The messages that count, and the turn it is on if it counts. *)
Definition norm (now : time) (p : participantTurns) : gmap Z time * option (TurnEvent * time * string) :=
  (prune_pending now (pending_ p), if working_ p && recent_ now (at_time p) then Some (event p, at_time p, note p) else None).

Lemma recent_mono now now' x : now ≤ now' → recent_ now' x = true → recent_ now x = true.
Proof. unfold recent_, time_sub. intros. bool_to_prop. apply Z.ltb_lt. lia. Qed.

Lemma prune_pending_mono now now' x : now ≤ now' → prune_pending now' (prune_pending now x) = prune_pending now' x.
Proof.
  intros H. unfold prune_pending. apply map_eq. intros i. apply option_eq. intros y.
  rewrite !map_lookup_filter_Some. cbn. split; [tauto|]. intros [? ?]. split_and!; [done| |done]. by eapply recent_mono.
Qed.

Definition renorm (now : time) (x : gmap Z time * option (TurnEvent * time * string)) :=
  (prune_pending now x.1, match x.2 with Some (e, a, n) => if recent_ now a then Some (e, a, n) else None | None => None end).

Lemma norm_later now now' p : now ≤ now' → norm now' p = renorm now' (norm now p).
Proof.
  intros H. unfold renorm, norm. cbn. rewrite prune_pending_mono by done. f_equal.
  destruct (working_ p); [|done]. cbn. destruct (recent_ now' (at_time p)) eqn:E.
  - by rewrite (recent_mono _ _ _ H E), E.
  - destruct (recent_ now (at_time p)); [by rewrite E|done].
Qed.

Lemma norm_prune now p : norm now (default newTurns (prune_one now p)) = norm now p.
Proof.
  unfold prune_one. cbn. destruct (bool_decide _) eqn:E; cbn.
  - bool_to_prop. destruct (recent_ now (at_time p)) eqn:R; cbn; unfold norm; cbn; rewrite E, R, ?andb_true_r, ?andb_false_r; [|done].
    by unfold prune_pending; rewrite map_filter_empty.
  - unfold norm. cbn. by rewrite prune_pending_mono.
Qed.

Lemma prune_delete now i x : prune_pending now (delete i x) = delete i (prune_pending now x).
Proof. unfold prune_pending. apply map_filter_delete. Qed.

Lemma prune_insert now i at_ x :
  prune_pending now (<[i := at_]> x) =
  if recent_ now at_ then <[i := at_]> (prune_pending now x) else delete i (prune_pending now x).
Proof.
  unfold prune_pending. destruct (recent_ now at_) eqn:E.
  - by rewrite map_filter_insert_True.
  - rewrite map_filter_insert_False by (cbn; congruence). by rewrite map_filter_delete.
Qed.

(** A step says the same of two participants that matter the same. *)
Lemma norm_pending now p q x y :
  norm now p = norm now q → prune_pending now x = prune_pending now y →
  norm now (with_pending p x) = norm now (with_pending q y).
Proof. unfold norm. cbn. intros [= _ H] ->. by rewrite H. Qed.

Lemma norm_set now x started e p q :
  norm now p = norm now q → norm now (set_participant x started e p) = norm now (set_participant x started e q).
Proof.
  unfold norm. intros [= Hp Hw].
  assert (prune_pending now (delete (event_message e) (pending_ p)) = prune_pending now (delete (event_message e) (pending_ q))) as Hd
    by (by rewrite !prune_delete, Hp).
  unfold set_participant. destruct started; cbn; [by rewrite Hd|].
  destruct (working_ p) eqn:Wp, (working_ q) eqn:Wq; cbn [negb orb andb] in *.
  - destruct (recent_ now (at_time p)) eqn:Rp, (recent_ now (at_time q)) eqn:Rq; try discriminate.
    + injection Hw as He Ha Hn. rewrite He. destruct (String.eqb _ _); cbn; rewrite Hd; [done|]. by rewrite Wp, Wq, Rp, Rq, He, Ha, Hn.
    + destruct (String.eqb (EvTurn (event p)) _), (String.eqb (EvTurn (event q)) _); cbn; rewrite Hd, ?Wp, ?Wq, ?Rp, ?Rq; done.
  - destruct (recent_ now (at_time p)) eqn:Rp; [discriminate|].
    destruct (String.eqb (EvTurn (event p)) _); cbn; rewrite Hd, ?Wp, ?Rp; done.
  - destruct (recent_ now (at_time q)) eqn:Rq; [discriminate|].
    destruct (String.eqb (EvTurn (event q)) _); cbn; rewrite Hd, ?Wq, ?Rq; done.
  - cbn. by rewrite Hd.
Qed.

Lemma norm_note now participant text name p q :
  norm now p = norm now q → norm now (set_note participant text name p) = norm now (set_note participant text name q).
Proof.
  unfold norm, set_note. intros [= Hp Hw].
  destruct (working_ p) eqn:Wp, (working_ q) eqn:Wq; cbn [andb] in *;
    try (destruct (recent_ now (at_time p)) eqn:Rp; try discriminate);
    try (destruct (recent_ now (at_time q)) eqn:Rq; try discriminate);
    try destruct (_ || _); cbn; rewrite ?Wp, ?Wq, ?Rp, ?Rq, Hp; cbn; try done; injection Hw as He Ha Hn; by rewrite ?He, ?Ha, ?Hn.
Qed.

Lemma norm_own now sid name o p q :
  norm now p = norm now q → norm now (own_step sid name o p) = norm now (own_step sid name o q).
Proof.
  intros H. destruct o; cbn; repeat split_match; try done.
  - by apply norm_set.
  - apply norm_pending; [done|]. unfold norm in H. injection H as H _. by rewrite !prune_insert, H.
  - apply norm_pending; [done|]. unfold norm in H. injection H as H _. by rewrite !prune_delete, H.
  - by apply norm_note.
Qed.

(** The state kept and the participant's own history say the same. *)
Definition agrees (now : time) (sid name : string) (t : turns) (p : participantTurns) : Prop :=
  norm now (default newTurns (participant_of sid name t)) = norm now p.

Lemma agrees_later now now' sid name t p : now ≤ now' → agrees now sid name t p → agrees now' sid name t p.
Proof. unfold agrees. intros H E. by rewrite !(norm_later now now' _ H), E. Qed.

Lemma agrees_prune now sid name t p : agrees now sid name t p → agrees now sid name (prune now t) p.
Proof.
  unfold agrees. rewrite participant_prune. intros <-. destruct (participant_of sid name t) as [q|]; [|done]. apply norm_prune.
Qed.

Lemma agrees_on now sid name s n f o t p :
  agrees now sid name t p →
  own_step sid name o = (λ p, if String.eqb s sid && String.eqb n name then f p else p) →
  agrees now sid name (on_participant s n f t) (own_step sid name o p).
Proof.
  intros H E. pose proof (norm_own now sid name o _ _ H) as Hn. unfold agrees. rewrite <- Hn, E, participant_on.
  rewrite (String.eqb_sym sid s), (String.eqb_sym name n).
  destruct (String.eqb_spec s sid) as [->|]; [|done]. destruct (String.eqb_spec n name) as [->|]; done.
Qed.

(** When an operation reads its clock. *)
Definition clock_of (from : time) (o : op) : time :=
  match o with OSet x _ _ _ | OExpect x _ _ _ | OTaskNote x _ _ _ => x | _ => from end.

Lemma agrees_exec from sid name o t p :
  from ≤ clock_of from o → agrees from sid name t p →
  agrees (clock_of from o) sid name (exec o t) (own_step sid name o p).
Proof.
  intros Hle H. apply (agrees_later _ _ _ _ _ _ Hle) in H. destruct o as [x s st e|x s n i|s n i|s part text|s|x s task text]; cbn [exec clock_of] in *.
  - unfold set. apply (agrees_on _ _ _ _ _ _ (OSet x s st e)); [by apply agrees_prune|done].
  - unfold expect. apply (agrees_on _ _ _ _ _ _ (OExpect x s n i)); [by apply agrees_prune|done].
  - pose proof (norm_own from sid name (OUnexpect s n i) _ _ H) as Hn. unfold agrees. rewrite <- Hn.
    unfold unexpect. rewrite participant_if. cbn. rewrite (String.eqb_sym s sid), (String.eqb_sym n name).
    destruct (String.eqb_spec sid s) as [->|]; [|done]. destruct (String.eqb_spec name n) as [->|]; [|done].
    destruct (participant_of s n t); [done|]. cbn. unfold norm. cbn. by rewrite delete_empty.
  - pose proof (norm_own from sid name (ONote s part text) _ _ H) as Hn. unfold agrees. rewrite <- Hn.
    rewrite participant_note. cbn. rewrite (String.eqb_sym s sid). destruct (String.eqb sid s); [|done].
    by destruct (participant_of sid name t).
  - unfold agrees, forget, participant_of, session_of in *. cbn. destruct (String.eqb_spec s sid) as [->|Hs].
    + by rewrite lookup_delete_eq.
    + by rewrite lookup_delete_ne.
  - unfold agrees, setTaskNote in *. by destruct (String.eqb text "").
Qed.

Lemma agrees_execs from now sid name ops t p :
  timed from ops now → agrees from sid name t p →
  agrees now sid name (execs ops t) (fold_left (λ p o, own_step sid name o p) ops p).
Proof.
  revert from t p. induction ops as [|o ops IH]; intros from t p Ht H; cbn [execs fold_left timed] in *.
  - by eapply agrees_later.
  - assert (from ≤ clock_of from o ∧ timed (clock_of from o) ops now) as [H1 H2].
    { destruct o; cbn in *; first [exact Ht | split; [lia|exact Ht]]. }
    eapply IH; [exact H2|]. by apply agrees_exec.
Qed.

(** The server tells of a participant's queue and of the message it
    answers exactly what that participant's own history says, forgetting what
    is a day old: whatever it drops of its memory meanwhile, and whatever the
    other participants and sessions do, and in any order. *)
Theorem turns_exact sid name ops now :
  timed 0 ops now →
  queued now sid name (execs ops noTurns) = count_recent now (pending_ (own_history sid name ops)) ∧
  current_ now sid name (execs ops noTurns) = current_of now (own_history sid name ops).
Proof.
  intros Ht.
  assert (agrees now sid name (execs ops noTurns) (own_history sid name ops)) as H.
  { eapply agrees_execs; [exact Ht|]. unfold agrees, participant_of, session_of. cbn. by rewrite !lookup_empty. }
  unfold agrees, norm in H. injection H as Hp Hw. split.
  - unfold queued, count_recent. rewrite <- Hp. destruct (participant_of _ _ _); [done|]. cbn. unfold prune_pending.
    by rewrite map_filter_empty.
  - unfold current_, current_of. destruct (participant_of sid name (execs ops noTurns)) as [p|]; cbn in *;
      destruct (working_ (own_history sid name ops)), (recent_ now (at_time (own_history sid name ops))); cbn in *; try done;
      destruct (working_ p), (recent_ now (at_time p)); cbn in *; try done. by injection Hw as -> _ _.
Qed.

Definition demo_turns : list op :=
  [OExpect 10 "s1" "jarvis" 1; OExpect 11 "s1" "jarvis" 2; OExpect 11 "s2" "jarvis" 3;
   OSet 12 "s1" true (mkTurnEvent "jarvis" "Jarvis" "m1.jarvis" "u1" "Alice")].

Lemma turns_exact_witness :
  queued 20 "s1" "jarvis" (execs demo_turns noTurns) = 1 ∧ current_ 20 "s1" "jarvis" (execs demo_turns noTurns) = 1.
Proof.
  destruct (turns_exact "s1" "jarvis" demo_turns 20 ltac:(vm_compute; repeat split; discriminate)) as [H1 H2].
  split; [rewrite H1|rewrite H2]; vm_compute; reflexivity.
Defined.

(** ** A run's events, as the server gets them *)

(** The turn events a run sends, in order. *)
Definition told_one (e : effect) : list (bool * TurnEvent) :=
  match e with
  | TurnTold ev e =>
      if String.eqb ev EventTurnStarted then [(true, e)] else if String.eqb ev EventTurnDone then [(false, e)] else []
  | _ => []
  end.
Definition told_events (tr : list effect) : list (bool * TurnEvent) := tr ≫= told_one.

(** The server hears them, at some times. *)
Definition hear (sid : string) (events : list (time * (bool * TurnEvent))) (t : turns) : turns :=
  fold_left (λ t x, set x.1 sid x.2.1 x.2.2 t) events t.

(** The turn the members were told started, and not yet done. *)
Fixpoint started_turn (φ : phase) : option string :=
  match φ with
  | Dropping _ back | Dropped_ _ back => started_turn back
  | Begun k | Live k _ | Back k _ | Rewritten k _ | Ended k _ | RelayFailed k _ => Some k
  | _ => None
  end.

(** A turn of [agent], of a message with an ID that fits. *)
Definition turn_of_agent (agent k : string) : Prop := ∃ id, 0 < id ≤ int64_max ∧ k = TurnKey id agent.

(** What the server knows of the participant in a phase: it works only on the
    turn told, and no message in [gone] waits. *)
Definition heard (sid agent : string) (φ : phase) (gone : list string) (t : turns) : Prop :=
  ∀ p, participant_of sid agent t = Some p →
    (working_ p = true → started_turn φ = Some (EvTurn (event p))) ∧
    ∀ k id, k ∈ gone → TurnAnchor k = Some id → pending_ p !! id = None.

Lemma heard_prune sid agent φ gone now t : heard sid agent φ gone t → heard sid agent φ gone (prune now t).
Proof.
  intros H p. rewrite participant_prune. destruct (participant_of sid agent t) as [q|] eqn:E; [|done]. cbn.
  unfold prune_one. destruct (_ && _); [done|]. intros [= <-]. destruct (H q E) as [H1 H2]. split; [done|].
  intros k id Hk Ha. cbn. unfold prune_pending. apply map_lookup_filter_None. left. by eapply H2.
Qed.

Lemma turn_of_agent_parts agent k :
  valid_participant agent = true → turn_of_agent agent k → TurnParticipant k = agent ∧ is_Some (TurnAnchor k).
Proof.
  intros Hv (id & Hid & ->). unfold TurnParticipant, TurnAnchor. rewrite parseTurn_TurnKey_aux by (done || lia). done.
Qed.

(** The participant's own state after an event of its turn [k]. *)
Lemma heard_set sid agent φ ψ gone now started e t :
  valid_participant agent = true → turn_of_agent agent (EvTurn e) → heard sid agent φ gone t →
  (∀ p, (working_ p = true → started_turn φ = Some (EvTurn (event p))) →
     working_ (set_participant now started e p) = true →
     started_turn ψ = Some (EvTurn (event (set_participant now started e p)))) →
  heard sid agent ψ (gone ++ [EvTurn e]) (set now sid started e t).
Proof.
  intros Hv Hk H Hw. destruct (turn_of_agent_parts _ _ Hv Hk) as [Hp [a Ha]].
  assert (event_participant e = agent) as He.
  { unfold event_participant. rewrite Hp. unfold cmp_or. apply valid_participant_spec in Hv as (Hne & _).
    by destruct (String.eqb_spec agent ""). }
  apply (heard_prune _ _ _ _ now) in H. intros p. unfold set. rewrite participant_on, He, !String.eqb_refl. cbn [andb].
  intros [= <-]. set (q := default newTurns (participant_of sid agent (prune now t))).
  assert ((working_ q = true → started_turn φ = Some (EvTurn (event q))) ∧
          ∀ k id, k ∈ gone → TurnAnchor k = Some id → pending_ q !! id = None) as [H1 H2].
  { subst q. destruct (participant_of sid agent (prune now t)) as [q|] eqn:E; [by apply H|]. cbn. split; [done|]. intros. apply lookup_empty. }
  split; [by apply Hw|]. intros k id Hin Hid.
  assert (pending_ (set_participant now started e q) = delete (event_message e) (pending_ q)) as ->.
  { unfold set_participant. destruct started; [done|]. by destruct (negb (working_ q) || String.eqb (EvTurn (event q)) (EvTurn e)). }
  apply elem_of_app in Hin as [Hin| ->%list_elem_of_singleton].
  - apply lookup_delete_None. right. by eapply H2.
  - unfold event_message. rewrite Hid. cbn. apply lookup_delete_eq.
Qed.

Lemma heard_less sid agent φ gone more t : heard sid agent φ (gone ++ more) t → heard sid agent φ gone t.
Proof. intros H p E. destruct (H p E) as [H1 H2]. split; [done|]. intros k id Hk. apply H2. apply elem_of_app. by left. Qed.

(** A turn event. *)
Lemma heard_told sid agent φ ev e ψ gone t l :
  valid_participant agent = true → protocol agent φ (TurnTold ev e) = Some ψ → Forall (turn_of_agent agent) (pending φ) →
  l.*2 = told_one (TurnTold ev e) → heard sid agent φ gone t →
  heard sid agent ψ (gone ++ done_one (TurnTold ev e)) (hear sid l t).
Proof.
  intros Hv H Hp Hl Hh. cbn [protocol] in H.
  destruct φ as [|k back|k back|k|k|k|k|k|k c|k r|k r|k r|k nx]; try discriminate H;
    apply when_some in H as [H <-]; bool_to_prop; subst ev k; cbn [pending] in Hp; apply Forall_cons in Hp as [Hp _];
    cbn in Hl |- *; destruct l as [|[now y] [|]]; try discriminate Hl; injection Hl as ->; cbn; rewrite ?app_nil_r.
  3: apply (heard_less _ _ _ _ [EvTurn e]).
  all: apply (heard_set _ _ _ _ _ _ _ _ _ Hv Hp Hh); intros p Hp'; unfold set_participant; cbn; try done.
  all: destruct (working_ p) eqn:W; cbn; [|done]; specialize (Hp' eq_refl); cbn in Hp'; try discriminate Hp'.
  - destruct (String.eqb _ _); cbn; [done|]. by rewrite Hp'.
  - injection Hp' as ->. by rewrite String.eqb_refl.
Qed.

Lemma heard_step sid agent φ e ψ gone t l :
  valid_participant agent = true → protocol agent φ e = Some ψ → Forall (turn_of_agent agent) (pending φ) →
  l.*2 = told_one e → heard sid agent φ gone t → heard sid agent ψ (gone ++ done_one e) (hear sid l t).
Proof.
  intros Hv H Hp Hl Hh. destruct e; try (by eapply heard_told);
    (apply fmap_nil_inv in Hl; subst l; cbn [done_one hear fold_left]; rewrite app_nil_r; intros p E; destruct (Hh p E) as [H1 H2];
     split; [|done]; intros W; specialize (H1 W); rewrite <- H1; clear -H H1; cbn [protocol] in H;
     repeat match type of H with
     | context [match ?x with _ => _ end] => is_var x; destruct x; try discriminate H
     end; try (apply when_some in H as [H ?]); try (injection H as <-); bool_to_prop; subst; cbn in *; try done;
     repeat split_match; done).
Qed.

Lemma heard_all sid agent φ tr ψ gone t events :
  valid_participant agent = true → protocol_all agent φ tr = Some ψ →
  Forall (turn_of_agent agent) (pending φ ++ asked agent tr) →
  events.*2 = told_events tr → heard sid agent φ gone t → heard sid agent ψ (gone ++ told_done tr) (hear sid events t).
Proof.
  intros Hv. revert φ gone t events. induction tr as [|e tr IH]; intros φ gone t events H Hp He Hh.
  - injection H as <-. apply fmap_nil_inv in He. subst events. by rewrite app_nil_r.
  - apply protocol_all_cons in H as (χ & H & Hr). unfold told_events in He. cbn in He.
    apply fmap_app_inv in He as (l1 & l2 & H1 & H2 & ->). unfold hear. rewrite fold_left_app. fold (hear sid l1 t).
    unfold told_done. cbn. rewrite app_assoc. pose proof (protocol_pending _ _ _ _ H) as Hperm.
    assert (Forall (turn_of_agent agent) (done_one e ++ pending χ) ∧ Forall (turn_of_agent agent) (asked agent tr) ∧
            Forall (turn_of_agent agent) (pending φ)) as (Hd & Ha & Hφ).
    { unfold asked in Hp. cbn in Hp. rewrite app_assoc in Hp. apply Forall_app in Hp as [Hp Ha]. rewrite <- Hperm. split; [done|].
      split; [done|]. by apply Forall_app in Hp as [Hp _]. }
    apply (IH χ); [done| |done|].
    + apply Forall_app in Hd as [_ Hd]. by apply Forall_app.
    + by apply (heard_step _ _ φ).
Qed.

(** The server counts a participant out with its run: whatever the run
    does, once its turn events were all heard, at whatever times, the server
    does not take the participant for working, and none of the messages it
    answered or dropped is still waiting for the server. *)
Theorem run_counted_out env in_ sigs fuel sid t events :
  let tr := trace (snd (ParticipantWorkflow env in_ sigs fuel)) in
  valid_participant (InAgentID in_) = true →
  Forall (λ x, MessageID x ≤ int64_max) (moved tr) →
  (∀ p, participant_of sid (InAgentID in_) t = Some p → working_ p = false) →
  events.*2 = told_events tr →
  ∀ p, participant_of sid (InAgentID in_) (hear sid events t) = Some p →
    working_ p = false ∧ ∀ x, x ∈ moved tr → has_id x = true → pending_ p !! MessageID x = None.
Proof.
  cbn zeta. intros Hv Hm Ht He p Hp.
  assert (protocol_all (InAgentID in_) Idle (trace (snd (ParticipantWorkflow env in_ sigs fuel))) = Some Idle) as H
    by (apply at_run; by apply at_deliver_all).
  revert H Hm He. generalize (trace (snd (ParticipantWorkflow env in_ sigs fuel))) as tr. intros tr H Hm He.
  assert (told_done tr ≡ₚ key_of (InAgentID in_) <$> List.filter has_id (moved tr)) as Hd.
  { pose proof (protocol_all_pending _ _ _ _ H) as Hd. rewrite asked_moved in Hd. cbn in Hd. by rewrite Hd, app_nil_r. }
  assert (heard sid (InAgentID in_) Idle ([] ++ told_done tr) (hear sid events t)) as Hh.
  { apply (heard_all _ _ _ _ _ _ _ _ Hv H); try done; [|intros q Hq; split; [by rewrite (Ht q Hq)|]; by intros k id Hk%not_elem_of_nil]. 
    cbn. rewrite asked_moved. apply Forall_fmap, Forall_forall. intros x Hx. rewrite elem_filter in Hx. destruct Hx as [Hx Hi].
    exists (MessageID x). split; [|done]. rewrite Forall_forall in Hm. apply Hm in Hx. unfold has_id in Hi. bool_to_prop. lia. }
  destruct (Hh p Hp) as [H1 H2]. split.
  - destruct (working_ p); [|done]. by specialize (H1 eq_refl).
  - intros x Hx Hi. apply (H2 (key_of (InAgentID in_) x)).
    + cbn. rewrite Hd. apply list_elem_of_fmap. exists x. by rewrite elem_filter.
    + unfold has_id in Hi. rewrite Forall_forall in Hm. apply Hm in Hx. bool_to_prop. unfold TurnAnchor, key_of.
      by rewrite parseTurn_TurnKey_aux by (done || lia).
Qed.

(** Two messages answered, the events heard a second apart; one message had
    been delivered by this server. *)
Definition demo_run : World :=
  snd (ParticipantWorkflow (demo_env (λ _, [])) demo_input [SigMessage (demo_message 1 []); SigMessage (demo_message 2 [])] 5).

Definition demo_heard : list (time * (bool * TurnEvent)) :=
  zip [20; 21; 22; 23] (told_events (trace demo_run)).

Lemma run_counted_out_witness :
  current_ 30 "s1" "jarvis" (hear "s1" demo_heard (expect 10 "s1" "jarvis" 2 noTurns)) = 0 ∧
  ∀ p, participant_of "s1" "jarvis" (hear "s1" demo_heard (expect 10 "s1" "jarvis" 2 noTurns)) = Some p →
    working_ p = false ∧
    ∀ x, x ∈ moved (trace (snd (ParticipantWorkflow (demo_env (λ _, [])) demo_input
                              [SigMessage (demo_message 1 []); SigMessage (demo_message 2 [])] 5))) →
      has_id x = true → pending_ p !! MessageID x = None.
Proof.
  split; [vm_compute; reflexivity|].
  refine (run_counted_out (demo_env (λ _, [])) demo_input [SigMessage (demo_message 1 []); SigMessage (demo_message 2 [])] 5
    "s1" (expect 10 "s1" "jarvis" 2 noTurns) demo_heard _ _ _ _).
  - reflexivity.
  - match goal with |- Forall _ ?l => assert (l = [demo_message 1 []; demo_message 2 []]) as -> by (vm_compute; reflexivity) end.
    repeat constructor; cbn; unfold int64_max; lia.
  - intros p H. assert (participant_of "s1" "jarvis" (expect 10 "s1" "jarvis" 2 noTurns) = Some (mkPT false noEvent 0 "" {[2 := 10]})) as E
      by (vm_compute; reflexivity).
    cbn [demo_input InAgentID] in H. rewrite E in H. by injection H as <-.
  - vm_compute. reflexivity.
Defined.

(** ** The snapshot *)

Lemma known_names now sid running t :
  VName <$> ((λ kv, view_of now running kv.1 kv.2) <$> map_to_list (session_of sid t)) = (map_to_list (session_of sid t)).*1.
Proof.
  rewrite <- list_fmap_compose. apply list_fmap_ext. intros i [n p] _. cbn. unfold view_of. by destruct (_ && _).
Qed.

Lemma snapshot_perm now sid running t :
  snapshot now sid running t ≡ₚ
    ((λ kv, view_of now running kv.1 kv.2) <$> map_to_list (session_of sid t)) ++
    (unknown_view <$> List.filter (λ name, negb (bool_decide (is_Some (session_of sid t !! name)))) running).
Proof. apply sort_stable_perm. Qed.

(** The snapshot of a session has each of its participants once: those the
    events told of and those seen running, and no other. One the events told of
    is shown at work only when its last event is the start of a turn, or when
    it is seen running with messages waiting and that event is no longer
    trusted; so a participant told done, with nothing given it since, is not,
    whatever the queries list. *)
Theorem snapshot_exact now sid running t :
  NoDup running →
  let l := snapshot now sid running t in
  NoDup (VName <$> l) ∧
  (∀ n, n ∈ VName <$> l ↔ is_Some (session_of sid t !! n) ∨ n ∈ running) ∧
  ∀ v p, v ∈ l → session_of sid t !! VName v = Some p → VWorking v = true →
    working_ p = true ∨ (VName v ∈ running ∧ pending_ p ≠ ∅ ∧ trusted_ now p = false).
Proof.
  intros Hr. cbn zeta.
  assert (VName <$> snapshot now sid running t ≡ₚ (map_to_list (session_of sid t)).*1 ++
            List.filter (λ name, negb (bool_decide (is_Some (session_of sid t !! name)))) running) as Hn.
  { rewrite snapshot_perm, fmap_app, known_names, <- list_fmap_compose.
    by rewrite (list_fmap_ext (VName ∘ unknown_view) id), list_fmap_id by done. }
  assert (∀ n, n ∈ (map_to_list (session_of sid t)).*1 ↔ is_Some (session_of sid t !! n)) as Hk.
  { intros n. rewrite list_elem_of_fmap. split.
    - intros ([n' p] & -> & Hp%elem_of_map_to_list). by exists p.
    - intros [p Hp]. exists (n, p). by rewrite elem_of_map_to_list. }
  split_and!.
  - rewrite Hn. apply NoDup_app. split_and!; [apply NoDup_fst_map_to_list| |].
    + intros n Hin%Hk Hin'. rewrite elem_filter in Hin'. destruct Hin' as [_ Hb]. bool_to_prop. done.
    + clear Hn. induction Hr as [|n running Hx Hr IH]; cbn; [constructor|].
      destruct (negb _); [|done]. constructor; [|done]. rewrite elem_filter. tauto.
  - intros n. rewrite Hn, elem_of_app, Hk, elem_filter, negb_true_iff, bool_decide_eq_false.
    destruct (decide (is_Some (session_of sid t !! n))); tauto.
  - intros v p Hv Hp Hw. rewrite snapshot_perm in Hv. apply elem_of_app in Hv as [Hv|Hv].
    + apply list_elem_of_fmap in Hv as ([n q] & -> & Hq%elem_of_map_to_list). cbn in *.
      assert (VName (view_of now running n q) = n ∧ VWorking (view_of now running n q) = works now (contains running n) q) as [En Ew]
        by (unfold view_of; by destruct (_ && _)).
      rewrite En in *. rewrite Ew in Hw. assert (p = q) as -> by congruence. unfold works in Hw.
      destruct (trusted_ now q); [by left|]. apply andb_true_iff in Hw as [Hc Hw]. apply contains_spec in Hc.
      destruct (working_ q); [by left|right]. cbn in Hw. split; [done|]. split; [|done]. by bool_to_prop.
    + apply list_elem_of_fmap in Hv as (n & -> & Hin). rewrite elem_filter in Hin. destruct Hin as [_ Hb]. cbn in Hp.
      bool_to_prop. exfalso. apply Hb. by exists p.
Qed.

Lemma snapshot_exact_witness :
  NoDup ["jarvis"; "friday"] ∧
  (VName <$> snapshot (100 * second) "s1" ["jarvis"; "friday"] (execs demo_turns noTurns) = ["friday"; "jarvis"]) ∧
  NoDup (VName <$> snapshot (100 * second) "s1" ["jarvis"; "friday"] (execs demo_turns noTurns)).
Proof.
  assert (NoDup ["jarvis"; "friday"]) as H by (apply (bool_decide_unpack _); reflexivity).
  split; [exact H|]. split; [vm_compute; reflexivity|].
  exact (proj1 (snapshot_exact (100 * second) "s1" ["jarvis"; "friday"] (execs demo_turns noTurns) H)).
Defined.
