(* ===== verification/Stops.v ===== *)
(** * Who stops what (src/session/participants.go)

    The server's side of a stop: it reads what a participant answers (its
    state query), decides whether the user may stop it, and signals it. What
    Temporal answers to a query and to a signal, and what a session's ID looks
    like (google/uuid), are parameters. Dropping the cached statuses and the
    log lines are not modelled. *)

From S2P Require Import Prelude GoStr Keys Message Convert Participant.
Open Scope string_scope.
Open Scope Z_scope.
Open Scope list_scope.

(** What the stops read of a session and of a user. *)
Record SessionRow := mkSessionRow { SessionID : string; CreatedBy : string }.

Definition MayStop (sess : SessionRow) (authorID userID : string) : bool :=
  negb (String.eqb userID "") && (String.eqb (CreatedBy sess) userID || String.eqb authorID userID).

Definition MayClear (sess : SessionRow) (userID : string) : bool :=
  negb (String.eqb userID "") && String.eqb (CreatedBy sess) userID.

(** What Temporal answers: the participant's workflow not found, another
    error, or its answer. *)
Inductive Answer (A : Type) := NotFound | Failed_ (text : string) | Got (a : A).
Arguments NotFound {A}.
Arguments Failed_ {A} text.
Arguments Got {A} a.

(** A Temporal error, by the texts of its causes: the words the code puts before
    them are not modelled. *)
Inductive StopError := ErrNothingToStop | ErrTurnOver | ErrStopNotAllowed | ErrClearNotAllowed | ErrTemporal (texts : list string).

Section Stops.
Context (is_session_id : string → bool).
Context (queryState : string → Answer ParticipantState).
Context (signalWorkflow : string → Signal → Answer unit).

Definition participantID (sessionID participant : string) : option string :=
  if String.eqb participant "" || has_byte colon participant || negb (is_session_id sessionID) then None
  else Some (ParticipantWorkflowID sessionID participant).

(** [signalParticipant]: its error, and the signal it sent. *)
Definition signalParticipant (id : string) (s : Signal) : option StopError * list (string * Signal) :=
  (match signalWorkflow id s with
   | NotFound => Some ErrNothingToStop
   | Failed_ text => Some (ErrTemporal [text])
   | Got _ => None
   end, [(id, s)]).

(** The turn a stop names: the one read, or an error. *)
Definition stopKey (sess : SessionRow) (id turn me : string) : StopError + string :=
  let over := if String.eqb turn "" then ErrNothingToStop else ErrTurnOver in
  if negb (String.eqb turn "") || negb (String.eqb (CreatedBy sess) me) then
    match queryState id with
    | NotFound => inl over
    | Failed_ text => inl (ErrTemporal [text])
    | Got st =>
        match Current st with
        | None => inl over
        | Some c =>
            if negb (String.eqb turn "") && negb (String.eqb (CurTurn c) turn) then inl ErrTurnOver
            else if negb (MayStop sess (CurUserID c) me) then inl ErrStopNotAllowed
            else inr (CurTurn c)
        end
    end
  else inr turn.

Definition StopTurn (sess : SessionRow) (participant turn me : string) : option StopError * list (string * Signal) :=
  match participantID (SessionID sess) participant with
  | None => (Some ErrNothingToStop, [])
  | Some id =>
      match stopKey sess id turn me with
      | inl err => (Some err, [])
      | inr key =>
          let '(err, sent) := signalParticipant id (SigStop key) in
          (match err with
           | Some ErrNothingToStop => Some (if String.eqb turn "" then ErrNothingToStop else ErrTurnOver)
           | _ => err
           end, sent)
      end
  end.

Definition Clear (sess : SessionRow) (participant me : string) : option StopError * list (string * Signal) :=
  if negb (MayClear sess me) then (Some ErrClearNotAllowed, [])
  else
    match participantID (SessionID sess) participant with
    | None => (Some ErrNothingToStop, [])
    | Some id => signalParticipant id SigClear
    end.

(** [Cancel]'s reading of one participant: the stop to send it, or whether a
    turn of another's runs there. *)
Definition cancel_one (sess : SessionRow) (me id : string) : option string * bool :=
  match queryState id with
  | NotFound => (None, false)
  | Failed_ _ => if MayClear sess me then (Some "", false) else (None, true)
  | Got st =>
      match Current st with
      | None => (None, false)
      | Some c => if MayStop sess (CurUserID c) me then (Some (CurTurn c), false) else (None, true)
      end
  end.

(** The signals sent, how many stops went, and the errors of those that did
    not. *)
Fixpoint send_stops (stops : list (string * option string)) : list (string * Signal) * Z * list string :=
  match stops with
  | [] => ([], 0, [])
  | (_, None) :: stops => send_stops stops
  | (id, Some key) :: stops =>
      let '(err, sent) := signalParticipant id (SigStop key) in
      let '(more, stopped, errs) := send_stops stops in
      match err with
      | None => (sent ++ more, stopped + 1, errs)
      | Some (ErrTemporal texts) => (sent ++ more, stopped, texts ++ errs)
      | Some _ => (sent ++ more, stopped, errs)
      end
  end.

(** [Cancel], the session's participants being [ids] ([participants]). *)
Definition Cancel (sess : SessionRow) (ids : list string) (me : string) : option StopError * list (string * Signal) :=
  let read := (λ id, (id, cancel_one sess me id)) <$> ids in
  let '(sent, stopped, errs) := send_stops ((λ r, (fst r, fst (snd r))) <$> read) in
  let others := length (List.filter (λ r, snd (snd r)) read) in
  (if 0 <? stopped then None
   else match errs with
        | _ :: _ => Some (ErrTemporal errs)
        | [] => if (0 <? others)%nat then Some ErrStopNotAllowed else Some ErrNothingToStop
        end, sent).

(** ** Every signal is one the user may send *)

(** A signal [me] may send a participant: the session's creator, any; another
    user, a stop that names the turn the participant said it runs, which
    answers that user's message. Nobody sends any without being known. *)
Definition may_send (sess : SessionRow) (me : string) (sent : string * Signal) : Prop :=
  me ≠ "" ∧
  match snd sent with
  | SigMessage _ => False
  | SigClear => CreatedBy sess = me
  | SigStop key =>
      CreatedBy sess = me ∨
      ∃ st c, queryState (fst sent) = Got st ∧ Current st = Some c ∧ CurTurn c = key ∧ CurUserID c = me
  end.

Lemma MayStop_spec sess author me :
  MayStop sess author me = true ↔ me ≠ "" ∧ (CreatedBy sess = me ∨ author = me).
Proof. unfold MayStop. rewrite andb_true_iff, negb_true_iff, String.eqb_neq, orb_true_iff, !String.eqb_eq. done. Qed.

Lemma MayClear_spec sess me : MayClear sess me = true ↔ me ≠ "" ∧ CreatedBy sess = me.
Proof. unfold MayClear. rewrite andb_true_iff, negb_true_iff, String.eqb_neq, String.eqb_eq. done. Qed.

Lemma send_stops_sent stops : fst (fst (send_stops stops)) = stops ≫= λ s, match snd s with Some key => [(fst s, SigStop key)] | None => [] end.
Proof.
  induction stops as [|[id [key|]] stops IH]; [done| |done]. cbn. rewrite <- IH.
  destruct (send_stops stops) as [[more stopped] errs]. by destruct (signalWorkflow id (SigStop key)).
Qed.

Lemma cancel_one_may sess me id key : cancel_one sess me id = (Some key, false) → may_send sess me (id, SigStop key).
Proof.
  unfold cancel_one, may_send. cbn. destruct (queryState id) as [|text|st] eqn:Q; [discriminate| |].
  - destruct (MayClear sess me) eqn:E; [|discriminate]. apply MayClear_spec in E. naive_solver.
  - destruct (Current st) as [c|] eqn:E; [|discriminate]. destruct (MayStop sess (CurUserID c) me) eqn:M; [|discriminate].
    apply MayStop_spec in M. intros [= <-]. naive_solver.
Qed.

Lemma cancel_one_stop sess me id key others : cancel_one sess me id = (Some key, others) → others = false.
Proof. unfold cancel_one. by repeat split_match; intros [= <- <-]. Qed.

(** A user stops only the turns they may: whatever a member asks (a stop
    of one participant's turn, a clear of its messages, a stop of the whole
    session), each signal sent for the session's creator may be any, and each
    one sent for another user names the turn that answers a message of theirs,
    as the participant itself said just before; none clears. *)
Theorem stops_only_ones_own sess participant turn ids me :
  me ≠ "" →
  Forall (may_send sess me)
    (snd (StopTurn sess participant turn me) ++ snd (Clear sess participant me) ++ snd (Cancel sess ids me)).
Proof.
  intros Hme. rewrite !Forall_app. split_and!.
  - unfold StopTurn. destruct (participantID _ _) as [id|]; [|constructor].
    destruct (stopKey sess id turn me) as [|key] eqn:E; [constructor|]. cbn. apply Forall_singleton.
    unfold may_send. cbn. split; [done|]. unfold stopKey in E.
    destruct (negb (String.eqb turn "") || negb (String.eqb (CreatedBy sess) me)) eqn:B.
    + destruct (queryState id) as [|text|st] eqn:Q; try discriminate. destruct (Current st) as [c|] eqn:C; [|discriminate].
      destruct (negb (String.eqb turn "") && _); [discriminate|].
      destruct (MayStop sess (CurUserID c) me) eqn:M; [|discriminate]. apply MayStop_spec in M. injection E as <-. naive_solver.
    + left. bool_to_prop. done.
  - unfold Clear. destruct (MayClear sess me) eqn:E; [|constructor]. apply MayClear_spec in E as [_ E].
    destruct (participantID _ _); [|constructor]. by apply Forall_singleton.
  - unfold Cancel. set (read := _ <$> ids). pose proof (send_stops_sent ((λ r, (fst r, fst (snd r))) <$> read)) as Hs.
    destruct (send_stops _) as [[sent stopped] errs]. cbn [fst snd] in *. subst sent read.
    induction ids as [|id ids IH]; [constructor|]. cbn.
    destruct (cancel_one sess me id) as [[key|] others] eqn:E; cbn; [|apply IH]. constructor; [|apply IH].
    pose proof (cancel_one_stop _ _ _ _ _ E) as ->. by apply cancel_one_may.
Qed.
End Stops.

(** A participant answering Alice's message: Alice stops it, Bob does not. *)
Definition demo_query (id : string) : Answer ParticipantState :=
  if String.eqb id "s1:p:jarvis" then Got (mkState (Some (mkCurrent 1 "m1.jarvis" "alice" "Alice" 5)) 0) else NotFound.

Lemma stops_only_ones_own_witness :
  "bob" ≠ "" ∧
  Cancel demo_query (λ _ _, Got tt) (mkSessionRow "s1" "carol") ["s1:p:jarvis"] "bob" = (Some ErrStopNotAllowed, []) ∧
  StopTurn (λ _, true) demo_query (λ _ _, Got tt) (mkSessionRow "s1" "carol") "jarvis" "m1.jarvis" "alice" =
    (None, [("s1:p:jarvis", SigStop "m1.jarvis")]) ∧
  Forall (may_send demo_query (mkSessionRow "s1" "carol") "alice")
    (snd (StopTurn (λ _, true) demo_query (λ _ _, Got tt) (mkSessionRow "s1" "carol") "jarvis" "m1.jarvis" "alice") ++
     snd (Clear (λ _, true) (λ _ _, Got tt) (mkSessionRow "s1" "carol") "jarvis" "alice") ++
     snd (Cancel demo_query (λ _ _, Got tt) (mkSessionRow "s1" "carol") ["s1:p:jarvis"] "alice")).
Proof.
  split; [discriminate|]. split; [vm_compute; reflexivity|]. split; [vm_compute; reflexivity|].
  apply (stops_only_ones_own (λ _, true) demo_query (λ _ _, Got tt) (mkSessionRow "s1" "carol") "jarvis" "m1.jarvis" ["s1:p:jarvis"] "alice").
  discriminate.
Defined.
