(* ===== verification/Table.v ===== *)
(** * Tables of rows under a unique key

    A table of the database is the list of its rows. Its primary key is the
    row's [Keyed] instance; [keys_ok] says that it is one. An UPDATE is
    [update_where] of its condition; its laws are stated once, for the updates
    that leave the key alone. *)

From S2P Require Import Prelude.
Open Scope Z_scope.
Open Scope list_scope.

Class Keyed (R : Type) := row_key : R → string.

(** A change of a row that leaves its key alone. *)
Class KeepsKey {R} `{Keyed R} (f : R → R) := keeps_key r : row_key (f r) = row_key r.

Section Table.
Context {R : Type} `{Keyed R}.
Implicit Types (t : list R) (r : R) (p : R → bool) (f : R → R).

Definition has_key (id : string) (r : R) : bool := String.eqb (row_key r) id.

(** [SELECT ... WHERE id = $1]. *)
Definition get (id : string) (t : list R) : option R := List.find (has_key id) t.

(** [UPDATE ... WHERE p], and how many rows it changed. *)
Definition update_where (p : R → bool) (f : R → R) (t : list R) : list R := map (λ r, if p r then f r else r) t.
Definition affected (p : R → bool) (t : list R) : nat := length (List.filter p t).

(** [SELECT COUNT] over the rows of a condition. *)
Definition count (p : R → bool) (t : list R) : Z := Z.of_nat (length (List.filter p t)).

Definition keys_ok (t : list R) : Prop := NoDup (row_key <$> t).

Lemma has_key_spec id r : has_key id r = true ↔ row_key r = id.
Proof. apply String.eqb_eq. Qed.

Lemma get_some id t r : get id t = Some r → r ∈ t ∧ row_key r = id.
Proof. intros [Hr Hk]%find_some. rewrite <- list_elem_of_In in Hr. by rewrite has_key_spec in Hk. Qed.

Lemma get_none id t : get id t = None ↔ id ∉ (row_key <$> t).
Proof.
  unfold get. split.
  - intros Hn Hin. apply list_elem_of_fmap in Hin as (r & -> & Hr). apply list_elem_of_In in Hr.
    apply (find_none _ _ Hn) in Hr. unfold has_key in Hr. by rewrite String.eqb_refl in Hr.
  - intros Hn. destruct (List.find _ _) as [r|] eqn:E; [|done]. apply get_some in E as [Hr <-].
    exfalso. apply Hn. by apply list_elem_of_fmap_2.
Qed.

Lemma keys_unique t r r' : keys_ok t → r ∈ t → r' ∈ t → row_key r = row_key r' → r = r'.
Proof.
  intros Hok Hr Hr' Hk. apply list_elem_of_lookup in Hr as [i Hi], Hr' as [j Hj].
  assert (i = j) as ->; [|congruence]. eapply NoDup_lookup; [exact Hok| |]; rewrite list_lookup_fmap; [by rewrite Hi|].
  rewrite Hj. cbn. by rewrite Hk.
Qed.

Lemma get_in t r : keys_ok t → r ∈ t → get (row_key r) t = Some r.
Proof.
  intros Hok Hr. destruct (get (row_key r) t) as [r'|] eqn:E.
  - apply get_some in E as [Hr' Hk]. f_equal. by eapply keys_unique.
  - apply get_none in E. exfalso. apply E. by apply list_elem_of_fmap_2.
Qed.

(** ** Updates *)

Lemma update_keys p f t : KeepsKey f → row_key <$> update_where p f t = row_key <$> t.
Proof.
  intros Hf. unfold update_where. induction t as [|r t IH]; [done|]. cbn. f_equal; [|exact IH].
  destruct (p r); [apply Hf|done].
Qed.

Lemma keys_update_ok p f t : KeepsKey f → keys_ok t → keys_ok (update_where p f t).
Proof. intros Hf. unfold keys_ok. by rewrite update_keys. Qed.

Lemma update_get p f t id : KeepsKey f → get id (update_where p f t) = (λ r, if p r then f r else r) <$> get id t.
Proof.
  intros Hf. unfold get, update_where. induction t as [|r t IH]; [done|]. cbn.
  assert (has_key id (if p r then f r else r) = has_key id r) as ->.
  { unfold has_key. destruct (p r); [by rewrite Hf|done]. }
  by destruct (has_key id r).
Qed.

Lemma update_elem p f t r' : r' ∈ update_where p f t ↔ ∃ r, r ∈ t ∧ r' = if p r then f r else r.
Proof. unfold update_where. rewrite list_elem_of_In, in_map_iff. setoid_rewrite list_elem_of_In. naive_solver. Qed.

(** An update of the row under a key, and no other. *)
Lemma update_id t id f : (∀ r, r ∈ t → row_key r ≠ id) → update_where (has_key id) f t = t.
Proof.
  intros Hn. unfold update_where. induction t as [|r t IH]; [done|]. cbn.
  destruct (has_key id r) eqn:E; [apply has_key_spec in E; exfalso; by apply (Hn r); [left|]|].
  f_equal. apply IH. intros x Hx. apply Hn. by right.
Qed.

(** ** Counts *)

Lemma count_update_le p q f t :
  (∀ r, r ∈ t → p r = true → q (f r) = true → q r = true) → count q (update_where p f t) ≤ count q t.
Proof.
  intros Hq. unfold count, update_where. induction t as [|r t IH]; [done|]. cbn.
  assert (∀ x, x ∈ t → p x = true → q (f x) = true → q x = true) as Ht by (intros x Hx; apply Hq; by right).
  specialize (IH Ht). destruct (p r) eqn:E; destruct (q (if p r then f r else r)) eqn:Q; rewrite E in Q; rewrite ?Q.
  - rewrite (Hq r) by (done || by left). cbn. lia.
  - destruct (q r); cbn; lia.
  - cbn. lia.
  - lia.
Qed.

Lemma count_app q t t' : count q (t ++ t') = count q t + count q t'.
Proof. unfold count. rewrite List.filter_app, length_app. lia. Qed.

Lemma count_le q q' t : (∀ r, r ∈ t → q r = true → q' r = true) → count q t ≤ count q' t.
Proof.
  intros Hq. unfold count. induction t as [|r t IH]; [done|]. cbn.
  assert (∀ x, x ∈ t → q x = true → q' x = true) as Ht by (intros x Hx; apply Hq; by right).
  specialize (IH Ht). destruct (q r) eqn:E; [rewrite (Hq r) by (done || by left); cbn; lia|]. destruct (q' r); cbn; lia.
Qed.

Lemma affected_spec p t : affected p t = 0%nat ↔ ∀ r, r ∈ t → p r = false.
Proof.
  unfold affected. rewrite length_zero_iff_nil, filter_existsb_nil, Forall_forall. done.
Qed.
End Table.

#[global] Hint Mode Keyed ! : typeclass_instances.
#[global] Arguments get : simpl never.
#[global] Arguments update_where : simpl never.
#[global] Arguments keys_ok : simpl never.

(** The rows under a condition have one of the keys of the table. *)
Lemma keys_filter {R} `{Keyed R} (p : R → bool) (t : list R) : keys_ok t → keys_ok (List.filter p t).
Proof.
  unfold keys_ok. induction t as [|r t IH]; [done|]. cbn. intros [Hn Ht]%NoDup_cons.
  destruct (p r); [|by apply IH]. cbn. constructor; [|by apply IH].
  intros Hin. apply Hn. apply list_elem_of_fmap in Hin as (x & Hx & Hin). rewrite elem_filter in Hin.
  apply list_elem_of_fmap. exists x. tauto.
Qed.

Lemma keys_snoc {R} `{Keyed R} (t : list R) (r : R) : keys_ok t → get (row_key r) t = None → keys_ok (t ++ [r]).
Proof.
  unfold keys_ok. intros Ht Hn%get_none. rewrite fmap_app. apply NoDup_app. split_and!; [done| |apply NoDup_singleton].
  intros x Hx Hx'%list_elem_of_singleton. by subst.
Qed.

Lemma get_snoc {R} `{Keyed R} (t : list R) (r : R) id :
  get id (t ++ [r]) = match get id t with Some x => Some x | None => if has_key id r then Some r else None end.
Proof. unfold get. induction t as [|x t IH]; [done|]. cbn. by destruct (has_key id x). Qed.

(** ** What an update keeps, and where it changes a row *)

Section Updates.
Context {R : Type} `{Keyed R}.
Implicit Types (t : list R).

Lemma update_all (P : R → Prop) p f t :
  (∀ r, r ∈ t → P r) → (∀ r, r ∈ t → p r = true → P r → P (f r)) → ∀ r, r ∈ update_where p f t → P r.
Proof. intros Ht Hf r (x & Hx & ->)%update_elem. destruct (p x) eqn:E; auto. Qed.

Lemma update_fmap {A} (g : R → A) p f t : (∀ r, g (f r) = g r) → g <$> update_where p f t = g <$> t.
Proof.
  intros Hg. unfold update_where. induction t as [|r t IH]; [done|]. cbn. f_equal; [|exact IH]. destruct (p r); [apply Hg|done].
Qed.

Lemma update_ext p q f t : (∀ r, r ∈ t → p r = q r) → update_where p f t = update_where q f t.
Proof.
  intros Hpq. unfold update_where. apply map_ext_in. intros r Hr. rewrite <- list_elem_of_In in Hr. by rewrite Hpq.
Qed.

Lemma update_off p f t : (∀ r, r ∈ t → p r = false) → update_where p f t = t.
Proof.
  intros Hp. unfold update_where. rewrite <- (map_id t) at 2. apply map_ext_in. intros r Hr. rewrite <- list_elem_of_In in Hr.
  by rewrite Hp.
Qed.

(** The row under a key, and those around it. *)
Lemma update_split t id r :
  keys_ok t → get id t = Some r →
  ∃ l1 l2, t = l1 ++ r :: l2 ∧ ∀ f, update_where (has_key id) f t = l1 ++ f r :: l2.
Proof.
  intros Hok Hg. apply get_some in Hg as [Hr Hk]. apply list_elem_of_split in Hr as (l1 & l2 & ->).
  exists l1, l2. split; [done|]. intros f. unfold keys_ok in Hok. rewrite fmap_app, fmap_cons in Hok.
  apply NoDup_app in Hok as (_ & Hd & [Hn _]%NoDup_cons).
  assert (∀ l, (∀ x, x ∈ l → row_key x ≠ id) → update_where (has_key id) f l = l) as Hoff.
  { intros l Hl. apply update_off. intros x Hx. unfold has_key. apply String.eqb_neq. by apply Hl. }
  unfold update_where. rewrite map_app. cbn. change (map _ l1) with (update_where (has_key id) f l1).
  change (map _ l2) with (update_where (has_key id) f l2). rewrite !Hoff.
  - assert (has_key id r = true) as -> by by apply has_key_spec. done.
  - intros x Hx E. apply Hn. rewrite Hk, <- E. by apply list_elem_of_fmap_2.
  - intros x Hx E. apply (Hd id); [rewrite <- E; by apply list_elem_of_fmap_2|]. rewrite <- Hk. by left.
Qed.
End Updates.

Lemma elem_snoc {A} (l : list A) (y x : A) : x ∈ l ++ [y] ↔ x ∈ l ∨ x = y.
Proof. by rewrite elem_of_app, list_elem_of_singleton. Qed.
