(* ===== verification/MachineData.v ===== *)
(** * Machines, their enrollments and directives: the data (src/store/machine.go)

    The four tables, as lists of rows under their keys (Table.v), and the rows'
    updates. A nil or NULL time is [None]; a NULL token is [None], and reading
    one gives the empty string, as COALESCE does. JSON columns are kept as their
    text. The users' table is not here: a user's deletion is not modelled, and
    a row's user is not checked to exist. *)

From S2P Require Import Prelude GoStr Table.
Open Scope string_scope.
Open Scope Z_scope.
Open Scope list_scope.

(** ** Machines *)

Record Machine := mkMachine {
  ID : string;
  UserID : string;
  Name : string;
  OS : string;
  Capabilities : list string;
  MaxDirectives : Z;
  Priority : Z;
  Paused : bool;
  AgentVersion : string;
  ConnectedTo : string;
  LastAddr : string;
  CreatedAt : time;
  SeenAt : option time;
  RevokedAt : option time;
  RevokedReason : string;
  ClaudeCode : string;
  MaxLLM : Z;
  LLMProvider : string;
  LLMModel : string;
  LLMState : string;
  ConnectedAt : option time;
  AsideAt : option time
}.

Definition after (t : option time) (since : time) : bool := match t with Some x => since <? x | None => false end.

Definition Online (since : time) (m : Machine) : bool :=
  negb (String.eqb (ConnectedTo m) "") && is_none (RevokedAt m) && after (SeenAt m) since.

Definition AsideForLLM (since : time) (m : Machine) : bool :=
  match AsideAt m with
  | None => false
  | Some aside => (since <? aside) && negb (after (ConnectedAt m) aside)
  end.

Definition Can (capability : string) (m : Machine) : bool := contains (Capabilities m) capability.

Definition CanAll (capabilities : list string) (m : Machine) : bool := forallb (λ c, Can c m) capabilities.

Record MachineInfo := mkInfo {
  InfoName : string;
  InfoOS : string;
  InfoCapabilities : list string;
  InfoMaxDirectives : Z;
  InfoAgentVersion : string;
  InfoClaudeCode : string;
  InfoMaxLLM : Z;
  InfoLLMProvider : string;
  InfoLLMModel : string;
  InfoLLMState : string
}.

(** A row of [machines]: the machine, its token's hash and the one it
    replaces. *)
Record MachineRow := mkMachineRow { mach : Machine; token_hash : option string; prev_token_hash : option string }.

#[export] Instance machine_keyed : Keyed MachineRow := λ r, ID (mach r).

Definition revoked (r : MachineRow) : bool := negb (is_none (RevokedAt (mach r))).

(** COALESCE(x, '') and NULLIF(x, ''). *)
Definition coalesce (x : option string) : string := default "" x.
Definition nullif (x : string) : option string := if String.eqb x "" then None else Some x.

(** ** Updates of a machine *)

Definition set_connected (now : time) (gateway addr : string) (hello : MachineInfo) (m : Machine) : Machine :=
  mkMachine (ID m) (UserID m) (Name m) (InfoOS hello) (InfoCapabilities hello) (Z.max (InfoMaxDirectives hello) 1)
    (Priority m) (Paused m) (InfoAgentVersion hello) gateway (if String.eqb addr "" then LastAddr m else addr)
    (CreatedAt m) (Some now) (RevokedAt m) (RevokedReason m) (InfoClaudeCode hello) (Z.max (InfoMaxLLM hello) 0)
    (InfoLLMProvider hello) (InfoLLMModel hello) (InfoLLMState hello) (Some now) (AsideAt m).

Definition set_status (capabilities : list string) (claudeCode llmState : string) (m : Machine) : Machine :=
  mkMachine (ID m) (UserID m) (Name m) (OS m) capabilities (MaxDirectives m) (Priority m) (Paused m) (AgentVersion m)
    (ConnectedTo m) (LastAddr m) (CreatedAt m) (SeenAt m) (RevokedAt m) (RevokedReason m) claudeCode (MaxLLM m)
    (LLMProvider m) (LLMModel m) llmState (ConnectedAt m) (AsideAt m).

Definition set_aside (at_ : option time) (m : Machine) : Machine :=
  mkMachine (ID m) (UserID m) (Name m) (OS m) (Capabilities m) (MaxDirectives m) (Priority m) (Paused m) (AgentVersion m)
    (ConnectedTo m) (LastAddr m) (CreatedAt m) (SeenAt m) (RevokedAt m) (RevokedReason m) (ClaudeCode m)
    (MaxLLM m) (LLMProvider m) (LLMModel m) (LLMState m) (ConnectedAt m) at_.

Definition set_paused (paused : bool) (m : Machine) : Machine :=
  mkMachine (ID m) (UserID m) (Name m) (OS m) (Capabilities m) (MaxDirectives m) (Priority m) paused (AgentVersion m)
    (ConnectedTo m) (LastAddr m) (CreatedAt m) (SeenAt m) (RevokedAt m) (RevokedReason m) (ClaudeCode m)
    (MaxLLM m) (LLMProvider m) (LLMModel m) (LLMState m) (ConnectedAt m) (AsideAt m).

Definition set_priority (priority : Z) (m : Machine) : Machine :=
  mkMachine (ID m) (UserID m) (Name m) (OS m) (Capabilities m) (MaxDirectives m) priority (Paused m) (AgentVersion m)
    (ConnectedTo m) (LastAddr m) (CreatedAt m) (SeenAt m) (RevokedAt m) (RevokedReason m) (ClaudeCode m)
    (MaxLLM m) (LLMProvider m) (LLMModel m) (LLMState m) (ConnectedAt m) (AsideAt m).

Definition set_connection (gateway : string) (m : Machine) : Machine :=
  mkMachine (ID m) (UserID m) (Name m) (OS m) (Capabilities m) (MaxDirectives m) (Priority m) (Paused m) (AgentVersion m)
    gateway (LastAddr m) (CreatedAt m) (SeenAt m) (RevokedAt m) (RevokedReason m) (ClaudeCode m) (MaxLLM m)
    (LLMProvider m) (LLMModel m) (LLMState m) (ConnectedAt m) (AsideAt m).

Definition set_seen (now : time) (m : Machine) : Machine :=
  mkMachine (ID m) (UserID m) (Name m) (OS m) (Capabilities m) (MaxDirectives m) (Priority m) (Paused m) (AgentVersion m)
    (ConnectedTo m) (LastAddr m) (CreatedAt m) (Some now) (RevokedAt m) (RevokedReason m) (ClaudeCode m)
    (MaxLLM m) (LLMProvider m) (LLMModel m) (LLMState m) (ConnectedAt m) (AsideAt m).

Definition set_revoked (now : time) (reason : string) (m : Machine) : Machine :=
  mkMachine (ID m) (UserID m) (Name m) (OS m) (Capabilities m) (MaxDirectives m) (Priority m) (Paused m) (AgentVersion m)
    "" (LastAddr m) (CreatedAt m) (SeenAt m) (Some now) reason (ClaudeCode m) (MaxLLM m) (LLMProvider m)
    (LLMModel m) (LLMState m) (ConnectedAt m) (AsideAt m).

Definition on_machine (f : Machine → Machine) (r : MachineRow) : MachineRow :=
  mkMachineRow (f (mach r)) (token_hash r) (prev_token_hash r).
Definition set_tokens (current prev : option string) (r : MachineRow) : MachineRow := mkMachineRow (mach r) current prev.

(** ** Enrollments *)

Definition EnrollmentDevice : string := "device".
Definition EnrollmentToken : string := "token".

Record MachineEnrollment := mkEnrollment {
  EnrID : string;
  EnrKind : string;
  SecretHash : string;
  UserCode : string;
  Info : MachineInfo;
  ClientAddr : string;
  EnrCreatedAt : time;
  ExpiresAt : time;
  ApprovedBy : string;
  EnrMachineID : string
}.

#[export] Instance enrollment_keyed : Keyed MachineEnrollment := EnrID.

Definition set_approved (userID : string) (e : MachineEnrollment) : MachineEnrollment :=
  mkEnrollment (EnrID e) (EnrKind e) (SecretHash e) (UserCode e) (Info e) (ClientAddr e) (EnrCreatedAt e) (ExpiresAt e) userID (EnrMachineID e).
Definition set_enrolled (machineID : string) (e : MachineEnrollment) : MachineEnrollment :=
  mkEnrollment (EnrID e) (EnrKind e) (SecretHash e) (UserCode e) (Info e) (ClientAddr e) (EnrCreatedAt e) (ExpiresAt e) (ApprovedBy e) machineID.

(** ** Errors *)

(** [SQLError] stands for a statement the database refuses (a constraint). *)
Inductive MachineError :=
| ErrUserCodeTaken
| ErrEnrollmentUnknown
| ErrEnrollmentExpired
| ErrEnrollmentPending
| ErrMachineNotFound
| ErrTokenRefused
| ErrNoMachine
| ErrMachineLacks (machine : string) (missing : list string)
| ErrDirectiveClosed
| ErrDirectiveNotFound
| ErrMachineUnavailable (why : string)
| ErrMachineBusy (max : Z)
| SQLError.

Inductive TokenUse := TokenUnknown | TokenCurrent | TokenPending | TokenRetired.

(** ** Directives *)

Definition DirectiveReserved : string := "reserved".
Definition DirectiveRunning : string := "running".
Definition DirectiveCompleted : string := "completed".
Definition DirectiveFailed : string := "failed".
Definition DirectiveCanceled : string := "canceled".
Definition DirectiveStopping : string := "machine_stopping".
Definition DirectiveRefused : string := "refused".
Definition DirectiveLost : string := "lost".
Definition DirectiveRevoked : string := "revoked".
Definition DirectiveOrphaned : string := "orphaned".
Definition DirectiveExpired : string := "expired".
Definition DirectiveGone : string := "gone".

Record Directive := mkDirective {
  DirID : string;
  MachineOf : string;
  DirUserID : string;
  DirKind : string;
  Input : string;
  WorkflowID : string;
  RunID : string;
  ActivityID : string;
  CallKey : string;
  TaskToken : option string;
  DirState : string;
  HandoffBy : time;
  Deadline : time;
  SentConn : string;
  DirSession : string;
  DirParticipant : string;
  DirAgent : string;
  DirTurnKey : string;
  DirCallID : string;
  DirAgentID : string;
  DirResult : option string;
  DirError : string;
  DirCreatedAt : time;
  StartedAt : option time;
  ClosedAt : option time
}.

#[export] Instance directive_keyed : Keyed Directive := DirID.

(** [Open], and the condition of the SQL: state IN ('reserved', 'running'). *)
Definition Open (d : Directive) : bool := String.eqb (DirState d) DirectiveReserved || String.eqb (DirState d) DirectiveRunning.

Definition set_started (now : time) (token activityID : string) (deadline : time) (d : Directive) : Directive :=
  mkDirective (DirID d) (MachineOf d) (DirUserID d) (DirKind d) (Input d) (WorkflowID d) (RunID d) activityID (CallKey d)
    (Some token) DirectiveRunning (HandoffBy d) deadline (SentConn d) (DirSession d) (DirParticipant d)
    (DirAgent d) (DirTurnKey d) (DirCallID d) (DirAgentID d) (DirResult d) (DirError d) (DirCreatedAt d)
    (Some now) (ClosedAt d).

Definition set_sent (conn : string) (d : Directive) : Directive :=
  mkDirective (DirID d) (MachineOf d) (DirUserID d) (DirKind d) (Input d) (WorkflowID d) (RunID d) (ActivityID d)
    (CallKey d) (TaskToken d) (DirState d) (HandoffBy d) (Deadline d) conn (DirSession d) (DirParticipant d)
    (DirAgent d) (DirTurnKey d) (DirCallID d) (DirAgentID d) (DirResult d) (DirError d) (DirCreatedAt d)
    (StartedAt d) (ClosedAt d).

Definition set_result (result : string) (d : Directive) : Directive :=
  mkDirective (DirID d) (MachineOf d) (DirUserID d) (DirKind d) (Input d) (WorkflowID d) (RunID d) (ActivityID d)
    (CallKey d) (TaskToken d) (DirState d) (HandoffBy d) (Deadline d) (SentConn d) (DirSession d)
    (DirParticipant d) (DirAgent d) (DirTurnKey d) (DirCallID d) (DirAgentID d) (Some result) (DirError d)
    (DirCreatedAt d) (StartedAt d) (ClosedAt d).

Definition set_closed (now : time) (state errText : string) (d : Directive) : Directive :=
  mkDirective (DirID d) (MachineOf d) (DirUserID d) (DirKind d) (Input d) (WorkflowID d) (RunID d) (ActivityID d)
    (CallKey d) (TaskToken d) state (HandoffBy d) (Deadline d) (SentConn d) (DirSession d) (DirParticipant d)
    (DirAgent d) (DirTurnKey d) (DirCallID d) (DirAgentID d) (DirResult d) errText (DirCreatedAt d) (StartedAt d)
    (Some now).

(** ** The tables *)

Record MDB := mkMDB {
  machines : list MachineRow;
  enrollments : list MachineEnrollment;
  retired : list (string * string);   (** a replaced token's hash, and its machine *)
  directives : list Directive
}.

Definition with_machines (db : MDB) (x : list MachineRow) : MDB := mkMDB x (enrollments db) (retired db) (directives db).
Definition with_enrollments (db : MDB) (x : list MachineEnrollment) : MDB := mkMDB (machines db) x (retired db) (directives db).
Definition with_retired (db : MDB) (x : list (string * string)) : MDB := mkMDB (machines db) (enrollments db) x (directives db).
Definition with_directives (db : MDB) (x : list Directive) : MDB := mkMDB (machines db) (enrollments db) (retired db) x.

Definition emptyMDB : MDB := mkMDB [] [] [] [].

#[export] Instance on_machine_keeps f : (∀ m, ID (f m) = ID m) → KeepsKey (on_machine f).
Proof. intros Hf r. unfold row_key, machine_keyed. cbn. apply Hf. Qed.
#[export] Instance set_tokens_keeps c p : KeepsKey (set_tokens c p).
Proof. done. Qed.
#[export] Instance set_approved_keeps u : KeepsKey (set_approved u).
Proof. done. Qed.
#[export] Instance set_enrolled_keeps i : KeepsKey (set_enrolled i).
Proof. done. Qed.
#[export] Instance set_started_keeps n t a d : KeepsKey (set_started n t a d).
Proof. done. Qed.
#[export] Instance set_sent_keeps c : KeepsKey (set_sent c).
Proof. done. Qed.
#[export] Instance set_result_keeps r : KeepsKey (set_result r).
Proof. done. Qed.
#[export] Instance set_closed_keeps n s e : KeepsKey (set_closed n s e).
Proof. done. Qed.
