(* ===== verification/Choice.v ===== *)
(** * Choosing a machine (chooseMachine, llmUnavailable, missingOf: src/store/machine.go, src/store/machine_llm.go)

    The choice among the machines of a user, as the code's scan keeps the best
    one so far, and what makes it the right one: the best of an order that is
    total on the machines able to take the work, so that what is chosen depends
    neither on the order the database gives them in nor on its collation. *)

From S2P Require Import Prelude GoStr Table MachineData.
Open Scope string_scope.
Open Scope Z_scope.
Open Scope list_scope.

Record machineChoice := mkChoice {
  ChID : string;
  ChPriority : Z;
  ChMax : Z;
  ChOpen : Z;
  ChOnline : bool;
  ChPaused : bool;
  ChCan : bool
}.

(** What the scan skips. *)
Definition skipped (c : machineChoice) : bool :=
  negb (ChOnline c) || ChPaused c || negb (ChCan c) || (ChMax c <=? ChOpen c).

(** [c] is better than the best so far. *)
Definition better (c b : machineChoice) : bool :=
  (ChPriority b <? ChPriority c) ||
  ((ChPriority c =? ChPriority b) &&
   ((ChOpen c <? ChOpen b) || ((ChOpen c =? ChOpen b) && String.ltb (ChID c) (ChID b)))).

Definition scan (best : option machineChoice) (c : machineChoice) : option machineChoice :=
  if skipped c then best
  else match best with None => Some c | Some b => if better c b then Some c else best end.

Definition chooseMachine (choices : list machineChoice) : string :=
  match fold_left scan choices None with None => "" | Some b => ChID b end.

(** ** The order of the choice *)

Lemma string_compare_lt_trans a b c : String.compare a b = Lt → String.compare b c = Lt → String.compare a c = Lt.
Proof.
  revert b c. induction a as [|x a IH]; intros [|y b] [|z c]; cbn; try done.
  destruct (Ascii.compare x y) eqn:E1; [|intros _|done].
  - apply Ascii.compare_eq_iff in E1 as ->. destruct (Ascii.compare y z); [|done..]. apply IH.
  - destruct (Ascii.compare y z) eqn:E2; [|intros _|done].
    + apply Ascii.compare_eq_iff in E2 as ->. by rewrite E1.
    + assert (Ascii.compare x z = Lt) as ->; [|done]. unfold Ascii.compare in *. rewrite N.compare_lt_iff in *. lia.
Qed.

Lemma string_ltb_trans a b c : String.ltb a b = true → String.ltb b c = true → String.ltb a c = true.
Proof.
  unfold String.ltb. destruct (String.compare a b) eqn:E1; [done| |done]. destruct (String.compare b c) eqn:E2; [done| |done].
  by rewrite (string_compare_lt_trans _ _ _ E1 E2).
Qed.

Lemma string_ltb_irrefl a : String.ltb a a = false.
Proof.
  unfold String.ltb. assert (String.compare a a = CompOpp (String.compare a a)) as E by apply String.compare_antisym.
  by destruct (String.compare a a).
Qed.

Lemma string_ltb_total a b : String.ltb a b = true ∨ a = b ∨ String.ltb b a = true.
Proof.
  unfold String.ltb. rewrite (String.compare_antisym a b). destruct (String.compare b a) eqn:E; cbn; [|tauto..].
  apply String.compare_eq_iff in E as ->. tauto.
Qed.

Lemma better_irrefl c : better c c = false.
Proof. unfold better. rewrite !Z.ltb_irrefl, !Z.eqb_refl, string_ltb_irrefl. done. Qed.

Lemma better_trans a b c : better a b = true → better b c = true → better a c = true.
Proof.
  unfold better. rewrite !orb_true_iff, !andb_true_iff, !orb_true_iff, !andb_true_iff, !Z.ltb_lt, !Z.eqb_eq.
  intros [|(? & [|(? & Hab)])] [|(? & [|(? & Hbc)])]; try lia.
  right. split; [lia|]. right. split; [lia|]. by eapply string_ltb_trans.
Qed.

Lemma better_total a b : ChID a ≠ ChID b → better a b = true ∨ better b a = true.
Proof.
  intros Hid. unfold better. rewrite !orb_true_iff, !andb_true_iff, !orb_true_iff, !andb_true_iff, !Z.ltb_lt, !Z.eqb_eq.
  destruct (Z.lt_trichotomy (ChPriority a) (ChPriority b)) as [?|[?|?]], (Z.lt_trichotomy (ChOpen a) (ChOpen b)) as [?|[?|?]],
    (string_ltb_total (ChID a) (ChID b)) as [?|[?|?]]; naive_solver.
Qed.

Lemma better_asym a b : better a b = true → better b a = true → False.
Proof. intros Hab Hba. pose proof (better_trans _ _ _ Hab Hba) as H. by rewrite better_irrefl in H. Qed.

(** ** The scan keeps the best *)

(** The best of the machines able to take the work. *)
Definition is_best (l : list machineChoice) (c : machineChoice) : Prop :=
  c ∈ l ∧ skipped c = false ∧ ∀ x, x ∈ l → skipped x = false → x ≠ c → better c x = true.

Lemma is_best_unique l c c' : is_best l c → is_best l c' → c = c'.
Proof.
  intros (Hc & Hs & Hb) (Hc' & Hs' & Hb').
  assert (Decision (c = c')) as [?|Hn] by (unfold Decision; repeat decide equality); [done|].
  exfalso. by apply (better_asym c c'); [apply Hb|apply Hb'].
Qed.

Lemma scan_spec l :
  NoDup (ChID <$> l) →
  match fold_left scan l None with Some c => is_best l c | None => ∀ x, x ∈ l → skipped x = true end.
Proof.
  induction l as [|x l IH] using rev_ind; [intros _ x Hx; set_solver|].
  rewrite fmap_app, fold_left_app. intros (Hl & Hx & _)%NoDup_app. specialize (IH Hl). cbn. unfold scan at 1.
  destruct (skipped x) eqn:Es; [|destruct (fold_left scan l None) as [b|]; [destruct (better x b) eqn:Eb|]].
  - destruct (fold_left scan l None) as [b|].
    + destruct IH as (Hb & Hsb & Hbest). split; [set_solver|]. split; [done|].
      intros y [Hy| ->%list_elem_of_singleton]%elem_of_app; [by apply Hbest|congruence].
    + intros y [Hy| ->%list_elem_of_singleton]%elem_of_app; [by apply IH|done].
  - destruct IH as (Hb & Hsb & Hbest). split; [set_solver|]. split; [done|].
    intros y [Hy| ->%list_elem_of_singleton]%elem_of_app Hsy Hyx; [|done].
    assert (Decision (y = b)) as [->|Hn] by (unfold Decision; repeat decide equality); [done|].
    eapply better_trans; [exact Eb|by apply Hbest].
  - destruct IH as (Hb & Hsb & Hbest). split; [set_solver|]. split; [done|].
    intros y [Hy| ->%list_elem_of_singleton]%elem_of_app Hsy Hyx; [by apply Hbest|].
    destruct (better_total b x) as [|E]; [|done|congruence].
    intros Hid. apply (Hx (ChID b)); [by apply list_elem_of_fmap_2|]. rewrite Hid. set_solver.
  - split; [set_solver|]. split; [done|].
    intros y [Hy| ->%list_elem_of_singleton]%elem_of_app Hsy Hyx; [|done]. specialize (IH y Hy). congruence.
Qed.

(** ** The reference: sort what is able, take the first *)

Definition best_first (a b : machineChoice) : bool := negb (better b a).
Definition able (l : list machineChoice) : list machineChoice := List.filter (λ c, negb (skipped c)) l.
Definition choose_reference (l : list machineChoice) : string :=
  match sort_stable best_first (able l) with [] => "" | c :: _ => ChID c end.

Lemma able_spec l c : c ∈ able l ↔ c ∈ l ∧ skipped c = false.
Proof. unfold able. by rewrite elem_filter, negb_true_iff. Qed.

Lemma best_first_total a b : best_first a b = true ∨ best_first b a = true.
Proof.
  unfold best_first. destruct (better b a) eqn:E1; [|by left]. destruct (better a b) eqn:E2; [|by right].
  destruct (better_asym _ _ E1 E2).
Qed.

Lemma best_first_trans a b c : best_first a b = true → best_first b c = true → best_first a c = true.
Proof.
  unfold best_first. rewrite !negb_true_iff. intros Hab Hbc. destruct (better c a) eqn:E; [|done]. exfalso.
  assert (Decision (ChID a = ChID b)) as [Hid|Hid] by apply _.
  - assert (better c b = true); [|congruence]. clear Hbc. revert Hab E. unfold better. rewrite <- Hid, string_ltb_irrefl.
    rewrite andb_false_r, orb_false_r, orb_false_iff, andb_false_iff, !orb_true_iff, !andb_true_iff, !orb_true_iff, !andb_true_iff,
      !Z.ltb_lt, !Z.eqb_eq, !Z.ltb_ge, !Z.eqb_neq.
    destruct (Z.lt_trichotomy (ChPriority a) (ChPriority b)) as [?|[?|?]], (Z.lt_trichotomy (ChOpen a) (ChOpen b)) as [?|[?|?]]; try lia; naive_solver lia.
  - destruct (better_total a b Hid) as [H|H]; [|congruence].
    pose proof (better_trans _ _ _ E H). congruence.
Qed.

Lemma is_best_perm l l' c : l ≡ₚ l' → is_best l c → is_best l' c.
Proof. intros Hp (Hc & Hs & Hb). split; [by rewrite <- Hp|]. split; [done|]. intros x Hx. apply Hb. by rewrite Hp. Qed.

Lemma choose_best l c : NoDup (ChID <$> l) → is_best l c → chooseMachine l = ChID c.
Proof.
  intros Hl Hc. unfold chooseMachine. pose proof (scan_spec l Hl) as H. destruct (fold_left scan l None) as [b|].
  - by rewrite (is_best_unique _ _ _ H Hc).
  - destruct Hc as (Hc & Hs & _). specialize (H c Hc). congruence.
Qed.

Lemma choose_none l : (∀ x, x ∈ l → skipped x = true) → chooseMachine l = "".
Proof.
  intros Hn. unfold chooseMachine. enough (fold_left scan l None = None) as -> by done.
  induction l as [|x l IH]; [done|]. cbn [fold_left].
  assert (scan None x = None) as -> by (unfold scan; by rewrite Hn by (by left)). apply IH. intros y Hy. apply Hn. by right.
Qed.

(** What is chosen is the identifier of a machine able to take the work. *)
Lemma choose_some l : NoDup (ChID <$> l) → chooseMachine l ≠ "" → ∃ c, is_best l c ∧ chooseMachine l = ChID c.
Proof.
  intros Hl. unfold chooseMachine. pose proof (scan_spec l Hl) as H. destruct (fold_left scan l None) as [b|]; [|done]. eauto.
Qed.

Lemma choose_cases l : NoDup (ChID <$> l) → (∃ c, is_best l c) ∨ ∀ x, x ∈ l → skipped x = true.
Proof. intros Hl. pose proof (scan_spec l Hl) as H. destruct (fold_left scan l None); eauto. Qed.

Lemma reference_best l c : is_best l c → choose_reference l = ChID c.
Proof.
  intros (Hc & Hs & Hb). unfold choose_reference.
  pose proof (sort_stable_perm best_first (able l)) as Hp.
  pose proof (sort_stable_sorted best_first best_first_total best_first_trans (able l)) as Hso.
  assert (Hin : c ∈ sort_stable best_first (able l)) by (rewrite Hp; by apply able_spec).
  destruct (sort_stable best_first (able l)) as [|b rest]; [set_solver|].
  apply elem_of_cons in Hin as [->|Hin]; [done|]. apply StronglySorted_inv in Hso as [_ Hf]. rewrite Forall_forall in Hf.
  specialize (Hf c Hin). unfold best_first in Hf. rewrite negb_true_iff in Hf.
  assert (b ∈ able l) as [Hbl Hbs]%able_spec by (rewrite <- Hp; by left).
  assert (Decision (b = c)) as [->|Hn] by (unfold Decision; repeat decide equality); [done|].
  rewrite Hb in Hf; done.
Qed.

Lemma reference_none l : (∀ x, x ∈ l → skipped x = true) → choose_reference l = "".
Proof.
  intros Hn. unfold choose_reference. assert (able l = []) as ->; [|done].
  apply filter_existsb_nil, Forall_forall. intros x Hx. by rewrite Hn.
Qed.

Lemma skipped_false c : skipped c = false ↔ ChOnline c = true ∧ ChPaused c = false ∧ ChCan c = true ∧ ChOpen c < ChMax c.
Proof. unfold skipped. rewrite !orb_false_iff, !negb_false_iff, Z.leb_gt. tauto. Qed.

(** [chooseMachine]'s single pass chooses as sorting the machines able to
    take the work would: online, not paused, with the capability, under the cap
    it announced; the highest priority, then the least busy, then the first by
    ID. It chooses none exactly when there is none, and what it chooses does
    not depend on the order the machines come in (nor, then, on the collation
    of the database). *)
Theorem choose_exact (l l' : list machineChoice)
    (Hids : NoDup (ChID <$> l)) (Hnonempty : "" ∉ (ChID <$> l)) (Hperm : l' ≡ₚ l) :
  chooseMachine l = choose_reference l ∧ chooseMachine l' = chooseMachine l ∧
  (chooseMachine l = "" ↔ ∀ c, c ∈ l → skipped c = true) ∧
  (∀ c, c ∈ l → (chooseMachine l = ChID c ↔
    ChOnline c = true ∧ ChPaused c = false ∧ ChCan c = true ∧ ChOpen c < ChMax c ∧
    ∀ x, x ∈ l → skipped x = false → x ≠ c → better c x = true)).
Proof.
  assert (Hids' : NoDup (ChID <$> l')) by by rewrite Hperm.
  assert (Hne : ∀ c, c ∈ l → ChID c ≠ "") by (intros c Hc E; apply Hnonempty; rewrite <- E; by apply list_elem_of_fmap_2).
  destruct (choose_cases l Hids) as [(b & Hb)|Hn].
  - pose proof (choose_best l b Hids Hb) as E.
    pose proof (choose_best l' b Hids' (is_best_perm l l' b ltac:(by rewrite Hperm) Hb)) as E'.
    rewrite (reference_best l b Hb), E, E'. destruct (Hb) as (Hbl & Hbs & Hbest). split; [done|]. split; [done|]. split.
    + split; [intros H; by apply Hne in Hbl|]. intros H. rewrite H in Hbs; done.
    + intros c Hc. split.
      * intros Hid. assert (c = b) as ->; [|rewrite skipped_false in Hbs; naive_solver].
        apply list_elem_of_lookup in Hc as [i Hi], Hbl as [j Hj]. assert (i = j) as ->; [|congruence].
        eapply NoDup_lookup; [exact Hids| |]; rewrite list_lookup_fmap; [by rewrite Hi|]. rewrite Hj. cbn. by rewrite Hid.
      * intros (? & ? & ? & ? & Hcb). f_equal. apply (is_best_unique l); [done|]. split; [done|]. rewrite skipped_false. tauto.
  - assert (Hn' : ∀ x, x ∈ l' → skipped x = true) by (intros x Hx; apply Hn; by rewrite <- Hperm).
    rewrite reference_none, (choose_none l), (choose_none l') by done. split; [done|]. split; [done|]. split; [done|].
    intros c Hc. specialize (Hn c Hc). split; [intros H; by apply Hne in Hc|].
    intros (? & ? & ? & ? & _). assert (skipped c = false) by (apply skipped_false; tauto). congruence.
Qed.

Abbreviation demo_choices :=
  [mkChoice "m3" 1 2 1 true false true; mkChoice "m2" 5 1 1 true false true; mkChoice "m1" 1 4 1 true false true;
   mkChoice "m0" 9 4 0 false false true] (only parsing).

Lemma choose_exact_witness :
  chooseMachine demo_choices = choose_reference demo_choices ∧ choose_reference demo_choices = "m1".
Proof.
  split; [|reflexivity]. refine (proj1 (choose_exact demo_choices demo_choices _ _ _)); [| |done];
    apply (bool_decide_unpack _); reflexivity.
Defined.
