(* ===== verification/Machines.v ===== *)
(** * Enrolling machines, their tokens and their connections (src/store/machine.go)

    Each operation is one statement or one transaction, so one step on the
    tables; one that fails leaves them as they were. The time of the database
    ([NOW()]) is [now]; a time the caller passes has its own name. A query that
    expects one row takes the first. *)

From S2P Require Import Prelude GoStr Table MachineData.
Open Scope string_scope.
Open Scope Z_scope.
Open Scope list_scope.

(** A result and the tables after it; a failed transaction is rolled back. *)
Abbreviation outcome A := ((MachineError + A) * MDB)%type (only parsing).

(** ** Enrollment *)

Definition same_enrollment (e x : MachineEnrollment) : bool :=
  String.eqb (EnrID e) (EnrID x) || String.eqb (SecretHash e) (SecretHash x) ||
  (negb (String.eqb (UserCode e) "") && String.eqb (UserCode e) (UserCode x)).

(** The INSERT: a new row has no machine yet, and one directive at least. *)
Definition enrollment_row (now : time) (e : MachineEnrollment) : MachineEnrollment :=
  let i := Info e in
  mkEnrollment (EnrID e) (EnrKind e) (SecretHash e) (UserCode e)
    (mkInfo (InfoName i) (InfoOS i) (InfoCapabilities i) (Z.max (InfoMaxDirectives i) 1) (InfoAgentVersion i) "" 0 "" "" "")
    (ClientAddr e) now (ExpiresAt e) (ApprovedBy e) "".

Definition CreateMachineEnrollment (now : time) (e : MachineEnrollment) (db : MDB) : outcome unit :=
  if negb (contains [EnrollmentDevice; EnrollmentToken] (EnrKind e)) then (inl SQLError, db)
  else if existsb (same_enrollment e) (enrollments db) then
    (inl (if String.eqb (UserCode e) "" then SQLError else ErrUserCodeTaken), db)
  else (inr tt, with_enrollments db (enrollments db ++ [enrollment_row now e])).

Definition pending_device (at_ : time) (e : MachineEnrollment) : bool :=
  String.eqb (EnrKind e) EnrollmentDevice && (at_ <? ExpiresAt e).

Definition CountPendingDeviceRequests (at_ : time) (db : MDB) : Z :=
  count (λ e, pending_device at_ e && String.eqb (EnrMachineID e) "") (enrollments db).

(** A code is NULL for an enrollment without one. *)
Definition has_code (userCode : string) (e : MachineEnrollment) : bool :=
  negb (String.eqb (UserCode e) "") && String.eqb (UserCode e) userCode.

Definition FindDeviceRequest (userCode : string) (at_ : time) (db : MDB) : option MachineEnrollment :=
  List.find (λ e, pending_device at_ e && has_code userCode e && String.eqb (ApprovedBy e) "") (enrollments db).

Definition approvable (id userCode : string) (at_ : time) (e : MachineEnrollment) : bool :=
  has_key id e && pending_device at_ e && has_code userCode e && String.eqb (ApprovedBy e) "".

Definition ApproveDeviceRequest (id userCode userID : string) (at_ : time) (db : MDB) : outcome unit :=
  if (affected (approvable id userCode at_) (enrollments db) =? 0)%nat then (inl ErrEnrollmentUnknown, db)
  else (inr tt, with_enrollments db (update_where (approvable id userCode at_) (set_approved userID) (enrollments db))).

Definition by_secret (kind secretHash : string) (e : MachineEnrollment) : bool :=
  String.eqb (EnrKind e) kind && String.eqb (SecretHash e) secretHash.

(** The machine an enrollment gives: what the code leaves out is the
    column's default. *)
Definition new_machine (now : time) (id : string) (e : MachineEnrollment) (info : MachineInfo) : Machine :=
  let info := if String.eqb (EnrKind e) EnrollmentDevice then Info e else info in
  mkMachine id (ApprovedBy e) (InfoName info) (InfoOS info) (InfoCapabilities info) (Z.max (InfoMaxDirectives info) 1)
    0 false (InfoAgentVersion info) "" "" now None None "" "" 0 "" "" "" None None.

Definition RedeemMachineEnrollment (now : time) (kind secretHash : string) (info : MachineInfo) (id tokenHash : string)
    (at_ : time) (db : MDB) : outcome Machine :=
  match List.find (by_secret kind secretHash) (enrollments db) with
  | None => (inl ErrEnrollmentUnknown, db)
  | Some e =>
      if negb (String.eqb (EnrMachineID e) "") then (inl ErrEnrollmentUnknown, db)
      else if ExpiresAt e <=? at_ then (inl ErrEnrollmentExpired, db)
      else if String.eqb (ApprovedBy e) "" then (inl ErrEnrollmentPending, db)
      else if existsb (λ r, has_key id r || bool_decide (token_hash r = Some tokenHash)) (machines db) then (inl SQLError, db)
      else
        let m := new_machine now id e info in
        (inr m, mkMDB (machines db ++ [mkMachineRow m (Some tokenHash) None])
                  (update_where (has_key (EnrID e)) (set_enrolled id) (enrollments db)) (retired db) (directives db))
  end.

Definition DeleteExpiredEnrollments (at_ : time) (db : MDB) : MDB :=
  with_enrollments db (List.filter (λ e, at_ <? ExpiresAt e) (enrollments db)).

(** ** Tokens *)

Definition GetMachine (id : string) (db : MDB) : option Machine := mach <$> get id (machines db).

Definition holds_token (hash : string) (r : MachineRow) : bool :=
  bool_decide (token_hash r = Some hash) || bool_decide (prev_token_hash r = Some hash).

Definition MachineByToken (tokenHash : string) (db : MDB) : option Machine * TokenUse :=
  match List.find (holds_token tokenHash) (machines db) with
  | Some r => (Some (mach r), if String.eqb (coalesce (token_hash r)) tokenHash then TokenCurrent else TokenPending)
  | None =>
      match List.find (λ x, String.eqb (fst x) tokenHash) (retired db) with
      | None => (None, TokenUnknown)
      | Some x =>
          match GetMachine (snd x) db with
          | None => (None, TokenUnknown)
          | Some m => (Some m, TokenRetired)
          end
      end
  end.

(** The new current and previous tokens, and those to retire; none when
    what was presented is neither of the machine's. *)
Definition rotateTokens (current prev presented next : string) : option (string * string * list string) :=
  if String.eqb presented "" then None
  else if String.eqb presented current && String.eqb prev "" then Some (next, current, [])
  else if String.eqb presented current then Some (next, current, [prev])
  else if String.eqb presented prev then Some (next, prev, [current])
  else None.

Definition confirmToken (current prev presented : string) : option (string * list string) :=
  if String.eqb presented "" || negb (String.eqb presented current) then None
  else if String.eqb prev "" then Some ("", []) else Some ("", [prev]).

(** [INSERT ... ON CONFLICT DO NOTHING] of each. *)
Definition retire_one (machineID : string) (t : list (string * string)) (hash : string) : list (string * string) :=
  if String.eqb hash "" || existsb (λ x, String.eqb (fst x) hash) t then t else t ++ [(hash, machineID)].

Definition retireTokens (machineID : string) (hashes : list string) (t : list (string * string)) : list (string * string) :=
  fold_left (retire_one machineID) hashes t.

(** The unique indexes of the token columns, for the rows but [id]'s. *)
Definition tokens_taken (id : string) (current prev : option string) (rows : list MachineRow) : bool :=
  existsb (λ r, negb (has_key id r) &&
    ((negb (is_none current) && bool_decide (token_hash r = current)) ||
     (negb (is_none prev) && bool_decide (prev_token_hash r = prev)))) rows.

Definition RotateMachineToken (id presentedHash nextHash : string) (db : MDB) : outcome unit :=
  match get id (machines db) with
  | None => (inl ErrTokenRefused, db)
  | Some r =>
      if revoked r then (inl ErrTokenRefused, db)
      else
        match rotateTokens (coalesce (token_hash r)) (coalesce (prev_token_hash r)) presentedHash nextHash with
        | None => (inl ErrTokenRefused, db)
        | Some (current, prev, retire) =>
            if tokens_taken id (Some current) (nullif prev) (machines db) then (inl SQLError, db)
            else
              (inr tt, with_retired
                (with_machines db (update_where (has_key id) (set_tokens (Some current) (nullif prev)) (machines db)))
                (retireTokens id retire (retired db)))
        end
  end.

Definition set_prev (prev : option string) (r : MachineRow) : MachineRow := mkMachineRow (mach r) (token_hash r) prev.

Definition ConfirmMachineToken (id currentHash : string) (db : MDB) : outcome unit :=
  match get id (machines db) with
  | None => (inl ErrTokenRefused, db)
  | Some r =>
      if revoked r then (inl ErrTokenRefused, db)
      else
        match confirmToken (coalesce (token_hash r)) (coalesce (prev_token_hash r)) currentHash with
        | None => (inl ErrTokenRefused, db)
        | Some (prev, retire) =>
            (inr tt, with_retired (with_machines db (update_where (has_key id) (set_prev (nullif prev)) (machines db)))
                       (retireTokens id retire (retired db)))
        end
  end.

(** ** Connections and settings *)

(** The row of a machine that is not revoked. *)
Definition live_row (id : string) (r : MachineRow) : bool := has_key id r && negb (revoked r).

(** An UPDATE of one machine that must change a row. *)
Definition update_machine (p : MachineRow → bool) (f : Machine → Machine) (db : MDB) : outcome unit :=
  if (affected p (machines db) =? 0)%nat then (inl ErrMachineNotFound, db)
  else (inr tt, with_machines db (update_where p (on_machine f) (machines db))).

Definition MachineConnected (now : time) (id gateway addr : string) (hello : MachineInfo) (db : MDB) : outcome string :=
  match List.find (live_row id) (machines db) with
  | None => (inl ErrMachineNotFound, db)
  | Some old =>
      (inr (LastAddr (mach old)),
       with_machines db (update_where (live_row id) (on_machine (set_connected now gateway addr hello)) (machines db)))
  end.

Definition UpdateMachineStatus (id : string) (capabilities : list string) (claudeCode llmState : string) : MDB → outcome unit :=
  update_machine (live_row id) (set_status capabilities claudeCode llmState).

Definition SetMachineAside (now : time) (id : string) (db : MDB) : MDB :=
  with_machines db (update_where (has_key id) (on_machine (set_aside (Some now))) (machines db)).

Definition ClearMachineAside (id : string) (db : MDB) : MDB :=
  with_machines db
    (update_where (λ r, has_key id r && negb (is_none (AsideAt (mach r)))) (on_machine (set_aside None)) (machines db)).

Definition owned_row (userID id : string) (r : MachineRow) : bool := live_row id r && String.eqb (UserID (mach r)) userID.

Definition SetMachinePaused (userID id : string) (paused : bool) : MDB → outcome unit :=
  update_machine (owned_row userID id) (set_paused paused).

Definition SetMachinePriority (userID id : string) (priority : Z) : MDB → outcome unit :=
  update_machine (owned_row userID id) (set_priority priority).

Definition MachineDisconnected (id gateway : string) (db : MDB) : MDB :=
  with_machines db
    (update_where (λ r, has_key id r && String.eqb (ConnectedTo (mach r)) gateway) (on_machine (set_connection "")) (machines db)).

Definition TouchMachines (now : time) (ids : list string) (db : MDB) : MDB :=
  with_machines db (update_where (λ r, contains ids (ID (mach r))) (on_machine (set_seen now)) (machines db)).

Definition ResetMachineConnections (db : MDB) : MDB :=
  with_machines db
    (update_where (λ r, negb (String.eqb (ConnectedTo (mach r)) "")) (on_machine (set_connection "")) (machines db)).

(** ** Revocation *)

Definition open_of (machineID : string) (d : Directive) : bool := String.eqb (MachineOf d) machineID && Open d.

(** What revoking makes of a row. *)
Definition revoke_row (now : time) (reason : string) (r : MachineRow) : MachineRow :=
  mkMachineRow (set_revoked now reason (mach r)) None None.

Definition RevokeMachine (now : time) (id reason : string) (db : MDB) : outcome (list Directive) :=
  match get id (machines db) with
  | None => (inl ErrMachineNotFound, db)
  | Some r =>
      if revoked r then (inr [], db)
      else
        (inr (set_closed now DirectiveRevoked reason <$> List.filter (open_of id) (directives db)),
         mkMDB (update_where (has_key id) (revoke_row now reason) (machines db)) (enrollments db)
           (retireTokens id [coalesce (token_hash r); coalesce (prev_token_hash r)] (retired db))
           (update_where (open_of id) (set_closed now DirectiveRevoked reason) (directives db)))
  end.

#[export] Instance set_prev_keeps p : KeepsKey (set_prev p).
Proof. done. Qed.
#[export] Instance revoke_row_keeps n s : KeepsKey (revoke_row n s).
Proof. done. Qed.
