(* ===== verification/Directives.v ===== *)
(** * Directives: picking a machine, starting, sending, ending (src/store/machine.go, src/store/machine_llm.go)

    Each operation is one statement, or one transaction that holds the rows of
    the machines it reads, so one step on the tables; a failed one leaves them
    as they were. Lists of machines come in the order of their IDs by Go's
    comparison of strings: the database's collation may differ, and the choice
    does not depend on it (Choice.v). *)

From S2P Require Import Prelude GoStr Table MachineData Choice Machines.
Open Scope string_scope.
Open Scope Z_scope.
Open Scope list_scope.

(** ** Reading the machines of a user *)

Definition by_id (a b : Machine) : bool := String.leb (ID a) (ID b).
Definition user_machines (userID : string) (db : MDB) : list Machine :=
  sort_stable by_id (mach <$> List.filter (λ r, String.eqb (UserID (mach r)) userID && negb (revoked r)) (machines db)).

(** ** The load of a machine *)

Definition llmKind : string := "llm".
Definition llmCapability : string := "llm".

Definition is_llm (d : Directive) : bool := String.eqb (DirKind d) llmKind.
Definition open_run (machineID : string) (d : Directive) : bool := open_of machineID d && negb (is_llm d).
Definition open_call (machineID : string) (d : Directive) : bool := open_of machineID d && is_llm d.

Definition openRuns (db : MDB) (machineID : string) : Z := count (open_run machineID) (directives db).
Definition openLLMCalls (db : MDB) (machineID : string) : Z := count (open_call machineID) (directives db).

(** ** Picking a machine for a coding run *)

Record PickRequest := mkPick {
  PkDirectiveID : string;
  PkUserID : string;
  PkCapabilities : list string;
  PkExtra : list string;
  PkKind : string;
  PkInput : string;
  PkWorkflowID : string;
  PkRunID : string;
  PkCallKey : string;
  PkHandoffBy : time;
  PkDeadline : time;
  PkSeenAfter : time;
  PkSessionID : string;
  PkParticipant : string;
  PkAgent : string;
  PkTurnKey : string;
  PkCallID : string;
  PkAgentID : string
}.

Definition of_call (runID callKey : string) (d : Directive) : bool :=
  String.eqb (RunID d) runID && String.eqb (CallKey d) callKey.

Definition pick_choice (db : MDB) (seenAfter : time) (capabilities : list string) (m : Machine) : machineChoice :=
  mkChoice (ID m) (Priority m) (MaxDirectives m) (openRuns db (ID m)) (Online seenAfter m) (Paused m) (CanAll capabilities m).

Definition named (id : string) (m : Machine) : bool := String.eqb (ID m) id.

Definition missingOf (m : Machine) (capabilities : list string) : list string :=
  List.filter (λ c, negb (Can c m)) capabilities.

(** The INSERT of a pick: the other columns have their defaults. *)
Definition picked (now : time) (req : PickRequest) (machineID : string) : Directive :=
  mkDirective (PkDirectiveID req) machineID (PkUserID req) (PkKind req) (PkInput req) (PkWorkflowID req) (PkRunID req) ""
    (PkCallKey req) None DirectiveReserved (PkHandoffBy req) (PkDeadline req) "" (PkSessionID req) (PkParticipant req)
    (PkAgent req) (PkTurnKey req) (PkCallID req) (PkAgentID req) None "" now None None.

(** The primary key, and the unique index of the calls. *)
Definition directive_taken (d : Directive) (db : MDB) : bool :=
  existsb (λ x, has_key (DirID d) x || of_call (RunID d) (CallKey d) x) (directives db).

Definition add_directive (d : Directive) (db : MDB) : MDB := with_directives db (directives db ++ [d]).

(** The machine the extra capabilities alone keep from taking the directive. *)
Definition lacking (db : MDB) (req : PickRequest) : option Machine :=
  if (match PkExtra req with [] => true | _ => false end) then None
  else
    let ms := user_machines (PkUserID req) db in
    let id := chooseMachine (pick_choice db (PkSeenAfter req) (PkCapabilities req) <$> ms) in
    if String.eqb id "" then None else List.find (named id) ms.

Definition PickMachine (now : time) (req : PickRequest) (db : MDB) : outcome (Directive * Machine) :=
  match List.find (of_call (PkRunID req) (PkCallKey req)) (directives db) with
  | Some d => (match GetMachine (MachineOf d) db with Some m => inr (d, m) | None => inl SQLError end, db)
  | None =>
      let ms := user_machines (PkUserID req) db in
      let chosen := chooseMachine (pick_choice db (PkSeenAfter req) (PkCapabilities req ++ PkExtra req) <$> ms) in
      if String.eqb chosen "" then
        (inl (match lacking db req with Some m => ErrMachineLacks (Name m) (missingOf m (PkExtra req)) | None => ErrNoMachine end), db)
      else
        match List.find (named chosen) ms with
        | None => (inl SQLError, db)
        | Some m =>
            let d := picked now req chosen in
            if directive_taken d db then (inl SQLError, db) else (inr (d, m), add_directive d db)
        end
  end.

Definition DirectiveOfCall (runID callKey : string) (db : MDB) : MachineError + Directive * Machine :=
  match List.find (of_call runID callKey) (directives db) with
  | None => inl ErrDirectiveNotFound
  | Some d => match GetMachine (MachineOf d) db with Some m => inr (d, m) | None => inl SQLError end
  end.

(** ** Choosing a machine for a turn's model, and calling it *)

Definition llmUnavailable (m : Machine) (seenAfter : time) : string :=
  if negb (Online seenAfter m) then "offline"
  else if Paused m then "paused"
  else if negb (Can llmCapability m) then "its model is not offered"
  else if AsideForLLM seenAfter m then "set aside since a call to its model was lost"
  else "".

Definition llm_free (db : MDB) (m : Machine) : machineChoice :=
  mkChoice (ID m) (Priority m) (MaxLLM m) (openLLMCalls db (ID m)) true false true.

(** Chosen among the full ones by priority, then load. *)
Definition llm_full (db : MDB) (m : Machine) : machineChoice :=
  mkChoice (ID m) (Priority m) (openLLMCalls db (ID m) + 1) (openLLMCalls db (ID m)) true false true.

Definition llm_candidates (userID : string) (excluded : list string) (seenAfter : time) (db : MDB) : list Machine :=
  List.filter (λ m, negb (contains excluded (ID m)) && String.eqb (llmUnavailable m seenAfter) "") (user_machines userID db).

Definition ChooseLLMMachine (userID : string) (excluded : list string) (seenAfter : time) (db : MDB) : MachineError + Machine :=
  let ms := llm_candidates userID excluded seenAfter db in
  let free := chooseMachine (llm_free db <$> ms) in
  let chosen := if String.eqb free "" then chooseMachine (llm_full db <$> List.filter (λ m, 0 <? MaxLLM m) ms) else free in
  match List.find (λ m, negb (String.eqb chosen "") && named chosen m) (user_machines userID db) with
  | Some m => inr m
  | None => inl ErrNoMachine
  end.

Record LLMDirectiveRequest := mkLLMRequest {
  LqDirectiveID : string;
  LqMachineID : string;
  LqUserID : string;
  LqInput : string;
  LqWorkflowID : string;
  LqRunID : string;
  LqActivityID : string;
  LqCallKey : string;
  LqTaskToken : string;
  LqDeadline : time;
  LqSeenAfter : time;
  LqSessionID : string;
  LqTurnKey : string;
  LqAgentID : string
}.

(** The INSERT of a call to the model: running at once. *)
Definition called (now : time) (req : LLMDirectiveRequest) (machineID : string) : Directive :=
  mkDirective (LqDirectiveID req) machineID (LqUserID req) llmKind (LqInput req) (LqWorkflowID req) (LqRunID req)
    (LqActivityID req) (LqCallKey req) (Some (LqTaskToken req)) DirectiveRunning now (LqDeadline req) "" (LqSessionID req)
    "" "" (LqTurnKey req) "" (LqAgentID req) None "" now (Some now) None.

Definition owned (userID id : string) (r : MachineRow) : bool :=
  has_key id r && String.eqb (UserID (mach r)) userID && negb (revoked r).

Definition CreateLLMDirective (now : time) (req : LLMDirectiveRequest) (db : MDB) : outcome (Directive * Machine) :=
  match List.find (owned (LqUserID req) (LqMachineID req)) (machines db) with
  | None => (inl (ErrMachineUnavailable "no such machine of the user's (revoked?)"), db)
  | Some r =>
      let m := mach r in
      let why := llmUnavailable m (LqSeenAfter req) in
      let d := called now req (ID m) in
      if existsb (of_call (LqRunID req) (LqCallKey req)) (directives db) then (inl ErrDirectiveClosed, db)
      else if negb (String.eqb why "") then (inl (ErrMachineUnavailable why), db)
      else if MaxLLM m <=? openLLMCalls db (ID m) then (inl (ErrMachineBusy (MaxLLM m)), db)
      else if directive_taken d db then (inl ErrDirectiveClosed, db)
      else (inr (d, m), add_directive d db)
  end.

(** ** A directive's life *)

Definition GetDirective (id : string) (db : MDB) : option Directive := get id (directives db).

Definition reserved_row (id : string) (d : Directive) : bool := has_key id d && String.eqb (DirState d) DirectiveReserved.
Definition open_row (id : string) (d : Directive) : bool := has_key id d && Open d.

(** With the error, the directive as it is, when there is one. *)
Definition StartDirective (now : time) (id token activityID : string) (deadline : time) (db : MDB) :
    (MachineError * option Directive + Directive) * MDB :=
  match List.find (reserved_row id) (directives db) with
  | Some d =>
      (inr (set_started now token activityID deadline d),
       with_directives db (update_where (reserved_row id) (set_started now token activityID deadline) (directives db)))
  | None =>
      (match GetDirective id db with
       | None => inl (ErrDirectiveNotFound, None)
       | Some got =>
           if String.eqb (DirState got) DirectiveRunning && String.eqb (coalesce (TaskToken got)) token then inr got
           else inl (ErrDirectiveClosed, Some got)
       end, db)
  end.

Definition unsent (id : string) (d : Directive) : bool :=
  has_key id d && String.eqb (SentConn d) "" && String.eqb (DirState d) DirectiveRunning.

Definition MarkDirectiveSent (id conn : string) (db : MDB) : bool * MDB :=
  ((affected (unsent id) (directives db) =? 1)%nat,
   with_directives db (update_where (unsent id) (set_sent conn) (directives db))).

(** ORDER BY created_at, id. *)
Definition by_creation (a b : Directive) : bool :=
  (DirCreatedAt a <? DirCreatedAt b) || ((DirCreatedAt a =? DirCreatedAt b) && String.leb (DirID a) (DirID b)).

Definition OpenDirectives (machineID : string) (db : MDB) : list Directive :=
  sort_stable by_creation (List.filter (open_of machineID) (directives db)).

Definition SaveDirectiveResult (id result : string) (db : MDB) : outcome unit :=
  if (affected (open_row id) (directives db) =? 0)%nat then (inl ErrDirectiveClosed, db)
  else (inr tt, with_directives db (update_where (open_row id) (set_result result) (directives db))).

Definition CloseDirective (now : time) (id state errText : string) (db : MDB) : bool * MDB :=
  ((affected (open_row id) (directives db) =? 1)%nat,
   with_directives db (update_where (open_row id) (set_closed now state errText) (directives db))).

Definition overdue (at_ : time) (d : Directive) : bool :=
  (String.eqb (DirState d) DirectiveReserved && (HandoffBy d <=? at_)) ||
  (String.eqb (DirState d) DirectiveRunning && (Deadline d <=? at_)).

Definition sweep_one (now : time) (d : Directive) : Directive :=
  if String.eqb (DirState d) DirectiveReserved then set_closed now DirectiveOrphaned "never handed to its machine" d
  else set_closed now DirectiveExpired "past its deadline" d.

Definition SweepDirectives (now at_ : time) (db : MDB) : list Directive * MDB :=
  (sweep_one now <$> List.filter (overdue at_) (directives db),
   with_directives db (update_where (overdue at_) (sweep_one now) (directives db))).

Definition has_result (d : Directive) : bool :=
  String.eqb (DirState d) DirectiveRunning && negb (is_none (DirResult d)) && negb (is_none (TaskToken d)).

Definition PendingDirectiveResults (db : MDB) : list Directive :=
  sort_stable by_creation (List.filter has_result (directives db)).

(** ** A user's machines, with their open directives *)

Definition open_kinds (db : MDB) (machineID : string) : list string := DirKind <$> OpenDirectives machineID db.

(** ORDER BY revoked_at IS NOT NULL, created_at DESC, id. *)
Definition by_listing (a b : Machine) : bool :=
  let ra := negb (is_none (RevokedAt a)) in
  let rb := negb (is_none (RevokedAt b)) in
  (negb ra && rb) ||
  (Bool.eqb ra rb && ((CreatedAt b <? CreatedAt a) || ((CreatedAt a =? CreatedAt b) && String.leb (ID a) (ID b)))).

Definition ListMachines (userID : string) (db : MDB) : list (Machine * list string) :=
  (λ m, (m, open_kinds db (ID m))) <$>
    sort_stable by_listing (mach <$> List.filter (λ r, String.eqb (UserID (mach r)) userID) (machines db)).
