(* ===== verification/JsonValid.v ===== *)
(** * Well-formed JSON (encoding/json's scanner, as json.Valid runs it)

    One step of a state machine with a stack for each byte: what the gateway
    and a machine check of a message's raw JSON. *)

From S2P Require Import Prelude GoStr Json.
Open Scope string_scope.
Open Scope Z_scope.
Open Scope list_scope.

(** What encloses the value being read: an object, at a key or at a value, or
    an array. *)
Inductive parse_state := ParseKey | ParseValue | ParseArray.

Inductive scan_state :=
| BeginValue | BeginValueOrEmpty | BeginStringOrEmpty | BeginString
| InString | InEsc | InEscU (left : nat)
| Neg | Digits | Zero | Dot | Frac | Exp | ExpSign | ExpDigits
| Literal (rest : string)
| EndValue | EndTop.

Definition maxNestingDepth : Z := 10000.

Definition is_hex (c : ascii) : bool := match hex_value c with Some _ => true | None => false end.
Definition is_char (c : ascii) (s : string) : bool := has_byte c s.
Definition nonzero_digit (c : ascii) : bool := is_digit c && negb (byte_of c =? 48).

(** A value is over: its parser's state is taken up again. *)
Definition popped (stack : list parse_state) : scan_state := match stack with [] => EndTop | _ => EndValue end.

Definition push (p : parse_state) (next : scan_state) (stack : list parse_state) : option (scan_state * list parse_state) :=
  if Z.of_nat (length stack) <? maxNestingDepth then Some (next, p :: stack) else None.

Definition step_end (c : ascii) (stack : list parse_state) : option (scan_state * list parse_state) :=
  match stack with
  | [] => if is_ws c then Some (EndTop, []) else None
  | top :: rest =>
      if is_ws c then Some (EndValue, stack)
      else
        match top with
        | ParseKey => if Ascii.eqb c ":" then Some (BeginValue, ParseValue :: rest) else None
        | ParseValue =>
            if Ascii.eqb c "," then Some (BeginString, ParseKey :: rest)
            else if Ascii.eqb c "}" then Some (popped rest, rest) else None
        | ParseArray =>
            if Ascii.eqb c "," then Some (BeginValue, stack)
            else if Ascii.eqb c "]" then Some (popped rest, rest) else None
        end
  end.

Definition step_begin (c : ascii) (stack : list parse_state) : option (scan_state * list parse_state) :=
  if is_ws c then Some (BeginValue, stack)
  else if Ascii.eqb c "{" then push ParseKey BeginStringOrEmpty stack
  else if Ascii.eqb c "[" then push ParseArray BeginValueOrEmpty stack
  else if Ascii.eqb c dquote then Some (InString, stack)
  else if Ascii.eqb c "-" then Some (Neg, stack)
  else if Ascii.eqb c "0" then Some (Zero, stack)
  else if Ascii.eqb c "t" then Some (Literal "rue", stack)
  else if Ascii.eqb c "f" then Some (Literal "alse", stack)
  else if Ascii.eqb c "n" then Some (Literal "ull", stack)
  else if nonzero_digit c then Some (Digits, stack)
  else None.

Definition step_string (c : ascii) (stack : list parse_state) : option (scan_state * list parse_state) :=
  if is_ws c then Some (BeginString, stack) else if Ascii.eqb c dquote then Some (InString, stack) else None.

(** After a number's integral part. *)
Definition step_number (c : ascii) (stack : list parse_state) : option (scan_state * list parse_state) :=
  if Ascii.eqb c "." then Some (Dot, stack) else if is_char c "eE" then Some (Exp, stack) else step_end c stack.

Definition scan_step (st : scan_state) (stack : list parse_state) (c : ascii) : option (scan_state * list parse_state) :=
  match st with
  | BeginValue => step_begin c stack
  | BeginValueOrEmpty =>
      if is_ws c then Some (BeginValueOrEmpty, stack) else if Ascii.eqb c "]" then step_end c stack else step_begin c stack
  | BeginStringOrEmpty =>
      if is_ws c then Some (BeginStringOrEmpty, stack)
      else if Ascii.eqb c "}" then step_end c (match stack with _ :: rest => ParseValue :: rest | [] => [] end)
      else step_string c stack
  | BeginString => step_string c stack
  | InString =>
      if Ascii.eqb c dquote then Some (EndValue, stack)
      else if Ascii.eqb c bslash then Some (InEsc, stack)
      else if byte_of c <? 32 then None else Some (InString, stack)
  | InEsc =>
      if is_char c "bfnrt/" || Ascii.eqb c bslash || Ascii.eqb c dquote then Some (InString, stack)
      else if Ascii.eqb c "u" then Some (InEscU 4, stack) else None
  | InEscU n =>
      if is_hex c then Some (match n with S (S m) => InEscU (S m) | _ => InString end, stack) else None
  | Neg => if Ascii.eqb c "0" then Some (Zero, stack) else if nonzero_digit c then Some (Digits, stack) else None
  | Digits => if is_digit c then Some (Digits, stack) else step_number c stack
  | Zero => step_number c stack
  | Dot => if is_digit c then Some (Frac, stack) else None
  | Frac => if is_digit c then Some (Frac, stack) else if is_char c "eE" then Some (Exp, stack) else step_end c stack
  | Exp => if is_char c "+-" then Some (ExpSign, stack) else if is_digit c then Some (ExpDigits, stack) else None
  | ExpSign => if is_digit c then Some (ExpDigits, stack) else None
  | ExpDigits => if is_digit c then Some (ExpDigits, stack) else step_end c stack
  | Literal rest =>
      match rest with
      | String x more => if Ascii.eqb c x then Some (match more with "" => EndValue | _ => Literal more end, stack) else None
      | "" => None
      end
  | EndValue => step_end c stack
  | EndTop => if is_ws c then Some (EndTop, stack) else None
  end.

Fixpoint scan_json (st : scan_state) (stack : list parse_state) (s : string) : option (scan_state * list parse_state) :=
  match s with
  | "" => Some (st, stack)
  | String c s => match scan_step st stack c with Some (st, stack) => scan_json st stack s | None => None end
  end.

(** The end of the input is read as a space. *)
Definition json_valid (s : string) : bool :=
  match scan_json BeginValue [] s with
  | Some (st, stack) =>
      match st with
      | EndTop => true
      | _ => match scan_step st stack " " with Some (EndTop, _) => true | _ => false end
      end
  | None => false
  end.

(** A JSON object: what unmarshals into a map that is not nil. *)
Definition first_is (c : ascii) (s : string) : bool := match skip_ws s with String x _ => Ascii.eqb x c | "" => false end.
Definition json_object (s : string) : bool := json_valid s && first_is "{" s.

Example valid_cases :
  json_valid (String dquote (String "a" (String dquote ""))) = true ∧ json_valid "{}" = true ∧ json_valid " [1, -0.5e+3, true, null, {}] " = true ∧
  json_valid "01" = false ∧ json_valid "[1,]" = false ∧ json_valid "{" = false ∧ json_valid "" = false ∧ json_valid "1 2" = false ∧
  json_object "null" = false ∧ json_object " {} " = true ∧ json_valid "-" = false ∧ json_valid "tru" = false.
Proof. by vm_compute. Qed.
