(* ===== verification/MachineMessage.v ===== *)
(** * The messages between a machine and the gateway (src/machine)

    What both sides share (src/machine/protocol.go, directive.go, llm.go,
    coding.go): the kinds of directives and the capabilities they need, the
    messages, and the check of what a machine sends. Errors are values that
    carry what the code's text tells. *)

From S2P Require Import Prelude GoStr Utf8 Message Json JsonValid.
Open Scope string_scope.
Open Scope Z_scope.
Open Scope list_scope.

(** A product of int64, as Go wraps it. *)
Definition wrap64 (z : Z) : Z := (z + 2 ^ 63) mod 2 ^ 64 - 2 ^ 63.
Definition millisecond : Z := 1000000.

(** ** Kinds and capabilities (directive.go, llm.go, coding.go) *)

Definition KindEcho : string := "echo".
Definition KindLLM : string := "llm".
Definition KindAnalyzeRepo : string := "analyze_repo".
Definition KindImplementFeature : string := "implement_feature".
Definition CapClaudeCode : string := "claude-code".
Definition CapGitPush : string := "git-push".
Definition CapRunSkills : string := "run-skills".
Definition CapLLM : string := "llm".
Definition FamilyCoding : string := "coding".
Definition FamilyLLM : string := "llm".

Definition FamilyOf (kind : string) : string := if String.eqb kind KindLLM then FamilyLLM else FamilyCoding.

Definition CapabilityOf (kind : string) : string :=
  if contains [KindAnalyzeRepo; KindImplementFeature] kind then CapClaudeCode else kind.

Definition CapabilitiesOf (kind : string) : list string :=
  if String.eqb kind KindImplementFeature then [CapClaudeCode; CapGitPush] else [CapabilityOf kind].

(** ** Cut (protocol.go) *)

(** [s[:end]]: Go panics on a negative end, and its callers' bounds are over
    the mark's 3 bytes. *)
Definition Cut (s : string) (n : Z) : string :=
  if len s <=? n then s else take_str (back_to_rune s (Z.to_nat (n - len ellipsis))) s +:+ ellipsis.

Lemma Cut_len s n : 3 ≤ n → len (Cut s n) ≤ n.
Proof.
  intros Hn. unfold Cut. destruct (Z.leb_spec (len s) n); [done|].
  pose proof (back_to_rune_le s (Z.to_nat (n - len ellipsis))) as Hb. change (len ellipsis) with 3 in *.
  unfold len in *. rewrite length_app_str, length_take_str. change (String.length ellipsis) with 3%nat. lia.
Qed.

Lemma Cut_short s n : len s ≤ n → Cut s n = s.
Proof. intros H. unfold Cut. by destruct (Z.leb_spec (len s) n); [|lia]. Qed.

Lemma Cut_idem s n : 3 ≤ n → Cut (Cut s n) n = Cut s n.
Proof. intros Hn. by apply Cut_short, Cut_len. Qed.

(** Cut text is still UTF-8: the cut is on a rune boundary. *)
Lemma Cut_valid s n : 3 ≤ n → valid_utf8 s = true → valid_utf8 (Cut s n) = true.
Proof.
  intros Hn Hv. unfold Cut. destruct (Z.leb_spec (len s) n); [done|]. apply valid_app; [|reflexivity].
  set (k := back_to_rune _ _). pose proof (back_to_rune_le s (Z.to_nat (n - len ellipsis))) as Hb. fold k in Hb.
  change (len ellipsis) with 3 in *. unfold len in *. apply valid_take; [done|].
  destruct (get_lt s k ltac:(lia)) as [c Hc]. destruct (back_to_rune_start s (Z.to_nat (n - 3)) c ltac:(lia) Hc); eauto.
Qed.

(** ** Shapes *)

Definition in_class (ranges : list (ascii * ascii)) (c : ascii) : bool :=
  existsb (λ r, in_range (byte_of (fst r)) (byte_of (snd r)) c) ranges.

(** [^[class]{lo,hi}$]. *)
Definition matches (p : ascii → bool) (lo hi : Z) (s : string) : bool := (lo <=? len s) && (len s <=? hi) && all_bytes p s.

Definition lower : ascii * ascii := ("a", "z")%char.
Definition upper : ascii * ascii := ("A", "Z")%char.
Definition digits09 : ascii * ascii := ("0", "9")%char.
Definition dash : ascii * ascii := ("-", "-")%char.
Definition underscore : ascii * ascii := ("_", "_")%char.

Definition id_ok (s : string) : bool := matches (in_class [upper; lower; digits09; dash]) 1 64 s.
Definition ValidCapability (s : string) : bool := matches (in_class [lower; digits09; dash]) 1 32 s.

(** ** What a machine sends (protocol.go) *)

Definition TypeHello : string := "hello".
Definition TypeRotated : string := "rotated".
Definition TypeProgress : string := "progress".
Definition TypeResult : string := "result".
Definition TypeCapabilities : string := "capabilities".

Definition StatusOK : string := "ok".
Definition StatusError : string := "error".
Definition StatusCanceled : string := "canceled".
Definition StatusStopping : string := "machine_stopping".
Definition StatusRefused : string := "refused".

Definition MaxMessageBytes : Z := 256 * 1024.
Definition MaxReadBytes : Z := Z.shiftl 4 20.
Definition CodeBusy : string := "busy".
Definition MaxProgressBytes : Z := 1024.
Definition MaxListedIDs : Z := 64.
Definition MaxCapabilities : Z := 16.
Definition MaxDirectivesLimit : Z := 16.
Definition MaxErrorBytes : Z := 4096.
Definition MaxLLMLimit : Z := 16.
Definition MaxLLMModelBytes : Z := 128.

Definition LLMStateOK : string := "ok".
Definition LLMStateRefused : string := "refused".

(** [machine.Message]: the fields the others leave out are empty. *)
Record WireMessage := mkWire {
  WType : string;
  WProtocol : Z;
  WAgentVersion : string;
  WOS : string;
  WCapabilities : list string;
  WMaxDirectives : Z;
  WRunning : list string;
  WFinished : list string;
  WClaudeCode : string;
  WMaxLLM : Z;
  WLLMProvider : string;
  WLLMModel : string;
  WLLM : string;
  WMachineID : string;
  WName : string;
  WToken : string;
  WID : string;
  WKind : string;
  WInput : string;
  WDeadline : option time;
  WText : string;
  WStatus : string;
  WOutput : string;
  WError : string;
  WCode : string
}.

Inductive BadMessage :=
| BadProtocol
| BadMaxDirectives (n : Z)
| BadMaxLLM (n : Z)
| BadListed (n : Z)
| BadID (id : string)
| BadCapabilities (n : Z)
| BadCapability (c : string)
| BadClaudeCode (s : string)
| BadLLM (s : string)
| BadStatus (s : string)
| BadOutput
| BadType (t : string).

(** The first of [l] that is not of the shape. *)
Definition first_bad (p : string → bool) (l : list string) : option string := List.find (λ s, negb (p s)) l.

Definition checkStatus (m : WireMessage) : option BadMessage :=
  if MaxCapabilities <? Z.of_nat (length (WCapabilities m)) then Some (BadCapabilities (Z.of_nat (length (WCapabilities m))))
  else
    match first_bad ValidCapability (WCapabilities m) with
    | Some c => Some (BadCapability c)
    | None =>
        if negb (contains [""; "ok"; "logged_out"; "absent"] (WClaudeCode m)) then Some (BadClaudeCode (WClaudeCode m))
        else if negb (contains [""; LLMStateOK; LLMStateRefused] (WLLM m)) then Some (BadLLM (WLLM m))
        else None
    end.

Definition cut_hello (m : WireMessage) : WireMessage :=
  mkWire (WType m) (WProtocol m) (Cut (WAgentVersion m) 64) (Cut (WOS m) 64) (WCapabilities m) (WMaxDirectives m) (WRunning m)
    (WFinished m) (WClaudeCode m) (WMaxLLM m) (Cut (WLLMProvider m) 64) (Cut (WLLMModel m) MaxLLMModelBytes) (WLLM m)
    (WMachineID m) (WName m) (WToken m) (WID m) (WKind m) (WInput m) (WDeadline m) (WText m) (WStatus m) (WOutput m) (WError m)
    (WCode m).

Definition cut_text (error_too : bool) (m : WireMessage) : WireMessage :=
  mkWire (WType m) (WProtocol m) (WAgentVersion m) (WOS m) (WCapabilities m) (WMaxDirectives m) (WRunning m)
    (WFinished m) (WClaudeCode m) (WMaxLLM m) (WLLMProvider m) (WLLMModel m) (WLLM m)
    (WMachineID m) (WName m) (WToken m) (WID m) (WKind m) (WInput m) (WDeadline m) (Cut (WText m) MaxProgressBytes) (WStatus m)
    (WOutput m) (if error_too then Cut (WError m) MaxErrorBytes else WError m) (WCode m).

Definition refuse_or {A} (why : option BadMessage) (a : A) : BadMessage + A :=
  match why with Some b => inl b | None => inr a end.

Definition check_hello (m : WireMessage) : BadMessage + WireMessage :=
  let listed := Z.of_nat (length (WRunning m) + length (WFinished m)) in
  if WProtocol m <=? 0 then inl BadProtocol
  else if (WMaxDirectives m <? 1) || (MaxDirectivesLimit <? WMaxDirectives m) then inl (BadMaxDirectives (WMaxDirectives m))
  else if (WMaxLLM m <? 0) || (MaxLLMLimit <? WMaxLLM m) then inl (BadMaxLLM (WMaxLLM m))
  else if MaxListedIDs <? listed then inl (BadListed listed)
  else
    match first_bad id_ok (WRunning m ++ WFinished m) with
    | Some id => inl (BadID id)
    | None => refuse_or (checkStatus (cut_hello m)) (cut_hello m)
    end.

Definition check_result (m : WireMessage) : BadMessage + WireMessage :=
  if negb (id_ok (WID m)) then inl (BadID (WID m))
  else if negb (contains [StatusOK; StatusError; StatusCanceled; StatusStopping; StatusRefused] (WStatus m)) then inl (BadStatus (WStatus m))
  else if negb (String.eqb (WOutput m) "") && negb (json_valid (WOutput m)) then inl BadOutput
  else inr (cut_text true m).

Definition CheckFromMachine (m : WireMessage) : BadMessage + WireMessage :=
  if String.eqb (WType m) TypeHello then check_hello m
  else if String.eqb (WType m) TypeCapabilities then refuse_or (checkStatus m) m
  else if String.eqb (WType m) TypeRotated then inr m
  else if String.eqb (WType m) TypeProgress then
    if negb (id_ok (WID m)) then inl (BadID (WID m)) else inr (cut_text false m)
  else if String.eqb (WType m) TypeResult then check_result m
  else inl (BadType (WType m)).

(** ** What is accepted *)

(** The message is what its type may carry, within its bounds. *)
Definition status_bounded (m : WireMessage) : Prop :=
  Z.of_nat (length (WCapabilities m)) ≤ MaxCapabilities ∧ (∀ c, c ∈ WCapabilities m → ValidCapability c = true) ∧
  WClaudeCode m ∈ [""; "ok"; "logged_out"; "absent"] ∧ WLLM m ∈ [""; LLMStateOK; LLMStateRefused].

Definition hello_bounded (m : WireMessage) : Prop :=
  0 < WProtocol m ∧ 1 ≤ WMaxDirectives m ≤ MaxDirectivesLimit ∧ 0 ≤ WMaxLLM m ≤ MaxLLMLimit ∧
  Z.of_nat (length (WRunning m) + length (WFinished m)) ≤ MaxListedIDs ∧
  (∀ id, id ∈ WRunning m ∨ id ∈ WFinished m → id_ok id = true) ∧ status_bounded m.

Definition result_bounded (m : WireMessage) : Prop :=
  id_ok (WID m) = true ∧ WStatus m ∈ [StatusOK; StatusError; StatusCanceled; StatusStopping; StatusRefused] ∧
  (WOutput m = "" ∨ json_valid (WOutput m) = true).

Lemma first_bad_none p l : first_bad p l = None ↔ ∀ s, s ∈ l → p s = true.
Proof.
  unfold first_bad. split.
  - intros Hn s Hs. apply list_elem_of_In in Hs. apply (find_none _ _ Hn) in Hs. by apply negb_false_iff in Hs.
  - intros H. destruct (List.find _ l) as [s|] eqn:E; [|done]. apply find_some in E as [Hs Hp].
    rewrite <- list_elem_of_In in Hs. by rewrite H in Hp.
Qed.

Lemma checkStatus_none m : checkStatus m = None ↔ status_bounded m.
Proof.
  unfold checkStatus, status_bounded. rewrite <- first_bad_none, <- !contains_spec.
  destruct (Z.ltb_spec MaxCapabilities (Z.of_nat (length (WCapabilities m)))); [split; [done|lia]|].
  destruct (first_bad ValidCapability (WCapabilities m)) as [c|]; [naive_solver|].
  destruct (contains _ (WClaudeCode m)); cbn [negb]; [|naive_solver]. destruct (contains _ (WLLM m)); cbn [negb]; naive_solver.
Qed.

Lemma hello_inr m m' : check_hello m = inr m' ↔ m' = cut_hello m ∧ hello_bounded m.
Proof.
  unfold check_hello, hello_bounded. setoid_rewrite <- elem_of_app. rewrite <- first_bad_none.
  assert (Hs : status_bounded m ↔ checkStatus (cut_hello m) = None) by (rewrite checkStatus_none; done). rewrite Hs. clear Hs.
  destruct (Z.leb_spec (WProtocol m) 0); [split; [done|lia]|].
  destruct (Z.ltb_spec (WMaxDirectives m) 1); cbn [orb]; [split; [done|lia]|].
  destruct (Z.ltb_spec MaxDirectivesLimit (WMaxDirectives m)); [split; [done|lia]|].
  destruct (Z.ltb_spec (WMaxLLM m) 0); cbn [orb]; [split; [done|lia]|].
  destruct (Z.ltb_spec MaxLLMLimit (WMaxLLM m)); [split; [done|lia]|].
  destruct (Z.ltb_spec MaxListedIDs (Z.of_nat (length (WRunning m) + length (WFinished m)))); [split; [done|lia]|].
  destruct (first_bad id_ok (WRunning m ++ WFinished m)) as [id|]; [naive_solver|].
  destruct (checkStatus (cut_hello m)); cbn; naive_solver.
Qed.

Lemma result_inr m m' : check_result m = inr m' ↔ m' = cut_text true m ∧ result_bounded m.
Proof.
  unfold check_result, result_bounded. rewrite <- contains_spec. destruct (id_ok (WID m)); cbn [negb]; [|naive_solver].
  destruct (contains _ (WStatus m)); cbn [negb]; [|naive_solver]. destruct (String.eqb_spec (WOutput m) ""); cbn [negb andb]; [naive_solver|].
  destruct (json_valid (WOutput m)); cbn [negb andb]; naive_solver.
Qed.

Lemma from_machine_iff m m' :
  CheckFromMachine m = inr m' ↔
  (WType m = TypeHello ∧ m' = cut_hello m ∧ hello_bounded m) ∨
  (WType m = TypeCapabilities ∧ m' = m ∧ status_bounded m) ∨
  (WType m = TypeRotated ∧ m' = m) ∨
  (WType m = TypeProgress ∧ m' = cut_text false m ∧ id_ok (WID m) = true) ∨
  (WType m = TypeResult ∧ m' = cut_text true m ∧ result_bounded m).
Proof.
  unfold CheckFromMachine.
  destruct (String.eqb_spec (WType m) TypeHello) as [->|H1]; [rewrite hello_inr; naive_solver|].
  destruct (String.eqb_spec (WType m) TypeCapabilities) as [->|H2].
  { rewrite <- checkStatus_none. destruct (checkStatus m); cbn; naive_solver. }
  destruct (String.eqb_spec (WType m) TypeRotated) as [->|H3]; [naive_solver|].
  destruct (String.eqb_spec (WType m) TypeProgress) as [->|H4]; [destruct (id_ok (WID m)); naive_solver|].
  destruct (String.eqb_spec (WType m) TypeResult) as [->|H5]; [rewrite result_inr; naive_solver|]. naive_solver.
Qed.

(** The texts of an accepted message. *)
Lemma accepted_texts m m' :
  CheckFromMachine m = inr m' →
  (WType m = TypeHello → len (WOS m') ≤ 64 ∧ len (WAgentVersion m') ≤ 64 ∧ len (WLLMModel m') ≤ MaxLLMModelBytes) ∧
  (WType m = TypeProgress ∨ WType m = TypeResult → len (WText m') ≤ MaxProgressBytes) ∧
  (WType m = TypeResult → len (WError m') ≤ MaxErrorBytes).
Proof.
  unfold CheckFromMachine. intros H.
  destruct (String.eqb_spec (WType m) TypeHello) as [Ht|_]; [apply hello_inr in H as [-> _]|
  destruct (String.eqb_spec (WType m) TypeCapabilities) as [Ht|_]; [by rewrite Ht; split_and!; intros; destruct_or?|
  destruct (String.eqb_spec (WType m) TypeRotated) as [Ht|_]; [by rewrite Ht; split_and!; intros; destruct_or?|
  destruct (String.eqb_spec (WType m) TypeProgress) as [Ht|_]; [destruct (id_ok (WID m)); [injection H as <-|done]|
  destruct (String.eqb_spec (WType m) TypeResult) as [Ht|_]; [apply result_inr in H as [-> _]|done]]]]].
  all: rewrite Ht; split_and!; intros; destruct_or?; try discriminate; split_and?; cbn; by apply Cut_len.
Qed.

Lemma cut_hello_idem m : cut_hello (cut_hello m) = cut_hello m.
Proof. unfold cut_hello. cbn. by rewrite !Cut_idem. Qed.

Lemma cut_text_idem e m : cut_text e (cut_text e m) = cut_text e m.
Proof. unfold cut_text. cbn. rewrite Cut_idem by done. by destruct e; rewrite ?Cut_idem. Qed.

(** What a machine sends is accepted exactly when it is a message of a
    machine's within its type's bounds (listed directives, caps, capabilities,
    states, identifiers, JSON output); its texts are then cut to theirs, and
    what was accepted is accepted again as it is. *)
Theorem from_machine_exact m m' :
  (CheckFromMachine m = inr m' ↔
  (WType m = TypeHello ∧ m' = cut_hello m ∧ hello_bounded m) ∨
  (WType m = TypeCapabilities ∧ m' = m ∧ status_bounded m) ∨
  (WType m = TypeRotated ∧ m' = m) ∨
  (WType m = TypeProgress ∧ m' = cut_text false m ∧ id_ok (WID m) = true) ∨
  (WType m = TypeResult ∧ m' = cut_text true m ∧ result_bounded m)) ∧
  (CheckFromMachine m = inr m' →
    CheckFromMachine m' = inr m' ∧
    (WType m = TypeHello → len (WOS m') ≤ 64 ∧ len (WAgentVersion m') ≤ 64 ∧ len (WLLMModel m') ≤ MaxLLMModelBytes) ∧
    (WType m = TypeProgress ∨ WType m = TypeResult → len (WText m') ≤ MaxProgressBytes) ∧
    (WType m = TypeResult → len (WError m') ≤ MaxErrorBytes)).
Proof.
  split; [apply from_machine_iff|]. intros H. split; [|by apply accepted_texts].
  apply from_machine_iff in H as [(Ht & -> & Hb)|[(Ht & -> & Hb)|[(Ht & ->)|[(Ht & -> & Hb)|(Ht & -> & Hb)]]]];
    apply from_machine_iff; rewrite ?cut_hello_idem, ?cut_text_idem; tauto.
Qed.

(** ** What a machine and the gateway check of each other's contents

    The model's answer (CheckLLMOutput of src/machine/llm.go, checkLLMResult of
    src/gateway/llm.go), a run's skills and the plugin's files
    (src/machine/skills.go). The decoding of JSON into a struct is
    encoding/json's, a parameter; sizes and checks are the code's. *)

(** ** The model's answer *)

Definition MaxLLMOutputBytes : Z := 1536 * 1024.
Definition MaxLLMContentBytes : Z := 256 * 1024.
Definition MaxLLMToolCalls : Z := 64.

Definition StopReasons : list string :=
  ["end_turn"; "max_tokens"; "stop_sequence"; "tool_use"; "pause_turn"; "refusal"; "model_context_window_exceeded"].

Record AnswerCall := mkAnswerCall { AcID : string; AcName : string; AcInput : string }.
Record Answer := mkAnswer { AnContent : string; AnToolCalls : list AnswerCall; AnStopReason : string; AnModel : string }.

Inductive BadAnswer :=
| AnswerTooLarge (n : Z)
| AnswerUnreadable
| TextTooLarge (n : Z)
| TooManyCalls (n : Z)
| CallWithoutID (i : Z)
| CallTwice (id : string)
| CallWithoutName (i : Z)
| CallInputNoObject (i : Z)
| UnknownStopReason (s : string)
| ModelNameTooLong (n : Z).

(** The loop over the calls: the IDs seen before. *)
Fixpoint check_calls (i : Z) (ids : list string) (calls : list AnswerCall) : option BadAnswer :=
  match calls with
  | [] => None
  | tc :: calls =>
      if String.eqb (AcID tc) "" then Some (CallWithoutID i)
      else if contains ids (AcID tc) then Some (CallTwice (Cut (AcID tc) 64))
      else if String.eqb (AcName tc) "" then Some (CallWithoutName i)
      else if negb (json_object (AcInput tc)) then Some (CallInputNoObject i)
      else check_calls (i + 1) (AcID tc :: ids) calls
  end.

Definition check_answer (a : Answer) : option BadAnswer :=
  if MaxLLMContentBytes <? len (AnContent a) then Some (TextTooLarge (len (AnContent a)))
  else if MaxLLMToolCalls <? Z.of_nat (length (AnToolCalls a)) then Some (TooManyCalls (Z.of_nat (length (AnToolCalls a))))
  else
    match check_calls 0 [] (AnToolCalls a) with
    | Some bad => Some bad
    | None =>
        if negb (contains StopReasons (AnStopReason a)) then Some (UnknownStopReason (Cut (AnStopReason a) 64))
        else if MaxLLMModelBytes <? len (AnModel a) then Some (ModelNameTooLong (len (AnModel a)))
        else None
    end.

Section Unmarshal.
(** [json.Unmarshal] of an answer, and of a failure's type. *)
Variable unmarshal_answer : string → option Answer.
Variable unmarshal_failure : string → option string.
(** The text of a refusal, and the JSON of a failure of that type. *)
Variable refusal_text : BadAnswer → string.
Variable marshal_failure : string → string.

Definition CheckLLMOutput (raw : string) : BadAnswer + Answer :=
  if MaxLLMOutputBytes <? len raw then inl (AnswerTooLarge (len raw))
  else
    match unmarshal_answer raw with
    | None => inl AnswerUnreadable
    | Some a => match check_answer a with Some bad => inl bad | None => inr a end
    end.

Definition LLMFailBadResult : string := "bad_result".

(** The failure the gateway writes in a refused result's place. *)
Definition refused_result (m : WireMessage) (why : string) : WireMessage :=
  mkWire TypeResult 0 "" "" [] 0 [] [] "" 0 "" "" "" "" "" "" (WID m) "" "" None "" StatusError (marshal_failure LLMFailBadResult)
    (Cut ("the machine's answer was refused: " +:+ why) MaxErrorBytes) "".

Definition drop_output (m : WireMessage) : WireMessage :=
  mkWire (WType m) (WProtocol m) (WAgentVersion m) (WOS m) (WCapabilities m) (WMaxDirectives m) (WRunning m)
    (WFinished m) (WClaudeCode m) (WMaxLLM m) (WLLMProvider m) (WLLMModel m) (WLLM m) (WMachineID m) (WName m) (WToken m)
    (WID m) (WKind m) (WInput m) (WDeadline m) (WText m) (WStatus m) "" (WError m) (WCode m).

Definition checkLLMResult (m : WireMessage) : WireMessage :=
  if String.eqb (WStatus m) StatusOK then
    match CheckLLMOutput (WOutput m) with inl bad => refused_result m (refusal_text bad) | inr _ => m end
  else if String.eqb (WStatus m) StatusError then
    if MaxMessageBytes <? len (WOutput m) then refused_result m "failure too large"
    else if (0 <? len (WOutput m)) && is_none (unmarshal_failure (WOutput m)) then refused_result m "failure unreadable"
    else m
  else if MaxMessageBytes <? len (WOutput m) then drop_output m
  else m.

(** An answer a turn can carry. *)
Definition answer_bounded (a : Answer) : Prop :=
  len (AnContent a) ≤ MaxLLMContentBytes ∧ Z.of_nat (length (AnToolCalls a)) ≤ MaxLLMToolCalls ∧
  NoDup (AcID <$> AnToolCalls a) ∧
  (∀ tc, tc ∈ AnToolCalls a → AcID tc ≠ "" ∧ AcName tc ≠ "" ∧ json_object (AcInput tc) = true) ∧
  AnStopReason a ∈ StopReasons ∧ len (AnModel a) ≤ MaxLLMModelBytes.

Lemma check_calls_none i ids calls :
  check_calls i ids calls = None ↔
  NoDup (AcID <$> calls) ∧ (∀ tc, tc ∈ calls → AcID tc ∉ ids) ∧
  (∀ tc, tc ∈ calls → AcID tc ≠ "" ∧ AcName tc ≠ "" ∧ json_object (AcInput tc) = true).
Proof.
  revert i ids. induction calls as [|tc calls IH]; intros i ids; cbn [check_calls fmap list_fmap].
  - split; [intros _; split_and!; [constructor|set_solver..]|done].
  - destruct (String.eqb_spec (AcID tc) "") as [E|E]; [split; [done|]; intros (_ & _ & H); destruct (H tc); [by left|done]|].
    destruct (contains ids (AcID tc)) eqn:Ec.
    { split; [done|]. intros (_ & H & _). apply contains_spec in Ec. by destruct (H tc); [left|]. }
    destruct (String.eqb_spec (AcName tc) "") as [En|En]; [split; [done|]; intros (_ & _ & H); destruct (H tc) as (_ & ? & _); [by left|done]|].
    destruct (json_object (AcInput tc)) eqn:Ej; cbn [negb].
    2:{ split; [done|]. intros (_ & _ & H). destruct (H tc) as (_ & _ & ?); [by left|congruence]. }
    apply contains_false in Ec. rewrite IH, NoDup_cons. clear IH. setoid_rewrite elem_of_cons. setoid_rewrite list_elem_of_fmap.
    split; intros; naive_solver.
Qed.

Lemma check_answer_none a : check_answer a = None ↔ answer_bounded a.
Proof.
  unfold check_answer, answer_bounded. rewrite <- contains_spec.
  destruct (Z.ltb_spec MaxLLMContentBytes (len (AnContent a))); [split; [done|lia]|].
  destruct (Z.ltb_spec MaxLLMToolCalls (Z.of_nat (length (AnToolCalls a)))); [split; [done|lia]|].
  pose proof (check_calls_none 0 [] (AnToolCalls a)) as Hc. destruct (check_calls _ _ _) as [bad|].
  { split; [done|]. intros (_ & _ & H1 & H2 & _). destruct Hc as [_ Hc]. discriminate Hc. split_and!; [done|set_solver|done]. }
  destruct Hc as [Hc _]. destruct (Hc eq_refl) as (H1 & _ & H2).
  destruct (contains StopReasons (AnStopReason a)); cbn [negb]; [|naive_solver].
  destruct (Z.ltb_spec MaxLLMModelBytes (len (AnModel a))); [split; [done|lia]|]. tauto.
Qed.

(** A machine's answer is taken exactly when it is small enough, readable,
    and one a turn can carry: its text and calls within their bounds, each
    call with an ID of its own, a name and an object as input, a known stop
    reason. The gateway keeps of a result an answer so checked, or a failure,
    never a larger output. *)
Theorem llm_answer_checked raw m :
  (∀ a, CheckLLMOutput raw = inr a ↔ len raw ≤ MaxLLMOutputBytes ∧ unmarshal_answer raw = Some a ∧ answer_bounded a) ∧
  (WStatus (checkLLMResult m) = StatusOK → ∃ a, checkLLMResult m = m ∧ CheckLLMOutput (WOutput m) = inr a) ∧
  (WStatus (checkLLMResult m) ≠ StatusOK → len (marshal_failure LLMFailBadResult) ≤ MaxMessageBytes →
    len (WOutput (checkLLMResult m)) ≤ MaxMessageBytes) ∧
  WID (checkLLMResult m) = WID m.
Proof.
  split; [|split; [|split]].
  - intros a. unfold CheckLLMOutput. destruct (Z.ltb_spec MaxLLMOutputBytes (len raw)); [split; [done|lia]|].
    destruct (unmarshal_answer raw) as [b|]; [|naive_solver]. pose proof (check_answer_none b) as Hb.
    destruct (check_answer b); naive_solver.
  - unfold checkLLMResult. destruct (String.eqb_spec (WStatus m) StatusOK) as [E|E].
    + destruct (CheckLLMOutput (WOutput m)); [done|eauto].
    + repeat case_match; cbn; congruence || done.
  - unfold checkLLMResult. repeat case_match; cbn; bool_to_prop; try congruence; try lia; try done.
  - unfold checkLLMResult. by repeat case_match.
Qed.
End Unmarshal.

(** A decoder for the witness: one answer is readable. *)
Definition demo_answer : Answer := mkAnswer "done" [mkAnswerCall "c1" "save_memory" "{}"] "tool_use" "m".
Definition demo_result (output : string) : WireMessage :=
  mkWire TypeResult 0 "" "" [] 0 [] [] "" 0 "" "" "" "" "" "" "d1" "" "" None "" StatusOK output "" "".

Lemma llm_answer_checked_witness :
  let decode s := if String.eqb s "answer" then Some demo_answer else None in
  let text _ := "refused" in
  let fail t := "{" +:+ t +:+ "}" in
  CheckLLMOutput decode "answer" = inr demo_answer ∧ answer_bounded demo_answer ∧
  WStatus (checkLLMResult decode (λ _, None) text fail (demo_result "other")) = StatusError.
Proof.
  cbv zeta. split; [reflexivity|]. split; [|reflexivity].
  destruct (llm_answer_checked (λ s, if String.eqb s "answer" then Some demo_answer else None) (λ _, None) (λ _, "refused")
    (λ t, "{" +:+ t +:+ "}") "answer" (demo_result "other")) as [H _].
  exact (proj2 (proj2 (proj1 (H demo_answer) eq_refl))).
Defined.

(** ** A coding run's skills (skills.go) *)

Definition PluginName : string := "temporal-agent".
Definition MaxRunSkills : Z := 16.
Definition MaxRunSkillsBytes : Z := 64 * 1024.
Definition maxSkillDescription : Z := 1024.

Record RunSkill := mkSkill { SkName : string; SkDescription : string; SkContent : string }.

(** [^[a-z0-9][a-z0-9_-]{0,63}$]. *)
Definition skill_name_ok (s : string) : bool :=
  match s with
  | "" => false
  | String c rest => in_class [lower; digits09] c && matches (in_class [lower; digits09; underscore; dash]) 0 63 rest
  end.

Fixpoint unique_loop (seen : list string) (skills : list RunSkill) : list RunSkill :=
  match skills with
  | [] => []
  | s :: skills => if contains seen (SkName s) then unique_loop seen skills else s :: unique_loop (SkName s :: seen) skills
  end.

Definition UniqueSkills (skills : list RunSkill) : list RunSkill := unique_loop [] skills.

Inductive BadSkills := TooManySkills (n : Z) | BadSkillName (s : string) | SkillsTooLarge (n : Z).

Definition skill_size (s : RunSkill) : Z := len (SkName s) + len (SkDescription s) + len (SkContent s).

Definition CheckRunSkills (skills : list RunSkill) : option BadSkills :=
  if MaxRunSkills <? Z.of_nat (length skills) then Some (TooManySkills (Z.of_nat (length skills)))
  else
    match List.find (λ s, negb (skill_name_ok (SkName s))) skills with
    | Some s => Some (BadSkillName (SkName s))
    | None =>
        let size := fold_left (λ n s, n + skill_size s) skills 0 in
        if MaxRunSkillsBytes <? size then Some (SkillsTooLarge size) else None
    end.

(** [quoteScalar]: JSON's quoting, without the escapes of HTML. *)
Definition plain_escape (s : string) : string :=
  match s with
  | "" => ""
  | String c _ => if (byte_of c =? 60) || (byte_of c =? 62) || (byte_of c =? 38) then String c "" else escape_first s
  end.

Fixpoint plain_loop (fuel : nat) (s : string) : string :=
  match fuel, s with
  | S fuel, String _ _ => plain_escape s +:+ plain_loop fuel (drop_str (snd (decode_rune s)) s)
  | _, _ => ""
  end.

Definition quoteScalar (s : string) : string := String dquote (plain_loop (String.length s) s +:+ String dquote "").

Definition newline : string := String (byte 10) "".

Definition skillFile (s : RunSkill) : string :=
  let desc := trim_space (SkDescription s) in
  let desc := if String.eqb desc "" then "Skill " +:+ SkName s +:+ " of the agent that started this run." else desc in
  "---" +:+ newline +:+ "name: " +:+ quoteScalar (SkName s) +:+ newline +:+
  "description: " +:+ quoteScalar (Cut desc maxSkillDescription) +:+ newline +:+ "---" +:+ newline +:+ newline +:+
  SkContent s +:+ newline.

(** [WritePlugin]: the files it writes under its directory, in order; the
    manifest's JSON is [manifest]. *)
Definition WritePlugin (manifest : string) (skills : list RunSkill) : BadSkills + list (string * string) :=
  let skills := UniqueSkills skills in
  match CheckRunSkills skills with
  | Some bad => inl bad
  | None =>
      inr ((".claude-plugin/plugin.json", manifest) ::
           ((λ s, ("skills/" +:+ SkName s +:+ "/SKILL.md", skillFile s)) <$> skills))
  end.

Definition PluginSkill (name : string) : string := PluginName +:+ ":" +:+ name.

Definition SkillNotLoaded : string := "not loaded by the CLI".

Definition SkillsNotLoaded (names slashCommands : list string) : list string :=
  (λ n, n +:+ ": " +:+ SkillNotLoaded) <$>
    List.filter (λ n, negb (existsb (λ c, String.eqb (trim_prefix c "/") (PluginSkill n)) slashCommands)) names.

(** *** What the plugin holds *)

Lemma unique_loop_spec seen skills :
  NoDup (SkName <$> unique_loop seen skills) ∧ (∀ s, s ∈ unique_loop seen skills → s ∈ skills ∧ SkName s ∉ seen) ∧
  (∀ s, s ∈ skills → SkName s ∈ seen ∨ SkName s ∈ (SkName <$> unique_loop seen skills)).
Proof.
  revert seen. induction skills as [|s skills IH]; intros seen; cbn [unique_loop]; [split_and!; [constructor|set_solver..]|].
  destruct (contains seen (SkName s)) eqn:E.
  - apply contains_spec in E. destruct (IH seen) as (H1 & H2 & H3). split_and!; [done|set_solver|].
    intros x [->|Hx]%elem_of_cons; auto.
  - apply contains_false in E. destruct (IH (SkName s :: seen)) as (H1 & H2 & H3). cbn. split_and!.
    + constructor; [|done]. intros (x & Hx & Hin)%list_elem_of_fmap. apply H2 in Hin. set_solver.
    + intros x [->|Hx]%elem_of_cons; [split; [by left|done]|]. apply H2 in Hx. set_solver.
    + intros x [->|Hx]%elem_of_cons; [right; by left|]. destruct (H3 x Hx) as [[->|]%elem_of_cons|]; [right; by left|by left|].
      right. by right.
Qed.

(** No byte of a quoted text is a control character: it stays on its line. *)
Definition printable (c : ascii) : bool := 32 <=? byte_of c.

Lemma ascii_escape_printable c : byte_of c < 128 → all_bytes printable (ascii_escape c) = true.
Proof. destruct c as [[] [] [] [] [] [] [] []]; vm_compute; done. Qed.

Lemma take_high n s : (∀ k c, String.get k s = Some c → (k < n)%nat → 128 ≤ byte_of c) → all_bytes printable (take_str n s) = true.
Proof.
  revert s. induction n as [|n IH]; intros [|c s] H; cbn; try done. apply andb_true_iff. split.
  - unfold printable. specialize (H 0%nat c eq_refl). lia.
  - apply IH. intros k d Hk Hn. apply (H (S k) d); [done|lia].
Qed.

Lemma continuation_high c : rune_start c = false → 128 ≤ byte_of c.
Proof. unfold rune_start. rewrite negb_false_iff, Z.eqb_eq. intros H. pose proof (Z.mul_div_le (byte_of c) 64 ltac:(lia)). lia. Qed.

Lemma escape_first_printable s : all_bytes printable (escape_first s) = true.
Proof.
  destruct s as [|c s]; [done|]. cbn [escape_first]. destruct (Z.ltb_spec (byte_of c) 128); [by apply ascii_escape_printable|].
  destruct (decode_rune (String c s)) as [r n] eqn:E.
  destruct ((r =? RuneError) && (n =? 1)%nat) eqn:Ei; [reflexivity|].
  destruct ((r =? 8232) || (r =? 8233)) eqn:El; [destruct (Z.eqb_spec r 8232) as [->|]; [reflexivity|]; cbn in El; by apply Z.eqb_eq in El as ->|].
  apply take_high. intros k d Hk Hn. destruct k as [|k]; [cbn in Hk; by injection Hk as <-|]. apply continuation_high.
  apply (rune_inside (String c s) (S k)); [done| |rewrite E; cbn; lia|done]. unfold invalid_start. rewrite E. exact Ei.
Qed.

Lemma plain_loop_printable fuel s : all_bytes printable (plain_loop fuel s) = true.
Proof.
  revert s. induction fuel as [|fuel IH]; intros s; [done|]. destruct s as [|c s]; [done|].
  cbn [plain_loop]. rewrite all_bytes_app, IH, andb_true_r. unfold plain_escape.
  destruct (_ || _) eqn:E; [|apply escape_first_printable]. cbn [all_bytes]. rewrite andb_true_r. unfold printable.
  rewrite !orb_true_iff, !Z.eqb_eq in E. apply Z.leb_le. lia.
Qed.

Lemma quoteScalar_printable s : all_bytes printable (quoteScalar s) = true.
Proof. unfold quoteScalar. cbn. by rewrite all_bytes_app, plain_loop_printable. Qed.

Lemma check_skills_none skills :
  CheckRunSkills skills = None →
  Z.of_nat (length skills) ≤ MaxRunSkills ∧ (∀ s, s ∈ skills → skill_name_ok (SkName s) = true) ∧
  fold_left (λ n s, n + skill_size s) skills 0 ≤ MaxRunSkillsBytes.
Proof.
  unfold CheckRunSkills. destruct (Z.ltb_spec MaxRunSkills (Z.of_nat (length skills))); [done|].
  destruct (List.find _ skills) as [s|] eqn:E; [done|].
  destruct (Z.ltb_spec MaxRunSkillsBytes (fold_left (λ n s, n + skill_size s) skills 0)); [done|]. intros _.
  split_and!; [done| |done]. intros s Hs. apply list_elem_of_In in Hs. apply (find_none _ _ E) in Hs. by apply negb_false_iff in Hs.
Qed.

(** The plugin of a run's skills is the manifest and one file for each
    skill of a different name, each named as a directory may be, within the
    bounds; a skill's file opens with a frontmatter of two lines, its name and
    its description, that nothing in them can add a line to. *)
Theorem plugin_sealed manifest skills files (Hwrite : WritePlugin manifest skills = inr files) :
  ∃ unique,
  files = (".claude-plugin/plugin.json", manifest) :: ((λ s, ("skills/" +:+ SkName s +:+ "/SKILL.md", skillFile s)) <$> unique) ∧
  NoDup (SkName <$> unique) ∧ (∀ s, s ∈ unique → s ∈ skills ∧ skill_name_ok (SkName s) = true) ∧
  (∀ s, s ∈ skills → SkName s ∈ (SkName <$> unique)) ∧
  Z.of_nat (length unique) ≤ MaxRunSkills ∧ fold_left (λ n s, n + skill_size s) unique 0 ≤ MaxRunSkillsBytes ∧
  ∀ s, s ∈ unique → ∃ name description,
    all_bytes printable name = true ∧ all_bytes printable description = true ∧
    skillFile s = "---" +:+ newline +:+ name +:+ newline +:+ description +:+ newline +:+ "---" +:+ newline +:+ newline +:+
      SkContent s +:+ newline.
Proof.
  unfold WritePlugin in Hwrite. destruct (CheckRunSkills (UniqueSkills skills)) eqn:E; [done|]. injection Hwrite as <-.
  destruct (check_skills_none _ E) as (H1 & H2 & H3). destruct (unique_loop_spec [] skills) as (U1 & U2 & U3).
  exists (UniqueSkills skills). split_and!; try done.
  - intros s Hs. split; [by apply U2|by apply H2].
  - intros s Hs. destruct (U3 s Hs) as [H|H]; [by apply elem_of_nil in H|done].
  - intros s Hs. unfold skillFile. set (desc := if String.eqb _ _ then _ else _).
    exists ("name: " +:+ quoteScalar (SkName s)), ("description: " +:+ quoteScalar (Cut desc maxSkillDescription)).
    rewrite !all_bytes_app, !quoteScalar_printable. split; [done|]. split; [done|]. by rewrite !app_assoc_str.
Qed.

Abbreviation demo_skills := [mkSkill "review" ("Reviews" +:+ newline +:+ "hooks: x") "Look."; mkSkill "review" "again" ""] (only parsing).

Lemma plugin_sealed_witness :
  ∃ files, WritePlugin "{}" demo_skills = inr files ∧ length files = 2%nat ∧
    ∃ unique, files = (".claude-plugin/plugin.json", "{}") :: ((λ s, ("skills/" +:+ SkName s +:+ "/SKILL.md", skillFile s)) <$> unique).
Proof.
  destruct (WritePlugin "{}" demo_skills) as [bad|files] eqn:E; [vm_compute in E; discriminate|]. exists files. split; [done|].
  destruct (plugin_sealed "{}" demo_skills files E) as (unique & Hf & _).
  split; [vm_compute in E; injection E as <-; reflexivity|]. by exists unique.
Defined.
