(* ===== verification/MachineTables.v ===== *)
(** * The machines' tables stay well formed

    Every operation of Machines.v and Directives.v as one step on the tables,
    and what holds of them after any number of steps: keys, the life of a row,
    the owner of an open directive, and the tokens' sets. *)

From S2P Require Import Prelude GoStr Table MachineData Choice Machines Directives MachineMessage.
Open Scope string_scope.
Open Scope Z_scope.
Open Scope list_scope.

(** ** The operations *)

Inductive machine_op :=
| OpCreateEnrollment (e : MachineEnrollment)
| OpApprove (id userCode userID : string) (at_ : time)
| OpRedeem (kind secretHash : string) (info : MachineInfo) (id tokenHash : string) (at_ : time)
| OpDeleteExpired (at_ : time)
| OpRotate (id presentedHash nextHash : string)
| OpConfirm (id currentHash : string)
| OpConnected (id gateway addr : string) (hello : MachineInfo)
| OpStatus (id : string) (capabilities : list string) (claudeCode llmState : string)
| OpAside (id : string)
| OpClearAside (id : string)
| OpPaused (userID id : string) (paused : bool)
| OpPriority (userID id : string) (priority : Z)
| OpDisconnected (id gateway : string)
| OpTouch (ids : list string)
| OpResetConnections
| OpRevoke (id reason : string)
| OpPick (req : PickRequest)
| OpCallLLM (req : LLMDirectiveRequest)
| OpStart (id token activityID : string) (deadline : time)
| OpSent (id conn : string)
| OpResult (id result : string)
| OpClose (id state errText : string)
| OpSweep (at_ : time).

(** The tables after an operation, at the database's time [now]. *)
Definition apply_op (now : time) (op : machine_op) (db : MDB) : MDB :=
  match op with
  | OpCreateEnrollment e => (CreateMachineEnrollment now e db).2
  | OpApprove id code user at_ => (ApproveDeviceRequest id code user at_ db).2
  | OpRedeem kind secret info id hash at_ => (RedeemMachineEnrollment now kind secret info id hash at_ db).2
  | OpDeleteExpired at_ => DeleteExpiredEnrollments at_ db
  | OpRotate id presented next => (RotateMachineToken id presented next db).2
  | OpConfirm id hash => (ConfirmMachineToken id hash db).2
  | OpConnected id gw addr hello => (MachineConnected now id gw addr hello db).2
  | OpStatus id caps cc llm => (UpdateMachineStatus id caps cc llm db).2
  | OpAside id => SetMachineAside now id db
  | OpClearAside id => ClearMachineAside id db
  | OpPaused user id b => (SetMachinePaused user id b db).2
  | OpPriority user id p => (SetMachinePriority user id p db).2
  | OpDisconnected id gw => MachineDisconnected id gw db
  | OpTouch ids => TouchMachines now ids db
  | OpResetConnections => ResetMachineConnections db
  | OpRevoke id reason => (RevokeMachine now id reason db).2
  | OpPick req => (PickMachine now req db).2
  | OpCallLLM req => (CreateLLMDirective now req db).2
  | OpStart id token act dl => (StartDirective now id token act dl db).2
  | OpSent id conn => (MarkDirectiveSent id conn db).2
  | OpResult id res => (SaveDirectiveResult id res db).2
  | OpClose id st err => (CloseDirective now id st err db).2
  | OpSweep at_ => (SweepDirectives now at_ db).2
  end.

(** ** What the operations are called with *)

(** The states [CloseDirective] is given, and those the other operations close
    a directive in. *)
Definition closing_states : list string :=
  [DirectiveCompleted; DirectiveFailed; DirectiveCanceled; DirectiveStopping; DirectiveRefused; DirectiveLost;
   DirectiveRevoked; DirectiveOrphaned; DirectiveExpired; DirectiveGone].
Definition closing (state : string) : bool := contains closing_states state.

(** The tokens' hashes the tables hold: current, previous, retired. *)
Definition tokens_of (r : MachineRow) : list string := option_list (token_hash r) ++ option_list (prev_token_hash r).
Definition valid_tokens (db : MDB) : list string := mjoin (tokens_of <$> machines db).
Definition tokens (db : MDB) : list string := valid_tokens db ++ (fst <$> retired db).

Arguments tokens : simpl never.
Arguments valid_tokens : simpl never.
Arguments retireTokens : simpl never.

(** A new token is random, and its hash is not the empty string; a machine and
    a directive get random identifiers; a connection has a name; a call to the
    model is not reserved by a pick. *)
Definition op_valid (op : machine_op) (db : MDB) : Prop :=
  match op with
  | OpRedeem _ _ _ id hash _ => id ≠ "" ∧ hash ≠ "" ∧ hash ∉ tokens db
  | OpRotate _ _ next => next ≠ "" ∧ next ∉ tokens db
  | OpSent _ conn => conn ≠ ""
  | OpPick req => PkKind req ≠ llmKind ∧ id_ok (PkDirectiveID req) = true
  | OpCallLLM req => id_ok (LqDirectiveID req) = true
  | OpClose _ state _ => closing state = true
  | _ => True
  end.

#[export] Instance op_valid_dec op db : Decision (op_valid op db).
Proof. destruct op; unfold op_valid; apply _. Defined.

Definition table_step (db db' : MDB) : Prop := ∃ now op, op_valid op db ∧ db' = apply_op now op db.

(** ** Well-formed tables *)

Definition machine_ok (r : MachineRow) : Prop :=
  ID (mach r) ≠ "" ∧ 1 ≤ MaxDirectives (mach r) ∧ 0 ≤ MaxLLM (mach r) ∧
  (if revoked r then token_hash r = None ∧ prev_token_hash r = None ∧ ConnectedTo (mach r) = ""
   else token_hash r ≠ None).

Definition directive_ok (d : Directive) : Prop :=
  (DirState d = DirectiveReserved ∧ TaskToken d = None ∧ SentConn d = "" ∧ StartedAt d = None ∧ ClosedAt d = None) ∨
  (DirState d = DirectiveRunning ∧ TaskToken d ≠ None ∧ StartedAt d ≠ None ∧ ClosedAt d = None) ∨
  (closing (DirState d) = true ∧ ClosedAt d ≠ None).

(** An open directive's machine is its user's, and not revoked. *)
Definition live_machine (rows : list MachineRow) (id userID : string) : Prop :=
  ∃ r, get id rows = Some r ∧ revoked r = false ∧ UserID (mach r) = userID.

Definition call_key (d : Directive) : string * string := (RunID d, CallKey d).

Record mdb_ok (db : MDB) : Prop := {
  ok_machines : keys_ok (machines db);
  ok_rows : ∀ r, r ∈ machines db → machine_ok r;
  ok_enrollments : keys_ok (enrollments db);
  ok_secrets : NoDup (SecretHash <$> enrollments db);
  ok_directives : keys_ok (directives db);
  ok_calls : NoDup (call_key <$> directives db);
  ok_dir_ids : ∀ d, d ∈ directives db → id_ok (DirID d) = true;
  ok_states : ∀ d, d ∈ directives db → directive_ok d;
  ok_dir_machines : ∀ d, d ∈ directives db → is_Some (get (MachineOf d) (machines db));
  ok_owners : ∀ d, d ∈ directives db → Open d = true → live_machine (machines db) (MachineOf d) (DirUserID d);
  ok_tokens : NoDup (tokens db);
  ok_nonempty : "" ∉ tokens db;
  ok_retired : ∀ x, x ∈ retired db → is_Some (get (snd x) (machines db))
}.

(** ** Kinds of changes *)

(** Changes of machines that leave what identifies them and their revocation. *)
Record keeps_identity (f : Machine → Machine) : Prop := {
  keeps_id : ∀ m, ID (f m) = ID m;
  keeps_user : ∀ m, UserID (f m) = UserID m;
  keeps_revoked : ∀ m, RevokedAt (f m) = RevokedAt m
}.

Lemma live_update rows p f id u :
  keeps_identity f → live_machine rows id u → live_machine (update_where p (on_machine f) rows) id u.
Proof.
  intros Hf (r & Hg & Hr & Hu). assert (KeepsKey (on_machine f)) by (apply on_machine_keeps, Hf).
  exists (if p r then on_machine f r else r). split; [by rewrite (update_get p (on_machine f) rows id _), Hg|].
  destruct (p r); [|done]. unfold revoked, on_machine. cbn. by rewrite (keeps_revoked f Hf), (keeps_user f Hf).
Qed.

Lemma tokens_machines db rows :
  tokens_of <$> rows = tokens_of <$> machines db → tokens (with_machines db rows) = tokens db.
Proof. intros E. unfold tokens, valid_tokens. cbn. by rewrite E. Qed.

Lemma get_update_some {R} `{Keyed R} p (f : R → R) t id :
  KeepsKey f → is_Some (get id t) → is_Some (get id (update_where p f t)).
Proof. intros Hf [r Hg]. rewrite (update_get p f t id Hf), Hg. cbn. eauto. Qed.

(** A change of machines. *)
Lemma machines_update_ok db p f :
  keeps_identity f → (∀ r, r ∈ machines db → p r = true → machine_ok r → machine_ok (on_machine f r)) →
  mdb_ok db → mdb_ok (with_machines db (update_where p (on_machine f) (machines db))).
Proof.
  intros Hf Hrow []. assert (HK : KeepsKey (on_machine f)) by (apply on_machine_keeps, Hf).
  assert (E : tokens (with_machines db (update_where p (on_machine f) (machines db))) = tokens db)
    by (apply tokens_machines, update_fmap; done).
  constructor; cbn; try done; rewrite ?E; try done.
  - by apply keys_update_ok.
  - by apply update_all.
  - intros d Hd. apply get_update_some; auto.
  - intros d Hd Ho. apply live_update; auto.
  - intros x Hx. apply get_update_some; auto.
Qed.

(** A change of directives that leaves their identity, and opens none. *)
Record keeps_call (f : Directive → Directive) : Prop := {
  keeps_dir : KeepsKey f;
  keeps_call_key : ∀ d, call_key (f d) = call_key d;
  keeps_machine : ∀ d, MachineOf (f d) = MachineOf d;
  keeps_owner : ∀ d, DirUserID (f d) = DirUserID d
}.

Lemma directives_update_ok db p f :
  keeps_call f → (∀ d, d ∈ directives db → p d = true → directive_ok d → directive_ok (f d) ∧ (Open (f d) = true → Open d = true)) →
  mdb_ok db → mdb_ok (with_directives db (update_where p f (directives db))).
Proof.
  intros Hf Hrow []. pose proof (keeps_dir f Hf) as HK. constructor; cbn; try done.
  - by apply keys_update_ok.
  - rewrite update_fmap; [done|]. apply Hf.
  - intros d' (d & Hd & ->)%update_elem. destruct (p d); [|by apply ok_dir_ids0].
    change (DirID (f d)) with (row_key (f d)). rewrite (keeps_dir f Hf d). by apply ok_dir_ids0.
  - apply update_all; [done|]. intros d Hd Hp Hok. by apply Hrow.
  - intros d' (d & Hd & ->)%update_elem. destruct (p d); [rewrite (keeps_machine f Hf)|]; by apply ok_dir_machines0.
  - intros d' (d & Hd & ->)%update_elem Ho. destruct (p d) eqn:E; [|by apply ok_owners0].
    rewrite (keeps_machine f Hf), (keeps_owner f Hf). apply ok_owners0; [done|]. apply Hrow; auto.
Qed.

Lemma add_directive_ok db d :
  directive_taken d db = false → id_ok (DirID d) = true → directive_ok d → live_machine (machines db) (MachineOf d) (DirUserID d) →
  mdb_ok db → mdb_ok (add_directive d db).
Proof.
  intros Ht Hid Hd Hl []. unfold directive_taken in Ht.
  assert (Hn : ∀ x, x ∈ directives db → has_key (DirID d) x = false ∧ of_call (RunID d) (CallKey d) x = false).
  { intros x Hx. apply orb_false_iff. apply not_true_iff_false. intros E. apply not_true_iff_false in Ht. apply Ht.
    apply existsb_exists. exists x. split; [by apply list_elem_of_In|done]. }
  constructor; cbn; try done.
  - apply (keys_snoc (directives db) d); [done|]. apply get_none. intros (x & Hx & Hin)%list_elem_of_fmap.
    apply Hn in Hin as [Hk _]. assert (has_key (DirID d) x = true) by (apply has_key_spec; by rewrite <- Hx). congruence.
  - rewrite fmap_app. apply NoDup_app. split_and!; [done| |apply NoDup_singleton].
    intros k (x & -> & Hx)%list_elem_of_fmap E%list_elem_of_singleton. apply Hn in Hx as [_ Hc].
    unfold of_call, call_key in *. injection E as E1 E2. by rewrite E1, E2, !String.eqb_refl in Hc.
  - intros x [Hx| ->]%elem_snoc; auto.
  - intros x [Hx| ->]%elem_snoc; auto.
  - intros x [Hx| ->]%elem_snoc; [auto|]. destruct Hl as (r & -> & _). eauto.
  - intros x [Hx| ->]%elem_snoc Ho; auto.
Qed.

(** ** States *)

Lemma closing_not_open s : closing s = true → s ≠ DirectiveReserved ∧ s ≠ DirectiveRunning.
Proof. intros H. split; intros ->; vm_compute in H; done. Qed.

Lemma open_spec d : Open d = true ↔ DirState d = DirectiveReserved ∨ DirState d = DirectiveRunning.
Proof. unfold Open. by rewrite orb_true_iff, !String.eqb_eq. Qed.

Lemma closed_not_open d : closing (DirState d) = true → Open d = false.
Proof. intros H%closing_not_open. apply not_true_iff_false. rewrite open_spec. naive_solver. Qed.

Lemma set_closed_ok now state err d :
  closing state = true → directive_ok (set_closed now state err d) ∧ Open (set_closed now state err d) = false.
Proof. intros H. split; [by right; right|by apply closed_not_open]. Qed.

Lemma set_closed_keeps_call now state err : keeps_call (set_closed now state err).
Proof. by constructor; try apply _. Qed.
Lemma set_started_keeps_call now token act dl : keeps_call (set_started now token act dl).
Proof. by constructor; try apply _. Qed.
Lemma set_sent_keeps_call conn : keeps_call (set_sent conn).
Proof. by constructor; try apply _. Qed.
Lemma set_result_keeps_call res : keeps_call (set_result res).
Proof. by constructor; try apply _. Qed.
Lemma sweep_one_keeps_call now : keeps_call (sweep_one now).
Proof.
  constructor; [intros d|intros d..]; unfold sweep_one; by destruct (String.eqb (DirState d) DirectiveReserved).
Qed.

(** The directives' operations keep the tables well formed. *)
Lemma start_directive_ok now id token act dl db : mdb_ok db → mdb_ok (StartDirective now id token act dl db).2.
Proof.
  intros Hok. unfold StartDirective. destruct (List.find _ _); [|done]. apply directives_update_ok; [apply set_started_keeps_call| |done].
  intros x _ [_ Hs%String.eqb_eq]%andb_true_iff Hx. split; [|intros _; apply open_spec; by left].
  destruct Hx as [(_ & _ & _ & _ & Hc)|[(H & _)|[H%closing_not_open _]]]; [by right; left|rewrite Hs in H; done|naive_solver].
Qed.

Lemma sent_ok id conn db : conn ≠ "" → mdb_ok db → mdb_ok (MarkDirectiveSent id conn db).2.
Proof.
  intros Hc Hok. apply directives_update_ok; [apply set_sent_keeps_call| |done].
  intros d _ [_ Hs%String.eqb_eq]%andb_true_iff [(E & _)|[H|[H _]]].
  - rewrite Hs in E. done.
  - split; [by right; left|done].
  - rewrite Hs in H. done.
Qed.

Lemma result_ok id res db : mdb_ok db → mdb_ok (SaveDirectiveResult id res db).2.
Proof.
  intros Hok. unfold SaveDirectiveResult. destruct (_ =? _)%nat; [done|].
  apply directives_update_ok; [apply set_result_keeps_call| |done]. intros d _ _ H. done.
Qed.

Lemma close_ok now id state err db : closing state = true → mdb_ok db → mdb_ok (CloseDirective now id state err db).2.
Proof.
  intros Hc Hok. apply directives_update_ok; [apply set_closed_keeps_call| |done]. intros d _ _ _.
  destruct (set_closed_ok now state err d Hc) as [H1 H2]. split; [done|congruence].
Qed.

Lemma sweep_one_ok now d : directive_ok (sweep_one now d) ∧ Open (sweep_one now d) = false.
Proof. unfold sweep_one. destruct (String.eqb (DirState d) DirectiveReserved); by apply set_closed_ok. Qed.

Lemma sweep_directives_ok now at_ db : mdb_ok db → mdb_ok (SweepDirectives now at_ db).2.
Proof.
  intros Hok. apply directives_update_ok; [apply sweep_one_keeps_call| |done]. intros d _ _ _.
  destruct (sweep_one_ok now d) as [H1 H2]. split; [done|congruence].
Qed.

Lemma user_machines_elem userID db m :
  m ∈ user_machines userID db ↔ ∃ r, r ∈ machines db ∧ mach r = m ∧ UserID m = userID ∧ revoked r = false.
Proof.
  unfold user_machines. rewrite sort_stable_perm, list_elem_of_fmap. split.
  - intros (r & -> & [Hr [Hu%String.eqb_eq Hv%negb_true_iff]%andb_true_iff]%elem_filter). eauto.
  - intros (r & Hr & <- & Hu & Hv). exists r. split; [done|]. apply elem_filter. split; [done|].
    rewrite Hv, Hu, String.eqb_refl. done.
Qed.

Lemma live_row_machine db r userID :
  mdb_ok db → r ∈ machines db → UserID (mach r) = userID → revoked r = false → live_machine (machines db) (ID (mach r)) userID.
Proof. intros Hok Hr Hu Hv. exists r. split; [|done]. exact (get_in (machines db) r (ok_machines _ Hok) Hr). Qed.

Lemma pick_ok now req db : id_ok (PkDirectiveID req) = true → mdb_ok db → mdb_ok (PickMachine now req db).2.
Proof.
  intros Hdir Hok. unfold PickMachine. destruct (List.find _ (directives db)); [done|]. destruct (String.eqb _ ""); [done|].
  destruct (List.find _ (user_machines _ db)) as [m|] eqn:Em; [|done]. destruct (directive_taken _ db) eqn:Et; [done|].
  apply find_some in Em as [Hm Hid%String.eqb_eq]. rewrite <- list_elem_of_In in Hm.
  apply user_machines_elem in Hm as (r & Hr & <- & Hu & Hv).
  apply add_directive_ok; [done|done|by left| |done]. cbn. rewrite <- Hid. by apply live_row_machine.
Qed.

Lemma owned_spec userID id r :
  owned userID id r = true ↔ ID (mach r) = id ∧ UserID (mach r) = userID ∧ revoked r = false.
Proof. unfold owned. rewrite !andb_true_iff, has_key_spec, String.eqb_eq, negb_true_iff. tauto. Qed.

Lemma call_ok now req db : id_ok (LqDirectiveID req) = true → mdb_ok db → mdb_ok (CreateLLMDirective now req db).2.
Proof.
  intros Hdir Hok. unfold CreateLLMDirective. destruct (List.find _ (machines db)) as [r|] eqn:Er; [|done].
  destruct (existsb _ _); [done|]. destruct (negb _); [done|]. destruct (_ <=? _); [done|].
  destruct (directive_taken _ db) eqn:Et; [done|]. apply find_some in Er as [Hr (_ & Hu & Hv)%owned_spec].
  rewrite <- list_elem_of_In in Hr. apply add_directive_ok; [done|done|by right; left| |done]. cbn. by apply live_row_machine.
Qed.

(** ** Machines' operations *)

Lemma revoked_on_machine f r : keeps_identity f → revoked (on_machine f r) = revoked r.
Proof. intros Hf. unfold revoked, on_machine. cbn. by rewrite (keeps_revoked f Hf). Qed.

(** A change that keeps the caps, and connects nothing. *)
Lemma machine_ok_keep f r :
  keeps_identity f → MaxDirectives (f (mach r)) = MaxDirectives (mach r) → MaxLLM (f (mach r)) = MaxLLM (mach r) →
  (ConnectedTo (f (mach r)) = ConnectedTo (mach r) ∨ ConnectedTo (f (mach r)) = "") →
  machine_ok r → machine_ok (on_machine f r).
Proof.
  intros Hf Hd Hl Hc (H0 & H1 & H2 & H3). unfold machine_ok. rewrite (revoked_on_machine f r Hf). cbn. rewrite Hd, Hl, (keeps_id f Hf).
  split; [done|]. split; [done|]. split; [done|]. destruct (revoked r); [|done].
  destruct H3 as (? & ? & ?). split_and!; [done..|]. destruct Hc; congruence.
Qed.

Lemma update_machine_ok p f db :
  keeps_identity f → (∀ r, machine_ok r → machine_ok (on_machine f r)) →
  mdb_ok db → mdb_ok (update_machine p f db).2.
Proof. intros Hf Hr Hok. unfold update_machine. destruct (_ =? _)%nat; [done|]. apply machines_update_ok; auto. Qed.

Lemma live_row_spec id r : live_row id r = true ↔ ID (mach r) = id ∧ revoked r = false.
Proof. unfold live_row. by rewrite andb_true_iff, has_key_spec, negb_true_iff. Qed.

Lemma connected_ok now id gw addr hello db : mdb_ok db → mdb_ok (MachineConnected now id gw addr hello db).2.
Proof.
  intros Hok. unfold MachineConnected. destruct (List.find _ _); [|done]. apply machines_update_ok; [by constructor| |done].
  intros x _ [_ Hv]%live_row_spec (H0 & H1 & H2 & H3). unfold machine_ok.
  rewrite revoked_on_machine by by constructor. rewrite Hv in H3 |- *. cbn. split; [done|]. split; [lia|]. split; [lia|done].
Qed.

Ltac machine_change :=
  intros Hok; apply update_machine_ok || apply machines_update_ok; [by constructor| |done];
  intros; apply machine_ok_keep; solve [by constructor | done | by left | by right].

Lemma status_ok id caps cc llm db : mdb_ok db → mdb_ok (UpdateMachineStatus id caps cc llm db).2.
Proof. machine_change. Qed.
Lemma aside_ok now id db : mdb_ok db → mdb_ok (SetMachineAside now id db).
Proof. machine_change. Qed.
Lemma clear_aside_ok id db : mdb_ok db → mdb_ok (ClearMachineAside id db).
Proof. machine_change. Qed.
Lemma paused_ok u id b db : mdb_ok db → mdb_ok (SetMachinePaused u id b db).2.
Proof. machine_change. Qed.
Lemma priority_ok u id p db : mdb_ok db → mdb_ok (SetMachinePriority u id p db).2.
Proof. machine_change. Qed.
Lemma disconnected_ok id gw db : mdb_ok db → mdb_ok (MachineDisconnected id gw db).
Proof. machine_change. Qed.
Lemma touch_ok now ids db : mdb_ok db → mdb_ok (TouchMachines now ids db).
Proof. machine_change. Qed.
Lemma reset_ok db : mdb_ok db → mdb_ok (ResetMachineConnections db).
Proof. machine_change. Qed.

(** ** Enrollments *)

Lemma enrollments_ok db es :
  keys_ok es → NoDup (SecretHash <$> es) → mdb_ok db → mdb_ok (with_enrollments db es).
Proof. intros H1 H2 []. by constructor. Qed.

Lemma enrollments_update_ok db p f :
  KeepsKey f → (∀ e, SecretHash (f e) = SecretHash e) → mdb_ok db →
  mdb_ok (with_enrollments db (update_where p f (enrollments db))).
Proof.
  intros Hf Hs Hok. apply enrollments_ok; [by apply keys_update_ok, Hok| |done].
  rewrite update_fmap by done. apply Hok.
Qed.

Lemma create_ok now e db : mdb_ok db → mdb_ok (CreateMachineEnrollment now e db).2.
Proof.
  intros Hok. unfold CreateMachineEnrollment. destruct (negb _); [done|].
  destruct (existsb _ _) eqn:Ex; [done|]. cbn.
  assert (Hn : ∀ x, x ∈ enrollments db → EnrID e ≠ EnrID x ∧ SecretHash e ≠ SecretHash x).
  { intros x Hx. apply not_true_iff_false in Ex. split; intros E; apply Ex, existsb_exists; exists x;
      (split; [by apply list_elem_of_In|]); unfold same_enrollment; rewrite E, String.eqb_refl; [done|].
    by rewrite orb_true_r. }
  apply enrollments_ok; [| |done].
  - apply (keys_snoc (enrollments db) (enrollment_row now e)); [apply Hok|]. apply get_none.
    intros (x & E & Hx)%list_elem_of_fmap. apply Hn in Hx. naive_solver.
  - rewrite fmap_app. apply NoDup_app. split_and!; [apply Hok| |apply NoDup_singleton].
    intros k (x & -> & Hx)%list_elem_of_fmap E%list_elem_of_singleton. apply Hn in Hx. naive_solver.
Qed.

Lemma approve_ok id code user at_ db : mdb_ok db → mdb_ok (ApproveDeviceRequest id code user at_ db).2.
Proof. intros Hok. unfold ApproveDeviceRequest. destruct (_ =? _)%nat; [done|]. apply enrollments_update_ok; [apply _|done|done]. Qed.

Lemma filter_fmap_nodup {A B} (g : A → B) p (l : list A) : NoDup (g <$> l) → NoDup (g <$> List.filter p l).
Proof.
  induction l as [|x l IH]; [done|]. cbn. intros [Hn Hl]%NoDup_cons. destruct (p x); [|auto]. cbn. constructor; [|auto].
  intros (y & E & [Hy _]%elem_filter)%list_elem_of_fmap. apply Hn. rewrite E. by apply list_elem_of_fmap_2.
Qed.

Lemma delete_expired_ok at_ db : mdb_ok db → mdb_ok (DeleteExpiredEnrollments at_ db).
Proof. intros Hok. apply enrollments_ok; [apply keys_filter, Hok|apply filter_fmap_nodup, Hok|done]. Qed.

(** ** Tokens: none is lost, none comes back *)

Definition nonempty (l : list string) : list string := List.filter (λ h, negb (String.eqb h "")) l.

Lemma nonempty_id l : "" ∉ l → nonempty l = l.
Proof.
  unfold nonempty. induction l as [|h l IH]; [done|]. cbn. intros [Hn Hl]%not_elem_of_cons.
  destruct (String.eqb_spec h ""); [congruence|]. cbn. by rewrite IH.
Qed.

Lemma retire_fresh id hashes t :
  NoDup (nonempty hashes ++ (fst <$> t)) → retireTokens id hashes t = t ++ ((λ h, (h, id)) <$> nonempty hashes).
Proof.
  unfold retireTokens, nonempty. revert t. induction hashes as [|h hashes IH]; intros t; cbn; [intros _; by rewrite app_nil_r|].
  unfold retire_one at 2. destruct (String.eqb_spec h ""); cbn; [by apply IH|].
  intros [Hn Hd]%NoDup_cons. assert (existsb (λ x, String.eqb x.1 h) t = false) as ->.
  { apply not_true_iff_false. intros (x & Hx & E%String.eqb_eq)%existsb_exists. apply Hn. apply elem_of_app. right.
    rewrite <- E. apply list_elem_of_fmap_2. by apply list_elem_of_In. }
  rewrite IH; [by rewrite <- app_assoc|]. rewrite fmap_app. cbn.
  rewrite app_assoc. rewrite <- Permutation_cons_append. by constructor.
Qed.

(** The tokens of a machine apart from the others', and after an update of it. *)
Lemma tokens_split db id r :
  keys_ok (machines db) → get id (machines db) = Some r →
  ∃ rest, tokens db ≡ₚ tokens_of r ++ rest ++ (fst <$> retired db) ∧
    ∀ f ret es ds, tokens (mkMDB (update_where (has_key id) f (machines db)) es ret ds) ≡ₚ tokens_of (f r) ++ rest ++ (fst <$> ret).
Proof.
  intros Hok Hg. destruct (update_split _ _ _ Hok Hg) as (l1 & l2 & E & Hf).
  exists (mjoin (tokens_of <$> l1) ++ mjoin (tokens_of <$> l2)).
  assert (Hj : ∀ x ret, mjoin (tokens_of <$> (l1 ++ x :: l2)) ++ ret ≡ₚ
      tokens_of x ++ (mjoin (tokens_of <$> l1) ++ mjoin (tokens_of <$> l2)) ++ ret).
  { intros x ret. rewrite fmap_app, join_app.
    change (mjoin (tokens_of <$> x :: l2)) with (tokens_of x ++ mjoin (tokens_of <$> l2)).
    solve_Permutation. }
  unfold tokens, valid_tokens. split; [rewrite E; apply Hj|]. intros f ret es ds. cbn. rewrite Hf. apply Hj.
Qed.

Section Row.
Variable db : MDB.
Hypothesis Hok : mdb_ok db.

(** A machine's tokens are not empty strings. *)
Lemma row_tokens id r : get id (machines db) = Some r → "" ∉ tokens_of r.
Proof.
  intros Hg. destruct (tokens_split db id r) as (rest & Hp & _); [apply Hok|done|].
  pose proof (ok_nonempty _ Hok) as Hn. rewrite Hp in Hn. intros H. apply Hn. apply elem_of_app. by left.
Qed.

Lemma coalesce_tokens r : "" ∉ tokens_of r → nonempty [coalesce (token_hash r); coalesce (prev_token_hash r)] = tokens_of r.
Proof.
  unfold tokens_of, nonempty, coalesce. intros H.
  destruct (token_hash r) as [a|], (prev_token_hash r) as [b|]; cbn in *; try done;
    repeat match goal with |- context [String.eqb ?x ""] => destruct (String.eqb_spec x "") as [->|] end; try done; set_solver.
Qed.

Lemma live_row_tokens id r :
  get id (machines db) = Some r → revoked r = false → ∃ c, token_hash r = Some c ∧ c ≠ "".
Proof.
  intros Hg Hv. pose proof Hg as [Hr _]%get_some. destruct (ok_rows _ Hok r Hr) as (_ & _ & _ & H). rewrite Hv in H.
  destruct (token_hash r) as [c|] eqn:E; [|done]. exists c. split; [done|]. intros ->.
  apply (row_tokens id r Hg). unfold tokens_of. rewrite E. by left.
Qed.

(** Rotating: what was presented is one of the machine's tokens, it becomes
    the previous one, and the other one, if any, is retired. *)
Lemma rotate_spec id r presented next c p ret :
  get id (machines db) = Some r → revoked r = false →
  rotateTokens (coalesce (token_hash r)) (coalesce (prev_token_hash r)) presented next = Some (c, p, ret) →
  presented ∈ tokens_of r ∧ c = next ∧ p = presented ∧ presented ≠ "" ∧ tokens_of r ≡ₚ presented :: ret ∧ "" ∉ ret.
Proof.
  intros Hg Hv. pose proof (row_tokens id r Hg) as Hne. destruct (live_row_tokens id r Hg Hv) as (cur & Hc & Hcn).
  unfold rotateTokens, tokens_of in *. rewrite Hc in *. cbn in *. destruct (String.eqb_spec presented "") as [->|Hpn]; [done|].
  destruct (String.eqb_spec presented cur) as [->|Hpc]; cbn.
  - destruct (prev_token_hash r) as [q|]; cbn in *.
    + destruct (String.eqb_spec q "") as [->|]; [set_solver|]. intros [= <- <- <-]. split_and!; try done; set_solver.
    + intros [= <- <- <-]. split_and!; try done; set_solver.
  - destruct (prev_token_hash r) as [q|]; cbn in *.
    + destruct (String.eqb_spec presented q) as [->|]; [|done]. intros [= <- <- <-].
      split_and!; try done; [set_solver|apply Permutation_swap|set_solver].
    + destruct (String.eqb_spec presented ""); done.
Qed.

Lemma confirm_spec id r presented p ret :
  get id (machines db) = Some r → revoked r = false →
  confirmToken (coalesce (token_hash r)) (coalesce (prev_token_hash r)) presented = Some (p, ret) →
  token_hash r = Some presented ∧ p = "" ∧ ret = option_list (prev_token_hash r) ∧ tokens_of r = presented :: ret.
Proof.
  intros Hg Hv. pose proof (row_tokens id r Hg) as Hne. destruct (live_row_tokens id r Hg Hv) as (cur & Hc & Hcn).
  unfold confirmToken, tokens_of in *. rewrite Hc in *. cbn in *.
  destruct (String.eqb_spec presented "") as [->|Hpn]; [done|]. destruct (String.eqb_spec presented cur) as [->|]; [|done]. cbn.
  destruct (prev_token_hash r) as [q|]; cbn in *.
  - destruct (String.eqb_spec q "") as [->|]; [set_solver|]. by intros [= <- <-].
  - by intros [= <- <-].
Qed.
End Row.

Lemma fst_pairs {A B} (b : B) (l : list A) : fst <$> ((λ a, (a, b)) <$> l) = l.
Proof. induction l as [|x l IH]; [done|]. cbn. by f_equal. Qed.

(** A change of one machine's row and of the retired tokens, which gives the
    tables new tokens and loses none. *)
Lemma row_change_ok db id r f new ret :
  mdb_ok db → KeepsKey f → get id (machines db) = Some r → machine_ok (f r) →
  (∀ d, d ∈ directives db → Open d = true → live_machine (update_where (has_key id) f (machines db)) (MachineOf d) (DirUserID d)) →
  tokens_of (f r) ++ ret ≡ₚ new ++ tokens_of r → NoDup (new ++ tokens db) → "" ∉ new ++ tokens db →
  mdb_ok (mkMDB (update_where (has_key id) f (machines db)) (enrollments db) (retired db ++ ((λ h, (h, id)) <$> ret)) (directives db)).
Proof.
  intros Hok HK Hg Hrow Hown Hp Hnd Hne. destruct (tokens_split db id r (ok_machines _ Hok) Hg) as (rest & Ht & Hf).
  assert (E : tokens (mkMDB (update_where (has_key id) f (machines db)) (enrollments db)
      (retired db ++ ((λ h, (h, id)) <$> ret)) (directives db)) ≡ₚ new ++ tokens db).
  { rewrite Hf, Ht, fmap_app, fst_pairs.
    rewrite (app_assoc new), <- Hp. solve_Permutation. }
  destruct Hok. constructor; cbn; try done; rewrite ?E; try done.
  - by apply keys_update_ok.
  - intros x (y & Hy & ->)%update_elem. destruct (has_key id y) eqn:Ek; [|by apply ok_rows0].
    apply has_key_spec in Ek. rewrite <- Ek, (get_in (machines db) y ok_machines0 Hy) in Hg. by injection Hg as ->.
  - intros d Hd. apply get_update_some; auto.
  - intros x [Hx|(h & -> & Hx)%list_elem_of_fmap]%elem_of_app; apply get_update_some; [done|auto|done|cbn; eauto].
Qed.

(** The tokens of a machine are not retired yet. *)
Lemma retire_nodup db id r l ret :
  mdb_ok db → get id (machines db) = Some r → tokens_of r ≡ₚ l ++ ret → NoDup (ret ++ (fst <$> retired db)).
Proof.
  intros Hok Hg Hp. destruct (tokens_split db id r (ok_machines _ Hok) Hg) as (rest & Ht & _).
  pose proof (ok_tokens _ Hok) as Hnd. rewrite Ht, Hp in Hnd.
  rewrite !NoDup_app in *. set_solver.
Qed.

Lemma live_row_change rows id f i u :
  KeepsKey f → (∀ r, revoked (f r) = revoked r) → (∀ r, UserID (mach (f r)) = UserID (mach r)) →
  live_machine rows i u → live_machine (update_where (has_key id) f rows) i u.
Proof.
  intros HK Hv Hu (r & Hg & Hr & Hur). exists (if has_key id r then f r else r).
  split; [by rewrite (update_get _ f rows i HK), Hg|]. destruct (has_key id r); rewrite ?Hv, ?Hu; done.
Qed.

Lemma rotate_ok id presented next db :
  next ≠ "" → next ∉ tokens db → mdb_ok db → mdb_ok (RotateMachineToken id presented next db).2.
Proof.
  intros Hn Hfresh Hok. unfold RotateMachineToken. destruct (get id (machines db)) as [r|] eqn:Hg; [|done].
  destruct (revoked r) eqn:Hv; [done|]. destruct (rotateTokens _ _ _ _) as [[[c p] ret]|] eqn:Er; [|done].
  destruct (tokens_taken _ _ _ _); [done|].
  destruct (rotate_spec db Hok id r presented next c p ret Hg Hv Er) as (Hin & -> & -> & Hpn & Hperm & Hret).
  pose proof (ok_rows _ Hok r) as Hrow. pose proof Hg as [Hr _]%get_some. specialize (Hrow Hr) as (H0 & H1 & H2 & _).
  unfold nullif. destruct (String.eqb_spec presented "") as [|_]; [done|]. cbn. unfold with_retired, with_machines. cbn.
  assert (Hnd : NoDup (next :: tokens db)) by (constructor; [done|apply Hok]).
  rewrite retire_fresh.
  - apply (row_change_ok db id r (set_tokens (Some next) (Some presented)) [next]); rewrite ?nonempty_id by done; cbn; try done; try apply _.
    + split; [done|]. split; [done|]. split; [done|]. change (revoked (set_tokens (Some next) (Some presented) r)) with (revoked r). by rewrite Hv.
    + intros d Hd Ho. apply live_row_change; [apply _|done|done|]. by apply (ok_owners _ Hok).
    + by rewrite Hperm.
    + apply not_elem_of_cons. split; [done|apply Hok].
  - rewrite nonempty_id by done. by apply (retire_nodup db id r [presented]).
Qed.

Lemma confirm_ok id hash db : mdb_ok db → mdb_ok (ConfirmMachineToken id hash db).2.
Proof.
  intros Hok. unfold ConfirmMachineToken. destruct (get id (machines db)) as [r|] eqn:Hg; [|done].
  destruct (revoked r) eqn:Hv; [done|]. destruct (confirmToken _ _ _) as [[p ret]|] eqn:Er; [|done].
  destruct (confirm_spec db Hok id r hash p ret Hg Hv Er) as (Hc & -> & -> & Ht).
  pose proof Hg as [Hr _]%get_some. destruct (ok_rows _ Hok r Hr) as (H0 & H1 & H2 & H3).
  assert (Hne : "" ∉ option_list (prev_token_hash r)).
  { pose proof (row_tokens db Hok id r Hg) as H. rewrite Ht in H. set_solver. }
  unfold with_retired, with_machines. cbn. rewrite retire_fresh; rewrite nonempty_id by done.
  - apply (row_change_ok db id r (set_prev None) []); cbn; try done; try apply _.
    + split; [done|]. split; [done|]. split; [done|]. change (revoked (set_prev None r)) with (revoked r). rewrite Hv. cbn. by rewrite Hc.
    + intros d Hd Ho. apply live_row_change; [apply _|done|done|]. by apply (ok_owners _ Hok).
    + rewrite Ht. unfold set_prev, tokens_of. cbn. by rewrite Hc.
    + apply Hok.
    + apply Hok.
  - apply (retire_nodup db id r [hash]); [done..|]. by rewrite Ht.
Qed.

Lemma open_of_spec i d : open_of i d = true ↔ MachineOf d = i ∧ Open d = true.
Proof. unfold open_of. by rewrite andb_true_iff, String.eqb_eq. Qed.

Lemma live_other rows id f i u :
  KeepsKey f → i ≠ id → live_machine rows i u → live_machine (update_where (has_key id) f rows) i u.
Proof.
  intros HK Hn (r & Hg & Hr & Hur). exists r. split; [|done]. rewrite (update_get _ f rows i HK), Hg. cbn.
  destruct (has_key id r) eqn:E; [|done]. apply has_key_spec in E. apply get_some in Hg as [_ Hk]. congruence.
Qed.

Lemma revoke_ok now id reason db : mdb_ok db → mdb_ok (RevokeMachine now id reason db).2.
Proof.
  intros Hok. unfold RevokeMachine. destruct (get id (machines db)) as [r|] eqn:Hg; [|done].
  destruct (revoked r) eqn:Hv; [done|]. cbn.
  pose proof Hg as [Hr _]%get_some. destruct (ok_rows _ Hok r Hr) as (H0 & H1 & H2 & H3).
  assert (Hok' : mdb_ok (with_directives db (update_where (open_of id) (set_closed now DirectiveRevoked reason) (directives db)))).
  { apply directives_update_ok; [apply set_closed_keeps_call| |done]. intros d _ _ _.
    destruct (set_closed_ok now DirectiveRevoked reason d) as [Ha Hb]; [done|]. split; [done|congruence]. }
  pose proof (row_tokens db Hok id r Hg) as Hne.
  rewrite retire_fresh; rewrite (coalesce_tokens db) by done; [|by apply (retire_nodup db id r [])].
  apply (row_change_ok _ id r (revoke_row now reason) [] (tokens_of r) Hok'); cbn; try done; try apply _.
  - intros d (x & Hx & ->)%update_elem Ho. apply live_other; [apply _| |].
    + intros E. destruct (open_of id x) eqn:Ex; [by rewrite closed_not_open in Ho|].
      apply not_true_iff_false in Ex. apply Ex, open_of_spec. done.
    + destruct (open_of id x) eqn:Ex; [by rewrite closed_not_open in Ho|]. by apply (ok_owners _ Hok).
  - apply Hok.
  - apply Hok.
Qed.

Lemma redeem_ok now kind secret info id hash at_ db :
  id ≠ "" → hash ≠ "" → hash ∉ tokens db → mdb_ok db → mdb_ok (RedeemMachineEnrollment now kind secret info id hash at_ db).2.
Proof.
  intros Hid Hn Hfresh Hok. unfold RedeemMachineEnrollment. destruct (List.find _ (enrollments db)) as [e|] eqn:Ee; [|done].
  destruct (negb _); [done|]. destruct (_ <=? _); [done|]. destruct (String.eqb _ _); [done|].
  destruct (existsb _ _) eqn:Ex; [done|]. cbn.
  assert (Hg : get id (machines db) = None).
  { apply get_none. intros (x & E & Hx)%list_elem_of_fmap. apply not_true_iff_false in Ex. apply Ex, existsb_exists.
    exists x. split; [by apply list_elem_of_In|]. apply orb_true_iff. left. by apply has_key_spec. }
  destruct (enrollments_update_ok db (has_key (EnrID e)) (set_enrolled id) _ (λ _, eq_refl) Hok).
  set (row := mkMachineRow _ _ _).
  assert (E : tokens (mkMDB (machines db ++ [row]) (update_where (has_key (EnrID e)) (set_enrolled id) (enrollments db))
      (retired db) (directives db)) ≡ₚ hash :: tokens db).
  { unfold tokens, valid_tokens. cbn. rewrite fmap_app, join_app. cbn. rewrite <- app_assoc. cbn. solve_Permutation. }
  assert (Hkeep : ∀ i, is_Some (get i (machines db)) → get i (machines db ++ [row]) = get i (machines db)).
  { intros i [x Hx]. rewrite get_snoc, Hx. done. }
  constructor; cbn; try done.
  - apply (keys_snoc (machines db) row); [apply Hok|done].
  - intros x [Hx| ->]%elem_snoc; [by apply (ok_rows _ Hok)|]. split; [done|]. split; [cbn; lia|]. split; [done|]. done.
  - intros d Hd. pose proof (ok_dir_machines _ Hok d Hd). by rewrite Hkeep.
  - intros d Hd Ho. destruct (ok_owners _ Hok d Hd Ho) as (x & Hx & Hrest). exists x. split; [|done].
    rewrite Hkeep; [done|by rewrite Hx].
  - rewrite E. constructor; [done|apply Hok].
  - rewrite E. apply not_elem_of_cons. split; [done|apply Hok].
  - intros x Hx. pose proof (ok_retired _ Hok x Hx). by rewrite Hkeep.
Qed.

Lemma apply_op_ok now op db : mdb_ok db → op_valid op db → mdb_ok (apply_op now op db).
Proof.
  intros Hok Hv. destruct op; cbn in Hv; cbn [apply_op]; destruct_and? Hv; eauto using create_ok, approve_ok, redeem_ok, delete_expired_ok, rotate_ok, confirm_ok,
    connected_ok, status_ok, aside_ok, clear_aside_ok, paused_ok, priority_ok, disconnected_ok, touch_ok, reset_ok, revoke_ok,
    pick_ok, call_ok, start_directive_ok, sent_ok, result_ok, close_ok, sweep_directives_ok.
Qed.

Lemma empty_ok : mdb_ok emptyMDB.
Proof. constructor; try apply NoDup_nil_2; try change (tokens emptyMDB) with (@nil string); cbn; intros; set_solver. Qed.

Lemma tables_reachable_ok db : star table_step emptyMDB db → mdb_ok db.
Proof.
  intros H. apply (star_invariant table_step mdb_ok emptyMDB db); [|done|apply empty_ok].
  intros a b Ha (now & op & Hv & ->). by apply apply_op_ok.
Qed.

(** ** Runs of operations *)

Fixpoint run_ops (ops : list (time * machine_op)) (db : MDB) : MDB :=
  match ops with [] => db | (now, op) :: ops => run_ops ops (apply_op now op db) end.

Fixpoint ops_valid (ops : list (time * machine_op)) (db : MDB) : Prop :=
  match ops with [] => True | (now, op) :: ops => op_valid op db ∧ ops_valid ops (apply_op now op db) end.

Lemma run_star ops db : ops_valid ops db → star table_step db (run_ops ops db).
Proof.
  revert db. induction ops as [|[now op] ops IH]; intros db; cbn; [constructor|]. intros [Hv Hs].
  apply (star_step _ _ (apply_op now op db)); [|by apply IH]. by exists now, op.
Qed.

(** A machine enrolled, connected, with a run reserved on it, started and
    sent. *)
Definition demo_hello : MachineInfo := mkInfo "" "linux" ["claude-code"; "llm"] 2 "v1" "ok" 1 "openrouter" "model" "ok".
Definition demo_enrollment : MachineEnrollment :=
  mkEnrollment "e1" EnrollmentDevice "secret" "ABC234" (mkInfo "laptop" "linux" ["claude-code"] 2 "v1" "" 0 "" "" "")
    "10.0.0.1" 0 600 "" "".
Definition demo_pick (id key : string) : PickRequest :=
  mkPick id "alice" ["claude-code"] [] "analyze_repo" "{}" "w1" "r1" key 700 900 50 "s1" "" "dev" "t1" "c1" "a1".
Definition demo_call (id key : string) : LLMDirectiveRequest :=
  mkLLMRequest id "m1" "alice" "{}" "w1" "r1" "act" key "tok" 900 50 "s1" "t1" "a1".
Definition demo_ops : list (time * machine_op) :=
  [(10, OpCreateEnrollment demo_enrollment); (20, OpApprove "e1" "ABC234" "alice" 20);
   (30, OpRedeem EnrollmentDevice "secret" demo_hello "m1" "h1" 30); (40, OpRotate "m1" "h1" "h2");
   (60, OpConnected "m1" "gw" "10.0.0.1" demo_hello); (61, OpConfirm "m1" "h2"); (100, OpPick (demo_pick "d1" "k1"));
   (101, OpStart "d1" "tok" "act" 900); (102, OpSent "d1" "c-1")].
Definition demo_db : MDB := run_ops demo_ops emptyMDB.

Lemma demo_valid : ops_valid demo_ops emptyMDB.
Proof. cbn. repeat split; try done; apply (bool_decide_unpack _); reflexivity. Qed.

Lemma demo_tables_reachable : star table_step emptyMDB demo_db.
Proof. apply run_star, demo_valid. Qed.

(** C35. Whatever operations are made on the tables, in any order, they stay
    well formed: keys are keys (machines, enrollments, their secrets,
    directives, their calls); a machine takes one directive at least, and one
    revoked holds no token and no connection while any other holds one; a
    directive is reserved without a task token, running with one, or closed,
    and its times say so; an open directive's machine is its user's and not
    revoked; no two tokens, current, previous or retired, are the same, and a
    retired one belongs to a machine. *)
Theorem machine_tables_ok db (Hreach : star table_step emptyMDB db) : mdb_ok db.
Proof. by apply tables_reachable_ok. Qed.

Lemma machine_tables_ok_witness :
  mdb_ok demo_db ∧ tokens demo_db = ["h2"; "h1"] ∧ DirState <$> directives demo_db = [DirectiveRunning].
Proof.
  split; [|split; reflexivity]. apply machine_tables_ok. apply run_star. cbn. repeat split; try done; apply (bool_decide_unpack _); reflexivity.
Defined.
