(* ===== verification/Lifecycle.v ===== *)
(** * The life of a directive, a machine's load, what revoking cuts

    What the operations on the machines' tables promise together: the directive
    as a state machine the tables refine, the caps the machines announced, an
    enrollment used once, a revoked machine cut off for good. *)

From S2P Require Import Prelude GoStr Table MachineData Choice Machines Directives MachineMessage MachineTables.
Open Scope string_scope.
Open Scope Z_scope.
Open Scope list_scope.

(** ** The abstract directive *)

Inductive phase := Absent | Reserved | Running (sent : bool) | Ended.

Inductive phase_step : phase → phase → Prop :=
| reserve : phase_step Absent Reserved
| call : phase_step Absent (Running false)
| start : phase_step Reserved (Running false)
| send : phase_step (Running false) (Running true)
| orphan : phase_step Reserved Ended
| finish s : phase_step (Running s) Ended.

Definition phase_of_row (d : Directive) : phase :=
  if String.eqb (DirState d) DirectiveReserved then Reserved
  else if String.eqb (DirState d) DirectiveRunning then Running (negb (String.eqb (SentConn d) ""))
  else Ended.

Definition phase_of (id : string) (db : MDB) : phase :=
  match get id (directives db) with Some d => phase_of_row d | None => Absent end.

Definition may_step (a b : phase) : Prop := b = a ∨ phase_step a b.

Lemma phase_open d : Open d = true ↔ phase_of_row d = Reserved ∨ ∃ s, phase_of_row d = Running s.
Proof.
  unfold Open, phase_of_row. destruct (String.eqb (DirState d) DirectiveReserved); [cbn; naive_solver|].
  destruct (String.eqb (DirState d) DirectiveRunning); cbn; naive_solver.
Qed.

Lemma phase_reserved d : DirState d = DirectiveReserved ↔ phase_of_row d = Reserved.
Proof.
  unfold phase_of_row. destruct (String.eqb_spec (DirState d) DirectiveReserved); [done|].
  destruct (String.eqb (DirState d) DirectiveRunning); done.
Qed.

Lemma phase_running d : DirState d = DirectiveRunning ↔ ∃ s, phase_of_row d = Running s.
Proof.
  unfold phase_of_row. destruct (String.eqb_spec (DirState d) DirectiveReserved) as [->|]; [naive_solver|].
  destruct (String.eqb_spec (DirState d) DirectiveRunning); naive_solver.
Qed.

Lemma phase_closed now state err d : closing state = true → phase_of_row (set_closed now state err d) = Ended.
Proof.
  intros [H1 H2]%closing_not_open. unfold phase_of_row. cbn. apply String.eqb_neq in H1, H2. by rewrite H1, H2.
Qed.

(** How a change of open rows moves a directive. *)
Definition moves (f : Directive → Directive) (p : Directive → bool) : Prop :=
  keeps_call f ∧ ∀ d, directive_ok d → p d = true → Open d = true ∧ may_step (phase_of_row d) (phase_of_row (f d)).

Lemma moves_closed now state err p :
  closing state = true → (∀ d, p d = true → Open d = true) → moves (set_closed now state err) p.
Proof.
  intros Hc Hp. split; [apply set_closed_keeps_call|]. intros d _ Ho%Hp. split; [done|]. rewrite phase_closed by done.
  apply phase_open in Ho as [->|[s ->]]; right; constructor.
Qed.

Lemma moves_update p f id db db' :
  mdb_ok db → moves f p → directives db' = update_where p f (directives db) →
  may_step (phase_of id db) (phase_of id db') ∧
  (phase_of id db = Ended → get id (directives db') = get id (directives db)).
Proof.
  intros Hok [Hf Hm] E. unfold phase_of. rewrite E, (update_get p f (directives db) id (keeps_dir f Hf)).
  destruct (get id (directives db)) as [d|] eqn:Hd; cbn; [|by split; [left|]].
  pose proof Hd as [Hin _]%get_some. destruct (p d) eqn:Ep; [|by split; [left|]].
  destruct (Hm d (ok_states _ Hok d Hin) Ep) as [Ho Hs]. split; [done|]. intros He.
  apply phase_open in Ho. rewrite He in Ho. naive_solver.
Qed.

Lemma moves_same id db db' :
  directives db' = directives db →
  may_step (phase_of id db) (phase_of id db') ∧
  (phase_of id db = Ended → get id (directives db') = get id (directives db)).
Proof. intros E. unfold phase_of. rewrite E. split; [by left|done]. Qed.

Lemma moves_add id d db :
  phase_of_row d = Reserved ∨ phase_of_row d = Running false →
  may_step (phase_of id db) (phase_of id (add_directive d db)) ∧
  (phase_of id db = Ended → get id (directives (add_directive d db)) = get id (directives db)).
Proof.
  intros Hd. unfold phase_of, add_directive, with_directives. cbn [directives]. rewrite get_snoc.
  destruct (get id (directives db)); [split; [by left|done]|]. destruct (has_key id d); [|split; [by left|done]].
  split; [|done]. right. destruct Hd as [->| ->]; constructor.
Qed.

Lemma moves_start now id token act dl : moves (set_started now token act dl) (reserved_row id).
Proof.
  split; [apply set_started_keeps_call|]. intros d Hd [_ Hs%String.eqb_eq]%andb_true_iff. split; [apply open_spec; by left|].
  destruct Hd as [(_ & _ & Hc & _)|[(H & _)|[H%closing_not_open _]]]; [|rewrite Hs in H; done|naive_solver].
  right. apply phase_reserved in Hs. rewrite Hs. unfold phase_of_row. cbn. rewrite Hc. constructor.
Qed.

Lemma moves_sent id conn : conn ≠ "" → moves (set_sent conn) (unsent id).
Proof.
  intros Hn. split; [apply set_sent_keeps_call|].
  intros d _ [[_ Hc%String.eqb_eq]%andb_true_iff Hs%String.eqb_eq]%andb_true_iff. split; [apply open_spec; by right|].
  right. unfold phase_of_row. cbn. rewrite Hs, Hc. cbn. destruct (String.eqb_spec conn ""); [done|]. constructor.
Qed.

Lemma moves_result id res : moves (set_result res) (open_row id).
Proof. split; [apply set_result_keeps_call|]. intros d _ [_ Ho]%andb_true_iff. split; [done|by left]. Qed.

Lemma overdue_open at_ d : overdue at_ d = true → Open d = true.
Proof. unfold overdue, Open. rewrite !orb_true_iff, !andb_true_iff. tauto. Qed.

Lemma phase_swept now d : phase_of_row (sweep_one now d) = Ended.
Proof. unfold sweep_one. destruct (String.eqb (DirState d) DirectiveReserved); by apply phase_closed. Qed.

Lemma moves_sweep now at_ : moves (sweep_one now) (overdue at_).
Proof.
  split; [apply sweep_one_keeps_call|]. intros d _ Ho%overdue_open. split; [done|]. rewrite phase_swept.
  apply phase_open in Ho as [->|[s ->]]; right; constructor.
Qed.

(** The operations that touch directives. *)
Definition on_directives (op : machine_op) : bool :=
  match op with
  | OpRevoke _ _ | OpPick _ | OpCallLLM _ | OpStart _ _ _ _ | OpSent _ _ | OpResult _ _ | OpClose _ _ _ | OpSweep _ => true
  | _ => false
  end.

Lemma directives_kept now op db : on_directives op = false → directives (apply_op now op db) = directives db.
Proof.
  destruct op; cbn [on_directives]; try done; intros _; cbn [apply_op]; try done;
    unfold CreateMachineEnrollment, ApproveDeviceRequest, RedeemMachineEnrollment, RotateMachineToken, ConfirmMachineToken,
      MachineConnected, UpdateMachineStatus, SetMachinePaused, SetMachinePriority, update_machine; repeat split_match; done.
Qed.

Lemma phase_steps now op db id :
  mdb_ok db → op_valid op db →
  may_step (phase_of id db) (phase_of id (apply_op now op db)) ∧
  (phase_of id db = Ended → get id (directives (apply_op now op db)) = get id (directives db)).
Proof.
  intros Hok Hv. destruct (on_directives op) eqn:Hop; [|by apply moves_same, directives_kept].
  destruct op as [| | | | | | | | | | | | | | |i reason|req|req|i token act dl|i conn|i res|i st err|at_]; try done;
    cbn [apply_op op_valid] in *; clear Hop.
  - unfold RevokeMachine. repeat split_match; [by apply moves_same..| |by apply moves_same].
    eapply moves_update; [done| |done]. apply moves_closed; [done|]. by intros d [_ Ho]%open_of_spec.
  - unfold PickMachine. repeat split_match; try by apply moves_same. apply moves_add. by left.
  - unfold CreateLLMDirective. repeat split_match; try by apply moves_same. apply moves_add. by right.
  - unfold StartDirective. split_match; [|by apply moves_same]. eapply moves_update; [done|apply moves_start|done].
  - eapply moves_update; [done|by apply moves_sent|done].
  - unfold SaveDirectiveResult. split_match; [by apply moves_same|]. eapply moves_update; [done|apply moves_result|done].
  - eapply moves_update; [done| |done]. apply moves_closed; [done|]. by intros d [_ Ho]%andb_true_iff.
  - eapply moves_update; [done|apply moves_sweep|done].
Qed.

(** ** What the operations answer *)

Lemma affected_key db id p :
  keys_ok (directives db) → (∀ d, p d = true → row_key d = id) →
  affected p (directives db) = match get id (directives db) with Some d => if p d then 1%nat else 0%nat | None => 0%nat end.
Proof.
  intros Hok Hp. unfold affected. destruct (get id (directives db)) as [d|] eqn:Hd.
  - destruct (update_split _ _ _ Hok Hd) as (l1 & l2 & E & _). pose proof Hd as [_ Hk]%get_some.
    assert (∀ x, x ∈ l1 ++ l2 → p x = false) as Hoff.
    { intros x Hx. destruct (p x) eqn:Ex; [|done]. apply Hp in Ex. rewrite E in Hok. unfold keys_ok in Hok.
      rewrite <- Permutation_middle in Hok. cbn in Hok. apply NoDup_cons in Hok as [Hn _]. exfalso. apply Hn.
      rewrite Hk, <- Ex. by apply list_elem_of_fmap_2. }
    assert (∀ l, (∀ x, x ∈ l → p x = false) → List.filter p l = []) as Hnil
      by (intros l Hl; apply filter_existsb_nil, Forall_forall; done).
    rewrite E, List.filter_app. cbn. rewrite (Hnil l1), (Hnil l2) by (intros x Hx; apply Hoff; set_solver).
    destruct (p d); done.
  - assert (List.filter p (directives db) = []) as ->; [|done]. apply filter_existsb_nil, Forall_forall.
    intros x Hx. destruct (p x) eqn:Ex; [|done]. apply Hp in Ex. apply get_none in Hd. exfalso. apply Hd.
    rewrite <- Ex. by apply list_elem_of_fmap_2.
Qed.

Lemma find_key {p : Directive → bool} db id :
  keys_ok (directives db) → (∀ d, p d = true → row_key d = id) →
  List.find p (directives db) = match get id (directives db) with Some d => if p d then Some d else None | None => None end.
Proof.
  intros Hok Hp. destruct (List.find p _) as [d|] eqn:E.
  - apply find_some in E as [Hd Ep]. rewrite <- list_elem_of_In in Hd. pose proof (Hp d Ep) as <-.
    by rewrite (get_in _ d Hok Hd), Ep.
  - destruct (get id (directives db)) as [d|] eqn:Hd; [|done]. apply get_some in Hd as [Hd _].
    apply list_elem_of_In in Hd. by rewrite (find_none _ _ E d Hd).
Qed.

Lemma one_of {A} (o : option A) (p : A → bool) :
  ((match o with Some d => if p d then 1 else 0 | None => 0 end =? 1)%nat = true) ↔ ∃ d, o = Some d ∧ p d = true.
Proof. destruct o as [d|]; cbn; [destruct (p d) eqn:E; naive_solver|naive_solver]. Qed.

Lemma unsent_phase id d : unsent id d = true ↔ row_key d = id ∧ phase_of_row d = Running false.
Proof.
  unfold unsent. rewrite !andb_true_iff, has_key_spec, !String.eqb_eq, phase_running. unfold phase_of_row.
  split.
  - intros [[Hk Hc] [s Hs]]. split; [done|]. revert Hs. repeat case_match; try done. by rewrite Hc.
  - intros [Hk Hs]. split; [|by exists false]. split; [done|]. revert Hs. repeat case_match; try done.
    destruct (String.eqb_spec (SentConn d) ""); done.
Qed.

Lemma open_row_phase id d :
  open_row id d = true ↔ row_key d = id ∧ (phase_of_row d = Reserved ∨ ∃ s, phase_of_row d = Running s).
Proof. unfold open_row. by rewrite andb_true_iff, has_key_spec, phase_open. Qed.

Lemma reserved_row_phase id d : reserved_row id d = true ↔ row_key d = id ∧ phase_of_row d = Reserved.
Proof. unfold reserved_row. by rewrite andb_true_iff, has_key_spec, String.eqb_eq, phase_reserved. Qed.

(** A statement on the row under [id] that must meet a condition of its phase. *)
Lemma affects_phase db id p (P : phase → Prop) :
  keys_ok (directives db) → ¬ P Absent → (∀ d, p d = true ↔ row_key d = id ∧ P (phase_of_row d)) →
  affected p (directives db) = 1%nat ∧ P (phase_of id db) ∨ affected p (directives db) = 0%nat ∧ ¬ P (phase_of id db).
Proof.
  intros Hok Ha Hp. rewrite (affected_key db id) by first [done | by intros x [? _]%Hp]. unfold phase_of.
  destruct (get id (directives db)) as [d|] eqn:Hd; [|by right]. pose proof Hd as [_ Hk]%get_some.
  destruct (p d) eqn:E; [left; split; [done|by apply Hp]|right; split; [done|]].
  intros HP. apply not_true_iff_false in E. apply E. by apply Hp.
Qed.

(** C19. A directive goes through its life as the tables say it does, one step
    at most by operation: absent, then reserved or running (a call to the
    model), then running, sent once, then ended; its row never changes after
    its end. [MarkDirectiveSent] answers true exactly to the one that takes a
    running directive from unsent to sent; [CloseDirective] exactly to the one
    that ends an open directive; a result is kept exactly while it is open;
    and it starts exactly when it is reserved, or already runs with that
    token. *)
Theorem directive_lifecycle now op db id
    (Hreach : star table_step emptyMDB db) (Hvalid : op_valid op db) :
  may_step (phase_of id db) (phase_of id (apply_op now op db)) ∧
  (phase_of id db = Ended → get id (directives (apply_op now op db)) = get id (directives db)) ∧
  (∀ conn, (MarkDirectiveSent id conn db).1 = true ↔ phase_of id db = Running false) ∧
  (∀ state err, (CloseDirective now id state err db).1 = true ↔ phase_of id db = Reserved ∨ ∃ s, phase_of id db = Running s) ∧
  (∀ res, (SaveDirectiveResult id res db).1 = inr tt ↔ phase_of id db = Reserved ∨ ∃ s, phase_of id db = Running s) ∧
  (∀ token act dl, (∃ d, (StartDirective now id token act dl db).1 = inr d) ↔
    phase_of id db = Reserved ∨
    ∃ s d, phase_of id db = Running s ∧ get id (directives db) = Some d ∧ coalesce (TaskToken d) = token).
Proof.
  pose proof (tables_reachable_ok db Hreach) as Hok. destruct (phase_steps now op db id Hok Hvalid) as [Hs Hf].
  pose proof (ok_directives _ Hok) as Hkeys.
  assert (Hp : ∀ d, get id (directives db) = Some d → phase_of id db = phase_of_row d) by (unfold phase_of; by intros d ->).
  split; [exact Hs|]. split; [exact Hf|]. split; [|split; [|split]].
  - intros conn. destruct (affects_phase db id (unsent id) (λ x, x = Running false) Hkeys) as [[E HP]|[E HP]];
      [naive_solver|apply unsent_phase| |]; cbn; rewrite E; naive_solver.
  - intros st err. destruct (affects_phase db id (open_row id) (λ x, x = Reserved ∨ ∃ s, x = Running s) Hkeys) as [[E HP]|[E HP]];
      [naive_solver|apply open_row_phase| |]; cbn; rewrite E; naive_solver.
  - intros res. destruct (affects_phase db id (open_row id) (λ x, x = Reserved ∨ ∃ s, x = Running s) Hkeys) as [[E HP]|[E HP]];
      [naive_solver|apply open_row_phase| |]; unfold SaveDirectiveResult; rewrite E; cbn; naive_solver.
  - intros token act dl. unfold StartDirective, GetDirective.
    rewrite (find_key db id) by first [done | by intros x [? _]%reserved_row_phase]. unfold phase_of.
    destruct (get id (directives db)) as [d|] eqn:Hd; cbn; [|naive_solver]. pose proof Hd as [_ Hk]%get_some.
    destruct (reserved_row id d) eqn:Er; [apply reserved_row_phase in Er as [_ ->]; naive_solver|]. cbn.
    assert (phase_of_row d ≠ Reserved) as Hnr by (intros E; apply not_true_iff_false in Er; apply Er; by apply reserved_row_phase).
    destruct (String.eqb_spec (DirState d) DirectiveRunning) as [E%phase_running|E]; cbn.
    + destruct (String.eqb_spec (coalesce (TaskToken d)) token); cbn; naive_solver.
    + split; [by intros [? ?]|]. rewrite phase_running in E. naive_solver.
Qed.

Lemma directive_lifecycle_witness :
  phase_of "d1" demo_db = Running true ∧
  may_step (phase_of "d1" demo_db) (phase_of "d1" (apply_op 200 (OpClose "d1" DirectiveCompleted "") demo_db)) ∧
  phase_of "d1" (apply_op 200 (OpClose "d1" DirectiveCompleted "") demo_db) = Ended.
Proof.
  split; [reflexivity|]. split; [|reflexivity].
  refine (proj1 (directive_lifecycle 200 (OpClose "d1" DirectiveCompleted "") demo_db "d1" demo_tables_reachable _)). reflexivity.
Defined.

(** ** The load of a machine *)

(** The caps a machine announced. *)
Definition capOf (db : MDB) (llm : bool) (id : string) : Z :=
  match GetMachine id db with Some m => if llm then MaxLLM m else MaxDirectives m | None => 0 end.

Definition load (db : MDB) (llm : bool) (id : string) : Z := if llm then openLLMCalls db id else openRuns db id.
Definition loads (llm : bool) (id : string) (d : Directive) : bool := if llm then open_call id d else open_run id d.

Lemma load_count db llm id : load db llm id = count (loads llm id) (directives db).
Proof. by destruct llm. Qed.

Lemma loads_spec llm id d : loads llm id d = true ↔ MachineOf d = id ∧ Open d = true ∧ is_llm d = llm.
Proof.
  destruct llm; unfold loads, open_call, open_run; rewrite andb_true_iff, open_of_spec; [tauto|].
  rewrite negb_true_iff. tauto.
Qed.

Definition keeps_kind (f : Directive → Directive) : Prop := ∀ d, DirKind (f d) = DirKind d.

(** A change of directives that opens none raises no load. *)
Lemma load_update db p f llm id db' :
  mdb_ok db → moves f p → keeps_kind f → directives db' = update_where p f (directives db) → load db' llm id ≤ load db llm id.
Proof.
  intros Hok [Hf Hm] Hkind E. rewrite !load_count, E. apply count_update_le. intros d Hd Hp Hl. apply loads_spec in Hl as (H1 & H2 & H3).
  apply loads_spec. rewrite <- (keeps_machine f Hf d). split; [done|].
  split; [by apply (Hm d (ok_states _ Hok d Hd) Hp)|]. unfold is_llm in *. by rewrite <- Hkind.
Qed.

Lemma load_add db d llm id :
  load (add_directive d db) llm id = load db llm id + (if loads llm id d then 1 else 0).
Proof. rewrite !load_count. cbn. rewrite count_app. unfold count at 2. cbn. by destruct (loads llm id d). Qed.

Lemma load_same db db' llm id : directives db' = directives db → load db' llm id = load db llm id.
Proof. intros E. by rewrite !load_count, E. Qed.

Lemma user_machines_nodup userID db : mdb_ok db → NoDup (ID <$> user_machines userID db).
Proof.
  intros Hok. unfold user_machines. rewrite sort_stable_perm, <- list_fmap_compose.
  apply (filter_fmap_nodup (ID ∘ mach)). exact (ok_machines _ Hok).
Qed.

Lemma choice_ids (f : Machine → machineChoice) (ms : list Machine) : (∀ m, ChID (f m) = ID m) → ChID <$> (f <$> ms) = ID <$> ms.
Proof. intros Hf. induction ms as [|m ms IH]; [done|]. cbn. by rewrite Hf, IH. Qed.

(** The machine chosen among some of a user's. *)
Lemma chosen_machine (f : Machine → machineChoice) (ms : list Machine) :
  (∀ m, ChID (f m) = ID m) → NoDup (ID <$> ms) → chooseMachine (f <$> ms) ≠ "" →
  ∃ m, m ∈ ms ∧ is_best (f <$> ms) (f m) ∧ chooseMachine (f <$> ms) = ID m.
Proof.
  intros Hf Hn Hc. destruct (choose_some (f <$> ms)) as (c & Hb & E); [by rewrite choice_ids|done|].
  destruct (Hb) as (Hin & _). apply list_elem_of_fmap in Hin as (m & -> & Hm). exists m. by rewrite E, Hf.
Qed.

Lemma named_unique (ms : list Machine) m m' : NoDup (ID <$> ms) → m ∈ ms → List.find (named (ID m)) ms = Some m' → m' = m.
Proof.
  intros Hn Hm [Hm' E%String.eqb_eq]%find_some. rewrite <- list_elem_of_In in Hm'.
  apply list_elem_of_lookup in Hm as [i Hi], Hm' as [j Hj].
  assert (i = j) as ->; [|congruence]. eapply NoDup_lookup; [exact Hn| |]; rewrite list_lookup_fmap; [by rewrite Hi|].
  rewrite Hj. cbn. by rewrite E.
Qed.

Lemma named_found ms m : m ∈ ms → is_Some (List.find (named (ID m)) ms).
Proof.
  intros Hm. destruct (List.find _ ms) eqn:E; [eauto|]. apply list_elem_of_In in Hm. apply (find_none _ _ E) in Hm.
  unfold named in Hm. by rewrite String.eqb_refl in Hm.
Qed.

Lemma user_machine_get db userID m :
  mdb_ok db → m ∈ user_machines userID db → GetMachine (ID m) db = Some m ∧ UserID m = userID.
Proof.
  intros Hok (r & Hr & <- & Hu & _)%user_machines_elem. split; [|done]. unfold GetMachine.
  by rewrite (get_in (machines db) r (ok_machines _ Hok) Hr : get (ID (mach r)) (machines db) = Some r).
Qed.

(** What a pick can make: a directive its call made already, or one on the
    best machine able to take it. *)
Definition best_for (db : MDB) (req : PickRequest) (m : Machine) : Prop :=
  is_best (pick_choice db (PkSeenAfter req) (PkCapabilities req ++ PkExtra req) <$> user_machines (PkUserID req) db)
    (pick_choice db (PkSeenAfter req) (PkCapabilities req ++ PkExtra req) m).

Lemma find_call db r k d :
  mdb_ok db → d ∈ directives db → of_call r k d = true → List.find (of_call r k) (directives db) = Some d.
Proof.
  intros Hok Hd Hc. destruct (List.find _ _) as [d'|] eqn:E.
  - apply find_some in E as [Hd' Hc']. rewrite <- list_elem_of_In in Hd'. f_equal. unfold of_call in *. bool_to_prop.
    apply list_elem_of_lookup in Hd as [i Hi], Hd' as [j Hj]. assert (i = j) as ->; [|congruence].
    eapply NoDup_lookup; [exact (ok_calls _ Hok)| |]; rewrite list_lookup_fmap; [by rewrite Hi|]. rewrite Hj. cbn.
    unfold call_key. by f_equal; f_equal; congruence.
  - apply list_elem_of_In in Hd. apply (find_none _ _ E) in Hd. congruence.
Qed.

Lemma taken_spec db d :
  (∀ x, x ∈ directives db → of_call (RunID d) (CallKey d) x = false) → directive_taken d db = true →
  DirID d ∈ (DirID <$> directives db).
Proof.
  intros Hn (x & Hx & [Hk%has_key_spec|Hc]%orb_true_iff)%existsb_exists; rewrite <- list_elem_of_In in Hx.
  - rewrite <- Hk. by apply list_elem_of_fmap_2.
  - by rewrite Hn in Hc.
Qed.

Definition pick_candidate (db : MDB) (req : PickRequest) (m : Machine) : machineChoice :=
  pick_choice db (PkSeenAfter req) (PkCapabilities req ++ PkExtra req) m.

Lemma pick_cases now req db :
  mdb_ok db →
  (∃ d m, d ∈ directives db ∧ of_call (PkRunID req) (PkCallKey req) d = true ∧ GetMachine (MachineOf d) db = Some m ∧
    PickMachine now req db = (inr (d, m), db)) ∨
  (∃ m, m ∈ user_machines (PkUserID req) db ∧ best_for db req m ∧ directive_taken (picked now req (ID m)) db = false ∧
      PickMachine now req db = (inr (picked now req (ID m), m), add_directive (picked now req (ID m)) db)) ∨
  (∃ e, PickMachine now req db = (inl e, db) ∧
     ((∀ m, m ∈ user_machines (PkUserID req) db → skipped (pick_candidate db req m) = true) ∨
      PkDirectiveID req ∈ (DirID <$> directives db))).
Proof.
  intros Hok. unfold PickMachine. destruct (List.find _ (directives db)) as [d|] eqn:Ed.
  - left. apply find_some in Ed as [Hd Hc]. rewrite <- list_elem_of_In in Hd.
    destruct (ok_dir_machines _ Hok d Hd) as [r Hr]. exists d, (mach r). unfold GetMachine. rewrite Hr. done.
  - right. set (f := pick_choice db (PkSeenAfter req) (PkCapabilities req ++ PkExtra req)). set (ms := user_machines (PkUserID req) db).
    assert (Hn : NoDup (ID <$> ms)) by by apply user_machines_nodup.
    destruct (String.eqb_spec (chooseMachine (f <$> ms)) "") as [He|Hc].
    + right. eexists. split; [reflexivity|]. left. intros m Hm.
      destruct (choose_cases (f <$> ms)) as [(c & Hb)|Hs]; [by rewrite choice_ids| |apply Hs; by apply list_elem_of_fmap_2].
      exfalso. rewrite (choose_best (f <$> ms) c) in He; [|by rewrite choice_ids|done].
      destruct Hb as (Hin & _). apply list_elem_of_fmap in Hin as (x & -> & Hx).
      apply user_machines_elem in Hx as (r & Hr & <- & _). by destruct (ok_rows _ Hok r Hr).
    + destruct (chosen_machine f ms) as (m & Hm & Hb & E); [done..|].
      rewrite E. destruct (named_found _ m Hm) as [m' Hm']. rewrite Hm'.
      assert (m' = m) as -> by (eapply named_unique; [|exact Hm|exact Hm']; done).
      destruct (directive_taken _ db) eqn:Et; [right|left; exists m; split_and!; done].
      eexists. split; [reflexivity|]. right. apply (taken_spec db (picked now req (ID m))); [|done].
      intros x Hx. apply list_elem_of_In in Hx. by apply (find_none _ _ Ed).
Qed.

Lemma call_cases now req db :
  mdb_ok db →
  (∃ r, r ∈ machines db ∧ owned (LqUserID req) (LqMachineID req) r = true ∧ llmUnavailable (mach r) (LqSeenAfter req) = "" ∧
     openLLMCalls db (ID (mach r)) < MaxLLM (mach r) ∧ directive_taken (called now req (ID (mach r))) db = false ∧
     CreateLLMDirective now req db =
       (inr (called now req (ID (mach r)), mach r), add_directive (called now req (ID (mach r))) db)) ∨
  (∃ e, CreateLLMDirective now req db = (inl e, db)).
Proof.
  intros Hok. unfold CreateLLMDirective. destruct (List.find _ (machines db)) as [r|] eqn:Er; [|eauto].
  apply find_some in Er as [Hr Ho]. rewrite <- list_elem_of_In in Hr. destruct (existsb _ _); [eauto|].
  destruct (String.eqb_spec (llmUnavailable (mach r) (LqSeenAfter req)) "") as [Hw|]; cbn; [|eauto].
  destruct (Z.leb_spec (MaxLLM (mach r)) (openLLMCalls db (ID (mach r)))); [eauto|].
  destruct (directive_taken _ db) eqn:Et; [eauto|]. left. exists r. split_and!; done.
Qed.

(** ** No operation raises a load past the cap *)

Lemma loads_new llm id d : loads llm id d = true → MachineOf d = id ∧ is_llm d = llm.
Proof. intros H%loads_spec. tauto. Qed.

Lemma pick_not_llm now req id : PkKind req ≠ llmKind → is_llm (picked now req id) = false.
Proof. intros H. unfold is_llm. cbn. by apply String.eqb_neq. Qed.

Lemma cap_of db llm m : GetMachine (ID m) db = Some m → capOf db llm (ID m) = if llm then MaxLLM m else MaxDirectives m.
Proof. intros E. unfold capOf. by rewrite E. Qed.

Lemma load_pick now req db llm id :
  mdb_ok db → PkKind req ≠ llmKind →
  let db' := (PickMachine now req db).2 in load db' llm id ≤ load db llm id ∨ load db' llm id ≤ capOf db' llm id.
Proof.
  intros Hok Hk. cbn. destruct (pick_cases now req db Hok) as [(d & x & _ & _ & _ & ->)|[(m & Hm & (_ & Hs & _) & _ & ->)|(e & -> & _)]];
    [by left| |by left].
  cbn [snd]. rewrite load_add. destruct (loads llm id _) eqn:El; [right|left; lia].
  apply loads_new in El as [Hid Hl]. rewrite pick_not_llm in Hl by done. subst llm. cbn in Hid. subst id.
  apply skipped_false in Hs as (_ & _ & _ & Hlt). cbn in Hlt.
  destruct (user_machine_get db _ m Hok Hm) as [Hg _].
  change (capOf (add_directive (picked now req (ID m)) db) false (ID m)) with (capOf db false (ID m)).
  rewrite cap_of by done. cbn. lia.
Qed.

Lemma load_call now req db llm id :
  mdb_ok db →
  let db' := (CreateLLMDirective now req db).2 in load db' llm id ≤ load db llm id ∨ load db' llm id ≤ capOf db' llm id.
Proof.
  intros Hok. cbn. destruct (call_cases now req db Hok) as [(r & Hr & _ & _ & Hlt & _ & ->)|(e & ->)]; [|by left].
  cbn [snd]. rewrite load_add. destruct (loads llm id _) eqn:El; [right|left; lia].
  apply loads_new in El as [Hid Hl]. cbn in Hid, Hl. subst id llm.
  change (capOf (add_directive (called now req (ID (mach r))) db) true (ID (mach r))) with (capOf db true (ID (mach r))).
  rewrite cap_of.
  - cbn. lia.
  - unfold GetMachine. by rewrite (get_in (machines db) r (ok_machines _ Hok) Hr : get (ID (mach r)) (machines db) = Some r).
Qed.

(** No operation on the tables raises the load of a machine past the cap
    it announced: its open coding runs, counted apart from its open calls to
    the model, never become more than they were unless they stay within the
    cap (a cap a new connection lowers is not enforced on what runs already).
    Two picks never both take a machine's last slot. *)
Theorem load_within_cap now op db llm id
    (Hreach : star table_step emptyMDB db) (Hvalid : op_valid op db) :
  load (apply_op now op db) llm id ≤ load db llm id ∨
  load (apply_op now op db) llm id ≤ capOf (apply_op now op db) llm id.
Proof.
  pose proof (tables_reachable_ok db Hreach) as Hok. destruct (on_directives op) eqn:Hop; [|left; rewrite (load_same db _ llm id (directives_kept now op db Hop)); lia].
  destruct op as [| | | | | | | | | | | | | | |i reason|req|req|i token act dl|i conn|i res|i st err|at_]; try done;
    cbn [apply_op op_valid] in *; clear Hop.
  - left. unfold RevokeMachine. repeat split_match; try (cbn; lia). eapply load_update; [done| | |reflexivity]; [|done].
    apply moves_closed; [done|]. by intros d [_ Ho]%open_of_spec.
  - by apply load_pick; [|apply Hvalid].
  - by apply load_call.
  - left. unfold StartDirective. split_match; [|cbn; lia]. eapply load_update; [done|apply moves_start|done|reflexivity].
  - left. eapply load_update; [done|by apply moves_sent|done|reflexivity].
  - left. unfold SaveDirectiveResult. split_match; [cbn; lia|]. eapply load_update; [done|apply moves_result|done|reflexivity].
  - left. eapply load_update; [done| | |reflexivity]; [|done]. apply moves_closed; [done|]. by intros d [_ Ho]%andb_true_iff.
  - left. eapply load_update; [done|apply moves_sweep| |reflexivity].
    intros d. unfold sweep_one. by destruct (String.eqb (DirState d) DirectiveReserved).
Qed.

Lemma load_within_cap_witness :
  let db' := apply_op 110 (OpPick (demo_pick "d2" "k2")) demo_db in
  (load db' false "m1" ≤ load demo_db false "m1" ∨ load db' false "m1" ≤ capOf db' false "m1") ∧
  load db' false "m1" = 2 ∧ (PickMachine 120 (demo_pick "d3" "k3") db').1 = inl ErrNoMachine.
Proof.
  split; [|split; reflexivity]. apply (load_within_cap 110 (OpPick (demo_pick "d2" "k2")) demo_db false "m1" demo_tables_reachable).
  split; [discriminate|reflexivity].
Defined.

(** A pick made again for the same run and call finds its directive,
    whatever became of it, and changes nothing; the first one reserves the
    best of the user's machines that are online, not paused, with the
    capabilities and a slot to spare. It fails, changing nothing, only when
    there is none (or the new directive's ID is taken). *)
Theorem pick_once now req db
    (Hreach : star table_step emptyMDB db) (Hid : id_ok (PkDirectiveID req) = true) :
  (∀ d m db', PickMachine now req db = (inr (d, m), db') →
    RunID d = PkRunID req ∧ CallKey d = PkCallKey req ∧ d ∈ directives db' ∧ GetMachine (MachineOf d) db' = Some m ∧
    (db' = db ∨ (db' = add_directive d db ∧ DirState d = DirectiveReserved ∧ UserID m = PkUserID req ∧ best_for db req m)) ∧
    ∀ now' req', PkRunID req' = PkRunID req → PkCallKey req' = PkCallKey req → PickMachine now' req' db' = (inr (d, m), db')) ∧
  (∀ e db', PickMachine now req db = (inl e, db') →
    db' = db ∧
    ((∀ m, m ∈ user_machines (PkUserID req) db →
        Online (PkSeenAfter req) m = true → Paused m = false → CanAll (PkCapabilities req ++ PkExtra req) m = true →
        MaxDirectives m ≤ openRuns db (ID m)) ∨ PkDirectiveID req ∈ (DirID <$> directives db))).
Proof.
  pose proof (tables_reachable_ok db Hreach) as Hok. split.
  - intros d m db' E. assert (Hdb' : mdb_ok db') by (change db' with (inr (A := MachineError) (d, m), db').2; rewrite <- E; by apply pick_ok).
    enough (of_call (PkRunID req) (PkCallKey req) d = true ∧ d ∈ directives db' ∧ GetMachine (MachineOf d) db' = Some m ∧
        (db' = db ∨ (db' = add_directive d db ∧ DirState d = DirectiveReserved ∧ UserID m = PkUserID req ∧ best_for db req m)))
      as (Hc & Hd & Hg & Hmade).
    { pose proof Hc as [Hr%String.eqb_eq Hk%String.eqb_eq]%andb_true_iff. split_and!; [done..|].
      intros now' req' E1 E2. unfold PickMachine. by rewrite E1, E2, (find_call db' _ _ d Hdb' Hd Hc), Hg. }
    destruct (pick_cases now req db Hok) as [(x & mx & Hx & Hc & Hg & E2)|[(mx & Hx & Hb & _ & E2)|(e & E2 & _)]];
      rewrite E2 in E; [injection E as -> -> <-|injection E as <- <- <-|done]; [split_and!; auto|].
    destruct (user_machine_get db _ mx Hok Hx) as [Hg Hu]. split_and!; [|cbn; apply elem_snoc; by right|done|by right].
    unfold of_call. cbn. by rewrite !String.eqb_refl.
  - intros e db' E. destruct (pick_cases now req db Hok) as [(x & mx & _ & _ & _ & E2)|[(mx & _ & _ & _ & E2)|(e' & E2 & Hwhy)]];
      rewrite E2 in E; [done..|]. injection E as _ <-. split; [done|]. destruct Hwhy as [Hs|]; [left|by right].
    intros m Hm Hon Hp Hcan. specialize (Hs m Hm). apply Z.nlt_ge. intros Hlt.
    assert (skipped (pick_candidate db req m) = false); [|congruence]. apply skipped_false. done.
Qed.

Lemma pick_once_witness :
  ∃ d m db', PickMachine 110 (demo_pick "d2" "k2") demo_db = (inr (d, m), db') ∧ DirState d = DirectiveReserved ∧
    PickMachine 500 (demo_pick "d9" "k2") db' = (inr (d, m), db').
Proof.
  assert (Hs : match (PickMachine 110 (demo_pick "d2" "k2") demo_db).1 with inr (d, _) => DirState d | inl _ => "" end = DirectiveReserved)
    by (vm_compute; reflexivity).
  destruct (PickMachine 110 (demo_pick "d2" "k2") demo_db) as [[e|[d m]] db'] eqn:E; [discriminate Hs|].
  exists d, m, db'. split; [done|]. split; [exact Hs|].
  destruct (pick_once 110 (demo_pick "d2" "k2") demo_db demo_tables_reachable eq_refl) as [H _].
  destruct (H d m db' E) as (_ & _ & _ & _ & _ & Hagain). by apply Hagain.
Defined.

(** ** Retired tokens *)

Lemma retire_grows id hashes t x : x ∈ t → x ∈ retireTokens id hashes t.
Proof.
  unfold retireTokens. revert t. induction hashes as [|h hashes IH]; intros t Hx; [done|]. cbn. apply IH.
  unfold retire_one. destruct (_ || _); [done|]. apply elem_of_app. by left.
Qed.

Lemma retired_grows now op db x : x ∈ retired db → x ∈ retired (apply_op now op db).
Proof.
  intros Hx. destruct op; cbn [apply_op]; try done;
    unfold CreateMachineEnrollment, ApproveDeviceRequest, RedeemMachineEnrollment, MachineConnected, UpdateMachineStatus,
      SetMachinePaused, SetMachinePriority, update_machine, RotateMachineToken, ConfirmMachineToken, RevokeMachine, PickMachine,
      CreateLLMDirective, StartDirective, SaveDirectiveResult; repeat split_match; try done; by apply retire_grows.
Qed.

Lemma find_none_all {A} (p : A → bool) (l : list A) : (∀ x, x ∈ l → p x = false) → List.find p l = None.
Proof.
  intros H. destruct (List.find p l) as [x|] eqn:E; [|done]. apply find_some in E as [Hx Hp].
  rewrite <- list_elem_of_In in Hx. rewrite H in Hp; done.
Qed.

Lemma holds_token_spec h r : holds_token h r = true ↔ h ∈ tokens_of r.
Proof.
  unfold holds_token, tokens_of. rewrite orb_true_iff, !bool_decide_eq_true, elem_of_app.
  destruct (token_hash r), (prev_token_hash r); set_solver.
Qed.

Lemma valid_token_elem db h : h ∈ valid_tokens db ↔ ∃ r, r ∈ machines db ∧ h ∈ tokens_of r.
Proof.
  unfold valid_tokens. rewrite list_elem_of_join. setoid_rewrite list_elem_of_fmap. naive_solver.
Qed.

(** A retired token finds its machine, as retired. *)
Lemma retired_token db h id :
  mdb_ok db → (h, id) ∈ retired db → ∃ m, GetMachine id db = Some m ∧ MachineByToken h db = (Some m, TokenRetired).
Proof.
  intros Hok Hin. pose proof (ok_tokens _ Hok) as Hnd. unfold tokens in Hnd. apply NoDup_app in Hnd as (_ & Hdis & Hret).
  assert (Hh : h ∈ (fst <$> retired db)) by (apply list_elem_of_fmap; by exists (h, id)).
  unfold MachineByToken. rewrite find_none_all.
  2:{ intros r Hr. apply not_true_iff_false. rewrite holds_token_spec. intros Ht. apply (Hdis h); [|done].
      apply valid_token_elem. eauto. }
  destruct (List.find _ (retired db)) as [x|] eqn:Ex.
  - apply find_some in Ex as [Hx E%String.eqb_eq]. rewrite <- list_elem_of_In in Hx.
    assert (x = (h, id)) as ->.
    { apply list_elem_of_lookup in Hx as [i Hi], Hin as [j Hj]. assert (i = j) as ->; [|congruence].
      eapply NoDup_lookup; [exact Hret| |]; rewrite list_lookup_fmap; [by rewrite Hi|]. rewrite Hj. cbn. by rewrite E. }
    cbn. destruct (ok_retired _ Hok (h, id) Hin) as [r Hr]. unfold GetMachine. cbn in Hr. rewrite Hr. cbn. eauto.
  - apply list_elem_of_In in Hin. apply (find_none _ _ Ex) in Hin. cbn in Hin. by rewrite String.eqb_refl in Hin.
Qed.

(** ** Revoked machines *)

Definition is_revoked (id : string) (db : MDB) : Prop := ∃ r, get id (machines db) = Some r ∧ revoked r = true.

Lemma revoked_update db p f id db' :
  KeepsKey f → (∀ r, revoked r = true → revoked (f r) = true) → machines db' = update_where p f (machines db) →
  is_revoked id db → is_revoked id db'.
Proof.
  intros HK Hf E (r & Hg & Hr). exists (if p r then f r else r). rewrite E, (update_get p f _ id HK), Hg. split; [done|].
  destruct (p r); auto.
Qed.

Lemma revoked_machine p f id db : keeps_identity f → is_revoked id db → is_revoked id (with_machines db (update_where p (on_machine f) (machines db))).
Proof.
  intros Hf. eapply revoked_update; [apply on_machine_keeps, Hf| |reflexivity]. intros r Hr. by rewrite revoked_on_machine.
Qed.

Lemma revoked_stays now op db id : is_revoked id db → is_revoked id (apply_op now op db).
Proof.
  intros Hr. destruct op; cbn [apply_op]; try done;
    unfold CreateMachineEnrollment, ApproveDeviceRequest, MachineConnected, UpdateMachineStatus, SetMachinePaused,
      SetMachinePriority, update_machine, RotateMachineToken, ConfirmMachineToken, RevokeMachine, PickMachine,
      CreateLLMDirective, StartDirective, SaveDirectiveResult; repeat split_match; try done; try (apply revoked_machine; [by constructor|done]).
  - unfold RedeemMachineEnrollment. repeat split_match; try done. destruct Hr as (r & Hg & Hr). exists r. cbn. by rewrite get_snoc, Hg.
  - eapply revoked_update; [apply set_tokens_keeps|done|reflexivity|done].
  - eapply revoked_update; [apply set_prev_keeps|done|reflexivity|done].
  - eapply revoked_update; [apply revoke_row_keeps|done|reflexivity|done].
Qed.

(** What is true of a machine once it is revoked, whatever happens then. *)
Lemma revoked_facts db id :
  mdb_ok db → is_revoked id db →
  (∀ d, d ∈ directives db → MachineOf d = id → Open d = false) ∧
  (∀ now gw addr hello, (MachineConnected now id gw addr hello db).1 = inl ErrMachineNotFound) ∧
  (∀ presented next, (RotateMachineToken id presented next db).1 = inl ErrTokenRefused) ∧
  (∀ userID m, m ∈ user_machines userID db → ID m ≠ id).
Proof.
  intros Hok (r & Hg & Hr). split; [|split; [|split]].
  - intros d Hd Hm. apply not_true_iff_false. intros Ho. destruct (ok_owners _ Hok d Hd Ho) as (x & Hx & Hv & _).
    rewrite Hm in Hx. congruence.
  - intros now gw addr hello. unfold MachineConnected. rewrite find_none_all; [done|]. intros x Hx. apply not_true_iff_false.
    intros [Hid Hv]%live_row_spec. rewrite <- Hid, (get_in _ x (ok_machines _ Hok) Hx : get (ID (mach x)) _ = _) in Hg. congruence.
  - intros p n. unfold RotateMachineToken. by rewrite Hg, Hr.
  - intros u m (x & Hx & <- & _ & Hv)%user_machines_elem E.
    rewrite <- E, (get_in _ x (ok_machines _ Hok) Hx : get (ID (mach x)) _ = _) in Hg. congruence.
Qed.

(** Revoking a machine closes its open directives, and gives them back;
    its tokens become retired. Whatever happens then, it stays so: each of its
    former tokens is answered as retired, its connections and rotations are
    refused, no directive of it is open, and it is no candidate for another. *)
Theorem revoked_for_good now id reason db ds db1 db2 r
    (Hreach : star table_step emptyMDB db) (Hrow : get id (machines db) = Some r) (Hlive : revoked r = false)
    (Hrevoke : RevokeMachine now id reason db = (inr ds, db1)) (Hafter : star table_step db1 db2) :
  is_revoked id db2 ∧
  (∀ d, d ∈ ds ↔ ∃ x, x ∈ directives db ∧ MachineOf x = id ∧ Open x = true ∧ d = set_closed now DirectiveRevoked reason x) ∧
  (∀ h, h ∈ tokens_of r → ∃ m, GetMachine id db2 = Some m ∧ MachineByToken h db2 = (Some m, TokenRetired)) ∧
  (∀ d, d ∈ directives db2 → MachineOf d = id → Open d = false) ∧
  (∀ now' gw addr hello, (MachineConnected now' id gw addr hello db2).1 = inl ErrMachineNotFound) ∧
  (∀ presented next, (RotateMachineToken id presented next db2).1 = inl ErrTokenRefused) ∧
  (∀ userID m, m ∈ user_machines userID db2 → ID m ≠ id).
Proof.
  pose proof (tables_reachable_ok db Hreach) as Hok. pose proof (revoke_ok now id reason db Hok) as Hok1.
  rewrite Hrevoke in Hok1. cbn in Hok1. unfold RevokeMachine in Hrevoke. rewrite Hrow, Hlive in Hrevoke. injection Hrevoke as <- E1.
  pose proof (row_tokens db Hok id r Hrow) as Hne.
  assert (Hr1 : is_revoked id db1).
  { exists (revoke_row now reason r). rewrite <- E1. cbn. split; [|done].
    rewrite (update_get _ _ _ _ (revoke_row_keeps now reason)), Hrow. cbn. pose proof Hrow as [_ Hk]%get_some.
    by apply has_key_spec in Hk as ->. }
  assert (Ht1 : ∀ h, h ∈ tokens_of r → (h, id) ∈ retired db1).
  { intros h Hh. rewrite <- E1. cbn. rewrite retire_fresh; rewrite (coalesce_tokens db) by done.
    - apply elem_of_app. right. apply list_elem_of_fmap. eauto.
    - by apply (retire_nodup db id r []). }
  assert (H2 : mdb_ok db2 ∧ is_revoked id db2 ∧ ∀ h, h ∈ tokens_of r → (h, id) ∈ retired db2).
  { apply (star_invariant table_step (λ x, mdb_ok x ∧ is_revoked id x ∧ ∀ h, h ∈ tokens_of r → (h, id) ∈ retired x) db1 db2); [|done|done].
    intros a b (Ha & Hra & Hta) (n & op & Hv & ->). split_and!; [by apply apply_op_ok|by apply revoked_stays|].
    intros h Hh. apply retired_grows. auto. }
  destruct H2 as (Hok2 & Hr2 & Ht2). destruct (revoked_facts db2 id Hok2 Hr2) as (F1 & F2 & F3 & F4). split; [done|split; [|split_and!; auto]].
  - intros d. rewrite list_elem_of_fmap. setoid_rewrite elem_filter. setoid_rewrite open_of_spec. naive_solver.
  - intros h Hh. apply retired_token; auto.
Qed.

Lemma revoked_for_good_witness :
  let db2 := apply_op 400 (OpSweep 400) (RevokeMachine 300 "m1" "lost" demo_db).2 in
  (∀ h, h ∈ ["h2"] → ∃ m, GetMachine "m1" db2 = Some m ∧ MachineByToken h db2 = (Some m, TokenRetired)) ∧
  DirState <$> directives db2 = [DirectiveRevoked].
Proof.
  split; [|reflexivity].
  assert (Hs : is_none (get "m1" (machines demo_db)) = false ∧
      match get "m1" (machines demo_db) with Some r => (revoked r, tokens_of r) | None => (true, []) end = (false, ["h2"]) ∧
      match (RevokeMachine 300 "m1" "lost" demo_db).1 with inr _ => true | inl _ => false end = true) by (vm_compute; done).
  destruct Hs as (Hg & Hr & He). destruct (RevokeMachine 300 "m1" "lost" demo_db) as [[e|ds] db1] eqn:E; [discriminate He|].
  destruct (get "m1" (machines demo_db)) as [r|] eqn:Hrow; [|discriminate Hg]. injection Hr as Hv Ht.
  destruct (revoked_for_good 300 "m1" "lost" demo_db ds db1 (apply_op 400 (OpSweep 400) db1) r demo_tables_reachable Hrow Hv E) as (_ & _ & H & _).
  { apply star_one. exists 400, (OpSweep 400). split; [exact I|reflexivity]. }
  cbn [snd]. intros h Hh. apply H. by rewrite Ht.
Defined.

(** ** Enrollments *)

(** The operations but the creation of an enrollment with that secret. *)
Definition other_secret (secret : string) (op : machine_op) : Prop :=
  match op with OpCreateEnrollment e => SecretHash e ≠ secret | _ => True end.

Definition quiet_step (secret : string) (db db' : MDB) : Prop :=
  ∃ now op, op_valid op db ∧ other_secret secret op ∧ db' = apply_op now op db.

(** The enrollments of a secret have given their machine. *)
Definition used_up (secret : string) (db : MDB) : Prop :=
  ∀ e, e ∈ enrollments db → SecretHash e = secret → EnrMachineID e ≠ "".

Lemma used_update secret db p f db' :
  (∀ e, SecretHash (f e) = SecretHash e) → (∀ e, EnrMachineID e ≠ "" → EnrMachineID (f e) ≠ "") →
  enrollments db' = update_where p f (enrollments db) → used_up secret db → used_up secret db'.
Proof.
  intros Hs Hm E Hu e'. rewrite E. intros (e & He & ->)%update_elem. destruct (p e); [rewrite Hs|]; intros Hse;
    [apply Hm|]; by apply Hu.
Qed.

Lemma used_stays secret now op db :
  op_valid op db → other_secret secret op → used_up secret db → used_up secret (apply_op now op db).
Proof.
  intros Hv Ho Hu. destruct op; cbn [apply_op op_valid other_secret] in *; try done;
    unfold MachineConnected, UpdateMachineStatus, SetMachinePaused,
      SetMachinePriority, update_machine, RotateMachineToken, ConfirmMachineToken, RevokeMachine, PickMachine,
      CreateLLMDirective, StartDirective, SaveDirectiveResult; try (repeat split_match; done).
  - unfold CreateMachineEnrollment. repeat split_match; try done. cbn. intros x [Hx| ->]%elem_snoc; [by apply Hu|]. by cbn.
  - unfold ApproveDeviceRequest. repeat split_match; try done. by eapply used_update; [| |reflexivity|].
  - unfold RedeemMachineEnrollment. repeat split_match; try done. eapply used_update; [| |reflexivity|done]; [done|]. intros x _. apply Hv.
  - intros e [He _]%elem_filter. by apply Hu.
Qed.

Lemma redeem_used now kind secret info id hash at_ db :
  used_up secret db → RedeemMachineEnrollment now kind secret info id hash at_ db = (inl ErrEnrollmentUnknown, db).
Proof.
  intros Hu. unfold RedeemMachineEnrollment. destruct (List.find _ _) as [e|] eqn:E; [|done].
  apply find_some in E as [He [_ Hs%String.eqb_eq]%andb_true_iff]. rewrite <- list_elem_of_In in He.
  specialize (Hu e He Hs). destruct (String.eqb_spec (EnrMachineID e) ""); done.
Qed.

Lemma secret_unique db e e' : mdb_ok db → e ∈ enrollments db → e' ∈ enrollments db → SecretHash e = SecretHash e' → e = e'.
Proof.
  intros Hok He He' Hs. apply list_elem_of_lookup in He as [i Hi], He' as [j Hj]. assert (i = j) as ->; [|congruence].
  eapply NoDup_lookup; [exact (ok_secrets _ Hok)| |]; rewrite list_lookup_fmap; [by rewrite Hi|]. rewrite Hj. cbn. by rewrite Hs.
Qed.

(** An enrollment gives one machine at most: to the user who approved it,
    before it expires, to who holds its secret; the token it is given is the
    machine's current one. Redeemed again, whatever happened since, it is
    unknown. *)
Theorem enrollment_once now kind secret info id hash at_ db m db1 db2
    (Hreach : star table_step emptyMDB db)
    (Hid : id ≠ "" ∧ hash ≠ "" ∧ hash ∉ tokens db)
    (Hredeem : RedeemMachineEnrollment now kind secret info id hash at_ db = (inr m, db1))
    (Hafter : star (quiet_step secret) db1 db2) :
  (∃ e, e ∈ enrollments db ∧ EnrKind e = kind ∧ SecretHash e = secret ∧ EnrMachineID e = "" ∧ at_ < ExpiresAt e ∧
    ApprovedBy e ≠ "" ∧ UserID m = ApprovedBy e ∧ ID m = id) ∧
  MachineByToken hash db1 = (Some m, TokenCurrent) ∧
  (∀ now' kind' info' id' hash' at', RedeemMachineEnrollment now' kind' secret info' id' hash' at' db2 = (inl ErrEnrollmentUnknown, db2)).
Proof.
  pose proof (tables_reachable_ok db Hreach) as Hok. destruct Hid as (Hid & Hh & Hfresh).
  unfold RedeemMachineEnrollment in Hredeem. destruct (List.find _ _) as [e|] eqn:E; [|done].
  apply find_some in E as [He [Hk%String.eqb_eq Hs%String.eqb_eq]%andb_true_iff]. rewrite <- list_elem_of_In in He.
  destruct (String.eqb_spec (EnrMachineID e) ""); cbn in Hredeem; [|done]. destruct (Z.leb_spec (ExpiresAt e) at_); [done|].
  destruct (String.eqb_spec (ApprovedBy e) ""); [done|]. destruct (existsb _ _) eqn:Ex; [done|].
  injection Hredeem as <- E1. split; [|split].
  - exists e. split_and!; try done; by destruct (String.eqb (EnrKind e) EnrollmentDevice).
  - unfold MachineByToken. rewrite <- E1. cbn [machines]. set (row := mkMachineRow _ _ _).
    assert (List.find (holds_token hash) (machines db ++ [row]) = Some row) as ->.
    { assert (Hn : List.find (holds_token hash) (machines db) = None).
      { apply find_none_all. intros r Hr. apply not_true_iff_false. rewrite holds_token_spec. intros Ht. apply Hfresh.
        unfold tokens. apply elem_of_app. left. apply valid_token_elem. eauto. }
      clear -Hn. induction (machines db) as [|x l IH]; cbn in *.
      - unfold holds_token. cbn. by rewrite bool_decide_eq_true_2.
      - destruct (holds_token hash x); [done|auto]. }
    cbn. by rewrite String.eqb_refl.
  - intros. apply redeem_used. apply (star_invariant (quiet_step secret) (used_up secret) db1 db2); [|done|].
    + intros a b Ha (tm & op & Hv & Ho & ->). by apply used_stays.
    + intros x. rewrite <- E1. cbn. intros (y & Hy & ->)%update_elem. destruct (has_key (EnrID e) y) eqn:Eq; [done|].
      intros Hsy. rewrite <- Hs in Hsy. rewrite (secret_unique db y e Hok Hy He Hsy) in Eq.
      unfold has_key in Eq. cbn in Eq. change (row_key e) with (EnrID e) in Eq. by rewrite String.eqb_refl in Eq.
Qed.

Lemma enrollment_once_witness :
  let db := run_ops (take 2 demo_ops) emptyMDB in
  ∃ m db1, RedeemMachineEnrollment 30 EnrollmentDevice "secret" demo_hello "m1" "h1" 30 db = (inr m, db1) ∧
    MachineByToken "h1" db1 = (Some m, TokenCurrent) ∧
    RedeemMachineEnrollment 40 EnrollmentDevice "secret" demo_hello "m2" "h9" 40 db1 = (inl ErrEnrollmentUnknown, db1).
Proof.
  destruct (RedeemMachineEnrollment 30 EnrollmentDevice "secret" demo_hello "m1" "h1" 30 (run_ops (take 2 demo_ops) emptyMDB))
    as [[e|m] db1] eqn:E; [discriminate|]. exists m, db1. split; [exact E|].
  assert (Hreach : star table_step emptyMDB (run_ops (take 2 demo_ops) emptyMDB)) by (apply run_star; cbn; repeat split; done).
  assert (Hid : "m1" ≠ "" ∧ "h1" ≠ "" ∧ "h1" ∉ tokens (run_ops (take 2 demo_ops) emptyMDB))
    by (split_and!; [done..|]; apply (bool_decide_unpack _); reflexivity).
  destruct (enrollment_once 30 EnrollmentDevice "secret" demo_hello "m1" "h1" 30 _ m db1 db1 Hreach Hid E (star_refl _ _)) as (_ & H1 & H2).
  split; [exact H1|apply H2].
Defined.
