(* ===== verification/Codes.v ===== *)
(** * User codes of the enrollment (src/machine/token.go)

    A code is drawn from random bytes, shown with a dash, and read back as a
    user typed it. [unicode.ToUpper] is written for the runes that matter: an
    ASCII letter, and the two runes over 127 whose upper case is ASCII; any
    other rune over 127 stays over 127, and is refused. *)

From S2P Require Import Prelude GoStr Utf8 MachineMessage.
Open Scope string_scope.
Open Scope Z_scope.
Open Scope list_scope.

Definition userCodeAlphabet : string := "ABCDEFGHJKMNPQRSTUVWXYZ23456789".
Definition UserCodeLength : Z := 6.

(** ** Drawing a code *)

(** The byte at a place of the alphabet. *)
Definition letter (i : Z) : ascii := default "A"%char (String.get (Z.to_nat i) userCodeAlphabet).

(** One block of random bytes: those that would bias the code are skipped. *)
Fixpoint draw (block : list Z) (out : string) : string :=
  match block with
  | [] => out
  | c :: block =>
      draw block
        (if (c <? 256 - 256 mod len userCodeAlphabet) && (len out <? UserCodeLength)
         then out +:+ String (letter (c mod len userCodeAlphabet)) "" else out)
  end.

(** The loop over blocks of random bytes, until the code is long enough;
    [None]: the blocks are over. *)
Fixpoint draw_blocks (blocks : list (list Z)) (out : string) : option string :=
  if UserCodeLength <=? len out then Some out
  else match blocks with [] => None | b :: blocks => draw_blocks blocks (draw b out) end.

Definition NewUserCode (blocks : list (list Z)) : option string := draw_blocks blocks "".

(** ** Showing and reading it *)

Definition FormatUserCode (code : string) : string :=
  if len code =? UserCodeLength then take_str 3 code +:+ "-" +:+ drop_str 3 code else code.

Definition to_upper (r : Z) : Z :=
  if (97 <=? r) && (r <=? 122) then r - 32 else if r =? 305 then 73 else if r =? 383 then 83 else r.

(** [strings.ContainsRune(userCodeAlphabet, r)]. *)
Definition in_alphabet (r : Z) : bool := (r <? 128) && (0 <=? r) && has_byte (byte r) userCodeAlphabet.

Definition is_blank (r : Z) : bool := (r =? 45) || (r =? 32) || (r =? 9).

(** The loop over the runes; [None]: one cannot be in a code. *)
Fixpoint normalize_loop (fuel : nat) (s : string) : option string :=
  match fuel, s with
  | _, "" => Some ""
  | O, _ => None
  | S fuel, s =>
      let '(r, n) := decode_rune s in
      let r := to_upper r in
      if is_blank r then normalize_loop fuel (drop_str n s)
      else if in_alphabet r then String (byte r) <$> normalize_loop fuel (drop_str n s)
      else None
  end.

Definition NormalizeUserCode (input : string) : string :=
  match normalize_loop (String.length input) input with
  | Some b => if len b =? UserCodeLength then b else ""
  | None => ""
  end.

(** ** A code reads back *)

(** A byte of the alphabet. *)
Definition code_byte (c : ascii) : bool := has_byte c userCodeAlphabet.
Arguments code_byte : simpl never.

Definition is_code (s : string) : Prop := len s = UserCodeLength ∧ all_bytes code_byte s = true.

(** The same code as typed: in any case, with dashes and spaces anywhere. *)
Inductive typed_as : string → string → Prop :=
| typed_end : typed_as "" ""
| typed_blank c t s : is_blank (byte_of c) = true → typed_as t s → typed_as (String c t) s
| typed_char c d t s : to_upper (byte_of c) = byte_of d → typed_as t s → typed_as (String c t) (String d s).

Lemma ascii_rune c s : byte_of c < 128 → decode_rune (String c s) = (byte_of c, 1%nat).
Proof. intros H. unfold decode_rune. assert ((byte_of c <? 128) = true) as -> by lia. done. Qed.

Lemma alphabet_ascii c : code_byte c = true → byte_of c < 128 ∧ is_blank (byte_of c) = false ∧ to_upper (byte_of c) = byte_of c.
Proof. destruct c as [[] [] [] [] [] [] [] []]; vm_compute; done. Qed.

Lemma in_alphabet_byte c : byte_of c < 128 → in_alphabet (byte_of c) = code_byte c.
Proof.
  intros H. unfold in_alphabet. rewrite byte_byte_of. pose proof (byte_of_range c).
  assert ((byte_of c <? 128) = true) as -> by lia. assert ((0 <=? byte_of c) = true) as -> by lia. done.
Qed.

Lemma to_upper_ascii c d : to_upper (byte_of c) = byte_of d → byte_of d < 128 → byte_of c < 128.
Proof. pose proof (byte_of_range c). unfold to_upper. repeat case_match; lia. Qed.

Lemma normalize_typed t s fuel :
  typed_as t s → all_bytes code_byte s = true → (String.length t ≤ fuel)%nat →
  normalize_loop fuel t = Some s.
Proof.
  intros Ht. revert fuel. induction Ht as [|c t s Hb Ht IH|c d t s Hc Ht IH]; intros fuel Hs Hf; [by destruct fuel| |];
    (destruct fuel as [|fuel]; [cbn in Hf; lia|]); cbn in Hf.
  - assert (byte_of c < 128 ∧ to_upper (byte_of c) = byte_of c) as [Hc Hu].
    { unfold is_blank in Hb. unfold to_upper. repeat case_match; lia. }
    cbn [normalize_loop]. rewrite ascii_rune by done. rewrite Hu, Hb. cbn. apply IH; [done|lia].
  - cbn in Hs. apply andb_true_iff in Hs as [Hd Hs]. destruct (alphabet_ascii d Hd) as (Hd1 & Hd2 & _).
    cbn [normalize_loop]. rewrite ascii_rune by by eapply to_upper_ascii. rewrite Hc, Hd2, in_alphabet_byte, Hd by done.
    cbn [drop_str]. rewrite IH by (done || lia). by rewrite byte_byte_of.
Qed.

Lemma typed_refl s : all_bytes code_byte s = true → typed_as s s.
Proof.
  induction s as [|c s IH]; [constructor|]. cbn. intros [Hc Hs]%andb_true_iff. apply typed_char; [|auto].
  by apply alphabet_ascii.
Qed.

Lemma letter_alphabet i : 0 ≤ i < len userCodeAlphabet → code_byte (letter i) = true.
Proof.
  intros Hi. change (len userCodeAlphabet) with 31 in Hi.
  assert (∃ n, (n < 31)%nat ∧ i = Z.of_nat n) as (n & Hn & ->) by (exists (Z.to_nat i); lia).
  unfold letter. rewrite Nat2Z.id. do 31 (destruct n as [|n]; [reflexivity|]). lia.
Qed.

Lemma draw_ok block out :
  len out ≤ UserCodeLength → all_bytes code_byte out = true →
  len (draw block out) ≤ UserCodeLength ∧ all_bytes code_byte (draw block out) = true.
Proof.
  revert out. induction block as [|c block IH]; intros out Hl Ha; [done|]. cbn [draw].
  destruct (Z.ltb_spec c (256 - 256 mod len userCodeAlphabet)), (Z.ltb_spec (len out) UserCodeLength); cbn [andb]; apply IH; try done.
  - rewrite len_app. change (len (String _ "")) with 1. lia.
  - rewrite all_bytes_app, Ha. cbn [all_bytes]. rewrite letter_alphabet; [done|]. apply Z.mod_pos_bound. reflexivity.
Qed.

Lemma draw_blocks_ok blocks out code :
  len out ≤ UserCodeLength → all_bytes code_byte out = true →
  draw_blocks blocks out = Some code → is_code code.
Proof.
  revert out. induction blocks as [|b blocks IH]; intros out Hl Ha; cbn; destruct (Z.leb_spec UserCodeLength (len out)).
  - intros [= <-]. split; [lia|done].
  - done.
  - intros [= <-]. split; [lia|done].
  - destruct (draw_ok b out Hl Ha). by apply IH.
Qed.

Lemma dashed_typed a b : all_bytes code_byte (a +:+ b) = true → typed_as (a +:+ "-" +:+ b) (a +:+ b).
Proof.
  induction a as [|c a IH]; cbn.
  - intros Hb. apply typed_blank; [done|]. by apply typed_refl.
  - intros [Hc Ha]%andb_true_iff. apply typed_char; [by apply alphabet_ascii|auto].
Qed.

(** A user code, drawn from random bytes, is six letters or digits of the
    alphabet; typed back as it is shown, or in any case with dashes and spaces
    anywhere, it is read as the code drawn. *)
Theorem user_code_roundtrip blocks code (Hdrawn : NewUserCode blocks = Some code) :
  is_code code ∧ NormalizeUserCode (FormatUserCode code) = code ∧
  ∀ typed, typed_as typed code → NormalizeUserCode typed = code.
Proof.
  assert (Hc : is_code code) by (eapply draw_blocks_ok; [| |exact Hdrawn]; done). pose proof Hc as [Hl Ha].
  assert (Hn : ∀ typed, typed_as typed code → NormalizeUserCode typed = code).
  { intros t Ht. unfold NormalizeUserCode. rewrite (normalize_typed t code) by done. by rewrite Hl. }
  split; [done|]. split; [|done]. apply Hn. unfold FormatUserCode. rewrite Hl, Z.eqb_refl.
  pose proof (take_drop_str 3 code) as E. rewrite <- E in Ha. rewrite <- E at 3. by apply dashed_typed.
Qed.

Lemma user_code_roundtrip_witness :
  NewUserCode [[0; 250; 255; 31; 2]; [9; 10; 11; 12; 13; 14]] = Some "AACKMN" ∧
  NormalizeUserCode (FormatUserCode "AACKMN") = "AACKMN" ∧ NormalizeUserCode " aac-k mn" = "AACKMN".
Proof.
  split; [reflexivity|]. split; [|reflexivity].
  exact (proj1 (proj2 (user_code_roundtrip [[0; 250; 255; 31; 2]; [9; 10; 11; 12; 13; 14]] "AACKMN" eq_refl))).
Defined.
