(* ===== verification/MachineInputs.v ===== *)
(** * What a directive carries, and what a machine says of itself

    The checks of directives' inputs (src/machine/coding.go, directive.go) and
    of an enrollment request (machineInfo, src/gateway/enroll.go). *)

From S2P Require Import Prelude GoStr Utf8 Message MachineData MachineMessage.
Open Scope string_scope.
Open Scope Z_scope.
Open Scope list_scope.

(** ** Echo *)

Definition MaxEchoDuration : Z := hour.
Definition MinEchoProgress : Z := 100 * millisecond.
Definition maxEchoText : Z := 4096.

Record EchoInput := mkEcho { EchoText : string; DurationMS : Z; ProgressEveryMS : Z }.

Definition EchoDuration (e : EchoInput) : Z := wrap64 (DurationMS e * millisecond).
Definition ProgressEvery (e : EchoInput) : Z := wrap64 (ProgressEveryMS e * millisecond).

Inductive BadInput :=
| EchoTextTooLong
| EchoDurationOut (d : Z)
| EchoProgressTooOften (d : Z)
| InputSkills (bad : BadSkills)
| NeedsRepoAndTask
| InvalidRepo (s : string)
| InvalidRef (s : string)
| InvalidBase (s : string)
| InvalidBranch (s : string)
| TaskTooLong
| NegativeBudget.

Definition EchoCheck (e : EchoInput) : option BadInput :=
  if maxEchoText <? len (EchoText e) then Some EchoTextTooLong
  else if (DurationMS e <? 0) || (MaxEchoDuration <? EchoDuration e) then Some (EchoDurationOut (EchoDuration e))
  else if (ProgressEveryMS e <? 0) || ((0 <? ProgressEveryMS e) && (ProgressEvery e <? MinEchoProgress))
  then Some (EchoProgressTooOften (ProgressEvery e))
  else None.

(** In the range where the product does not wrap, the bound is on the
    milliseconds. *)
Lemma echo_duration_bounded e :
  EchoCheck e = None → 0 ≤ DurationMS e ≤ int64_max / millisecond → DurationMS e * millisecond ≤ MaxEchoDuration.
Proof.
  unfold EchoCheck. destruct (_ <? _); [done|]. destruct (Z.ltb_spec (DurationMS e) 0); [done|].
  destruct (Z.ltb_spec MaxEchoDuration (EchoDuration e)) as [|H1]; [done|]. intros _ [H2 H3]. revert H1. unfold EchoDuration, wrap64.
  change (int64_max / millisecond) with 9223372036854 in H3. change millisecond with 1000000.
  rewrite Z.mod_small; lia.
Qed.

(** Past it, a duration of centuries wraps into one that passes. *)
Example echo_duration_wraps : EchoCheck (mkEcho "hi" 9223372036855 0) = None ∧ EchoDuration (mkEcho "hi" 9223372036855 0) < 0.
Proof. by vm_compute. Qed.

(** ** Coding runs *)

Definition maxAnalyzeTask : Z := 64 * 1024.

(** [strings.ContainsAny(s, "\x00\r\n")]. *)
Definition has_control (s : string) : bool := has_byte (byte 0) s || has_byte (byte 13) s || has_byte (byte 10) s.

(** What git or the CLI would read as an option, or a second line. *)
Definition bad_argument (s : string) : bool := has_prefix s "-" || has_control s.

Definition blank (s : string) : bool := String.eqb (trim_space s) "".

Record AnalyzeInput := mkAnalyze { ARepo : string; ARef : string; ATask : string; ASkills : list RunSkill; ASkillsVersion : string }.

Definition AnalyzeCheck (i : AnalyzeInput) : option BadInput :=
  match CheckRunSkills (ASkills i) with
  | Some bad => Some (InputSkills bad)
  | None =>
      if blank (ARepo i) || blank (ATask i) then Some NeedsRepoAndTask
      else if bad_argument (ARepo i) then Some (InvalidRepo (ARepo i))
      else if bad_argument (ARef i) then Some (InvalidRef (ARef i))
      else if maxAnalyzeTask <? len (ATask i) then Some TaskTooLong
      else None
  end.

(** [^agent/[a-z0-9][a-z0-9-]{0,63}$]. *)
Definition branch_ok (s : string) : bool :=
  match cut_prefix "agent/" s with
  | Some (String c rest) => in_class [lower; digits09] c && matches (in_class [lower; digits09; dash]) 0 63 rest
  | _ => false
  end.

(** The budget, a float64, by its sign alone. *)
Record ImplementInput := mkImplement {
  IRepo : string; IBase : string; ITask : string; IBranch : string; INegativeBudget : bool; ISkills : list RunSkill;
  ISkillsVersion : string }.

Definition ImplementCheck (i : ImplementInput) : option BadInput :=
  match CheckRunSkills (ISkills i) with
  | Some bad => Some (InputSkills bad)
  | None =>
      if blank (IRepo i) || blank (ITask i) then Some NeedsRepoAndTask
      else if bad_argument (IRepo i) then Some (InvalidRepo (IRepo i))
      else if bad_argument (IBase i) then Some (InvalidBase (IBase i))
      else if negb (branch_ok (IBranch i)) then Some (InvalidBranch (IBranch i))
      else if maxAnalyzeTask <? len (ITask i) then Some TaskTooLong
      else if INegativeBudget i then Some NegativeBudget
      else None
  end.

(** [strings.ReplaceAll(branch, "/", "-")]. *)
Fixpoint dashes (s : string) : string :=
  match s with "" => "" | String c s => String (if Ascii.eqb c "/" then "-"%char else c) (dashes s) end.

Definition BundleName (branch : string) : string := dashes branch +:+ ".bundle".

(** A bundle's name is one file's, not a path. *)
Lemma BundleName_flat branch : has_byte "/" (BundleName branch) = false.
Proof.
  unfold BundleName. rewrite has_byte_app. replace (has_byte "/" (dashes branch)) with false; [reflexivity|].
  induction branch as [|c s IH]; [done|]. cbn [dashes]. destruct (Ascii.eqb_spec c "/") as [->|Hc].
  - cbn. by rewrite <- IH.
  - cbn [has_byte]. assert (Ascii.eqb c "/" = false) as -> by (by apply Ascii.eqb_neq). by rewrite <- IH.
Qed.

(** A branch a run publishes is under agent/, and cannot be read as an option
    or as another path. *)
Lemma branch_ok_safe s : branch_ok s = true → has_prefix s "agent/" = true ∧ bad_argument s = false.
Proof.
  unfold branch_ok. destruct (cut_prefix "agent/" s) as [[|c rest]|] eqn:E; try done. apply cut_prefix_some in E as ->.
  intros [Hc [_ Hr]%andb_true_iff]%andb_true_iff. split; [by unfold has_prefix; rewrite cut_prefix_app|].
  unfold bad_argument. apply orb_false_iff. split; [reflexivity|]. unfold has_control.
  assert (Hn : ∀ b, in_class [lower; digits09; dash] b = false → Ascii.eqb c b = false →
      has_byte b ("agent/" +:+ String c rest) = has_byte b "agent/").
  { intros b Hb Hbc. rewrite has_byte_app. cbn [has_byte]. rewrite Hbc. cbn [orb].
    enough (has_byte b rest = false) as -> by by rewrite orb_false_r. clear -Hr Hb. induction rest as [|d rest IH]; [done|].
    cbn [all_bytes] in Hr. apply andb_true_iff in Hr as [Hd Hr]. cbn [has_byte]. rewrite (IH Hr), orb_false_r.
    destruct (Ascii.eqb_spec d b); [congruence|done]. }
  assert (Hneq : ∀ b, in_class [lower; digits09] b = false → Ascii.eqb c b = false)
    by (intros b Hb; destruct (Ascii.eqb_spec c b); [congruence|done]).
  rewrite !Hn by (try apply Hneq; reflexivity). reflexivity.
Qed.

(** ** Enrolling (gateway/enroll.go) *)

Definition is_control (r : Z) : bool := ((0 <=? r) && (r <? 32)) || ((127 <=? r) && (r <? 160)).

(** Unicode's category Cf, as ranges. *)
Definition format_ranges : list (Z * Z) :=
  [(173, 173); (1536, 1541); (1564, 1564); (1757, 1757); (1807, 1807); (2192, 2193); (2274, 2274); (6158, 6158);
   (8203, 8207); (8234, 8238); (8288, 8292); (8294, 8303); (65279, 65279); (65529, 65531); (69821, 69821); (69837, 69837);
   (78896, 78911); (113824, 113827); (119155, 119162); (917505, 917505); (917536, 917631)].
Definition is_format (r : Z) : bool := existsb (λ x, (fst x <=? r) && (r <=? snd x)) format_ranges.

(** [strings.Map] with the runes that must go dropped; a byte that is no UTF-8
    becomes RuneError. *)
Fixpoint clean_loop (fuel : nat) (s : string) : string :=
  match fuel, s with
  | S fuel, String _ _ =>
      let '(r, n) := decode_rune s in
      (if is_control r || is_format r then "" else encode_rune r) +:+ clean_loop fuel (drop_str n s)
  | _, _ => ""
  end.
Definition clean_name (s : string) : string := clean_loop (String.length s) s.

Record EnrollRequest := mkEnroll {
  EnName : string; EnOS : string; EnCapabilities : list string; EnMaxDirectives : Z; EnAgentVersion : string; EnToken : string }.

Definition machineInfo (req : EnrollRequest) : option MachineInfo :=
  let name := clean_name (trim_space (EnName req)) in
  let name := if String.eqb name "" then "machine" else name in
  if MaxCapabilities <? Z.of_nat (length (EnCapabilities req)) then None
  else if negb (forallb ValidCapability (EnCapabilities req)) then None
  else
    let max := EnMaxDirectives req in
    let max := if (max <? 1) || (MaxDirectivesLimit <? max) then 1 else max in
    Some (mkInfo (Cut name 64) (Cut (EnOS req) 64) (EnCapabilities req) max (Cut (EnAgentVersion req) 64) "" 0 "" "" "").

Lemma machineInfo_bounded req info :
  machineInfo req = Some info →
  1 ≤ InfoMaxDirectives info ≤ MaxDirectivesLimit ∧ InfoName info ≠ "" ∧ len (InfoName info) ≤ 64 ∧
  len (InfoOS info) ≤ 64 ∧ len (InfoAgentVersion info) ≤ 64 ∧
  Z.of_nat (length (InfoCapabilities info)) ≤ MaxCapabilities ∧ ∀ c, c ∈ InfoCapabilities info → ValidCapability c = true.
Proof.
  unfold machineInfo. set (name := if String.eqb _ _ then _ else _).
  destruct (Z.ltb_spec MaxCapabilities (Z.of_nat (length (EnCapabilities req)))); [done|].
  destruct (forallb ValidCapability (EnCapabilities req)) eqn:E; cbn [negb]; [|done]. intros [= <-]. cbn.
  assert (Hname : name ≠ "") by (unfold name; destruct (String.eqb_spec (clean_name (trim_space (EnName req))) ""); done).
  assert (Hcut : Cut name 64 ≠ "").
  { unfold Cut. destruct (_ <=? _); [done|]. intros H'%(f_equal String.length). by rewrite length_app_str, Nat.add_comm in H'. }
  assert (Hmax : 1 ≤ (if (EnMaxDirectives req <? 1) || (MaxDirectivesLimit <? EnMaxDirectives req) then 1 else EnMaxDirectives req) ≤ MaxDirectivesLimit).
  { destruct (Z.ltb_spec (EnMaxDirectives req) 1), (Z.ltb_spec MaxDirectivesLimit (EnMaxDirectives req)); cbn; unfold MaxDirectivesLimit in *; lia. }
  split; [exact Hmax|]. split_and!; try (apply Cut_len; lia); try done.
  intros c Hc. apply list_elem_of_In in Hc. by eapply forallb_forall in E.
Qed.
