(* ===== verification/Gateway.v ===== *)
(** * The gateway's side of a machine's connection (src/gateway/conn.go, gateway.go, llm.go)

    What a connection makes of a hello, of a machine's messages and of
    Temporal's answers, on the tables and towards the machine. The state of a
    gateway and of the one connection it holds for a machine is [GW]; what it
    writes to the machine is appended to [out], what it completes to [calls].
    Temporal's answers are arguments. Logs, notes on the turns' lines and
    alerts are left out. *)

From S2P Require Import Prelude GoStr Table MachineData Machines Directives MachineMessage.
Open Scope string_scope.
Open Scope Z_scope.
Open Scope list_scope.

(** ** Reconciling a hello with the tables *)

Record reconcilePlan := mkPlan {
  p_attach : list Directive;
  p_send : list Directive;
  p_lost : list Directive;
  p_cancel : list string;
  p_ack : list string
}.

Definition is_running (d : Directive) : bool := String.eqb (DirState d) DirectiveRunning.

(** One directive the tables hold open, into the plan. *)
Definition plan_directive (listed : string → bool) (connID : string) (p : reconcilePlan) (d : Directive) : reconcilePlan :=
  let attach := mkPlan (p_attach p ++ [d]) (p_send p) (p_lost p) (p_cancel p) (p_ack p) in
  let send := mkPlan (p_attach p) (p_send p ++ [d]) (p_lost p) (p_cancel p) (p_ack p) in
  let lost := mkPlan (p_attach p) (p_send p) (p_lost p ++ [d]) (p_cancel p) (p_ack p) in
  if negb (is_running d) then p
  else if is_llm d then
    if listed (DirID d) then attach
    else if negb (String.eqb (SentConn d) "") && negb (String.eqb (SentConn d) connID) then lost
    else p
  else if listed (DirID d) then attach
  else if String.eqb (SentConn d) "" then send
  else if negb (String.eqb (SentConn d) connID) then lost
  else p.

Definition reconcile (open : list Directive) (running finished : list string) (connID : string) : reconcilePlan :=
  let listed := contains (running ++ finished) in
  let p := fold_left (plan_directive listed connID) open (mkPlan [] [] [] [] []) in
  let isOpen := contains (DirID <$> List.filter is_running open) in
  mkPlan (p_attach p) (p_send p) (p_lost p)
    (List.filter (λ id, negb (isOpen id)) running) (List.filter (λ id, negb (isOpen id)) finished).

(** ** What a result makes of its activity *)

Definition ErrTypeRevoked : string := "MachineRevoked".
Definition ErrTypeStopping : string := "MachineStopping".
Definition ErrTypeFailed : string := "DirectiveFailed".
Definition ErrTypeLost : string := "DirectiveLost".
Definition ErrTypeRefused : string := "DirectiveRefused".

Record ActivityResult := mkActivityResult { ResOutput : string; ResProgress : string; ResFiles : list string }.

Definition ErrTypeContextTooLong : string := "ContextTooLong".
Definition ErrTypePermanentAPI : string := "PermanentAPIError".
Definition ErrTypeRetryAfter : string := "RetryAfterError".
Definition ErrTypeBadResult : string := "MachineBadResult".
Definition ErrTypeBusy : string := "MachineBusy".

Record LLMFailure := mkFailure { FailType : string; RetryAfterMS : Z }.

Definition LLMFailRetryAfter : string := "retry_after".
Definition LLMFailContextTooLong : string := "context_too_long".
Definition LLMFailPermanent : string := "permanent".
Definition LLMFailCredentials : string := "credentials".

Definition RetryAfter (f : LLMFailure) : Z := wrap64 (RetryAfterMS f * millisecond).

(** The activity's end: a result (a run's, or the model's answer read from a
    message's output, with what the prompt held of the memory read from the
    directive's input, [None]: unread), its cancellation, or an error of a
    type that is not retried, with what the run produced, or the failure and
    the wait it asks for. *)
Inductive completed :=
| CompletedOK (res : ActivityResult)
| CompletedAnswer (answer : string) (memory : option string)
| CompletedCanceled (res : option ActivityResult)
| CompletedError (errType msg : string) (res : option ActivityResult)
| CompletedFailure (errType msg : string) (f : LLMFailure) (delay : option Z).

Definition completion (m : WireMessage) (files : list string) : completed :=
  let res := mkActivityResult (WOutput m) (WText m) files in
  if String.eqb (WStatus m) StatusOK then CompletedOK res
  else if String.eqb (WStatus m) StatusCanceled then CompletedCanceled (Some res)
  else if String.eqb (WStatus m) StatusStopping then
    CompletedError ErrTypeStopping "the machine stopped (agent connect ended) during the directive" (Some res)
  else if String.eqb (WStatus m) StatusRefused then
    CompletedError ErrTypeRefused (cmp_or (WError m) "the machine refused the directive") (Some res)
  else CompletedError ErrTypeFailed (cmp_or (WError m) "the directive failed on the machine") (Some res).

Definition closedState (status : string) : string :=
  if String.eqb status StatusOK then DirectiveCompleted
  else if String.eqb status StatusCanceled then DirectiveCanceled
  else if String.eqb status StatusStopping then DirectiveStopping
  else if String.eqb status StatusRefused then DirectiveRefused
  else DirectiveFailed.

(** ** Temporal's answers *)

Inductive verdict := VDone | VNotFound | VInvalid | VFailed.

Definition completeTries : nat := 5.

Definition final (v : verdict) : bool := match v with VFailed => false | _ => true end.

(** [complete]: tried up to [tries] times, until an answer that is final; how
    many calls it made. No answer left is a context that ended. *)
Fixpoint complete (tries : nat) (answers : list verdict) : verdict * nat :=
  match tries, answers with
  | O, _ | _, [] => (VFailed, O)
  | S tries, v :: answers => if final v then (v, 1%nat) else let '(last, n) := complete tries answers in (last, S n)
  end.

(** ** The gateway and a machine's connection *)

Inductive down :=
| DWelcome
| DDirective (id kind input : string) (deadline : time)
| DCancel (id text : string)
| DAck (id : string)
| DError (code text : string).

Record GW := mkGW {
  gdb : MDB;
  machineID : string;
  carried : list (string * bool);   (** the directives it heartbeats; true: its machine was told to stop *)
  claimed : list string;
  out : list down;
  calls : list (string * completed)
}.

Definition with_gdb (g : GW) (db : MDB) : GW := mkGW db (machineID g) (carried g) (claimed g) (out g) (calls g).
Definition with_carried (g : GW) (c : list (string * bool)) : GW := mkGW (gdb g) (machineID g) c (claimed g) (out g) (calls g).
Definition with_claimed (g : GW) (c : list string) : GW := mkGW (gdb g) (machineID g) (carried g) c (out g) (calls g).
Definition write (m : down) (g : GW) : GW := mkGW (gdb g) (machineID g) (carried g) (claimed g) (out g ++ [m]) (calls g).
Definition call (id : string) (c : completed) (g : GW) : GW := mkGW (gdb g) (machineID g) (carried g) (claimed g) (out g) (calls g ++ [(id, c)]).

Definition carries (g : GW) (id : string) : bool := existsb (λ x, String.eqb (fst x) id) (carried g).

Definition attach (d : Directive) (g : GW) : GW :=
  if carries g (DirID d) then g else with_carried g (carried g ++ [(DirID d, false)]).

(** What was carried is no more; whether it was. *)
Definition detach (id : string) (g : GW) : bool * GW :=
  (carries g id, with_carried g (List.filter (λ x, negb (String.eqb (fst x) id)) (carried g))).

Definition claim (id : string) (g : GW) : bool * GW :=
  if contains (claimed g) id then (false, g) else (true, with_claimed g (claimed g ++ [id])).

Definition release (id : string) (g : GW) : GW := with_claimed g (List.filter (λ x, negb (String.eqb x id)) (claimed g)).

(** ** Sending *)

Definition send (connID : string) (d : Directive) (g : GW) : GW :=
  let '(sent, db) := MarkDirectiveSent (DirID d) connID (gdb g) in
  let g := with_gdb g db in
  if sent then write (DDirective (DirID d) (DirKind d) (Input d) (Deadline d)) (attach d g) else g.

Definition lose (now : time) (d : Directive) (g : GW) : GW :=
  let '(closed, db) := CloseDirective now (DirID d) DirectiveLost "unknown to its machine" (gdb g) in
  let g := with_gdb g db in
  if closed then call (DirID d) (CompletedError ErrTypeLost "lost" None) g else g.

(** [conn.reconcile], of the open directives just read. *)
Definition reconcile_conn (now : time) (connID : string) (running finished : list string) (g : GW) : GW :=
  let p := reconcile (OpenDirectives (machineID g) (gdb g)) running finished connID in
  let g := fold_left (λ g d, attach d g) (p_attach p) g in
  let g := fold_left (λ g id, write (DCancel id "closed") g) (p_cancel p) g in
  let g := fold_left (λ g id, write (DAck id) g) (p_ack p) g in
  let g := fold_left (λ g d, send connID d g) (p_send p) g in
  fold_left (λ g d, lose now d g) (p_lost p) g.

Inductive deliver_error := ErrUnknownDirective | ErrClosed | ErrUnreachable.

(** [Gateway.Deliver] on the machine's welcomed connection, if it has one. *)
Definition Deliver (connID : option string) (id : string) (g : GW) : option deliver_error * GW :=
  match GetDirective id (gdb g) with
  | None => (Some ErrUnknownDirective, g)
  | Some d =>
      if negb (is_running d) then (Some ErrClosed, g)
      else if is_llm d then (Some ErrClosed, g)
      else match connID with
           | Some c => (None, if String.eqb (MachineOf d) (machineID g) then send c d g else g)
           | None => (None, g)
           end
  end.

Definition unreachable (now : time) (d : Directive) (why : string) (g : GW) : GW :=
  with_gdb g (CloseDirective now (DirID d) DirectiveFailed ("machine unreachable: " +:+ why) (gdb g)).2.

(** [Gateway.DeliverLLM], [conn.sendLLM]: [written] is whether the message was
    written whole. *)
Definition DeliverLLM (now : time) (connID : option string) (id request : string) (written : bool) (g : GW) : option deliver_error * GW :=
  match GetDirective id (gdb g) with
  | None => (Some ErrUnknownDirective, g)
  | Some d =>
      if negb (is_running d) || negb (is_llm d) then (Some ErrClosed, g)
      else
        match connID with
        | None => (Some ErrUnreachable, unreachable now d "not connected" g)
        | Some c =>
            let '(sent, db) := MarkDirectiveSent id c (gdb g) in
            let g := with_gdb g db in
            if negb sent then (Some ErrUnreachable, unreachable now d "sent already, or over" g)
            else if negb written then (Some ErrUnreachable, unreachable now d "write" g)
            else (None, write (DDirective id (DirKind d) request (Deadline d)) (attach d g))
        end
  end.

(** ** Results *)

(** What is encoding/json's: a message's text and back, the decoding of a
    model's answer, of a call's input, of a failure (and whether it is whole:
    an error leaves what was read); the texts of a refusal. *)
Class WireJSON := {
  marshal_message : WireMessage → string;
  unmarshal_message : string → option WireMessage;
  unmarshal_answer : string → option Answer;
  unmarshal_input : string → bool;
  unmarshal_failure : string → bool * LLMFailure;
  marshal_failure : string → string;
  refusal_text : BadAnswer → string
}.

Section Results.
Context `{WireJSON}.
(** The files the database lists for a directive's call. *)
Variable callFiles : Directive → list string.

Definition checkLLM : WireMessage → WireMessage :=
  checkLLMResult unmarshal_answer
    (λ s, if (unmarshal_failure s).1 then Some (FailType (unmarshal_failure s).2) else None) refusal_text marshal_failure.

(** [llmCompletion]. *)
Definition llmCompletion (d : Directive) (m : WireMessage) : completed :=
  let error t msg := CompletedError t msg None in
  if String.eqb (WStatus m) StatusOK then
    if is_none (unmarshal_answer (WOutput m)) then error ErrTypeBadResult "the machine's answer is unreadable"
    else CompletedAnswer (WOutput m) (if unmarshal_input (Input d) then Some (Input d) else None)
  else if String.eqb (WStatus m) StatusCanceled then CompletedCanceled None
  else if String.eqb (WStatus m) StatusStopping then
    error ErrTypeStopping "the machine stopped (agent connect ended) during the call"
  else if String.eqb (WStatus m) StatusRefused then
    let msg := cmp_or (WError m) "the machine refused the call" in
    if String.eqb (WCode m) CodeBusy then error ErrTypeBusy msg else error ErrTypeRefused msg
  else
    let msg := cmp_or (WError m) "the call to the model failed on the machine" in
    let f := (unmarshal_failure (WOutput m)).2 in
    if String.eqb (FailType f) LLMFailRetryAfter then CompletedFailure ErrTypeRetryAfter msg f (Some (RetryAfter f))
    else if String.eqb (FailType f) LLMFailContextTooLong then CompletedFailure ErrTypeContextTooLong msg f None
    else if String.eqb (FailType f) LLMFailPermanent || String.eqb (FailType f) LLMFailCredentials then
      CompletedFailure ErrTypePermanentAPI msg f None
    else if String.eqb (FailType f) LLMFailBadResult then CompletedFailure ErrTypeBadResult msg f None
    else CompletedFailure ErrTypeFailed msg f None.

(** [readLimitFor]: what a message may weigh once read. *)
Definition readLimitFor (m : WireMessage) : Z := if String.eqb (WType m) TypeResult then MaxReadBytes else MaxMessageBytes.

(** [Gateway.finish]: [None], the completion failed; the directive is left
    open, its result kept. *)
Definition finish (now : time) (tries : nat) (d : Directive) (m : WireMessage) (answers : list verdict) (g : GW) : option GW :=
  let c := if is_llm d then llmCompletion d m else completion m (callFiles d) in
  let '(v, n) := complete tries answers in
  let g := call (DirID d) c g in
  let '(v, g) :=
    match v with
    | VInvalid =>
        if String.eqb (WStatus m) StatusCanceled then
          (fst (complete tries (drop n answers)),
           call (DirID d) (CompletedError ErrTypeFailed "the directive was cancelled on the machine"
             (Some (mkActivityResult (WOutput m) (WText m) []))) g)
        else (v, g)
    | _ => (v, g)
    end in
  let close state := Some (with_gdb g (CloseDirective now (DirID d) state (WError m) (gdb g)).2) in
  match v with
  | VDone => close (closedState (WStatus m))
  | VNotFound => close DirectiveGone
  | VInvalid | VFailed => None
  end.

(** [conn.result], once claimed, up to its result kept: [None], it is over
    there (dropped, and acknowledged when the machine is to forget it). *)
Definition keep_result (size : Z) (m : WireMessage) (g : GW) : option (Directive * WireMessage) * GW :=
  let drop g := (None, write (DAck (WID m)) (detach (WID m) g).2) in
  match GetDirective (WID m) (gdb g) with
  | None => drop g
  | Some d =>
      if negb (String.eqb (MachineOf d) (machineID g)) || negb (is_running d) then drop g
      else if negb (is_llm d) && (MaxMessageBytes <? size) then
        (None, write (DError "bad_message" "result too large") g)
      else
        let m := if is_llm d then checkLLM m else m in
        match SaveDirectiveResult (WID m) (marshal_message m) (gdb g) with
        | (inr _, db) => (Some (d, m), with_gdb g db)
        | (inl _, db) => drop (with_gdb g db)
        end
  end.

(** [conn.result], from its result kept on. *)
Definition end_result (now : time) (d : Directive) (m : WireMessage) (answers : list verdict) (g : GW) : GW :=
  match finish now completeTries d m answers g with
  | Some g => write (DAck (WID m)) (detach (WID m) g).2
  | None => g
  end.

(** The sweep's completion of a kept result, claimed: tried once. *)
Definition retry_result (now : time) (d : Directive) (m : WireMessage) (answers : list verdict) (g : GW) : GW :=
  match finish now 1 d m answers g with
  | Some g => let '(had, g) := detach (DirID d) g in if had then write (DAck (DirID d)) g else g
  | None => g
  end.
End Results.

(** ** Heartbeats, the sweep, revocation *)

(** [BeatOK due]: recorded; [due], the last clearing of the machine's mark is
    a minute old. *)
Inductive beat := BeatOK (due : bool) | BeatCanceled | BeatNotFound | BeatFailed.

Definition set_cancel_sent (id : string) (x : string * bool) : string * bool :=
  if String.eqb (fst x) id then (fst x, true) else x.

Definition heartbeat (now : time) (id : string) (answer : beat) (g : GW) : GW :=
  match answer with
  | BeatOK due => if due then with_gdb g (ClearMachineAside (machineID g) (gdb g)) else g
  | BeatCanceled =>
      if existsb (λ x, String.eqb (fst x) id && negb (snd x)) (carried g) then
        write (DCancel id "cancel requested") (with_carried g (set_cancel_sent id <$> carried g))
      else g
  | BeatNotFound =>
      let '(had, g) := detach id g in
      if had then
        let g := write (DCancel id "gone") g in
        with_gdb g (CloseDirective now id DirectiveGone "its activity no longer exists" (gdb g)).2
      else g
  | BeatFailed => g
  end.

(** The connection is told to stop what was closed. *)
Definition cancel_closed (text : Directive → string) (always : bool) (g : GW) (d : Directive) : GW :=
  if String.eqb (MachineOf d) (machineID g) then
    let '(had, g) := detach (DirID d) g in if always || had then write (DCancel (DirID d) (text d)) g else g
  else g.

(** [Gateway.sweep] of the directives nobody will end; [connected]: the
    machine has a connection. *)
Definition sweep (now : time) (connected : bool) (g : GW) : GW :=
  let '(swept, db) := SweepDirectives now now (gdb g) in
  let g := with_gdb g db in
  let g := if connected then fold_left (cancel_closed DirState false) swept g else g in
  with_gdb g (DeleteExpiredEnrollments now (gdb g)).

(** [Gateway.revoke]: the closed directives are cancelled on the machine, the
    activities of those that started ended. *)
Definition revoke (now : time) (id reason : string) (connected : bool) (g : GW) : option MachineError * GW :=
  match RevokeMachine now id reason (gdb g) with
  | (inl e, db) => (Some e, with_gdb g db)
  | (inr closed, db) =>
      (None,
       fold_left (λ g d,
         let g := if connected then cancel_closed (λ _, "machine revoked") true g d else g in
         if String.eqb (coalesce (TaskToken d)) "" then g else call (DirID d) (CompletedError ErrTypeRevoked "revoked" None) g)
         closed (with_gdb g db))
  end.

(** ** Limits *)

(** Messages a second, and in a burst. *)
Definition messageLimit (maxDirectives maxLLM : Z) : Z * Z :=
  let perSecond := 4 * maxDirectives + maxLLM + 10 in (perSecond, 4 * perSecond).

Definition duplicateAlertEvery : Z := hour.

(** [firstDuplicate]: the machines' last alerts, by machine. *)
Definition firstDuplicate (machineID : string) (now : time) (alerts : gmap string time) : bool * gmap string time :=
  match alerts !! machineID with
  | Some last => if time_sub now last <? duplicateAlertEvery then (false, alerts)
                 else (true, filter (λ x, time_sub now x.2 < duplicateAlertEvery) (<[machineID := now]> alerts))
  | None => (true, filter (λ x, time_sub now x.2 < duplicateAlertEvery) (<[machineID := now]> alerts))
  end.

(** ** The plan of a hello, by what it is of each directive *)

Definition carried_on (listed : string → bool) (d : Directive) : bool := is_running d && listed (DirID d).
Definition to_send (listed : string → bool) (d : Directive) : bool :=
  is_running d && negb (is_llm d) && negb (listed (DirID d)) && String.eqb (SentConn d) "".
Definition to_lose (listed : string → bool) (connID : string) (d : Directive) : bool :=
  is_running d && negb (listed (DirID d)) && negb (String.eqb (SentConn d) "") && negb (String.eqb (SentConn d) connID).

Lemma plan_filters listed connID open p :
  fold_left (plan_directive listed connID) open p =
    mkPlan (p_attach p ++ List.filter (carried_on listed) open) (p_send p ++ List.filter (to_send listed) open)
      (p_lost p ++ List.filter (to_lose listed connID) open) (p_cancel p) (p_ack p).
Proof.
  revert p. induction open as [|d open IH]; intros p; cbn [fold_left List.filter]; [rewrite !app_nil_r; by destruct p|].
  rewrite IH. unfold plan_directive, carried_on, to_send, to_lose.
  destruct (is_running d); cbn [negb andb]; [|done]. destruct (is_llm d); cbn [negb andb];
    destruct (listed (DirID d)); cbn [negb andb p_attach p_send p_lost p_cancel p_ack]; rewrite <- ?app_assoc; try done;
    destruct (String.eqb (SentConn d) ""); cbn [negb andb p_attach p_send p_lost p_cancel p_ack]; rewrite <- ?app_assoc; try done;
    destruct (String.eqb (SentConn d) connID); cbn [negb andb p_attach p_send p_lost p_cancel p_ack]; rewrite <- ?app_assoc; done.
Qed.

Lemma reconcile_filters open running finished connID :
  reconcile open running finished connID =
    let listed := contains (running ++ finished) in
    let isOpen := contains (DirID <$> List.filter is_running open) in
    mkPlan (List.filter (carried_on listed) open) (List.filter (to_send listed) open) (List.filter (to_lose listed connID) open)
      (List.filter (λ id, negb (isOpen id)) running) (List.filter (λ id, negb (isOpen id)) finished).
Proof. unfold reconcile. by rewrite plan_filters. Qed.

(** What a hello makes of a machine's directives: of those the tables hold
    running, the ones it lists are carried on; the others are sent if they
    never were (a call to the model never is), and lost if they were sent on
    an earlier connection; what it lists that is not so open is cancelled or
    acknowledged. Nothing is carried on that the tables do not hold open, and
    nothing is lost that the machine says it holds. *)
Theorem reconcile_exact open running finished connID :
  let listed := contains (running ++ finished) in
  let isOpen := contains (DirID <$> List.filter is_running open) in
  reconcile open running finished connID =
    mkPlan (List.filter (carried_on listed) open) (List.filter (to_send listed) open) (List.filter (to_lose listed connID) open)
      (List.filter (λ id, negb (isOpen id)) running) (List.filter (λ id, negb (isOpen id)) finished) ∧
  (∀ d, d ∈ p_attach (reconcile open running finished connID) → is_running d = true ∧ (DirID d ∈ running ∨ DirID d ∈ finished)) ∧
  (∀ d, d ∈ p_send (reconcile open running finished connID) → SentConn d = "" ∧ is_llm d = false ∧ DirID d ∉ running ++ finished) ∧
  (∀ d, d ∈ p_lost (reconcile open running finished connID) →
     SentConn d ≠ "" ∧ SentConn d ≠ connID ∧ DirID d ∉ running ++ finished) ∧
  (∀ id, id ∈ p_cancel (reconcile open running finished connID) ∨ id ∈ p_ack (reconcile open running finished connID) →
     ∀ d, d ∈ open → is_running d = true → DirID d ≠ id).
Proof.
  cbv zeta. split; [by rewrite reconcile_filters|]. rewrite reconcile_filters. cbn [p_attach p_send p_lost p_cancel p_ack].
  split; [|split; [|split]].
  - intros d [_ [Hr Hl%contains_spec]%andb_true_iff]%elem_filter. by rewrite elem_of_app in Hl.
  - intros d [_ H]%elem_filter. unfold to_send in H. rewrite !andb_true_iff, !negb_true_iff, String.eqb_eq, contains_false in H. tauto.
  - intros d [_ H]%elem_filter. unfold to_lose in H. rewrite !andb_true_iff, !negb_true_iff, !String.eqb_neq, contains_false in H. tauto.
  - intros id H d Hd Hr <-. rewrite !elem_filter in H.
    assert (contains (DirID <$> List.filter is_running open) (DirID d) = true) as Hc
      by (apply contains_spec, list_elem_of_fmap_2; by apply elem_filter).
    rewrite Hc in H. naive_solver.
Qed.
