(* ===== verification/Client.v ===== *)
(** * A connected machine (src/machine/connect/client.go, state.go)

    The files that survive a crash (directives marked running, results kept
    until they are acknowledged), and the jobs in memory. A job ends in the
    steps the code makes: its result is saved, its mark removed, then it is
    forgotten. Writing a file is taken to succeed, but for the mark of a
    directive that starts. The token and its rotation are in TokenProtocol.v. *)

From S2P Require Import Prelude GoStr Table MachineData MachineMessage.
Open Scope string_scope.
Open Scope Z_scope.
Open Scope list_scope.

(** A job runs, has its result saved, or its mark removed. *)
Inductive job_stage := JobRuns | JobSaved (r : WireMessage) | JobUnmarked (r : WireMessage).

(** Why its context ended first, when it did: the machine stops, the gateway
    asked. *)
Inductive stop_cause := CauseStopping | CauseCanceled.

Record job := mkJob { JKind : string; JStage : job_stage; JCause : option stop_cause }.

Record Client := mkClient {
  marked : list string;
  results : list WireMessage;
  jobs : list (string * job)
}.

(** What the machine can run: its executors' kinds, its caps. *)
Record ClientConfig := mkConfig { Executors : list string; CfgMaxDirectives : Z; CfgMaxLLM : Z }.

Definition HasResult (id : string) (c : Client) : bool := id_ok id && existsb (λ r, String.eqb (WID r) id) (results c).
Definition has_job (id : string) (c : Client) : bool := existsb (λ j, String.eqb (fst j) id) (jobs c).

Definition drop_id (id : string) : list WireMessage → list WireMessage := List.filter (λ r, negb (String.eqb (WID r) id)).
Definition forget (id : string) : list string → list string := List.filter (λ x, negb (String.eqb x id)).

(** [State.SaveResult] overwrites the file of that directive. *)
Definition SaveResult (r : WireMessage) (c : Client) : Client := mkClient (marked c) (drop_id (WID r) (results c) ++ [r]) (jobs c).
Definition DropResult (id : string) (c : Client) : Client := mkClient (marked c) (drop_id id (results c)) (jobs c).
Definition MarkRunning (id : string) (c : Client) : Client := mkClient (forget id (marked c) ++ [id]) (results c) (jobs c).
Definition Unmark (id : string) (c : Client) : Client := mkClient (forget id (marked c)) (results c) (jobs c).
Definition with_jobs (c : Client) (j : list (string * job)) : Client := mkClient (marked c) (results c) j.

(** ** Directives *)

Definition running_of (family : string) (c : Client) : Z :=
  Z.of_nat (length (List.filter (λ j, String.eqb (FamilyOf (JKind (snd j))) family) (jobs c))).

Definition capOf (cfg : ClientConfig) (family : string) : Z :=
  if String.eqb family FamilyLLM then CfgMaxLLM cfg else CfgMaxDirectives cfg.

Definition hasAll (have want : list string) : bool := forallb (contains have) want.

Definition result_message (id status output text error code : string) : WireMessage :=
  mkWire TypeResult 0 "" "" [] 0 [] [] "" 0 "" "" "" "" "" "" id "" "" None text status output error code.

Definition refusal (id why code : string) : WireMessage := result_message id StatusRefused "" "" why code.

(** Why a directive is turned down, and the refusal's code. *)
Definition start_refusal (cfg : ClientConfig) (capabilities : list string) (kind : string) (c : Client) : option (string * string) :=
  let family := FamilyOf kind in
  if negb (contains (Executors cfg) kind) then Some ("this machine does not run directives of that kind", "")
  else if negb (hasAll capabilities (CapabilitiesOf kind)) then Some ("this machine cannot run directives of that kind now", "")
  else if capOf cfg family <=? running_of family c then Some ("this machine runs so many directives at most", CodeBusy)
  else None.

(** What became of a directive that came in: ignored (it is known), turned
    down (a result), started. *)
Inductive started := Ignored | Refused (r : WireMessage) | Started.

Definition start (cfg : ClientConfig) (capabilities : list string) (mark_ok : bool) (id kind : string) (c : Client) : started * Client :=
  if has_job id c || HasResult id c || negb (id_ok id) then (Ignored, c)
  else
    match start_refusal cfg capabilities kind c with
    | Some (why, code) => let r := refusal id why code in (Refused r, SaveResult r c)
    | None =>
        if negb mark_ok then let r := refusal id "the machine cannot keep track of the directive" "" in (Refused r, SaveResult r c)
        else (Started, with_jobs (MarkRunning id c) (jobs c ++ [(id, mkJob kind JobRuns None)]))
    end.

(** How an executor ended. *)
Inductive run_end := RunOK (output : string) | RunRefused (reason output : string) | RunFailed (error output : string).

(** The result of a run. *)
Definition run_result (id text : string) (j : job) (e : run_end) : WireMessage :=
  match e with
  | RunOK output => result_message id StatusOK output text "" ""
  | RunRefused reason output => result_message id StatusRefused output text (Cut reason MaxErrorBytes) ""
  | RunFailed error output =>
      match JCause j with
      | Some CauseStopping => result_message id StatusStopping output text "" ""
      | Some CauseCanceled => result_message id StatusCanceled output text "" ""
      | None => result_message id StatusError output text (Cut error MaxErrorBytes) ""
      end
  end.

Definition find_job (id : string) (c : Client) : option job :=
  match List.find (λ j, String.eqb (fst j) id) (jobs c) with Some x => Some (snd x) | None => None end.

Definition set_job (id : string) (f : job → job) (c : Client) : Client :=
  with_jobs c ((λ x, if String.eqb (fst x) id then (fst x, f (snd x)) else x) <$> jobs c).

Definition set_stage (s : job_stage) (j : job) : job := mkJob (JKind j) s (JCause j).

(** The end of [Client.run], step by step: the result is kept before the mark
    is removed, then the job is forgotten and its result sent. *)
Definition run_save (id text : string) (e : run_end) (c : Client) : option Client :=
  match find_job id c with
  | Some (mkJob k JobRuns w as j) =>
      let r := run_result id text j e in Some (set_job id (set_stage (JobSaved r)) (SaveResult r c))
  | _ => None
  end.

Definition run_unmark (id : string) (c : Client) : option Client :=
  match find_job id c with
  | Some (mkJob _ (JobSaved r) _) => Some (set_job id (set_stage (JobUnmarked r)) (Unmark id c))
  | _ => None
  end.

Definition run_forget (id : string) (c : Client) : option (WireMessage * Client) :=
  match find_job id c with
  | Some (mkJob _ (JobUnmarked r) _) => Some (r, with_jobs c (List.filter (λ x, negb (String.eqb (fst x) id)) (jobs c)))
  | _ => None
  end.

Definition set_cause (why : stop_cause) (j : job) : job :=
  mkJob (JKind j) (JStage j) (match JCause j with Some w => Some w | None => Some why end).

(** [Client.cancel]. *)
Definition cancel (id : string) (c : Client) : Client :=
  if has_job id c then set_job id (set_cause CauseCanceled) c else DropResult id c.

(** [Client.stopJobs]. *)
Definition stopJobs (c : Client) : Client := with_jobs c ((λ x, (fst x, set_cause CauseStopping (snd x))) <$> jobs c).

(** ** A crash, and the recovery *)

Definition crash (c : Client) : Client := with_jobs c [].

Definition recover_one (c : Client) (id : string) : Client :=
  Unmark id
    (if HasResult id c then c else SaveResult (result_message id StatusError "" "" "agent connect stopped during the directive" "") c).

Definition recover (c : Client) : Client := fold_left recover_one (marked c) c.

(** ** The hello: the jobs, and the results read before *)

Definition running_ids (c : Client) : list string := fst <$> jobs c.
Definition finished_ids (c : Client) : list string := WID <$> results c.

(** ** What a machine holds of the directives it got

    The invariant of Client.v: a directive that came in is over, or held: by a
    job, a mark or a kept result; each of the client's steps keeps it, a crash
    and its recovery included. *)

Implicit Types (c : Client) (id : string).

(** ** The client's bookkeeping *)

Lemma elem_forget id l x : x ∈ forget id l ↔ x ∈ l ∧ x ≠ id.
Proof. unfold forget. by rewrite elem_filter, negb_true_iff, String.eqb_neq. Qed.

Lemma finished_drop id c x : x ∈ finished_ids (DropResult id c) ↔ x ∈ finished_ids c ∧ x ≠ id.
Proof.
  unfold finished_ids, DropResult, drop_id. cbn. rewrite !list_elem_of_fmap. setoid_rewrite elem_filter.
  setoid_rewrite negb_true_iff. setoid_rewrite String.eqb_neq. naive_solver.
Qed.

Lemma finished_save r c x : x ∈ finished_ids (SaveResult r c) ↔ x ∈ finished_ids c ∨ x = WID r.
Proof.
  change (finished_ids (SaveResult r c)) with (WID <$> drop_id (WID r) (results c) ++ [r]).
  rewrite fmap_app, elem_of_app. cbn. rewrite list_elem_of_singleton.
  change (WID <$> drop_id (WID r) (results c)) with (finished_ids (DropResult (WID r) c)). rewrite finished_drop.
  destruct (decide (x = WID r)); tauto.
Qed.

Lemma has_job_spec id c : has_job id c = true ↔ id ∈ running_ids c.
Proof.
  unfold has_job, running_ids. rewrite existsb_exists, list_elem_of_fmap. setoid_rewrite <- list_elem_of_In.
  setoid_rewrite String.eqb_eq. naive_solver.
Qed.

Lemma HasResult_finished id c : HasResult id c = true → id ∈ finished_ids c.
Proof.
  unfold HasResult, finished_ids. rewrite andb_true_iff, existsb_exists, list_elem_of_fmap. setoid_rewrite <- list_elem_of_In.
  setoid_rewrite String.eqb_eq. naive_solver.
Qed.

Lemma find_job_elem id c j : find_job id c = Some j → (id, j) ∈ jobs c.
Proof.
  unfold find_job. destruct (List.find _ _) as [[i j']|] eqn:E; [|done]. intros [= <-].
  apply find_some in E as [E Ei%String.eqb_eq]. cbn in Ei. subst. by apply list_elem_of_In.
Qed.

Lemma running_set id f c : running_ids (set_job id f c) = running_ids c.
Proof.
  unfold running_ids, set_job. cbn. rewrite <- list_fmap_compose. apply list_fmap_ext. intros _ [i j] _. cbn.
  by destruct (String.eqb i id).
Qed.

Lemma jobs_set id f c i j : (i, j) ∈ jobs (set_job id f c) → ∃ j', (i, j') ∈ jobs c ∧ j = if String.eqb i id then f j' else j'.
Proof.
  unfold set_job. cbn. intros ([i' j'] & E & H)%list_elem_of_fmap. cbn in E.
  destruct (String.eqb i' id) eqn:Ei; injection E as -> ->; exists j'; by rewrite Ei.
Qed.

Lemma job_running c id j : (id, j) ∈ jobs c → id ∈ running_ids c.
Proof. intros H. by apply (list_elem_of_fmap_2 fst) in H. Qed.

(** ** The invariant *)

Definition holds c id : Prop := id ∈ running_ids c ∨ id ∈ marked c ∨ id ∈ finished_ids c.

Section Holding.
(** What the machine got, and what is over. *)
Variables (rcv : list string) (ov : string → Prop).

Definition job_ok c id (j : job) : Prop :=
  match JStage j with
  | JobRuns => id ∈ marked c
  | JobSaved r => WID r = id ∧ (ov id ∨ id ∈ finished_ids c)
  | JobUnmarked r => WID r = id ∧ (ov id ∨ id ∈ finished_ids c) ∧ id ∉ marked c
  end.

Record cl_ok (alive : bool) c : Prop := {
  c_jobs : ∀ id j, (id, j) ∈ jobs c → id ∈ rcv ∧ job_ok c id j;
  c_marked : ∀ id, id ∈ marked c → id ∈ rcv ∧ (alive = true → id ∈ running_ids c);
  c_results : ∀ id, id ∈ finished_ids c → id ∈ rcv;
  c_held : ∀ id, id ∈ rcv → ov id ∨ holds c id;
  c_dead : alive = false → jobs c = []
}.

(** Alive, what is marked has its job. *)
Lemma alive_held c id : cl_ok true c → id ∈ rcv → ov id ∨ id ∈ running_ids c ++ finished_ids c.
Proof. intros [] Hid. rewrite elem_of_app. destruct (c_held0 id Hid) as [|[|[Hm|]]]; auto. right. left. by apply c_marked0. Qed.

Lemma cl_drop alive id c : ov id → cl_ok alive c → cl_ok alive (DropResult id c).
Proof.
  intros Ho []. constructor; try done.
  - intros i j Hj. destruct (c_jobs0 i j Hj) as [Hi Hok]. split; [done|]. revert Hok. unfold job_ok.
    destruct (decide (i = id)) as [->|]; destruct (JStage j); rewrite ?finished_drop; cbn [marked DropResult]; tauto.
  - intros i. rewrite finished_drop. naive_solver.
  - intros i Hi. unfold holds. rewrite finished_drop. destruct (decide (i = id)) as [->|]; [by left|].
    destruct (c_held0 i Hi) as [|[|[|]]]; [by left|right; by left|right; right; by left|right; right; by right].
Qed.

(** A job's cause, that nothing depends on. *)
Lemma cl_jobs_same alive (f : string * job → string * job) c :
  (∀ x, fst (f x) = fst x ∧ JStage (snd (f x)) = JStage (snd x)) → cl_ok alive c → cl_ok alive (with_jobs c (f <$> jobs c)).
Proof.
  intros Hf []. assert (Er : running_ids (with_jobs c (f <$> jobs c)) = running_ids c).
  { unfold running_ids. cbn. rewrite <- list_fmap_compose. apply list_fmap_ext. intros _ x _. apply Hf. }
  constructor; cbn [marked results jobs with_jobs]; try done.
  - intros i j ([i' j'] & E & Hj)%list_elem_of_fmap. destruct (Hf (i', j')) as [H1 H2]. rewrite <- E in H1, H2. cbn in H1, H2. subst i'.
    destruct (c_jobs0 i j' Hj) as [Hi Hok]. split; [done|]. revert Hok. unfold job_ok. by rewrite H2.
  - intros i Hi. rewrite Er. auto.
  - intros i Hi. unfold holds. rewrite Er. exact (c_held0 i Hi).
  - intros ->%c_dead0. done.
Qed.

Lemma cl_cancel alive id c : ov id → cl_ok alive c → cl_ok alive (cancel id c).
Proof.
  intros Ho Hc. unfold cancel. destruct (has_job id c); [|by apply cl_drop]. unfold set_job. apply cl_jobs_same; [|done].
  intros [i j]. cbn. by destruct (String.eqb i id).
Qed.

Lemma cl_stop alive c : cl_ok alive c → cl_ok alive (stopJobs c).
Proof. by apply cl_jobs_same. Qed.

(** The end of a run, step by step. *)
Lemma run_result_id id text j e : WID (run_result id text j e) = id.
Proof. unfold run_result. by repeat case_match. Qed.

Lemma cl_run_save alive id text e c c' : cl_ok alive c → run_save id text e c = Some c' → cl_ok alive c'.
Proof.
  intros [] E. unfold run_save in E. destruct (find_job id c) as [[k st w]|] eqn:Ej; [|done]. destruct st; try done.
  injection E as <-. apply find_job_elem in Ej. pose proof (run_result_id id text (mkJob k JobRuns w) e) as Er.
  set (r := run_result _ _ _ _) in *. destruct (c_jobs0 id _ Ej) as [Hid Hm]. cbn in Hm.
  assert (Ef : ∀ x, x ∈ finished_ids (set_job id (set_stage (JobSaved r)) (SaveResult r c)) ↔ x ∈ finished_ids c ∨ x = id).
  { intros x. change (finished_ids (set_job id (set_stage (JobSaved r)) (SaveResult r c))) with (finished_ids (SaveResult r c)).
    by rewrite finished_save, Er. }
  constructor; rewrite ?running_set; try setoid_rewrite Ef.
  - intros i j (j' & Hj & ->)%jobs_set. destruct (c_jobs0 i j' Hj) as [Hi Hok]. split; [done|]. unfold job_ok.
    destruct (String.eqb_spec i id) as [->|]; cbn [JStage set_stage]; [rewrite Ef; auto|]. revert Hok. unfold job_ok.
    destruct (JStage j'); rewrite ?Ef; cbn [marked set_job with_jobs SaveResult]; tauto.
  - exact c_marked0.
  - intros x [?| ->]; auto.
  - intros x Hx. unfold holds. rewrite running_set, Ef. destruct (c_held0 x Hx) as [|[|[|]]]; [by left|right; by left|right; right; by left|tauto].
  - intros E. cbn. by rewrite c_dead0.
Qed.

Lemma cl_run_unmark alive id c c' : cl_ok alive c → run_unmark id c = Some c' → cl_ok alive c'.
Proof.
  intros [] E. unfold run_unmark in E. destruct (find_job id c) as [[k st w]|] eqn:Ej; [|done]. destruct st as [|r|]; try done.
  injection E as <-. apply find_job_elem in Ej. destruct (c_jobs0 id _ Ej) as (Hid & Er & Hf).
  constructor; rewrite ?running_set.
  - intros i j (j' & Hj & ->)%jobs_set. destruct (c_jobs0 i j' Hj) as [Hi Hok]. split; [done|]. unfold job_ok.
    destruct (String.eqb_spec i id) as [->|Hn]; cbn; rewrite ?elem_forget; [naive_solver|]. revert Hok. unfold job_ok.
    destruct (JStage j'); rewrite ?elem_forget; tauto.
  - intros i. cbn. rewrite elem_forget. intros [Hi _]. by apply c_marked0.
  - exact c_results0.
  - intros x Hx. unfold holds. rewrite running_set. cbn. rewrite elem_forget.
    destruct (decide (x = id)) as [->|]; [right; left; by eapply job_running|]. destruct (c_held0 x Hx) as [|[|[|]]]; naive_solver.
  - intros E. cbn. by rewrite c_dead0.
Qed.

Lemma cl_run_forget alive id c r c' : cl_ok alive c → run_forget id c = Some (r, c') → cl_ok alive c' ∧ WID r = id ∧ id ∈ rcv.
Proof.
  intros [] E. unfold run_forget in E. destruct (find_job id c) as [[k st w]|] eqn:Ej; [|done]. destruct st as [| |r']; try done.
  injection E as <- <-. apply find_job_elem in Ej. destruct (c_jobs0 id _ Ej) as (Hid & Er & Hf & Hm). split; [|done].
  assert (Hrun : ∀ x, x ∈ running_ids c → x ≠ id → x ∈ fst <$> List.filter (λ x, negb (String.eqb (fst x) id)) (jobs c)).
  { intros x (y & -> & Hy)%list_elem_of_fmap Hn. apply list_elem_of_fmap_2, elem_filter. split; [done|].
    by apply negb_true_iff, String.eqb_neq. }
  constructor; cbn [marked results jobs with_jobs].
  - intros i j [Hj _]%elem_filter. exact (c_jobs0 i j Hj).
  - intros i Hi. destruct (c_marked0 i Hi) as [Hr Ha]. split; [done|]. intros H. apply Hrun; [auto|]. by intros ->.
  - exact c_results0.
  - intros x Hx. unfold holds. destruct (decide (x = id)) as [->|].
    + destruct Hf; [by left|]. right. right. by right.
    + destruct (c_held0 x Hx) as [|[|[|]]]; [by left|right; left; by apply Hrun|right; right; by left|right; right; by right].
  - intros E. by rewrite c_dead0.
Qed.

Lemma cl_crash alive c : cl_ok alive c → cl_ok false (crash c).
Proof.
  intros []. constructor; cbn; try done; [set_solver| |].
  - intros id Hid. split; [by apply c_marked0|done].
  - intros id Hid. destruct (c_held0 id Hid) as [|[([i j] & -> & Hj)%list_elem_of_fmap|[|]]]; [by left| |right; right; by left|right; right; by right].
    destruct (c_jobs0 i j Hj) as [_ Hok]. unfold job_ok in Hok. unfold holds. cbn. destruct (JStage j); naive_solver.
Qed.

(** The recovery turns each mark into a result, unless there is one. *)
Lemma recover_marks l c :
  marked (fold_left recover_one l c) = fold_left (λ m id, forget id m) l (marked c) ∧
  jobs (fold_left recover_one l c) = jobs c ∧
  (∀ x, x ∈ finished_ids (fold_left recover_one l c) ↔ x ∈ finished_ids c ∨ x ∈ l).
Proof.
  revert c. induction l as [|id l IH]; intros c; cbn [fold_left]; [set_solver|]. destruct (IH (recover_one c id)) as (-> & -> & Hf).
  unfold recover_one. cbn [marked jobs Unmark]. split; [by destruct (HasResult id c)|]. split; [by destruct (HasResult id c)|].
  intros x. rewrite Hf, elem_of_cons. unfold recover_one. destruct (HasResult id c) eqn:E.
  - apply HasResult_finished in E. change (finished_ids (Unmark id c)) with (finished_ids c). naive_solver.
  - set (r := result_message _ _ _ _ _ _). change (finished_ids (Unmark id (SaveResult r c))) with (finished_ids (SaveResult r c)).
    rewrite finished_save. cbn. tauto.
Qed.

Lemma forget_all l m x : x ∈ fold_left (λ m id, forget id m) l m ↔ x ∈ m ∧ x ∉ l.
Proof.
  revert m. induction l as [|id l IH]; intros m; cbn; [set_solver|]. rewrite IH, elem_forget, not_elem_of_cons. tauto.
Qed.

Lemma cl_recover c : cl_ok false c → cl_ok true (recover c).
Proof.
  intros []. unfold recover. destruct (recover_marks (marked c) c) as (Em & Ej & Ef). specialize (c_dead0 eq_refl).
  assert (Hm : ∀ x, x ∉ marked (fold_left recover_one (marked c) c)) by (intros x; rewrite Em, forget_all; tauto).
  constructor; try done.
  - rewrite Ej, c_dead0. set_solver.
  - intros id Hid. by apply Hm in Hid.
  - intros id [|H]%Ef; [by apply c_results0|by apply c_marked0].
  - intros id Hid. unfold holds. rewrite Ef. unfold running_ids. rewrite Ej. destruct (c_held0 id Hid) as [|[|[|]]]; tauto.
Qed.
End Holding.

(** What is over stays so. *)
Lemma cl_mono rcv (ov ov' : string → Prop) alive c : (∀ id, ov id → ov' id) → cl_ok rcv ov alive c → cl_ok rcv ov' alive c.
Proof.
  intros Ho []. constructor; try done.
  - intros id j Hj. destruct (c_jobs0 id j Hj) as [Hi Hok]. split; [done|]. revert Hok. unfold job_ok. destruct (JStage j); naive_solver.
  - intros id Hid. destruct (c_held0 id Hid); auto.
Qed.

(** A directive that comes in, under an identifier the machine can keep. *)
Lemma cl_save rcv ov alive r c : cl_ok rcv ov alive c → WID r ∉ rcv → cl_ok (rcv ++ [WID r]) ov alive (SaveResult r c).
Proof.
  intros [] Hn. constructor; cbn [marked jobs SaveResult]; try setoid_rewrite elem_snoc.
  - intros i j Hj. destruct (c_jobs0 i j Hj) as [Hi Hok]. split; [by left|]. revert Hok. unfold job_ok.
    destruct (JStage j); rewrite ?finished_save; cbn [marked SaveResult]; tauto.
  - intros i Hi. destruct (c_marked0 i Hi). split; [by left|done].
  - intros i. rewrite finished_save. intros [|]; auto.
  - intros i Hi. unfold holds. rewrite finished_save. destruct Hi as [Hi| ->]; [|tauto].
    destruct (c_held0 i Hi) as [|[|[|]]]; [by left|right; by left|right; right; by left|tauto].
  - done.
Qed.

Lemma cl_start rcv ov cfg caps mark_ok id kind c what c' :
  cl_ok rcv ov true c → id ∉ rcv → id_ok id = true → start cfg caps mark_ok id kind c = (what, c') →
  cl_ok (rcv ++ [id]) ov true c' ∧ (∀ r, what = Refused r → WID r = id).
Proof.
  intros Hc Hn Hid. unfold start. pose proof Hc as [].
  destruct (has_job id c) eqn:Ej.
  { apply has_job_spec in Ej. apply list_elem_of_fmap in Ej as ([i j] & -> & Hj). exfalso. by apply Hn, (c_jobs0 i j). }
  destruct (HasResult id c) eqn:Er; [exfalso; by apply Hn, c_results0, HasResult_finished|]. rewrite Hid. cbn [orb negb].
  assert (Href : ∀ why code c'', (Refused (refusal id why code), SaveResult (refusal id why code) c) = (what, c'') →
      cl_ok (rcv ++ [id]) ov true c'' ∧ (∀ r, what = Refused r → WID r = id)).
  { intros why code c'' [= <- <-]. split; [by apply (cl_save rcv ov true (refusal id why code))|]. by intros r [= <-]. }
  destruct (start_refusal cfg caps kind c) as [[why code]|]; [apply Href|]. destruct mark_ok; [|apply Href]. cbn [negb].
  intros [= <- <-]. split; [|done]. set (j0 := mkJob kind JobRuns None).
  assert (Em : ∀ x, x ∈ forget id (marked c) ++ [id] ↔ x ∈ marked c ∨ x = id).
  { intros x. rewrite elem_of_app, elem_forget, list_elem_of_singleton. destruct (decide (x = id)); tauto. }
  assert (Er' : ∀ x, x ∈ running_ids (with_jobs (MarkRunning id c) (jobs c ++ [(id, j0)])) ↔ x ∈ running_ids c ∨ x = id)
    by (intros x; unfold running_ids; cbn [jobs with_jobs]; rewrite fmap_app; apply elem_snoc).
  assert (Hnm : id ∉ marked c) by (intros H; by apply Hn, c_marked0).
  constructor; cbn [marked jobs MarkRunning with_jobs]; try setoid_rewrite elem_snoc; try done.
  - intros i j [Hj|[= -> ->]]; [|split; [by right|]; unfold job_ok; cbn; rewrite Em; by right].
    destruct (c_jobs0 i j Hj) as [Hi Hok]. split; [by left|]. revert Hok. unfold job_ok.
    assert (i ≠ id) by (intros ->; by apply Hn). destruct (JStage j); cbn [marked MarkRunning with_jobs]; rewrite ?Em; tauto.
  - intros i. rewrite Er', <- elem_snoc, Em. intros [Hi| ->]; [|split; [by right|]; intros; by right].
    destruct (c_marked0 i Hi) as [Hr Ha]. split; [by left|]. intros. left. by apply Ha.
  - intros i Hi. left. by apply c_results0.
  - intros i Hi. unfold holds. rewrite Er'. cbn [marked MarkRunning with_jobs]. rewrite Em.
    destruct Hi as [Hi| ->]; [|tauto]. destruct (c_held0 i Hi) as [|[|[|]]]; [by left|right; left; by left|tauto|tauto].
Qed.
