(* ===== verification/Dispatch.v ===== *)
(** * The dispatch of directives, gateway and machine together

    One gateway, one machine, the connection between them, the tables that
    everyone else writes too, and what goes wrong: connections cut with the
    messages in flight, a machine that crashes, a gateway that restarts, a
    Temporal that does not answer, results and acknowledgements that cross.
    [sys_step] takes one event; the events interleave in any order. *)

From S2P Require Import Prelude GoStr Table MachineData Choice Machines Directives MachineMessage MachineTables Lifecycle Gateway Client.
Open Scope string_scope.
Open Scope Z_scope.
Open Scope list_scope.

(** ** The system *)

Inductive up_msg := UHello (running finished : list string) | UResult (r : WireMessage).

(** The machine's side of its connection: a hello is the results read from the
    disk, then the jobs of the moment. *)
Inductive session := Dead | Down | Dialed | ReadResults (finished : list string) | Opened.

Record Sys := mkSys {
  gw : GW;
  conn : option (string * bool);   (** its name, and whether it is welcomed *)
  used : list string;              (** the connections' names so far *)
  up : list up_msg;
  cl : Client;
  sess : session;
  keeping : list (Directive * WireMessage);   (** the results being completed *)
  received : list string;          (** the directives the machine got *)
  execs : list string;             (** those it started *)
  cancels : list string            (** those whose workflow asked to stop *)
}.

Definition with_gw (s : Sys) (g : GW) : Sys := mkSys g (conn s) (used s) (up s) (cl s) (sess s) (keeping s) (received s) (execs s) (cancels s).
Definition with_up (s : Sys) (u : list up_msg) : Sys := mkSys (gw s) (conn s) (used s) u (cl s) (sess s) (keeping s) (received s) (execs s) (cancels s).
Definition with_cl (s : Sys) (c : Client) : Sys := mkSys (gw s) (conn s) (used s) (up s) c (sess s) (keeping s) (received s) (execs s) (cancels s).
Definition with_sess (s : Sys) (x : session) : Sys := mkSys (gw s) (conn s) (used s) (up s) (cl s) x (keeping s) (received s) (execs s) (cancels s).
Definition with_keeping (s : Sys) (k : list (Directive * WireMessage)) : Sys :=
  mkSys (gw s) (conn s) (used s) (up s) (cl s) (sess s) k (received s) (execs s) (cancels s).
Definition with_cancels (s : Sys) (c : list string) : Sys :=
  mkSys (gw s) (conn s) (used s) (up s) (cl s) (sess s) (keeping s) (received s) (execs s) c.

Definition with_out (g : GW) (o : list down) : GW := mkGW (gdb g) (machineID g) (carried g) (claimed g) o (calls g).

(** The connection ends: what was on its way is lost. *)
Definition disconnect (x : session) (s : Sys) : Sys :=
  mkSys (with_carried (with_out (gw s) []) []) None (used s) [] (cl s) x (keeping s) (received s) (execs s) (cancels s).

Inductive event :=
| ETable (now : time) (op : machine_op)
| EDial (c : string)
| EReadResults
| EHello
| EGateway (now : time) (size : Z)
| EFinish (now : time) (id : string) (answers : list verdict)
| ERetry (now : time) (id : string) (answers : list verdict)
| EDeliver (id : string)
| EDeliverLLM (now : time) (id request : string) (written : bool)
| ESweep (now : time)
| ERevoke (now : time) (reason : string)
| EHeartbeat (now : time) (id : string) (answer : beat)
| EClient (capabilities : list string) (mark_ok : bool)
| ERunSave (id text : string) (e : run_end)
| ERunUnmark (id : string)
| ERunForget (id : string)
| EStop
| EDisconnect
| ECrash
| ERestart
| EGatewayRestart.

Section System.
Context `{WireJSON} (cfg : ClientConfig).
Variable callFiles : Directive → list string.

Definition ready (s : Sys) : option string := match conn s with Some (c, true) => Some c | _ => None end.
Definition connected (s : Sys) : bool := negb (is_none (conn s)).

(** A result goes out on an open session; else it waits on the disk. *)
Definition send_up (rs : list WireMessage) (s : Sys) : Sys :=
  match sess s with Opened => with_up s (up s ++ (UResult <$> rs)) | _ => s end.

(** The gateway takes the next message of the machine. *)
Definition gateway_takes (now : time) (size : Z) (m : up_msg) (s : Sys) : option Sys :=
  match m, conn s with
  | UHello running finished, Some (c, false) =>
      let g := reconcile_conn now c running finished (write DWelcome (gw s)) in
      Some (mkSys g (Some (c, true)) (used s) (up s) (cl s) (sess s) (keeping s) (received s) (execs s) (cancels s))
  | UResult r, Some (c, true) =>
      let '(mine, g) := claim (WID r) (gw s) in
      if mine then
        match keep_result size r g with
        | (Some (d, m), g) => Some (with_keeping (with_gw s g) (keeping s ++ [(d, m)]))
        | (None, g) => Some (with_gw s (release (WID r) g))
        end
      else Some s
  | _, _ => None
  end.

(** The machine takes the next message of the gateway. *)
Definition machine_takes (capabilities : list string) (mark_ok : bool) (m : down) (s : Sys) : Sys :=
  match m with
  | DWelcome => send_up (results (cl s)) s
  | DDirective id kind _ _ =>
      let '(what, c) := start cfg capabilities mark_ok id kind (cl s) in
      let s := mkSys (gw s) (conn s) (used s) (up s) c (sess s) (keeping s) (received s ++ [id])
                 (match what with Started => execs s ++ [id] | _ => execs s end) (cancels s) in
      match what with Refused r => send_up [r] s | _ => s end
  | DCancel id _ => with_cl s (cancel id (cl s))
  | DAck id => with_cl s (DropResult id (cl s))
  | DError _ _ => s
  end.

Definition find_keeping (id : string) (s : Sys) : option (Directive * WireMessage) :=
  List.find (λ x, String.eqb (DirID (fst x)) id) (keeping s).

Definition drop_keeping (id : string) (k : list (Directive * WireMessage)) : list (Directive * WireMessage) :=
  List.filter (λ x, negb (String.eqb (DirID (fst x)) id)) k.

(** The sweep completes the result the tables keep, when it is readable and
    this directive's. *)
Definition retry_kept (now : time) (id : string) (d : Directive) (answers : list verdict) (g : GW) : GW :=
  match unmarshal_message (default "" (DirResult d)) with
  | Some m => if String.eqb (WID m) id then retry_result callFiles now d m answers g else g
  | None => g
  end.

Definition sys_step (e : event) (s : Sys) : option Sys :=
  match e with
  | ETable now op => Some (with_gw s (with_gdb (gw s) (apply_op now op (gdb (gw s)))))
  | EDial c =>
      match conn s, sess s with
      | None, Down => Some (mkSys (gw s) (Some (c, false)) (used s ++ [c]) [] (cl s) Dialed (keeping s) (received s) (execs s) (cancels s))
      | _, _ => None
      end
  | EReadResults => match sess s with Dialed => Some (with_sess s (ReadResults (finished_ids (cl s)))) | _ => None end
  | EHello =>
      match sess s with
      | ReadResults finished => Some (with_sess (with_up s (up s ++ [UHello (running_ids (cl s)) finished])) Opened)
      | _ => None
      end
  | EGateway now size =>
      match up s with m :: rest => gateway_takes now size m (with_up s rest) | [] => None end
  | EFinish now id answers =>
      match find_keeping id s with
      | Some (d, m) =>
          let g := release id (end_result callFiles now d m answers (gw s)) in
          Some (with_keeping (with_gw s g) (drop_keeping id (keeping s)))
      | None => None
      end
  | ERetry now id answers =>
      match List.find (has_key id) (PendingDirectiveResults (gdb (gw s))) with
      | Some d =>
          let '(mine, g) := claim id (gw s) in
          if mine then Some (with_gw s (release id (retry_kept now id d answers g)))
          else Some s
      | None => None
      end
  | EDeliver id => Some (with_gw s (Deliver (ready s) id (gw s)).2)
  | EDeliverLLM now id request written =>
      match GetDirective id (gdb (gw s)) with
      | Some d => if String.eqb (MachineOf d) (machineID (gw s))
                  then Some (with_gw s (DeliverLLM now (ready s) id request written (gw s)).2) else None
      | None => None
      end
  | ESweep now => Some (with_gw s (sweep now (connected s) (gw s)))
  | ERevoke now reason => Some (with_gw s (revoke now (machineID (gw s)) reason (connected s) (gw s)).2)
  | EHeartbeat now id answer =>
      if carries (gw s) id && negb (contains (claimed (gw s)) id) && connected s then
        let s := match answer with BeatCanceled => with_cancels s (cancels s ++ [id]) | _ => s end in
        Some (with_gw s (heartbeat now id answer (gw s)))
      else None
  | EClient capabilities mark_ok =>
      match out (gw s), sess s with
      | m :: rest, Opened => Some (machine_takes capabilities mark_ok m (with_gw s (with_out (gw s) rest)))
      | _, _ => None
      end
  | ERunSave id text e => with_cl s <$> run_save id text e (cl s)
  | ERunUnmark id => with_cl s <$> run_unmark id (cl s)
  | ERunForget id => (λ x, send_up [fst x] (with_cl s (snd x))) <$> run_forget id (cl s)
  | EStop => Some (with_cl s (stopJobs (cl s)))
  | EDisconnect => match sess s with Dead => None | _ => Some (disconnect Down s) end
  | ECrash => Some (disconnect Dead (with_cl s (crash (cl s))))
  | ERestart => match sess s with Dead => Some (with_sess (with_cl s (recover (cl s))) Down) | _ => None end
  | EGatewayRestart =>
      let s := disconnect (match sess s with Dead => Dead | _ => Down end) s in
      Some (with_keeping (with_gw s (with_claimed (with_gdb (gw s) (ResetMachineConnections (gdb (gw s)))) [])) [])
  end.

(** What others do to the tables: a directive is marked sent, and its result
    kept, by the gateway alone; connections have names of their own. *)
Definition event_ok (e : event) (s : Sys) : Prop :=
  match e with
  | ETable _ op => op_valid op (gdb (gw s)) ∧ match op with OpSent _ _ | OpResult _ _ => False | _ => True end
  | EDial c => c ≠ "" ∧ c ∉ used s
  | _ => True
  end.

Definition step (s s' : Sys) : Prop := ∃ e, event_ok e s ∧ sys_step e s = Some s'.

Definition init (M : string) : Sys :=
  mkSys (mkGW emptyMDB M [] [] [] []) None [] [] (mkClient [] [] []) Down [] [] [] [].
End System.
