(* ===== verification/DispatchProofs.v ===== *)
(** * The gateway's moves keep what it promises

    On the gateway's side of the system of Dispatch.v: each directive is written
    to the machine at most once, and what tells the machine to forget one is
    only written once it is over, whatever the operation ([gmove]). *)

From S2P Require Import Prelude GoStr Table MachineData Choice Machines Directives MachineMessage MachineTables Lifecycle Gateway Client Dispatch.
Open Scope string_scope.
Open Scope Z_scope.
Open Scope list_scope.

(** ** Directives sent, directives over *)

Definition dir_ids (o : list down) : list string :=
  omap (λ m, match m with DDirective id _ _ _ => Some id | _ => None end) o.

(** The messages that make the machine forget a directive, or stop it. *)
Definition stop_ids (o : list down) : list string :=
  omap (λ m, match m with DCancel id _ | DAck id => Some id | _ => None end) o.

Lemma dir_ids_app a b : dir_ids (a ++ b) = dir_ids a ++ dir_ids b.
Proof. apply omap_app. Qed.
Lemma stop_ids_app a b : stop_ids (a ++ b) = stop_ids a ++ stop_ids b.
Proof. apply omap_app. Qed.

Section Gateway.
Variable M : string.
Implicit Types (db : MDB) (g : GW) (id : string).

(** A directive of the machine that was sent, whatever became of it since. *)
Definition sent_row db id : Prop :=
  ∃ d, get id (directives db) = Some d ∧ MachineOf d = M ∧ id_ok id = true ∧ (phase_of_row d = Running true ∨ phase_of_row d = Ended).

Definition ended db id : Prop := phase_of id db = Ended.

Lemma phase_row db id d : get id (directives db) = Some d → phase_of id db = phase_of_row d.
Proof. unfold phase_of. by intros ->. Qed.

Lemma sent_phase db id : sent_row db id → phase_of id db = Running true ∨ phase_of id db = Ended.
Proof. intros (d & Hd & _ & _ & H). by rewrite (phase_row db id d Hd). Qed.

(** Directives keep their machine. *)
Lemma machine_kept_update db p f id d :
  keeps_call f → get id (directives db) = Some d →
  ∃ d', get id (update_where p f (directives db)) = Some d' ∧ MachineOf d' = MachineOf d.
Proof.
  intros Hf Hd. rewrite (update_get p f (directives db) id (keeps_dir f Hf)), Hd. cbn. eexists. split; [reflexivity|].
  destruct (p d); [apply Hf|done].
Qed.

Lemma machine_kept now op db id d :
  get id (directives db) = Some d → ∃ d', get id (directives (apply_op now op db)) = Some d' ∧ MachineOf d' = MachineOf d.
Proof.
  intros Hd. destruct (on_directives op) eqn:Hop; [|rewrite (directives_kept now op db Hop); eauto].
  assert (Hsame : ∃ d', get id (directives db) = Some d' ∧ MachineOf d' = MachineOf d) by eauto.
  assert (Hadd : ∀ x, ∃ d', get id (directives (add_directive x db)) = Some d' ∧ MachineOf d' = MachineOf d)
    by (intros x; cbn; rewrite get_snoc, Hd; eauto).
  destruct op; try done; cbn [apply_op]; clear Hop.
  - unfold RevokeMachine. repeat split_match; try done. apply machine_kept_update; [apply set_closed_keeps_call|done].
  - unfold PickMachine. repeat split_match; try done; apply Hadd.
  - unfold CreateLLMDirective. repeat split_match; try done; apply Hadd.
  - unfold StartDirective. split_match; [|done]. apply machine_kept_update; [apply set_started_keeps_call|done].
  - apply machine_kept_update; [apply set_sent_keeps_call|done].
  - unfold SaveDirectiveResult. split_match; [done|]. apply machine_kept_update; [apply set_result_keeps_call|done].
  - apply machine_kept_update; [apply set_closed_keeps_call|done].
  - apply machine_kept_update; [apply sweep_one_keeps_call|done].
Qed.

(** Sent and over are for good. *)
Lemma sent_step db db' id : mdb_ok db → table_step db db' → sent_row db id → sent_row db' id.
Proof.
  intros Hok (now & op & Hv & ->) (d & Hd & Hm & Hid & Hp). destruct (machine_kept now op db id d Hd) as (d' & Hd' & Hm').
  exists d'. split_and!; [done|congruence|done|]. destruct (phase_steps now op db id Hok Hv) as [Hs _].
  rewrite (phase_row _ _ _ Hd), (phase_row _ _ _ Hd') in Hs. destruct Hs as [->|Hs]; [done|].
  destruct Hp as [E|E]; rewrite E in Hs; inversion Hs; auto.
Qed.

Lemma ended_step db db' id : mdb_ok db → table_step db db' → ended db id → ended db' id.
Proof.
  unfold ended. intros Hok (now & op & Hv & ->) He. destruct (phase_steps now op db id Hok Hv) as [[->|Hs] _]; [done|].
  rewrite He in Hs. inversion Hs.
Qed.

Definition tables := star table_step.

Lemma tables_ok db db' : mdb_ok db → tables db db' → mdb_ok db'.
Proof. intros Hok H. eapply (star_invariant table_step mdb_ok); [|exact H|done]. intros a b Ha (n & op & Hv & ->). by apply apply_op_ok. Qed.

Lemma sent_mono db db' id : mdb_ok db → tables db db' → sent_row db id → sent_row db' id.
Proof.
  intros Hok H Hs. eapply (star_invariant table_step (λ x, mdb_ok x ∧ sent_row x id)); [|exact H|done].
  intros a b [Ha Hsa] Hab. split; [destruct Hab as (n & op & Hv & ->); by apply apply_op_ok|by eapply sent_step].
Qed.

Lemma ended_mono db db' id : mdb_ok db → tables db db' → ended db id → ended db' id.
Proof.
  intros Hok H Hs. eapply (star_invariant table_step (λ x, mdb_ok x ∧ ended x id)); [|exact H|done].
  intros a b [Ha Hsa] Hab. split; [destruct Hab as (n & op & Hv & ->); by apply apply_op_ok|by eapply ended_step].
Qed.

Lemma table_one now op db : op_valid op db → tables db (apply_op now op db).
Proof. intros Hv. apply star_one. by exists now, op. Qed.

(** A directive the tables hold for the machine. *)
Definition row_in db id : Prop := ∃ d, get id (directives db) = Some d ∧ MachineOf d = M.

Lemma row_mono db db' id : tables db db' → row_in db id → row_in db' id.
Proof.
  intros H Hd. eapply (star_invariant table_step (λ x, row_in x id)); [|exact H|done].
  intros a b (d & Hda & Hm) (n & op & _ & ->). destruct (machine_kept n op a id d Hda) as (d' & Hd' & Hm'). exists d'. split; [done|congruence].
Qed.

Lemma sent_row_in db id : sent_row db id → row_in db id.
Proof. intros (d & Hd & Hm & _). by exists d. Qed.

(** ** What the gateway keeps *)

Variables (rcv cxl : list string).

Definition over db id : Prop := ended db id ∨ id ∈ cxl.

Record gw_ok (g : GW) : Prop := {
  g_tables : mdb_ok (gdb g);
  g_machine : machineID g = M;
  g_once : NoDup (dir_ids (out g) ++ rcv);
  g_sent : ∀ id, id ∈ dir_ids (out g) ++ rcv → sent_row (gdb g) id;
  g_stops : ∀ id, id ∈ stop_ids (out g) → over (gdb g) id;
  g_carried : ∀ id, carries g id = true → row_in (gdb g) id
}.

(** A move of the gateway. *)
Definition gmove (g g' : GW) : Prop := gw_ok g' ∧ tables (gdb g) (gdb g').

Lemma gmove_refl g : gw_ok g → gmove g g.
Proof. intros H. split; [done|constructor]. Qed.

Lemma gmove_trans g g' g'' : gmove g g' → (gw_ok g' → tables (gdb g) (gdb g') → gmove g' g'') → gmove g g''.
Proof. intros [H1 H2] H3. destruct (H3 H1 H2) as [H4 H5]. split; [done|]. eapply star_trans; [exact H2|exact H5]. Qed.

(** What only changes the bookkeeping. *)
Lemma gmove_same g g' :
  gdb g' = gdb g → machineID g' = machineID g → out g' = out g →
  (∀ id, carries g' id = true → carries g id = true ∨ row_in (gdb g) id) → gw_ok g → gmove g g'.
Proof.
  intros E1 E2 E3 E4 []. split; [|rewrite E1; constructor]. constructor; rewrite ?E1, ?E2, ?E3; try done.
  intros id [Hid|Hid]%E4; auto.
Qed.

(** The same, when nothing more is carried. *)
Lemma gmove_kept g g' :
  gdb g' = gdb g → machineID g' = machineID g → out g' = out g → carried g' = carried g → gw_ok g → gmove g g'.
Proof. intros E1 E2 E3 E4. apply gmove_same; try done. unfold carries. rewrite E4. by left. Qed.

(** A statement on the tables. *)
Lemma gmove_db g db' : tables (gdb g) db' → gw_ok g → gmove g (with_gdb g db').
Proof.
  intros H []. split; [|done]. constructor; cbn; try done.
  - by eapply tables_ok.
  - intros id Hid. eapply sent_mono; eauto.
  - intros id Hid. destruct (g_stops0 id Hid); [left; by eapply ended_mono|by right].
  - intros id Hid. eapply row_mono; [exact H|by apply g_carried0].
Qed.

Lemma gmove_op g now op : op_valid op (gdb g) → gw_ok g → gmove g (with_gdb g (apply_op now op (gdb g))).
Proof. intros Hv. apply gmove_db. by apply table_one. Qed.

(** A message that is no directive. *)
Lemma gmove_write g m :
  dir_ids [m] = [] → (∀ id, id ∈ stop_ids [m] → over (gdb g) id) → gw_ok g → gmove g (write m g).
Proof.
  intros Hd Hs []. split; [|constructor]. constructor; cbn; try done; rewrite ?dir_ids_app, ?Hd, ?app_nil_r; try done.
  intros id. rewrite stop_ids_app. intros [Hid|Hid]%elem_of_app; auto.
Qed.

Lemma gmove_stop g m id : stop_ids [m] = [id] → dir_ids [m] = [] → over (gdb g) id → gw_ok g → gmove g (write m g).
Proof. intros Hs Hd Ho. apply gmove_write; [done|]. rewrite Hs. intros x Hx%list_elem_of_singleton. by subst. Qed.

(** A fold of moves. *)
Lemma gmove_fold {A} (f : GW → A → GW) (l : list A) g :
  (∀ g' x, x ∈ l → tables (gdb g) (gdb g') → gw_ok g' → gmove g' (f g' x)) → gw_ok g → gmove g (fold_left f l g).
Proof.
  intros Hf Hg. revert g Hg Hf. induction l as [|x l IH]; intros g Hg Hf; [by apply gmove_refl|]. cbn.
  eapply gmove_trans; [apply Hf; [by left|constructor|done]|]. intros Hg' Ht.
  apply IH; [done|]. intros g' y Hy Hty. apply Hf; [by right|]. eapply star_trans; [exact Ht|exact Hty].
Qed.

(** ** The gateway's operations *)

Lemma mark_sent db id c :
  mdb_ok db → c ≠ "" → (MarkDirectiveSent id c db).1 = true →
  phase_of id db = Running false ∧ phase_of id (MarkDirectiveSent id c db).2 = Running true.
Proof.
  intros Hok Hc. cbn [MarkDirectiveSent fst snd].
  destruct (affects_phase db id (unsent id) (λ x, x = Running false) (ok_directives _ Hok)) as [[-> Hp]|[-> _]];
    [naive_solver|apply unsent_phase| |done]. intros _. split; [done|]. unfold phase_of in *. cbn.
  rewrite (update_get (unsent id) (set_sent c) (directives db) id _). destruct (get id (directives db)) as [d|] eqn:Hd; [|done]. cbn.
  pose proof Hd as [_ Hk]%get_some. assert (unsent id d = true) as -> by by apply unsent_phase.
  revert Hp. unfold phase_of_row. cbn. destruct (String.eqb (DirState d) DirectiveReserved); [done|].
  destruct (String.eqb (DirState d) DirectiveRunning); [|done]. intros _. by destruct (String.eqb_spec c "").
Qed.

(** The one place where a directive is written to the machine. *)
Lemma gmove_sent g c id kind input dl :
  c ≠ "" → row_in (gdb g) id → (MarkDirectiveSent id c (gdb g)).1 = true → gw_ok g →
  gmove g (write (DDirective id kind input dl) (with_gdb g (MarkDirectiveSent id c (gdb g)).2)).
Proof.
  intros Hc Hrow Hs Hg. destruct (mark_sent (gdb g) id c (g_tables g Hg) Hc Hs) as [Hp Hp'].
  eapply gmove_trans; [apply (gmove_op g 0 (OpSent id c)); [exact Hc|done]|]. intros Hg' _.
  destruct Hg. destruct Hg'. split; [|constructor]. constructor; cbn in *; try done.
  - rewrite dir_ids_app. cbn. rewrite <- app_assoc. cbn. rewrite <- Permutation_middle. constructor; [|done].
    intros Hin. apply g_sent0, sent_phase in Hin. rewrite Hp in Hin. naive_solver.
  - intros x. rewrite dir_ids_app. cbn. rewrite <- app_assoc. cbn. rewrite <- Permutation_middle.
    intros [->|Hx]%elem_of_cons; [|by apply g_sent1].
    destruct (row_mono _ _ id (table_one 0 (OpSent id c) (gdb g) Hc) Hrow) as (d & Hd & Hm). exists d.
    pose proof Hd as [Hin Hk]%get_some. split_and!; [done|done| |].
    + rewrite <- Hk. exact (ok_dir_ids _ g_tables1 d Hin).
    + left. change (apply_op 0 (OpSent id c) (gdb g)) with (MarkDirectiveSent id c (gdb g)).2 in Hd. by rewrite <- (phase_row _ _ _ Hd).
  - intros x. rewrite stop_ids_app. cbn. rewrite app_nil_r. apply g_stops1.
Qed.

Lemma carries_attach d g id : carries (attach d g) id = true → carries g id = true ∨ id = DirID d.
Proof.
  unfold attach. destruct (carries g (DirID d)); [by left|]. unfold carries. cbn. rewrite existsb_app, orb_true_iff. cbn.
  rewrite orb_false_r, String.eqb_eq. intros [?|<-]; auto.
Qed.

Lemma gmove_attached d g g' :
  gdb g' = gdb g → machineID g' = machineID g → out g' = out g → carried g' = carried (attach d g) → row_in (gdb g) (DirID d) →
  gw_ok g → gmove g g'.
Proof.
  intros E1 E2 E3 E4 Hrow. apply gmove_same; try done. intros id Hid.
  destruct (carries_attach d g id) as [?| ->]; [unfold carries in *; by rewrite <- E4|by left|by right].
Qed.

Lemma gmove_attach d g : row_in (gdb g) (DirID d) → gw_ok g → gmove g (attach d g).
Proof. unfold attach. intros Hrow Hg. destruct (carries g (DirID d)) eqn:E; [by apply gmove_refl|]. apply (gmove_attached d); try done. unfold attach. by rewrite E. Qed.

Lemma write_attach m d g : write m (attach d g) = with_carried (write m g) (carried (attach d g)).
Proof. unfold attach. destruct (carries g (DirID d)); [by destruct g|done]. Qed.

Lemma write_attached d m g g' :
  gmove g (write m g') → carried g' = carried g → row_in (gdb g) (DirID d) → gmove g (write m (attach d g')).
Proof.
  intros H E Hrow. rewrite write_attach. eapply gmove_trans; [exact H|]. intros Hg Ht. apply (gmove_attached d); try done.
  - unfold attach, carries. cbn. destruct (existsb _ (carried g')); done.
  - cbn. eapply row_mono; [exact Ht|done].
Qed.

Lemma attach_tables d g : gdb (attach d g) = gdb g.
Proof. unfold attach. by destruct (carries g (DirID d)). Qed.

Lemma gmove_send c d g : c ≠ "" → row_in (gdb g) (DirID d) → gw_ok g → gmove g (send c d g).
Proof.
  intros Hc Hrow Hg. unfold send. destruct (MarkDirectiveSent (DirID d) c (gdb g)) as [sent db] eqn:E.
  assert (Es : (MarkDirectiveSent (DirID d) c (gdb g)).1 = sent) by by rewrite E.
  assert (Ed : (MarkDirectiveSent (DirID d) c (gdb g)).2 = db) by by rewrite E. destruct sent.
  - apply (write_attached d); [rewrite <- Ed; by apply gmove_sent|done..].
  - rewrite <- Ed. by apply (gmove_op g 0 (OpSent (DirID d) c)).
Qed.

Lemma gmove_close now id st err g :
  closing st = true → gw_ok g → gmove g (with_gdb g (CloseDirective now id st err (gdb g)).2).
Proof. intros Hs. by apply (gmove_op g now (OpClose id st err)). Qed.

(** After its close, a directive is no longer open. *)
Lemma closed_over now id st err db :
  closing st = true → row_in (CloseDirective now id st err db).2 id → ended (CloseDirective now id st err db).2 id.
Proof.
  intros Hs (d' & Hd' & _). revert Hd'. unfold ended, phase_of. cbn.
  rewrite (update_get (open_row id) _ (directives db) id (set_closed_keeps now st err)).
  destruct (get id (directives db)) as [d|] eqn:Hd; [|done]. intros _. cbn.
  pose proof Hd as [_ Hk]%get_some. destruct (open_row id d) eqn:Eo; [by apply phase_closed|].
  apply not_true_iff_false in Eo. destruct (phase_of_row d) eqn:Ep; [|exfalso; apply Eo, open_row_phase; naive_solver..|done].
  unfold phase_of_row in Ep. by repeat case_match.
Qed.

Lemma gmove_call id c g : gw_ok g → gmove g (call id c g).
Proof. by apply gmove_kept. Qed.

Lemma gmove_lose now d g : gw_ok g → gmove g (lose now d g).
Proof.
  intros Hg. unfold lose. destruct (CloseDirective now (DirID d) DirectiveLost "unknown to its machine" (gdb g)) as [closed db] eqn:E.
  assert (Ed : (CloseDirective now (DirID d) DirectiveLost "unknown to its machine" (gdb g)).2 = db) by by rewrite E.
  rewrite <- Ed. eapply gmove_trans; [by apply (gmove_close now (DirID d) DirectiveLost "unknown to its machine")|]. intros H _. destruct closed; [by apply gmove_call|by apply gmove_refl].
Qed.

Lemma open_elem db d : d ∈ OpenDirectives M db ↔ d ∈ directives db ∧ MachineOf d = M ∧ Open d = true.
Proof. unfold OpenDirectives. by rewrite sort_stable_perm, elem_filter, open_of_spec. Qed.

Lemma open_row_of g d : gw_ok g → d ∈ OpenDirectives M (gdb g) → row_in (gdb g) (DirID d).
Proof.
  intros Hg (Hd & Hm & _)%open_elem. exists d. split; [|done].
  exact (get_in (directives (gdb g)) d (ok_directives _ (g_tables g Hg)) Hd).
Qed.

(** What the machine lists and the tables do not hold running is over. *)
Lemma unlisted_ended g id :
  gw_ok g → sent_row (gdb g) id → (∀ d, d ∈ OpenDirectives M (gdb g) → is_running d = true → DirID d ≠ id) → ended (gdb g) id.
Proof.
  intros Hg (d & Hd & Hm & _ & [Hp|Hp]) Hno; [|unfold ended; by rewrite (phase_row _ _ _ Hd)]. exfalso.
  pose proof Hd as [Hin Hk]%get_some. apply (Hno d); [|unfold is_running; apply String.eqb_eq, phase_running; by exists true|done].
  apply open_elem. split_and!; [done|done|]. apply phase_open. right. by exists true.
Qed.

(** The four folds of a reconciliation. *)
Lemma gmove_attaches l g : (∀ d, d ∈ l → row_in (gdb g) (DirID d)) → gw_ok g → gmove g (fold_left (λ g d, attach d g) l g).
Proof.
  intros Hl Hg. apply (gmove_fold (λ g d, attach d g)); [|done]. intros g' d Hd Ht. apply gmove_attach.
  eapply row_mono; [exact Ht|by apply Hl].
Qed.

Lemma gmove_stops l text g :
  (∀ id, stop_ids [text id] = [id] ∧ dir_ids [text id] = []) → (∀ id, id ∈ l → ended (gdb g) id) → gw_ok g →
  gmove g (fold_left (λ g id, write (text id) g) l g).
Proof.
  intros Ht Hl Hg. apply (gmove_fold (λ g id, write (text id) g)); [|done]. intros g' id Hid Htab Hg'. destruct (Ht id).
  apply (gmove_stop g' (text id) id); [done|done| |done]. left. eapply ended_mono; [exact (g_tables g Hg)|exact Htab|auto].
Qed.

Lemma gmove_sends c l g :
  c ≠ "" → (∀ d, d ∈ l → row_in (gdb g) (DirID d)) → gw_ok g → gmove g (fold_left (λ g d, send c d g) l g).
Proof.
  intros Hc Hl Hg. apply (gmove_fold (λ g d, send c d g)); [|done]. intros g' d Hd Htab Hg'.
  apply gmove_send; [done| |done]. eapply row_mono; [exact Htab|by apply Hl].
Qed.

Lemma gmove_loses now l g : gw_ok g → gmove g (fold_left (λ g d, lose now d g) l g).
Proof. intros Hg. apply (gmove_fold (λ g d, lose now d g)); [|done]. intros g' d _ _. apply gmove_lose. Qed.

(** What the machine lists of its directives and the plan does not carry on is over. *)
Lemma listed_ended g running finished id l :
  (∀ x, x ∈ running ∨ x ∈ finished → x ∈ rcv) → gw_ok g → l = running ∨ l = finished →
  id ∈ List.filter (λ x, negb (contains (DirID <$> List.filter is_running (OpenDirectives M (gdb g))) x)) l → ended (gdb g) id.
Proof.
  intros Hlist Hg Hl [Hid Hno%negb_true_iff%contains_false]%elem_filter. apply unlisted_ended; [done| |].
  - apply (g_sent g Hg). apply elem_of_app. right. apply Hlist. destruct Hl as [-> | ->]; auto.
  - intros d Hd Hr <-. apply Hno, list_elem_of_fmap_2. by apply elem_filter.
Qed.

Lemma gmove_reconcile now c running finished g :
  c ≠ "" → (∀ id, id ∈ running ∨ id ∈ finished → id ∈ rcv) → gw_ok g → gmove g (reconcile_conn now c running finished g).
Proof.
  intros Hc Hlist Hg. unfold reconcile_conn. rewrite (g_machine g Hg), reconcile_filters. cbn [p_attach p_send p_lost p_cancel p_ack].
  pose proof (g_tables g Hg) as Hok. cbv zeta.
  set (g1 := fold_left (λ g d, attach d g) _ g).
  set (g2 := fold_left (λ g id, write (DCancel id "closed") g) _ g1).
  set (g3 := fold_left (λ g id, write (DAck id) g) _ g2).
  set (g4 := fold_left (λ g d, send c d g) _ g3).
  apply (gmove_trans g g1); [apply gmove_attaches; [|done]; intros d [Hd _]%elem_filter; by apply (open_row_of g)|]. intros H1 T1.
  apply (gmove_trans g1 g2); [apply (gmove_stops _ (λ id, DCancel id "closed")); [done| |done]|].
  { intros id Hid. eapply ended_mono; [exact Hok|exact T1|]. eapply listed_ended; [exact Hlist|done|by left|exact Hid]. }
  intros H2 T2. apply (gmove_trans g2 g3); [apply (gmove_stops _ DAck); [done| |done]|].
  { intros id Hid. eapply ended_mono; [exact Hok|eapply star_trans; [exact T1|exact T2]|].
    eapply listed_ended; [exact Hlist|done|by right|exact Hid]. }
  intros H3 T3. apply (gmove_trans g3 g4); [apply gmove_sends; [done| |done]|].
  { intros d [Hd _]%elem_filter. eapply row_mono; [eapply star_trans; [exact T1|eapply star_trans; [exact T2|exact T3]]|]. by apply open_row_of. }
  intros H4 _. by apply gmove_loses.
Qed.

Lemma running_phase d : is_running d = true ↔ ∃ s, phase_of_row d = Running s.
Proof. unfold is_running. by rewrite String.eqb_eq, phase_running. Qed.

Lemma gmove_deliver c id g : (∀ x, c = Some x → x ≠ "") → gw_ok g → gmove g (Deliver c id g).2.
Proof.
  intros Hc Hg. unfold Deliver. destruct (GetDirective id (gdb g)) as [d|] eqn:Hd; [|by apply gmove_refl].
  destruct (negb (is_running d)); [by apply gmove_refl|]. destruct (is_llm d); [by apply gmove_refl|].
  destruct c as [c|]; [|by apply gmove_refl]. cbn [snd]. destruct (String.eqb_spec (MachineOf d) (machineID g)) as [E|]; [|by apply gmove_refl].
  apply gmove_send; [by apply Hc| |done]. exists d. pose proof Hd as [_ Hk]%get_some. change (DirID d) with (row_key d). rewrite Hk.
  split; [done|]. by rewrite E, (g_machine g Hg).
Qed.

Lemma gmove_unreachable now d why g : gw_ok g → gmove g (unreachable now d why g).
Proof. intros Hg. unfold unreachable. by apply gmove_close. Qed.

Lemma gmove_deliver_llm now c id req written g :
  (∀ x, c = Some x → x ≠ "") → row_in (gdb g) id → gw_ok g → gmove g (DeliverLLM now c id req written g).2.
Proof.
  intros Hc Hrow Hg. unfold DeliverLLM. destruct (GetDirective id (gdb g)) as [d|] eqn:Hd; [|by apply gmove_refl].
  destruct (negb (is_running d) || negb (is_llm d)); [by apply gmove_refl|].
  destruct c as [c|]; [|by apply gmove_unreachable].
  destruct (MarkDirectiveSent id c (gdb g)) as [sent db] eqn:E.
  assert (Es : (MarkDirectiveSent id c (gdb g)).1 = sent) by by rewrite E.
  assert (Ed : (MarkDirectiveSent id c (gdb g)).2 = db) by by rewrite E. rewrite <- Ed.
  assert (Hmark : gmove g (with_gdb g (MarkDirectiveSent id c (gdb g)).2)) by (apply (gmove_op g 0 (OpSent id c)); [by apply Hc|done]).
  destruct sent; cbn [negb].
  - destruct written; cbn [negb snd].
    + apply (write_attached d); [apply gmove_sent; [by apply Hc|done..]|done|]. pose proof Hd as [_ Hk]%get_some. change (DirID d) with (row_key d). by rewrite Hk.
    + eapply gmove_trans; [exact Hmark|]. intros ? _. by apply gmove_unreachable.
  - eapply gmove_trans; [exact Hmark|]. intros ? _. by apply gmove_unreachable.
Qed.

Lemma gmove_detach id g : gw_ok g → gmove g (detach id g).2.
Proof.
  apply gmove_same; try done. intros x. unfold carries. cbn. rewrite !existsb_exists. intros (y & [Hy _]%filter_In & E). left. by exists y.
Qed.

Lemma gmove_claim id g : gw_ok g → gmove g (claim id g).2.
Proof. intros Hg. unfold claim. destruct (contains (claimed g) id); [by apply gmove_refl|by apply gmove_kept]. Qed.

Lemma gmove_release id g : gw_ok g → gmove g (release id g).
Proof. by apply gmove_kept. Qed.

(** Forgetting a directive that is over. *)
Lemma gmove_drop id g : over (gdb g) id → gw_ok g → gmove g (write (DAck id) (detach id g).2).
Proof.
  intros Ho Hg. eapply gmove_trans; [by apply gmove_detach|]. intros H _. by apply (gmove_stop (detach id g).2 (DAck id) id).
Qed.

Section Results.
Context `{WireJSON} (callFiles : Directive → list string).

Lemma check_keeps_id m : WID (checkLLM m) = WID m.
Proof. unfold checkLLM, checkLLMResult. by repeat case_match. Qed.

Lemma gmove_keep size m g :
  WID m ∈ rcv → gw_ok g → gmove g (keep_result size m g).2.
Proof.
  intros Hid Hg. pose proof (g_sent g Hg (WID m) (proj2 (elem_of_app _ _ _) (or_intror Hid))) as Hsent.
  pose proof Hsent as (d & Hd & Hm & _ & Hp). unfold keep_result, GetDirective. rewrite Hd, (g_machine g Hg), Hm, String.eqb_refl.
  cbn [negb orb]. destruct (is_running d) eqn:Er; cbn [negb].
  - destruct (negb (is_llm d) && (MaxMessageBytes <? size)); [apply gmove_write; [done|cbn; set_solver|done]|].
    assert (Hm' : WID (if is_llm d then checkLLM m else m) = WID m) by (destruct (is_llm d); [apply check_keeps_id|done]).
    revert Hm'. generalize (if is_llm d then checkLLM m else m). intros m' Em. cbn zeta. rewrite Em.
    pose proof (gmove_op g 0 (OpResult (WID m) (marshal_message m')) I Hg) as Hk.
    destruct (SaveDirectiveResult (WID m) (marshal_message m') (gdb g)) as [[e|u] db] eqn:E; cbn [apply_op] in Hk; rewrite E in Hk; [|exact Hk].
    exfalso. revert E. unfold SaveDirectiveResult.
    destruct (affects_phase (gdb g) (WID m) (open_row (WID m)) (λ x, x = Reserved ∨ ∃ s, x = Running s) (ok_directives _ (g_tables g Hg)))
      as [[-> _]|[_ Hn]]; [naive_solver|apply open_row_phase|done|]. exfalso. apply Hn. right.
    rewrite (phase_row _ _ _ Hd). by apply running_phase.
  - cbn [snd]. apply gmove_drop; [|done]. left. unfold ended. rewrite (phase_row _ _ _ Hd).
    destruct Hp as [Hp|]; [|done]. apply not_true_iff_false in Er. exfalso. apply Er, running_phase. by exists true.
Qed.

Lemma closedState_closing s : closing (closedState s) = true.
Proof. unfold closedState. repeat case_match; reflexivity. Qed.

(** What [finish] does, and that the directive it closed is over. *)
Lemma gmove_finish now tries d m answers g :
  gw_ok g →
  match finish callFiles now tries d m answers g with
  | Some g' => gmove g g' ∧ (row_in (gdb g') (DirID d) → ended (gdb g') (DirID d))
  | None => True
  end.
Proof.
  intros Hg. unfold finish. destruct (complete tries answers) as [v n].
  set (g1 := call (DirID d) _ g).
  assert (H1 : gmove g g1 ∧ gdb g1 = gdb g) by (split; [by apply gmove_call|done]). clearbody g1.
  assert (Hclose : ∀ g0 st, closing st = true → gmove g g0 → gdb g0 = gdb g →
      gmove g (with_gdb g0 (CloseDirective now (DirID d) st (WError m) (gdb g0)).2) ∧
      (row_in (CloseDirective now (DirID d) st (WError m) (gdb g0)).2 (DirID d) → ended (CloseDirective now (DirID d) st (WError m) (gdb g0)).2 (DirID d))).
  { intros g0 st Hst H0 E0. split.
    - eapply gmove_trans; [exact H0|]. intros ? _. by apply gmove_close.
    - by apply closed_over. }
  destruct H1 as [H1 E1].
  destruct v; [apply Hclose; [apply closedState_closing|done|done]|by apply Hclose| |done].
  destruct (String.eqb (WStatus m) StatusCanceled); [|done].
  set (g2 := call (DirID d) _ g1). assert (H2 : gmove g g2) by (eapply gmove_trans; [exact H1|]; intros ? _; by apply gmove_call).
  destruct (complete tries (drop n answers)).1; [apply Hclose; [apply closedState_closing|done|done]|by apply Hclose|done|done].
Qed.

Lemma gmove_end now d m answers g :
  row_in (gdb g) (DirID d) → WID m = DirID d → gw_ok g → gmove g (end_result callFiles now d m answers g).
Proof.
  intros Hs E Hg. unfold end_result. pose proof (gmove_finish now completeTries d m answers g Hg) as Hf.
  destruct (finish _ _ _ _ _ _ _) as [g'|]; [|by apply gmove_refl]. destruct Hf as [Hf He].
  eapply gmove_trans; [exact Hf|]. intros ? _. apply gmove_drop; [|done]. left. rewrite E. apply He.
  eapply row_mono; [exact (proj2 Hf)|done].
Qed.

Lemma gmove_retry now d m answers g : gw_ok g → gmove g (retry_result callFiles now d m answers g).
Proof.
  intros Hg. unfold retry_result. pose proof (gmove_finish now 1 d m answers g Hg) as Hf.
  destruct (finish _ _ _ _ _ _ _) as [g'|]; [|by apply gmove_refl]. destruct Hf as [Hf He].
  eapply gmove_trans; [exact Hf|]. intros Hg' _. cbn [detach]. destruct (carries g' (DirID d)) eqn:Ec.
  - apply (gmove_drop (DirID d) g'); [left; apply He; by apply (g_carried g' Hg')|done].
  - by apply (gmove_detach (DirID d) g').
Qed.
End Results.

(** ** Heartbeats, the sweep, revocation *)

Lemma carries_cancel_sent id x g : carries (with_carried g (set_cancel_sent id <$> carried g)) x = carries g x.
Proof.
  unfold carries. cbn. induction (carried g) as [|y l IH]; [done|]. cbn. rewrite IH. f_equal. unfold set_cancel_sent.
  by destruct (String.eqb (fst y) id).
Qed.

Lemma gmove_heartbeat now id answer g :
  carries g id = true → (answer = BeatCanceled → id ∈ cxl) → gw_ok g → gmove g (heartbeat now id answer g).
Proof.
  intros Hc Hcxl Hg. destruct answer as [due| | |]; cbn [heartbeat]; [| | |by apply gmove_refl].
  - destruct due; [|by apply gmove_refl]. by apply (gmove_op g now (OpClearAside (machineID g))).
  - destruct (existsb _ (carried g)); [|by apply gmove_refl].
    apply (gmove_trans g (with_carried g (set_cancel_sent id <$> carried g))).
    { apply gmove_same; try done. intros x. rewrite carries_cancel_sent. by left. }
    intros Hg' _. apply (gmove_stop _ (DCancel id "cancel requested") id); [done|done|right; by apply Hcxl|done].
  - cbn [detach]. rewrite Hc. set (g1 := (detach id g).2).
    apply (gmove_trans g g1); [by apply gmove_detach|]. intros H1 _.
    set (g2 := with_gdb g1 (CloseDirective now id DirectiveGone "its activity no longer exists" (gdb g1)).2).
    apply (gmove_trans g1 g2); [by apply gmove_close|]. intros H2 T2.
    apply (gmove_stop g2 (DCancel id "gone") id); [done|done|left|done]. apply closed_over; [done|].
    eapply row_mono; [exact T2|exact (g_carried g Hg id Hc)].
Qed.

(** What was closed is cancelled on the machine. *)
Lemma gmove_cancel_closed text always g d : ended (gdb g) (DirID d) → gw_ok g → gmove g (cancel_closed text always g d).
Proof.
  intros He Hg. unfold cancel_closed. destruct (String.eqb (MachineOf d) (machineID g)); [|by apply gmove_refl]. cbn [detach].
  eapply gmove_trans; [by apply (gmove_detach (DirID d))|]. intros H1 _.
  destruct (always || carries g (DirID d)); [|by apply gmove_refl].
  by apply (gmove_stop _ (DCancel (DirID d) (text d)) (DirID d)); [..|left|].
Qed.

(** The rows an operation answers having closed. *)
Lemma updated_ended db p f d :
  KeepsKey f → keys_ok (directives db) → (∀ x, phase_of_row (f x) = Ended) → d ∈ f <$> List.filter p (directives db) →
  ended (with_directives db (update_where p f (directives db))) (DirID d).
Proof.
  intros Hf Hok He (x & -> & [Hx Hp]%elem_filter)%list_elem_of_fmap. unfold ended, phase_of. cbn.
  change (DirID (f x)) with (row_key (f x)). rewrite Hf, (update_get p f (directives db) _ Hf), (get_in _ x Hok Hx). cbn.
  by rewrite Hp.
Qed.

Lemma gmove_sweep now connected g : gw_ok g → gmove g (sweep now connected g).
Proof.
  intros Hg. unfold sweep. destruct (SweepDirectives now now (gdb g)) as [swept db] eqn:E. injection E as E1 E2.
  apply (gmove_trans g (with_gdb g db)); [rewrite <- E2; by apply (gmove_op g now (OpSweep now))|]. intros H1 _.
  set (g2 := if connected then _ else _). apply (gmove_trans (with_gdb g db) g2).
  - unfold g2. destruct connected; [|by apply gmove_refl]. apply gmove_fold; [|done]. intros g' d Hd Ht. apply gmove_cancel_closed.
    eapply ended_mono; [apply (g_tables _ H1)|exact Ht|]. cbn. rewrite <- E2.
    apply updated_ended; [apply sweep_one_keeps_call|apply (ok_directives _ (g_tables g Hg))|apply phase_swept|by rewrite E1].
  - intros H2 _. by apply (gmove_op g2 now (OpDeleteExpired now)).
Qed.

Lemma gmove_revoke now reason connected g : gw_ok g → gmove g (revoke now M reason connected g).2.
Proof.
  intros Hg. unfold revoke. destruct (RevokeMachine now M reason (gdb g)) as [[e|closed] db] eqn:E.
  { cbn. replace db with (apply_op now (OpRevoke M reason) (gdb g)) by (cbn; by rewrite E). by apply gmove_op. }
  cbn [snd]. apply (gmove_trans g (with_gdb g db)).
  { replace db with (apply_op now (OpRevoke M reason) (gdb g)) by (cbn; by rewrite E). by apply gmove_op. }
  intros H1 _. apply (gmove_fold (λ g d, _)); [|done]. intros g' d Hd Ht Hg'.
  assert (He : ended (gdb g') (DirID d)).
  { eapply ended_mono; [apply (g_tables _ H1)|exact Ht|]. cbn. revert E. unfold RevokeMachine. repeat split_match; [intros [= <- <-]; set_solver| |done].
    intros [= <- <-]. unfold ended, phase_of. cbn [directives].
    apply (updated_ended (gdb g) _ _ d (set_closed_keeps now DirectiveRevoked reason)); [apply (ok_directives _ (g_tables g Hg))|by intros; apply phase_closed|exact Hd]. }
  set (g2 := if connected then _ else _). apply (gmove_trans g' g2).
  { unfold g2. destruct connected; [by apply gmove_cancel_closed|by apply gmove_refl]. }
  intros H2 _. destruct (String.eqb (coalesce (TaskToken d)) ""); [by apply gmove_refl|by apply gmove_call].
Qed.
End Gateway.
