(* ===== verification/DispatchInvariant.v ===== *)
(** * A directive runs at most once, and is held until it is over

    The invariant of the whole system of Dispatch.v, from the gateway's
    (DispatchProofs.v) and the machine's (Client.v): whatever is cut,
    crashes or restarts, a directive is started at most once, and one the
    machine got, that still runs and nobody asked to stop, is held by the
    machine. A machine that says what it holds from one reading of it loses
    nothing; the code reads its results, then its jobs, and loses a run that
    ends between the two. *)

From S2P Require Import Prelude GoStr Table MachineData Machines Directives MachineMessage MachineTables Lifecycle Gateway Client Dispatch DispatchProofs.
Open Scope string_scope.
Open Scope Z_scope.
Open Scope list_scope.

Section System.
Context `{WireJSON} (cfg : ClientConfig) (callFiles : Directive → list string) (M : string).
Implicit Types (s : Sys) (id : string).

Definition alive s : bool := match sess s with Dead => false | _ => true end.

Definition said (rcv : list string) (m : up_msg) : Prop :=
  match m with UHello a b => ∀ id, id ∈ a ∨ id ∈ b → id ∈ rcv | UResult r => WID r ∈ rcv end.

Record sys_ok s : Prop := {
  s_gw : gw_ok M (received s) (cancels s) (gw s);
  s_once : NoDup (execs s);
  s_execs : ∀ id, id ∈ execs s → id ∈ received s;
  s_client : cl_ok (received s) (over (cancels s) (gdb (gw s))) (alive s) (cl s);
  s_session : ∀ f id, sess s = ReadResults f → id ∈ f → id ∈ received s;
  s_up : ∀ m, m ∈ up s → said (received s) m;
  s_keeping : ∀ d r, (d, r) ∈ keeping s → WID r = DirID d ∧ DirID d ∈ received s;
  s_conn : ∀ c b, conn s = Some (c, b) → c ≠ ""
}.

(** ** The gateway moves *)

Lemma over_tables_mono cxl db db' id : mdb_ok db → tables db db' → over cxl db id → over cxl db' id.
Proof. intros Hok Ht [He|Hc]; [left; by eapply ended_mono|by right]. Qed.

Lemma sys_gw s g : gmove M (received s) (cancels s) (gw s) g → sys_ok s → sys_ok (with_gw s g).
Proof.
  intros [Hg Ht] []. constructor; try done. eapply cl_mono; [|exact s_client0]. intros id.
  apply over_tables_mono; [apply (g_tables _ _ _ _ s_gw0)|exact Ht].
Qed.

Lemma sys_keeping s k : (∀ d r, (d, r) ∈ k → WID r = DirID d ∧ DirID d ∈ received s) → sys_ok s → sys_ok (with_keeping s k).
Proof. intros Hk []. by constructor. Qed.

Lemma sys_client s c : cl_ok (received s) (over (cancels s) (gdb (gw s))) (alive s) c → sys_ok s → sys_ok (with_cl s c).
Proof. intros Hc []. by constructor. Qed.

Lemma sys_up s u : (∀ m, m ∈ u → said (received s) m) → sys_ok s → sys_ok (with_up s u).
Proof. intros Hu []. by constructor. Qed.

Lemma sys_send_up s rs : (∀ r, r ∈ rs → WID r ∈ received s) → sys_ok s → sys_ok (send_up rs s).
Proof.
  intros Hrs Hs. unfold send_up. destruct (sess s); try done. apply sys_up; [|done].
  intros m [Hm|(r & -> & Hr)%list_elem_of_fmap]%elem_of_app; [by apply (s_up s Hs)|by apply Hrs].
Qed.

Lemma sys_conn_ready s c : sys_ok s → ready s = Some c → c ≠ "".
Proof. intros Hs. unfold ready. destruct (conn s) as [[x []]|] eqn:E; try done. intros [= <-]. by eapply s_conn. Qed.

Lemma sys_session_mono s x :
  (∀ f id, x = ReadResults f → id ∈ f → id ∈ received s) → (alive s = alive (with_sess s x)) → sys_ok s → sys_ok (with_sess s x).
Proof. intros Hx Ha []. constructor; try done. by rewrite <- Ha. Qed.

(** ** The connection is cut *)

Lemma filter_true {A} (l : list A) : List.filter (λ _, true) l = l.
Proof. induction l as [|x l IH]; cbn; [done|]. by rewrite IH. Qed.

Lemma gw_cut rcv cxl g o c l :
  (∀ id, id ∈ dir_ids o → id ∈ dir_ids (out g)) → NoDup (dir_ids o ++ rcv) → (∀ id, id ∈ stop_ids o → id ∈ stop_ids (out g)) →
  gw_ok M rcv cxl g → gw_ok M rcv cxl (mkGW (gdb g) (machineID g) (List.filter c (carried g)) l o (calls g)).
Proof.
  intros Hd Hn Hs []. constructor; cbn; try done.
  - intros id [Hid|Hid]%elem_of_app; apply g_sent, elem_of_app; [left; auto|by right].
  - intros id Hid. auto.
  - intros id. unfold carries. cbn. rewrite existsb_exists. intros (x & [Hx _]%filter_In & E). apply g_carried.
    apply existsb_exists. by exists x.
Qed.

Lemma nodup_rcv rcv cxl g : gw_ok M rcv cxl g → NoDup rcv.
Proof. intros []. apply NoDup_app in g_once. tauto. Qed.

Lemma sys_disconnect s x :
  (∀ f, x ≠ ReadResults f) → (match x with Dead => false | _ => true end) = alive s → sys_ok s → sys_ok (disconnect x s).
Proof.
  intros Hx Ha []. constructor; cbn; try done.
  - change (with_carried (with_out (gw s) []) []) with
      (mkGW (gdb (gw s)) (machineID (gw s)) [] (claimed (gw s)) [] (calls (gw s))).
    replace (@nil (string * bool)) with (List.filter (λ _, false) (carried (gw s)))
      by (by induction (carried (gw s))). apply gw_cut; cbn; [set_solver|by eapply nodup_rcv|set_solver|done].
  - unfold alive. cbn. rewrite Ha. done.
  - intros f id ->. by destruct (Hx f).
  - set_solver.
Qed.

(** ** What each side takes *)

Lemma keep_kept size m g d m' g' : keep_result size m g = (Some (d, m'), g') → WID m' = DirID d ∧ DirID d = WID m.
Proof.
  unfold keep_result, GetDirective. destruct (get (WID m) (directives (gdb g))) as [x|] eqn:E; [|done].
  apply get_some in E as [_ E]. change (row_key x) with (DirID x) in E. repeat case_match; try done; intros [= <- <- <-]; try done.
  split; [|done]. rewrite E. apply check_keeps_id.
Qed.

Lemma sys_gateway_takes now size m s s' :
  said (received s) m → sys_ok s → gateway_takes now size m s = Some s' → sys_ok s'.
Proof.
  intros Hm Hs. unfold gateway_takes. destruct m as [running finished|r].
  - destruct (conn s) as [[c []]|] eqn:Ec; try done. intros [= <-]. set (g := reconcile_conn _ _ _ _ _).
    assert (Hc : c ≠ "") by by eapply s_conn.
    assert (Hg : gmove M (received s) (cancels s) (gw s) g).
    { eapply gmove_trans; [apply (gmove_write M _ _ (gw s) DWelcome); [done|cbn; set_solver|apply (s_gw s Hs)]|]. intros Hg _.
      by apply gmove_reconcile. }
    destruct (sys_gw s g Hg Hs). constructor; try done. by intros c' b [= <- <-].
  - destruct (conn s) as [[c []]|] eqn:Ec; try done. destruct (claim (WID r) (gw s)) as [mine g] eqn:E.
    assert (Hg : gmove M (received s) (cancels s) (gw s) g)
      by (replace g with (claim (WID r) (gw s)).2 by (by rewrite E); apply gmove_claim, (s_gw s Hs)).
    destruct mine; [|by intros [= <-]]. destruct (keep_result size r g) as [o g'] eqn:Ek.
    assert (Hg' : gmove M (received s) (cancels s) (gw s) g').
    { eapply gmove_trans; [exact Hg|]. intros Hok _. replace g' with (keep_result size r g).2 by (by rewrite Ek). by apply gmove_keep. }
    destruct o as [[d m]|]; intros [= <-].
    + apply keep_kept in Ek as [E1 E2]. apply sys_keeping; [|by apply sys_gw].
      intros d' r' [Hk|[= -> ->]]%elem_snoc; [by apply (s_keeping s Hs)|]. split; [done|]. rewrite E2. exact Hm.
    + apply sys_gw; [|done]. eapply gmove_trans; [exact Hg'|]. intros Hok _. by apply gmove_release.
Qed.

Lemma sys_machine_takes caps mark_ok m rest s :
  out (gw s) = m :: rest → sess s = Opened → sys_ok s → sys_ok (machine_takes cfg caps mark_ok m (with_gw s (with_out (gw s) rest))).
Proof.
  intros Eo Es Hs. pose proof Hs as []. pose proof s_gw0 as [].
  assert (Hin : ∀ id, id ∈ dir_ids rest → id ∈ dir_ids (out (gw s))) by (intros id Hid; rewrite Eo; destruct m; cbn; set_solver).
  assert (Hst : ∀ id, id ∈ stop_ids rest → id ∈ stop_ids (out (gw s))) by (intros id Hid; rewrite Eo; destruct m; cbn; set_solver).
  assert (Hrest : NoDup (dir_ids rest ++ received s) ∧ (∀ id kind input dl, m = DDirective id kind input dl → id ∉ dir_ids rest ++ received s)).
  { rewrite Eo in g_once. destruct m; cbn in g_once; try by split. apply NoDup_cons in g_once as [Hn ?]. split; [done|]. by intros ? ? ? ? [= <-]. }
  destruct Hrest as [Hrest Hnew].
  assert (Hgw : ∀ cxl, cxl = cancels s → gw_ok M (received s) cxl (with_out (gw s) rest)).
  { intros cxl ->. pose proof (gw_cut _ _ (gw s) rest (λ _, true) (claimed (gw s)) Hin Hrest Hst s_gw0) as Hc.
    replace (List.filter (λ _, true) (carried (gw s))) with (carried (gw s)) in Hc; [done|]. symmetry. apply filter_true. }
  specialize (Hgw _ eq_refl). set (s1 := with_gw s (with_out (gw s) rest)).
  assert (Hs1 : sys_ok s1) by by constructor.
  assert (Hover : ∀ id, id ∈ stop_ids [m] → over (cancels s) (gdb (gw s)) id).
  { intros id Hid. apply g_stops. rewrite Eo. change (m :: rest) with ([m] ++ rest). rewrite stop_ids_app. apply elem_of_app. by left. }
  assert (Ha : alive s = true) by (unfold alive; by rewrite Es).
  destruct m as [|id kind input dl|id text|id|code text]; cbn [machine_takes].
  - apply sys_send_up; [|done]. intros r Hr. apply (c_results _ _ _ _ s_client0). by apply list_elem_of_fmap_2.
  - destruct (start cfg caps mark_ok id kind (cl s1)) as [what c] eqn:E.
    assert (Hid : id ∉ dir_ids rest ++ received s) by by eapply Hnew.
    assert (Hnr : id ∉ received s) by (intros Hr; apply Hid, elem_of_app; by right).
    assert (Hsent : sent_row M (gdb (gw s)) id) by (apply g_sent, elem_of_app; left; rewrite Eo; cbn; by left).
    assert (Hiok : id_ok id = true) by (by destruct Hsent as (? & _ & _ & ? & _)).
    rewrite Ha in s_client0. destruct (cl_start _ _ cfg caps mark_ok id kind (cl s) what c s_client0 Hnr Hiok E) as [Hc Hw].
    set (s2 := mkSys _ _ _ _ c _ _ _ _ _).
    assert (Hs2 : sys_ok s2).
    { constructor; cbn [received gw cancels execs cl sess keeping conn up s2 s1 with_gw].
      - destruct Hgw. constructor; try done.
        + cbn in *. rewrite app_assoc. rewrite Permutation_app_comm. cbn. by constructor.
        + intros x. cbn. rewrite app_assoc. intros [Hx| ->]%elem_snoc; [by apply g_sent0|done].
      - destruct what; [done|done|]. rewrite Permutation_app_comm. cbn. constructor; [|done]. intros Hx. by apply Hnr, s_execs0.
      - intros x. rewrite elem_snoc. destruct what; [by left; apply s_execs0|by left; apply s_execs0|]. rewrite elem_snoc. intros [|]; auto.
      - unfold alive. cbn. rewrite Es. exact Hc.
      - intros f x. by rewrite Es.
      - intros x Hx. specialize (s_up0 x Hx). destruct x as [a b|r]; cbn in *; setoid_rewrite elem_snoc; auto.
      - intros d r Hk. rewrite elem_snoc. destruct (s_keeping0 d r Hk). auto.
      - done. }
    destruct what as [|r|]; [done| |done]. apply sys_send_up; [|done]. intros r' ->%list_elem_of_singleton.
    cbn. rewrite (Hw r eq_refl). apply elem_snoc. by right.
  - apply sys_client; [|done]. apply cl_cancel; [apply Hover; by left|done].
  - apply sys_client; [|done]. apply cl_drop; [apply Hover; by left|done].
  - done.
Qed.

(** ** Every step keeps the invariant *)

Lemma sys_cxl s id : sys_ok s → sys_ok (with_cancels s (cancels s ++ [id])).
Proof.
  intros []. constructor; try done.
  - destruct s_gw0. constructor; try done. intros x Hx. destruct (g_stops x Hx); [by left|]. right. apply elem_snoc. by left.
  - eapply cl_mono; [|exact s_client0]. intros x [|]; [by left|]. right. apply elem_snoc. by left.
Qed.

Lemma sys_ended_client s f :
  (∀ c c', cl_ok (received s) (over (cancels s) (gdb (gw s))) (alive s) c → f c = Some c' →
     cl_ok (received s) (over (cancels s) (gdb (gw s))) (alive s) c') →
  ∀ s', sys_ok s → with_cl s <$> f (cl s) = Some s' → sys_ok s'.
Proof.
  intros Hf s' Hs E. destruct (f (cl s)) as [c|] eqn:Ec; [|done]. injection E as <-. apply sys_client; [|done].
  eapply Hf; [apply (s_client s Hs)|exact Ec].
Qed.

Lemma kept_directive id s d m : find_keeping id s = Some (d, m) → (d, m) ∈ keeping s.
Proof. unfold find_keeping. intros [E _]%find_some. by apply list_elem_of_In. Qed.

Lemma sys_step_ok e s s' : event_ok e s → sys_ok s → sys_step cfg callFiles e s = Some s' → sys_ok s'.
Proof.
  intros Hv Hs E. pose proof (s_gw s Hs) as Hg. destruct e; cbn [sys_step event_ok] in *.
  - injection E as <-. apply sys_gw; [|done]. apply gmove_op; [apply Hv|done].
  - destruct (conn s) eqn:Ec; [done|]. destruct (sess s) eqn:Es; try done. injection E as <-. destruct Hs.
    constructor; cbn; try done; [|set_solver|intros c' b [= <- <-]; apply Hv]. unfold alive in *. cbn. by rewrite Es in s_client0.
  - destruct (sess s) eqn:Es; try done. injection E as <-. apply sys_session_mono; [|by unfold alive; rewrite Es|done].
    intros f id [= <-] Hid. by apply (c_results _ _ _ _ (s_client s Hs)).
  - destruct (sess s) as [| | |f|] eqn:Es; try done. injection E as <-.
    apply sys_session_mono; [done|by unfold alive; cbn; rewrite Es|]. apply sys_up; [|done].
    intros m [Hm| ->]%elem_snoc; [by apply (s_up s Hs)|]. intros id [([i j] & -> & Hj)%list_elem_of_fmap|Hid].
    + by apply (c_jobs _ _ _ _ (s_client s Hs) i j).
    + by apply (s_session s Hs f).
  - destruct (up s) as [|m rest] eqn:Eu; [done|]. eapply sys_gateway_takes; [|apply sys_up|exact E]; [|intros m'|done].
    + cbn. apply (s_up s Hs). rewrite Eu. by left.
    + intros Hm. apply (s_up s Hs). rewrite Eu. by right.
  - destruct (find_keeping id s) as [[d m]|] eqn:Ek; [|done]. injection E as <-. apply kept_directive in Ek.
    destruct (s_keeping s Hs d m Ek) as [Em Er]. apply sys_keeping.
    { intros d' r' [Hk _]%elem_filter. by apply (s_keeping s Hs). }
    apply sys_gw; [|done]. eapply gmove_trans; [apply gmove_end; [|done|done]|intros ? _; by apply gmove_release].
    apply sent_row_in, (g_sent _ _ _ _ Hg), elem_of_app. by right.
  - destruct (List.find _ _) as [d|]; [|done]. destruct (claim id (gw s)) as [mine g] eqn:Ec.
    assert (H1 : gmove M (received s) (cancels s) (gw s) g)
      by (replace g with (claim id (gw s)).2 by (by rewrite Ec); by apply gmove_claim).
    destruct mine; injection E as <-; [|done]. apply sys_gw; [|done]. eapply gmove_trans; [exact H1|]. intros Hok _.
    eapply gmove_trans; [|intros ? _; by apply gmove_release]. unfold retry_kept.
    destruct (unmarshal_message _) as [m|]; [|by apply gmove_refl].
    destruct (String.eqb (WID m) id); [by apply gmove_retry|by apply gmove_refl].
  - injection E as <-. apply sys_gw; [|done]. apply gmove_deliver; [|done]. intros c. by apply sys_conn_ready.
  - destruct (GetDirective id (gdb (gw s))) as [d|] eqn:Ed; [|done].
    destruct (String.eqb_spec (MachineOf d) (machineID (gw s))) as [Em|]; [|done]. injection E as <-. apply sys_gw; [|done].
    apply gmove_deliver_llm; [intros c; by apply sys_conn_ready| |done]. exists d. split; [done|]. by rewrite Em, (g_machine _ _ _ _ Hg).
  - injection E as <-. apply sys_gw; [|done]. by apply gmove_sweep.
  - injection E as <-. apply sys_gw; [|done]. rewrite (g_machine _ _ _ _ Hg). by apply gmove_revoke.
  - destruct (carries (gw s) id) eqn:Ec; [|done]. destruct (_ && _); [|done]. injection E as <-.
    set (s1 := match answer with BeatCanceled => _ | _ => s end). assert (Hs1 : sys_ok s1) by (destruct answer; [done|by apply sys_cxl|done|done]).
    assert (Egw : gw s1 = gw s) by (by destruct answer). apply sys_gw; [|done]. rewrite Egw. rewrite <- Egw.
    apply gmove_heartbeat; [by rewrite Egw| |apply (s_gw s1 Hs1)]. unfold s1. intros ->. cbn. apply elem_snoc. by right.
  - destruct (out (gw s)) as [|m rest] eqn:Eo; [done|]. destruct (sess s) eqn:Es; try done. injection E as <-. by apply sys_machine_takes.
  - eapply (sys_ended_client s (run_save id text e)); [|done|exact E]. intros c c' Hc. by apply cl_run_save.
  - eapply (sys_ended_client s (run_unmark id)); [|done|exact E]. intros c c' Hc. by apply cl_run_unmark.
  - destruct (run_forget id (cl s)) as [[r c]|] eqn:Er; [|done]. injection E as <-. cbn [fst snd].
    destruct (cl_run_forget _ _ _ id (cl s) r c (s_client s Hs) Er) as (Hc & Ei & Hid).
    apply sys_send_up; [|by apply sys_client]. intros r' ->%list_elem_of_singleton. cbn. by rewrite Ei.
  - injection E as <-. apply sys_client; [|done]. apply cl_stop, (s_client s Hs).
  - destruct (sess s) eqn:Es; try done; injection E as <-; apply sys_disconnect; try done; unfold alive; by rewrite Es.
  - injection E as <-. pose proof (cl_crash _ _ _ _ (s_client s Hs)) as Hc.
    pose proof (sys_disconnect s (if alive s then Down else Dead)) as Hd.
    assert (Hs1 : sys_ok (disconnect (if alive s then Down else Dead) s))
      by (apply Hd; [by destruct (alive s)|by destruct (alive s)|done]).
    destruct Hs1. by constructor.
  - destruct (sess s) eqn:Es; try done. injection E as <-. pose proof (s_client s Hs) as Hc. unfold alive in Hc. rewrite Es in Hc.
    apply cl_recover in Hc. destruct Hs. by constructor.
  - injection E as <-. set (x := match sess s with Dead => Dead | _ => Down end).
    assert (Hs1 : sys_ok (disconnect x s))
      by (apply sys_disconnect; [by unfold x; destruct (sess s)|by unfold x, alive; destruct (sess s)|done]).
    apply sys_keeping; [set_solver|]. apply sys_gw; [|done]. set (g := gw (disconnect x s)).
    eapply gmove_trans; [apply (gmove_op M _ _ g 0 OpResetConnections); [done|apply (s_gw _ Hs1)]|].
    intros Hok _. by apply gmove_kept.
Qed.

Lemma init_ok : sys_ok (init M).
Proof.
  constructor; cbn; try (by constructor); try set_solver; constructor; cbn; try done; try set_solver; [apply empty_ok|constructor].
Qed.

Definition reachable : Sys → Prop := star (step cfg callFiles) (init M).

Lemma reachable_sys s : reachable s → sys_ok s.
Proof. intros H1. eapply (star_invariant (step cfg callFiles) sys_ok); [|exact H1|apply init_ok]. intros a b Ha (e & Hv & E). by eapply sys_step_ok. Qed.
End System.
