(* ===== verification/DispatchTheorems.v ===== *)
(** * What the dispatch of directives promises, and where it fails

    At most one run of a directive, the machine's hold on what it got, and the
    hello that loses nothing, on every run of the system of Dispatch.v; the
    hello as the code makes it, that loses a run which has just ended. *)

From S2P Require Import Prelude GoStr Table MachineData Machines Directives MachineMessage MachineTables Lifecycle Gateway Client Dispatch DispatchProofs DispatchInvariant.
Open Scope string_scope.
Open Scope Z_scope.
Open Scope list_scope.

(** ** A reconciliation that leaves a directive alone *)

Lemma sent_other id c db db' :
  phase_of id db = Running true → db' = (MarkDirectiveSent id c db).2 ∨ (∃ i, i ≠ id ∧ db' = (MarkDirectiveSent i c db).2) →
  get id (directives db') = get id (directives db).
Proof.
  unfold phase_of. destruct (get id (directives db)) as [d|] eqn:Hd; [|done]. intros Hp Hi.
  assert (Hu : ∀ i, unsent i d = false).
  { intros i. destruct (unsent i d) eqn:E; [|done]. apply unsent_phase in E as [_ E]. congruence. }
  destruct Hi as [-> |(i & _ & ->)]; cbn; by rewrite (update_get (unsent _) (set_sent c) (directives db) id _), Hd; cbn; rewrite Hu.
Qed.

Lemma sent_kept id i c db : phase_of id db = Running true → get id (directives (MarkDirectiveSent i c db).2) = get id (directives db).
Proof. intros Hp. apply (sent_other id c); [done|]. destruct (decide (i = id)) as [->|]; [by left|right; by exists i]. Qed.

Lemma close_other id i now st err db : i ≠ id → get id (directives (CloseDirective now i st err db).2) = get id (directives db).
Proof.
  intros Hn. cbn. rewrite (update_get (open_row i) _ (directives db) id (set_closed_keeps now st err)).
  destruct (get id (directives db)) as [d|] eqn:Hd; [|done]. cbn. pose proof Hd as [_ Hk]%get_some.
  destruct (open_row i d) eqn:E; [|done]. apply open_row_phase in E as [E _]. congruence.
Qed.

Definition row (id : string) (g : GW) : option Directive := get id (directives (gdb g)).

Lemma send_row id c d g : phase_of id (gdb g) = Running true → row id (send c d g) = row id g.
Proof.
  intros Hp. unfold row, send. destruct (MarkDirectiveSent (DirID d) c (gdb g)) as [sent db] eqn:E.
  assert (Ed : get id (directives db) = get id (directives (gdb g)))
    by (replace db with (MarkDirectiveSent (DirID d) c (gdb g)).2 by (by rewrite E); by apply sent_kept).
  destruct sent; cbn; [|done]. by rewrite attach_tables.
Qed.

Lemma lose_row id now d g : DirID d ≠ id → row id (lose now d g) = row id g.
Proof.
  intros Hn. unfold row, lose. destruct (CloseDirective now (DirID d) DirectiveLost "unknown to its machine" (gdb g)) as [closed db] eqn:E.
  assert (Ed : get id (directives db) = get id (directives (gdb g)))
    by (replace db with (CloseDirective now (DirID d) DirectiveLost "unknown to its machine" (gdb g)).2 by (by rewrite E); by apply close_other).
  by destruct closed.
Qed.

(** A fold that leaves a row alone. *)
Lemma fold_row {A} (f : GW → A → GW) (P : GW → Prop) id (l : list A) g :
  (∀ g x, x ∈ l → P g → row id (f g x) = row id g) → (∀ g g', row id g' = row id g → P g → P g') → P g →
  row id (fold_left f l g) = row id g.
Proof.
  intros Hf HP. revert g. induction l as [|x l IH]; intros g Hg; [done|]. cbn.
  assert (E : row id (f g x) = row id g) by (apply Hf; [by left|done]). rewrite IH; [done| |by eapply HP].
  intros g' y Hy. apply Hf. by right.
Qed.

Lemma same_phase id g g' : row id g' = row id g → phase_of id (gdb g') = phase_of id (gdb g).
Proof. unfold row, phase_of. by intros ->. Qed.

(** A directive that was sent and is listed is left alone by a hello. *)
Lemma reconcile_leaves now c running finished id g :
  phase_of id (gdb g) = Running true → id ∈ running ++ finished →
  row id (reconcile_conn now c running finished g) = row id g.
Proof.
  intros Hp Hin. unfold reconcile_conn. rewrite reconcile_filters. cbn [p_attach p_send p_lost p_cancel p_ack]. cbv zeta.
  set (g1 := fold_left (λ g d, attach d g) _ g). set (g2 := fold_left (λ g x, write (DCancel x "closed") g) _ g1).
  set (g3 := fold_left (λ g x, write (DAck x) g) _ g2). set (g4 := fold_left (λ g d, send c d g) _ g3).
  assert (E1 : row id g1 = row id g).
  { apply (fold_row (λ g d, attach d g) (λ _, True)); [|done..]. intros. unfold row. by rewrite attach_tables. }
  assert (E2 : row id g2 = row id g1) by by apply (fold_row (λ g x, write (DCancel x "closed") g) (λ _, True)).
  assert (E3 : row id g3 = row id g2) by by apply (fold_row (λ g x, write (DAck x) g) (λ _, True)).
  assert (H3 : row id g3 = row id g) by congruence.
  assert (E4 : row id g4 = row id g3).
  { apply (fold_row (λ g d, send c d g) (λ g, phase_of id (gdb g) = Running true)).
    - intros x d _ Hx. by apply send_row.
    - intros x x' E Hx. by rewrite (same_phase id x x' E).
    - by rewrite (same_phase id g g3 H3). }
  rewrite (fold_row (λ g d, lose now d g) (λ _, True)); [congruence| |done..].
  intros x d [_ Hd]%elem_filter _. apply lose_row. intros E. unfold to_lose in Hd.
  apply contains_spec in Hin. rewrite E, Hin in Hd. by rewrite andb_false_r in Hd.
Qed.

(** ** The promises *)

Section Promises.
Context `{WireJSON} (cfg : ClientConfig) (callFiles : Directive → list string) (M : string).

(** C2. Whatever happens (connections cut with the messages in flight, the
    machine that crashes and recovers, the gateway that restarts, a Temporal
    that does not answer, results and acknowledgements that cross), a machine
    starts a directive at most once, and only one the tables hold sent, or
    ended since. One it got that has not ended, and that nobody asked to stop,
    it holds: as a job, as a mark on its disk, or as a result kept; a job or a
    kept result, while the process lives. So a hello that says what the machine
    holds at one moment loses none. *)
Theorem directives_run_once s (Hreach : reachable cfg callFiles M s) :
  NoDup (execs s) ∧
  (∀ id, id ∈ execs s → phase_of id (gdb (gw s)) = Running true ∨ phase_of id (gdb (gw s)) = Ended) ∧
  (∀ id, id ∈ received s → phase_of id (gdb (gw s)) ≠ Ended → id ∉ cancels s →
     holds (cl s) id ∧ (alive s = true → id ∈ running_ids (cl s) ++ finished_ids (cl s))) ∧
  (∀ id now c, alive s = true → id ∈ received s → phase_of id (gdb (gw s)) = Running true → id ∉ cancels s →
     row id (reconcile_conn now c (running_ids (cl s)) (finished_ids (cl s)) (gw s)) = row id (gw s)).
Proof.
  pose proof (reachable_sys cfg callFiles M s Hreach) as Hs.
  assert (Hheld : ∀ id, alive s = true → id ∈ received s → phase_of id (gdb (gw s)) ≠ Ended → id ∉ cancels s →
      id ∈ running_ids (cl s) ++ finished_ids (cl s)).
  { intros id Ha Hid Hp Hc. pose proof (s_client _ s Hs) as Hcl. rewrite Ha in Hcl.
    destruct (alive_held _ _ _ id Hcl Hid) as [[|]|]; done. }
  split; [apply (s_once _ s Hs)|split; [|split]].
  - intros id Hid%(s_execs _ s Hs). apply (sent_phase M), (g_sent _ _ _ _ (s_gw _ s Hs)), elem_of_app. by right.
  - intros id Hid Hp Hc. split; [|by intros; apply Hheld]. destruct (c_held _ _ _ _ (s_client _ s Hs) id Hid) as [[|]|]; done.
  - intros id now c Ha Hid Hp Hc. apply (reconcile_leaves now c _ _ id (gw s) Hp). apply Hheld; try done. by rewrite Hp.
Qed.
End Promises.

(** ** Runs of events *)

Fixpoint run_events `{WireJSON} (cfg : ClientConfig) (callFiles : Directive → list string) (es : list event) (s : Sys) : option Sys :=
  match es with
  | [] => Some s
  | e :: es => match sys_step cfg callFiles e s with Some s => run_events cfg callFiles es s | None => None end
  end.

Fixpoint events_ok `{WireJSON} (cfg : ClientConfig) (callFiles : Directive → list string) (es : list event) (s : Sys) : Prop :=
  match es with
  | [] => True
  | e :: es => event_ok e s ∧ match sys_step cfg callFiles e s with Some s => events_ok cfg callFiles es s | None => False end
  end.

Lemma run_events_star `{WireJSON} cfg callFiles es s s' :
  events_ok cfg callFiles es s → run_events cfg callFiles es s = Some s' → star (step cfg callFiles) s s'.
Proof.
  revert s. induction es as [|e es IH]; intros s; cbn; [intros _ [= ->]; constructor|].
  intros [Hv Hs] E. destruct (sys_step cfg callFiles e s) as [s1|] eqn:E1; [|done].
  apply (star_step _ _ s1); [by exists e|by apply IH].
Qed.

#[export] Instance event_ok_dec e s : Decision (event_ok e s).
Proof. destruct e as [now op| | | | | | | | | | | | | | | | | | | |]; unfold event_ok; try apply _. destruct op; apply _. Defined.

#[export] Instance events_ok_dec `{WireJSON} cfg callFiles es s : Decision (events_ok cfg callFiles es s).
Proof.
  revert s. induction es as [|e es IH]; intros s; [apply _|]. apply and_dec; [apply _|].
  destruct (sys_step cfg callFiles e s) as [s'|]; [exact (IH s')|apply _].
Defined.

(** A machine that runs analyses, enrolled, with a run picked and started. *)
#[local] Instance demo_json : WireJSON :=
  {| marshal_message := λ _, "{}"; unmarshal_message := λ _, None; unmarshal_answer := λ _, None; unmarshal_input := λ _, true;
     unmarshal_failure := λ _, (false, mkFailure "" 0); marshal_failure := λ _, "{}"; refusal_text := λ _, "" |}.
Definition demo_client : ClientConfig := mkConfig ["analyze_repo"] 2 1.
Definition demo_files (_ : Directive) : list string := [].

Definition demo_tables : list event := (λ x, ETable x.1 x.2) <$> take 8 demo_ops.

(** The run goes out and starts; the machine's connection is cut. *)
Definition demo_started : list event :=
  demo_tables ++ [EDial "c-1"; EReadResults; EHello; EGateway 102 10; EClient ["claude-code"] true; EClient ["claude-code"] true; EDisconnect].

(** It dials again, reads its results; the run ends, before the hello. *)
Definition demo_between : list event :=
  demo_started ++ [EDial "c-2"; EReadResults; ERunSave "d1" "" (RunOK "done"); ERunUnmark "d1"; ERunForget "d1"; EHello; EGateway 110 10].

Lemma demo_valid_events : events_ok demo_client demo_files demo_between (init "m1").
Proof. apply (bool_decide_unpack (events_ok demo_client demo_files demo_between (init "m1"))). vm_compute. exact I. Qed.

Definition the_run (s : option Sys) (p : Sys → bool) : bool := match s with Some s => p s | None => false end.

Lemma the_run_some o p : the_run o p = true → ∃ s, o = Some s ∧ p s = true.
Proof. destruct o as [s|]; [by exists s|done]. Qed.

Lemma directives_run_once_witness :
  ∃ s, reachable demo_client demo_files "m1" s ∧ execs s = ["d1"] ∧ NoDup (execs s) ∧
    phase_of "d1" (gdb (gw s)) = Running true ∧ "d1" ∈ running_ids (cl s) ++ finished_ids (cl s).
Proof.
  destruct (the_run_some (run_events demo_client demo_files demo_started (init "m1"))
    (λ s, bool_decide (execs s = ["d1"]) && bool_decide (received s = ["d1"]) && bool_decide (cancels s = []) && alive s &&
          match phase_of "d1" (gdb (gw s)) with Running true => true | _ => false end)) as (s & E & Hs); [vm_compute; reflexivity|].
  rewrite !andb_true_iff, !bool_decide_eq_true in Hs. destruct Hs as [[[[He Hr] Hc] Ha] Hp].
  assert (Hreach : reachable demo_client demo_files "m1" s).
  { apply (run_events_star _ _ demo_started); [|exact E].
    apply (bool_decide_unpack (events_ok demo_client demo_files demo_started (init "m1"))). vm_compute. exact I. }
  destruct (directives_run_once demo_client demo_files "m1" s Hreach) as (H1 & _ & H3 & _).
  assert (Hp' : phase_of "d1" (gdb (gw s)) = Running true) by (destruct (phase_of _ _) as [| |[]|]; done).
  clear E Hp. exists s. split; [exact Hreach|]. split; [exact He|]. split; [exact H1|]. split; [exact Hp'|].
  apply (H3 "d1"); [rewrite Hr; by left|by rewrite Hp'|rewrite Hc; set_solver|exact Ha].
Defined.

(** C38. But the hello, as the code makes it, reads the results kept on the
    disk before it lists the jobs in memory: a run that ends in between is in
    neither list. Its directive is then closed as lost, its activity failed as
    lost, nobody having asked to stop it, while the machine holds its result,
    which said it went well. *)
Theorem finished_run_reported_lost :
  ∃ s d r, reachable demo_client demo_files "m1" s ∧
    execs s = ["d1"] ∧ cancels s = [] ∧
    results (cl s) = [r] ∧ WID r = "d1" ∧ WStatus r = StatusOK ∧ WOutput r = "done" ∧
    get "d1" (directives (gdb (gw s))) = Some d ∧ DirState d = DirectiveLost ∧
    calls (gw s) = [("d1", CompletedError ErrTypeLost "lost" None)].
Proof.
  destruct (run_events demo_client demo_files demo_between (init "m1")) as [s|] eqn:E; [|vm_compute in E; discriminate].
  assert (Hreach : reachable demo_client demo_files "m1" s) by (apply (run_events_star _ _ demo_between); [apply demo_valid_events|exact E]).
  vm_compute in E. injection E as <-. do 3 eexists. split; [exact Hreach|]. vm_compute. split_and!; reflexivity.
Qed.
