(* ===== verification/TokenProtocol.v ===== *)
(** * The rotation of a machine's token, gateway and machine together (src/gateway/conn.go, src/machine/connect/client.go)

    At each connection the gateway gives the machine its next token; the one
    it presented stays valid until the machine confirms it keeps the next. A
    token replaced for good revokes its machine. The connections of one machine
    overlap: a dial on its way, one accepted, the one registered; messages are
    lost, the machine stops between keeping a token and confirming it, and
    everything else happens to the tables meanwhile. *)

From S2P Require Import Prelude GoStr Table MachineData Machines Directives MachineMessage MachineTables Lifecycle.
Open Scope string_scope.
Open Scope Z_scope.
Open Scope list_scope.

(** ** The system *)

(** A connection, from the machine's dial on: its number, what it presents. *)
Record TSys := mkTSys {
  tdb : MDB;
  ttoken : string;                                (** the token on the machine's disk *)
  online : option nat;                            (** the machine's session *)
  dialed : nat;
  requests : list (nat * string);                 (** dials on their way, with their token *)
  accepted : list (nat * string);                 (** upgraded, with the hash presented *)
  active : option (nat * string * option string); (** registered: presented, and the next token's hash once given *)
  newest : nat;                                   (** one more than the last number registered *)
  rotates : list (nat * string);                  (** next tokens on their way to the machine *)
  rotateds : list nat                             (** confirmations on their way to the gateway *)
}.

Definition with_tdb (s : TSys) (db : MDB) : TSys :=
  mkTSys db (ttoken s) (online s) (dialed s) (requests s) (accepted s) (active s) (newest s) (rotates s) (rotateds s).
Definition with_active (s : TSys) (a : option (nat * string * option string)) : TSys :=
  mkTSys (tdb s) (ttoken s) (online s) (dialed s) (requests s) (accepted s) a (newest s) (rotates s) (rotateds s).
Definition with_online (s : TSys) (o : option nat) : TSys :=
  mkTSys (tdb s) (ttoken s) o (dialed s) (requests s) (accepted s) (active s) (newest s) (rotates s) (rotateds s).

Definition drop_num {A} (n : nat) (l : list (nat * A)) : list (nat * A) := List.filter (λ x, negb (Nat.eqb (fst x) n)) l.
Definition find_num {A} (n : nat) (l : list (nat * A)) : option A :=
  match List.find (λ x, Nat.eqb (fst x) n) l with Some x => Some (snd x) | None => None end.

Definition is_online (n : nat) (s : TSys) : bool := match online s with Some m => Nat.eqb m n | None => false end.

Inductive tevent :=
| TTable (now : time) (op : machine_op)
| TDial
| TDrop
| TAccept (now : time) (n : nat)
| TRegister (n : nat) (answers : bool)
| TRotate (next : string)
| TReceive (confirms : bool)
| TConfirm
| TClose.

Definition ReasonTokenReused : string := "jeton remplacé présenté à nouveau : une copie existe".

Section Tokens.
(** SHA-256, in hexadecimal. *)
Variable HashToken : string → string.
Variable M : string.

(** [ServeConnect]: a token replaced for good revokes its machine. *)
Definition ServeConnect (now : time) (n : nat) (token : string) (s : TSys) : TSys :=
  let presented := HashToken token in
  let rest := drop_num n (requests s) in
  let took a db act := mkTSys db (ttoken s) (online s) (dialed s) rest a act (newest s) (rotates s) (rotateds s) in
  match MachineByToken presented (tdb s) with
  | (_, TokenUnknown) | (None, _) => took (accepted s) (tdb s) (active s)
  | (Some m, TokenRetired) =>
      if is_none (RevokedAt m) then took (accepted s) (RevokeMachine now (ID m) ReasonTokenReused (tdb s)).2 None
      else took (accepted s) (tdb s) (active s)
  | (Some m, _) => took (accepted s ++ [(n, presented)]) (tdb s) (active s)
  end.

(** [register]: an older connection that answers its ping is cut with the new
    one; one that does not gives way. *)
Definition register (n : nat) (presented : string) (answers : bool) (s : TSys) : TSys :=
  let took o a := mkTSys (tdb s) (ttoken s) o (dialed s) (requests s) (drop_num n (accepted s)) a (Nat.max (S n) (newest s)) (rotates s) (rotateds s) in
  match active s with
  | None => took (online s) (Some (n, presented, None))
  | Some (m, _, _) =>
      if answers then took (if is_online n s || is_online m s then None else online s) None
      else took (if is_online m s then None else online s) (Some (n, presented, None))
  end.

(** [serve], the rotation: refused, the connection ends. *)
Definition rotate (next : string) (n : nat) (presented : string) (s : TSys) : TSys :=
  match RotateMachineToken M presented (HashToken next) (tdb s) with
  | (inr _, db) =>
      mkTSys db (ttoken s) (online s) (dialed s) (requests s) (accepted s) (Some (n, presented, Some (HashToken next))) (newest s)
        (rotates s ++ [(n, next)]) (rotateds s)
  | (inl _, db) => with_active (with_tdb s db) None
  end.

Definition tstep_of (e : tevent) (s : TSys) : option TSys :=
  match e with
  | TTable now op => Some (with_tdb s (apply_op now op (tdb s)))
  | TDial =>
      match online s with
      | None => Some (mkTSys (tdb s) (ttoken s) (Some (dialed s)) (S (dialed s)) (requests s ++ [(dialed s, ttoken s)]) (accepted s)
                        (active s) (newest s) (rotates s) (rotateds s))
      | Some _ => None
      end
  | TDrop => Some (with_online s None)
  | TAccept now n => (λ token, ServeConnect now n token s) <$> find_num n (requests s)
  | TRegister n answers => (λ presented, register n presented answers s) <$> find_num n (accepted s)
  | TRotate next => match active s with Some (n, presented, None) => Some (rotate next n presented s) | _ => None end
  | TReceive confirms =>
      match online s with
      | Some n =>
          match find_num n (rotates s) with
          | Some next =>
              if String.eqb next "" then None
              else Some (mkTSys (tdb s) next (online s) (dialed s) (requests s) (accepted s) (active s) (newest s)
                           (drop_num n (rotates s)) (if confirms then rotateds s ++ [n] else rotateds s))
          | None => None
          end
      | None => None
      end
  | TConfirm =>
      match active s with
      | Some (n, _, Some hash) =>
          if existsb (Nat.eqb n) (rotateds s) then
            Some (mkTSys (ConfirmMachineToken M hash (tdb s)).2 (ttoken s) (online s) (dialed s) (requests s) (accepted s) (active s) (newest s)
                    (rotates s) (List.filter (λ m, negb (Nat.eqb m n)) (rotateds s)))
          else None
      | _ => None
      end
  | TClose => Some (with_active s None)
  end.

(** The machine's own tokens change by this protocol alone, and its owner does
    not revoke it; a new token is random. *)
Definition about_machine (op : machine_op) : bool :=
  match op with
  | OpRotate id _ _ | OpConfirm id _ | OpRevoke id _ => String.eqb id M
  | _ => false
  end.

Definition tevent_ok (e : tevent) (s : TSys) : Prop :=
  match e with
  | TTable _ op => op_valid op (tdb s) ∧ about_machine op = false
  | TRotate next => HashToken next ≠ "" ∧ HashToken next ∉ tokens (tdb s)
  | _ => True
  end.

(** The gateway takes the connections in the order of their dials: it looks at
    none, and registers none, once a later one was registered. *)
Definition in_order (e : tevent) (s : TSys) : Prop :=
  match e with TAccept _ n | TRegister n _ => (newest s ≤ n)%nat | _ => True end.

Definition tstep (s s' : TSys) : Prop := ∃ e, tevent_ok e s ∧ tstep_of e s = Some s'.
Definition ordered_step (s s' : TSys) : Prop := ∃ e, tevent_ok e s ∧ in_order e s ∧ tstep_of e s = Some s'.

Definition tinit (db : MDB) (token : string) : TSys := mkTSys db token None 0 [] [] None 0 [] [].

(** Its machine enrolled: not revoked, the token one of its two. *)
Definition enrolled (db : MDB) (token : string) : Prop :=
  star table_step emptyMDB db ∧ ∃ r, get M (machines db) = Some r ∧ revoked r = false ∧ HashToken token ∈ tokens_of r.

(** ** The machine's row *)

Definition current (db : MDB) : option string := get M (machines db) ≫= token_hash.

Lemma join_owner {A B} (f : A → list B) (l : list A) a b x :
  NoDup (mjoin (f <$> l)) → a ∈ l → b ∈ l → x ∈ f a → x ∈ f b → a = b.
Proof.
  induction l as [|y l IH]; [set_solver|]. cbn. intros (_ & Hd & Hl)%NoDup_app Ha Hb Hxa Hxb.
  assert (Hin : ∀ z, z ∈ l → x ∈ f z → x ∈ mjoin (f <$> l)).
  { intros z Hz Hx. apply list_elem_of_join. exists (f z). split; [done|]. by apply list_elem_of_fmap_2. }
  apply elem_of_cons in Ha as [->|Ha], Hb as [->|Hb]; [done|exfalso; eapply Hd; eauto..|by apply IH].
Qed.

Lemma token_owner db r r' h : mdb_ok db → r ∈ machines db → r' ∈ machines db → h ∈ tokens_of r → h ∈ tokens_of r' → r = r'.
Proof.
  intros Hok. pose proof (ok_tokens _ Hok) as Hn. unfold tokens in Hn. apply NoDup_app in Hn as (Hn & _). unfold valid_tokens in Hn.
  by apply join_owner.
Qed.

(** A valid token finds its machine. *)
Lemma valid_lookup db r h :
  mdb_ok db → get M (machines db) = Some r → h ∈ tokens_of r →
  ∃ u, MachineByToken h db = (Some (mach r), u) ∧ (u = TokenCurrent ∨ u = TokenPending).
Proof.
  intros Hok Hg Hh. pose proof Hg as [Hr _]%get_some. unfold MachineByToken.
  destruct (List.find (holds_token h) (machines db)) as [r'|] eqn:E.
  - apply find_some in E as [Hr' Hh'%holds_token_spec]. rewrite <- list_elem_of_In in Hr'.
    rewrite (token_owner db r' r h Hok Hr' Hr Hh' Hh). eexists. split; [reflexivity|].
    destruct (String.eqb _ _); auto.
  - apply list_elem_of_In in Hr. pose proof (find_none _ _ E r Hr) as H. apply not_true_iff_false in H. exfalso. apply H.
    by apply holds_token_spec.
Qed.

Lemma row_update db r f :
  KeepsKey f → get M (machines db) = Some r → get M (update_where (has_key M) f (machines db)) = Some (f r).
Proof.
  intros HK Hg. rewrite (update_get (has_key M) f (machines db) M HK), Hg. cbn. pose proof Hg as [_ Hk]%get_some.
  by rewrite (proj2 (has_key_spec M r) Hk).
Qed.

Lemma rotate_row db r presented hash :
  mdb_ok db → get M (machines db) = Some r → revoked r = false → presented ∈ tokens_of r → hash ≠ "" → hash ∉ tokens db →
  ∃ db', RotateMachineToken M presented hash db = (inr tt, db') ∧ get M (machines db') = Some (set_tokens (Some hash) (Some presented) r).
Proof.
  intros Hok Hg Hv Hp Hn Hf. pose proof (row_tokens db Hok M r Hg) as Hne. pose proof Hg as [Hr _]%get_some.
  destruct (live_row_tokens db Hok M r Hg Hv) as (c & Hc & Hcn). unfold RotateMachineToken. rewrite Hg, Hv.
  destruct (rotateTokens _ _ _ _) as [[[c' p] ret]|] eqn:Er.
  2:{ exfalso. revert Er. unfold rotateTokens. revert Hp Hne. unfold tokens_of. rewrite Hc. cbn.
      destruct (String.eqb_spec presented "") as [->|]; [done|]. destruct (String.eqb_spec presented c) as [->|]; cbn; [by destruct (String.eqb _ _)|].
      destruct (prev_token_hash r) as [q|]; cbn; [|set_solver]. intros Hp _. assert (presented = q) as -> by set_solver. by rewrite String.eqb_refl. }
  destruct (rotate_spec db Hok M r presented hash c' p ret Hg Hv Er) as (_ & -> & -> & Hpn & _).
  unfold nullif. destruct (String.eqb_spec presented "") as [|_]; [done|].
  destruct (tokens_taken M (Some hash) (Some presented) (machines db)) eqn:Et.
  - exfalso. unfold tokens_taken in Et. apply existsb_exists in Et as (y & Hy & H). rewrite <- list_elem_of_In in Hy.
    apply andb_true_iff in H as [Hk H]. apply negb_true_iff, not_true_iff_false in Hk. cbn in H.
    apply orb_true_iff in H as [H|H]; apply bool_decide_eq_true in H.
    + apply Hf. unfold tokens. apply elem_of_app. left. apply valid_token_elem. exists y. split; [done|]. unfold tokens_of. rewrite H. by left.
    + apply Hk, has_key_spec. replace y with r; [by apply get_some in Hg as [_ ?]|]. symmetry. apply (token_owner db y r presented Hok Hy Hr); [|done].
      unfold tokens_of. rewrite H. apply elem_of_app. right. by left.
  - eexists. split; [reflexivity|]. cbn. by apply row_update.
Qed.

Lemma confirm_row db r hash :
  mdb_ok db → get M (machines db) = Some r → revoked r = false → token_hash r = Some hash →
  get M (machines (ConfirmMachineToken M hash db).2) = Some (set_prev None r).
Proof.
  intros Hok Hg Hv Hc. unfold ConfirmMachineToken. rewrite Hg, Hv, Hc. destruct (live_row_tokens db Hok M r Hg Hv) as (c & Hc' & Hcn).
  rewrite Hc in Hc'. injection Hc' as <-. unfold confirmToken. cbn. apply String.eqb_neq in Hcn as Hcn'. rewrite Hcn', String.eqb_refl. cbn.
  by destruct (String.eqb (coalesce (prev_token_hash r)) ""); cbn; apply row_update.
Qed.

(** Other operations leave the machine's tokens alone. *)
Definition same_tokens (r r' : MachineRow) : Prop :=
  token_hash r' = token_hash r ∧ prev_token_hash r' = prev_token_hash r ∧ revoked r' = revoked r.

Lemma machine_update_tokens db p f r :
  keeps_identity f → get M (machines db) = Some r →
  ∃ r', get M (machines (with_machines db (update_where p (on_machine f) (machines db)))) = Some r' ∧ same_tokens r r'.
Proof.
  intros Hf Hg. cbn. rewrite (update_get p (on_machine f) (machines db) M (on_machine_keeps f (keeps_id f Hf))), Hg. cbn. eexists. split; [reflexivity|].
  destruct (p r); [|by split_and!]. split_and!; try done. by apply revoked_on_machine.
Qed.

Lemma other_row_tokens db id f r :
  KeepsKey f → String.eqb id M = false → get M (machines db) = Some r → get M (update_where (has_key id) f (machines db)) = Some r.
Proof.
  intros HK Hn Hg. rewrite (update_get (has_key id) f (machines db) M HK), Hg. cbn. pose proof Hg as [_ Hk]%get_some.
  destruct (has_key id r) eqn:E; [|done]. apply has_key_spec in E. apply String.eqb_neq in Hn. congruence.
Qed.

Lemma other_ops now op db r :
  about_machine op = false → get M (machines db) = Some r →
  ∃ r', get M (machines (apply_op now op db)) = Some r' ∧ same_tokens r r'.
Proof.
  intros Hop Hg. assert (Hsame : ∃ r', get M (machines db) = Some r' ∧ same_tokens r r') by (by exists r).
  assert (Hupd : ∀ p f, keeps_identity f →
      ∃ r', get M (machines (update_machine p f db).2) = Some r' ∧ same_tokens r r').
  { intros p f Hf. unfold update_machine. destruct (_ =? _)%nat; [done|]. by apply machine_update_tokens. }
  destruct op; cbn [apply_op]; cbn in Hop; try done; try (apply machine_update_tokens; [by constructor|done]);
    try (apply Hupd; by constructor).
  - unfold CreateMachineEnrollment. by repeat split_match.
  - unfold ApproveDeviceRequest. by repeat split_match.
  - unfold RedeemMachineEnrollment. repeat split_match; try done. exists r. split; [|by split_and!]. cbn.
    by rewrite get_snoc, Hg.
  - unfold RotateMachineToken. repeat split_match; try done; exists r; (split; [|by split_and!]); cbn; by apply other_row_tokens.
  - unfold ConfirmMachineToken. repeat split_match; try done; exists r; (split; [|by split_and!]); cbn; by apply other_row_tokens.
  - unfold MachineConnected. repeat split_match; try done. apply machine_update_tokens; [by constructor|done].
  - unfold RevokeMachine. repeat split_match; try done; exists r; (split; [|by split_and!]); cbn; by apply other_row_tokens.
  - unfold PickMachine. by repeat split_match.
  - unfold CreateLLMDirective. by repeat split_match.
  - unfold StartDirective. by repeat split_match.
  - unfold SaveDirectiveResult. by repeat split_match.
Qed.

(** ** The invariant *)

Implicit Types s : TSys.

Definition cur_is s (h : string) : Prop := current (tdb s) = Some h.

Record tok_ok s : Prop := {
  k_tables : mdb_ok (tdb s);
  k_row : ∃ r, get M (machines (tdb s)) = Some r ∧ revoked r = false ∧ HashToken (ttoken s) ∈ tokens_of r;
  k_online : ∀ n, online s = Some n → dialed s = S n;
  k_requests : ∀ n t, (n, t) ∈ requests s → (n < dialed s)%nat ∧ ((newest s ≤ n)%nat → t = ttoken s);
  k_accepted : ∀ n p, (n, p) ∈ accepted s → (n < dialed s)%nat ∧ ((newest s ≤ n)%nat → p = HashToken (ttoken s));
  k_newest : (newest s ≤ dialed s)%nat;
  k_active : ∀ n p o, active s = Some (n, p, o) → newest s = S n ∧
    match o with
    | None => p = HashToken (ttoken s) ∧ (∀ t, (n, t) ∉ rotates s) ∧ n ∉ rotateds s
    | Some h => cur_is s h
    end;
  k_rotates : ∀ n t, (n, t) ∈ rotates s → (n < newest s)%nat ∧ (newest s = S n → cur_is s (HashToken t));
  k_rotateds : ∀ n, n ∈ rotateds s → (n < newest s)%nat ∧ (newest s = S n → cur_is s (HashToken (ttoken s)))
}.

Lemma find_num_elem {A} n (l : list (nat * A)) x : find_num n l = Some x → (n, x) ∈ l.
Proof.
  unfold find_num. destruct (List.find _ l) as [[m y]|] eqn:E; [|done]. intros [= <-].
  apply find_some in E as [E Hn%Nat.eqb_eq]. cbn in Hn. subst. by apply list_elem_of_In.
Qed.

Lemma drop_num_elem {A} n (l : list (nat * A)) x : x ∈ drop_num n l → x ∈ l.
Proof. unfold drop_num. by intros [? _]%elem_filter. Qed.

(** The tables move, the machine's tokens do not. *)
Lemma tok_tables s db r r' :
  mdb_ok db → get M (machines (tdb s)) = Some r → get M (machines db) = Some r' → same_tokens r r' → tok_ok s → tok_ok (with_tdb s db).
Proof.
  intros Hdb Hg Hg' (Hc & Hp & Hv) []. destruct k_row0 as (x & Hx & Hxv & Hxt). rewrite Hg in Hx. injection Hx as <-.
  assert (E : current db = current (tdb s)) by (unfold current; rewrite Hg, Hg'; exact Hc).
  constructor; cbn; unfold cur_is in *; cbn; rewrite ?E; try done.
  exists r'. split; [done|]. split; [congruence|]. unfold tokens_of in *. by rewrite Hc, Hp.
Qed.

Lemma tok_accept now n s : (newest s ≤ n)%nat → tok_ok s → ∀ t, find_num n (requests s) = Some t → tok_ok (ServeConnect now n t s).
Proof.
  intros Hn Hs t Ht%find_num_elem. pose proof Hs as []. destruct (k_requests0 n t Ht) as [Hnd Htok]. rewrite (Htok Hn).
  destruct k_row0 as (r & Hg & Hv & Hin). destruct (valid_lookup (tdb s) r _ k_tables0 Hg Hin) as (u & E & Hu).
  unfold ServeConnect. rewrite E.
  assert (Hok : tok_ok (mkTSys (tdb s) (ttoken s) (online s) (dialed s) (drop_num n (requests s)) (accepted s ++ [(n, HashToken (ttoken s))])
      (active s) (newest s) (rotates s) (rotateds s))).
  { constructor; cbn; try done; [by exists r|intros m x Hx%drop_num_elem; by apply k_requests0|].
    intros m p [Hp|[= -> ->]]%elem_snoc; [by apply k_accepted0|done]. }
  by destruct Hu as [-> | ->].
Qed.

Lemma tok_register n p answers s :
  (newest s ≤ n)%nat → find_num n (accepted s) = Some p → tok_ok s → tok_ok (register n p answers s).
Proof.
  intros Hn Hp%find_num_elem []. destruct (k_accepted0 n p Hp) as [Hnd Htok]. specialize (Htok Hn).
  assert (En : Nat.max (S n) (newest s) = S n) by lia.
  assert (Hany : ∀ o a, (∀ m, o = Some m → online s = Some m) → (∀ m x y, a = Some (m, x, y) → m = n ∧ x = p ∧ y = None) →
      tok_ok (mkTSys (tdb s) (ttoken s) o (dialed s) (requests s) (drop_num n (accepted s)) a (Nat.max (S n) (newest s)) (rotates s) (rotateds s))).
  { intros o a Ho Ha. constructor; cbn; rewrite ?En; try done; try lia.
    - intros m Hm. by apply k_online0, Ho.
    - intros m t Ht. destruct (k_requests0 m t Ht) as [? Heq]. split; [done|]. intros. apply Heq. lia.
    - intros m q Hq%drop_num_elem. destruct (k_accepted0 m q Hq) as [? Heq]. split; [done|]. intros. apply Heq. lia.
    - intros m x y Hm. destruct (Ha m x y Hm) as (-> & -> & ->). split; [done|]. split_and!; [done| |].
      + intros t Ht%k_rotates0. lia.
      + intros Hr%k_rotateds0. lia.
    - intros m t Ht. destruct (k_rotates0 m t Ht). split; [lia|]. intros. lia.
    - intros m Hm. destruct (k_rotateds0 m Hm). split; [lia|]. intros. lia. }
  unfold register. destruct (active s) as [[[m q] o]|].
  - destruct answers; apply Hany; try done; try (intros x; by destruct (_ || _)); try (intros x; by destruct (is_online m s)).
    by intros ? ? ? [= <- <- <-].
  - apply Hany; [done|]. by intros ? ? ? [= <- <- <-].
Qed.

Lemma tok_rotate next n p s :
  HashToken next ≠ "" → HashToken next ∉ tokens (tdb s) → active s = Some (n, p, None) → tok_ok s → tok_ok (rotate next n p s).
Proof.
  intros Hne Hf Ha Hs. pose proof Hs as []. destruct (k_active0 n p None Ha) as (En & -> & Hr1 & Hr2).
  destruct k_row0 as (r & Hg & Hv & Hin). destruct (rotate_row (tdb s) r _ _ k_tables0 Hg Hv Hin Hne Hf) as (db & E & Hg').
  pose proof (rotate_ok M (HashToken (ttoken s)) (HashToken next) (tdb s) Hne Hf k_tables0) as Hdb. rewrite E in Hdb.
  assert (Ec : current db = Some (HashToken next)) by (unfold current; by rewrite Hg').
  unfold rotate. rewrite E. constructor; cbn; unfold cur_is; cbn; try done.
  - eexists. split; [exact Hg'|]. split; [done|]. unfold tokens_of. cbn. set_solver.
  - intros m q o [= <- <- <-]. done.
  - intros m t [Ht|[= -> ->]]%elem_snoc; [|split; [lia|done]]. destruct (k_rotates0 m t Ht). split; [done|].
    intros Em. assert (m = n) as -> by lia. by destruct (Hr1 t).
  - intros m Hm. destruct (k_rotateds0 m Hm). split; [done|]. intros Em. assert (m = n) as -> by lia. done.
Qed.

Lemma tok_receive n next (confirms : bool) s :
  online s = Some n → find_num n (rotates s) = Some next → tok_ok s →
  tok_ok (mkTSys (tdb s) next (online s) (dialed s) (requests s) (accepted s) (active s) (newest s) (drop_num n (rotates s))
            (if confirms then rotateds s ++ [n] else rotateds s)).
Proof.
  intros Ho Hr%find_num_elem []. pose proof (k_online0 n Ho) as Hd. destruct (k_rotates0 n next Hr) as [Hn Hc].
  assert (En : newest s = S n) by lia. specialize (Hc En).
  constructor; cbn; try done.
  - destruct k_row0 as (r & Hg & Hv & _). exists r. split; [done|]. split; [done|]. unfold cur_is, current in Hc. rewrite Hg in Hc. cbn in Hc.
    unfold tokens_of. rewrite Hc. by left.
  - intros m t Ht. destruct (k_requests0 m t Ht). split; [done|]. lia.
  - intros m q Hq. destruct (k_accepted0 m q Hq). split; [done|]. lia.
  - intros m q o Ha. destruct (k_active0 m q o Ha) as [Em Ho']. split; [done|]. destruct o; [done|]. destruct Ho' as (_ & Hno & _).
    assert (m = n) as -> by lia. by destruct (Hno next).
  - intros m t Ht%drop_num_elem. by apply k_rotates0.
  - intros m Hm. assert (Hm' : m ∈ rotateds s ∨ m = n) by (destruct confirms; [by apply elem_snoc in Hm|by left]).
    destruct Hm' as [Hm'| ->]; [|split; [lia|done]]. destruct (k_rotateds0 m Hm'). split; [done|]. done.
Qed.

(** A confirmation leaves the machine one token, the one on its disk. *)
Lemma confirm_one s n p h :
  active s = Some (n, p, Some h) → n ∈ rotateds s → tok_ok s →
  h = HashToken (ttoken s) ∧
  ∃ r, get M (machines (ConfirmMachineToken M h (tdb s)).2) = Some r ∧ revoked r = false ∧ tokens_of r = [HashToken (ttoken s)].
Proof.
  intros Ha Hn []. destruct (k_active0 n p (Some h) Ha) as [En Hc]. destruct (k_rotateds0 n Hn) as [_ Ht]. specialize (Ht En).
  unfold cur_is in *. rewrite Hc in Ht. injection Ht as ->. split; [done|]. destruct k_row0 as (r & Hg & Hv & _).
  unfold current in Hc. rewrite Hg in Hc. cbn in Hc. exists (set_prev None r).
  split; [by apply confirm_row|]. split; [done|]. unfold tokens_of. cbn. by rewrite Hc.
Qed.

Lemma tok_confirm s n p h :
  active s = Some (n, p, Some h) → n ∈ rotateds s → tok_ok s →
  tok_ok (mkTSys (ConfirmMachineToken M h (tdb s)).2 (ttoken s) (online s) (dialed s) (requests s) (accepted s) (active s) (newest s)
            (rotates s) (List.filter (λ m, negb (Nat.eqb m n)) (rotateds s))).
Proof.
  intros Ha Hn Hs. destruct (confirm_one s n p h Ha Hn Hs) as [-> (r & Hg & Hv & Ht)]. pose proof Hs as [].
  destruct (k_active0 n p _ Ha) as [En Hc].
  assert (E : current (ConfirmMachineToken M (HashToken (ttoken s)) (tdb s)).2 = current (tdb s)).
  { unfold cur_is in Hc. rewrite Hc. unfold current. rewrite Hg. cbn. unfold tokens_of in Ht.
    destruct (token_hash r) as [x|] eqn:Ex; cbn in Ht; [by injection Ht as -> _|].
    destruct k_row0 as (r0 & Hg0 & Hv0 & _). unfold current in Hc. rewrite Hg0 in Hc. cbn in Hc.
    rewrite (confirm_row (tdb s) r0 _ k_tables0 Hg0 Hv0 Hc) in Hg. injection Hg as <-. cbn in Ex. congruence. }
  constructor; cbn; unfold cur_is in *; cbn; rewrite ?E; try done.
  - by apply confirm_ok.
  - exists r. split; [done|]. split; [done|]. rewrite Ht. by left.
  - intros m q o Hm. destruct (k_active0 m q o Hm) as [? Ho]. split; [done|]. destruct o; [done|].
    destruct Ho as (? & ? & Hr). split_and!; try done. by intros [? _]%elem_filter.
  - intros m [Hm _]%elem_filter. by apply k_rotateds0.
Qed.

Lemma tok_step s s' : ordered_step s s' → tok_ok s → tok_ok s'.
Proof.
  intros (e & Hv & Ho & E) Hs. destruct e; cbn [tstep_of tevent_ok in_order] in *.
  - injection E as <-. destruct Hv as [Hv Hop]. destruct (k_row s Hs) as (r & Hg & _).
    destruct (other_ops now op (tdb s) r Hop Hg) as (r' & Hg' & Hsame).
    eapply tok_tables; [|exact Hg|exact Hg'|exact Hsame|done]. apply apply_op_ok; [apply (k_tables s Hs)|done].
  - destruct (online s) eqn:Eo; [done|]. injection E as <-. destruct Hs. constructor; cbn; try done; try lia.
    + by intros n [= <-].
    + intros n t [Ht|[= -> ->]]%elem_snoc; [|split; [lia|done]]. destruct (k_requests0 n t Ht). split; [lia|done].
    + intros n p Hp. destruct (k_accepted0 n p Hp). split; [lia|done].
  - injection E as <-. destruct Hs. by constructor.
  - destruct (find_num n (requests s)) as [t|] eqn:Et; [|done]. injection E as <-. by apply tok_accept.
  - destruct (find_num n (accepted s)) as [p|] eqn:Ep; [|done]. injection E as <-. by apply tok_register.
  - destruct (active s) as [[[n p] [h|]]|] eqn:Ea; try done. injection E as <-. destruct Hv. by apply tok_rotate.
  - destruct (online s) as [n|] eqn:En; [|done]. destruct (find_num n (rotates s)) as [t|] eqn:Et; [|done].
    destruct (String.eqb t ""); [done|]. injection E as <-. rewrite <- En. by apply tok_receive.
  - destruct (active s) as [[[n p] [h|]]|] eqn:Ea; try done. destruct (existsb (Nat.eqb n) (rotateds s)) eqn:Er; [|done].
    injection E as <-. rewrite <- Ea. eapply tok_confirm; [done| |done].
    apply existsb_exists in Er as (m & Hm & ->%Nat.eqb_eq). by apply list_elem_of_In.
  - injection E as <-. destruct Hs. by constructor.
Qed.

Lemma tinit_ok db token : enrolled db token → tok_ok (tinit db token).
Proof.
  intros [Hr Hrow]. constructor; cbn; try done; try set_solver. by apply tables_reachable_ok.
Qed.

(** C8. A machine never loses its place by the rotation of its token, however
    its connections are cut, wherever a message is lost or it stops, and
    whatever else happens to the tables, as long as the gateway takes its
    connections in the order it dialed: the token on its disk is always its
    current one or the one before (valid until the next is confirmed), it is
    never answered as unknown or as replaced, so never revoked for it; and once
    a confirmation is through, it is its only one. *)
Theorem token_never_refused db token s
    (Henrolled : enrolled db token) (Hrun : star (ordered_step) (tinit db token) s) :
  (∃ m use, MachineByToken (HashToken (ttoken s)) (tdb s) = (Some m, use) ∧ (use = TokenCurrent ∨ use = TokenPending) ∧
     ID m = M ∧ RevokedAt m = None) ∧
  (∀ s', tstep_of TConfirm s = Some s' →
     ∃ r, get M (machines (tdb s')) = Some r ∧ tokens_of r = [HashToken (ttoken s')]).
Proof.
  assert (Hs : tok_ok s).
  { eapply (star_invariant (ordered_step) tok_ok); [|exact Hrun|by apply tinit_ok]. intros a b Ha Hab. by eapply tok_step. }
  split.
  - destruct (k_row s Hs) as (r & Hg & Hv & Hin). destruct (valid_lookup (tdb s) r _ (k_tables s Hs) Hg Hin) as (u & E & Hu).
    exists (mach r), u. split_and!; [done|done| |].
    + by apply get_some in Hg as [_ ?].
    + unfold revoked in Hv. by destruct (RevokedAt (mach r)).
  - intros s'. cbn. destruct (active s) as [[[n p] [h|]]|] eqn:Ea; try done.
    destruct (existsb (Nat.eqb n) (rotateds s)) eqn:Er; [|done]. intros [= <-]. cbn.
    apply existsb_exists in Er as (m & Hm & ->%Nat.eqb_eq).
    destruct (confirm_one s m p h Ea ltac:(by apply list_elem_of_In) Hs) as [-> (r & Hr & _ & Ht)]. eauto.
Qed.
End Tokens.

(** ** Runs *)

Fixpoint run_tokens (HashToken : string → string) (M : string) (es : list tevent) (s : TSys) : option TSys :=
  match es with
  | [] => Some s
  | e :: es => match tstep_of HashToken M e s with Some s => run_tokens HashToken M es s | None => None end
  end.

Fixpoint run_ok (ordered : bool) (HashToken : string → string) (M : string) (es : list tevent) (s : TSys) : Prop :=
  match es with
  | [] => True
  | e :: es =>
      tevent_ok HashToken M e s ∧ (ordered = true → in_order e s) ∧
      match tstep_of HashToken M e s with Some s => run_ok ordered HashToken M es s | None => False end
  end.

Lemma run_star_ordered HashToken M es s s' :
  run_ok true HashToken M es s → run_tokens HashToken M es s = Some s' → star (ordered_step HashToken M) s s'.
Proof.
  revert s. induction es as [|e es IH]; intros s; cbn; [intros _ [= ->]; constructor|]. intros (Hv & Ho & H) E.
  destruct (tstep_of HashToken M e s) as [s1|] eqn:E1; [|done]. apply (star_step _ _ s1); [exists e; auto|by apply IH].
Qed.

Lemma run_star_any HashToken M es s s' :
  run_ok false HashToken M es s → run_tokens HashToken M es s = Some s' → star (tstep HashToken M) s s'.
Proof.
  revert s. induction es as [|e es IH]; intros s; cbn; [intros _ [= ->]; constructor|]. intros (Hv & Ho & H) E.
  destruct (tstep_of HashToken M e s) as [s1|] eqn:E1; [|done]. apply (star_step _ _ s1); [by exists e|by apply IH].
Qed.

Definition demo_hash (t : string) : string := "#" +:+ t.
Definition demo_enrolled : MDB :=
  run_ops [(10, OpCreateEnrollment demo_enrollment); (20, OpApprove "e1" "ABC234" "alice" 20);
           (30, OpRedeem EnrollmentDevice "secret" demo_hello "m1" (demo_hash "t0") 30)] emptyMDB.

Lemma demo_enrolled_ok : enrolled demo_hash "m1" demo_enrolled "t0".
Proof.
  split.
  - apply run_star. cbn. repeat split; try done; apply (bool_decide_unpack _); reflexivity.
  - eexists. split; [reflexivity|]. split; [reflexivity|]. by left.
Qed.

(** A session cut before its confirmation is read, then another that goes
    through. *)
Definition demo_rotation : list tevent :=
  [TDial; TAccept 40 0; TRegister 0 true; TRotate "t1"; TReceive false; TDrop; TClose;
   TDial; TAccept 50 1; TRegister 1 true; TRotate "t2"; TReceive true].

#[export] Instance tevent_ok_dec HashToken M e s : Decision (tevent_ok HashToken M e s).
Proof. destruct e; unfold tevent_ok; apply _. Defined.

#[export] Instance run_ok_dec ordered HashToken M es s : Decision (run_ok ordered HashToken M es s).
Proof.
  revert s. induction es as [|e es IH]; intros s; [apply _|]. apply and_dec; [apply _|]. apply and_dec.
  - apply impl_dec; [apply _|]. destruct e; unfold in_order; apply _.
  - destruct (tstep_of HashToken M e s) as [s'|]; [exact (IH s')|apply _].
Defined.

Definition the_end (p : TSys → bool) (o : option TSys) : bool := match o with Some s => p s | None => false end.

Lemma the_end_some p o : the_end p o = true → ∃ s, o = Some s ∧ p s = true.
Proof. destruct o as [s|]; [by exists s|done]. Qed.

Lemma token_never_refused_witness :
  ∃ s, run_tokens demo_hash "m1" demo_rotation (tinit demo_enrolled "t0") = Some s ∧ ttoken s = "t2" ∧
    (∃ m use, MachineByToken (demo_hash (ttoken s)) (tdb s) = (Some m, use) ∧ (use = TokenCurrent ∨ use = TokenPending) ∧
       ID m = "m1" ∧ RevokedAt m = None) ∧
    (∃ s' r, tstep_of demo_hash "m1" TConfirm s = Some s' ∧ get "m1" (machines (tdb s')) = Some r ∧
       tokens_of r = [demo_hash (ttoken s')]).
Proof.
  destruct (the_end_some (λ s, String.eqb (ttoken s) "t2" && negb (is_none (tstep_of demo_hash "m1" TConfirm s)))
    (run_tokens demo_hash "m1" demo_rotation (tinit demo_enrolled "t0"))) as (s & E & [Ht Hc]%andb_true_iff); [vm_compute; reflexivity|].
  destruct (token_never_refused demo_hash "m1" demo_enrolled "t0" s demo_enrolled_ok) as [H1 H2].
  { apply (run_star_ordered _ _ demo_rotation); [|exact E].
    apply (bool_decide_unpack (run_ok true demo_hash "m1" demo_rotation (tinit demo_enrolled "t0"))). vm_compute. exact I. }
  exists s. split; [exact E|]. clear E. split; [by apply String.eqb_eq|]. split; [exact H1|].
  destruct (tstep_of demo_hash "m1" TConfirm s) as [s'|] eqn:Es; [|discriminate Hc].
  destruct (H2 s' eq_refl) as (r & Hr & Ht'). exists s', r. split; [reflexivity|]. split; [exact Hr|exact Ht'].
Defined.

(** A dial the machine gave up, that reaches the gateway after the next one
    went through. *)
Definition demo_late_dial : list tevent :=
  [TDial; TDrop; TDial; TAccept 40 1; TRegister 1 true; TRotate "t1"; TReceive true; TConfirm; TAccept 50 0].

(** A connection accepted, whose hello comes after the next one's token was
    received, and that one is cut before its confirmation. *)
Definition demo_late_hello : list tevent :=
  [TDial; TAccept 40 0; TDrop; TDial; TAccept 41 1; TRegister 1 true; TRotate "t1"; TReceive true; TDrop;
   TRegister 0 false; TRotate "t2"; TDial; TAccept 50 2].

(** The machine ended revoked, for having presented a token it replaced. *)
Definition revoked_for_reuse (s : TSys) : bool :=
  match get "m1" (machines (tdb s)) with
  | Some r => revoked r && String.eqb (RevokedReason (mach r)) ReasonTokenReused
  | None => false
  end.

Lemma late_run es :
  bool_decide (run_ok false demo_hash "m1" es (tinit demo_enrolled "t0")) = true →
  the_end revoked_for_reuse (run_tokens demo_hash "m1" es (tinit demo_enrolled "t0")) = true →
  ∃ s, star (tstep demo_hash "m1") (tinit demo_enrolled "t0") s ∧
    run_tokens demo_hash "m1" es (tinit demo_enrolled "t0") = Some s ∧ revoked_for_reuse s = true.
Proof.
  intros Hv%bool_decide_eq_true (s & E & Hs)%the_end_some. exists s. split; [|done]. by apply (run_star_any _ _ es).
Qed.

(** Out of that order, a machine no one copied is revoked as if its token
    had been: its own dial, late, presents a token since replaced; or an
    earlier connection, its hello late, retires the token the machine has just
    received. *)
Theorem late_connection_revokes :
  (∃ s, star (tstep demo_hash "m1") (tinit demo_enrolled "t0") s ∧
     run_tokens demo_hash "m1" demo_late_dial (tinit demo_enrolled "t0") = Some s ∧ revoked_for_reuse s = true) ∧
  (∃ s, star (tstep demo_hash "m1") (tinit demo_enrolled "t0") s ∧
     run_tokens demo_hash "m1" demo_late_hello (tinit demo_enrolled "t0") = Some s ∧ revoked_for_reuse s = true).
Proof. split; (apply late_run; vm_compute; reflexivity). Qed.
