(* ===== verification/JsonFields.v ===== *)
(** * JSON objects by their fields (encoding/json on maps and raw messages)

    What the code reads of a tool call's input and result without knowing its
    type: an object's fields, each value kept raw. A text is checked first
    (JsonValid.v), so that cutting a value out of it needs no errors of its
    own. A map is written with its keys sorted and its values compacted. *)

From S2P Require Import Prelude GoStr Utf8 Json JsonValid.
Open Scope string_scope.
Open Scope Z_scope.
Open Scope list_scope.

(** ** Reading *)

Inductive cut_mode := Plain | Str | Esc.

Definition opens (c : ascii) : bool := Ascii.eqb c "{" || Ascii.eqb c "[".
Definition closes (c : ascii) : bool := Ascii.eqb c "}" || Ascii.eqb c "]".
Definition stops_scalar (c : ascii) : bool := is_ws c || Ascii.eqb c "," || Ascii.eqb c ":".

(** The value a valid text starts with, and what follows it. *)
Fixpoint cut_value (mode : cut_mode) (depth : nat) (s : string) : string * string :=
  match s with
  | "" => ("", "")
  | String c r =>
      let keep x := (String c x.1, x.2) in
      match mode with
      | Esc => keep (cut_value Str depth r)
      | Str =>
          if Ascii.eqb c bslash then keep (cut_value Esc depth r)
          else if Ascii.eqb c dquote then match depth with O => (String c "", r) | S _ => keep (cut_value Plain depth r) end
          else keep (cut_value Str depth r)
      | Plain =>
          if Ascii.eqb c dquote then keep (cut_value Str depth r)
          else if opens c then keep (cut_value Plain (S depth) r)
          else if closes c then
            match depth with O => ("", s) | S O => (String c "", r) | S d => keep (cut_value Plain d r) end
          else if match depth with O => stops_scalar c | S _ => false end then ("", s)
          else keep (cut_value Plain depth r)
      end
  end.

(** The fields of an object past its opening brace, in the order they come. *)
Fixpoint object_fields (fuel : nat) (s : string) : list (string * string) :=
  match fuel, skip_ws s with
  | S fuel, String c r =>
      if Ascii.eqb c "," then object_fields fuel r
      else if Ascii.eqb c dquote then
        match unquote (String.length r) r with
        | Some (key, rest) =>
            let v := cut_value Plain 0 (skip_ws (drop_str 1 (skip_ws rest))) in
            (key, v.1) :: object_fields fuel v.2
        | None => []
        end
      else []
  | _, _ => []
  end.

(** [json.Unmarshal] into a [map[string]json.RawMessage]: an error, the nil
    map of [null], or the fields. *)
Definition unmarshal_fields (s : string) : option (option (list (string * string))) :=
  if json_valid s then
    match skip_ws s with
    | String c r =>
        if Ascii.eqb c "{" then Some (Some (object_fields (String.length r) r))
        else if Ascii.eqb c "n" then Some None
        else None
    | "" => None
    end
  else None.

(** The map: of two fields with the same key, the last one. *)
Definition map_of (fields : list (string * string)) : gmap string string := list_to_map (reverse fields).

(** [json.Unmarshal] of a value cut out into a bool, a string, or a pointer to
    a string: [null] leaves the first two as they are. *)
Definition unmarshal_bool (now : bool) (raw : string) : option bool :=
  if String.eqb raw "true" then Some true
  else if String.eqb raw "false" then Some false
  else if String.eqb raw "null" then Some now
  else None.

Definition unmarshal_string (now raw : string) : option string := if String.eqb raw "null" then Some now else unmarshal raw.

Definition unmarshal_ptr (raw : string) : option (option string) :=
  if String.eqb raw "null" then Some None else Some <$> unmarshal raw.

(** ** Keys, as encoding/json and strings.EqualFold match them *)

Definition kelvin : Z := 8490.
Definition long_s : Z := 383.

(** A rune's fold, among those an ASCII letter folds to. *)
Definition fold_rune (r : Z) : Z :=
  if (65 <=? r) && (r <=? 90) then r + 32
  else if r =? kelvin then 107
  else if r =? long_s then 115
  else r.

Fixpoint folded (fuel : nat) (s : string) : list Z :=
  match fuel with
  | O => []
  | S fuel =>
      match s with
      | "" => []
      | _ => let '(r, n) := decode_rune s in fold_rune r :: folded fuel (drop_str n s)
      end
  end.

Definition fold_of (s : string) : list Z := folded (String.length s) s.

(** [strings.EqualFold(key, name)], for a name in ASCII. *)
Definition EqualFold (key name : string) : bool := bool_decide (fold_of key = fold_of name).

(** The field of a struct a key decodes into: the one of that name exactly,
    or else the first it folds to. *)
Definition field_named (names : list string) (key : string) : option string :=
  if contains names key then Some key else List.find (EqualFold key) names.

(** [json.Unmarshal] into a struct whose fields have these names: each key that
    names one is decoded by [assign], in the order they come; a value of
    another type is an error. *)
Definition unmarshal_struct {A} (names : list string) (assign : string → string → A → option A) (zero : A) (s : string) : option A :=
  match unmarshal_fields s with
  | None => None
  | Some None => Some zero
  | Some (Some fields) =>
      fold_left (λ acc f, match acc with
                          | None => None
                          | Some a => match field_named names f.1 with Some name => assign name f.2 a | None => Some a end
                          end) fields (Some zero)
  end.

(** ** Writing *)

Definition line_separator (s : string) : option Z :=
  match s with
  | String a (String b (String c _)) =>
      if (byte_of a =? 226) && (byte_of b =? 128) && ((byte_of c =? 168) || (byte_of c =? 169)) then Some (8192 + (byte_of c - 128)) else None
  | _ => None
  end.

(** [appendCompact(src, true)]: no white space out of strings; [<], [>], [&]
    and the line separators escaped. [skip] counts the bytes an escape has
    already written. *)
Fixpoint compact (mode : cut_mode) (skip : nat) (s : string) : string :=
  match s with
  | "" => ""
  | String c r =>
      match skip with
      | S n => compact mode n r
      | O =>
          let mode' :=
            match mode with
            | Esc => Str
            | Str => if Ascii.eqb c bslash then Esc else if Ascii.eqb c dquote then Plain else Str
            | Plain => if Ascii.eqb c dquote then Str else Plain
            end in
          match line_separator s with
          | Some z => u_escape z +:+ compact mode' 2 r
          | None =>
              if match mode with Plain => is_ws c | _ => false end then compact mode' 0 r
              else if Ascii.eqb c "<" || Ascii.eqb c ">" || Ascii.eqb c "&" then u_escape (byte_of c) +:+ compact mode' 0 r
              else String c (compact mode' 0 r)
          end
      end
  end.

Definition Compact (raw : string) : string := compact Plain 0 raw.

Definition key_le (a b : string * string) : bool := str_le a.1 b.1.

Definition sorted_fields (m : gmap string string) : list (string * string) := sort_stable key_le (map_to_list m).

Definition write_field (f : string * string) : string := marshal f.1 +:+ ":" +:+ Compact f.2.

(** [json.Marshal] of a map of raw messages: an error when one is not JSON. *)
Definition marshal_fields (m : gmap string string) : option string :=
  if forallb (λ f, json_valid f.2) (map_to_list m)
  then Some ("{" +:+ String.concat "," (write_field <$> sorted_fields m) +:+ "}")
  else None.

(** ** Examples *)

(** A JSON text written with single quotes. *)
Fixpoint js (s : string) : string :=
  match s with
  | String c r => String (if byte_of c =? 39 then dquote else c) (js r)
  | "" => ""
  end.

Example fields_read :
  unmarshal_fields (js " { 'a' : [1, {'b':'}'}] , 'k\u0065y':'x\'y','a': null }") =
  Some (Some [("a", js "[1, {'b':'}'}]"); ("key", js "'x\'y'"); ("a", "null")]).
Proof. vm_compute. reflexivity. Qed.

Example fields_written :
  marshal_fields (map_of [("b", js " {'x': '<a b>'} "); ("a", "1"); ("b", js "['<', 2]")]) = Some (js "{'a':1,'b':['\u003c',2]}").
Proof. vm_compute. reflexivity. Qed.

Example keys_matched :
  field_named ["agent_chain"; "agent"; "user_id"] ("AGENT") = Some "agent" ∧
  field_named ["agent_chain"; "agent"; "user_id"] ("U" +:+ encode_rune long_s +:+ "er_id") = Some "user_id" ∧
  field_named ["agent_chain"; "agent"; "user_id"] "agents" = None.
Proof. vm_compute. done. Qed.
