(* ===== verification/CallInputs.v ===== *)
(** * A tool call's input and result (src/tool/metadata.go, src/activity/background.go)

    What the dispatch of a call takes out of the model's input (the background
    field), what it puts in for the tool (the call's context, which the model
    must not forge), and how a workflow tool's result is read. *)

From S2P Require Import Prelude GoStr Utf8 Json JsonValid JsonFields.
Open Scope string_scope.
Open Scope Z_scope.
Open Scope list_scope.

(** The text of the error encoding/json gives when it decodes a text into a
    value of a Go type. *)
Class JSONErrors := json_error : string → string → string.

(** ** The background field *)

Definition BackgroundField : string := "background".
Definition ToolKindWorkflow : string := "workflow".

Definition backgroundDescription : string :=
  "Run this call in the background: it starts, you get its task ID at once and your turn goes on, " +:+
  "and when it ends a message brings you its result in a new turn. Use it for long work when the user may have something " +:+
  "else to ask you meanwhile, or when they ask for it. Leave it out to wait for the result, the default.".

(** [hasProperty]: the schema's [properties], decoded into a map. *)
Definition hasProperty (schema name : string) : bool :=
  let assign _ raw (held : option (list (string * string))) :=
    match unmarshal_fields raw with
    | Some (Some fields) => Some (Some (default [] held ++ fields))
    | Some None => Some None
    | None => None
    end in
  match unmarshal_struct ["properties"] assign None schema with
  | Some (Some fields) => bool_decide (is_Some (map_of fields !! name))
  | _ => false
  end.

Definition Backgroundable (kind : string) (private : bool) (schema : string) : bool :=
  String.eqb kind ToolKindWorkflow && negb private && negb (hasProperty schema BackgroundField).

Definition background_property : string :=
  default "" (marshal_fields (map_of [("type", marshal "boolean"); ("description", marshal backgroundDescription)])).

Definition WithBackgroundField (schema : string) : string :=
  match unmarshal_fields schema with
  | Some (Some fields) =>
      let fields := map_of fields in
      let props :=
        match fields !! "properties" with
        | Some raw => match unmarshal_fields raw with Some (Some props) => Some (map_of props) | _ => None end
        | None => Some ∅
        end in
      match props with
      | None => schema
      | Some props =>
          let raw := default "" (marshal_fields (<[BackgroundField := background_property]> props)) in
          default schema (marshal_fields (<[("properties" : string) := raw]> fields))
      end
  | _ => schema
  end.

(** What [TakeBackground] leaves of the input, and whether the model asked for
    the background; or why the call is refused. *)
Definition TakeBackground `{JSONErrors} (input : string) : string + (string * bool) :=
  if index_str (String dquote (BackgroundField +:+ String dquote "")) input <? 0 then inr (input, false)
  else
    match unmarshal_fields input with
    | Some (Some fields) =>
        let fields := map_of fields in
        match fields !! BackgroundField with
        | None => inr (input, false)
        | Some raw =>
            match unmarshal_bool false raw with
            | None => inl (BackgroundField +:+ " must be true or false")
            | Some background =>
                match marshal_fields (delete BackgroundField fields) with
                | None => inl (json_error "json.RawMessage" input)
                | Some out => inr (out, background)
                end
            end
        end
    | _ => inr (input, false)
    end.

(** ** The context of a call *)

Record TurnRef := mkTurnRef { RefSession : string; RefTurn : string }.

Record CallContext := mkContext {
  CtxChain : list string;
  CtxChannel : string;
  CtxChannelID : string;
  CtxAgent : string;
  CtxNotifyQueue : string;
  CtxMemoryVersion : option Z;
  CtxMemoryUnread : bool;
  CtxTurn : option TurnRef;
  CtxCallID : string;
  CtxUserID : string;
  CtxRunSkills : list string
}.

(** [callContextKeys]: the fields' JSON names. *)
Definition callContextKeys : list string :=
  ["agent_chain"; "channel"; "channel_id"; "agent"; "notify_queue"; "memory_version"; "memory_unread"; "turn"; "call_id"; "user_id"; "run_skills"].

Definition isCallContextKey (key : string) : bool := existsb (EqualFold key) callContextKeys.

(** A context as encoding/json writes it: the fields that are not empty. *)
Definition marshal_list (l : list string) : string := "[" +:+ String.concat "," (marshal <$> l) +:+ "]".

Definition marshal_turn (t : TurnRef) : string :=
  "{" +:+ String.concat "," [marshal "session_id" +:+ ":" +:+ marshal (RefSession t); marshal "turn_key" +:+ ":" +:+ marshal (RefTurn t)] +:+ "}".

Definition field_str (key s : string) : list (string * string) := if String.eqb s "" then [] else [(key, marshal s)].
Definition field_list (key : string) (l : list string) : list (string * string) :=
  match l with [] => [] | _ => [(key, marshal_list l)] end.

Definition context_fields (cc : CallContext) : list (string * string) :=
  field_list "agent_chain" (CtxChain cc) ++ field_str "channel" (CtxChannel cc) ++ field_str "channel_id" (CtxChannelID cc) ++
  field_str "agent" (CtxAgent cc) ++ field_str "notify_queue" (CtxNotifyQueue cc) ++
  match CtxMemoryVersion cc with Some v => [("memory_version", itoa v)] | None => [] end ++
  (if CtxMemoryUnread cc then [("memory_unread", "true")] else []) ++
  match CtxTurn cc with Some t => [("turn", marshal_turn t)] | None => [] end ++
  field_str "call_id" (CtxCallID cc) ++ field_str "user_id" (CtxUserID cc) ++ field_list "run_skills" (CtxRunSkills cc).

(** The model's fields but those the context decodes from, then the context's. *)
Definition with_context (fields : gmap string string) (cc : CallContext) : gmap string string :=
  map_of (context_fields cc) ∪ filter (λ f, isCallContextKey f.1 = false) fields.

Definition WithCallContext `{JSONErrors} (input : string) (cc : CallContext) : string + string :=
  match unmarshal_fields input with
  | None => inl ("invalid input: " +:+ json_error "map[string]json.RawMessage" input)
  | Some fields =>
      match marshal_fields (with_context (map_of (default [] fields)) cc) with Some out => inr out | None => inl (json_error "json.RawMessage" input) end
  end.

(** ** Results *)

(** [DecodeResult]. *)
Definition DecodeResult (raw : string) : string * bool :=
  let assign name v (r : option string * bool) :=
    if String.eqb name "content" then (λ c, (c, r.2)) <$> unmarshal_ptr v else (λ b, (r.1, b)) <$> unmarshal_bool r.2 v in
  match unmarshal_struct ["content"; "is_error"] assign (None, false) raw with
  | Some (Some content, isError) => (content, isError)
  | _ => match unmarshal raw with Some text => (text, false) | None => (raw, false) end
  end.

(** What a call of an [agent_<id>] tool says: its task and its model. *)
Definition unmarshal_delegation (raw : string) : option (string * string) :=
  let assign name v (c : string * string) :=
    if String.eqb name "task" then (λ t, (t, c.2)) <$> unmarshal_string c.1 v else (λ m, (c.1, m)) <$> unmarshal_string c.2 v in
  unmarshal_struct ["task"; "model"] assign ("", "") raw.

(** ** A task's summary (src/activity/task.go) *)

Definition maxTaskSummaryRunes : Z := 160.

Fixpoint runes_loop (fuel : nat) (s : string) : list Z :=
  match fuel, s with
  | S fuel, String _ _ => let '(r, n) := decode_rune s in r :: runes_loop fuel (drop_str n s)
  | _, _ => []
  end.

(** [[]rune(s)] and [string(runes)]. *)
Definition runes (s : string) : list Z := runes_loop (String.length s) s.
Definition of_runes (l : list Z) : string := String.concat "" (encode_rune <$> l).

Fixpoint trim_spaces (l : list Z) : list Z :=
  match l with
  | [] => []
  | r :: l => match trim_spaces l with [] => if r =? 32 then [] else [r] | l => r :: l end
  end.

(** [TaskSummary] of an input that is JSON, as those of the tasks are. *)
Definition TaskSummary (input : string) : string :=
  match unmarshal_fields input with
  | Some (Some fs) =>
      let text raw :=
        match unmarshal raw with
        | Some t => let t := String.concat " " (fields t) in if String.eqb t "" then [] else [t]
        | None => []
        end in
      let summary := String.concat (" " +:+ encode_rune 183 +:+ " ") (mjoin ((λ f, text f.2) <$> fs)) in
      let r := runes summary in
      if maxTaskSummaryRunes <? Z.of_nat (length r)
      then of_runes (trim_spaces (take (Z.to_nat (maxTaskSummaryRunes - 1)) r)) +:+ encode_rune 8230
      else summary
  | _ => ""
  end.

(** ** Lemmas *)

Lemma EqualFold_refl key : EqualFold key key = true.
Proof. by apply bool_decide_eq_true. Qed.

Lemma context_keys cc : Forall (λ f, f.1 ∈ callContextKeys) (context_fields cc).
Proof.
  unfold context_fields, field_str, field_list. rewrite !Forall_app.
  repeat split; repeat case_match; repeat constructor; cbn; try apply (bool_decide_unpack _); by vm_compute.
Qed.

Lemma context_key key : key ∈ callContextKeys → isCallContextKey key = true.
Proof. intros Hk. apply existsb_exists. exists key. split; [by apply list_elem_of_In|apply EqualFold_refl]. Qed.

Lemma map_of_in fields key raw : map_of fields !! key = Some raw → (key, raw) ∈ fields.
Proof. intros H%elem_of_list_to_map_2. by rewrite elem_of_reverse in H. Qed.

Lemma field_named_reserved key name : field_named callContextKeys key = Some name → isCallContextKey key = true.
Proof.
  unfold field_named. destruct (contains callContextKeys key) eqn:E.
  - intros _. apply context_key. by apply contains_spec.
  - intros H%List.find_some. destruct H as [Hi He]. apply existsb_exists. eauto.
Qed.

Lemma context_field cc key raw : map_of (context_fields cc) !! key = Some raw → (key, raw) ∈ context_fields cc ∧ key ∈ callContextKeys.
Proof.
  intros H%map_of_in. split; [done|]. pose proof (context_keys cc) as Hk. rewrite Forall_forall in Hk. apply (Hk _ H).
Qed.

Lemma context_key_named key : key ∈ callContextKeys → field_named callContextKeys key = Some key.
Proof. intros H. unfold field_named. by rewrite (proj2 (contains_spec _ _) H). Qed.

(** ** Properties *)

(** C33. The context a tool reads is the workflow's: whatever fields the model
    put in the input, a key of what the tool is given that decodes into a
    field of the context, its case folded or not, is that field's own name and
    holds what the workflow set; a field the workflow left empty has no key;
    and the model's other fields are all there, unchanged. *)
Theorem call_context_sealed fields cc key :
  (∀ name raw, with_context fields cc !! key = Some raw → field_named callContextKeys key = Some name →
     key = name ∧ (name, raw) ∈ context_fields cc) ∧
  (isCallContextKey key = true → with_context fields cc !! key = map_of (context_fields cc) !! key) ∧
  (field_named callContextKeys key = None → with_context fields cc !! key = fields !! key).
Proof.
  assert (Hres : isCallContextKey key = true → with_context fields cc !! key = map_of (context_fields cc) !! key).
  { intros Hk. unfold with_context. destruct (map_of (context_fields cc) !! key) as [raw|] eqn:E.
    - by apply lookup_union_Some_l.
    - rewrite lookup_union_r by done. apply map_lookup_filter_None. right. intros x _ Hx. change (isCallContextKey key = false) in Hx. congruence. }
  split; [|split; [done|]].
  - intros name raw Hr Hn. rewrite (Hres (field_named_reserved _ _ Hn)) in Hr. apply context_field in Hr as [Hin Hk].
    rewrite context_key_named in Hn by done. injection Hn as <-. done.
  - intros Hn. unfold with_context. destruct (map_of (context_fields cc) !! key) as [raw|] eqn:E.
    { apply context_field in E as [_ Hk]. by rewrite context_key_named in Hn. }
    rewrite lookup_union_r by done. destruct (fields !! key) as [raw|] eqn:Ef.
    + apply map_lookup_filter_Some. split; [done|]. change (isCallContextKey key = false). unfold isCallContextKey. unfold field_named in Hn.
      destruct (contains callContextKeys key); [done|]. apply not_true_iff_false. intros (x & Hx & He)%existsb_exists.
      by rewrite (List.find_none _ _ Hn x Hx) in He.
    + apply map_lookup_filter_None. by left.
Qed.

Definition demo_context : CallContext := mkContext ["jarvis"] "web" "" "" "agents" (Some 3) false (Some (mkTurnRef "s" "m1.jarvis")) "c1" "u1" [].

Lemma call_context_sealed_witness :
  with_context (map_of [("User_ID", js "'mallory'"); ("agent", js "'root'"); ("question", js "'why?'")]) demo_context !! "User_ID" = None.
Proof.
  rewrite (proj1 (proj2 (call_context_sealed (map_of [("User_ID", js "'mallory'"); ("agent", js "'root'"); ("question", js "'why?'")])
    demo_context "User_ID"))); vm_compute; reflexivity.
Defined.

#[local] Instance demo_errors : JSONErrors := λ _ _, "".

Example background_taken :
  TakeBackground (js "{'task':'x', 'background' : true}") = inr (js "{'task':'x'}", true) ∧
  TakeBackground (js "{'background':'yes'}") = inl "background must be true or false" ∧
  DecodeResult (js "{'CONTENT':'ok','is_error':true,'more':1}") = ("ok", true) ∧ DecodeResult (js "'plain'") = ("plain", false) ∧
  DecodeResult "[1]" = ("[1]", false) ∧
  hasProperty (WithBackgroundField (js "{'type':'object'}")) BackgroundField = true ∧
  TaskSummary (js "{'repo':'a  b','n':1,'task':'c'}") = "a b " +:+ encode_rune 183 +:+ " c".
Proof. vm_compute. done. Qed.
