(* ===== verification/AgentData.v ===== *)
(** * Data of an agent's run (src/workflow/agent.go, src/activity)

    A run's input, the requests it makes to the model, how its tools are
    dispatched, and Temporal's errors as the code takes them apart. *)

From S2P Require Import Prelude GoStr Utf8 Json Keys Message Convert JsonValid JsonFields CallInputs Gateway Tasks.
Open Scope string_scope.
Open Scope Z_scope.
Open Scope list_scope.

(** ** Errors *)

Inductive TimeoutType := TimeoutStartToClose | TimeoutScheduleToStart | TimeoutScheduleToClose | TimeoutHeartbeat.

(** An error of Temporal's SDK as the chain of what it wraps: each link with
    its [Error()] text. An application error has its type, its message, and
    what its details decode to, as a failure of a machine's model. *)
Inductive link_kind :=
| LActivity
| LChild
| LApplication (type message : string) (details : option LLMFailure)
| LTimeout (t : TimeoutType)
| LCanceled
| LTerminated
| LOther.

Record Link := mkLink { LinkText : string; LinkKind : link_kind }.

Record Err := mkErr { Outer : Link; Wrapped : list Link }.

Definition chain (e : Err) : list Link := Outer e :: Wrapped e.
Definition error_text (e : Err) : string := LinkText (Outer e).

Definition canceledErr : Err := mkErr (mkLink "canceled" LCanceled) [].

(** [errors.As]: the first link of that kind. *)
Definition as_link {A} (f : link_kind → option A) (e : Err) : option A := head (omap (f ∘ LinkKind) (chain e)).

Definition as_application : Err → option (string * string * option LLMFailure) :=
  as_link (λ k, match k with LApplication t m d => Some (t, m, d) | _ => None end).
Definition as_timeout : Err → option TimeoutType := as_link (λ k, match k with LTimeout t => Some t | _ => None end).
Definition as_terminated : Err → option unit := as_link (λ k, match k with LTerminated => Some tt | _ => None end).

(** [temporal.IsCanceledError]. *)
Definition IsCanceledError (e : Err) : bool := existsb (λ l, match LinkKind l with LCanceled => true | _ => false end) (chain e).

Definition timeout_is (t : TimeoutType) (e : Err) : bool :=
  match as_timeout e, t with
  | Some TimeoutHeartbeat, TimeoutHeartbeat | Some TimeoutScheduleToStart, TimeoutScheduleToStart => true
  | _, _ => false
  end.

Definition isScheduleToStartTimeout : Err → bool := timeout_is TimeoutScheduleToStart.

(** What the first activity error of the chain wraps; the chain itself when
    there is none, or it wraps nothing. *)
Fixpoint past_activity (l : list Link) : option (list Link) :=
  match l with
  | [] => None
  | x :: l => match LinkKind x with LActivity => Some l | _ => past_activity l end
  end.

Definition failureText (e : Err) : string :=
  let l := match past_activity (chain e) with Some (x :: l) => x :: l | _ => chain e end in
  match l with
  | x :: _ => match LinkKind x with LApplication _ m _ => m | _ => LinkText x end
  | [] => ""
  end.

Definition failureType (e : Err) : string := match as_application e with Some (t, _, _) => t | None => "" end.

Definition hasErrorType (e : Err) (t : string) : bool :=
  match as_application e with Some (t', _, _) => String.eqb t' t | None => false end.

(** [childFailure]. *)
Definition childFailure (e : Err) : string :=
  match as_application e with
  | Some (_, m, _) => m
  | None =>
      match as_timeout e with
      | Some _ => "it ran out of time"
      | None => match as_terminated e with Some _ => "it was terminated" | None => error_text e end
      end
  end.

(** ** Where the model runs *)

Record LLMMachine := mkLLMMachine { LmID : string; LmName : string; LmModel : string }.

Definition LLMOnMachineNever : string := "never".
Definition LLMOnMachinePrefer : string := "prefer".
Definition LLMOnMachineRequire : string := "require".

Record ChooseMachineOutput := mkChosen { ChosenMachine : option LLMMachine; NoMachine : string; MachinesOff : bool }.

(** ** A run *)

Record RunInput := mkRun {
  RunSession : string;
  RunUserID : string;
  RunUserName : string;
  RunAgent : string;
  RunUserMessage : string;
  RunSystemPrompt : string;
  RunModel : string;
  RunTurnKey : string;
  RunEarlier : list string;
  LoadUserMemory : bool;
  AgentChain : list string;
  RunChannel : string;
  RunChannelID : string;
  SessionTurn : option TurnRef;
  RunPartNote : string;
  RunSignReply : bool;
  RunMachine : option LLMMachine;
  RunExcluded : list string;
  CallPrefix : string
}.

(** ** Tools as a run dispatches them (src/activity/tool_exec.go) *)

Record ToolResolution := mkResolution {
  ResKind : string;
  ResWorkflow : string;
  ResQueue : string;
  ResBackground : bool;
  ResAgent : string;
  ResPrivate : bool;
  ResNeedsContext : bool;
  ResTimeout : Z
}.

(** What a run reads of the tools: their names, in order, and how each is
    dispatched. *)
Record ListToolsOutput := mkTools {
  ToolNames : list string;
  Resolutions : gmap string ToolResolution;
  Refused : string;
  ClosedTools : list string
}.

Definition noResolution : ToolResolution := mkResolution "" "" "" false "" false false 0.

Definition DefaultTimeout : Z := 120 * second.

Record FileRef := mkFileRef { FrID : string; FrName : string; FrContentType : string; FrSize : Z; FrSHA256 : string }.

Record ExecuteToolInput := mkExec {
  ExName : string;
  ExInput : string;
  ExSession : string;
  ExAgent : string;
  ExUser : string;
  ExCall : option CallContext
}.

Record ExecuteToolOutput := mkExecOut { ExContent : string; ExIsError : bool; ExFiles : list FileRef }.

Record LoadSkillsOutput := mkSkills { SkName : string; SkOnMachine : string; SkRunSkills : list string }.

(** ** Calls to the model (src/activity/llm.go) *)

Record PromptRef := mkPrompt {
  Override : string;
  MemoryOf : string;
  PromptUser : string;
  PromptNote : string;
  PromptClosed : list string
}.

Record TurnHistory := mkHistory {
  HistSession : string;
  HistEarlier : list string;
  HistTurn : string;
  Tail : list Message;
  TailStart : Z
}.

Record LLMTurnRequest := mkRequest {
  ReqModel : string;
  ReqAgent : string;
  ReqUser : string;
  ReqTools : list string;
  ReqPrompt : PromptRef;
  ReqMessages : list Message;
  ReqHistory : option TurnHistory
}.

Record PromptMemory := mkPromptMemory { MemoryVersion : option Z; MemoryUnread : bool }.

(** [provider.ChatResponse] and what its prompt held of the memory. *)
Record LLMTurnResponse := mkResponse {
  RespContent : string;
  RespCalls : list ToolCallInfo;
  RespStop : string;
  RespModel : string;
  RespUsage : option Usage;
  RespMemory : PromptMemory
}.

Definition noResponse : LLMTurnResponse := mkResponse "" [] "" "" None (mkPromptMemory None false).

Record MachineCall := mkMachineCall { McRequest : LLMTurnRequest; McMachine : string; McStep : Z; McAttempt : Z }.

Definition ErrContextTooLong : string := "ContextTooLong".
Definition ContextTooLongMessage : string :=
  "La conversation est trop longue pour le modèle : forke-la à partir d'un message récent pour repartir d'un résumé.".

Record PersistContextInput := mkPersist { PcSession : string; PcTurn : string; PcStart : Z; PcMessages : list Message }.

(** ** Bounded results *)

Definition maxToolResultBytes : Z := 96 * 1024.

(** [runeStart]. *)
Definition runeStart (s : string) (i : Z) : nat :=
  if len s <=? i then String.length s else back_to_rune s (Z.to_nat i).

Definition truncateTo (content : string) (max : Z) : string :=
  if len content <=? max then content
  else
    let head := runeStart content (max * 2 / 3) in
    let tail := runeStart content (len content - (max - Z.of_nat head)) in
    let tail := if (tail <=? head)%nat then String.length content else tail in
    let nl := String (byte 10) (String (byte 10) "") in
    take_str head content +:+ nl +:+ "[... " +:+ itoa (Z.of_nat tail - Z.of_nat head) +:+ " bytes omitted, output too large ...]" +:+ nl +:+
    drop_str tail content.

Definition truncateToolResult (content : string) : string := truncateTo content maxToolResultBytes.

(** ** Lemmas: text cut on rune boundaries *)

Lemma back_to_rune_max s j k c : (j ≤ k)%nat → String.get j s = Some c → rune_start c = true → (j ≤ back_to_rune s k)%nat.
Proof.
  intros Hjk Hc Hs. induction k as [|k IH]; [lia|]. cbn [back_to_rune]. destruct (decide (j = S k)) as [->|Hne]; [by rewrite Hc, Hs|].
  assert (Hle : (j ≤ back_to_rune s k)%nat) by (apply IH; lia). destruct (String.get (S k) s) as [c'|]; [|lia]. destruct (rune_start c'); lia.
Qed.

Lemma first_start c s : invalid_start (String c s) = false → rune_start c = true.
Proof.
  unfold invalid_start. intros H. destruct (rune_start c) eqn:E; [done|]. unfold rune_start in E. apply negb_false_iff, Z.eqb_eq in E.
  pose proof (byte_of_range c). assert (128 ≤ byte_of c < 192).
  { pose proof (Z.div_mod (byte_of c) 64 ltac:(done)). pose proof (Z.mod_pos_bound (byte_of c) 64 ltac:(done)). lia. }
  assert (Hd : decode_rune (String c s) = (RuneError, 1%nat)).
  { unfold decode_rune, in_range.
    rewrite (proj2 (Z.ltb_ge (byte_of c) 128)), (proj2 (Z.leb_gt 194 (byte_of c))), (proj2 (Z.leb_gt 224 (byte_of c))),
      (proj2 (Z.leb_gt 240 (byte_of c))) by lia. done. }
  by rewrite Hd in H.
Qed.

Lemma rune_near f s k : valid_loop f s = true → (k < String.length s)%nat →
  ∃ j c, (j ≤ k ≤ j + 3)%nat ∧ String.get j s = Some c ∧ rune_start c = true.
Proof.
  revert s k. induction f as [|f IH]; intros [|c0 s0] k Hf Hk; [cbn in Hk; lia|done|cbn in Hk; lia|].
  cbn [valid_loop] in Hf. set (s := String c0 s0) in *. apply andb_true_iff in Hf as [Hv%negb_true_iff Hr].
  pose proof (decode_rune_size s ltac:(done)) as Hsz. destruct (decide (k < snd (decode_rune s))%nat) as [Hlt|Hge].
  - exists 0%nat, c0. split; [lia|]. split; [done|]. by eapply first_start.
  - destruct (IH (drop_str (snd (decode_rune s)) s) (k - snd (decode_rune s))%nat Hr) as (j & c & Hj & Hc & Hs).
    { rewrite length_drop_str. lia. }
    rewrite get_drop in Hc. exists (snd (decode_rune s) + j)%nat, c. split; [lia|done].
Qed.

Lemma drop_add n k s : drop_str (n + k) s = drop_str k (drop_str n s).
Proof. revert s; induction n as [|n IH]; intros s; [done|]. destruct s; cbn; [by destruct k|apply IH]. Qed.

Lemma drop_all n s : (String.length s ≤ n)%nat → drop_str n s = "".
Proof. revert n; induction s as [|c s IH]; intros [|n] H; cbn in *; try done; [lia|]. apply IH. lia. Qed.

Lemma valid_loop_drop f s k : valid_loop f s = true →
  (k = 0%nat ∨ (String.length s ≤ k)%nat ∨ ∃ c, String.get k s = Some c ∧ rune_start c = true) → valid_utf8 (drop_str k s) = true.
Proof.
  revert s k. induction f as [|f IH]; intros [|c0 s0] k Hf Hk.
  - by destruct k.
  - by destruct k.
  - by destruct k.
  - set (s := String c0 s0) in *. destruct (decide (k = 0%nat)) as [->|Hk0].
    { cbn [drop_str]. by eapply valid_loop_mono; [|exact Hf]. }
    cbn [valid_loop] in Hf. apply andb_true_iff in Hf as [Hv%negb_true_iff Hr]. fold s in Hv, Hr.
    pose proof (decode_rune_size s ltac:(done)) as Hsz. set (n := snd (decode_rune s)) in *.
    destruct (decide (String.length s ≤ k)%nat) as [Hlen|Hlen]; [by rewrite drop_all|].
    assert (n ≤ k)%nat as Hnk.
    { destruct (decide (n ≤ k)%nat); [done|]. exfalso. destruct Hk as [?|[?|(c & Hc & Hs)]]; [done..|].
      rewrite (rune_inside s k c) in Hs; [done|done|done|fold n; lia|done]. }
    replace k with (n + (k - n))%nat by lia. rewrite drop_add. apply IH; [done|].
    destruct Hk as [?|[?|(c & Hc & Hs)]]; [done..|]. right; right. exists c. rewrite get_drop. replace (n + (k - n))%nat with k by lia. done.
Qed.

Lemma runeStart_spec s i : valid_utf8 s = true → 0 ≤ i →
  (runeStart s i ≤ String.length s)%nat ∧ Z.of_nat (runeStart s i) ≤ i ∧ (i ≤ len s → i ≤ Z.of_nat (runeStart s i) + 3) ∧
  (runeStart s i = 0%nat ∨ (String.length s ≤ runeStart s i)%nat ∨ ∃ c, String.get (runeStart s i) s = Some c ∧ rune_start c = true).
Proof.
  intros Hv Hi. unfold runeStart, len. destruct (Z.leb_spec (Z.of_nat (String.length s)) i).
  - split; [lia|]. split; [lia|]. split; [lia|]. right; left. lia.
  - pose proof (back_to_rune_le s (Z.to_nat i)). split; [lia|]. split; [lia|]. split.
    + intros _. destruct (rune_near _ s (Z.to_nat i) Hv ltac:(lia)) as (j & c & Hj & Hc & Hs).
      pose proof (back_to_rune_max s j (Z.to_nat i) c ltac:(lia) Hc Hs). lia.
    + destruct (decide (back_to_rune s (Z.to_nat i) = 0)%nat); [by left|]. right; right.
      destruct (get_lt s (back_to_rune s (Z.to_nat i)) ltac:(lia)) as [c Hc]. exists c. split; [done|].
      destruct (back_to_rune_start s (Z.to_nat i) c) as [?|?]; [..|done]; done || lia.
Qed.

(** ** Properties *)

(** What a tool's result may bring to the conversation is bounded: a text
    over the limit keeps a beginning of at most two thirds of it and an end,
    together three bytes over it at most, cut between runes, with the count of
    what was left out between them; the text stays valid, and a shorter one is
    kept as it is. *)
Theorem tool_result_bounded content max (Hv : valid_utf8 content = true) (Hmax : 0 < max) :
  valid_utf8 (truncateTo content max) = true ∧
  (len content ≤ max → truncateTo content max = content) ∧
  (max < len content → ∃ h t, (h ≤ t ≤ String.length content)%nat ∧ Z.of_nat h ≤ max * 2 / 3 ∧
     Z.of_nat h + (len content - Z.of_nat t) ≤ max + 3 ∧
     truncateTo content max =
       take_str h content +:+ String (byte 10) (String (byte 10) "[... ") +:+ itoa (Z.of_nat t - Z.of_nat h) +:+
       " bytes omitted, output too large ...]" +:+ String (byte 10) (String (byte 10) "") +:+ drop_str t content).
Proof.
  unfold truncateTo. destruct (Z.leb_spec (len content) max) as [Hle|Hgt]; [split; [done|]; split; [done|lia]|]. cbv zeta.
  pose proof (runeStart_spec content (max * 2 / 3) Hv ltac:(apply Z.div_pos; lia)) as (H1 & H2 & _ & H4).
  set (h := runeStart content (max * 2 / 3)) in *.
  assert (Hm : max * 2 / 3 ≤ max) by (apply Z.div_le_upper_bound; lia).
  pose proof (runeStart_spec content (len content - (max - Z.of_nat h)) Hv ltac:(lia)) as (H5 & H6 & H7 & H8).
  set (t0 := runeStart content (len content - (max - Z.of_nat h))) in *.
  set (t := if (t0 <=? h)%nat then String.length content else t0).
  assert (Ht : (h ≤ t ≤ String.length content)%nat ∧ Z.of_nat h + (len content - Z.of_nat t) ≤ max + 3 ∧
    valid_utf8 (drop_str t content) = true).
  { subst t. destruct (Nat.leb_spec t0 h).
    - split; [lia|]. split; [unfold len; lia|]. by rewrite drop_all.
    - split; [lia|]. split; [lia|]. by apply (valid_loop_drop (String.length content)). }
  destruct Ht as (Ht1 & Ht2 & Ht3). split; [|split; [lia|]].
  - assert (Hh : valid_utf8 (take_str h content) = true).
    { destruct H4 as [->|[H4|H4]]; [by destruct content|unfold len in *; lia|]. by apply valid_take; [|right]. }
    apply valid_app; [done|]. apply valid_app; [done|]. apply (valid_app "[... "); [done|].
    assert (Hi : ∀ s, all_digits s = true → valid_utf8 s = true).
    { clear. intros s. unfold valid_utf8. induction s as [|c s IH]; [done|]. cbn [all_digits String.length]. intros [Hc Hs]%andb_true_iff.
      unfold is_digit in Hc. apply andb_true_iff in Hc as [Hc1 Hc2]. cbn [valid_loop]. unfold invalid_start, decode_rune.
      replace (byte_of c <? 128) with true by lia. cbn [fst snd]. specialize (IH Hs). cbn [drop_str]. rewrite IH, andb_true_r.
      rewrite (proj2 (Z.eqb_neq (byte_of c) RuneError)) by (unfold RuneError; lia). done. }
    apply valid_app; [apply Hi, itoa_digits; lia|]. apply valid_app; [done|]. by apply valid_app.
  - intros _. exists h, t. split; [done|]. split; [done|]. done.
Qed.

Lemma tool_result_bounded_witness :
  valid_utf8 (truncateTo ("abcd" +:+ encode_rune 233 +:+ "efghijklm") 6) = true ∧
  truncateTo ("abcd" +:+ encode_rune 233 +:+ "efghijklm") 6 = "abcd" +:+ String (byte 10) (String (byte 10) "[... 9 bytes omitted, output too large ...]") +:+
    String (byte 10) (String (byte 10) "lm").
Proof.
  split; [|vm_compute; reflexivity].
  exact (proj1 (tool_result_bounded ("abcd" +:+ encode_rune 233 +:+ "efghijklm") 6 ltac:(vm_compute; reflexivity) ltac:(lia))).
Defined.
