(* ===== verification/AgentLLM.v ===== *)
(** * The model of a turn, on its author's machine or the server's key (src/workflow/agent_llm.go)

    A run is one coroutine, as a participant is (Participant.v): what comes
    from outside at its n-th wait is an environment. The run's context may be
    cancelled at any wait, for good: an activity or a child asked of a
    cancelled context is not scheduled, and fails as cancelled, unless the
    context is a disconnected one. An activity that only reports, or whose
    failure is only logged, is a step of the trace. *)

From S2P Require Import Prelude GoStr Utf8 Keys Message Convert CallInputs Gateway Tasks Participant AgentData.
Open Scope string_scope.
Open Scope Z_scope.
Open Scope list_scope.

(** ** Constants *)

Definition machineLLMAttempts : nat := 6.
Definition machineLLMFirstWait : Z := 5 * second.
Definition machineLLMMaxWait : Z := 2 * minute.
Definition machineLLMAbsurdWait : Z := hour.

Definition ErrTypeMachineRequired : string := "MachineRequired".
Definition ErrTypeUnreachable : string := "MachineUnreachable".
Definition ErrTypeHandoffFailed : string := "HandoffFailed".
Definition ErrTypeNoGateway : string := "WorkerNoGateway".

Definition MachineRequiredMessage : string :=
  "Cet agent fait tourner son modèle sur la machine de l'auteur du message seulement, et aucune de tes machines n'en offre un en ce moment : " +:+
  "lance agent connect avec ton modèle (--llm-provider, --llm-model, AGENT_CONNECT_LLM_API_KEY), puis renvoie ton message.".
Definition MachinesOffMessage : string :=
  "Cet agent fait tourner son modèle sur la machine de l'auteur du message seulement, et les machines sont désactivées sur cette installation (MACHINES_ENABLED=false) : " +:+
  "un admin doit le régler sur « jamais » ou « de préférence » dans /admin.".
Definition ServerUnreachableMessage : string :=
  "Cet agent fait tourner son modèle sur la machine de l'auteur du message seulement, et le serveur n'a pas pu joindre la passerelle des machines (redémarrage ou panne du serveur) : " +:+
  "ta machine n'y est pour rien, renvoie ton message dans un instant.".

(** ** The run's state and surroundings *)

(** What a child runs: an agent, or a tool's workflow on its input. *)
Inductive ChildWork := SubAgent (i : RunInput) | ToolWorkflow (name input : string).

Record BackgroundTaskInput := mkTaskInput {
  BgSession : string;
  BgAgent : string;
  BgTool : string;
  BgWorkflow : string;
  BgChildID : string;
  BgQueue : string;
  BgInput : ChildWork;
  BgSubAgent : bool
}.

(** An attempt to write messages: an error may come after the write. *)
Inductive persist_outcome := Written | WrittenUnsaid | NotWritten.

Inductive effect :=
| Persist (i : PersistContextInput) (o : persist_outcome)
| SkillsLoaded (agent : string)
| ToolsListed (agent user : string)
| MachineAsked (user : string) (excluded : list string)
| MachineAside (id : string)
| ServerCalled (req : LLMTurnRequest)
| MachineCalled (i : MachineCall)
| Slept (d : Z)
| Noticed (session text agent participant : string)
| AnswerTold (session channel channelID agent content : string)
| CallsTold (session channel channelID : string) (shown : list ToolCallInfo)
| FilesTold (turn : TurnRef) (agent : string) (files : list string)
| ToolRun (queue : string) (timeout : Z) (i : ExecuteToolInput)
| ChildStarted (id queue : string) (c : ChildWork)
| ResultAwaited (callID : string)
| TaskRegistered (t : BackgroundTask)
| TaskLaunched (id : string) (i : BackgroundTaskInput)
| TaskDropped (id : string)
| TaskTold (session task agent : string).

Record Env := mkAgentEnv {
  cancelled : nat → bool;
  persist_result : nat → PersistContextInput → persist_outcome;
  skills_result : nat → Err + LoadSkillsOutput;
  tools_result : nat → Err + ListToolsOutput;
  choose_result : nat → string → list string → Err + ChooseMachineOutput;
  server_result : nat → LLMTurnRequest → Err + LLMTurnResponse;
  machine_result : nat → MachineCall → Err + LLMTurnResponse;
  sleep_result : nat → option Err;
  register_result : nat → BackgroundTask → Err + string;
  launch_result : nat → string → option Err;
  tool_result : nat → ExecuteToolInput → Err + ExecuteToolOutput;
  child_result : nat → ChildWork → Err + string;
  QueueOfCallLLM : string;
  RunWorkflowID : string;
  RunQueue : string
}.

(** [llmRoute]. *)
Record Route := mkRoute {
  Mode : string;
  OnMachine : option LLMMachine;
  Excluded : list string;
  Off : bool;
  Unreached : list string;
  Noting : bool;
  Noted : bool;
  NoteSession : string;
  NoteParticipant : string;
  NoteAgent : string
}.

(** The turn's messages, how many of them were written, the route, what the
    last prompt held of the memory, and the waits and steps so far. *)
Record W := mkW {
  turn : list Message;
  persisted : nat;
  route : Route;
  memory : PromptMemory;
  waits : nat;
  log : list effect
}.

Definition set_turn (l : list Message) (w : W) : W := mkW l (persisted w) (route w) (memory w) (waits w) (log w).
Definition set_persisted (n : nat) (w : W) : W := mkW (turn w) n (route w) (memory w) (waits w) (log w).
Definition set_route (r : Route) (w : W) : W := mkW (turn w) (persisted w) r (memory w) (waits w) (log w).
Definition set_memory (m : PromptMemory) (w : W) : W := mkW (turn w) (persisted w) (route w) m (waits w) (log w).
Definition did (e : effect) (w : W) : W := mkW (turn w) (persisted w) (route w) (memory w) (S (waits w)) (log w ++ [e]).
Definition said (e : effect) (w : W) : W := mkW (turn w) (persisted w) (route w) (memory w) (waits w) (log w ++ [e]).

Definition with_machine (m : option LLMMachine) (off : bool) (r : Route) : Route :=
  mkRoute (Mode r) m (Excluded r) off (Unreached r) (Noting r) (Noted r) (NoteSession r) (NoteParticipant r) (NoteAgent r).
Definition with_noted (b : bool) (r : Route) : Route :=
  mkRoute (Mode r) (OnMachine r) (Excluded r) (Off r) (Unreached r) (Noting r) b (NoteSession r) (NoteParticipant r) (NoteAgent r).
Definition with_excluded (excluded unreached : list string) (r : Route) : Route :=
  mkRoute (Mode r) (OnMachine r) excluded (Off r) unreached (Noting r) (Noted r) (NoteSession r) (NoteParticipant r) (NoteAgent r).
Definition with_note_of (session participant agent : string) (r : Route) : Route :=
  mkRoute (Mode r) (OnMachine r) (Excluded r) (Off r) (Unreached r) true (Noted r) session participant agent.

(** The machine given up: the server's key from now on. *)
Definition to_server (w : W) : W := set_route (with_machine None (Off (route w)) (route w)) w.

Definition app_error (type message : string) : Err :=
  mkErr (mkLink (message +:+ " (type: " +:+ type +:+ ", retryable: false)") (LApplication type message None)) [].

Inductive failure := failurePassing | failureFinal | failureMachine | failureRefused | failureWorker.

(** [machineFailure]: what a failed attempt calls for, and whether the machine
    is set aside. *)
Definition machineFailure (e : Err) : failure * bool :=
  if timeout_is TimeoutHeartbeat e then (failureMachine, true)
  else
    let typed t := hasErrorType e t in
    if typed ErrTypePermanentAPI || typed ErrTypeContextTooLong then (failureFinal, false)
    else if typed ErrTypeUnreachable || typed ErrTypeStopping || typed ErrTypeRevoked then (failureMachine, true)
    else if typed ErrTypeLost || typed ErrTypeHandoffFailed then (failureMachine, false)
    else if typed ErrTypeRefused then (failureRefused, false)
    else if typed ErrTypeNoGateway then (failureWorker, false)
    else (failurePassing, false).

(** The policy's interval before the attempt that follows [attempt]. *)
Fixpoint policy_wait (n : nat) (wait : Z) : Z :=
  match n with
  | O => wait
  | S n => if wait <? machineLLMMaxWait then policy_wait n (wait * 3) else wait
  end.

Definition retryWait (e : Err) (attempt : Z) : Z :=
  let asked :=
    match as_application e with
    | Some (t, _, Some f) =>
        if String.eqb t ErrTypeRetryAfter then
          let d := RetryAfter f in
          if (0 <? d) && (d <=? machineLLMAbsurdWait) then Some (Z.min d machineLLMMaxWait) else None
        else None
    | _ => None
    end in
  match asked with
  | Some d => d
  | None => Z.min (policy_wait (Z.to_nat (attempt - 1)) machineLLMFirstWait) machineLLMMaxWait
  end.

Definition onMachineNote (m : LLMMachine) : string :=
  "modèle sur la machine « " +:+ LmName m +:+ " »" +:+ (if String.eqb (LmModel m) "" then "" else " (" +:+ LmModel m +:+ ")").

(** What [call] returns: the answer, the machine that wrote it, the error. *)
Record CallOut := mkOut { OutResponse : LLMTurnResponse; OutMachine : option LLMMachine; OutErr : option Err }.

Section Route.
Context (env : Env).

(** [ctx.Err() != nil]. *)
Definition ctx_err (w : W) : bool := cancelled env (waits w).

(** An activity, waited for. *)
Definition perform {A} (detached : bool) (e : effect) (k : nat → Err + A) (w : W) : (Err + A) * W :=
  if ctx_err w && negb detached then (inl canceledErr, w) else (k (waits w), did e w).

Definition notify (detached : bool) (e : effect) (w : W) : W := (perform detached e (λ _, inr tt) w).2.

Definition note (detached : bool) (text : string) (w : W) : W :=
  let r := route w in
  if negb (Noting r) || (String.eqb text "" && negb (Noted r)) then w
  else
    let w := notify detached (Noticed (NoteSession r) text (NoteAgent r) (NoteParticipant r)) w in
    set_route (with_noted (negb (String.eqb text "")) (route w)) w.

Definition clearNote (w : W) : W := if Noted (route w) then note (ctx_err w) "" w else w.

(** [choose]: false where none found stops the turn. *)
Definition choose (userID : string) (w : W) : bool * W :=
  let excluded := Excluded (route w) in
  let '(res, w) := perform false (MachineAsked userID excluded) (λ n, choose_result env n userID excluded) w in
  let out := match res with inr out => out | inl _ => mkChosen None "" false end in
  let w := set_route (with_machine (ChosenMachine out) (MachinesOff out) (route w)) w in
  (negb (is_none (ChosenMachine out)) || negb (String.eqb (Mode (route w)) LLMOnMachineRequire), w).

Definition noMachine (w : W) : option Err :=
  let r := route w in
  if negb (String.eqb (Mode r) LLMOnMachineRequire) || ctx_err w then None
  else if Off r then Some (app_error ErrTypeMachineRequired MachinesOffMessage)
  else if negb (bool_decide (Excluded r = [])) && forallb (contains (Unreached r)) (Excluded r)
       then Some (app_error ErrTypeMachineRequired ServerUnreachableMessage)
  else Some (app_error ErrTypeMachineRequired MachineRequiredMessage).

(** [startLLMRoute]: the route, and why the turn stops there. *)
Definition startLLMRoute (input : RunInput) (mode signer : string) (w : W) : option Err * W :=
  let m := if String.eqb mode "" then LLMOnMachineNever else mode in
  let w := set_route (mkRoute m None (RunExcluded input) false [] false false "" "" "") w in
  if String.eqb m LLMOnMachineNever || (String.eqb (RunTurnKey input) "" && bool_decide (AgentChain input = [])) then (None, w)
  else
    let w :=
      if String.eqb (RunTurnKey input) "" then w
      else set_route (with_note_of (RunSession input) (default "" (ParticipantOf (RunWorkflowID env))) signer (route w)) w in
    let '(found, w) :=
      match RunMachine input with
      | Some m => (true, set_route (with_machine (Some m) false (route w)) w)
      | None => choose (RunUserID input) w
      end in
    if negb found then (noMachine w, w)
    else (None, match OnMachine (route w) with Some m => note false (onMachineNote m) w | None => w end).

Definition setAside (id : string) (w : W) : W := notify false (MachineAside id) w.

Definition onServer (req : LLMTurnRequest) (w : W) : CallOut * W :=
  let '(res, w) := perform false (ServerCalled req) (λ n, server_result env n req) w in
  (match res with inr resp => mkOut resp None None | inl e => mkOut noResponse None (Some e) end, w).

(** What follows the last attempt at a step. *)
Definition exhausted (last : option Err) (req : LLMTurnRequest) (w : W) : CallOut * W :=
  if String.eqb (Mode (route w)) LLMOnMachineRequire then (mkOut noResponse (OnMachine (route w)) last, w)
  else
    let name := match OnMachine (route w) with Some m => LmName m | None => "" end in
    onServer req (note false ("modèle de l'installation : la machine « " +:+ name +:+ " » n'a pas répondu") (to_server w)).

(** The machine of the route left, for the turn. *)
Definition exclude (m : LLMMachine) (e : Err) (w : W) : W :=
  let r := route w in
  set_route (with_excluded (Excluded r ++ [LmID m])
               (if hasErrorType e ErrTypeHandoffFailed then Unreached r ++ [LmID m] else Unreached r) r) w.

(** The attempts at a step on the turn's machine: [more] of them, the next being
    the [attempt]-th. *)
Fixpoint attempts (more : nat) (attempt step : Z) (userID : string) (req : LLMTurnRequest) (last : option Err) (w : W) : CallOut * W :=
  match more, OnMachine (route w) with
  | S more, Some m =>
      let i := mkMachineCall req (LmID m) step attempt in
      let '(res, w) := perform false (MachineCalled i) (λ n, machine_result env n i) w in
      match res with
      | inr resp => (mkOut resp (Some m) None, w)
      | inl e =>
          if ctx_err w || IsCanceledError e then (mkOut noResponse (Some m) (Some e), w)
          else
            let required := String.eqb (Mode (route w)) LLMOnMachineRequire in
            match (machineFailure e).1 with
            | failureFinal => (mkOut noResponse (Some m) (Some e), w)
            | failureWorker =>
                if required then (mkOut noResponse (Some m) (Some e), w)
                else onServer req (note false "modèle de l'installation : ce worker n'atteint pas les machines" (to_server w))
            | failureMachine | failureRefused =>
                let w := if (machineFailure e).2 then setAside (LmID m) w else w in
                let w := exclude m e w in
                if required then
                  let '(found, w) := choose userID w in
                  if negb found then (mkOut noResponse None (noMachine w), w)
                  else
                    let w := match OnMachine (route w) with Some m => note false (onMachineNote m) w | None => w end in
                    attempts more (attempt + 1) step userID req (Some e) w
                else
                  onServer req
                    (note false ("modèle de l'installation : la machine « " +:+ LmName m +:+ " » ne répond plus") (to_server w))
            | failurePassing =>
                match more with
                | O => exhausted (Some e) req w
                | S _ =>
                    let d := retryWait e attempt in
                    let '(slept, w) := perform false (Slept d) (λ n, match sleep_result env n with Some e => inl e | None => inr tt end) w in
                    match slept with
                    | inl e => (mkOut noResponse (Some m) (Some e), w)
                    | inr _ => attempts more (attempt + 1) step userID req (Some e) w
                    end
                end
            end
      end
  | _, _ => exhausted last req w
  end.

(** [call]: one step's call to the model. *)
Definition call (step : Z) (userID : string) (req : LLMTurnRequest) (w : W) : CallOut * W :=
  match OnMachine (route w) with
  | None => onServer req w
  | Some _ => attempts machineLLMAttempts 1 step userID req None w
  end.
End Route.

(** [stampAnswer]. *)
Definition stampAnswer (msg : Message) (resp : LLMTurnResponse) (on : option LLMMachine) : Message :=
  let model :=
    match on with
    | Some m => if String.eqb (RespModel resp) "" then LmModel m else RespModel resp
    | None => RespModel resp
    end in
  mkMessage (Role msg) (Content msg) (UserID msg) (AgentID msg) (Author msg) (Kind msg) (ToolCalls msg) (Result msg) (Fork msg) (Task msg)
    model
    (match RespUsage resp with Some u => Some u | None => UsageOf msg end)
    (match on with Some m => LmID m | None => MachineID msg end)
    (match on with Some m => LmName m | None => Machine msg end).
