(* ===== verification/AgentTurn.v ===== *)
(** * An agent's run (src/workflow/agent.go, src/workflow/background.go)

    The loop of a run over its model and its tools: what it asks of the model,
    how it dispatches the calls of an answer and collects their results, what
    it writes and when, and how it ends. *)

From S2P Require Import Prelude GoStr Utf8 Json Keys Message Convert JsonValid CallInputs Gateway Tasks Participant AgentData AgentLLM.
Open Scope string_scope.
Open Scope Z_scope.
Open Scope list_scope.

(** [strconv.Quote], of what the code prints with [%q]. *)
Class GoQuote := quote : string → string.

(** A sub-agent's output as its parent reads it: the JSON text of the output
    is decoded into the type it was encoded from. *)
Class OutputJSON := unmarshal_output : string → option AgentWorkflowOutput.

Definition maxReActIterations : nat := 50.
Definition maxDelegationDepth : nat := 3.

(** ** Outputs *)

Definition exhaustedOutput (newMessages : list Message) : AgentWorkflowOutput :=
  mkAgentOut "" newMessages false false ("stopped after " +:+ itoa (Z.of_nat maxReActIterations) +:+ " iterations without a final answer") "".

Definition cancelledOutput (newMessages : list Message) : AgentWorkflowOutput :=
  mkAgentOut "Agent cancelled." newMessages false true "" "".

Definition AgentNotOpenMessage (agent user : string) : string :=
  if String.eqb user "" then "L'agent " +:+ agent +:+ " ne t'est pas ouvert : un admin peut t'en donner l'accès."
  else "L'agent " +:+ agent +:+ " n'est pas ouvert à " +:+ user +:+ " : un admin peut lui en donner l'accès.".

Definition llmFailure (e : Err) : string :=
  match as_application e with
  | Some (t, m, _) =>
      if String.eqb t ErrContextTooLong then ContextTooLongMessage
      else if String.eqb t ErrTypeMachineRequired then m
      else "call LLM: " +:+ failureText e
  | None => "call LLM: " +:+ failureText e
  end.

Definition failedOutput (newMessages : list Message) (e : Err) : AgentWorkflowOutput :=
  mkAgentOut "" newMessages false false (llmFailure e) (failureType e).

Definition subAgentNotOpen : string := "This agent is not open to the user you are answering: do the work without it.".
Definition subAgentTooLong : string :=
  "The agent stopped without an answer: its conversation grew too long for its model. Give it a smaller task, or fewer and shorter tool outputs to read.".
Definition subAgentMachinesOff : string :=
  "The agent stopped without an answer: it runs its model on the user's machine only, and this installation has its machines off.".
Definition subAgentNoMachine : string :=
  "The agent stopped without an answer: it runs its model on the user's machine only, and none of the user's machines offers one now.".

(** What the parent reads of a sub-agent's output, once decoded. *)
Definition sub_agent_read (out : AgentWorkflowOutput) : option (string * bool) :=
  if negb (String.eqb (Response out) "") then Some (Response out, false)
  else if String.eqb (ErrorType out) ErrContextTooLong then Some (subAgentTooLong, true)
  else if String.eqb (ErrorType out) ErrTypeMachineRequired && String.eqb (OutError out) MachinesOffMessage then Some (subAgentMachinesOff, true)
  else if String.eqb (ErrorType out) ErrTypeMachineRequired then Some (subAgentNoMachine, true)
  else if String.eqb (ErrorType out) AgentNotOpen then Some (subAgentNotOpen, true)
  else if negb (String.eqb (OutError out) "") then Some ("The agent stopped without an answer: " +:+ OutError out, true)
  else None.

Definition subAgentContent `{OutputJSON} (result : string) : string * bool :=
  match unmarshal_output result with
  | Some out => default (result, false) (sub_agent_read out)
  | None => (result, false)
  end.

Definition subAgentCancelled `{OutputJSON} (raw : string) : bool :=
  match unmarshal_output raw with Some out => CancelledRun out | None => false end.

(** ** Delegation *)

Definition arrow : string := " " +:+ encode_rune 8594 +:+ " ".

Definition delegationRefusal `{GoQuote} (chain : list string) (agentID : string) : option string :=
  if contains chain agentID then
    Some ("agent " +:+ quote agentID +:+ " is already in the call chain (" +:+ join arrow chain +:+
          "): delegating to it would loop; answer with what you have")
  else if (maxDelegationDepth <? length chain)%nat then
    Some ("sub-agents are limited to " +:+ itoa (Z.of_nat maxDelegationDepth) +:+ " levels: do the work in this turn")
  else None.

Definition callContext (input : RunInput) (chain : list string) (signer queue : string) : CallContext :=
  mkContext chain (RunChannel input) (RunChannelID input) signer queue None false
    (if String.eqb (RunTurnKey input) "" then SessionTurn input else Some (mkTurnRef (RunSession input) (RunTurnKey input)))
    "" (RunUserID input) [].

Definition for_call (memory : PromptMemory) (callID : string) (cc : CallContext) : CallContext :=
  mkContext (CtxChain cc) (CtxChannel cc) (CtxChannelID cc) (CtxAgent cc) (CtxNotifyQueue cc) (MemoryVersion memory) (MemoryUnread memory)
    (CtxTurn cc) callID (CtxUserID cc) (CtxRunSkills cc).

Definition with_run_skills (skills : list string) (cc : CallContext) : CallContext :=
  mkContext (CtxChain cc) (CtxChannel cc) (CtxChannelID cc) (CtxAgent cc) (CtxNotifyQueue cc) (CtxMemoryVersion cc) (CtxMemoryUnread cc)
    (CtxTurn cc) (CtxCallID cc) (CtxUserID cc) skills.

(** The parent's input as its sub-agents read it: the model's machine now. *)
Definition with_route (r : Route) (i : RunInput) : RunInput :=
  mkRun (RunSession i) (RunUserID i) (RunUserName i) (RunAgent i) (RunUserMessage i) (RunSystemPrompt i) (RunModel i) (RunTurnKey i)
    (RunEarlier i) (LoadUserMemory i) (AgentChain i) (RunChannel i) (RunChannelID i) (SessionTurn i) (RunPartNote i) (RunSignReply i)
    (OnMachine r) (Excluded r) (CallPrefix i).

Definition subAgentInput `{JSONErrors} (rawInput : string) (parent : RunInput) (childID : string) (res : ToolResolution)
    (cc : CallContext) (currentAgentID : string) : string + RunInput :=
  match unmarshal_delegation rawInput with
  | None => inl ("invalid input: " +:+ json_error "struct" rawInput)
  | Some (task, model) =>
      if String.eqb (trim_space task) "" then inl "task is required: describe what the agent should do"
      else if String.eqb (ResAgent res) currentAgentID then inl "an agent cannot delegate to itself: do the work in this turn"
      else inr (mkRun childID (RunUserID parent) "" (ResAgent res) task "" (if String.eqb model "" then RunModel parent else model) "" []
                  false (CtxChain cc) (RunChannel parent) (RunChannelID parent) (CtxTurn cc) "" (RunSignReply parent) (RunMachine parent)
                  (RunExcluded parent) (CtxCallID cc +:+ "/"))
  end.

(** The child's work, and the queue it runs on. *)
Definition buildChildInput `{JSONErrors} (rawInput : string) (parent : RunInput) (childID : string) (res : ToolResolution)
    (cc : CallContext) (currentAgentID currentQueue : string) : string + (ChildWork * string) :=
  if negb (String.eqb (ResAgent res) "") then
    match subAgentInput rawInput parent childID res cc currentAgentID with
    | inl e => inl e
    | inr i => inr (SubAgent i, currentQueue)
    end
  else if ResNeedsContext res then
    match WithCallContext rawInput cc with
    | inl e => inl e
    | inr input => inr (ToolWorkflow (ResWorkflow res) input, ResQueue res)
    end
  else inr (ToolWorkflow (ResWorkflow res) rawInput, ResQueue res).

(** ** Background tasks *)

(** [newBackgroundStart]: the task, and what its workflow runs. *)
Definition newBackgroundStart `{JSONErrors} (input : RunInput) (tool toolInput callID taskID childID queue : string) (c : ChildWork)
    (subAgent : bool) : string + (BackgroundTask * BackgroundTaskInput) :=
  let encodes := match c with SubAgent _ => true | ToolWorkflow _ raw => json_valid raw end in
  if negb encodes then inl ("encode the task's input: " +:+ json_error "json.RawMessage" toolInput)
  else
    inr (mkTask taskID (RunSession input) (RunAgent input) (RunUserID input) (RunUserName input) tool (TaskSummary toolInput) (RunTurnKey input)
           callID (RunChannel input) (RunChannelID input) "" 0 None "" 0 "" None None [],
         mkTaskInput (RunSession input) (RunAgent input) tool (match c with SubAgent _ => "AgentWorkflow" | ToolWorkflow name _ => name end)
           childID queue c subAgent).

(** ** One answer's calls *)

(** What became of a call: refused, or what its result is awaited from.
    [sent] is false when the run was cancelled already: nothing was scheduled. *)
Inductive dispatch :=
| Unavailable (why : string)
| InBackground (t : BackgroundTask)
| OnWorkflow (c : ChildWork) (sent : bool)
| OnActivity (i : ExecuteToolInput) (queue : string) (sent : bool).

Section Run.
Context (env : Env) {JE : JSONErrors} {GQ : GoQuote} {OJ : OutputJSON}.
Context (input : RunInput) (currentChain : list string) (toolList : ListToolsOutput) (cc0 : CallContext).

Definition currentAgentID : string := RunAgent input.

(** [launch]: the task recorded, then its workflow started, from a context
    disconnected from the run's. *)
Definition launch (t : BackgroundTask) (i : BackgroundTaskInput) (w : W) : dispatch * W :=
  let '(res, w) := perform env true (TaskRegistered t) (λ n, register_result env n t) w in
  match res with
  | inl e => (Unavailable ("The background task could not be recorded: " +:+ failureText e), w)
  | inr refused =>
      if negb (String.eqb refused "") then (Unavailable refused, w)
      else (InBackground t, said (TaskLaunched (TaskID t) i) w)
  end.

Definition send_child (id queue : string) (c : ChildWork) (w : W) : dispatch * W :=
  if ctx_err env w then (OnWorkflow c false, w) else (OnWorkflow c true, said (ChildStarted id queue c) w).

Definition send_activity (i : ExecuteToolInput) (res : ToolResolution) (w : W) : dispatch * W :=
  let timeout := if ResTimeout res <=? 0 then DefaultTimeout else ResTimeout res in
  if ctx_err env w then (OnActivity i (ResQueue res) false, w)
  else (OnActivity i (ResQueue res) true, said (ToolRun (ResQueue res) timeout i) w).

(** The input the tool reads, and whether the call runs in the background. *)
Definition take_background (res : ToolResolution) (raw : string) : string + (string * bool) :=
  if ResBackground res then
    match TakeBackground raw with
    | inl e => inl e
    | inr (toolInput, background) =>
        if background && String.eqb (RunTurnKey input) "" then
          inl "background tasks are launched from a session's turn only: make this call without background, and wait for its result"
        else inr (toolInput, background)
    end
  else inr (raw, false).

Definition dispatch_workflow (i j : Z) (tc : ToolCallInfo) (res : ToolResolution) (toolInput : string) (background : bool) (cc : CallContext)
    (w : W) : dispatch * W :=
  let turnID := RunWorkflowID env in
  let taskID := if background then BackgroundTaskID turnID (callKey (InfoID tc) i j) else "" in
  let id := childWorkflowID (if background then taskID else turnID) (InfoName tc) (InfoID tc) i j in
  match buildChildInput toolInput (with_route (route w) input) id res cc currentAgentID (RunQueue env) with
  | inl e => (Unavailable e, w)
  | inr (c, queue) =>
      let agent := negb (String.eqb (ResAgent res) "") in
      match (if agent then delegationRefusal currentChain (ResAgent res) else None) with
      | Some why => (Unavailable why, w)
      | None =>
          if background then
            match newBackgroundStart input (InfoName tc) toolInput (CtxCallID cc) taskID id queue c agent with
            | inl e => (Unavailable e, w)
            | inr (t, bi) => launch t bi w
            end
          else send_child id queue c w
      end
  end.

Definition dispatch_call (i j : Z) (tc : ToolCallInfo) (w : W) : dispatch * W :=
  match Resolutions toolList !! InfoName tc with
  | None => (Unavailable ("Tool " +:+ quote (InfoName tc) +:+ " is not available to this agent."), w)
  | Some res =>
      let cc := for_call (memory w) (CallPrefix input +:+ callKey (InfoID tc) i j) cc0 in
      match take_background res (InfoInput tc) with
      | inl e => (Unavailable e, w)
      | inr (toolInput, background) =>
          if String.eqb (ResKind res) ToolKindWorkflow then dispatch_workflow i j tc res toolInput background cc w
          else
            send_activity (mkExec (InfoName tc) toolInput (RunSession input) currentAgentID (RunUserID input)
              (if ResNeedsContext res then Some cc else None)) res w
      end
  end.

Fixpoint dispatch_all (i j : Z) (calls : list ToolCallInfo) (w : W) : list dispatch * W :=
  match calls with
  | [] => ([], w)
  | tc :: calls =>
      let '(d, w) := dispatch_call i j tc w in
      let '(ds, w) := dispatch_all i (j + 1) calls w in
      (d :: ds, w)
  end.

(** A future's result, once awaited; one not scheduled is cancelled. *)
Definition get_future {A} (callID : string) (sent : bool) (k : nat → Err + A) (w : W) : (Err + A) * W :=
  if sent then perform env true (ResultAwaited callID) k w else (inl canceledErr, w).

(** [started]: what the model reads of a task launched. *)
Definition started (t : BackgroundTask) (w : W) : string * bool * W :=
  let '(res, w) := perform env true (ResultAwaited (TaskID t))
    (λ n, match launch_result env n (TaskID t) with Some e => inl e | None => inr tt end) w in
  match res with
  | inl e => ("The background task could not start: " +:+ failureText e, true, notify env true (TaskDropped (TaskID t)) w)
  | inr _ =>
      ("Background task started, ID " +:+ TaskID t +:+ ". Its result will reach you in a message when it ends, in a new turn: " +:+
       "do not wait for it, nor start it again. Tell the user it runs.", false,
       notify env true (TaskTold (SessionID t) (TaskID t) (TaskParticipant t)) w)
  end.

(** What a call gives: its content, whether it is an error, its files. *)
Definition collect_call (tc : ToolCallInfo) (d : dispatch) (w : W) : string * bool * list FileRef * W :=
  match d with
  | Unavailable why => (why, true, [], w)
  | InBackground t => let '(content, isError, w) := started t w in (content, isError, [], w)
  | OnWorkflow c sent =>
      let '(res, w) := get_future (InfoID tc) sent (λ n, child_result env n c) w in
      match res with
      | inl e => ("Workflow failed: " +:+ error_text e, true, [], w)
      | inr raw =>
          let r := match c with SubAgent _ => subAgentContent raw | ToolWorkflow _ _ => DecodeResult raw end in
          (r.1, r.2, [], w)
      end
  | OnActivity i queue sent =>
      let '(res, w) := get_future (InfoID tc) sent (λ n, tool_result env n i) w in
      match res with
      | inl e =>
          ((if isScheduleToStartTimeout e
            then "Tool " +:+ quote (InfoName tc) +:+ " is unavailable: no worker is serving task queue " +:+ quote queue +:+ "."
            else "Tool execution failed: " +:+ error_text e), true, [], w)
      | inr out => (ExContent out, ExIsError out, ExFiles out, w)
      end
  end.

Definition result_message (callID content : string) (isError : bool) : Message :=
  mkMessage RoleTool "" "" "" "" "" [] (Some (mkResult callID (truncateToolResult content) isError)) None None "" None "" "".

Fixpoint collect_all (calls : list (ToolCallInfo * dispatch)) (w : W) : list FileRef * W :=
  match calls with
  | [] => ([], w)
  | (tc, d) :: calls =>
      let '(content, isError, files, w) := collect_call tc d w in
      let '(more, w) := collect_all calls (set_turn (turn w ++ [result_message (InfoID tc) content isError]) w) in
      (files ++ more, w)
  end.

(** ** Writing *)

Definition flush (w : W) : W :=
  let pending := drop (persisted w) (turn w) in
  if String.eqb (RunTurnKey input) "" || bool_decide (pending = []) then w
  else
    let i := mkPersist (RunSession input) (RunTurnKey input) (Z.of_nat (persisted w)) pending in
    let o := persist_result env (waits w) i in
    let w := did (Persist i o) w in
    match o with Written => set_persisted (persisted w + length pending) w | _ => w end.

(** A disconnected context once the run is cancelled: never refused. *)
Definition cancelSafeFlush (w : W) : W := flush w.

(** ** The loop *)

Context (agentName signed : string) (prompt : PromptRef).

Definition llmRequest (w : W) : LLMTurnRequest :=
  let inline := String.eqb (RunTurnKey input) "" in
  mkRequest (RunModel input) currentAgentID (RunUserID input) (ToolNames toolList) prompt (if inline then turn w else [])
    (if inline then None
     else Some (mkHistory (RunSession input) (RunEarlier input) (RunTurnKey input) (drop (persisted w) (turn w)) (Z.of_nat (persisted w)))).

Definition replyChannel : string := if String.eqb (RunTurnKey input) "" then "" else RunChannel input.
Definition replyChannelID : string := if String.eqb (RunTurnKey input) "" then "" else RunChannelID input.

Definition own_message (content : string) (calls : list ToolCall) : Message :=
  mkMessage RoleAssistant content (RunUserID input) currentAgentID agentName "" calls None None None "" None "" "".

Definition shown_call (tc : ToolCallInfo) : ToolCallInfo :=
  mkCallInfo (InfoID tc) (InfoName tc) (DisplayInput (ResPrivate (default noResolution (Resolutions toolList !! InfoName tc))) (InfoInput tc)).

(** A final answer. *)
Definition finish_run (resp : LLMTurnResponse) (on : option LLMMachine) (w : W) : AgentWorkflowOutput * W :=
  let w :=
    if String.eqb (RespContent resp) "" then w
    else set_turn (turn w ++ [stampAnswer (own_message (marshal (RespContent resp)) []) resp on]) w in
  let w := cancelSafeFlush w in
  let w := notify env false (AnswerTold (RunSession input) replyChannel replyChannelID signed (RespContent resp)) w in
  (mkAgentOut (RespContent resp) (turn w) (String.eqb (RespStop resp) "end_turn") false "" "", w).

(** An answer that calls tools. *)
Definition run_tools (i : Z) (resp : LLMTurnResponse) (on : option LLMMachine) (w : W) : W :=
  let calls := (λ tc, mkCall (InfoID tc) (InfoName tc) (InfoInput tc)) <$> RespCalls resp in
  let content := if String.eqb (RespContent resp) "" then "" else marshal (RespContent resp) in
  let w := set_turn (turn w ++ [stampAnswer (own_message content calls) resp on]) w in
  let w := notify env false (CallsTold (RunSession input) replyChannel replyChannelID (shown_call <$> RespCalls resp)) w in
  let '(ds, w) := dispatch_all i 0 (RespCalls resp) w in
  let '(published, w) := collect_all (zip (RespCalls resp) ds) w in
  let w := cancelSafeFlush w in
  match published, CtxTurn cc0 with
  | _ :: _, Some t => notify env false (FilesTold t currentAgentID (FrID <$> published)) w
  | _, _ => w
  end.

(** One iteration: the run's output, or its next iteration. *)
Definition iteration (i : Z) (w : W) : option AgentWorkflowOutput * W :=
  if ctx_err env w then let w := cancelSafeFlush w in (Some (cancelledOutput (turn w)), w)
  else
    let '(out, w) := call env i (RunUserID input) (llmRequest w) w in
    match OutErr out with
    | Some e =>
        let w := cancelSafeFlush w in
        (Some (if ctx_err env w then cancelledOutput (turn w) else failedOutput (turn w) e), w)
    | None =>
        let resp := OutResponse out in
        let w := set_memory (RespMemory resp) w in
        match RespCalls resp with
        | [] => let '(o, w) := finish_run resp (OutMachine out) w in (Some o, w)
        | _ => (None, run_tools i resp (OutMachine out) w)
        end
    end.

(** [left] iterations more, the next being the [i]-th. *)
Fixpoint react (more : nat) (i : Z) (w : W) : AgentWorkflowOutput * W :=
  match more with
  | O => let w := cancelSafeFlush w in (exhaustedOutput (turn w), w)
  | S more =>
      let '(o, w) := iteration i w in
      match o with Some out => (out, w) | None => react more (i + 1) w end
  end.
End Run.

(** ** The run *)

(** How a run ends: an error by its text, which carries no message, or an
    output. *)
Section Workflow.
Context (env : Env) {JE : JSONErrors} {GQ : GoQuote} {OJ : OutputJSON} (input : RunInput).

Definition noRoute : Route := mkRoute "" None [] false [] false false "" "" "".

Definition first_messages : list Message :=
  if String.eqb (RunTurnKey input) ""
  then [mkMessage RoleUser (marshal (RunUserMessage input)) (RunUserID input) "" (RunUserName input) "" [] None None None "" None "" ""]
  else [].

Definition start_run : W := mkW first_messages 0 noRoute (mkPromptMemory None false) 0 [].

Definition runs_chain : list string := AgentChain input ++ [RunAgent input].

Definition prompt_ref (tools : ListToolsOutput) : PromptRef :=
  mkPrompt (RunSystemPrompt input) (if negb (String.eqb (RunTurnKey input) "") || LoadUserMemory input then RunUserID input else "")
    (RunUserName input) (RunPartNote input) (ClosedTools tools).

Definition run_context (skills : LoadSkillsOutput) (signed : string) : CallContext :=
  with_run_skills (SkRunSkills skills) (callContext input runs_chain signed (RunQueue env)).

(** From the route's choice to the end. *)
Definition routed_run (skills : LoadSkillsOutput) (tools : ListToolsOutput) (agentName signed : string) (w : W) : AgentWorkflowOutput * W :=
  let '(failed, w) := startLLMRoute env input (SkOnMachine skills) signed w in
  let '(out, w) :=
    match failed with
    | Some e => let w := cancelSafeFlush env input w in (failedOutput (turn w) e, w)
    | None =>
        if ctx_err env w then (cancelledOutput (turn w), w)
        else react env input runs_chain tools (run_context skills signed) agentName signed (prompt_ref tools) maxReActIterations 0 w
    end in
  (out, clearNote env w).

Definition AgentWorkflow : (string + AgentWorkflowOutput) * W :=
  let w := start_run in
  if String.eqb (RunAgent input) "" then (inl "agent_id is required", w)
  else
    let w := cancelSafeFlush env input w in
    let '(skills, w) := perform env false (SkillsLoaded (RunAgent input)) (skills_result env) w in
    match skills with
    | inl e => (if ctx_err env w then inr (cancelledOutput (turn w)) else inl ("load skills: " +:+ error_text e), w)
    | inr skills =>
        let agentName := cmp_or (SkName skills) (RunAgent input) in
        let signed := if RunSignReply input then agentName else "" in
        let '(tools, w) := perform env false (ToolsListed (RunAgent input) (RunUserID input)) (tools_result env) w in
        match tools with
        | inl e => (if ctx_err env w then inr (cancelledOutput (turn w)) else inl ("list tools: " +:+ error_text e), w)
        | inr tools =>
            if negb (String.eqb (Refused tools) "") then
              (inr (mkAgentOut "" [] false false (AgentNotOpenMessage agentName (RunUserName input)) AgentNotOpen), w)
            else let '(out, w) := routed_run skills tools agentName signed w in (inr out, w)
        end
    end.
End Workflow.
