(* ===== verification/AgentSteps.v ===== *)
(** * What each step of a run leaves (lemmas on AgentLLM.v and AgentTurn.v)

    A step that does not write the turn's messages leaves them as they were,
    and adds to the trace only the effects it is for. *)

From S2P Require Import Prelude GoStr Keys Message Convert CallInputs Gateway Tasks Participant AgentData AgentLLM AgentTurn.
Open Scope string_scope.
Open Scope Z_scope.
Open Scope list_scope.

(** [w'] comes after [w]: the turn's messages are the same, those written too,
    and what was done in between satisfies [P]. *)
Record frame (P : effect → Prop) (w w' : W) : Prop := {
  f_turn : turn w' = turn w;
  f_persisted : persisted w' = persisted w;
  f_log : ∃ l, log w' = log w ++ l ∧ Forall P l
}.

Lemma frame_refl P w : frame P w w.
Proof. split; [done..|]. exists []. by rewrite app_nil_r. Qed.

Lemma frame_trans P a b c : frame P a b → frame P b c → frame P a c.
Proof.
  intros [H1 H2 (l & H3 & H4)] [H5 H6 (l' & H7 & H8)]. split; [congruence..|].
  exists (l ++ l'). rewrite H7, H3, app_assoc. split; [done|]. by apply Forall_app.
Qed.

Lemma frame_mono (P Q : effect → Prop) a b : (∀ e, P e → Q e) → frame P a b → frame Q a b.
Proof. intros HPQ [H1 H2 (l & H3 & H4)]. split; [done..|]. exists l. split; [done|]. by eapply Forall_impl. Qed.

Lemma frame_route P r w : frame P w (set_route r w).
Proof. split; [done..|]. exists []. by rewrite app_nil_r. Qed.

Lemma frame_memory P m w : frame P w (set_memory m w).
Proof. split; [done..|]. exists []. by rewrite app_nil_r. Qed.

Lemma frame_did (P : effect → Prop) e w : P e → frame P w (did e w).
Proof. intros He. split; [done..|]. exists [e]. split; [done|]. by constructor. Qed.

Lemma frame_said (P : effect → Prop) e w : P e → frame P w (said e w).
Proof. intros He. split; [done..|]. exists [e]. split; [done|]. by constructor. Qed.

Create HintDb frames.
#[export] Hint Resolve frame_refl frame_route frame_memory frame_did frame_said : frames.

Lemma frame_perform {A} (P : effect → Prop) env detached e (k : nat → Err + A) w : P e → frame P w (perform env detached e k w).2.
Proof. unfold perform. destruct (ctx_err env w && negb detached); cbn; auto with frames. Qed.

Lemma frame_notify (P : effect → Prop) env detached e w : P e → frame P w (notify env detached e w).
Proof. apply frame_perform. Qed.

Lemma frame_perform_eq {A} (P : effect → Prop) env detached e (k : nat → Err + A) w res w' :
  perform env detached e k w = (res, w') → P e → frame P w w'.
Proof. intros E He. pose proof (frame_perform P env detached e k w He) as H. by rewrite E in H. Qed.

#[export] Hint Resolve frame_perform frame_notify : frames.

(** The effects of the model's route, for a request. *)
Definition note_effect (e : effect) : Prop := match e with Noticed _ _ _ _ => True | _ => False end.

Definition choice_effect (userID : string) (e : effect) : Prop :=
  match e with MachineAsked u _ => u = userID | MachineAside _ | Slept _ | Noticed _ _ _ _ => True | _ => False end.

Definition call_effect (userID : string) (req : LLMTurnRequest) (e : effect) : Prop :=
  match e with ServerCalled r => r = req | MachineCalled i => McRequest i = req | _ => choice_effect userID e end.

Lemma frame_note env detached text w : frame note_effect w (note env detached text w).
Proof.
  unfold note. destruct (_ || _); [auto with frames|]. cbv zeta. eapply frame_trans; [|apply frame_route]. by apply frame_notify.
Qed.

Lemma frame_clearNote env w : frame note_effect w (clearNote env w).
Proof. unfold clearNote. destruct (Noted (route w)); [apply frame_note|auto with frames]. Qed.

Lemma note_choice userID e : note_effect e → choice_effect userID e.
Proof. by destruct e. Qed.
Lemma choice_call userID req e : choice_effect userID e → call_effect userID req e.
Proof. by destruct e. Qed.
Lemma note_call userID req e : note_effect e → call_effect userID req e.
Proof. by destruct e. Qed.

Lemma frame_choose env userID w : frame (choice_effect userID) w (choose env userID w).2.
Proof.
  unfold choose. destruct (perform _ _ _ _ _) as [res w1] eqn:E. cbn [snd].
  eapply frame_trans; [|apply frame_route]. by eapply frame_perform_eq.
Qed.

Lemma frame_choose_eq env userID w found w' : choose env userID w = (found, w') → frame (choice_effect userID) w w'.
Proof. intros E. pose proof (frame_choose env userID w) as H. by rewrite E in H. Qed.

Lemma frame_onServer env userID req w : frame (call_effect userID req) w (onServer env req w).2.
Proof.
  unfold onServer. destruct (perform _ _ _ _ _) as [res w1] eqn:E. cbn [snd]. by eapply frame_perform_eq.
Qed.

Lemma frame_server_noted env userID req text w :
  frame (call_effect userID req) w (onServer env req (note env false text (to_server w))).2.
Proof.
  eapply frame_trans; [|apply frame_onServer]. eapply frame_trans; [apply frame_route|].
  eapply frame_mono; [apply note_call|apply frame_note].
Qed.

Lemma frame_exhausted env userID req last w : frame (call_effect userID req) w (exhausted env last req w).2.
Proof. unfold exhausted. destruct (String.eqb _ _); [apply frame_refl|apply frame_server_noted]. Qed.

Lemma frame_excluded env userID m e (aside : bool) w :
  frame (choice_effect userID) w (exclude m e (if aside then setAside env (LmID m) w else w)).
Proof.
  eapply frame_trans; [|apply frame_route]. destruct aside; [by apply frame_notify|auto with frames].
Qed.

Lemma frame_attempts env more attempt step userID req last w :
  frame (call_effect userID req) w (attempts env more attempt step userID req last w).2.
Proof.
  revert attempt last w. induction more as [|more IH]; intros attempt last w; [apply frame_exhausted|].
  cbn [attempts]. destruct (OnMachine (route w)) as [m|]; [|apply frame_exhausted]. cbv zeta.
  destruct (perform _ _ _ _ _) as [res w1] eqn:E.
  assert (H1 : frame (call_effect userID req) w w1) by by eapply frame_perform_eq.
  destruct res as [e|resp]; [|done].
  destruct (ctx_err env w1 || IsCanceledError e); [done|].
  destruct (machineFailure e) as [kind aside]. cbn [fst snd].
  pose proof (frame_excluded env userID m e aside w1) as H2. apply (frame_mono _ _ _ _ (choice_call userID req)) in H2.
  pose proof (frame_trans _ _ _ _ H1 H2) as H12.
  assert (Hmoved : frame (call_effect userID req) w
      (if String.eqb (Mode (route w1)) LLMOnMachineRequire
       then let '(found, w2) := choose env userID (exclude m e (if aside then setAside env (LmID m) w1 else w1)) in
            if negb found then (mkOut noResponse None (noMachine env w2), w2)
            else attempts env more (attempt + 1) step userID req (Some e)
                   (match OnMachine (route w2) with Some m => note env false (onMachineNote m) w2 | None => w2 end)
       else onServer env req (note env false ("modèle de l'installation : la machine « " +:+ LmName m +:+ " » ne répond plus")
              (to_server (exclude m e (if aside then setAside env (LmID m) w1 else w1))))).2).
  { destruct (String.eqb _ _); [|eapply frame_trans; [exact H12|apply frame_server_noted]].
    destruct (choose _ _ _) as [found w2] eqn:E2.
    assert (H3 : frame (call_effect userID req) w w2).
    { eapply frame_trans; [exact H12|]. eapply frame_mono; [apply choice_call|by eapply frame_choose_eq]. }
    destruct found; cbn [negb]; [|done]. eapply frame_trans; [|apply IH].
    destruct (OnMachine (route w2)); [|done]. eapply frame_trans; [exact H3|]. eapply frame_mono; [apply note_call|apply frame_note]. }
  destruct kind; [|done|exact Hmoved|exact Hmoved|].
  - destruct more as [|more]; [eapply frame_trans; [exact H1|apply frame_exhausted]|].
    destruct (perform _ _ (Slept _) _ _) as [slept w2] eqn:E2.
    assert (H3 : frame (call_effect userID req) w w2).
    { eapply frame_trans; [exact H1|by eapply frame_perform_eq]. }
    destruct slept; [done|]. eapply frame_trans; [exact H3|apply IH].
  - destruct (String.eqb _ _); [done|]. eapply frame_trans; [exact H1|apply frame_server_noted].
Qed.

Lemma frame_call env step userID req w : frame (call_effect userID req) w (call env step userID req w).2.
Proof. unfold call. destruct (OnMachine (route w)); [apply frame_attempts|apply frame_onServer]. Qed.

Lemma frame_start env input mode signer w : frame (choice_effect (RunUserID input)) w (startLLMRoute env input mode signer w).2.
Proof.
  unfold startLLMRoute. cbv zeta. destruct (_ || _); [apply frame_route|].
  set (w0 := if String.eqb (RunTurnKey input) "" then _ else _).
  assert (H0 : frame (choice_effect (RunUserID input)) w w0).
  { subst w0. destruct (String.eqb (RunTurnKey input) ""); [apply frame_route|].
    eapply frame_trans; apply frame_route. }
  destruct (match RunMachine input with Some _ => _ | None => _ end) as [found w1] eqn:E.
  assert (H1 : frame (choice_effect (RunUserID input)) w w1).
  { eapply frame_trans; [exact H0|]. destruct (RunMachine input).
    - injection E as _ <-. apply frame_route.
    - by eapply frame_choose_eq. }
  destruct found; cbn [negb snd]; [|done]. destruct (OnMachine (route w1)); [|done].
  eapply frame_trans; [exact H1|]. eapply frame_mono; [apply note_choice|apply frame_note].
Qed.

(** ** Calls of an answer *)

(** The turn got [ms] more. *)
Definition moved (P : effect → Prop) (ms : list Message) (w w' : W) : Prop :=
  turn w' = turn w ++ ms ∧ persisted w' = persisted w ∧ ∃ l, log w' = log w ++ l ∧ Forall P l.

Lemma frame_moved P w w' : frame P w w' ↔ moved P [] w w'.
Proof.
  split; [intros [H1 H2 H3]|intros (H1 & H2 & H3)]; [split; [by rewrite app_nil_r|done]|].
  split; [by rewrite app_nil_r in H1|done..].
Qed.

Lemma moved_trans P a b c ms ms' : moved P ms a b → moved P ms' b c → moved P (ms ++ ms') a c.
Proof.
  intros (H1 & H2 & l & H3 & H4) (H5 & H6 & l' & H7 & H8). split; [by rewrite H5, H1, app_assoc|]. split; [congruence|].
  exists (l ++ l'). rewrite H7, H3, app_assoc. split; [done|]. by apply Forall_app.
Qed.

Lemma moved_mono (P Q : effect → Prop) ms a b : (∀ e, P e → Q e) → moved P ms a b → moved Q ms a b.
Proof. intros HPQ (H1 & H2 & l & H3 & H4). split; [done|]. split; [done|]. exists l. split; [done|]. by eapply Forall_impl. Qed.

Lemma moved_turn P ms w : moved P ms w (set_turn (turn w ++ ms) w).
Proof. split; [done|]. split; [done|]. exists []. by rewrite app_nil_r. Qed.

Section Calls.
Context (env : Env) {JE : JSONErrors} {GQ : GoQuote} {OJ : OutputJSON}.
Context (input : RunInput) (chain : list string) (tools : ListToolsOutput) (cc0 : CallContext).

(** A run a call may start: an agent offered, that none of those calling is,
    for the same user, and without a turn of its own. *)
Definition sub_run (res : ToolResolution) (i : RunInput) : Prop :=
  RunAgent i = ResAgent res ∧ ResAgent res ≠ "" ∧ AgentChain i = CtxChain cc0 ∧ RunTurnKey i = "" ∧ RunUserID i = RunUserID input ∧
  (RunAgent i ∉ chain) ∧ (length chain ≤ maxDelegationDepth)%nat ∧ SessionTurn i = CtxTurn cc0.

Definition child_ok (res : ToolResolution) (c : ChildWork) : Prop :=
  ResKind res = ToolKindWorkflow ∧
  match c with SubAgent i => sub_run res i | ToolWorkflow name _ => ResAgent res = "" ∧ name = ResWorkflow res end.

(** What the calls of an answer send: each to a tool the run was given, as its
    resolution says. *)
Definition dispatch_effect (e : effect) : Prop :=
  match e with
  | ToolRun queue timeout i =>
      ∃ res, Resolutions tools !! ExName i = Some res ∧ ResKind res ≠ ToolKindWorkflow ∧ queue = ResQueue res ∧ 0 < timeout ∧
        ExAgent i = RunAgent input ∧ ExUser i = RunUserID input ∧ (ResNeedsContext res = false → ExCall i = None)
  | ChildStarted _ _ c => ∃ name res, Resolutions tools !! name = Some res ∧ child_ok res c
  | TaskRegistered t =>
      RunTurnKey input ≠ "" ∧ TurnKeyOf t = RunTurnKey input ∧ ∃ res, Resolutions tools !! Tool t = Some res ∧ ResBackground res = true
  | TaskLaunched _ i =>
      RunTurnKey input ≠ "" ∧ ∃ res, Resolutions tools !! BgTool i = Some res ∧ ResBackground res = true ∧ child_ok res (BgInput i)
  | _ => False
  end.

Lemma child_built raw parent id res cc c queue :
  ResKind res = ToolKindWorkflow → RunUserID parent = RunUserID input → CtxChain cc = CtxChain cc0 → CtxTurn cc = CtxTurn cc0 →
  buildChildInput raw parent id res cc (RunAgent input) (RunQueue env) = inr (c, queue) →
  (if negb (String.eqb (ResAgent res) "") then delegationRefusal chain (ResAgent res) else None) = None → child_ok res c.
Proof.
  intros Hk Hu Hc Ht Hb Hr. split; [done|]. unfold buildChildInput, subAgentInput in Hb.
  destruct (String.eqb_spec (ResAgent res) "") as [Ha|Ha]; cbn [negb] in *.
  - destruct (ResNeedsContext res); [destruct (WithCallContext raw cc)|]; by simplify_eq.
  - destruct (unmarshal_delegation raw) as [[task model]|]; [|done]. destruct (String.eqb _ _); [done|]. destruct (String.eqb _ _); [done|].
    simplify_eq. unfold delegationRefusal in Hr. destruct (contains chain (ResAgent res)) eqn:Ec; [done|].
    destruct (_ <? _)%nat eqn:El; [done|]. apply contains_false in Ec. apply Nat.ltb_ge in El.
    split; [done|]. split; [done|]. cbn. by rewrite Hc, Hu, Ht.
Qed.

Lemma frame_launch t i w : dispatch_effect (TaskRegistered t) → dispatch_effect (TaskLaunched (TaskID t) i) →
  frame dispatch_effect w (launch env t i w).2.
Proof.
  intros H1 H2. unfold launch. destruct (perform _ _ _ _ _) as [res w1] eqn:E.
  assert (Hw : frame dispatch_effect w w1) by by eapply frame_perform_eq.
  destruct res as [e|refused]; [done|]. destruct (negb _); [done|]. eapply frame_trans; [exact Hw|by apply frame_said].
Qed.

Lemma frame_send_child id queue c w : dispatch_effect (ChildStarted id queue c) → frame dispatch_effect w (send_child env id queue c w).2.
Proof. intros He. unfold send_child. destruct (ctx_err env w); cbn; [apply frame_refl|by apply frame_said]. Qed.

Lemma background_turn res raw toolInput : take_background input res raw = inr (toolInput, true) →
  RunTurnKey input ≠ "" ∧ ResBackground res = true.
Proof.
  unfold take_background. destruct (ResBackground res); [|done]. destruct (TakeBackground raw) as [|[ti b]]; [done|].
  destruct b; cbn; [|by intros; simplify_eq]. by destruct (String.eqb_spec (RunTurnKey input) "").
Qed.

Lemma frame_dispatch_call i j tc w : frame dispatch_effect w (dispatch_call env input chain tools cc0 i j tc w).2.
Proof.
  unfold dispatch_call. destruct (Resolutions tools !! InfoName tc) as [res|] eqn:Hr; [|apply frame_refl]. cbv zeta.
  destruct (take_background input res (InfoInput tc)) as [e|[ti bg]] eqn:Hb; [apply frame_refl|].
  destruct (String.eqb_spec (ResKind res) ToolKindWorkflow) as [Hk|Hk].
  - unfold dispatch_workflow. cbv zeta. set (cc := for_call _ _ _). set (id := childWorkflowID _ _ _ _ _).
    destruct (buildChildInput _ _ _ _ _ _ _) as [e|[c queue]] eqn:Hc; [apply frame_refl|].
    destruct (if negb _ then delegationRefusal _ _ else None) eqn:Hd; [apply frame_refl|].
    assert (Hok : child_ok res c) by by apply (child_built ti (with_route (route w) input) id res cc c queue).
    destruct bg; [|apply frame_send_child; cbn; by exists (InfoName tc), res].
    apply background_turn in Hb as [Ht Hbg]. unfold newBackgroundStart. cbv zeta.
    destruct (negb match c with SubAgent _ => _ | ToolWorkflow _ _ => _ end); [apply frame_refl|].
    apply frame_launch; cbn; [split; [done|]; split; [done|]; by exists res|split; [done|]; by exists res].
  - unfold send_activity. cbv zeta. destruct (ctx_err env w); cbn; [apply frame_refl|]. apply frame_said. cbn. exists res.
    split; [done|]. split; [done|]. split; [done|]. split; [by destruct (Z.leb_spec (ResTimeout res) 0); [vm_compute|lia]|].
    split; [done|]. split; [done|]. by intros ->.
Qed.

Lemma dispatch_all_frame i j calls w :
  frame dispatch_effect w (dispatch_all env input chain tools cc0 i j calls w).2 ∧
  length (dispatch_all env input chain tools cc0 i j calls w).1 = length calls.
Proof.
  revert j w. induction calls as [|tc calls IH]; intros j w; cbn; [split; [apply frame_refl|done]|].
  destruct (dispatch_call _ _ _ _ _ _ _ _ _) as [d w1] eqn:E. pose proof (frame_dispatch_call i j tc w) as H1. rewrite E in H1.
  destruct (dispatch_all _ _ _ _ _ _ _ _ w1) as [ds w2] eqn:E2. specialize (IH (j + 1) w1). rewrite E2 in IH. cbn in *.
  destruct IH as [H2 H3]. split; [by eapply frame_trans|by f_equal].
Qed.

(** What the collection of the results does. *)
Definition result_effect (e : effect) : Prop := match e with ResultAwaited _ | TaskDropped _ | TaskTold _ _ _ => True | _ => False end.

Lemma frame_collect_call tc d w : frame result_effect w (collect_call env tc d w).2.
Proof.
  destruct d as [why|t|c sent|i queue sent]; cbn; [apply frame_refl|..].
  - unfold started. destruct (perform _ _ _ _ _) as [res w1] eqn:E.
    assert (Hw : frame result_effect w w1) by by eapply frame_perform_eq.
    destruct res; cbn; (eapply frame_trans; [exact Hw|by apply frame_notify]).
  - destruct (get_future _ _ _ _ _) as [res w1] eqn:E. assert (Hw : frame result_effect w w1).
    { unfold get_future in E. destruct sent; [by eapply frame_perform_eq|injection E as _ <-; apply frame_refl]. }
    by destruct res.
  - destruct (get_future _ _ _ _ _) as [res w1] eqn:E. assert (Hw : frame result_effect w w1).
    { unfold get_future in E. destruct sent; [by eapply frame_perform_eq|injection E as _ <-; apply frame_refl]. }
    by destruct res.
Qed.

(** A tool's result, as the turn keeps it. *)
Definition is_result (id : string) (m : Message) : Prop :=
  ∃ content isError, m = result_message id content isError.

Lemma collect_all_moved calls w :
  ∃ rs, moved result_effect rs w (collect_all env calls w).2 ∧ Forall2 is_result ((λ x, InfoID x.1) <$> calls) rs.
Proof.
  revert w. induction calls as [|[tc d] calls IH]; intros w; cbn.
  { exists []. split; [|constructor]. apply frame_moved, frame_refl. }
  destruct (collect_call _ _ _ _) as [[[content isError] files] w1] eqn:E.
  pose proof (frame_collect_call tc d w) as H1. rewrite E in H1. cbn in H1.
  set (m := result_message (InfoID tc) content isError). destruct (IH (set_turn (turn w1 ++ [m]) w1)) as (rs & H2 & H3).
  destruct (collect_all _ _ _) as [more w2]. cbn in *. exists (m :: rs). split.
  - apply (moved_trans _ w w1 w2 [] (m :: rs)); [by apply frame_moved|].
    apply (moved_trans _ w1 (set_turn (turn w1 ++ [m]) w1) w2 [m] rs); [apply moved_turn|done].
  - constructor; [by exists content, isError|done].
Qed.
End Calls.
