(* ===== verification/AgentTranscript.v ===== *)
(** * What a run writes of its turn

    A turn's messages are written as they are produced, in batches that each
    end where the transcript is whole, and written again by the participant
    when the run ends. Whatever fails, the store holds a whole beginning of the
    turn, each message once, under its key. *)

From S2P Require Import Prelude GoStr Keys Message Convert Store CallInputs Gateway Tasks Participant AgentData AgentLLM AgentTurn AgentSteps.
Open Scope string_scope.
Open Scope Z_scope.
Open Scope list_scope.

(** ** Whole transcripts *)

(** Each message that calls tools is followed by the results of its calls, in
    their order; [pending] are the calls whose results are due. *)
Fixpoint answered (pending : list string) (l : list Message) : bool :=
  match l with
  | [] => bool_decide (pending = [])
  | m :: l =>
      match Result m, pending with
      | Some r, id :: pending => String.eqb (ToolCallID r) id && answered pending l
      | None, [] => answered (CallID <$> ToolCalls m) l
      | _, _ => false
      end
  end.

Definition whole (l : list Message) : Prop := answered [] l = true.

Lemma answered_app p l l' : answered p l = true → answered p (l ++ l') = answered [] l'.
Proof.
  revert p. induction l as [|m l IH]; intros p; cbn.
  - intros H%bool_decide_eq_true. by subst p.
  - destruct (Result m) as [r|], p as [|id p]; try done; [|apply IH]. intros [-> H]%andb_true_iff. by apply IH.
Qed.

Lemma whole_app l l' : whole l → whole l' → whole (l ++ l').
Proof. unfold whole. intros H H'. by rewrite answered_app. Qed.

Lemma answered_results ids rs : Forall2 is_result ids rs → answered ids rs = true.
Proof.
  induction 1 as [|id m ids rs (c & e & ->) _ IH]; [done|]. cbn. by rewrite String.eqb_refl.
Qed.

Lemma whole_calls m rs : Result m = None → Forall2 is_result (CallID <$> ToolCalls m) rs → whole (m :: rs).
Proof. intros Hm Hrs. unfold whole. cbn. rewrite Hm. by apply answered_results. Qed.

(** ** What the trace says of the turn *)

Section Trace.
Context (input : RunInput).

(** [ms] is what a whole beginning of [T] holds past its first [s] messages,
    the [n] first being written. *)
Definition tail_of (T : list Message) (n s : nat) (ms : list Message) : Prop :=
  ∃ k, (s ≤ n)%nat ∧ (s ≤ k ≤ length T)%nat ∧ ms = drop s (take k T) ∧ whole (take k T).

Definition request_ok (T : list Message) (n : nat) (req : LLMTurnRequest) : Prop :=
  if String.eqb (RunTurnKey input) "" then ReqHistory req = None ∧ ∃ k, ReqMessages req = take k T ∧ whole (take k T)
  else ReqMessages req = [] ∧ ∃ s ms, tail_of T n s ms ∧
         ReqHistory req = Some (mkHistory (RunSession input) (RunEarlier input) (RunTurnKey input) ms (Z.of_nat s)).

Definition effect_ok (T : list Message) (n : nat) (e : effect) : Prop :=
  match e with
  | Persist i _ =>
      RunTurnKey input ≠ "" ∧ PcSession i = RunSession input ∧ PcTurn i = RunTurnKey input ∧
      ∃ s, PcStart i = Z.of_nat s ∧ tail_of T n s (PcMessages i)
  | ServerCalled req => request_ok T n req
  | MachineCalled i => request_ok T n (McRequest i)
  | _ => True
  end.

(** How many of the turn's messages are in the store. *)
Definition written_after (n : nat) (e : effect) : nat :=
  match e with
  | Persist _ NotWritten => n
  | Persist i _ => n `max` (Z.to_nat (PcStart i) + length (PcMessages i))
  | _ => n
  end.

Definition written (l : list effect) : nat := fold_left written_after l 0%nat.

Fixpoint log_ok (T : list Message) (n : nat) (l : list effect) : Prop :=
  match l with [] => True | e :: l => effect_ok T n e ∧ log_ok T (written_after n e) l end.

Lemma log_ok_app T n l l' : log_ok T n (l ++ l') ↔ log_ok T n l ∧ log_ok T (fold_left written_after l n) l'.
Proof. revert n. induction l as [|e l IH]; intros n; cbn; [tauto|]. rewrite IH. tauto. Qed.

Lemma tail_of_grow T T' n s ms : tail_of T n s ms → tail_of (T ++ T') n s ms.
Proof.
  intros (k & H1 & H2 & -> & H3). exists k. rewrite length_app. rewrite take_app_le by lia. repeat split; try lia; done.
Qed.

Lemma effect_ok_grow T T' n e : effect_ok T n e → effect_ok (T ++ T') n e.
Proof.
  assert (Hreq : ∀ req, request_ok T n req → request_ok (T ++ T') n req).
  { intros req. unfold request_ok. destruct (String.eqb _ _).
    - intros [H1 (k & H2 & H3)]. split; [done|]. destruct (decide (k ≤ length T)%nat).
      + exists k. rewrite take_app_le by lia. done.
      + exists (length T). rewrite take_app_le, take_ge by lia. rewrite take_ge in H2, H3 by lia. done.
    - intros [H1 (s & ms & H2 & H3)]. split; [done|]. exists s, ms. split; [by apply tail_of_grow|done]. }
  destruct e; cbn; auto. intros (H1 & H2 & H3 & s & H4 & H5). split_and!; try done. exists s. split; [done|by apply tail_of_grow].
Qed.

Lemma log_ok_grow T T' n l : log_ok T n l → log_ok (T ++ T') n l.
Proof. revert n. induction l as [|e l IH]; intros n; cbn; [done|]. intros [H1 H2]. split; [by apply effect_ok_grow|by apply IH]. Qed.

(** Effects that write nothing. *)
Definition no_write (e : effect) : Prop := match e with Persist _ _ => False | _ => True end.

Lemma written_quiet n l : Forall no_write l → fold_left written_after l n = n.
Proof. revert n. induction l as [|e l IH]; intros n H; [done|]. apply Forall_cons in H as [He Hl]. cbn. rewrite IH by done. by destruct e. Qed.

Lemma log_ok_quiet T n l : Forall no_write l → Forall (effect_ok T n) l → log_ok T n l.
Proof.
  revert n. induction l as [|e l IH]; intros n Hq Hok; [done|]. apply Forall_cons in Hq as [He Hq]. apply Forall_cons in Hok as [H1 H2].
  cbn. split; [done|]. assert (written_after n e = n) as -> by by destruct e. by apply IH.
Qed.

(** ** The invariant of a run *)

Record run_ok (w : W) : Prop := {
  r_log : log_ok (turn w) 0 (log w);
  r_written : (persisted w ≤ written (log w))%nat;
  r_persisted : (persisted w ≤ length (turn w))%nat
}.

Lemma moved_ok P ms w w' : (∀ e, P e → no_write e ∧ effect_ok (turn w ++ ms) (written (log w)) e) → moved P ms w w' → run_ok w → run_ok w'.
Proof.
  intros HP (H1 & H2 & l & H3 & H4) [Hl Hw Hp]. split; rewrite ?H1, ?H2, ?H3.
  - apply log_ok_app. split; [by apply log_ok_grow|]. apply log_ok_quiet; eapply Forall_impl; eauto; intros e He; by apply HP.
  - unfold written. rewrite fold_left_app, written_quiet; [done|]. eapply Forall_impl; [exact H4|]. intros e He. by apply HP.
  - rewrite length_app. lia.
Qed.

Lemma frame_ok P w w' : (∀ e, P e → no_write e ∧ effect_ok (turn w) (written (log w)) e) → frame P w w' → run_ok w → run_ok w'.
Proof. intros HP Hf%frame_moved. eapply moved_ok; [|done]. by rewrite app_nil_r. Qed.

(** A frame of effects that are neither writes nor calls to the model. *)
Definition plain_effect (e : effect) : Prop := match e with Persist _ _ | ServerCalled _ | MachineCalled _ => False | _ => True end.

Lemma plain_ok P ms w w' : (∀ e, P e → plain_effect e) → moved P ms w w' → run_ok w → run_ok w'.
Proof. intros HP. apply moved_ok. intros e He%HP. by destruct e. Qed.

Lemma plain_frame_ok P w w' : (∀ e, P e → plain_effect e) → frame P w w' → run_ok w → run_ok w'.
Proof. intros HP Hf%frame_moved. by eapply plain_ok. Qed.

Lemma choice_plain userID e : choice_effect userID e → plain_effect e.
Proof. by destruct e. Qed.
Lemma dispatch_plain chain tools cc e : dispatch_effect input chain tools cc e → plain_effect e.
Proof. by destruct e. Qed.
Lemma result_plain e : result_effect e → plain_effect e.
Proof. by destruct e. Qed.

Lemma notify_ok env detached e w : plain_effect e → run_ok w → run_ok (notify env detached e w).
Proof. intros He. eapply (plain_frame_ok plain_effect); [done|by apply frame_notify]. Qed.

Lemma flush_turn env w : turn (flush env input w) = turn w.
Proof. unfold flush. cbv zeta. destruct (_ || _); [done|]. by destruct (persist_result _ _ _). Qed.

Lemma flush_ok env w : whole (turn w) → run_ok w → run_ok (flush env input w).
Proof.
  intros Hwh [Hl Hw Hp]. unfold flush. cbv zeta. destruct (_ || _) eqn:E; [done|]. apply orb_false_iff in E as [Ek Ed].
  apply String.eqb_neq in Ek. set (i := mkPersist _ _ _ _). set (o := persist_result _ _ _).
  assert (Hlen : (persisted w + length (drop (persisted w) (turn w)) = length (turn w))%nat) by (rewrite length_drop; lia).
  assert (Hlog : log_ok (turn w) 0 (log w ++ [Persist i o])).
  { apply log_ok_app. split; [done|]. split; [|done]. split; [done|]. split; [done|]. split; [done|].
    exists (persisted w). split; [done|]. exists (length (turn w)). rewrite firstn_all.
    repeat split; try done; lia. }
  assert (Hwr : ∀ o, o ≠ NotWritten → written (log w ++ [Persist i o]) = (written (log w) `max` length (turn w))%nat).
  { intros o' Ho'. unfold written. rewrite fold_left_app. cbn [fold_left]. unfold written_after at 1.
    cbn [PcStart PcMessages i]. rewrite Nat2Z.id, Hlen. by destruct o'. }
  assert (Hmono : (persisted w ≤ written (log w ++ [Persist i o]))%nat).
  { unfold written at 1. rewrite fold_left_app. fold (written (log w)). destruct o; cbn [fold_left written_after]; lia. }
  destruct o eqn:Eo; (split; [exact Hlog| |cbn; lia]); try done.
  cbn [persisted set_persisted did log]. rewrite Hwr by done. lia.
Qed.
End Trace.

(** ** The steps of the loop *)

Section Loop.
Context (env : Env) {JE : JSONErrors} {GQ : GoQuote} {OJ : OutputJSON}.
Context (input : RunInput) (chain : list string) (tools : ListToolsOutput) (cc0 : CallContext).
Context (agentName signed : string) (prompt : PromptRef).

(** The turn goes on from [w] to [w'], whole again. *)
Definition goes_on (w w' : W) : Prop := run_ok input w' ∧ whole (turn w') ∧ turn w `prefix_of` turn w'.

Lemma goes_on_refl w : run_ok input w → whole (turn w) → goes_on w w.
Proof. intros. split; [done|]. by split. Qed.

Lemma goes_on_trans a b c : goes_on a b → goes_on b c → goes_on a c.
Proof. intros (_ & _ & H1) (H2 & H3 & H4). split; [done|]. split; [done|]. by etrans. Qed.

Lemma goes_on_flush w : run_ok input w → whole (turn w) → goes_on w (cancelSafeFlush env input w).
Proof.
  intros Hok Hwh. unfold cancelSafeFlush. split; [by apply flush_ok|]. rewrite flush_turn. by split.
Qed.

Lemma goes_on_plain (P : effect → Prop) ms w w' :
  (∀ e, P e → plain_effect e) → run_ok input w → whole (turn w) → whole ms → moved P ms w w' → goes_on w w'.
Proof.
  intros HP Hok Hwh Hms Hm. split; [by eapply plain_ok|]. destruct Hm as (-> & _ & _). split; [by apply whole_app|by apply prefix_app_r].
Qed.

Lemma goes_on_notify detached e w w0 : plain_effect e → goes_on w0 w → goes_on w0 (notify env detached e w).
Proof.
  intros He H. eapply goes_on_trans; [exact H|]. destruct H as (H1 & H2 & _).
  apply (goes_on_plain plain_effect []); try done. by apply frame_moved, frame_notify.
Qed.

Lemma stamp_calls m resp on : ToolCalls (stampAnswer m resp on) = ToolCalls m ∧ Result (stampAnswer m resp on) = Result m.
Proof. done. Qed.

Lemma request_now w : run_ok input w → whole (turn w) → request_ok input (turn w) (written (log w)) (llmRequest input tools prompt w).
Proof.
  intros [_ Hw Hp] Hwh. unfold request_ok, llmRequest. destruct (String.eqb (RunTurnKey input) ""); cbn.
  - split; [done|]. exists (length (turn w)). by rewrite firstn_all.
  - split; [done|]. exists (persisted w), (drop (persisted w) (turn w)). split; [|done].
    exists (length (turn w)). rewrite firstn_all. by repeat split.
Qed.

Lemma call_goes_on i w out w' :
  run_ok input w → whole (turn w) → call env i (RunUserID input) (llmRequest input tools prompt w) w = (out, w') → goes_on w w'.
Proof.
  intros Hok Hwh E. pose proof (frame_call env i (RunUserID input) (llmRequest input tools prompt w) w) as Hf. rewrite E in Hf. cbn in Hf.
  pose proof (request_now w Hok Hwh) as Hreq. split; [|destruct Hf as [-> _ _]; by split].
  eapply frame_ok; [|exact Hf|done]. intros e He. destruct e; try done; cbn in He |- *; rewrite He; by split.
Qed.

Lemma finish_goes_on resp on w : run_ok input w → whole (turn w) →
  let r := finish_run env input agentName signed resp on w in goes_on w r.2 ∧ NewMessages r.1 = turn r.2.
Proof.
  intros Hok Hwh. unfold finish_run. cbv zeta. cbn [fst snd NewMessages]. split; [|done].
  apply goes_on_notify; [done|]. set (w1 := if String.eqb (RespContent resp) "" then w else _).
  assert (H1 : goes_on w w1).
  { subst w1. destruct (String.eqb _ _); [by apply goes_on_refl|]. eapply (goes_on_plain plain_effect [_]); try done; [|apply moved_turn].
    by apply whole_calls; [|constructor]. }
  eapply goes_on_trans; [exact H1|]. destruct H1 as (? & ? & _). by apply goes_on_flush.
Qed.

Lemma tools_goes_on i resp on w : run_ok input w → whole (turn w) →
  goes_on w (run_tools env input chain tools cc0 agentName i resp on w).
Proof.
  intros Hok Hwh. unfold run_tools. cbv zeta. set (a := stampAnswer _ resp on). set (w1 := set_turn (turn w ++ [a]) w).
  set (w2 := notify env false (CallsTold _ _ _ _) w1).
  destruct (dispatch_all_frame env input chain tools cc0 i 0 (RespCalls resp) w2) as [H3 Hlen].
  destruct (dispatch_all _ _ _ _ _ _ _ _ w2) as [ds w3]. cbn in H3, Hlen.
  destruct (collect_all_moved env (zip (RespCalls resp) ds) w3) as (rs & H4 & Hrs).
  destruct (collect_all _ _ w3) as [published w4]. cbn in H4.
  assert (Hmoved : moved plain_effect (a :: rs) w w4).
  { apply (moved_trans _ w w1 w4 [a] rs); [apply moved_turn|].
    apply (moved_trans _ w1 w2 w4 [] rs); [by apply frame_moved, frame_notify|].
    apply (moved_trans _ w2 w3 w4 [] rs).
    - apply frame_moved. eapply frame_mono; [apply dispatch_plain|exact H3].
    - eapply moved_mono; [apply result_plain|exact H4]. }
  assert (Hids : (λ x, InfoID x.1) <$> zip (RespCalls resp) ds = CallID <$> ToolCalls a).
  { cbn. rewrite <- list_fmap_compose. change (CallID ∘ (λ tc, mkCall (InfoID tc) (InfoName tc) (InfoInput tc))) with InfoID.
    rewrite <- (fst_zip (RespCalls resp) ds) at 2 by lia. by rewrite <- list_fmap_compose. }
  assert (H1 : goes_on w w4).
  { eapply (goes_on_plain plain_effect); [done|done|done| |exact Hmoved]. apply whole_calls; [done|]. by rewrite <- Hids. }
  assert (H5 : goes_on w (cancelSafeFlush env input w4)).
  { eapply goes_on_trans; [exact H1|]. destruct H1 as (? & ? & _). by apply goes_on_flush. }
  destruct published; [done|]. destruct (CtxTurn cc0); [|done]. by apply goes_on_notify.
Qed.

Lemma iteration_goes_on i w : run_ok input w → whole (turn w) →
  let r := iteration env input chain tools cc0 agentName signed prompt i w in
  goes_on w r.2 ∧ (∀ out, r.1 = Some out → NewMessages out = turn r.2).
Proof.
  intros Hok Hwh. unfold iteration. destruct (ctx_err env w).
  { cbn. split; [by apply goes_on_flush|]. by intros out [= <-]. }
  destruct (call _ _ _ _ _) as [co w1] eqn:E. pose proof (call_goes_on i w co w1 Hok Hwh E) as H1.
  destruct H1 as (Hok1 & Hwh1 & Hp1). assert (H1 : goes_on w w1) by (by split).
  destruct (OutErr co) as [e|].
  { cbn. split; [eapply goes_on_trans; [exact H1|by apply goes_on_flush]|].
    intros out [= <-]. by destruct (ctx_err env _). }
  cbv zeta. set (w2 := set_memory (RespMemory (OutResponse co)) w1).
  assert (Hok2 : run_ok input w2) by (eapply (plain_frame_ok input plain_effect); [done|apply frame_memory|done]).
  destruct (RespCalls (OutResponse co)) eqn:Ec.
  - destruct (finish_goes_on (OutResponse co) (OutMachine co) w2 Hok2 Hwh1) as [H2 H3].
    destruct (finish_run _ _ _ _ _ _ w2) as [o w3]. cbn in *. split; [by eapply goes_on_trans|]. by intros out [= <-].
  - cbn [fst snd]. split; [|done]. eapply goes_on_trans; [exact H1|]. by apply (tools_goes_on i _ _ w2).
Qed.

Lemma react_goes_on more i w : run_ok input w → whole (turn w) →
  let r := react env input chain tools cc0 agentName signed prompt more i w in goes_on w r.2 ∧ NewMessages r.1 = turn r.2.
Proof.
  revert i w. induction more as [|more IH]; intros i w Hok Hwh; cbn [react]; cbv zeta.
  { split; [by apply goes_on_flush|done]. }
  destruct (iteration_goes_on i w Hok Hwh) as [H1 H2]. destruct (iteration _ _ _ _ _ _ _ _ _ _) as [o w1]. cbn [fst snd] in H1, H2.
  destruct o as [out|]; [split; [done|by apply H2]|]. destruct H1 as (Hok1 & Hwh1 & Hp1).
  destruct (IH (i + 1) w1 Hok1 Hwh1) as [H3 H4]. split; [|done]. eapply goes_on_trans; [|exact H3]. by split.
Qed.
End Loop.

(** ** The whole run *)

Section Outputs.
Context (env : Env) {JE : JSONErrors} {GQ : GoQuote} {OJ : OutputJSON} (input : RunInput).

Lemma start_run_ok : run_ok input (start_run input) ∧ whole (turn (start_run input)).
Proof. split; [by split; [|cbn; lia..]|]. unfold start_run, first_messages. cbn. by destruct (String.eqb _ _). Qed.

Lemma routed_goes_on skills tools agentName signed w : run_ok input w → whole (turn w) →
  let r := routed_run env input skills tools agentName signed w in goes_on input w r.2 ∧ NewMessages r.1 = turn r.2.
Proof.
  intros Hok Hwh. unfold routed_run. pose proof (frame_start env input (SkOnMachine skills) signed w) as Hf.
  destruct (startLLMRoute _ _ _ _ _) as [failed w1]. cbn in Hf.
  assert (H1 : goes_on input w w1).
  { eapply (goes_on_plain input _ []); [apply choice_plain|done|done|done|by apply frame_moved]. }
  destruct H1 as (Hok1 & Hwh1 & Hp1). assert (H1 : goes_on input w w1) by (by split).
  set (r := match failed with Some _ => _ | None => _ end).
  assert (H2 : goes_on input w r.2 ∧ NewMessages r.1 = turn r.2).
  { subst r. destruct failed as [e|]; [|destruct (ctx_err env w1)]; cbn [fst snd].
    - split; [|done]. eapply goes_on_trans; [exact H1|by apply goes_on_flush].
    - by split.
    - destruct (react_goes_on env input (runs_chain input) tools (run_context env input skills signed) agentName signed (prompt_ref input tools)
        maxReActIterations 0 w1 Hok1 Hwh1) as [H3 H4]. split; [|done]. by eapply goes_on_trans. }
  clearbody r. destruct r as [out w2]. cbn [fst snd] in *. destruct H2 as [(Hok2 & Hwh2 & Hp2) H3].
  assert (Hc : frame plain_effect w2 (clearNote env w2)).
  { eapply frame_mono; [|apply frame_clearNote]. by intros e; destruct e. }
  assert (H4 : goes_on input w2 (clearNote env w2)).
  { eapply (goes_on_plain input plain_effect []); try done. by apply frame_moved. }
  split; [by eapply goes_on_trans; [split|]|]. destruct Hc as [-> _ _]. done.
Qed.

(** Every run ends whole, with the messages of its output written or not. *)
Lemma run_goes_on res w : AgentWorkflow env input = (res, w) →
  run_ok input w ∧ whole (turn w) ∧
  (∀ out, res = inr out → NewMessages out = turn w ∨ (NewMessages out = [] ∧ turn w = first_messages input)).
Proof.
  unfold AgentWorkflow. cbv zeta. destruct start_run_ok as [Hok0 Hwh0]. set (w0 := start_run input) in *.
  destruct (String.eqb (RunAgent input) ""); [by intros [= <- <-]|].
  pose proof (goes_on_flush env input w0 Hok0 Hwh0) as H1. pose proof (flush_turn input env w0) as Ht1. fold (cancelSafeFlush env input w0) in Ht1.
  set (w1 := cancelSafeFlush env input w0) in *.
  assert (Hstep : ∀ A (e : effect) (k : nat → Err + A) wa r wb, plain_effect e → run_ok input wa ∧ whole (turn wa) ∧ turn wa = turn w0 →
      perform env false e k wa = (r, wb) → run_ok input wb ∧ whole (turn wb) ∧ turn wb = turn w0).
  { intros A e k wa r wb He (Ha & Hb & Hc) E. apply (frame_perform_eq plain_effect) in E; [|done].
    split; [by eapply (plain_frame_ok input plain_effect)|]. destruct E as [-> _ _]. done. }
  assert (Hw1 : run_ok input w1 ∧ whole (turn w1) ∧ turn w1 = turn w0) by (destruct H1 as (? & ? & _); done).
  destruct (perform _ _ (SkillsLoaded _) _ w1) as [skills w2] eqn:E2. pose proof (Hstep _ (SkillsLoaded (RunAgent input)) _ _ _ _ I Hw1 E2) as Hw2.
  destruct skills as [e|skills].
  { intros [= <- <-]. split; [apply Hw2|]. split; [apply Hw2|]. intros out Ho. left. by destruct (ctx_err env w2); simplify_eq. }
  destruct (perform _ _ (ToolsListed _ _) _ w2) as [tools w3] eqn:E3. pose proof (Hstep _ (ToolsListed (RunAgent input) (RunUserID input)) _ _ _ _ I Hw2 E3) as Hw3.
  destruct tools as [e|tools].
  { intros [= <- <-]. split; [apply Hw3|]. split; [apply Hw3|]. intros out Ho. left. by destruct (ctx_err env w3); simplify_eq. }
  destruct Hw3 as (Hok3 & Hwh3 & Ht3). destruct (negb _).
  { intros [= <- <-]. split; [done|]. split; [done|]. intros out [= <-]. right. done. }
  destruct (routed_goes_on skills tools (cmp_or (SkName skills) (RunAgent input))
    (if RunSignReply input then cmp_or (SkName skills) (RunAgent input) else "") w3 Hok3 Hwh3) as [(H4 & H5 & _) H6].
  destruct (routed_run _ _ _ _ _ _ _) as [out w4]. cbn [fst snd] in *. intros [= <- <-].
  split; [done|]. split; [done|]. intros out' [= <-]. by left.
Qed.
End Outputs.
