(* ===== verification/AgentStore.v ===== *)
(** * A turn in the store (src/workflow/agent.go with src/store/postgres.go)

    The writes of a run applied to the messages' table, with whatever else
    writes there meanwhile, and the participant's own write of the run's
    messages once it ended. *)

From S2P Require Import Prelude GoStr Keys Message Convert Store CallInputs Gateway Tasks Participant AgentData AgentLLM AgentTurn AgentSteps AgentTranscript.
Open Scope string_scope.
Open Scope Z_scope.
Open Scope list_scope.

Section Store.
Context (input : RunInput).

Definition message_key (i : nat) : string := TurnMessageKey (RunTurnKey input) (Z.of_nat i).

(** The turn's [i]-th message, as the table has it. *)
Definition turn_message (t : Messages) (i : nat) : option Message :=
  Msg <$> (RowMsg <$> row_under (RunSession input) (message_key i) t).

(** A write of the run: [PersistContext], whose error may come after it. *)
Definition apply_effect (now : time) (e : effect) (t : Messages) : Messages :=
  match e with
  | Persist _ NotWritten => t
  | Persist i _ => AppendMessages now (PcSession i) (PcTurn i) (PcStart i) (PcMessages i) t
  | _ => t
  end.

(** Rows written meanwhile under other keys. *)
Inductive others : Messages → Messages → Prop :=
| others_none t : others t t
| others_insert t now session key msg t' :
    (∀ i, (session, key) ≠ (RunSession input, message_key i)) → others (insert_row now session key msg t).2 t' → others t t'.

Inductive stores : list effect → Messages → Messages → Prop :=
| stores_end t t' : others t t' → stores [] t t'
| stores_step e l now t t1 t' : others t t1 → stores l (apply_effect now e t1) t' → stores (e :: l) t t'.

(** The rows of a turn of [T] messages, in the table's order. *)
Definition own (T : list Message) (m : MessageWithID) : bool := existsb (λ i, String.eqb (Key m) (message_key i)) (seq 0 (length T)).
Definition own_rows (T : list Message) (t : Messages) : list Message := Msg <$> List.filter (own T) (session_rows (RunSession input) t).

(** The table holds the [n] first messages of [T], in order, and nothing else
    under the turn's keys. *)
Definition holds (T : list Message) (n : nat) (t : Messages) : Prop :=
  messages_ok t ∧ (∀ i, turn_message t i = take n T !! i) ∧ own_rows T t = take n T.

Lemma message_key_inj i j : message_key i = message_key j → i = j.
Proof.
  unfold message_key, TurnMessageKey. intros H. apply Nat2Z.inj, itoa_inj; [lia..|].
  rewrite <- !app_assoc_str in H.
  rewrite <- (drop_app_str (RunTurnKey input +:+ ":") (itoa (Z.of_nat i))), H. by rewrite drop_app_str.
Qed.

Lemma own_spec T m : own T m = true ↔ ∃ i, (i < length T)%nat ∧ Key m = message_key i.
Proof.
  unfold own. rewrite existsb_exists. setoid_rewrite in_seq. setoid_rewrite String.eqb_eq.
  split; [intros (i & ? & ?)|intros (i & ? & ?)]; exists i; (split; [lia|done]).
Qed.

Lemma own_row_under T t m : messages_ok t → m ∈ session_rows (RunSession input) t → own T m = true →
  ∃ i, (i < length T)%nat ∧ Key m = message_key i ∧ turn_message t i = Some (Msg m).
Proof.
  intros Hok Hm (i & Hi & Hk)%own_spec. exists i. split_and!; [done..|]. rewrite session_rows_eq in Hm by done.
  apply list_elem_of_fmap in Hm as (r & -> & [Hr Hs%String.eqb_eq]%elem_filter). unfold turn_message. rewrite <- Hk, <- Hs.
  by rewrite (row_under_in t r).
Qed.

Lemma own_none T t : messages_ok t → (∀ i, turn_message t i = None) → own_rows T t = [].
Proof.
  intros Hok Hnone. unfold own_rows. rewrite (proj2 (filter_existsb_nil _ _)); [done|]. apply Forall_forall. intros m Hm.
  destruct (own T m) eqn:E; [|done]. destruct (own_row_under T t m Hok Hm E) as (i & _ & _ & H). by rewrite Hnone in H.
Qed.

Lemma own_insert now session key T m t : messages_ok t →
  own_rows T (insert_row now session key m t).2 =
  own_rows T t ++
  match row_under session key t with
  | None => if String.eqb session (RunSession input) && own T (mkMsg (nextID t) now key m) then [m] else []
  | Some _ => []
  end.
Proof.
  intros Hok. unfold own_rows. rewrite session_rows_insert by done. rewrite List.filter_app, fmap_app. f_equal.
  destruct (row_under _ _ _); [done|]. destruct (String.eqb _ _); [|done]. cbn [List.filter andb]. by destruct (own T _).
Qed.

Lemma insert_own now T n s m t : holds T n t → (s ≤ n)%nat → T !! s = Some m →
  own_rows T (insert_row now (RunSession input) (message_key s) m t).2 = take (n `max` S s) T.
Proof.
  intros (Hok & Ht & Hown) Hs Hm. rewrite own_insert, Hown by done. pose proof (Ht s) as Hts. unfold turn_message in Hts.
  assert (Hlt : (s < length T)%nat) by by eapply lookup_lt_Some.
  destruct (row_under _ _ t) as [r|].
  - rewrite app_nil_r. destruct (decide (s < n)%nat); [by rewrite Nat.max_l by lia|]. by rewrite lookup_take_ge in Hts by lia.
  - destruct (decide (s < n)%nat); [by rewrite lookup_take_lt, Hm in Hts by lia|]. replace n with s by lia. rewrite Nat.max_r by lia.
    rewrite String.eqb_refl, (proj2 (own_spec T _)) by by exists s. cbn [andb]. by rewrite (take_S_r T s m).
Qed.

Lemma insert_holds now T n s m t : holds T n t → (s ≤ n)%nat → T !! s = Some m →
  holds T (n `max` S s) (insert_row now (RunSession input) (message_key s) m t).2.
Proof.
  intros (Hok & Ht & Hown) Hs Hm. pose proof (insert_row_ok now (RunSession input) (message_key s) m t Hok) as Hok'.
  pose proof (insert_own now T n s m t (conj Hok (conj Ht Hown)) Hs Hm) as Hrows.
  pose proof (insert_row_under now (RunSession input) (message_key s) m t Hok) as Hu.
  pose proof (Ht s) as Hts. unfold turn_message in Hts. unfold insert_row in *.
  destruct (row_under _ _ t) as [r|] eqn:E; cbn in *.
  - split; [done|]. assert (S s ≤ n)%nat as Hlt.
    { destruct (decide (s < n)%nat); [lia|]. rewrite lookup_take_ge in Hts by lia. done. }
    rewrite Nat.max_l in * by lia. done.
  - assert (n = s ∨ (length T ≤ n)%nat) as Hn.
    { destruct (decide (s < n)%nat); [|lia]. rewrite lookup_take_lt in Hts by lia. congruence. }
    destruct Hn as [->|Hn]; [|rewrite take_ge in Hts by lia; congruence]. rewrite Nat.max_r by lia.
    destruct Hu as (Hr & Hkeep & Hoth). rewrite Nat.max_r in Hrows by lia. split_and!; [done| |done]. intros i. unfold turn_message. destruct (decide (i = s)) as [->|Hi].
    + rewrite Hr. cbn. by rewrite lookup_take_lt by lia.
    + rewrite Hoth; [|intros [= Hk%message_key_inj]; done]. change (turn_message t i = take (S s) T !! i). rewrite Ht.
      destruct (decide (i < s)%nat); [by rewrite !lookup_take_lt by lia|by rewrite !lookup_take_ge by lia].
Qed.

Lemma append_holds now T n s k t : holds T n t → (s ≤ n)%nat → (s ≤ k ≤ length T)%nat →
  holds T (n `max` k) (AppendMessages now (RunSession input) (RunTurnKey input) (Z.of_nat s) (drop s (take k T)) t).
Proof.
  intros Ht Hs Hk. remember (drop s (take k T)) as ms eqn:Hms. revert s n t Ht Hs Hk Hms.
  induction ms as [|m ms IH]; intros s n t Ht Hs Hk Hms; cbn [AppendMessages].
  - assert (s = k) as ->; [|by rewrite Nat.max_l by lia]. apply (f_equal length) in Hms. rewrite length_drop, length_take in Hms. cbn in Hms. lia.
  - assert (Hsk : (s < k)%nat).
    { apply (f_equal length) in Hms. rewrite length_drop, length_take in Hms. cbn in Hms. lia. }
    assert (Hm : T !! s = Some m).
    { rewrite <- (lookup_take_lt T k s) by lia. pose proof (lookup_drop (take k T) s 0) as Hd. rewrite <- Hms, Nat.add_0_r in Hd. by rewrite <- Hd. }
    assert (Hd : ms = drop (S s) (take k T)).
    { rewrite <- Nat.add_1_r, <- drop_drop, <- Hms. done. }
    pose proof (insert_holds now T n s m t Ht Hs Hm) as H1.
    change (insert_row now (RunSession input) (TurnMessageKey (RunTurnKey input) (Z.of_nat s)) m t)
      with (insert_row now (RunSession input) (message_key s) m t).
    destruct (insert_row _ _ _ _ t) as [[r b] t1]. cbn in H1.
    replace (Z.of_nat s + 1) with (Z.of_nat (S s)) by lia.
    replace (n `max` k)%nat with ((n `max` S s) `max` k)%nat by lia. apply IH; try done; lia.
Qed.

Lemma others_holds T n t t' : others t t' → holds T n t → holds T n t'.
Proof.
  induction 1 as [|t now session key msg t' Hne _ IH]; [done|]. intros (Hok & Ht & Hown). apply IH.
  split; [by apply insert_row_ok|]. split.
  2:{ rewrite own_insert by done. rewrite <- Hown. destruct (row_under session key t); [by rewrite app_nil_r|].
      destruct (String.eqb_spec session (RunSession input)) as [->|]; [|by rewrite app_nil_r]. cbn [andb].
      destruct (own T _) eqn:E; [|by rewrite app_nil_r]. apply own_spec in E as (i & _ & Hk). cbn in Hk. by destruct (Hne i); subst. }
  intros i. rewrite <- Ht. unfold turn_message.
  pose proof (insert_row_under now session key msg t Hok) as Hu. destruct (insert_row _ _ _ _ t) as [[r b] t1]. destruct Hu as (_ & _ & Hu).
  cbn. rewrite Hu; [done|]. intros Heq. by apply (Hne i).
Qed.

Lemma effect_holds T n e now t : effect_ok input T n e → holds T n t →
  holds T (written_after n e) (apply_effect now e t).
Proof.
  destruct e as [i o| | | | | | | | | | | | | | | | | |]; try done. intros (_ & Hs & Ht & s & Hst & k & Hsn & Hsk & Hms & _) Hh.
  assert (Hw : holds T (n `max` (Z.to_nat (PcStart i) + length (PcMessages i)))
      (AppendMessages now (PcSession i) (PcTurn i) (PcStart i) (PcMessages i) t)).
  { rewrite Hs, Ht, Hst, Hms. replace (Z.to_nat (Z.of_nat s) + length (drop s (take k T)))%nat with k; [by apply append_holds|].
    rewrite length_drop, length_take. lia. }
  by destruct o.
Qed.

Lemma stores_holds T n l t t' : log_ok input T n l → stores l t t' → holds T n t → holds T (fold_left written_after l n) t'.
Proof.
  intros Hl Hs. revert n Hl. induction Hs as [t t' Ho|e l now t t1 t' Ho _ IH]; intros n Hl Hh; [by eapply others_holds|].
  destruct Hl as [He Hl]. apply IH; [done|]. apply effect_holds; [done|]. by eapply others_holds.
Qed.

(** What is in the store is whole: a batch ends where the transcript is. *)
Lemma written_whole T n l : log_ok input T n l → whole (take n T) → whole (take (fold_left written_after l n) T).
Proof.
  revert n. induction l as [|e l IH]; intros n; cbn; [done|]. intros [He Hl] Hwh. apply IH; [done|].
  destruct e as [i o| | | | | | | | | | | | | | | | | |]; try done. destruct He as (_ & _ & _ & s & Hst & k & Hsn & Hsk & Hms & Hk).
  assert (Hmax : whole (take (n `max` (Z.to_nat (PcStart i) + length (PcMessages i))) T)).
  { rewrite Hst, Hms, length_drop, length_take. destruct (Nat.max_spec n (Z.to_nat (Z.of_nat s) + (k `min` length T - s)))%nat as [[_ ->]|[_ ->]].
    - replace (Z.to_nat (Z.of_nat s) + (k `min` length T - s))%nat with k by lia. done.
    - done. }
  by destruct o.
Qed.
End Store.

(** ** Properties *)

(** C3. A session turn is written once and whole. At any point of a run, its
    activities failing as they may before or after their write, and others
    writing under their own keys, the store holds a beginning of the turn's
    messages, each once and in order, where every call of a tool is followed
    by its result; and once the run has returned and the participant has
    written the run's messages again, it holds exactly those. *)
Theorem turn_stored_once env {JE : JSONErrors} {GQ : GoQuote} {OJ : OutputJSON} input res w l1 l2 t0 t1 :
  AgentWorkflow env input = (res, w) → RunTurnKey input ≠ "" → log w = l1 ++ l2 →
  messages_ok t0 → (∀ i, turn_message input t0 i = None) → stores input l1 t0 t1 →
  (∃ n, (∀ i, turn_message input t1 i = take n (turn w) !! i) ∧ whole (take n (turn w))) ∧
  (∀ out now, l2 = [] → res = inr out →
     whole (NewMessages out) ∧
     ∀ i, turn_message input (AppendMessages now (RunSession input) (RunTurnKey input) 0 (NewMessages out) t1) i = NewMessages out !! i).
Proof.
  intros Hrun Hkey Hlog Hok Hnone Hst. destruct (run_goes_on env input res w Hrun) as ([Hl _ _] & Hwh & Hout).
  rewrite Hlog in Hl. apply log_ok_app in Hl as [Hl1 _].
  assert (H0 : holds input (turn w) 0 t0) by (split_and!; [done..|by apply own_none]).
  pose proof (stores_holds input (turn w) 0 l1 t0 t1 Hl1 Hst H0) as H1. split.
  - exists (fold_left written_after l1 0%nat). split; [apply H1|]. by apply (written_whole input).
  - intros out now -> ->. assert (Hnew : NewMessages out = turn w).
    { destruct (Hout out eq_refl) as [?|[-> ->]]; [done|]. unfold first_messages. by rewrite (proj2 (String.eqb_neq _ _) Hkey). }
    rewrite Hnew. split; [done|]. intros i.
    pose proof (append_holds input now (turn w) _ 0 (length (turn w)) t1 H1 ltac:(lia) ltac:(lia)) as (_ & H2 & _).
    rewrite drop_0, firstn_all in H2. change 0 with (Z.of_nat 0). rewrite (H2 i). by rewrite take_ge by lia.
Qed.

(** ** A run, from end to end *)

#[local] Instance demo_json_errors : JSONErrors := λ _ _, "".
#[local] Instance demo_quote : GoQuote := λ s, s.
#[local] Instance demo_output : OutputJSON := λ _, None.

Definition demo_input : RunInput :=
  mkRun "s" "u1" "Ann" "jarvis" "" "" "" "m7.jarvis" [] false [] "web" "" None "" false None [] "".

Definition demo_resolution : ToolResolution := mkResolution "activity" "" "tools" false "" false false 0.

(** The model calls a tool, then answers; the write of the call and its result
    fails after it was made. *)
Definition demo_env : Env :=
  mkAgentEnv (λ _, false)
    (λ n _, if (n <? 6)%nat then WrittenUnsaid else Written)
    (λ _, inr (mkSkills "Jarvis" "never" []))
    (λ _, inr (mkTools ["search"] {[ "search" := demo_resolution ]} "" []))
    (λ _ _ _, inr (mkChosen None "" false))
    (λ n _, inr (if (n <? 3)%nat then mkResponse "" [mkCallInfo "c1" "search" "{}"] "tool_use" "m" None (mkPromptMemory None false)
                 else mkResponse "done" [] "end_turn" "m" None (mkPromptMemory None false)))
    (λ _ _, inr noResponse) (λ _, None) (λ _ _, inr "") (λ _ _, None)
    (λ _ _, inr (mkExecOut "found" false [])) (λ _ _, inr "") "" "s:p:jarvis:m7" "agents".

Definition demo_run : (string + AgentWorkflowOutput) * W := AgentWorkflow demo_env demo_input.

Example demo_run_ends :
  Response match demo_run.1 with inr out => out | inl _ => noOutput end = "done" ∧ length (turn demo_run.2) = 3%nat ∧
  length (log demo_run.2) = 10%nat.
Proof. vm_compute. done. Qed.

Lemma turn_stored_once_witness :
  ∃ t1, stores demo_input (log demo_run.2) noMessages t1 ∧
  ∀ i, turn_message demo_input
         (AppendMessages 9 "s" "m7.jarvis" 0 (NewMessages (match demo_run.1 with inr out => out | inl _ => noOutput end)) t1) i =
       NewMessages (match demo_run.1 with inr out => out | inl _ => noOutput end) !! i.
Proof.
  set (t1 := fold_left (λ t e, apply_effect 5 e t) (log demo_run.2) noMessages). exists t1.
  assert (Hst : ∀ l t, stores demo_input l t (fold_left (λ t e, apply_effect 5 e t) l t)).
  { induction l as [|e l IH]; intros t; [apply stores_end, others_none|]. eapply (stores_step _ e l 5); [apply others_none|apply IH]. }
  split; [apply Hst|]. destruct demo_run as [res w] eqn:E. cbn [fst snd] in *. destruct res as [e|out].
  { exfalso. apply (f_equal fst) in E. vm_compute in E. discriminate E. }
  assert (Hlog : log w = log w ++ []) by by rewrite app_nil_r.
  assert (Hnone : ∀ i, turn_message demo_input noMessages i = None) by done.
  exact (proj2 (proj2 (turn_stored_once demo_env demo_input (inr out) w (log w) [] noMessages t1 E ltac:(discriminate) Hlog noMessages_ok Hnone
    (Hst (log w) noMessages)) out 9 eq_refl eq_refl)).
Defined.
