(* ===== verification/AgentRoute.v ===== *)
(** * Where a run's model is called

    An agent's setting decides: never on a machine, on its author's machine
    when one is there, or there only; and a machine the turn left is not
    called again. The activity that chooses a machine (ChooseMachine,
    src/activity/llm_machine.go) reads the machines' tables as they are at
    that moment. *)

From S2P Require Import Prelude GoStr Keys Message Convert CallInputs Gateway Tasks Participant AgentData AgentLLM AgentTurn AgentSteps.
From S2P Require MachineData Choice Directives.
Open Scope string_scope.
Open Scope Z_scope.
Open Scope list_scope.

(** ** The choice of a machine (activity/llm_machine.go) *)

(** [on]: the installation has its machines; [seenAfter]: when those online
    were seen. The error is the database's. *)
Definition ChooseMachine (on : bool) (seenAfter : time) (db : MachineData.MDB) (user : string) (excluded : list string) :
    MachineData.MachineError + ChooseMachineOutput :=
  if negb on then inr (mkChosen None "this installation has its machines off (MACHINES_ENABLED=false)" true)
  else if String.eqb user "" then inr (mkChosen None "the turn has no author whose machine could run its model" false)
  else
    match Directives.ChooseLLMMachine user excluded seenAfter db with
    | inl MachineData.ErrNoMachine => inr (mkChosen None "no machine of the author's is connected with a model to spare" false)
    | inl e => inl e
    | inr m => inr (mkChosen (Some (mkLLMMachine (MachineData.ID m) (MachineData.Name m) (MachineData.LLMModel m))) "" false)
    end.

Lemma chooseMachine_elem l : Choice.chooseMachine l ≠ "" → Choice.chooseMachine l ∈ (Choice.ChID <$> l).
Proof.
  unfold Choice.chooseMachine. enough (∀ b, fold_left Choice.scan l None = Some b → b ∈ l) as H.
  { destruct (fold_left Choice.scan l None) as [b|]; [|done]. intros _. by apply list_elem_of_fmap_2, H. }
  assert (∀ l best b, fold_left Choice.scan l best = Some b → best = Some b ∨ b ∈ l) as H.
  { clear. induction l as [|c l IH]; intros best b; [by left|]. cbn [fold_left]. intros [E|E]%IH; [|right; by right].
    unfold Choice.scan in E. destruct (Choice.skipped c); [by left|]. destruct best as [b'|].
    - destruct (Choice.better c b'); [injection E as <-; right; left|by left].
    - injection E as <-. right. left. }
  intros b [E|E]%H; done.
Qed.

(** The machine chosen is none of those it was told to exclude. *)
Lemma ChooseMachine_fresh on seenAfter db user excluded out m :
  ChooseMachine on seenAfter db user excluded = inr out → ChosenMachine out = Some m → LmID m ∉ excluded.
Proof.
  unfold ChooseMachine. destruct (negb on); [by intros [= <-]|]. destruct (String.eqb user ""); [by intros [= <-]|].
  destruct (Directives.ChooseLLMMachine _ _ _ _) as [e|x] eqn:E; [by destruct e; intros [= <-]|].
  intros [= <-] [= <-]. cbn. unfold Directives.ChooseLLMMachine in E. cbv zeta in E.
  set (ms := Directives.llm_candidates _ _ _ _) in E. set (full := List.filter _ ms) in E. set (free := Choice.chooseMachine _) in E.
  destruct (List.find _ _) as [y|] eqn:Ef; [injection E as ->|done].
  apply List.find_some in Ef as [_ Ef]. apply andb_true_iff in Ef as [Hne Hid]. apply negb_true_iff, String.eqb_neq in Hne.
  apply String.eqb_eq in Hid. rewrite Hid.
  assert (∀ z, z ∈ ms → MachineData.ID z ∉ excluded) as Hms.
  { intros z [_ [Hz _]%andb_true_iff]%elem_filter. apply contains_false. by apply negb_true_iff. }
  destruct (String.eqb_spec free "") as [|Hfree].
  - apply chooseMachine_elem in Hne. rewrite <- list_fmap_compose in Hne. apply list_elem_of_fmap in Hne as (z & -> & Hz).
    cbn. apply Hms. by apply elem_filter in Hz as [? _].
  - apply chooseMachine_elem in Hfree. unfold free in *. rewrite <- list_fmap_compose in Hfree. apply list_elem_of_fmap in Hfree as (z & -> & Hz).
    cbn. by apply Hms.
Qed.

(** ** Steps that keep the route *)

Lemma route_perform {A} env detached e (k : nat → Err + A) w : route (perform env detached e k w).2 = route w.
Proof. unfold perform. by destruct (_ && _). Qed.

Lemma route_perform_eq {A} env detached e (k : nat → Err + A) w r w' : perform env detached e k w = (r, w') → route w' = route w.
Proof. intros E. pose proof (route_perform env detached e k w) as H. by rewrite E in H. Qed.

Lemma route_notify env detached e w : route (notify env detached e w) = route w.
Proof. apply route_perform. Qed.

Lemma route_flush env input w : route (flush env input w) = route w.
Proof. unfold flush. cbv zeta. destruct (_ || _); [done|]. by destruct (persist_result _ _ _). Qed.

Section Keeps.
Context (env : Env) {JE : JSONErrors} {GQ : GoQuote} {OJ : OutputJSON}.
Context (input : RunInput) (chain : list string) (tools : ListToolsOutput) (cc0 : CallContext).

Lemma route_dispatch_call i j tc w : route (dispatch_call env input chain tools cc0 i j tc w).2 = route w.
Proof.
  unfold dispatch_call. destruct (Resolutions tools !! InfoName tc) as [res|]; [|done]. cbv zeta.
  destruct (take_background input res (InfoInput tc)) as [e|[ti bg]]; [done|]. destruct (String.eqb (ResKind res) ToolKindWorkflow).
  - unfold dispatch_workflow. cbv zeta. destruct (buildChildInput _ _ _ _ _ _ _) as [e|[c queue]]; [done|].
    destruct (if negb _ then _ else None); [done|]. destruct bg.
    + destruct (newBackgroundStart _ _ _ _ _ _ _ _ _) as [e|[t bi]]; [done|]. unfold launch.
      destruct (perform _ _ _ _ _) as [r w1] eqn:E. apply route_perform_eq in E. destruct r as [e|refused]; [done|]. by destruct (negb _).
    + unfold send_child. by destruct (ctx_err env w).
  - unfold send_activity. cbv zeta. by destruct (ctx_err env w).
Qed.

Lemma route_dispatch_all i j calls w : route (dispatch_all env input chain tools cc0 i j calls w).2 = route w.
Proof.
  revert j w. induction calls as [|tc calls IH]; intros j w; cbn; [done|].
  pose proof (route_dispatch_call i j tc w) as H1. destruct (dispatch_call _ _ _ _ _ _ _ _ _) as [d w1].
  specialize (IH (j + 1) w1). destruct (dispatch_all _ _ _ _ _ _ _ _ w1) as [ds w2]. cbn in *. congruence.
Qed.

Lemma route_future {A} id sent (k : nat → Err + A) w r w' : get_future env id sent k w = (r, w') → route w' = route w.
Proof. unfold get_future. destruct sent; [apply route_perform_eq|by intros [= _ <-]]. Qed.

Lemma route_collect_call tc d w : route (collect_call env tc d w).2 = route w.
Proof.
  destruct d as [why|t|c sent|i queue sent]; cbn; [done|..].
  - unfold started. destruct (perform _ _ _ _ _) as [r w1] eqn:E. apply route_perform_eq in E. destruct r; cbn; by rewrite route_notify.
  - destruct (get_future _ _ _ _ _) as [r w1] eqn:E. apply route_future in E. by destruct r.
  - destruct (get_future _ _ _ _ _) as [r w1] eqn:E. apply route_future in E. by destruct r.
Qed.

Lemma route_collect_all calls w : route (collect_all env calls w).2 = route w.
Proof.
  revert w. induction calls as [|[tc d] calls IH]; intros w; cbn; [done|].
  pose proof (route_collect_call tc d w) as H1. destruct (collect_call _ _ _ _) as [[[content isError] files] w1].
  specialize (IH (set_turn (turn w1 ++ [result_message (InfoID tc) content isError]) w1)).
  destruct (collect_all _ _ _) as [more w2]. cbn in *. congruence.
Qed.
End Keeps.

(** ** The invariant *)

Section Where.
Context (input : RunInput) (mode : string).

(** The run may use a machine: a session's turn or a sub-agent, of an agent
    not set to never. *)
Definition scope : bool := negb (String.eqb mode LLMOnMachineNever) && (negb (String.eqb (RunTurnKey input) "") || negb (bool_decide (AgentChain input = []))).
Definition required : bool := scope && String.eqb mode LLMOnMachineRequire.

Definition where_ok (e : effect) : Prop :=
  match e with
  | ServerCalled _ => required = false
  | MachineCalled _ | MachineAsked _ _ | MachineAside _ => scope = true
  | _ => True
  end.

(** A machine excluded when another was asked for is not called after. *)
Definition never_again (l : list effect) : Prop :=
  ∀ l1 u ex l2 i, l = l1 ++ MachineAsked u ex :: l2 → MachineCalled i ∈ l2 → McMachine i ∉ ex.

(** A choice is told of every machine the run has called, and of those its
    input excludes. *)
Definition asks_tell (l : list effect) : Prop :=
  ∀ l1 u ex l2, l = l1 ++ MachineAsked u ex :: l2 → RunExcluded input ⊆ ex ∧ ∀ i, MachineCalled i ∈ l1 → McMachine i ∈ ex.

(** Once on the server's key, a run stays there. *)
Definition server_stays (l : list effect) : Prop :=
  ∀ l1 req l2 e, l = l1 ++ ServerCalled req :: l2 → e ∈ l2 → match e with MachineCalled _ | MachineAsked _ _ => False | _ => True end.

(** The machines called: left, with the run on the server's key, or the route's
    own. *)
Definition accounted (w : W) : Prop :=
  ∀ i, MachineCalled i ∈ log w →
    McMachine i ∈ Excluded (route w) ∨ (OnMachine (route w) = None ∧ required = false) ∨ ∃ m, OnMachine (route w) = Some m ∧ LmID m = McMachine i.

Record routed (w : W) : Prop := {
  ro_mode : Mode (route w) = mode;
  ro_never : scope = false → OnMachine (route w) = None;
  ro_own : ∀ m, OnMachine (route w) = Some m → LmID m ∉ Excluded (route w);
  ro_asked : ∀ u ex, MachineAsked u ex ∈ log w → ex ⊆ Excluded (route w);
  ro_again : never_again (log w);
  ro_where : Forall where_ok (log w);
  ro_input : RunExcluded input ⊆ Excluded (route w);
  ro_accounted : accounted w;
  ro_server : ∀ req, ServerCalled req ∈ log w → OnMachine (route w) = None;
  ro_tell : asks_tell (log w);
  ro_stays : server_stays (log w)
}.

(** What the run must hold for an effect to be added. *)
Definition may_do (w : W) (e : effect) : Prop :=
  where_ok e ∧
  match e with
  | MachineCalled i => McMachine i ∉ Excluded (route w) ∧ ∃ m, OnMachine (route w) = Some m ∧ LmID m = McMachine i
  | MachineAsked _ ex =>
      ex = Excluded (route w) ∧ (∀ i, MachineCalled i ∈ log w → McMachine i ∈ Excluded (route w)) ∧ ∀ req, ServerCalled req ∉ log w
  | ServerCalled _ => OnMachine (route w) = None
  | _ => True
  end.

Lemma snoc_split {A} (l l1 l2 : list A) x e :
  l ++ [e] = l1 ++ x :: l2 → (l2 = [] ∧ l1 = l ∧ x = e) ∨ ∃ l3, l2 = l3 ++ [e] ∧ l = l1 ++ x :: l3.
Proof.
  intros E. destruct l2 as [|e' l3 _] using rev_ind.
  - apply app_inj_tail in E as [-> ->]. by left.
  - right. exists l3. rewrite app_comm_cons, app_assoc in E. by apply app_inj_tail in E as [-> ->].
Qed.

Lemma routed_log w w' e : routed w → may_do w e → route w' = route w → log w' = log w ++ [e] → routed w'.
Proof.
  intros [H1 H2 H3 H4 H5 H6 H7 H8 H9 H10 H11] [He He'] Hr Hl. split; rewrite ?Hr, ?Hl; try done.
  - intros u ex [Hin|Hin%list_elem_of_singleton]%elem_of_app; [by eapply H4|]. subst e. by destruct He' as [-> _].
  - intros l1 u ex l2 i E Hin. apply snoc_split in E as [(-> & _ & _)|(l3 & -> & E)]; [by apply not_elem_of_nil in Hin|].
    apply elem_of_app in Hin as [Hin|Hin%list_elem_of_singleton]; [by eapply H5|]. subst e. destruct He' as [He' _].
    assert (ex ⊆ Excluded (route w)); [|set_solver]. apply (H4 u). rewrite E. apply elem_of_app. right. left.
  - apply Forall_app. split; [done|]. by constructor.
  - intros i Hin. rewrite Hr. rewrite Hl in Hin. apply elem_of_app in Hin as [Hin|Hin%list_elem_of_singleton]; [by apply H8|].
    subst e. right. right. apply He'.
  - intros req [Hin|Hin%list_elem_of_singleton]%elem_of_app; [by eapply H9|]. by subst e.
  - intros l1 u ex l2 E. apply snoc_split in E as [(-> & -> & <-)|(l3 & -> & E)]; [|by eapply H10].
    destruct He' as (-> & Hc & _). by split.
  - intros l1 req l2 e' E Hin. apply snoc_split in E as [(-> & _ & _)|(l3 & -> & E)]; [by apply not_elem_of_nil in Hin|].
    apply elem_of_app in Hin as [Hin|Hin%list_elem_of_singleton]; [by eapply H11|]. subst e'.
    assert (ServerCalled req ∈ log w) as Hs by (rewrite E; apply elem_of_app; right; left). specialize (H9 req Hs).
    destruct e; try done; [destruct He' as (_ & _ & Hno); by destruct (Hno req)|destruct He' as (_ & m & Hm & _); congruence].
Qed.

(** Effects that are no call to a model. *)
Definition elsewhere (e : effect) : Prop := match e with ServerCalled _ | MachineCalled _ | MachineAsked _ _ | MachineAside _ => False | _ => True end.

Lemma elsewhere_may w e : elsewhere e → may_do w e.
Proof. by destruct e. Qed.

Lemma routed_logs w w' l : routed w → Forall elsewhere l → route w' = route w → log w' = log w ++ l → routed w'.
Proof.
  revert w w'. induction l as [|e l IH] using rev_ind; intros w w' Hw Hl Hr Hlog.
  - destruct Hw. rewrite app_nil_r in Hlog. split; unfold accounted in *; rewrite ?Hr, ?Hlog; done.
  - apply Forall_app in Hl as [Hl He]. apply Forall_cons in He as [He _].
    set (w1 := mkW (turn w) (persisted w) (route w) (memory w) (waits w) (log w ++ l)).
    apply (routed_log w1 w' e); [by apply (IH w w1)|by apply elsewhere_may|done|]. by rewrite Hlog, app_assoc.
Qed.

Lemma routed_perform {A} env detached e (k : nat → Err + A) w r w' :
  perform env detached e k w = (r, w') → routed w → may_do w e → routed w' ∧ route w' = route w.
Proof.
  intros E Hw He. pose proof (route_perform_eq _ _ _ _ _ _ _ E) as Hr. split; [|done]. unfold perform in E.
  destruct (_ && _); injection E as _ <-; [done|]. by eapply routed_log.
Qed.

Lemma routed_route r w : routed w → Mode r = mode → (scope = false → OnMachine r = None) →
  (∀ m, OnMachine r = Some m → LmID m ∉ Excluded r) → Excluded (route w) ⊆ Excluded r →
  accounted (set_route r w) → (∀ req, ServerCalled req ∈ log w → OnMachine r = None) → routed (set_route r w).
Proof.
  intros [H1 H2 H3 H4 H5 H6 H7 H8 H9 H10 H11] ??????. split; cbn; try done; [|set_solver].
  intros u ex Hin. specialize (H4 u ex Hin). set_solver.
Qed.

Lemma routed_note env detached text w : routed w → routed (note env detached text w) ∧
  OnMachine (route (note env detached text w)) = OnMachine (route w).
Proof.
  intros Hw. unfold note. destruct (_ || _); [done|]. cbv zeta. set (e := Noticed _ _ _ _).
  destruct (perform env detached e (λ _, inr tt) w) as [r w1] eqn:E.
  destruct (routed_perform _ _ _ _ _ _ _ E Hw) as [H1 Hr]; [done|]. unfold notify. rewrite E. cbn [snd]. split; [|cbn; by rewrite Hr].
  destruct H1. by apply routed_route.
Qed.

Lemma routed_to_server w : routed w → required = false → routed (to_server w).
Proof.
  intros Hw Hr. unfold to_server. apply routed_route; cbn; try done; [by destruct Hw|].
  intros i Hin. cbn. by right; left.
Qed.

(** The machines [ChooseMachine] answers with are not those excluded. *)
Context (env : Env).
Hypothesis chosen_fresh : ∀ n u ex out m, choose_result env n u ex = inr out → ChosenMachine out = Some m → LmID m ∉ ex.

Lemma routed_choose userID w found w' : choose env userID w = (found, w') → routed w → scope = true →
  (∀ i, MachineCalled i ∈ log w → McMachine i ∈ Excluded (route w)) → (∀ req, ServerCalled req ∉ log w) →
  routed w' ∧ (found = true → mode = LLMOnMachineRequire → OnMachine (route w') ≠ None).
Proof.
  intros E Hw Hs Hcalled Hserver. unfold choose in E. destruct (perform _ _ _ _ w) as [res w1] eqn:E1.
  destruct (routed_perform _ _ _ _ _ _ _ E1 Hw) as [Hw1 Hr]; [by split|].
  assert (Hlog : ∀ e, e ∈ log w1 → e ∈ log w ∨ ∃ u ex, e = MachineAsked u ex).
  { intros e He. unfold perform in E1. destruct (_ && _); injection E1 as _ <-; [by left|].
    apply elem_of_app in He as [He|He%list_elem_of_singleton]; [by left|right; by eexists _, _]. }
  injection E as <- <-. cbv zeta. cbn [route set_route Mode with_machine]. pose proof (ro_mode _ Hw1) as Hm. split.
  - apply routed_route; cbn; try done; [by rewrite Hs| |intros i Hin; left; cbn|intros req Hin].
    2: { destruct (Hlog _ Hin) as [Hin'|(? & ? & ?)]; [|done]. rewrite Hr. by apply Hcalled. }
    2: { destruct (Hlog _ Hin) as [Hin'|(? & ? & ?)]; [by apply Hserver in Hin'|done]. }
    destruct Hw1 as [H1 H2 H3 H4 H5 H6 _ _ _ _ _].
    intros m Hc. unfold perform in E1. destruct (_ && _); injection E1 as <- <-; [done|].
    destruct (choose_result env (waits w) userID (Excluded (route w))) as [|out] eqn:Ec; [done|]. by eapply chosen_fresh.
  - intros Hf Hreq. rewrite Hm, Hreq in Hf. cbn in *. by destruct (ChosenMachine _).
Qed.

Lemma routed_exclude m e w : routed w → OnMachine (route w) = Some m → ∀ r,
  r = route (exclude m e w) → Mode r = mode ∧ Excluded (route w) ⊆ Excluded r ∧ OnMachine r = Some m.
Proof. intros Hw Hm r ->. cbn. destruct Hw. split; [done|]. split; [set_solver|done]. Qed.

(** ** One step's call *)

(** A call returned from [w'] with what the run goes on from. *)
Definition call_post (out : CallOut) (w' : W) : Prop :=
  routed w' ∧ (required = true → OutErr out = None → RespCalls (OutResponse out) ≠ [] → OnMachine (route w') ≠ None).

Lemma post_error out w : routed w → OutErr out ≠ None ∨ RespCalls (OutResponse out) = [] → call_post out w.
Proof. intros Hw [H|H]; (split; [done|]); intros; congruence. Qed.

Lemma routed_onServer req w : routed w → required = false → OnMachine (route w) = None → call_post (onServer env req w).1 (onServer env req w).2.
Proof.
  intros Hw Hr Hno. unfold onServer. destruct (perform _ _ _ _ w) as [res w1] eqn:E.
  destruct (routed_perform _ _ _ _ _ _ _ E Hw) as [Hw1 _]; [done|]. split; [done|]. by rewrite Hr.
Qed.

Lemma required_mode w : routed w → scope = true → String.eqb (Mode (route w)) LLMOnMachineRequire = required.
Proof. intros Hw Hs. unfold required. rewrite Hs, (ro_mode _ Hw). done. Qed.

Lemma routed_server_noted req text w : routed w → required = false →
  let r := onServer env req (note env false text (to_server w)) in call_post r.1 r.2.
Proof.
  intros Hw Hr. destruct (routed_note env false text (to_server w)) as [H1 H2]; [by apply routed_to_server|].
  apply routed_onServer; [done|done|]. by rewrite H2.
Qed.

Lemma routed_exhausted last req w : routed w → scope = true →
  call_post (exhausted env last req w).1 (exhausted env last req w).2.
Proof.
  intros Hw Hs. unfold exhausted. rewrite (required_mode w Hw Hs). destruct required eqn:E; [|by apply routed_server_noted].
  by apply post_error; [|right].
Qed.

(** A machine that failed, left: excluded, and no longer the route's own. *)
Lemma routed_left m e aside w : routed w → scope = true → OnMachine (route w) = Some m →
  ∃ w1, w1 = exclude m e (if aside : bool then setAside env (LmID m) w else w) ∧
    routed (to_server w1) ∧ Mode (route w1) = mode ∧
    ∀ userID found w', choose env userID w1 = (found, w') →
      routed w' ∧ (found = true → mode = LLMOnMachineRequire → OnMachine (route w') ≠ None).
Proof.
  intros Hw Hs Hm. eexists. split; [reflexivity|]. set (w0 := if aside then _ else _).
  assert (H0 : routed w0 ∧ route w0 = route w).
  { subst w0. destruct aside; [|done]. unfold setAside, notify. destruct (perform _ _ _ _ w) as [r w'] eqn:E.
    by eapply routed_perform. }
  destruct H0 as [H0 Hr0]. assert (Hm0 : OnMachine (route w0) = Some m) by congruence.
  assert (Hserver : ∀ req, ServerCalled req ∉ log w0) by (intros req Hin; apply (ro_server _ H0) in Hin; congruence).
  assert (Hcalled : ∀ i, MachineCalled i ∈ log w0 → McMachine i ∈ Excluded (route w0) ++ [LmID m]).
  { intros i Hin. destruct (ro_accounted _ H0 i Hin) as [Hx|[[Hx _]|(m' & Hx & Hid)]]; [set_solver|congruence|].
    assert (m' = m) as -> by congruence. rewrite Hid. set_solver. }
  assert (H1 : routed (to_server (exclude m e w0))).
  { change (to_server (exclude m e w0)) with (set_route (route (to_server (exclude m e w0))) w0). apply routed_route; cbn; try done.
    - by destruct H0.
    - set_solver.
    - intros i Hin. left. by apply Hcalled. }
  split; [done|]. split; [by destruct H1|]. intros userID found w' E.
  (* the choice replaces the machine: the same from the server's route *)
  unfold choose in E. destruct (perform _ _ _ _ _) as [res w2] eqn:E2.
  assert (E' : ∃ res' w3, perform env false (MachineAsked userID (Excluded (route (to_server (exclude m e w0)))))
      (λ n, choose_result env n userID (Excluded (route (to_server (exclude m e w0))))) (to_server (exclude m e w0)) = (res', w3) ∧
      res' = res ∧ w3 = to_server w2).
  { unfold perform in *. unfold ctx_err in *. cbn [waits to_server set_route]. destruct (_ && _); injection E2 as <- <-; by eexists _, _. }
  destruct E' as (res' & w3 & E3 & -> & ->).
  apply (routed_choose userID (to_server (exclude m e w0)) found w'); [|done..].
  unfold choose. rewrite E3. injection E as <- <-. done.
Qed.

Lemma routed_attempts more attempt step userID req last w : routed w → scope = true →
  call_post (attempts env more attempt step userID req last w).1 (attempts env more attempt step userID req last w).2.
Proof.
  intros Hw Hs. revert attempt last w Hw. induction more as [|more IH]; intros attempt last w Hw; [by apply routed_exhausted|].
  cbn [attempts]. destruct (OnMachine (route w)) as [m|] eqn:Hm; [|by apply routed_exhausted]. cbv zeta.
  destruct (perform _ _ _ _ w) as [res w1] eqn:E.
  destruct (routed_perform _ _ _ _ _ _ _ E Hw) as [Hw1 Hr1]; [split; [done|split; [by eapply ro_own|by exists m]]|].
  destruct res as [e|resp]; [|split; [done|]; intros; cbn; by rewrite Hr1, Hm].
  destruct (ctx_err env w1 || IsCanceledError e); [by apply post_error; [|left]|].
  assert (Hm1 : OnMachine (route w1) = Some m) by by rewrite Hr1.
  rewrite (required_mode w1 Hw1 Hs). destruct (machineFailure e) as [kind aside]. cbn [fst snd].
  destruct (routed_left m e aside w1 Hw1 Hs Hm1) as (w2 & Hw2 & Hserver & Hmode & Hchoose). rewrite <- Hw2.
  assert (Hmoved : call_post
      (if required
       then let '(found, w2) := choose env userID w2 in
            if negb found then (mkOut noResponse None (noMachine env w2), w2)
            else attempts env more (attempt + 1) step userID req (Some e)
                   (match OnMachine (route w2) with Some m => note env false (onMachineNote m) w2 | None => w2 end)
       else onServer env req (note env false ("modèle de l'installation : la machine « " +:+ LmName m +:+ " » ne répond plus") (to_server w2))).1
      (if required
       then let '(found, w2) := choose env userID w2 in
            if negb found then (mkOut noResponse None (noMachine env w2), w2)
            else attempts env more (attempt + 1) step userID req (Some e)
                   (match OnMachine (route w2) with Some m => note env false (onMachineNote m) w2 | None => w2 end)
       else onServer env req (note env false ("modèle de l'installation : la machine « " +:+ LmName m +:+ " » ne répond plus") (to_server w2))).2).
  { destruct required eqn:Er.
    - destruct (choose env userID w2) as [found w3] eqn:E3. destruct (Hchoose _ _ _ E3) as [Hw3 _].
      destruct found; cbn [negb]; [|by apply post_error; [|right]]. apply IH. destruct (OnMachine (route w3)); [by apply routed_note|done].
    - match goal with |- context [note env false ?t ?v] => destruct (routed_note env false t v Hserver) as [H3 H4] end.
      apply routed_onServer; [done|done|by rewrite H4]. }
  destruct kind; [|by apply post_error; [|left]|exact Hmoved|exact Hmoved|].
  - destruct more as [|more]; [by apply routed_exhausted|].
    destruct (perform _ _ (Slept _) _ w1) as [slept w3] eqn:E3.
    destruct (routed_perform _ _ _ _ _ _ _ E3 Hw1) as [Hw3 _]; [done|]. destruct slept; [by apply post_error; [|left]|by apply IH].
  - destruct required eqn:Er; [by apply post_error; [|left]|]. by apply routed_server_noted.
Qed.

Lemma routed_call step userID req w : routed w → (required = true → OnMachine (route w) ≠ None) →
  call_post (call env step userID req w).1 (call env step userID req w).2.
Proof.
  intros Hw Hm. unfold call. destruct (OnMachine (route w)) as [m|] eqn:E.
  - apply routed_attempts; [done|]. destruct scope eqn:Es; [done|]. by rewrite (ro_never _ Hw) in E.
  - apply routed_onServer; [done| |done]. destruct required eqn:Er; [|done]. by destruct (Hm eq_refl).
Qed.

(** ** The loop *)

Context {JE : JSONErrors} {GQ : GoQuote} {OJ : OutputJSON}.

Lemma routed_moved (P : effect → Prop) ms w w' : (∀ e, P e → elsewhere e) → moved P ms w w' → route w' = route w → routed w → routed w'.
Proof.
  intros HP (_ & _ & l & Hl & Hf) Hr Hw. eapply routed_logs; [done| |done|done]. eapply Forall_impl; [exact Hf|]. intros e He. by apply HP.
Qed.

Lemma routed_notify detached e w : elsewhere e → routed w → routed (notify env detached e w).
Proof.
  intros He Hw. eapply (routed_moved elsewhere []); [done|by apply frame_moved, frame_notify|by apply route_notify|done].
Qed.

Lemma routed_flush w : routed w → routed (cancelSafeFlush env input w).
Proof.
  intros Hw. unfold cancelSafeFlush, flush. cbv zeta. destruct (_ || _); [done|].
  assert (Hd : ∀ i o, routed (did (Persist i o) w)) by (intros i o; by apply (routed_log w _ (Persist i o))).
  destruct (persist_result _ _ _); [|apply Hd..].
  destruct (Hd (mkPersist (RunSession input) (RunTurnKey input) (Z.of_nat (persisted w)) (drop (persisted w) (turn w))) Written). by split.
Qed.

Context (chain : list string) (tools : ListToolsOutput) (cc0 : CallContext) (agentName signed : string) (prompt : PromptRef).

Definition live (w : W) : Prop := routed w ∧ (required = true → OnMachine (route w) ≠ None).

Lemma routed_tools i resp on w : routed w →
  routed (run_tools env input chain tools cc0 agentName i resp on w) ∧
  route (run_tools env input chain tools cc0 agentName i resp on w) = route w.
Proof.
  intros Hw. unfold run_tools. cbv zeta. set (w1 := set_turn _ w). set (w2 := notify _ _ _ w1).
  assert (H2 : routed w2) by (apply routed_notify; [done|by destruct Hw]).
  assert (Hr2 : route w2 = route w) by by (unfold w2; rewrite route_notify).
  destruct (dispatch_all_frame env input chain tools cc0 i 0 (RespCalls resp) w2) as [H3 _].
  pose proof (route_dispatch_all env input chain tools cc0 i 0 (RespCalls resp) w2) as Hr3.
  destruct (dispatch_all _ _ _ _ _ _ _ _ w2) as [ds w3]. cbn in H3, Hr3.
  assert (Hw3 : routed w3).
  { eapply (routed_moved _ []); [|by apply frame_moved|done|done]. by intros e; destruct e. }
  destruct (collect_all_moved env (zip (RespCalls resp) ds) w3) as (rs & H4 & _).
  pose proof (route_collect_all env (zip (RespCalls resp) ds) w3) as Hr4. destruct (collect_all _ _ w3) as [published w4]. cbn in H4, Hr4.
  assert (Hw4 : routed w4) by (eapply routed_moved; [|exact H4|done|done]; by intros e; destruct e).
  assert (H5 : routed (cancelSafeFlush env input w4) ∧ route (cancelSafeFlush env input w4) = route w).
  { split; [by apply routed_flush|]. unfold cancelSafeFlush. rewrite route_flush. congruence. }
  destruct H5 as [H5 Hr5]. destruct published; [done|]. destruct (CtxTurn cc0); [|done]. split; [by apply routed_notify|]. by rewrite route_notify.
Qed.

Lemma routed_iteration i w : live w →
  let r := iteration env input chain tools cc0 agentName signed prompt i w in routed r.2 ∧ (r.1 = None → live r.2).
Proof.
  intros [Hw Hl]. unfold iteration. destruct (ctx_err env w); [cbn; split; [by apply routed_flush|done]|].
  destruct (routed_call i (RunUserID input) (llmRequest input tools prompt w) w Hw Hl) as [Hw1 Hpost].
  destruct (call _ _ _ _ _) as [co w1]. cbn [fst snd] in *. destruct (OutErr co) as [e|]; [cbn; split; [by apply routed_flush|done]|].
  cbv zeta. set (w2 := set_memory _ w1). assert (Hw2 : routed w2) by by destruct Hw1.
  destruct (RespCalls (OutResponse co)) eqn:Ec.
  - unfold finish_run. cbv zeta. cbn [fst snd]. split; [|done]. apply routed_notify; [done|]. apply routed_flush.
    destruct (String.eqb _ _); [done|]. by destruct Hw2.
  - cbn [fst snd]. destruct (routed_tools i (OutResponse co) (OutMachine co) w2 Hw2) as [H3 Hr3]. split; [done|].
    intros _. split; [done|]. rewrite Hr3. intros Hreq. by apply Hpost.
Qed.

Lemma routed_react more i w : live w → routed (react env input chain tools cc0 agentName signed prompt more i w).2.
Proof.
  revert i w. induction more as [|more IH]; intros i w Hw; cbn [react]; cbv zeta; [by apply routed_flush, Hw|].
  destruct (routed_iteration i w Hw) as [H1 H2]. destruct (iteration _ _ _ _ _ _ _ _ _ _) as [o w1]. cbn [fst snd] in *.
  destruct o as [out|]; [done|]. by apply IH, H2.
Qed.
End Where.

(** ** The whole run *)

Lemma never_again_quiet l : Forall elsewhere l → never_again l.
Proof.
  intros Hl l1 u ex l2 i -> Hin. apply Forall_app in Hl as [_ Hl]. apply Forall_cons in Hl as [Hl _]. done.
Qed.

Lemma asks_tell_quiet input l : Forall elsewhere l → asks_tell input l.
Proof. intros Hl l1 u ex l2 ->. apply Forall_app in Hl as [_ Hl]. by apply Forall_cons in Hl as [[] _]. Qed.

Lemma server_stays_quiet l : Forall elsewhere l → server_stays l.
Proof. intros Hl l1 req l2 e ->. apply Forall_app in Hl as [_ Hl]. by apply Forall_cons in Hl as [[] _]. Qed.

Section Run.
Context (env : Env) {JE : JSONErrors} {GQ : GoQuote} {OJ : OutputJSON} (input : RunInput).
Hypothesis chosen_fresh : ∀ n u ex out m, choose_result env n u ex = inr out → ChosenMachine out = Some m → LmID m ∉ ex.
Hypothesis own_fresh : ∀ m, RunMachine input = Some m → LmID m ∉ RunExcluded input.

Definition mode_of (skills : LoadSkillsOutput) : string :=
  if String.eqb (SkOnMachine skills) "" then LLMOnMachineNever else SkOnMachine skills.

(** Once its mode is known, a run that called no model yet. *)
Lemma routed_start skills signed w failed w' : Forall elsewhere (log w) →
  startLLMRoute env input (SkOnMachine skills) signed w = (failed, w') →
  routed input (mode_of skills) w' ∧
  (failed = None → ctx_err env w' = false → required input (mode_of skills) = true → OnMachine (route w') ≠ None).
Proof.
  intros Hlog E. unfold startLLMRoute in E. cbv zeta in E. fold (mode_of skills) in E. set (mode := mode_of skills) in *.
  set (w1 := set_route _ w) in E.
  assert (Hq : ∀ e, e ∈ log w → elsewhere e) by by apply Forall_forall.
  assert (H0 : ∀ r, Mode r = mode → OnMachine r = None → Excluded r = RunExcluded input → routed input mode (set_route r w)).
  { intros r Hr Hm Hx. split; cbn; rewrite ?Hm, ?Hx; try done.
    - by intros u ex Hin%Hq.
    - by apply never_again_quiet.
    - eapply Forall_impl; [exact Hlog|]. by intros e; destruct e.
    - by intros i Hin%Hq.
    - by apply asks_tell_quiet.
    - by apply server_stays_quiet. }
  assert (Hscope : scope input mode = negb (String.eqb mode LLMOnMachineNever ||
    (String.eqb (RunTurnKey input) "" && bool_decide (AgentChain input = [])))).
  { unfold scope. by rewrite negb_orb, negb_andb. }
  destruct (String.eqb mode LLMOnMachineNever || _) eqn:Es; cbn in Hscope.
  { injection E as <- <-. split; [by apply H0|]. unfold required. by rewrite Hscope. }
  set (w2 := if String.eqb (RunTurnKey input) "" then w1 else _) in E.
  assert (Hw2 : routed input mode w2 ∧ Excluded (route w2) = RunExcluded input ∧ log w2 = log w).
  { subst w2 w1. destruct (String.eqb (RunTurnKey input) ""); (split; [by apply H0|done]). }
  destruct Hw2 as (Hw2 & Hex & Hlog2). rewrite <- Hlog2 in Hq.
  destruct (match RunMachine input with Some _ => _ | None => _ end) as [found w3] eqn:E3.
  assert (Hw3 : routed input mode w3 ∧ (found = true → mode = LLMOnMachineRequire → OnMachine (route w3) ≠ None)).
  { destruct (RunMachine input) as [m|] eqn:Em.
    - injection E3 as <- <-. split; [|done]. apply routed_route; cbn; try done; [by destruct Hw2|by rewrite Hscope|..].
      + intros m' [= <-]. rewrite Hex. by apply own_fresh.
      + by intros i Hin%Hq.
      + by intros req Hin%Hq.
    - eapply (routed_choose input mode env chosen_fresh); [done|done|by rewrite Hscope|by intros i Hin%Hq|by intros req Hin%Hq]. }
  destruct Hw3 as [Hw3 Hf]. assert (Hreq : required input mode = true → mode = LLMOnMachineRequire).
  { intros Hr. unfold required in Hr. apply andb_true_iff in Hr as [_ Hr]. by apply String.eqb_eq in Hr. }
  destruct found; cbn [negb] in E.
  - injection E as <- <-. destruct (OnMachine (route w3)) as [m|] eqn:Em.
    + destruct (routed_note input mode env false (onMachineNote m) w3 Hw3) as [H4 H5]. split; [done|]. intros _ _ _. by rewrite H5, Em.
    + split; [done|]. intros _ _ Hr. rewrite Em. by apply Hf; [|apply Hreq].
  - injection E as <- <-. split; [done|]. intros Hno Hc Hr. exfalso. unfold noMachine in Hno.
    rewrite (ro_mode _ _ _ Hw3), (Hreq Hr), Hc in Hno. cbn [negb orb String.eqb] in Hno. rewrite String.eqb_refl in Hno. cbn [negb orb] in Hno.
    destruct (Off _); [done|]. by destruct (negb _ && _).
Qed.

Lemma routed_run_where skills tools agentName signed w : Forall elsewhere (log w) →
  routed input (mode_of skills) (routed_run env input skills tools agentName signed w).2.
Proof.
  intros Hlog. unfold routed_run. destruct (startLLMRoute _ _ _ _ _) as [failed w1] eqn:E.
  destruct (routed_start skills signed w failed w1 Hlog E) as [Hw1 Hl].
  set (r := match failed with Some _ => _ | None => _ end).
  assert (H2 : routed input (mode_of skills) r.2).
  { subst r. destruct failed as [e|]; [by apply routed_flush|]. destruct (ctx_err env w1) eqn:Ec; [done|].
    apply routed_react; [done|]. split; [done|]. by apply Hl. }
  clearbody r. destruct r as [out w2]. cbn [snd] in *. unfold clearNote. destruct (Noted _); [by apply routed_note|done].
Qed.
End Run.

Lemma did_elsewhere {A} env detached e (k : nat → Err + A) w r w' :
  perform env detached e k w = (r, w') → elsewhere e → Forall elsewhere (log w) → Forall elsewhere (log w').
Proof.
  intros E He Hl. apply (frame_perform_eq elsewhere) in E; [|done]. destruct E as [_ _ (l & -> & Hf)]. by apply Forall_app.
Qed.

(** A whole run, once its mode is known. *)
Lemma workflow_routed env {JE : JSONErrors} {GQ : GoQuote} {OJ : OutputJSON} input skills res w :
  (∀ n u ex out m, choose_result env n u ex = inr out → ChosenMachine out = Some m → LmID m ∉ ex) →
  (∀ m, RunMachine input = Some m → LmID m ∉ RunExcluded input) →
  (∀ n, skills_result env n = inr skills) →
  AgentWorkflow env input = (res, w) → routed input (mode_of skills) w ∨ Forall elsewhere (log w).
Proof.
  intros Hch Hown Hsk Hrun.
  unfold AgentWorkflow in Hrun. cbv zeta in Hrun. destruct (String.eqb (RunAgent input) ""); [injection Hrun as _ <-; right; constructor|].
  set (w1 := cancelSafeFlush env input _) in Hrun. assert (H1 : Forall elsewhere (log w1)).
  { subst w1. unfold cancelSafeFlush, flush. cbv zeta. destruct (_ || _); [constructor|].
    destruct (persist_result _ _ _); cbn; by repeat constructor. }
  destruct (perform _ _ (SkillsLoaded _) _ w1) as [sk w2] eqn:E2. pose proof (did_elsewhere _ _ _ _ _ _ _ E2 I H1) as H2.
  destruct sk as [e|sk]; [injection Hrun as _ <-; by right|].
  assert (sk = skills) as ->.
  { unfold perform in E2. destruct (_ && _); [done|]. injection E2 as E2 _. rewrite Hsk in E2. by injection E2. }
  destruct (perform _ _ (ToolsListed _ _) _ w2) as [tools w3] eqn:E3. pose proof (did_elsewhere _ _ _ _ _ _ _ E3 I H2) as H3.
  destruct tools as [e|tools]; [injection Hrun as _ <-; by right|]. destruct (negb _); [injection Hrun as _ <-; by right|].
  left. pose proof (routed_run_where env input Hch Hown skills tools (cmp_or (SkName skills) (RunAgent input))
    (if RunSignReply input then cmp_or (SkName skills) (RunAgent input) else "") w3 H3) as H4.
  destruct (routed_run _ _ _ _ _ _ _) as [out w4]. injection Hrun as _ <-. done.
Qed.

(** C9. A run calls its model where its agent's setting says. Set to never, or
    a scheduled task, it asks for no machine and calls none; set to require, a
    session's turn or a sub-agent never calls the server's key. Each time it
    asks for a machine it names those its input excludes and every machine it
    has called before: one is asked for only when the last failed it (lost,
    unreachable, refusing). ChooseMachine, whatever the machines' tables are
    then, answers with none of those named: no machine left is called again
    (nor those its input excludes, as its input's own machine is not one).
    And once it has called the server's key, it calls no machine more. *)
Theorem model_runs_where_set env {JE : JSONErrors} {GQ : GoQuote} {OJ : OutputJSON} input skills res w :
  (∀ n u ex out, choose_result env n u ex = inr out → ∃ on seenAfter db, ChooseMachine on seenAfter db u ex = inr out) →
  (∀ m, RunMachine input = Some m → LmID m ∉ RunExcluded input) →
  (∀ n, skills_result env n = inr skills) →
  AgentWorkflow env input = (res, w) →
  (scope input (mode_of skills) = false → ∀ i u ex, (MachineCalled i ∉ log w) ∧ (MachineAsked u ex ∉ log w)) ∧
  (required input (mode_of skills) = true → ∀ req, ServerCalled req ∉ log w) ∧
  asks_tell input (log w) ∧ never_again (log w) ∧ server_stays (log w) ∧
  ∀ l1 u ex l2 i j, log w = l1 ++ MachineAsked u ex :: l2 → MachineCalled i ∈ l1 → MachineCalled j ∈ l2 → McMachine i ≠ McMachine j.
Proof.
  intros Hchoose Hown Hsk Hrun.
  assert (Hch : ∀ n u ex out m, choose_result env n u ex = inr out → ChosenMachine out = Some m → LmID m ∉ ex).
  { intros n u ex out m Hc. destruct (Hchoose n u ex out Hc) as (on & seenAfter & db & Hdb). by apply (ChooseMachine_fresh on seenAfter db u). }
  assert (H : routed input (mode_of skills) w ∨ Forall elsewhere (log w)) by by eapply workflow_routed.
  assert (Hw : Forall (where_ok input (mode_of skills)) (log w) ∧ asks_tell input (log w) ∧ never_again (log w) ∧ server_stays (log w)).
  { destruct H as [H|H]; [by destruct H|]. split_and!; [|by apply asks_tell_quiet|by apply never_again_quiet|by apply server_stays_quiet].
    eapply Forall_impl; [exact H|]. by intros e; destruct e. }
  destruct Hw as (Hw & Ht & Hn & Hst). rewrite Forall_forall in Hw. split_and!; try done.
  - intros Hs i u ex. split; intros Hin; specialize (Hw _ Hin); cbn in Hw; congruence.
  - intros Hr req Hin. specialize (Hw _ Hin). cbn in Hw. congruence.
  - intros l1 u ex l2 i j E Hi Hj Heq. destruct (Ht l1 u ex l2 E) as [_ Hi']. apply (Hn l1 u ex l2 j E Hj). rewrite <- Heq. by apply Hi'.
Qed.
