(* ===== verification/AgentTheorems.v ===== *)
(** * What a run keeps to

    The tools it runs, the agents it delegates to, how often it calls its
    model, how much a tool's result may bring, and how it ends when it is
    stopped. *)

From S2P Require Import Prelude GoStr Utf8 Json Keys Message Convert CallInputs Gateway Tasks Participant AgentData AgentLLM AgentTurn AgentSteps AgentRoute.
From S2P Require MachineData Directives.
Open Scope string_scope.
Open Scope Z_scope.
Open Scope list_scope.

(** ** Effects of a whole run *)

(** The trace of [b] goes on from that of [a], with effects of [P]. *)
Definition grows (P : effect → Prop) (a b : W) : Prop := ∃ l, log b = log a ++ l ∧ Forall P l.

Lemma grows_refl P a : grows P a a.
Proof. exists []. by rewrite app_nil_r. Qed.

Lemma grows_trans P a b c : grows P a b → grows P b c → grows P a c.
Proof. intros (l & H1 & H2) (l' & H3 & H4). exists (l ++ l'). rewrite H3, H1, app_assoc. split; [done|]. by apply Forall_app. Qed.

Lemma grows_moved P Q ms a b : (∀ e, P e → Q e) → moved P ms a b → grows Q a b.
Proof. intros HPQ (_ & _ & l & H1 & H2). exists l. split; [done|]. by eapply Forall_impl. Qed.

Lemma grows_frame P Q a b : (∀ e, P e → Q e) → frame P a b → grows Q a b.
Proof. intros HPQ [_ _ (l & H1 & H2)]. exists l. split; [done|]. by eapply Forall_impl. Qed.

(** Effects that send no tool call. *)
Definition sends_tool (e : effect) : Prop := match e with ToolRun _ _ _ | ChildStarted _ _ _ | TaskRegistered _ | TaskLaunched _ _ => True | _ => False end.

(** Effects that send no call at all, to a tool or to the model. *)
Definition quiet (e : effect) : Prop :=
  match e with ToolRun _ _ _ | ChildStarted _ _ _ | TaskRegistered _ | TaskLaunched _ _ | ServerCalled _ | MachineCalled _ => False | _ => True end.

(** What a call to the model asks for. *)
Definition model_request (e : effect) : option LLMTurnRequest :=
  match e with ServerCalled req => Some req | MachineCalled i => Some (McRequest i) | _ => None end.

Section Effects.
Context (env : Env) {JE : JSONErrors} {GQ : GoQuote} {OJ : OutputJSON} (input : RunInput).

Lemma grows_flush (P : effect → Prop) w : (∀ e, quiet e → P e) → grows P w (cancelSafeFlush env input w).
Proof.
  intros HP. unfold cancelSafeFlush, flush. cbv zeta. destruct (_ || _); [apply grows_refl|].
  destruct (persist_result _ _ _); (eexists [_]; split; [done|]; constructor; [by apply HP|done]).
Qed.

Section Loop.
Context (chain : list string) (tools : ListToolsOutput) (cc0 : CallContext) (agentName signed : string) (prompt : PromptRef).
Context (P : effect → Prop) (HP : ∀ e, quiet e → P e).
Context (HC : ∀ e req, model_request e = Some req → ReqTools req = ToolNames tools → P e) (HD : ∀ e, dispatch_effect input chain tools cc0 e → P e).

Lemma grows_notify detached e w : quiet e → grows P w (notify env detached e w).
Proof. intros He. eapply grows_frame; [|apply (frame_notify (λ e', e' = e)); done]. intros e' ->. by apply HP. Qed.

Lemma grows_turn ms w : grows P w (set_turn ms w).
Proof. exists []. by rewrite app_nil_r. Qed.

Lemma grows_tools i resp on w : grows P w (run_tools env input chain tools cc0 agentName i resp on w).
Proof.
  unfold run_tools. cbv zeta. set (w1 := set_turn _ w). set (w2 := notify _ _ _ w1).
  destruct (dispatch_all_frame env input chain tools cc0 i 0 (RespCalls resp) w2) as [H3 _].
  destruct (dispatch_all _ _ _ _ _ _ _ _ w2) as [ds w3]. cbn in H3.
  destruct (collect_all_moved env (zip (RespCalls resp) ds) w3) as (rs & H4 & _). destruct (collect_all _ _ w3) as [published w4]. cbn in H4.
  assert (H : grows P w (cancelSafeFlush env input w4)).
  { eapply (grows_trans _ w w1); [apply grows_turn|]. eapply (grows_trans _ w1 w2); [by apply grows_notify|].
    eapply (grows_trans _ w2 w3); [by eapply grows_frame|].
    eapply (grows_trans _ w3 w4); [|by apply grows_flush].
    eapply grows_moved; [|exact H4]. intros e He. apply HP. by destruct e. }
  destruct published; [done|]. destruct (CtxTurn cc0); [|done]. eapply grows_trans; [exact H|by apply grows_notify].
Qed.

Lemma grows_iteration i w : grows P w (iteration env input chain tools cc0 agentName signed prompt i w).2.
Proof.
  unfold iteration. destruct (ctx_err env w); [cbn [snd]; by apply grows_flush|].
  pose proof (frame_call env i (RunUserID input) (llmRequest input tools prompt w) w) as Hf.
  destruct (call _ _ _ _ _) as [co w1]. cbn in Hf.
  assert (H1 : grows P w w1) by (eapply grows_frame; [|exact Hf]; intros e He; destruct e; try done; (by apply HP) || (by eapply HC; [done|rewrite He])).
  destruct (OutErr co) as [e|]; [cbn [snd]; eapply grows_trans; [exact H1|by apply grows_flush]|].
  cbv zeta. set (w2 := set_memory _ w1). assert (H2 : grows P w w2) by done.
  destruct (RespCalls (OutResponse co)) eqn:Ec; [|cbn [snd]; eapply grows_trans; [exact H2|apply grows_tools]].
  unfold finish_run. cbv zeta. cbn [snd]. eapply (grows_trans _ w w2); [done|].
  eapply grows_trans; [|by apply grows_notify]. eapply grows_trans; [|by apply grows_flush].
  destruct (String.eqb _ _); [apply grows_refl|apply grows_turn].
Qed.

Lemma grows_react more i w : grows P w (react env input chain tools cc0 agentName signed prompt more i w).2.
Proof.
  revert i w. induction more as [|more IH]; intros i w; cbn [react]; cbv zeta; [by apply grows_flush|].
  pose proof (grows_iteration i w) as H1. destruct (iteration _ _ _ _ _ _ _ _ _ _) as [o w1]. cbn in H1.
  destruct o as [out|]; [done|]. eapply grows_trans; [exact H1|apply IH].
Qed.
End Loop.

(** The tools a run was given, as it read them: the calls it sent to them, and
    those its model was offered. *)
Definition given (e : effect) : Prop :=
  (sends_tool e → ∃ n tools skills signed, tools_result env n = inr tools ∧ Refused tools = "" ∧
    dispatch_effect input (runs_chain input) tools (run_context env input skills signed) e) ∧
  (∀ req, model_request e = Some req → ∃ n tools, tools_result env n = inr tools ∧ ReqTools req = ToolNames tools).

Lemma quiet_given e : quiet e → given e.
Proof. by destruct e. Qed.

Lemma grows_perform {A} detached e (k : nat → Err + A) w r w' :
  perform env detached e k w = (r, w') → quiet e → grows given w w'.
Proof. intros E He. apply (frame_perform_eq (λ e', e' = e)) in E; [|done]. eapply grows_frame; [|exact E]. intros e' ->. by apply quiet_given. Qed.

Lemma run_given res w : AgentWorkflow env input = (res, w) → Forall given (log w).
Proof.
  intros Hrun. cut (grows given (start_run input) w); [intros (l & -> & H); by apply Forall_app|].
  unfold AgentWorkflow in Hrun. cbv zeta in Hrun. set (w0 := start_run input) in *.
  destruct (String.eqb (RunAgent input) ""); [injection Hrun as _ <-; apply grows_refl|].
  pose proof (grows_flush given w0 quiet_given) as H1. set (w1 := cancelSafeFlush env input w0) in *.
  destruct (perform _ _ (SkillsLoaded _) _ w1) as [sk w2] eqn:E2.
  assert (H2 : grows given w0 w2) by (eapply grows_trans; [exact H1|by apply (grows_perform _ _ _ _ _ _ E2)]).
  destruct sk as [e|skills]; [injection Hrun as _ <-; done|].
  destruct (perform _ _ (ToolsListed _ _) _ w2) as [tl w3] eqn:E3.
  assert (H3 : grows given w0 w3) by (eapply grows_trans; [exact H2|by apply (grows_perform _ _ _ _ _ _ E3)]).
  destruct tl as [e|tools]; [injection Hrun as _ <-; done|].
  destruct (String.eqb_spec (Refused tools) "") as [Hr|Hr]; cbn [negb] in Hrun; [|injection Hrun as _ <-; done].
  assert (Ht : tools_result env (waits w2) = inr tools).
  { unfold perform in E3. destruct (_ && _); [done|]. by injection E3 as -> _. }
  destruct (routed_run _ _ _ _ _ _ _) as [out w4] eqn:E4. injection Hrun as _ <-.
  eapply grows_trans; [exact H3|]. unfold routed_run in E4.
  pose proof (frame_start env input (SkOnMachine skills) (if RunSignReply input then cmp_or (SkName skills) (RunAgent input) else "") w3) as Hf.
  destruct (startLLMRoute _ _ _ _ _) as [failed w5]. cbn in Hf.
  assert (H5 : grows given w3 w5) by (eapply grows_frame; [|exact Hf]; intros e He; apply quiet_given; by destruct e).
  set (r := match failed with Some _ => _ | None => _ end) in E4. assert (H6 : grows given w5 r.2).
  { subst r. destruct failed as [e|]; [by apply grows_flush, quiet_given|]. destruct (ctx_err env w5); [apply grows_refl|].
    apply grows_react; [by apply quiet_given| |].
    - intros e req He Hreq. split; [by destruct e|]. intros req' [= <-]%(eq_trans (eq_sym He)). by repeat eexists.
    - intros e He. split; [intros _; by repeat eexists|by destruct e]. }
  clearbody r. destruct r as [out' w6]. injection E4 as _ <-. eapply grows_trans; [exact H5|]. eapply grows_trans; [exact H6|].
  eapply grows_frame; [|apply frame_clearNote]. intros e He. apply quiet_given. by destruct e.
Qed.
End Effects.

(** ** Calls to the model *)

Definition is_model_call (e : effect) : bool := match e with ServerCalled _ | MachineCalled _ => true | _ => false end.
Definition model_calls (l : list effect) : nat := length (List.filter is_model_call l).

(** At most [n] calls to the model between [a] and [b]. *)
Definition costs (n : nat) (a b : W) : Prop := ∃ l, log b = log a ++ l ∧ (model_calls l ≤ n)%nat.

Lemma costs_trans n m a b c : costs n a b → costs m b c → costs (n + m) a c.
Proof.
  intros (l & H1 & H2) (l' & H3 & H4). exists (l ++ l'). rewrite H3, H1, app_assoc. split; [done|].
  unfold model_calls in *. rewrite List.filter_app, length_app. lia.
Qed.

Lemma costs_le n m a b : (n ≤ m)%nat → costs n a b → costs m a b.
Proof. intros Hle (l & H1 & H2). exists l. split; [done|lia]. Qed.

Definition silent (e : effect) : Prop := is_model_call e = false.

Lemma costs_silent a b : grows silent a b → costs 0 a b.
Proof.
  intros (l & H1 & H2). exists l. split; [done|]. clear H1. unfold model_calls. induction H2 as [|e l He _ IH]; [done|]. cbn. by rewrite He.
Qed.

Lemma costs_frame (P : effect → Prop) a b : (∀ e, P e → silent e) → frame P a b → costs 0 a b.
Proof. intros HP Hf. apply costs_silent. by eapply grows_frame. Qed.

Lemma costs_perform {A} env detached e (k : nat → Err + A) w r w' : perform env detached e k w = (r, w') → costs 1 w w'.
Proof.
  intros E. unfold perform in E. destruct (_ && _); injection E as _ <-; [exists []; rewrite app_nil_r; by split; [|cbn; lia]|].
  exists [e]. split; [done|]. unfold model_calls. cbn. by destruct (is_model_call e); cbn; lia.
Qed.

Lemma costs_server env req w : costs 1 w (onServer env req w).2.
Proof. unfold onServer. destruct (perform _ _ _ _ _) as [res w1] eqn:E. by apply costs_perform in E. Qed.

Lemma note_silent e : note_effect e → silent e.
Proof. by destruct e. Qed.
Lemma choice_silent userID e : choice_effect userID e → silent e.
Proof. by destruct e. Qed.

Lemma costs_noted env req text w : costs 1 w (onServer env req (note env false text (to_server w))).2.
Proof.
  apply (costs_trans 0 1 _ (note env false text (to_server w))); [|apply costs_server].
  eapply costs_frame; [apply note_silent|]. eapply frame_trans; [apply frame_route|apply frame_note].
Qed.

Lemma costs_exhausted env last req w : costs 1 w (exhausted env last req w).2.
Proof. unfold exhausted. destruct (String.eqb _ _); [exists []; rewrite app_nil_r; by split; [|cbn; lia]|apply costs_noted]. Qed.

Lemma costs_attempts env more attempt step userID req last w : costs (S more) w (attempts env more attempt step userID req last w).2.
Proof.
  revert attempt last w. induction more as [|more IH]; intros attempt last w; [apply costs_exhausted|].
  cbn [attempts]. destruct (OnMachine (route w)) as [m|]; [|eapply costs_le; [|apply costs_exhausted]; lia]. cbv zeta.
  destruct (perform _ _ _ _ w) as [res w1] eqn:E. apply costs_perform in E.
  assert (Hend : costs (S (S more)) w w1) by (eapply costs_le; [|exact E]; lia).
  destruct res as [e|resp]; [|done]. destruct (ctx_err env w1 || IsCanceledError e); [done|].
  destruct (machineFailure e) as [kind aside]. cbn [fst snd].
  set (w2 := exclude m e (if aside then setAside env (LmID m) w1 else w1)).
  assert (H2 : costs 1 w w2).
  { apply (costs_trans 1 0 _ w1); [done|]. eapply costs_frame; [apply (choice_silent userID)|apply frame_excluded]. }
  assert (Hmoved : costs (S (S more)) w
      (if String.eqb (Mode (route w1)) LLMOnMachineRequire
       then let '(found, w3) := choose env userID w2 in
            if negb found then (mkOut noResponse None (noMachine env w3), w3)
            else attempts env more (attempt + 1) step userID req (Some e)
                   (match OnMachine (route w3) with Some m => note env false (onMachineNote m) w3 | None => w3 end)
       else onServer env req (note env false ("modèle de l'installation : la machine « " +:+ LmName m +:+ " » ne répond plus") (to_server w2))).2).
  { destruct (String.eqb _ _).
    - destruct (choose env userID w2) as [found w3] eqn:E3. apply frame_choose_eq in E3.
      assert (H3 : costs 1 w w3).
      { apply (costs_trans 1 0 _ w2); [done|]. by eapply costs_frame; [apply (choice_silent userID)|]. }
      destruct found; cbn [negb snd]; [|eapply costs_le; [|exact H3]; lia].
      apply (costs_trans 1 (S more) _ w3); [done|]. apply (costs_trans 0 (S more) _ (match OnMachine (route w3) with Some m => note env false (onMachineNote m) w3 | None => w3 end)); [|apply IH].
      destruct (OnMachine (route w3)); (eapply costs_frame; [apply note_silent|]); [apply frame_note|apply frame_refl].
    - eapply costs_le; [|apply (costs_trans 1 1 _ w2); [exact H2|apply costs_noted]]. lia. }
  destruct kind; [|exact Hend|exact Hmoved|exact Hmoved|].
  - destruct more as [|more]; [apply (costs_trans 1 1 _ w1); [exact E|apply costs_exhausted]|].
    destruct (perform _ _ (Slept _) _ w1) as [slept w3] eqn:E3. apply (frame_perform_eq (choice_effect userID)) in E3; [|done].
    assert (H3 : costs 1 w w3).
    { apply (costs_trans 1 0 _ w1); [done|]. by eapply costs_frame; [apply (choice_silent userID)|]. }
    destruct slept; [eapply costs_le; [|exact H3]; lia|]. by apply (costs_trans 1 (S (S more)) _ w3).
  - destruct (String.eqb _ _); [exact Hend|]. eapply costs_le; [|apply (costs_trans 1 1 _ w1); [exact E|apply costs_noted]]. lia.
Qed.

Definition maxCallsPerStep : nat := S machineLLMAttempts.

Lemma costs_call env step userID req w : costs maxCallsPerStep w (call env step userID req w).2.
Proof.
  unfold call. destruct (OnMachine (route w)); [apply costs_attempts|]. eapply costs_le; [|apply costs_server]. unfold maxCallsPerStep. lia.
Qed.

Section Costs.
Context (env : Env) {JE : JSONErrors} {GQ : GoQuote} {OJ : OutputJSON} (input : RunInput).
Context (chain : list string) (tools : ListToolsOutput) (cc0 : CallContext) (agentName signed : string) (prompt : PromptRef).

Lemma flush_silent w : costs 0 w (cancelSafeFlush env input w).
Proof.
  apply costs_silent. unfold cancelSafeFlush, flush. cbv zeta. destruct (_ || _); [apply grows_refl|].
  destruct (persist_result _ _ _); (eexists [_]; split; [done|]; by constructor).
Qed.

Lemma notify_silent detached e w : silent e → costs 0 w (notify env detached e w).
Proof. intros He. eapply costs_frame; [|apply (frame_notify (λ e', e' = e)); done]. by intros e' ->. Qed.

Lemma tools_silent i resp on w : costs 0 w (run_tools env input chain tools cc0 agentName i resp on w).
Proof.
  unfold run_tools. cbv zeta. set (w1 := set_turn _ w). set (w2 := notify _ _ _ w1).
  destruct (dispatch_all_frame env input chain tools cc0 i 0 (RespCalls resp) w2) as [H3 _].
  destruct (dispatch_all _ _ _ _ _ _ _ _ w2) as [ds w3]. cbn in H3.
  destruct (collect_all_moved env (zip (RespCalls resp) ds) w3) as (rs & H4 & _). destruct (collect_all _ _ w3) as [published w4]. cbn in H4.
  assert (H : costs 0 w (cancelSafeFlush env input w4)).
  { apply (costs_trans 0 0 w w2); [by apply (notify_silent false _ w1)|].
    apply (costs_trans 0 0 w2 w3); [eapply costs_frame; [|exact H3]; by intros e; destruct e|].
    apply (costs_trans 0 0 w3 w4); [|apply flush_silent]. apply costs_silent. eapply grows_moved; [|exact H4]. by intros e; destruct e. }
  destruct published; [done|]. destruct (CtxTurn cc0); [|done]. eapply (costs_trans 0 0); [exact H|by apply notify_silent].
Qed.

Lemma iteration_costs i w : costs maxCallsPerStep w (iteration env input chain tools cc0 agentName signed prompt i w).2.
Proof.
  unfold iteration. destruct (ctx_err env w); [cbn [snd]; eapply costs_le; [|apply flush_silent]; lia|].
  pose proof (costs_call env i (RunUserID input) (llmRequest input tools prompt w) w) as H1.
  destruct (call _ _ _ _ _) as [co w1]. cbn [snd] in H1. rewrite <- (Nat.add_0_r maxCallsPerStep).
  destruct (OutErr co) as [e|]; [cbn [snd]; eapply costs_trans; [exact H1|apply flush_silent]|].
  cbv zeta. set (w2 := set_memory _ w1). eapply (costs_trans _ _ w w2); [exact H1|].
  destruct (RespCalls (OutResponse co)) eqn:Ec; [|cbn [snd]; apply tools_silent].
  unfold finish_run. cbv zeta. cbn [snd]. eapply (costs_trans 0 0); [|by apply notify_silent].

  destruct (String.eqb _ _); [apply flush_silent|]. set (w3 := set_turn _ w2).
  apply (costs_trans 0 0 _ w3); [|apply flush_silent]. exists []. rewrite app_nil_r. split; [done|cbn; lia].
Qed.

Lemma react_costs more i w : costs (more * maxCallsPerStep) w (react env input chain tools cc0 agentName signed prompt more i w).2.
Proof.
  revert i w. induction more as [|more IH]; intros i w; cbn [react]; cbv zeta; [apply flush_silent|].
  pose proof (iteration_costs i w) as H1. destruct (iteration _ _ _ _ _ _ _ _ _ _) as [o w1]. cbn [snd] in H1.
  destruct o as [out|]; [eapply costs_le; [|exact H1]; lia|]. by eapply costs_trans.
Qed.
End Costs.

(** ** Properties *)

(** A run ends, and calls its model a bounded number of times: at most six
    attempts on machines and one on the server's key at each of its fifty
    steps, whatever fails. *)
Theorem run_calls_bounded env {JE : JSONErrors} {GQ : GoQuote} {OJ : OutputJSON} input :
  (model_calls (log (AgentWorkflow env input).2) ≤ maxReActIterations * S machineLLMAttempts)%nat.
Proof.
  cut (costs (maxReActIterations * maxCallsPerStep) (start_run input) (AgentWorkflow env input).2); [intros (l & -> & H); exact H|].
  unfold AgentWorkflow. cbv zeta. set (w0 := start_run input). destruct (String.eqb (RunAgent input) "").
  { exists []. by split; [rewrite app_nil_r|cbn; lia]. }
  pose proof (flush_silent env input w0) as H1. set (w1 := cancelSafeFlush env input w0) in *.
  assert (Hend : ∀ w, costs 0 w0 w → costs (maxReActIterations * maxCallsPerStep) w0 w) by (intros w; apply costs_le; lia).
  destruct (perform _ _ (SkillsLoaded _) _ w1) as [sk w2] eqn:E2. apply (frame_perform_eq silent) in E2; [|done].
  assert (H2 : costs 0 w0 w2) by (apply (costs_trans 0 0 _ w1); [done|by eapply costs_frame]). destruct sk as [e|skills]; [by apply Hend|].
  destruct (perform _ _ (ToolsListed _ _) _ w2) as [tl w3] eqn:E3. apply (frame_perform_eq silent) in E3; [|done].
  assert (H3 : costs 0 w0 w3) by (apply (costs_trans 0 0 _ w2); [done|by eapply costs_frame]). destruct tl as [e|tools]; [by apply Hend|].
  destruct (negb _); [by apply Hend|]. set (signed := if RunSignReply input then _ else _). set (name := cmp_or _ _) in *.
  destruct (routed_run _ _ _ _ _ _ _) as [out w4] eqn:E4. cbn [snd]. unfold routed_run in E4.
  pose proof (frame_start env input (SkOnMachine skills) signed w3) as Hf. destruct (startLLMRoute _ _ _ _ _) as [failed w5]. cbn in Hf.
  set (r := match failed with Some _ => _ | None => _ end) in E4. assert (H6 : costs (maxReActIterations * maxCallsPerStep) w5 r.2).
  { subst r. destruct failed as [e|]; [eapply costs_le; [|apply flush_silent]; lia|].
    destruct (ctx_err env w5); [exists []; by split; [rewrite app_nil_r|cbn; lia]|]. apply react_costs. }
  clearbody r. destruct r as [out' w6]. injection E4 as _ <-. rewrite <- (Nat.add_0_r (_ * _)).
  apply (costs_trans _ 0 _ w6); [|eapply costs_frame; [apply note_silent|apply frame_clearNote]].
  apply (costs_trans 0 _ _ w5); [|done]. apply (costs_trans 0 0 _ w3); [done|]. by eapply costs_frame; [apply (choice_silent (RunUserID input))|].
Qed.

(** A run sends calls only to the tools it was given for its user: a call
    of any other name is refused without being sent; each goes where its
    tool's resolution says, an activity with a time limit; and a background
    task is launched by a session's turn only, of a tool that allows it. *)
Theorem only_given_tools_run env {JE : JSONErrors} {GQ : GoQuote} {OJ : OutputJSON} input e :
  e ∈ log (AgentWorkflow env input).2 → sends_tool e →
  ∃ n tools, tools_result env n = inr tools ∧ Refused tools = "" ∧
  match e with
  | ToolRun queue timeout i =>
      ∃ res, Resolutions tools !! ExName i = Some res ∧ ResKind res ≠ ToolKindWorkflow ∧ queue = ResQueue res ∧ 0 < timeout ∧
        ExUser i = RunUserID input ∧ (ResNeedsContext res = false → ExCall i = None)
  | ChildStarted _ _ c =>
      ∃ name res, Resolutions tools !! name = Some res ∧ ResKind res = ToolKindWorkflow ∧
        match c with SubAgent i => RunAgent i = ResAgent res ∧ RunUserID i = RunUserID input | ToolWorkflow wf _ => wf = ResWorkflow res end
  | TaskRegistered t => RunTurnKey input ≠ "" ∧ ∃ res, Resolutions tools !! Tool t = Some res ∧ ResBackground res = true
  | TaskLaunched _ i => RunTurnKey input ≠ "" ∧ ∃ res, Resolutions tools !! BgTool i = Some res ∧ ResBackground res = true
  | _ => False
  end.
Proof.
  intros He Hs. destruct (AgentWorkflow env input) as [res w] eqn:E. pose proof (run_given env input res w E) as H.
  rewrite Forall_forall in H. destruct (proj1 (H e He) Hs) as (n & tools & skills & signed & Ht & Hr & Hd). exists n, tools.
  split; [done|]. split; [done|]. destruct e; try done; cbn in Hd.
  - destruct Hd as (r & H1 & H2 & H3 & H4 & H5 & H6 & H7). by exists r.
  - destruct Hd as (name & r & H1 & H2 & H3). exists name, r. split; [done|]. split; [done|].
    destruct c; [|by destruct H3]. destruct H3 as (H3 & _ & _ & _ & H4 & _). done.
  - destruct Hd as (H1 & _ & r & H2 & H3). split; [done|]. by exists r.
  - destruct Hd as (H1 & r & H2 & H3 & _). split; [done|]. by exists r.
Qed.

(** ** Delegation *)

(** The run an effect starts. *)
Definition starts (e : effect) (i : RunInput) : Prop :=
  match e with ChildStarted _ _ (SubAgent i') => i' = i | TaskLaunched _ b => BgInput b = SubAgent i | _ => False end.

(** A run of [i] starts one of [i']. *)
Definition spawns (i i' : RunInput) : Prop :=
  ∃ env (JE : JSONErrors) (GQ : GoQuote) (OJ : OutputJSON) e, e ∈ log (AgentWorkflow env i).2 ∧ starts e i'.

Lemma spawns_spec i i' : spawns i i' →
  AgentChain i' = AgentChain i ++ [RunAgent i] ∧ (RunAgent i' ∉ AgentChain i ++ [RunAgent i]) ∧
  (length (AgentChain i ++ [RunAgent i]) ≤ maxDelegationDepth)%nat ∧ RunUserID i' = RunUserID i ∧ RunTurnKey i' = "".
Proof.
  intros (env & JE & GQ & OJ & e & He & Hst). destruct (AgentWorkflow env i) as [res w] eqn:E.
  pose proof (run_given env i res w E) as H. rewrite Forall_forall in H.
  assert (Hs : sends_tool e) by by destruct e. destruct (proj1 (H e He) Hs) as (n & tools & skills & signed & _ & _ & Hd).
  assert (Hsub : ∃ r, sub_run i (runs_chain i) (run_context env i skills signed) r i').
  { destruct e; try done; cbn in Hd, Hst.
    - destruct c; [|done]. subst. destruct Hd as (name & r & _ & _ & Hd). by exists r.
    - destruct Hd as (_ & r & _ & _ & _ & Hd). rewrite Hst in Hd. by exists r. }
  destruct Hsub as (r & _ & _ & H1 & H2 & H3 & H4 & H5 & _). done.
Qed.

(** C20. Delegation ends: among the runs a session's turn starts, each by the
    one before, an agent never comes twice and there are at most three below
    the turn; all act for the turn's user, and none has a turn of its own. *)
Theorem delegation_bounded i path :
  AgentChain i = [] → (∀ k a b, (i :: path) !! k = Some a → (i :: path) !! S k = Some b → spawns a b) →
  NoDup (RunAgent <$> i :: path) ∧ (length path ≤ maxDelegationDepth)%nat ∧
  Forall (λ x, RunUserID x = RunUserID i ∧ RunTurnKey x = "") path.
Proof.
  intros Hi Hp.
  assert (H : NoDup (RunAgent <$> i :: path) ∧ (length path ≤ maxDelegationDepth)%nat ∧
    Forall (λ x, RunUserID x = RunUserID i ∧ RunTurnKey x = "") path ∧
    ∀ x, last (i :: path) = Some x → AgentChain x ++ [RunAgent x] = RunAgent <$> i :: path ∧ RunUserID x = RunUserID i); [|naive_solver].
  induction path as [|b path IH] using rev_ind.
  { split; [apply NoDup_singleton|]. split; [cbn; lia|]. split; [constructor|]. intros x [= <-]. by rewrite Hi. }
  destruct IH as (Hnd & Hlen & Hall & Hlast).
  { intros k a c Ha Hc. apply (Hp k a c); rewrite app_comm_cons; by apply lookup_app_l_Some. }
  destruct (last (i :: path)) as [a|] eqn:El; [|by destruct path using rev_ind; [|rewrite app_comm_cons, last_snoc in El]].
  destruct (Hlast a eq_refl) as [Hchain Hu]. rewrite last_lookup in El. cbn [length Nat.pred] in El.
  destruct (spawns_spec a b) as (H1 & H2 & H3 & H4 & H5).
  { apply (Hp (length path)); rewrite app_comm_cons.
    - by apply lookup_app_l_Some.
    - rewrite lookup_app_r by (cbn; lia). cbn [length]. by rewrite Nat.sub_diag. }
  rewrite Hchain in H1, H2, H3. rewrite app_comm_cons, fmap_app. split; [|split; [|split]].
  - apply NoDup_app. split; [done|]. split; [|apply NoDup_singleton]. intros x Hx Hx'%list_elem_of_singleton. by subst x.
  - rewrite length_fmap in H3. cbn in H3. rewrite length_app. cbn. unfold maxDelegationDepth in *. lia.
  - apply Forall_app. split; [done|]. constructor; [|done]. by rewrite H4, Hu.
  - intros x. rewrite last_snoc. intros [= <-]. by rewrite H1, H4, Hu.
Qed.

(** ** A run stopped while it chooses another machine *)

#[local] Instance demo_json_errors : JSONErrors := λ _ _, "".
#[local] Instance demo_quote : GoQuote := λ s, s.
#[local] Instance demo_output : OutputJSON := λ _, None.

(** A sub-agent set to require a machine. *)
Definition required_input : RunInput :=
  mkRun "s:p:jarvis:m7:tool:agent_ada:c1" "u1" "" "ada" "task" "" "" "" [] false ["jarvis"] "web" "" None "" false None [] "c1/".

Definition lost : Err := mkErr (mkLink "activity error" LActivity) [mkLink "heartbeat timeout" (LTimeout TimeoutHeartbeat)].

(** Two machines of one user, each with its model, the first preferred. *)
Definition machine_row (id : string) (priority : Z) : MachineData.MachineRow :=
  MachineData.mkMachineRow
    (MachineData.mkMachine id "u1" id "linux" [Directives.llmCapability] 1 priority false "" "g1" "" 0 (Some 10) None "" "" 1 "" "m" "" (Some 1) None)
    (Some ("token of " +:+ id)) None.
Definition two_machines : MachineData.MDB := MachineData.mkMDB [machine_row "m1" 2; machine_row "m2" 1] [] [] [].

(** The machine's call is lost; the run is stopped from the wait [stop] on. *)
Definition lost_env (stop : nat) : Env :=
  mkAgentEnv (λ n, (stop <=? n)%nat) (λ _ _, Written) (λ _, inr (mkSkills "Ada" "require" [])) (λ _, inr (mkTools [] ∅ "" []))
    (λ _ u ex, match ChooseMachine true 0 two_machines u ex with inr out => inr out | inl _ => inl canceledErr end)
    (λ _ _, inr noResponse)
    (λ _ i, if String.eqb (McMachine i) "m1" then inl lost
            else inr (mkResponse "done" [] "end_turn" "m" None (mkPromptMemory None false)))
    (λ _, None) (λ _ _, inr "") (λ _ _, None) (λ _ _, inr (mkExecOut "" false [])) (λ _ _, inr "") "" "s:p:jarvis:m7" "agents".

(** The run stopped while it sets the lost machine aside: it asks for no other
    machine, and ends. *)
Definition stopped_run : (string + AgentWorkflowOutput) * W := AgentWorkflow (lost_env 5) required_input.

(** A run that requires a machine, stopped while it looks for another one
    after the first was lost, ends as if it had answered: neither cancelled
    nor failed, with an empty response. Its parent reads the JSON of its
    output as the agent's answer, and a background task of it ends done. *)
Theorem stopped_run_reads_done :
  match stopped_run.1 with
  | inr out => CancelledRun out = false ∧ OutError out = "" ∧ Response out = "" ∧ sub_agent_read out = None
  | inl _ => False
  end ∧
  cancelled (lost_env 5) (waits stopped_run.2) = true ∧ model_calls (log stopped_run.2) = 1%nat.
Proof. vm_compute. done. Qed.

Lemma lost_chooses stop n u ex out :
  choose_result (lost_env stop) n u ex = inr out → ∃ on seenAfter db, ChooseMachine on seenAfter db u ex = inr out.
Proof.
  intros H. exists true, 0, two_machines. cbn [choose_result lost_env] in H. destruct (ChooseMachine true 0 two_machines u ex); [done|congruence].
Qed.

Lemma model_runs_where_set_witness :
  (∀ req, ServerCalled req ∉ log (AgentWorkflow (lost_env 100) required_input).2) ∧
  never_again (log (AgentWorkflow (lost_env 100) required_input).2) ∧
  omap (λ e, match e with MachineCalled i => Some (McMachine i) | _ => None end) (log (AgentWorkflow (lost_env 100) required_input).2) = ["m1"; "m2"].
Proof.
  destruct (model_runs_where_set (lost_env 100) required_input (mkSkills "Ada" "require" []) (AgentWorkflow (lost_env 100) required_input).1
    (AgentWorkflow (lost_env 100) required_input).2 (lost_chooses 100)) as (_ & H1 & _ & H2 & _); [done|done|apply surjective_pairing|].
  split; [apply H1; reflexivity|]. split; [exact H2|]. vm_compute. reflexivity.
Defined.

(** ** Runs that delegate *)

Definition agent_tool (id : string) : ToolResolution := mkResolution "workflow" "" "" true id false false 0.

(** Every run may delegate to two agents; the model delegates to [to]. *)
Definition delegating_env (to : string) : Env :=
  mkAgentEnv (λ _, false) (λ _ _, Written) (λ _, inr (mkSkills "" "never" []))
    (λ _, inr (mkTools ["agent_ada"; "agent_bob"] (list_to_map [("agent_ada", agent_tool "ada"); ("agent_bob", agent_tool "bob")]) "" []))
    (λ _ _ _, inr (mkChosen None "" false))
    (λ n _, inr (if (n <? 4)%nat then mkResponse "" [mkCallInfo "c1" ("agent_" +:+ to) (JsonFields.js "{'task':'look'}")] "tool_use" "m" None (mkPromptMemory None false)
                 else mkResponse "done" [] "end_turn" "m" None (mkPromptMemory None false)))
    (λ _ _, inr noResponse) (λ _, None) (λ _ _, inr "") (λ _ _, None) (λ _ _, inr (mkExecOut "" false [])) (λ _ _, inr "") "" "s:p:jarvis:m7" "agents".

Definition jarvis_turn : RunInput := mkRun "s" "u1" "Ann" "jarvis" "" "" "" "m7.jarvis" [] false [] "web" "" None "" false None [] "".

Definition started_by (env : Env) (i : RunInput) : RunInput :=
  match omap (λ e, match e with ChildStarted _ _ (SubAgent i) => Some i | _ => None end) (log (AgentWorkflow env i).2) with
  | i :: _ => i
  | [] => i
  end.

Lemma delegation_bounded_witness :
  let ada := started_by (delegating_env "ada") jarvis_turn in
  let bob := started_by (delegating_env "bob") ada in
  NoDup (RunAgent <$> [jarvis_turn; ada; bob]) ∧ RunAgent bob = "bob" ∧ RunUserID bob = "u1".
Proof.
  cbv zeta. set (ada := started_by _ jarvis_turn). set (bob := started_by _ ada).
  split; [|vm_compute; done].
  assert (Hs : ∀ to i, existsb (λ e, match e with ChildStarted _ _ (SubAgent _) => true | _ => false end) (log (AgentWorkflow (delegating_env to) i).2) = true →
    spawns i (started_by (delegating_env to) i)).
  { intros to i H. exists (delegating_env to), _, _, _. unfold started_by. revert H. generalize (log (AgentWorkflow (delegating_env to) i).2) as l.
    induction l as [|e l IH]; [done|]. cbn [existsb].
    destruct e as [| | | | | | | | | | | | |id q c| | | | |];
      try (cbn [orb]; intros H; destruct (IH H) as (e' & H1 & H2); exists e'; split; [by right|exact H2]).
    destruct c as [i'|]; [intros _; eexists; split; [by left|done]|].
    cbn [orb]. intros H. destruct (IH H) as (e' & H1 & H2). exists e'. split; [by right|exact H2]. }
  assert (H1 : spawns jarvis_turn ada) by (refine (Hs "ada" jarvis_turn _); vm_compute; reflexivity).
  assert (H2 : spawns ada bob) by (refine (Hs "bob" ada _); vm_compute; reflexivity).
  clear Hs. clearbody bob. clearbody ada. apply (delegation_bounded jarvis_turn [ada; bob]); [done|].
  intros k a b Ha Hb. destruct k as [|[|k]]; [by simplify_eq/=|by simplify_eq/=|].
  exfalso. rewrite lookup_ge_None_2 in Hb by (cbn; lia). done.
Defined.

Lemma only_given_tools_run_witness :
  ∀ id q c, ChildStarted id q c ∈ log (AgentWorkflow (delegating_env "ada") jarvis_turn).2 →
  ∃ n tools name res, tools_result (delegating_env "ada") n = inr tools ∧ Resolutions tools !! name = Some res.
Proof.
  intros id q c Hin. destruct (only_given_tools_run (delegating_env "ada") jarvis_turn (ChildStarted id q c) Hin I) as (n & tools & Ht & _ & name & res & Hr & _).
  by exists n, tools, name, res.
Defined.
