(* ===== verification/Background.v ===== *)
(** * A background task's workflow (src/workflow/background.go)

    It runs the tool as its child, posts its end into the session and wakes
    its participant. Everything past the child runs from a disconnected
    context: a stop that comes then changes nothing. *)

From S2P Require Import Prelude GoStr Utf8 Json Keys Message CallInputs Store Tasks Participant AgentData AgentLLM AgentTurn.
Open Scope string_scope.
Open Scope Z_scope.
Open Scope list_scope.

Definition EventTaskStarted : string := "task_started".
Definition EventTaskResult : string := "task_result".
Definition maxTaskResultBytes : Z := Z.shiftl 1 20.

Inductive bg_effect :=
| EndPosted (task state content : string)
| FileTold (turn : TurnRef) (agent file : string)
| ResultTold (session event task agent : string) (message : Z)
| WakeSent (i : RelayInput) (failed : option Err)
| TurnEndWritten (session turnKey : string) (m : Message)
| GivenUpTold (session channel channelID signer content : string)
| WakeRecorded (task : string).

Section Task.
Context `{OutputJSON}.

(** What the child's end makes of the task: its state and its content. *)
Definition task_cancelled (in_ : BackgroundTaskInput) (child : Err + string) (stopped : bool) : bool :=
  match child with
  | inl e => stopped || IsCanceledError e
  | inr raw => stopped && BgSubAgent in_ && subAgentCancelled raw
  end.

Definition task_end (in_ : BackgroundTaskInput) (child : Err + string) (stopped : bool) : string * string :=
  if task_cancelled in_ child stopped then (BackgroundCancelled, truncateTo "" maxTaskResultBytes)
  else
    let '(content, isError) :=
      match child with
      | inl e => ("The task failed: " +:+ childFailure e, true)
      | inr raw => if BgSubAgent in_ then subAgentContent raw else DecodeResult raw
      end in
    (if isError then BackgroundFailed else BackgroundDone, truncateTo content maxTaskResultBytes).

Definition task_of (out : PostTaskResultOutput) : BackgroundTask :=
  match PostTask out with
  | Some t => t
  | None => mkTask "" "" "" "" "" "" "" "" "" "" "" "" 0 None "" 0 "" None None []
  end.

Definition session_of (out : PostTaskResultOutput) : Session := match PostSession out with Some s => s | None => mkSession "" "" "" end.

(** [wakeParticipant]. *)
Definition wakeParticipant (queue agentID : string) (out : PostTaskResultOutput) (failed : option Err) : list bg_effect :=
  let t := task_of out in
  let msg := mkPM (PostMessageID out) (TaskUserID t) (TaskUserName t) [] [] (Tasks.SignReply out) (Channel t) (ChannelID t) None in
  let i := mkRelay (ParticipantWorkflowID (SessionID t) agentID) "ParticipantWorkflow" queue SignalMessage msg
             (mkInput (SessionID t) agentID (SessChannel (session_of out)) (SessChannelID (session_of out)) []) (SessionID t) in
  WakeSent i failed ::
  match failed with
  | None => []
  | Some e =>
      let reason := "la fin de la tâche n'a pas pu réveiller @" +:+ agentID +:+ " : " +:+ failureText e in
      [TurnEndWritten (SessionID t) (TurnKey (PostMessageID out) agentID) (TurnEnd agentID reason);
       GivenUpTold (SessionID t) (Channel t) (ChannelID t) (if Tasks.SignReply out then agentID else "") ("Error processing message: " +:+ reason)]
  end.

(** The workflow, from its child's end: [None] is a run that succeeds. *)
Definition BackgroundTaskWorkflow (taskID queue : string) (in_ : BackgroundTaskInput) (child : Err + string) (stopped : bool)
    (post : string → string → Err + PostTaskResultOutput) (relay : option Err) : option Err * list bg_effect :=
  let '(state, content) := task_end in_ child stopped in
  match post state content with
  | inl e => (Some e, [EndPosted taskID state content])
  | inr out =>
      (None,
       EndPosted taskID state content ::
       (if PostGone out then []
        else
          match PostFile out with
          | Some f => [FileTold (mkTurnRef (SessionID (task_of out)) (TurnKeyOf (task_of out))) (BgAgent in_) (FileID f)]
          | None => []
          end ++
          (if PostMessageID out =? 0 then [] else [ResultTold (BgSession in_) EventTaskResult taskID (BgAgent in_) (PostMessageID out)]) ++
          (if Wake out then wakeParticipant queue (BgAgent in_) out relay ++ [WakeRecorded taskID] else [])))
  end.
End Task.

(** ** Lemmas *)

(** A cancelled child, or a sub-agent that says it was, is the only way to a
    task that ends cancelled. *)
Lemma task_end_state `{OutputJSON} in_ child stopped :
  (task_end in_ child stopped).1 =
    if task_cancelled in_ child stopped then BackgroundCancelled
    else match child with
         | inl _ => BackgroundFailed
         | inr raw => if (if BgSubAgent in_ then subAgentContent raw else DecodeResult raw).2 then BackgroundFailed else BackgroundDone
         end.
Proof.
  unfold task_end. destruct (task_cancelled _ _ _); [done|]. destruct child as [e|raw]; [done|].
  by destruct (if BgSubAgent in_ then _ else _) as [c []].
Qed.

(** The parts of what follows the end's post. *)
Lemma wake_effects queue agent out relay e : e ∈ wakeParticipant queue agent out relay →
  match e with
  | WakeSent i f => f = relay ∧ WorkflowID i = ParticipantWorkflowID (SessionID (task_of out)) agent ∧ MessageID (RelayMessage i) = PostMessageID out ∧
      InSessionID (RelayStart i) = SessionID (task_of out)
  | EndPosted _ _ _ | WakeRecorded _ => False
  | _ => True
  end.
Proof. unfold wakeParticipant. destruct relay; cbn; rewrite ?elem_of_cons, elem_of_nil; intros; destruct_or?; subst; done. Qed.

Lemma after_post (P : bg_effect → Prop) taskID queue in_ out relay e :
  (if PostGone out then []
   else match PostFile out with
        | Some f => [FileTold (mkTurnRef (SessionID (task_of out)) (TurnKeyOf (task_of out))) (BgAgent in_) (FileID f)]
        | None => []
        end ++
        (if PostMessageID out =? 0 then [] else [ResultTold (BgSession in_) EventTaskResult taskID (BgAgent in_) (PostMessageID out)]) ++
        (if Wake out then wakeParticipant queue (BgAgent in_) out relay ++ [WakeRecorded taskID] else [])) = e →
  (∀ x, match x with FileTold _ _ _ | ResultTold _ _ _ _ _ => P x | _ => True end) →
  (PostGone out = false → Wake out = true → Forall P (wakeParticipant queue (BgAgent in_) out relay ++ [WakeRecorded taskID])) → Forall P e.
Proof.
  intros <- Hp Hw. destruct (PostGone out); [constructor|]. apply Forall_app. split.
  { destruct (PostFile out); constructor; [exact (Hp (FileTold _ _ _))|constructor]. }
  apply Forall_app. split.
  { destruct (_ =? _); constructor; [exact (Hp (ResultTold _ _ _ _ _))|constructor]. }
  destruct (Wake out); [by apply Hw|constructor].
Qed.

Definition wakes (did : list bg_effect) : Prop := ∃ i f, WakeSent i f ∈ did.

(** ** Properties *)

(** A task's end is posted once, in the state its tool's end calls for:
    cancelled when it failed of being stopped, or was stopped and its run says it
    was cancelled, and never otherwise. Its participant is woken when the end was
    written for waking and only then, once, by a message to it in the task's
    session, and the wake is recorded; a wake that could not be delivered leaves
    an end, with its reason, to the turn that would have answered it. *)
Theorem background_end_told `{OutputJSON} taskID queue in_ child stopped post relay :
  let '(failed, did) := BackgroundTaskWorkflow taskID queue in_ child stopped post relay in
  let '(state, content) := task_end in_ child stopped in
  (∃ rest, did = EndPosted taskID state content :: rest ∧ ∀ s c, EndPosted taskID s c ∉ rest) ∧
  state ∈ [BackgroundDone; BackgroundFailed; BackgroundCancelled] ∧
  (state = BackgroundCancelled ↔
     match child with
     | inl e => stopped = true ∨ IsCanceledError e = true
     | inr raw => stopped = true ∧ BgSubAgent in_ = true ∧ subAgentCancelled raw = true
     end) ∧
  (wakes did ↔ ∃ out, post state content = inr out ∧ PostGone out = false ∧ Wake out = true) ∧
  (WakeRecorded taskID ∈ did ↔ wakes did) ∧
  (∀ i f out, WakeSent i f ∈ did → post state content = inr out →
     f = relay ∧ WorkflowID i = ParticipantWorkflowID (SessionID (task_of out)) (BgAgent in_) ∧ MessageID (RelayMessage i) = PostMessageID out ∧
     match relay with
     | Some _ => ∃ reason, reason ≠ "" ∧
         TurnEndWritten (SessionID (task_of out)) (TurnKey (PostMessageID out) (BgAgent in_)) (TurnEnd (BgAgent in_) reason) ∈ did
     | None => True
     end).
Proof.
  unfold BackgroundTaskWorkflow. pose proof (task_end_state in_ child stopped) as Hst. destruct (task_end in_ child stopped) as [state content]. cbn in Hst.
  assert (H2 : state ∈ [BackgroundDone; BackgroundFailed; BackgroundCancelled] ∧ (state = BackgroundCancelled ↔
     match child with inl e => stopped = true ∨ IsCanceledError e = true | inr raw => stopped = true ∧ BgSubAgent in_ = true ∧ subAgentCancelled raw = true end)).
  { assert (Hc : task_cancelled in_ child stopped = true ↔
      match child with inl e => stopped = true ∨ IsCanceledError e = true | inr raw => stopped = true ∧ BgSubAgent in_ = true ∧ subAgentCancelled raw = true end).
    { unfold task_cancelled. destruct child; [by rewrite orb_true_iff|]. rewrite !andb_true_iff. tauto. }
    rewrite <- Hc, Hst. destruct (task_cancelled _ _ _); [split; [set_solver|done]|]. destruct child as [e|raw]; [split; [set_solver|done]|].
    destruct (if BgSubAgent in_ then _ else _) as [c []]; cbn; (split; [set_solver|done]). }
  destruct H2 as [H2 H3]. destruct (post state content) as [e|out] eqn:Ep.
  { split; [exists []; split; [done|intros s c; apply not_elem_of_nil]|]. split; [done|]. split; [done|].
    assert (Hno : ¬ wakes [EndPosted taskID state content]) by (intros (i & f & Hin%list_elem_of_singleton); done).
    split; [split; [done|]; intros (out & ? & _); congruence|]. split; [split; [by intros ?%list_elem_of_singleton|done]|]. intros; congruence. }
  set (rest := if PostGone out then [] else _).
  assert (Hrest : Forall (λ e, match e with EndPosted _ _ _ => False | WakeSent i f => Wake out = true ∧ PostGone out = false ∧ e ∈ wakeParticipant queue (BgAgent in_) out relay
      | WakeRecorded _ => Wake out = true ∧ PostGone out = false | _ => True end) rest).
  { eapply after_post; [reflexivity|by intros []|]. intros Hg Hw. apply Forall_app. split; [|by repeat constructor].
    apply Forall_forall. intros e He. pose proof (wake_effects _ _ _ _ _ He). by destruct e. }
  rewrite Forall_forall in Hrest.
  assert (Hwake : Wake out = true → PostGone out = false → ∀ e, e ∈ wakeParticipant queue (BgAgent in_) out relay ++ [WakeRecorded taskID] → e ∈ EndPosted taskID state content :: rest).
  { intros Hw Hg e He. right. subst rest. rewrite Hw, Hg. apply elem_of_app. right. apply elem_of_app. by right. }
  assert (Hhas : Wake out = true → PostGone out = false → wakes (EndPosted taskID state content :: rest)).
  { intros Hw Hg. unfold wakes. do 2 eexists. apply (Hwake Hw Hg). apply elem_of_app. left. by left. }
  assert (Hsent : ∀ i f, WakeSent i f ∈ EndPosted taskID state content :: rest →
      Wake out = true ∧ PostGone out = false ∧ WakeSent i f ∈ wakeParticipant queue (BgAgent in_) out relay).
  { intros i f [?|Hin]%elem_of_cons; [done|]. apply (Hrest _ Hin). }
  split; [exists rest; split; [done|]; intros s c Hin; exact (Hrest _ Hin)|]. split; [done|]. split; [done|].
  split; [|split].
  - split; [intros (i & f & Hin); destruct (Hsent _ _ Hin) as (? & ? & _); by exists out|]. intros (out' & [= <-] & Hg & Hw). by apply Hhas.
  - split.
    + intros [?|Hin]%elem_of_cons; [done|]. destruct (Hrest _ Hin). by apply Hhas.
    + intros (i & f & Hin). destruct (Hsent _ _ Hin) as (Hw & Hg & _). apply (Hwake Hw Hg), elem_of_app. right. by left.
  - intros i f out' Hin [= <-]. destruct (Hsent _ _ Hin) as (Hw & Hg & Hin'). destruct (wake_effects _ _ _ _ _ Hin') as (H4 & H5 & H6 & _).
    split; [done|]. split; [done|]. split; [done|]. destruct relay as [e|]; [|done]. eexists. split; [|apply (Hwake Hw Hg)]; cycle 1.
    + apply elem_of_app. left. right. by left.
    + done.
Qed.
