(* ===== verification/Catalog.v ===== *)
(** * A worker's catalog of agents and tools (src/activity/catalog.go, prompt.go, skill.go)

    The copy of the agents, the tools and the access rules a worker reads
    every turn's tools from: which ones the turn may use for its user, how
    each is dispatched, their definitions for the model and the prompt built
    for them. *)

From S2P Require Import Prelude GoStr GoPath Json Access CallInputs AgentData AgentTurn.
Open Scope string_scope.
Open Scope Z_scope.
Open Scope list_scope.

(** ** Data *)

(** [store.ToolRecord], what the catalog reads of it. *)
Record ToolRecord := mkToolRecord {
  TrName : string;
  TrQueue : string;
  TrDescription : string;
  TrSchema : string;
  TrKind : string;
  TrWorkflow : string;
  TrPrivate : bool;
  TrNeedsContext : bool;
  TrTimeout : Z;
  TrMCPServer : string
}.

Definition AccessTool (t : ToolRecord) : Access.Tool :=
  if String.eqb (TrMCPServer t) "" then BuiltIn (TrName t) else FromMCP (TrMCPServer t) (TrName t).

Record AgentCatalogEntry := mkEntry {
  AeID : string;
  AeName : string;
  AeMention : string;
  AeDescription : string;
  AeSkills : list string;
  AeTools : list string;
  AeOnMachine : string
}.

Record ToolDefinition := mkDefinition { DefName : string; DefDescription : string; DefSchema : string; DefCache : bool }.

Record Catalog := mkCatalog {
  cat_agents : list AgentCatalogEntry;
  cat_tools : list ToolRecord;
  cat_access : Snapshot;
  accessLoaded : bool;
  agentsLoaded : bool
}.

Definition NewCatalog : Catalog := mkCatalog [] [] (mkSnapshot [] ∅) false false.

(** ** What changes it *)

Definition tool_le (a b : ToolRecord) : bool := str_le (TrName a) (TrName b).

Definition SetAgents (agents : list AgentCatalogEntry) (c : Catalog) : Catalog :=
  mkCatalog agents (cat_tools c) (cat_access c) (accessLoaded c) true.

(** Sorted by name, in byte order: names are the table's key. *)
Definition SetTools (tools : list ToolRecord) (c : Catalog) : Catalog :=
  mkCatalog (cat_agents c) (sort_stable tool_le tools) (cat_access c) (accessLoaded c) (agentsLoaded c).

Definition SetAccess (s : Snapshot) (c : Catalog) : Catalog :=
  mkCatalog (cat_agents c) (cat_tools c) s true (agentsLoaded c).

(** ** What a turn reads *)

Definition Ready (c : Catalog) : bool := agentsLoaded c && accessLoaded c.

Definition errCatalogNotReady : string := "this worker's catalog has not read its agents and access rules yet".

Definition is_agent (id : string) (a : AgentCatalogEntry) : bool := String.eqb (AeID a) id.

Definition CheckAgent (agentID : string) (c : Catalog) : option string :=
  if negb (Ready c) then Some errCatalogNotReady
  else if existsb (is_agent agentID) (cat_agents c) then None
  else Some ("agent " +:+ agentID +:+ " unknown to this worker's catalog").

(** [tool.MatchAny]. *)
Definition MatchAny (globs : list string) (name : string) : bool :=
  existsb (λ g, match path_match g name with Some ok => ok | None => false end) globs.

Definition AgentToolName (agentID : string) : string := AgentToolPrefix +:+ agentID.

Definition q (s : string) : string := String dquote (s +:+ String dquote "").

Definition AgentToolSchema : string :=
  "{" +:+ q "type" +:+ ":" +:+ q "object" +:+ "," +:+ q "properties" +:+ ":{" +:+
  q "task" +:+ ":{" +:+ q "type" +:+ ":" +:+ q "string" +:+ "," +:+ q "description" +:+ ":" +:+
    q "The task for the agent, with all the context it needs: it does not see this conversation." +:+ "}," +:+
  q "model" +:+ ":{" +:+ q "type" +:+ ":" +:+ q "string" +:+ "," +:+ q "description" +:+ ":" +:+
    q "Optional model override for the agent. Defaults to yours." +:+ "}}," +:+ q "required" +:+ ":[" +:+ q "task" +:+ "]}".

Definition AgentToolDescription `{GoQuote} (a : AgentCatalogEntry) : string :=
  "Delegate a task to the agent " +:+ quote (AeName a) +:+ ". It works on its own, with its own tools and skills, and returns its final answer." +:+
  (if String.eqb (AeDescription a) "" then "" else " Its role: " +:+ AeDescription a).

Definition publishedDefinition (t : ToolRecord) : ToolDefinition := mkDefinition (TrName t) (TrDescription t) (TrSchema t) false.

Definition agentDefinition `{GoQuote} (a : AgentCatalogEntry) : ToolDefinition :=
  mkDefinition (AgentToolName (AeID a)) (AgentToolDescription a) AgentToolSchema false.

Definition publishedResolution (t : ToolRecord) : ToolResolution :=
  mkResolution (TrKind t) (TrWorkflow t) (TrQueue t) (Backgroundable (TrKind t) (TrPrivate t) (TrSchema t)) "" (TrPrivate t) (TrNeedsContext t)
    (TrTimeout t).

Definition agentResolution (a : AgentCatalogEntry) : ToolResolution := mkResolution ToolKindWorkflow "" "" true (AeID a) false false 0.

(** A tool of an agent's list: its definition, how it is dispatched, and the
    tool as the rules see it. *)
Record Listed := mkListed { LsDef : ToolDefinition; LsRes : ToolResolution; LsRef : Access.Tool }.

Definition ls_name (l : Listed) : string := DefName (LsDef l).

Definition listed_tool (t : ToolRecord) : Listed := mkListed (publishedDefinition t) (publishedResolution t) (AccessTool t).
Definition listed_agent `{GoQuote} (a : AgentCatalogEntry) : Listed := mkListed (agentDefinition a) (agentResolution a) (Access.Agent (AeID a)).

Definition allowlist (agentID : string) (c : Catalog) : list string :=
  match List.find (is_agent agentID) (cat_agents c) with Some a => AeTools a | None => [] end.

(** [allowedTools]: the published tools the agent's list matches, but those
    with the agents' prefix, and the tools of the other agents it matches. *)
Definition allowedTools `{GoQuote} (agentID : string) (c : Catalog) : list Listed :=
  let globs := allowlist agentID c in
  let published := List.filter (λ t, negb (has_prefix (TrName t) AgentToolPrefix) && MatchAny globs (TrName t)) (cat_tools c) in
  let agents := List.filter (λ a, negb (is_agent agentID a) && MatchAny globs (AgentToolName (AeID a))) (cat_agents c) in
  sort_stable (λ x y, str_le (ls_name x) (ls_name y)) ((listed_tool <$> published) ++ (listed_agent <$> agents)).

(** [ListToolsOutput], in full: its definitions too. *)
Record ToolList := mkToolList { TlTools : list ToolDefinition; TlResolutions : gmap string ToolResolution; TlRefused : string; TlClosed : list string }.

(** [out.Resolutions[name] = ...], in order. *)
Definition resolutions_of (l : list Listed) : gmap string ToolResolution :=
  fold_left (λ m x, <[ls_name x := LsRes x]> m) l ∅.

Definition AllowedTools `{GoQuote} (agentID : string) (c : Catalog) : ToolList :=
  let l := allowedTools agentID c in mkToolList (LsDef <$> l) (resolutions_of l) "" [].

Definition AllowedToolsFor `{GoQuote} (agentID userID : string) (c : Catalog) : ToolList :=
  if negb (SnapshotAllowed (cat_access c) userID (Access.Agent agentID)) then
    mkToolList [] ∅
      ("agent " +:+ agentID +:+ " not open to " +:+ (if String.eqb userID "" then "a run without a user" else userID)) []
  else
    let l := allowedTools agentID c in
    let open x := SnapshotAllowed (cat_access c) userID (LsRef x) in
    let kept := List.filter open l in
    let closed := ls_name <$> List.filter (λ x, negb (open x)) l in
    mkToolList (LsDef <$> kept) (fold_left (λ m name, delete name m) closed (resolutions_of l)) "" closed.

(** [ListTools]. *)
Definition ListTools `{GoQuote} (agentID userID : string) (c : Catalog) : string + ToolList :=
  match CheckAgent agentID c with Some e => inl e | None => inr (AllowedToolsFor agentID userID c) end.

(** What a run reads of the list. *)
Definition as_read (l : ToolList) : ListToolsOutput := mkTools (DefName <$> TlTools l) (TlResolutions l) (TlRefused l) (TlClosed l).

(** [sort.Search]: the first index in [[lo, hi)] where [f] holds, [hi] if none. *)
Fixpoint search (fuel : nat) (f : nat → bool) (lo hi : nat) : nat :=
  match fuel with
  | O => lo
  | S fuel =>
      if (lo <? hi)%nat then
        let mid := ((lo + hi) / 2)%nat in
        if f mid then search fuel f lo mid else search fuel f (S mid) hi
      else lo
  end.

(** The tool of that name, by the catalog's binary search. *)
Definition tool_named (name : string) (tools : list ToolRecord) : option ToolRecord :=
  let n := length tools in
  let i := search n (λ i, match tools !! i with Some t => str_le name (TrName t) | None => true end) 0 n in
  match tools !! i with Some t => if String.eqb (TrName t) name then Some t else None | None => None end.

(** [definition]: the tool's, and whether its calls may run in the background. *)
Definition definition `{GoQuote} (name : string) (c : Catalog) : option (ToolDefinition * bool) :=
  match cut_prefix AgentToolPrefix name with
  | Some id => match List.find (is_agent id) (cat_agents c) with Some a => Some (agentDefinition a, true) | None => None end
  | None =>
      match tool_named name (cat_tools c) with
      | Some t => Some (publishedDefinition t, Backgroundable (TrKind t) (TrPrivate t) (TrSchema t))
      | None => None
      end
  end.

Definition with_schema (schema : string) (d : ToolDefinition) : ToolDefinition := mkDefinition (DefName d) (DefDescription d) schema (DefCache d).

(** [ToolDefinitions]: the definitions, the names unknown, and whether a tool
    is offered the background field. *)
Fixpoint ToolDefinitions `{GoQuote} (names : list string) (background : bool) (c : Catalog) : list ToolDefinition * list string * bool :=
  match names with
  | [] => ([], [], false)
  | name :: names =>
      let '(defs, missing, backgrounds) := ToolDefinitions names background c in
      match definition name c with
      | None => (defs, name :: missing, backgrounds)
      | Some (d, eligible) =>
          if background && eligible then (with_schema (WithBackgroundField (DefSchema d)) d :: defs, missing, true)
          else (d :: defs, missing, backgrounds)
      end
  end.

Definition PrivateInput (name : string) (c : Catalog) : bool :=
  match tool_named name (cat_tools c) with Some t => TrPrivate t | None => false end.

(** [AgentLabels]: of two agents with the same ID, the last one. *)
Definition AgentLabels (c : Catalog) : gmap string (string * string) :=
  fold_left (λ m a, <[AeID a := (cmp_or (AeName a) (AeID a), AeMention a)]> m) (cat_agents c) ∅.

(** ** The binary search *)

Lemma search_spec f fuel lo hi :
  (hi - lo ≤ fuel)%nat → (lo ≤ hi)%nat → (∀ i j, (lo ≤ i ≤ j)%nat → (j < hi)%nat → f i = true → f j = true) →
  (lo ≤ search fuel f lo hi ≤ hi)%nat ∧ (∀ i, (lo ≤ i < search fuel f lo hi)%nat → f i = false) ∧
  (search fuel f lo hi < hi → f (search fuel f lo hi) = true)%nat.
Proof.
  revert lo hi; induction fuel as [|fuel IH]; intros lo hi Hf Hle Hm; cbn [search]; [repeat split; intros; lia|].
  destruct (Nat.ltb_spec lo hi) as [Hlt|]; [|repeat split; intros; lia].
  pose proof (Nat.div_mod_eq (lo + hi) 2). pose proof (Nat.mod_upper_bound (lo + hi) 2).
  set (mid := ((lo + hi) / 2)%nat) in *. destruct (f mid) eqn:E.
  - destruct (IH lo mid) as (H1 & H2 & H3); [lia..| |].
    { intros i j ? ?. apply Hm; lia. }
    split; [lia|]. split; [done|]. intros _. destruct (decide (search fuel f lo mid < mid)%nat); [by apply H3|].
    by replace (search fuel f lo mid) with mid by lia.
  - destruct (IH (S mid) hi) as (H1 & H2 & H3); [lia..| |].
    { intros i j ? ?. apply Hm; lia. }
    split; [lia|]. split; [|done]. intros i Hi. destruct (decide (i ≤ mid)%nat); [|apply H2; lia].
    destruct (f i) eqn:Ei; [|done]. by rewrite (Hm i mid) in E by (done || lia).
Qed.

Lemma find_first {A} (p : A → bool) (l : list A) i x :
  l !! i = Some x → p x = true → (∀ j y, (j < i)%nat → l !! j = Some y → p y = false) → List.find p l = Some x.
Proof.
  revert i; induction l as [|y l IH]; intros [|i] Hl Hp Hb; cbn; try done.
  - simplify_eq/=. by rewrite Hp.
  - rewrite (Hb O y) by (done || lia). apply (IH i); try done. intros j z Hj Hz. apply (Hb (S j) z); [lia|done].
Qed.

Lemma sorted_lookup {A} (le : A → A → bool) l i j x y :
  StronglySorted (λ a b, le a b = true) l → (i < j)%nat → l !! i = Some x → l !! j = Some y → le x y = true.
Proof.
  intros Hs; revert i j; induction Hs as [|z l Hs IH Hf]; intros i j Hij Hi Hj; [done|].
  destruct j as [|j]; [lia|]. destruct i as [|i]; cbn in *.
  - simplify_eq. rewrite Forall_lookup in Hf. by eapply Hf.
  - eapply (IH i j); (done || lia).
Qed.

Definition named (name : string) (t : ToolRecord) : bool := String.eqb (TrName t) name.

Lemma tool_named_first name tools :
  StronglySorted (λ a b, tool_le a b = true) tools → tool_named name tools = List.find (named name) tools.
Proof.
  intros Hs. unfold tool_named. set (f i := match tools !! i with Some t => str_le name (TrName t) | None => true end).
  destruct (search_spec f (length tools) 0 (length tools)) as (H1 & H2 & H3); [lia..| |].
  { intros i j Hij Hj. unfold f. destruct (lookup_lt_is_Some_2 tools j Hj) as [y Hy].
    destruct (lookup_lt_is_Some_2 tools i) as [x Hx]; [lia|]. rewrite Hx, Hy. intros Hi.
    destruct (decide (i = j)); [naive_solver|]. eapply str_le_trans; [done|]. by eapply (sorted_lookup tool_le tools i j x y); (done || lia). }
  set (i := search _ _ _ _) in *.
  assert (Hlow : ∀ j y, (j < i)%nat → tools !! j = Some y → named name y = false).
  { intros j y Hj Hy. specialize (H2 j ltac:(lia)). unfold f in H2. rewrite Hy in H2. unfold named.
    destruct (String.eqb_spec (TrName y) name) as [E|]; [|done]. rewrite E, (proj2 (str_le_cases name name)) in H2; auto. }
  assert (Hnone : (∀ j y, (i ≤ j)%nat → tools !! j = Some y → named name y = false) → List.find (named name) tools = None).
  { intros Hhigh. destruct (List.find _ tools) as [y|] eqn:E; [|done]. apply find_some in E as [Hin Hn].
    apply list_elem_of_In, list_elem_of_lookup in Hin as [j Hj]. destruct (decide (i ≤ j)%nat);
      [rewrite (Hhigh j y) in Hn|rewrite (Hlow j y) in Hn]; (done || lia). }
  destruct (tools !! i) as [t|] eqn:Ht.
  - assert (Hi : (i < length tools)%nat) by by eapply lookup_lt_Some. specialize (H3 Hi). unfold f in H3. rewrite Ht in H3.
    fold (named name t). destruct (named name t) eqn:En; [symmetry; by eapply find_first|]. symmetry. apply Hnone.
    intros j y Hj Hy. destruct (decide (i = j)); [naive_solver|]. unfold named.
    destruct (String.eqb_spec (TrName y) name) as [E|]; [|done].
    pose proof (sorted_lookup tool_le tools i j t y Hs ltac:(lia) Ht Hy) as Hle. unfold tool_le in Hle. rewrite E in Hle.
    apply str_le_cases in H3 as [->|H3]; [unfold named in En; by rewrite String.eqb_refl in En|].
    rewrite str_le_lt, H3 in Hle. done.
  - symmetry. apply Hnone. intros j y Hj Hy. apply lookup_ge_None in Ht. apply lookup_lt_Some in Hy. lia.
Qed.

(** ** A catalog as it is reloaded: names and agents are keys of their tables *)

Inductive reload : Catalog → Catalog → Prop :=
| reload_agents c agents : NoDup (AeID <$> agents) → reload c (SetAgents agents c)
| reload_tools c tools : NoDup (TrName <$> tools) → reload c (SetTools tools c)
| reload_access c s : reload c (SetAccess s c).

Record catalog_ok (c : Catalog) : Prop := {
  tools_sorted : StronglySorted (λ a b, tool_le a b = true) (cat_tools c);
  tools_unique : NoDup (TrName <$> cat_tools c);
  agents_unique : NoDup (AeID <$> cat_agents c)
}.

Lemma tool_le_total x y : tool_le x y = true ∨ tool_le y x = true.
Proof. apply str_le_total. Qed.

Lemma tool_le_trans x y z : tool_le x y = true → tool_le y z = true → tool_le x z = true.
Proof. apply str_le_trans. Qed.

Lemma reloaded_ok c : star reload NewCatalog c → catalog_ok c.
Proof.
  intros H. apply (star_invariant reload catalog_ok NewCatalog c); [|done|split; constructor].
  intros s t [H1 H2 H3] Hr. destruct Hr; constructor; cbn; try done.
  - apply sort_stable_sorted; [apply tool_le_total|apply tool_le_trans].
  - by rewrite sort_stable_perm.
Qed.

Lemma has_prefix_spec s p : has_prefix s p = true ↔ ∃ r, s = p +:+ r.
Proof.
  unfold has_prefix. destruct (cut_prefix p s) as [r|] eqn:E.
  - apply cut_prefix_some in E. naive_solver.
  - split; [done|]. intros [r Hr]. apply cut_prefix_some in Hr. congruence.
Qed.

Section Listed.
Context {GQ : GoQuote} (c : Catalog).

(** Every tool there is: the published ones but those with the agents'
    prefix, and the agents'. *)
Definition listed : list Listed :=
  (listed_tool <$> List.filter (λ t, negb (has_prefix (TrName t) AgentToolPrefix)) (cat_tools c)) ++ (listed_agent <$> cat_agents c).

(** The tool of each name. *)
Definition catalog_map : gmap string Listed := list_to_map ((λ x, (ls_name x, x)) <$> listed).

Hypothesis ok : catalog_ok c.

Lemma agent_tool_inj a b : AgentToolName a = AgentToolName b → a = b.
Proof. unfold AgentToolName. intros H. pose proof (cut_prefix_app AgentToolPrefix a) as E. rewrite H, cut_prefix_app in E. congruence. Qed.

Lemma listed_names : NoDup (ls_name <$> listed).
Proof.
  unfold listed. rewrite fmap_app, <- !list_fmap_compose. apply NoDup_app. split; [|split].
  - apply (sublist_NoDup _ (TrName <$> cat_tools c)); [apply ok|]. induction (cat_tools c) as [|t l IH]; cbn; [done|].
    destruct (has_prefix _ _); cbn; by constructor.
  - intros name Hp Ha. apply list_elem_of_fmap in Hp as (t & -> & Ht), Ha as (a & Hn & _). apply elem_filter in Ht as [_ Ht].
    cbn in Hn, Ht. rewrite (proj2 (has_prefix_spec _ _)) in Ht; [done|]. by exists (AeID a).
  - pose proof (agents_unique c ok) as Hu. revert Hu. generalize (cat_agents c) as l.
    induction l as [|a l IH]; cbn; [by constructor|]. intros [Hn Hu]%NoDup_cons. apply NoDup_cons. split; [|by apply IH].
    intros Hin. apply Hn. apply list_elem_of_fmap in Hin as (b & Hb & Hin). apply list_elem_of_fmap. exists b. split; [|done].
    by apply agent_tool_inj.
Qed.

Lemma catalog_map_spec name x : catalog_map !! name = Some x ↔ x ∈ listed ∧ ls_name x = name.
Proof.
  unfold catalog_map. rewrite <- elem_of_list_to_map by (rewrite <- list_fmap_compose; apply listed_names).
  rewrite list_elem_of_fmap. split; [intros (y & ? & ?); by simplify_eq|]. intros [? <-]. by exists x.
Qed.

Lemma find_unique {A} (p : A → bool) l x : x ∈ l → p x = true → (∀ y, y ∈ l → p y = true → y = x) → List.find p l = Some x.
Proof.
  intros Hin Hp Hu. destruct (List.find p l) as [y|] eqn:E.
  - apply find_some in E as [Hy Hpy]. f_equal. apply Hu; [by apply list_elem_of_In|done].
  - by rewrite (find_none _ _ E x) in Hp; [|apply list_elem_of_In].
Qed.

Lemma find_by_key {A} (key : A → string) (l : list A) (x : A) :
  NoDup (key <$> l) → x ∈ l → List.find (λ y, String.eqb (key y) (key x)) l = Some x.
Proof.
  intros Hu Hin. apply find_unique; [done|apply String.eqb_refl|]. intros y Hy Hk%String.eqb_eq.
  apply list_elem_of_lookup in Hin as [i Hi], Hy as [j Hj].
  assert (i = j) as ->; [|congruence]. apply (NoDup_lookup (key <$> l) i j (key x) Hu); rewrite list_lookup_fmap; [by rewrite Hi|].
  rewrite Hj. cbn. by rewrite Hk.
Qed.

(** The catalog's lookup of a definition is the one in that map. *)
Lemma definition_map name : definition name c = (λ x, (LsDef x, ResBackground (LsRes x))) <$> catalog_map !! name.
Proof.
  destruct (catalog_map !! name) as [x|] eqn:E.
  - apply catalog_map_spec in E as [Hx <-]. unfold listed in Hx. rewrite elem_of_app, !list_elem_of_fmap in Hx. unfold definition.
    destruct Hx as [(t & -> & [Ht Hn]%elem_filter)|(a & -> & Ha)].
    + cbn [ls_name LsDef listed_tool publishedDefinition DefName]. destruct (cut_prefix AgentToolPrefix (TrName t)) eqn:Ec.
      { apply cut_prefix_some in Ec. rewrite (proj2 (has_prefix_spec _ _)) in Hn; [done|by eexists]. }
      rewrite tool_named_first by apply ok. unfold named. by rewrite (find_by_key TrName (cat_tools c) t (tools_unique c ok) Ht).
    + cbn [ls_name LsDef listed_agent agentDefinition DefName]. unfold AgentToolName. rewrite cut_prefix_app. unfold is_agent.
      by rewrite (find_by_key AeID (cat_agents c) a (agents_unique c ok) Ha).
  - unfold definition. destruct (cut_prefix AgentToolPrefix name) as [id|] eqn:Ec.
    + destruct (List.find _ _) as [a|] eqn:Ef; [|done]. apply find_some in Ef as [Ha Hid%String.eqb_eq]. apply cut_prefix_some in Ec.
      apply list_elem_of_In in Ha. exfalso. rewrite (proj2 (catalog_map_spec name (listed_agent a))) in E; [done|]. split; [|rewrite Ec, <- Hid; reflexivity].
      apply elem_of_app; right. by apply list_elem_of_fmap_2.
    + rewrite tool_named_first by apply ok. destruct (List.find _ _) as [t|] eqn:Ef; [|done]. apply find_some in Ef as [Ht Hn%String.eqb_eq].
      apply list_elem_of_In in Ht. exfalso. rewrite (proj2 (catalog_map_spec name (listed_tool t))) in E; [done|]. split; [|done].
      apply elem_of_app; left. apply list_elem_of_fmap_2, elem_filter. split; [done|]. rewrite Hn. unfold has_prefix. by rewrite Ec.
Qed.
End Listed.

(** ** An agent's tools, for a user *)

Lemma resolutions_lookup l : NoDup (ls_name <$> l) →
  ∀ (m : gmap string ToolResolution) name, fold_left (λ m x, <[ls_name x := LsRes x]> m) l m !! name =
    match List.find (λ x, String.eqb (ls_name x) name) l with Some x => Some (LsRes x) | None => m !! name end.
Proof.
  induction l as [|x l IH]; intros Hu m name; [done|]. cbn [fmap list_fmap] in Hu. apply NoDup_cons in Hu as [Hn Hu].
  cbn [fold_left List.find]. rewrite IH by done.
  destruct (String.eqb_spec (ls_name x) name) as [<-|Hne]; [|by rewrite lookup_insert_ne].
  destruct (List.find _ l) as [y|] eqn:E; [|by rewrite lookup_insert_eq]. apply find_some in E as [Hy E%String.eqb_eq]. exfalso.
  apply Hn. rewrite <- E. by apply list_elem_of_fmap_2, list_elem_of_In.
Qed.

Lemma closed_lookup (closed : list string) : ∀ (m : gmap string ToolResolution) name,
  fold_left (λ m name, delete name m) closed m !! name = if contains closed name then None else m !! name.
Proof.
  induction closed as [|x l IH]; intros m name; [done|]. cbn [fold_left]. rewrite IH. unfold contains. cbn [existsb].
  destruct (existsb _ l); [by rewrite orb_true_r|]. rewrite orb_false_r.
  destruct (String.eqb_spec x name) as [->|Hne]; [by rewrite String.eqb_refl, lookup_delete_eq|].
  rewrite lookup_delete_ne by done. by destruct (String.eqb_spec name x) as [->|].
Qed.

Lemma filter_sorted {A} (le : A → A → bool) (p : A → bool) l :
  StronglySorted (λ a b, le a b = true) l → StronglySorted (λ a b, le a b = true) (List.filter p l).
Proof.
  induction 1 as [|x l Hl IH Hf]; cbn; [constructor|]. destruct (p x); [|done]. constructor; [done|].
  rewrite Forall_forall in *. intros y [Hy _]%elem_filter. by apply Hf.
Qed.

Lemma filter_names {A} (key : A → string) (p : A → bool) l : NoDup (key <$> l) → NoDup (key <$> List.filter p l).
Proof.
  induction l as [|x l IH]; cbn; [done|]. intros [Hn Hu]%NoDup_cons. destruct (p x); cbn; [|by apply IH].
  apply NoDup_cons. split; [|by apply IH]. intros (y & Hy & [Hin _]%elem_filter)%list_elem_of_fmap. apply Hn.
  rewrite Hy. by apply list_elem_of_fmap_2.
Qed.

Section AllowedTools.
Context {GQ : GoQuote} (c : Catalog) (agentID : string).
Hypothesis ok : catalog_ok c.

(** What the agent's list gives it: a tool it matches, never itself. *)
Definition granted (x : Listed) : bool :=
  MatchAny (allowlist agentID c) (ls_name x) && negb (String.eqb (ls_name x) (AgentToolName agentID)).

Lemma allowed_filter : allowedTools agentID c = sort_stable (λ x y, str_le (ls_name x) (ls_name y)) (List.filter granted (listed c)).
Proof.
  unfold allowedTools, listed. f_equal. rewrite List.filter_app. f_equal.
  - induction (cat_tools c) as [|t l IH]; [done|]. cbn [List.filter]. destruct (has_prefix _ _) eqn:Hp; [done|]. cbn [negb andb fmap list_fmap List.filter].
    unfold granted at 1. cbn [ls_name LsDef listed_tool publishedDefinition DefName]. destruct (MatchAny _ _); [|done].
    destruct (String.eqb_spec (TrName t) (AgentToolName agentID)) as [E|]; cbn; [|by rewrite <- IH].
    exfalso. rewrite (proj2 (has_prefix_spec _ _)) in Hp; [done|]. by exists agentID.
  - induction (cat_agents c) as [|a l IH]; [done|]. cbn [List.filter fmap list_fmap]. unfold granted at 1, is_agent at 1.
    cbn [ls_name LsDef listed_agent agentDefinition DefName]. rewrite andb_comm.
    destruct (MatchAny _ _); [|done]. cbn [andb].
    destruct (String.eqb_spec (AeID a) agentID) as [->|Hne]; [by rewrite String.eqb_refl|].
    destruct (String.eqb_spec (AgentToolName (AeID a)) (AgentToolName agentID)) as [E%agent_tool_inj|]; [done|]. cbn. by rewrite <- IH.
Qed.

Lemma allowed_elem x : x ∈ allowedTools agentID c ↔ x ∈ listed c ∧ granted x = true.
Proof. rewrite allowed_filter, sort_stable_perm. apply elem_filter. Qed.

Lemma allowed_names : NoDup (ls_name <$> allowedTools agentID c).
Proof. rewrite allowed_filter, sort_stable_perm. by apply filter_names, listed_names. Qed.

Lemma allowed_sorted : StronglySorted (λ x y, str_le (ls_name x) (ls_name y) = true) (allowedTools agentID c).
Proof.
  rewrite allowed_filter. apply (sort_stable_sorted (λ x y, str_le (ls_name x) (ls_name y))); [intros; apply str_le_total|].
  intros x y z. apply str_le_trans.
Qed.

Lemma definitions_of (l : list Listed) : (∀ x, x ∈ l → x ∈ listed c) → ToolDefinitions (DefName <$> (LsDef <$> l)) false c = (LsDef <$> l, [], false).
Proof.
  induction l as [|x l IH]; intros Hl; [done|]. rewrite !fmap_cons. cbn [ToolDefinitions].
  rewrite IH by (intros; apply Hl; set_solver). rewrite definition_map by done.
  change (DefName (LsDef x)) with (ls_name x). rewrite (proj2 (catalog_map_spec c ok (ls_name x) x)); [done|]. split; [apply Hl; set_solver|done].
Qed.

(** A part of the list, by the names. *)
Definition part (p : Listed → bool) : list string := ls_name <$> List.filter p (allowedTools agentID c).

Lemma part_elem p name : name ∈ part p ↔ ∃ x, catalog_map c !! name = Some x ∧ granted x = true ∧ p x = true.
Proof.
  unfold part. rewrite list_elem_of_fmap. split.
  - intros (x & -> & [[Hx Hg]%allowed_elem Hp]%elem_filter). exists x. by rewrite catalog_map_spec.
  - intros (x & [Hx <-]%catalog_map_spec & Hg & Hp); [|done]. exists x. by rewrite elem_filter, allowed_elem.
Qed.

Lemma part_sorted p : StronglySorted (λ a b, str_lt a b = true) (part p).
Proof.
  assert (Hs := filter_sorted _ p _ allowed_sorted). assert (Hu := filter_names ls_name p _ allowed_names). unfold part.
  revert Hu. induction Hs as [|x l Hl IH Hf]; cbn; [constructor|]. intros [Hn Hu]%NoDup_cons. constructor; [by apply IH|].
  apply Forall_forall. intros name (y & -> & Hy)%list_elem_of_fmap. pose proof (proj1 (Forall_forall _ _) Hf y Hy) as Hle. cbn in Hle.
  apply str_le_cases in Hle as [E|]; [|done]. exfalso. apply Hn. rewrite E. by apply list_elem_of_fmap_2.
Qed.

Lemma part_resolutions p name res :
  fold_left (λ m name, delete name m) (part (λ x, negb (p x))) (resolutions_of (allowedTools agentID c)) !! name = Some res ↔
  name ∈ part p ∧ LsRes <$> catalog_map c !! name = Some res.
Proof.
  rewrite closed_lookup. unfold resolutions_of. rewrite (resolutions_lookup _ allowed_names), lookup_empty.
  assert (Hfind : ∀ x, List.find (λ x, String.eqb (ls_name x) name) (allowedTools agentID c) = Some x ↔
    catalog_map c !! name = Some x ∧ granted x = true).
  { intros x. split.
    - intros [Hx Hn%String.eqb_eq]%find_some. rewrite catalog_map_spec by done. apply list_elem_of_In, allowed_elem in Hx. naive_solver.
    - intros [[Hx <-]%catalog_map_spec Hg]; [|done]. apply (find_by_key ls_name _ x allowed_names). by apply allowed_elem. }
  destruct (contains _ name) eqn:Ec.
  - apply contains_spec, part_elem in Ec as (x & Hx & Hg & Hp). split; [done|].
    intros [(y & Hy & _ & Hq)%part_elem _]. simplify_eq. by rewrite Hq in Hp.
  - apply contains_false in Ec. destruct (List.find _ _) as [x|] eqn:E.
    + destruct (proj1 (Hfind x) eq_refl) as [Hx Hg]. rewrite Hx, part_elem. cbn. split; [|naive_solver]. intros ?. split; [|done].
      exists x. split; [done|]. split; [done|]. destruct (p x) eqn:Hp; [done|]. exfalso. apply Ec, part_elem. exists x. by rewrite Hp.
    + split; [done|]. intros [(x & Hx & Hg & Hp)%part_elem _]. discriminate (proj2 (Hfind x) (conj Hx Hg)).
Qed.
End AllowedTools.

(** The worker finds a tool's definition, and whether it is private or may
    run in the background, by a binary search of its sorted copy for the
    published ones: whatever reloads led to the copy, and in whatever order
    the database listed the tools, that is the lookup in the map of all the
    tools by name. *)
Theorem lookup_by_name {GQ : GoQuote} c name :
  star reload NewCatalog c →
  definition name c = (λ x, (LsDef x, ResBackground (LsRes x))) <$> catalog_map c !! name ∧
  (has_prefix name AgentToolPrefix = false → PrivateInput name c = match catalog_map c !! name with Some x => ResPrivate (LsRes x) | None => false end).
Proof.
  intros ok%reloaded_ok. split; [by apply definition_map|]. intros Hp. unfold PrivateInput. rewrite tool_named_first by apply ok.
  pose proof (definition_map c ok name) as Hd. unfold definition in Hd. unfold has_prefix in Hp. destruct (cut_prefix _ name) eqn:Ec; [done|].
  rewrite tool_named_first in Hd by apply ok. destruct (List.find _ _) as [t|] eqn:Ef.
  - destruct (catalog_map c !! name) as [x|] eqn:E; [|done]. apply catalog_map_spec in E as [Hx <-]; [|done].
    apply find_some in Ef as [Ht Hn%String.eqb_eq]. apply elem_of_app in Hx as [(u & -> & [Hu _]%elem_filter)%list_elem_of_fmap|(a & -> & Ha)%list_elem_of_fmap].
    + cbn [ls_name LsDef listed_tool publishedDefinition DefName] in Hn. pose proof (find_by_key TrName _ u (tools_unique c ok) Hu) as H1.
      pose proof (find_by_key TrName _ t (tools_unique c ok)) as H2. rewrite Hn in H2. rewrite H2 in H1 by by apply list_elem_of_In. by simplify_eq.
    + cbn [ls_name LsDef listed_agent agentDefinition DefName] in Ec. unfold AgentToolName in Ec. by rewrite cut_prefix_app in Ec.
  - by destruct (catalog_map c !! name).
Qed.

(** A turn's tools are those of the catalog its agent's list matches,
    itself never, that the access rules leave open to its user; [Closed]
    names the others the list matches, each list in the order of the names;
    a tool is dispatched as the catalog says, and one not offered is not
    dispatched; the definitions the model gets for the names offered are the
    offered ones, none missing. An agent closed to the user offers nothing. *)
Theorem offered_exact {GQ : GoQuote} c agentID userID :
  star reload NewCatalog c →
  let l := AllowedToolsFor agentID userID c in
  let offered := DefName <$> TlTools l in
  if SnapshotAllowed (cat_access c) userID (Access.Agent agentID) then
    TlRefused l = "" ∧
    (∀ name x, catalog_map c !! name = Some x →
       (name ∈ offered ↔ granted c agentID x = true ∧ SnapshotAllowed (cat_access c) userID (LsRef x) = true) ∧
       (name ∈ TlClosed l ↔ granted c agentID x = true ∧ SnapshotAllowed (cat_access c) userID (LsRef x) = false)) ∧
    (∀ name, name ∈ offered ∨ name ∈ TlClosed l → is_Some (catalog_map c !! name)) ∧
    (∀ name res, TlResolutions l !! name = Some res ↔ name ∈ offered ∧ LsRes <$> catalog_map c !! name = Some res) ∧
    StronglySorted (λ a b, str_lt a b = true) offered ∧
    ToolDefinitions offered false c = (TlTools l, [], false)
  else TlTools l = [] ∧ TlResolutions l = ∅ ∧ TlRefused l ≠ "".
Proof.
  intros ok%reloaded_ok. cbv zeta. unfold AllowedToolsFor. destruct (SnapshotAllowed (cat_access c) userID (Access.Agent agentID)); [|done].
  cbn [negb TlTools TlClosed TlRefused TlResolutions]. set (open x := SnapshotAllowed (cat_access c) userID (LsRef x)).
  change (ls_name <$> List.filter _ (allowedTools agentID c)) with (part c agentID (λ x, negb (open x))).
  pose proof (list_fmap_compose LsDef DefName (List.filter open (allowedTools agentID c))) as Hoff. rewrite <- Hoff.
  change (DefName ∘ LsDef <$> List.filter open (allowedTools agentID c)) with (part c agentID open) in *.
  split; [done|]. split; [|split; [|split; [|split]]].
  - intros name x Hx. rewrite !part_elem by done. split; (split; [intros (y & Hy & Hg & Ho); simplify_eq; split; [done|]|intros [Hg Ho]; exists x]).
    + done.
    + done.
    + by destruct (open x) eqn:E.
    + unfold open. by rewrite Ho.
  - intros name. rewrite !part_elem by done. by intros [(x & -> & _)|(x & -> & _)].
  - intros name res. by apply part_resolutions.
  - by apply part_sorted.
  - rewrite Hoff. apply definitions_of; [done|]. intros x [[Hx _]%allowed_elem _]%elem_filter; done.
Qed.

(** ** A worker's catalog, reloaded out of order *)

#[local] Instance plain_quote : GoQuote := λ s, s.

Definition web_tool (name : string) (private : bool) : ToolRecord := mkToolRecord name "tools" "" "" "activity" "" private false 0 "".

Definition web_catalog : Catalog :=
  SetAccess (mkSnapshot [mkRule 1 KindPattern "web_*" [] ["u1"]] (list_to_map [("u1", mkUser "u1" false false []); ("u2", mkUser "u2" false false [])]))
    (SetTools [web_tool "web_fetch" false; web_tool "mail" true; web_tool "agent_x" false; web_tool "lock" false]
      (SetAgents [mkEntry "ada" "Ada" "" "" [] ["*_*"; "mail"] "never"; mkEntry "bob" "" "" "" [] [] "never"] NewCatalog)).

Lemma web_catalog_reloaded : star reload NewCatalog web_catalog.
Proof.
  eapply star_step; [apply reload_agents|eapply star_step; [apply reload_tools|eapply star_step; [apply reload_access|apply star_refl]]];
    cbn; repeat (apply NoDup_cons; split; [set_solver|]); constructor.
Qed.

Lemma lookup_by_name_witness :
  TrName <$> cat_tools web_catalog = ["agent_x"; "lock"; "mail"; "web_fetch"] ∧
  (definition "mail" web_catalog = (λ x, (LsDef x, ResBackground (LsRes x))) <$> catalog_map web_catalog !! "mail") ∧ PrivateInput "mail" web_catalog = true.
Proof.
  split; [reflexivity|]. destruct (lookup_by_name web_catalog "mail" web_catalog_reloaded) as [H1 H2]. split; [exact H1|].
  rewrite H2 by reflexivity. vm_compute. reflexivity.
Defined.

Lemma offered_exact_witness :
  let l := AllowedToolsFor "ada" "u2" web_catalog in
  TlRefused l = "" ∧ DefName <$> TlTools l = ["agent_bob"; "mail"] ∧ TlClosed l = ["web_fetch"] ∧
  ToolDefinitions (DefName <$> TlTools l) false web_catalog = (TlTools l, [], false) ∧ TlResolutions l !! "web_fetch" = None.
Proof.
  cbv zeta. pose proof (offered_exact web_catalog "ada" "u2" web_catalog_reloaded) as H. cbv zeta in H.
  assert (E : SnapshotAllowed (cat_access web_catalog) "u2" (Access.Agent "ada") = true) by (vm_compute; reflexivity).
  rewrite E in H. destruct H as (H1 & H2 & H3 & H4 & H5 & H6). split; [exact H1|]. split; [vm_compute; reflexivity|].
  split; [vm_compute; reflexivity|]. split; [exact H6|]. vm_compute. reflexivity.
Defined.
