(* ===== verification/CatalogRun.v ===== *)
(** * What a run may reach, by the catalog it reads its tools from

    The agent workflow (AgentTurn.v) composed with the catalog of the worker
    that lists its tools (Catalog.v) and the access rules (Access.v). *)

From S2P Require Import Prelude GoStr GoPath Json JsonFields Access Tasks CallInputs AgentData AgentLLM AgentTurn AgentSteps AgentTheorems Catalog.
Open Scope string_scope.
Open Scope Z_scope.
Open Scope list_scope.

(** The list a run reads is what a worker's catalog makes of it for the run's
    agent and user, whichever worker it is and whatever it has reloaded. *)
Definition lists_from_catalogs `{GoQuote} (env : Env) (input : RunInput) : Prop :=
  ∀ n tools, tools_result env n = inr tools →
  ∃ c l, star reload NewCatalog c ∧ ListTools (RunAgent input) (RunUserID input) c = inr l ∧ tools = as_read l.

(** The tool a child workflow runs. *)
Definition child_of (w : ChildWork) (x : Listed) : Prop :=
  ResKind (LsRes x) = ToolKindWorkflow ∧
  match w with
  | SubAgent i => ls_name x = AgentToolName (RunAgent i) ∧ LsRef x = Access.Agent (RunAgent i) ∧ ResAgent (LsRes x) = RunAgent i
  | ToolWorkflow wf _ => ResAgent (LsRes x) = "" ∧ ResWorkflow (LsRes x) = wf
  end.

(** The tool a call goes to. *)
Definition call_of (e : effect) (x : Listed) : Prop :=
  match e with
  | ToolRun queue _ i => ls_name x = ExName i ∧ ResKind (LsRes x) ≠ ToolKindWorkflow ∧ queue = ResQueue (LsRes x)
  | ChildStarted _ _ w => child_of w x
  | TaskRegistered t => ls_name x = Tasks.Tool t ∧ ResBackground (LsRes x) = true
  | TaskLaunched _ i => ls_name x = BgTool i ∧ ResBackground (LsRes x) = true ∧ child_of (BgInput i) x
  | _ => False
  end.

Lemma child_tool {GQ : GoQuote} input cc0 chain c x w :
  x ∈ listed c → child_ok input chain cc0 (LsRes x) w → child_of w x.
Proof.
  intros Hx [Hk Hw]. split; [done|]. destruct w as [i|wf raw]; [|by destruct Hw as [? ->]]. destruct Hw as (Hi & Hne & _). rewrite Hi.
  apply elem_of_app in Hx as [(t & -> & _)%list_elem_of_fmap|(a & -> & _)%list_elem_of_fmap]; done.
Qed.

Lemma listed_open {GQ : GoQuote} c input l name res :
  star reload NewCatalog c → ListTools (RunAgent input) (RunUserID input) c = inr l → TlRefused l = "" →
  TlResolutions l !! name = Some res →
  Ready c = true ∧ SnapshotAllowed (cat_access c) (RunUserID input) (Access.Agent (RunAgent input)) = true ∧
  ∃ x, catalog_map c !! name = Some x ∧ ls_name x = name ∧ LsRes x = res ∧ granted c (RunAgent input) x = true ∧
    SnapshotAllowed (cat_access c) (RunUserID input) (LsRef x) = true.
Proof.
  intros ok%reloaded_ok Hl Hr Hres. unfold ListTools, CheckAgent in Hl. destruct (Ready c); [|done]. cbn in Hl.
  destruct (existsb _ _); [|done]. simplify_eq. unfold AllowedToolsFor in *.
  destruct (SnapshotAllowed (cat_access c) (RunUserID input) (Access.Agent (RunAgent input))); [|done]. split; [done|]. split; [done|].
  cbn [negb TlResolutions] in Hres. apply (part_resolutions c (RunAgent input) ok (λ x, SnapshotAllowed (cat_access c) (RunUserID input) (LsRef x))) in Hres
    as [(x & Hx & Hg & Ho)%part_elem Hm]; [|done]. rewrite Hx in Hm. cbn in Hm. simplify_eq. exists x.
  repeat split; try done. by apply catalog_map_spec in Hx as [_ ?].
Qed.

(** C4. Every call a run sends, in the background or not, goes to a tool of a
    worker's catalog, once that has read its agents and its rules, that the
    run's agent is given and that the access rules leave open to the run's
    user, the agent itself open to that user; a sub-agent's run is of another
    agent, open to the user too. *)
Theorem run_within_rules env {JE : JSONErrors} {GQ : GoQuote} {OJ : OutputJSON} input e :
  lists_from_catalogs env input → e ∈ log (AgentWorkflow env input).2 → sends_tool e →
  ∃ c x, star reload NewCatalog c ∧ Ready c = true ∧
    SnapshotAllowed (cat_access c) (RunUserID input) (Access.Agent (RunAgent input)) = true ∧
    catalog_map c !! ls_name x = Some x ∧ granted c (RunAgent input) x = true ∧
    SnapshotAllowed (cat_access c) (RunUserID input) (LsRef x) = true ∧ call_of e x.
Proof.
  intros Hcat He Hs. destruct (AgentWorkflow env input) as [res w] eqn:E. pose proof (run_given env input res w E) as H.
  rewrite Forall_forall in H. destruct (proj1 (H e He) Hs) as (n & tools & skills & signed & Ht & Hr & Hd).
  destruct (Hcat n tools Ht) as (c & l & Hc & Hl & ->). cbn in Hr.
  assert (Hget : ∀ name r, Resolutions (as_read l) !! name = Some r → (∀ x, x ∈ listed c → ls_name x = name → LsRes x = r → call_of e x) →
    ∃ c x, star reload NewCatalog c ∧ Ready c = true ∧
    SnapshotAllowed (cat_access c) (RunUserID input) (Access.Agent (RunAgent input)) = true ∧
    catalog_map c !! ls_name x = Some x ∧ granted c (RunAgent input) x = true ∧
    SnapshotAllowed (cat_access c) (RunUserID input) (LsRef x) = true ∧ call_of e x).
  { intros name r Hn Hcall. destruct (listed_open c input l name r Hc Hl Hr Hn) as (H1 & H2 & x & H3 & H4 & H5 & H6 & H7).
    exists c, x. rewrite H4. repeat split; try done. apply Hcall; try done. by apply catalog_map_spec in H3 as [? _]; [|by apply reloaded_ok]. }
  destruct e; try done; cbn in Hd.
  - destruct Hd as (r & H1 & H2 & H3 & _). apply (Hget _ r H1). intros x _ Hx <-. done.
  - destruct Hd as (name & r & H1 & H2). apply (Hget _ r H1). intros x Hin Hx <-. by eapply child_tool.
  - destruct Hd as (H1 & _ & r & H2 & H3). apply (Hget _ r H2). intros x _ Hx <-. done.
  - destruct Hd as (H1 & r & H2 & H3 & H4). apply (Hget _ r H2). intros x Hin Hx <-. cbn. split; [done|]. split; [done|]. by eapply child_tool.
Qed.

#[local] Instance team_json_errors : JSONErrors := λ _ _, "".
#[local] Instance team_quote : GoQuote := λ s, s.
#[local] Instance team_output : OutputJSON := λ _, None.

Definition team : Catalog :=
  SetAccess (mkSnapshot [mkRule 1 KindPattern "agent_bob" [] []] (list_to_map [("u1", mkUser "u1" false false [])]))
    (SetAgents [mkEntry "jarvis" "" "" "" [] ["agent_*"] "never"; mkEntry "ada" "Ada" "" "" [] [] "never"; mkEntry "bob" "" "" "" [] [] "never"] NewCatalog).

(** Runs that read their tools from [team], the model delegating to ada. *)
Definition team_env : Env :=
  let e := delegating_env "ada" in
  mkAgentEnv (λ _, false) (λ _ _, Written) (skills_result e) (λ _, inr (as_read (AllowedToolsFor "jarvis" "u1" team))) (choose_result e) (server_result e)
    (λ _ _, inr noResponse) (λ _, None) (λ _ _, inr "") (λ _ _, None) (λ _ _, inr (mkExecOut "" false [])) (λ _ _, inr "") "" "s:p:jarvis:m7" "agents".

Lemma team_lists : lists_from_catalogs team_env jarvis_turn.
Proof.
  intros n tools Ht. exists team, (AllowedToolsFor "jarvis" "u1" team). split; [|split; [vm_compute; reflexivity|by injection Ht as <-]].
  eapply star_step; [apply reload_agents|eapply star_step; [apply reload_access|apply star_refl]].
  cbn; repeat (apply NoDup_cons; split; [set_solver|]); constructor.
Qed.

Lemma run_within_rules_witness :
  ∃ e c x, e ∈ log (AgentWorkflow team_env jarvis_turn).2 ∧ sends_tool e ∧ catalog_map c !! ls_name x = Some x ∧
    SnapshotAllowed (cat_access c) "u1" (LsRef x) = true ∧ call_of e x.
Proof.
  assert (H : existsb (λ e, match e with ChildStarted _ _ (SubAgent _) => true | _ => false end) (log (AgentWorkflow team_env jarvis_turn).2) = true)
    by (vm_compute; reflexivity).
  apply existsb_exists in H as (e & Hin & He). apply list_elem_of_In in Hin. assert (Hs : sends_tool e) by by destruct e.
  destruct (run_within_rules team_env jarvis_turn e team_lists Hin Hs) as (c & x & _ & _ & _ & H1 & _ & H2 & H3).
  exists e, c, x. repeat split; assumption.
Defined.
