(* ===== verification/Prompt.v ===== *)
(** * The system prompt of an agent's model (src/activity/prompt.go, skill.go, llm.go)

    Built again for each call, from the catalog, the skills, the tools offered,
    the user's memory and the background tasks that run. The model's provider
    caches it: what does not change must be written the same. *)

From S2P Require Import Prelude GoStr GoPath Utf8 Message Convert Store Tasks CallInputs AgentData Catalog MachineMessage.
Open Scope string_scope.
Open Scope Z_scope.
Open Scope list_scope.

(** ** Skills *)

Record Skill := mkPromptSkill { SkillName : string; SkillDescription : string; SkillContent : string; Runs : bool }.

(** What a SKILL.md says in its frontmatter (src/skill/loader.go). *)
Record frontmatter := mkFront { fm_name : string; fm_description : string; fm_runs : bool }.

Definition frontmatter_line (fm : frontmatter) (line : string) : frontmatter :=
  let line := trim_space line in
  match cut_prefix "name:" line with
  | Some v => mkFront (trim_space v) (fm_description fm) (fm_runs fm)
  | None =>
      match cut_prefix "description:" line with
      | Some v => mkFront (fm_name fm) (trim_space v) (fm_runs fm)
      | None =>
          match cut_prefix "runs:" line with
          | Some v => mkFront (fm_name fm) (fm_description fm) (String.eqb (trim_space v) "true")
          | None => fm
          end
      end
  end.

Definition parseFrontmatter (content : string) : frontmatter * string :=
  let none := mkFront "" "" false in
  match cut_prefix "---" content with
  | None => (none, content)
  | Some rest =>
      let endIdx := index_str "---" rest in
      if endIdx <? 0 then (none, content)
      else
        let header := take_str (Z.to_nat endIdx) rest in
        (fold_left frontmatter_line (split_byte (byte 10) header) none, trim_space (drop_str (Z.to_nat endIdx + 3) rest))
  end.

(** [LoadAll]: a skill's directory and its SKILL.md, [None] when it is not
    read, in the order of the directory. *)
Definition LoadAll (entries : list (string * option string)) : list Skill :=
  omap (λ e, (λ data, let '(fm, body) := parseFrontmatter data in
                mkPromptSkill (cmp_or (fm_name fm) e.1) (fm_description fm) body (fm_runs fm)) <$> e.2) entries.

(** [Prompts]: the skills by name, and the version they were loaded from. *)
Record Prompts := mkPrompts { skills : gmap string Skill; version : string }.

(** Of two skills with the same name, the last one. *)
Definition SetSkills (l : list Skill) (p : Prompts) : Prompts :=
  mkPrompts (fold_left (λ m s, <[SkillName s := s]> m) l ∅) (version p).

Definition SetVersion (v : string) (p : Prompts) : Prompts := mkPrompts (skills p) v.

Record RunSkillSet := mkSkillSet { SetSkillsOf : list RunSkill; SetMissing : list string; SetVersionOf : string }.

Definition run_skill (p : Prompts) (name : string) : option Skill :=
  match skills p !! name with Some s => if Runs s then Some s else None | None => None end.

Fixpoint run_skills_loop (p : Prompts) (seen names : list string) : list RunSkill * list string :=
  match names with
  | [] => ([], [])
  | name :: names =>
      if contains seen name then run_skills_loop p seen names
      else
        let '(found, missing) := run_skills_loop p (name :: seen) names in
        match run_skill p name with
        | Some s => (MachineMessage.mkSkill (SkillName s) (SkillDescription s) (SkillContent s) :: found, missing)
        | None => (found, name :: missing)
        end
  end.

Definition RunSkills (names : list string) (p : Prompts) : RunSkillSet :=
  let '(found, missing) := run_skills_loop p [] names in mkSkillSet found missing (version p).

Definition runSkillNames (names : list string) (p : Prompts) : list string :=
  List.filter (λ name, negb (is_none (run_skill p name))) names.

(** [matchSkills]. *)
Definition matchSkills (byName : gmap string Skill) (names : list string) : list Skill :=
  List.filter (λ s, negb (Runs s)) (omap (λ name, byName !! name) names).

(** ** Behaviors *)

Definition promptIntro : string :=
  "You are a helpful AI assistant with access to tools. You MUST use your tools proactively to accomplish the user's goals " +:+ encode_rune 8212 +:+
  " do not just describe what you could do, actually do it." +:+ newline +:+ newline.

(** A rule's tools, globs among them, and its text around the names: a rule
    without tools has no names. *)
Record promptRule := mkPromptRule { ruleTools : option (list string); ruleBefore : string; ruleAfter : string }.

Definition promptRules : list promptRule := [
  mkPromptRule (Some ["web_search"; "web_fetch"]) "When the user asks for information you don't have, look it up with " ".";
  mkPromptRule (Some ["read_file"; "write_file"; "edit_file"; "list_directory"; "grep"; "glob"]) "When the user asks you to work with files, use " ".";
  mkPromptRule (Some ["exec"]) "When the user asks you to run a command, use " ".";
  mkPromptRule (Some [Access.AgentToolPrefix +:+ "*"]) "When a task requires specialized expertise, delegate it to the agent suited for it: "
    ". The agent does not see this conversation, so give it the full context.";
  mkPromptRule None "Always prefer action over explanation. If you can answer by using a tool, do it." "";
  mkPromptRule None "Only use the tools you are given. If a task needs a tool you don't have, say so instead of pretending." "";
  mkPromptRule (Some ["write_file"; "edit_file"])
    "NEVER write a file as a way to deliver your answer. Respond directly in the conversation. Only use "
    " when the user explicitly asks you to create or modify a file.";
  mkPromptRule (Some ["save_user_memory"]) "Use "
    " to remember important facts about the user (role, preferences, expertise, projects) that would be useful in future conversations. Each call replaces the full memory, so include everything. Only save when you learn something genuinely new and useful."
].

(** [strings.ContainsAny(t, "*?[")]. *)
Definition is_glob (t : string) : bool := has_byte "*" t || has_byte "?" t || has_byte "[" t.

(** The names a rule's tool stands for; [allowed] lists the keys of the map, in
    the order Go's [range] gives them. *)
Definition rule_tool (allowed : list string) (t : string) : list string :=
  if is_glob t then sort_stable str_le (List.filter (λ name, match path_match t name with Some ok => ok | None => false end) allowed)
  else if contains allowed t then [t] else [].

Definition rule_line (allowed : list string) (r : promptRule) : string :=
  match ruleTools r with
  | None => "- " +:+ ruleBefore r +:+ newline
  | Some tools =>
      match mjoin (rule_tool allowed <$> tools) with
      | [] => ""
      | names => "- " +:+ ruleBefore r +:+ join ", " names +:+ ruleAfter r +:+ newline
      end
  end.

Definition buildBehaviors (allowed : list string) : string :=
  promptIntro +:+ "Key behaviors:" +:+ newline +:+ String.concat "" (rule_line allowed <$> promptRules) +:+ newline.

(** ** The prompt of an agent *)

Definition conversationNote : string :=
  "Several people and several AI agents may write in a conversation. " +:+
  "A person's message starts with their name in brackets: [Alice]. " +:+
  "Another agent's turn reaches you as text in a user message, starting with [agent Name (@mention)], its tool calls and their results included: " +:+
  "it is that agent's work, not yours and not a person's. Your own messages carry no prefix: never write one." +:+ newline +:+ newline.

Definition identitySection (name mention : string) : string :=
  "## Identity" +:+ newline +:+ newline +:+
  (if negb (String.eqb name "") && negb (String.eqb mention "")
   then "Your name is " +:+ name +:+ ". In a conversation, people address you by writing @" +:+ mention +:+ ". " else "") +:+
  conversationNote.

Definition skill_section (s : Skill) : string :=
  "### " +:+ SkillName s +:+ newline +:+
  (if String.eqb (SkillDescription s) "" then "" else SkillDescription s +:+ newline +:+ newline) +:+
  (if String.eqb (SkillContent s) "" then "" else SkillContent s +:+ newline +:+ newline).

Definition buildSystemPrompt (l : list Skill) (allowed : list string) : string :=
  buildBehaviors allowed +:+
  match l with [] => "" | _ => "## Skills" +:+ newline +:+ newline +:+ String.concat "" (skill_section <$> l) end.

(** The catalog's entry of an agent: the last one with its ID. *)
Definition entry_of (agentID : string) (c : Catalog) : AgentCatalogEntry :=
  default (mkEntry "" "" "" "" [] [] "") (last (List.filter (is_agent agentID) (cat_agents c))).

(** [order]: the distinct names of [tools], in the order a map gives them. *)
Definition AgentPrompt (agentID : string) (order : list string) (c : Catalog) (p : Prompts) : string :=
  let self := entry_of agentID c in
  identitySection (AeName self) (AeMention self) +:+ buildSystemPrompt (matchSkills (skills p) (AeSkills self)) order.

(** [LoadSkillsForAgent]. *)
Definition LoadSkillsForAgent (agentID : string) (c : Catalog) (p : Prompts) : string + LoadSkillsOutput :=
  match CheckAgent agentID c with
  | Some e => inl e
  | None =>
      let named := List.filter (λ a, negb (String.eqb (AeName a) "")) (List.filter (is_agent agentID) (cat_agents c)) in
      let self := entry_of agentID c in
      inr (AgentData.mkSkills (match last named with Some a => AeName a | None => agentID end) (AeOnMachine self) (runSkillNames (AeSkills self) p))
  end.

(** ** What a call adds (src/activity/llm.go) *)

Definition userMemorySection (userName memory : string) : string :=
  newline +:+ "## User Memory" +:+ newline +:+ newline +:+ "The following is what you remember about " +:+
  (if String.eqb userName "" then "this user" else userName +:+ ", the author of the latest message") +:+
  " from previous conversations. Use it to personalize your responses. It is private to them: do not reveal it to other participants." +:+
  newline +:+ newline +:+ memory +:+ newline +:+ newline.

Definition closedSection (userName : string) (closed : list string) : string :=
  match closed with
  | [] => ""
  | _ =>
      newline +:+ "Some of your tools are not open to " +:+ cmp_or userName "this user" +:+ ": " +:+ join ", " (sort_stable str_le closed) +:+
      ". If asked for what they do, say an admin can give access." +:+ newline
  end.

Definition task_line (t : BackgroundTask) : string :=
  "- " +:+ TaskID t +:+ ": " +:+ Tool t +:+
  (if String.eqb (Summary t) "" then "" else " (" +:+ Summary t +:+ ")") +:+
  (if String.eqb (TaskUserName t) "" then "" else ", for " +:+ TaskUserName t) +:+
  ", since " +:+ format_utc (StartedAt t) +:+
  match FollowUps t with [] => "" | fs => ", " +:+ itoa (Z.of_nat (length fs)) +:+ " instruction(s) attached" end +:+ newline.

Definition TasksSection (running : list BackgroundTask) (backgrounds followUps : bool) : string :=
  match running, backgrounds with
  | [], false => ""
  | _, _ =>
      newline +:+ "## Background tasks" +:+ newline +:+ newline +:+
      (if backgrounds then
         "Some of your tools take a `background` field: the call then runs as a background task, your turn goes on " +:+
         "without its result, and when it ends a message brings you the result in a new turn. By default, wait for the " +:+
         "result. Run a call in the background when the work is long and the user may want something else from you " +:+
         "meanwhile, or when they ask for it (" +:+ q "in the background" +:+ ", " +:+ q "tell me when it's done" +:+ "); then tell them it runs." +:+
         (if followUps then " When the user says what to do once a task of yours is done, attach it to the task with when_task_done." else "") +:+ newline
       else "") +:+
      match running with
      | [] => ""
      | _ =>
          newline +:+ "Your background tasks running now. Never start one of them again; a request that depends on one waits for " +:+
          "its end: say so" +:+ (if followUps then ", and attach what to do then with when_task_done" else "") +:+ "." +:+ newline +:+
          String.concat "" (task_line <$> running)
      end
  end.

(** The tasks the prompt lists: those this turn did not launch; none when they
    cannot be read. *)
Definition tasksSection (h : TurnHistory) (tools : list string) (backgrounds : bool) (listed : Err + list BackgroundTask) : string :=
  let running := match listed with inr l => l | inl _ => [] end in
  TasksSection (List.filter (λ t, negb (String.eqb (TurnKeyOf t) (HistTurn h))) running) backgrounds (contains tools "when_task_done").

(** [systemPrompt]: the prompt, and what it holds of the user's memory. *)
Definition systemPrompt (req : LLMTurnRequest) (base : string) (tools : list string) (backgrounds : bool)
    (loaded : Err + Memory) (listed : Err + list BackgroundTask) : string * PromptMemory :=
  let p := ReqPrompt req in
  let prompt := cmp_or (Override p) base +:+ closedSection (PromptUser p) (PromptClosed p) in
  let '(prompt, held) :=
    if String.eqb (MemoryOf p) "" then (prompt, mkPromptMemory None false)
    else
      match loaded with
      | inl _ => (prompt, mkPromptMemory None true)
      | inr m =>
          (if String.eqb (MemContent m) "" then prompt else prompt +:+ userMemorySection (PromptUser p) (MemContent m),
           mkPromptMemory (Some (Version m)) false)
      end in
  (prompt +:+ match ReqHistory req with Some h => tasksSection h tools backgrounds listed | None => "" end +:+ PromptNote p, held).
