(* ===== verification/LLMCall.v ===== *)
(** * A call to an agent's model (src/activity/llm.go, llm_machine.go)

    The request is built from references: the conversation as the store has it
    and what the turn could not write of itself, the tools by their names, the
    prompt. It is sent to the provider, or handed to a machine of the user's. *)

From S2P Require Import Prelude GoStr Json JsonValid JsonFields Keys Message Order Convert Store Tasks MachineMessage MachineData Directives CallInputs Gateway AgentData AgentLLM Catalog Prompt.
Open Scope string_scope.
Open Scope Z_scope.
Open Scope list_scope.

Definition DefaultMaxContextBytes : Z := 2000000.
Definition maxResponseTokens : Z := 16384.

(** ** Requests (src/provider/provider.go) *)

(** A message and whether the provider may cache up to it. *)
Record ChatRequest := mkChatRequest {
  CrModel : string;
  CrSystem : string;
  CrMessages : list (ChatMessage * bool);
  CrTools : list ToolDefinition;
  CrMaxTokens : Z;
  CrCacheSystem : bool
}.

(** What the activity reads of an error of the provider: its text, whether it
    is the model's refusal of the size, a [PermanentAPIError], and the wait of a
    [RetryAfterError]. *)
Record ProviderError := mkProviderError { PeText : string; PeTooLong : bool; PePermanent : bool; PeRetryAfter : option Z }.

(** An activity's error as Temporal takes it: whether it may be tried again,
    and the wait before that when the error says one. *)
Record ActivityError := mkActivityError { AeErr : Err; AeRetried : bool; AeDelay : option Z }.

Definition retried (e : Err) : ActivityError := mkActivityError e true None.
Definition final (type message : string) : ActivityError := mkActivityError (app_error type message) false None.
Definition plain_error (text : string) : Err := mkErr (mkLink text LOther) [].

(** [fmt.Errorf("load conversation: %w", err)]. *)
Definition wrap_load (e : Err) : Err := mkErr (mkLink ("load conversation: " +:+ error_text e) LOther) (chain e).

(** ** The conversation *)

(** This turn's messages that the store may not have, but those it has. *)
Fixpoint unsaved (stored : list string) (turnKey : string) (index : Z) (tail : list Message) : list Message :=
  match tail with
  | [] => []
  | m :: tail =>
      let rest := unsaved stored turnKey (index + 1) tail in
      if contains stored (TurnMessageKey turnKey index) then rest else m :: rest
  end.

Definition conversation (req : LLMTurnRequest) (load : string → TurnScope → Err + list MessageWithID) : ActivityError + list Message :=
  match ReqHistory req with
  | None => inr (ReqMessages req)
  | Some h =>
      if negb (bool_decide (ReqMessages req = [])) then
        inl (final "BadLLMRequest" "a call gives its conversation inline or by reference, not both")
      else
        match load (HistSession h) (ScopeOf (HistTurn h) (HistEarlier h)) with
        | inl e => inl (retried (wrap_load e))
        | inr loaded =>
            let ordered := Order loaded in
            inr ((Msg <$> ordered) ++ unsaved (Key <$> ordered) (HistTurn h) (TailStart h) (Tail h))
        end
  end.

(** ** The tools *)

Definition withdrawnDescription : string := "Withdrawn: this tool is no longer available. Do not call it.".
Definition notOpenDescription : string := "Not open in this turn. Do not call it.".

Definition called_names (chat : list ChatMessage) : list string := mjoin ((λ m, Convert.InfoName <$> ChatCalls m) <$> chat).

(** The names called that are not offered, each once. *)
Fixpoint not_offered (offered seen names : list string) : list string :=
  match names with
  | [] => []
  | name :: names =>
      if negb (contains seen name) && negb (contains offered name) then name :: not_offered offered (name :: seen) names
      else not_offered offered (name :: seen) names
  end.

Definition stub (missing unknown : list string) (name : string) : ToolDefinition :=
  mkDefinition name (if contains missing name || contains unknown name then withdrawnDescription else notOpenDescription)
    ("{" +:+ q "type" +:+ ":" +:+ q "object" +:+ "}") false.

Definition withdrawnTools `{AgentTurn.GoQuote} (c : Catalog) (offered missing : list string) (chat : list ChatMessage) : list ToolDefinition :=
  let notOffered := sort_stable str_le (not_offered offered [] (called_names chat)) in
  let '(_, unknown, _) := ToolDefinitions notOffered false c in
  stub missing unknown <$> notOffered.

(** The last tool ends a cached prefix. *)
Fixpoint mark_last (l : list ToolDefinition) : list ToolDefinition :=
  match l with
  | [] => []
  | [t] => [mkDefinition (DefName t) (DefDescription t) (DefSchema t) true]
  | t :: l => t :: mark_last l
  end.

(** So does the message before the last. *)
Fixpoint mark_before_last (l : list ChatMessage) : list (ChatMessage * bool) :=
  match l with
  | [] => []
  | [m] => [(m, false)]
  | [m; m'] => [(m, true); (m', false)]
  | m :: l => (m, false) :: mark_before_last l
  end.

(** ** The request *)

Definition chat_view (req : LLMTurnRequest) (c : Catalog) : View :=
  mkView (ReqAgent req) (ReqUser req) ((λ l : string * string, mkLabel l.1 l.2) <$> AgentLabels c) (Some (λ name, PrivateInput name c)).

(** What a call reads besides the catalog: the conversation, the user's memory,
    the participant's tasks, and the order of a map of names. *)
Record Reads := mkReads {
  read_conversation : string → TurnScope → Err + list MessageWithID;
  read_memory : string → Err + Memory;
  read_tasks : string → string → Err + list BackgroundTask;
  map_order : list string → list string
}.

Definition buildRequest `{AgentTurn.GoQuote} (c : Catalog) (p : Prompts) (reads : Reads) (req : LLMTurnRequest) :
    ActivityError + (ChatRequest * PromptMemory) :=
  if negb (Ready c) then inl (retried (plain_error errCatalogNotReady))
  else
    match conversation req (read_conversation reads) with
    | inl e => inl e
    | inr messages =>
        let chat := Convert messages (chat_view req c) in
        let '(tools, missing, backgrounds) := ToolDefinitions (ReqTools req) (negb (is_none (ReqHistory req))) c in
        let offered := DefName <$> tools in
        let tools := tools ++ withdrawnTools c offered missing chat in
        let listed := match ReqHistory req with
                      | Some h => read_tasks reads (HistSession h) (TurnParticipant (HistTurn h))
                      | None => inr []
                      end in
        let '(system, memory) :=
          systemPrompt req (AgentPrompt (ReqAgent req) (map_order reads offered) c p) offered backgrounds
            (read_memory reads (MemoryOf (ReqPrompt req))) listed in
        inr (mkChatRequest (ReqModel req) system (mark_before_last chat) (mark_last tools) maxResponseTokens true, memory)
    end.

(** ** Its size, as encoding/json writes it *)

Definition raw_json (raw : string) : option string :=
  if String.eqb raw "" then Some "null" else if json_valid raw then Some (Compact raw) else None.

Definition object (fields : list string) : string := "{" +:+ String.concat "," fields +:+ "}".
Definition array (items : list string) : string := "[" +:+ String.concat "," items +:+ "]".
Definition field (key value : string) : string := marshal key +:+ ":" +:+ value.
Definition flag_field (key : string) (b : bool) : list string := if b then [field key "true"] else [].

Definition marshal_call (tc : ToolCallInfo) : option string :=
  (λ input, object [field "id" (marshal (InfoID tc)); field "name" (marshal (Convert.InfoName tc)); field "input" input]) <$> raw_json (InfoInput tc).

Definition marshal_result (r : ToolResultInfo) : string :=
  object ([field "tool_call_id" (marshal (InfoCallID r)); field "content" (marshal (InfoContent r))] ++ flag_field "is_error" (InfoIsError r)).

Definition marshal_message (m : ChatMessage * bool) : option string :=
  match raw_json (ChatContent m.1), mapM marshal_call (ChatCalls m.1) with
  | Some content, Some calls =>
      Some (object ([field "role" (marshal (ChatRole m.1)); field "content" content] ++
                    match calls with [] => [] | _ => [field "tool_calls" (array calls)] end ++
                    match ChatResult m.1 with Some r => [field "tool_result" (marshal_result r)] | None => [] end ++
                    flag_field "cache_breakpoint" m.2))
  | _, _ => None
  end.

Definition marshal_tool (t : ToolDefinition) : option string :=
  (λ schema, object ([field "name" (marshal (DefName t)); field "description" (marshal (DefDescription t)); field "input_schema" schema] ++
                     flag_field "cache_breakpoint" (DefCache t))) <$> raw_json (DefSchema t).

Definition marshal_request (r : ChatRequest) : option string :=
  match mapM marshal_message (CrMessages r), mapM marshal_tool (CrTools r) with
  | Some messages, Some tools =>
      Some (object ([field "model" (marshal (CrModel r))] ++
                    (if String.eqb (CrSystem r) "" then [] else [field "system" (marshal (CrSystem r))]) ++
                    [field "messages" (array messages)] ++
                    match tools with [] => [] | _ => [field "tools" (array tools)] end ++
                    [field "max_tokens" (itoa (CrMaxTokens r))] ++ flag_field "cache_system" (CrCacheSystem r)))
  | _, _ => None
  end.

(** One that cannot be encoded is past any limit. *)
Definition requestSize (r : ChatRequest) : Z := match marshal_request r with Some s => len s | None => int64_max end.

Definition maxContextBytes (configured : Z) : Z := if 0 <? configured then configured else DefaultMaxContextBytes.

Definition too_long : ActivityError := final ErrContextTooLong ContextTooLongMessage.

(** ** On the server *)

Section Call.
Context `{AgentTurn.GoQuote} (c : Catalog) (p : Prompts) (reads : Reads) (configured : Z).

(** The error of the provider, as the workflow is to take it. *)
Definition provider_failure (e : ProviderError) : ActivityError :=
  if PeTooLong e then too_long
  else if PePermanent e then final ErrTypePermanentAPI (PeText e)
  else
    match PeRetryAfter e with
    | Some d => mkActivityError (app_error ErrTypeRetryAfter (PeText e)) true (Some d)
    | None => retried (plain_error (PeText e))
    end.

Definition with_held (memory : PromptMemory) (r : LLMTurnResponse) : LLMTurnResponse :=
  mkResponse (RespContent r) (RespCalls r) (RespStop r) (RespModel r) (RespUsage r) memory.

(** The answer, and the request the provider was sent, if any. *)
Definition CallLLM (chat : ChatRequest → ProviderError + LLMTurnResponse) (req : LLMTurnRequest) :
    (ActivityError + LLMTurnResponse) * option ChatRequest :=
  match buildRequest c p reads req with
  | inl e => (inl e, None)
  | inr (request, memory) =>
      if maxContextBytes configured <? requestSize request then (inl too_long, None)
      else
        (match chat request with inl e => inl (provider_failure e) | inr resp => inr (with_held memory resp) end, Some request)
  end.

(** ** On a machine *)

Definition MaxLLMRequestBytes : Z := MaxReadBytes - Z.shiftl 64 10.

Definition LLMCallKey (step attempt : Z) : string := "llm:" +:+ itoa step +:+ ":" +:+ itoa attempt.

(** [json.Marshal(machine.LLMInput{...})]. *)
Definition marshal_held (m : PromptMemory) : string :=
  object (match MemoryVersion m with Some v => [field "memory_version" (itoa v)] | None => [] end ++ flag_field "memory_unread" (MemoryUnread m)).

(** The attempt's execution: what Temporal and the clock give it. *)
Record Attempt := mkAttempt {
  AtID : string;
  AtWorkflow : string;
  AtRun : string;
  AtActivity : string;
  AtToken : string;
  AtDeadline : time;
  AtNow : time;
  AtWindow : Z
}.

(** How a handoff failed: the machine out of reach, or the gateway. *)
Inductive handoff_error := MachineAway (text : string) | GatewayAway (text : string).

Definition handoff_failure (machine : string) (e : handoff_error) : ActivityError :=
  let failed type text := final type ("the call could not be handed to machine " +:+ AgentTurn.quote machine +:+ ": " +:+ text) in
  match e with MachineAway text => failed ErrTypeUnreachable text | GatewayAway text => failed ErrTypeHandoffFailed text end.

Definition directive_failure (text : MachineError → string) (e : MachineError) : ActivityError :=
  match e with
  | ErrMachineBusy _ => final ErrTypeBusy ("the machine is busy: " +:+ text e)
  | ErrMachineUnavailable _ | ErrDirectiveClosed => final ErrTypeRefused ("the machine cannot take the call: " +:+ text e)
  | _ => retried (plain_error (text e))
  end.

Definition llm_directive (a : Attempt) (i : MachineCall) (memory : PromptMemory) : LLMDirectiveRequest :=
  let req := McRequest i in
  mkLLMRequest (AtID a) (McMachine i) (ReqUser req) (marshal_held memory) (AtWorkflow a) (AtRun a) (AtActivity a)
    (LLMCallKey (McStep i) (McAttempt i)) (AtToken a) (AtDeadline a) (AtNow a - AtWindow a)
    (match ReqHistory req with Some h => HistSession h | None => "" end) (match ReqHistory req with Some h => HistTurn h | None => "" end)
    (ReqAgent req).

(** [CallLLMOnMachine]: [None] is a call handed, whose result is pending.
    [handoff] is the gateway's answer and what it made of the tables. *)
Definition CallLLMOnMachine (text : MachineError → string) (gateway : bool) (handoff : string → string → MDB → option handoff_error * MDB)
    (a : Attempt) (i : MachineCall) (db : MDB) : option ActivityError * MDB :=
  if negb gateway then
    (Some (final ErrTypeNoGateway
       "this worker hands no call to a machine: no gateway configured on the worker of CallLLM's queue (MACHINES_ENABLED, NOTIFY_URL, INTERNAL_API_KEY)"),
     db)
  else
    match buildRequest c p reads (McRequest i) with
    | inl e => (Some e, db)
    | inr (request, memory) =>
        match marshal_request request with
        | None => (Some too_long, db)
        | Some body =>
            if Z.min (maxContextBytes configured) MaxLLMRequestBytes <? len body then (Some too_long, db)
            else
              let '(created, db) := CreateLLMDirective (AtNow a) (llm_directive a i memory) db in
              match created with
              | inl e => (Some (directive_failure text e), db)
              | inr (d, m) =>
                  match handoff (DirID d) body db with
                  | (None, db) => (None, db)
                  | (Some e, db) =>
                      (Some (handoff_failure (MachineData.Name m) e),
                       (CloseDirective (AtNow a) (DirID d) DirectiveFailed "not handed to the machine" db).2)
                  end
              end
        end
    end.
End Call.
