(* ===== verification/Anthropic.v ===== *)
(** * The provider of the models (src/provider/anthropic.go, retry.go)

    A request as the Messages API takes it, and what is made of the API's
    answers and refusals. The HTTP exchange, the decoding of its bodies,
    [strings.ToLower] and [http.ParseTime] are parameters. *)

From S2P Require Import Prelude GoStr Utf8 Json JsonValid Message Convert CallInputs AgentData Catalog LLMCall.
Open Scope string_scope.
Open Scope Z_scope.
Open Scope list_scope.

(** ** Messages of the API *)

(** A block, and whether it ends a cached prefix. *)
Inductive ablock :=
| AText (text : string) (cache : bool)
| AToolUse (id name input : string) (cache : bool)
| AToolResult (id content : string) (error cache : bool).

(** A content: a text, blocks, or what was stored as it is. *)
Inductive acontent := AString (s : string) | ABlocks (l : list ablock) | ARaw (raw : string).

Record anthropicMessage := mkAMessage { ARole : string; AContent : acontent }.

Definition text_of (content : string) : string := match unmarshal content with Some t => t | None => "" end.

(** The breakpoint is on the last block. *)
Fixpoint use_blocks (cache : bool) (calls : list ToolCallInfo) : list ablock :=
  match calls with
  | [] => []
  | tc :: calls =>
      AToolUse (InfoID tc) (Convert.InfoName tc) (InfoInput tc) (match calls with [] => cache | _ => false end) :: use_blocks cache calls
  end.

Definition convertToAnthropicMessage (m : ChatMessage * bool) : anthropicMessage :=
  let '(msg, cache) := m in
  match ChatCalls msg, ChatResult msg with
  | _ :: _, _ =>
      let text := text_of (ChatContent msg) in
      mkAMessage (ChatRole msg) (ABlocks ((if String.eqb text "" then [] else [AText text false]) ++ use_blocks cache (ChatCalls msg)))
  | [], Some r => mkAMessage RoleUser (ABlocks [AToolResult (InfoCallID r) (InfoContent r) (InfoIsError r) cache])
  | [], None =>
      match unmarshal (ChatContent msg) with
      | None => mkAMessage (ChatRole msg) (ARaw (ChatContent msg))
      | Some text => mkAMessage (ChatRole msg) (if cache then ABlocks [AText text true] else AString text)
      end
  end.

(** ** The request *)

(** The system prompt, and whether it is cached. *)
Record anthropicRequest := mkARequest {
  AModel : string;
  ASystem : option (string * bool);
  AMessages : list anthropicMessage;
  ATools : list ToolDefinition;
  AMaxTokens : Z
}.

Definition resolveModel (defaultModel requested : string) : option string :=
  if negb (String.eqb requested "") then Some requested else if negb (String.eqb defaultModel "") then Some defaultModel else None.

Definition anthropic_request (model : string) (r : ChatRequest) : anthropicRequest :=
  mkARequest model (if String.eqb (CrSystem r) "" then None else Some (CrSystem r, CrCacheSystem r))
    (convertToAnthropicMessage <$> CrMessages r) (CrTools r) (if CrMaxTokens r =? 0 then 4096 else CrMaxTokens r).

(** [json.Marshal] of it succeeds. *)
Definition encodes (r : anthropicRequest) : bool :=
  let ok raw := negb (is_none (raw_json raw)) in
  forallb (λ m, match AContent m with
                | AString _ => true
                | ARaw raw => ok raw
                | ABlocks l => forallb (λ b, match b with AToolUse _ _ input _ => ok input | _ => true end) l
                end) (AMessages r) && forallb (λ t, ok (DefSchema t)) (ATools r).

(** ** Answers *)

Inductive answer_block := BText (text : string) | BToolUse (id name input : string) | BOther.

Record anthropicResponse := mkAResponse { AContentBlocks : list answer_block; AStop : string; AModelOf : string; AUsage : option Usage }.

(** What is not this package's: the decoding of an error's type and message and
    of an answer, lower case, dates. *)
Class AnthropicLib := mkLib {
  decode_error : string → option (string * string);
  decode_response : string → string + anthropicResponse;
  encode_error : anthropicRequest → string;
  lower : string → string;
  parse_time : string → option time
}.

Section Answers.
Context `{AnthropicLib}.

Definition transientStatus (code : Z) : bool := (code =? 408) || (code =? 429) || (500 <=? code).

Definition has_text (sub s : string) : bool := 0 <=? index_str sub s.

Definition contextOverflow (status : Z) (body : string) : bool :=
  match decode_error body with
  | None => status =? 413
  | Some (type, message) =>
      if (status =? 413) || String.eqb type "request_too_large" then true
      else if String.eqb type "invalid_request_error" then
        has_text "prompt is too long" (lower message) || has_text "exceed context limit" (lower message)
      else false
  end.

Definition refusedCredentials (status : Z) (body : string) : bool :=
  if (status =? 401) || (status =? 402) || (status =? 403) then true
  else
    match decode_error body with
    | None => false
    | Some (type, message) =>
        String.eqb type "authentication_error" || String.eqb type "permission_error" || String.eqb type "billing_error" ||
        has_text "credit balance" (lower message)
    end.

Definition maxRetryAfter : Z := 2 * minute.
Definition absurdRetryAfter : Z := hour.

Definition parseRetryAfter (value : string) (now : time) : option Z :=
  let value := trim_space value in
  if String.eqb value "" then None
  else
    match parse_int64 value with
    | Some secs => if (secs <=? 0) || (absurdRetryAfter / second <? secs) then None else Some (Z.min (secs * second) maxRetryAfter)
    | None =>
        match parse_time value with
        | Some at_ =>
            let d := time_sub at_ now in
            if (d <=? 0) || (absurdRetryAfter <? d) then None else Some (Z.min d maxRetryAfter)
        | None => None
        end
    end.

(** The errors of an answer that is not 200: the error the activity reads, and
    whether the key itself is refused. *)
Definition api_error (status : Z) (retryAfter body : string) (now : time) : ProviderError * bool :=
  let text := "anthropic API error (status " +:+ itoa status +:+ "): " +:+ body in
  if contextOverflow status body then (mkProviderError ("context too long for the model: " +:+ text) true true None, false)
  else if negb (transientStatus status) then (mkProviderError text false true None, refusedCredentials status body)
  else (mkProviderError text false false (parseRetryAfter retryAfter now), false).

Definition answer_text (l : list answer_block) : string :=
  String.concat "" (omap (λ b, match b with BText t => Some t | _ => None end) l).

Definition answer_calls (l : list answer_block) : list ToolCallInfo :=
  omap (λ b, match b with BToolUse id name input => Some (mkCallInfo id name input) | _ => None end) l.

Definition transient (text : string) : ProviderError := mkProviderError text false false None.

(** What the exchange gives: why it failed, or the status, the Retry-After
    header and the body. *)
Definition Chat (defaultModel : string) (now : time) (exchange : anthropicRequest → string + (Z * string * string)) (request : ChatRequest) :
    ProviderError + LLMTurnResponse :=
  match resolveModel defaultModel (CrModel request) with
  | None => inl (mkProviderError "no model: set LLM_MODEL or pass a model" false true None)
  | Some model =>
      let body := anthropic_request model request in
      if negb (encodes body) then inl (transient ("marshal request: " +:+ encode_error body))
      else
        match exchange body with
        | inl e => inl (transient e)
        | inr (status, retryAfter, body) =>
            if negb (status =? 200) then inl (api_error status retryAfter body now).1
            else
              match decode_response body with
              | inl e => inl (transient ("unmarshal response: " +:+ e))
              | inr r =>
                  inr (mkResponse (answer_text (AContentBlocks r)) (answer_calls (AContentBlocks r)) (AStop r) (AModelOf r) (AUsage r)
                         (mkPromptMemory None false))
              end
        end
  end.
End Answers.

(** ** What the API takes *)

Definition uses (c : acontent) : list string :=
  match c with ABlocks l => omap (λ b, match b with AToolUse id _ _ _ => Some id | _ => None end) l | _ => [] end.
Definition used_names (c : acontent) : list string :=
  match c with ABlocks l => omap (λ b, match b with AToolUse _ name _ _ => Some name | _ => None end) l | _ => [] end.
Definition results (c : acontent) : list string :=
  match c with ABlocks l => omap (λ b, match b with AToolResult id _ _ _ => Some id | _ => None end) l | _ => [] end.
Definition breakpoints (c : acontent) : nat :=
  match c with
  | ABlocks l => length (List.filter (λ b, match b with AText _ k | AToolUse _ _ _ k | AToolResult _ _ _ k => k end) l)
  | _ => 0%nat
  end.

(** The calls of a message are followed by their results, each in a message of
    the user, before anything else. *)
Fixpoint paired (pending : list string) (l : list anthropicMessage) : bool :=
  match l with
  | [] => bool_decide (pending = [])
  | m :: l =>
      match results (AContent m), uses (AContent m), pending with
      | [r], [], id :: pending => String.eqb (ARole m) RoleUser && String.eqb r id && paired pending l
      | [], ids, [] => paired ids l
      | _, _, _ => false
      end
  end.

(** At most four breakpoints, every tool used defined, each defined once, calls
    and results paired. *)
Record accepted (r : anthropicRequest) : Prop := {
  acc_paired : paired [] (AMessages r) = true;
  acc_defined : ∀ m name, m ∈ AMessages r → name ∈ used_names (AContent m) → name ∈ (DefName <$> ATools r);
  acc_once : NoDup (DefName <$> ATools r);
  acc_breakpoints :
    (match ASystem r with Some (_, true) => 1 | _ => 0 end + length (List.filter DefCache (ATools r)) +
     sum_list ((λ m, breakpoints (AContent m)) <$> AMessages r) ≤ 4)%nat
}.
