(* ===== verification/LLMAccepted.v ===== *)
(** * The requests an agent's model is sent are ones its API takes

    The Messages API refuses a conversation where a call of a tool is not
    followed by its results, a request that calls a tool it does not define or
    defines one twice, or that asks for more than four cached prefixes.
    Order.v, Convert.v, Catalog.v, LLMCall.v and Anthropic.v together never make
    one, of a session whose turns are whole (AgentStore.v). *)

From S2P Require Import Prelude GoStr Json Keys Message Order Convert Store CallInputs AgentData AgentLLM AgentTurn AgentSteps AgentTranscript AgentStore AgentTheorems Catalog CatalogRun Prompt LLMCall Anthropic.
Open Scope string_scope.
Open Scope Z_scope.
Open Scope list_scope.

(** ** Conversations *)

(** What only agents' turns hold: calls and results, apart, under no kind. *)
Definition tidy (m : Message) : Prop :=
  (is_Some (Result m) → ToolCalls m = []) ∧
  (ToolCalls m ≠ [] ∨ is_Some (Result m) → Kind m ≠ KindTurnEnd ∧ Kind m ≠ KindTaskResult ∧ (is_Some (Result m) → Role m = RoleTool)).

#[export] Instance tidy_dec m : Decision (tidy m).
Proof. unfold tidy. apply _. Defined.

(** A call's ID is one agent's. *)
Definition ids_apart (v : View) (ms : list Message) : Prop :=
  ∀ m m' tc tc', m ∈ ms → m' ∈ ms → other v m = true → other v m' = false → tc ∈ ToolCalls m → tc' ∈ ToolCalls m' → CallID tc ≠ CallID tc'.

(** The messages converted so far: [None] once a call and its results are
    not together, else the calls whose results are due. *)
Fixpoint chat_due (pending : list string) (l : list ChatMessage) : option (list string) :=
  match l with
  | [] => Some pending
  | m :: l =>
      match ChatResult m, ChatCalls m, pending with
      | Some r, [], id :: pending => if String.eqb (InfoCallID r) id then chat_due pending l else None
      | None, calls, [] => chat_due (InfoID <$> calls) l
      | _, _, _ => None
      end
  end.

Lemma chat_due_app p l l' : chat_due p (l ++ l') = match chat_due p l with Some p' => chat_due p' l' | None => None end.
Proof.
  revert p. induction l as [|m l IH]; intros p; [done|]. cbn. destruct (ChatResult m), (ChatCalls m), p; try done; try apply IH.
  destruct (String.eqb _ _); [apply IH|done].
Qed.

Lemma chat_due_text p text : chat_due p [mkChat RoleUser text [] None] = match p with [] => Some [] | _ => None end.
Proof. by destruct p. Qed.

Lemma append_due result text : chat_due [] result = Some [] → chat_due [] (appendUserText result text) = Some [].
Proof.
  intros H. unfold appendUserText. destruct (String.eqb text ""); [done|]. destruct (last result) as [prev|] eqn:El.
  - destruct (plainUserText prev) as [t|] eqn:Ep; rewrite chat_due_app; [|by rewrite H].
    rewrite (split_last _ _ El), chat_due_app in H. destruct (chat_due [] (removelast result)) as [p|] eqn:E; [|done].
    unfold plainUserText in Ep. destruct (negb _); [done|]. cbn in H. destruct (ChatResult prev), (ChatCalls prev); try done.
  - by rewrite chat_due_app, H.
Qed.

(** ** From the messages to the chat *)

Section Convert.
Context (v : View) (c : calls).

(** The calls due in the conversation, and in the chat: the reader's own, or
    another agent's, whose results are read as text. *)
Definition due (q p : list string) : Prop :=
  (p = q ∧ Forall (λ id, Convert.others c !! id = None) q) ∨ (p = [] ∧ Forall (λ id, is_Some (Convert.others c !! id)) q).

(** What the first pass learned of a message's calls. *)
Definition scanned (m : Message) : Prop :=
  Forall (λ id, if other v m then is_Some (Convert.others c !! id) else Convert.others c !! id = None) (CallID <$> ToolCalls m).

Lemma kept_calls m : InfoID <$> ChatCalls (kept c m) = CallID <$> ToolCalls m.
Proof. unfold kept. cbn. by rewrite <- list_fmap_compose. Qed.

Lemma due_nil p : due [] p → p = [].
Proof. by intros [[-> _]|[-> _]]. Qed.

Lemma convert_one_due result m q p :
  tidy m → scanned m → chat_due [] result = Some p → due q p →
  match Result m, q with
  | Some r, id :: q' => ToolCallID r = id → ∃ p', chat_due [] (convert_one v c result m) = Some p' ∧ due q' p'
  | None, [] => ∃ p', chat_due [] (convert_one v c result m) = Some p' ∧ due (CallID <$> ToolCalls m) p'
  | _, _ => True
  end.
Proof.
  intros [Ht1 Ht2] Hsc Hr Hd. destruct (Result m) as [r|] eqn:Em.
  - destruct q as [|id q]; [done|]. intros Hid. destruct (Ht2 (or_intror (mk_is_Some _ _ eq_refl))) as (Hk1 & Hk2 & Hrole).
    specialize (Hrole (mk_is_Some _ _ eq_refl)). specialize (Ht1 (mk_is_Some _ _ eq_refl)).
    unfold convert_one. rewrite (proj2 (String.eqb_neq _ _) Hk1), (proj2 (String.eqb_neq _ _) Hk2).
    assert (other v m = false) as ->.
    { unfold other. rewrite Hrole. done. }
    unfold otherCallOf. rewrite Em. destruct Hd as [[-> Ho]|[-> Ho]]; apply Forall_cons in Ho as [Hid' Ho]; subst id.
    + rewrite Hid'. exists q. assert (plainUserText (kept c m) = None) as ->.
      { unfold plainUserText, kept. cbn. by rewrite Em, Hrole. }
      rewrite chat_due_app, Hr. cbn. rewrite Em, Ht1. cbn. rewrite String.eqb_refl. split; [done|]. by left.
    + destruct Hid' as [call ->]. exists []. split; [by apply append_due|]. by right.
  - destruct q as [|id q]; [|done]. apply due_nil in Hd as ->. unfold convert_one.
    destruct (String.eqb_spec (Kind m) KindTurnEnd) as [Hk|_].
    { exists []. split; [done|]. destruct (ToolCalls m) as [|tc l] eqn:E; [by left|]. exfalso. by destruct Ht2 as (? & _); [left|]. }
    destruct (String.eqb_spec (Kind m) KindTaskResult) as [Hk|_].
    { exists []. split; [by apply append_due|]. destruct (ToolCalls m) as [|tc l] eqn:E; [by left|]. exfalso. by destruct Ht2 as (_ & ? & _); [left|]. }
    unfold scanned in Hsc. destruct (other v m); [exists []; split; [by apply append_due|by right]|].
    unfold otherCallOf. rewrite Em. cbv zeta. destruct (plainUserText (kept c m)) as [text|] eqn:Ep.
    { exists []. split; [by apply append_due|]. unfold plainUserText in Ep. destruct (negb _); [done|].
      cbn in Ep. rewrite Em in Ep. cbn in Ep. destruct (ToolCalls m); [by left|done]. }
    exists (CallID <$> ToolCalls m). split; [|left; split; [done|exact Hsc]]. rewrite chat_due_app, Hr, <- kept_calls.
    cbn [chat_due]. unfold kept at 1. cbn [ChatResult]. by rewrite Em.
Qed.

Lemma convert_due ms result q p :
  Forall tidy ms → Forall scanned ms → answered q ms = true → chat_due [] result = Some p → due q p →
  chat_due [] (fold_left (convert_one v c) ms result) = Some [].
Proof.
  revert result q p. induction ms as [|m ms IH]; intros result q p Ht Hs Ha Hr Hd; cbn in *.
  - apply bool_decide_eq_true in Ha as ->. by apply due_nil in Hd as ->.
  - apply Forall_cons in Ht as [Ht Hts], Hs as [Hs Hss]. pose proof (convert_one_due result m q p Ht Hs Hr Hd) as H.
    destruct (Result m) as [r|], q as [|id q]; try done.
    + apply andb_true_iff in Ha as [Hid%String.eqb_eq Ha]. destruct (H Hid) as (p' & H1 & H2). by eapply IH.
    + destruct H as (p' & H1 & H2). by eapply IH.
Qed.
End Convert.

(** ** What the first pass learns *)

Lemma insert_calls (f : ToolCall → otherCall) l (s : gmap string otherCall) id :
  (∀ x, fold_left (λ s tc, <[CallID tc := f tc]> s) l s !! id = Some x → s !! id = Some x ∨ id ∈ (CallID <$> l)) ∧
  (is_Some (s !! id) ∨ id ∈ (CallID <$> l) → is_Some (fold_left (λ s tc, <[CallID tc := f tc]> s) l s !! id)).
Proof.
  revert s. induction l as [|tc l IH]; intros s; cbn [fold_left].
  - split; [auto|]. intros [?|Hin]; [done|]. by apply not_elem_of_nil in Hin.
  - destruct (IH (<[CallID tc := f tc]> s)) as [H1 H2]. rewrite fmap_cons. setoid_rewrite elem_of_cons. split.
    + intros x [H|H]%H1; [|auto]. destruct (decide (CallID tc = id)) as [->|Hne]; [auto|]. rewrite lookup_insert_ne in H by done. auto.
    + intros H. apply H2. destruct (decide (CallID tc = id)) as [->|Hne]; [left; rewrite lookup_insert_eq; by eexists|].
      rewrite lookup_insert_ne by done. destruct H as [?|[?|?]]; [auto|congruence|auto].
Qed.

Lemma scan_others v ms c id :
  (∀ x, Convert.others (fold_left (scan v) ms c) !! id = Some x → Convert.others c !! id = Some x ∨ ∃ m, m ∈ ms ∧ other v m = true ∧ id ∈ (CallID <$> ToolCalls m)) ∧
  (is_Some (Convert.others c !! id) ∨ (∃ m, m ∈ ms ∧ other v m = true ∧ id ∈ (CallID <$> ToolCalls m)) → is_Some (Convert.others (fold_left (scan v) ms c) !! id)).
Proof.
  revert c. induction ms as [|m ms IH]; intros c; cbn [fold_left].
  - split; [auto|]. intros [?|(m & Hin & _)]; [done|]. by apply not_elem_of_nil in Hin.
  - destruct (IH (scan v c m)) as [H1 H2].
    pose proof (insert_calls (λ tc, mkOtherCall (CallName tc) (label v m)) (ToolCalls m) (Convert.others c) id) as [I1 I2]. split.
    + intros x [H|(m' & ? & ? & ?)]%H1; [|right; exists m'; set_solver]. cbn in H. destruct (other v m) eqn:Eo; [|auto].
      destruct (I1 _ H) as [?|?]; [auto|]. right. exists m. set_solver.
    + intros H. apply H2. cbn [scan Convert.others]. destruct H as [H|(m' & [->|Hin]%elem_of_cons & Ho & Hid)].
      * left. destruct (other v m); auto.
      * left. rewrite Ho. auto.
      * right. by exists m'.
Qed.

Lemma all_scanned v ms : ids_apart v ms → Forall (scanned v (scan_all v ms)) ms.
Proof.
  intros Hap. apply Forall_forall. intros m Hm. apply Forall_forall. intros id Hid.
  destruct (scan_others v ms (mkCalls ∅ ∅ ∅) id) as [H1 H2]. fold (scan_all v ms) in H1, H2. destruct (other v m) eqn:Ho.
  - apply H2. right. by exists m.
  - destruct (Convert.others (scan_all v ms) !! id) as [x|] eqn:E; [|done]. destruct (H1 x eq_refl) as [?|(m' & Hm' & Ho' & Hid')]; [done|].
    apply list_elem_of_fmap in Hid as (tc & -> & Htc), Hid' as (tc' & Hid' & Htc'). exfalso. by apply (Hap m' m tc' tc).
Qed.

Lemma convert_whole v ms : whole ms → Forall tidy ms → ids_apart v ms → chat_due [] (Convert ms v) = Some [].
Proof. intros Hw Ht Hap. apply (convert_due v (scan_all v ms) ms [] [] []); [done|by apply all_scanned|done..|by left]. Qed.

(** ** Whole turns, in order *)

Definition turn_of (t : string) (l : list MessageWithID) : list Message := Msg <$> sortedBlock (List.filter (of_turn t) l).

(** Only turns hold calls and results, and each is whole. *)
Definition turns_whole (l : list MessageWithID) : Prop :=
  (∀ m, m ∈ l → is_plain m = true → whole [Msg m]) ∧ (∀ t, whole (turn_of t l)).

Lemma place_whole plain blocks :
  Forall (λ m, whole [Msg m]) plain → Forall (λ b, whole (Msg <$> sortedBlock (msgs b))) blocks → whole (Msg <$> place plain blocks).
Proof.
  revert blocks. induction plain as [|p plain IH]; intros blocks Hp Hb; cbn [place].
  - induction Hb as [|b blocks Hb _ IH]; [done|]. rewrite fmap_cons. cbn [List.concat]. rewrite fmap_app. by apply whole_app.
  - apply Forall_cons in Hp as [Hp Hps].
    assert (Hf : ∀ upTo bs, Forall (λ b, whole (Msg <$> sortedBlock (msgs b))) bs →
      whole (Msg <$> (Order.flush upTo bs).1) ∧ Forall (λ b, whole (Msg <$> sortedBlock (msgs b))) (Order.flush upTo bs).2).
    { clear. intros upTo bs. induction 1 as [|b bs Hb Hbs IH]; cbn [Order.flush]; [by split|].
      destruct (anchor b <? upTo); [|split; [done|by constructor]]. destruct (Order.flush upTo bs) as [out rest]. cbn in *.
      rewrite fmap_app. destruct IH as [IH1 IH2]. split; [apply whole_app; assumption|done]. }
    destruct (Hf (MsgID p) blocks Hb) as [H1 H2]. destruct (Order.flush (MsgID p) blocks) as [out rest]. cbn in *.
    rewrite fmap_app, fmap_cons. apply whole_app; [done|]. apply (whole_app [Msg p]); [done|by apply IH].
Qed.

Lemma order_whole l : turns_whole l → whole (Msg <$> Order l).
Proof.
  intros [Hp Ht]. destruct (Order_parts l) as (blocks & Hg & -> & _). apply place_whole.
  - apply Forall_forall. intros m Hm. rewrite sort_stable_perm in Hm. apply elem_filter in Hm as [Hm Hpl]. by apply Hp.
  - apply Forall_forall. intros b Hb. rewrite sort_stable_perm in Hb. apply list_elem_of_fmap in Hb as ([t b'] & -> & Hb).
    destruct (g_block _ _ Hg t b' Hb) as [_ Hms]. cbn [snd]. rewrite Hms. apply Ht.
Qed.

(** ** What the turn could not write *)

Lemma unsaved_past n i key stored l :
  (∀ i, TurnMessageKey key (Z.of_nat i) ∈ stored ↔ (i < n)%nat) → (n ≤ i)%nat → unsaved stored key (Z.of_nat i) l = l.
Proof.
  intros Hst. revert i. induction l as [|m l IH]; intros i Hi; cbn [unsaved]; [done|].
  replace (Z.of_nat i + 1) with (Z.of_nat (S i)) by lia. rewrite IH by lia. destruct (contains stored _) eqn:Ec; [|done].
  apply contains_spec, Hst in Ec. lia.
Qed.

Lemma unsaved_drop T n s k key stored :
  (∀ i, TurnMessageKey key (Z.of_nat i) ∈ stored ↔ (i < n)%nat) → (s ≤ n)%nat →
  unsaved stored key (Z.of_nat s) (drop s (take k T)) = drop n (take k T).
Proof.
  intros Hst. remember (n - s)%nat as d eqn:Hd. revert s Hd. induction d as [|d IH]; intros s Hd Hs.
  { replace n with s by lia. apply (unsaved_past n); [done|lia]. }
  destruct (drop s (take k T)) as [|m l] eqn:Hl; cbn [unsaved].
  - rewrite drop_ge; [done|]. apply (f_equal length) in Hl. rewrite length_drop in Hl. cbn in Hl. lia.
  - assert (Hl' : l = drop (S s) (take k T)) by (rewrite <- Nat.add_1_r, <- drop_drop, Hl; done).
    replace (Z.of_nat s + 1) with (Z.of_nat (S s)) by lia. destruct (contains stored _) eqn:Ec.
    + rewrite Hl'. apply IH; lia.
    + apply contains_false in Ec. exfalso. apply Ec, Hst. lia.
Qed.

Lemma whole_drop T n k : whole (take n T) → whole (take k T) → whole (drop n (take k T)).
Proof.
  intros Hn Hk. destruct (decide (n ≤ k)%nat) as [Hle|]; [|rewrite drop_ge; [done|]; rewrite length_take; lia].
  unfold whole in *. rewrite <- (take_drop n (take k T)), take_take, Nat.min_l in Hk by lia. by rewrite answered_app in Hk.
Qed.

(** ** The tools *)

Section Tools.
Context {GQ : AgentTurn.GoQuote} (c : Catalog).

Lemma definition_name name d b : catalog_ok c → definition name c = Some (d, b) → DefName d = name ∧ DefCache d = false.
Proof.
  intros ok H. rewrite definition_map in H by done. destruct (catalog_map c !! name) as [x|] eqn:E; [|done]. cbn in H. injection H as <- _.
  apply catalog_map_spec in E as [Hx <-]; [|done]. split; [done|].
  by apply elem_of_app in Hx as [(t & -> & _)%list_elem_of_fmap|(a & -> & _)%list_elem_of_fmap].
Qed.

Lemma definitions_names names bg defs missing bgs : catalog_ok c → ToolDefinitions names bg c = (defs, missing, bgs) →
  sublist (DefName <$> defs) names ∧ Forall (λ d, DefCache d = false) defs.
Proof.
  intros ok. revert defs missing bgs. induction names as [|name names IH]; intros defs missing bgs; cbn [ToolDefinitions].
  { intros [= <- _ _]. split; [constructor|done]. }
  destruct (ToolDefinitions names bg c) as [[ds ms] bs]. destruct (IH ds ms bs eq_refl) as [H1 H2].
  destruct (definition name c) as [[d eligible]|] eqn:Ed; [|intros [= <- _ _]; split; [by constructor|done]].
  destruct (definition_name name d eligible ok Ed) as [<- Hc].
  destruct (bg && eligible); intros [= <- _ _]; (split; [rewrite fmap_cons; by apply sublist_skip|by constructor]).
Qed.

Lemma not_offered_spec offered names : ∀ seen,
  NoDup (not_offered offered seen names) ∧
  (∀ n, n ∈ not_offered offered seen names ↔ n ∈ names ∧ (n ∉ seen) ∧ (n ∉ offered)).
Proof.
  induction names as [|name names IH]; intros seen; cbn [not_offered]; [split; [constructor|set_solver]|].
  destruct (IH (name :: seen)) as [H1 H2].
  destruct (contains seen name) eqn:E1; [|destruct (contains offered name) eqn:E2]; cbn [negb andb].
  - apply contains_spec in E1. split; [done|]. intros n. rewrite H2. set_solver.
  - apply contains_spec in E2. split; [done|]. intros n. rewrite H2. set_solver.
  - apply contains_false in E1, E2. split; [constructor; [rewrite H2; set_solver|done]|]. intros n. rewrite elem_of_cons, H2.
    destruct (decide (n = name)); set_solver.
Qed.

Lemma withdrawn_names offered missing chat :
  DefName <$> withdrawnTools c offered missing chat = sort_stable str_le (not_offered offered [] (called_names chat)).
Proof.
  unfold withdrawnTools. cbv zeta. destruct (ToolDefinitions _ false c) as [[ds unknown] b]. rewrite <- list_fmap_compose. apply list_fmap_id.
Qed.

Lemma withdrawn_cache offered missing chat : Forall (λ d, DefCache d = false) (withdrawnTools c offered missing chat).
Proof.
  unfold withdrawnTools. cbv zeta. destruct (ToolDefinitions _ false c) as [[ds unknown] b]. apply Forall_fmap, Forall_true. done.
Qed.
End Tools.

Lemma mark_last_names l : DefName <$> mark_last l = DefName <$> l.
Proof. induction l as [|t l IH]; [done|]. destruct l as [|t' l]; [done|]. change (mark_last (t :: t' :: l)) with (t :: mark_last (t' :: l)). by rewrite !(fmap_cons _ t), IH. Qed.

Lemma mark_last_cache l : Forall (λ d, DefCache d = false) l → (length (List.filter DefCache (mark_last l)) ≤ 1)%nat.
Proof.
  induction 1 as [|t l Ht Hl IH]; [cbn; lia|]. destruct l as [|t' l]; [cbn; lia|]. change (mark_last (t :: t' :: l)) with (t :: mark_last (t' :: l)).
  cbn [List.filter]. by rewrite Ht.
Qed.

Lemma mark_chat l : fst <$> mark_before_last l = l.
Proof. induction l as [|m l IH]; [done|]. destruct l as [|m' [|m'' l]]; [done..|]. change (mark_before_last (m :: m' :: m'' :: l)) with ((m, false) :: mark_before_last (m' :: m'' :: l)). by rewrite fmap_cons, IH. Qed.

Lemma mark_one l : (length (List.filter snd (mark_before_last l)) ≤ 1)%nat.
Proof. induction l as [|m l IH]; [cbn; lia|]. destruct l as [|m' [|m'' l]]; [cbn; lia..|]. exact IH. Qed.

(** ** From the chat to the API's messages *)

Lemma use_blocks_ids cache l : omap (λ b, match b with AToolUse id _ _ _ => Some id | _ => None end) (use_blocks cache l) = InfoID <$> l.
Proof. induction l as [|tc l IH]; [done|]. cbn. by rewrite <- IH. Qed.

Lemma use_blocks_names cache l : omap (λ b, match b with AToolUse _ n _ _ => Some n | _ => None end) (use_blocks cache l) = Convert.InfoName <$> l.
Proof. induction l as [|tc l IH]; [done|]. cbn. by rewrite <- IH. Qed.

Lemma use_blocks_results cache l : omap (λ b, match b with AToolResult id _ _ _ => Some id | _ => None end) (use_blocks cache l) = [].
Proof. induction l as [|tc l IH]; [done|]. cbn. by rewrite <- IH. Qed.

Lemma use_blocks_cache cache l : (length (List.filter (λ b, match b with AText _ k | AToolUse _ _ _ k | AToolResult _ _ _ k => k end) (use_blocks cache l)) ≤
  if cache then 1 else 0)%nat.
Proof.
  induction l as [|tc l IH]; [cbn; lia|]. cbn [use_blocks List.filter]. destruct l as [|tc' l]; [destruct cache; cbn; lia|]. exact IH.
Qed.

(** What the API reads of a message. *)
Lemma converted m :
  let a := AContent (convertToAnthropicMessage m) in
  used_names a = Convert.InfoName <$> ChatCalls m.1 ∧ (breakpoints a ≤ if m.2 then 1 else 0)%nat ∧
  (results a = match ChatCalls m.1, ChatResult m.1 with [], Some r => [InfoCallID r] | _, _ => [] end) ∧
  uses a = InfoID <$> ChatCalls m.1 ∧
  (∀ r, ChatCalls m.1 = [] → ChatResult m.1 = Some r → ARole (convertToAnthropicMessage m) = RoleUser).
Proof.
  destruct m as [m cache]. cbn [fst snd]. unfold convertToAnthropicMessage. destruct (ChatCalls m) as [|tc l] eqn:Ec.
  - destruct (ChatResult m) as [r|]; [|destruct (unmarshal _) as [text|]]; destruct cache; cbn; split_and!; (done || lia).
  - set (t := text_of _). cbn [AContent used_names breakpoints results uses].
    rewrite !omap_app, List.filter_app, length_app, use_blocks_ids, use_blocks_names, use_blocks_results.
    pose proof (use_blocks_cache cache (tc :: l)). destruct (String.eqb t ""); cbn [omap list_omap app List.filter length]; split_and!; try done; lia.
Qed.

Lemma chat_paired p l : chat_due p (fst <$> l) = Some [] → paired p (convertToAnthropicMessage <$> l) = true.
Proof.
  revert p. induction l as [|m l IH]; intros p; [intros [= ->]; by apply bool_decide_eq_true|].
  rewrite !fmap_cons. cbn [chat_due paired]. destruct (converted m) as (_ & _ & -> & -> & Hrole).
  destruct (ChatResult m.1) as [r|], (ChatCalls m.1) as [|tc calls] eqn:Ec, p as [|id p]; try done.
  - destruct (String.eqb (InfoCallID r) id); [|done]. rewrite (Hrole r) by done. apply IH.
  - intros H. by apply IH.
  - intros H. by apply IH.
Qed.

Lemma chat_breakpoints l :
  (sum_list ((λ m, breakpoints (AContent m)) <$> (convertToAnthropicMessage <$> l)) ≤ length (List.filter snd l))%nat.
Proof.
  induction l as [|m l IH]; [cbn; lia|]. rewrite !fmap_cons. destruct (converted m) as (_ & Hb & _).
  destruct m as [m cache]. change (sum_list (?x :: ?y)) with (x + sum_list y)%nat. cbn [List.filter snd] in *. destruct cache; cbn [length]; lia.
Qed.

(** ** The request *)

Section Built.
Context {GQ : AgentTurn.GoQuote} (c : Catalog) (p : Prompts) (reads : Reads).

Lemma offered_once names b tools missing backgrounds chat :
  catalog_ok c → NoDup names → ToolDefinitions names b c = (tools, missing, backgrounds) →
  let all := mark_last (tools ++ withdrawnTools c (DefName <$> tools) missing chat) in
  NoDup (DefName <$> all) ∧ (length (List.filter DefCache all) ≤ 1)%nat ∧ ∀ name, name ∈ called_names chat → name ∈ (DefName <$> all).
Proof.
  intros ok Hnd Ht. cbv zeta. destruct (definitions_names c names b tools missing backgrounds ok Ht) as [Hsub Hcache].
  rewrite mark_last_names, fmap_app, withdrawn_names. destruct (not_offered_spec (DefName <$> tools) (called_names chat) []) as [Hn1 Hn2].
  split_and!.
  - apply NoDup_app. split_and!; [eapply sublist_NoDup; [exact Hnd|exact Hsub]|intros x Hx; rewrite sort_stable_perm, Hn2; tauto|by rewrite sort_stable_perm].
  - apply mark_last_cache, Forall_app. split; [done|apply withdrawn_cache].
  - intros name Hin. rewrite elem_of_app, sort_stable_perm, Hn2.
    destruct (decide (name ∈ (DefName <$> tools))); [by left|]. right. split_and!; [done|apply not_elem_of_nil|done].
Qed.

Lemma built_accepted req messages r memory model :
  catalog_ok c → NoDup (ReqTools req) → conversation req (read_conversation reads) = inr messages →
  whole messages → Forall tidy messages → ids_apart (chat_view req c) messages →
  buildRequest c p reads req = inr (r, memory) → accepted (anthropic_request model r).
Proof.
  intros ok Hnd Hconv Hw Ht Hids. unfold buildRequest. rewrite Hconv. destruct (negb (Ready c)); [done|].
  set (chat := Convert messages (chat_view req c)). destruct (ToolDefinitions _ _ c) as [[tools missing] backgrounds] eqn:Htools.
  cbv zeta. destruct (systemPrompt _ _ _ _ _ _) as [system held]. intros [= <- <-].
  destruct (offered_once _ _ _ _ _ chat ok Hnd Htools) as (Honce & Hcache & Hdef).
  assert (Hdue : chat_due [] (fst <$> mark_before_last chat) = Some []) by (rewrite mark_chat; by apply convert_whole).
  split; unfold anthropic_request; cbn [AMessages ATools ASystem CrMessages CrTools CrSystem CrCacheSystem].
  - by apply chat_paired.
  - intros a name (m & -> & Hm)%list_elem_of_fmap Hname. destruct (converted m) as (Hused & _). rewrite Hused in Hname.
    apply Hdef. unfold called_names. apply (list_elem_of_fmap_2 fst) in Hm. rewrite mark_chat in Hm.
    apply list_elem_of_join. exists (Convert.InfoName <$> ChatCalls m.1). split; [done|].
    by apply (list_elem_of_fmap_2 (λ m, Convert.InfoName <$> ChatCalls m)).
  - done.
  - pose proof (chat_breakpoints (mark_before_last chat)). pose proof (mark_one chat).
    destruct (String.eqb system ""); lia.
Qed.
End Built.

(** ** The requests of a run *)

Section Run.
Context {GQ : AgentTurn.GoQuote} (input : RunInput).

Definition run_scope : TurnScope := ScopeOf (RunTurnKey input) (RunEarlier input).

(** What a call reads of its session, after the run's effects [l] on the table
    [t0], whatever else was written meanwhile: what the run wrote, and turns of
    others that are whole. [v] is the agent's view. *)
Record session_read (v : View) (l : list effect) (T : list Message) (t0 t : Messages) : Prop := {
  sr_key : is_Some (parseTurn (RunTurnKey input));
  sr_before : messages_ok t0;
  sr_none : ∀ i, turn_message input t0 i = None;
  sr_stores : stores input l t0 t;
  sr_own : ∀ m, m ∈ session_rows (RunSession input) t → TurnOf (Key m) = Some (RunTurnKey input) → IsTurnEnd (Key m) = false →
    ∃ i, Key m = message_key input i;
  sr_plain : ∀ m, m ∈ LoadConversation (RunSession input) run_scope t → is_plain m = true → whole [Msg m];
  sr_others : ∀ k, k ≠ RunTurnKey input → whole (turn_of k (LoadConversation (RunSession input) run_scope t));
  sr_tidy : Forall tidy ((Msg <$> LoadConversation (RunSession input) run_scope t) ++ T);
  sr_ids : ids_apart v ((Msg <$> LoadConversation (RunSession input) run_scope t) ++ T)
}.

Lemma message_key_turn i : is_Some (parseTurn (RunTurnKey input)) →
  TurnOf (message_key input i) = Some (RunTurnKey input) ∧ IsTurnEnd (message_key input i) = false.
Proof.
  intros [ap Hap]. assert (H : TurnOf (message_key input i) = Some (RunTurnKey input)).
  { eapply TurnOf_app_aux; [done|]. right. apply digits_itoa. lia. }
  split; [done|]. unfold IsTurnEnd. rewrite H. apply String.eqb_neq. apply TurnEndKey_not_message. lia.
Qed.

Lemma own_reads m ends i : is_Some (parseTurn (RunTurnKey input)) → Key m = message_key input i →
  TurnReads (MsgID m) (Key m) run_scope ends = true.
Proof.
  intros Hk ->. destruct (message_key_turn i Hk) as [H1 H2]. unfold TurnReads. rewrite H1, H2.
  assert (contains (Turns run_scope) (RunTurnKey input) = true) as ->; [|done]. apply contains_spec. unfold run_scope, ScopeOf.
  destruct (match parseTurn _ with Some ap => ap | None => (0, "") end). cbn [Turns]. set_solver.
Qed.

Lemma filter_twice {A} (f g : A → bool) l : List.filter f (List.filter g l) = List.filter (λ x, g x && f x) l.
Proof. induction l as [|x l IH]; [done|]. cbn. destruct (g x); cbn; [destruct (f x)|]; by rewrite ?IH. Qed.

Lemma rows_sorted t (f : MessageWithID → bool) : messages_ok t →
  StronglySorted (λ a b, byID a b = true) (List.filter f (session_rows (RunSession input) t)).
Proof.
  intros Hok. rewrite session_rows_eq by done. apply filter_sorted.
  pose proof (Store.sorted_filter (λ r, String.eqb (RowSession r) (RunSession input)) _ (mo_sorted _ Hok)) as Hs.
  induction Hs as [|x l Hl IH Hf]; constructor; [done|]. apply Forall_fmap. eapply Forall_impl; [done|].
  unfold row_lt, row_id. intros y Hy. cbn. apply Z.leb_le. lia.
Qed.

(** What is read of the run's own turn is what is in the table of it. *)
Lemma own_loaded v l T n t0 t : session_read v l T t0 t → holds input T n t →
  turn_of (RunTurnKey input) (LoadConversation (RunSession input) run_scope t) = take n T.
Proof.
  intros Hs (Hok & Ht & Hown). rewrite <- Hown. unfold turn_of, own_rows, sortedBlock. rewrite LoadConversation_eq, filter_twice.
  rewrite sort_stable_id by by apply rows_sorted. f_equal. apply filter_ext_in. intros m Hm. apply eq_true_iff_eq.
  rewrite andb_true_iff, of_turn_spec. split.
  - intros [Hr Hk]. destruct (IsTurnEnd (Key m)) eqn:He; [unfold TurnReads in Hr; by rewrite Hk, He in Hr|].
    destruct (sr_own _ _ _ _ _ Hs m Hm Hk He) as [i Hi]. apply own_spec. exists i. split; [|done].
    rewrite session_rows_eq in Hm by done. apply list_elem_of_fmap in Hm as (r & -> & [Hin Hses%String.eqb_eq]%elem_filter).
    specialize (Ht i). unfold turn_message in Ht. rewrite <- Hi, <- Hses, row_under_in in Ht by done.
    apply lookup_lt_Some in Ht as Hlt || (symmetry in Ht; apply lookup_lt_Some in Ht as Hlt). rewrite length_take in Hlt. lia.
  - intros (i & _ & Hi)%own_spec. destruct (message_key_turn i (sr_key _ _ _ _ _ Hs)) as [Hk _]. rewrite Hi at 2. split; [|done].
    by apply (own_reads m _ i); [apply Hs|].
Qed.

Lemma loaded_keys v l T n t0 t i : session_read v l T t0 t → holds input T n t → (n ≤ length T)%nat →
  TurnMessageKey (RunTurnKey input) (Z.of_nat i) ∈ (Key <$> Order (LoadConversation (RunSession input) run_scope t)) ↔ (i < n)%nat.
Proof.
  intros Hs (Hok & Ht & _) Hn. rewrite (fmap_Permutation Key _ _ (Order_perm _)). specialize (Ht i). unfold turn_message in Ht.
  rewrite list_elem_of_fmap. rewrite LoadConversation_eq. split.
  - intros (m & Hk & [Hm _]%elem_filter). rewrite session_rows_eq in Hm by done.
    apply list_elem_of_fmap in Hm as (r & -> & [Hin Hses%String.eqb_eq]%elem_filter).
    unfold message_key in Ht. rewrite Hk, <- Hses, row_under_in in Ht by done.
    symmetry in Ht. apply lookup_lt_Some in Ht. rewrite length_take in Ht. lia.
  - intros Hi. rewrite lookup_take_lt in Ht by lia. destruct (lookup_lt_is_Some_2 T i) as [m Hm]; [lia|]. rewrite Hm in Ht.
    destruct (row_under _ _ t) as [r|] eqn:Er; [|done]. apply row_under_some in Er as [Hin Hu]. unfold row_key in Hu. injection Hu as Hses Hk.
    exists (RowMsg r). split; [by rewrite Hk|]. apply elem_filter. split; [|by apply (own_reads _ _ i); [apply Hs|]].
    rewrite session_rows_eq by done. apply (list_elem_of_fmap_2 RowMsg). apply elem_filter. by rewrite Hses, String.eqb_refl.
Qed.

Lemma loaded_whole v l T n t0 t : session_read v l T t0 t → holds input T n t → whole (take n T) →
  turns_whole (LoadConversation (RunSession input) run_scope t).
Proof.
  intros Hs Hh Hw. split; [apply Hs|]. intros k. destruct (decide (k = RunTurnKey input)) as [->|Hk]; [|by apply Hs].
  by rewrite (own_loaded v l T n t0 t).
Qed.
End Run.

Section Requests.
Context (env : Env) {JE : JSONErrors} {GQ : AgentTurn.GoQuote} {OJ : OutputJSON} (input : RunInput).

Lemma written_bound T n l : log_ok input T n l → (n ≤ length T)%nat → (fold_left written_after l n ≤ length T)%nat.
Proof.
  revert n. induction l as [|e l IH]; intros n; [done|]. intros [He Hl] Hn. apply (IH _ Hl).
  destruct e as [i o| | | | | | | | | | | | | | | | | |]; try done. destruct He as (_ & _ & _ & s & Hst & k & Hsn & Hsk & Hms & _).
  assert (Hlen : (Z.to_nat (PcStart i) + length (PcMessages i) ≤ length T)%nat) by (rewrite Hst, Hms, length_drop, length_take; lia).
  destruct o; cbn; lia.
Qed.

(** The tools a model is offered are the names of a catalog's list, once each. *)
Lemma asked_once e req res w : AgentWorkflow env input = (res, w) → lists_from_catalogs env input →
  e ∈ log w → model_request e = Some req → NoDup (ReqTools req).
Proof.
  intros Hrun Hcat He Hreq. pose proof (run_given env input res w Hrun) as H. rewrite Forall_forall in H.
  destruct (proj2 (H e He) req Hreq) as (n & tools & Ht & ->). destruct (Hcat n tools Ht) as (c & l & Hc%reloaded_ok & Hl & ->).
  unfold ListTools in Hl. destruct (CheckAgent _ _); [done|]. injection Hl as <-. unfold AllowedToolsFor.
  destruct (Access.SnapshotAllowed _ _ _); cbn; [|constructor]. rewrite <- list_fmap_compose. apply filter_names. by apply allowed_names.
Qed.

Lemma take_elem {A} (x : A) n l : x ∈ take n l → x ∈ l.
Proof. rewrite <- (take_drop n l) at 2. set_solver. Qed.

Lemma drop_elem {A} (x : A) n l : x ∈ drop n l → x ∈ l.
Proof. rewrite <- (take_drop n l) at 2. set_solver. Qed.

(** The conversation a call gives its model: whole, of messages the session
    and the turn hold. *)
Lemma called_conversation v l1 e l2 req w res reads messages :
  AgentWorkflow env input = (res, w) → log w = l1 ++ e :: l2 → model_request e = Some req →
  (if String.eqb (RunTurnKey input) "" then Forall tidy (turn w) ∧ ids_apart v (turn w)
   else ∃ t0 t, session_read input v l1 (turn w) t0 t ∧
     read_conversation reads (RunSession input) (run_scope input) = inr (LoadConversation (RunSession input) (run_scope input) t)) →
  conversation req (read_conversation reads) = inr messages →
  whole messages ∧ Forall tidy messages ∧ ids_apart v messages.
Proof.
  intros Hrun Hlog Hreq Hread Hconv. destruct (run_goes_on env input res w Hrun) as ([Hl _ _] & Hwh & _).
  rewrite Hlog in Hl. apply log_ok_app in Hl as [Hl1 [He _]]. set (n := fold_left written_after l1 0%nat) in *.
  assert (Hok : request_ok input (turn w) n req).
  { destruct e; try done; injection Hreq as <-; exact He. }
  unfold request_ok in Hok. destruct (String.eqb (RunTurnKey input) "").
  - destruct Hread as [Ht Hi], Hok as (Hh & k & Hk & Hwk). unfold conversation in Hconv. rewrite Hh in Hconv. injection Hconv as <-.
    rewrite Hk. split_and!; [done|by apply Forall_take|]. intros m m' tc tc' Hm%take_elem Hm'%take_elem. by apply Hi.
  - destruct Hread as (t0 & t & Hs & Hr), Hok as (Hm & s & ms & (k & Hsn & Hsk & -> & Hwk) & Hh).
    unfold conversation in Hconv. rewrite Hh, Hm in Hconv. cbn [negb bool_decide HistSession HistTurn HistEarlier Tail TailStart] in Hconv.
    rewrite bool_decide_eq_true_2 in Hconv by done. cbn [negb] in Hconv. unfold run_scope in Hr. rewrite Hr in Hconv. injection Hconv as <-.
    assert (H0 : holds input (turn w) 0 t0) by (split_and!; [apply Hs..|by apply own_none; apply Hs]).
    pose proof (stores_holds input (turn w) 0 l1 t0 t Hl1 (sr_stores _ _ _ _ _ _ Hs) H0) as Ht. fold n in Ht.
    pose proof (written_whole input (turn w) 0 l1 Hl1 eq_refl) as Hwn. fold n in Hwn.
    pose proof (written_bound (turn w) 0 l1 Hl1 ltac:(lia)) as Hn. fold n in Hn.
    rewrite (unsaved_drop (turn w) n) by (try done; intros i; by apply (loaded_keys input v l1 (turn w) n t0 t)).
    set (loaded := LoadConversation _ _ t). assert (Hin : ∀ m, m ∈ (Msg <$> Order loaded) ++ drop n (take k (turn w)) → m ∈ (Msg <$> loaded) ++ turn w).
    { intros m. rewrite (fmap_Permutation Msg _ _ (Order_perm loaded)), !elem_of_app. intros [?|H]; [by left|right].
      apply drop_elem in H. by eapply take_elem. }
    split_and!.
    + apply whole_app; [|by apply whole_drop]. apply order_whole. by apply (loaded_whole input v l1 (turn w) n t0 t).
    + apply Forall_forall. intros m Hm'. pose proof (sr_tidy _ _ _ _ _ _ Hs) as H. rewrite Forall_forall in H. by apply H, Hin.
    + intros m m' tc tc' H1 H2. apply (sr_ids _ _ _ _ _ _ Hs); by apply Hin.
Qed.
End Requests.

(** ** Properties *)

(** C5. Every request a run makes is one the Messages API takes. Whatever
    failed before it, and whatever others wrote in the session meanwhile, each
    call of a tool in the conversation is followed by its results and no result
    comes without its call, in the turns of this agent and of the others; every
    tool the conversation calls is defined, those withdrawn since included, and
    each once; and no more than four prefixes are cached. This holds of a call
    made by the server and of one handed to a machine, of a session's turn
    and of a run apart; the table's other turns are whole, and no two agents'
    calls share an ID. *)
Theorem requests_accepted env {JE : JSONErrors} {GQ : AgentTurn.GoQuote} {OJ : OutputJSON} input res w l1 e l2 req c p reads r memory model :
  AgentWorkflow env input = (res, w) → log w = l1 ++ e :: l2 → model_request e = Some req →
  lists_from_catalogs env input → star reload NewCatalog c →
  (if String.eqb (RunTurnKey input) "" then Forall tidy (turn w) ∧ ids_apart (chat_view req c) (turn w)
   else ∃ t0 t, session_read input (chat_view req c) l1 (turn w) t0 t ∧
     read_conversation reads (RunSession input) (run_scope input) = inr (LoadConversation (RunSession input) (run_scope input) t)) →
  buildRequest c p reads req = inr (r, memory) →
  accepted (anthropic_request model r).
Proof.
  intros Hrun Hlog Hreq Hcat Hc%reloaded_ok Hread Hb. destruct (conversation req (read_conversation reads)) as [err|messages] eqn:Hconv.
  { unfold buildRequest in Hb. rewrite Hconv in Hb. by destruct (negb (Ready c)). }
  destruct (called_conversation env input _ _ _ _ _ _ _ _ _ Hrun Hlog Hreq Hread Hconv) as (H1 & H2 & H3).
  eapply (built_accepted c p reads req messages); try done. eapply (asked_once env input e req); try done. rewrite Hlog. set_solver.
Qed.

(** ** A call after a write whose answer was lost, and a tool withdrawn *)

#[local] Existing Instance team_json_errors.
#[local] Existing Instance team_quote.
#[local] Existing Instance team_output.

(** The first write of the turn is made, unsaid. *)
Definition unsaid_env : Env :=
  mkAgentEnv (λ _, false) (λ _ _, WrittenUnsaid) (skills_result team_env) (tools_result team_env) (choose_result team_env) (server_result team_env)
    (λ _ _, inr noResponse) (λ _, None) (λ _ _, inr "") (λ _ _, None) (λ _ _, inr (mkExecOut "" false [])) (λ _ _, inr "") "" "s:p:jarvis:m7" "agents".

Definition unsaid_log : list effect := log (AgentWorkflow unsaid_env jarvis_turn).2.

(** The worker that makes the second call no longer has ada. *)
Definition late_catalog : Catalog := SetAccess (Access.mkSnapshot [] ∅) (SetAgents [mkEntry "jarvis" "" "" "" [] ["agent_*"] "never"] NewCatalog).

Definition asked_table : Messages := (insert_row 1 "s" "" (mkMessage RoleUser (marshal "look") "u1" "" "" "" [] None None None "" None "" "") noMessages).2.

Definition late_table : Messages := fold_left (λ t e, apply_effect 5 e t) (take 7 unsaid_log) asked_table.

Definition late_reads : Reads :=
  mkReads (λ s scope, inr (LoadConversation s scope late_table)) (λ _, inr (mkMemory "" 0)) (λ _ _, inr []) (λ l, l).

Definition late_request : LLMTurnRequest :=
  match unsaid_log !! 7%nat with Some (ServerCalled req) => req | _ => mkRequest "" "" "" [] (mkPrompt "" "" "" "" []) [] None end.

Definition late_built : ActivityError + (ChatRequest * PromptMemory) := buildRequest late_catalog (mkPrompts ∅ "") late_reads late_request.

Example late_built_ok :
  match late_built with
  | inr (r, _) => length (CrMessages r) = 3%nat ∧ (DefName <$> CrTools r) = ["agent_ada"] ∧ length (Tail (default (mkHistory "" [] "" [] 0) (ReqHistory late_request))) = 2%nat
  | inl _ => False
  end.
Proof. vm_compute. done. Qed.

Lemma late_read : session_read jarvis_turn (chat_view late_request late_catalog) (take 7 unsaid_log) (turn (AgentWorkflow unsaid_env jarvis_turn).2) asked_table late_table.
Proof.
  assert (Hst : ∀ l t, stores jarvis_turn l t (fold_left (λ t e, apply_effect 5 e t) l t)).
  { induction l as [|e l IH]; intros t; [apply stores_end, others_none|]. eapply (stores_step _ e l 5); [apply others_none|apply IH]. }
  split.
  - vm_compute. by eexists.
  - apply insert_row_ok, noMessages_ok.
  - intros i. done.
  - apply Hst.
  - intros m Hm. assert (Hrows : ∃ a b c, session_rows "s" late_table = [a; b; c] ∧ Key a = "" ∧ Key b = "m7.jarvis:0" ∧ Key c = "m7.jarvis:1")
      by (do 3 eexists; split; [vm_compute; reflexivity|done]).
    destruct Hrows as (a & b & c & Hrows & Ha & Hb & Hc). change (RunSession jarvis_turn) with "s" in Hm. rewrite Hrows in Hm.
    apply elem_of_cons in Hm as [->|Hm]; [by rewrite Ha|]. apply elem_of_cons in Hm as [->|Hm]; [by exists 0%nat|].
    apply list_elem_of_singleton in Hm as ->. by exists 1%nat.
  - intros m Hm. assert (Hload : ∃ a b c, LoadConversation "s" (run_scope jarvis_turn) late_table = [a; b; c] ∧
      whole [Msg a] ∧ is_plain b = false ∧ is_plain c = false) by (do 3 eexists; split; [vm_compute; reflexivity|done]).
    destruct Hload as (a & b & c & Hload & Ha & Hb & Hc). change (RunSession jarvis_turn) with "s" in Hm. rewrite Hload in Hm.
    apply elem_of_cons in Hm as [->|Hm]; [done|]. apply elem_of_cons in Hm as [->|Hm]; [by rewrite Hb|].
    apply list_elem_of_singleton in Hm as ->. by rewrite Hc.
  - intros k Hk. assert (Hload : ∃ a b c, LoadConversation "s" (run_scope jarvis_turn) late_table = [a; b; c] ∧
      TurnOf (Key a) = None ∧ TurnOf (Key b) = Some "m7.jarvis" ∧ TurnOf (Key c) = Some "m7.jarvis") by (do 3 eexists; split; [vm_compute; reflexivity|done]).
    destruct Hload as (a & b & c & Hload & Ha & Hb & Hc). change (RunSession jarvis_turn) with "s". rewrite Hload.
    unfold turn_of. cbn [List.filter]. unfold of_turn. rewrite Ha, Hb, Hc.
    clear Hload Ha Hb Hc Hst. destruct (String.eqb_spec "m7.jarvis" k) as [<-|]; [|reflexivity]. exfalso. apply Hk. reflexivity.
  - apply (bool_decide_unpack _). vm_compute. exact I.
  - assert (Hself : Forall (λ m, other (chat_view late_request late_catalog) m = false)
      ((Msg <$> LoadConversation "s" (run_scope jarvis_turn) late_table) ++ turn (AgentWorkflow unsaid_env jarvis_turn).2)).
    { apply (bool_decide_unpack _). vm_compute. exact I. }
    intros m m' tc tc' Hm _ Ho. rewrite Forall_forall in Hself. specialize (Hself m Hm). rewrite Ho in Hself. discriminate Hself.
Qed.

Lemma late_lists : lists_from_catalogs unsaid_env jarvis_turn.
Proof. intros n tools Ht. exact (team_lists n tools Ht). Qed.

Lemma late_catalog_reloaded : star reload NewCatalog late_catalog.
Proof.
  eapply star_step; [apply reload_agents|eapply star_step; [apply reload_access|apply star_refl]].
  cbn; repeat (apply NoDup_cons; split; [set_solver|]); constructor.
Qed.

Lemma requests_accepted_witness :
  match late_built with
  | inr (r, _) => accepted (anthropic_request "m" r) ∧ used_names <$> (AContent <$> AMessages (anthropic_request "m" r)) = [[]; ["agent_ada"]; []]
  | inl _ => False
  end.
Proof.
  destruct late_built as [e|[r memory]] eqn:Hb; [exfalso; apply (f_equal (λ x, match x with inl _ => true | inr _ => false end)) in Hb; vm_compute in Hb; discriminate Hb|].
  split.
  - assert (Hlog : log (AgentWorkflow unsaid_env jarvis_turn).2 = take 7 unsaid_log ++ ServerCalled late_request :: drop 8 unsaid_log)
      by (vm_compute; reflexivity).
    assert (Hreq : model_request (ServerCalled late_request) = Some late_request) by reflexivity.
    refine (requests_accepted unsaid_env jarvis_turn (AgentWorkflow unsaid_env jarvis_turn).1 (AgentWorkflow unsaid_env jarvis_turn).2
      (take 7 unsaid_log) (ServerCalled late_request) (drop 8 unsaid_log) late_request late_catalog (mkPrompts ∅ "") late_reads r memory "m"
      (surjective_pairing _) Hlog Hreq late_lists late_catalog_reloaded _ Hb).
    cbn [String.eqb]. exists asked_table, late_table. split; [exact late_read|reflexivity].
  - assert (H : match late_built with inr (r, _) => used_names <$> (AContent <$> AMessages (anthropic_request "m" r)) = [[]; ["agent_ada"]; []] | inl _ => False end)
      by (vm_compute; reflexivity).
    rewrite Hb in H. exact H.
Defined.
