(* ===== verification/LLMTheorems.v ===== *)
(** * What a call to the model comes to

    The errors of the provider as the workflow reads them, the limit on a
    request's size, and a prompt that does not depend on the order of a map. *)

From S2P Require Import Prelude GoStr Json JsonValid Message Convert CallInputs AgentData AgentLLM Catalog CatalogRun Prompt LLMCall Anthropic LLMAccepted.
Open Scope string_scope.
Open Scope Z_scope.
Open Scope list_scope.

(** ** The wait an API asks for *)

Section Answers.
Context `{AnthropicLib}.

Lemma parseRetryAfter_bounds value now d : parseRetryAfter value now = Some d → 0 < d ≤ maxRetryAfter.
Proof.
  unfold parseRetryAfter. cbv zeta. destruct (String.eqb _ ""); [done|].
  assert (Hcap : ∀ x, 0 < x → 0 < Z.min x maxRetryAfter ≤ maxRetryAfter) by (unfold maxRetryAfter, minute, second; lia).
  destruct (parse_int64 _) as [secs|].
  - destruct (Z.leb_spec secs 0); [done|]. cbn [orb]. destruct (_ <? secs); [done|]. intros [= <-]. apply Hcap. unfold second. lia.
  - destruct (parse_time _) as [at_|]; [|done]. destruct (Z.leb_spec (time_sub at_ now) 0); [done|]. cbn [orb].
    destruct (_ <? time_sub at_ now); [done|]. intros [= <-]. by apply Hcap.
Qed.

(** ** A request whose size is known is one that encodes *)

Lemma sized_messages l x : mapM marshal_message l = Some x →
  forallb (λ m, match AContent m with
                | AString _ => true
                | ARaw raw => negb (is_none (raw_json raw))
                | ABlocks l => forallb (λ b, match b with AToolUse _ _ input _ => negb (is_none (raw_json input)) | _ => true end) l
                end) (convertToAnthropicMessage <$> l) = true.
Proof.
  intros Hx%mapM_Some. apply forallb_forall. intros a (m & -> & Hm)%list_elem_of_In%list_elem_of_fmap.
  apply list_elem_of_lookup in Hm as [i Hi]. destruct (Forall2_lookup_l _ _ _ _ _ Hx Hi) as (y & _ & Hy).
  destruct m as [m cache]. unfold marshal_message in Hy. cbn [fst snd] in Hy. destruct (raw_json (ChatContent m)) as [content|] eqn:Hc; [|done].
  destruct (mapM marshal_call (ChatCalls m)) as [calls|] eqn:Hcalls; [|done]. clear Hy. unfold convertToAnthropicMessage.
  destruct (ChatCalls m) as [|tc l'] eqn:El.
  - destruct (ChatResult m); [done|]. destruct (unmarshal _); [by destruct cache|]. cbn [AContent]. by rewrite Hc.
  - rewrite <- El in *. clear El. cbn [AContent]. rewrite forallb_app. apply andb_true_iff. split; [by destruct (String.eqb _ "")|].
    revert calls Hcalls. induction (ChatCalls m) as [|tc' l'' IH]; intros calls; [done|]. cbn [use_blocks forallb].
    intros Hm%mapM_Some. inversion Hm as [|? c ? cs H1 H2]; subst. unfold marshal_call in H1.
    destruct (raw_json (InfoInput tc')); [|done]. cbn. eapply IH. by apply mapM_Some.
Qed.

Lemma sized_encodes model r : requestSize r < int64_max → encodes (anthropic_request model r) = true.
Proof.
  unfold requestSize, marshal_request. destruct (mapM marshal_message (CrMessages r)) as [ms|] eqn:Hms; [|lia].
  destruct (mapM marshal_tool (CrTools r)) as [ts|] eqn:Hts; [|lia]. intros _. unfold encodes. cbv zeta. apply andb_true_iff. split.
  - cbn [AMessages anthropic_request]. by eapply sized_messages.
  - apply forallb_forall. intros t Ht%list_elem_of_In. cbn [ATools anthropic_request] in Ht. apply mapM_Some in Hts.
    apply list_elem_of_lookup in Ht as [i Hi]. destruct (Forall2_lookup_l _ _ _ _ _ Hts Hi) as (y & _ & Hy). unfold marshal_tool in Hy.
    by destruct (raw_json (DefSchema t)).
Qed.
End Answers.

(** ** The order of a map *)

Lemma str_le_anti a b : str_le a b = true → str_le b a = true → a = b.
Proof.
  intros Hab Hba. apply str_le_cases in Hab as [?|Hab]; [done|]. by rewrite str_le_lt, Hab in Hba.
Qed.

Lemma sorted_names l l' : l ≡ₚ l' → sort_stable str_le l = sort_stable str_le l'.
Proof.
  intros Hp. apply (StronglySorted_unique_strong (λ a b, str_le a b = true)).
  - intros a b _ _. apply str_le_anti.
  - apply sort_stable_sorted; [apply str_le_total|apply str_le_trans].
  - apply sort_stable_sorted; [apply str_le_total|apply str_le_trans].
  - by rewrite !sort_stable_perm.
Qed.

Lemma contains_perm l l' x : l ≡ₚ l' → contains l x = contains l' x.
Proof. intros Hp. apply eq_true_iff_eq. rewrite !contains_spec. by rewrite Hp. Qed.

Lemma filter_perm {A} (f : A → bool) l l' : l ≡ₚ l' → List.filter f l ≡ₚ List.filter f l'.
Proof.
  induction 1 as [|x l l' _ IH|x y l|l l' l'' _ IH _ IH']; cbn; [done| | |by rewrite IH].
  - destruct (f x); by rewrite ?IH.
  - destruct (f x), (f y); (done || apply Permutation_swap).
Qed.

Lemma rule_line_perm l l' r : l ≡ₚ l' → rule_line l r = rule_line l' r.
Proof.
  intros Hp. unfold rule_line. destruct (ruleTools r) as [tools|]; [|done].
  assert (rule_tool l <$> tools = rule_tool l' <$> tools) as ->; [|done]. apply list_fmap_ext. intros _ t _. unfold rule_tool.
  destruct (is_glob t); [|by rewrite (contains_perm l l')]. apply sorted_names. by apply filter_perm.
Qed.

Lemma prompt_perm agentID l l' c p : l ≡ₚ l' → AgentPrompt agentID l c p = AgentPrompt agentID l' c p.
Proof.
  intros Hp. unfold AgentPrompt, buildSystemPrompt, buildBehaviors. cbv zeta.
  assert (rule_line l <$> promptRules = rule_line l' <$> promptRules) as ->; [|done].
  apply list_fmap_ext. intros _ r _. by apply rule_line_perm.
Qed.

(** ** Properties *)

(** What failed is told as it is. A request past the limit is never sent,
    and its size alone fails it for good; one within it always encodes. Sent,
    it is not tried again exactly when no model is named, or the API answers
    that the request is too large, or answers with a status no later attempt
    changes (below 500, 408 and 429 apart); and the wait before the next
    attempt is the one the API asked for, never over two minutes. *)
Theorem failures_told {GQ : AgentTurn.GoQuote} `{AnthropicLib} c p reads configured defaultModel now exchange req r memory e sent :
  buildRequest c p reads req = inr (r, memory) → maxContextBytes configured < int64_max →
  CallLLM c p reads configured (Chat defaultModel now exchange) req = (inl e, sent) →
  match sent with
  | None => maxContextBytes configured < requestSize r ∧ e = too_long
  | Some r' =>
      r' = r ∧ requestSize r ≤ maxContextBytes configured ∧
      (AeRetried e = false ↔
       match resolveModel defaultModel (CrModel r) with
       | None => True
       | Some model =>
           encodes (anthropic_request model r) = true ∧
           match exchange (anthropic_request model r) with
           | inl _ => False
           | inr (status, _, body) => status ≠ 200 ∧ (contextOverflow status body = true ∨ transientStatus status = false)
           end
       end) ∧
      (∀ d, AeDelay e = Some d → AeRetried e = true ∧ 0 < d ≤ 2 * minute)
  end.
Proof.
  intros Hb Hmax. unfold CallLLM. rewrite Hb. destruct (Z.ltb_spec (maxContextBytes configured) (requestSize r)) as [Hsize|Hsize].
  { by intros [= <- <-]. }
  unfold Chat. destruct (resolveModel defaultModel (CrModel r)) as [model|] eqn:Hm; [|by intros [= <- <-]; cbn; split_and!].
  rewrite sized_encodes by lia. cbn [negb]. destruct (exchange _) as [text|[[status ra] body]] eqn:Hx.
  { intros [= <- <-]. cbn. split_and!; try done. split; [done|by intros [_ []]]. }
  destruct (Z.eqb_spec status 200) as [->|Hs]; cbn [negb].
  { destruct (decode_response body); [|done]. intros [= <- <-]. cbn. split_and!; try done. split; [done|by intros [_ []]]. }
  intros [= <- <-]. split_and!; [done..| |].
  - unfold api_error, provider_failure. destruct (contextOverflow status body); cbn; [tauto|].
    destruct (transientStatus status); cbn; [|tauto]. destruct (parseRetryAfter _ _); cbn; split; [done| |done|]; by intros (_ & _ & [|]).
  - intros d. unfold api_error, provider_failure. destruct (contextOverflow status body); cbn; [done|].
    destruct (transientStatus status); cbn; [|done]. destruct (parseRetryAfter ra now) as [x|] eqn:Er; [|done]. cbn. intros [= <-].
    split; [done|]. by apply parseRetryAfter_bounds in Er.
Qed.

(** A request is the same bytes whatever the order Go ranges a map in, so
    that a prefix the provider has cached is found again. *)
Theorem request_repeatable {GQ : AgentTurn.GoQuote} c p reads order req :
  (∀ l, order l ≡ₚ map_order reads l) →
  buildRequest c p (mkReads (read_conversation reads) (read_memory reads) (read_tasks reads) order) req = buildRequest c p reads req.
Proof.
  intros Ho. unfold buildRequest. cbn [read_conversation read_memory read_tasks map_order]. destruct (negb (Ready c)); [done|].
  destruct (conversation _ _); [done|]. destruct (ToolDefinitions _ _ _) as [[tools missing] backgrounds]. cbv zeta.
  by rewrite (prompt_perm _ _ _ c p (Ho (DefName <$> tools))).
Qed.

(** ** An overloaded API *)

#[local] Existing Instance team_quote.

#[local] Instance plain_lib : AnthropicLib :=
  mkLib (λ body, if String.eqb body "" then None else Some ("overloaded_error", body)) (λ _, inl "no") (λ _, "") (λ s, s) (λ _, None).

Definition overloaded (_ : anthropicRequest) : string + (Z * string * string) := inr (529, " 30 ", "Overloaded").

Lemma failures_told_witness :
  match CallLLM late_catalog (mkPrompts ∅ "") late_reads 0 (Chat "m" 0 overloaded) late_request with
  | (inl e, Some r) => AeDelay e = Some (30 * second) ∧ AeRetried e = true ∧ 0 < 30 * second ≤ 2 * minute
  | _ => False
  end.
Proof.
  destruct (CallLLM late_catalog (mkPrompts ∅ "") late_reads 0 (Chat "m" 0 overloaded) late_request) as [[e|resp] sent] eqn:Hc.
  2:{ apply (f_equal (λ x, match x.1 with inl _ => true | inr _ => false end)) in Hc. vm_compute in Hc. discriminate Hc. }
  destruct sent as [r'|]; [|apply (f_equal snd) in Hc; vm_compute in Hc; discriminate Hc].
  assert (Hd : AeDelay e = Some (30 * second)).
  { apply (f_equal (λ x, match x.1 with inl e => AeDelay e | inr _ => None end)) in Hc. cbn [fst] in Hc. rewrite <- Hc. vm_compute. reflexivity. }
  destruct late_built as [e0|[r memory]] eqn:Hb.
  { apply (f_equal (λ x, match x with inl _ => true | inr _ => false end)) in Hb. vm_compute in Hb. discriminate Hb. }
  destruct (failures_told late_catalog (mkPrompts ∅ "") late_reads 0 "m" 0 overloaded late_request r memory e (Some r') Hb ltac:(vm_compute; reflexivity) Hc)
    as (_ & _ & _ & Hw).
  split; [exact Hd|]. exact (Hw _ Hd).
Defined.

Lemma request_repeatable_witness :
  buildRequest late_catalog (mkPrompts ∅ "") (mkReads (read_conversation late_reads) (read_memory late_reads) (read_tasks late_reads) (@rev string)) late_request
  = late_built.
Proof.
  apply (request_repeatable late_catalog (mkPrompts ∅ "") late_reads (@rev string) late_request). intros l. cbn. symmetry. apply Permutation_rev.
Defined.
