(* ===== verification/LLMHandoff.v ===== *)
(** * A call to the model handed to a machine, and the machines' tables

    [CallLLMOnMachine] (LLMCall.v) against the directives' life (Lifecycle.v). *)

From S2P Require Import Prelude GoStr Json Table MachineMessage MachineData Directives Machines MachineTables Lifecycle AgentData AgentLLM Catalog CatalogRun Prompt LLMCall LLMAccepted.
Open Scope string_scope.
Open Scope Z_scope.
Open Scope list_scope.

Lemma may_step_ended b : may_step Ended b → b = Ended.
Proof. intros [->|H]; [done|]. by inversion H. Qed.

Lemma may_step_some a b : may_step a b → a ≠ Absent → b ≠ Absent.
Proof. intros [->|H]; [done|]. by inversion H. Qed.

(** A directive never leaves the tables. *)
Lemma star_phase id db db' : mdb_ok db → star table_step db db' → mdb_ok db' ∧ (phase_of id db ≠ Absent → phase_of id db' ≠ Absent).
Proof.
  intros Hok Hs. induction Hs as [db|db db1 db' (now & op & Hv & ->) _ IH]; [by split|].
  destruct (phase_steps now op db id Hok Hv) as [Hm _]. destruct IH as [H1 H2]; [by apply apply_op_ok|].
  split; [done|]. intros Hp. apply H2. by apply (may_step_some (phase_of id db)).
Qed.

Lemma close_ends now id state err db : closing state = true → phase_of id db ≠ Absent →
  phase_of id (CloseDirective now id state err db).2 = Ended.
Proof.
  intros Hc Hp. unfold phase_of in *. unfold CloseDirective. cbn [snd]. unfold with_directives. cbn [directives].
  rewrite (update_get (open_row id) _ _ id (keeps_dir _ (set_closed_keeps_call now state err))).
  destruct (get id (directives db)) as [d|] eqn:Hd; [|done]. cbn. apply get_some in Hd as [_ Hk].
  destruct (open_row id d) eqn:Ho; [by apply phase_closed|]. unfold open_row in Ho. unfold has_key in Ho.
  rewrite Hk, String.eqb_refl in Ho. unfold Open in Ho. unfold phase_of_row.
  destruct (String.eqb (DirState d) DirectiveReserved); [done|]. by destruct (String.eqb (DirState d) DirectiveRunning).
Qed.


#[local] Existing Instance team_quote.

Definition away (_ _ : string) (t : MDB) : option handoff_error * MDB := (Some (GatewayAway "503"), t).

Definition alice_attempt : Attempt := mkAttempt "d9" "w9" "r9" "act9" "tok9" 900 110 60.

Definition alice_call : MachineCall := mkMachineCall (mkRequest "" "jarvis" "alice" [] (mkPrompt "" "" "" "" []) [] None) "m1" 0 1.

Definition away_call : option ActivityError * MDB :=
  CallLLMOnMachine late_catalog (mkPrompts ∅ "") late_reads 0 (λ _, "") true away alice_attempt alice_call demo_db.

Example away_call_error :
  match away_call.1 with Some e => AeRetried e = false ∧ hasErrorType (AeErr e) ErrTypeHandoffFailed = true | None => False end ∧
  DirState <$> get "d9" (directives away_call.2) = Some DirectiveFailed.
Proof. vm_compute. done. Qed.

