(* ===== verification/Password.v ===== *)
(** * Passwords (src/auth/password.go)

    A password is kept as its argon2id hash, in the PHC format, with the
    parameters it was made with. The hash function is a parameter. *)

From S2P Require Import Prelude GoStr Utf8.
Open Scope string_scope.
Open Scope Z_scope.
Open Scope list_scope.

Definition MinPasswordLength : Z := 10.

Definition argonMemory : Z := 64 * 1024.
Definition argonTime : Z := 2.
Definition argonThreads : Z := 2.
Definition argonKeyLen : Z := 32.
Definition argonSaltLen : Z := 16.

(** [[]rune(s)]: an invalid byte is a rune too. *)
Fixpoint rune_count_loop (fuel : nat) (s : string) : Z :=
  match fuel, s with
  | S fuel, String _ _ => 1 + rune_count_loop fuel (drop_str (snd (decode_rune s)) s)
  | _, _ => 0
  end.

Definition rune_count (s : string) : Z := rune_count_loop (String.length s) s.

Definition CheckPasswordPolicy (password : string) : option string :=
  if rune_count password <? MinPasswordLength then
    Some ("le mot de passe doit faire au moins " +:+ itoa MinPasswordLength +:+ " caractères")
  else None.

(** ** base64.RawStdEncoding *)

Definition b64_char (v : Z) : ascii :=
  byte (if v <? 26 then 65 + v else if v <? 52 then 71 + v else if v <? 62 then v - 4 else if v =? 62 then 43 else 47).

Definition b64_value (c : ascii) : option Z :=
  let b := byte_of c in
  if (65 <=? b) && (b <=? 90) then Some (b - 65)
  else if (97 <=? b) && (b <=? 122) then Some (b - 71)
  else if (48 <=? b) && (b <=? 57) then Some (b + 4)
  else if b =? 43 then Some 62
  else if b =? 47 then Some 63
  else None.

Fixpoint b64_encode (s : string) : string :=
  match s with
  | "" => ""
  | String a "" => String (b64_char (byte_of a / 4)) (String (b64_char (byte_of a mod 4 * 16)) "")
  | String a (String b "") =>
      String (b64_char (byte_of a / 4)) (String (b64_char (byte_of a mod 4 * 16 + byte_of b / 16)) (String (b64_char (byte_of b mod 16 * 4)) ""))
  | String a (String b (String c s)) =>
      String (b64_char (byte_of a / 4)) (String (b64_char (byte_of a mod 4 * 16 + byte_of b / 16))
        (String (b64_char (byte_of b mod 16 * 4 + byte_of c / 64)) (String (b64_char (byte_of c mod 64)) (b64_encode s))))
  end.

(** Line ends are skipped; the bits past the last byte are not looked at. *)
Fixpoint b64_values (s : string) : option (list Z) :=
  match s with
  | "" => Some []
  | String c s =>
      if (byte_of c =? 10) || (byte_of c =? 13) then b64_values s
      else match b64_value c, b64_values s with Some v, Some l => Some (v :: l) | _, _ => None end
  end.

Fixpoint b64_bytes (l : list Z) : option string :=
  match l with
  | [] => Some ""
  | [_] => None
  | [a; b] => Some (String (byte (a * 4 + b / 16)) "")
  | [a; b; c] => Some (String (byte (a * 4 + b / 16)) (String (byte (b mod 16 * 16 + c / 4)) ""))
  | a :: b :: c :: d :: l =>
      match b64_bytes l with
      | Some s => Some (String (byte (a * 4 + b / 16)) (String (byte (b mod 16 * 16 + c / 4)) (String (byte (c mod 4 * 64 + d)) s)))
      | None => None
      end
  end.

Definition b64_decode (s : string) : option string := match b64_values s with Some l => b64_bytes l | None => None end.

(** ** fmt.Sscanf, of literals and %d *)

(** Spaces before a number; a line end is an error there. *)
Fixpoint skip_space (fuel : nat) (s : string) : option string :=
  match fuel, s with
  | S fuel, String _ _ =>
      let '(r, n) := decode_rune s in
      if r =? 10 then None else if is_space r then skip_space fuel (drop_str n s) else Some s
  | _, _ => Some s
  end.

(** The longest run of digits, and what follows. *)
Fixpoint take_digits (s : string) : string * string :=
  match s with
  | String c r => if is_digit c then let '(ds, rest) := take_digits r in (String c ds, rest) else ("", s)
  | "" => ("", "")
  end.

(** [%d] into an unsigned integer of [bits] bits. *)
Definition scan_uint (bits : Z) (s : string) : option (Z * string) :=
  match skip_space (String.length s) s with
  | None => None
  | Some s =>
      let '(ds, rest) := take_digits s in
      match parse_uint ds with
      | Some v => if v <? 2 ^ bits then Some (v, rest) else None
      | None => None
      end
  end.

(** [%d] into an [int]. *)
Definition scan_int (s : string) : option (Z * string) :=
  match skip_space (String.length s) s with
  | None => None
  | Some s =>
      let '(sign, s) :=
        match s with
        | String c r => if Ascii.eqb c "-" || Ascii.eqb c "+" then (String c "", r) else ("", s)
        | "" => ("", s)
        end in
      let '(ds, rest) := take_digits s in
      if String.eqb ds "" then None else match parse_int64 (sign +:+ ds) with Some v => Some (v, rest) | None => None end
  end.

(** [Sscanf(s, "v=%d", &version)]; what follows is not read. *)
Definition scan_version (s : string) : option Z :=
  match cut_prefix "v=" s with Some s => fst <$> scan_int s | None => None end.

(** [Sscanf(s, "m=%d,t=%d,p=%d", &memory, &time, &threads)]. *)
Definition scan_params (s : string) : option (Z * Z * Z) :=
  match cut_prefix "m=" s with
  | None => None
  | Some s =>
      match scan_uint 32 s with
      | None => None
      | Some (memory, s) =>
          match cut_prefix ",t=" s with
          | None => None
          | Some s =>
              match scan_uint 32 s with
              | None => None
              | Some (t, s) =>
                  match cut_prefix ",p=" s with
                  | None => None
                  | Some s => match scan_uint 8 s with Some (threads, _) => Some (memory, t, threads) | None => None end
                  end
              end
          end
      end
  end.

(** ** Hashes *)

(** golang.org/x/crypto/argon2: the key of a password, a salt, a number of
    passes, a memory, threads and a length; its version. *)
Class Argon2 := mkArgon2 { IDKey : string → string → Z → Z → Z → Z → string; argon2Version : Z }.

Section Hash.
Context `{Argon2}.

Definition HashPassword (salt password : string) : string :=
  let key := IDKey password salt argonTime argonMemory argonThreads argonKeyLen in
  "$argon2id$v=" +:+ itoa argon2Version +:+ "$m=" +:+ itoa argonMemory +:+ ",t=" +:+ itoa argonTime +:+ ",p=" +:+ itoa argonThreads +:+
  "$" +:+ b64_encode salt +:+ "$" +:+ b64_encode key.

(** Whether it matches; [None] is a malformed hash. *)
Definition VerifyPassword (password encoded : string) : option bool :=
  match split_byte "$" encoded with
  | [_; kind; version; params; salt; want] =>
      if negb (String.eqb kind "argon2id") then None
      else
        match scan_version version with
        | None => None
        | Some v =>
            if negb (v =? argon2Version) then None
            else
              match scan_params params, b64_decode salt, b64_decode want with
              | Some (memory, t, threads), Some salt, Some want => Some (String.eqb (IDKey password salt t memory threads (len want)) want)
              | _, _, _ => None
              end
        end
  | _ => None
  end.
End Hash.

(** ** base64 round trips *)

Lemma b64_value_char v : 0 ≤ v < 64 → b64_value (b64_char v) = Some v ∧ (byte_of (b64_char v) =? 10) || (byte_of (b64_char v) =? 13) = false.
Proof.
  intros Hv. unfold b64_value, b64_char. cbv zeta.
  destruct (Z.ltb_spec v 26); [|destruct (Z.ltb_spec v 52); [|destruct (Z.ltb_spec v 62); [|destruct (Z.eqb_spec v 62)]]];
    rewrite byte_of_byte by lia; (split; [|lia]).
  all: repeat match goal with |- context [if ?b then _ else _] => let E := fresh in destruct b eqn:E end; f_equal; lia.
Qed.

Lemma b64_values_char v s : 0 ≤ v < 64 → b64_values (String (b64_char v) s) = match b64_values s with Some l => Some (v :: l) | None => None end.
Proof. intros Hv. destruct (b64_value_char v Hv) as [H1 H2]. cbn [b64_values]. by rewrite H2, H1. Qed.

Lemma byte_join c z : z = byte_of c → byte z = c.
Proof. intros ->. apply byte_byte_of. Qed.

Lemma string_ind3 (P : string → Prop) :
  P "" → (∀ a, P (String a "")) → (∀ a b, P (String a (String b ""))) → (∀ a b c s, P s → P (String a (String b (String c s)))) → ∀ s, P s.
Proof.
  intros H0 H1 H2 H3. fix IH 1. intros s. destruct s as [|a [|b [|c s]]]; [exact H0|apply H1|apply H2|apply H3, IH].
Qed.

Lemma div_mod_bounds n m : 0 < m → 0 ≤ n mod m < m ∧ n = n / m * m + n mod m.
Proof. intros Hm. pose proof (Z.mod_pos_bound n m Hm). pose proof (Z.div_mod n m). lia. Qed.

(** A byte's parts, of two, four or six bits. *)
Lemma byte_parts a : 0 ≤ byte_of a < 256 ∧
  (0 ≤ byte_of a mod 4 < 4 ∧ byte_of a = byte_of a / 4 * 4 + byte_of a mod 4) ∧
  (0 ≤ byte_of a mod 16 < 16 ∧ byte_of a = byte_of a / 16 * 16 + byte_of a mod 16) ∧
  (0 ≤ byte_of a mod 64 < 64 ∧ byte_of a = byte_of a / 64 * 64 + byte_of a mod 64).
Proof. split; [apply byte_of_range|]. split_and!; apply div_mod_bounds; lia. Qed.

Lemma b64_roundtrip s : b64_decode (b64_encode s) = Some s.
Proof.
  unfold b64_decode. enough (H : ∃ l, b64_values (b64_encode s) = Some l ∧ b64_bytes l = Some s) by (by destruct H as (l & -> & ->)).
  induction s as [|a|a b|a b c s IH] using string_ind3.
  - by exists [].
  - exists [byte_of a / 4; byte_of a mod 4 * 16]. pose proof (byte_parts a).
    cbn [b64_encode]. rewrite !b64_values_char by lia. split; [done|]. cbn [b64_bytes].
    rewrite Z.div_mul by lia. rewrite (byte_join a) by lia. done.
  - exists [byte_of a / 4; byte_of a mod 4 * 16 + byte_of b / 16; byte_of b mod 16 * 4].
    pose proof (byte_parts a). pose proof (byte_parts b).
    cbn [b64_encode]. rewrite !b64_values_char by lia. split; [done|]. cbn [b64_bytes].
    rewrite (Z.div_add_l _ 16), (Z.add_comm (_ * 16) (byte_of b / 16)), Z_mod_plus_full, Z.div_mul by lia.
    rewrite (Z.div_small (byte_of b / 16)), (Z.mod_small (byte_of b / 16)) by lia.
    rewrite (byte_join a), (byte_join b) by lia. done.
  - destruct IH as (l & H1 & H2).
    exists (byte_of a / 4 :: byte_of a mod 4 * 16 + byte_of b / 16 :: byte_of b mod 16 * 4 + byte_of c / 64 :: byte_of c mod 64 :: l).
    pose proof (byte_parts a). pose proof (byte_parts b). pose proof (byte_parts c).
    cbn [b64_encode]. rewrite !b64_values_char, H1 by lia. split; [done|]. cbn [b64_bytes]. rewrite H2.
    rewrite (Z.div_add_l _ 16), (Z.add_comm (_ * 16) (byte_of b / 16)), Z_mod_plus_full by lia.
    rewrite (Z.div_add_l _ 4), (Z.add_comm (_ * 4) (byte_of c / 64)), Z_mod_plus_full by lia.
    rewrite (Z.div_small (byte_of b / 16)), (Z.mod_small (byte_of b / 16)), (Z.div_small (byte_of c / 64)), (Z.mod_small (byte_of c / 64)) by lia.
    rewrite (byte_join a), (byte_join b), (byte_join c) by lia. done.
Qed.

Lemma b64_no_dollar s : has_byte "$" (b64_encode s) = false.
Proof.
  assert (Hc : ∀ v, 0 ≤ v < 64 → Ascii.eqb (b64_char v) "$" = false).
  { intros v Hv. apply Ascii.eqb_neq. intros E. destruct (b64_value_char v Hv) as [H _]. by rewrite E in H. }
  induction s as [|a|a b|a b c s IH] using string_ind3; cbn [b64_encode has_byte]; [done|..];
    pose proof (byte_parts a); try pose proof (byte_parts b); try pose proof (byte_parts c); rewrite !Hc, ?IH by lia; done.
Qed.

(** ** What is read back of a hash *)

Lemma decode_digit c s : is_digit c = true → decode_rune (String c s) = (byte_of c, 1%nat).
Proof. unfold is_digit. intros H. bool_to_prop. unfold decode_rune. destruct (Z.ltb_spec (byte_of c) 128); [done|lia]. Qed.

Lemma skip_digit c s n : is_digit c = true → skip_space n (String c s) = Some (String c s).
Proof.
  intros Hc. destruct n as [|n]; [done|]. cbn [skip_space]. rewrite decode_digit by done. unfold is_digit in Hc. bool_to_prop.
  destruct (Z.eqb_spec (byte_of c) 10); [lia|]. assert (is_space (byte_of c) = false) as ->; [|done]. unfold is_space. lia.
Qed.

Lemma take_digits_app ds s : all_digits ds = true → (match s with String c _ => is_digit c = false | "" => True end) → take_digits (ds +:+ s) = (ds, s).
Proof.
  intros Hd Hs. induction ds as [|c ds IH]; cbn in *.
  - destruct s as [|c s]; [done|]. cbn. by rewrite Hs.
  - apply andb_true_iff in Hd as [Hc Hd]. rewrite Hc. by rewrite IH.
Qed.

Lemma scan_uint_itoa bits z s : 0 ≤ z < 2 ^ bits → z ≤ uint64_max → (match s with String c _ => is_digit c = false | "" => True end) →
  scan_uint bits (itoa z +:+ s) = Some (z, s).
Proof.
  intros Hz Hm Hs. destruct (itoa_digits z) as [Hd Hne]; [lia|]. unfold scan_uint.
  assert (Hskip : ∀ n, skip_space n (itoa z +:+ s) = Some (itoa z +:+ s)).
  { intros n. destruct (itoa z) as [|c ds]; [done|]. cbn in Hd. apply andb_true_iff in Hd as [Hc _]. by apply skip_digit. }
  rewrite Hskip, take_digits_app by done. unfold parse_uint, parse_digits. rewrite (proj2 (String.eqb_neq _ _) Hne), Hd, itoa_value by lia.
  cbn [negb andb]. rewrite (proj2 (Z.leb_le _ _) Hm). destruct (Z.ltb_spec z (2 ^ bits)); [done|lia].
Qed.

Lemma scan_int_itoa z : 0 ≤ z ≤ int64_max → scan_int (itoa z) = Some (z, "").
Proof.
  intros Hz. destruct (itoa_digits z) as [Hd Hne]; [lia|]. pose proof (itoa_value z ltac:(lia)) as Hv. unfold scan_int.
  destruct (itoa z) as [|c ds] eqn:E; [done|]. pose proof Hd as Hd'. cbn in Hd. apply andb_true_iff in Hd as [Hc Hd].
  rewrite skip_digit by done.
  assert (Hsign : Ascii.eqb c "-" || Ascii.eqb c "+" = false).
  { apply orb_false_iff. split; apply Ascii.eqb_neq; intros ->; done. }
  rewrite Hsign. pose proof (take_digits_app (String c ds) "" Hd' I) as Ht. rewrite app_nil_r_str in Ht. rewrite Ht.
  cbn [String.eqb String.append]. unfold parse_int64. apply orb_false_iff in Hsign as [-> ->]. unfold parse_digits.
  rewrite Hd', Hv. cbn [negb andb String.eqb]. by rewrite (proj2 (Z.leb_le _ _) (proj2 Hz)).
Qed.

Section Roundtrip.
Context `{Argon2}.

Lemma split_none s : has_byte "$" s = false → split_byte "$" s = [s].
Proof. induction s as [|c s IH]; [done|]. cbn. intros [Hc Hs]%orb_false_iff. by rewrite Hc, IH. Qed.

Lemma hash_parts salt password : 0 ≤ argon2Version →
  split_byte "$" (HashPassword salt password) =
  [""; "argon2id"; "v=" +:+ itoa argon2Version; "m=" +:+ itoa argonMemory +:+ ",t=" +:+ itoa argonTime +:+ ",p=" +:+ itoa argonThreads;
   b64_encode salt; b64_encode (IDKey password salt argonTime argonMemory argonThreads argonKeyLen)].
Proof.
  intros Hv. unfold HashPassword. set (key := b64_encode (IDKey _ _ _ _ _ _)).
  set (ver := "v=" +:+ itoa argon2Version). set (par := "m=" +:+ itoa argonMemory +:+ ",t=" +:+ itoa argonTime +:+ ",p=" +:+ itoa argonThreads).
  assert (E : "$argon2id$v=" +:+ itoa argon2Version +:+ "$m=" +:+ itoa argonMemory +:+ ",t=" +:+ itoa argonTime +:+ ",p=" +:+ itoa argonThreads +:+
    "$" +:+ b64_encode salt +:+ "$" +:+ key =
    "" +:+ String "$" ("argon2id" +:+ String "$" (ver +:+ String "$" (par +:+ String "$" (b64_encode salt +:+ String "$" key))))).
  { unfold ver, par. rewrite !app_assoc_str. reflexivity. }
  rewrite E, !split_byte_app. rewrite (split_none (b64_encode salt)), (split_none key) by apply b64_no_dollar.
  assert (Hver : has_byte "$" ver = false) by (unfold ver; rewrite has_byte_app; cbn; by apply itoa_no_byte).
  by rewrite (split_none ver).
Qed.

(** A password's hash verifies that password, whatever the salt, and any
    other exactly when argon2 makes the same key of both: the parameters, the
    salt and the key are read back as they were written. *)
Theorem password_roundtrip salt password other :
  0 ≤ argon2Version ≤ int64_max → (∀ p s, len (IDKey p s argonTime argonMemory argonThreads argonKeyLen) = argonKeyLen) →
  let key p := IDKey p salt argonTime argonMemory argonThreads argonKeyLen in
  VerifyPassword other (HashPassword salt password) = Some (bool_decide (key other = key password)).
Proof.
  intros Hv Hlen. cbv zeta. unfold VerifyPassword. rewrite hash_parts by lia.
  rewrite (proj2 (String.eqb_eq "argon2id" "argon2id") eq_refl). cbn [negb]. unfold scan_version. rewrite cut_prefix_app, scan_int_itoa by done.
  cbn [fmap option_fmap option_map fst]. rewrite Z.eqb_refl. cbn [negb].
  assert (Hp : scan_params ("m=" +:+ itoa argonMemory +:+ ",t=" +:+ itoa argonTime +:+ ",p=" +:+ itoa argonThreads) = Some (argonMemory, argonTime, argonThreads))
    by (vm_compute; reflexivity).
  rewrite Hp, !b64_roundtrip, Hlen. f_equal. apply eq_true_iff_eq. by rewrite String.eqb_eq, bool_decide_eq_true.
Qed.
End Roundtrip.

(** Two keys only. *)
#[local] Instance plain_argon : Argon2 :=
  mkArgon2 (λ p _ _ _ _ _, if String.eqb p "correct horse" then "11111111111111111111111111111111" else "22222222222222222222222222222222") 19.

Lemma password_roundtrip_witness :
  VerifyPassword "correct horse" (HashPassword "0123456789abcdef" "correct horse") = Some true ∧
  VerifyPassword "wrong" (HashPassword "0123456789abcdef" "correct horse") = Some false.
Proof.
  assert (Hlen : ∀ p s, len (IDKey p s argonTime argonMemory argonThreads argonKeyLen) = argonKeyLen).
  { intros p s. unfold IDKey, plain_argon. by destruct (String.eqb p "correct horse"). }
  assert (Hv : 0 ≤ argon2Version ≤ int64_max) by (vm_compute; split; discriminate).
  split; [exact (password_roundtrip "0123456789abcdef" "correct horse" "correct horse" Hv Hlen)|].
  exact (password_roundtrip "0123456789abcdef" "correct horse" "wrong" Hv Hlen).
Defined.
