(* ===== verification/Users.v ===== *)
(** * Users and their logins (src/store/users.go, src/auth/service.go)

    Users, the sessions of their logins, and the service that logs them in and
    finds the user of a request. Each operation of the store is one statement
    or one transaction; one that fails leaves the tables as they were. *)

From S2P Require Import Prelude GoStr Utf8 Table Throttle Password.
Open Scope string_scope.
Open Scope Z_scope.
Open Scope list_scope.

(** ** Data (src/store/session.go) *)

Definition UserRoleAdmin : string := "admin".
Definition UserRoleStandard : string := "user".

Record User := mkUser {
  UserID : string;
  Email : string;
  DisplayName : string;
  PasswordHash : string;
  Role : string;
  TelegramID : option Z;
  DisabledAt : option time;
  CreatedAt : time
}.

#[export] Instance user_key : Keyed User := UserID.

Definition UserName (u : User) : string := if negb (String.eqb (DisplayName u) "") then DisplayName u else Email u.
Definition IsAdmin (u : User) : bool := String.eqb (Role u) UserRoleAdmin.

(** A row of [login_sessions]. *)
Record LoginSession := mkLogin { TokenHash : string; LoginUser : string; LoginExpires : time }.

#[export] Instance login_key : Keyed LoginSession := TokenHash.

Record UDB := mkUDB { users : list User; logins : list LoginSession }.

Definition noUsers : UDB := mkUDB [] [].

Inductive UserError := ErrUserExists | ErrUserNotFound | ErrUserSQL.

(** A result and the tables after it. *)
Abbreviation outcome A := ((UserError + A) * UDB)%type (only parsing).

(** Postgres's [lower()], and the order its collation gives texts. *)
Class PGLower := mkPGLower { lower : string → string; collate : string → string → bool }.

Section Store.
Context `{PGLower}.

(** ** The users' table *)

(** [CHECK (role IN ('admin', 'user'))]. *)
Definition role_ok (role : string) : bool := String.eqb role UserRoleAdmin || String.eqb role UserRoleStandard.

(** The unique indexes on [lower(email)] and on [telegram_id], whose NULLs
    differ. *)
Definition same_email (email : string) (u : User) : bool := String.eqb (lower (Email u)) (lower email).
Definition same_telegram (id : option Z) (u : User) : bool :=
  match id, TelegramID u with Some a, Some b => a =? b | _, _ => false end.

Definition CreateUser (now : time) (u : User) (db : UDB) : outcome unit :=
  let email := trim_space (Email u) in
  if negb (role_ok (Role u)) then (inl ErrUserSQL, db)
  else if existsb (λ x, has_key (UserID u) x || same_email email x || same_telegram (TelegramID u) x) (users db) then (inl ErrUserExists, db)
  else
    (inr tt, mkUDB (users db ++ [mkUser (UserID u) email (DisplayName u) (PasswordHash u) (Role u) (TelegramID u) None now]) (logins db)).

Definition GetUser (id : string) (db : UDB) : option User := get id (users db).

Definition GetUserByEmail (email : string) (db : UDB) : option User := List.find (same_email (trim_space email)) (users db).

Definition GetUserByTelegramID (id : Z) (db : UDB) : option User := List.find (same_telegram (Some id)) (users db).

(** ORDER BY lower(email). *)
Definition ListUsers (db : UDB) : list User := sort_stable (λ a b, collate (lower (Email a)) (lower (Email b))) (users db).

Definition set_profile (u x : User) : User :=
  mkUser (UserID x) (trim_space (Email u)) (DisplayName u) (PasswordHash x) (Role u) (TelegramID u) (DisabledAt x) (CreatedAt x).
Definition set_password (hash : string) (x : User) : User :=
  mkUser (UserID x) (Email x) (DisplayName x) hash (Role x) (TelegramID x) (DisabledAt x) (CreatedAt x).
Definition set_disabled (now : time) (disabled : bool) (x : User) : User :=
  mkUser (UserID x) (Email x) (DisplayName x) (PasswordHash x) (Role x) (TelegramID x)
    (if disabled then Some (default now (DisabledAt x)) else None) (CreatedAt x).

Definition with_users (db : UDB) (l : list User) : UDB := mkUDB l (logins db).
Definition with_logins (db : UDB) (l : list LoginSession) : UDB := mkUDB (users db) l.

Definition UpdateUser (u : User) (db : UDB) : outcome unit :=
  if (affected (has_key (UserID u)) (users db) =? 0)%nat then (inl ErrUserNotFound, db)
  else if negb (role_ok (Role u)) then (inl ErrUserSQL, db)
  else if existsb (λ x, negb (has_key (UserID u) x) && (same_email (trim_space (Email u)) x || same_telegram (TelegramID u) x)) (users db)
  then (inl ErrUserExists, db)
  else (inr tt, with_users db (update_where (has_key (UserID u)) (set_profile u) (users db))).

Definition of_user (id : string) (l : LoginSession) : bool := String.eqb (LoginUser l) id.

Definition end_logins (id : string) (db : UDB) : UDB := with_logins db (List.filter (λ l, negb (of_user id l)) (logins db)).

Definition SetUserPassword (id hash : string) (db : UDB) : outcome unit :=
  if (affected (has_key id) (users db) =? 0)%nat then (inl ErrUserNotFound, db)
  else (inr tt, end_logins id (with_users db (update_where (has_key id) (set_password hash) (users db)))).

Definition SetUserDisabled (now : time) (id : string) (disabled : bool) (db : UDB) : outcome unit :=
  if (affected (has_key id) (users db) =? 0)%nat then (inl ErrUserNotFound, db)
  else
    let db := with_users db (update_where (has_key id) (set_disabled now disabled) (users db)) in
    (inr tt, if disabled then end_logins id db else db).

(** ** Logins *)

(** The user is one of the table, the hash new. *)
Definition CreateLoginSession (hash userID : string) (expires : time) (db : UDB) : outcome unit :=
  match get hash (logins db), get userID (users db) with
  | None, Some _ => (inr tt, with_logins db (logins db ++ [mkLogin hash userID expires]))
  | _, _ => (inl ErrUserSQL, db)
  end.

Definition GetLoginSessionUser (now : time) (hash : string) (db : UDB) : option User :=
  match get hash (logins db) with
  | Some l =>
      if now <? LoginExpires l then
        match get (LoginUser l) (users db) with
        | Some u => if is_none (DisabledAt u) then Some u else None
        | None => None
        end
      else None
  | None => None
  end.

Definition DeleteLoginSession (hash : string) (db : UDB) : UDB :=
  with_logins db (List.filter (λ l, negb (has_key hash l)) (logins db)).
End Store.

(** ** The service *)

Definition SessionTTL : Z := 30 * 24 * hour.

Inductive AuthError := ErrInvalidCredentials | ErrTooManyAttempts | ErrStore.

(** sha256, in hexadecimal. *)
Class TokenHashing := hashToken : string → string.

Section Service.
Context `{PGLower} `{Argon2} `{TokenHashing} (ToLower : string → string) (dummyHash : string).

(** What a login makes of the limits and of the user it names. [VerifyPassword]
    answers false with its error. *)
Definition Authenticate (now : time) (client email password : string) (limits : option LoginLimits) (db : UDB) :
    (AuthError + User) * option LoginLimits :=
  let '(blocked, limits) := LoginBlocked ToLower now client email limits in
  if blocked then (inl ErrTooManyAttempts, limits)
  else
    let u := GetUserByEmail email db in
    let hash := match u with Some u => PasswordHash u | None => dummyHash end in
    let ok := default false (VerifyPassword password hash) in
    match u with
    | Some u =>
        if negb ok || negb (is_none (DisabledAt u)) then (inl ErrInvalidCredentials, LoginFail ToLower now client email limits)
        else (inr u, LoginSucceed ToLower email limits)
    | None => (inl ErrInvalidCredentials, LoginFail ToLower now client email limits)
    end.

(** [token] is what [newToken] drew. *)
Definition StartSession (now : time) (token : string) (u : User) (db : UDB) : (AuthError + string) * UDB :=
  match CreateLoginSession (hashToken token) (UserID u) (now + SessionTTL) db with
  | (inl _, db) => (inl ErrStore, db)
  | (inr _, db) => (inr token, db)
  end.

Definition Login (now : time) (client email password token : string) (limits : option LoginLimits) (db : UDB) :
    (AuthError + string * User) * option LoginLimits * UDB :=
  match Authenticate now client email password limits db with
  | (inl e, limits) => (inl e, limits, db)
  | (inr u, limits) =>
      match StartSession now token u db with
      | (inl e, db) => (inl e, limits, db)
      | (inr token, db) => (inr (token, u), limits, db)
      end
  end.

(** A request's cookie, if it has one. *)
Definition Logout (cookie : option string) (db : UDB) : UDB :=
  match cookie with Some c => DeleteLoginSession (hashToken c) db | None => db end.

Definition UserFromRequest (now : time) (cookie : option string) (db : UDB) : option User :=
  match cookie with
  | None => None
  | Some c => if String.eqb c "" then None else GetLoginSessionUser now (hashToken c) db
  end.
End Service.

(** ** Who a login token stands for

    The users' tables through any sequence of the store's operations: what
    keeps them well formed, and which tokens are a user's at a time. *)

Inductive user_op :=
| OpCreate (u : User)
| OpUpdate (u : User)
| OpPassword (id hash : string)
| OpDisable (id : string) (disabled : bool)
| OpStart (hash userID : string) (expires : time)
| OpLogout (hash : string).

Section Logins.
Context `{PGLower}.

Definition apply_user_op (now : time) (op : user_op) (db : UDB) : UDB :=
  match op with
  | OpCreate u => (CreateUser now u db).2
  | OpUpdate u => (UpdateUser u db).2
  | OpPassword id hash => (SetUserPassword id hash db).2
  | OpDisable id b => (SetUserDisabled now id b db).2
  | OpStart hash id expires => (CreateLoginSession hash id expires db).2
  | OpLogout hash => DeleteLoginSession hash db
  end.

Definition run (l : list (time * user_op)) : UDB := fold_left (λ db x, apply_user_op x.1 x.2 db) l noUsers.

Lemma run_snoc l x : run (l ++ [x]) = apply_user_op x.1 x.2 (run l).
Proof. unfold run. by rewrite fold_left_app. Qed.

(** ** Well-formed tables *)

Definition telegrams (l : list User) : list Z := omap TelegramID l.

Record profiles_ok (l : list User) : Prop := {
  po_users : keys_ok l;
  po_emails : NoDup ((λ u, lower (Email u)) <$> l);
  po_telegrams : NoDup (telegrams l);
  po_roles : Forall (λ u, role_ok (Role u) = true) l
}.

Record users_ok (db : UDB) : Prop := {
  uo_users : profiles_ok (users db);
  uo_logins : keys_ok (logins db);
  uo_login_users : ∀ l, l ∈ logins db → is_Some (get (LoginUser l) (users db))
}.

#[export] Instance keeps_profile u : KeepsKey (set_profile u).
Proof. by intros []. Qed.
#[export] Instance keeps_password hash : KeepsKey (set_password hash).
Proof. by intros []. Qed.
#[export] Instance keeps_disabled now b : KeepsKey (set_disabled now b).
Proof. by intros []. Qed.

Lemma get_users_update (f : User → User) `{!KeepsKey f} id id' l : is_Some (get id' (update_where (has_key id) f l)) ↔ is_Some (get id' l).
Proof. rewrite update_get by done. by rewrite fmap_is_Some. Qed.

(** The users a change of one leaves: the others, and it. *)
Lemma changed_users id l : keys_ok l → affected (has_key id) l ≠ 0%nat →
  ∃ l1 u l2, l = l1 ++ u :: l2 ∧ UserID u = id ∧ (∀ f, update_where (has_key id) f l = l1 ++ f u :: l2) ∧ (∀ x, x ∈ l1 ++ l2 → has_key id x = false).
Proof.
  intros Hk Ha. destruct (get id l) as [u|] eqn:Hu.
  - destruct (update_split l id u Hk Hu) as (l1 & l2 & E & Hoff). exists l1, u, l2. pose proof Hu as [_ Hid]%get_some.
    split_and!; try done. intros x Hx. destruct (has_key id x) eqn:Ex; [|done]. apply has_key_spec in Ex. exfalso. rewrite E in Hk. unfold keys_ok in Hk.
    rewrite <- Permutation_middle in Hk. cbn in Hk. apply NoDup_cons in Hk as [Hn _]. apply Hn. rewrite Hid, <- Ex. by apply list_elem_of_fmap_2.
  - exfalso. apply Ha. apply affected_spec. intros r Hr. destruct (has_key id r) eqn:E; [|done]. apply has_key_spec in E.
    apply get_none in Hu. exfalso. apply Hu. rewrite <- E. by apply list_elem_of_fmap_2.
Qed.

Lemma same_email_false email u : same_email email u = false ↔ lower (Email u) ≠ lower email.
Proof. unfold same_email. apply String.eqb_neq. Qed.

Lemma telegram_fresh id l : (∀ x, x ∈ l → same_telegram id x = false) → ∀ i, id = Some i → i ∉ telegrams l.
Proof.
  intros Hl i -> Hi. apply list_elem_of_omap in Hi as (x & Hx & Ht). specialize (Hl x Hx). unfold same_telegram in Hl. rewrite Ht in Hl.
  by rewrite Z.eqb_refl in Hl.
Qed.

#[export] Instance profiles_perm : Proper ((≡ₚ) ==> iff) profiles_ok.
Proof.
  assert (H1 : ∀ l l', l ≡ₚ l' → profiles_ok l → profiles_ok l').
  { intros l l' Hp [H1 H2 H3 H4]. unfold keys_ok, telegrams in *. split; unfold keys_ok, telegrams; by rewrite <- Hp. }
  intros l l' Hp. split; by apply H1.
Qed.

(** A user added to others, or changed among them, that takes nobody's email
    or Telegram ID. *)
Lemma fresh_user u l :
  profiles_ok l → (∀ x, x ∈ l → has_key (UserID u) x = false ∧ same_email (Email u) x = false ∧ same_telegram (TelegramID u) x = false) →
  role_ok (Role u) = true → profiles_ok (u :: l).
Proof.
  intros [Hk He Ht Hr] Hl Hrole. split.
  - unfold keys_ok. rewrite fmap_cons. apply NoDup_cons. split; [|done]. intros (x & E & Hx)%list_elem_of_fmap.
    destruct (Hl x Hx) as (H1 & _). apply not_true_iff_false in H1. apply H1, has_key_spec. by rewrite <- E.
  - rewrite fmap_cons. apply NoDup_cons. split; [|done]. intros (x & E & Hx)%list_elem_of_fmap.
    destruct (Hl x Hx) as (_ & H2 & _). by apply same_email_false in H2.
  - unfold telegrams. cbn. destruct (TelegramID u) as [i|] eqn:Ei; [|done]. apply NoDup_cons. split; [|done].
    apply (telegram_fresh (Some i)); [|done]. intros x Hx. by apply Hl.
  - by constructor.
Qed.

Lemma profiles_less u l : profiles_ok (u :: l) → profiles_ok l.
Proof.
  intros [Hk He Ht Hr]. unfold keys_ok, telegrams in *. cbn in *. apply NoDup_cons in Hk as [_ Hk], He as [_ He]. apply Forall_cons in Hr as [_ Hr].
  split; try done. unfold telegrams. destruct (TelegramID u); [by apply NoDup_cons in Ht as [_ ?]|done].
Qed.

Lemma profiles_same f l : (∀ u, UserID (f u) = UserID u ∧ Email (f u) = Email u ∧ TelegramID (f u) = TelegramID u ∧ Role (f u) = Role u) →
  profiles_ok l → ∀ id, profiles_ok (update_where (has_key id) f l).
Proof.
  intros Hf [Hk He Ht Hr] id.
  assert (Hg : ∀ {A} (g : User → A), (∀ u, g (f u) = g u) → g <$> update_where (has_key id) f l = g <$> l) by (intros A g; apply update_fmap).
  split.
  - unfold keys_ok. change (@row_key User user_key) with UserID. rewrite Hg by apply Hf. done.
  - rewrite Hg; [done|]. intros u. by destruct (Hf u) as (_ & -> & _).
  - assert (Hom : ∀ k, telegrams k = omap (λ x, x) (TelegramID <$> k)).
    { clear. unfold telegrams. induction k as [|u k IH]; [done|]. cbn. rewrite IH. by destruct (TelegramID u). }
    rewrite Hom, Hg, <- Hom by apply Hf. done.
  - assert (Hro : ∀ k, Forall (λ u, role_ok (Role u) = true) k ↔ Forall (λ r, role_ok r = true) (Role <$> k)) by (intros k; by rewrite Forall_fmap).
    rewrite Hro, Hg, <- Hro by apply Hf. done.
Qed.

Lemma existsb_none {A} (f : A → bool) l : existsb f l = false → ∀ x, x ∈ l → f x = false.
Proof. intros Hf x Hx. destruct (f x) eqn:E; [|done]. assert (existsb f l = true) as H1; [|by rewrite H1 in Hf]. apply existsb_exists. exists x. by rewrite <- list_elem_of_In. Qed.

Lemma logins_kept db l : (∀ id, is_Some (get id (users db)) → is_Some (get id l)) → users_ok db → profiles_ok l → users_ok (mkUDB l (logins db)).
Proof. intros Hl [H1 H2 H3] Hp. split; [done..|]. intros x Hx. cbn. by apply Hl, H3. Qed.

Lemma fewer_logins p db : users_ok db → users_ok (with_logins db (List.filter p (logins db))).
Proof. intros [H1 H2 H3]. split; [done|by apply keys_filter|]. intros l [Hl _]%elem_filter. by apply H3. Qed.

Lemma user_op_ok now op db : users_ok db → users_ok (apply_user_op now op db).
Proof.
  intros Hok. pose proof Hok as [Hp Hl Hlu]. destruct op as [u|u|id hash|id b|hash id ex|hash]; cbn [apply_user_op].
  - unfold CreateUser. cbv zeta. destruct (role_ok (Role u)) eqn:Er; [|done]. destruct (existsb _ (users db)) eqn:Ex; [done|]. cbn [negb snd].
    apply logins_kept; [|done|].
    + intros id Hs. rewrite get_snoc. by destruct (get id (users db)).
    + rewrite Permutation_app_comm. apply fresh_user; [done| |done]. intros x Hx. apply (existsb_none _ _ Ex) in Hx. cbn.
      by apply orb_false_iff in Hx as [[? ?]%orb_false_iff ?].
  - unfold UpdateUser. destruct (Nat.eqb_spec (affected (has_key (UserID u)) (users db)) 0); [done|].
    destruct (role_ok (Role u)) eqn:Er; [|done]. destruct (existsb _ (users db)) eqn:Ex; [done|]. cbn [negb snd].
    apply logins_kept; [intros id; by rewrite get_users_update|done|].
    destruct (changed_users (UserID u) (users db)) as (l1 & x & l2 & E & Hid & Hup & Hoff); [apply Hp|done|]. rewrite Hup.
    rewrite E in Hp. rewrite <- Permutation_middle in Hp |- *. apply fresh_user; [by eapply profiles_less| |done].
    intros y Hy. cbn. rewrite Hid. pose proof (Hoff y Hy) as Hk. split; [done|].
    assert (Hin : y ∈ users db) by (rewrite E; set_solver). apply (existsb_none _ _ Ex) in Hin. rewrite Hk in Hin. by apply orb_false_iff in Hin.
  - unfold SetUserPassword. destruct (_ =? 0)%nat; [done|]. cbn [snd]. apply fewer_logins.
    apply logins_kept; [intros i; by rewrite get_users_update|done|]. by apply profiles_same.
  - unfold SetUserDisabled. destruct (_ =? 0)%nat; [done|]. cbn [snd].
    assert (H1 : users_ok (with_users db (update_where (has_key id) (set_disabled now b) (users db)))).
    { apply logins_kept; [intros i; by rewrite get_users_update|done|]. by apply profiles_same. }
    destruct b; [by apply fewer_logins|done].
  - unfold CreateLoginSession. destruct (get hash (logins db)) eqn:Eh; [done|]. destruct (get id (users db)) eqn:Eu; [|done]. cbn [snd].
    split; [done|by apply keys_snoc|]. intros l [Hin| ->]%elem_snoc; [by apply Hlu|]. cbn. by rewrite Eu.
  - by apply fewer_logins.
Qed.

Lemma run_ok l : users_ok (run l).
Proof.
  induction l as [|x l IH] using rev_ind; [|rewrite run_snoc; by apply user_op_ok].
  split; cbn; [split; cbn; try constructor|constructor|]. intros l Hl. by apply not_elem_of_nil in Hl.
Qed.

(** ** A login's life *)

(** What ends a login of [id]: its logout, a new password, the account
    disabled. *)
Definition ends (hash id : string) (op : user_op) : bool :=
  match op with
  | OpPassword id' _ | OpDisable id' true => String.eqb id id'
  | OpLogout h => String.eqb hash h
  | _ => false
  end.

Lemma get_filter (p : LoginSession → bool) hash l : keys_ok l →
  get hash (List.filter p l) = match get hash l with Some x => if p x then Some x else None | None => None end.
Proof.
  unfold keys_ok. induction l as [|x l IH]; [done|]. rewrite fmap_cons. intros [Hn Hk]%NoDup_cons. specialize (IH Hk). unfold get in *. cbn [List.filter List.find].
  destruct (has_key hash x) eqn:Eh.
  - destruct (p x) eqn:Ep; cbn [List.find]; [by rewrite Eh|]. rewrite IH. destruct (List.find _ l) as [y|] eqn:Ey; [|done].
    exfalso. apply find_some in Ey as [Hy Hky]. apply Hn. apply has_key_spec in Eh, Hky. rewrite Eh, <- Hky. apply list_elem_of_fmap_2. by apply list_elem_of_In.
  - destruct (p x); cbn [List.find]; [by rewrite Eh|]. done.
Qed.

Lemma has_affected (u : User) id l : get id l = Some u → (affected (has_key id) l =? 0)%nat = false.
Proof.
  intros [Hu Hk]%get_some. apply Nat.eqb_neq. rewrite affected_spec. intros Hall. specialize (Hall u Hu).
  rewrite (proj2 (has_key_spec id u) Hk) in Hall. done.
Qed.

Lemma login_step db now op hash l : users_ok db → get hash (logins db) = Some l →
  get hash (logins (apply_user_op now op db)) = if ends hash (LoginUser l) op then None else Some l.
Proof.
  intros [Hp Hk Hlu] Hl. pose proof Hl as [Hin Hkey]%get_some. destruct (Hlu l Hin) as [u Hu]. cbn in Hkey. unfold row_key, login_key in Hkey.
  destruct op as [u'|u'|id h|id b|h id ex|h]; cbn [apply_user_op ends].
  - unfold CreateUser. cbv zeta. by repeat case_match.
  - unfold UpdateUser. by repeat case_match.
  - unfold SetUserPassword. destruct (String.eqb_spec (LoginUser l) id) as [<-|Hne].
    + rewrite (has_affected u) by done. cbn [snd end_logins with_logins with_users logins]. rewrite get_filter, Hl by done. unfold of_user. by rewrite String.eqb_refl.
    + destruct (_ =? 0)%nat; [done|]. cbn [snd end_logins with_logins with_users logins]. rewrite get_filter, Hl by done. unfold of_user.
      by rewrite (proj2 (String.eqb_neq _ _) Hne).
  - unfold SetUserDisabled. destruct b; [|by destruct (_ =? 0)%nat].
    destruct (String.eqb_spec (LoginUser l) id) as [<-|Hne].
    + rewrite (has_affected u) by done. cbn [snd end_logins with_logins with_users logins]. rewrite get_filter, Hl by done. unfold of_user. by rewrite String.eqb_refl.
    + destruct (_ =? 0)%nat; [done|]. cbn [snd end_logins with_logins with_users logins]. rewrite get_filter, Hl by done. unfold of_user.
      by rewrite (proj2 (String.eqb_neq _ _) Hne).
  - unfold CreateLoginSession. destruct (get h (logins db)) eqn:Eh; [done|]. destruct (get id (users db)); [|done]. cbn [snd with_logins logins].
    by rewrite get_snoc, Hl.
  - unfold DeleteLoginSession. cbn [with_logins logins]. rewrite get_filter, Hl by done. unfold has_key. change (row_key l) with (TokenHash l).
    rewrite Hkey. rewrite String.eqb_sym. by destruct (String.eqb h hash).
Qed.

Lemma login_new db now op hash l : users_ok db → get hash (logins db) = None → get hash (logins (apply_user_op now op db)) = Some l →
  op = OpStart hash (LoginUser l) (LoginExpires l) ∧ (CreateLoginSession hash (LoginUser l) (LoginExpires l) db).1 = inr tt.
Proof.
  intros [Hp Hk Hlu] Hn. destruct op as [u'|u'|id h|id b|h id ex|h]; cbn [apply_user_op].
  - unfold CreateUser. cbv zeta. repeat case_match; cbn; congruence.
  - unfold UpdateUser. repeat case_match; cbn; congruence.
  - unfold SetUserPassword. destruct (_ =? 0)%nat; cbn [snd end_logins with_logins with_users logins]; [congruence|]. by rewrite get_filter, Hn.
  - unfold SetUserDisabled. destruct (_ =? 0)%nat; [cbn; congruence|]. destruct b; cbn [snd end_logins with_logins with_users logins]; [|congruence].
    by rewrite get_filter, Hn.
  - unfold CreateLoginSession. destruct (get h (logins db)) eqn:Eh; [cbn; congruence|]. destruct (get id (users db)) eqn:Eu; [|cbn; congruence].
    cbn [snd with_logins logins]. rewrite get_snoc, Hn. destruct (has_key hash _) eqn:E; [|done]. apply has_key_spec in E. intros [= <-]. cbn in *.
    unfold row_key, login_key in E. cbn in E. subst h. split; [done|]. by rewrite Eu.
  - unfold DeleteLoginSession. cbn [with_logins logins]. by rewrite get_filter, Hn.
Qed.

Definition lives (hash id : string) (l : list (time * user_op)) : Prop := Forall (λ x, ends hash id x.2 = false) l.

Lemma login_history tr hash l :
  get hash (logins (run tr)) = Some l ↔
  TokenHash l = hash ∧
  ∃ l1 t l2, tr = l1 ++ (t, OpStart hash (LoginUser l) (LoginExpires l)) :: l2 ∧
    (CreateLoginSession hash (LoginUser l) (LoginExpires l) (run l1)).1 = inr tt ∧ lives hash (LoginUser l) l2.
Proof.
  split.
  - intros Hl. split; [by apply get_some in Hl as [_ ?]|]. induction tr as [|x tr IH] using rev_ind; [done|]. rewrite run_snoc in Hl.
    destruct (get hash (logins (run tr))) as [l0|] eqn:E0.
    + pose proof (login_step (run tr) x.1 x.2 hash l0 (run_ok tr) E0) as Hs. rewrite Hs in Hl. destruct (ends _ _ _) eqn:Ee; [done|].
      injection Hl as ->. destruct (IH eq_refl) as (l1 & t & l2 & -> & H1 & H2). exists l1, t, (l2 ++ [x]).
      split; [by rewrite <- app_assoc|]. split; [done|]. apply Forall_app. split; [done|]. by constructor.
    + destruct x as [t op]. destruct (login_new _ _ _ _ _ (run_ok tr) E0 Hl) as [E H1]. cbn in E. subst op. exists tr, t, []. split_and!; [done..|constructor].
  - intros [Hh (l1 & t & l2 & -> & H1 & H2)]. induction l2 as [|x l2 IH] using rev_ind.
    + rewrite run_snoc. cbn [fst snd apply_user_op]. revert H1. unfold CreateLoginSession. destruct (get hash (logins (run l1))) eqn:E1; [done|].
      destruct (get (LoginUser l) (users (run l1))); [|done]. intros _. cbn [snd with_logins logins]. rewrite get_snoc, E1.
      assert (has_key hash (mkLogin hash (LoginUser l) (LoginExpires l)) = true) as -> by by apply has_key_spec.
      by destruct l; cbn in *; subst.
    + apply Forall_app in H2 as [H2 Hx]. apply Forall_cons in Hx as [Hx _].
      rewrite app_comm_cons, app_assoc, run_snoc, (login_step _ _ _ _ l), Hx; [done|apply run_ok|by apply IH].
Qed.
End Logins.

(** ** Properties *)

(** C23. A token stands for a user exactly while a login of theirs lasts: a
    session was opened for them with it, has not expired, was not logged out,
    the user was not given another password nor disabled since, and is not
    disabled now. No other operation, on this user or another, gives or takes
    it. *)
Theorem token_means_login `{PGLower} `{TokenHashing} tr now c u :
  UserFromRequest now (Some c) (run tr) = Some u ↔
  c ≠ "" ∧ GetUser (UserID u) (run tr) = Some u ∧ DisabledAt u = None ∧
  ∃ l1 t expires l2, tr = l1 ++ (t, OpStart (hashToken c) (UserID u) expires) :: l2 ∧
    (CreateLoginSession (hashToken c) (UserID u) expires (run l1)).1 = inr tt ∧ now < expires ∧ lives (hashToken c) (UserID u) l2.
Proof.
  unfold UserFromRequest, GetLoginSessionUser, GetUser. destruct (String.eqb_spec c "") as [->|Hc]; [naive_solver|]. split.
  - destruct (get (hashToken c) (logins (run tr))) as [l|] eqn:El; [|done]. destruct (Z.ltb_spec now (LoginExpires l)); [|done].
    destruct (get (LoginUser l) (users (run tr))) as [u'|] eqn:Eu; [|done]. destruct (DisabledAt u') eqn:Ed; [done|]. cbn. intros [= ->].
    pose proof Eu as [_ Hid]%get_some. unfold row_key, user_key in Hid. rewrite Hid. split_and!; [done..|].
    apply login_history in El as [_ (l1 & t & l2 & E1 & E2 & E3)]. by exists l1, t, (LoginExpires l), l2.
  - intros (_ & Hu & Hd & l1 & t & ex & l2 & E1 & E2 & E3 & E4).
    assert (El : get (hashToken c) (logins (run tr)) = Some (mkLogin (hashToken c) (UserID u) ex)).
    { apply login_history. split; [done|]. by exists l1, t, l2. }
    rewrite El. cbn. destruct (Z.ltb_spec now ex); [|lia]. by rewrite Hu, Hd.
Qed.

(** The users' tables stay well formed whatever is done on them: no two
    users share an ID, an email in any case or a Telegram ID, each has one of
    the two roles, and each login is of one user of the table; so an email
    finds at most one account. *)
Theorem users_well_formed `{PGLower} tr : users_ok (run tr) ∧
  ∀ u v, u ∈ users (run tr) → v ∈ users (run tr) → lower (Email u) = lower (Email v) → u = v.
Proof.
  pose proof (run_ok tr) as Hok. split; [done|]. destruct Hok as [[_ He _ _] _ _]. intros u v Hu Hv E.
  apply list_elem_of_lookup in Hu as [i Hi], Hv as [j Hj].
  assert (i = j) as ->; [|congruence].
  apply (NoDup_lookup _ i j (lower (Email u)) He); rewrite list_lookup_fmap; [by rewrite Hi|rewrite Hj; cbn; by rewrite E].
Qed.

(** ** A login that outlives a change of password *)

#[local] Instance plain_pg : PGLower := mkPGLower (λ s, s) str_le.
#[local] Instance plain_hashing : TokenHashing := λ t, "h" +:+ t.
#[local] Instance plain_keys : Argon2 := mkArgon2 (λ p _ _ _ _ _, p) 19.

Definition ann (password : string) : User :=
  mkUser "u1" "ann@x.fr" "Ann" (HashPassword "salt" password) UserRoleAdmin None None 0.

Definition ann_tables : list (time * user_op) := [(1, OpCreate (ann "old password"))].

Lemma users_well_formed_witness :
  ∀ u v, u ∈ users (run ann_tables) → v ∈ users (run ann_tables) → Email u = Email v → u = v.
Proof. intros u v Hu Hv E. exact (proj2 (users_well_formed ann_tables) u v Hu Hv E). Defined.

(** The password is checked, changed, and then the session opened: whoever
    gave the old password stays logged in. *)
Example old_password_stays :
  match Authenticate (λ s, s) "" 2 "" "ann@x.fr" "old password" None (run ann_tables) with
  | (inr u, _) =>
      let db := (SetUserPassword "u1" (HashPassword "salt" "new password") (run ann_tables)).2 in
      let db := (StartSession 3 "t" u db).2 in
      match UserFromRequest 4 (Some "t") db with
      | Some u => VerifyPassword "old password" (PasswordHash u) = Some false
      | None => False
      end
  | _ => False
  end.
Proof. vm_compute. reflexivity. Qed.

(** A login, used, and ended by a new password. *)
Lemma token_means_login_witness :
  UserID <$> UserFromRequest 4 (Some "t") (run (ann_tables ++ [(2, OpStart (hashToken "t") "u1" 10)])) = Some "u1" ∧
  UserFromRequest 4 (Some "t") (run (ann_tables ++ [(2, OpStart (hashToken "t") "u1" 10); (3, OpPassword "u1" "p")])) = None.
Proof.
  split; [|vm_compute; reflexivity].
  set (tr := ann_tables ++ [(2, OpStart (hashToken "t") "u1" 10)]). set (u := mkUser "u1" "ann@x.fr" "Ann" (HashPassword "salt" "old password") UserRoleAdmin None None 1).
  rewrite (proj2 (token_means_login tr 4 "t" u)); [reflexivity|]. split; [discriminate|]. split; [vm_compute; reflexivity|]. split; [reflexivity|].
  exists ann_tables, 2, 10, []. split; [reflexivity|]. split; [vm_compute; reflexivity|]. split; [lia|constructor].
Defined.
