(* ===== verification/AdminUsers.v ===== *)
(** * The users' pages of the back-office (src/web/admin/users.go, auth.go)

    Who may use them, and what each form does to the users' tables. A form is
    what was typed; the pages' HTML is left out. *)

From S2P Require Import Prelude GoStr Utf8 Table Throttle Password Users.
Open Scope string_scope.
Open Scope Z_scope.
Open Scope list_scope.

(** ** Forms *)

Record userForm := mkForm { FormEmail : string; FormName : string; FormRole : string; FormTelegram : string; FormPassword : string }.

(** [userFormFromRequest]. *)
Definition trimmed (f : userForm) : userForm :=
  mkForm (trim_space (FormEmail f)) (trim_space (FormName f)) (FormRole f) (trim_space (FormTelegram f)) (FormPassword f).

Inductive form_error := BadEmail | BadRole | BadTelegram | BadPassword (text : string) | SelfDemoted | UserTaken | OtherError.

Definition email_ok (email : string) : bool :=
  let at_ := index_str "@" email in
  negb ((at_ <? 1) || (at_ =? len email - 1) || has_byte " " email || has_byte (byte 9) email).

(** [userForm.user]. *)
Definition form_user (id : string) (f : userForm) : form_error + User :=
  if negb (email_ok (FormEmail f)) then inl BadEmail
  else if negb (role_ok (FormRole f)) then inl BadRole
  else if String.eqb (FormTelegram f) "" then inr (mkUser id (FormEmail f) (FormName f) "" (FormRole f) None None 0)
  else
    match parse_int64 (FormTelegram f) with
    | None => inl BadTelegram
    | Some t => inr (mkUser id (FormEmail f) (FormName f) "" (FormRole f) (Some t) None 0)
    end.

(** ** Pages *)

Inductive page := Navigated (url : string) | Refused (e : form_error) | NotFound | Conflict | ServerError.

Inductive request :=
| CreateForm (f : userForm)
| UpdateForm (id : string) (f : userForm)
| PasswordForm (id password : string)
| DisableForm (id : string)
| EnableForm (id : string).

Section Pages.
Context `{PGLower} `{Argon2}.

(** [id] is what uuid drew. *)
Definition createUser (now : time) (id salt : string) (f : userForm) (db : UDB) : page * UDB :=
  let f := trimmed f in
  match form_user id f with
  | inl e => (Refused e, db)
  | inr u =>
      match CheckPasswordPolicy (FormPassword f) with
      | Some text => (Refused (BadPassword text), db)
      | None =>
          match CreateUser now (set_password (HashPassword salt (FormPassword f)) u) db with
          | (inl ErrUserExists, db) => (Refused UserTaken, db)
          | (inl _, db) => (Refused OtherError, db)
          | (inr _, db) => (Navigated "/admin/users?user=created", db)
          end
      end
  end.

Definition updateUser (actor : User) (id : string) (f : userForm) (db : UDB) : page * UDB :=
  let f := trimmed f in
  match form_user id f with
  | inl e => (Refused e, db)
  | inr u =>
      if String.eqb id (UserID actor) && negb (String.eqb (FormRole f) UserRoleAdmin) then (Refused SelfDemoted, db)
      else
        match UpdateUser u db with
        | (inl ErrUserNotFound, db) => (NotFound, db)
        | (inl ErrUserExists, db) => (Refused UserTaken, db)
        | (inl _, db) => (Refused OtherError, db)
        | (inr _, db) => (Navigated "/admin/users?user=updated", db)
        end
  end.

Definition resetPassword (id salt password : string) (db : UDB) : page * UDB :=
  match CheckPasswordPolicy password with
  | Some text => (match GetUser id db with None => NotFound | Some _ => Refused (BadPassword text) end, db)
  | None =>
      match SetUserPassword id (HashPassword salt password) db with
      | (inl ErrUserNotFound, db) => (NotFound, db)
      | (inl _, db) => (match GetUser id db with None => NotFound | Some _ => Refused OtherError end, db)
      | (inr _, db) => (Navigated "/admin/users?user=password", db)
      end
  end.

Definition setDisabled (now : time) (actor : User) (id : string) (disabled : bool) (db : UDB) : page * UDB :=
  if disabled && String.eqb id (UserID actor) then (Conflict, db)
  else
    match SetUserDisabled now id disabled db with
    | (inl ErrUserNotFound, db) => (NotFound, db)
    | (inl _, db) => (ServerError, db)
    | (inr _, db) => (Navigated ("/admin/users?user=" +:+ (if disabled then "disabled" else "enabled")), db)
    end.

Definition handle (now : time) (id salt : string) (actor : User) (r : request) (db : UDB) : page * UDB :=
  match r with
  | CreateForm f => createUser now id salt f db
  | UpdateForm id f => updateUser actor id f db
  | PasswordForm id password => resetPassword id salt password db
  | DisableForm id => setDisabled now actor id true db
  | EnableForm id => setDisabled now actor id false db
  end.

(** [requireLogin]: the admin of a request, [None] being sent to the login. *)
Definition requireLogin `{TokenHashing} (now : time) (cookie : option string) (db : UDB) : option User :=
  match UserFromRequest now cookie db with Some u => if IsAdmin u then Some u else None | None => None end.

(** A request from its check to its answer, nothing coming between. *)
Definition serve `{TokenHashing} (now : time) (id salt : string) (cookie : option string) (r : request) (db : UDB) : option page * UDB :=
  match requireLogin now cookie db with
  | None => (None, db)
  | Some actor => let '(p, db) := handle now id salt actor r db in (Some p, db)
  end.

(** [safeNext]. *)
Definition safeNext (next : string) : string :=
  if has_prefix next "/admin" && negb (has_prefix next "//") && negb (has_byte (byte 92) next) then next else "/admin/".

Definition open_admin (u : User) : bool := IsAdmin u && is_none (DisabledAt u).

(** An admin who can log in. *)
Definition has_admin (db : UDB) : Prop := ∃ u, u ∈ users db ∧ open_admin u = true.

(** A change of others, or one that keeps the role and does not disable,
    leaves the actor an admin. *)
Lemma admin_changed id f db actor : KeepsKey f → actor ∈ users db → open_admin actor = true →
  (UserID actor = id → open_admin (f actor) = true) → ∃ u, u ∈ update_where (has_key id) f (users db) ∧ open_admin u = true.
Proof.
  intros Hf Ha Ho Hsame. exists (if has_key id actor then f actor else actor). split.
  - apply update_elem. by exists actor.
  - destruct (has_key id actor) eqn:E; [|done]. apply has_key_spec in E. by apply Hsame.
Qed.

Lemma handle_admin now id salt actor r db : actor ∈ users db → open_admin actor = true → has_admin (handle now id salt actor r db).2.
Proof.
  intros Ha Ho. assert (Hsame : has_admin db) by by exists actor. pose proof Ho as [Hadm Hdis]%andb_true_iff.
  destruct r as [f|i f|i pw|i|i]; cbn [handle].
  - unfold createUser. cbv zeta. destruct (form_user id _) as [e|u]; [done|]. destruct (CheckPasswordPolicy _); [done|].
    unfold CreateUser. cbv zeta. repeat case_match; simplify_eq/=; try done; exists actor; (split; [set_solver|done]).
  - unfold updateUser. cbv zeta. destruct (form_user i _) as [e|u] eqn:Ef; [done|]. destruct (_ && _) eqn:Es; [done|].
    assert (Hu : UserID u = i ∧ Role u = FormRole (trimmed f)).
    { revert Ef. unfold form_user. repeat case_match; try done; by intros [= <-]. }
    destruct Hu as [Hi Hr]. unfold UpdateUser. destruct (_ =? 0)%nat; [done|]. destruct (negb (role_ok (Role u))); [done|]. destruct (existsb _ _); [done|]. cbn [snd].
    apply (admin_changed _ _ _ actor); [apply _|done..|]. intros E. unfold open_admin, IsAdmin in *. cbn. rewrite Hr. rewrite Hdis, andb_true_r.
    rewrite E, Hi, String.eqb_refl in Es. cbn [andb] in Es. by apply negb_false_iff in Es.
  - unfold resetPassword. destruct (CheckPasswordPolicy _); [done|]. unfold SetUserPassword. destruct (_ =? 0)%nat; [done|].
    apply (admin_changed _ _ _ actor); [apply _|done..].
  - unfold setDisabled. destruct (true && _) eqn:Es; [done|]. unfold SetUserDisabled. destruct (_ =? 0)%nat; [done|]. cbn [snd].
    apply (admin_changed _ _ _ actor); [apply _|done..|]. intros E. rewrite E, String.eqb_refl in Es. done.
  - unfold setDisabled. cbn [andb]. unfold SetUserDisabled. destruct (_ =? 0)%nat; [done|]. cbn [snd].
    apply (admin_changed _ _ _ actor); [apply _|done..|]. intros _. unfold open_admin, IsAdmin in *. cbn. by rewrite andb_true_r.
Qed.

Lemma required_actor `{TokenHashing} now cookie db actor : requireLogin now cookie db = Some actor → actor ∈ users db ∧ open_admin actor = true.
Proof.
  unfold requireLogin, UserFromRequest. destruct cookie as [c|]; [|done]. destruct (String.eqb c ""); [done|]. unfold GetLoginSessionUser.
  destruct (get (hashToken c) (logins db)) as [l|]; [|done]. destruct (now <? LoginExpires l); [|done].
  destruct (get (LoginUser l) (users db)) as [u|] eqn:Eu; [|done]. destruct (DisabledAt u) eqn:Ed; [done|]. cbn. destruct (IsAdmin u) eqn:Ea; [|done].
  intros [= <-]. apply get_some in Eu as [Hu _]. split; [done|]. unfold open_admin. by rewrite Ea, Ed.
Qed.

(** C30. The users' pages never lock everyone out: whatever is asked, in any
    order and by whoever is logged in, an admin who can log in remains, once
    there is one, as long as each request is served whole; and a request of
    anyone but such an admin changes nothing. *)
Theorem an_admin_remains `{TokenHashing} (l : list (time * string * string * option string * request)) db :
  has_admin db →
  has_admin (fold_left (λ db '(now, id, salt, cookie, r), (serve now id salt cookie r db).2) l db) ∧
  ∀ now id salt cookie r, (∀ u, UserFromRequest now cookie db = Some u → IsAdmin u = false) → serve now id salt cookie r db = (None, db).
Proof.
  intros Hdb. split.
  - revert db Hdb. induction l as [|[[[[now id] salt] cookie] r] l IH]; intros db Hdb; [done|]. cbn [fold_left]. apply IH. unfold serve.
    destruct (requireLogin now cookie db) as [actor|] eqn:Er; [|done]. apply required_actor in Er as [Ha Ho].
    pose proof (handle_admin now id salt actor r db Ha Ho) as Hh. by destruct (handle _ _ _ _ _ _).
  - intros now id salt cookie r Hu. unfold serve, requireLogin. destruct (UserFromRequest now cookie db) as [u|]; [|done]. by rewrite (Hu u eq_refl).
Qed.
End Pages.

(** ** Two admins at once *)

#[local] Existing Instance plain_pg.
#[local] Existing Instance plain_hashing.
#[local] Existing Instance plain_keys.

Definition bob : User := mkUser "u2" "bob@x.fr" "Bob" (HashPassword "salt" "bob's password") UserRoleAdmin None None 0.

Definition two_admins : UDB :=
  run [(1, OpCreate (ann "old password")); (1, OpCreate bob); (2, OpStart (hashToken "ta") "u1" 100); (2, OpStart (hashToken "tb") "u2" 100)].

Definition demote (u : User) : request := UpdateForm (UserID u) (mkForm (Email u) (DisplayName u) UserRoleStandard "" "").

Lemma an_admin_remains_witness :
  has_admin (fold_left (λ db '(now, id, salt, cookie, r), (serve now id salt cookie r db).2)
    [(3, "", "", Some "ta", demote bob); (4, "", "", Some "tb", demote (ann ""))] two_admins).
Proof.
  apply (an_admin_remains [(3, "", "", Some "ta", demote bob); (4, "", "", Some "tb", demote (ann ""))] two_admins).
  exists (set_disabled 0 false (mkUser "u1" "ann@x.fr" "Ann" (HashPassword "salt" "old password") UserRoleAdmin None None 1)).
  split; [|reflexivity]. vm_compute. by left.
Defined.

(** Both are let in, then both forms are handled: no admin is left. *)
Example both_demoted :
  match requireLogin 3 (Some "ta") two_admins, requireLogin 3 (Some "tb") two_admins with
  | Some a, Some b =>
      let db := (handle 4 "" "" a (demote b) two_admins).2 in
      List.filter open_admin (users (handle 5 "" "" b (demote a) db).2) = []
  | _, _ => False
  end.
Proof. vm_compute. reflexivity. Qed.
