(* ===== verification/Groups.v ===== *)
(** * Groups, access rules and their sweep (src/store/access.go, src/cmd/agent/access.go)

    Who holds what, as the database has it, what the workers read of it
    (Access.v), and the alert on a rule that targets nothing any more. *)

From S2P Require Import Prelude GoStr GoPath Utf8 Table Access Users.
Open Scope string_scope.
Open Scope Z_scope.
Open Scope list_scope.

(** ** Tables *)

Record Group := mkGroup { GroupID : string; GroupName : string; GroupCreated : time }.

#[export] Instance group_key : Keyed Group := GroupID.

(** A row of [access_rules]: its holders are rows of their own. *)
Record RuleRow := mkRuleRow {
  RowRule : Z;
  RowKind : string;
  RowTarget : string;
  RowCreated : time;
  RowUpdated : time;
  LastMatchedAt : option time;
  UnmatchedAlertedAt : option time
}.

Record GDB := mkGDB {
  people : UDB;
  groups : list Group;
  group_members : list (string * string);
  rules : list RuleRow;
  rule_groups : list (Z * string);
  rule_users : list (Z * string);
  next_rule : Z
}.

Inductive GroupError := ErrGroupExists | ErrGroupNotFound | ErrRuleNotFound | SoleHolderError (rules : list Rule) | ErrAccessSQL.

Abbreviation outcome A := ((GroupError + A) * GDB)%type (only parsing).

Definition with_groups (db : GDB) (l : list Group) : GDB :=
  mkGDB (people db) l (group_members db) (rules db) (rule_groups db) (rule_users db) (next_rule db).
Definition with_members (db : GDB) (l : list (string * string)) : GDB :=
  mkGDB (people db) (groups db) l (rules db) (rule_groups db) (rule_users db) (next_rule db).
Definition with_rules (db : GDB) (l : list RuleRow) : GDB :=
  mkGDB (people db) (groups db) (group_members db) l (rule_groups db) (rule_users db) (next_rule db).
Definition with_holders (db : GDB) (gs us : list (Z * string)) : GDB :=
  mkGDB (people db) (groups db) (group_members db) (rules db) gs us (next_rule db).
Definition with_next (db : GDB) (n : Z) : GDB :=
  mkGDB (people db) (groups db) (group_members db) (rules db) (rule_groups db) (rule_users db) n.

(** The second column of the rows whose first is [k]. *)
Definition of_first {K} `{EqDecision K} (k : K) (l : list (K * string)) : list string := snd <$> List.filter (λ x, bool_decide (x.1 = k)) l.

Section Store.
Context `{PGLower}.

(** ** Groups *)

Definition same_name (name : string) (g : Group) : bool := String.eqb (lower (GroupName g)) (lower name).

(** [json_agg(... ORDER BY ...)]. *)
Definition agg (l : list string) : list string := sort_stable collate l.

(** The groups by name, each with its members. *)
Definition ListGroups (db : GDB) : list (Group * list string) :=
  (λ g, (g, agg (of_first (GroupID g) (group_members db)))) <$> sort_stable (λ a b, collate (lower (GroupName a)) (lower (GroupName b))) (groups db).

Definition GetGroup (id : string) (db : GDB) : option (Group * list string) := List.find (λ g, String.eqb (GroupID g.1) id) (ListGroups db).

Definition CreateGroup (now : time) (id name : string) (db : GDB) : outcome unit :=
  let name := trim_space name in
  if String.eqb name "" then (inl ErrAccessSQL, db)
  else if existsb (λ g, has_key id g || same_name name g) (groups db) then (inl ErrGroupExists, db)
  else (inr tt, with_groups db (groups db ++ [mkGroup id name now])).

Definition RenameGroup (id name : string) (db : GDB) : outcome unit :=
  let name := trim_space name in
  if (affected (has_key id) (groups db) =? 0)%nat then (inl ErrGroupNotFound, db)
  else if String.eqb name "" then (inl ErrAccessSQL, db)
  else if existsb (λ g, negb (has_key id g) && same_name name g) (groups db) then (inl ErrGroupExists, db)
  else (inr tt, with_groups db (update_where (has_key id) (λ g, mkGroup (GroupID g) name (GroupCreated g)) (groups db))).

Definition AddGroupMember (groupID userID : string) (db : GDB) : outcome unit :=
  if bool_decide ((groupID, userID) ∈ group_members db) then (inr tt, db)
  else
    match get groupID (groups db), get userID (users (people db)) with
    | Some _, Some _ => (inr tt, with_members db (group_members db ++ [(groupID, userID)]))
    | _, _ => (inl ErrAccessSQL, db)
    end.

Definition RemoveGroupMember (groupID userID : string) (db : GDB) : GDB :=
  with_members db (List.filter (λ m, negb (bool_decide (m = (groupID, userID)))) (group_members db)).

(** ** Rules *)

(** A rule with its holders, as it is listed. *)
Definition rule_of (db : GDB) (r : RuleRow) : Rule :=
  mkRule (RowRule r) (RowKind r) (RowTarget r) (agg (of_first (RowRule r) (rule_groups db))) (agg (of_first (RowRule r) (rule_users db))).

(** ORDER BY id. *)
Definition sorted_rules (db : GDB) : list RuleRow := sort_stable (λ a b, RowRule a <=? RowRule b) (rules db).

Definition ListAccessRules (db : GDB) : list Rule := rule_of db <$> sorted_rules db.

Definition GetAccessRule (id : Z) (db : GDB) : option Rule :=
  rule_of db <$> List.find (λ r, RowRule r =? id) (sorted_rules db).

(** [slices.Compact] of the sorted values. *)
Fixpoint compact (l : list string) : list string :=
  match l with
  | [] => []
  | x :: l => match l with y :: _ => if String.eqb x y then compact l else x :: compact l | [] => [x] end
  end.

Definition distinct (l : list string) : list string := compact (sort_stable str_le l).

(** [setHolders]: each group and user is one of the tables. *)
Definition setHolders (id : Z) (r : Rule) (db : GDB) : option GDB :=
  let gs := distinct (ruleGroups r) in
  let us := distinct (ruleUsers r) in
  if forallb (λ g, negb (is_none (get g (groups db)))) gs && forallb (λ u, negb (is_none (get u (users (people db))))) us then
    Some (with_holders db (rule_groups db ++ ((λ g, (id, g)) <$> gs)) (rule_users db ++ ((λ u, (id, u)) <$> us)))
  else None.

Definition target_ok (r : Rule) : bool := ValidKind (ruleKind r) && negb (String.eqb (ruleTarget r) "").

(** The sequence moves even when the transaction is rolled back. *)
Definition CreateAccessRule (now : time) (r : Rule) (db : GDB) : outcome Z :=
  let id := next_rule db in
  let db := with_next db (id + 1) in
  if negb (target_ok r) then (inl ErrAccessSQL, db)
  else
    match setHolders id r (with_rules db (rules db ++ [mkRuleRow id (ruleKind r) (ruleTarget r) now now None None])) with
    | Some db' => (inr id, db')
    | None => (inl ErrAccessSQL, db)
    end.

Definition is_rule (id : Z) (r : RuleRow) : bool := RowRule r =? id.

Definition set_target (now : time) (r : Rule) (x : RuleRow) : RuleRow :=
  mkRuleRow (RowRule x) (ruleKind r) (ruleTarget r) (RowCreated x) now None None.

Definition drop_holders (id : Z) (l : list (Z * string)) : list (Z * string) := List.filter (λ h, negb (h.1 =? id)) l.

Definition UpdateAccessRule (now : time) (r : Rule) (db : GDB) : outcome unit :=
  if (affected (is_rule (ruleID r)) (rules db) =? 0)%nat then (inl ErrRuleNotFound, db)
  else if negb (target_ok r) then (inl ErrAccessSQL, db)
  else
    let db' := with_rules db (update_where (is_rule (ruleID r)) (set_target now r) (rules db)) in
    let db' := with_holders db' (drop_holders (ruleID r) (rule_groups db)) (drop_holders (ruleID r) (rule_users db)) in
    match setHolders (ruleID r) r db' with Some db' => (inr tt, db') | None => (inl ErrAccessSQL, db) end.

Definition DeleteAccessRule (id : Z) (db : GDB) : outcome unit :=
  if (affected (is_rule id) (rules db) =? 0)%nat then (inl ErrRuleNotFound, db)
  else
    (inr tt, with_holders (with_rules db (List.filter (λ r, negb (is_rule id r)) (rules db)))
               (drop_holders id (rule_groups db)) (drop_holders id (rule_users db))).

(** The group alone holds it. *)
Definition sole_holder (gid : string) (db : GDB) (r : RuleRow) : bool :=
  bool_decide ((RowRule r, gid) ∈ rule_groups db) &&
  negb (existsb (λ h, (h.1 =? RowRule r) && negb (String.eqb h.2 gid)) (rule_groups db)) &&
  negb (existsb (λ h, h.1 =? RowRule r) (rule_users db)).

Definition DeleteGroup (id : string) (db : GDB) : outcome unit :=
  if is_none (get id (groups db)) then (inl ErrGroupNotFound, db)
  else
    match List.filter (sole_holder id db) (sorted_rules db) with
    | [] =>
        (inr tt,
         mkGDB (people db) (List.filter (λ g, negb (has_key id g)) (groups db))
           (List.filter (λ m, negb (String.eqb m.1 id)) (group_members db)) (rules db)
           (List.filter (λ h, negb (String.eqb h.2 id)) (rule_groups db)) (rule_users db) (next_rule db))
    | sole => (inl (SoleHolderError (rule_of db <$> sole)), db)
    end.

(** ** What the workers read *)

Definition access_user (db : GDB) (u : Users.User) : Access.User :=
  Access.mkUser (Users.UserID u) (String.eqb (Role u) "admin") (negb (is_none (DisabledAt u)))
    (agg (fst <$> List.filter (λ m, String.eqb m.2 (Users.UserID u)) (group_members db))).

Definition AccessSnapshot (db : GDB) : Snapshot :=
  mkSnapshot (ListAccessRules db) (list_to_map ((λ u, (Users.UserID u, access_user db u)) <$> users (people db))).

(** ** The sweep *)

Definition to_mark (ids : list Z) (r : RuleRow) : bool :=
  bool_decide (RowRule r ∈ ids) && (is_none (LastMatchedAt r) || negb (is_none (UnmatchedAlertedAt r))).

Definition set_matched (now : time) (r : RuleRow) : RuleRow :=
  mkRuleRow (RowRule r) (RowKind r) (RowTarget r) (RowCreated r) (RowUpdated r) (Some now) None.

Definition SetAccessRulesMatched (now : time) (ids : list Z) (db : GDB) : GDB :=
  match ids with [] => db | _ => with_rules db (update_where (to_mark ids) (set_matched now) (rules db)) end.

Definition claimable (id : Z) (r : RuleRow) : bool :=
  is_rule id r && negb (is_none (LastMatchedAt r)) && is_none (UnmatchedAlertedAt r).

Definition set_alerted (now : time) (r : RuleRow) : RuleRow :=
  mkRuleRow (RowRule r) (RowKind r) (RowTarget r) (RowCreated r) (RowUpdated r) (LastMatchedAt r) (Some now).

Definition ClaimUnmatchedAlert (now : time) (id : Z) (db : GDB) : bool * GDB :=
  ((affected (claimable id) (rules db) =? 1)%nat, with_rules db (update_where (claimable id) (set_alerted now) (rules db))).

(** [%s] in the guillemets. *)
Definition UnmatchedRuleText (r : Rule) : string :=
  let target := if String.eqb (ruleKind r) KindMCPServer then "le serveur MCP « " +:+ ruleTarget r +:+ " »" else "le motif « " +:+ ruleTarget r +:+ " »" in
  "La règle d'accès sur " +:+ target +:+ " ne vise plus aucun outil : ce qu'elle fermait serait ouvert à tous s'il revenait sous un autre nom. " +:+
  "Un serveur MCP renommé dans worker.yaml ? Refais ses règles dans /admin/access.".

Definition activeAdmins (db : GDB) : list string :=
  Users.UserID <$> List.filter (λ u, IsAdmin u && is_none (DisabledAt u)) (ListUsers (people db)).

(** What a read of the store comes to: [true] is a failure of the database. *)
Record SweepFaults := mkFaults { rules_fail : bool; tools_fail : bool; mark_fails : bool; claim_fails : Z → bool; users_fail : bool }.

(** The alerts of the unmatched rules: who is told, what. *)
Fixpoint alert_unmatched (now : time) (f : SweepFaults) (unmatched : list Rule) (db : GDB) : list (string * string) * GDB :=
  match unmatched with
  | [] => ([], db)
  | r :: unmatched =>
      if claim_fails f (ruleID r) then alert_unmatched now f unmatched db
      else
        let '(claimed, db) := ClaimUnmatchedAlert now (ruleID r) db in
        let told := if claimed && negb (users_fail f) then (λ id, (id, UnmatchedRuleText r)) <$> activeAdmins db else [] in
        let '(rest, db) := alert_unmatched now f unmatched db in
        (told ++ rest, db)
  end.

Definition targets_something (published : list Tool) (r : Rule) : bool := negb (bool_decide (Targets r published = [])).

(** [sweepAccessRules]; [published] are the tools and the agents there are. *)
Definition sweepAccessRules (now : time) (f : SweepFaults) (published : list Tool) (db : GDB) : list (string * string) * GDB :=
  let l := ListAccessRules db in
  if rules_fail f || bool_decide (l = []) || tools_fail f then ([], db)
  else
    let matched := ruleID <$> List.filter (targets_something published) l in
    let db := if mark_fails f then db else SetAccessRulesMatched now matched db in
    alert_unmatched now f (List.filter (λ r, negb (targets_something published r)) l) db.
End Store.

(** ** What changes of groups and rules do to who may use what

    The operations of Groups.v against the decisions of Access.v. *)

Section Rules.
Context `{PGLower}.

(** ** What holds less is closed to more *)

Record narrower_rule (r r' : Rule) : Prop := {
  nr_kind : ruleKind r' = ruleKind r;
  nr_target : ruleTarget r' = ruleTarget r;
  nr_groups : ruleGroups r' ⊆ ruleGroups r;
  nr_users : ruleUsers r' ⊆ ruleUsers r
}.

Record narrower_user (u u' : Access.User) : Prop := {
  nu_id : Access.userID u' = Access.userID u;
  nu_admin : userAdmin u' = userAdmin u;
  nu_disabled : userDisabled u = true → userDisabled u' = true;
  nu_groups : userGroups u' ⊆ userGroups u
}.

Lemma narrower_matches r r' t : narrower_rule r r' → Matches r' t = Matches r t.
Proof. intros [Hk Ht _ _]. unfold Matches. by rewrite Hk, Ht. Qed.

Lemma narrower_holds r r' u u' : narrower_rule r r' → narrower_user u u' → Holds r' u' = true → Holds r u = true.
Proof.
  intros [_ _ Hg Hu] [Hid _ _ Hug]. rewrite !Holds_spec, Hid. intros [?|(g & ? & ?)]; [left; by apply Hu|right]. exists g. split; [by apply Hug|by apply Hg].
Qed.

Lemma narrower_allowed rs rs' u u' t : Forall2 narrower_rule rs rs' → option_Forall2 narrower_user u u' →
  Allowed u' t rs' = true → Allowed u t rs = true.
Proof.
  intros Hrs Hu. destruct Hu as [u u' Hu|].
  - destruct (userDisabled u') eqn:Hd'; [unfold Allowed; by rewrite Hd'|].
    assert (Hd : userDisabled u = false).
    { destruct (userDisabled u) eqn:E; [|done]. by rewrite (nu_disabled _ _ Hu E) in Hd'. }
    destruct (userAdmin u) eqn:Ha; [unfold Allowed; by rewrite Hd, Ha|]. pose proof (nu_admin _ _ Hu) as Ha'. rewrite Ha in Ha'.
    rewrite !Allowed_user by done. intros Hall r Hr Hm. apply list_elem_of_lookup in Hr as [i Hi].
    destruct (Forall2_lookup_l _ _ _ _ _ Hrs Hi) as (r' & Hi' & Hn). eapply narrower_holds; [done..|].
    apply Hall; [by eapply list_elem_of_lookup_2|]. by rewrite (narrower_matches r r').
  - rewrite !Allowed_nobody. intros Hall r Hr. apply list_elem_of_lookup in Hr as [i Hi].
    destruct (Forall2_lookup_l _ _ _ _ _ Hrs Hi) as (r' & Hi' & Hn). rewrite <- (narrower_matches r r') by done. apply Hall. by eapply list_elem_of_lookup_2.
Qed.

(** ** What the workers read *)

Lemma snapshot_user db id : snapUsers (AccessSnapshot db) !! id = access_user db <$> get id (users (people db)).
Proof.
  unfold AccessSnapshot. cbn [snapUsers]. unfold get. induction (users (people db)) as [|u l IH]; [done|].
  rewrite fmap_cons. cbn [list_to_map foldr List.find]. unfold has_key at 1. change (row_key u) with (Users.UserID u).
  destruct (String.eqb_spec (Users.UserID u) id) as [<-|Hne]; [by rewrite lookup_insert_eq|]. by rewrite lookup_insert_ne.
Qed.

(** Every tool open in [db'] is open in [db], for every user. *)
Definition narrower (db db' : GDB) : Prop :=
  ∀ id t, SnapshotAllowed (AccessSnapshot db') id t = true → SnapshotAllowed (AccessSnapshot db) id t = true.

Lemma agg_elem x l : x ∈ agg l ↔ x ∈ l.
Proof. unfold agg. by rewrite sort_stable_perm. Qed.

Lemma of_first_elem {K} `{EqDecision K} (k : K) x l : x ∈ of_first k l ↔ (k, x) ∈ l.
Proof.
  unfold of_first. rewrite list_elem_of_fmap. split.
  - intros ([k' x'] & -> & [Hin Hk%bool_decide_eq_true]%elem_filter). cbn in *. by subst.
  - intros Hin. exists (k, x). split; [done|]. apply elem_filter. split; [done|]. by apply bool_decide_eq_true.
Qed.

Definition groups_of (db : GDB) (uid : string) : list string := fst <$> List.filter (λ m, String.eqb m.2 uid) (group_members db).

Lemma groups_of_elem db uid g : g ∈ groups_of db uid ↔ (g, uid) ∈ group_members db.
Proof.
  unfold groups_of. rewrite list_elem_of_fmap. split.
  - intros ([g' u'] & -> & [Hin Hk%String.eqb_eq]%elem_filter). cbn in *. by subst.
  - intros Hin. exists (g, uid). split; [done|]. apply elem_filter. split; [done|]. apply String.eqb_refl.
Qed.

(** Fewer holders and fewer members are narrower. *)
Lemma fewer_narrower db db' :
  rules db' = rules db →
  (∀ r g, (r, g) ∈ rule_groups db' → (r, g) ∈ rule_groups db) → (∀ r u, (r, u) ∈ rule_users db' → (r, u) ∈ rule_users db) →
  (∀ g u, (g, u) ∈ group_members db' → (g, u) ∈ group_members db) →
  (∀ id, option_Forall2 (λ u u', Users.UserID u' = Users.UserID u ∧ Role u' = Role u ∧ (is_Some (DisabledAt u) → is_Some (DisabledAt u')))
     (get id (users (people db))) (get id (users (people db')))) →
  narrower db db'.
Proof.
  intros Hr Hrg Hru Hgm Hu id t. apply narrower_allowed.
  - unfold AccessSnapshot, ListAccessRules, sorted_rules. cbn [snapRules]. rewrite Hr. apply Forall2_fmap, Forall_Forall2_diag, Forall_forall. intros r _.
    split; [done..| |]; cbn; intros x; rewrite !agg_elem, !of_first_elem; auto.
  - unfold SnapshotUser. destruct (String.eqb id ""); [constructor|]. rewrite !snapshot_user. specialize (Hu id).
    destruct Hu as [u u' (Hid & Hro & Hd)|]; cbn; constructor.
    + split; cbn; [done|by rewrite Hro| |].
      * intros Hn. apply negb_true_iff. apply negb_true_iff in Hn. destruct (DisabledAt u), (DisabledAt u'); try done. exfalso. by destruct Hd; [eexists|].
      * intros x. rewrite !agg_elem. change (x ∈ groups_of db' (Users.UserID u') → x ∈ groups_of db (Users.UserID u)).
        rewrite !groups_of_elem, Hid. auto.
    + split; done.
Qed.

Lemma same_people l : ∀ id, option_Forall2 (λ u u', Users.UserID u' = Users.UserID u ∧ Role u' = Role u ∧ (is_Some (DisabledAt u) → is_Some (DisabledAt u')))
  (get id l) (get id l).
Proof. intros id. destruct (get id l); by constructor. Qed.

(** ** The deletion of a group *)

Lemma sole_spec gid db r : sole_holder gid db r = true ↔
  (∀ g, g ∈ ruleGroups (rule_of db r) ↔ g = gid) ∧ ruleUsers (rule_of db r) = [].
Proof.
  assert (Hu : ruleUsers (rule_of db r) = [] ↔ existsb (λ h, h.1 =? RowRule r) (rule_users db) = false).
  { rewrite existsb_false_elem. cbn [rule_of ruleUsers]. split.
    - intros Hnil [k x] Hin. cbn. apply Z.eqb_neq. intros ->. apply of_first_elem in Hin. apply agg_elem in Hin. rewrite Hnil in Hin. by apply not_elem_of_nil in Hin.
    - intros Hall. destruct (agg _) as [|x l] eqn:E; [done|]. assert (Hin : x ∈ agg (of_first (RowRule r) (rule_users db))) by (rewrite E; by left).
      rewrite agg_elem, of_first_elem in Hin. specialize (Hall _ Hin). cbn in Hall. by rewrite Z.eqb_refl in Hall. }
  unfold sole_holder. rewrite !andb_true_iff, !negb_true_iff, bool_decide_eq_true, <- Hu, existsb_false_elem. cbn [rule_of ruleGroups].
  setoid_rewrite agg_elem. setoid_rewrite of_first_elem. split.
  - intros [[Hin Hall] ?]. split; [|done]. intros g. split; [|by intros ->]. intros Hg. specialize (Hall _ Hg). cbn in Hall.
    rewrite Z.eqb_refl in Hall. by apply negb_false_iff, String.eqb_eq in Hall.
  - intros [Hall ?]. split; [|done]. split; [by apply Hall|]. intros [k x] Hin. cbn. destruct (Z.eqb_spec k (RowRule r)) as [->|]; [|done].
    apply Hall in Hin as ->. by rewrite String.eqb_refl.
Qed.

Lemma has_holder db r : HasHolder (rule_of db r) = true ↔ (∃ g, (RowRule r, g) ∈ rule_groups db) ∨ (∃ u, (RowRule r, u) ∈ rule_users db).
Proof.
  assert (Hl : ∀ l : list (Z * string), negb (Nat.eqb (length (agg (of_first (RowRule r) l))) 0) = true ↔ ∃ x, (RowRule r, x) ∈ l).
  { intros l. setoid_rewrite <- of_first_elem. setoid_rewrite <- agg_elem. destruct (agg _) as [|x k]; cbn; split; try done.
    - intros [x Hx]. by apply not_elem_of_nil in Hx.
    - intros _. exists x. by left. }
  unfold HasHolder. rewrite orb_true_iff. cbn [rule_of ruleGroups ruleUsers]. by rewrite !Hl.
Qed.

Lemma DeleteGroup_narrower gid db db' : DeleteGroup gid db = (inr tt, db') → narrower db db'.
Proof.
  unfold DeleteGroup. destruct (is_none _); [done|]. destruct (List.filter _ _); [|done]. intros [= <-].
  apply fewer_narrower; cbn; [done|..|apply same_people].
  - by intros r g [? _]%elem_filter.
  - done.
  - by intros g u [? _]%elem_filter.
Qed.
End Rules.

(** ** Properties *)

(** Taking away never opens anything. Deleting a group, taking a member
    out of one, or disabling a user leaves everyone with tools they could use
    before, and no others, by the decisions the workers make of what they read;
    adding a member changes nothing for anyone but that user. *)
Theorem revoking_closes `{PGLower} db :
  (∀ gid db', DeleteGroup gid db = (inr tt, db') → narrower db db') ∧
  (∀ gid uid, narrower db (RemoveGroupMember gid uid db)) ∧
  (∀ now uid p, SetUserDisabled now uid true (people db) = (inr tt, p) →
     narrower db (mkGDB p (groups db) (group_members db) (rules db) (rule_groups db) (rule_users db) (next_rule db))) ∧
  (∀ gid uid db', AddGroupMember gid uid db = (inr tt, db') →
     narrower db' db ∧ ∀ id t, id ≠ uid → SnapshotAllowed (AccessSnapshot db') id t = SnapshotAllowed (AccessSnapshot db) id t).
Proof.
  split; [intros gid db'; apply DeleteGroup_narrower|]. split; [|split].
  - intros gid uid. apply fewer_narrower; cbn; [done..|by intros g u [? _]%elem_filter|apply same_people].
  - intros now uid p. unfold SetUserDisabled. destruct (_ =? 0)%nat; [done|]. intros [= <-]. apply fewer_narrower; cbn; [done..|].
    intros id. rewrite update_get by apply _. destruct (get id (users (people db))) as [u|]; cbn; constructor. destruct (has_key uid u); cbn; split_and!; done.
  - intros gid uid db'. unfold AddGroupMember. destruct (bool_decide _); [intros [= <-]; split; [by intros ? ? ?|done]|].
    destruct (get gid (groups db)); [|done]. destruct (get uid (users (people db))) as [u|]; [|done]. intros [= <-]. split.
    + apply fewer_narrower; cbn; [done..| |apply same_people]. intros g1 u1 Hin. apply elem_of_app. by left.
    + intros id t Hne. unfold SnapshotAllowed. f_equal. unfold SnapshotUser. destruct (String.eqb id ""); [done|]. rewrite !snapshot_user. cbn [people with_members].
      destruct (get id (users (people db))) as [x|] eqn:Ex; [|done]. cbn [fmap option_fmap option_map]. unfold access_user.
      apply get_some in Ex as [_ Hx]. change (row_key x) with (Users.UserID x) in Hx. cbn [group_members with_members].
      rewrite List.filter_app. cbn [List.filter snd]. rewrite Hx, (proj2 (String.eqb_neq uid id)) by done. by rewrite app_nil_r.
Qed.

(** A group is deleted exactly when it is there and no rule is held by
    it alone; the rules it holds alone are the ones the refusal names. Deleted,
    it is nowhere in the tables, the rules are the same, and none has lost its
    last holder: no rule closes its tools to everyone without being changed. *)
Theorem deleted_group_leaves_holders `{PGLower} gid db :
  match DeleteGroup gid db with
  | (inr _, db') =>
      is_Some (get gid (groups db)) ∧ rules db' = rules db ∧
      (∀ r, r ∈ rules db → HasHolder (rule_of db r) = true → HasHolder (rule_of db' r) = true) ∧
      (∀ r, (r, gid) ∉ rule_groups db') ∧ (∀ u, (gid, u) ∉ group_members db') ∧ get gid (groups db') = None
  | (inl (SoleHolderError l), db') =>
      db' = db ∧ l ≠ [] ∧
      ∀ x, x ∈ l ↔ ∃ r, r ∈ rules db ∧ x = rule_of db r ∧ (∀ g, g ∈ ruleGroups x ↔ g = gid) ∧ ruleUsers x = []
  | (inl e, db') => e = ErrGroupNotFound ∧ db' = db ∧ get gid (groups db) = None
  end.
Proof.
  unfold DeleteGroup. destruct (get gid (groups db)) as [g|] eqn:Eg; cbn [is_none]; [|done].
  destruct (List.filter (sole_holder gid db) (sorted_rules db)) as [|r0 l] eqn:El.
  - split; [done|]. split; [done|]. split; [|split; [|split]].
    + intros r Hr. rewrite !has_holder. cbn [rule_groups rule_users]. intros [[g' Hg']|?]; [|by right].
      destruct (decide (g' = gid)) as [->|Hne]; [|left; exists g'; apply elem_filter; split; [done|]; cbn; by rewrite (proj2 (String.eqb_neq _ _) Hne)].
      destruct (sole_holder gid db r) eqn:Es.
      * exfalso. assert (Hin : r ∈ List.filter (sole_holder gid db) (sorted_rules db)); [|by rewrite El in Hin; apply not_elem_of_nil in Hin].
        apply elem_filter. split; [|done]. unfold sorted_rules. by rewrite sort_stable_perm.
      * unfold sole_holder in Es. rewrite bool_decide_eq_true_2 in Es by done. cbn [andb] in Es.
        apply andb_false_iff in Es as [Es|Es]; apply negb_false_iff, existsb_elem in Es as ([k x] & Hin & Hx); cbn [fst snd] in Hx.
        -- apply andb_true_iff in Hx as [->%Z.eqb_eq Hx]. left. exists x. by apply elem_filter.
        -- apply Z.eqb_eq in Hx as ->. right. by exists x.
    + intros r [_ Hn]%elem_filter. cbn in Hn. by rewrite String.eqb_refl in Hn.
    + intros u [_ Hn]%elem_filter. cbn in Hn. by rewrite String.eqb_refl in Hn.
    + apply get_none. intros (x & Hk & [_ Hx]%elem_filter)%list_elem_of_fmap. apply negb_true_iff, not_true_iff_false in Hx. apply Hx. by apply has_key_spec.
  - split; [done|]. split; [done|]. intros x. rewrite <- El, list_elem_of_fmap. split.
    + intros (r & -> & [Hin Hs]%elem_filter). exists r. unfold sorted_rules in Hin. rewrite sort_stable_perm in Hin. apply sole_spec in Hs. done.
    + intros (r & Hr & -> & Hs). exists r. split; [done|]. apply elem_filter. unfold sorted_rules. rewrite sort_stable_perm. split; [done|]. by apply sole_spec.
Qed.

(** ** The alert on a rule that targets nothing any more

    [ClaimUnmatchedAlert] and the sweep (Groups.v): the admins are told once. *)

Inductive group_op :=
| GCreate (id name : string)
| GRename (id name : string)
| GDelete (id : string)
| GAdd (gid uid : string)
| GRemove (gid uid : string)
| RCreate (r : Rule)
| RUpdate (r : Rule)
| RDelete (id : Z)
| RMatched (ids : list Z)
| RClaim (id : Z)
| OnUsers (op : user_op).

Section Alerts.
Context `{PGLower}.

Definition with_people (db : GDB) (p : UDB) : GDB :=
  mkGDB p (groups db) (group_members db) (rules db) (rule_groups db) (rule_users db) (next_rule db).

Definition apply_group_op (now : time) (op : group_op) (db : GDB) : GDB :=
  match op with
  | GCreate id name => (CreateGroup now id name db).2
  | GRename id name => (RenameGroup id name db).2
  | GDelete id => (DeleteGroup id db).2
  | GAdd gid uid => (AddGroupMember gid uid db).2
  | GRemove gid uid => RemoveGroupMember gid uid db
  | RCreate r => (CreateAccessRule now r db).2
  | RUpdate r => (UpdateAccessRule now r db).2
  | RDelete id => (DeleteAccessRule id db).2
  | RMatched ids => SetAccessRulesMatched now ids db
  | RClaim id => (ClaimUnmatchedAlert now id db).2
  | OnUsers op => with_people db (apply_user_op now op (people db))
  end.

Definition run_group_ops (l : list (time * group_op)) (db : GDB) : GDB := fold_left (λ db x, apply_group_op x.1 x.2 db) l db.

(** What lets a rule be told of again: it targets something, or is changed. *)
Definition clears (id : Z) (op : group_op) : Prop :=
  match op with RMatched ids => id ∈ ids | RUpdate r => ruleID r = id | _ => False end.

(** Rules' identifiers are the sequence's, and each is one rule's. *)
Record rules_ok (db : GDB) : Prop := {
  ro_ids : NoDup (RowRule <$> rules db);
  ro_below : ∀ r, r ∈ rules db → RowRule r < next_rule db
}.

(** Nothing more is to be said of the rule. *)
Definition told (id : Z) (db : GDB) : Prop :=
  id < next_rule db ∧ ∀ r, r ∈ rules db → RowRule r = id → is_Some (UnmatchedAlertedAt r).

Lemma told_same id db db' : rules db' = rules db → next_rule db ≤ next_rule db' → told id db → told id db'.
Proof. intros E Hn [H1 H2]. split; [lia|]. by rewrite E. Qed.

Lemma told_update id db db' p f : rules db' = update_where p f (rules db) → next_rule db' = next_rule db →
  (∀ r, RowRule (f r) = RowRule r) → (∀ r, RowRule r = id → p r = true → is_Some (UnmatchedAlertedAt (f r))) → told id db → told id db'.
Proof.
  intros E Hn Hf Hp [H1 H2]. split; [by rewrite Hn|]. rewrite E. intros r (r0 & Hin & ->)%update_elem Hid. destruct (p r0) eqn:Ep.
  - apply Hp; [by rewrite Hf in Hid|done].
  - by apply H2.
Qed.

Lemma set_holders_rules id r db db' : setHolders id r db = Some db' → rules db' = rules db ∧ next_rule db' = next_rule db.
Proof. unfold setHolders. cbv zeta. destruct (_ && _); [|done]. by intros [= <-]. Qed.

Lemma told_step now op db id : ¬ clears id op → told id db → told id (apply_group_op now op db).
Proof.
  intros Hc Ht. destruct op as [i n|i n|i|g u|g u|r|r|i|ids|i|op]; cbn [apply_group_op].
  - unfold CreateGroup. cbv zeta. by repeat case_match.
  - unfold RenameGroup. cbv zeta. by repeat case_match.
  - unfold DeleteGroup. by repeat case_match.
  - unfold AddGroupMember. by repeat case_match.
  - done.
  - unfold CreateAccessRule. cbv zeta. destruct (negb (target_ok r)); [apply (told_same id db); [done| |done]; cbn; lia|].
    destruct (setHolders _ _ _) as [db'|] eqn:E; [|apply (told_same id db); [done| |done]; cbn; lia]. apply set_holders_rules in E as [E1 E2].
    destruct Ht as [H1 H2]. cbn in E1, E2 |- *. split; [lia|]. rewrite E1. intros x [Hx| ->]%elem_snoc; [by apply H2|]. cbn. lia.
  - unfold UpdateAccessRule. cbv zeta. destruct (_ =? 0)%nat; [done|]. destruct (negb (target_ok r)); [done|].
    destruct (setHolders _ _ _) as [db'|] eqn:E; [|done]. apply set_holders_rules in E as [E1 E2]. cbn in E1, E2 |- *.
    eapply (told_update id db); [exact E1|exact E2|done| |done]. intros x Hx Hr. unfold is_rule in Hr. apply Z.eqb_eq in Hr. exfalso. apply Hc. cbn. lia.
  - unfold DeleteAccessRule. destruct (_ =? 0)%nat; [done|]. destruct Ht as [H1 H2]. split; [done|]. intros r [Hr _]%elem_filter. by apply H2.
  - unfold SetAccessRulesMatched. destruct ids as [|i ids]; [done|]. eapply (told_update id db); [done..| |done].
    intros r Hr [Hin _]%andb_true_iff. apply bool_decide_eq_true in Hin. exfalso. apply Hc. cbn. by rewrite <- Hr.
  - eapply (told_update id db); [done..| |done]. intros r _ _. cbn. by eexists.
  - done.
Qed.

Lemma told_run l db id : Forall (λ x, ¬ clears id x.2) l → told id db → told id (run_group_ops l db).
Proof.
  revert db. induction l as [|x l IH]; intros db; [done|]. intros [Hx Hl]%Forall_cons Ht. apply (IH _ Hl). by apply told_step.
Qed.

Lemma claimed_told now id db : rules_ok db → (ClaimUnmatchedAlert now id db).1 = true → told id (ClaimUnmatchedAlert now id db).2.
Proof.
  intros [Hid Hb] Hc. unfold ClaimUnmatchedAlert in *. cbn [fst snd] in *. apply Nat.eqb_eq in Hc.
  assert (Hex : ∃ r, r ∈ rules db ∧ claimable id r = true).
  { unfold affected in Hc. destruct (List.filter (claimable id) (rules db)) as [|r l] eqn:E; [done|]. exists r.
    assert (Hr : r ∈ List.filter (claimable id) (rules db)) by (rewrite E; by left). by apply elem_filter in Hr. }
  destruct Hex as (r0 & Hr0 & Hcl). pose proof Hcl as [[Hr0id%Z.eqb_eq _]%andb_true_iff _]%andb_true_iff.
  split; cbn; [rewrite <- Hr0id; by apply Hb|]. intros r (x & Hx & ->)%update_elem Hr. destruct (claimable id x) eqn:Ex; [by eexists|].
  assert (x = r0) as ->; [|by rewrite Hcl in Ex]. apply list_elem_of_lookup in Hx as [i Hi], Hr0 as [j Hj].
  assert (i = j) as ->; [|congruence]. apply (NoDup_lookup _ i j id Hid); rewrite list_lookup_fmap; [rewrite Hi|rewrite Hj]; cbn; by f_equal.
Qed.

Lemma told_not_claimed now id db : told id db → (ClaimUnmatchedAlert now id db).1 = false.
Proof.
  intros [_ H2]. unfold ClaimUnmatchedAlert. cbn [fst]. apply Nat.eqb_neq. assert (affected (claimable id) (rules db) = 0%nat) as ->; [|done].
  apply affected_spec. intros r Hr. unfold claimable, is_rule. destruct (Z.eqb_spec (RowRule r) id) as [E|]; [|done].
  destruct (H2 r Hr E) as [t ->]. cbn. by rewrite andb_false_r.
Qed.

(** ** Every state the operations reach has such identifiers *)

Definition noGroups (p : UDB) : GDB := mkGDB p [] [] [] [] [] 1.

Lemma update_ids p f l : (∀ r, RowRule (f r) = RowRule r) → RowRule <$> update_where p f l = RowRule <$> l.
Proof. intros Hf. by apply update_fmap. Qed.

Lemma rules_ok_ids db db' : RowRule <$> rules db' = RowRule <$> rules db → next_rule db ≤ next_rule db' → rules_ok db → rules_ok db'.
Proof.
  intros E Hn [H1 H2]. split; [by rewrite E|]. intros r Hr%(list_elem_of_fmap_2 RowRule). rewrite E in Hr.
  apply list_elem_of_fmap in Hr as (x & -> & Hx). pose proof (H2 x Hx). lia.
Qed.

Lemma rules_ok_step now op db : rules_ok db → rules_ok (apply_group_op now op db).
Proof.
  intros Hok. destruct op as [i n|i n|i|g u|g u|r|r|i|ids|i|op]; cbn [apply_group_op].
  - unfold CreateGroup. cbv zeta. repeat case_match; by apply (rules_ok_ids db).
  - unfold RenameGroup. cbv zeta. repeat case_match; by apply (rules_ok_ids db).
  - unfold DeleteGroup. repeat case_match; by apply (rules_ok_ids db).
  - unfold AddGroupMember. repeat case_match; by apply (rules_ok_ids db).
  - by apply (rules_ok_ids db).
  - unfold CreateAccessRule. cbv zeta. destruct (negb (target_ok r)); [apply (rules_ok_ids db); [done| |done]; cbn; lia|].
    destruct (setHolders _ _ _) as [db'|] eqn:E; [|apply (rules_ok_ids db); [done| |done]; cbn; lia]. apply set_holders_rules in E as [E1 E2].
    destruct Hok as [H1 H2]. cbn in E1, E2 |- *. split.
    + rewrite E1, fmap_app. apply NoDup_app. split; [done|]. split; [|apply NoDup_singleton].
      intros x (r1 & -> & Hr1)%list_elem_of_fmap Hin%list_elem_of_singleton. cbn in Hin. pose proof (H2 r1 Hr1). lia.
    + rewrite E1, E2. intros x [Hx| ->]%elem_snoc; [pose proof (H2 x Hx)|cbn]; lia.
  - unfold UpdateAccessRule. cbv zeta. destruct (_ =? 0)%nat; [done|]. destruct (negb (target_ok r)); [done|].
    destruct (setHolders _ _ _) as [db'|] eqn:E; [|done]. apply set_holders_rules in E as [E1 E2]. cbn in E1, E2 |- *.
    apply (rules_ok_ids db); [rewrite E1; by apply update_ids|lia|done].
  - unfold DeleteAccessRule. destruct (_ =? 0)%nat; [done|]. destruct Hok as [H1 H2]. split; cbn.
    + clear H2. induction (rules db) as [|x l IH]; [constructor|]. rewrite fmap_cons in H1. apply NoDup_cons in H1 as [Hn H1]. cbn [List.filter].
      destruct (negb (is_rule i x)); [|by apply IH]. rewrite fmap_cons. apply NoDup_cons. split; [|by apply IH].
      intros (y & Hy & [Hin _]%elem_filter)%list_elem_of_fmap. apply Hn. rewrite Hy. by apply list_elem_of_fmap_2.
    + intros r [Hr _]%elem_filter. by apply H2.
  - unfold SetAccessRulesMatched. destruct ids as [|i ids]; [done|]. apply (rules_ok_ids db); [by apply update_ids|done|done].
  - apply (rules_ok_ids db); [by apply update_ids|done|done].
  - by apply (rules_ok_ids db).
Qed.

Lemma rules_ok_run l db : rules_ok db → rules_ok (run_group_ops l db).
Proof. revert db. induction l as [|x l IH]; intros db Hdb; [done|]. apply IH. by apply rules_ok_step. Qed.

Lemma rules_ok_none p : rules_ok (noGroups p).
Proof. split; cbn; [constructor|]. intros r Hr. by apply not_elem_of_nil in Hr. Qed.
End Alerts.

(** ** Properties *)

(** An alert is claimed once. Whatever is done on the tables, by this
    server and others, between two claims of the alert on a rule that both
    succeed, the rule was seen to target something again, or was changed. *)
Theorem alert_claimed_once `{PGLower} p before between id t1 t2 :
  let db := run_group_ops before (noGroups p) in
  (ClaimUnmatchedAlert t1 id db).1 = true →
  (ClaimUnmatchedAlert t2 id (run_group_ops between (ClaimUnmatchedAlert t1 id db).2)).1 = true →
  ∃ t op, (t, op) ∈ between ∧ clears id op.
Proof.
  cbv zeta. intros H1 H2. set (db := run_group_ops before (noGroups p)) in *.
  assert (Hdec : ∀ op, Decision (clears id op)) by (intros []; cbn; apply _).
  destruct (decide (Exists (λ x, clears id x.2) between)) as [He|Hn].
  - apply Exists_exists in He as ([t op] & Hin & Hc). by exists t, op.
  - exfalso. apply not_Exists_Forall in Hn; [|intros x; apply Hdec].
    assert (Ht : told id (ClaimUnmatchedAlert t1 id db).2) by (apply claimed_told; [apply rules_ok_run, rules_ok_none|done]).
    apply (told_run between) in Ht; [|done]. apply (told_not_claimed t2) in Ht. by rewrite Ht in H2.
Qed.

(** ** The sweep *)

Section Sweep.
Context `{PGLower}.

Definition noFaults : SweepFaults := mkFaults false false false (λ _, false) false.

(** What a sweep is to tell the admins of. *)
Definition lost_rules (published : list Tool) (db : GDB) : list RuleRow :=
  List.filter (λ r, bool_decide (Targets (rule_of db r) published = []) && claimable (RowRule r) r) (sorted_rules db).

Definition tell (db : GDB) (r : RuleRow) : list (string * string) := (λ a, (a, UnmatchedRuleText (rule_of db r))) <$> activeAdmins db.

Lemma claim_row now r db : rules_ok db → r ∈ rules db → (ClaimUnmatchedAlert now (RowRule r) db).1 = claimable (RowRule r) r.
Proof.
  intros [Hid _] Hr. unfold ClaimUnmatchedAlert. cbn [fst]. apply list_elem_of_split in Hr as (l1 & l2 & E). rewrite E in *.
  assert (Hoff : ∀ x, x ∈ l1 ++ l2 → claimable (RowRule r) x = false).
  { intros x Hx. unfold claimable, is_rule. destruct (Z.eqb_spec (RowRule x) (RowRule r)) as [Ex|]; [|done]. exfalso.
    rewrite <- Permutation_middle in Hid. cbn in Hid. apply NoDup_cons in Hid as [Hn _]. apply Hn. rewrite <- Ex. by apply list_elem_of_fmap_2. }
  unfold affected. rewrite List.filter_app. cbn [List.filter].
  assert (Hnil : ∀ l, (∀ x, x ∈ l → claimable (RowRule r) x = false) → List.filter (claimable (RowRule r)) l = []).
  { intros l Hl. apply filter_existsb_nil, Forall_forall. done. }
  rewrite (Hnil l1), (Hnil l2) by (intros x Hx; apply Hoff; set_solver). by destruct (claimable (RowRule r) r).
Qed.

Lemma claim_others now id r db : r ∈ rules db → RowRule r ≠ id → r ∈ rules (ClaimUnmatchedAlert now id db).2.
Proof.
  intros Hr Hne. cbn. apply update_elem. exists r. split; [done|]. unfold claimable, is_rule. by rewrite (proj2 (Z.eqb_neq _ _) Hne).
Qed.

Lemma alert_unmatched_tells now db0 l db :
  rules_ok db → people db = people db0 → NoDup (RowRule <$> l) → (∀ r, r ∈ l → r ∈ rules db) →
  (alert_unmatched now noFaults (rule_of db0 <$> l) db).1 = mjoin (tell db0 <$> List.filter (λ r, claimable (RowRule r) r) l).
Proof.
  revert db. induction l as [|r l IH]; intros db Hok Hp Hnd Hin; [done|]. rewrite fmap_cons in *. apply NoDup_cons in Hnd as [Hn Hnd].
  cbn [alert_unmatched noFaults claim_fails users_fail]. change (ruleID (rule_of db0 r)) with (RowRule r).
  pose proof (claim_row now r db Hok (Hin r ltac:(left))) as Hc.
  assert (Hok' : rules_ok (ClaimUnmatchedAlert now (RowRule r) db).2) by apply (rules_ok_step now (RClaim (RowRule r)) db Hok).
  assert (Hin' : ∀ x, x ∈ l → x ∈ rules (ClaimUnmatchedAlert now (RowRule r) db).2).
  { intros x Hx. apply claim_others; [apply Hin; by right|]. intros E. apply Hn. rewrite <- E. by apply list_elem_of_fmap_2. }
  assert (Hp' : people (ClaimUnmatchedAlert now (RowRule r) db).2 = people db0) by exact Hp.
  destruct (ClaimUnmatchedAlert now (RowRule r) db) as [claimed db1]. cbn [fst snd] in *. specialize (IH db1 Hok' Hp' Hnd Hin').
  destruct (alert_unmatched now noFaults (rule_of db0 <$> l) db1) as [rest db2]. cbn [fst] in *. subst rest claimed. cbn [List.filter].
  rewrite andb_true_r. destruct (claimable (RowRule r) r); [|done]. rewrite fmap_cons. cbn. f_equal. unfold tell, activeAdmins. by rewrite Hp'.
Qed.

Lemma sorted_ids db : rules_ok db → NoDup (RowRule <$> sorted_rules db).
Proof. intros [Hid _]. unfold sorted_rules. by rewrite sort_stable_perm. Qed.
End Sweep.

(** A sweep that reads and writes without failing tells every admin who
    can log in, once each, of every rule that targeted something, targets
    nothing of what is published, and was not told of since; in the order of
    the rules, and of nothing else. *)
Theorem sweep_tells_admins `{PGLower} p before now published :
  let db := run_group_ops before (noGroups p) in
  (sweepAccessRules now noFaults published db).1 = mjoin (tell db <$> lost_rules published db).
Proof.
  cbv zeta. set (db := run_group_ops before (noGroups p)).
  assert (Hok : rules_ok db) by apply rules_ok_run, rules_ok_none. clearbody db. unfold sweepAccessRules. cbv zeta.
  cbn [noFaults rules_fail tools_fail mark_fails]. rewrite orb_false_r. cbn [orb].
  case_bool_decide as El.
  { unfold lost_rules. unfold ListAccessRules in El. by apply fmap_nil_inv in El as ->. }
  set (ids := ruleID <$> List.filter (targets_something published) (ListAccessRules db)). set (db1 := SetAccessRulesMatched now ids db).
  assert (Hun : List.filter (λ r, negb (targets_something published r)) (ListAccessRules db) =
    rule_of db <$> List.filter (λ r, negb (targets_something published (rule_of db r))) (sorted_rules db)).
  { unfold ListAccessRules. generalize (sorted_rules db) as l. induction l as [|r l IH]; [done|]. rewrite fmap_cons. cbn [List.filter].
    destruct (negb (targets_something published (rule_of db r))); [by rewrite fmap_cons, IH|done]. }
  rewrite Hun. rewrite alert_unmatched_tells.
  - f_equal. f_equal. unfold lost_rules. generalize (sorted_rules db) as l. induction l as [|r l IH]; [done|]. cbn [List.filter]. unfold targets_something at 1.
    rewrite negb_involutive. destruct (bool_decide _); cbn [andb List.filter]; [|done]. by destruct (claimable _ _); rewrite IH.
  - exact (rules_ok_step now (RMatched ids) db Hok).
  - unfold db1, SetAccessRulesMatched. by destruct ids.
  - pose proof (sorted_ids db Hok) as Hnd. clear -Hnd. induction (sorted_rules db) as [|r l IH]; [constructor|]. rewrite fmap_cons in Hnd.
    apply NoDup_cons in Hnd as [Hn Hnd]. cbn [List.filter]. destruct (negb _); [|by apply IH]. rewrite fmap_cons. apply NoDup_cons. split; [|by apply IH].
    intros (y & Hy & [Hin _]%elem_filter)%list_elem_of_fmap. apply Hn. rewrite Hy. by apply list_elem_of_fmap_2.
  - intros r [Hr Ht]%elem_filter. unfold sorted_rules in Hr. rewrite sort_stable_perm in Hr. unfold db1, SetAccessRulesMatched.
    destruct ids as [|i ids'] eqn:Eids; [done|]. rewrite <- Eids. cbn. apply update_elem. exists r. split; [done|].
    assert (to_mark ids r = false) as ->; [|done]. unfold to_mark. rewrite bool_decide_eq_false_2; [done|]. unfold ids.
    intros (x & Hx & [Hin Htx]%elem_filter)%list_elem_of_fmap. unfold ListAccessRules in Hin. apply list_elem_of_fmap in Hin as (y & -> & Hy).
    unfold sorted_rules in Hy. rewrite sort_stable_perm in Hy. cbn in Hx.
    assert (r = y) as ->; [|by rewrite Htx in Ht]. destruct Hok as [Hid _]. apply list_elem_of_lookup in Hr as [a Ha], Hy as [b Hb].
    assert (a = b) as ->; [|congruence]. apply (NoDup_lookup _ a b (RowRule r) Hid); rewrite list_lookup_fmap; [by rewrite Ha|rewrite Hb; cbn; by rewrite Hx].
Qed.

(** ** A rule, its group, and a server renamed *)

#[local] Existing Instance plain_pg.

Definition crm : Rule := mkRule 0 KindMCPServer "crm" ["sales"] [].

Definition admin_tables : UDB :=
  Users.run [(1, OpCreate (Users.mkUser "root" "root@x.fr" "" "h" UserRoleAdmin None None 0));
                  (1, OpCreate (Users.mkUser "ann" "ann@x.fr" "" "h" UserRoleStandard None None 0))].

(** [sales], with ann, holds the CRM's tools; the sweep saw them. *)
Definition crm_ops : list (time * group_op) :=
  [(2, GCreate "sales" "Sales"); (3, GAdd "sales" "ann"); (4, RCreate crm); (5, RMatched [1])].

Definition crm_db : GDB := run_group_ops crm_ops (noGroups admin_tables).

Definition crm_tool : Tool := FromMCP "crm" "crm_read".

Lemma revoking_closes_witness :
  SnapshotAllowed (AccessSnapshot crm_db) "ann" crm_tool = true ∧
  SnapshotAllowed (AccessSnapshot (RemoveGroupMember "sales" "ann" crm_db)) "ann" crm_tool = false ∧
  narrower crm_db (RemoveGroupMember "sales" "ann" crm_db).
Proof.
  split; [vm_compute; reflexivity|]. split; [vm_compute; reflexivity|]. exact (proj1 (proj2 (revoking_closes crm_db)) "sales" "ann").
Defined.

Lemma deleted_group_leaves_holders_witness :
  match (DeleteGroup "sales" crm_db).1 with inl (SoleHolderError l) => l ≠ [] | _ => False end.
Proof.
  pose proof (deleted_group_leaves_holders "sales" crm_db) as H. destruct (DeleteGroup "sales" crm_db) as [[e|[]] db'] eqn:E.
  - destruct e as [| | |l|]; [..|exact (proj1 (proj2 H))|]; apply (f_equal fst) in E; vm_compute in E; discriminate E.
  - apply (f_equal fst) in E; vm_compute in E; discriminate E.
Defined.

Lemma alert_claimed_once_witness :
  (ClaimUnmatchedAlert 6 1 crm_db).1 = true ∧
  ∃ t op, (t, op) ∈ [(7, RMatched [1])] ∧ clears 1 op.
Proof.
  split; [vm_compute; reflexivity|].
  apply (alert_claimed_once admin_tables crm_ops [(7, RMatched [1])] 1 6 8); vm_compute; reflexivity.
Defined.

Lemma sweep_tells_admins_witness :
  (sweepAccessRules 6 noFaults [] crm_db).1 = [("root", UnmatchedRuleText (mkRule 1 KindMCPServer "crm" ["sales"] []))].
Proof. unfold crm_db. rewrite (sweep_tells_admins admin_tables crm_ops 6 []). vm_compute. reflexivity. Defined.

(** The admins cannot be listed once the alert is claimed: no one is told, by
    this sweep or by the next. *)
Example alert_lost :
  let '(told, db) := sweepAccessRules 6 (mkFaults false false false (λ _, false) true) [] crm_db in
  told = [] ∧ (sweepAccessRules 7 noFaults [] db).1 = [].
Proof. vm_compute. done. Qed.
