(* ===== verification/Agents.v ===== *)
(** * Agents and published tools (src/store/postgres.go, src/config/config.go,
    src/web/admin/edit.go, src/cmd/agent/agents.go, tools.go)

    The table of agents, who writes it (the seed file, the back-office's form),
    the table of the tools the workers publish, and the worker's copy of both
    ([refreshCatalog], on Catalog.v). *)

From S2P Require Import Prelude GoStr Utf8 GoPath Table Codes Access Users Catalog.
Open Scope string_scope.
Open Scope Z_scope.
Open Scope list_scope.

(** ** Agents (src/store/store.go) *)

Definition LLMOnMachineNever : string := "never".
Definition LLMOnMachinePrefer : string := "prefer".
Definition LLMOnMachineRequire : string := "require".

Record Agent := mkAgent {
  AgID : string;
  AgName : string;
  AgMention : string;
  AgDescription : string;
  AgSkills : list string;
  AgTools : list string;
  AgOnMachine : string;
  AgRevision : Z;
  AgCreated : time;
  AgUpdated : time
}.

#[export] Instance agent_key : Keyed Agent := AgID.

Definition LLMOn (a : Agent) : string := if String.eqb (AgOnMachine a) "" then LLMOnMachineNever else AgOnMachine a.

Definition MentionName (a : Agent) : string := if negb (String.eqb (AgMention a) "") then AgMention a else AgID a.

(** ** A definition's check (src/config/config.go) *)

Definition is_lower (c : ascii) : bool := (97 <=? byte_of c) && (byte_of c <=? 122).
Definition is_upper (c : ascii) : bool := (65 <=? byte_of c) && (byte_of c <=? 90).

Fixpoint last_byte (p : ascii → bool) (c : ascii) (s : string) : bool :=
  match s with "" => p c | String d s => last_byte p d s end.

(** [^[a-z]([a-z0-9-]*[a-z0-9])?$]. *)
Definition agentIDPattern (s : string) : bool :=
  let word c := is_lower c || is_digit c in
  match s with
  | "" => false
  | String c rest => is_lower c && all_bytes (λ d, word d || Ascii.eqb d "-") rest && last_byte word c rest
  end.

Definition mention_char (c : ascii) : bool := is_lower c || is_upper c || is_digit c || Ascii.eqb c "_" || Ascii.eqb c "-".

(** [^[A-Za-z0-9_-]{1,32}$]. *)
Definition MentionPattern (s : string) : bool := (1 <=? len s) && (len s <=? 32) && all_bytes mention_char s.

Definition maxAgentIDLen : Z := 58.

Record AgentDefinition := mkAgentDef {
  AdID : string;
  AdName : string;
  AdMention : string;
  AdDescription : string;
  AdSkills : list string;
  AdTools : list string;
  AdOnMachine : string
}.

Inductive BadAgent := BadID | LongID | NoName | BadMentionName | BadOnMachine | BadGlob (glob : string) | NoAgents | DuplicateID.

Definition CheckToolGlob (g : string) : bool := validGlob g.

(** [None] when the definition is valid. *)
Definition Validate (a : AgentDefinition) : option BadAgent :=
  if negb (agentIDPattern (AdID a)) then Some BadID
  else if maxAgentIDLen <? len (AdID a) then Some LongID
  else if String.eqb (AdName a) "" then Some NoName
  else if negb (String.eqb (AdMention a) "") && negb (MentionPattern (AdMention a)) then Some BadMentionName
  else if negb (contains [""; "never"; "prefer"; "require"] (AdOnMachine a)) then Some BadOnMachine
  else match List.find (λ g, negb (CheckToolGlob g)) (AdTools a) with Some g => Some (BadGlob g) | None => None end.

Fixpoint check_definitions (seen : list string) (l : list AgentDefinition) : option BadAgent :=
  match l with
  | [] => None
  | a :: l =>
      match Validate a with
      | Some e => Some e
      | None => if contains seen (AdID a) then Some DuplicateID else check_definitions (AdID a :: seen) l
      end
  end.

(** What is checked of a seed file, read and parsed. *)
Definition LoadAgentDefinitions (agents : list AgentDefinition) : BadAgent + list AgentDefinition :=
  match agents with
  | [] => inl NoAgents
  | _ => match check_definitions [] agents with Some e => inl e | None => inr agents end
  end.

Definition agent_of (d : AgentDefinition) : Agent :=
  mkAgent (AdID d) (AdName d) (AdMention d) (AdDescription d) (AdSkills d) (AdTools d) (AdOnMachine d) 0 0 0.

(** ** The table (src/store/postgres.go) *)

Inductive AgentError := ErrAgentExists | ErrMentionTaken | ErrAgentNotFound | ErrAgentConflict | ErrAgentSQL | ErrDefinition (e : BadAgent).

Definition outcome (A : Type) : Type := (AgentError + A) * list Agent.

Section Agents.
Context `{PGLower}.

(** Another agent's mention or ID is this one's. *)
Definition clashes (a x : Agent) : bool :=
  negb (has_key (AgID a) x) &&
  ((negb (String.eqb (AgMention a) "") && String.eqb (lower (AgID x)) (lower (AgMention a))) ||
   (negb (String.eqb (AgMention x) "") && String.eqb (lower (AgMention x)) (lower (AgID a)))).

(** [idx_agents_mention]. *)
Definition same_mention (a x : Agent) : bool :=
  negb (has_key (AgID a) x) && negb (String.eqb (AgMention a) "") && negb (String.eqb (AgMention x) "") &&
  String.eqb (lower (AgMention x)) (lower (AgMention a)).

Definition on_machine_ok (a : Agent) : bool := contains [LLMOnMachineNever; LLMOnMachinePrefer; LLMOnMachineRequire] (LLMOn a).

Definition writeAgent {A} (a : Agent) (write : list Agent → outcome A) (t : list Agent) : outcome A :=
  if existsb (clashes a) t then (inl ErrMentionTaken, t) else write t.

Definition new_agent (now : time) (a : Agent) : Agent :=
  mkAgent (AgID a) (AgName a) (AgMention a) (AgDescription a) (AgSkills a) (AgTools a) (LLMOn a) 1 now now.

Definition InsertAgentIfAbsent (now : time) (a : Agent) (t : list Agent) : outcome bool :=
  writeAgent a (λ t,
    if negb (on_machine_ok a) then (inl ErrAgentSQL, t)
    else
      match get (AgID a) t with
      | Some _ => (inr false, t)
      | None => if existsb (same_mention a) t then (inl ErrMentionTaken, t) else (inr true, t ++ [new_agent now a])
      end) t.

Definition ListAgents (t : list Agent) : list Agent := sort_stable (λ a b, collate (AgID a) (AgID b)) t.

Definition GetAgent (id : string) (t : list Agent) : option Agent := get id t.

Definition CreateAgent (now : time) (a : Agent) (t : list Agent) : outcome unit :=
  match InsertAgentIfAbsent now a t with
  | (inl e, t) => (inl e, t)
  | (inr true, t) => (inr tt, t)
  | (inr false, t) => (inl ErrAgentExists, t)
  end.

Definition set_definition (now : time) (a x : Agent) : Agent :=
  mkAgent (AgID x) (AgName a) (AgMention a) (AgDescription a) (AgSkills a) (AgTools a) (LLMOn a) (AgRevision x + 1) (AgCreated x) now.

(** [later] is the table as it is when the agent is read again to say why
    nothing was updated. *)
Definition UpdateAgent (now : time) (a : Agent) (expectedRevision : Z) (later : list Agent) (t : list Agent) : outcome Z :=
  let at_revision x := has_key (AgID a) x && (AgRevision x =? expectedRevision) in
  writeAgent a (λ t,
    match List.find at_revision t with
    | None => (inl (if is_none (GetAgent (AgID a) later) then ErrAgentNotFound else ErrAgentConflict), t)
    | Some x =>
        if negb (on_machine_ok a) then (inl ErrAgentSQL, t)
        else if existsb (same_mention a) t then (inl ErrMentionTaken, t)
        else (inr (AgRevision x + 1), update_where at_revision (set_definition now a) t)
    end) t.

Definition DeleteAgent (id : string) (t : list Agent) : outcome unit :=
  if (affected (has_key id) t =? 0)%nat then (inl ErrAgentNotFound, t)
  else (inr tt, List.filter (λ a, negb (has_key id a)) t).

(** ** Who writes it *)

(** [seedAgents], from a file that was read: the first error stops it. *)
Fixpoint insert_all (now : time) (defs : list AgentDefinition) (t : list Agent) : option AgentError * list Agent :=
  match defs with
  | [] => (None, t)
  | d :: defs =>
      match InsertAgentIfAbsent now (agent_of d) t with
      | (inl e, t) => (Some e, t)
      | (inr _, t) => insert_all now defs t
      end
  end.

Definition seedAgents (now : time) (file : list AgentDefinition) (t : list Agent) : option AgentError * list Agent :=
  match LoadAgentDefinitions file with
  | inl e => (Some (ErrDefinition e), t)
  | inr defs => match t with [] => insert_all now defs t | _ => (None, t) end
  end.
End Agents.

(** [agentForm] (src/web/admin/edit.go): what is typed, the revision as
    [strconv.ParseInt] gives it. *)
Record agentForm := mkAgentForm {
  AfID : string;
  AfName : string;
  AfMention : string;
  AfDescription : string;
  AfOnMachine : string;
  AfSkills : string;
  AfPicked : list string;
  AfGlobs : string;
  AfRevision : Z
}.

Definition formFromRequest (f : agentForm) : agentForm :=
  mkAgentForm (trim_space (AfID f)) (trim_space (AfName f)) (trim_prefix (trim_space (AfMention f)) "@") (trim_space (AfDescription f))
    (AfOnMachine f) (AfSkills f) (AfPicked f) (AfGlobs f) (AfRevision f).

Definition lf : ascii := byte 10.
Definition newline : string := String lf "".

Definition add_line (out : list string) (l : string) : list string :=
  let l := trim_space l in if negb (String.eqb l "") && negb (contains out l) then out ++ [l] else out.

Definition lines (s : string) : list string := fold_left add_line (split_byte lf s) [].

Definition form_allowlist (f : agentForm) : list string := lines (String.concat newline (AfPicked f) +:+ newline +:+ AfGlobs f).

Definition form_agent (f : agentForm) : BadAgent + Agent :=
  let d := mkAgentDef (AfID f) (AfName f) (AfMention f) (AfDescription f) (lines (AfSkills f)) (form_allowlist f) (AfOnMachine f) in
  match Validate d with Some e => inl e | None => inr (agent_of d) end.

Section Admin.
Context `{PGLower}.

Definition createAgent (now : time) (f : agentForm) (t : list Agent) : outcome unit :=
  match form_agent (formFromRequest f) with
  | inl e => (inl (ErrDefinition e), t)
  | inr a => CreateAgent now a t
  end.

Definition with_id (id : string) (f : agentForm) : agentForm :=
  mkAgentForm id (AfName f) (AfMention f) (AfDescription f) (AfOnMachine f) (AfSkills f) (AfPicked f) (AfGlobs f) (AfRevision f).

(** The identifier is the page's: it cannot be edited. *)
Definition updateAgent (now : time) (id : string) (f : agentForm) (later t : list Agent) : outcome Z :=
  let f := with_id id (formFromRequest f) in
  match form_agent f with
  | inl e => (inl (ErrDefinition e), t)
  | inr a => UpdateAgent now a (AfRevision f) later t
  end.

(** The default agent is not deleted: [None]. *)
Definition deleteAgent (defaultAgentID id : string) (t : list Agent) : option (AgentError + unit) * list Agent :=
  if String.eqb id defaultAgentID then (None, t) else let '(r, t) := DeleteAgent id t in (Some r, t).
End Admin.

(** ** The published tools (src/store/postgres.go, src/cmd/agent/tools.go) *)

#[export] Instance tool_key : Keyed ToolRecord := TrName.

(** The timeout is kept in whole seconds. *)
Definition stored_tool (t : ToolRecord) : ToolRecord :=
  mkToolRecord (TrName t) (TrQueue t) (TrDescription t) (TrSchema t) (TrKind t) (TrWorkflow t) (TrPrivate t) (TrNeedsContext t)
    (Z.quot (TrTimeout t) second * second) (TrMCPServer t).

Definition UpsertTool (t : ToolRecord) (l : list ToolRecord) : list ToolRecord :=
  match get (TrName t) l with
  | Some _ => update_where (has_key (TrName t)) (λ _, stored_tool t) l
  | None => l ++ [stored_tool t]
  end.

Definition on_queue (queue : string) (t : ToolRecord) : bool := String.eqb (TrQueue t) queue.

Definition DeleteTool (name queue : string) (l : list ToolRecord) : bool * list ToolRecord :=
  let it t := has_key name t && on_queue queue t in (existsb it l, List.filter (λ t, negb (it t)) l).

Definition ListTools `{PGLower} (l : list ToolRecord) : list ToolRecord := sort_stable (λ a b, collate (TrName a) (TrName b)) l.

(** A tool a worker offers, as it publishes it on its queue. *)
Definition published_record (queue : string) (t : ToolRecord) : ToolRecord :=
  mkToolRecord (TrName t) queue (TrDescription t)
    (if String.eqb (TrSchema t) "" then "{" +:+ q "type" +:+ ":" +:+ q "object" +:+ "," +:+ q "properties" +:+ ":{}}" else TrSchema t)
    (TrKind t) (TrWorkflow t) (TrPrivate t) (TrNeedsContext t) (TrTimeout t) (TrMCPServer t).

(** [publishTools]: the tools read before, [None] when they could not be;
    whether Temporal sees a queue served; the writes that fail. The names not
    written. *)
Fixpoint publish_all (existing : list ToolRecord) (served fails : string → bool) (queue : string) (tools l : list ToolRecord) :
    list string * list ToolRecord :=
  match tools with
  | [] => ([], l)
  | t :: tools =>
      let taken := match get (TrName t) existing with
                   | Some prev => negb (on_queue queue prev) && served (TrQueue prev)
                   | None => false
                   end in
      if taken || fails (TrName t) then
        let '(failed, l) := publish_all existing served fails queue tools l in (TrName t :: failed, l)
      else publish_all existing served fails queue tools (UpsertTool (published_record queue t) l)
  end.

Definition publishTools (existing : option (list ToolRecord)) (served fails : string → bool) (queue : string) (tools l : list ToolRecord) :
    list string * list ToolRecord :=
  publish_all (match existing with Some e => e | None => [] end) served fails queue tools l.

Definition delete_all (queue : string) (names : list string) (l : list ToolRecord) : list ToolRecord :=
  fold_left (λ l name, (DeleteTool name queue l).2) names l.

(** [catalogPublisher.Publish]. *)
Definition Publish (existing : option (list ToolRecord)) (served fails delete_fails : string → bool) (queue : string) (put : list ToolRecord)
    (drop : list string) (l : list ToolRecord) : list string * list ToolRecord :=
  let '(retry, l) := match put with [] => ([], l) | _ => publishTools existing served fails queue put l end in
  (retry ++ List.filter delete_fails drop, delete_all queue (List.filter (λ n, negb (delete_fails n)) drop) l).

(** [withdrawUnoffered], of the table it read. *)
Definition withdrawUnoffered (read : list ToolRecord) (offered : string → bool) (mcpPrefixes : list string) (delete_fails : string → bool)
    (queue : string) (l : list ToolRecord) : list ToolRecord :=
  let stale t := on_queue queue t && negb (offered (TrName t)) && negb (existsb (λ p, has_prefix (TrName t) p) mcpPrefixes) in
  delete_all queue (List.filter (λ n, negb (delete_fails n)) (TrName <$> List.filter stale read)) l.

(** ** A worker's copy (src/cmd/agent/agents.go) *)

Definition entry_of_agent (a : Agent) : AgentCatalogEntry :=
  mkEntry (AgID a) (AgName a) (MentionName a) (AgDescription a) (AgSkills a) (AgTools a) (LLMOn a).

Definition loadAgentsFromDB (agents : list Agent) : list AgentCatalogEntry := entry_of_agent <$> agents.

(** What each read gave, [None] when it failed. What a read did not change is
    not set again, which is the same. *)
Definition refreshCatalog (snap : option Snapshot) (agents : option (list Agent)) (tools : option (list ToolRecord)) (c : Catalog) : Catalog :=
  if is_none snap && negb (accessLoaded c) then c
  else
    let c := match snap with Some s => SetAccess s c | None => c end in
    let c := match agents with Some l => SetAgents (loadAgentsFromDB l) c | None => c end in
    match tools with Some l => SetTools l c | None => c end.

(** ** Names *)

Inductive agent_op :=
| OpSeed (file : list AgentDefinition)
| OpCreate (f : agentForm)
| OpUpdate (id : string) (f : agentForm) (later : list Agent)
| OpDelete (defaultAgentID id : string).

Section Names.
Context `{PGLower}.

Definition apply_agent_op (now : time) (op : agent_op) (t : list Agent) : list Agent :=
  match op with
  | OpSeed file => (seedAgents now file t).2
  | OpCreate f => (createAgent now f t).2
  | OpUpdate id f later => (updateAgent now id f later t).2
  | OpDelete d id => (deleteAgent d id t).2
  end.

Definition run_agents (l : list (time * agent_op)) : list Agent := fold_left (λ t x, apply_agent_op x.1 x.2 t) l [].

Definition apart (a x : Agent) : Prop := clashes a x = false ∧ same_mention a x = false.

Definition valid_names (a : Agent) : Prop := agentIDPattern (AgID a) = true ∧ (AgMention a = "" ∨ MentionPattern (AgMention a) = true).

Record agents_ok (t : list Agent) : Prop := {
  ao_keys : keys_ok t;
  ao_valid : Forall valid_names t;
  ao_apart : ∀ a b, a ∈ t → b ∈ t → apart a b
}.

Lemma has_key_sym (a x : Agent) : has_key (AgID a) x = has_key (AgID x) a.
Proof. unfold has_key, Table.row_key, agent_key. apply String.eqb_sym. Qed.

Lemma apart_sym a x : apart a x → apart x a.
Proof.
  unfold apart, clashes, same_mention. rewrite (has_key_sym x a). intros [H1 H2]. split.
  - by rewrite orb_comm, (String.eqb_sym (lower (AgMention a))), (String.eqb_sym (lower (AgID a))).
  - rewrite (String.eqb_sym (lower (AgMention a))). destruct (has_key (AgID a) x), (String.eqb (AgMention x) ""), (String.eqb (AgMention a) ""); done.
Qed.

Lemma apart_own a x : AgID a = AgID x → apart a x.
Proof. intros E. unfold apart, clashes, same_mention. assert (has_key (AgID a) x = true) as -> by (apply has_key_spec; done). done. Qed.

Lemma apart_as a a' x : AgID a = AgID a' → AgMention a = AgMention a' → apart a x → apart a' x.
Proof. intros E1 E2. unfold apart, clashes, same_mention. by rewrite E1, E2. Qed.

Lemma apart_checked a t : existsb (clashes a) t = false → existsb (same_mention a) t = false → ∀ x, x ∈ t → apart a x.
Proof. intros H1 H2 x Hx. split; [by apply (existsb_false_elem _ t)|by apply (existsb_false_elem _ t)]. Qed.

Lemma agents_ok_nil : agents_ok [].
Proof. split; [constructor|constructor|]. intros a b Ha. by apply not_elem_of_nil in Ha. Qed.

Lemma insert_ok now a t : agents_ok t → valid_names a → agents_ok (InsertAgentIfAbsent now a t).2.
Proof.
  intros Hok Hv. unfold InsertAgentIfAbsent, writeAgent. destruct (existsb (clashes a) t) eqn:Hc; [done|].
  destruct (negb (on_machine_ok a)); [done|]. destruct (get (AgID a) t) eqn:Hg; [done|]. destruct (existsb (same_mention a) t) eqn:Hs; [done|].
  destruct Hok as [Hk Hall Hap]. pose proof (apart_checked a t Hc Hs) as Hnew. split; cbn [snd].
  - by apply keys_snoc.
  - apply Forall_app. split; [done|]. by constructor.
  - intros x y Hx%elem_snoc Hy%elem_snoc. assert (∀ z, z ∈ t → apart (new_agent now a) z) as Hn by (intros z Hz; by apply (apart_as a), Hnew).
    destruct Hx as [Hx| ->], Hy as [Hy| ->]; [by apply Hap|apply apart_sym; by apply Hn|by apply Hn|by apply apart_own].
Qed.

#[local] Instance keeps_definition now a : KeepsKey (set_definition now a).
Proof. by intros ?. Qed.

Lemma update_agent_ok now a r later t : agents_ok t → valid_names a → agents_ok (UpdateAgent now a r later t).2.
Proof.
  intros Hok [_ Hv]. unfold UpdateAgent, writeAgent. destruct (existsb (clashes a) t) eqn:Hc; [done|].
  set (at_rev := λ x, _ && _). destruct (List.find at_rev t) as [x|] eqn:Hf; [|done].
  destruct (negb (on_machine_ok a)); [done|]. destruct (existsb (same_mention a) t) eqn:Hs; [done|].
  destruct Hok as [Hk Hall Hap]. pose proof (apart_checked a t Hc Hs) as Hnew.
  assert (∀ y, at_rev y = true → AgID y = AgID a) as Hid by (intros y [E _]%andb_prop; by apply has_key_spec in E).
  assert (∀ y z, y ∈ t → z ∈ t → at_rev y = true → apart (set_definition now a y) z) as Hn.
  { intros y z Hy Hz Ey. apply (apart_as a); [exact (eq_sym (Hid y Ey))|done|by apply Hnew]. }
  split; cbn [snd].
  - by apply keys_update_ok; [apply _|].
  - apply Forall_forall. intros y' (y & Hy & ->)%update_elem. rewrite Forall_forall in Hall. destruct (at_rev y); [|by apply Hall].
    split; [exact (proj1 (Hall y Hy))|exact Hv].
  - intros y' z' (y & Hy & ->)%update_elem (z & Hz & ->)%update_elem. destruct (at_rev y) eqn:Ey, (at_rev z) eqn:Ez.
    + apply apart_own. change (AgID y = AgID z). by rewrite (Hid y), (Hid z).
    + by apply Hn.
    + apply apart_sym. by apply Hn.
    + by apply Hap.
Qed.

Lemma delete_ok id t : agents_ok t → agents_ok (DeleteAgent id t).2.
Proof.
  intros [Hk Hall Hap]. unfold DeleteAgent. destruct (_ =? 0)%nat; [done|]. cbn [snd]. split; [by apply keys_filter|..].
  - apply Forall_forall. intros x [Hx _]%list_elem_of_In%filter_In. rewrite Forall_forall in Hall. by apply Hall, list_elem_of_In.
  - intros x y [Hx _]%list_elem_of_In%filter_In [Hy _]%list_elem_of_In%filter_In. by apply Hap; apply list_elem_of_In.
Qed.

Lemma validate_names d : Validate d = None → valid_names (agent_of d).
Proof.
  unfold Validate, valid_names. cbn [AgID AgMention agent_of]. destruct (agentIDPattern (AdID d)); [|done]. cbn. destruct (maxAgentIDLen <? _); [done|].
  destruct (String.eqb (AdName d) ""); [done|]. destruct (String.eqb_spec (AdMention d) ""); [intros _; split; [done|by left]|]. cbn.
  destruct (MentionPattern (AdMention d)); [|done]. intros _. split; [done|by right].
Qed.

Lemma checked_valid l seen : check_definitions seen l = None → Forall (λ d, Validate d = None) l.
Proof.
  revert seen. induction l as [|d l IH]; intros seen; cbn [check_definitions]; [constructor|]. destruct (Validate d) eqn:E; [done|].
  destruct (contains seen (AdID d)); [done|]. intros Hl. constructor; [done|]. by apply (IH (AdID d :: seen)).
Qed.

Lemma insert_all_ok now l t : agents_ok t → Forall (λ d, Validate d = None) l → agents_ok (insert_all now l t).2.
Proof.
  intros Hok Hl. revert t Hok. induction Hl as [|d l Hd Hl IH]; intros t Hok; cbn [insert_all]; [done|].
  pose proof (insert_ok now (agent_of d) t Hok (validate_names d Hd)) as Hi. destruct (InsertAgentIfAbsent now (agent_of d) t) as [[e|b] t']; [done|by apply IH].
Qed.

Lemma form_agent_names f a : form_agent f = inr a → valid_names a.
Proof. unfold form_agent. destruct (Validate _) eqn:E; [done|]. intros [= <-]. by apply validate_names. Qed.

Lemma agents_run_ok l : agents_ok (run_agents l).
Proof.
  unfold run_agents. assert (agents_ok []) as Hok by apply agents_ok_nil. revert Hok. generalize (@nil Agent). induction l as [|[now op] l IH]; intros t Hok; [done|].
  cbn [fold_left fst snd]. apply IH. destruct op as [file|f|id f later|d id]; cbn [apply_agent_op].
  - unfold seedAgents, LoadAgentDefinitions. destruct file as [|x file]; [done|]. destruct (check_definitions [] (x :: file)) eqn:E; [done|].
    destruct t; [|done]. apply insert_all_ok; [done|]. by apply (checked_valid _ []).
  - unfold createAgent. destruct (form_agent (formFromRequest f)) as [e|a] eqn:E; [done|]. unfold CreateAgent.
    pose proof (insert_ok now a t Hok (form_agent_names _ _ E)) as Hi. by destruct (InsertAgentIfAbsent now a t) as [[e|[]] t'].
  - unfold updateAgent. destruct (form_agent _) as [e|a] eqn:E; [done|]. apply update_agent_ok; [done|]. by apply (form_agent_names _ _ E).
  - unfold deleteAgent. destruct (String.eqb id d); [done|]. pose proof (delete_ok id t Hok) as Hi. by destruct (DeleteAgent id t).
Qed.

(** A name calls one agent. Whatever the seed file, and whatever admins
    create, edit and delete at the same time, no two agents of the table
    answer to the same name in any case: not two mentions, nor a mention and
    the identifier of an agent that has none. *)
Theorem names_one_agent l a b :
  (∀ id, agentIDPattern id = true → lower id = id) →
  a ∈ run_agents l → b ∈ run_agents l → lower (MentionName a) = lower (MentionName b) → a = b.
Proof.
  intros Hlow Ha Hb E. pose proof (agents_run_ok l) as [Hk Hv Hap]. rewrite Forall_forall in Hv. destruct (Hv a Ha) as [Ia _], (Hv b Hb) as [Ib _].
  apply (keys_unique (run_agents l)); try done. unfold Table.row_key, agent_key.
  destruct (has_key (AgID a) b) eqn:Hkey; [symmetry; by apply has_key_spec in Hkey|]. exfalso. destruct (Hap a b Ha Hb) as [Hc Hs].
  unfold clashes, same_mention in Hc, Hs. rewrite Hkey in Hc, Hs. unfold MentionName in E. cbn in Hc, Hs.
  destruct (String.eqb (AgMention a) ""), (String.eqb (AgMention b) ""); cbn in E, Hc, Hs.
  - assert (AgID a = AgID b) as Eid by (rewrite <- (Hlow _ Ia), <- (Hlow _ Ib); done). assert (has_key (AgID a) b = true) by (apply has_key_spec; done). congruence.
  - rewrite E, String.eqb_refl in Hc. done.
  - rewrite <- E, String.eqb_refl in Hc. done.
  - rewrite E, String.eqb_refl in Hs. done.
Qed.
End Names.

(** ** Publishing *)

Lemma update_where_elem (name : string) (r t : ToolRecord) l : t ∈ l → TrName t ≠ name → t ∈ update_where (has_key name) (λ _, r) l.
Proof. intros Ht Hn. apply update_elem. exists t. split; [done|]. destruct (has_key name t) eqn:E; [|done]. by apply has_key_spec in E. Qed.

Lemma upsert_in t l : ∃ r, r ∈ UpsertTool t l ∧ TrName r = TrName t ∧ TrQueue r = TrQueue t.
Proof.
  exists (stored_tool t). split; [|done]. unfold UpsertTool. destruct (get (TrName t) l) as [x|] eqn:E; [|apply elem_snoc; by right].
  apply get_some in E as [Hx Hk]. apply update_elem. exists x. split; [done|]. assert (has_key (TrName t) x = true) as -> by (by apply has_key_spec). done.
Qed.

Lemma upsert_kept x t l : x ∈ l → TrName x ≠ TrName t → x ∈ UpsertTool t l.
Proof. intros Hx Hn. unfold UpsertTool. destruct (get (TrName t) l); [by apply update_where_elem|apply elem_snoc; by left]. Qed.

Lemma upsert_rows r t l : r ∈ UpsertTool t l → r ∈ l ∨ TrQueue r = TrQueue t.
Proof.
  unfold UpsertTool. destruct (get (TrName t) l); [|intros [?| ->]%elem_snoc; [by left|by right]].
  intros (x & Hx & ->)%update_elem. destruct (has_key (TrName t) x); [by right|by left].
Qed.

Lemma publish_kept existing served fails queue tools l x :
  get (TrName x) existing = Some x → on_queue queue x = false → served (TrQueue x) = true → x ∈ l →
  x ∈ (publish_all existing served fails queue tools l).2.
Proof.
  intros Hg Hq Hs. revert l. induction tools as [|t tools IH]; intros l Hx; cbn [publish_all]; [done|].
  destruct (_ || _) eqn:E; [specialize (IH l Hx); by destruct (publish_all existing served fails queue tools l)|]. apply IH, upsert_kept; [done|].
  cbn [TrName published_record]. intros En. rewrite <- En, Hg, Hq, Hs in E. done.
Qed.

Lemma publish_rows existing served fails queue tools l r :
  r ∈ (publish_all existing served fails queue tools l).2 → r ∈ l ∨ TrQueue r = queue.
Proof.
  revert l. induction tools as [|t tools IH]; intros l; cbn [publish_all]; [by left|].
  destruct (_ || _); [specialize (IH l); by destruct (publish_all existing served fails queue tools l)|].
  intros [Hr|Hr]%IH; [|by right]. apply upsert_rows in Hr. cbn [TrQueue published_record] in Hr. done.
Qed.

(** A worker's row of a tool, once written, stays through what it writes next. *)
Lemma publish_written existing served fails queue tools l r name :
  r ∈ l → TrName r = name → TrQueue r = queue → ∃ r', r' ∈ (publish_all existing served fails queue tools l).2 ∧ TrName r' = name ∧ TrQueue r' = queue.
Proof.
  revert l r. induction tools as [|t tools IH]; intros l r Hr En Eq; cbn [publish_all]; [by exists r|].
  destruct (_ || _); [specialize (IH l r Hr En Eq); by destruct (publish_all existing served fails queue tools l)|].
  destruct (String.eqb_spec (TrName r) (TrName t)) as [E|E].
  - destruct (upsert_in (published_record queue t) l) as (r' & Hr' & En' & Eq'). apply (IH _ r'); [done| |done]. cbn in En'. congruence.
  - by apply (IH _ r); [apply upsert_kept|..].
Qed.

(** A worker publishes its tools on its queue, and takes none from another
    queue that is served: each tool it publishes has a row on its queue or is
    named among those left out; a row it read on another queue that Temporal
    sees served is as it was; and no row appears but on its queue. *)
Theorem served_tools_kept existing served fails queue tools l :
  let '(failed, l') := publishTools (Some existing) served fails queue tools l in
  (∀ t, t ∈ tools → TrName t ∈ failed ∨ ∃ r, r ∈ l' ∧ TrName r = TrName t ∧ TrQueue r = queue) ∧
  (∀ x, get (TrName x) existing = Some x → TrQueue x ≠ queue → served (TrQueue x) = true → x ∈ l → x ∈ l') ∧
  (∀ r, r ∈ l' → r ∈ l ∨ TrQueue r = queue).
Proof.
  unfold publishTools. pose proof (publish_kept existing served fails queue tools l) as H1. pose proof (publish_rows existing served fails queue tools l) as H2.
  assert (∀ t, t ∈ tools → TrName t ∈ (publish_all existing served fails queue tools l).1 ∨
    ∃ r, r ∈ (publish_all existing served fails queue tools l).2 ∧ TrName r = TrName t ∧ TrQueue r = queue) as H3.
  { clear H1 H2. revert l. induction tools as [|t tools IH]; intros l x Hx; [by apply not_elem_of_nil in Hx|]. cbn [publish_all].
    destruct (_ || _); apply elem_of_cons in Hx as [->|Hx].
    - destruct (publish_all existing served fails queue tools l). left. by left.
    - specialize (IH l x Hx). destruct (publish_all existing served fails queue tools l). cbn in *. destruct IH as [?|?]; [left; by right|by right].
    - right. destruct (upsert_in (published_record queue t) l) as (r & Hr & En & Eq). by apply (publish_written _ _ _ _ _ _ r).
    - by apply IH. }
  destruct (publish_all existing served fails queue tools l) as [failed l']. cbn [fst snd] in *. split; [done|]. split; [|done].
  intros x Hg Hq. apply H1; [done|]. unfold on_queue. by apply String.eqb_neq.
Qed.

(** When the published tools could not be read, nothing says that a tool is
    another queue's: it is taken. *)
Example published_blind :
  let mail := mkToolRecord "mail" "tools-mail" "" "{}" "activity" "" false false 0 "" in
  publishTools None (λ _, true) (λ _, false) "tools-main" [mail] [mail] = ([], [published_record "tools-main" mail]).
Proof. reflexivity. Qed.

(** ** The worker's copy *)

Inductive refresh : Catalog → Catalog → Prop :=
| refresh_read c snap agents tools :
    (∀ l, agents = Some l → keys_ok l) → (∀ l, tools = Some l → keys_ok l) → refresh c (refreshCatalog snap agents tools c).

Lemma refresh_reloads c c' : refresh c c' → star reload c c'.
Proof.
  intros [c0 snap agents tools Ha Ht]. unfold refreshCatalog. destruct (is_none snap && _); [apply star_refl|].
  assert (∀ o, star reload o (match snap with Some s => SetAccess s o | None => o end)) as H1.
  { intros o. destruct snap; [|apply star_refl]. eapply star_step; [apply reload_access|apply star_refl]. }
  assert (∀ o, star reload o (match agents with Some l => SetAgents (loadAgentsFromDB l) o | None => o end)) as H2.
  { intros o. destruct agents as [l|]; [|apply star_refl]. eapply star_step; [apply reload_agents|apply star_refl].
    unfold loadAgentsFromDB. rewrite <- list_fmap_compose. by apply (Ha l). }
  eapply star_trans; [apply H1|]. eapply star_trans; [apply H2|]. destruct tools as [l|]; [|apply star_refl].
  eapply star_step; [apply reload_tools|apply star_refl]. by apply (Ht l).
Qed.

(** A worker's copy is one Catalog.v speaks of, whichever of its reads
    failed and when; and while it has never read the rules, it holds no agent
    and no tool: nothing is open for not having been read. *)
Theorem refreshed_catalog c :
  star refresh NewCatalog c → star reload NewCatalog c ∧ (accessLoaded c = false → c = NewCatalog).
Proof.
  intros H. apply (star_invariant refresh (λ c, star reload NewCatalog c ∧ (accessLoaded c = false → c = NewCatalog)) NewCatalog c); [|done|split; [apply star_refl|done]].
  intros c1 c2 [Hr Hl] Hs. split; [eapply star_trans; [done|by apply refresh_reloads]|]. destruct Hs as [c0 snap agents tools _ _]. unfold refreshCatalog.
  destruct snap as [s|]; cbn [is_none andb].
  - destruct agents, tools; done.
  - destruct (accessLoaded c0) eqn:E; cbn [negb]; [|by intros _; apply Hl]. destruct agents, tools; cbn; congruence.
Qed.

(** ** Witnesses *)

Definition lower_byte (c : ascii) : ascii := if is_upper c then byte (byte_of c + 32) else c.
Fixpoint ascii_lower (s : string) : string := match s with "" => "" | String c s => String (lower_byte c) (ascii_lower s) end.
#[export] Instance ascii_collation : PGLower := mkPGLower ascii_lower str_le.

Lemma not_upper_same s : all_bytes (λ c, negb (is_upper c)) s = true → ascii_lower s = s.
Proof. induction s as [|c s IH]; [done|]. cbn. intros [Hc Hs]%andb_prop. rewrite (IH Hs). unfold lower_byte. by destruct (is_upper c). Qed.

Lemma all_bytes_imp (p r : ascii → bool) s : (∀ c, p c = true → r c = true) → all_bytes p s = true → all_bytes r s = true.
Proof. intros Hi. induction s as [|c s IH]; [done|]. cbn. intros [Hc Hs]%andb_prop. by rewrite (Hi c Hc), (IH Hs). Qed.

Lemma pattern_lower id : agentIDPattern id = true → ascii_lower id = id.
Proof.
  intros H. apply not_upper_same. destruct id as [|c rest]; [done|]. cbn [agentIDPattern] in H. apply andb_prop in H as [[Hc Hr]%andb_prop _].
  cbn [all_bytes]. apply andb_true_intro. unfold is_lower, is_upper, is_digit in *. split; [apply negb_true_iff; lia|].
  eapply all_bytes_imp; [|exact Hr]. intros d Hd. cbn beta in Hd |- *. apply orb_prop in Hd as [Hd|Hd%Ascii.eqb_eq]; [apply negb_true_iff; lia|by subst].
Qed.

Definition jarvis_form (mention : string) : agentForm := mkAgentForm "jarvis" "Jarvis" mention "" "" "" ["web_search"] "" 1.

Lemma names_one_agent_witness :
  let t := run_agents [(1, OpCreate (jarvis_form "@Jay ")); (2, OpCreate (mkAgentForm "jay" "Jay" "" "" "" "" [] "" 0));
                       (3, OpUpdate "jarvis" (jarvis_form "jarvis") [])] in
  length t = 1%nat ∧ ∀ a b, a ∈ t → b ∈ t → lower (MentionName a) = lower (MentionName b) → a = b.
Proof. split; [reflexivity|]. intros a b. apply (@names_one_agent ascii_collation _ a b pattern_lower). Defined.

Lemma refreshed_catalog_witness :
  let c := refreshCatalog None (Some []) None NewCatalog in
  (star reload NewCatalog c ∧ (accessLoaded c = false → c = NewCatalog)) ∧ c = NewCatalog.
Proof.
  split; [|reflexivity]. apply refreshed_catalog. eapply star_step; [|apply star_refl].
  apply (refresh_read NewCatalog None (Some []) None); intros l [= <-]. constructor.
Defined.

(** An agent deleted and created again is at the revision it was first read
    at: an edit made from the deleted one replaces the new one. *)
Example stale_edit_applies :
  let opened := jarvis_form "old" in
  let created_again := mkAgentForm "jarvis" "New Jarvis" "new" "" "" "" ["mail"] "" 0 in
  let t := run_agents [(1, OpCreate opened); (2, OpDelete "default" "jarvis"); (3, OpCreate created_again)] in
  (updateAgent 4 "jarvis" opened [] t).1 = inr 2 ∧
  (AgName <$> (updateAgent 4 "jarvis" opened [] t).2) = ["Jarvis"].
Proof. split; reflexivity. Qed.
