(* ===== verification/Sessions.v ===== *)
(** * Sessions, their members, forks and reports (src/store/users.go,
    src/store/session.go, src/store/report.go, src/store/postgres.go)

    The tables of sessions and of their members, with the users they refer to
    and the messages the reports write. A statement, or a transaction that
    holds what it reads, is one step. A session's tasks are in Tasks.v, its
    files in Files.v. *)

From S2P Require Import Prelude GoStr Keys Message Store Table Users.
Open Scope string_scope.
Open Scope Z_scope.
Open Scope list_scope.

(** ** Data *)

Definition AgentModeAuto : string := "auto".
Definition AgentModeAlways : string := "always".
Definition AgentModeMention : string := "mention".

Record Session := mkSession {
  SessionID : string;
  CreatedBy : string;
  Title : string;
  AgentID : string;
  Channel : string;
  ChannelID : string;
  SessCreated : time;
  AgentMode : string;
  ParentSessionID : string;
  ForkedAtMessageID : Z;
  ForkedBy : string;
  ForkPurpose : string;
  SummaryMessageID : Z;
  LastReportedMessageID : Z;
  LastReportID : Z;
  LastReportedAt : option time
}.

#[export] Instance session_key : Keyed Session := SessionID.

Record Member := mkMember { MemSession : string; MemUser : string; AddedBy : string; AddedAt : time }.

(** What a page reads of a member: a user's columns too. *)
Record SessionMember := mkSessionMember { SmUser : string; SmEmail : string; SmName : string; SmAddedBy : string; SmAddedAt : time }.

(** The tables. *)
Record SDB := mkSDB {
  accounts : list User;
  sessions : list Session;
  members : list Member;
  messages : Messages;
  memory : MemoryTable
}.

Inductive SessionError :=
| ErrSessionNotFound
| ErrForkGone
| ErrReportParentGone
| ErrReportNotForkMember
| ErrReportNotParentMember
| ErrReportStale
| ErrSessionSQL.

Definition outcome (A : Type) : Type := (SessionError + A) * SDB.

Definition with_sessions (db : SDB) (l : list Session) : SDB := mkSDB (accounts db) l (members db) (messages db) (memory db).
Definition with_members (db : SDB) (l : list Member) : SDB := mkSDB (accounts db) (sessions db) l (messages db) (memory db).
Definition with_messages (db : SDB) (m : Messages) : SDB := mkSDB (accounts db) (sessions db) (members db) m (memory db).

Definition is_member (session user : string) (m : Member) : bool := String.eqb (MemSession m) session && String.eqb (MemUser m) user.
Definition member_in (session user : string) (db : SDB) : bool := existsb (is_member session user) (members db).
Definition of_session (session : string) (m : Member) : bool := String.eqb (MemSession m) session.

(** ** Sessions *)

(** A new row: what the statement does not set is the columns' defaults. *)
Definition new_session (now : time) (s : Session) : Session :=
  mkSession (SessionID s) (CreatedBy s) (Title s) (AgentID s) (Channel s) (ChannelID s) now AgentModeAuto
    (ParentSessionID s) (ForkedAtMessageID s) (ForkedBy s) (ForkPurpose s) 0 0 0 None.

(** Its identifier is new, its creator is a user, its parent, if any, a session. *)
Definition CreateSession (now : time) (s : Session) (db : SDB) : outcome unit :=
  if negb (is_none (get (SessionID s) (sessions db))) || is_none (get (CreatedBy s) (accounts db)) ||
     (negb (String.eqb (ParentSessionID s) "") && is_none (get (ParentSessionID s) (sessions db))) then (inl ErrSessionSQL, db)
  else
    (inr tt, with_members (with_sessions db (sessions db ++ [new_session now s]))
               (members db ++ [mkMember (SessionID s) (CreatedBy s) (CreatedBy s) now])).

Definition GetSession (id : string) (db : SDB) : option Session := get id (sessions db).

(** The sessions of a member, with when they were created, in the table's
    order; newest first, those of one instant in no said order. *)
Definition newest (a b : Session) : bool := SessCreated b <=? SessCreated a.
Definition sessions_of (user : string) (db : SDB) : list Session := List.filter (λ s, member_in (SessionID s) user db) (sessions db).

Definition ListSessionsByUser (user : string) (db : SDB) : list Session := sort_stable newest (sessions_of user db).

Definition GetActiveSessionByChannel (user channel channelID : string) (db : SDB) : option Session :=
  head (sort_stable newest (List.filter (λ s, String.eqb (Channel s) channel && String.eqb (ChannelID s) channelID) (sessions_of user db))).

Record SessionStats := mkStats { StMembers : Z; StMessages : Z; LastActivity : time }.

Definition stats_of (db : SDB) (s : Session) : SessionStats :=
  let own := session_rows (SessionID s) (messages db) in
  mkStats (Z.of_nat (length (List.filter (of_session (SessionID s)) (members db)))) (Z.of_nat (length own))
    (match own with [] => SessCreated s | m :: l => fold_left (λ t m, Z.max t (Message.CreatedAt m)) l (Message.CreatedAt m) end).

Definition ListSessionStats (user : string) (db : SDB) : list (string * SessionStats) := (λ s, (SessionID s, stats_of db s)) <$> sessions_of user db.

(** A fork whose parent goes loses the link. *)
Definition unlink (parent : string) (s : Session) : Session :=
  if String.eqb (ParentSessionID s) parent then
    mkSession (SessionID s) (CreatedBy s) (Title s) (AgentID s) (Channel s) (ChannelID s) (SessCreated s) (AgentMode s)
      "" (ForkedAtMessageID s) (ForkedBy s) (ForkPurpose s) (SummaryMessageID s) (LastReportedMessageID s) (LastReportID s) (LastReportedAt s)
  else s.

Definition DeleteSession (id : string) (db : SDB) : SDB :=
  mkSDB (accounts db) (unlink id <$> List.filter (λ s, negb (has_key id s)) (sessions db))
    (List.filter (λ m, negb (of_session id m)) (members db)) (DeleteMessagesBySession id (messages db))
    (delete ("session", id) (memory db)).

Definition set_title (title : string) (s : Session) : Session :=
  mkSession (SessionID s) (CreatedBy s) title (AgentID s) (Channel s) (ChannelID s) (SessCreated s) (AgentMode s)
    (ParentSessionID s) (ForkedAtMessageID s) (ForkedBy s) (ForkPurpose s) (SummaryMessageID s) (LastReportedMessageID s) (LastReportID s) (LastReportedAt s).
Definition set_mode (mode : string) (s : Session) : Session :=
  mkSession (SessionID s) (CreatedBy s) (Title s) (AgentID s) (Channel s) (ChannelID s) (SessCreated s) mode
    (ParentSessionID s) (ForkedAtMessageID s) (ForkedBy s) (ForkPurpose s) (SummaryMessageID s) (LastReportedMessageID s) (LastReportID s) (LastReportedAt s).
Definition set_summary (id : Z) (s : Session) : Session :=
  mkSession (SessionID s) (CreatedBy s) (Title s) (AgentID s) (Channel s) (ChannelID s) (SessCreated s) (AgentMode s)
    (ParentSessionID s) (ForkedAtMessageID s) (ForkedBy s) (ForkPurpose s) id (LastReportedMessageID s) (LastReportID s) (LastReportedAt s).
Definition set_reported (upTo id : Z) (now : time) (s : Session) : Session :=
  mkSession (SessionID s) (CreatedBy s) (Title s) (AgentID s) (Channel s) (ChannelID s) (SessCreated s) (AgentMode s)
    (ParentSessionID s) (ForkedAtMessageID s) (ForkedBy s) (ForkPurpose s) (SummaryMessageID s) upTo id (Some now).

Definition update_session (id : string) (f : Session → Session) (db : SDB) : SDB := with_sessions db (update_where (has_key id) f (sessions db)).

(** A title taken from a message: only where there is none. *)
Definition UpdateSessionTitle (id title : string) (db : SDB) : SDB :=
  with_sessions db (update_where (λ s, has_key id s && String.eqb (Title s) "") (set_title title) (sessions db)).

Definition RenameSession (id title : string) (db : SDB) : outcome unit :=
  if is_none (get id (sessions db)) then (inl ErrSessionNotFound, db) else (inr tt, update_session id (set_title title) db).

Definition SetSessionAgentMode (id mode : string) (db : SDB) : outcome unit :=
  if is_none (get id (sessions db)) then (inl ErrSessionNotFound, db) else (inr tt, update_session id (set_mode mode) db).

Definition fork_le (a b : Session) : bool :=
  (ForkedAtMessageID a <? ForkedAtMessageID b) || ((ForkedAtMessageID a =? ForkedAtMessageID b) && (SessCreated a <=? SessCreated b)).

Definition ListForks (id user : string) (db : SDB) : list Session :=
  sort_stable fork_le (List.filter (λ s, String.eqb (ParentSessionID s) id && negb (String.eqb id "")) (sessions_of user db)).

Definition CountSessionsByAgent (agent : string) (db : SDB) : Z := count (λ s, String.eqb (AgentID s) agent) (sessions db).

(** ** Members *)

Definition IsSessionMember (session user : string) (db : SDB) : bool := member_in session user db.

Definition SessionMembership (session user : string) (db : SDB) : Z * bool :=
  (Z.of_nat (length (List.filter (of_session session) (members db))), member_in session user db).

Definition added_le (a b : Member) : bool := AddedAt a <=? AddedAt b.

Definition ListSessionMembers (session : string) (db : SDB) : list SessionMember :=
  omap (λ m, (λ u, mkSessionMember (MemUser m) (Email u) (DisplayName u) (AddedBy m) (AddedAt m)) <$> get (MemUser m) (accounts db))
    (sort_stable added_le (List.filter (of_session session) (members db))).

Definition AddSessionMember (now : time) (session user by_ : string) (db : SDB) : outcome unit :=
  if member_in session user db then (inr tt, db)
  else if is_none (get session (sessions db)) || is_none (get user (accounts db)) then (inl ErrSessionSQL, db)
  else (inr tt, with_members db (members db ++ [mkMember session user by_ now])).

Definition RemoveSessionMember (session user : string) (db : SDB) : SDB :=
  with_members db (List.filter (λ m, negb (is_member session user m)) (members db)).

(** ** A fork's summary and reports (src/store/report.go) *)

Definition AppendForkSummary (now : time) (forkID : string) (msg : Message) (db : SDB) : outcome Z :=
  match get forkID (sessions db) with
  | None => (inl ErrForkGone, db)
  | Some _ =>
      let '(id, msgs) := AppendMessage now forkID ForkSummaryKey msg (messages db) in
      (inr id, update_session forkID (set_summary id) (with_messages db msgs))
  end.

Record ForkReport := mkForkReport {
  RepFork : string;
  RepParent : string;
  RepReporter : string;
  RepFrom : Z;
  RepUpTo : Z;
  RepMessage : Message
}.

Definition report_key (r : ForkReport) : string := ForkReportKey (RepFork r) (RepFrom r) (RepUpTo r).

Definition AppendForkReport (now : time) (r : ForkReport) (db : SDB) : outcome Z :=
  let parentGone := is_none (get (RepParent r) (sessions db)) in
  match get (RepFork r) (sessions db) with
  | None => (inl ErrForkGone, db)
  | Some fork =>
      if parentGone || negb (String.eqb (ParentSessionID fork) (RepParent r)) then (inl ErrReportParentGone, db)
      else
        match row_under (RepParent r) (report_key r) (messages db) with
        | Some posted => (inr (row_id posted), db)
        | None =>
            if negb (LastReportedMessageID fork =? RepFrom r) then (inl ErrReportStale, db)
            else if negb (member_in (RepFork r) (RepReporter r) db) then (inl ErrReportNotForkMember, db)
            else if negb (member_in (RepParent r) (RepReporter r) db) then (inl ErrReportNotParentMember, db)
            else
              let '(posted, _, msgs) := insert_row now (RepParent r) (report_key r) (RepMessage r) (messages db) in
              (inr (row_id posted), update_session (RepFork r) (set_reported (RepUpTo r) (row_id posted) now) (with_messages db msgs))
        end
  end.

(** ** What a fork's reports cover

    The sessions' tables through any sequence of the store's operations: the
    reports of a fork cover its messages once each, in order, whatever is
    retried, deleted or left meanwhile. *)

Inductive session_op :=
| SCreate (s : Session)
| SDelete (id : string)
| SRename (id title : string)
| STitle (id title : string)
| SMode (id mode : string)
| SJoin (session user by_ : string)
| SLeave (session user : string)
| SMessage (session key : string) (msg : Message)
| SSummary (fork : string) (msg : Message)
| SReport (r : ForkReport).

Definition apply_session_op (now : time) (op : session_op) (db : SDB) : SDB :=
  match op with
  | SCreate s => (CreateSession now s db).2
  | SDelete id => DeleteSession id db
  | SRename id title => (RenameSession id title db).2
  | STitle id title => UpdateSessionTitle id title db
  | SMode id mode => (SetSessionAgentMode id mode db).2
  | SJoin s u b => (AddSessionMember now s u b db).2
  | SLeave s u => RemoveSessionMember s u db
  | SMessage s k m => with_messages db (AppendMessage now s k m (messages db)).2
  | SSummary f m => (AppendForkSummary now f m db).2
  | SReport r => (AppendForkReport now r db).2
  end.

(** The reports posted and their messages, and the identifiers taken, besides
    the tables. *)
Record History := mkHistory { tables : SDB; posted : list (ForkReport * Z); taken : list string }.

Definition noHistory (users : list User) : History := mkHistory (mkSDB users [] [] noMessages ∅) [] [].

(** What an operation adds to them: a report that was not there already. *)
Definition newly_posted (now : time) (op : session_op) (db : SDB) : list (ForkReport * Z) :=
  match op with
  | SReport r =>
      match row_under (RepParent r) (report_key r) (messages db), (AppendForkReport now r db).1 with
      | None, inr id => [(r, id)]
      | _, _ => []
      end
  | _ => []
  end.

Definition newly_taken (op : session_op) : list string := match op with SCreate s => [SessionID s] | _ => [] end.

Definition apply_history (x : time * session_op) (h : History) : History :=
  mkHistory (apply_session_op x.1 x.2 (tables h)) (posted h ++ newly_posted x.1 x.2 (tables h)) (taken h ++ newly_taken x.2).

(** Sessions have identifiers of their own (uuids, never drawn twice); no other
    message is stored under a report's key; a report covers messages after the
    last reported one (as [ReportToParent] starts it). *)
Definition op_ok (op : session_op) (h : History) : Prop :=
  match op with
  | SCreate s => no_colon (SessionID s) = true ∧ SessionID s ∉ taken h
  | SDelete id => id ≠ ""
  | SMessage _ key _ => has_prefix key reportKeyPrefix = false
  | SReport r => 0 ≤ RepFrom r < RepUpTo r
  | _ => True
  end.

Fixpoint history_ok (l : list (time * session_op)) (h : History) : Prop :=
  match l with [] => True | x :: l => op_ok x.2 h ∧ history_ok l (apply_history x h) end.

Definition run_history (l : list (time * session_op)) (h : History) : History := fold_left (λ h x, apply_history x h) l h.

(** The reports of a fork. *)
Definition posts_of (fork : string) (l : list (ForkReport * Z)) : list (ForkReport * Z) := List.filter (λ p, String.eqb (RepFork p.1) fork) l.

(** Each starts where the one before stopped; the last one stopped at [upTo]. *)
Fixpoint chained (from : Z) (l : list (ForkReport * Z)) (upTo : Z) : Prop :=
  match l with
  | [] => upTo = from
  | (r, _) :: l => RepFrom r = from ∧ from < RepUpTo r ∧ chained (RepUpTo r) l upTo
  end.

Lemma chained_snoc from l mid r id : chained from l mid → RepFrom r = mid → mid < RepUpTo r → chained from (l ++ [(r, id)]) (RepUpTo r).
Proof. revert from. induction l as [|[x i] l IH]; intros from; cbn; [by intros ->|]. intros (? & ? & H) ??. split_and!; [done|done|by apply IH]. Qed.

Lemma chained_le from l upTo : chained from l upTo → from ≤ upTo.
Proof. revert from. induction l as [|[x i] l IH]; intros from; cbn; [lia|]. intros (? & ? & H%IH). lia. Qed.

Lemma chained_bounds from l upTo p : chained from l upTo → p ∈ l → from ≤ RepFrom p.1 ∧ RepUpTo p.1 ≤ upTo.
Proof.
  revert from. induction l as [|[x i] l IH]; intros from; cbn; [by intros _ ?%not_elem_of_nil|]. intros (? & ? & H) [->|Hp]%elem_of_cons.
  - apply chained_le in H. cbn. lia.
  - destruct (IH _ H Hp). lia.
Qed.

(** A message up to the last one reported is in one report. *)
Lemma chained_cover from l upTo m : chained from l upTo → from < m ≤ upTo → ∃ p, p ∈ l ∧ RepFrom p.1 < m ≤ RepUpTo p.1.
Proof.
  revert from. induction l as [|[x i] l IH]; intros from; cbn; [lia|]. intros (? & ? & H) Hm.
  destruct (decide (m ≤ RepUpTo x)); [exists (x, i); cbn; split; [by left|lia]|]. destruct (IH _ H) as (p & Hp & ?); [lia|]. exists p. split; [by right|done].
Qed.

Lemma chained_once from l upTo m p p' : chained from l upTo → p ∈ l → p' ∈ l → RepFrom p.1 < m ≤ RepUpTo p.1 → RepFrom p'.1 < m ≤ RepUpTo p'.1 → p = p'.
Proof.
  revert from. induction l as [|[x i] l IH]; intros from; cbn; [by intros _ ?%not_elem_of_nil|]. intros (? & ? & H) [->|Hp]%elem_of_cons [->|Hp']%elem_of_cons Hm Hm'.
  - done.
  - destruct (chained_bounds _ _ _ _ H Hp'). cbn in Hm. lia.
  - destruct (chained_bounds _ _ _ _ H Hp). cbn in Hm'. lia.
  - by apply (IH _ H).
Qed.

(** A report's key gives back its fork and its range. *)
Lemma report_key_inj f f' from upTo from' upTo' :
  no_colon f = true → no_colon f' = true → 0 ≤ from → 0 ≤ upTo → 0 ≤ from' → 0 ≤ upTo' →
  ForkReportKey f from upTo = ForkReportKey f' from' upTo' → f = f' ∧ from = from' ∧ upTo = upTo'.
Proof.
  intros [_ Hf]%andb_prop [_ Hf']%andb_prop ????. unfold ForkReportKey. intros [= E]. apply negb_true_iff in Hf, Hf'.
  apply (f_equal (cut_byte ":")) in E. rewrite !cut_byte_app in E by done. injection E as -> E. split; [done|].
  apply (f_equal (cut_byte "-")) in E. rewrite !cut_byte_app in E by (by apply itoa_no_byte). injection E as E1 E2. split; by apply itoa_inj.
Qed.

(** ** The invariant *)

Definition message_of (r : ForkReport) (id : Z) (db : SDB) : Prop :=
  ∃ x, row_under (RepParent r) (report_key r) (messages db) = Some x ∧ row_id x = id ∧ Msg (RowMsg x) = RepMessage r.

Record history_inv (h : History) : Prop := {
  hi_keys : keys_ok (sessions (tables h));
  hi_rows : messages_ok (messages (tables h));
  hi_names : ∀ id, id ∈ taken h → no_colon id = true;
  hi_taken : ∀ s, s ∈ sessions (tables h) → SessionID s ∈ taken h;
  hi_posted : ∀ r id, (r, id) ∈ posted h → RepFork r ∈ taken h ∧ RepParent r ∈ taken h ∧ 0 ≤ RepFrom r < RepUpTo r;
  hi_chain : ∀ s, s ∈ sessions (tables h) → chained 0 (posts_of (SessionID s) (posted h)) (LastReportedMessageID s);
  hi_parent : ∀ s, s ∈ sessions (tables h) → ParentSessionID s = "" ∨ is_Some (get (ParentSessionID s) (sessions (tables h)));
  hi_message : ∀ r id s, (r, id) ∈ posted h → s ∈ sessions (tables h) → SessionID s = RepFork r →
    ParentSessionID s = "" ∨ ParentSessionID s = RepParent r ∧ message_of r id (tables h);
  hi_reports : ∀ x, x ∈ rows (messages (tables h)) → has_prefix (Key (RowMsg x)) reportKeyPrefix = true →
    ∃ r, (r, row_id x) ∈ posted h ∧ RowSession x = RepParent r ∧ Key (RowMsg x) = report_key r
}.

Lemma noHistory_inv users : history_inv (noHistory users).
Proof.
  split; cbn; try (intros; by (match goal with H : _ ∈ [] |- _ => apply not_elem_of_nil in H end)); [constructor|apply noMessages_ok].
Qed.

(** What a session's update keeps. *)
Class KeepsFork (f : Session → Session) := {
  kf_id s : SessionID (f s) = SessionID s;
  kf_parent s : ParentSessionID (f s) = ParentSessionID s;
  kf_reported s : LastReportedMessageID (f s) = LastReportedMessageID s
}.
#[local] Instance kf_title t : KeepsFork (set_title t).
Proof. by split. Qed.
#[local] Instance kf_mode m : KeepsFork (set_mode m).
Proof. by split. Qed.
#[local] Instance kf_summary i : KeepsFork (set_summary i).
Proof. by split. Qed.
#[local] Instance kf_key f : KeepsFork f → KeepsKey f.
Proof. intros H s. apply kf_id. Qed.

(** Members do not matter. *)
Lemma inv_members l db p t : history_inv (mkHistory db p t) → history_inv (mkHistory (with_members db l) p t).
Proof. intros []. by split. Qed.

Lemma inv_update q f `{!KeepsFork f} db p t :
  history_inv (mkHistory db p t) → history_inv (mkHistory (with_sessions db (update_where q f (sessions db))) p t).
Proof.
  intros [Hk Hr Hn Ht Hp Hc Hpa Hm Hre].
  assert (∀ s', s' ∈ update_where q f (sessions db) → ∃ s, s ∈ sessions db ∧ SessionID s' = SessionID s ∧ ParentSessionID s' = ParentSessionID s ∧
    LastReportedMessageID s' = LastReportedMessageID s) as Hu.
  { intros s' (s & Hs & ->)%update_elem. exists s. split; [done|]. destruct (q s); [|done]. by rewrite kf_id, kf_parent, kf_reported. }
  split; cbn in *; try done.
  - apply keys_update_ok; [apply _|done].
  - intros s' (s & Hs & -> & _)%Hu. by apply Ht.
  - intros s' (s & Hs & -> & _ & ->)%Hu. by apply Hc.
  - intros s' (s & Hs & _ & -> & _)%Hu. destruct (Hpa s Hs); [by left|right]. rewrite update_get by apply _. by apply fmap_is_Some.
  - intros r id s' Hin (s & Hs & -> & -> & _)%Hu. by apply Hm.
Qed.

(** A message that is no report, or one that is. *)
Lemma inv_message now s k m db p t :
  history_inv (mkHistory db p t) → has_prefix k reportKeyPrefix = false →
  history_inv (mkHistory (with_messages db (insert_row now s k m (messages db)).2) p t).
Proof.
  intros [Hk Hr Hn Ht Hp Hc Hpa Hm Hre] Hpre. pose proof (insert_row_ok now s k m (messages db) Hr) as Hok.
  pose proof (insert_row_under now s k m (messages db) Hr) as Hu.
  assert (∀ x, x ∈ rows (insert_row now s k m (messages db)).2 → x ∈ rows (messages db) ∨ Key (RowMsg x) = k) as Hx.
  { intros x. unfold insert_row. destruct (row_under s k (messages db)); cbn; [by left|]. intros [?| ->]%elem_snoc; [by left|by right]. }
  destruct (insert_row now s k m (messages db)) as [[y b] msgs] eqn:Ei. destruct Hu as (_ & Hkeep & _). cbn [snd] in *.
  split; cbn in *; try done.
  - intros r id f Hin Hf Ef. destruct (Hm r id f Hin Hf Ef) as [?|[? (x & Hx1 & Hx2)]]; [by left|right]. split; [done|]. exists x. split; [|done]. cbn. by apply Hkeep.
  - intros x Hin Hxp. destruct (Hx x Hin) as [Hx'|Ek]; [by apply Hre|congruence].
Qed.

Lemma posts_app f l l' : posts_of f (l ++ l') = posts_of f l ++ posts_of f l'.
Proof. apply List.filter_app. Qed.

Lemma inv_taken db p t x : history_inv (mkHistory db p t) → no_colon x = true → history_inv (mkHistory db p (t ++ [x])).
Proof.
  intros [Hk Hr Hn Ht Hp Hc Hpa Hm Hre] Hx. split; cbn in *; try done.
  - intros y [Hy| ->]%elem_snoc; [by apply Hn|done].
  - intros s Hs. apply elem_snoc. left. by apply Ht.
  - intros r id Hin. destruct (Hp r id Hin) as (? & ? & ?). split_and!; [apply elem_snoc; by left|apply elem_snoc; by left|lia|lia].
Qed.

Lemma posts_untaken f p (t : list string) : (∀ r id, (r, id) ∈ p → RepFork r ∈ t) → f ∉ t → posts_of f p = [].
Proof.
  intros Hp Hf. induction p as [|[r i] p IH]; [done|]. cbn. destruct (String.eqb_spec (RepFork r) f) as [<-|]; [exfalso; apply Hf, (Hp r i); by left|].
  apply IH. intros r' i' H. apply (Hp r' i'). by right.
Qed.

Lemma inv_create now s db p t :
  history_inv (mkHistory db p t) → no_colon (SessionID s) = true → SessionID s ∉ t →
  history_inv (mkHistory (CreateSession now s db).2 p (t ++ [SessionID s])).
Proof.
  intros Hi Hc Hfresh. pose proof (inv_taken _ _ _ _ Hi Hc) as Hi'. unfold CreateSession. destruct (_ || _ || _) eqn:E; [done|].
  apply orb_false_elim in E as [[Ek _]%orb_false_elim Epar]. cbn [snd]. apply inv_members. destruct Hi as [Hk Hr Hn Ht Hp Hch Hpa Hm Hre].
  destruct Hi' as [_ _ Hn' Ht' Hp' _ _ _ _]. cbn in *.
  assert (get (SessionID s) (sessions db) = None) as Hnone by (by destruct (get (SessionID s) (sessions db))).
  split; cbn [tables posted taken sessions messages with_sessions]; try done.
  - by apply keys_snoc.
  - intros x [Hx| ->]%elem_snoc; [by apply Ht'|apply elem_snoc; by right].
  - intros x [Hx| ->]%elem_snoc; [by apply Hch|]. cbn. rewrite (posts_untaken _ _ t); [done|intros r id Hin; by apply (Hp r id)|done].
  - assert (∀ id, is_Some (get id (sessions db)) → is_Some (get id (sessions db ++ [new_session now s]))) as Hmono.
    { intros id [x Hx]. rewrite get_snoc, Hx. by eexists. }
    intros x [Hx| ->]%elem_snoc; [destruct (Hpa x Hx); [by left|right; by apply Hmono]|]. cbn. destruct (String.eqb_spec (ParentSessionID s) ""); [by left|right].
    apply Hmono. cbn in Epar. by destruct (get (ParentSessionID s) (sessions db)).
  - intros r id x Hin [Hx| ->]%elem_snoc Ex; [by apply (Hm r id x)|]. exfalso. apply Hfresh. cbn in Ex. rewrite Ex. by apply (Hp r id).
Qed.

Lemma get_unlinked id i l : is_Some (get i l) → i ≠ id → is_Some (get i (unlink id <$> List.filter (λ s, negb (has_key id s)) l)).
Proof.
  intros [s Hs] Hne. apply get_some in Hs as [Hs Hk]. destruct (get i (unlink id <$> _)) eqn:E; [done|]. exfalso. apply get_none in E. apply E.
  apply list_elem_of_fmap. exists (unlink id s). split; [unfold unlink; destruct (String.eqb _ _); symmetry; exact Hk|].
  apply list_elem_of_fmap_2, list_elem_of_In, filter_In. split; [by apply list_elem_of_In|]. unfold has_key. apply negb_true_iff, String.eqb_neq. by rewrite Hk.
Qed.

Lemma inv_delete id db p t : history_inv (mkHistory db p t) → id ≠ "" → history_inv (mkHistory (DeleteSession id db) p t).
Proof.
  intros [Hk Hr Hn Ht Hp Hc Hpa Hm Hre] Hid. unfold DeleteSession. cbn in *.
  assert (∀ s', s' ∈ unlink id <$> List.filter (λ s, negb (has_key id s)) (sessions db) →
    ∃ s, s ∈ sessions db ∧ SessionID s ≠ id ∧ SessionID s' = SessionID s ∧ LastReportedMessageID s' = LastReportedMessageID s ∧
      (ParentSessionID s' = "" ∨ ParentSessionID s' = ParentSessionID s ∧ ParentSessionID s ≠ id)) as Hu.
  { intros s' (s & -> & [Hs Hne]%list_elem_of_In%filter_In)%list_elem_of_fmap. exists s. split; [by apply list_elem_of_In|].
    split; [intros E; assert (has_key id s = true) as X by (by apply has_key_spec); by rewrite X in Hne|]. unfold unlink.
    destruct (String.eqb_spec (ParentSessionID s) id); cbn; split_and!; try done; [by left|by right]. }
  split; cbn [tables posted taken sessions messages]; try done.
  - unfold keys_ok. rewrite <- list_fmap_compose. rewrite (list_fmap_ext _ Table.row_key); [by apply keys_filter|].
    intros _ s _. unfold compose, unlink. by destruct (String.eqb _ _).
  - by apply delete_rows_ok.
  - intros s' (s & Hs & _ & -> & _)%Hu. by apply Ht.
  - intros s' (s & Hs & _ & -> & -> & _)%Hu. by apply Hc.
  - intros s' (s & Hs & _ & _ & _ & [->|[-> Hne]])%Hu; [by left|]. destruct (Hpa s Hs) as [?|Hsome]; [by left|right]. by apply get_unlinked.
  - intros r i s' Hin (s & Hs & _ & -> & _ & [->|[-> Hne]])%Hu Ef; [by left|]. destruct (Hm r i s Hin Hs Ef) as [?|[Ep (x & Hx & ?)]]; [by left|right].
    split; [done|]. exists x. split; [|done]. cbn. rewrite delete_rows_under; [done|congruence].
  - intros x [Hx _]%elem_filter. by apply Hre.
Qed.

Lemma posts_one f r id : RepFork r = f → posts_of f [(r, id)] = [(r, id)].
Proof. intros <-. cbn. by rewrite String.eqb_refl. Qed.

Lemma posts_others f r id : RepFork r ≠ f → posts_of f [(r, id)] = [].
Proof. intros Hne. cbn. by destruct (String.eqb_spec (RepFork r) f). Qed.

Lemma row_under_fields s k t x : row_under s k t = Some x → x ∈ rows t ∧ RowSession x = s ∧ Key (RowMsg x) = k.
Proof. intros [Hx E]%row_under_some. injection E as <- <-. done. Qed.

(** A report posted: what the code checked, and what it wrote. *)
Lemma report_new now r db id db' :
  messages_ok (messages db) → row_under (RepParent r) (report_key r) (messages db) = None → AppendForkReport now r db = (inr id, db') →
  ∃ fork x, get (RepFork r) (sessions db) = Some fork ∧ is_Some (get (RepParent r) (sessions db)) ∧ ParentSessionID fork = RepParent r ∧
    LastReportedMessageID fork = RepFrom r ∧ member_in (RepFork r) (RepReporter r) db = true ∧ member_in (RepParent r) (RepReporter r) db = true ∧
    row_under (RepParent r) (report_key r) (messages db') = Some x ∧ row_id x = id ∧ Msg (RowMsg x) = RepMessage r ∧
    rows (messages db') = rows (messages db) ++ [x] ∧ extends (messages db) (messages db') ∧
    sessions db' = update_where (has_key (RepFork r)) (set_reported (RepUpTo r) id now) (sessions db) ∧ members db' = members db.
Proof.
  intros Hok Hnone. unfold AppendForkReport. rewrite Hnone. destruct (get (RepFork r) (sessions db)) as [fork|] eqn:Ef; [|done].
  destruct (get (RepParent r) (sessions db)) as [par|] eqn:Ep; cbn [is_none orb]; [|done].
  destruct (String.eqb_spec (ParentSessionID fork) (RepParent r)) as [Epar|]; cbn [negb]; [|done].
  destruct (Z.eqb_spec (LastReportedMessageID fork) (RepFrom r)) as [El|]; cbn [negb]; [|done].
  destruct (member_in (RepFork r) (RepReporter r) db) eqn:M1; cbn [negb]; [|done]. destruct (member_in (RepParent r) (RepReporter r) db) eqn:M2; cbn [negb]; [|done].
  pose proof (insert_row_under now (RepParent r) (report_key r) (RepMessage r) (messages db) Hok) as Hu.
  pose proof (insert_row_extends now (RepParent r) (report_key r) (RepMessage r) (messages db)) as Hx. unfold insert_row in *. rewrite Hnone in *.
  intros [= <- <-]. exists fork, (mkRow (RepParent r) (mkMsg (nextID (messages db)) now (report_key r) (RepMessage r))).
  split_and!; try done. exact (proj1 Hu).
Qed.

Lemma inv_report now r db p t :
  history_inv (mkHistory db p t) → 0 ≤ RepFrom r < RepUpTo r →
  history_inv (mkHistory (AppendForkReport now r db).2 (p ++ newly_posted now (SReport r) db) t).
Proof.
  intros Hi Hr. pose proof (hi_rows _ Hi) as Hok. cbn in Hok. cbn [newly_posted].
  destruct (row_under (RepParent r) (report_key r) (messages db)) as [x0|] eqn:Hnone.
  { rewrite app_nil_r. unfold AppendForkReport. rewrite Hnone. destruct (get (RepFork r) (sessions db)); [|done]. by destruct (_ || _). }
  destruct (AppendForkReport now r db) as [[e|id] db'] eqn:Ea; cbn [fst snd].
  { rewrite app_nil_r. unfold AppendForkReport in Ea. rewrite Hnone in Ea. destruct (get (RepFork r) (sessions db)); [|by injection Ea as _ <-].
    destruct (_ || _); [by injection Ea as _ <-|]. destruct (negb _); [by injection Ea as _ <-|]. destruct (negb _); [by injection Ea as _ <-|].
    destruct (negb _); [by injection Ea as _ <-|]. by destruct (insert_row _ _ _ _ _) as [[? ?] ?]. }
  destruct (report_new _ _ _ _ _ Hok Hnone Ea) as (fork & x & Ef & [par Ep] & Epar & El & _ & _ & Hux & Eid & Emsg & Erows & Hext & Es & _).
  destruct Hi as [Hk _ Hn Ht Hp Hc Hpa Hm Hre]. cbn [tables posted taken] in *. pose proof (row_under_fields _ _ _ _ Hux) as (Hxin & Exs & Exk).
  apply get_some in Ef as [Hf Ekf], Ep as [Hpar Ekp]. change (SessionID fork = RepFork r) in Ekf. change (SessionID par = RepParent r) in Ekp.
  assert (KeepsKey (set_reported (RepUpTo r) id now)) as Hkeep by (by intros ?).
  assert (∀ s', s' ∈ sessions db' → ∃ s, s ∈ sessions db ∧ SessionID s' = SessionID s ∧ ParentSessionID s' = ParentSessionID s ∧
    LastReportedMessageID s' = if String.eqb (SessionID s) (RepFork r) then RepUpTo r else LastReportedMessageID s) as Hu.
  { rewrite Es. intros s' (s & Hs & ->)%update_elem. exists s. split; [done|]. unfold has_key, Table.row_key, session_key. by destruct (String.eqb (SessionID s) (RepFork r)). }
  assert (messages_ok (messages db')) as Hok'.
  { unfold AppendForkReport in Ea. destruct (get _ _); [|done]. destruct (_ || _); [done|]. rewrite Hnone in Ea. do 3 (destruct (negb _); [done|]).
    pose proof (insert_row_ok now (RepParent r) (report_key r) (RepMessage r) (messages db) Hok) as Hi.
    destruct (insert_row _ _ _ _ _) as [[y b] msgs]. by injection Ea as _ <-. }
  split; cbn [tables posted taken]; try done.
  - rewrite Es. by apply keys_update_ok.
  - intros s' (s & Hs & -> & _)%Hu. by apply Ht.
  - intros r' i [Hin|[= -> ->]]%elem_snoc; [by apply (Hp r' i)|]. split_and!; [rewrite <- Ekf; by apply Ht|rewrite <- Ekp; by apply Ht|lia|lia].
  - intros s' (s & Hs & -> & _ & ->)%Hu. rewrite posts_app. destruct (String.eqb_spec (SessionID s) (RepFork r)) as [E|E].
    + rewrite (posts_one _ r id) by done. assert (s = fork) as -> by (apply (keys_unique (sessions db)); try done; unfold Table.row_key, session_key; congruence).
      eapply chained_snoc; [by apply Hc|congruence|rewrite El; lia].
    + rewrite posts_others by congruence. rewrite app_nil_r. by apply Hc.
  - intros s' (s & Hs & _ & -> & _)%Hu. destruct (Hpa s Hs) as [?|Hsome]; [by left|right]. rewrite Es, update_get by done. by apply fmap_is_Some.
  - intros r' i s' [Hin|[= -> ->]]%elem_snoc (s & Hs & -> & -> & _)%Hu E.
    + destruct (Hm r' i s Hin Hs E) as [?|[? (y & Hy & ?)]]; [by left|right]. split; [done|]. exists y. split; [|done]. by apply (extends_under _ _ _ _ _ Hext).
    + right. assert (s = fork) as -> by (apply (keys_unique (sessions db)); try done; unfold Table.row_key, session_key; congruence).
      split; [done|]. by exists x.
  - intros y Hy Hpre. rewrite Erows in Hy. apply elem_snoc in Hy as [Hy| ->].
    + destruct (Hre y Hy Hpre) as (r' & Hin & ?). exists r'. split; [apply elem_snoc; by left|done].
    + exists r. rewrite Eid. split; [apply elem_snoc; by right|done].
Qed.

Lemma summary_key_ok : has_prefix ForkSummaryKey reportKeyPrefix = false.
Proof. reflexivity. Qed.

Lemma inv_append now s k m db p t :
  history_inv (mkHistory db p t) → has_prefix k reportKeyPrefix = false →
  history_inv (mkHistory (with_messages db (AppendMessage now s k m (messages db)).2) p t).
Proof.
  intros Hi Hk. pose proof (inv_message now s k m db p t Hi Hk) as H. unfold AppendMessage. by destruct (insert_row now s k m (messages db)) as [[x b] msgs].
Qed.

Lemma history_step x h : op_ok x.2 h → history_inv h → history_inv (apply_history x h).
Proof.
  destruct x as [now op], h as [db p t]. unfold apply_history. cbn [fst snd tables posted taken]. intros Hop Hi.
  destruct op as [s|id|id ti|id ti|id mo|s u b|s u|s k m|f m|r]; cbn [apply_session_op newly_posted newly_taken]; rewrite ?app_nil_r; cbn in Hop.
  - destruct Hop. by apply inv_create.
  - by apply inv_delete.
  - unfold RenameSession. destruct (is_none _); [done|]. by apply inv_update; [apply _|].
  - by apply inv_update; [apply _|].
  - unfold SetSessionAgentMode. destruct (is_none _); [done|]. by apply inv_update; [apply _|].
  - unfold AddSessionMember. destruct (member_in s u db); [done|]. destruct (_ || _); [done|]. by apply inv_members.
  - by apply inv_members.
  - by apply inv_append.
  - unfold AppendForkSummary. destruct (get f (sessions db)); [|done].
    pose proof (inv_append now f ForkSummaryKey m db p t Hi summary_key_ok) as H. destruct (AppendMessage now f ForkSummaryKey m (messages db)) as [i msgs].
    by apply (inv_update (has_key f) (set_summary i)) in H.
  - by apply inv_report.
Qed.

Lemma run_history_inv l h : history_inv h → history_ok l h → history_inv (run_history l h).
Proof. revert h. induction l as [|x l IH]; intros h Hi; [done|]. intros [Hop Hl]. apply IH; [by apply history_step|done]. Qed.

(** ** Properties *)

(** C34. A fork's reports cover what happened in it once. Whatever is posted,
    retried, renamed, left or deleted, in any order, each message of a fork up
    to the last one reported is in exactly one of the reports posted, and none
    later is in any; while its parent is there, each report is the parent's
    message it was posted as. A report is answered as posted exactly when one
    of its fork with its range was: with its message and writing nothing. *)
Theorem reports_cover_once users l s :
  let h := run_history l (noHistory users) in
  history_ok l (noHistory users) → get (SessionID s) (sessions (tables h)) = Some s →
  (∀ m, 0 < m ≤ LastReportedMessageID s → ∃ p, p ∈ posts_of (SessionID s) (posted h) ∧ RepFrom p.1 < m ≤ RepUpTo p.1 ∧
     ∀ p', p' ∈ posts_of (SessionID s) (posted h) → RepFrom p'.1 < m ≤ RepUpTo p'.1 → p' = p) ∧
  (∀ p, p ∈ posts_of (SessionID s) (posted h) → RepUpTo p.1 ≤ LastReportedMessageID s ∧
     (ParentSessionID s = "" ∨ ParentSessionID s = RepParent p.1 ∧ message_of p.1 p.2 (tables h))) ∧
  (∀ now r id, RepFork r = SessionID s → ParentSessionID s ≠ "" → 0 ≤ RepFrom r → 0 ≤ RepUpTo r →
     (AppendForkReport now r (tables h) = (inr id, tables h) ↔
      ParentSessionID s = RepParent r ∧ ∃ r', (r', id) ∈ posts_of (SessionID s) (posted h) ∧ RepFrom r' = RepFrom r ∧ RepUpTo r' = RepUpTo r)).
Proof.
  cbv zeta. intros Hok Hs. pose proof (run_history_inv l _ (noHistory_inv users) Hok) as Hi. set (h := run_history l (noHistory users)) in *. clearbody h.
  pose proof Hs as [Hin _]%get_some. pose proof (hi_chain _ Hi s Hin) as Hch.
  assert (∀ p, p ∈ posts_of (SessionID s) (posted h) → p ∈ posted h ∧ RepFork p.1 = SessionID s) as Hpo.
  { intros p [Hp E]%list_elem_of_In%filter_In. split; [by apply list_elem_of_In|by apply String.eqb_eq]. }
  split_and!.
  - intros m Hm. destruct (chained_cover _ _ _ m Hch Hm) as (p & Hp & Hr). exists p. split_and!; [done|lia|lia|]. intros p' Hp' Hr'.
    by apply (chained_once _ _ _ m _ _ Hch Hp' Hp).
  - intros [r id] Hp. split; [by apply (chained_bounds _ _ _ _ Hch Hp)|]. destruct (Hpo _ Hp) as [Hp' E]. cbn in *. by apply (hi_message _ Hi r id s).
  - intros now r id Ef Hpar Hfrom HupTo. split.
    + intros Ea. destruct (row_under (RepParent r) (report_key r) (messages (tables h))) as [x|] eqn:Hx.
      * unfold AppendForkReport in Ea. rewrite Ef, Hs in Ea. destruct (is_none _ || _) eqn:E; [done|]. apply orb_false_elim in E as [_ E%negb_false_iff%String.eqb_eq].
        rewrite Hx in Ea. injection Ea as Eid. split; [done|]. pose proof (row_under_fields _ _ _ _ Hx) as (Hxin & Exs & Exk).
        destruct (hi_reports _ Hi x Hxin) as (r' & Hr' & _ & Ekey); [rewrite Exk; reflexivity|]. rewrite Eid in Hr'. destruct (hi_posted _ Hi r' id Hr') as (Ht1 & _ & ?).
        rewrite Exk in Ekey. apply report_key_inj in Ekey as (E1 & E2 & E3); try lia; try (by apply (hi_names _ Hi)); [|rewrite Ef; apply (hi_names _ Hi), (hi_taken _ Hi s Hin)].
        exists r'. split_and!; [|done|done]. apply list_elem_of_In, filter_In. split; [by apply list_elem_of_In|]. apply String.eqb_eq. cbn. congruence.
      * exfalso. destruct (report_new _ _ _ _ _ (hi_rows _ Hi) Hx Ea) as (_ & x & _ & _ & _ & _ & _ & _ & Hx' & _). congruence.
    + intros [Ep (r' & [Hr' E]%Hpo & E1 & E2)]. cbn in E. destruct (hi_message _ Hi r' id s Hr' Hin (eq_sym E)) as [?|[Ep' (x & Hx & <- & _)]]; [done|].
      assert (report_key r' = report_key r) as Ek by (unfold report_key; congruence). rewrite Ek in Hx.
      unfold AppendForkReport. rewrite Ef, Hs. destruct (hi_parent _ Hi s Hin) as [?|[par Hp]]; [done|]. rewrite Ep in Hp. rewrite Hp. cbn [is_none orb].
      rewrite Ep, String.eqb_refl. cbn [negb]. rewrite <- Ep, Ep' in *. by rewrite Hx.
Qed.

(** A fork that reports twice, the first report retried. *)
Definition ann : User := mkUser "u1" "ann@x.fr" "Ann" "" UserRoleStandard None None 0.
Definition demo_session (id parent : string) (at_ : Z) : Session :=
  mkSession id "u1" "" "jarvis" "web" "" 0 AgentModeAuto parent at_ "u1" "" 0 0 0 None.
Definition demo_report (from upTo : Z) : ForkReport := mkForkReport "f" "p" "u1" from upTo (plainMessage RoleUser "done").
Definition demo_history : list (time * session_op) :=
  [(1, SCreate (demo_session "p" "" 0)); (2, SMessage "p" "msg:1" (plainMessage RoleUser "hello")); (3, SCreate (demo_session "f" "p" 1));
   (4, SSummary "f" (plainMessage RoleUser "so far")); (5, SMessage "f" "msg:2" (plainMessage RoleUser "go"));
   (6, SReport (demo_report 0 3)); (7, SReport (demo_report 0 3)); (8, SMessage "f" "msg:3" (plainMessage RoleUser "more"));
   (9, SReport (demo_report 3 5)); (10, SReport (demo_report 3 7))].

Lemma demo_history_ok : history_ok demo_history (noHistory [ann]).
Proof.
  cbn [history_ok demo_history]. repeat match goal with |- _ ∧ _ => split end; try exact I; try reflexivity; cbn [op_ok snd];
    repeat split; try reflexivity; try (cbn; lia); by apply (bool_decide_unpack _); vm_compute.
Qed.

Definition demo_fork : Session := default (demo_session "" "" 0) (get "f" (sessions (tables (run_history demo_history (noHistory [ann]))))).

Lemma reports_cover_once_witness :
  LastReportedMessageID demo_fork = 5 ∧ (posted (run_history demo_history (noHistory [ann]))).*2 = [4; 6] ∧
  (∀ m, 0 < m ≤ 5 → ∃ p, p ∈ posts_of "f" (posted (run_history demo_history (noHistory [ann]))) ∧ RepFrom p.1 < m ≤ RepUpTo p.1).
Proof.
  split; [reflexivity|]. split; [reflexivity|]. intros m Hm.
  destruct (reports_cover_once [ann] demo_history demo_fork demo_history_ok eq_refl) as [H _]. destruct (H m Hm) as (p & Hp & Hr & _). by exists p.
Defined.
