(* ===== verification/Deliver.v ===== *)
(** * A message into a session (src/session/messages.go)

    Who answers a message: the agents it mentions, or the session's; which of
    them its author may call; what is stored, shown and delivered. What
    Temporal answers and the case of letters are parameters. *)

From S2P Require Import Prelude GoStr Utf8 Json Keys Message Store Table Access Convert CallInputs Participant Working Users Agents Sessions.
Open Scope string_scope.
Open Scope Z_scope.
Open Scope list_scope.

(** ** Mentions *)

Definition word_char (c : ascii) : bool := is_lower c || is_upper c || is_digit c || Ascii.eqb c "_".

(** What an [@] may follow, besides the start: [[^\w@.]]. *)
Definition before_mention (c : ascii) : bool := negb (word_char c || Ascii.eqb c "@" || Ascii.eqb c ".").

Definition emit (name : string) : list string := if String.eqb name "" then [] else [name].

(** [mentionPattern.FindAllStringSubmatch]: the names, in order. [name] is the
    mention being read, [ok] whether one may start here: not right after
    another, whose last byte is taken. *)
Fixpoint scan_mentions (name : option string) (ok : bool) (s : string) : list string :=
  match s with
  | "" => match name with Some n => emit n | None => [] end
  | String c s =>
      match name with
      | Some n =>
          if mention_char c then scan_mentions (Some (n +:+ String c "")) false s
          else emit n ++ scan_mentions None (before_mention c) s
      | None => if ok && Ascii.eqb c "@" then scan_mentions (Some "") false s else scan_mentions None (before_mention c) s
      end
  end.

Definition mentions (text : string) : list string := scan_mentions None true text.

Definition maxAgentsPerMessage : nat := 3.
Definition MaxQueued : Z := 5.

(** [strings.ToLower]. *)
Class GoLower := to_lower : string → string.

Definition addressed_agent (a : Agent) : AddressedAgent := mkAddressed (AgID a) (cmp_or (AgName a) (AgID a)) (MentionName a).

Section Mentions.
Context `{GoLower}.

Definition add_mention (byMention : gmap string Agent) (a : Agent) : gmap string Agent :=
  let key := to_lower (MentionName a) in
  match byMention !! key with
  | Some prev => if negb (String.eqb (AgMention prev) "") && String.eqb (AgMention a) "" then byMention else <[key := a]> byMention
  | None => <[key := a]> byMention
  end.

(** The agents called, and the mentions dropped past [max]. *)
Fixpoint call_mentions (byMention : gmap string Agent) (max : nat) (seen : list string) (called : list AddressedAgent) (dropped names : list string) :
    list AddressedAgent * list string :=
  match names with
  | [] => (called, dropped)
  | m :: names =>
      match byMention !! to_lower m with
      | None => call_mentions byMention max seen called dropped names
      | Some a =>
          if contains seen (AgID a) then call_mentions byMention max seen called dropped names
          else if (length called =? max)%nat then call_mentions byMention max (AgID a :: seen) called (dropped ++ [MentionName a]) names
          else call_mentions byMention max (AgID a :: seen) (called ++ [addressed_agent a]) dropped names
      end
  end.

Definition mentionedAgents (text : string) (agents : list Agent) (max : nat) : list AddressedAgent * list string :=
  call_mentions (fold_left add_mention agents ∅) max [] [] [] (mentions text).
End Mentions.

Definition answered (mode : string) (members : Z) (mentioned : list AddressedAgent) : bool :=
  if negb (bool_decide (mentioned = [])) then true
  else if String.eqb mode AgentModeAlways then true
  else if String.eqb mode AgentModeMention then false
  else members <=? 1.

(** ** Which agent (src/session/ops.go) *)

Inductive ServiceError :=
| ErrEmptyMessage
| ErrSummaryPending
| ErrQueueFull
| ErrNoAgent (requested : string)
| ErrAgentNotOpen
| ErrDeliver.

Definition resolveAgentID (defaultAgentID requested : string) (agents : list Agent) : ServiceError + string :=
  if negb (String.eqb requested "") then
    match get requested agents with Some a => inr (AgID a) | None => inl (ErrNoAgent requested) end
  else if existsb (has_key defaultAgentID) agents then inr defaultAgentID
  else match agents with a :: _ => inr (AgID a) | [] => inl (ErrNoAgent "") end.

(** The session's agent, or the default one if it is gone. *)
Definition agentOrDefault (defaultAgentID agentID : string) (agents : list Agent) : ServiceError + string :=
  match resolveAgentID defaultAgentID agentID agents with
  | inr id => inr id
  | inl _ => resolveAgentID defaultAgentID "" agents
  end.

Definition AgentOpen (snap : Snapshot) (userID agentID : string) : bool := SnapshotAllowed snap userID (Access.Agent agentID).

(** [openTo]: the agents open to a user and the others, in order. *)
Definition split_open (snap : Snapshot) (userID : string) (who : list AddressedAgent) : list AddressedAgent * list AddressedAgent :=
  (List.filter (λ a, AgentOpen snap userID (AddrID a)) who, List.filter (λ a, negb (AgentOpen snap userID (AddrID a))) who).

Definition addressed (agentID : string) (agents : list Agent) : AddressedAgent :=
  match get agentID agents with Some a => addressed_agent a | None => mkAddressed agentID agentID agentID end.

Definition mentionsOf (agents : list AddressedAgent) : string :=
  join ", " ((λ a, "@" +:+ cmp_or (AddrMention a) (AddrID a)) <$> agents).

Definition RefusedText (refused : list AddressedAgent) : string :=
  match refused with
  | [_] => mentionsOf refused +:+ " ne t'est pas ouvert : ton message est enregistré, sans réponse de sa part."
  | _ => mentionsOf refused +:+ " ne te sont pas ouverts : ton message est enregistré, sans réponse de leur part."
  end.

(** ** Titles *)

Definition maxTitleRunes : nat := 80.

Definition titleFrom (text : string) : string :=
  let title := trim_space text in
  let r := runes title in
  if (maxTitleRunes <? length r)%nat then of_runes (take maxTitleRunes r) +:+ "..." else title.

(** ** Delivery *)

Definition ChannelWeb : string := "web".

(** What the service keeps and reads: the tables, the agents in their listing's
    order, and what it knows of the participants. *)
Record Server := mkServer { tables : SDB; agents : list Agent; heard : turns }.

Definition with_tables (st : Server) (db : SDB) : Server := mkServer db (agents st) (heard st).
Definition with_heard (st : Server) (t : turns) : Server := mkServer (tables st) (agents st) t.

(** What a member's page is shown of a message. *)
Record UserMessageEvent := mkUserMessage {
  UmContent : string;
  UmUser : string;
  UmAuthor : string;
  UmCalled : bool;
  UmAgents : list string;
  UmBehind : gmap string Z;
  UmRefused : list string
}.

Inductive sent :=
| Shown (session : string) (e : UserMessageEvent)
| Signalled (workflowID : string) (input : ParticipantInput) (msg : ParticipantMessage).

Record Delivery := mkDelivery { Called : bool; Refused : list AddressedAgent }.

Inductive SummaryState := SummaryReady | SummaryPending | SummaryFailed.

Section Deliver.
Context `{GoLower} (defaultAgentID : string).
(** Whether Temporal takes a signal; whether the workflow writing a fork's
    summary is shown running. *)
Context (signal : string → bool) (shown_running : string → bool).

Definition ForkWorkflowID (fork : string) : string := "fork-" +:+ fork.

Definition ForkRunning (session : string) : bool := shown_running (ForkWorkflowID session).

Definition ForkSummaryState (fork : Session) : SummaryState :=
  if negb (SummaryMessageID fork =? 0) then SummaryReady
  else if ForkRunning (SessionID fork) then SummaryPending
  else SummaryFailed.

Definition QueuedBehind (now : time) (session participant : string) (st : Server) : Z := current_ now session participant (heard st).

Definition publishUserMessage (now : time) (session text : string) (author : User) (who refused : list AddressedAgent) (st : Server) : sent :=
  Shown session
    (mkUserMessage text (UserID author) (UserName author) (negb (bool_decide (who = []))) ((λ a, cmp_or (AddrName a) (AddrID a)) <$> who)
       (fold_left (λ m a, let current := QueuedBehind now session (AddrID a) st in if current =? 0 then m else <[AddrID a := current]> m) who ∅)
       ((λ a, cmp_or (AddrMention a) (AddrID a)) <$> refused)).

(** [deliver]: whether the participant was signalled. *)
Definition deliver (now : time) (sess : Session) (agentID : string) (msg : ParticipantMessage) (st : Server) : bool * list sent * Server :=
  let id := ParticipantWorkflowID (SessionID sess) agentID in
  let st := with_heard st (expect now (SessionID sess) agentID (MessageID msg) (heard st)) in
  if signal id then (true, [Signalled id (mkInput (SessionID sess) agentID (Channel sess) (ChannelID sess) []) msg], st)
  else (false, [], with_heard st (unexpect (SessionID sess) agentID (MessageID msg) (heard st))).

(** Who is to answer, before anything is stored: the session's agent, the
    agents called, those refused. *)
Definition called_agents (now : time) (snap : Snapshot) (sess : Session) (author : User) (text : string) (st : Server) :
    ServiceError + (string * list AddressedAgent * list AddressedAgent) :=
  let '(mentioned, _) := mentionedAgents text (agents st) maxAgentsPerMessage in
  if answered (AgentMode sess) (Z.of_nat (length (ListSessionMembers (SessionID sess) (tables st)))) mentioned then
    match agentOrDefault defaultAgentID (AgentID sess) (agents st) with
    | inl e => inl e
    | inr sessionAgent =>
        let who := match mentioned with [] => [addressed sessionAgent (agents st)] | _ => mentioned end in
        let '(who, refused) := split_open snap (UserID author) who in
        match who with
        | a :: _ => if MaxQueued <=? queued now (SessionID sess) (AddrID a) (heard st) then inl ErrQueueFull else inr (sessionAgent, who, refused)
        | [] => inr (sessionAgent, who, refused)
        end
    end
  else inr ("", [], []).

Definition user_message (author : User) (text : string) : Message :=
  mkMessage RoleUser (marshal text) (UserID author) "" (UserName author) "" [] None None None "" None "" "".

(** The title the first message gives comes in the background; the trees it
    rings and the statuses it drops are not modelled here. *)
Definition Deliver (now : time) (uuid : string) (snap : Snapshot) (sess : Session) (author : User) (text : string) (st : Server) :
    (option ServiceError * Delivery) * list sent * Server :=
  let refuse e := ((Some e, mkDelivery false []), [], st) in
  if String.eqb (trim_space text) "" then refuse ErrEmptyMessage
  else if negb (ForkedAtMessageID sess =? 0) && match ForkSummaryState sess with SummaryPending => true | _ => false end then refuse ErrSummaryPending
  else
    match called_agents now snap sess author text st with
    | inl e => refuse e
    | inr (sessionAgent, who, refused) =>
        let '(id, msgs) := AppendMessage now (SessionID sess) (HumanMessageKey uuid) (user_message author text) (messages (tables st)) in
        let st := with_tables st (UpdateSessionTitle (SessionID sess) (titleFrom text) (with_messages (tables st) msgs)) in
        let event := publishUserMessage now (SessionID sess) text author who refused st in
        match who with
        | [] => ((None, mkDelivery false refused), [event], st)
        | first :: next =>
            let sign := negb (bool_decide (next = [])) || negb (String.eqb (AddrID first) sessionAgent) ||
                        (negb (String.eqb (Channel sess) ChannelWeb) && String.eqb (Title sess) "" && negb (String.eqb (AddrID first) defaultAgentID)) in
            let part := match next with [] => None | _ => Some (mkPart who (Quote text)) end in
            let msg := mkPM id (UserID author) (UserName author) next [] sign (Channel sess) (ChannelID sess) part in
            let '(ok, out, st) := deliver now sess (AddrID first) msg st in
            (if ok then (None, mkDelivery true refused) else (Some ErrDeliver, mkDelivery false refused), event :: out, st)
        end
    end.
End Deliver.

(** ** Whom a message calls *)

(** ** Mentions *)

(** Whether a mention may start after [pre], [ok] whether one may where [pre]
    is empty. *)
Fixpoint may_follow (ok : bool) (pre : string) : bool :=
  match pre with "" => ok | String c pre => may_follow (before_mention c) pre end.

Definition ends_name (post : string) : bool := match post with "" => true | String c _ => negb (mention_char c) end.

Definition a_name (x : string) : Prop := x ≠ "" ∧ all_bytes mention_char x = true.

(** A whole name right after an [@] that may start one. *)
Definition mention_in (ok : bool) (s x : string) : Prop :=
  ∃ pre post, s = pre +:+ String "@" (x +:+ post) ∧ a_name x ∧ ends_name post = true ∧ may_follow ok pre = true.

Lemma snoc_not_empty a c : a +:+ String c "" ≠ "".
Proof. by destruct a. Qed.

Lemma mention_in_cons ok c s x : mention_in (before_mention c) s x → mention_in ok (String c s) x.
Proof. intros (pre & post & -> & Hx & Hp & Hf). by exists (String c pre), post. Qed.

Lemma emit_in n x : x ∈ emit n → x = n ∧ n ≠ "".
Proof. unfold emit. destruct (String.eqb_spec n ""); [by intros ?%not_elem_of_nil|]. by intros ->%list_elem_of_singleton. Qed.

Lemma scan_sound s :
  (∀ ok x, x ∈ scan_mentions None ok s → mention_in ok s x) ∧
  (∀ n x, x ∈ scan_mentions (Some n) false s →
     (∃ rest post, s = rest +:+ post ∧ x = n +:+ rest ∧ x ≠ "" ∧ all_bytes mention_char rest = true ∧ ends_name post = true) ∨ mention_in false s x).
Proof.
  induction s as [|c s [IH1 IH2]]; split.
  - intros ok x Hx. by apply not_elem_of_nil in Hx.
  - intros n x [-> Hn]%emit_in. left. exists "", "". rewrite !app_nil_r_str. by split_and!.
  - intros ok x. cbn [scan_mentions]. destruct (ok && Ascii.eqb c "@") eqn:E; [|by intros ?%IH1; apply mention_in_cons].
    apply andb_prop in E as [-> ->%Ascii.eqb_eq]. intros [(rest & post & -> & -> & Hne & Hall & Hp)|Hm]%IH2; [|by apply mention_in_cons].
    exists "", post. by split_and!.
  - intros n x. cbn [scan_mentions]. destruct (mention_char c) eqn:Ec.
    + intros [(rest & post & -> & -> & Hne & Hall & Hp)|(pre & post & -> & Hx & Hp & Hf)]%IH2.
      * left. exists (String c rest), post. rewrite app_assoc_str in *. cbn in *. rewrite Ec. by split_and!.
      * right. exists (String c pre), post. split_and!; try done. cbn. destruct pre; done.
    + intros [[-> Hn]%emit_in|Hx]%elem_of_app; [|right; by apply mention_in_cons, IH1].
      left. exists "", (String c s). rewrite app_nil_r_str. cbn. rewrite Ec. by split_and!.
Qed.

Lemma scan_name rest n post : all_bytes mention_char rest = true → ends_name post = true → n +:+ rest ≠ "" → n +:+ rest ∈ scan_mentions (Some n) false (rest +:+ post).
Proof.
  revert n. induction rest as [|c rest IH]; intros n Hall Hp Hne; cbn [String.append].
  - rewrite app_nil_r_str in *. assert (n ∈ emit n) as He by (unfold emit; destruct (String.eqb_spec n ""); [done|by left]).
    destruct post as [|d post]; [done|]. cbn in Hp |- *. destruct (mention_char d); [done|]. apply elem_of_app. by left.
  - cbn in Hall |- *. apply andb_prop in Hall as [-> Hall]. assert (n +:+ String c rest = (n +:+ String c "") +:+ rest) as E by (by rewrite app_assoc_str).
    rewrite E in *. by apply IH.
Qed.

Fixpoint last_is (d : ascii) (s : string) : bool :=
  match s with "" => false | String c "" => Ascii.eqb c d | String _ s => last_is d s end.

Lemma before_not_mention c : before_mention c = true → Ascii.eqb c "-" = false → mention_char c = false.
Proof.
  unfold before_mention, mention_char, word_char. destruct (Ascii.eqb c "-"); [done|]. intros H%negb_true_iff _.
  apply orb_false_elim in H as [[[[[-> ->]%orb_false_elim ->]%orb_false_elim ->]%orb_false_elim _]%orb_false_elim _]. done.
Qed.

Lemma scan_complete pre x post :
  a_name x → ends_name post = true → last_is "-" pre = false →
  (∀ ok, may_follow ok pre = true → x ∈ scan_mentions None ok (pre +:+ String "@" (x +:+ post))) ∧
  (∀ n, pre ≠ "" → may_follow false pre = true → x ∈ scan_mentions (Some n) false (pre +:+ String "@" (x +:+ post))).
Proof.
  intros [Hne Hall] Hp. induction pre as [|c pre IH]; intros Hd; split.
  - intros ok Hok. cbn in Hok. rewrite Hok. cbn. by apply (scan_name x "" post).
  - done.
  - intros ok Hf. cbn [String.append scan_mentions]. assert (last_is "-" pre = false) as Hd' by (destruct pre; done). specialize (IH Hd') as [IH1 IH2].
    cbn [may_follow] in Hf. destruct (ok && Ascii.eqb c "@") eqn:E; [|by apply IH1]. apply andb_prop in E as [_ ->%Ascii.eqb_eq].
    destruct pre as [|d pre]; [done|]. by apply IH2.
  - intros n _ Hf. cbn [String.append scan_mentions]. assert (last_is "-" pre = false) as Hd' by (destruct pre; done). specialize (IH Hd') as [IH1 IH2].
    cbn [may_follow] in Hf. destruct (mention_char c) eqn:Ec; [|apply elem_of_app; right; by apply IH1].
    destruct pre as [|d pre]; [|by apply IH2]. exfalso. cbn in Hf, Hd. by rewrite (before_not_mention c Hf Hd) in Ec.
Qed.

(** What a message mentions. A name is taken for a mention only right
    after an [@] at the start or after a byte that is no ASCII word character,
    no [@] and no dot, and whole; every such name is, but one that follows
    another mention's last hyphen. *)
Theorem mentions_exact text x :
  (x ∈ mentions text → mention_in true text x) ∧
  (∀ pre post, text = pre +:+ String "@" (x +:+ post) → a_name x → ends_name post = true → may_follow true pre = true → last_is "-" pre = false →
     x ∈ mentions text).
Proof. split; [by apply scan_sound|]. intros pre post -> Hx Hp Hf Hd. by apply scan_complete. Qed.

(** An e-mail address whose name ends in an accented letter is read as a
    mention of an agent named as its domain starts. *)
Example address_taken_for_mention : mentions ("écris à ren" +:+ encode_rune 233 +:+ "@support.example.com") = ["support"].
Proof. reflexivity. Qed.
Example address_is_no_mention : mentions "write to rene@support.example.com" = [].
Proof. reflexivity. Qed.

(** ** The agents called *)

#[export] Instance Agent_eq_dec : EqDecision Agent.
Proof. solve_decision. Defined.

(** The first occurrences, in order. *)
Definition firsts {A} `{EqDecision A} (l : list A) : list A := reverse (remove_dups (reverse l)).

Lemma firsts_snoc {A} `{EqDecision A} (l : list A) x : firsts (l ++ [x]) = if decide (x ∈ l) then firsts l else firsts l ++ [x].
Proof.
  unfold firsts. rewrite reverse_snoc. cbn [remove_dups].
  assert (x ∈ reverse l ↔ x ∈ l) as E by (by rewrite elem_of_reverse).
  destruct (decide_rel elem_of x (reverse l)) as [Hx|Hx], (decide (x ∈ l)) as [Hy|Hy]; [done|by apply E in Hx|by apply E in Hy|apply reverse_cons].
Qed.

Lemma firsts_elem {A} `{EqDecision A} (l : list A) x : x ∈ firsts l ↔ x ∈ l.
Proof. unfold firsts. by rewrite elem_of_reverse, elem_of_remove_dups, elem_of_reverse. Qed.

Section Called.
Context `{GoLower}.

Definition names_distinct (l : list Agent) : Prop := NoDup ((λ a, to_lower (MentionName a)) <$> l).

(** The agent a mention names. *)
Definition named (l : list Agent) (m : string) : option Agent := List.find (λ a, String.eqb (to_lower (MentionName a)) (to_lower m)) l.

Lemma by_mention l m0 k :
  names_distinct l → (∀ a, a ∈ l → m0 !! to_lower (MentionName a) = None) →
  fold_left add_mention l m0 !! k = match List.find (λ a, String.eqb (to_lower (MentionName a)) k) l with Some a => Some a | None => m0 !! k end.
Proof.
  revert m0. induction l as [|a l IH]; intros m0 Hd Hm0; [done|]. apply NoDup_cons in Hd as [Ha Hl]. cbn [fold_left List.find].
  assert (add_mention m0 a = <[to_lower (MentionName a) := a]> m0) as ->.
  { unfold add_mention. by rewrite (Hm0 a) by (by left). }
  rewrite IH; [|done|].
  - destruct (String.eqb_spec (to_lower (MentionName a)) k) as [<-|Hne].
    + destruct (List.find _ l) as [b|] eqn:Hb; [|by rewrite lookup_insert_eq]. exfalso. apply find_some in Hb as [Hb E%String.eqb_eq]. apply Ha.
      apply list_elem_of_fmap. exists b. split; [done|by apply list_elem_of_In].
    + destruct (List.find _ l); [done|]. by rewrite lookup_insert_ne.
  - intros b Hb. rewrite lookup_insert_ne; [apply Hm0; by right|]. intros E. apply Ha. apply list_elem_of_fmap. by exists b.
Qed.

Lemma named_in l m a : named l m = Some a → a ∈ l.
Proof. intros [Ha _]%find_some. by apply list_elem_of_In. Qed.

Lemma call_mentions_exact l max names before seen dropped :
  names_distinct l → keys_ok l →
  (∀ a, a ∈ l → contains seen (AgID a) = true ↔ a ∈ omap (named l) before) →
  (call_mentions (fold_left add_mention l ∅) max seen (addressed_agent <$> take max (firsts (omap (named l) before))) dropped names).1 =
  addressed_agent <$> take max (firsts (omap (named l) (before ++ names))).
Proof.
  intros Hn Hk. revert before seen dropped. induction names as [|m names IH]; intros before seen dropped Hseen; cbn [call_mentions].
  { by rewrite app_nil_r. }
  assert (before ++ m :: names = (before ++ [m]) ++ names) as -> by (by rewrite <- app_assoc).
  assert (fold_left add_mention l ∅ !! to_lower m = named l m) as ->.
  { rewrite by_mention; [|done|intros; apply lookup_empty]. unfold named. by destruct (List.find _ l). }
  destruct (named l m) as [a|] eqn:Ha.
  2: { rewrite <- IH with (seen := seen) (dropped := dropped); rewrite omap_app; cbn; rewrite Ha, app_nil_r; done. }
  pose proof (named_in _ _ _ Ha) as Hal.
  assert (omap (named l) (before ++ [m]) = omap (named l) before ++ [a]) as Eo by (rewrite omap_app; cbn; by rewrite Ha).
  destruct (contains seen (AgID a)) eqn:Ec.
  - rewrite <- IH with (seen := seen) (dropped := dropped); rewrite Eo.
    + rewrite firsts_snoc. rewrite decide_True; [done|]. by apply Hseen.
    + intros b Hb. rewrite Hseen by done. rewrite elem_of_app, list_elem_of_singleton. split; [by left|]. intros [?| ->]; [done|by apply Hseen].
  - assert (a ∉ omap (named l) before) as Hnew by (intros Hin; apply Hseen in Hin; congruence).
    assert (∀ b, b ∈ l → contains (AgID a :: seen) (AgID b) = true ↔ b ∈ omap (named l) (before ++ [m])) as Hseen'.
    { intros b Hb. rewrite Eo, elem_of_app, list_elem_of_singleton, <- Hseen by done. cbn. rewrite orb_true_iff, String.eqb_eq. split; [|naive_solver].
      intros [E|?]; [right|by left]. by apply (keys_unique l). }
    rewrite length_fmap, length_take. destruct (Nat.eqb_spec (max `min` length (firsts (omap (named l) before))) max) as [Em|Em].
    + rewrite <- IH with (seen := AgID a :: seen) (dropped := dropped ++ [MentionName a]); [|done]. rewrite Eo, firsts_snoc, decide_False by done.
      rewrite take_app_le by lia. done.
    + rewrite <- IH with (seen := AgID a :: seen) (dropped := dropped); [|done]. rewrite Eo, firsts_snoc, decide_False by done.
      rewrite (take_ge (firsts (omap (named l) before))) by lia. rewrite take_ge; [by rewrite fmap_app|]. rewrite length_app. cbn. lia.
Qed.

Lemma mentioned_exact text l max :
  names_distinct l → keys_ok l → (mentionedAgents text l max).1 = addressed_agent <$> take max (firsts (omap (named l) (mentions text))).
Proof.
  intros Hn Hk. unfold mentionedAgents.
  assert (addressed_agent <$> take max (firsts (omap (named l) [])) = []) as E by (by cbn; rewrite take_nil).
  assert (∀ a, a ∈ l → contains [] (AgID a) = true ↔ a ∈ omap (named l) []) as Hs by (intros a _; cbn; split; [done|by intros ?%not_elem_of_nil]).
  pose proof (call_mentions_exact l max (mentions text) [] [] [] Hn Hk Hs) as Hc. by rewrite E in Hc.
Qed.

(** Who a message is for, by its text and the session alone. *)
Definition whom (defaultAgentID : string) (sess : Session) (text : string) (st : Server) : list AddressedAgent :=
  let talks := String.eqb (AgentMode sess) AgentModeAlways ||
               (negb (String.eqb (AgentMode sess) AgentModeMention) && (Z.of_nat (length (ListSessionMembers (SessionID sess) (tables st))) <=? 1)) in
  match addressed_agent <$> take maxAgentsPerMessage (firsts (omap (named (agents st)) (mentions text))) with
  | [] => if talks then match agentOrDefault defaultAgentID (AgentID sess) (agents st) with inr id => [addressed id (agents st)] | inl _ => [] end else []
  | l => l
  end.

Lemma agent_or_default d id l e : agentOrDefault d id l = inl e → e = ErrNoAgent "" ∧ l = [].
Proof.
  unfold agentOrDefault, resolveAgentID. cbn [String.eqb negb]. destruct (if negb (String.eqb id "") then _ else _); [|done].
  destruct (existsb _ l); [done|]. destruct l; [by intros [= <-]|done].
Qed.

(** The agents open to the author, but for a full queue. *)
Lemma open_or_full now snap uid sid (session : string) who st :
  match (let '(w, r) := split_open snap uid who in
         match w with
         | a :: _ => if MaxQueued <=? queued now sid (AddrID a) (heard st) then inl ErrQueueFull else inr (session, w, r)
         | [] => inr (session, w, r)
         end) with
  | inr (_, w, r) => split_open snap uid who = (w, r) ∧ (∀ a l, w = a :: l → queued now sid (AddrID a) (heard st) < MaxQueued)
  | inl e => e = ErrQueueFull ∧ ∃ a next, (split_open snap uid who).1 = a :: next ∧ MaxQueued <= queued now sid (AddrID a) (heard st)
  end.
Proof.
  destruct (split_open snap uid who) as [[|a w] r]; [done|]. destruct (Z.leb_spec MaxQueued (queued now sid (AddrID a) (heard st))).
  - split; [done|]. by exists a, w.
  - split; [done|]. by intros b l [= <- _].
Qed.

Lemma called_agents_exact d now snap sess author text st :
  names_distinct (agents st) → keys_ok (agents st) →
  match called_agents d now snap sess author text st with
  | inr (_, who, refused) =>
      split_open snap (UserID author) (whom d sess text st) = (who, refused) ∧
      (∀ a l, who = a :: l → queued now (SessionID sess) (AddrID a) (heard st) < MaxQueued)
  | inl e =>
      e = ErrQueueFull ∧ (∃ a next, (split_open snap (UserID author) (whom d sess text st)).1 = a :: next ∧
                            MaxQueued <= queued now (SessionID sess) (AddrID a) (heard st)) ∨
      e = ErrNoAgent "" ∧ agents st = []
  end.
Proof.
  intros Hn Hk. unfold called_agents, whom. rewrite <- (mentioned_exact text (agents st) maxAgentsPerMessage Hn Hk).
  destruct (mentionedAgents text (agents st) maxAgentsPerMessage) as [mentioned dropped]. cbn [fst]. unfold answered.
  destruct mentioned as [|x mentioned]; cbn [negb].
  - rewrite bool_decide_true by done. cbn [negb].
    assert (∀ b c e : bool, (if b then true else if c then false else e) = b || (negb c && e)) as -> by (by intros [] [] []).
    destruct (_ || _); [|done]. destruct (agentOrDefault _ _ _) as [e|id] eqn:Ea; [right; by apply agent_or_default in Ea|].
    pose proof (open_or_full now snap (UserID author) (SessionID sess) id [addressed id (agents st)] st) as Hs. cbv zeta in *.
    destruct (let '(_, _) := split_open _ _ _ in _) as [e|[[s w] r]]; [by left|done].
  - rewrite bool_decide_false by done. cbn [negb]. destruct (agentOrDefault _ _ _) as [e|id] eqn:Ea; [right; by apply agent_or_default in Ea|].
    pose proof (open_or_full now snap (UserID author) (SessionID sess) id (x :: mentioned) st) as Hs. cbv zeta in *.
    destruct (let '(_, _) := split_open _ _ _ in _) as [e|[[s w] r]]; [by left|done].
Qed.
End Called.

(** ** What a message does *)

Section Delivered.
Context `{GoLower}.

Lemma append_new now session key msg t :
  row_under session key t = None →
  AppendMessage now session key msg t = (nextID t, mkMessages (rows t ++ [mkRow session (mkMsg (nextID t) now key msg)]) (nextID t + 1)).
Proof. intros E. unfold AppendMessage, insert_row. by rewrite E. Qed.

Lemma whom_length d sess text st : (length (whom d sess text st) <= maxAgentsPerMessage)%nat.
Proof.
  unfold whom. destruct (addressed_agent <$> _) as [|a l] eqn:E; [destruct (_ || _); [destruct (agentOrDefault _ _ _)|]; cbn; unfold maxAgentsPerMessage; lia|].
  rewrite <- E, length_fmap, length_take. lia.
Qed.

(** What a delivery's signal carries. *)
Definition carries (id : Z) (author : User) (next : list AddressedAgent) (m : ParticipantMessage) : Prop :=
  MessageID m = id ∧ PMUserID m = UserID author ∧ PMUserName m = UserName author ∧ Next m = next.

(** C7. A message is refused whole or taken once. A refusal stores, shows and
    signals nothing, and leaves what the server knows as it was: an empty
    text, a fork whose summary is being written, no agent, a full queue. Any
    other message is stored once, as its author wrote it, and shown first; of
    the agents it is for, by its mentions or the session's mode, those its
    author may call are called in order and the others told refused. One
    signal at most is sent, with the row's number, to the first of them, whose
    queue was not full, the rest after it in the relay; with none to call
    nothing is signalled and nothing fails. *)
Theorem deliver_calls_open d signal shown_running now uuid snap sess author text st :
  names_distinct (agents st) → keys_ok (agents st) →
  row_under (SessionID sess) (HumanMessageKey uuid) (messages (tables st)) = None →
  let sid := SessionID sess in
  let id := nextID (messages (tables st)) in
  let '(who, refused) := split_open snap (UserID author) (whom d sess text st) in
  let '((e, dlv), out, st') := Deliver d signal shown_running now uuid snap sess author text st in
  match e with
  | None | Some ErrDeliver =>
      trim_space text ≠ "" ∧ Refused dlv = refused ∧ agents st' = agents st ∧
      messages (tables st') =
        mkMessages (rows (messages (tables st)) ++ [mkRow sid (mkMsg id now (HumanMessageKey uuid) (user_message author text))]) (id + 1) ∧
      match who with
      | [] => e = None ∧ Called dlv = false ∧ heard st' = heard st ∧ ∃ ev, out = [Shown sid ev] ∧ UmContent ev = text ∧ UmCalled ev = false
      | a :: next =>
          Called dlv = signal (ParticipantWorkflowID sid (AddrID a)) ∧ (e = None ↔ Called dlv = true) ∧ (length next < maxAgentsPerMessage)%nat ∧
          ∃ ev signals, out = Shown sid ev :: signals ∧ UmContent ev = text ∧ UmCalled ev = true ∧
            if Called dlv then
              ∃ m, signals = [Signalled (ParticipantWorkflowID sid (AddrID a)) (mkInput sid (AddrID a) (Channel sess) (ChannelID sess) []) m] ∧ carries id author next m
            else signals = []
      end
  | Some err =>
      dlv = mkDelivery false [] ∧ out = [] ∧ st' = st ∧
      (err = ErrEmptyMessage ∧ trim_space text = "" ∨
       err = ErrSummaryPending ∧ ForkedAtMessageID sess ≠ 0 ∧ SummaryMessageID sess = 0 ∧ shown_running (ForkWorkflowID sid) = true ∨
       err = ErrQueueFull ∧ (∃ a next, who = a :: next ∧ MaxQueued ≤ queued now sid (AddrID a) (heard st)) ∨
       err = ErrNoAgent "" ∧ agents st = [])
  end.
Proof.
  intros Hn Hk Hnew. cbv zeta. pose proof (called_agents_exact d now snap sess author text st Hn Hk) as Hc. pose proof (whom_length d sess text st) as Hlen.
  destruct (split_open snap (UserID author) (whom d sess text st)) as [who refused] eqn:Hso. unfold Deliver. cbv zeta.
  destruct (String.eqb_spec (trim_space text) "") as [Ht|Ht]; [split_and!; [done..|by left]|].
  destruct (negb _ && _) eqn:Hsum.
  { apply andb_prop in Hsum as [Hf%negb_true_iff%Z.eqb_neq Hs]. split_and!; [done..|]. right; left. revert Hs. unfold ForkSummaryState, ForkRunning.
    destruct (Z.eqb_spec (SummaryMessageID sess) 0); [|done]. cbn [negb]. by destruct (shown_running _). }
  destruct (called_agents d now snap sess author text st) as [e|[[sa who'] refused']].
  { cbn [fst] in Hc. destruct Hc as [[-> Hq]|[-> Ha]]; (split_and!; [done..|]); [right; right; by left|by do 3 right]. }
  destruct Hc as [[= <- <-] Hq]. rewrite (append_new _ _ _ _ _ Hnew). cbn [fst snd].
  destruct who as [|x next]; [cbn; split_and!; try done; by eexists|].
  assert (length next < maxAgentsPerMessage)%nat as Hnext.
  { injection Hso as Hw _. apply (f_equal length) in Hw. cbn in Hw. pose proof (List.filter_length_le (λ a, AgentOpen snap (UserID author) (AddrID a)) (whom d sess text st)). lia. }
  unfold deliver. cbv zeta. destruct (signal _) eqn:Es; cbn; rewrite ?Es; (split_and!; [done..|by split|done|]); eexists _, _; (split; [reflexivity|]); split_and!; try done.
  eexists. split; [reflexivity|by split_and!].
Qed.
End Delivered.

(** ** A message to two agents, one of them closed to its author *)

Definition demo_agent (id : string) : Agent := mkAgent id "" "" "" [] [] "" 1 0 0.
Definition demo_author : User := mkUser "u1" "ann@x.fr" "Ann" "" UserRoleStandard None None 0.
Definition demo_sess : Session := mkSession "s" "u1" "" "jarvis" "web" "" 0 AgentModeAuto "" 0 "" "" 0 0 0 None.
Definition demo_server : Server :=
  mkServer (mkSDB [demo_author] [demo_sess] [] noMessages ∅) [demo_agent "jarvis"; demo_agent "support"; demo_agent "code"] noTurns.
Definition demo_snapshot : Snapshot := mkSnapshot [mkRule 1 KindPattern "agent_code" [] ["u2"]] ∅.
Definition demo_text : string := "@code puis @Support : du neuf ?".

Definition demo_delivered := @Deliver ascii_lower "jarvis" (λ _, true) (λ _, false) 5 "uu" demo_snapshot demo_sess demo_author demo_text demo_server.

Lemma deliver_calls_open_witness :
  @whom ascii_lower "jarvis" demo_sess demo_text demo_server = [mkAddressed "code" "code" "code"; mkAddressed "support" "support" "support"] ∧
  (Refused demo_delivered.1.1.2 = [mkAddressed "code" "code" "code"] ∧ Called demo_delivered.1.1.2 = true).
Proof.
  split; [reflexivity|].
  assert (@names_distinct ascii_lower (agents demo_server)) as Hn by (apply (bool_decide_unpack _); vm_compute; exact I).
  assert (keys_ok (agents demo_server)) as Hk by (apply (bool_decide_unpack _); vm_compute; exact I).
  pose proof (@deliver_calls_open ascii_lower "jarvis" (λ _, true) (λ _, false) 5 "uu" demo_snapshot demo_sess demo_author demo_text demo_server Hn Hk eq_refl) as Ht.
  vm_compute in Ht. destruct Ht as (_ & Hr & _ & _ & Hc & _). by split.
Defined.
