(* ===== verification/SessionOps.v ===== *)
(** * Opening, joining and leaving a session (src/session/ops.go, src/session/temporal.go)

    The operations of the session service on the store, what it knows of the
    participants, and what it asks of Temporal and of the hub, as the list of
    what it did. What the visibility queries list, what starts, the new
    identifiers and the shape of a session's ID are parameters; so are the
    access rules read (Access.v has their cache). The log lines and the times
    that bound the calls are not modelled. *)

From S2P Require Import Prelude GoStr Utf8 Json Keys Message Store Table Access Convert CallInputs Participant Working Users MachineInputs Agents Sessions Deliver.
From S2P Require Tasks.
Open Scope string_scope.
Open Scope Z_scope.
Open Scope list_scope.

Inductive OpError :=
| ErrNotFound
| ErrNotCreator
| ErrNoSuchUser
| ErrBadForkPoint
| ErrPurposeTooLong
| ErrBadMode
| ErrEmptyTitle
| ErrEmptyAnswer
| ErrForeignQuestion
| ErrService (e : ServiceError)
| ErrStore (e : SessionError)
| ErrTemporal.

(** What the workflow that writes a fork's summary is given (src/workflow/fork.go). *)
Record ForkSessionInput := mkForkInput {
  FkFork : string;
  FkParent : string;
  FkUpTo : Z;
  FkPurpose : string;
  FkModel : string
}.

(** What an operation did outside of the store, in order. *)
Inductive act :=
| Terminated (workflowID reason : string)
| MembersLeft (session : string) (users : list string)
| TreeChanged (user session : string)
| StartedFork (workflowID : string) (input : ForkSessionInput)
| Invalidated.

(** ** Titles *)

Definition MaxTitleRunes : nat := 120.
Definition MaxPurposeRunes : nat := 500.
Definition space : Z := 32.

Definition cleanTitle (title : string) : string :=
  let title := of_runes ((λ r, if is_control r || is_format r then space else r) <$> runes title) in
  let title := join " " (fields title) in
  let r := runes title in
  if (MaxTitleRunes <? length r)%nat then of_runes (take MaxTitleRunes r) else title.

(** ** Queries of Temporal *)

Section Ops.
Context `{PGLower} (defaultAgentID : string).
Context (is_session_id : string → bool).
(** The running workflows a query lists, with when they started: [None] for a
    query that fails. *)
Context (listWorkflow : string → option (list (string * time))).

Definition runningQuery (workflowType sessionID : string) : option string :=
  if is_session_id sessionID then
    Some ("WorkflowType = '" +:+ workflowType +:+ "' AND ExecutionStatus = 'Running' AND WorkflowId STARTS_WITH '" +:+ sessionID +:+ ":'")
  else None.

(** Oldest first. *)
Definition listRunning (workflowType sessionID : string) : option (list string) :=
  match runningQuery workflowType sessionID with
  | None => None
  | Some query => (λ l, (sort_stable (λ a b, snd a <=? snd b) l).*1) <$> listWorkflow query
  end.

(** Those of [more] that [ids] has not, after it. *)
Definition add_new (ids more : list string) : list string := fold_left (λ ids id, if contains ids id then ids else ids ++ [id]) more ids.

Definition participants (now : time) (sessionID : string) (st : Server) : option (list string) :=
  (λ ids, add_new ids ((λ w, ParticipantWorkflowID sessionID (WParticipant w)) <$> working now sessionID [] (heard st))) <$>
  listRunning "ParticipantWorkflow" sessionID.

(** A workflow already gone, or one that cannot be ended, is passed over. *)
Definition terminateParticipants (now : time) (sessionID reason : string) (st : Server) : list act :=
  match participants now sessionID st with
  | None => []
  | Some ids => (λ id, Terminated id reason) <$> ids
  end.

(** [tasks]: the background tasks' table. *)
Definition terminateTasks (sessionID reason : string) (tasks : Tasks.DB) : list act :=
  let ids := default [] (listRunning "BackgroundTaskWorkflow" sessionID) in
  (λ id, Terminated id reason) <$> add_new ids (Tasks.TaskID <$> Tasks.ListRunningTasks collate sessionID "" tasks).

Definition ringTrees (sessionID : string) (others : list string) (db : SDB) : list act :=
  (λ u, TreeChanged u sessionID) <$> (SmUser <$> ListSessionMembers sessionID db) ++ others.

(** ** The agent of a new session *)

Definition resolveOpenAgentID (snap : Snapshot) (userID requested : string) (agents : list Agent) : ServiceError + string :=
  if negb (String.eqb requested "") then
    match resolveAgentID defaultAgentID requested agents with
    | inl e => inl e
    | inr id => if AgentOpen snap userID id then inr id else inl ErrAgentNotOpen
    end
  else
    match resolveAgentID defaultAgentID "" agents with
    | inl e => inl e
    | inr id =>
        if AgentOpen snap userID id then inr id
        else match OpenAgents snap userID (AgID <$> agents) with open :: _ => inr open | [] => inl ErrAgentNotOpen end
    end.

(** ** The operations *)

Record OpenOptions := mkOpen { OpAgentID : string; OpChannel : string; OpChannelID : string; OpTitle : string }.

(** An operation's answer, what it did, the server after it. *)
Definition op_result (A : Type) : Type := (OpError + A) * list act * Server.

Definition refused {A} (e : OpError) (acts : list act) (st : Server) : op_result A := (inl e, acts, st).

Definition opened (id userID agentID : string) (o : OpenOptions) : Session :=
  mkSession id userID (cleanTitle (OpTitle o)) agentID (cmp_or (OpChannel o) ChannelWeb) (OpChannelID o) 0 "" "" 0 "" "" 0 0 0 None.

Definition Open (now : time) (uuid : string) (snap : Snapshot) (me : string) (o : OpenOptions) (st : Server) : op_result string :=
  match resolveOpenAgentID snap me (OpAgentID o) (agents st) with
  | inl e => refused (ErrService e) [] st
  | inr agentID =>
      match CreateSession now (opened uuid me agentID o) (tables st) with
      | (inl e, _) => refused (ErrStore e) [] st
      | (inr _, db) => (inr uuid, ringTrees uuid [] db, with_tables st db)
      end
  end.

Definition Get (sessionID : string) (db : SDB) : OpError + Session :=
  match GetSession sessionID db with None => inl ErrNotFound | Some s => inr s end.

Definition OpenOnChannel (now : time) (uuid : string) (snap : Snapshot) (user channel channelID : string) (st : Server) : op_result Session :=
  match GetActiveSessionByChannel user channel channelID (tables st) with
  | Some s => (inr s, [], st)
  | None =>
      match Open now uuid snap user (mkOpen "" channel channelID "") st with
      | (inl e, acts, st) => (inl e, acts, st)
      | (inr id, acts, st) => (Get id (tables st), acts, st)
      end
  end.

(** [Get] of a session and the database's own failures aside, [tasks] is the
    tasks' table as it is read. *)
Definition Delete (now : time) (sessionID by_ : string) (tasks : Tasks.DB) (st : Server) : op_result unit :=
  match Get sessionID (tables st) with
  | inl e => refused e [Invalidated] st
  | inr sess =>
      if negb (String.eqb (CreatedBy sess) by_) then refused ErrNotCreator [Invalidated] st
      else
        let ended := terminateParticipants now sessionID "session deleted by user" st ++ terminateTasks sessionID "session deleted by user" tasks in
        let ids := SmUser <$> ListSessionMembers sessionID (tables st) in
        let st := with_heard (with_tables st (DeleteSession sessionID (tables st))) (forget sessionID (heard st)) in
        (inr tt, ended ++ [MembersLeft sessionID ids] ++ ringTrees sessionID ids (tables st) ++ [Invalidated], st)
  end.

Definition Invite (now : time) (sessionID email by_ : string) (st : Server) : op_result unit :=
  match GetUserByEmail email (mkUDB (accounts (tables st)) []) with
  | None => refused ErrNoSuchUser [] st
  | Some u =>
      if negb (is_none (DisabledAt u)) then refused ErrNoSuchUser [] st
      else
        match AddSessionMember now sessionID (UserID u) by_ (tables st) with
        | (inl e, _) => refused (ErrStore e) [] st
        | (inr _, db) => (inr tt, ringTrees sessionID [] db, with_tables st db)
        end
  end.

(** What a leaving does once the member is out: the members are read again. *)
Definition close_if_empty (now : time) (sessionID : string) (tasks : Tasks.DB) (st : Server) : list act * Server :=
  match ListSessionMembers sessionID (tables st) with
  | [] =>
      (terminateParticipants now sessionID "last member left" st ++ terminateTasks sessionID "last member left" tasks,
       with_heard (with_tables st (DeleteSession sessionID (tables st))) (forget sessionID (heard st)))
  | _ => ([], st)
  end.

Definition Leave (now : time) (sessionID userID : string) (tasks : Tasks.DB) (st : Server) : op_result unit :=
  let st := with_tables st (RemoveSessionMember sessionID userID (tables st)) in
  let '(ended, st) := close_if_empty now sessionID tasks st in
  (inr tt, [MembersLeft sessionID [userID]] ++ ended ++ ringTrees sessionID [userID] (tables st) ++ [Invalidated], st).

Definition SetAgentMode (sessionID mode : string) (st : Server) : op_result unit :=
  if negb (contains [AgentModeAuto; AgentModeAlways; AgentModeMention] mode) then refused ErrBadMode [] st
  else
    match SetSessionAgentMode sessionID mode (tables st) with
    | (inl e, _) => refused (ErrStore e) [] st
    | (inr _, db) => (inr tt, [], with_tables st db)
    end.

Definition Rename (sessionID title : string) (st : Server) : op_result unit :=
  let title := cleanTitle title in
  if String.eqb title "" then refused ErrEmptyTitle [] st
  else
    match RenameSession sessionID title (tables st) with
    | (inl e, _) => refused (ErrStore e) [] st
    | (inr _, db) => (inr tt, ringTrees sessionID [] db, with_tables st db)
    end.

(** ** Forks (src/session/fork.go) *)

Definition forkable (m : Message) : bool :=
  is_none (Result m) && (String.eqb (Message.Role m) RoleUser || String.eqb (Message.Role m) RoleAssistant).

Definition forkTitle (parentTitle purpose : string) : string :=
  if negb (String.eqb purpose "") then let '(line, _, _) := cut_byte (byte 10) purpose in titleFrom line
  else if String.eqb parentTitle "" then "Fork"
  else "Fork : " +:+ parentTitle.

(** The message a fork starts from: one of the session's that a user sees. *)
Definition fork_point (parentID : string) (messageID : Z) (db : SDB) : bool :=
  (0 <? messageID) &&
  match last (LoadMessagesUpTo parentID messageID (messages db)) with
  | Some m => (MsgID m =? messageID) && forkable (Msg m)
  | None => false
  end.

(** [start]: whether Temporal starts the workflow. *)
Definition Fork (start : string → bool) (model : string) (now : time) (uuid : string) (snap : Snapshot) (parentID : string) (messageID : Z)
    (purpose me : string) (st : Server) : op_result Session :=
  let purpose := trim_space purpose in
  if (MaxPurposeRunes <? length (runes purpose))%nat then refused ErrPurposeTooLong [] st
  else
    match Get parentID (tables st) with
    | inl e => refused e [Invalidated] st
    | inr parent =>
        if negb (fork_point parentID messageID (tables st)) then refused ErrBadForkPoint [Invalidated] st
        else
          match agentOrDefault defaultAgentID (AgentID parent) (agents st) with
          | inl e => refused (ErrService e) [Invalidated] st
          | inr agentID =>
              if negb (AgentOpen snap me agentID) then refused (ErrService ErrAgentNotOpen) [Invalidated] st
              else
                let f := mkSession uuid me (forkTitle (Title parent) purpose) agentID ChannelWeb "" 0 "" parentID messageID me purpose 0 0 0 None in
                match CreateSession now f (tables st) with
                | (inl e, _) => refused (ErrStore e) [Invalidated] st
                | (inr _, db) =>
                    if start (ForkWorkflowID uuid) then
                      (inr f, [StartedFork (ForkWorkflowID uuid) (mkForkInput uuid parentID messageID purpose model)] ++ ringTrees uuid [me] db ++ [Invalidated],
                       with_tables st db)
                    else refused ErrTemporal [Invalidated] (with_tables st (DeleteSession uuid db))
                end
          end
    end.

(** ** Questions (src/session/temporal.go) *)

(** [Answer] and [AnswerPending]: the signal sent. [signal]: whether Temporal
    took it. *)
Definition Answer_ (signal : string → bool) (sessionID workflowID answer : string) : option OpError * list (string * string) * list act :=
  if String.eqb (trim_space answer) "" then (Some ErrEmptyAnswer, [], [])
  else if match SessionOf workflowID with Some s => negb (String.eqb s sessionID) | None => true end then (Some ErrForeignQuestion, [], [])
  else if signal workflowID then (None, [(workflowID, answer)], [Invalidated])
  else (Some ErrTemporal, [], [Invalidated]).

Definition AnswerPending (signal : string → bool) (sessionID answer : string) : bool * list (string * string) * list act :=
  match listRunning "AskUserWorkflow" sessionID with
  | None | Some [] => (false, [], [])
  | Some (id :: _) => if signal id then (true, [(id, answer)], [Invalidated]) else (false, [], [Invalidated])
  end.
End Ops.

(** ** Who is in a session

    The members of the sessions through the operations of the service, whose
    steps interleave: a leaving is three of them, between which anything may
    happen. *)

(** ** The tables of sessions and members *)

Definition pair_of (m : Member) : string * string := (MemSession m, MemUser m).

(** One row per session, one per member of one; a member is a user of a
    session that is there. *)
Record rooms_ok (db : SDB) : Prop := {
  ro_keys : keys_ok (sessions db);
  ro_pairs : NoDup (pair_of <$> members db);
  ro_session : ∀ m, m ∈ members db → is_Some (get (MemSession m) (sessions db));
  ro_account : ∀ m, m ∈ members db → is_Some (get (MemUser m) (accounts db))
}.

(** The sessions nobody is in. *)
Definition empty_room (id : string) (db : SDB) : Prop := is_Some (get id (sessions db)) ∧ ∀ m, m ∈ members db → MemSession m ≠ id.

Lemma member_in_spec s u db : member_in s u db = true ↔ (s, u) ∈ (pair_of <$> members db).
Proof.
  unfold member_in. rewrite existsb_exists, list_elem_of_fmap. unfold is_member, pair_of. split.
  - intros (m & Hm & [E1%String.eqb_eq E2%String.eqb_eq]%andb_prop). exists m. by rewrite list_elem_of_In, E1, E2.
  - intros (m & [= -> ->] & Hm). exists m. by rewrite <- list_elem_of_In, !String.eqb_refl.
Qed.

Lemma of_session_filter id l m : m ∈ List.filter (of_session id) l ↔ m ∈ l ∧ MemSession m = id.
Proof. rewrite list_elem_of_In, filter_In, <- list_elem_of_In. unfold of_session. by rewrite String.eqb_eq. Qed.

(** The members a session lists are its rows. *)
Lemma listed_members id db : rooms_ok db → (ListSessionMembers id db = [] ↔ ∀ m, m ∈ members db → MemSession m ≠ id).
Proof.
  intros Hok. unfold ListSessionMembers. split.
  - intros E m Hm Es. assert (m ∈ sort_stable added_le (List.filter (of_session id) (members db))) as Hin.
    { rewrite sort_stable_perm. by apply of_session_filter. }
    destruct (ro_account _ Hok m Hm) as [u Hu]. apply list_elem_of_lookup in Hin as [i Hi].
    assert (omap (λ m, (λ u, mkSessionMember (MemUser m) (Email u) (DisplayName u) (AddedBy m) (AddedAt m)) <$> get (MemUser m) (accounts db)) [m] ≠ []) by (cbn; by rewrite Hu).
    apply take_drop_middle in Hi. rewrite <- Hi, omap_app in E. apply app_eq_nil in E as [_ E]. cbn in E. by rewrite Hu in E.
  - intros H. replace (List.filter (of_session id) (members db)) with (@nil Member); [done|]. symmetry.
    destruct (List.filter (of_session id) (members db)) as [|m l] eqn:E; [done|]. exfalso.
    assert (m ∈ List.filter (of_session id) (members db)) as Hm by (rewrite E; by left). apply of_session_filter in Hm as [Hm <-]. by apply (H m).
Qed.

Lemma create_rooms now s db : rooms_ok db → rooms_ok (CreateSession now s db).2.
Proof.
  intros [Hk Hp Hs Ha]. unfold CreateSession. destruct (negb (is_none (get (SessionID s) (sessions db))) || _ || _) eqn:E; [done|]. cbn [snd].
  apply orb_false_elim in E as [[E1 E2]%orb_false_elim _]. destruct (get (SessionID s) (sessions db)) eqn:Hg; [done|]. clear E1.
  destruct (get (CreatedBy s) (accounts db)) as [u|] eqn:Hu; [|done]. split; cbn.
  - by apply keys_snoc.
  - rewrite fmap_app. apply NoDup_app. split_and!; [done| |apply NoDup_singleton]. intros p Hp' ->%list_elem_of_singleton.
    apply list_elem_of_fmap in Hp' as (m & E & Hm). injection E as E _. destruct (Hs m Hm) as [x Hx]. cbn in E. congruence.
  - intros m Hm. rewrite get_snoc. apply elem_snoc in Hm as [Hm| ->]; cbn.
    + destruct (Hs m Hm) as [x ->]. by exists x.
    + rewrite Hg. unfold row_key, session_key. cbn. rewrite String.eqb_refl. by eexists.
  - intros m [Hm| ->]%elem_snoc; [by apply Ha|by exists u].
Qed.

Lemma delete_sessions id (l : list Session) : keys_ok l → keys_ok (unlink id <$> List.filter (λ s, negb (has_key id s)) l).
Proof.
  intros Hk. unfold keys_ok. apply (keys_filter (λ s, negb (has_key id s))) in Hk. revert Hk. unfold keys_ok.
  generalize (List.filter (λ s, negb (has_key id s)) l) as l'. intros l' Hl.
  assert (row_key <$> (unlink id <$> l') = row_key <$> l') as ->; [|done]. clear Hl.
  induction l' as [|s l' IH]; [done|]. cbn. f_equal; [|done]. unfold row_key, session_key, unlink. by destruct (String.eqb _ _).
Qed.

Lemma get_fmap_unlink id k (l : list Session) : get k (unlink id <$> l) = unlink id <$> get k l.
Proof.
  unfold get. induction l as [|s l IH]; [done|]. cbn. replace (has_key k (unlink id s)) with (has_key k s); [by destruct (has_key k s)|].
  unfold has_key, row_key, session_key, unlink. by destruct (String.eqb (ParentSessionID s) id).
Qed.

Lemma get_others id k (l : list Session) : k ≠ id → get k (List.filter (λ s, negb (has_key id s)) l) = get k l.
Proof.
  intros Hne. unfold get. induction l as [|s l IH]; [done|]. cbn. destruct (has_key id s) eqn:E; cbn.
  - rewrite IH. destruct (has_key k s) eqn:Ek; [|done]. apply has_key_spec in E, Ek. congruence.
  - by rewrite IH.
Qed.

Lemma get_deleted k id db : get k (sessions (DeleteSession id db)) = if String.eqb k id then None else unlink id <$> get k (sessions db).
Proof.
  cbn. rewrite get_fmap_unlink. destruct (String.eqb_spec k id) as [->|Hne]; [|by rewrite get_others].
  replace (get id _) with (@None Session); [done|]. symmetry. unfold get. induction (sessions db) as [|s l IH]; [done|]. cbn.
  destruct (has_key id s) eqn:E; cbn; [done|]. by rewrite E.
Qed.

Lemma member_kept id m db : m ∈ members (DeleteSession id db) ↔ m ∈ members db ∧ MemSession m ≠ id.
Proof. cbn. rewrite list_elem_of_In, filter_In, <- list_elem_of_In. unfold of_session. by rewrite negb_true_iff, String.eqb_neq. Qed.

Lemma pairs_filter p l : NoDup (pair_of <$> l) → NoDup (pair_of <$> List.filter p l).
Proof.
  induction l as [|m l IH]; [done|]. intros [Hm Hl]%NoDup_cons. cbn. destruct (p m); [|by apply IH]. cbn. apply NoDup_cons. split; [|by apply IH].
  intros (x & E & Hx)%list_elem_of_fmap. apply Hm, list_elem_of_fmap. exists x. split; [done|]. by apply list_elem_of_In, filter_In in Hx as [Hx%list_elem_of_In _].
Qed.

Lemma delete_rooms id db : rooms_ok db → rooms_ok (DeleteSession id db).
Proof.
  intros [Hk Hp Hs Ha]. split.
  - by apply delete_sessions.
  - by apply pairs_filter.
  - intros m [Hm Hne]%member_kept. rewrite get_deleted. apply String.eqb_neq in Hne as ->. destruct (Hs m Hm) as [s ->]. by eexists.
  - intros m [Hm _]%member_kept. by apply Ha.
Qed.

Lemma join_rooms now s u b db : rooms_ok db → rooms_ok (AddSessionMember now s u b db).2.
Proof.
  intros [Hk Hp Hs Ha]. unfold AddSessionMember. destruct (member_in s u db) eqn:Em; [done|].
  destruct (get s (sessions db)) as [x|] eqn:Hx; [|done]. destruct (get u (accounts db)) as [y|] eqn:Hy; [|done]. split; cbn; [done| | |].
  - rewrite fmap_app. apply NoDup_app. split_and!; [done| |apply NoDup_singleton]. intros p Hp' ->%list_elem_of_singleton.
    apply (member_in_spec s u db) in Hp'. congruence.
  - intros m [Hm| ->]%elem_snoc; [by apply Hs|by exists x].
  - intros m [Hm| ->]%elem_snoc; [by apply Ha|by exists y].
Qed.

Lemma left_members s u m db : m ∈ members (RemoveSessionMember s u db) ↔ m ∈ members db ∧ ¬ (MemSession m = s ∧ MemUser m = u).
Proof. cbn. rewrite list_elem_of_In, filter_In, <- list_elem_of_In. unfold is_member. by rewrite negb_true_iff, andb_false_iff, !String.eqb_neq; destruct (decide (MemSession m = s)), (decide (MemUser m = u)); naive_solver. Qed.

Lemma leave_rooms s u db : rooms_ok db → rooms_ok (RemoveSessionMember s u db).
Proof.
  intros [Hk Hp Hs Ha]. split; [done| | |].
  - by apply pairs_filter.
  - intros m [Hm _]%left_members. by apply Hs.
  - intros m [Hm _]%left_members. by apply Ha.
Qed.

Lemma update_rooms p f db : KeepsKey f → rooms_ok db → rooms_ok (with_sessions db (update_where p f (sessions db))).
Proof.
  intros Hf [Hk Hp Hs Ha]. split; [by apply keys_update_ok|done| |done]. intros m Hm. cbn. rewrite update_get by done.
  destruct (Hs m Hm) as [s ->]. by eexists.
Qed.

(** ** The sessions left empty *)

(** An operation that leaves the members of the sessions it does not name. *)
Lemma empty_create now s db id : empty_room id (CreateSession now s db).2 → empty_room id db.
Proof.
  unfold CreateSession. destruct (negb (is_none (get (SessionID s) (sessions db))) || _ || _); [done|]. cbn [snd]. intros [[x Hx] Hm]. cbn in *.
  rewrite get_snoc in Hx. split.
  - destruct (get id (sessions db)); [by eexists|]. exfalso. destruct (has_key id (new_session now s)) eqn:E; [|done]. apply has_key_spec in E.
    apply (Hm (mkMember (SessionID s) (CreatedBy s) (CreatedBy s) now)); [by apply elem_snoc; right|done].
  - intros m Hin. apply Hm, elem_snoc. by left.
Qed.

Lemma empty_delete id k db : empty_room k (DeleteSession id db) → k ≠ id ∧ empty_room k db.
Proof.
  intros [[x Hx] Hm]. rewrite get_deleted in Hx. destruct (String.eqb_spec k id) as [->|Hne]; [done|]. split; [done|]. split.
  - destruct (get k (sessions db)); [by eexists|done].
  - intros m Hin Ek. apply (Hm m); [|done]. apply member_kept. split; [done|congruence].
Qed.

Lemma empty_join now s u b db id : empty_room id (AddSessionMember now s u b db).2 → empty_room id db.
Proof.
  unfold AddSessionMember. destruct (member_in s u db); [done|]. destruct (_ || _); [done|]. cbn [snd]. intros [Hs Hm]. split; [done|].
  intros m Hin. apply Hm. cbn. apply elem_snoc. by left.
Qed.

Lemma empty_left s u db id : empty_room id (RemoveSessionMember s u db) → id = s ∨ empty_room id db.
Proof.
  intros [Hs Hm]. destruct (decide (id = s)) as [->|Hne]; [by left|]. right. split; [done|]. intros m Hin E. apply (Hm m); [|done].
  apply left_members. split; [done|]. intros [? _]. congruence.
Qed.

Lemma empty_update p f db id : KeepsKey f → empty_room id (with_sessions db (update_where p f (sessions db))) → empty_room id db.
Proof.
  intros Hf [[x Hx] Hm]. cbn in Hx. rewrite update_get in Hx by done. split; [|done]. destruct (get id (sessions db)); [by eexists|done].
Qed.

(** ** The service's operations, interleaved *)

(** The server, the leavings that have yet to read who is left, and those
    that read nobody and have yet to delete the session. *)
Record Room := mkRoom { server : Server; leaving : list string; closing : list string }.

Section Rooms.
Context `{PGLower} `{GoLower} (defaultAgentID : string) (is_session_id : string → bool) (listWorkflow : string → option (list (string * time))).

(** Every operation is one step but a leaving: the member is out; nobody is
    left; the session is deleted. A member's rights to act were checked
    before. *)
Inductive room_step : Room → Room → Prop :=
| RoomOpen now uuid snap me o w :
    room_step w (mkRoom (Open defaultAgentID now uuid snap me o (server w)).2 (leaving w) (closing w))
| RoomFork start model now uuid snap parent id purpose me w :
    room_step w (mkRoom (SessionOps.Fork defaultAgentID start model now uuid snap parent id purpose me (server w)).2 (leaving w) (closing w))
| RoomInvite now id email by_ w :
    room_step w (mkRoom (Invite now id email by_ (server w)).2 (leaving w) (closing w))
| RoomDelete now id by_ tasks w :
    room_step w (mkRoom (Delete is_session_id listWorkflow now id by_ tasks (server w)).2 (leaving w) (closing w))
| RoomRename id title w :
    room_step w (mkRoom (Rename id title (server w)).2 (leaving w) (closing w))
| RoomMode id mode w :
    room_step w (mkRoom (SetAgentMode id mode (server w)).2 (leaving w) (closing w))
| RoomDeliver signal shown_running now uuid snap sess author text w :
    room_step w (mkRoom (Deliver defaultAgentID signal shown_running now uuid snap sess author text (server w)).2 (leaving w) (closing w))
| RoomLeaves id user w :
    room_step w (mkRoom (with_tables (server w) (RemoveSessionMember id user (tables (server w)))) (id :: leaving w) (closing w))
| RoomSomeLeft id l l' w :
    leaving w = l ++ id :: l' → ListSessionMembers id (tables (server w)) ≠ [] →
    room_step w (mkRoom (server w) (l ++ l') (closing w))
| RoomNoneLeft id l l' w :
    leaving w = l ++ id :: l' → ListSessionMembers id (tables (server w)) = [] →
    room_step w (mkRoom (server w) (l ++ l') (id :: closing w))
| RoomCloses id l l' w :
    closing w = l ++ id :: l' →
    room_step w (mkRoom (with_heard (with_tables (server w) (DeleteSession id (tables (server w)))) (forget id (heard (server w)))) (leaving w) (l ++ l')).

Record room_inv (w : Room) : Prop := {
  ri_rooms : rooms_ok (tables (server w));
  ri_empty : ∀ id, empty_room id (tables (server w)) → id ∈ leaving w ∨ id ∈ closing w
}.

(** A step whose tables are left empty by nothing new. *)
Lemma room_inv_by st l c st' l' c' :
  room_inv (mkRoom st l c) → rooms_ok (tables st') →
  (∀ id, empty_room id (tables st') → empty_room id (tables st) ∧ (id ∈ l → id ∈ l' ∨ id ∈ c') ∧ (id ∈ c → id ∈ c') ∨ id ∈ l' ∨ id ∈ c') →
  room_inv (mkRoom st' l' c').
Proof. intros [Hr He] Hr' H1. split; [done|]. intros id Hid. destruct (H1 id Hid) as [(Hold & Hl & Hc)|?]; [|done]. cbn. destruct (He id Hold); [by apply Hl|right; by apply Hc]. Qed.

(** The tables an operation leaves: those of a creation, of a deletion or of
    both, and so on; none but a leaving leaves a session empty. *)
Definition keeps_rooms (db db' : SDB) : Prop :=
  (rooms_ok db → rooms_ok db') ∧ ∀ id, empty_room id db' → empty_room id db.

Lemma keeps_room w db st : tables (server w) = db → keeps_rooms db (tables st) → room_inv w → room_inv (mkRoom st (leaving w) (closing w)).
Proof. intros <- [H1 H2] [Hr He]. split; [by apply H1|]. intros id Hid. by apply He, H2. Qed.

Lemma keeps_refl db : keeps_rooms db db.
Proof. by split. Qed.

Lemma keeps_trans db1 db2 db3 : keeps_rooms db1 db2 → keeps_rooms db2 db3 → keeps_rooms db1 db3.
Proof. intros [? ?] [? ?]. split; auto. Qed.

Lemma keeps_create now s db : keeps_rooms db (CreateSession now s db).2.
Proof. split; [apply create_rooms|intros id; apply empty_create]. Qed.
Lemma keeps_delete id db : keeps_rooms db (DeleteSession id db).
Proof. split; [apply delete_rooms|intros k Hk; by apply (empty_delete id k)]. Qed.
Lemma keeps_join now s u b db : keeps_rooms db (AddSessionMember now s u b db).2.
Proof. split; [apply join_rooms|intros id; apply empty_join]. Qed.
Lemma keeps_update p f db : KeepsKey f → keeps_rooms db (with_sessions db (update_where p f (sessions db))).
Proof. intros Hf. split; [by apply update_rooms|intros id; by apply empty_update]. Qed.
Lemma keeps_messages db m : keeps_rooms db (with_messages db m).
Proof. split; [by intros [????]|by intros id [??]]. Qed.
#[local] Hint Resolve keeps_refl keeps_create keeps_delete keeps_join keeps_messages : rooms.

Lemma keeps_open now uuid snap me o st : keeps_rooms (tables st) (tables (Open defaultAgentID now uuid snap me o st).2).
Proof.
  unfold Open. destruct (resolveOpenAgentID _ _ _ _ _) as [e|a]; [auto with rooms|].
  pose proof (keeps_create now (opened uuid me a o) (tables st)) as Hk. destruct (CreateSession _ _ _) as [[e|[]] db]; [auto with rooms|done].
Qed.

Lemma keeps_fork start model now uuid snap parent id purpose me st :
  keeps_rooms (tables st) (tables (SessionOps.Fork defaultAgentID start model now uuid snap parent id purpose me st).2).
Proof.
  unfold SessionOps.Fork. cbv zeta. destruct (_ <? _)%nat; [auto with rooms|]. destruct (Get parent (tables st)) as [e|p]; [auto with rooms|].
  destruct (negb (fork_point _ _ _)); [auto with rooms|]. destruct (agentOrDefault _ _ _) as [e|a]; [auto with rooms|]. destruct (negb (AgentOpen _ _ _)); [auto with rooms|].
  match goal with |- context [CreateSession ?n ?s ?d] => pose proof (keeps_create n s d) as Hk; destruct (CreateSession n s d) as [[e|[]] db] end; [auto with rooms|].
  destruct (start _); [done|]. cbn. eapply keeps_trans; [exact Hk|auto with rooms].
Qed.

Lemma keeps_deliver signal shown_running now uuid snap sess author text st :
  keeps_rooms (tables st) (tables (Deliver defaultAgentID signal shown_running now uuid snap sess author text st).2).
Proof.
  unfold Deliver. cbv zeta. destruct (String.eqb _ ""); [auto with rooms|]. destruct (_ && _); [auto with rooms|].
  destruct (called_agents _ _ _ _ _ _ _) as [e|[[a who] refused]]; [auto with rooms|]. destruct (AppendMessage _ _ _ _ _) as [id msgs].
  assert (keeps_rooms (tables st) (UpdateSessionTitle (SessionID sess) (titleFrom text) (with_messages (tables st) msgs))) as Hk.
  { eapply keeps_trans; [apply (keeps_messages _ msgs)|]. apply keeps_update. done. }
  destruct who as [|x next]; [done|]. unfold deliver. cbv zeta. by destruct (signal _).
Qed.

Lemma room_inv_step w w' : room_inv w → room_step w w' → room_inv w'.
Proof.
  intros Hi Hs. destruct Hs.
  - eapply keeps_room; [reflexivity|apply keeps_open|done].
  - eapply keeps_room; [reflexivity|apply keeps_fork|done].
  - eapply keeps_room; [reflexivity| |done]. unfold Invite. destruct (GetUserByEmail _ _) as [u|]; [|auto with rooms]. destruct (negb _); [auto with rooms|].
    pose proof (keeps_join now id (UserID u) by_ (tables (server w))) as Hk. destruct (AddSessionMember _ _ _ _ _) as [[e|[]] db]; [auto with rooms|done].
  - eapply keeps_room; [reflexivity| |done]. unfold Delete. destruct (Get id (tables (server w))) as [e|s]; [auto with rooms|]. destruct (negb _); [auto with rooms|].
    cbn. auto with rooms.
  - eapply keeps_room; [reflexivity| |done]. unfold Rename. cbv zeta. destruct (String.eqb _ ""); [auto with rooms|]. unfold RenameSession.
    destruct (is_none _); [auto with rooms|]. by apply keeps_update.
  - eapply keeps_room; [reflexivity| |done]. unfold SetAgentMode. destruct (negb _); [auto with rooms|]. unfold SetSessionAgentMode.
    destruct (is_none _); [auto with rooms|]. by apply keeps_update.
  - eapply keeps_room; [reflexivity|apply keeps_deliver|done].
  - destruct w as [st l c]. eapply room_inv_by; [exact Hi|cbn; by apply leave_rooms, Hi|]. intros k [->|Hk]%empty_left; [right; left; by left|left].
    split_and!; [done|by left; right|done].
  - destruct w as [st ll c]. cbn in *. subst ll. eapply room_inv_by; [exact Hi|apply Hi|]. intros k Hk. left. split_and!; [done| |done].
    rewrite elem_of_app, elem_of_cons, elem_of_app. intros [?|[->|?]]; [left; by left| |left; by right]. exfalso.
    destruct Hk as [_ Hk]. by apply (listed_members id) in Hk; [|apply Hi].
  - destruct w as [st ll c]. cbn in *. subst ll. eapply room_inv_by; [exact Hi|apply Hi|]. intros k Hk. left. split_and!; [done| |by right].
    rewrite elem_of_app, elem_of_cons, elem_of_app. intros [?|[->|?]]; [left; by left|right; by left|left; by right].
  - destruct w as [st ll c]. cbn in *. subst c. eapply room_inv_by; [exact Hi|cbn; by apply delete_rooms, Hi|]. cbn [tables with_heard with_tables].
    intros k [Hne Hk]%empty_delete. left. split_and!; [done|by left|]. rewrite elem_of_app, elem_of_cons, elem_of_app. naive_solver.
Qed.

(** [Leave] is its three steps in a row. *)
Lemma leave_steps now id user tasks w :
  rooms_ok (tables (server w)) →
  star room_step w (mkRoom (Leave is_session_id listWorkflow now id user tasks (server w)).2 (leaving w) (closing w)).
Proof.
  intros Hok. eapply star_step; [apply (RoomLeaves id user)|]. unfold Leave. cbv zeta. unfold close_if_empty.
  set (st := with_tables (server w) (RemoveSessionMember id user (tables (server w)))). destruct (ListSessionMembers id (tables st)) as [|m l] eqn:E.
  - eapply star_step; [by apply (RoomNoneLeft id [] (leaving w) (mkRoom st (id :: leaving w) (closing w)))|].
    apply star_one. by apply (RoomCloses id [] (closing w) (mkRoom st (leaving w) (id :: closing w))).
  - apply star_one. apply (RoomSomeLeft id [] (leaving w) (mkRoom st (id :: leaving w) (closing w))); cbn [leaving server]; [done|]. by rewrite E.
Qed.

Lemma listed_once id db : rooms_ok db → NoDup (SmUser <$> ListSessionMembers id db).
Proof.
  intros [_ Hp _ _]. unfold ListSessionMembers.
  assert (NoDup (pair_of <$> sort_stable added_le (List.filter (of_session id) (members db)))) as Hn.
  { rewrite (sort_stable_perm added_le). by apply pairs_filter. }
  assert (∀ m, m ∈ sort_stable added_le (List.filter (of_session id) (members db)) → MemSession m = id) as Hs.
  { intros m. rewrite sort_stable_perm. by intros [_ ?]%of_session_filter. }
  induction (sort_stable _ _) as [|m l IH]; [constructor|]. apply NoDup_cons in Hn as [Hm Hn]. cbn.
  assert (NoDup (SmUser <$> omap (λ m, (λ u, mkSessionMember (MemUser m) (Email u) (DisplayName u) (AddedBy m) (AddedAt m)) <$> get (MemUser m) (accounts db)) l)) as Hl.
  { apply IH; [done|]. intros x Hx. apply Hs. by right. }
  destruct (get (MemUser m) (accounts db)) as [u|]; cbn; [|done]. apply NoDup_cons. split; [|done]. intros Hin. apply Hm.
  apply list_elem_of_fmap in Hin as (x & Ex & (y & Hy & Ey)%list_elem_of_omap). destruct (get (MemUser y) (accounts db)); [|done]. injection Ey as <-. cbn in Ex.
  apply list_elem_of_fmap. exists y. split; [|done]. unfold pair_of. rewrite (Hs m), (Hs y); [by rewrite Ex|by right|by left].
Qed.

End Rooms.

(** ** Two members who leave at once *)

Definition bob : User := mkUser "u2" "bob@x.fr" "Bob" "" UserRoleStandard None None 0.
Definition ann : User := mkUser "u1" "ann@x.fr" "Ann" "" UserRoleStandard None None 0.
Definition demo_start : Room := mkRoom (mkServer (mkSDB [ann; bob] [] [] noMessages ∅) [mkAgent "jarvis" "" "" "" [] [] "" 1 0 0] noTurns) [] [].
Definition demo_opened : Room := mkRoom (Open "jarvis" 1 "s" (mkSnapshot [] ∅) "u1" (mkOpen "" "" "" "Plan") (server demo_start)).2 [] [].
Definition demo_joined : Room := mkRoom (Invite 2 "s" " BOB@x.fr" "u1" (server demo_opened)).2 [] [].
Definition demo_leave (user : string) (w : Room) : Room := mkRoom (with_tables (server w) (RemoveSessionMember "s" user (tables (server w)))) ("s" :: leaving w) (closing w).
Definition demo_left : Room := demo_leave "u2" (demo_leave "u1" demo_joined).

