(* ===== verification/TaskSweep.v ===== *)
(** * The background tasks as the server stops and sweeps them (src/session/tasks.go)

    The service beside the tasks' workflows: it stops a task for a member, and
    sweeps what the workflows left undone. A step of it is one statement of
    the store or one call of Temporal; between two steps anything else may
    happen to the tables: [others n] is what the rest of the system does to
    them before the service's statement number [n], [clock n] the time around
    it. Statements do not fail here; Temporal's calls do. The log lines are
    not modelled. *)

From S2P Require Import Prelude GoStr Keys Message Store Convert Participant Tasks.
From S2P Require Stops Working.
Open Scope string_scope.
Open Scope Z_scope.
Open Scope list_scope.

Inductive StopTaskError := ErrNoSuchTask | ErrTaskIsOver | ErrStopIsNotAllowed | ErrStopPending.

(** ** What the Agents panel shows *)

Record Task := mkShown {
  ShID : string;
  ShTool : string;
  ShSummary : string;
  ShUserID : string;
  ShUserName : string;
  ShSince : time;
  ShNote : string;
  ShWaiting : bool
}.

Definition shown_task (sessionID : string) (asking : list string) (heard : Working.turns) (t : BackgroundTask) : Task :=
  mkShown (TaskID t) (Tool t) (Summary t) (TaskUserID t) (TaskUserName t) (StartedAt t)
    (Working.taskNote_ sessionID (TaskID t) heard) (contains asking (TaskID t)).

(** [tasksOf]: by participant, in the rows' order. *)
Definition tasksOf (collate : string → string → bool) (sessionID : string) (asking : list string) (heard : Working.turns) (db : DB) : gmap string (list Task) :=
  fold_left (λ out t, <[TaskParticipant t := default [] (out !! TaskParticipant t) ++ [shown_task sessionID asking heard t]]> out)
    (ListRunningTasks collate sessionID "" db) ∅.

(** ** Timing *)

Definition taskSweepAge : Z := 5 * minute.
Definition taskStartGrace : Z := 15 * minute.
Definition taskWakeGrace : Z := 5 * minute.
Definition taskWakeGiveUp : Z := 30 * minute.

Definition sweptReason : string :=
  "The task stopped without a result: its workflow ended without posting one (terminated, out of time, or its end could not be written).".

(** ** Steps *)

(** What the service did outside of the store. *)
Inductive sweep_act :=
| CancelAsked (id : string)
| ResultTold (session task participant : string) (messageID : Z)
| Woken (workflowID : string) (input : ParticipantInput) (msg : ParticipantMessage)
| Told (session channel channelID signer text : string).

Record Sweep := mkSweep { db : DB; statements : nat; did : list sweep_act }.

Definition act_ (a : sweep_act) (w : Sweep) : Sweep := mkSweep (db w) (statements w) (did w ++ [a]).

Section Sweep.
Context (collate : string → string → bool).
Context (others : nat → list op) (clock : nat → time).
(** Temporal: a cancel; the running tasks listed; a task described, with
    whether it runs; a participant's signal, with the text of its failure. *)
Context (cancel : string → Stops.Answer unit) (listed : option (list string)) (describe : string → Stops.Answer (option bool)).
Context (wake : string → ParticipantMessage → option string).
(** The channels a notifier serves. *)
Context (notified : string → bool).

(** The time of the next statement. *)
Definition now_ (w : Sweep) : time := clock (statements w).

(** One statement. *)
Definition stmt {A} (f : DB → A * DB) (w : Sweep) : A * Sweep :=
  let '(a, x) := f (execs (others (statements w)) (db w)) in (a, mkSweep x (S (statements w)) (did w)).

Definition read {A} (f : DB → A) : Sweep → A * Sweep := stmt (λ x, (f x, x)).
Definition write (f : DB → DB) (w : Sweep) : Sweep := (stmt (λ x, (tt, f x)) w).2.

Fixpoint each {A} (f : A → Sweep → Sweep) (l : list A) (w : Sweep) : Sweep :=
  match l with [] => w | x :: l => each f l (f x w) end.

(** ** Stopping a task *)

Definition StopTask (sess : Stops.SessionRow) (taskID me meName : string) (w : Sweep) : option StopTaskError * Sweep :=
  let '(t, w) := read (GetTask taskID) w in
  match t with
  | None => (Some ErrNoSuchTask, w)
  | Some t =>
      if negb (String.eqb (SessionID t) (Stops.SessionID sess)) then (Some ErrNoSuchTask, w)
      else if negb (running t) then (Some ErrTaskIsOver, w)
      else if negb (Stops.MayStop sess (TaskUserID t) me) then (Some ErrStopIsNotAllowed, w)
      else
        let '(changed, w) := stmt (update taskID running (set_cancelled_by (cmp_or meName me))) w in
        if negb changed then (Some ErrTaskIsOver, w)
        else
          let w := act_ (CancelAsked taskID) w in
          match cancel taskID with
          | Stops.NotFound => (Some ErrTaskIsOver, w)
          | Stops.Failed_ _ => (Some ErrStopPending, w)
          | Stops.Got _ => (None, write (SetTaskCancelSent (now_ w) taskID) w)
          end
  end.

(** ** The sweep *)

Definition resend_one (t : BackgroundTask) (w : Sweep) : Sweep :=
  let w := act_ (CancelAsked (TaskID t)) w in
  match cancel (TaskID t) with
  | Stops.Got _ => write (SetTaskCancelSent (now_ w) (TaskID t)) w
  | _ => w
  end.

Definition resendCancels (w : Sweep) : Sweep :=
  let '(stopped, w) := read (ListTasksToCancel collate) w in each resend_one stopped w.

Definition taskClosed (now : time) (t : BackgroundTask) : bool :=
  match describe (TaskID t) with
  | Stops.NotFound => taskStartGrace <? time_sub now (StartedAt t)
  | Stops.Failed_ _ | Stops.Got None => false
  | Stops.Got (Some runs) => negb runs
  end.

(** [tell]. *)
Definition tell (session channel channelID signer text : string) (w : Sweep) : Sweep :=
  if negb (notified (cmp_or channel "web")) && negb (String.eqb channel "") && negb (String.eqb channel "web") then w
  else act_ (Told session channel channelID signer text) w.

Definition wake_message (sess : Session) (t : BackgroundTask) : ParticipantMessage :=
  mkPM (ResultMessageID t) (TaskUserID t) (TaskUserName t) [] [] (TaskSignsReply sess (TaskParticipant t)) (Channel t) (ChannelID t) None.

Definition wake_failure (t : BackgroundTask) (err : string) : string :=
  "la fin de la tâche n'a pas pu réveiller @" +:+ TaskParticipant t +:+ " : " +:+ err.

(** Under the turn that would have answered the task's message. *)
Definition wake_end (t : BackgroundTask) (reason : string) (now : time) (x : DB) : DB :=
  mkDB (sessions x)
    (AppendMessage now (SessionID t) (TurnEndKey (TurnKey (ResultMessageID t) (TaskParticipant t))) (TurnEnd (TaskParticipant t) reason) (messages x)).2
    (memory x) (tasks x).

Definition wakeTask (t : BackgroundTask) (w : Sweep) : Sweep :=
  let '(sess, w) := read (λ x, sessions x !! SessionID t) w in
  match sess with
  | None => w
  | Some sess =>
      let msg := wake_message sess t in
      let id := ParticipantWorkflowID (SessionID t) (TaskParticipant t) in
      let input := mkInput (SessionID t) (TaskParticipant t) (SessChannel sess) (SessChannelID sess) [] in
      match wake id msg with
      | None => let w := act_ (Woken id input msg) w in write (SetTaskWoken (now_ w) (TaskID t)) w
      | Some err =>
          if match EndedAt t with None => true | Some e => time_sub (now_ w) e <? taskWakeGiveUp end then w
          else
            let reason := wake_failure t err in
            let w := write (wake_end t reason (now_ w)) w in
            let signer := if TaskSignsReply sess (TaskParticipant t) then TaskParticipant t else "" in
            let w := tell (SessionID t) (Channel t) (ChannelID t) signer ("Error processing message: " +:+ reason) w in
            write (SetTaskWoken (now_ w) (TaskID t)) w
      end
  end.

(** How the sweep ends a task: as failed, or cancelled if a member stopped it. *)
Definition swept_end (t : BackgroundTask) : string * string :=
  if String.eqb (CancelledBy t) "" then (BackgroundFailed, sweptReason) else (BackgroundCancelled, "").

Definition endSwept (t : BackgroundTask) (w : Sweep) : Sweep :=
  let '(state, content) := swept_end t in
  let '(ending, w) := stmt (EndTask (now_ w) (TaskID t) TaskEndedBySweep state (λ t, TaskResultMessage t content None)) w in
  match ending with
  | None => w
  | Some e =>
      if Gone e || negb (Mine e) then w
      else
        let w := act_ (ResultTold (SessionID t) (TaskID t) (TaskParticipant t) (EndMessageID e)) w in
        if String.eqb state BackgroundCancelled then w
        else match EndTaskOf e with Some ended => wakeTask ended w | None => w end
  end.

Definition sweep_one (ids : list string) (t : BackgroundTask) (w : Sweep) : Sweep :=
  if contains ids (TaskID t) || negb (taskClosed (now_ w) t) then w else endSwept t w.

Definition endClosedTasks (w : Sweep) : Sweep :=
  let '(rows_, w) := read (ListTasksRunningSince collate (now_ w - taskSweepAge)) w in
  match rows_, listed with
  | [], _ | _, None => w
  | rows_, Some ids => each (sweep_one ids) rows_ w
  end.

Definition SweepTasks (w : Sweep) : Sweep :=
  let w := endClosedTasks (resendCancels w) in
  let '(late, w) := read (ListTasksToWake collate (now_ w - taskWakeGrace)) w in
  each wakeTask late w.
End Sweep.

(** ** What a sweep of the background tasks achieves *)

(** ** A row, through what anything does to it *)

Definition registers (id : string) (o : op) : bool := match o with ORegister _ t => String.eqb (TaskID t) id | _ => false end.
Definition ends (id : string) (o : op) : bool := match o with OEnd _ i _ _ _ _ => String.eqb i id | _ => false end.

(** A row moves forward: it may go, an end is final, and so are a wake and a
    cancel sent. *)
Definition onward (x y : option BackgroundTask) : Prop :=
  match x, y with
  | _, None => True
  | None, Some _ => False
  | Some t, Some t' =>
      SessionID t' = SessionID t ∧ (running t = false → running t' = false) ∧
      (is_Some (WokenAt t) → is_Some (WokenAt t')) ∧ (is_Some (CancelSentAt t) → is_Some (CancelSentAt t'))
  end.

Lemma onward_refl x : onward x x.
Proof. by destruct x. Qed.
Lemma onward_trans x y z : onward x y → onward y z → onward x z.
Proof. destruct x, y, z; cbn; try done; intuition congruence. Qed.

Lemma onward_update i cond f x id :
  (∀ t, onward (Some t) (Some (f t))) → onward (tasks x !! id) (tasks (update i cond f x).2 !! id).
Proof.
  intros Hf. unfold update. destruct (tasks x !! i) as [t|] eqn:E; [|apply onward_refl]. destruct (cond t); [|apply onward_refl]. cbn.
  destruct (decide (i = id)) as [->|Hne]; [rewrite lookup_insert_eq, E; apply Hf|rewrite lookup_insert_ne by done; apply onward_refl].
Qed.

Lemma exec_onward o x id : registers id o = false → onward (tasks x !! id) (tasks (exec o x) !! id).
Proof.
  intros Hr. destruct o; cbn [exec].
  - unfold RegisterTask. cbn in Hr. destruct (tasks x !! TaskID t) eqn:E; [apply onward_refl|]. destruct (_ <=? _); [apply onward_refl|].
    destruct (sessions x !! _); [|apply onward_refl]. cbn. apply String.eqb_neq in Hr. rewrite lookup_insert_ne by done. apply onward_refl.
  - unfold DropTask. destruct (tasks x !! id0) as [t|] eqn:E; [|apply onward_refl]. destruct (running t); [|apply onward_refl]. cbn.
    destruct (decide (id0 = id)) as [->|Hne]; [rewrite lookup_delete_eq; by destruct (tasks x !! id)|rewrite lookup_delete_ne by done; apply onward_refl].
  - unfold AddTaskFollowUp. destruct (update _ _ _ _) as [b y] eqn:E. apply (f_equal snd) in E. cbn in E. subst y. destruct b; by apply onward_update.
  - unfold SetTaskCancelledBy. destruct (update _ _ _ _) as [b y] eqn:E. apply (f_equal snd) in E. cbn in E. subst y. destruct b; by apply onward_update.
  - by apply onward_update.
  - by apply onward_update.
  - unfold EndTask. destruct (tasks x !! id0) as [t|] eqn:E; [|apply onward_refl]. destruct (running t) eqn:Hrun; cbn [negb]; [|apply onward_refl].
    destruct (insert_row _ _ _ _ _) as [[r0 b] msgs]. destruct (valid_state state); [|apply onward_refl]. cbn.
    destruct (decide (id0 = id)) as [->|Hne]; [rewrite lookup_insert_eq, E; cbn; by rewrite Hrun|rewrite lookup_insert_ne by done; apply onward_refl].
  - apply onward_refl.
  - destruct (sessions x !! id0); apply onward_refl.
  - cbn. destruct (tasks x !! id) as [t|] eqn:E.
    + destruct (filter _ (tasks x) !! id) as [t'|] eqn:E'; [|done]. apply map_lookup_filter_Some in E' as [E' _]. rewrite E in E'. injection E' as <-. apply onward_refl.
    + rewrite (proj2 (map_lookup_filter_None _ _ _)) by (by left). done.
Qed.

(** ** The sweep as operations *)

Section Catch.
Context (id : string) (spared : bool).

(** What may happen beside the sweep: no task is registered again as [id]; nor
    ended, when it is to be [spared]. *)
Definition fair (o : op) : Prop := op_ok o ∧ registers id o = false ∧ (spared = true → ends id o = false).

(** From one state of the tables to another. *)
Definition moves (x y : DB) : Prop := ∃ ops, Forall fair ops ∧ y = execs ops x.

Lemma moves_refl x : moves x x.
Proof. by exists []. Qed.
Lemma moves_trans x y z : moves x y → moves y z → moves x z.
Proof. intros (l & Hl & ->) (k & Hk & ->). exists (l ++ k). split; [by apply Forall_app|]. unfold execs. by rewrite fold_left_app. Qed.
Lemma moves_exec o x : fair o → moves x (exec o x).
Proof. intros Ho. exists [o]. split; [by constructor|done]. Qed.

Lemma moves_onward x y : moves x y → onward (tasks x !! id) (tasks y !! id).
Proof.
  intros (l & Hl & ->). revert x. induction Hl as [|o l (_ & Ho & _) _ IH]; intros x; [apply onward_refl|].
  eapply onward_trans; [by apply exec_onward|]. apply (IH (exec o x)).
Qed.

Lemma moves_ok x y : moves x y → db_ok x → db_ok y.
Proof. intros (l & Hl & ->) Hx. apply execs_ok; [done|]. eapply Forall_impl; [exact Hl|]. by intros o []. Qed.

(** What holds of the row [id], if it is there. *)
Definition of_row (P : BackgroundTask → Prop) (x : DB) : Prop := ∀ t, tasks x !! id = Some t → P t.

Lemma row_kept (P : BackgroundTask → Prop) x y :
  (∀ t t', onward (Some t) (Some t') → P t → P t') → moves x y → of_row P x → of_row P y.
Proof.
  intros HP Hm Hx t' Ht'. apply moves_onward in Hm. rewrite Ht' in Hm. destruct (tasks x !! id) as [t|] eqn:Ht; [|done]. by apply (HP t), Hx.
Qed.

Definition over (t : BackgroundTask) : Prop := running t = false.
Definition woken (t : BackgroundTask) : Prop := is_Some (WokenAt t).
Definition cancel_told (t : BackgroundTask) : Prop := is_Some (CancelSentAt t).

Lemma over_kept x y : moves x y → of_row over x → of_row over y.
Proof. apply row_kept. by intros t t' (_ & H & _). Qed.
Lemma woken_kept x y : moves x y → of_row woken x → of_row woken y.
Proof. apply row_kept. by intros t t' (_ & _ & H & _). Qed.
Lemma told_kept x y : moves x y → of_row cancel_told x → of_row cancel_told y.
Proof. apply row_kept. by intros t t' (_ & _ & _ & H). Qed.

Context (collate : string → string → bool) (others : nat → list op) (clock : nat → time).
Context (cancel : string → Stops.Answer unit) (listed : option (list string)) (describe : string → Stops.Answer (option bool)).
Context (wake : string → ParticipantMessage → option string) (notified : string → bool).
Hypothesis Hothers : ∀ n, Forall fair (others n).

(** What a statement of the sweep reads. *)
Definition before_ (w : Sweep) : DB := execs (others (statements w)) (db w).

Lemma moves_before w : moves (db w) (before_ w).
Proof. by exists (others (statements w)). Qed.

Lemma moves_stmt {A} (f : DB → A * DB) w : (∀ x, moves x (f x).2) → moves (db w) (db (stmt others f w).2).
Proof.
  intros Hf. eapply moves_trans; [apply moves_before|]. unfold stmt. fold (before_ w). specialize (Hf (before_ w)). by destruct (f (before_ w)).
Qed.

Lemma moves_write f w : (∀ x, moves x (f x)) → moves (db w) (db (write others f w)).
Proof. intros Hf. by apply moves_stmt. Qed.

Lemma moves_each {A} (f : A → Sweep → Sweep) l w : (∀ a w, moves (db w) (db (f a w))) → moves (db w) (db (each f l w)).
Proof. intros Hf. revert w. induction l as [|a l IH]; intros w; [apply moves_refl|]. cbn. eapply moves_trans; [apply Hf|apply IH]. Qed.

Lemma moves_woken now i x : moves x (SetTaskWoken now i x).
Proof. by apply (moves_exec (OWoken now i)). Qed.
Lemma moves_cancel_sent now i x : moves x (SetTaskCancelSent now i x).
Proof. by apply (moves_exec (OCancelSent now i)). Qed.
Lemma moves_end now i state content x :
  (spared = true → i ≠ id) → (state = BackgroundFailed ∨ state = BackgroundCancelled) → moves x (EndTask now i TaskEndedBySweep state (λ t, TaskResultMessage t content None) x).2.
Proof.
  intros Hi Hs. apply (moves_exec (OEnd now i TaskEndedBySweep state content None)). split_and!; [|done|by intros ?%Hi; apply String.eqb_neq].
  cbn. by destruct Hs as [-> | ->]; rewrite !elem_of_cons; auto.
Qed.

Lemma moves_wake_end t reason now x : moves x (wake_end t reason now x).
Proof.
  unfold wake_end, AppendMessage.
  pose proof (moves_exec (OMessage now (SessionID t) (TurnEndKey (TurnKey (ResultMessageID t) (TaskParticipant t))) (TurnEnd (TaskParticipant t) reason)) x) as H.
  cbn [exec] in H. destruct (insert_row _ _ _ _ _) as [[r b] msgs]. apply H. by split_and!.
Qed.

#[local] Hint Resolve moves_refl moves_woken moves_cancel_sent moves_wake_end : moves.

Lemma moves_resend t w : moves (db w) (db (resend_one others clock cancel t w)).
Proof. unfold resend_one. cbv zeta. destruct (cancel (TaskID t)); [apply moves_refl|apply moves_refl|]. by apply (moves_write _ (act_ _ w)); auto with moves. Qed.

Lemma db_tell session channel channelID signer text w : db (tell notified session channel channelID signer text w) = db w.
Proof. unfold tell. by destruct (_ && _). Qed.

Lemma statements_tell session channel channelID signer text w : statements (tell notified session channel channelID signer text w) = statements w.
Proof. unfold tell. by destruct (_ && _). Qed.

Lemma moves_wake t w : moves (db w) (db (wakeTask others clock wake notified t w)).
Proof.
  unfold wakeTask. pose proof (moves_stmt (λ x, (sessions x !! SessionID t, x)) w (λ x, moves_refl x)) as H1.
  unfold read. destruct (stmt others _ w) as [sess w1]. cbn [snd] in H1. eapply moves_trans; [exact H1|]. destruct sess as [sess|]; [|apply moves_refl]. cbv zeta.
  destruct (wake _ _) as [err|].
  - destruct (match EndedAt t with None => _ | Some _ => _ end); [apply moves_refl|].
    eapply moves_trans; [apply (moves_write (wake_end t (wake_failure t err) (now_ clock w1)) w1); auto with moves|].
    rewrite <- (db_tell (SessionID t) (Channel t) (ChannelID t) (if TaskSignsReply sess (TaskParticipant t) then TaskParticipant t else "") ("Error processing message: " +:+ wake_failure t err)).
    apply moves_write. auto with moves.
  - apply (moves_write _ (act_ _ w1)). auto with moves.
Qed.

Lemma moves_end_swept t w : (spared = true → TaskID t ≠ id) → moves (db w) (db (endSwept others clock wake notified t w)).
Proof.
  intros Hsp. unfold endSwept. destruct (swept_end t) as [state content] eqn:Es.
  assert (state = BackgroundFailed ∨ state = BackgroundCancelled) as Hs by (unfold swept_end in Es; destruct (String.eqb _ ""); injection Es as <- _; auto).
  pose proof (moves_stmt (EndTask (now_ clock w) (TaskID t) TaskEndedBySweep state (λ t, TaskResultMessage t content None)) w
    (λ x, moves_end _ _ _ _ x Hsp Hs)) as H1. destruct (stmt others _ w) as [ending w1]. cbn [snd] in H1. eapply moves_trans; [exact H1|].
  destruct ending as [e|]; [|apply moves_refl]. destruct (Gone e || negb (Mine e)); [apply moves_refl|]. cbv zeta. destruct (String.eqb state BackgroundCancelled); [apply moves_refl|].
  destruct (EndTaskOf e) as [t'|]; [|apply moves_refl]. apply (moves_wake t' (act_ _ w1)).
Qed.

(** The conditions on which the sweep takes a task's workflow for closed. *)
Definition left_alone (ids : list string) : Prop := contains ids id = true ∨ describe id = Stops.Got (Some true) ∨ describe id = Stops.Got None ∨ ∃ text, describe id = Stops.Failed_ text.

Lemma moves_sweep_one ids t w :
  (spared = true → left_alone ids) → moves (db w) (db (sweep_one others clock describe wake notified ids t w)).
Proof.
  intros Hsp. unfold sweep_one. destruct (contains ids (TaskID t) || negb (taskClosed describe (now_ clock w) t)) eqn:E; [apply moves_refl|].
  apply moves_end_swept. intros Hs Ei. specialize (Hsp Hs). unfold left_alone in Hsp. unfold taskClosed in E. rewrite Ei in E.
  destruct Hsp as [H|[H|[H|[text H]]]]; rewrite H in E; [done|by destruct (contains ids id)..].
Qed.

(** ** What a step does for its own task *)

Lemma set_woken_row now x : of_row woken (SetTaskWoken now id x).
Proof.
  intros t'. unfold SetTaskWoken, update. destruct (tasks x !! id) as [t|] eqn:E; [|cbn; congruence]. destruct (WokenAt t) eqn:Ec; cbn.
  - rewrite E. intros [= <-]. by eexists.
  - rewrite lookup_insert_eq. intros [= <-]. by eexists.
Qed.

Lemma set_sent_row now x : of_row cancel_told (SetTaskCancelSent now id x).
Proof.
  intros t'. unfold SetTaskCancelSent, update. destruct (tasks x !! id) as [t|] eqn:E; [|cbn; congruence]. destruct (CancelSentAt t) eqn:Ec; cbn.
  - rewrite E. intros [= <-]. by eexists.
  - rewrite lookup_insert_eq. intros [= <-]. by eexists.
Qed.

Lemma resend_tells t w : TaskID t = id → cancel id = Stops.Got tt → of_row cancel_told (db (resend_one others clock cancel t w)).
Proof. intros Ei Hc. unfold resend_one. rewrite Ei, Hc. cbv zeta. unfold write, stmt. apply set_sent_row. Qed.

(** A wake that is not tried again. *)
Definition wakes_or_gives_up (t : BackgroundTask) : Prop :=
  (∀ msg, wake (ParticipantWorkflowID (SessionID t) (TaskParticipant t)) msg = None) ∨
  ∃ e, EndedAt t = Some e ∧ ∀ n, taskWakeGiveUp <= time_sub (clock n) e.

Lemma wake_wakes t x w :
  db_ok x → tasks x !! id = Some t → moves x (db w) → wakes_or_gives_up t →
  of_row woken (db (wakeTask others clock wake notified t w)).
Proof.
  intros Hx Ht Hm Hw. destruct (do_task _ Hx _ _ Ht) as [Ei _]. unfold wakeTask, read, stmt. cbv zeta.
  change (execs (others (statements w)) (db w)) with (before_ w). assert (moves x (before_ w)) as Hb by (eapply moves_trans; [exact Hm|apply moves_before]).
  destruct (sessions (before_ w) !! SessionID t) as [sess|] eqn:Es.
  2: { intros t' Ht'. cbn in Ht'. exfalso. pose proof (moves_onward _ _ Hb) as Ho. rewrite Ht, Ht' in Ho. destruct Ho as [Esid _].
       destruct (do_task _ (moves_ok _ _ Hb Hx) _ _ Ht') as [_ [s Hs]]. rewrite Esid, Es in Hs. done. }
  destruct (wake _ _) as [err|] eqn:Ewake.
  - destruct Hw as [Hw|(e & He & Hold)]; [by rewrite Hw in Ewake|]. rewrite He. unfold now_. cbn [statements]. destruct (Z.ltb_spec (time_sub (clock (S (statements w))) e) taskWakeGiveUp).
    { specialize (Hold (S (statements w))). lia. }
    unfold write at 1. unfold stmt at 1. cbn [snd db]. rewrite Ei. apply set_woken_row.
  - unfold write at 1. unfold stmt at 1. cbn [snd db]. rewrite Ei. apply set_woken_row.
Qed.

Lemma end_swept_over t w : spared = false → TaskID t = id → of_row over (db (endSwept others clock wake notified t w)).
Proof.
  intros Hsp Ei. unfold endSwept. destruct (swept_end t) as [state content] eqn:Es.
  assert (state = BackgroundFailed ∨ state = BackgroundCancelled) as Hs by (unfold swept_end in Es; destruct (String.eqb _ ""); injection Es as <- _; auto).
  unfold stmt. change (execs (others (statements w)) (db w)) with (before_ w). rewrite Ei.
  assert (of_row over (EndTask (now_ clock w) id TaskEndedBySweep state (λ t, TaskResultMessage t content None) (before_ w)).2) as Hov.
  { intros t' Ht'. unfold EndTask in Ht'. destruct (tasks (before_ w) !! id) as [x|] eqn:E; [|cbn in Ht'; congruence]. destruct (running x) eqn:Hr; cbn [negb] in Ht'.
    - destruct (insert_row _ _ _ _ _) as [[r b] msgs]. assert (valid_state state = true) as Hv by (by destruct Hs as [-> | ->]). rewrite Hv in Ht'. cbn in Ht'.
      rewrite lookup_insert_eq in Ht'. injection Ht' as <-. unfold over, running. cbn. by destruct Hs as [-> | ->].
    - cbn in Ht'. unfold over. congruence. }
  destruct (EndTask _ _ _ _ _ _) as [ending y]. cbn [snd] in Hov. destruct ending as [e|]; [|exact Hov]. destruct (Gone e || negb (Mine e)); [exact Hov|]. cbv zeta.
  destruct (String.eqb state BackgroundCancelled); [exact Hov|]. destruct (EndTaskOf e) as [t'|]; [|exact Hov].
  eapply over_kept; [|exact Hov]. apply (moves_wake t' (act_ _ (mkSweep y _ _))).
Qed.

(** ** Over a list *)

Lemma each_row {A} (P : BackgroundTask → Prop) (f : A → Sweep → Sweep) l a x w :
  (∀ x y, moves x y → of_row P x → of_row P y) → (∀ a w, moves (db w) (db (f a w))) → a ∈ l → moves x (db w) →
  (∀ w, moves x (db w) → of_row P (db (f a w))) → of_row P (db (each f l w)).
Proof.
  intros Hk Hf. revert w. induction l as [|b l IH]; intros w; [by intros ?%not_elem_of_nil|]. intros [->|Ha]%elem_of_cons Hm Hown; cbn [each].
  - eapply Hk; [apply moves_each, Hf|]. by apply Hown.
  - apply IH; [done| |done]. eapply moves_trans; [exact Hm|apply Hf].
Qed.

Lemma in_listed cond f x t : tasks x !! id = Some t → cond t = true → t ∈ listTasks collate cond f x.
Proof.
  intros Ht Hc. unfold listTasks. rewrite sort_stable_perm. apply list_elem_of_In, filter_In. split; [|done]. apply list_elem_of_In, list_elem_of_fmap.
  exists (id, t). split; [done|]. by apply elem_of_map_to_list.
Qed.
Lemma update_runs i cond f x t' :
  (∀ t, running (f t) = running t) → tasks (update i cond f x).2 !! id = Some t' → ∃ t, tasks x !! id = Some t ∧ running t = running t'.
Proof.
  intros Hf. unfold update. destruct (tasks x !! i) as [t|] eqn:E; [|by intros ?; exists t']. destruct (cond t); [|by intros ?; exists t']. cbn.
  destruct (decide (i = id)) as [->|Hne]; [rewrite lookup_insert_eq; intros [= <-]; exists t; by rewrite Hf|rewrite lookup_insert_ne by done; by exists t'].
Qed.

(** A task spared runs on, as long as its row is there. *)
Lemma exec_runs o x t' : registers id o = false → ends id o = false → tasks (exec o x) !! id = Some t' → ∃ t, tasks x !! id = Some t ∧ running t = running t'.
Proof.
  intros Hr He. destruct o; cbn [exec].
  - unfold RegisterTask. cbn in Hr. destruct (tasks x !! TaskID t) eqn:E; [by exists t'|]. destruct (_ <=? _); [by exists t'|].
    destruct (sessions x !! _); [|by exists t']. cbn. apply String.eqb_neq in Hr. rewrite lookup_insert_ne by done. by exists t'.
  - unfold DropTask. destruct (tasks x !! id0) as [t|] eqn:E; [|by exists t']. destruct (running t); [|by exists t']. cbn.
    intros [_ H]%lookup_delete_Some. by exists t'.
  - unfold AddTaskFollowUp. destruct (update _ _ _ _) as [b y] eqn:E. apply (f_equal snd) in E. cbn in E. subst y. destruct b; by apply update_runs.
  - unfold SetTaskCancelledBy. destruct (update _ _ _ _) as [b y] eqn:E. apply (f_equal snd) in E. cbn in E. subst y. destruct b; by apply update_runs.
  - by apply update_runs.
  - by apply update_runs.
  - cbn in He. apply String.eqb_neq in He. unfold EndTask. destruct (tasks x !! id0) as [t|] eqn:E; [|by exists t']. destruct (running t) eqn:Hrun; cbn [negb]; [|by exists t'].
    destruct (insert_row _ _ _ _ _) as [[r0 b] msgs]. destruct (valid_state state); [|by exists t']. cbn. rewrite lookup_insert_ne by done. by exists t'.
  - by exists t'.
  - destruct (sessions x !! id0); by exists t'.
  - cbn. intros [H _]%map_lookup_filter_Some. by exists t'.
Qed.

Lemma moves_runs x y t' : spared = true → moves x y → tasks y !! id = Some t' → ∃ t, tasks x !! id = Some t ∧ running t = running t'.
Proof.
  intros Hsp (l & Hl & ->). revert x. induction Hl as [|o l (_ & Hr & He) _ IH]; intros x; [by exists t'|].
  intros (t & Ht & E)%IH. destruct (exec_runs o x t Hr (He Hsp) Ht) as (u & Hu & Eu). exists u. split; [done|congruence].
Qed.

(** ** The parts of a sweep *)

Lemma moves_resends w : moves (before_ w) (db (resendCancels collate others clock cancel w)).
Proof. unfold resendCancels, read, stmt. cbv zeta. apply (moves_each _ _ (mkSweep (before_ w) _ _)). intros. apply moves_resend. Qed.

Lemma moves_ended w :
  (spared = true → left_alone (default [] listed)) → moves (before_ w) (db (endClosedTasks collate others clock listed describe wake notified w)).
Proof.
  intros Hsp. unfold endClosedTasks, read, stmt. cbv zeta. change (execs (others (statements w)) (db w)) with (before_ w).
  destruct (ListTasksRunningSince _ _ _) as [|t l]; [apply moves_refl|]. destruct listed as [ids|]; [|apply moves_refl].
  apply (moves_each _ (t :: l) (mkSweep (before_ w) _ _)). intros. by apply moves_sweep_one.
Qed.

Lemma moves_lates w l : moves (db w) (db (each (wakeTask others clock wake notified) l w)).
Proof. apply moves_each. intros. apply moves_wake. Qed.
End Catch.

(** The sweep once the stops are told, and once the tasks closed are ended. *)
Section Parts.
Context (collate : string → string → bool) (others : nat → list op) (clock : nat → time).
Context (cancel : string → Stops.Answer unit) (listed : option (list string)) (describe : string → Stops.Answer (option bool)).
Context (wake : string → ParticipantMessage → option string) (notified : string → bool).

Definition after_stops (w : Sweep) : Sweep := resendCancels collate others clock cancel w.
Definition after_ends (w : Sweep) : Sweep := endClosedTasks collate others clock listed describe wake notified (after_stops w).
End Parts.

(** C32. A sweep leaves nothing undone that it can do, whatever else happens to
    the tables between its statements. A stop recorded and not told is told; a
    task running long enough whose workflow is closed is over; an ended task
    that woke nobody has woken its participant, or is given up after half an
    hour, or is gone with its session. And the sweep itself ends no task whose
    workflow is listed running, is described as running, or cannot be
    described. *)
Theorem sweep_catches_up id spared collate others clock cancel listed describe wake notified w :
  (∀ n, Forall (fair id spared) (others n)) → db_ok (db w) →
  (spared = true → left_alone id describe (default [] listed)) →
  let w1 := after_stops collate others clock cancel w in
  let w2 := after_ends collate others clock cancel listed describe wake notified w in
  let final := db (SweepTasks collate others clock cancel listed describe wake notified w) in
  (∀ t, tasks (before_ others w) !! id = Some t → running t = true → CancelledBy t ≠ "" → CancelSentAt t = None → cancel id = Stops.Got tt →
     of_row id cancel_told final) ∧
  (∀ t ids, tasks (before_ others w1) !! id = Some t → running t = true → StartedAt t < clock (statements w1) - taskSweepAge →
     spared = false → listed = Some ids → contains ids id = false → (∀ n, taskClosed describe (clock n) t = true) →
     of_row id over final) ∧
  (∀ t e, tasks (before_ others w2) !! id = Some t → State t ∈ [BackgroundDone; BackgroundFailed] → WokenAt t = None →
     EndedAt t = Some e → e < clock (statements w2) - taskWakeGrace → wakes_or_gives_up clock wake t →
     of_row id woken final) ∧
  (spared = true → ∀ t t', tasks (db w) !! id = Some t → running t = true → tasks final !! id = Some t' → running t' = true).
Proof.
  intros Hoth Hok Hsp. cbv zeta. set (w1 := after_stops _ _ _ _ w). set (w2 := after_ends _ _ _ _ _ _ _ _ w).
  set (final := db (SweepTasks _ _ _ _ _ _ _ _ w)).
  assert (moves id spared (before_ others w) (db w1)) as M1 by (by apply moves_resends).
  assert (moves id spared (before_ others w1) (db w2)) as M2 by (by apply moves_ended).
  assert (final = db (each (wakeTask others clock wake notified) (ListTasksToWake collate (clock (statements w2) - taskWakeGrace) (before_ others w2))
      (mkSweep (before_ others w2) (S (statements w2)) (did w2)))) as Ef by done.
  assert (moves id spared (before_ others w2) final) as M3 by (rewrite Ef; apply (moves_lates id spared others clock wake notified Hoth (mkSweep (before_ others w2) _ _))).
  assert (moves id spared (db w1) final) as M13 by (eapply moves_trans; [by apply moves_before|]; eapply moves_trans; [exact M2|]; eapply moves_trans; [by apply moves_before|exact M3]).
  assert (moves id spared (db w) (db w1)) as M01 by (eapply moves_trans; [by apply moves_before|exact M1]).
  assert (db_ok (db w1)) as Hok1 by (by eapply moves_ok).
  split_and!.
  - intros t Ht Hr Hc Hs Hcan. eapply told_kept; [exact M13|]. unfold w1, after_stops, resendCancels, read, stmt. cbv zeta.
    assert (db_ok (before_ others w)) as Hokb by (eapply moves_ok; [by apply moves_before|done]). destruct (do_task _ Hokb _ _ Ht) as [Ei _].
    eapply (each_row id spared cancel_told _ _ t (before_ others w)); [apply told_kept|intros; by apply moves_resend| |apply moves_refl|].
    + apply in_listed with (id := id); [done|]. rewrite Hr, Hs. by apply String.eqb_neq in Hc as ->.
    + intros w' _. by apply resend_tells.
  - intros t ids Ht Hr Hold Hspf Hl Hn Hcl. assert (moves id spared (db w2) final) as M23 by (eapply moves_trans; [by apply moves_before|exact M3]).
    eapply over_kept; [exact M23|]. assert (db_ok (before_ others w1)) as Hokb by (eapply moves_ok; [by apply moves_before|done]).
    destruct (do_task _ Hokb _ _ Ht) as [Ei _]. unfold w2, after_ends, endClosedTasks, read, stmt. fold w1. cbv zeta.
    change (execs (others (statements w1)) (db w1)) with (before_ others w1).
    assert (t ∈ ListTasksRunningSince collate (now_ clock w1 - taskSweepAge) (before_ others w1)) as Hin.
    { apply in_listed with (id := id); [done|]. rewrite Hr. unfold now_. apply Z.ltb_lt in Hold as ->. done. }
    destruct (ListTasksRunningSince _ _ _) as [|t0 l] eqn:El; [by apply not_elem_of_nil in Hin|]. rewrite Hl.
    eapply (each_row id spared over _ (t0 :: l) t (before_ others w1)); [apply over_kept| |done|apply moves_refl|].
    + intros a w'. apply moves_sweep_one; [done|]. by rewrite Hspf.
    + intros w' _. unfold sweep_one. rewrite Ei, Hn. unfold now_. rewrite Hcl. cbn [negb orb]. eapply end_swept_over; [done|exact Hspf|done].
  - intros t e Ht Hst Hw He Hold Hwake. rewrite Ef. assert (db_ok (before_ others w2)) as Hokb.
    { eapply moves_ok; [by apply moves_before|]. eapply moves_ok; [exact M2|]. eapply moves_ok; [by apply moves_before|done]. }
    eapply (each_row id spared woken _ _ t (before_ others w2)); [apply woken_kept|intros; by apply moves_wake| |apply moves_refl|].
    + apply in_listed with (id := id); [done|]. rewrite Hw, He. apply Z.ltb_lt in Hold as ->. rewrite !andb_true_r.
      rewrite !elem_of_cons in Hst. destruct Hst as [-> |[-> |Hst%not_elem_of_nil]]; done.
    + intros w' Hm. by eapply wake_wakes.
  - intros Hs t t' Ht Hr Ht'. assert (moves id spared (db w) final) as M by (eapply moves_trans; [exact M01|exact M13]).
    destruct (moves_runs id spared _ _ t' Hs M Ht') as (u & Hu & E). congruence.
Qed.

(** A task whose workflow was terminated, swept an hour later; and a stop that
    comes between the sweep's list and the end: the task ends as failed, its
    stop forgotten, and its participant is woken. *)
Definition demo_sweep : Sweep := mkSweep demo_db 0 [].
Definition demo_clock (n : nat) : time := hour.
Definition quiet (n : nat) : list op := [].
Definition stop_meanwhile (n : nat) : list op := if (n =? 2)%nat then [OCancelledBy (TaskID demo_task) "Ann"] else [].
Definition demo_swept (others : nat → list op) : Sweep :=
  SweepTasks str_le others demo_clock (λ _, Stops.Got tt) (Some []) (λ _, Stops.Got (Some false)) (λ _ _, None) (λ _, false) demo_sweep.

Lemma sweep_catches_up_witness :
  (∃ t, tasks (db (demo_swept quiet)) !! TaskID demo_task = Some t) ∧ of_row (TaskID demo_task) over (db (demo_swept quiet)).
Proof.
  split; [by eexists|].
  refine (proj1 (proj2 (sweep_catches_up (TaskID demo_task) false str_le quiet demo_clock (λ _, Stops.Got tt) (Some []) (λ _, Stops.Got (Some false)) (λ _ _, None)
    (λ _, false) demo_sweep _ _ _)) (registered demo_task 5) [] _ _ _ _ _ _ _); try reflexivity; try done.
  apply demo_db_ok.
Defined.

Example stop_meanwhile_lost :
  (λ t, (State t, CancelledBy t)) <$> tasks (db (demo_swept stop_meanwhile)) !! TaskID demo_task = Some (BackgroundFailed, "") ∧
  existsb (λ a, match a with Woken _ _ _ => true | _ => false end) (did (demo_swept stop_meanwhile)) = true.
Proof. split; reflexivity. Qed.
