(* ===== verification/StatusCache.v ===== *)
(** * What the sessions are doing, as pages are told (src/session/status.go,
    src/session/participants.go)

    The cache of what Temporal says of the sessions. Each critical section of
    its mutex is a definition; what is read outside of the lock is an argument
    of the section that stores it. The channels that end a wait are numbers: a
    load's, or a query's. [gen] is a 64-bit counter, taken not to wrap. The
    waits themselves and the timeouts are the system's, defined after the cache's
    operations. *)

From S2P Require Import Prelude GoStr Keys Message Table Convert Participant Working.
From S2P Require Tasks TaskSweep Stops.
Open Scope string_scope.
Open Scope Z_scope.
Open Scope list_scope.

(** ** Statuses *)

Inductive Status := StatusNone | StatusIdle | StatusWorking | StatusWaiting.

Definition rank (s : Status) : Z := match s with StatusWaiting => 2 | StatusWorking => 1 | _ => 0 end.

Definition Stronger (s o : Status) : Status := if rank s <? rank o then o else s.

Definition statusesTTL : Z := 3 * second.

(** [v.statuses[id]]: the zero value where there is none. *)
Definition status_of (m : gmap string Status) (id : string) : Status := default StatusNone (m !! id).

Definition at_least (s : Status) (id : string) (m : gmap string Status) : gmap string Status := <[id := Stronger (status_of m id) s]> m.

(** ** What the visibility queries tell *)

Record visible := mkVisible {
  statuses : gmap string Status;
  participants_ : gmap string (list string);
  asking : gmap string (list string);
  taskAsking : gmap string (list string)
}.

Definition noVisible : visible := mkVisible ∅ ∅ ∅ ∅.

Definition runningIn (v : option visible) (sid : string) : list string := match v with Some v => default [] (participants_ v !! sid) | None => [] end.
Definition askingIn (v : option visible) (sid : string) : list string := match v with Some v => default [] (asking v !! sid) | None => [] end.
Definition taskAskingIn (v : option visible) (sid : string) : list string := match v with Some v => default [] (taskAsking v !! sid) | None => [] end.

Definition add_once (x : string) (l : list string) : list string := if contains l x then l else l ++ [x].
Definition push (sid : string) (f : list string → list string) (m : gmap string (list string)) : gmap string (list string) :=
  <[sid := f (default [] (m !! sid))]> m.

Section Load.
Context (is_session_id : string → bool).
(** The running workflows of a type, all sessions together; [None] for a query
    that fails. *)
Context (listWorkflow : string → option (list string)).

(** [sessionOf]. *)
Definition sessionOf (id : string) : string :=
  match SessionOf id with Some s => if is_session_id s then s else "" | None => "" end.

Definition see_participant (v : visible) (id : string) : visible :=
  let sid := sessionOf id in
  if String.eqb sid "" then v
  else match ParticipantOf id with
       | Some agent => mkVisible (statuses v) (push sid (λ l, l ++ [agent]) (participants_ v)) (asking v) (taskAsking v)
       | None => v
       end.

Definition see_fork (v : visible) (id : string) : visible :=
  let sid := trim_prefix id "fork-" in
  if is_session_id sid then mkVisible (at_least StatusWorking sid (statuses v)) (participants_ v) (asking v) (taskAsking v) else v.

Definition see_question (v : visible) (id : string) : visible :=
  let sid := sessionOf id in
  if String.eqb sid "" then v
  else
    let v := mkVisible (at_least StatusWaiting sid (statuses v)) (participants_ v) (asking v) (taskAsking v) in
    match TaskOfWorkflow id with
    | Some task => mkVisible (statuses v) (participants_ v) (asking v) (push sid (add_once task) (taskAsking v))
    | None =>
        match ParticipantOf id with
        | Some agent => mkVisible (statuses v) (participants_ v) (push sid (add_once agent) (asking v)) (taskAsking v)
        | None => v
        end
    end.

Definition each_ (workflowType : string) (see : visible → string → visible) (v : visible) : visible :=
  match listWorkflow workflowType with None => v | Some ids => fold_left see ids v end.

Definition loadVisible : visible :=
  each_ "AskUserWorkflow" see_question (each_ "ForkSessionWorkflow" see_fork (each_ "ParticipantWorkflow" see_participant noVisible)).
End Load.

(** [Statuses], [v] being what the cache gives: nothing for a request that went
    away. *)
Definition Statuses (now : time) (v : option visible) (heard : turns) : gmap string Status :=
  let known := match v with Some v => statuses v | None => ∅ end in
  let sessions := sessions_told heard ++ match v with Some v => (map_to_list (participants_ v)).*1 | None => [] end in
  fold_left (λ m id, if bool_decide (working now id (runningIn v id) heard = []) then m else at_least StatusWorking id m) sessions known.

(** ** The cache *)

Section Cache.
Context {V W Q : Type}.

Record statusCache := mkCache {
  readAt : time;
  value : option V;
  loading : option nat;
  gen : Z;
  workflows : gmap string (W * time);
  states : gmap string (Q * time);
  stateLoads : gmap string nat
}.

Definition newCache : statusCache := mkCache 0 None None 0 ∅ ∅ ∅.

Definition fresh (now at_ : time) : bool := time_sub now at_ <? statusesTTL.

(** What a request gets of [get] under the lock: the states, or a load to wait
    for. *)
Inductive looked := Answered (v : V) | Wait (load : nat).

(** One look of [get]. [next] is the number of the load it may start, with the
    generation it starts in. *)
Definition get_look (now : time) (next : nat) (c : statusCache) : looked * option Z * statusCache :=
  match value c with
  | Some v =>
      if fresh now (readAt c) then (Answered v, None, c)
      else match loading c with
           | None => (Answered v, Some (gen c), mkCache (readAt c) (value c) (Some next) (gen c) (workflows c) (states c) (stateLoads c))
           | Some _ => (Answered v, None, c)
           end
  | None =>
      match loading c with
      | None => (Wait next, Some (gen c), mkCache (readAt c) (value c) (Some next) (gen c) (workflows c) (states c) (stateLoads c))
      | Some load => (Wait load, None, c)
      end
  end.

(** The end of [refresh]: what the load [done_], of generation [g], read. *)
Definition refresh_end (now : time) (g : Z) (done_ : nat) (v : V) (c : statusCache) : statusCache :=
  let keep := gen c =? g in
  mkCache (if keep then now else readAt c) (if keep then Some v else value c)
    (match loading c with Some l => if (l =? done_)%nat then None else loading c | None => None end) (gen c) (workflows c) (states c) (stateLoads c).

(** [workflow]: the state kept, or the generation to read it in. *)
Definition workflow_look (now : time) (id : string) (c : statusCache) : W + Z :=
  match workflows c !! id with
  | Some (w, at_) => if fresh now at_ then inl w else inr (gen c)
  | None => inr (gen c)
  end.

Definition workflow_end (now : time) (g : Z) (id : string) (w : W) (read_at : time) (c : statusCache) : statusCache :=
  if gen c =? g then
    mkCache (readAt c) (value c) (loading c) (gen c) (<[id := (w, read_at)]> (filter (λ kv, fresh now kv.2.2 = true) (workflows c))) (states c) (stateLoads c)
  else c.

(** [participantState]: the answer kept, a query to wait for, or the generation
    to ask in. *)
Inductive asked := Kept (q : Q) | WaitQuery (query : nat) | Ask (g : Z).

Definition state_look (now : time) (next : nat) (id : string) (c : statusCache) : asked * statusCache :=
  match states c !! id with
  | Some (q, at_) =>
      if fresh now at_ then (Kept q, c)
      else match stateLoads c !! id with
           | Some load => (WaitQuery load, c)
           | None => (Ask (gen c), mkCache (readAt c) (value c) (loading c) (gen c) (workflows c) (states c) (<[id := next]> (stateLoads c)))
           end
  | None =>
      match stateLoads c !! id with
      | Some load => (WaitQuery load, c)
      | None => (Ask (gen c), mkCache (readAt c) (value c) (loading c) (gen c) (workflows c) (states c) (<[id := next]> (stateLoads c)))
      end
  end.

(** [cut]: the request went away. *)
Definition state_end (now : time) (g : Z) (id : string) (query : nat) (q : Q) (read_at : time) (cut : bool) (c : statusCache) : statusCache :=
  let c := if (gen c =? g) && negb cut then
             mkCache (readAt c) (value c) (loading c) (gen c) (workflows c) (<[id := (q, read_at)]> (filter (λ kv, fresh now kv.2.2 = true) (states c))) (stateLoads c)
           else c in
  if bool_decide (stateLoads c !! id = Some query)
  then mkCache (readAt c) (value c) (loading c) (gen c) (workflows c) (states c) (delete id (stateLoads c)) else c.

Definition invalidate (c : statusCache) : statusCache := mkCache (readAt c) None None (gen c + 1) ∅ ∅ ∅.
End Cache.
Arguments statusCache : clear implicits.
Arguments looked : clear implicits.
Arguments asked : clear implicits.

(** ** The participants of a session (src/session/participants.go) *)

(** What its state query makes of a participant. *)
Record PanelRow := mkPanel { PView : ParticipantView; PWaiting : bool; PTasks : list TaskSweep.Task }.

(** A participant's answer, as the cache keeps it: given, or gone, or neither. *)
Definition queried : Type := Stops.Answer ParticipantState.

(** Which participants are asked: those the events leave unclear. *)
Definition unclear (v : ParticipantView) : bool := negb (VKnown v && (negb (VWorking v) || negb (String.eqb (VTurn v) ""))).

(** What the answer changes: [None] for one that is gone and nothing told of. *)
Definition after_query (q : queried) (v : ParticipantView) : option ParticipantView :=
  match q with
  | Stops.NotFound =>
      if VKnown v then Some (mkView (VName v) (VAgentID v) (VAgentName v) false (VTurn v) (VUserID v) (VUserName v) (VSince v) (VNote v) 0 (VKnown v)) else None
  | Stops.Failed_ _ => Some v
  | Stops.Got st =>
      match Current st with
      | Some c => Some (mkView (VName v) (VAgentID v) (VAgentName v) true (CurTurn c) (CurUserID c) (CurUserName c) (Since c) (VNote v) (Participant.Queued st) (VKnown v))
      | None => Some (mkView (VName v) (VAgentID v) (VAgentName v) false (VTurn v) (VUserID v) (VUserName v) (VSince v) (VNote v) (Participant.Queued st) (VKnown v))
      end
  end.

Definition idle_view (name : string) : ParticipantView := mkView name name "" false "" "" "" 0 "" 0 false.

(** [tasks]: by participant ([tasksOf]). *)
Definition Participants (now : time) (sessionID : string) (v : option visible) (heard : turns) (query : string → queried)
    (tasks : gmap string (list TaskSweep.Task)) : list PanelRow :=
  let ps := omap (λ p, if unclear p then after_query (query (ParticipantWorkflowID sessionID (VName p))) p else Some p)
              (snapshot now sessionID (runningIn v sessionID) heard) in
  let rows := (λ p, mkPanel p (VWorking p && contains (askingIn v sessionID) (VName p)) (default [] (tasks !! VName p))) <$> ps in
  let others := filter (λ kv, kv.1 ∉ VName <$> ps) tasks in
  sort_stable (λ a b, by_name (PView a) (PView b)) (rows ++ ((λ kv, mkPanel (idle_view kv.1) false kv.2) <$> map_to_list others)).

(** ** What a page shows follows the actions

    The cache of the sessions' states under requests, loads and actions that
    interleave. What is read is the number of the moment it is read at: how
    many changes Temporal has seen. *)

(** ** The system *)

Inductive kind := KLoad | KWorkflow (id : string) | KState (id : string).

(** A reading under way: its number, the generation it started in, the changes
    at that moment, and what it has read, once it has. *)
Record job := mkJob { jobNo : nat; jobKind : kind; jobGen : Z; jobSince : Z; jobRead : option Z }.

(** What a request is given: what the cache holds, or what it read itself, with
    the changes there were when it asked. *)
Inductive given := FromCache (v : Z) | OwnRead (asked v : Z).

Notation cache := (statusCache Z Z Z).

(** The changes so far, those before the last invalidation, the readings under
    way, the next number. *)
Record Sys := mkSys { cached : cache; changes : Z; floor : Z; jobs : list job; nextNo : nat }.

Definition started (k : kind) (g : option Z) (s : Sys) (c : cache) : Sys :=
  match g with
  | Some g => mkSys c (changes s) (floor s) (jobs s ++ [mkJob (nextNo s) k g (changes s) None]) (S (nextNo s))
  | None => mkSys c (changes s) (floor s) (jobs s) (nextNo s)
  end.

(** One step, with the answer it gives to a request, if any. *)
Inductive sys_step : Sys → option given → Sys → Prop :=
| Changes s : sys_step s None (mkSys (cached s) (changes s + 1) (floor s) (jobs s) (nextNo s))
| Invalidates s : sys_step s None (mkSys (invalidate (cached s)) (changes s) (changes s) (jobs s) (nextNo s))
| Looks now s a g c :
    get_look now (nextNo s) (cached s) = (a, g, c) →
    sys_step s (match a with Answered v => Some (FromCache v) | Wait _ => None end) (started KLoad g s c)
| LooksWorkflow now id s a :
    workflow_look now id (cached s) = a →
    sys_step s (match a with inl w => Some (FromCache w) | inr _ => None end)
      (started (KWorkflow id) (match a with inl _ => None | inr g => Some g end) s (cached s))
| LooksState now id s a c :
    state_look now (nextNo s) id (cached s) = (a, c) →
    sys_step s (match a with Kept q => Some (FromCache q) | _ => None end)
      (started (KState id) (match a with Ask g => Some g | _ => None end) s c)
| Reads s l l' j :
    jobs s = l ++ j :: l' → jobRead j = None →
    sys_step s None (mkSys (cached s) (changes s) (floor s) (l ++ mkJob (jobNo j) (jobKind j) (jobGen j) (jobSince j) (Some (changes s)) :: l') (nextNo s))
| LoadEnds now s l l' n g since v :
    jobs s = l ++ mkJob n KLoad g since (Some v) :: l' →
    sys_step s None (mkSys (refresh_end now g n v (cached s)) (changes s) (floor s) (l ++ l') (nextNo s))
| WorkflowEnds now read_at s l l' n id g since v :
    jobs s = l ++ mkJob n (KWorkflow id) g since (Some v) :: l' →
    sys_step s (Some (OwnRead since v)) (mkSys (workflow_end now g id v read_at (cached s)) (changes s) (floor s) (l ++ l') (nextNo s))
| StateEnds now read_at cut s l l' n id g since v :
    jobs s = l ++ mkJob n (KState id) g since (Some v) :: l' →
    sys_step s (Some (OwnRead since v)) (mkSys (state_end now g id n v read_at cut (cached s)) (changes s) (floor s) (l ++ l') (nextNo s)).

Definition started_up : Sys := mkSys newCache 0 0 [] 0.

Inductive reached : Sys → Prop :=
| reached_start : reached started_up
| reached_step s a s' : reached s → sys_step s a s' → reached s'.

(** ** The invariant *)

(** The readings: their numbers, their generations, and what those of this
    generation have read. *)
Record jobs_ok (l : list job) (g floor : Z) (next : nat) : Prop := {
  jo_numbers : NoDup (jobNo <$> l);
  jo_next : ∀ j, j ∈ l → (jobNo j < next)%nat;
  jo_gen : ∀ j, j ∈ l → jobGen j <= g;
  jo_read : ∀ j v, j ∈ l → jobGen j = g → jobRead j = Some v → floor <= v
}.

(** The reading numbered [n] of a kind, in this generation. *)
Definition current (l : list job) (g : Z) (k : kind) (n : nat) : Prop := ∃ j, j ∈ l ∧ jobKind j = k ∧ jobGen j = g ∧ jobNo j = n.

Record sys_inv (s : Sys) : Prop := {
  si_floor : floor s <= changes s;
  si_jobs : jobs_ok (jobs s) (gen (cached s)) (floor s) (nextNo s);
  si_value : ∀ v, value (cached s) = Some v → floor s <= v;
  si_workflows : ∀ id w, workflows (cached s) !! id = Some w → floor s <= w.1;
  si_states : ∀ id q, states (cached s) !! id = Some q → floor s <= q.1;
  si_loading : ∀ n, loading (cached s) = Some n ↔ current (jobs s) (gen (cached s)) KLoad n;
  si_loads : ∀ id n, stateLoads (cached s) !! id = Some n ↔ current (jobs s) (gen (cached s)) (KState id) n
}.

Lemma no_current g k n : ¬ current [] g k n.
Proof. by intros (j & Hj%not_elem_of_nil & _). Qed.

Lemma started_up_inv : sys_inv started_up.
Proof.
  split; cbn; try done.
  - split; cbn; [apply NoDup_nil_2|by intros ? ?%not_elem_of_nil|by intros ? ?%not_elem_of_nil|by intros ? ? ?%not_elem_of_nil].
  - intros n. split; [done|]. by intros ?%no_current.
  - intros id n. rewrite lookup_empty. split; [done|]. by intros ?%no_current.
Qed.

Lemma jobs_start l g f next k c : jobs_ok l g f next → jobs_ok (l ++ [mkJob next k g c None]) g f (S next).
Proof.
  intros [Hn Hx Hg Hr]. split.
  - rewrite fmap_app. apply NoDup_app. split_and!; [done| |apply NoDup_singleton]. intros n (j & -> & Hj)%list_elem_of_fmap E%list_elem_of_singleton. apply Hx in Hj. cbn in E. lia.
  - intros j [Hj%Hx| ->]%elem_snoc; cbn; lia.
  - intros j [Hj%Hg| ->]%elem_snoc; cbn; lia.
  - intros j v [Hj| ->]%elem_snoc; [by apply Hr|done].
Qed.

Lemma current_start l g k next c k' n : current (l ++ [mkJob next k g c None]) g k' n ↔ current l g k' n ∨ k' = k ∧ n = next.
Proof.
  unfold current. split.
  - intros (j & [Hj| ->]%elem_snoc & Hk & Hg & Hn); [left; by exists j|right]. cbn in *. by subst.
  - intros [(j & Hj & ?)|[-> ->]]; [exists j|exists (mkJob next k g c None)]; (split; [apply elem_snoc|]); auto.
Qed.

Lemma elem_middle {A} (l l' : list A) (x y : A) : x ∈ l ++ y :: l' ↔ x = y ∨ x ∈ l ++ l'.
Proof. rewrite !elem_of_app, elem_of_cons. tauto. Qed.

Lemma NoDup_middle {A} (l l' : list A) (x : A) : NoDup (l ++ x :: l') ↔ x ∉ l ++ l' ∧ NoDup (l ++ l').
Proof. rewrite <- Permutation_middle. apply NoDup_cons. Qed.

Lemma jobs_drop l l' j g f next : jobs_ok (l ++ j :: l') g f next → jobs_ok (l ++ l') g f next.
Proof.
  intros [Hn Hx Hg Hr]. split.
  - rewrite fmap_app in *. cbn in Hn. by apply NoDup_middle in Hn as [_ Hn].
  - intros x Hj. apply Hx, elem_middle. by right.
  - intros x Hj. apply Hg, elem_middle. by right.
  - intros x v Hj. apply Hr, elem_middle. by right.
Qed.

(** A reading over leaves the others. *)
Lemma current_drop l l' j g f next k n :
  jobs_ok (l ++ j :: l') g f next → (current (l ++ l') g k n ↔ current (l ++ j :: l') g k n ∧ n ≠ jobNo j).
Proof.
  intros [Hn _ _ _]. rewrite fmap_app in Hn. cbn in Hn. apply NoDup_middle in Hn as [Hn _]. unfold current. split.
  - intros (x & Hx & Hk & Hg & <-). split; [exists x; split; [apply elem_middle; by right|done]|]. intros E. apply Hn. rewrite <- fmap_app, <- E. by apply list_elem_of_fmap_2.
  - intros [(x & [->|Hx]%elem_middle & Hk & Hg & <-) Hne]; [done|]. by exists x.
Qed.

Lemma current_other l l' j g f next k n : jobs_ok (l ++ j :: l') g f next → current (l ++ j :: l') g k n → k ≠ jobKind j → n ≠ jobNo j.
Proof.
  intros [Hn _ _ _] (x & [->|Hx]%elem_middle & Hk & _ & <-) Hne; [done|]. rewrite fmap_app in Hn. cbn in Hn. apply NoDup_middle in Hn as [Hn _].
  intros E. apply Hn. rewrite <- fmap_app, <- E. by apply list_elem_of_fmap_2.
Qed.

Lemma jobs_read l l' j g f next v :
  jobs_ok (l ++ j :: l') g f next → f <= v → jobs_ok (l ++ mkJob (jobNo j) (jobKind j) (jobGen j) (jobSince j) (Some v) :: l') g f next.
Proof.
  intros [Hn Hx Hg Hr] Hv. split.
  - rewrite fmap_app in *. done.
  - intros x [->|Hj]%elem_middle; [apply (Hx j), elem_middle; by left|apply Hx, elem_middle; by right].
  - intros x [->|Hj]%elem_middle; [apply (Hg j), elem_middle; by left|apply Hg, elem_middle; by right].
  - intros x w [->|Hj]%elem_middle; [by intros _ [= <-]|apply Hr, elem_middle; by right].
Qed.

Lemma current_read l l' j g k n v :
  current (l ++ mkJob (jobNo j) (jobKind j) (jobGen j) (jobSince j) (Some v) :: l') g k n ↔ current (l ++ j :: l') g k n.
Proof.
  unfold current. split; intros (x & [->|Hx]%elem_middle & ? & ? & ?).
  - exists j. split; [apply elem_middle; by left|done].
  - exists x. split; [apply elem_middle; by right|done].
  - exists (mkJob (jobNo j) (jobKind j) (jobGen j) (jobSince j) (Some v)). split; [apply elem_middle; by left|done].
  - exists x. split; [apply elem_middle; by right|done].
Qed.

(** After an invalidation, no reading is of the generation, and none of those
    under way will be. *)
Lemma jobs_invalidate l g f f' next : jobs_ok l g f next → jobs_ok l (g + 1) f' next.
Proof. intros [Hn Hx Hg _]. split; [done|done|intros j Hj%Hg; lia|]. intros j v Hj%Hg E. lia. Qed.

Lemma current_invalidate l g f next k n : jobs_ok l g f next → ¬ current l (g + 1) k n.
Proof. intros [_ _ Hg _] (j & Hj%Hg & _ & E & _). lia. Qed.

(** ** It holds at each step *)

Lemma inv_started_load s c :
  sys_inv s → (∀ v, value c = Some v → value (cached s) = Some v) → workflows c = workflows (cached s) → states c = states (cached s) →
  stateLoads c = stateLoads (cached s) → gen c = gen (cached s) → loading (cached s) = None → loading c = Some (nextNo s) →
  sys_inv (started KLoad (Some (gen (cached s))) s c).
Proof.
  intros [Hf Hj Hv Hw Hs Hl Hq] Ev Ew Es Eq Eg El El'. split; cbn; rewrite ?Eg, ?Ew, ?Es, ?Eq; try done.
  - by apply jobs_start.
  - intros v E. by apply Hv, Ev.
  - intros n. rewrite current_start, <- Hl, El, El'. split; [intros [= <-]; by right|]. by intros [?|[_ ->]].
  - intros id n. rewrite current_start, <- Hq. split; [by left|]. by intros [?|[? _]].
Qed.

Lemma inv_step s a s' : sys_inv s → sys_step s a s' → sys_inv s'.
Proof.
  intros Hi Hs. pose proof Hi as [Hf Hj Hv Hw Hst Hl Hq]. destruct Hs.
  - split; cbn; try done. lia.
  - split; cbn; try done.
    + by eapply jobs_invalidate.
    + intros n. split; [done|]. intros H. by eapply current_invalidate in H.
    + intros id n. rewrite lookup_empty. split; [done|]. intros H. by eapply current_invalidate in H.
  - unfold get_look in H. destruct (value (cached s)) as [v|] eqn:Ev.
    + destruct (fresh now (readAt (cached s))); [injection H as <- <- <-; by destruct s|]. destruct (loading (cached s)) as [n|] eqn:El; injection H as <- <- <-; [by destruct s|].
      apply inv_started_load; cbn; done || congruence.
    + destruct (loading (cached s)) as [n|] eqn:El; injection H as <- <- <-; [by destruct s|]. apply inv_started_load; cbn; done || congruence.
  - unfold workflow_look in H. assert (a = inr (gen (cached s)) ∨ ∃ w, a = inl w) as [->|[w ->]].
    { destruct (workflows (cached s) !! id) as [[w at_]|]; [destruct (fresh now at_)|]; subst a; eauto. }
    + split; cbn; try done; [by apply jobs_start| |].
      * intros n. rewrite current_start, <- Hl. split; [by left|]. by intros [?|[? _]].
      * intros k n. rewrite current_start, <- Hq. split; [by left|]. by intros [?|[? _]].
    + by destruct s.
  - assert (a ≠ Ask (gen (cached s)) ∧ (∀ g, a ≠ Ask g) ∧ c = cached s ∨
      a = Ask (gen (cached s)) ∧ stateLoads (cached s) !! id = None ∧
      c = mkCache (readAt (cached s)) (value (cached s)) (loading (cached s)) (gen (cached s)) (workflows (cached s)) (states (cached s)) (<[id := nextNo s]> (stateLoads (cached s)))) as Hc.
    { unfold state_look in H. destruct (states (cached s) !! id) as [[q at_]|]; [destruct (fresh now at_); [injection H as <- <-; by left|]|];
        destruct (stateLoads (cached s) !! id) eqn:E; injection H as <- <-; (by left) || by right. }
    destruct Hc as [(_ & Ha & ->)|(-> & E & ->)].
    + destruct a; [by destruct s|by destruct s|by destruct (Ha g)].
    + split; cbn; try done; [by apply jobs_start| |].
      * intros n. rewrite current_start, <- Hl. split; [by left|]. by intros [?|[? _]].
      * intros k n. rewrite current_start, <- Hq. destruct (decide (id = k)) as [->|Hne].
        { rewrite lookup_insert_eq, E. split; [intros [= <-]; by right|]. by intros [?|[_ ->]]. }
        rewrite lookup_insert_ne by done. split; [by left|]. intros [?|[[= ->] _]]; done.
  - rewrite H in *. split; cbn; try done.
    + by apply jobs_read.
    + intros n. by rewrite current_read.
    + intros id n. by rewrite current_read.
  - rewrite H in *. pose proof (jobs_drop _ _ _ _ _ _ Hj) as Hj'. split; cbn; try done.
    + intros w. destruct (Z.eqb_spec (gen (cached s)) g) as [E|]; [|apply Hv]. intros [= ->]. eapply (jo_read _ _ _ _ Hj); [apply elem_middle; by left|done|done].
    + intros k. rewrite (current_drop _ _ _ _ _ _ _ _ Hj), <- Hl. cbn. destruct (loading (cached s)) as [m|] eqn:El; [|naive_solver].
      destruct (Nat.eqb_spec m n) as [->|Hne]; naive_solver.
    + intros id k. rewrite (current_drop _ _ _ _ _ _ _ _ Hj), <- Hq. split; [|tauto]. intros E. split; [done|].
      apply Hq in E. by eapply current_other.
  - rewrite H in *. pose proof (jobs_drop _ _ _ _ _ _ Hj) as Hj'.
    assert (∀ c, c = workflow_end now g id v read_at (cached s) →
      gen c = gen (cached s) ∧ value c = value (cached s) ∧ states c = states (cached s) ∧ loading c = loading (cached s) ∧ stateLoads c = stateLoads (cached s) ∧
      (∀ k w, workflows c !! k = Some w → floor s <= w.1)) as Hc.
    { intros c ->. unfold workflow_end. destruct (Z.eqb_spec (gen (cached s)) g) as [E|]; [|done]. cbn. split_and!; try done. intros k w. destruct (decide (id = k)) as [->|Hne].
      - rewrite lookup_insert_eq. intros [= <-]. cbn. eapply (jo_read _ _ _ _ Hj); [apply elem_middle; by left|done|done].
      - rewrite lookup_insert_ne by done. intros [Hk _]%map_lookup_filter_Some. by apply (Hw k). }
    destruct (Hc _ eq_refl) as (E1 & E2 & E3 & E4 & E5 & E6). split; cbn; rewrite ?E1, ?E2, ?E3, ?E4, ?E5; try done.
    + intros k. rewrite (current_drop _ _ _ _ _ _ _ _ Hj), <- Hl. split; [|tauto]. intros E. split; [done|]. apply Hl in E. by eapply current_other.
    + intros i k. rewrite (current_drop _ _ _ _ _ _ _ _ Hj), <- Hq. split; [|tauto]. intros E. split; [done|]. apply Hq in E. by eapply current_other.
  - rewrite H in *. pose proof (jobs_drop _ _ _ _ _ _ Hj) as Hj'.
    assert (∀ c, c = state_end now g id n v read_at cut (cached s) →
      gen c = gen (cached s) ∧ value c = value (cached s) ∧ workflows c = workflows (cached s) ∧ loading c = loading (cached s) ∧
      stateLoads c = (if bool_decide (stateLoads (cached s) !! id = Some n) then delete id (stateLoads (cached s)) else stateLoads (cached s)) ∧
      (∀ k q, states c !! k = Some q → floor s <= q.1)) as Hc.
    { intros c ->. unfold state_end. cbv zeta. destruct (Z.eqb_spec (gen (cached s)) g) as [E|]; [destruct cut; cbn [andb negb]|];
        cbn; destruct (bool_decide _); cbn; split_and!; try done; intros k q; destruct (decide (id = k)) as [->|Hne];
        rewrite ?lookup_insert_eq, ?lookup_insert_ne by done; try (by apply Hst);
        try (intros [= <-]; cbn; eapply (jo_read _ _ _ _ Hj); [apply elem_middle; by left|done|done]);
        intros [Hk _]%map_lookup_filter_Some; by apply (Hst k). }
    destruct (Hc _ eq_refl) as (E1 & E2 & E3 & E4 & E5 & E6). split; cbn; rewrite ?E1, ?E2, ?E3, ?E4, ?E5; try done.
    + intros k. rewrite (current_drop _ _ _ _ _ _ _ _ Hj), <- Hl. split; [|tauto]. intros E. split; [done|]. apply Hl in E. by eapply current_other.
    + intros i k. rewrite (current_drop _ _ _ _ _ _ _ _ Hj), <- Hq. cbn [jobNo]. destruct (bool_decide_reflect (stateLoads (cached s) !! id = Some n)) as [En|En].
      * destruct (decide (id = i)) as [->|Hne]; [rewrite lookup_delete_eq; rewrite En; naive_solver|]. rewrite lookup_delete_ne by done. split; [|tauto]. intros E. split; [done|].
        apply Hq in E. eapply (current_other _ _ _ _ _ _ _ _ Hj E). cbn. congruence.
      * split; [|tauto]. intros E. split; [done|]. intros ->. apply En. pose proof E as E'. apply Hq in E'.
        assert (i = id) as ->; [|done]. destruct (decide (i = id)) as [|Hne]; [done|]. exfalso. eapply (current_other _ _ _ _ _ _ _ _ Hj E'); [cbn; congruence|done].
Qed.

Lemma reached_inv s : reached s → sys_inv s.
Proof. induction 1; [apply started_up_inv|by eapply inv_step]. Qed.

Lemma kept_get s now next v g c : sys_inv s → get_look now next (cached s) = (Answered v, g, c) → floor s <= v.
Proof.
  intros Hi H. apply (si_value _ Hi). unfold get_look in H. destruct (value (cached s)) as [x|].
  - destruct (fresh _ _); [by injection H as -> _ _|]. by destruct (loading (cached s)); injection H as -> _ _.
  - destruct (loading (cached s)); discriminate H.
Qed.

Lemma kept_workflow s now id v : sys_inv s → workflow_look now id (cached s) = inl v → floor s <= v.
Proof.
  intros Hi. unfold workflow_look. destruct (workflows (cached s) !! id) as [[w at_]|] eqn:Ew; [|done]. destruct (fresh now at_); [|done].
  intros [= <-]. by apply (si_workflows _ Hi id) in Ew.
Qed.

Lemma kept_state s now next id v c : sys_inv s → state_look now next id (cached s) = (Kept v, c) → floor s <= v.
Proof.
  intros Hi. unfold state_look. destruct (states (cached s) !! id) as [[q at_]|] eqn:Eq.
  - destruct (fresh now at_); [intros [= <- _]; by apply (si_states _ Hi id) in Eq|]. by destruct (stateLoads (cached s) !! id).
  - by destruct (stateLoads (cached s) !! id).
Qed.

Lemma kept_after s a s' : sys_inv s → sys_step s a s' → ∀ v, a = Some (FromCache v) → floor s <= v.
Proof.
  intros Hi Hs. destruct Hs; intros x E; try done.
  - destruct a as [y|]; [|done]. injection E as ->. by eapply kept_get.
  - destruct a as [y|]; [|done]. injection E as ->. by eapply kept_workflow.
  - destruct a as [y| |]; try done. injection E as ->. by eapply kept_state.
Qed.

Lemma same_number l g f next j j' : jobs_ok l g f next → j ∈ l → j' ∈ l → jobNo j = jobNo j' → j = j'.
Proof.
  intros [Hn _ _ _] [i Hi]%list_elem_of_lookup [k Hk]%list_elem_of_lookup E.
  assert (i = k) as ->; [|congruence]. apply (NoDup_lookup (jobNo <$> l) i k (jobNo j)); [done| |]; rewrite list_lookup_fmap; [by rewrite Hi|by rewrite Hk, E].
Qed.

(** ** What a reading may be given, whatever its generation *)

(** The kinds of which a generation has one reading at a time: each request
    reads a workflow itself. *)
Definition single (k : kind) : Prop := match k with KWorkflow _ => False | _ => True end.

(** A step keeps the readings, gives one what it reads, or starts one: then no
    reading of its kind is under way in the generation. *)
Definition from_job (s : Sys) (j : job) : Prop :=
  ∃ j0, j0 ∈ jobs s ∧ jobNo j = jobNo j0 ∧ jobKind j = jobKind j0 ∧ jobGen j = jobGen j0 ∧ jobSince j = jobSince j0 ∧
    (jobRead j = jobRead j0 ∨ jobRead j = Some (changes s)).
Definition new_job (s : Sys) (j : job) : Prop :=
  jobNo j = nextNo s ∧ jobGen j = gen (cached s) ∧ jobSince j = changes s ∧ jobRead j = None ∧
  (single (jobKind j) → ∀ n, ¬ current (jobs s) (gen (cached s)) (jobKind j) n).

Lemma from_itself s j : j ∈ jobs s → from_job s j.
Proof. intros Hj. exists j. by repeat (split; [done|]); left. Qed.

Lemma started_jobs s k g c :
  (∀ g', g = Some g' → g' = gen (cached s) ∧ (single k → ∀ n, ¬ current (jobs s) (gen (cached s)) k n)) →
  ∀ j, j ∈ jobs (started k g s c) → from_job s j ∨ new_job s j.
Proof.
  intros Hg j. destruct g as [g|]; cbn [started jobs]; [|by intros ?; left; apply from_itself].
  destruct (Hg g eq_refl) as [-> Hno]. intros [Hj| ->]%elem_snoc; [left; by apply from_itself|by right].
Qed.

Lemma look_starts s now a g c :
  sys_inv s → get_look now (nextNo s) (cached s) = (a, g, c) →
  ∀ g', g = Some g' → g' = gen (cached s) ∧ (single KLoad → ∀ n, ¬ current (jobs s) (gen (cached s)) KLoad n).
Proof.
  intros Hi H g' ->. assert (g' = gen (cached s) ∧ loading (cached s) = None) as [-> El].
  { unfold get_look in H. destruct (value (cached s)); [destruct (fresh _ _); [done|]|];
      destruct (loading (cached s)); injection H as _ E _; done || (by injection E as <-). }
  split; [done|]. intros _ n Hn%(si_loading _ Hi). congruence.
Qed.

Lemma state_starts s now id a c :
  sys_inv s → state_look now (nextNo s) id (cached s) = (a, c) →
  ∀ g', (match a with Ask g => Some g | _ => None end) = Some g' →
    g' = gen (cached s) ∧ (single (KState id) → ∀ n, ¬ current (jobs s) (gen (cached s)) (KState id) n).
Proof.
  intros Hi H g' Ha. assert (a = Ask (gen (cached s)) ∧ stateLoads (cached s) !! id = None) as [-> El].
  { unfold state_look in H. destruct (states (cached s) !! id) as [[q at_]|]; [destruct (fresh _ _); [injection H as <- _; done|]|];
      destruct (stateLoads (cached s) !! id); by injection H as <- _. }
  injection Ha as <-. split; [done|]. intros _ n Hn%(si_loads _ Hi). congruence.
Qed.

Lemma step_jobs s a s' : sys_inv s → sys_step s a s' → changes s <= changes s' ∧ ∀ j, j ∈ jobs s' → from_job s j ∨ new_job s j.
Proof.
  intros Hi Hs. destruct Hs; cbn [changes jobs].
  1, 2: split; [lia|]; intros j Hj; left; by apply from_itself.
  - split; [by destruct g|]. by apply started_jobs, (look_starts s now a g c).
  - split; [by destruct a|]. apply started_jobs. intros g' Hg. split; [|done]. unfold workflow_look in H.
    destruct (workflows (cached s) !! id) as [[w at_]|]; [destruct (fresh now at_)|]; subst a; congruence.
  - split; [by destruct a|]. by apply started_jobs, (state_starts s now id a c).
  - split; [done|]. intros x [->|Hx]%elem_middle; left.
    + exists j. rewrite H. split; [apply elem_middle; by left|]. by repeat (split; [done|]); right.
    + apply from_itself. rewrite H. apply elem_middle. by right.
  - split; [done|]. intros x Hx. left. apply from_itself. rewrite H. apply elem_middle. by right.
  - split; [done|]. intros x Hx. left. apply from_itself. rewrite H. apply elem_middle. by right.
  - split; [done|]. intros x Hx. left. apply from_itself. rewrite H. apply elem_middle. by right.
Qed.

(** A reading reads after it started, and is the only one of its kind in its
    generation. *)
Record readings_ok (s : Sys) : Prop := {
  rd_since : ∀ j, j ∈ jobs s → jobSince j <= changes s;
  rd_read : ∀ j v, j ∈ jobs s → jobRead j = Some v → jobSince j <= v <= changes s;
  rd_single : ∀ j j', j ∈ jobs s → j' ∈ jobs s → single (jobKind j) → jobKind j = jobKind j' → jobGen j = jobGen j' → jobNo j = jobNo j'
}.

Lemma step_readings s a s' : sys_inv s → readings_ok s → sys_step s a s' → readings_ok s'.
Proof.
  intros Hi [H1 H2 H3] Hs. destruct (step_jobs _ _ _ Hi Hs) as [Hc Hj]. split.
  - intros j Hin. destruct (Hj j Hin) as [(j0 & Hin0 & _ & _ & _ & -> & _)|(_ & _ & -> & _)]; [|done]. specialize (H1 j0 Hin0). lia.
  - intros j v Hin Hr. destruct (Hj j Hin) as [(j0 & Hin0 & _ & _ & _ & -> & Hor)|(_ & _ & _ & Hn & _)]; [|congruence].
    destruct Hor as [E|E]; [specialize (H2 j0 v Hin0 ltac:(congruence)); lia|].
    specialize (H1 j0 Hin0). assert (v = changes s) as -> by congruence. lia.
  - intros j j' Hin Hin' Hk Ek Eg.
    destruct (Hj j Hin) as [(j0 & Hin0 & -> & Ek0 & Eg0 & _)|(-> & Eg0 & _ & _ & Hno)];
      destruct (Hj j' Hin') as [(j1 & Hin1 & -> & Ek1 & Eg1 & _)|(-> & Eg1 & _ & _ & Hno')].
    + apply H3; congruence.
    + exfalso. rewrite <- Ek in Hno'. apply (Hno' Hk (jobNo j0)). exists j0. split_and!; congruence.
    + exfalso. apply (Hno Hk (jobNo j1)). exists j1. split_and!; congruence.
    + done.
Qed.

Lemma reached_readings s : reached s → readings_ok s.
Proof.
  induction 1 as [|s a s' Hs IH Hst]; [by split; [intros ? ?%not_elem_of_nil|intros ? ? ?%not_elem_of_nil|intros ? ? ?%not_elem_of_nil]|].
  apply (step_readings s a s'); [by apply reached_inv|done|done].
Qed.

(** A request that read for itself. *)
Lemma own_read s a s' : readings_ok s → sys_step s a s' → ∀ asked v, a = Some (OwnRead asked v) → asked <= v <= changes s.
Proof.
  intros [_ Hr _] Hs. destruct Hs; intros asked w E; try done; try (by destruct a).
  all: injection E as -> ->; eapply (Hr (mkJob _ _ _ _ _)); [rewrite H; apply elem_middle; by left|done].
Qed.

(** A reading under way that an action overtook leaves the cache as it is. *)
Lemma overtaken s j now v read_at cut :
  sys_inv s → j ∈ jobs s → jobGen j ≠ gen (cached s) →
  (jobKind j = KLoad → refresh_end now (jobGen j) (jobNo j) v (cached s) = cached s) ∧
  (∀ id, jobKind j = KWorkflow id → workflow_end now (jobGen j) id v read_at (cached s) = cached s) ∧
  (∀ id, jobKind j = KState id → state_end now (jobGen j) id (jobNo j) v read_at cut (cached s) = cached s).
Proof.
  intros Hi Hj Hg. assert (∀ k, ¬ current (jobs s) (gen (cached s)) k (jobNo j)) as Hno.
  { intros k (j' & Hj' & _ & Hg' & Hn). apply Hg. by rewrite <- (same_number _ _ _ _ _ _ (si_jobs _ Hi) Hj' Hj Hn). }
  split_and!; intros *; intros Hk.
  - unfold refresh_end. destruct (Z.eqb_spec (gen (cached s)) (jobGen j)); [congruence|].
    pose proof (Hno KLoad) as Hl. rewrite <- (si_loading _ Hi) in Hl. destruct (cached s) as [r va lo ge wo st sl]. cbn in *.
    destruct lo as [l|]; [|done]. by destruct (Nat.eqb_spec l (jobNo j)) as [->|].
  - unfold workflow_end. by destruct (Z.eqb_spec (gen (cached s)) (jobGen j)).
  - unfold state_end. destruct (Z.eqb_spec (gen (cached s)) (jobGen j)); [congruence|]. cbn [andb].
    pose proof (Hno (KState id)) as Hl. rewrite <- (si_loads _ Hi) in Hl. by rewrite bool_decide_false.
Qed.

(** C18. What a page is shown follows the actions done before it. However the
    requests, the loads and the invalidations interleave, a request answered
    from the cache, whether the states of the sessions, of a workflow or of a
    participant, is given what Temporal told after the last invalidation. One
    that reads a workflow or a participant itself is given what Temporal told
    after it asked, and after the last invalidation unless one overtook its
    reading. An invalidation does not stop what runs: loads and queries of the
    generations before it go on beside those of this one, and leave the cache
    as it is when they end. Of one generation, whichever it is, one load runs
    at a time and one query per participant; and a request waits only for one
    of this generation under way. *)
Theorem shown_after_actions s :
  reached s →
  (∀ v s', sys_step s (Some (FromCache v)) s' → floor s <= v) ∧
  (∀ asked v s', sys_step s (Some (OwnRead asked v)) s' → asked <= v <= changes s) ∧
  (∀ j v, j ∈ jobs s → jobGen j = gen (cached s) → jobRead j = Some v → floor s <= v) ∧
  (∀ j now v read_at cut, j ∈ jobs s → jobGen j ≠ gen (cached s) →
     match jobKind j with
     | KLoad => refresh_end now (jobGen j) (jobNo j) v (cached s)
     | KWorkflow id => workflow_end now (jobGen j) id v read_at (cached s)
     | KState id => state_end now (jobGen j) id (jobNo j) v read_at cut (cached s)
     end = cached s) ∧
  (∀ j j', j ∈ jobs s → j' ∈ jobs s → single (jobKind j) → jobKind j = jobKind j' → jobGen j = jobGen j' → j = j') ∧
  (∀ now n g c, get_look now (nextNo s) (cached s) = (Wait n, g, c) → current (jobs (started KLoad g s c)) (gen (cached s)) KLoad n) ∧
  (∀ now id n c, state_look now (nextNo s) id (cached s) = (WaitQuery n, c) → current (jobs s) (gen (cached s)) (KState id) n).
Proof.
  intros Hs. pose proof (reached_inv s Hs) as Hi. pose proof Hi as [_ Hj _ _ _ Hl Hq]. pose proof (reached_readings s Hs) as [_ _ Hsg]. split_and!.
  - intros v s' Hst. by apply (kept_after s (Some (FromCache v)) s').
  - intros asked v s' Hst. by apply (own_read s (Some (OwnRead asked v)) s' (reached_readings s Hs)).
  - intros j v Hin Hg Hr. by apply (jo_read _ _ _ _ Hj j).
  - intros j now v read_at cut Hin Hg. destruct (overtaken s j now v read_at cut Hi Hin Hg) as (H1 & H2 & H3).
    destruct (jobKind j) as [|id|id]; auto.
  - intros j j' Hin Hin' Hk Ek Eg. apply (same_number _ _ _ _ _ _ Hj Hin Hin'). by apply Hsg.
  - intros now n g c. unfold get_look. destruct (value (cached s)) as [v|]; [destruct (fresh _ _); [done|by destruct (loading (cached s))]|].
    destruct (loading (cached s)) as [m|] eqn:El; intros [= <- <- <-]; [by apply Hl|]. cbn. apply current_start. by right.
  - intros now id n c. unfold state_look. destruct (states (cached s) !! id) as [[q at_]|]; [destruct (fresh now at_); [done|]|];
      destruct (stateLoads (cached s) !! id) eqn:E; intros [= <- _]; by apply Hq.
Qed.

(** A load answered, an action, and the load of the page that follows it. *)
Definition demo_started : Sys := started KLoad (Some 0) started_up (mkCache 0 None (Some 0%nat) 0 ∅ ∅ ∅).
Definition demo_read : Sys := mkSys (cached demo_started) 0 0 [mkJob 0 KLoad 0 0 (Some 0)] 1.
Definition demo_loaded : Sys := mkSys (refresh_end 5 0 0 0 (cached demo_read)) 0 0 [] 1.
Definition demo_acted : Sys := mkSys (invalidate (cached demo_loaded)) 1 1 [] 1.

Lemma demo_loaded_reached : reached demo_loaded.
Proof.
  assert (reached demo_started) as H1 by (eapply reached_step; [apply reached_start|exact (Looks 1 started_up (Wait 0) (Some 0) _ eq_refl)]).
  assert (reached demo_read) as H2 by (eapply reached_step; [exact H1|exact (Reads demo_started [] [] (mkJob 0 KLoad 0 0 None) eq_refl eq_refl)]).
  eapply reached_step; [exact H2|]. exact (LoadEnds 5 demo_read [] [] 0 0 0 0 eq_refl).
Qed.

Lemma shown_after_actions_witness :
  (∀ v s', sys_step demo_loaded (Some (FromCache v)) s' → 0 <= v) ∧
  (∃ c, get_look 6 1 (cached demo_acted) = (Wait 1, Some 1, c)) ∧ (∀ v s', sys_step demo_acted (Some (FromCache v)) s' → 1 <= v).
Proof.
  assert (reached demo_acted) as Ha.
  { eapply reached_step; [|exact (Invalidates (mkSys (cached demo_loaded) 1 0 [] 1))]. eapply reached_step; [apply demo_loaded_reached|]. exact (Changes demo_loaded). }
  split; [exact (proj1 (shown_after_actions demo_loaded demo_loaded_reached))|]. split; [by eexists|]. exact (proj1 (shown_after_actions demo_acted Ha)).
Defined.
