(* ===== verification/ForkFlow.v ===== *)
(** * A fork's summary and its reports, from the click to the post
    (src/workflow/fork.go, src/workflow/report.go, src/session/report.go)

    The workflows run on what their activities end with, Temporal's retries
    done: a value, or the text of the error. The service decides whether a
    report starts; what it is shown of a workflow is a parameter (StatusCache.v
    keeps it). The log lines and the activities' timeouts are not modelled. *)

From S2P Require Import Prelude GoStr Utf8 Json Keys Message Store Order Access Convert CallInputs Participant Working AgentData LLMCall Table Users Agents Sessions Deliver SessionOps Transcript StatusCache.
Open Scope string_scope.
Open Scope Z_scope.
Open Scope list_scope.

(** ** The workflows *)

Definition EventForkReady : string := "fork_ready".
Definition EventForkFailed : string := "fork_failed".
Definition EventForkReport : string := "fork_report".
Definition EventForkReported : string := "fork_reported".
Definition EventForkReportFailed : string := "fork_report_failed".

(** An event sent to a session's members, its payload's fields besides its
    type. *)
Record notified := mkNotified { NoSession : string; NoEvent : string; NoPayload : list (string * string) }.

Definition ForkSessionWorkflow (summarize : SummarizeConversationInput → string + SummarizeConversationOutput) (post : string → string → string + Z)
    (in_ : ForkSessionInput) : option string * list notified :=
  match summarize (mkSummarize (FkParent in_) (FkUpTo in_) (FkPurpose in_) (FkModel in_)) with
  | inl err => (Some ("summarize parent session: " +:+ err), [mkNotified (FkFork in_) EventForkFailed [("error", err)]])
  | inr out =>
      let summary :=
        if Truncated out then "(The parent conversation was too long: its beginning is not covered by this summary.)" +:+ blank +:+ Summary out else Summary out in
      match post (FkFork in_) summary with
      | inl err => (Some ("persist summary: " +:+ err), [mkNotified (FkFork in_) EventForkFailed [("error", err)]])
      | inr _ => (None, [mkNotified (FkFork in_) EventForkReady []])
      end
  end.

Definition ReportWorkflowID (forkSessionID : string) (from : Z) : string := "report-" +:+ forkSessionID +:+ "-" +:+ itoa from.

Record ReportToParentInput := mkReportInput {
  RpFork : string;
  RpParent : string;
  RpTitle : string;
  RpPurpose : string;
  RpFrom : Z;
  RpUpTo : Z;
  RpReporter : string;
  RpReporterName : string;
  RpModel : string
}.

Definition report_input (in_ : ReportToParentInput) : SummarizeForkReportInput :=
  mkSummarizeReport (RpFork in_) (RpFrom in_) (RpUpTo in_) (RpPurpose in_) (RpModel in_).

Definition post_input (in_ : ReportToParentInput) (report : string) : PostForkReportInput :=
  mkPostReport (RpFork in_) (RpParent in_) (RpTitle in_) (RpFrom in_) (RpUpTo in_) (RpReporter in_) (RpReporterName in_) report.

Definition ReportToParentWorkflow (summarize : SummarizeForkReportInput → string + SummarizeConversationOutput) (post : PostForkReportInput → string + Z)
    (in_ : ReportToParentInput) : option string * list notified :=
  let failed step err := (Some (step +:+ ": " +:+ err), [mkNotified (RpFork in_) EventForkReportFailed [("error", err)]]) in
  match summarize (report_input in_) with
  | inl err => failed "summarize the fork" err
  | inr out =>
      let report :=
        if Truncated out then "(This part of the fork was too long: its beginning is not covered by this report.)" +:+ blank +:+ Summary out else Summary out in
      match post (post_input in_ report) with
      | inl err => failed "post the report" err
      | inr messageID =>
          let id := itoa messageID in
          (None, [mkNotified (RpParent in_) EventForkReport [("fork_session_id", RpFork in_); ("message_id", id)];
                  mkNotified (RpFork in_) EventForkReported
                    [("message", "Rapport envoyé à la session parente."); ("parent_session_id", RpParent in_); ("message_id", id)]])
      end
  end.

(** ** What a report covers *)

Definition latest_turn (msgs : list MessageWithID) : string :=
  fold_left (λ latest m, match TurnOf (Key m) with Some turn => turn | None => latest end) msgs "".

Definition answered_calls (msgs : list MessageWithID) : list string := omap (λ m, ToolCallID <$> Result (Msg m)) msgs.

(** A message of the latest turn with a call no result answers. *)
Definition waits_for_result (latest : string) (answered : list string) (m : MessageWithID) : bool :=
  match TurnOf (Key m) with
  | Some turn => String.eqb turn latest && existsb (λ tc, negb (contains answered (CallID tc))) (ToolCalls (Msg m))
  | None => false
  end.

Fixpoint first_index {A} (p : A → bool) (l : list A) : nat := match l with [] => 0 | x :: l => if p x then 0 else S (first_index p l) end.

Definition pendingCall (msgs : list MessageWithID) : nat := first_index (waits_for_result (latest_turn msgs) (answered_calls msgs)) msgs.

(** [reportRange]: from, up to, and whether there is something to report. *)
Definition reportRange (fork : Session) (msgs : list MessageWithID) : Z * Z * bool :=
  let from := LastReportedMessageID fork in
  let part := take (pendingCall msgs) msgs in
  (from, match last part with Some m => MsgID m | None => 0 end, existsb (λ m, (from <? MsgID m) && Reportable (Msg m)) part).

(** ** Reporting (src/session/report.go) *)

Inductive ReportError := ErrNotAFork | ErrNoParent | ErrNotParentMember | ErrNothingToReport | ErrReportPending | ErrReportNotFound | ErrReportStart.

Definition refusal (fork : Session) (me : string) (db : SDB) : option ReportError :=
  if ForkedAtMessageID fork =? 0 then Some ErrNotAFork
  else if String.eqb (ParentSessionID fork) "" then Some ErrNoParent
  else if negb (IsSessionMember (ParentSessionID fork) me db) then Some ErrNotParentMember
  else None.

Inductive workflow_status := WUnspecified | WRunning | WCompleted | WFailed | WCanceled | WTerminated | WContinued | WTimedOut.

Definition reportFailureShown : Z := 15 * minute.

Record ReportState := mkReportState {
  Refused_ : option ReportError;
  SummaryIsPending : bool;
  Pending : bool;
  NothingNew : bool;
  AgentWorking : bool;
  ReportFailed : bool;
  RsParent : string;
  RsLastID : Z;
  RsLastAt : option time
}.

Definition CanReport (r : ReportState) : bool := is_none (Refused_ r) && negb (SummaryIsPending r) && negb (Pending r) && negb (NothingNew r).

Section Reports.
(** What is shown of a workflow: its status and when it closed. *)
Context (shown : string → workflow_status * time).
(** Whether Temporal starts a workflow under an ID: not one that runs, nor one
    that completed. *)
Context (start : string → bool).
Context (model : string).

Definition is_running (id : string) : bool := match (shown id).1 with WRunning => true | _ => false end.

Definition agentWorking (statuses : gmap string Status) (forkID : string) : bool :=
  match status_of statuses forkID with
  | StatusWaiting => true
  | StatusWorking => negb (ForkRunning is_running forkID)
  | _ => false
  end.

Definition summary_pending (fork : Session) : bool := match ForkSummaryState is_running fork with SummaryPending => true | _ => false end.

Definition ReportState_ (now : time) (fork : Session) (msgs : list MessageWithID) (me : string) (statuses : gmap string Status) (db : SDB) : ReportError + ReportState :=
  let st refused summary pending nothing working failed :=
    mkReportState refused summary pending nothing working failed (ParentSessionID fork) (LastReportID fork) (LastReportedAt fork) in
  match refusal fork me db with
  | Some ErrNotAFork => inl ErrNotAFork
  | Some e => inr (st (Some e) false false false false false)
  | None =>
      let '(_, _, ok) := reportRange fork msgs in
      let '(status, closed) := shown (ReportWorkflowID (SessionID fork) (LastReportedMessageID fork)) in
      inr (st None (summary_pending fork) (match status with WRunning => true | _ => false end) (negb ok) (agentWorking statuses (SessionID fork))
             (match status with WFailed | WTimedOut | WTerminated | WCanceled => time_sub now closed <? reportFailureShown | _ => false end))
  end.

Definition started_report (fork : Session) (from upTo : Z) (me meName : string) : ReportToParentInput :=
  mkReportInput (SessionID fork) (ParentSessionID fork) (cmp_or (Title fork) "Fork") (ForkPurpose fork) from upTo me meName model.

Definition ReportToParent (forkID me meName : string) (db : SDB) : (ReportError + (string * ReportToParentInput)) * list act :=
  match GetSession forkID db with
  | None => (inl ErrReportNotFound, [])
  | Some fork =>
      match refusal fork me db with
      | Some e => (inl e, [])
      | None =>
          if summary_pending fork then (inl ErrReportPending, [])
          else
            let '(from, upTo, ok) := reportRange fork (LoadMessagesUpTo (SessionID fork) 0 (messages db)) in
            if negb ok then (inl ErrNothingToReport, [])
            else if start (ReportWorkflowID (SessionID fork) from) then
              (inr (ReportWorkflowID (SessionID fork) from, started_report fork from upTo me meName), [Invalidated])
            else (inl ErrReportStart, [Invalidated])
      end
  end.
End Reports.

(** ** A report that starts has something to say *)

(** ** The messages of a range *)

Definition id_lt (a b : MessageWithID) : Prop := MsgID a < MsgID b.

Lemma session_sorted s t : messages_ok t → StronglySorted id_lt (session_rows s t).
Proof.
  intros Hok. rewrite session_rows_eq by done. pose proof (sorted_filter (λ r, String.eqb (RowSession r) s) _ (mo_sorted _ Hok)) as Hs.
  induction Hs as [|r l Hl IH Hf]; cbn; constructor; [done|]. apply Forall_fmap. eapply Forall_impl; [exact Hf|]. done.
Qed.

Lemma session_positive s t m : messages_ok t → m ∈ session_rows s t → 0 < MsgID m.
Proof.
  intros Hok. rewrite session_rows_eq by done. intros (r & -> & [Hr _]%list_elem_of_In%filter_In)%list_elem_of_fmap. apply list_elem_of_In in Hr.
  apply (mo_below _ Hok) in Hr. unfold row_id in Hr. lia.
Qed.

(** The messages up to the last one of a prefix are the prefix. *)
Lemma filter_all {A} (p : A → bool) l : (∀ x, x ∈ l → p x = true) → List.filter p l = l.
Proof. induction l as [|x l IH]; intros H; [done|]. cbn. rewrite H by by left. f_equal. apply IH. intros y Hy. apply H. by right. Qed.

Lemma filter_nothing {A} (p : A → bool) l : (∀ x, x ∈ l → p x = false) → List.filter p l = [].
Proof. induction l as [|x l IH]; intros H; [done|]. cbn. rewrite H by by left. apply IH. intros y Hy. apply H. by right. Qed.

Lemma filter_prefix l k m :
  StronglySorted id_lt l → last (take k l) = Some m → List.filter (λ x, MsgID x <=? MsgID m) l = take k l.
Proof.
  intros Hs Hl. apply last_Some in Hl as [p Hp]. rewrite <- (take_drop k l) in Hs |- * at 1. rewrite Hp in *.
  apply StronglySorted_app in Hs as (Hcross & Hs1 & _). apply StronglySorted_app in Hs1 as (Hlast & _ & _).
  rewrite !List.filter_app. rewrite (filter_nothing _ (drop k l)), (filter_all _ p); [|..].
  - cbn. by rewrite Z.leb_refl, app_nil_r.
  - intros x Hx. apply Z.leb_le. specialize (Hlast x m Hx ltac:(by left)). unfold id_lt in Hlast. lia.
  - intros x Hx. apply Z.leb_gt. apply (Hcross m x); [apply elem_of_app; right; by left|done].
Qed.

Lemma last_of_take {A} (l : list A) k m : last (take k l) = Some m → m ∈ l.
Proof.
  intros [p E]%last_Some. assert (m ∈ take k l) as (i & Hi & _)%elem_of_take by (rewrite E; apply elem_of_app; right; by left).
  by eapply list_elem_of_lookup_2.
Qed.

Lemma loaded_prefix s t k m :
  messages_ok t → last (take k (session_rows s t)) = Some m → LoadMessagesUpTo s (MsgID m) t = take k (session_rows s t).
Proof.
  intros Hok Hl. unfold LoadMessagesUpTo.
  pose proof (last_of_take _ _ _ Hl) as Hm.
  pose proof (session_positive s t m Hok Hm) as Hpos.
  rewrite <- (filter_prefix _ k m); [|by apply session_sorted|done]. apply List.filter_ext. intros x. by destruct (Z.eqb_spec (MsgID m) 0); [lia|].
Qed.

(** Rows added since come after it. *)
Lemma loaded_later s t t' m :
  messages_ok t → messages_ok t' → extends t t' → m ∈ session_rows s t → LoadMessagesUpTo s (MsgID m) t' = LoadMessagesUpTo s (MsgID m) t.
Proof.
  intros Hok Hok' [[new Hn] _] Hm. unfold LoadMessagesUpTo. pose proof (session_positive s t m Hok Hm) as Hpos.
  assert (session_rows s t' = session_rows s t ++ (RowMsg <$> List.filter (λ r, String.eqb (RowSession r) s) new)) as E.
  { rewrite !session_rows_eq by done. by rewrite Hn, List.filter_app, fmap_app. }
  pose proof (session_sorted s t' Hok') as Hs. rewrite E in *. rewrite List.filter_app. apply StronglySorted_app in Hs as (Hc & _ & _).
  rewrite (filter_nothing _ (RowMsg <$> _)); [by rewrite app_nil_r|]. intros x Hx. apply orb_false_intro; [apply Z.eqb_neq; lia|]. apply Z.leb_gt. by apply Hc.
Qed.

(** ** The range *)

Lemma first_index_before {A} (p : A → bool) l x : x ∈ take (first_index p l) l → p x = false.
Proof.
  induction l as [|y l IH]; cbn; [by intros ?%not_elem_of_nil|]. destruct (p y) eqn:E; [by intros ?%not_elem_of_nil|]. cbn.
  intros [->|H]%elem_of_cons; [done|by apply IH].
Qed.

Lemma range_spec fork msgs from upTo :
  reportRange fork msgs = (from, upTo, true) →
  from = LastReportedMessageID fork ∧
  ∃ m x, last (take (pendingCall msgs) msgs) = Some m ∧ MsgID m = upTo ∧ x ∈ take (pendingCall msgs) msgs ∧ from < MsgID x ∧ Reportable (Msg x) = true.
Proof.
  unfold reportRange. intros [= <- Hu [x [Hx [Hf%Z.ltb_lt Hr]%andb_prop]]%existsb_exists]. split; [done|]. apply list_elem_of_In in Hx.
  destruct (last (take (pendingCall msgs) msgs)) as [m|] eqn:El; [|by apply last_None in El; rewrite El in Hx; apply not_elem_of_nil in Hx].
  by exists m, x.
Qed.

(** A report that starts has something to say, and says it whenever it
    runs. It starts only for a member of the fork's parent, once the fork's
    summary is settled, on the messages after the last one reported; no call of
    the fork's latest turn is in it without its result; and however late the
    report is written, with whatever was added to the fork meanwhile, it is
    written from these messages alone: the activity never answers that there is
    nothing to report, or no such message. *)
Theorem report_has_something shown start model forkID me meName db id in_ acts :
  messages_ok (messages db) →
  ReportToParent shown start model forkID me meName db = (inr (id, in_), acts) →
  ∃ fork, GetSession forkID db = Some fork ∧
    RpFork in_ = SessionID fork ∧ id = ReportWorkflowID (SessionID fork) (RpFrom in_) ∧ RpReporter in_ = me ∧
    RpFrom in_ = LastReportedMessageID fork ∧ RpFrom in_ < RpUpTo in_ ∧
    ForkedAtMessageID fork ≠ 0 ∧ ParentSessionID fork ≠ "" ∧ IsSessionMember (RpParent in_) me db = true ∧ RpParent in_ = ParentSessionID fork ∧
    (SummaryMessageID fork ≠ 0 ∨ (shown (ForkWorkflowID (SessionID fork))).1 ≠ WRunning) ∧
    (let all := LoadMessagesUpTo (SessionID fork) 0 (messages db) in
     ∀ m tc, m ∈ LoadMessagesUpTo (SessionID fork) (RpUpTo in_) (messages db) → TurnOf (Key m) = Some (latest_turn all) → tc ∈ ToolCalls (Msg m) →
       CallID tc ∈ answered_calls all) ∧
    ∀ chat private t', messages_ok t' → extends (messages db) t' →
      SummarizeForkReport chat private (report_input in_) t' = SummarizeForkReport chat private (report_input in_) (messages db) ∧
      let '(system, request, truncated) := report_prompt private (report_input in_) (LoadMessagesUpTo (RpFork in_) (RpUpTo in_) (messages db)) in
      SummarizeForkReport chat private (report_input in_) t' =
      match summarize chat model system request with inl e => inl e | inr report => inr (mkSummarized report truncated) end.
Proof.
  intros Hok H. unfold ReportToParent in H. destruct (GetSession forkID db) as [fork|]; [|done]. exists fork. split; [done|].
  destruct (refusal fork me db) as [e|] eqn:Href; [done|]. destruct (summary_pending shown fork) eqn:Hsum; [done|].
  set (all := LoadMessagesUpTo (SessionID fork) 0 (messages db)) in *.
  destruct (reportRange fork all) as [[from upTo] ok] eqn:Hr. destruct ok; [|done]. cbn [negb] in H. destruct (start _); [|done]. injection H as <- <- _.
  unfold started_report. cbn [RpFork RpFrom RpUpTo RpReporter RpParent report_input].
  destruct (range_spec _ _ _ _ Hr) as (-> & m & x & Hl & <- & Hx & Hxf & Hxr).
  assert (all = session_rows (SessionID fork) (messages db)) as Eall by (by apply filter_all).
  rewrite Eall in Hl, Hx. pose proof (loaded_prefix _ _ _ _ Hok Hl) as Hload. pose proof (last_of_take _ _ _ Hl) as Hm.
  assert (MsgID x <= MsgID m) as Hxm.
  { rewrite <- Hload in Hx. unfold LoadMessagesUpTo in Hx. apply list_elem_of_In, filter_In in Hx as [_ Hx]. pose proof (session_positive _ _ _ Hok Hm).
    apply orb_prop in Hx as [E%Z.eqb_eq|E%Z.leb_le]; lia. }
  unfold refusal in Href. destruct (Z.eqb_spec (ForkedAtMessageID fork) 0); [done|]. destruct (String.eqb_spec (ParentSessionID fork) ""); [done|].
  destruct (IsSessionMember (ParentSessionID fork) me db) eqn:Hmem; [|done]. split_and!; try done; [lia| | |].
  - unfold summary_pending, ForkSummaryState, ForkRunning, is_running in Hsum. destruct (Z.eqb_spec (SummaryMessageID fork) 0); [right|by left]. cbn [negb] in Hsum.
    by destruct (shown _) as [[] ?].
  - cbv zeta. rewrite Hload. intros y tc Hy Ht Htc. rewrite <- Eall in Hy. apply first_index_before in Hy. unfold waits_for_result in Hy. rewrite Ht, String.eqb_refl in Hy. cbn [andb] in Hy.
    destruct (contains (answered_calls all) (CallID tc)) eqn:Ec; [by apply contains_spec in Ec|]. exfalso.
    assert (existsb (λ tc, negb (contains (answered_calls all) (CallID tc))) (ToolCalls (Msg y)) = true); [|congruence].
    apply existsb_exists. exists tc. rewrite <- list_elem_of_In, Ec. done.
  - intros chat private t' Hok' Hext. unfold SummarizeForkReport, report_input. cbn [SrSession SrUpTo SrAfter SrPurpose SrModel RpFork RpUpTo RpFrom RpPurpose RpModel].
    rewrite (loaded_later _ _ _ _ Hok Hok' Hext Hm). split; [done|]. rewrite Hload.
    assert (∀ l, last l = Some m → ends_at (MsgID m) l = true) as He by (intros l E; unfold ends_at; rewrite E; apply Z.eqb_refl). rewrite (He _ Hl).
    cbn [negb]. replace (existsb _ (part_of _ _)) with true; [done|]. symmetry. apply existsb_exists. exists x. split; [|done].
    apply filter_In. split; [by apply list_elem_of_In|]. unfold Reportable in Hxr. apply andb_prop in Hxr as [-> _]. cbn [andb]. by apply Z.ltb_lt.
Qed.

(** A fork whose agent has answered once. *)
Definition demo_messages : Messages :=
  (AppendMessage 4 "f" "m3.jarvis/0" (mkMessage RoleAssistant (marshal "done") "" "jarvis" "Jarvis" "" [] None None None "" None "" "")
    (AppendMessage 3 "f" "msg:b" (mkMessage RoleUser (marshal "go") "u1" "" "Ann" "" [] None None None "" None "" "")
      (AppendMessage 2 "f" ForkSummaryKey (summary_message "the plan") noMessages).2).2).2.
Definition demo_fork : Session := mkSession "f" "u1" "Ship it" "jarvis" "web" "" 2 AgentModeAuto "p" 1 "u1" "Ship it" 1 0 0 None.
Definition demo_db : SDB := mkSDB [] [demo_fork] [mkMember "f" "u1" "u1" 2; mkMember "p" "u1" "u1" 1] demo_messages ∅.
Definition demo_shown (id : string) : workflow_status * time := (WUnspecified, 0).
Definition demo_report := ReportToParent demo_shown (λ _, true) "m" "f" "u1" "Ann" demo_db.

Lemma append_ok now s k m t : messages_ok t → messages_ok (AppendMessage now s k m t).2.
Proof. intros Hok. pose proof (insert_row_ok now s k m t Hok) as H. unfold AppendMessage. by destruct (insert_row now s k m t) as [[r b] t']. Qed.

Lemma report_has_something_witness :
  messages_ok demo_messages ∧
  ∃ id in_ acts, demo_report = (inr (id, in_), acts) ∧ RpFrom in_ < RpUpTo in_ ∧
    ∀ chat, SummarizeForkReport chat None (report_input in_) (AppendMessage 5 "f" "msg:c" (plainMessage RoleUser "later") demo_messages).2 =
            SummarizeForkReport chat None (report_input in_) demo_messages.
Proof.
  assert (messages_ok demo_messages) as Hok by (by repeat apply append_ok; apply noMessages_ok). split; [done|]. eexists _, _, _. split; [reflexivity|].
  destruct (report_has_something demo_shown (λ _, true) "m" "f" "u1" "Ann" demo_db _ _ _ Hok eq_refl) as (fork & _ & _ & _ & _ & _ & Hlt & _ & _ & _ & _ & _ & _ & Hs).
  split; [exact Hlt|]. intros chat. refine (proj1 (Hs chat None (AppendMessage 5 "f" "msg:c" (plainMessage RoleUser "later") demo_messages).2 _ _)); [by apply append_ok|].
  apply (insert_row_extends 5 "f" "msg:c" (plainMessage RoleUser "later") demo_messages).
Defined.
