(* ===== verification/CodingData.v ===== *)
(** * What a coding run says of itself (src/workflow/claude_code.go,
    src/workflow/claude_code_write.go)

    The output of analyze_repo and implement_feature, what the calling agent
    reads of it, how the errors of a run are told, and the names of its
    branches. A float64 is its 64 bits; the tables of Unicode's letters and
    digits and Go's %.4f are parameters. *)

From S2P Require Import Prelude GoStr Utf8 Message MachineMessage MachineInputs CallInputs AgentData AgentTurn.
Open Scope string_scope.
Open Scope Z_scope.
Open Scope list_scope.

(** ** Parameters *)

Class GoText := mkGoText { ToLower : string → string; UnicodeDigit : Z → bool }.

Abbreviation float64 := Z (only parsing).

Class GoFloat := format_4f : float64 → string.

(** [max(x, 0)]: the bits of what is negative have the sign's. *)
Definition max_zero (x : float64) : float64 :=
  if x <? 2 ^ 63 then x else if 0x7ff0000000000000 <? x - 2 ^ 63 then x else 0.

(** ** Go's durations, sizes *)

(** The last [prec] digits of [v] as a fraction, without its trailing zeros. *)
Fixpoint frac (prec : nat) (v : Z) (shown : bool) (acc : string) : string :=
  match prec with
  | O => if shown then String "." acc else acc
  | S prec =>
      let d := v mod 10 in
      let shown := shown || negb (d =? 0) in
      frac prec (v / 10) shown (if shown then String (digit d) acc else acc)
  end.

(** [d.String()] *)
Definition duration_string (d : Z) : string :=
  let u := Z.abs d in
  let sign := if d <? 0 then "-" else "" in
  let with_frac n unit_ := itoa (u / 10 ^ Z.of_nat n) +:+ frac n u false "" +:+ unit_ in
  sign +:+
  (if u =? 0 then "0s"
   else if u <? 1000 then itoa u +:+ "ns"
   else if u <? 1000000 then with_frac 3%nat "µs"
   else if u <? second then with_frac 6%nat "ms"
   else
     let secs := u / second in
     let tail := itoa (secs mod 60) +:+ frac 9 u false "" +:+ "s" in
     let minutes := secs / 60 in
     if minutes =? 0 then tail
     else if minutes / 60 =? 0 then itoa minutes +:+ "m" +:+ tail
     else itoa (minutes / 60) +:+ "h" +:+ itoa (minutes mod 60) +:+ "m" +:+ tail).

Example durations :
  (duration_string <$> [0; 1; 1500; 2 * millisecond; 45 * minute; 2 * hour; 2 * minute + 1500 * millisecond; -second]) =
  ["0s"; "1ns"; "1.5µs"; "2ms"; "45m0s"; "2h0m0s"; "2m1.5s"; "-1s"].
Proof. vm_compute. reflexivity. Qed.

(** [%.1f] of [n / unit], exact below 2^53: the nearest tenth, halves to the even one. *)
Definition tenths (n unit_ : Z) : string :=
  let q := n * 10 / unit_ in
  let r := n * 10 mod unit_ in
  let t := if unit_ <? 2 * r then q + 1 else if (2 * r =? unit_) && Z.odd q then q + 1 else q in
  itoa (t / 10) +:+ "." +:+ itoa (t mod 10).

Definition FormatSize (n : Z) : string :=
  if n <? 1024 then itoa n +:+ " B"
  else if n <? 1024 * 1024 then tenths n 1024 +:+ " KB"
  else tenths n (1024 * 1024) +:+ " MB".

Example sizes : (FormatSize <$> [0; 1023; 1024; 1536; 1075; 1048575; 5 * 1024 * 1024]) = ["0 B"; "1023 B"; "1.0 KB"; "1.5 KB"; "1.0 KB"; "1024.0 KB"; "5.0 MB"].
Proof. vm_compute. reflexivity. Qed.

(** ** The output *)

Record CommitInfo := mkCommit { SHA : string; Subject : string }.

Record runProgress := mkProgress { PgEvents : Z; PgToolCalls : Z; PgLastTool : string }.

Record ClaudeCodeOutput := mkCoding {
  CcContent : string;
  CcReport : string;
  CcError : string;
  CcRepo : string;
  CcRef : string;
  CcCommit : string;
  CcMachine : string;
  CcNote : string;
  CcBranch : string;
  CcCommits : list CommitInfo;
  CcPushed : bool;
  CcDirty : bool;
  CcFiles : list FileRef;
  CcUnpublished : list string;
  CcBundle : option FileRef;
  CcBundleError : string;
  CcSkills : list string;
  CcSkillsMissing : list string;
  CcSkillsVersion : string;
  CcCostUSD : float64;
  CcPaidBy : string;
  CcDurationMS : Z;
  CcNumTurns : Z;
  CcToolUses : gmap string Z;
  CcInterrupted : bool;
  CcProgress : option runProgress
}.

Definition with_content (s : string) (o : ClaudeCodeOutput) : ClaudeCodeOutput :=
  mkCoding s (CcReport o) (CcError o) (CcRepo o) (CcRef o) (CcCommit o) (CcMachine o) (CcNote o) (CcBranch o) (CcCommits o)
    (CcPushed o) (CcDirty o) (CcFiles o) (CcUnpublished o) (CcBundle o) (CcBundleError o) (CcSkills o) (CcSkillsMissing o)
    (CcSkillsVersion o) (CcCostUSD o) (CcPaidBy o) (CcDurationMS o) (CcNumTurns o) (CcToolUses o) (CcInterrupted o) (CcProgress o).

Definition with_error (s : string) (o : ClaudeCodeOutput) : ClaudeCodeOutput :=
  mkCoding (CcContent o) (CcReport o) s (CcRepo o) (CcRef o) (CcCommit o) (CcMachine o) (CcNote o) (CcBranch o) (CcCommits o)
    (CcPushed o) (CcDirty o) (CcFiles o) (CcUnpublished o) (CcBundle o) (CcBundleError o) (CcSkills o) (CcSkillsMissing o)
    (CcSkillsVersion o) (CcCostUSD o) (CcPaidBy o) (CcDurationMS o) (CcNumTurns o) (CcToolUses o) (CcInterrupted o) (CcProgress o).

Definition with_target (repo ref branch : string) (o : ClaudeCodeOutput) : ClaudeCodeOutput :=
  mkCoding (CcContent o) (CcReport o) (CcError o) repo ref (CcCommit o) (CcMachine o) (CcNote o) branch (CcCommits o) (CcPushed o)
    (CcDirty o) (CcFiles o) (CcUnpublished o) (CcBundle o) (CcBundleError o) (CcSkills o) (CcSkillsMissing o) (CcSkillsVersion o)
    (CcCostUSD o) (CcPaidBy o) (CcDurationMS o) (CcNumTurns o) (CcToolUses o) (CcInterrupted o) (CcProgress o).

Definition with_commit (s : string) (o : ClaudeCodeOutput) : ClaudeCodeOutput :=
  mkCoding (CcContent o) (CcReport o) (CcError o) (CcRepo o) (CcRef o) s (CcMachine o) (CcNote o) (CcBranch o) (CcCommits o)
    (CcPushed o) (CcDirty o) (CcFiles o) (CcUnpublished o) (CcBundle o) (CcBundleError o) (CcSkills o) (CcSkillsMissing o)
    (CcSkillsVersion o) (CcCostUSD o) (CcPaidBy o) (CcDurationMS o) (CcNumTurns o) (CcToolUses o) (CcInterrupted o) (CcProgress o).

Definition with_machine_name (s : string) (o : ClaudeCodeOutput) : ClaudeCodeOutput :=
  mkCoding (CcContent o) (CcReport o) (CcError o) (CcRepo o) (CcRef o) (CcCommit o) s (CcNote o) (CcBranch o) (CcCommits o)
    (CcPushed o) (CcDirty o) (CcFiles o) (CcUnpublished o) (CcBundle o) (CcBundleError o) (CcSkills o) (CcSkillsMissing o)
    (CcSkillsVersion o) (CcCostUSD o) (CcPaidBy o) (CcDurationMS o) (CcNumTurns o) (CcToolUses o) (CcInterrupted o) (CcProgress o).

Definition with_run_note (s : string) (o : ClaudeCodeOutput) : ClaudeCodeOutput :=
  mkCoding (CcContent o) (CcReport o) (CcError o) (CcRepo o) (CcRef o) (CcCommit o) (CcMachine o) s (CcBranch o) (CcCommits o)
    (CcPushed o) (CcDirty o) (CcFiles o) (CcUnpublished o) (CcBundle o) (CcBundleError o) (CcSkills o) (CcSkillsMissing o)
    (CcSkillsVersion o) (CcCostUSD o) (CcPaidBy o) (CcDurationMS o) (CcNumTurns o) (CcToolUses o) (CcInterrupted o) (CcProgress o).

Definition with_report (s : string) (o : ClaudeCodeOutput) : ClaudeCodeOutput :=
  mkCoding (CcContent o) s (CcError o) (CcRepo o) (CcRef o) (CcCommit o) (CcMachine o) (CcNote o) (CcBranch o) (CcCommits o)
    (CcPushed o) (CcDirty o) (CcFiles o) (CcUnpublished o) (CcBundle o) (CcBundleError o) (CcSkills o) (CcSkillsMissing o)
    (CcSkillsVersion o) (CcCostUSD o) (CcPaidBy o) (CcDurationMS o) (CcNumTurns o) (CcToolUses o) (CcInterrupted o) (CcProgress o).

Definition with_commits (l : list CommitInfo) (dirty : bool) (o : ClaudeCodeOutput) : ClaudeCodeOutput :=
  mkCoding (CcContent o) (CcReport o) (CcError o) (CcRepo o) (CcRef o) (CcCommit o) (CcMachine o) (CcNote o) (CcBranch o) l
    (CcPushed o) dirty (CcFiles o) (CcUnpublished o) (CcBundle o) (CcBundleError o) (CcSkills o) (CcSkillsMissing o)
    (CcSkillsVersion o) (CcCostUSD o) (CcPaidBy o) (CcDurationMS o) (CcNumTurns o) (CcToolUses o) (CcInterrupted o) (CcProgress o).

Definition with_pushed (b : bool) (o : ClaudeCodeOutput) : ClaudeCodeOutput :=
  mkCoding (CcContent o) (CcReport o) (CcError o) (CcRepo o) (CcRef o) (CcCommit o) (CcMachine o) (CcNote o) (CcBranch o) (CcCommits o)
    b (CcDirty o) (CcFiles o) (CcUnpublished o) (CcBundle o) (CcBundleError o) (CcSkills o) (CcSkillsMissing o) (CcSkillsVersion o)
    (CcCostUSD o) (CcPaidBy o) (CcDurationMS o) (CcNumTurns o) (CcToolUses o) (CcInterrupted o) (CcProgress o).

Definition with_files (l : list FileRef) (unpublished : list string) (o : ClaudeCodeOutput) : ClaudeCodeOutput :=
  mkCoding (CcContent o) (CcReport o) (CcError o) (CcRepo o) (CcRef o) (CcCommit o) (CcMachine o) (CcNote o) (CcBranch o) (CcCommits o)
    (CcPushed o) (CcDirty o) l unpublished (CcBundle o) (CcBundleError o) (CcSkills o) (CcSkillsMissing o) (CcSkillsVersion o)
    (CcCostUSD o) (CcPaidBy o) (CcDurationMS o) (CcNumTurns o) (CcToolUses o) (CcInterrupted o) (CcProgress o).

Definition with_bundle (f : option FileRef) (why : string) (o : ClaudeCodeOutput) : ClaudeCodeOutput :=
  mkCoding (CcContent o) (CcReport o) (CcError o) (CcRepo o) (CcRef o) (CcCommit o) (CcMachine o) (CcNote o) (CcBranch o) (CcCommits o)
    (CcPushed o) (CcDirty o) (CcFiles o) (CcUnpublished o) f why (CcSkills o) (CcSkillsMissing o) (CcSkillsVersion o) (CcCostUSD o)
    (CcPaidBy o) (CcDurationMS o) (CcNumTurns o) (CcToolUses o) (CcInterrupted o) (CcProgress o).

Definition with_skills (l missing : list string) (version : string) (o : ClaudeCodeOutput) : ClaudeCodeOutput :=
  mkCoding (CcContent o) (CcReport o) (CcError o) (CcRepo o) (CcRef o) (CcCommit o) (CcMachine o) (CcNote o) (CcBranch o) (CcCommits o)
    (CcPushed o) (CcDirty o) (CcFiles o) (CcUnpublished o) (CcBundle o) (CcBundleError o) l missing version (CcCostUSD o) (CcPaidBy o)
    (CcDurationMS o) (CcNumTurns o) (CcToolUses o) (CcInterrupted o) (CcProgress o).

Definition with_account (cost : float64) (payer : string) (ms turns : Z) (uses : gmap string Z) (o : ClaudeCodeOutput) : ClaudeCodeOutput :=
  mkCoding (CcContent o) (CcReport o) (CcError o) (CcRepo o) (CcRef o) (CcCommit o) (CcMachine o) (CcNote o) (CcBranch o) (CcCommits o)
    (CcPushed o) (CcDirty o) (CcFiles o) (CcUnpublished o) (CcBundle o) (CcBundleError o) (CcSkills o) (CcSkillsMissing o)
    (CcSkillsVersion o) cost payer ms turns uses (CcInterrupted o) (CcProgress o).

Definition with_interrupted (ms : Z) (o : ClaudeCodeOutput) : ClaudeCodeOutput :=
  mkCoding (CcContent o) (CcReport o) (CcError o) (CcRepo o) (CcRef o) (CcCommit o) (CcMachine o) (CcNote o) (CcBranch o) (CcCommits o)
    (CcPushed o) (CcDirty o) (CcFiles o) (CcUnpublished o) (CcBundle o) (CcBundleError o) (CcSkills o) (CcSkillsMissing o)
    (CcSkillsVersion o) (CcCostUSD o) (CcPaidBy o) ms (CcNumTurns o) (CcToolUses o) true (CcProgress o).

Definition with_progress (p : option runProgress) (o : ClaudeCodeOutput) : ClaudeCodeOutput :=
  mkCoding (CcContent o) (CcReport o) (CcError o) (CcRepo o) (CcRef o) (CcCommit o) (CcMachine o) (CcNote o) (CcBranch o) (CcCommits o)
    (CcPushed o) (CcDirty o) (CcFiles o) (CcUnpublished o) (CcBundle o) (CcBundleError o) (CcSkills o) (CcSkillsMissing o)
    (CcSkillsVersion o) (CcCostUSD o) (CcPaidBy o) (CcDurationMS o) (CcNumTurns o) (CcToolUses o) true p.

Definition noCoding : ClaudeCodeOutput :=
  mkCoding "" "" "" "" "" "" "" "" "" [] false false [] [] None "" [] [] "" 0 "" 0 0 ∅ false None.


Record PrepareWorkspaceOutput := mkPrepared {
  PrDir : string; PrCommit : string; PrBranch : string; PrSkills : list string; PrSkillsMissing : list string; PrSkillsVersion : string }.

(** [claudeCodeResult]: what the CLI says of a run that ended. *)
Record claudeCodeResult := mkCLI {
  ClReport : string; ClIsError : bool; ClSubtype : string; ClNumTurns : Z; ClDurationMS : Z; ClCostUSD : float64;
  ClToolUses : gmap string Z; ClPaidBy : string; ClSlashCommands : list string }.

Definition preparedSkills (p : PrepareWorkspaceOutput) (o : ClaudeCodeOutput) : ClaudeCodeOutput :=
  with_skills (PrSkills p) (CcSkillsMissing o ++ PrSkillsMissing p) (PrSkillsVersion p) o.

Definition loadedSkills (res : claudeCodeResult) (o : ClaudeCodeOutput) : ClaudeCodeOutput :=
  match CcSkills o with
  | [] => o
  | _ => with_skills (CcSkills o) (CcSkillsMissing o ++ SkillsNotLoaded (CcSkills o) (ClSlashCommands res)) (CcSkillsVersion o) o
  end.

Definition joinErrors (existing add : string) : string := if String.eqb existing "" then add else existing +:+ "; " +:+ add.

Definition add_error (s : string) (o : ClaudeCodeOutput) : ClaudeCodeOutput := with_error (joinErrors (CcError o) s) o.

(** What a run's own account fills in, once it ended with one. *)
Definition told (res : claudeCodeResult) (o : ClaudeCodeOutput) : ClaudeCodeOutput :=
  let o := with_report (ClReport res) (with_account (ClCostUSD res) (ClPaidBy res) (ClDurationMS res) (ClNumTurns res) (ClToolUses res) o) in
  let o := loadedSkills res o in
  if ClIsError res then with_error ("the run reported a failure (" +:+ ClSubtype res +:+ ")") o else o.

(** ** Errors *)

(** What an error's details, or a timeout's last heartbeat, decode to. *)
Class RunDetails := {
  link_progress : Link → option runProgress;
  session_failed : Err → bool  (* errors.Is(err, workflow.ErrSessionFailed) *)
}.

Definition is_timeout (l : Link) : bool := match LinkKind l with LTimeout _ => true | _ => false end.
Definition is_application (l : Link) : bool := match LinkKind l with LApplication _ _ _ => true | _ => false end.

(** [errors.As], the link found. *)
Definition first_link (p : Link → bool) (e : Err) : option Link := List.find p (chain e).

Definition progressOf `{RunDetails} (e : Err) : option runProgress :=
  match first_link is_timeout e with
  | Some l => link_progress l
  | None => match first_link is_application e with Some l => link_progress l | None => None end
  end.

Definition interrupted `{RunDetails} (e : Err) (ran : Z) (o : ClaudeCodeOutput) : ClaudeCodeOutput :=
  let o := with_interrupted (Z.quot ran millisecond) o in
  match progressOf e with Some p => with_progress (Some p) o | None => o end.

Definition claudeCodeHeartbeat : Z := 2 * minute.

(** The first application error of a chain, and what follows it. *)
Fixpoint past_application (l : list Link) : option (string * list Link) :=
  match l with
  | [] => None
  | x :: l => match LinkKind x with LApplication _ m _ => Some (m, l) | _ => past_application l end
  end.

Definition whyEnded (e : Err) (limit : Z) : string :=
  match first_link is_timeout e with
  | Some l =>
      match LinkKind l with
      | LTimeout TimeoutHeartbeat => "its worker stopped answering (no heartbeat for " +:+ duration_string claudeCodeHeartbeat +:+ "): lost, or blocked"
      | _ => "it reached its time limit (" +:+ duration_string limit +:+ ")"
      end
  | None =>
      match past_application (chain e) with
      | Some (msg, rest) =>
          let msg := match past_application rest with Some (cause, _) => cause | None => msg end in
          trim_prefix (trim_prefix msg "claude code: ") "claudecode: "
      | None => if IsCanceledError e then "it was cancelled" else error_text e
      end
  end.

(** ** What the calling agent reads *)

Definition shortCommit (c : string) : string := take_str 8 c.

Definition line (s : string) : string := s +:+ newline.

(** [strings.Join(l, ", ")]. *)
Definition commas (l : list string) : string := String.concat ", " l.

Definition writeRescue (o : ClaudeCodeOutput) : string :=
  match CcBundle o with
  | Some f =>
      "the commits are not on the remote, but they are kept in " +:+ FrName f +:+ " (id " +:+ FrID f +:+ ", published above): a git bundle of " +:+ CcBranch o +:+ ". " +:+
      "Nothing will push them for the user: pass these steps on to them, to run themselves once the file is downloaded, " +:+
      "in a clone of " +:+ CcRepo o +:+ " that has " +:+ shortCommit (CcCommit o) +:+ " (git clone " +:+ CcRepo o +:+ "), with git credentials that may push there:" +:+ newline +:+
      line ("  git fetch /path/to/" +:+ FrName f +:+ " " +:+ CcBranch o +:+ ":" +:+ CcBranch o) +:+
      line ("  git push origin " +:+ CcBranch o)
  | None =>
      if String.eqb (CcBundleError o) "" then ""
      else line ("the commits could not be kept either (" +:+ CcBundleError o +:+ "): they were lost with the clone")
  end.

Section Summary.
Context `{GoQuote} `{GoFloat}.

Definition summary_head (o : ClaudeCodeOutput) : string :=
  (if String.eqb (CcError o) "" then "" else CcError o +:+ newline +:+ newline) +:+
  (if String.eqb (CcReport o) "" then "" else CcReport o +:+ newline +:+ newline) +:+
  line "---" +:+
  (if String.eqb (CcCommit o) "" then ""
   else line ("repo: " +:+ CcRepo o +:+ " (" +:+ cmp_or (CcRef o) "default branch" +:+ ", " +:+ shortCommit (CcCommit o) +:+ ")")).

Definition summary_branch (o : ClaudeCodeOutput) : string :=
  if String.eqb (CcBranch o) "" then ""
  else
    (if CcPushed o then line ("branch: " +:+ CcBranch o +:+ " (pushed, " +:+ itoa (Z.of_nat (length (CcCommits o))) +:+ " commits)")
     else line ("branch: " +:+ CcBranch o +:+ " (not pushed)")) +:+
    String.concat "" ((λ c, line ("  " +:+ shortCommit (SHA c) +:+ " " +:+ Subject c)) <$> CcCommits o).

Definition summary_files (o : ClaudeCodeOutput) : string :=
  (if CcDirty o then line "note: the run left uncommitted changes, which were discarded with the clone" else "") +:+
  match CcFiles o with
  | [] => ""
  | l => line "files published (attached to your answer; the session's members can download them; mention them by name):" +:+
         String.concat "" ((λ f, line ("  " +:+ FrName f +:+ " (" +:+ FormatSize (FrSize f) +:+ ", id " +:+ FrID f +:+ ")")) <$> l)
  end +:+
  match CcUnpublished o with
  | [] => ""
  | l => line "files not published:" +:+ String.concat "" ((λ u, line ("  " +:+ u)) <$> l)
  end +:+
  (if CcPushed o then "" else writeRescue o).

Definition summary_skills (o : ClaudeCodeOutput) : string :=
  match CcSkills o with
  | [] => ""
  | l => line ("skills given to the run: " +:+ commas l +:+
           (if String.eqb (CcSkillsVersion o) "" then "" else " (skills at " +:+ shortCommit (CcSkillsVersion o) +:+ ")"))
  end +:+
  match CcSkillsMissing o with
  | [] => ""
  | l => line "skills the run went without:" +:+ String.concat "" ((λ m, line ("  " +:+ m)) <$> l)
  end +:+
  (if String.eqb (CcMachine o) "" then ""
   else line ("machine: " +:+ quote (CcMachine o) +:+ ", the user's own (their Claude Code login, their git identity)")) +:+
  (if String.eqb (CcNote o) "" then "" else line ("note: " +:+ CcNote o)).

(** [(time.Duration(ms) * time.Millisecond).Round(time.Second)], of a run's
    positive length. *)
Definition ran_for (ms : Z) : string := duration_string (round_duration (wrap64 (ms * millisecond)) second).

Definition summary_run (o : ClaudeCodeOutput) : string :=
  if CcInterrupted o then
    "run: interrupted after " +:+ ran_for (CcDurationMS o) +:+ "; " +:+
    match CcProgress o with
    | Some p =>
        itoa (PgToolCalls p) +:+ " tool calls" +:+ (if String.eqb (PgLastTool p) "" then "" else " (last: " +:+ PgLastTool p +:+ ")") +:+
        ", " +:+ itoa (PgEvents p) +:+ " events"
    | None => "progress unknown"
    end +:+
    line "; cost unknown (run interrupted)" +:+
    "note: a run cannot be resumed: running it again starts over from scratch, and is paid again"
  else
    "run: " +:+ itoa (CcNumTurns o) +:+ " turns, " +:+ ran_for (CcDurationMS o) +:+ ", $" +:+ format_4f (CcCostUSD o) +:+
    (if String.eqb (CcPaidBy o) "subscription" then " (an estimate: paid by a Claude subscription, not billed)"
     else if String.eqb (CcPaidBy o) "api" then " (billed to the Anthropic API)" else "").

Definition Summary (o : ClaudeCodeOutput) : string :=
  summary_head o +:+ summary_branch o +:+ summary_files o +:+ summary_skills o +:+ summary_run o.

(** [withContent], of an output without an error. *)
Definition withContent {E} (r : E + ClaudeCodeOutput) : E + ClaudeCodeOutput :=
  match r with inl e => inl e | inr o => inr (with_content (Summary o) o) end.
End Summary.

(** ** Branches *)

Definition branchPrefix : string := "agent/".
Definition maxSlugLen : Z := 32.

Section Branch.
Context `{GoText}.

Definition slug_char (r : Z) : bool := ((97 <=? r) && (r <=? 122)) || UnicodeDigit r.

Fixpoint slug_loop (b : string) (lastDash : bool) (rs : list Z) : string :=
  match rs with
  | [] => b
  | r :: rs =>
      let '(b, lastDash) :=
        if slug_char r then (b +:+ encode_rune r, false)
        else if negb lastDash && (len b <? maxSlugLen) then (b +:+ "-", true)
        else (b, lastDash) in
      if maxSlugLen <=? len b then b else slug_loop b lastDash rs
  end.

(** [strings.Trim(s, "-")]. *)
Fixpoint trim_left_dash (s : string) : string :=
  match s with String c r => if Ascii.eqb c "-" then trim_left_dash r else s | "" => "" end.
Fixpoint trim_right_dash (s : string) : string :=
  match s with
  | "" => ""
  | String c r => match trim_right_dash r with "" => if Ascii.eqb c "-" then "" else String c "" | r => String c r end
  end.

Definition slugify (s : string) : string := trim_right_dash (trim_left_dash (slug_loop "" true (runes (ToLower s)))).

(** [strings.ReplaceAll(s, "-", "")]. *)
Fixpoint drop_dashes (s : string) : string :=
  match s with "" => "" | String c r => if Ascii.eqb c "-" then drop_dashes r else String c (drop_dashes r) end.

Definition branchName (title task runID : string) : string :=
  let slug := cmp_or (cmp_or (slugify title) (slugify task)) "run" in
  branchPrefix +:+ slug +:+ "-" +:+ take_str 8 (drop_dashes runID).
End Branch.

(** ** The names of branches *)

Section BranchNames.
Context `{GoText}.

Definition branch_char (c : ascii) : bool := in_class [lower; digits09; dash] c.

(** The digits of the text the slug is made of are ASCII's. *)
Definition ascii_digits (s : string) : Prop := ∀ r, r ∈ runes (ToLower s) → UnicodeDigit r = true → 48 <= r <= 57.

Lemma encode_ascii r : 0 <= r < 128 → encode_rune r = String (byte r) "".
Proof.
  intros Hr. unfold encode_rune. assert (is_scalar r = true) as -> by (unfold is_scalar; lia). unfold encode_scalar. by destruct (Z.ltb_spec r 128); [|lia].
Qed.

Lemma slug_char_byte r : slug_char r = true → (UnicodeDigit r = true → 48 <= r <= 57) → ∃ c, encode_rune r = String c "" ∧ branch_char c = true.
Proof.
  intros Hc Hd. assert (97 <= r <= 122 ∨ 48 <= r <= 57) as Hr.
  { unfold slug_char in Hc. apply orb_true_iff in Hc as [Hc|Hc]; [left|right; auto]. apply andb_true_iff in Hc as [?%Z.leb_le ?%Z.leb_le]. lia. }
  exists (byte r). split; [apply encode_ascii; lia|]. unfold branch_char, in_class. cbn [existsb fst snd]. unfold in_range. rewrite byte_of_byte by lia.
  change (byte_of lower.1) with 97. change (byte_of lower.2) with 122. change (byte_of digits09.1) with 48. change (byte_of digits09.2) with 57. lia.
Qed.

Lemma slug_loop_ok rs b d :
  (∀ r, r ∈ rs → UnicodeDigit r = true → 48 <= r <= 57) → all_bytes branch_char b = true → len b < maxSlugLen →
  all_bytes branch_char (slug_loop b d rs) = true ∧ len (slug_loop b d rs) <= maxSlugLen.
Proof.
  revert b d. induction rs as [|r rs IH]; intros b d Hd Hb Hl; [cbn [slug_loop]; split; [done|lia]|]. cbn [slug_loop].
  destruct (if slug_char r then _ else _) as [b' d'] eqn:E.
  assert (all_bytes branch_char b' = true ∧ len b' <= maxSlugLen) as [Hb' Hl'].
  { destruct (slug_char r) eqn:Ec.
    - destruct (slug_char_byte r Ec) as (c & Hc & Hok); [apply Hd; by left|]. injection E as <- _. rewrite Hc, all_bytes_app, len_app, Hb. cbn [all_bytes]. rewrite Hok.
      split; [done|]. unfold len at 2. cbn [String.length]. lia.
    - destruct (negb d && _); injection E as <- _; [|split; [done|lia]]. rewrite all_bytes_app, len_app, Hb. split; [done|]. unfold len at 2. cbn [String.length]. lia. }
  destruct (Z.leb_spec maxSlugLen (len b')); [done|]. apply IH; [|done|done]. intros x Hx. apply Hd. by right.
Qed.

Lemma trim_left_dash_ok s :
  all_bytes branch_char s = true → all_bytes branch_char (trim_left_dash s) = true ∧ len (trim_left_dash s) <= len s ∧ trim_left_dash (trim_left_dash s) = trim_left_dash s.
Proof.
  induction s as [|c s IH]; intros Hs; [done|]. cbn [trim_left_dash]. cbn [all_bytes] in Hs. apply andb_true_iff in Hs as [Hc Hs].
  destruct (Ascii.eqb c "-") eqn:E.
  - destruct (IH Hs) as (? & ? & ?). split_and!; [done| |done]. unfold len in *. cbn [String.length]. lia.
  - cbn [all_bytes trim_left_dash]. rewrite Hc, Hs, E. done.
Qed.

Lemma trim_right_dash_ok s :
  all_bytes branch_char s = true → all_bytes branch_char (trim_right_dash s) = true ∧ len (trim_right_dash s) <= len s ∧
  (trim_left_dash s = s → trim_left_dash (trim_right_dash s) = trim_right_dash s).
Proof.
  induction s as [|c s IH]; intros Hs; [done|]. cbn [all_bytes] in Hs. apply andb_true_iff in Hs as [Hc Hs]. destruct (IH Hs) as (H1 & H2 & _). cbn [trim_right_dash].
  unfold len in *. cbn [String.length]. destruct (trim_right_dash s) as [|x r] eqn:Et.
  - destruct (Ascii.eqb c "-") eqn:E; cbn [all_bytes trim_left_dash String.length]; rewrite ?Hc, ?E; split_and!; try done; lia.
  - split_and!; [cbn [all_bytes]; rewrite Hc; exact H1|cbn [String.length] in *; lia|]. cbn [trim_left_dash]. destruct (Ascii.eqb c "-") eqn:E; [|done].
    intros Hbad. exfalso. apply (f_equal String.length) in Hbad. cbn [String.length] in Hbad.
    assert (String.length (trim_left_dash s) <= String.length s)%nat; [|lia]. clear. induction s as [|c s IH]; [done|]. cbn. destruct (Ascii.eqb c "-"); cbn; lia.
Qed.

Lemma slugify_ok s : ascii_digits s →
  all_bytes branch_char (slugify s) = true ∧ len (slugify s) <= maxSlugLen ∧ trim_left_dash (slugify s) = slugify s.
Proof.
  intros Hd. unfold slugify. destruct (slug_loop_ok (runes (ToLower s)) "" true Hd) as [H1 H2]; [done|done|].
  destruct (trim_left_dash_ok _ H1) as (H3 & H4 & H5). destruct (trim_right_dash_ok _ H3) as (H6 & H7 & H8). split_and!; [done|lia|auto].
Qed.

Lemma take_all_bytes p n s : all_bytes p s = true → all_bytes p (take_str n s) = true.
Proof. revert s. induction n as [|n IH]; intros [|c s] Hs; try done. cbn [all_bytes take_str] in *. apply andb_true_iff in Hs as [-> Hs]. by apply IH. Qed.

Lemma drop_dashes_ok s : all_bytes branch_char s = true → all_bytes branch_char (drop_dashes s) = true.
Proof. induction s as [|c s IH]; [done|]. cbn [all_bytes drop_dashes]. intros [Hc Hs]%andb_true_iff. destruct (Ascii.eqb c "-"); [auto|]. cbn [all_bytes]. rewrite Hc. auto. Qed.

(** A run's branch is one a machine takes: under agent/, in lower-case
    letters, ASCII digits and dashes, within the length its check allows, as
    long as the title and the task write their digits in ASCII. The title
    names it when it leaves something, else the task, and the last characters
    are the run's own. *)
Theorem branch_publishable title task runID :
  ascii_digits title → ascii_digits task → all_bytes branch_char runID = true →
  branch_ok (branchName title task runID) = true ∧
  len (branchName title task runID) <= len branchPrefix + maxSlugLen + 9 ∧
  (∃ slug, branchName title task runID = branchPrefix +:+ slug +:+ "-" +:+ take_str 8 (drop_dashes runID) ∧
     (slugify title ≠ "" → slug = slugify title) ∧ (slugify title = "" → slugify task ≠ "" → slug = slugify task)).
Proof.
  intros Ht Hk Hr. set (slug := cmp_or (cmp_or (slugify title) (slugify task)) "run").
  assert (Hs : all_bytes branch_char slug = true ∧ len slug <= maxSlugLen ∧ trim_left_dash slug = slug ∧ slug ≠ "").
  { destruct (slugify_ok title Ht) as (H1 & H2 & H3), (slugify_ok task Hk) as (H4 & H5 & H6). subst slug. unfold cmp_or.
    destruct (String.eqb_spec (slugify title) ""); [destruct (String.eqb_spec (slugify task) "")|].
    - done.
    - destruct (String.eqb_spec (slugify task) ""); [done|]. done.
    - destruct (String.eqb_spec (slugify title) ""); done. }
  destruct Hs as (Hs & Hl & Hd & Hne). set (id := take_str 8 (drop_dashes runID)).
  assert (Hid : all_bytes branch_char id = true) by (apply take_all_bytes, drop_dashes_ok, Hr).
  assert (Hil : len id <= 8).
  { unfold len, id. rewrite length_take_str. lia. }
  assert (Hb : branchName title task runID = branchPrefix +:+ slug +:+ "-" +:+ id) by done. rewrite Hb. split_and!.
  - unfold branch_ok. change (branchPrefix) with "agent/". rewrite cut_prefix_app. destruct slug as [|c s]; [done|]. cbn [append].
    cbn [all_bytes] in Hs. apply andb_true_iff in Hs as [Hc Hs]. apply andb_true_iff. split.
    + unfold branch_char, in_class in *. cbn [existsb] in *. rewrite orb_false_r in Hc. rewrite orb_false_r.
      apply orb_true_iff in Hc as [->|Hc]; [done|]. apply orb_true_iff in Hc as [->|Hc]; [apply orb_true_r|]. exfalso.
      cbn [trim_left_dash] in Hd. cbn in Hc. unfold in_range in Hc. apply andb_true_iff in Hc as [?%Z.leb_le ?%Z.leb_le].
      assert (c = "-"%char) as -> by (apply byte_of_inj; change (byte_of "-") with 45 in *; lia). cbn in Hd.
      apply (f_equal String.length) in Hd. cbn [String.length] in Hd.
      assert (String.length (trim_left_dash s) <= String.length s)%nat; [|lia]. clear. induction s as [|x s IH]; [done|]. cbn. destruct (Ascii.eqb x "-"); cbn; lia.
    + unfold matches. change (in_class [lower; digits09; dash]) with branch_char. rewrite all_bytes_app. cbn [all_bytes] in *.
      rewrite Hs, Hid, len_app. change (branch_char "-") with true. unfold len in *. cbn [String.length] in *. unfold maxSlugLen in *.
      apply andb_true_iff. split; [apply andb_true_iff; split; apply Z.leb_le; lia|done].
  - rewrite !len_app. change (len "-") with 1. lia.
  - exists slug. split; [done|]. subst slug. unfold cmp_or. split.
    + intros Hx. apply String.eqb_neq in Hx. by rewrite !Hx.
    + intros -> Hx. apply String.eqb_neq in Hx. cbn. by rewrite !Hx.
Qed.
End BranchNames.

(** Lower case is taken as it comes; digits are ASCII's and Arabic-Indic. *)
Definition demo_text : GoText := mkGoText id (λ r, ((48 <=? r) && (r <=? 57)) || ((1632 <=? r) && (r <=? 1641))).
Definition demo_run_id : string := "3b12f1df-5232-4e1f-93a6-1c2d4f0a9b77".

Lemma branch_publishable_witness :
  branch_ok (@branchName demo_text "" "fix the login page: v2" demo_run_id) = true ∧
  @branchName demo_text "" "fix the login page: v2" demo_run_id = "agent/fix-the-login-page-v2-3b12f1df".
Proof.
  split; [|vm_compute; reflexivity].
  refine (proj1 (@branch_publishable demo_text "" "fix the login page: v2" demo_run_id _ _ _)); [..|reflexivity];
  refine (proj1 (Forall_forall (λ r, @UnicodeDigit demo_text r = true → 48 <= r <= 57) _) _); apply (bool_decide_unpack _); vm_compute; exact I.
Defined.

(** A digit that is not ASCII's stays in the branch, which no machine takes. *)
Example branch_refused :
  branch_ok (@branchName demo_text ("v" +:+ encode_rune 1635) "t" demo_run_id) = false.
Proof. vm_compute. reflexivity. Qed.

(** A slug is cut inside a word. *)
Example slug_cut : @slugify demo_text "the quick brown fox jumps over lazydog" = "the-quick-brown-fox-jumps-over-l".
Proof. vm_compute. reflexivity. Qed.
