(* ===== verification/CodingRun.v ===== *)
(** * A coding run on one of the installation's workers (src/workflow/claude_code.go,
    src/workflow/claude_code_write.go, src/workflow/claude_code_session.go)

    The workflows of analyze_repo and implement_feature: a Temporal session on
    one worker, and the steps made there. The environment gives each step's
    result, whether the session has failed or its context is cancelled after so
    many steps, and the time; the run is the list of the steps it asks for, in
    order, with its output. Notices to the user go out beside them. The steps
    themselves are in Worker.v, which composes them with these workflows; how
    the input's JSON decodes is a parameter. *)

From S2P Require Import Prelude GoStr Utf8 Json Message MachineMessage MachineInputs Keys CallInputs AgentData AgentTurn Participant CodingData.
Open Scope string_scope.
Open Scope Z_scope.
Open Scope list_scope.

(** ** Bounds *)

Definition analyzeTimeout : Z := 45 * minute.
Definition implementTimeout : Z := 2 * hour.
Definition DefaultRunEndWait : Z := 150 * second.
Definition prepareTimeout : Z := 15 * minute.
Definition Budget : Z := 60 * second.
Definition publishOutputsTimeout : Z := DefaultRunEndWait + Budget + minute.
Definition publishOutputsAttempts : Z := 2.
Definition cleanupTimeout : Z := 2 * minute + DefaultRunEndWait.
Definition inspectTimeout : Z := 2 * minute + DefaultRunEndWait.
Definition pushTimeout : Z := 10 * minute + DefaultRunEndWait.
Definition inspectAttempts : Z := 2.
Definition pushAttempts : Z := 2.
Definition bundleTimeout : Z := 5 * minute + DefaultRunEndWait.
Definition bundleAttempts : Z := 2.
Definition prepareAttempts : Z := 2.
Definition cleanupAttempts : Z := 3.
Definition runSessionMargin : Z := 10 * minute.
Definition sessionExpirySlack : Z := minute.
Definition DefaultRunQueueWait : Z := 30 * minute.

Definition analyzeSessionTimeout : Z :=
  prepareAttempts * prepareTimeout + analyzeTimeout + cleanupAttempts * cleanupTimeout + runSessionMargin.
Definition implementSessionTimeout : Z :=
  prepareAttempts * prepareTimeout + implementTimeout + publishOutputsAttempts * publishOutputsTimeout + inspectAttempts * inspectTimeout +
  pushAttempts * pushTimeout + bundleAttempts * bundleTimeout + cleanupAttempts * cleanupTimeout + runSessionMargin.

Definition RunWorkspaceLifetime : Z := Z.max analyzeSessionTimeout implementSessionTimeout + 15 * minute.

(** [QueueWait]: how long a run waits for a worker, from the probe's seconds. *)
Definition QueueWait (secs : Z) : Z := if secs <=? 0 then DefaultRunQueueWait else wrap64 (secs * second).

(** ** What a run may do *)

Definition AnalyzePermissionMode : string := "plan".
Definition ImplementPermissionMode : string := "acceptEdits".
Definition ImplementAllowedTools : list string := ["Bash(git add:*)"; "Bash(git commit:*)"; "Bash(git status:*)"].
Definition ImplementDeniedTools : list string := ["Bash(git push:*)"; "Bash(git remote:*)"; "Bash(git config:*)"; "Edit(.git/**)"].

Definition AnalyzeSystemPrompt : string :=
"This is a one-shot, read-only analysis. Nothing you change is kept: the clone is deleted when you finish, and nothing can be committed or pushed.
Your final message is a report read by another agent, not by a person, and no one will reply to it. End with the report: do not offer to make changes, to start on fixes, or to continue, and do not ask questions.
If a command you need is refused, say that it was refused, not that a tool is missing.".

Definition ImplementSystemPrompt : string :=
"This is a one-shot run on a fresh clone, on the branch it was given. Commit your work on that branch yourself (git add, git commit): once you finish, the commits on it are published as that branch, and anything left uncommitted is lost with the clone.
Do not push, do not switch to another branch, and do not change the repository's git configuration: a run that does is not published.
Your final message is a report read by another agent, not by a person, and no one will reply to it. Say what you changed and what you could not do; do not ask questions.".

(** ** The tools' inputs, the steps *)

Record AnalyzeRepoInput := mkAnalyzeRepo { AnRepo : string; AnTask : string; AnRef : string; AnCall : CallContext }.
Record ImplementFeatureInput := mkImplementFeature {
  ImRepo : string; ImTask : string; ImBase : string; ImTitle : string; ImBudget : float64; ImCall : CallContext }.

Class CodingJSON := {
  read_analyze : string → string + AnalyzeRepoInput;
  read_implement : string → string + ImplementFeatureInput
}.

Record PrepareWorkspaceInput := mkPrepare { PwName : string; PwRepo : string; PwRef : string; PwBranch : string; PwSkills : list string }.
Record RunClaudeCodeInput := mkRunCLI {
  RcDir : string; RcTask : string; RcMode : string; RcAllowed : list string; RcDenied : list string; RcPrompt : string; RcBudget : float64;
  RcOutputs : bool; RcSkills : list string }.

Record InspectWorkspaceOutput := mkInspected { InConfigChanged : bool; InCommits : list CommitInfo; InBranch : string; InDirty : bool }.

Inductive step :=
| ProbeRunWorker (queue : string)
| OpenSession (queue : string) (wait execution : Z)
| PrepareWorkspace (i : PrepareWorkspaceInput)
| RunClaudeCode (i : RunClaudeCodeInput)
| PublishOutputs (dir branch : string) (c : CallContext)
| FilesTold (queue : string) (t : TurnRef) (agent : string) (files : list string)
| InspectWorkspace (dir base branch : string)
| PushBranch (dir remote branch commit : string)
| BundleBranch (dir base branch commit : string) (c : CallContext)
| CleanupWorkspace (dir : string)
| CompleteSession.

Record RunNotice := mkNotice {
  NtSession : string; NtParticipant : string; NtTask : string; NtAgent : string; NtText : string; NtQueue : string; NtChannel : string; NtChannelID : string }.

(** What happens to a run. *)
Record RunEnv := mkRunEnv {
  EnvWorkflowID : string;
  EnvRunID : string;
  EnvQueue : string;
  ProbeGives : Err + Z;
  SessionGives : Err + unit;
  WaitedLong : bool;  (* past runWaitNotice before the wait for a worker ended *)
  CtxErr : nat → bool;  (* the workflow is cancelled after so many steps *)
  RunCtxErr : nat → bool;  (* the session's context is *)
  SessionFailed : nat → bool;
  EnvNow : nat → time;
  PrepareGives : Err + PrepareWorkspaceOutput;
  CLIGives : Err + claudeCodeResult;
  PublishGives : Err + (list FileRef * list string);
  InspectGives : Err + InspectWorkspaceOutput;
  PushGives : Err + unit;
  BundleGives : Err + FileRef
}.

(** A run in progress: [r.lost], and the steps asked for. *)
Record St := mkSt { lost : bool; steps : list step }.

Definition ErrNoClaudeCLI : string := "NoClaudeCLI".
Definition ErrWorkerStopping : string := "WorkerStopping".
Definition ErrRunStillActive : string := "RunStillActive".
Definition ErrPushCheckFailed : string := "PushCheckFailed".
Definition ErrPushFailed : string := "PushFailed".
Definition RunWorkspacePrefix : string := "run-".

Definition ask (s : step) (st : St) : St := mkSt (lost st) (steps st ++ [s]).
Definition now_of (env : RunEnv) (st : St) : time := EnvNow env (length (steps st)).

(** ** Notices *)

(** [inMinutes] *)
Definition inMinutes (d : Z) : string :=
  if d <? minute then duration_string d else itoa (round_duration d minute / minute) +:+ " min".

Definition waitingNotice (wait : Z) : string :=
  "Ton run attend un worker libre (tous occupés) : il démarre dès qu'un worker se libère, ou abandonne au bout de " +:+ inMinutes wait +:+ ".".

Definition sendRunNotice (wfID : string) (c : CallContext) (text : string) : list RunNotice :=
  match SessionOf wfID with
  | None => []
  | Some s =>
      [mkNotice s (default "" (ParticipantOf wfID)) (default "" (TaskOfWorkflow wfID)) (CtxAgent c) text
         (CtxNotifyQueue c) (CtxChannel c) (CtxChannelID c)]
  end.

(** [notifyCallFiles] *)
Definition notifyCallFiles (c : CallContext) (files : list FileRef) (st : St) : St :=
  match files, CtxTurn c with
  | _ :: _, Some t => ask (FilesTold (CtxNotifyQueue c) t (default "" (last (CtxChain c))) (FrID <$> files)) st
  | _, _ => st
  end.

Definition stillActive : string := "the run was still active on its worker after it was given up on, so nothing was pushed".

Section Run.
Context {GQ : GoQuote} {GT : GoText} {GF : GoFloat} {RD : RunDetails} {CJ : CodingJSON}.
Variable env : RunEnv.

(** ** The session *)

Definition workerLost (e : Err) (st : St) : bool :=
  let n := length (steps st) in
  SessionFailed env n || session_failed e || isScheduleToStartTimeout e || hasErrorType e ErrWorkerStopping || (IsCanceledError e && negb (RunCtxErr env n)).

Definition failed (e : Err) (st : St) : bool * St :=
  if workerLost e st then (true, mkSt true (steps st)) else (false, st).

Definition expired (started : time) (execution : Z) (st : St) : bool :=
  execution - sessionExpirySlack <=? time_sub (now_of env st) started.

Definition lostAt (started : time) (execution : Z) (st : St) (when consequence : string) : string :=
  if expired started execution st then "the run reached its time limit (" +:+ duration_string execution +:+ ") " +:+ when +:+ ": " +:+ consequence
  else "the worker that held the run stopped " +:+ when +:+ ": " +:+ consequence.

(** [openRun]: why no worker was reserved, or when the session started. *)
Definition openRun (execution : Z) (c : CallContext) (probed : option Z) (st : St) : (string + time) * list RunNotice * St :=
  let queue := EnvQueue env in
  let '(probe, st) := match probed with Some secs => (inr secs, st) | None => (ProbeGives env, ask (ProbeRunWorker queue) st) end in
  match probe with
  | inl e =>
      (inl (if isScheduleToStartTimeout e then "no worker available for " +:+ quote queue +:+ "; nothing was done"
            else if hasErrorType e ErrNoClaudeCLI then "a worker of " +:+ quote queue +:+ " cannot run Claude Code (no CLI installed); nothing was done"
            else "could not reach a worker of " +:+ quote queue +:+ ": " +:+ error_text e), [], st)
  | inr secs =>
      let wait := QueueWait secs in
      let st := ask (OpenSession queue wait execution) st in
      let say := sendRunNotice (EnvWorkflowID env) c in
      let notices :=
        if WaitedLong env then say (waitingNotice wait) ++ (if CtxErr env (length (steps st)) then [] else say "") else [] in
      match SessionGives env with
      | inr _ => (inr (now_of env st), notices, st)
      | inl e =>
          (inl (if isScheduleToStartTimeout e
                then "the workers of " +:+ quote queue +:+ " are all busy (maximum runs reached); waited " +:+ duration_string wait +:+
                     "; try again later; nothing was done"
                else "could not reserve a worker of " +:+ quote queue +:+ " for the run: " +:+ error_text e), notices, st)
      end
  end.

Definition complete (st : St) : St := ask CompleteSession st.
Definition cleanup (dir : string) (st : St) : St := if lost st then st else ask (CleanupWorkspace dir) st.

(** ** analyze_repo *)

Definition analyze_prepared (input : AnalyzeRepoInput) (started : time) (p : PrepareWorkspaceOutput) (out : ClaudeCodeOutput) (st : St) : ClaudeCodeOutput * St :=
  let began := now_of env st in
  let st := ask (RunClaudeCode (mkRunCLI (PrDir p) (AnTask input) AnalyzePermissionMode [] [] AnalyzeSystemPrompt 0 false (PrSkills p))) st in
  let ran := time_sub (now_of env st) began in
  match CLIGives env with
  | inl e =>
      let '(gone, st) := failed e st in
      let why := if gone then lostAt started analyzeSessionTimeout st "before the analysis finished" "there is no report"
                 else "the analysis did not complete: " +:+ whyEnded e analyzeTimeout in
      (interrupted e ran (with_error why out), st)
  | inr res => (told res out, st)
  end.

Definition invalid (tool why : string) : string := "invalid " +:+ tool +:+ " input: " +:+ why.

Definition analyzeRepo (raw : string) (probed : option Z) : (string + ClaudeCodeOutput) * list RunNotice * St :=
  let st := mkSt false [] in
  match read_analyze raw with
  | inl why => (inl (invalid "analyze_repo" why), [], st)
  | inr input =>
      if blank (AnRepo input) || blank (AnTask input) then (inl "analyze_repo requires repo and task", [], st)
      else
        let out := with_target (AnRepo input) (AnRef input) "" noCoding in
        let '(opened, notices, st) := openRun analyzeSessionTimeout (AnCall input) probed st in
        match opened with
        | inl why => (inr (with_error why out), notices, st)
        | inr started =>
            let st := ask (PrepareWorkspace (mkPrepare (RunWorkspacePrefix +:+ EnvRunID env) (AnRepo input) (AnRef input) "" (CtxRunSkills (AnCall input)))) st in
            let '(out, st) :=
              match PrepareGives env with
              | inl e =>
                  let '(gone, st) := failed e st in
                  (with_error (if gone then lostAt started analyzeSessionTimeout st "while it cloned the repository" "nothing was done"
                               else "could not prepare the workspace: " +:+ error_text e) out, st)
              | inr p =>
                  let '(out, st) := analyze_prepared input started p (preparedSkills p (with_commit (PrCommit p) out)) st in
                  (out, cleanup (PrDir p) st)
              end in
            (inr out, notices, complete st)
        end
  end.

(** ** implement_feature *)

Definition publishOutputs (dir branch : string) (c : CallContext) (out : ClaudeCodeOutput) (st : St) : ClaudeCodeOutput * St :=
  if lost st then (out, st)
  else
    let st := ask (PublishOutputs dir branch c) st in
    match PublishGives env with
    | inl e =>
        let '(gone, st) := failed e st in
        (if gone || IsCanceledError e then out
         else with_files (CcFiles out) (CcUnpublished out ++ ["the run's outputs: " +:+ failureText e]) out, st)
    | inr (files, unpublished) => (with_files files unpublished out, notifyCallFiles c files st)
    end.

Definition keepCommits (dir base branch commit : string) (c : CallContext) (out : ClaudeCodeOutput) (st : St) : ClaudeCodeOutput * St :=
  let st := ask (BundleBranch dir base branch commit c) st in
  match BundleGives env with
  | inr f => (with_bundle (Some f) (CcBundleError out) (with_files (CcFiles out ++ [f]) (CcUnpublished out) out), notifyCallFiles c [f] st)
  | inl e =>
      let '(gone, st) := failed e st in
      (with_bundle (CcBundle out)
         (if gone then "its worker was lost"
          else if IsCanceledError e then "the run was stopped"
          else if hasErrorType e ErrRunStillActive then "the run was still active on its worker"
          else failureText e) out, st)
  end.

Definition push_commits (input : ImplementFeatureInput) (branch : string) (started : time) (p : PrepareWorkspaceOutput) (commit : CommitInfo)
    (out : ClaudeCodeOutput) (st : St) : ClaudeCodeOutput * St :=
  let st := ask (PushBranch (PrDir p) (ImRepo input) branch (SHA commit)) st in
  match PushGives env with
  | inr _ => (with_pushed true out, st)
  | inl e =>
      let '(gone, st) := failed e st in
      if gone then
        (add_error (lostAt started implementSessionTimeout st "during the push"
           ("the branch may or may not have been published; check " +:+ branch +:+ " on the remote")) out, st)
      else if hasErrorType e ErrRunStillActive then (add_error stillActive out, st)
      else
        let timedOut := match first_link is_timeout e with Some _ => true | None => false end in
        let why := if timedOut
                   then "the push did not finish in time (" +:+ whyEnded e pushTimeout +:+ "), so it may or may not have reached the remote; check " +:+ branch +:+ " there"
                   else "the commits were not pushed: " +:+ failureText e in
        let out := add_error why out in
        if timedOut || hasErrorType e ErrPushFailed then keepCommits (PrDir p) (PrCommit p) branch (SHA commit) (ImCall input) out st
        else (out, st)
  end.

Definition inspect_commits (input : ImplementFeatureInput) (branch : string) (started : time) (p : PrepareWorkspaceOutput) (out : ClaudeCodeOutput) (st : St) :
    ClaudeCodeOutput * St :=
  let st := ask (InspectWorkspace (PrDir p) (PrCommit p) branch) st in
  match InspectGives env with
  | inl e =>
      let '(gone, st) := failed e st in
      (add_error (if gone then lostAt started implementSessionTimeout st "before the commits were checked" "nothing was pushed"
                  else if hasErrorType e ErrRunStillActive then stillActive
                  else "could not inspect the workspace: " +:+ error_text e) out, st)
  | inr i =>
      let out := with_commits (InCommits i) (InDirty i) out in
      if InConfigChanged i then (add_error "the run changed the repository's git configuration (.git/config), so nothing was pushed" out, st)
      else
        match InCommits i with
        | [] => (add_error "the run produced no commit, so nothing was pushed" out, st)
        | newest :: _ =>
            if negb (String.eqb (InBranch i) branch)
            then (add_error ("the run left HEAD on " +:+ quote (InBranch i) +:+ " instead of " +:+ quote branch +:+ ", so nothing was pushed") out, st)
            else push_commits input branch started p newest out st
        end
  end.

(** [r.failed(runErr)], no error among them. *)
Definition run_failed (st : St) : bool * St := match CLIGives env with inl e => failed e st | inr _ => (false, st) end.

Definition implement_prepared (input : ImplementFeatureInput) (branch : string) (started : time) (p : PrepareWorkspaceOutput) (out : ClaudeCodeOutput)
    (st : St) : ClaudeCodeOutput * St :=
  let began := now_of env st in
  let st := ask (RunClaudeCode (mkRunCLI (PrDir p) (ImTask input) ImplementPermissionMode ImplementAllowedTools ImplementDeniedTools
                   ImplementSystemPrompt (ImBudget input) true (PrSkills p))) st in
  let ran := time_sub (now_of env st) began in
  let '(gone, st) := run_failed st in
  let '(out, st) := if gone then (out, st) else publishOutputs (PrDir p) branch (ImCall input) out st in
  let '(gone, st) := run_failed st in
  match CLIGives env with
  | inl e =>
      if gone then (interrupted e ran (with_error (lostAt started implementSessionTimeout st "before the run finished" "nothing was pushed") out), st)
      else inspect_commits input branch started p (interrupted e ran (with_error ("the run did not complete: " +:+ whyEnded e implementTimeout) out)) st
  | inr res => inspect_commits input branch started p (told res out) st
  end.

Definition implementFeature (raw : string) (probed : option Z) : (string + ClaudeCodeOutput) * list RunNotice * St :=
  let st := mkSt false [] in
  match read_implement raw with
  | inl why => (inl (invalid "implement_feature" why), [], st)
  | inr input =>
      if blank (ImRepo input) || blank (ImTask input) then (inl "implement_feature requires repo and task", [], st)
      else
        let branch := branchName (ImTitle input) (ImTask input) (EnvRunID env) in
        let out := with_target (ImRepo input) (ImBase input) branch noCoding in
        let '(opened, notices, st) := openRun implementSessionTimeout (ImCall input) probed st in
        match opened with
        | inl why => (inr (with_error why out), notices, st)
        | inr started =>
            let st := ask (PrepareWorkspace (mkPrepare (RunWorkspacePrefix +:+ EnvRunID env) (ImRepo input) (ImBase input) branch (CtxRunSkills (ImCall input)))) st in
            let '(out, st) :=
              match PrepareGives env with
              | inl e =>
                  let '(gone, st) := failed e st in
                  (with_error (if gone then lostAt started implementSessionTimeout st "while it cloned the repository" "nothing was done"
                               else if hasErrorType e ErrPushCheckFailed then failureText e
                               else "could not prepare the workspace: " +:+ error_text e) out, st)
              | inr p =>
                  let '(out, st) := implement_prepared input branch started p (preparedSkills p (with_commit (PrCommit p) out)) st in
                  (out, cleanup (PrDir p) st)
              end in
            (inr out, notices, complete st)
        end
  end.

(** The workflows: the output, with what the calling agent reads of it. *)
Definition AnalyzeRepoWorkflow (raw : string) (probed : option Z) : (string + ClaudeCodeOutput) * list RunNotice * St :=
  let '(r, notices, st) := analyzeRepo raw probed in (withContent r, notices, st).
Definition ImplementFeatureWorkflow (raw : string) (probed : option Z) : (string + ClaudeCodeOutput) * list RunNotice * St :=
  let '(r, notices, st) := implementFeature raw probed in (withContent r, notices, st).
End Run.

(** ** The protocol of a run *)

Inductive phase := Idle | Probed | Asked | Cloned | Ran | Published | Told | Checked | Pushed | Bundled | Kept | Cleaned | Closed.

Definition next (p : phase) (s : step) : option phase :=
  match p, s with
  | Idle, ProbeRunWorker _ => Some Probed
  | (Idle | Probed), OpenSession _ _ _ => Some Asked
  | Asked, PrepareWorkspace _ => Some Cloned
  | Cloned, RunClaudeCode _ => Some Ran
  | Ran, PublishOutputs _ _ _ => Some Published
  | Published, FilesTold _ _ _ _ => Some Told
  | (Ran | Published | Told), InspectWorkspace _ _ _ => Some Checked
  | Checked, PushBranch _ _ _ _ => Some Pushed
  | Pushed, BundleBranch _ _ _ _ _ => Some Bundled
  | Bundled, FilesTold _ _ _ _ => Some Kept
  | (Ran | Published | Told | Checked | Pushed | Bundled | Kept), CleanupWorkspace _ => Some Cleaned
  | (Cloned | Ran | Published | Told | Checked | Pushed | Bundled | Kept | Cleaned), CompleteSession => Some Closed
  | _, _ => None
  end.

Definition reached (l : list step) : option phase := foldl (λ p s, match p with Some p => next p s | None => None end) (Some Idle) l.

Section Proofs.
Context {GQ : GoQuote} {GT : GoText} {GF : GoFloat} {RD : RunDetails} {CJ : CodingJSON}.
Implicit Types (env : RunEnv) (st : St) (out : ClaudeCodeOutput).

Lemma reached_snoc l s : reached (l ++ [s]) = match reached l with Some p => next p s | None => None end.
Proof. unfold reached. by rewrite foldl_app. Qed.

Lemma failed_steps env e st : steps (failed env e st).2 = steps st.
Proof. unfold failed. by destruct (workerLost _ _ _). Qed.

Lemma ask_reached s st p q : reached (steps st) = Some p → next p s = Some q → reached (steps (ask s st)) = Some q.
Proof. intros Hp Hn. cbn. by rewrite reached_snoc, Hp. Qed.

Definition is_push (s : step) : bool := match s with PushBranch _ _ _ _ => true | _ => false end.
Definition is_cleanup (s : step) : bool := match s with CleanupWorkspace _ => true | _ => false end.
Definition pushes (l : list step) : list step := List.filter is_push l.
Definition cleanups (l : list step) : list step := List.filter is_cleanup l.

(** Where the clone is in use. *)
Definition in_clone (q : phase) : bool := match q with Ran | Published | Told | Checked | Pushed | Bundled | Kept => true | _ => false end.

(** Between two states of a run in its clone: the steps of [st], then none that
    cleans up; and those that push. *)
Definition moved (pushed : list step) (st st' : St) : Prop :=
  (∃ q, reached (steps st') = Some q ∧ in_clone q = true) ∧ cleanups (steps st') = cleanups (steps st) ∧ pushes (steps st') = pushes (steps st) ++ pushed.

Lemma moved_asked s st p q :
  reached (steps st) = Some p → next p s = Some q → in_clone q = true → is_cleanup s = false →
  moved (if is_push s then [s] else []) st (ask s st).
Proof.
  intros Hp Hn Hq Hc. split; [exists q; split; [by apply (ask_reached s st p)|done]|]. unfold cleanups, pushes. cbn [steps ask].
  rewrite !List.filter_app. cbn [List.filter]. rewrite Hc, app_nil_r. by destruct (is_push s).
Qed.

Lemma phases_trans a b s1 s2 s3 : moved a s1 s2 → moved b s2 s3 → moved (a ++ b) s1 s3.
Proof. intros (_ & H2 & H3) (H4 & H5 & H6). split; [done|]. split; [congruence|]. by rewrite H6, H3, app_assoc. Qed.

Lemma moved_same a s1 s2 s3 : moved a s1 s2 → steps s3 = steps s2 → moved a s1 s3.
Proof. intros (H1 & H2 & H3) E. unfold moved. rewrite E. done. Qed.

Lemma moved_failed env e a s1 s2 : moved a s1 s2 → moved a s1 (failed env e s2).2.
Proof. intros Hm. apply (moved_same a s1 s2); [done|apply failed_steps]. Qed.

(** Telling of files is part of where it is done. *)
Lemma moved_files c files a s1 s2 p q :
  moved a s1 s2 → reached (steps s2) = Some p → (∀ x t ag l, next p (FilesTold x t ag l) = Some q) → in_clone q = true → moved a s1 (notifyCallFiles c files s2).
Proof.
  intros Hm Hp Hn Hq. unfold notifyCallFiles. destruct files as [|f files]; [done|]. destruct (CtxTurn c) as [t|]; [|done].
  rewrite <- (app_nil_r a). apply (phases_trans a [] s1 s2); [done|]. by apply (moved_asked (FilesTold _ _ _ _) s2 p q).
Qed.

Lemma join_nonempty a b : b ≠ "" → joinErrors a b ≠ "".
Proof. unfold joinErrors. destruct (String.eqb_spec a ""); [done|]. intros _. by destruct a. Qed.

Lemma prefixed_nonempty c s t : String c s +:+ t ≠ "".
Proof. done. Qed.

Lemma lostAt_nonempty env started execution st when consequence : lostAt env started execution st when consequence ≠ "".
Proof. unfold lostAt. by destruct (expired _ _ _ _). Qed.

(** Steps that only add to what the output says. *)
Definition kept_facts out out' : Prop :=
  CcBranch out' = CcBranch out ∧ CcCommits out' = CcCommits out ∧ CcPushed out' = CcPushed out ∧ (CcError out' = "" → CcError out = "").

Lemma keepCommits_spec env dir base branch commit c out st :
  reached (steps st) = Some Pushed →
  let '(out', st') := keepCommits env dir base branch commit c out st in
  moved [] st st' ∧ CcBranch out' = CcBranch out ∧ CcCommits out' = CcCommits out ∧ CcPushed out' = CcPushed out ∧ CcError out' = CcError out.
Proof.
  intros Hp. unfold keepCommits. pose proof (moved_asked (BundleBranch dir base branch commit c) st Pushed Bundled Hp eq_refl eq_refl eq_refl) as Hm. cbn [is_push] in Hm.
  pose proof (ask_reached (BundleBranch dir base branch commit c) st Pushed Bundled Hp eq_refl) as Hr. destruct (BundleGives env) as [e|f].
  - pose proof (moved_failed env e _ _ _ Hm) as Hf. destruct (failed env e _) as [gone st']. done.
  - split; [|done]. by apply (moved_files c [f] _ _ _ Bundled Kept).
Qed.

Lemma push_commits_spec env input branch started p commit out st :
  reached (steps st) = Some Checked → CcPushed out = false →
  let '(out', st') := push_commits env input branch started p commit out st in
  moved [PushBranch (PrDir p) (ImRepo input) branch (SHA commit)] st st' ∧ CcBranch out' = CcBranch out ∧ CcCommits out' = CcCommits out ∧
  (CcPushed out' = true ↔ PushGives env = inr tt) ∧ (CcError out' = "" → CcPushed out' = true).
Proof.
  intros Hp Hno. unfold push_commits. set (s := PushBranch _ _ _ _).
  pose proof (moved_asked s st Checked Pushed Hp eq_refl eq_refl eq_refl) as Hm. change (is_push s) with true in Hm.
  pose proof (ask_reached s st Checked Pushed Hp eq_refl) as Hr. destruct (PushGives env) as [e|[]]; [|done].
  pose proof (moved_failed env e _ _ _ Hm) as Hf. pose proof (failed_steps env e (ask s st)) as Hs. destruct (failed env e (ask s st)) as [gone st']. cbn [snd] in Hf, Hs.
  assert (Hadd : ∀ t, t ≠ "" → CcError (add_error t out) = "" → CcPushed (add_error t out) = true) by (intros t Ht Hx; by apply join_nonempty in Hx).
  destruct gone; [|destruct (hasErrorType e ErrRunStillActive)].
  - split_and!; try done; [cbn; split; [congruence|done]|apply Hadd, lostAt_nonempty].
  - split_and!; try done; [cbn; split; [congruence|done]|by apply Hadd].
  - set (timedOut := match first_link _ _ with Some _ => true | None => false end). set (why := if timedOut then _ else _).
    assert (Hw : why ≠ "") by (unfold why; by destruct timedOut). destruct (_ || _).
    + pose proof (keepCommits_spec env (PrDir p) (PrCommit p) branch (SHA commit) (ImCall input) (add_error why out) st') as Hk. rewrite Hs in Hk. specialize (Hk Hr).
      destruct (keepCommits _ _ _ _ _ _ _ _) as [out' st'']. destruct Hk as (H1 & H2 & H3 & H4 & H5). split_and!.
      * rewrite <- (app_nil_r [s]). by apply (phases_trans _ _ st st').
      * by rewrite H2.
      * by rewrite H3.
      * rewrite H4. cbn. split; [congruence|done].
      * rewrite H5, H4. apply Hadd, Hw.
    + split_and!; try done; [cbn; split; [congruence|done]|by apply Hadd].
Qed.

(** What is pushed, when it is: what the inspection listed. *)
Definition pushed_checked env input branch p out (pushed : list step) : Prop :=
  pushed = [] ∧ CcPushed out = false ∧ CcError out ≠ "" ∨
  ∃ i c rest, InspectGives env = inr i ∧ InConfigChanged i = false ∧ InBranch i = branch ∧ InCommits i = c :: rest ∧ CcCommits out = InCommits i ∧
    pushed = [PushBranch (PrDir p) (ImRepo input) branch (SHA c)] ∧ (CcPushed out = true ↔ PushGives env = inr tt) ∧ (CcError out = "" → CcPushed out = true).

Lemma inspect_commits_spec env input branch started p out st q :
  reached (steps st) = Some q → next q (InspectWorkspace (PrDir p) (PrCommit p) branch) = Some Checked → CcPushed out = false →
  let '(out', st') := inspect_commits env input branch started p out st in
  CcBranch out' = CcBranch out ∧ ∃ pushed, moved pushed st st' ∧ pushed_checked env input branch p out' pushed.
Proof.
  intros Hq Hn Hno. unfold inspect_commits. set (s := InspectWorkspace _ _ _).
  pose proof (moved_asked s st q Checked Hq Hn eq_refl eq_refl) as Hm. change (is_push s) with false in Hm.
  pose proof (ask_reached s st q Checked Hq Hn) as Hr. destruct (InspectGives env) as [e|i] eqn:Ei.
  - pose proof (moved_failed env e _ _ _ Hm) as Hf. destruct (failed env e _) as [gone st']. split; [done|]. exists []. split; [done|]. left. split_and!; try done.
    apply join_nonempty. destruct gone; [apply lostAt_nonempty|]. by destruct (hasErrorType e ErrRunStillActive).
  - assert (Hleft : ∀ t, t ≠ "" → pushed_checked env input branch p (add_error t (with_commits (InCommits i) (InDirty i) out)) []).
    { intros t Ht. left. split_and!; try done. by apply join_nonempty. }
    destruct (InConfigChanged i) eqn:Ec; [split; [done|]; exists []; split; [done|by apply Hleft]|].
    destruct (InCommits i) as [|c rest] eqn:El; [split; [done|]; exists []; split; [done|by apply Hleft]|].
    destruct (String.eqb_spec (InBranch i) branch) as [Hb|Hb]; cbn [negb]; [|split; [done|]; exists []; split; [done|by apply Hleft]].
    pose proof (push_commits_spec env input branch started p c (with_commits (c :: rest) (InDirty i) out) (ask s st) Hr Hno) as Hp.
    destruct (push_commits _ _ _ _ _ _ _ _) as [out' st']. destruct Hp as (H1 & H2 & H3 & H4 & H5). split; [done|].
    exists [PushBranch (PrDir p) (ImRepo input) branch (SHA c)]. split; [by apply (phases_trans [] _ st (ask s st))|]. right. exists i, c, rest. rewrite H3, El. done.
Qed.

Lemma publish_spec env dir branch c out st :
  reached (steps st) = Some Ran →
  let '(out', st') := publishOutputs env dir branch c out st in
  (st' = st ∨ moved [] st st') ∧ (∃ q, reached (steps st') = Some q ∧ q ∈ [Ran; Published; Told]) ∧
  CcBranch out' = CcBranch out ∧ CcPushed out' = CcPushed out ∧ CcError out' = CcError out.
Proof.
  intros Hp. unfold publishOutputs. destruct (lost st); [split_and!; try done; [by left|exists Ran; split; [done|by left]]|].
  set (s := PublishOutputs _ _ _). pose proof (moved_asked s st Ran Published Hp eq_refl eq_refl eq_refl) as Hm. change (is_push s) with false in Hm.
  pose proof (ask_reached s st Ran Published Hp eq_refl) as Hr. destruct (PublishGives env) as [e|[files unpublished]].
  - pose proof (moved_failed env e _ _ _ Hm) as Hf. pose proof (failed_steps env e (ask s st)) as Hs. destruct (failed env e _) as [gone st']. cbn [snd] in *.
    split; [by right|]. split; [exists Published; rewrite Hs; split; [done|set_solver]|]. by destruct (_ || _).
  - split; [right; by apply (moved_files c files _ _ _ Published Told)|]. split; [|done]. unfold notifyCallFiles.
    destruct files as [|f files]; [exists Published; split; [done|set_solver]|]. destruct (CtxTurn c) as [t|]; [|exists Published; split; [done|set_solver]].
    exists Told. split; [by apply (ask_reached _ _ Published)|set_solver].
Qed.

Lemma told_facts res out : CcBranch (told res out) = CcBranch out ∧ CcPushed (told res out) = CcPushed out.
Proof. unfold told, loadedSkills. cbn. by destruct (ClIsError res), (CcSkills out). Qed.

Lemma interrupted_facts e ran out :
  CcBranch (interrupted e ran out) = CcBranch out ∧ CcPushed (interrupted e ran out) = CcPushed out ∧ CcError (interrupted e ran out) = CcError out.
Proof. unfold interrupted. by destruct (progressOf e). Qed.

Lemma implement_prepared_spec env input branch started p out st :
  reached (steps st) = Some Cloned → CcPushed out = false →
  let '(out', st') := implement_prepared env input branch started p out st in
  CcBranch out' = CcBranch out ∧ ∃ pushed, moved pushed st st' ∧ pushed_checked env input branch p out' pushed.
Proof.
  intros Hp Hno. unfold implement_prepared. set (s := RunClaudeCode _). set (ran := time_sub _ _).
  pose proof (moved_asked s st Cloned Ran Hp eq_refl eq_refl eq_refl) as Hm. change (is_push s) with false in Hm.
  pose proof (ask_reached s st Cloned Ran Hp eq_refl) as Hr. set (st1 := ask s st) in *.
  assert (Hkeep : ∀ x, steps (run_failed env x).2 = steps x) by (intros x; unfold run_failed; destruct (CLIGives env); [apply failed_steps|done]).
  pose proof (Hkeep st1) as E1. cbv zeta. destruct (run_failed env st1) as [gone st2]. cbn [snd] in E1.
  assert (∃ q out' st3, (if gone then (out, st2) else publishOutputs env (PrDir p) branch (ImCall input) out st2) = (out', st3) ∧ moved [] st st3 ∧
    reached (steps st3) = Some q ∧ q ∈ [Ran; Published; Told] ∧ CcBranch out' = CcBranch out ∧ CcPushed out' = false) as (q & out' & st3 & -> & Hm3 & Hr3 & Hq & Hb & Hno').
  { destruct gone.
    - exists Ran, out, st2. split_and!; try done; [by apply (moved_same _ _ st1)|by rewrite E1|by left].
    - pose proof (publish_spec env (PrDir p) branch (ImCall input) out st2) as Hpub. rewrite E1 in Hpub. specialize (Hpub Hr).
      destruct (publishOutputs _ _ _ _ _ _) as [out' st3]. destruct Hpub as (Hst & (q & Hr3 & Hq) & Hb & Hpu & _). exists q, out', st3. split_and!; try done; [|congruence].
      destruct Hst as [->|Hst]; [by apply (moved_same _ _ st1)|]. apply (phases_trans [] [] st st2); [by apply (moved_same _ _ st1)|done]. }
  pose proof (Hkeep st3) as E3. destruct (run_failed env st3) as [gone' st4]. cbn [snd] in E3. rewrite <- E3 in Hr3.
  assert (Hm4 : moved [] st st4) by (by apply (moved_same _ _ st3)).
  assert (Hn : next q (InspectWorkspace (PrDir p) (PrCommit p) branch) = Some Checked).
  { rewrite !elem_of_cons in Hq. destruct Hq as [->|[->|[->|[]%not_elem_of_nil]]]; done. }
  assert (Hgo : ∀ out1, CcBranch out1 = CcBranch out → CcPushed out1 = false →
    let '(out', st') := inspect_commits env input branch started p out1 st4 in
    CcBranch out' = CcBranch out ∧ ∃ pushed, moved pushed st st' ∧ pushed_checked env input branch p out' pushed).
  { intros out1 Hb1 Hno1. pose proof (inspect_commits_spec env input branch started p out1 st4 q Hr3 Hn Hno1) as Hi.
    destruct (inspect_commits _ _ _ _ _ _ _) as [o x]. destruct Hi as (Hbo & pushed & Hmo & Hpo). split; [congruence|]. exists pushed. split; [by apply (phases_trans [] _ st st4)|done]. }
  destruct (CLIGives env) as [e|res].
  - destruct gone'.
    + match goal with |- context [interrupted e ran ?o] => destruct (interrupted_facts e ran o) as (F1 & F2 & F3); set (o1 := interrupted e ran o) in * end.
      cbn in F1, F2. split; [congruence|]. exists []. split; [done|]. left. split_and!; [done|congruence|]. rewrite F3. apply lostAt_nonempty.
    + match goal with |- context [interrupted e ran ?o] => destruct (interrupted_facts e ran o) as (F1 & F2 & F3); set (o1 := interrupted e ran o) in * end.
      cbn in F1, F2. apply Hgo; congruence.
  - destruct (told_facts res out') as [F1 F2]. apply Hgo; congruence.
Qed.

Lemma openRun_spec env execution c probed :
  let '(opened, _, st) := openRun env execution c probed (mkSt false []) in
  pushes (steps st) = [] ∧ cleanups (steps st) = [] ∧
  match opened with
  | inl why => why ≠ "" ∧ (SessionGives env ≠ inr tt ∧ reached (steps st) = Some Asked ∨ reached (steps st) = Some Probed)
  | inr _ => SessionGives env = inr tt ∧ reached (steps st) = Some Asked
  end.
Proof.
  unfold openRun. destruct probed as [secs|]; [|destruct (ProbeGives env) as [e|secs]; [split_and!; try done; [by destruct (isScheduleToStartTimeout e), (hasErrorType e ErrNoClaudeCLI)|by right]|]];
    (destruct (SessionGives env) as [e|[]]; split_and!; try done; [by destruct (isScheduleToStartTimeout e)|by left]).
Qed.

(** The session a run opened is closed; a clone it prepared is deleted, unless
    its worker is lost. *)
Definition released env st : Prop :=
  match reached (steps st) with
  | Some Closed => SessionGives env = inr tt ∧
      cleanups (steps st) = match PrepareGives env with inr p => if lost st then [] else [CleanupWorkspace (PrDir p)] | inl _ => [] end
  | Some Asked => SessionGives env ≠ inr tt ∧ cleanups (steps st) = []
  | Some Probed => cleanups (steps st) = []
  | _ => False
  end.

Lemma steps_snoc st s p q :
  reached (steps st) = Some p → next p s = Some q →
  reached (steps (ask s st)) = Some q ∧ cleanups (steps (ask s st)) = cleanups (steps st) ++ (if is_cleanup s then [s] else []) ∧
  pushes (steps (ask s st)) = pushes (steps st) ++ (if is_push s then [s] else []).
Proof.
  intros Hp Hn. split; [by apply (ask_reached s st p)|]. unfold cleanups, pushes. cbn [steps ask]. rewrite !List.filter_app. cbn [List.filter].
  by destruct (is_cleanup s), (is_push s).
Qed.

Lemma complete_released env st p :
  SessionGives env = inr tt → PrepareGives env = inr p → (∃ q, reached (steps st) = Some q ∧ in_clone q = true) → cleanups (steps st) = [] →
  released env (complete (cleanup (PrDir p) st)) ∧ pushes (steps (complete (cleanup (PrDir p) st))) = pushes (steps st).
Proof.
  intros Hs Hp (q & Hr & Hq) Hc. unfold cleanup. destruct (lost st) eqn:El.
  - destruct (steps_snoc st CompleteSession q Closed Hr) as (H1 & H2 & H3); [by destruct q|].
    unfold released, complete. rewrite H1, H2, H3, Hp, Hc, app_nil_r. cbn. by rewrite El, app_nil_r.
  - destruct (steps_snoc st (CleanupWorkspace (PrDir p)) q Cleaned Hr) as (H1 & H2 & H3); [by destruct q|].
    destruct (steps_snoc (ask (CleanupWorkspace (PrDir p)) st) CompleteSession Cleaned Closed H1 eq_refl) as (H4 & H5 & H6).
    unfold released, complete. rewrite H4, H5, H6, H2, H3, Hp, Hc, !app_nil_r. cbn. by rewrite El, ?app_nil_r.
Qed.

Lemma complete_unprepared env st e p :
  SessionGives env = inr tt → PrepareGives env = inl e → reached (steps st) = Some p → next p CompleteSession = Some Closed → cleanups (steps st) = [] →
  released env (complete st) ∧ pushes (steps (complete st)) = pushes (steps st).
Proof.
  intros Hs Hp Hr Hn Hc. destruct (steps_snoc st CompleteSession p Closed Hr Hn) as (H1 & H2 & H3).
  unfold released, complete. by rewrite H1, H2, H3, Hp, Hc, !app_nil_r.
Qed.

(** What a run asks for, and what its output says of it. *)
Lemma implement_checked env raw probed out notices st :
  implementFeature env raw probed = (inr out, notices, st) →
  ∃ input, let branch := branchName (ImTitle input) (ImTask input) (EnvRunID env) in
  read_implement raw = inr input ∧ CcBranch out = branch ∧ released env st ∧
  ((∀ e, PrepareGives env = inl e → failureText e ≠ "") → CcError out = "" → CcPushed out = true) ∧
  (pushes (steps st) = [] ∧ CcPushed out = false ∨
   ∃ p i c rest, PrepareGives env = inr p ∧ InspectGives env = inr i ∧ InConfigChanged i = false ∧ InBranch i = branch ∧ InCommits i = c :: rest ∧
     CcCommits out = InCommits i ∧ pushes (steps st) = [PushBranch (PrDir p) (ImRepo input) branch (SHA c)] ∧ (CcPushed out = true ↔ PushGives env = inr tt)).
Proof.
  intros Hrun. unfold implementFeature in Hrun. destruct (read_implement raw) as [|input] eqn:Ei; [done|]. destruct (_ || _); [done|].
  exists input. split; [done|]. set (branch := branchName _ _ _) in *. pose proof (openRun_spec env implementSessionTimeout (ImCall input) probed) as Ho.
  destruct (openRun _ _ _ _ _) as [[opened notices'] st0]. destruct Ho as (Hpu & Hcl & Ho). destruct opened as [why|started].
  { injection Hrun as <- <- <-. destruct Ho as [Hw Ho]. split; [done|]. unfold released. split_and!; [|intros _ He; by destruct Hw|by left].
    destruct Ho as [[? ->]| ->]; done. }
  destruct Ho as [Hs Hr]. set (s := PrepareWorkspace _) in *. pose proof (ask_reached s st0 Asked Cloned Hr eq_refl) as Hr1.
  assert (Hcl1 : cleanups (steps (ask s st0)) = []) by (unfold cleanups in *; cbn [steps ask]; by rewrite List.filter_app, Hcl).
  assert (Hpu1 : pushes (steps (ask s st0)) = []) by (unfold pushes in *; cbn [steps ask]; by rewrite List.filter_app, Hpu).
  set (st1 := ask s st0) in *. destruct (PrepareGives env) as [e|p] eqn:Ep.
  - pose proof (failed_steps env e st1) as Ef. destruct (failed env e st1) as [gone st2]. cbn [snd] in Ef. rewrite <- Ef in Hr1, Hcl1, Hpu1.
    injection Hrun as <- <- <-. destruct (complete_unprepared env st2 e Cloned Hs Ep Hr1 eq_refl Hcl1) as [H1 H2]. split_and!; [done|done| |by left; rewrite H2].
    intros Hsay He. exfalso. revert He. cbn. destruct gone; [apply lostAt_nonempty|]. destruct (hasErrorType e ErrPushCheckFailed); [by apply Hsay|done].
  - pose proof (implement_prepared_spec env input branch started p (preparedSkills p (with_commit (PrCommit p) (with_target (ImRepo input) (ImBase input) branch noCoding))) st1 Hr1 eq_refl) as Hi.
    destruct (implement_prepared _ _ _ _ _ _ _) as [out' st2]. injection Hrun as <- <- <-. destruct Hi as (Hb & pushed & (Hq & Hc & Hp) & Hpc).
    rewrite Hcl1 in Hc. rewrite Hpu1 in Hp. cbn [app] in Hp. destruct (complete_released env st2 p Hs Ep Hq Hc) as [H1 H2]. split; [done|]. split; [done|]. rewrite H2, Hp.
    destruct Hpc as [(-> & H3 & H4)|(i & c & rest & H3 & H4 & H5 & H6 & H7 & H8 & H9 & H10)]; [split; [by intros _|by left]|]. split; [by intros _|]. right. by exists p, i, c, rest.
Qed.

(** *** Why a worker is held lost *)

(** The failures of the run's steps in its clone, and that of making it. *)
Definition step_error env (e : Err) : Prop :=
  PrepareGives env = inl e ∨ CLIGives env = inl e ∨ PublishGives env = inl e ∨ InspectGives env = inl e ∨ PushGives env = inl e ∨ BundleGives env = inl e.

(** The worker is held lost because of a step's failure: one that tells it. *)
Definition lost_told env st : Prop := lost st = true → ∃ e st', step_error env e ∧ workerLost env e st' = true.

Lemma told_ask env s st : lost_told env st → lost_told env (ask s st).
Proof. done. Qed.

Lemma told_failed env e st : step_error env e → lost_told env st → lost_told env (failed env e st).2.
Proof. intros He Hst. unfold failed. destruct (workerLost env e st) eqn:El; [|done]. intros _. by exists e, st. Qed.

Lemma told_files env c files st : lost_told env st → lost_told env (notifyCallFiles c files st).
Proof. unfold notifyCallFiles. by destruct files, (CtxTurn c). Qed.

Lemma told_run_failed env st : lost_told env st → lost_told env (run_failed env st).2.
Proof. unfold run_failed. destruct (CLIGives env) as [e|] eqn:E; [|done]. apply told_failed. unfold step_error. tauto. Qed.

Ltac told_failure :=
  match goal with |- context [failed ?env ?e ?st] =>
    pose proof (told_failed env e st ltac:(unfold step_error; tauto) ltac:(assumption)); destruct (failed env e st) as [? ?]; cbn [snd] in * end.

Lemma told_publish env dir branch c out st : lost_told env st → lost_told env (publishOutputs env dir branch c out st).2.
Proof.
  intros H. unfold publishOutputs. destruct (lost st); [done|]. apply (told_ask _ (PublishOutputs dir branch c)) in H.
  destruct (PublishGives env) as [e|[files un]] eqn:E; [by told_failure|]. by apply told_files.
Qed.

Lemma told_keep env dir base branch commit c out st : lost_told env st → lost_told env (keepCommits env dir base branch commit c out st).2.
Proof.
  intros H. unfold keepCommits. apply (told_ask _ (BundleBranch dir base branch commit c)) in H.
  destruct (BundleGives env) as [e|f] eqn:E; [by told_failure|]. by apply told_files.
Qed.

Lemma told_push env input branch started p commit out st : lost_told env st → lost_told env (push_commits env input branch started p commit out st).2.
Proof.
  intros H. unfold push_commits. apply (told_ask _ (PushBranch (PrDir p) (ImRepo input) branch (SHA commit))) in H.
  destruct (PushGives env) as [e|[]] eqn:E; [|done]. told_failure.
  repeat match goal with |- context [if ?b then _ else _] => destruct b end; first [done|by apply told_keep].
Qed.

Lemma told_inspect env input branch started p out st : lost_told env st → lost_told env (inspect_commits env input branch started p out st).2.
Proof.
  intros H. unfold inspect_commits. apply (told_ask _ (InspectWorkspace (PrDir p) (PrCommit p) branch)) in H.
  destruct (InspectGives env) as [e|i] eqn:E; [by told_failure|]. destruct (InConfigChanged i); [done|]. destruct (InCommits i); [done|].
  destruct (negb _); [done|]. by apply told_push.
Qed.

Lemma told_prepared env input branch started p out st : lost_told env st → lost_told env (implement_prepared env input branch started p out st).2.
Proof.
  intros H. unfold implement_prepared. set (cli := mkRunCLI _ _ _ _ _ _ _ _ _). apply (told_ask _ (RunClaudeCode cli)), told_run_failed in H.
  destruct (run_failed env _) as [gone st1]. cbn [snd] in H.
  assert (lost_told env (if gone then (out, st1) else publishOutputs env (PrDir p) branch (ImCall input) out st1).2) as H2
    by (destruct gone; [done|by apply told_publish]).
  destruct (if gone then _ else _) as [out2 st2]. cbn [snd] in H2. apply told_run_failed in H2. destruct (run_failed env st2) as [gone' st3]. cbn [snd] in H2.
  destruct (CLIGives env); [destruct gone'; [done|]|]; by apply told_inspect.
Qed.

Lemma openRun_lost env execution c probed : lost (openRun env execution c probed (mkSt false [])).2 = false.
Proof. unfold openRun. destruct probed; [|destruct (ProbeGives env)]; try done; by destruct (SessionGives env). Qed.

Lemma implement_lost env raw probed : lost_told env (implementFeature env raw probed).2.
Proof.
  unfold implementFeature. destruct (read_implement raw) as [|input]; [done|]. destruct (_ || _); [done|].
  set (branch := branchName _ _ _). pose proof (openRun_lost env implementSessionTimeout (ImCall input) probed) as Ho.
  destruct (openRun _ _ _ _ _) as [[opened notices] st0]. cbn [snd] in Ho. destruct opened as [why|started]; [by intros H; cbn in H; congruence|].
  set (s := PrepareWorkspace _). assert (lost_told env (ask s st0)) as H by (intros H; cbn in H; congruence).
  destruct (PrepareGives env) as [e|p] eqn:Ep; [by told_failure|].
  match goal with |- context [implement_prepared _ _ _ _ _ ?o _] => pose proof (told_prepared env input branch started p o _ H) as Hp end.
  destruct (implement_prepared _ _ _ _ _ _ _) as [out st2]. cbn [snd] in *. unfold complete, cleanup. by destruct (lost st2) eqn:El.
Qed.

(** C10. What an implementation publishes was checked, and it says what it
    published. Its steps follow the protocol: the session it opened is closed at
    the end; the clone it prepared is deleted before that and after everything
    else, unless the worker was held lost, and then it is not asked for; the
    worker is held lost only on a step's failure that tells it. It pushes at
    most once, and only the newest of the commits the inspection listed and its
    output tells, on the branch it named, when the repository's git
    configuration is untouched and its head is on that branch. Its output says
    pushed exactly when the push went through, and an output without an error
    is one that was pushed. *)
Theorem implement_publishes_checked env raw probed out notices st :
  implementFeature env raw probed = (inr out, notices, st) →
  (∀ e, PrepareGives env = inl e → failureText e ≠ "") →
  ∃ input, let branch := branchName (ImTitle input) (ImTask input) (EnvRunID env) in
  read_implement raw = inr input ∧ CcBranch out = branch ∧ released env st ∧
  (lost st = true → ∃ e st', step_error env e ∧ workerLost env e st' = true) ∧
  (CcError out = "" → CcPushed out = true) ∧
  (pushes (steps st) = [] ∧ CcPushed out = false ∨
   ∃ p i c rest, PrepareGives env = inr p ∧ InspectGives env = inr i ∧ InConfigChanged i = false ∧ InBranch i = branch ∧ InCommits i = c :: rest ∧
     CcCommits out = InCommits i ∧ pushes (steps st) = [PushBranch (PrDir p) (ImRepo input) branch (SHA c)] ∧ (CcPushed out = true ↔ PushGives env = inr tt)).
Proof.
  intros Hrun Hsay. destruct (implement_checked env raw probed out notices st Hrun) as (input & H1 & H2 & H3 & H4 & H5). exists input. split_and!; try done; [|by apply H4].
  pose proof (implement_lost env raw probed) as Hl. by rewrite Hrun in Hl.
Qed.

(** *** The session outlives its steps *)

(** How long a step may take, its attempts included. *)
Definition step_bound (s : step) : Z :=
  match s with
  | PrepareWorkspace _ => prepareAttempts * prepareTimeout
  | RunClaudeCode _ => implementTimeout
  | PublishOutputs _ _ _ => publishOutputsAttempts * publishOutputsTimeout
  | InspectWorkspace _ _ _ => inspectAttempts * inspectTimeout
  | PushBranch _ _ _ _ => pushAttempts * pushTimeout
  | BundleBranch _ _ _ _ _ => bundleAttempts * bundleTimeout
  | CleanupWorkspace _ => cleanupAttempts * cleanupTimeout
  | _ => 0
  end.

Definition total (l : list step) : Z := foldl (λ n s, n + step_bound s) 0 l.

Definition spent (p : phase) : Z :=
  let prepared := prepareAttempts * prepareTimeout in
  let ran := prepared + implementTimeout in
  let told := ran + publishOutputsAttempts * publishOutputsTimeout in
  let checked := told + inspectAttempts * inspectTimeout in
  let pushed := checked + pushAttempts * pushTimeout in
  let bundled := pushed + bundleAttempts * bundleTimeout in
  match p with
  | Idle | Probed | Asked => 0 | Cloned => prepared | Ran => ran | Published | Told => told | Checked => checked | Pushed => pushed
  | Bundled | Kept => bundled | Cleaned | Closed => bundled + cleanupAttempts * cleanupTimeout
  end.

Lemma next_spent p s q : next p s = Some q → spent p + step_bound s <= spent q.
Proof. destruct p, s; intros [= <-]; vm_compute; discriminate. Qed.

Lemma total_spent l q : reached l = Some q → total l <= spent q.
Proof.
  revert q. induction l as [|s l IH] using rev_ind; intros q Hq; [injection Hq as <-; done|]. rewrite reached_snoc in Hq.
  destruct (reached l) as [p|]; [|done]. unfold total. rewrite foldl_app. cbn [foldl]. specialize (IH p eq_refl). pose proof (next_spent p s q Hq). unfold total in IH. lia.
Qed.

Lemma released_reached env st : released env st → ∃ q, reached (steps st) = Some q.
Proof. unfold released. destruct (reached (steps st)) as [q|]; [by exists q|done]. Qed.
End Proofs.

(** A run's whole time, each of its steps retried and to its limit, is within
    the session's bound. *)
Lemma session_outlives `{GoQuote} `{GoText} `{GoFloat} `{RunDetails} `{CodingJSON} env st :
  released env st → total (steps st) <= implementSessionTimeout - runSessionMargin.
Proof.
  intros [q Hq]%released_reached. etransitivity; [by apply total_spent|]. destruct q; vm_compute; discriminate.
Qed.

(** ** Examples *)

Definition demo_quote : GoQuote := λ s, String dquote (s +:+ String dquote "").
Definition demo_details : RunDetails := {| link_progress := λ _, None; session_failed := λ _, false |}.
Definition demo_feature : ImplementFeatureInput :=
  mkImplementFeature "https://git/r" "fix the login page" "" "" 0 (mkContext ["jarvis"] "web" "" "jarvis" "agents" None false (Some (mkTurnRef "s" "m1.jarvis")) "c1" "u1" []).
Definition demo_json : CodingJSON :=
  {| read_analyze := λ _, inl "unused"; read_implement := λ raw, if String.eqb raw "call" then inr demo_feature else inl "syntax" |}.
Definition demo_branch : string := "agent/fix-the-login-page-3b12f1df".
Definition demo_env (published : Err + (list FileRef * list string)) (branch : string) : RunEnv :=
  mkRunEnv "session-s-participant-jarvis" demo_run_id "coding" (inr 60) (inr tt) false (λ _, false) (λ _, false) (λ _, false) (λ n, Z.of_nat n * minute)
    (inr (mkPrepared "/w/run-1" "base" branch [] [] "")) (inr (mkCLI "done" false "" 3 60000 0 ∅ "api" []))
    published (inr (mkInspected false [mkCommit "c2" "second"; mkCommit "c1" "first"] branch false)) (inr tt) (inl canceledErr).

Definition demo_run (env : RunEnv) : (string + ClaudeCodeOutput) * list RunNotice * St :=
  @implementFeature demo_quote demo_text demo_details demo_json env "call" None.

Lemma implement_publishes_checked_witness :
  let env := demo_env (inr ([], [])) demo_branch in
  let '(r, _, st) := demo_run env in
  match r with inr out => CcPushed out = true ∧ (pushes (steps st) = [] ∧ CcPushed out = false ∨ head (pushes (steps st)) = Some (PushBranch "/w/run-1" "https://git/r" demo_branch "c2")) | inl _ => False end.
Proof.
  cbv zeta. destruct (demo_run (demo_env (inr ([], [])) demo_branch)) as [[[why|out] notices] st] eqn:E; [vm_compute in E; discriminate|].
  destruct (@implement_publishes_checked demo_quote demo_text demo_details demo_json (demo_env (inr ([], [])) demo_branch) "call" None out notices st E) as (input & _ & _ & _ & _ & Hp & _);
    [intros e He; vm_compute in He; discriminate|].
  split; [apply Hp; vm_compute in E; injection E as <- _ _; reflexivity|]. right. vm_compute in E. injection E as _ _ <-. vm_compute. reflexivity.
Defined.

(** The outputs' step loses its worker: what follows is asked of it all the
    same, and when it answers the branch is pushed and the clone stays. *)
Example worker_asked_after_loss :
  let late : Err := mkErr (mkLink "activity error" LActivity) [mkLink "timeout" (LTimeout TimeoutScheduleToStart)] in
  let '(r, _, st) := demo_run (demo_env (inl late) demo_branch) in
  match r with inr out => CcPushed out = true ∧ CcError out = "" | inl _ => False end ∧ lost st = true ∧
  cleanups (steps st) = [] ∧ length (pushes (steps st)) = 1%nat.
Proof. vm_compute. done. Qed.
