(* ===== verification/PickRun.v ===== *)
(** * A machine for a coding run (src/activity/machine.go)

    The activities that reserve a directive on a user's machine, with the skills
    it carries, and hand it to the gateway. The tables' operations are those of
    Directives.v; what the skills' store reads, the new identifiers, the text of
    a store's error and what each try of the handoff gives are arguments. An
    input is JSON this program wrote: a value of another type than the field it
    decodes into is read as nothing. *)

From S2P Require Import Prelude GoStr Utf8 Json JsonValid JsonFields Table MachineMessage MachineData Choice Machines Directives Gateway AgentTurn Prompt.
Open Scope string_scope.
Open Scope Z_scope.
Open Scope list_scope.

(** ** Skills in a directive's input *)

Definition SkillNotFound : string := "not found among the skills where the run was prepared".
Definition not_found (name : string) : string := name +:+ ": " +:+ SkillNotFound.

(** A [machine.RunSkill] as encoding/json writes it. *)
Definition marshal_skill (s : RunSkill) : string :=
  "{" +:+ String.concat ","
    ([marshal "name" +:+ ":" +:+ marshal (SkName s)] ++
     (if String.eqb (SkDescription s) "" then [] else [marshal "description" +:+ ":" +:+ marshal (SkDescription s)]) ++
     [marshal "content" +:+ ":" +:+ marshal (SkContent s)]) +:+ "}".

Definition marshal_skills (l : list RunSkill) : string := "[" +:+ String.concat "," (marshal_skill <$> l) +:+ "]".

(** The values of an array, past its opening bracket. *)
Fixpoint array_items (fuel : nat) (s : string) : list string :=
  match fuel, skip_ws s with
  | S fuel, String c r =>
      if Ascii.eqb c "," then array_items fuel r
      else if Ascii.eqb c "]" then []
      else let v := cut_value Plain 0 (String c r) in v.1 :: array_items fuel v.2
  | _, _ => []
  end.

Definition assign_skill (name raw : string) (s : RunSkill) : option RunSkill :=
  if String.eqb name "name" then (λ v, mkSkill v (SkDescription s) (SkContent s)) <$> unmarshal_string (SkName s) raw
  else if String.eqb name "description" then (λ v, mkSkill (SkName s) v (SkContent s)) <$> unmarshal_string (SkDescription s) raw
  else (λ v, mkSkill (SkName s) (SkDescription s) v) <$> unmarshal_string (SkContent s) raw.

Definition unmarshal_skill (raw : string) : option RunSkill :=
  unmarshal_struct ["name"; "description"; "content"] assign_skill (mkSkill "" "" "") raw.

Definition unmarshal_skills (raw : string) : option (list RunSkill) :=
  match skip_ws raw with
  | String c r =>
      if Ascii.eqb c "[" then mapM unmarshal_skill (array_items (String.length r) r)
      else if String.eqb raw "null" then Some [] else None
  | "" => None
  end.

Definition assign_stored (name raw : string) (x : list RunSkill * string) : option (list RunSkill * string) :=
  if String.eqb name "skills" then (λ l, (l, x.2)) <$> unmarshal_skills raw else (λ v, (x.1, v)) <$> unmarshal_string x.2 raw.

Definition stored_of (input : string) : list RunSkill * string :=
  default ([], "") (unmarshal_struct ["skills"; "skills_version"] assign_stored ([], "") input).

(** ** Inputs and outputs *)

Record PickMachineInput := mkPickInput {
  PiUserID : string; PiCapabilities : list string; PiKind : string; PiInput : string; PiCallKey : string; PiTimeout : Z; PiSession : string;
  PiParticipant : string; PiAgent : string; PiTurnKey : string; PiCallID : string; PiAgentID : string; PiSkills : list string }.

Record PickMachineOutput := mkPicked {
  PoDirective : string; PoMachine : string; PoMachineName : string; PoNoMachine : string; PoLacks : string; PoRefused : string;
  PoSkills : list string; PoSkillsMissing : list string; PoSkillsVersion : string }.

Definition noPick : PickMachineOutput := mkPicked "" "" "" "" "" "" [] [] "".
Definition with_directive (d : Directive) (m : Machine) (o : PickMachineOutput) : PickMachineOutput :=
  mkPicked (DirID d) (ID m) (Name m) (PoNoMachine o) (PoLacks o) (PoRefused o) (PoSkills o) (PoSkillsMissing o) (PoSkillsVersion o).
Definition with_pick_skills (l missing : list string) (version : string) (o : PickMachineOutput) : PickMachineOutput :=
  mkPicked (PoDirective o) (PoMachine o) (PoMachineName o) (PoNoMachine o) (PoLacks o) (PoRefused o) l missing version.

Fixpoint missing_skills (have missing named : list string) : list string :=
  match named with
  | [] => missing
  | n :: named => missing_skills have (if negb (contains have n) && negb (contains missing (not_found n)) then missing ++ [not_found n] else missing) named
  end.

Definition storedSkills (input : string) (named : list string) : PickMachineOutput :=
  let '(skills, version) := stored_of input in
  with_pick_skills (SkName <$> skills) (missing_skills (SkName <$> skills) [] named) version noPick.

Section Pick.
Context `{GoQuote}.

Definition bad_skills_text (b : BadSkills) : string :=
  match b with
  | TooManySkills n => itoa n +:+ " skills, at most " +:+ itoa MaxRunSkills +:+ " per run"
  | BadSkillName s => "skill name " +:+ quote s +:+ ": a run's skill is named in lower case letters, digits, - and _ (64 at most)"
  | SkillsTooLarge n => "skills of " +:+ itoa n +:+ " bytes, at most " +:+ itoa MaxRunSkillsBytes +:+ " per run"
  end.

Definition PluginDirFlag : string := "--plugin-dir".

Definition lacksText (machine : string) (missing : list string) : string :=
  if contains missing CapRunSkills
  then "your machine " +:+ quote machine +:+ " has Claude Code but its CLI lacks " +:+ PluginDirFlag +:+
       ", which the agent's skills need (update the claude CLI, then restart agent connect)"
  else "your machine " +:+ quote machine +:+ " lacks " +:+ String.concat ", " missing.

Inductive PickError := BadInput | StoreFailed (e : MachineError).

(** [withSkills]: the input with the skills named, or why they cannot go; and
    what is said of them. *)
Definition withSkills (reader : option (list string → RunSkillSet)) (i : PickMachineInput) :
    PickError + (string + string) * (list string * list string * string) :=
  let set := match reader with Some f => f (PiSkills i) | None => mkSkillSet [] (PiSkills i) "" end in
  let missing := not_found <$> SetMissing set in
  match CheckRunSkills (SetSkillsOf set) with
  | Some bad => inr (inl ("the agent's skills cannot go with the run (" +:+ bad_skills_text bad +:+ ")"), ([], missing, ""))
  | None =>
      match SetSkillsOf set with
      | [] => inr (inr (PiInput i), ([], missing, ""))
      | skills =>
          match unmarshal_fields (PiInput i) with
          | Some (Some fields) =>
              let m := <["skills" := marshal_skills skills]> (map_of fields) in
              let m := if String.eqb (SetVersionOf set) "" then m else <["skills_version" := marshal (SetVersionOf set)]> m in
              match marshal_fields m with
              | Some input => inr (inr input, (SkName <$> skills, missing, SetVersionOf set))
              | None => inl BadInput
              end
          | _ => inl BadInput
          end
      end
  end.

Definition machineHandoffWindow : Z := 10 * minute.
Definition DefaultMachineOnlineWindow : Z := 2 * minute.

(** [onlineWindow] *)
Definition onlineWindow (configured : Z) : Z := if 0 <? configured then configured else DefaultMachineOnlineWindow.

Definition pick_request (now : time) (id workflowID runID : string) (window : Z) (input : string) (extra : list string) (i : PickMachineInput) : PickRequest :=
  mkPick id (PiUserID i) (PiCapabilities i) extra (PiKind i) input workflowID runID (PiCallKey i) (now + machineHandoffWindow)
    (now + (machineHandoffWindow + PiTimeout i)) (now - onlineWindow window) (PiSession i) (PiParticipant i) (PiAgent i) (PiTurnKey i) (PiCallID i) (PiAgentID i).

Definition pick_with (now : time) (id workflowID runID : string) (window : Z) (input : string) (told : list string * list string * string) (i : PickMachineInput) (db : MDB) :
    (PickError + PickMachineOutput) * MDB :=
  let '(skills, missing, version) := told in
  let extra := match skills with [] => [] | _ => [CapRunSkills] end in
  match PickMachine now (pick_request now id workflowID runID window input extra i) db with
  | (inl (ErrMachineLacks m lacks), db) => (inr (mkPicked "" "" "" (lacksText m lacks) (lacksText m lacks) "" [] [] ""), db)
  | (inl ErrNoMachine, db) =>
      (inr (mkPicked "" "" "" ("no machine of yours is connected with " +:+ String.concat ", " (PiCapabilities i ++ extra) +:+ " and a directive to spare") "" "" [] [] ""), db)
  | (inl e, db) => (inl (StoreFailed e), db)
  | (inr (d, m), db) =>
      let out := if negb (String.eqb (DirID d) id) && negb (match PiSkills i with [] => true | _ => false end)
                 then storedSkills (Input d) (PiSkills i) else with_pick_skills skills missing version noPick in
      (inr (with_directive d m out), db)
  end.

(** [MachineActivities.PickMachine] *)
Definition PickMachineActivity (reader : option (list string → RunSkillSet)) (now : time) (id workflowID runID : string) (window : Z) (i : PickMachineInput) (db : MDB) :
    (PickError + PickMachineOutput) * MDB :=
  match PiSkills i with
  | [] => pick_with now id workflowID runID window (PiInput i) ([], [], "") i db
  | _ =>
      match withSkills reader i with
      | inl e => (inl e, db)
      | inr (inr input, told) => pick_with now id workflowID runID window input told i db
      | inr (inl refused, told) =>
          match DirectiveOfCall runID (PiCallKey i) db with
          | inr (d, m) => (inr (with_directive d m (storedSkills (Input d) (PiSkills i))), db)
          | inl ErrDirectiveNotFound => (inr (mkPicked "" "" "" "" "" refused [] told.1.2 ""), db)
          | inl e => (inl (StoreFailed e), db)
          end
      end
  end.
End Pick.

(** ** Handing a directive over *)

Definition ErrTypeClosed : string := "DirectiveClosed".

(** What a try of the handoff gives. *)
Inductive handoff := Handed | HandoffRefused (text : string) | HandoffFailed (text : string).

(** [deliver]: four tries, unless it is refused for good or the activity is
    stopped during a wait. *)
Fixpoint deliver_tries (more : nat) (i : nat) (try : nat → handoff) (stopped : nat → bool) (last : string) : option string :=
  match more with
  | O => Some last
  | S more =>
      match try i with
      | Handed => None
      | HandoffRefused t => Some t
      | HandoffFailed t => if stopped i then Some t else deliver_tries more (S i) try stopped t
      end
  end.

Definition deliver (gateway : bool) (try : nat → handoff) (stopped : nat → bool) : option string :=
  if gateway then deliver_tries 4 0 try stopped "" else Some "handoff refused: this worker hands no directive (no gateway)".

Inductive RunEnd := Pending | RunRefused (type message : string) | RunFailed (e : MachineError).

(** [MachineActivities.RunOnMachine] *)
Definition RunOnMachine (gateway : bool) (try : nat → handoff) (stopped : nat → bool) (now closing : time) (id token activityID : string) (deadline : time) (db : MDB) :
    RunEnd * MDB :=
  match StartDirective now id token activityID deadline db with
  | (inr d, db) =>
      match deliver gateway try stopped with
      | None => (Pending, db)
      | Some why =>
          (RunRefused ErrTypeRefused ("the directive could not be handed to its machine: " +:+ why),
           (CloseDirective closing (DirID d) DirectiveFailed "not handed to the gateway" db).2)
      end
  | (inl (ErrDirectiveClosed, got), db) =>
      let state := match got with Some d => DirState d | None => "" end in
      (if String.eqb state DirectiveRevoked then RunRefused ErrTypeRevoked "the machine was revoked before the directive started"
       else RunRefused ErrTypeClosed ("the directive was closed before it started (" +:+ state +:+ ")"), db)
  | (inl (ErrDirectiveNotFound, _), db) => (RunRefused ErrTypeClosed "the directive was closed before it started ()", db)
  | (inl (e, _), db) => (RunFailed e, db)
  end.

(** ** Properties *)

(** A call's machine is picked once. Made again for the same run and call,
    with a new identifier and whatever the skills' store reads by then, past
    its bounds included, PickMachine answers the directive the call already
    has and its machine, and makes no other: the tables stay as they are. For a
    call that names skills, it tells those that directive's input carries. *)
Theorem pick_repeatable `{GoQuote} reader now id workflowID runID window i db d m :
  List.find (of_call runID (PiCallKey i)) (directives db) = Some d → GetMachine (MachineOf d) db = Some m → DirID d ≠ id →
  (∀ e, withSkills reader i ≠ inl e) →
  PickMachineActivity reader now id workflowID runID window i db =
  (inr (with_directive d m (match PiSkills i with [] => noPick | _ => storedSkills (Input d) (PiSkills i) end)), db).
Proof.
  intros Hd Hm Hid Hin. apply String.eqb_neq in Hid.
  assert (Hpick : ∀ input told, PickMachine now (pick_request now id workflowID runID window input told i) db = (inr (d, m), db)).
  { intros input told. unfold PickMachine. cbn [PkRunID PkCallKey pick_request]. by rewrite Hd, Hm. }
  unfold PickMachineActivity. destruct (PiSkills i) as [|s l] eqn:Es.
  - unfold pick_with. rewrite Hpick, Hid, Es. done.
  - destruct (withSkills reader i) as [e|[[refused|input] told]] eqn:Ew; [by destruct (Hin e)| |].
    + unfold DirectiveOfCall. by rewrite Hd, Hm.
    + destruct told as [[skills missing] version]. unfold pick_with. by rewrite Hpick, Hid, Es.
Qed.

Definition demo_call : PickMachineInput :=
  mkPickInput "u1" ["claude-code"] "analyze_repo" (js "{'repo':'r'}") "analyze_repo" hour "s" "jarvis" "jarvis" "" "" "" ["review"].
Definition demo_carried : string := js "{'repo':'r','skills':[{'name':'review','description':'how to','content':'read [it] all'}],'skills_version':'c0ffee'}".
Definition demo_machine : Machine :=
  mkMachine "m1" "u1" "laptop" "linux" ["claude-code"; "run-skills"] 1 0 false "1" "gw" "" 0 (Some 0) None "" "" 0 "" "" "" None None.
Definition demo_row : Directive :=
  mkDirective "d1" "m1" "u1" "analyze_repo" demo_carried "w" "run" "" "analyze_repo" None DirectiveReserved 0 0 "" "" "" "" "" "" "" None "" 0 None None.
Definition demo_tables : MDB := mkMDB [mkMachineRow demo_machine None None] [] [] [demo_row].
Definition demo_quote : GoQuote := λ s, String dquote (s +:+ String dquote "").

(** The skill is found no more, or is past what a run carries: the call's
    directive is answered, with what it carries. *)
Lemma pick_repeatable_witness :
  let reader (_ : list string) := mkSkillSet [mkSkill "Not a name" "" ""] [] "" in
  @PickMachineActivity demo_quote (Some reader) 5 "d2" "w" "run" 0 demo_call demo_tables =
  (inr (with_directive demo_row demo_machine (storedSkills demo_carried ["review"])), demo_tables) ∧
  PoSkills (storedSkills demo_carried ["review"; "other"]) = ["review"] ∧ PoSkillsVersion (storedSkills demo_carried []) = "c0ffee" ∧
  PoSkillsMissing (storedSkills demo_carried ["review"; "other"; "other"]) = [not_found "other"].
Proof.
  cbv zeta. split; [|vm_compute; done].
  apply (@pick_repeatable demo_quote (Some (λ _, mkSkillSet [mkSkill "Not a name" "" ""] [] "")) 5 "d2" "w" "run" 0 demo_call demo_tables demo_row demo_machine).
  - vm_compute. reflexivity.
  - vm_compute. reflexivity.
  - vm_compute. discriminate.
  - intros e He. vm_compute in He. discriminate.
Defined.

(** What is written of a call's skills is what is read back. *)
Example skills_carried :
  let set := mkSkillSet [mkSkill "review" "how to" "read [it] all"] ["other"] "c0ffee" in
  @withSkills demo_quote (Some (λ _, set)) demo_call = inr (inr demo_carried, (["review"], [not_found "other"], "c0ffee")) ∧
  stored_of demo_carried = (SetSkillsOf set, "c0ffee").
Proof. vm_compute. done. Qed.

(** ** A directive whose handoff failed *)

Lemma deliver_tries_none more i try stopped last :
  deliver_tries more i try stopped last = None →
  ∃ n, (i ≤ n < i + more)%nat ∧ try n = Handed ∧ ∀ k, (i ≤ k < n)%nat → stopped k = false ∧ ∃ t, try k = HandoffFailed t.
Proof.
  revert i last. induction more as [|more IH]; intros i last Hd; [done|]. cbn [deliver_tries] in Hd. destruct (try i) as [|t|t] eqn:Ei; [|done|].
  - exists i. split_and!; [lia|lia|done|]. intros k Hk. lia.
  - destruct (stopped i) eqn:Es; [done|]. destruct (IH (S i) t Hd) as (n & Hn & Ht & Hk). exists n. split_and!; [lia|lia|done|]. intros k Hik.
    destruct (decide (k = i)) as [->|Hne]; [split; [done|by exists t]|apply Hk; lia].
Qed.

Lemma closed_rows now id state errText db d' :
  String.eqb state DirectiveReserved || String.eqb state DirectiveRunning = false →
  d' ∈ directives (CloseDirective now id state errText db).2 → DirID d' = id → Open d' = false.
Proof.
  intros Hs Hin Hk. unfold CloseDirective in Hin. cbn in Hin. unfold update_where in Hin. apply list_elem_of_In, in_map_iff in Hin as (d & <- & _).
  destruct (open_row id d) eqn:Eo; [done|]. unfold open_row, has_key in Eo. change (row_key d) with (DirID d) in Eo. rewrite Hk, String.eqb_refl in Eo. done.
Qed.

(** A directive handed over runs under its task's token; one that could not be
    is closed, and left open on no machine; in every other case the tables stay
    as they were. At most four tries are made, none after one refused for good. *)
Lemma handed_or_closed gateway try stopped now closing id token activityID deadline db :
  let '(r, db') := RunOnMachine gateway try stopped now closing id token activityID deadline db in
  match r with
  | Pending => gateway = true ∧ (∃ n, (n < 4)%nat ∧ try n = Handed ∧ ∀ k, (k < n)%nat → stopped k = false ∧ ∃ t, try k = HandoffFailed t) ∧
      (∃ d, StartDirective now id token activityID deadline db = (inr d, db'))
  | RunRefused type _ => if String.eqb type ErrTypeRefused then ∀ d', d' ∈ directives db' → DirID d' = id → Open d' = false else db' = db
  | RunFailed _ => db' = db
  end.
Proof.
  unfold RunOnMachine. destruct (StartDirective now id token activityID deadline db) as [[[e got]|d] db1] eqn:Es.
  - assert (db1 = db) as ->. { unfold StartDirective in Es. destruct (List.find _ _); [done|]. by injection Es as _ <-. }
    destruct e; try done. by destruct (String.eqb _ DirectiveRevoked).
  - assert (Hid : DirID d = id).
    { unfold StartDirective in Es. destruct (List.find (reserved_row id) (directives db)) as [x|] eqn:Ef.
      - injection Es as <- _. apply find_some in Ef as [_ Hk]. unfold reserved_row, has_key in Hk. apply andb_true_iff in Hk as [Hk%String.eqb_eq _]. done.
      - destruct (GetDirective id db) as [x|] eqn:Eg; [|done]. destruct (_ && _); [|done]. injection Es as <- _. by apply get_some in Eg as [_ Hk]. }
    unfold deliver. destruct gateway; [destruct (deliver_tries _ _ _ _ _) as [why|] eqn:Ed|].
    + rewrite String.eqb_refl, Hid. intros d'. by apply closed_rows.
    + apply deliver_tries_none in Ed as (n & Hn & Ht & Hk). split; [done|]. split; [|by exists d]. exists n. split_and!; [lia|done|]. intros k Hkn. apply Hk. lia.
    + rewrite String.eqb_refl, Hid. intros d'. by apply closed_rows.
Qed.
