(* ===== verification/CodingRoute.v ===== *)
(** * Where a coding run goes (src/workflow/coding_run.go, src/workflow/machine.go)

    analyze_repo and implement_feature as the main worker publishes them: on a
    machine of the user's, else on the installation's queue for the tool, where
    CodingRun.v's workflows run as children, else nowhere. The environment gives
    what each activity and the child end with; what a machine says of its run
    decodes as a parameter. *)

From S2P Require Import Prelude GoStr Utf8 Json Message MachineMessage MachineInputs Keys CallInputs Gateway AgentData AgentTurn Participant CodingData CodingRun PickRun.
Open Scope string_scope.
Open Scope Z_scope.
Open Scope list_scope.

(** ** What a machine says of its run *)

Definition CloneProgress : string := "clone".

Record CodingOutput := mkMachineCoding {
  CoReport : string; CoError : string; CoCommit : string; CoIsError : bool; CoSubtype : string; CoNumTurns : Z; CoDurationMS : Z;
  CoCostUSD : float64; CoPaidBy : string; CoToolUses : gmap string Z; CoInterrupted : bool; CoToolCalls : Z; CoLastTool : string; CoEvents : Z;
  CoCommits : list CommitInfo; CoPushed : bool; CoDirty : bool; CoBundle : string; CoBundleError : string; CoUnpublished : list string;
  CoSkillsMissing : list string }.

(** [machine.Result]: the output as it came, "" for none. *)
Record MachineResult := mkResult { RsOutput : string; RsProgress : string; RsFiles : list FileRef }.
Definition noResult : MachineResult := mkResult "" "" [].

Class MachineJSON := {
  read_output : string → option CodingOutput;
  link_result : Link → option MachineResult;  (* an error's details *)
  link_heartbeat : Link → option string  (* the progress of a timeout's last heartbeat *)
}.

(** One of the two coding tools. *)
Inductive codingTool := analyzeTool | implementTool.

Definition tool_name (t : codingTool) : string := match t with analyzeTool => "analyze_repo" | implementTool => "implement_feature" end.
Definition tool_kind (t : codingTool) : string := match t with analyzeTool => KindAnalyzeRepo | implementTool => KindImplementFeature end.
Definition tool_what (t : codingTool) : string := match t with analyzeTool => "the analysis" | implementTool => "the run" end.
Definition implementMachineTimeout : Z := implementTimeout + 30 * minute.
Definition tool_timeout (t : codingTool) : Z := match t with analyzeTool => analyzeTimeout | implementTool => implementMachineTimeout end.
Definition tool_noMachine (t : codingTool) : string :=
  match t with
  | analyzeTool => "no machine of yours is connected with Claude Code (logged in) and a run to spare"
  | implementTool => "no machine of yours is connected with Claude Code (logged in), pushes allowed (agent connect --allow-push) and a run to spare"
  end.
Definition is_implement (t : codingTool) : bool := match t with implementTool => true | analyzeTool => false end.

Record CodingRouting := mkRouting { Machines : bool; AnalyzeQueue : string; ImplementQueue : string }.
Definition tool_queue (t : codingTool) (r : CodingRouting) : string := match t with analyzeTool => AnalyzeQueue r | implementTool => ImplementQueue r end.

(** A float64 as encoding/json writes it. *)
Class JSONFloat := json_float : float64 → string.

Definition json_object (fields : list (string * string)) : string :=
  "{" +:+ String.concat "," ((λ f, marshal f.1 +:+ ":" +:+ f.2) <$> fields) +:+ "}".

(** [machine.AnalyzeInput] and [machine.ImplementInput], without their skills,
    as encoding/json writes them. *)
Definition marshal_analyze (i : AnalyzeRepoInput) : string :=
  json_object ([("repo", marshal (AnRepo i))] ++ field_str "ref" (AnRef i) ++ [("task", marshal (AnTask i))]).

Definition marshal_implement `{JSONFloat} (branch : string) (i : ImplementFeatureInput) : string :=
  let budget := max_zero (ImBudget i) in
  json_object ([("repo", marshal (ImRepo i))] ++ field_str "base" (ImBase i) ++ [("task", marshal (ImTask i)); ("branch", marshal branch)] ++
    (if budget =? 0 then [] else [("max_budget_usd", json_float budget)])).

Section FromMachine.
Context `{MachineJSON}.

(** [ClaudeCodeOutput.fromMachine] *)
Definition fromMachine (t : codingTool) (res : MachineResult) (o : ClaudeCodeOutput) : ClaudeCodeOutput :=
  let o := with_files (CcFiles o ++ RsFiles res) (CcUnpublished o) o in
  match (if String.eqb (RsOutput res) "" then None else read_output (RsOutput res)) with
  | None => o
  | Some c =>
      let o := with_report (CoReport c) (with_commit (CoCommit c) o) in
      let o := with_account (CoCostUSD c) (CoPaidBy c) (CoDurationMS c) (CoNumTurns c) (CoToolUses c) o in
      let o := with_files (CcFiles o) (CoUnpublished c) o in
      let o := with_skills (CcSkills o) (CcSkillsMissing o ++ CoSkillsMissing c) (CcSkillsVersion o) o in
      let o :=
        if is_implement t then
          let o := with_pushed (CoPushed c) (with_commits (CcCommits o ++ CoCommits c) (CoDirty c) o) in
          let o := with_bundle (CcBundle o) (CoBundleError c) o in
          if String.eqb (CoBundle c) "" then o
          else
            match List.find (λ f, String.eqb (FrName f) (CoBundle c)) (CcFiles o) with
            | Some f => with_bundle (Some f) (CcBundleError o) o
            | None =>
                if is_none (CcBundle o)
                then with_bundle None ("the machine says it published " +:+ CoBundle c +:+ ", which is not among the call's files") o
                else o
            end
        else o in
      if CoInterrupted c then
        let o := with_progress (Some (mkProgress (CoEvents c) (CoToolCalls c) (CoLastTool c))) o in
        if String.eqb (CoError c) "" then o else with_error (tool_what t +:+ " did not complete: " +:+ CoError c) o
      else if negb (String.eqb (CoError c) "") then with_error (CoError c) o
      else if CoIsError c then with_error ("the run reported a failure (" +:+ CoSubtype c +:+ ")") o
      else o
  end.

(** What an error's details say of the run, when they do. *)
Definition partial_of (e : Err) : option MachineResult :=
  match first_link is_application e with Some l => link_result l | None => None end.

Definition cliRan (e : Err) (partial : MachineResult) : bool :=
  let progress :=
    if String.eqb (RsProgress partial) ""
    then match first_link is_timeout e with Some l => default "" (link_heartbeat l) | None => "" end
    else RsProgress partial in
  negb (String.eqb progress "") && negb (String.eqb progress CloneProgress).
End FromMachine.

(** ** Errors of a directive (src/workflow/machine.go) *)

Definition DefaultMachineHeartbeatTimeout : Z := 5 * minute.

Section Route.
Context {GQ : GoQuote} {GT : GoText} {GF : GoFloat} {RD : RunDetails} {CJ : CodingJSON} {MJ : MachineJSON} {JF : JSONFloat}.

(** [machineError], of an error that is not a cancellation: its message. *)
Definition machineError (e : Err) (machine : string) (timeout heartbeat : Z) : string :=
  let heartbeat := if heartbeat <=? 0 then DefaultMachineHeartbeatTimeout else heartbeat in
  let m := quote machine in
  let why :=
    match first_link is_timeout e with
    | Some l =>
        match LinkKind l with
        | LTimeout TimeoutHeartbeat => "machine " +:+ m +:+ " stopped answering during the directive (nothing heard for " +:+ duration_string heartbeat +:+ ")"
        | _ => "the directive reached its time limit (" +:+ duration_string timeout +:+ ") on machine " +:+ m
        end
    | None =>
        match as_application e with
        | Some (type, msg, _) =>
            if String.eqb type ErrTypeRevoked then "machine " +:+ m +:+ " was revoked during the directive"
            else if String.eqb type ErrTypeStopping then "machine " +:+ m +:+ " stopped (agent connect ended) during the directive"
            else if String.eqb type ErrTypeLost then "machine " +:+ m +:+ " lost the directive (it restarted during it)"
            else "on machine " +:+ m +:+ ": " +:+ msg
        | None => "on machine " +:+ m +:+ ": " +:+ error_text e
        end
    end in
  why +:+ "; it was not run again, and running it again starts over".

(** ** A call, read *)

Record codingCall := mkCall { ClOut : ClaudeCodeOutput; ClDirective : string; ClCall : CallContext }.

Definition parse (t : codingTool) (runID raw : string) : string + codingCall :=
  match t with
  | analyzeTool =>
      match read_analyze raw with
      | inl why => inl (invalid "analyze_repo" why)
      | inr i =>
          if blank (AnRepo i) || blank (AnTask i) then inl "analyze_repo requires repo and task"
          else inr (mkCall (with_target (AnRepo i) (AnRef i) "" noCoding) (marshal_analyze i) (AnCall i))
      end
  | implementTool =>
      match read_implement raw with
      | inl why => inl (invalid "implement_feature" why)
      | inr i =>
          if blank (ImRepo i) || blank (ImTask i) then inl "implement_feature requires repo and task"
          else
            let branch := branchName (ImTitle i) (ImTask i) runID in
            inr (mkCall (with_target (ImRepo i) (ImBase i) branch noCoding) (marshal_implement branch i) (ImCall i))
      end
  end.

(** ** The route *)

Inductive route_step :=
| RouteAsked
| PickAsked (i : PickMachineInput)
| RunAsked (directive : string)
| FallbackProbed (queue : string)
| FallbackStarted (id queue : string) (run : St).

Record RouteEnv := mkRouteEnv {
  ReWorkflowID : string;
  ReRunID : string;
  RouteGives : Err + CodingRouting;
  PickGives : Err + PickMachineOutput;
  RunGives : Err + MachineResult;
  RanFor : Z;  (* between the directive's start and its end *)
  FallbackProbeGives : Err + Z;
  FallbackEnv : RunEnv  (* what happens to the child *)
}.

Variable env : RouteEnv.

(** What [onMachine] answers: it ran, with its output or a cancelled workflow's
    error; or not, refused with why, or lacking a capability. *)
Inductive machine_answer := MachineRan (r : Err + ClaudeCodeOutput) | NotRan (refused : string) (lacked : bool).

Definition pick_input (t : codingTool) (c : codingCall) : PickMachineInput :=
  let call := ClCall c in
  let session := default "" (SessionOf (ReWorkflowID env)) in
  mkPickInput (CtxUserID call) (CapabilitiesOf (tool_kind t)) (tool_kind t) (ClDirective c) (tool_kind t) (tool_timeout t) session
    (default "" (ParticipantOf (ReWorkflowID env))) (CtxAgent call)
    (match CtxTurn call with Some turn => if String.eqb (RefSession turn) session then RefTurn turn else "" | None => "" end)
    (CtxCallID call) (default "" (last (CtxChain call))) (CtxRunSkills call).

Definition refused_by (machine msg : string) : string := "your machine " +:+ quote machine +:+ " turned it down (" +:+ msg +:+ ")".

(** The output of a directive that ended with an error that is neither a
    cancellation nor a refusal. *)
Definition machine_failed (t : codingTool) (e : Err) (machine : string) (out : ClaudeCodeOutput) : ClaudeCodeOutput :=
  let partial := default noResult (partial_of e) in
  let out := match partial_of e with Some p => fromMachine t p out | None => out end in
  let out := add_error (tool_what t +:+ " did not complete: " +:+ machineError e machine (tool_timeout t) 0) out in
  let out :=
    if is_implement t && String.eqb (RsOutput partial) "" && cliRan e partial
    then add_error ("if the machine got as far as the push, the branch is on the remote: check " +:+ CcBranch out +:+ " there") out else out in
  if negb (CcInterrupted out) && cliRan e partial then with_interrupted (Z.quot (RanFor env) millisecond) out else out.

Definition onMachine (t : codingTool) (c : codingCall) : machine_answer * list route_step :=
  let pin := pick_input t c in
  match PickGives env with
  | inl _ => (NotRan "" false, [PickAsked pin])
  | inr pick =>
      if negb (String.eqb (PoNoMachine pick) "") then (NotRan (PoLacks pick) (negb (String.eqb (PoLacks pick) "")), [PickAsked pin])
      else if negb (String.eqb (PoRefused pick) "") then (NotRan (PoRefused pick) false, [PickAsked pin])
      else
        let out := with_skills (PoSkills pick) (PoSkillsMissing pick) (PoSkillsVersion pick) (with_machine_name (PoMachineName pick) (ClOut c)) in
        let asked := [PickAsked pin; RunAsked (PoDirective pick)] in
        match RunGives env with
        | inr res => (MachineRan (inr (fromMachine t res out)), asked)
        | inl e =>
            if IsCanceledError e then (MachineRan (inl e), asked)
            else
              match as_application e with
              | Some (type, msg, _) =>
                  if String.eqb type ErrTypeRefused then (NotRan (refused_by (PoMachineName pick) msg) false, asked)
                  else (MachineRan (inr (machine_failed t e (PoMachineName pick) out)), asked)
              | None => (MachineRan (inr (machine_failed t e (PoMachineName pick) out)), asked)
              end
        end
  end.

(** The child: its output, or its error's text. *)
Definition fallback (t : codingTool) (raw : string) (probe : Z) : (string + ClaudeCodeOutput) * St :=
  let '(r, _, st) := match t with
                     | analyzeTool => AnalyzeRepoWorkflow (FallbackEnv env) raw (Some probe)
                     | implementTool => ImplementFeatureWorkflow (FallbackEnv env) raw (Some probe)
                     end in (r, st).

Definition onFallback (t : codingTool) (raw queue noMachine : string) (out : ClaudeCodeOutput) : (string + ClaudeCodeOutput) * list route_step :=
  let prefix := if String.eqb noMachine "" then "" else noMachine +:+ ", and " in
  match FallbackProbeGives env with
  | inl e =>
      (inr (with_error (prefix +:+
         (if isScheduleToStartTimeout e then "no worker of the installation's fallback (" +:+ quote queue +:+ ") is available; nothing was done"
          else if hasErrorType e ErrNoClaudeCLI then "a worker of the installation's fallback (" +:+ quote queue +:+ ") cannot run Claude Code (no CLI); nothing was done"
          else "could not reach the installation's fallback (" +:+ quote queue +:+ "): " +:+ error_text e +:+ "; nothing was done")) out), [FallbackProbed queue])
  | inr probe =>
      let '(r, st) := fallback t raw probe in
      let asked := [FallbackProbed queue; FallbackStarted (ReWorkflowID env +:+ ":fallback") queue st] in
      match r with
      | inl why => (inl why, asked)
      | inr res =>
          (inr (if String.eqb noMachine "" then res else with_run_note (noMachine +:+ "; it ran on the installation's coding workers instead") res), asked)
      end
  end.

Definition codingRun (t : codingTool) (raw : string) : (string + ClaudeCodeOutput) * list route_step :=
  match parse t (ReRunID env) raw with
  | inl why => (inl why, [])
  | inr c =>
      match RouteGives env with
      | inl e => (inr (with_error ("could not find where to run " +:+ tool_what t +:+ ": " +:+ error_text e +:+ "; nothing was done") (ClOut c)), [RouteAsked])
      | inr route =>
          let '(answer, did) :=
            if negb (Machines route) then (NotRan "" false, [])
            else if String.eqb (CtxUserID (ClCall c)) "" then (NotRan "the call has no user whose machine could run it" false, [])
            else
              let '(a, did) := onMachine t c in
              (match a with NotRan refused lacked => NotRan (cmp_or refused (tool_noMachine t)) lacked | _ => a end, did) in
          let did := RouteAsked :: did in
          match answer with
          | MachineRan (inr out) => (inr out, did)
          | MachineRan (inl e) => (inl (error_text e), did)
          | NotRan why lacks =>
              let queue := tool_queue t route in
              if negb (String.eqb queue "") then
                let '(r, more) := onFallback t raw queue why (ClOut c) in (r, did ++ more)
              else
                (inr (with_error
                   (if lacks then why +:+ ", and this installation has no fallback for " +:+ tool_name t +:+ ": update it, then try again; nothing was done"
                    else if negb (String.eqb why "")
                    then why +:+ ", and this installation has no fallback for " +:+ tool_name t +:+
                         ": start agent connect on your machine (« Mes machines »); nothing was done"
                    else tool_name t +:+ " has nowhere to run on this installation (no machines, no fallback queue); nothing was done") (ClOut c)), did)
          end
      end
  end.

(** [CodingRunWorkflow], [ImplementRunWorkflow] *)
Definition CodingWorkflow (t : codingTool) (raw : string) : (string + ClaudeCodeOutput) * list route_step :=
  let '(r, did) := codingRun t raw in (withContent r, did).
End Route.

(** ** Properties *)

Section Properties.
Context {GQ : GoQuote} {GT : GoText} {GF : GoFloat} {RD : RunDetails} {CJ : CodingJSON} {MJ : MachineJSON} {JF : JSONFloat}.

Definition is_run (s : route_step) : bool := match s with RunAsked _ => true | _ => false end.
Definition is_fallback (s : route_step) : bool := match s with FallbackStarted _ _ _ => true | _ => false end.
Definition runs (l : list route_step) : list route_step := List.filter is_run l.
Definition fallbacks (l : list route_step) : list route_step := List.filter is_fallback l.

Definition nothing_done : string := "nothing was done".
Definition ends_with (suffix s : string) : Prop := ∃ p, s = p +:+ suffix.

Lemma ends_app suffix a b : ends_with suffix b → ends_with suffix (a +:+ b).
Proof. intros [p ->]. exists (a +:+ p). by rewrite app_assoc_str. Qed.

Lemma ends_drop suffix s n : drop_str n s = suffix → ends_with suffix s.
Proof. intros <-. exists (take_str n s). symmetry. apply take_drop_str. Qed.

(** A text that ends with a constant that does. *)
Ltac ends := repeat apply ends_app; match goal with |- ends_with _ ?s => apply (ends_drop _ s (String.length s - 16)); vm_compute; reflexivity end.

Lemma says_nothing_done {E} text o out : (inr (with_error text o) : E + ClaudeCodeOutput) = inr out → ends_with nothing_done text → ends_with nothing_done (CcError out).
Proof. by intros [= <-]. Qed.

(** A machine's refusal: the run may go elsewhere. *)
Definition turned_down (e : Err) : bool := negb (IsCanceledError e) && hasErrorType e ErrTypeRefused.

Lemma onMachine_spec env t c :
  let '(a, did) := onMachine env t c in
  fallbacks did = [] ∧
  match a with
  | MachineRan _ => ∃ pick, PickGives env = inr pick ∧ runs did = [RunAsked (PoDirective pick)]
  | NotRan _ _ => runs did = [] ∨ ∃ pick e, PickGives env = inr pick ∧ RunGives env = inl e ∧ turned_down e = true ∧ runs did = [RunAsked (PoDirective pick)]
  end.
Proof.
  unfold onMachine. destruct (PickGives env) as [e|pick]; [split; [done|by left]|].
  destruct (negb (String.eqb (PoNoMachine pick) "")); [split; [done|by left]|]. destruct (negb (String.eqb (PoRefused pick) "")); [split; [done|by left]|].
  destruct (RunGives env) as [e|res] eqn:Er; [|split; [done|by exists pick]].
  destruct (IsCanceledError e) eqn:Ec; [split; [done|by exists pick]|].
  destruct (as_application e) as [[[type msg] d]|] eqn:Ea; [|split; [done|by exists pick]].
  destruct (String.eqb type ErrTypeRefused) eqn:Et; (split; [done|]); [|by exists pick]. right. exists pick, e. split_and!; try done.
  unfold turned_down, hasErrorType. by rewrite Ec, Ea, Et.
Qed.

Lemma onFallback_spec env t raw queue why out :
  let '(r, did) := onFallback env t raw queue why out in
  runs did = [] ∧ ((∃ st, fallbacks did = [FallbackStarted (ReWorkflowID env +:+ ":fallback") queue st]) ∨
    fallbacks did = [] ∧ ∃ text, r = inr (with_error text out) ∧ ends_with nothing_done text).
Proof.
  unfold onFallback. destruct (FallbackProbeGives env) as [e|probe].
  - split; [done|]. right. split; [done|]. eexists. split; [done|]. apply ends_app. destruct (isScheduleToStartTimeout e); [|destruct (hasErrorType e ErrNoClaudeCLI)]; ends.
  - destruct (fallback env t raw probe) as [[e|res] st]; (split; [done|]; left; by exists st).
Qed.

(** What holds of a call that took these steps and answered [r]. *)
Definition sent_once env t raw (r : string + ClaudeCodeOutput) (did : list route_step) : Prop :=
  (length (runs did) <= 1)%nat ∧ (length (fallbacks did) <= 1)%nat ∧
  (∀ d, RunAsked d ∈ did → ∃ route pick c, RouteGives env = inr route ∧ Machines route = true ∧ PickGives env = inr pick ∧ PoDirective pick = d ∧
     parse t (ReRunID env) raw = inr c ∧ CtxUserID (ClCall c) ≠ "") ∧
  (fallbacks did ≠ [] → runs did ≠ [] → ∃ e, RunGives env = inl e ∧ turned_down e = true) ∧
  (fallbacks did = [] → ∀ out, r = inr out →
     (∃ pick, PickGives env = inr pick ∧ runs did = [RunAsked (PoDirective pick)]) ∨ ends_with nothing_done (CcError out)).

Lemma steps_sent_once env t raw c route did more r :
  parse t (ReRunID env) raw = inr c → RouteGives env = inr route → fallbacks did = [] → runs more = [] → (length (fallbacks more) <= 1)%nat →
  (runs did = [] ∨ ∃ pick, PickGives env = inr pick ∧ runs did = [RunAsked (PoDirective pick)]) →
  (runs did ≠ [] → Machines route = true ∧ CtxUserID (ClCall c) ≠ "") →
  (more ≠ [] → runs did ≠ [] → ∃ e, RunGives env = inl e ∧ turned_down e = true) →
  (fallbacks more = [] → ∀ out, r = inr out → (∃ pick, PickGives env = inr pick ∧ runs did = [RunAsked (PoDirective pick)]) ∨ ends_with nothing_done (CcError out)) →
  sent_once env t raw r (RouteAsked :: did ++ more).
Proof.
  intros Hp Hr Hf Hm Hl Hd Hu Hup Hsay.
  assert (Hran : runs (RouteAsked :: did ++ more) = runs did) by (unfold runs in *; cbn [List.filter is_run]; by rewrite List.filter_app, Hm, app_nil_r).
  assert (Hfb : fallbacks (RouteAsked :: did ++ more) = fallbacks more) by (unfold fallbacks in *; cbn [List.filter is_fallback]; by rewrite List.filter_app, Hf).
  unfold sent_once. rewrite Hran, Hfb. split_and!; [|done| | |done].
  - destruct Hd as [->|(pick & _ & ->)]; cbn; lia.
  - intros d Hin. assert (Hd' : RunAsked d ∈ runs did).
    { rewrite <- Hran. apply list_elem_of_In, filter_In. split; [by apply list_elem_of_In|done]. }
    destruct Hd as [E|(pick & Hpick & E)]; rewrite E in Hd'; [by apply elem_of_nil in Hd'|]. apply list_elem_of_singleton in Hd' as [= ->].
    destruct Hu as [Hmr Hne]; [by rewrite E|]. by exists route, pick, c.
  - intros Hfm. apply Hup. by intros ->.
Qed.

(** C15. A call of a coding tool is run once. The run goes to a machine at most
    once, and only one reserved for a user's call where machines are allowed;
    to the installation's queue at most once, and then never after a machine
    that did not turn it down. When it went nowhere, the output says that
    nothing was done. *)
Theorem coding_run_once env t raw :
  let '(r, did) := codingRun env t raw in sent_once env t raw r did.
Proof.
  unfold codingRun. destruct (parse t (ReRunID env) raw) as [why|c] eqn:Ep; [unfold sent_once; split_and!; try done; [cbn; lia|cbn; lia|by intros d ?%elem_of_nil]|].
  destruct (RouteGives env) as [e|route] eqn:Er.
  { unfold sent_once. split_and!; try done; [cbn; lia|cbn; lia|by intros d ?%list_elem_of_singleton|]. intros _ out Ho. right. apply (says_nothing_done _ _ _ Ho). ends. }
  set (chosen := if negb (Machines route) then _ else _).
  assert (Hc : fallbacks chosen.2 = [] ∧ match chosen.1 with
    | MachineRan _ => ∃ pick, PickGives env = inr pick ∧ runs chosen.2 = [RunAsked (PoDirective pick)]
    | NotRan _ _ => runs chosen.2 = [] ∨ ∃ pick e, PickGives env = inr pick ∧ RunGives env = inl e ∧ turned_down e = true ∧ runs chosen.2 = [RunAsked (PoDirective pick)]
    end ∧ (runs chosen.2 ≠ [] → Machines route = true ∧ CtxUserID (ClCall c) ≠ "")).
  { subst chosen. destruct (Machines route); [|split_and!; try done; by left]. cbn [negb].
    destruct (String.eqb_spec (CtxUserID (ClCall c)) ""); [split_and!; try done; by left|].
    pose proof (onMachine_spec env t c) as Hm. destruct (onMachine env t c) as [a did]. destruct Hm as [Hf Ha]. split; [done|]. split; [by destruct a|done]. }
  destruct chosen as [answer did]. cbn [fst snd] in Hc. destruct Hc as (Hf & Ha & Hu).
  assert (Hd : runs did = [] ∨ ∃ pick, PickGives env = inr pick ∧ runs did = [RunAsked (PoDirective pick)]).
  { destruct answer; [by right|]. destruct Ha as [?|(pick & e & ? & ? & ? & ?)]; [by left|right; by exists pick]. }
  destruct answer as [ran|why lacks].
  { assert (∀ r, sent_once env t raw r (RouteAsked :: did)); [|by destruct ran]. intros r. rewrite <- (app_nil_r did).
    apply (steps_sent_once env t raw c route did []); try done; [cbn; lia|]. intros _ out _. by left. }
  assert (Hup : runs did ≠ [] → ∃ e, RunGives env = inl e ∧ turned_down e = true) by (intros Hne; destruct Ha as [?|(pick & e & ? & ? & ? & ?)]; [done|by exists e]).
  destruct (String.eqb (tool_queue t route) ""); cbn [negb].
  - rewrite <- (app_nil_r did). apply (steps_sent_once env t raw c route did []); try done; [cbn; lia|]. intros _ out Ho. right. apply (says_nothing_done _ _ _ Ho).
    destruct lacks; [|destruct (negb (String.eqb why ""))]; ends.
  - pose proof (onFallback_spec env t raw (tool_queue t route) why (ClOut c)) as Hb. destruct (onFallback _ _ _ _ _ _) as [r more]. destruct Hb as [Hm Hb].
    apply (steps_sent_once env t raw c route did more); try done.
    + destruct Hb as [[st ->]|[-> _]]; cbn; lia.
    + intros Hno out ->. right. destruct Hb as [[st Hb]|(_ & text & [= ->] & He)]; [by rewrite Hno in Hb|]. done.
Qed.
End Properties.
