(* ===== verification/Files.v ===== *)
(** * Published files (src/store/file.go, src/store/machine.go, src/tool/publish.go, src/gateway/files.go, src/machine/connect/upload.go)

    The tables of files and of their contents, and the two ways a file gets
    there: a tool of a worker publishes it ([publish], [Publish],
    [publishFromWorkspace]), or a machine uploads it for the directive it runs
    ([ServeFiles]). A content is bytes. The hash of a content, the types the
    system and the library know, and the limiter of a machine's uploads (a
    third party's) are parameters; a failure of the database changes nothing.

    [files_kept] is the invariant of the tables, and [uploads_bounded] what a
    directive can publish, whatever its machine asks. *)

From S2P Require Import Prelude GoStr Utf8 Message Store Table Json MachineData Machines Directives MachineMessage MachineInputs CallInputs Users Sessions AgentData AgentTurn CodingData.
Open Scope string_scope.
Open Scope Z_scope.
Open Scope list_scope.

(** ** The tables (store/file.go) *)

Record File := mkFile {
  FiID : string;
  FiSession : string;
  FiTurn : string;
  FiCall : string;
  FiAgent : string;
  FiUser : string;
  FiName : string;
  FiType : string;
  FiSize : Z;
  FiSHA : string;
  FiCreated : time
}.

#[export] Instance file_key : Keyed File := FiID.

Record FDB := mkFDB { rows : list File; contents : gmap string string }.

Inductive FileError :=
| ErrFileExists
| ErrFileSessionGone
| ErrDirectiveFilesFull
| ErrDirectiveBytesFull
| ErrDirectiveNotStarted
| ErrDirectiveNoTurn
| OfDirective (e : MachineError)
| FileSQL.

Definition foutcome (A : Type) : Type := (FileError + A) * FDB.

Definition of_file_call (session turn call : string) (f : File) : bool :=
  String.eqb (FiSession f) session && String.eqb (FiTurn f) turn && String.eqb (FiCall f) call.

(** The unique index of the calls' files. *)
Definition same_call (f x : File) : bool := of_file_call (FiSession f) (FiTurn f) (FiCall f) x && String.eqb (FiName x) (FiName f).

Definition created (now : time) (f : File) : File :=
  mkFile (FiID f) (FiSession f) (FiTurn f) (FiCall f) (FiAgent f) (FiUser f) (FiName f) (FiType f) (FiSize f) (FiSHA f) now.

(** The INSERT's conflict is on the index of the calls alone: another key
    taken, a size below zero, or a session that is gone, is an error. *)
Definition saveFile (now : time) (session_exists : string → bool) (f : File) (content : string) (db : FDB) : foutcome File :=
  if FiSize f <? 0 then (inl FileSQL, db)
  else
    match List.find (same_call f) (rows db) with
    | Some stored => (if String.eqb (FiSHA stored) (FiSHA f) then inr stored else inl ErrFileExists, db)
    | None =>
        if negb (is_none (get (FiID f) (rows db))) then (inl FileSQL, db)
        else if negb (session_exists (FiSession f)) then (inl ErrFileSessionGone, db)
        else if negb (is_none (contents db !! FiID f)) then (inl FileSQL, db)
        else (inr (created now f), mkFDB (rows db ++ [created now f]) (<[FiID f := content]> (contents db)))
    end.

Definition in_sessions (sdb : SDB) (id : string) : bool := negb (is_none (get id (sessions sdb))).

Definition SaveFile (now : time) (sdb : SDB) (f : File) (content : string) (db : FDB) : foutcome File :=
  saveFile now (in_sessions sdb) f content db.

Definition GetFile (id : string) (db : FDB) : option File := get id (rows db).

Definition ReadFileContent (id : string) (db : FDB) : option string := contents db !! id.

Definition oldest (a b : File) : bool := (FiCreated a <? FiCreated b) || ((FiCreated a =? FiCreated b) && str_le (FiID a) (FiID b)).

Definition ListCallFiles (session turn call : string) (db : FDB) : list File :=
  sort_stable oldest (List.filter (of_file_call session turn call) (rows db)).

Definition in_session (session : string) (f : File) : bool := String.eqb (FiSession f) session.

Definition ListSessionFiles (session : string) (db : FDB) : list File :=
  sort_stable oldest (List.filter (in_session session) (rows db)).

(** What deleting a session deletes, by cascade. *)
Definition DeleteSessionFiles (session : string) (db : FDB) : FDB :=
  let gone := FiID <$> List.filter (in_session session) (rows db) in
  mkFDB (List.filter (λ f, negb (in_session session f)) (rows db)) (filter (λ kc, contains gone kc.1 = false) (contents db)).

(** ** A directive's files (store/machine.go) *)

Record DirectiveFileLimit := mkFileLimit { LimFiles : Z; LimBytes : Z }.

Definition files_total (l : list File) : Z := foldr (λ f n, FiSize f + n) 0 l.

(** The file, attached to the directive's turn. *)
Definition for_directive (d : Directive) (f : File) : File :=
  mkFile (FiID f) (DirSession d) (DirTurnKey d) (DirCallID d) (DirAgentID d) (DirUserID d) (FiName f) (FiType f) (FiSize f) (FiSHA f) (FiCreated f).

Definition no_turn (d : Directive) : bool := String.eqb (DirSession d) "" || String.eqb (DirTurnKey d) "" || String.eqb (DirCallID d) "".

Definition SaveDirectiveFile (now : time) (sdb : SDB) (mdb : MDB) (directiveID machineID : string) (f : File) (content : string)
    (limit : DirectiveFileLimit) (db : FDB) : foutcome File :=
  match GetDirective directiveID mdb with
  | None => (inl (OfDirective ErrDirectiveNotFound), db)
  | Some d =>
      if negb (String.eqb (MachineOf d) machineID) then (inl (OfDirective ErrDirectiveNotFound), db)
      else if String.eqb (DirState d) DirectiveReserved then (inl ErrDirectiveNotStarted, db)
      else if negb (String.eqb (DirState d) DirectiveRunning) then (inl (OfDirective ErrDirectiveClosed), db)
      else if no_turn d then (inl ErrDirectiveNoTurn, db)
      else
        let f := for_directive d f in
        match List.find (same_call f) (rows db) with
        | Some stored => (if String.eqb (FiSHA stored) (FiSHA f) then inr stored else inl ErrFileExists, db)
        | None =>
            let l := List.filter (of_file_call (FiSession f) (FiTurn f) (FiCall f)) (rows db) in
            if (0 <? LimFiles limit) && (LimFiles limit <=? Z.of_nat (length l)) then (inl ErrDirectiveFilesFull, db)
            else if (0 <? LimBytes limit) && (LimBytes limit <? wrap64 (files_total l + FiSize f)) then (inl ErrDirectiveBytesFull, db)
            else saveFile now (in_sessions sdb) f content db
        end
  end.

(** ** A file's name and type (tool/publish.go) *)

Definition DefaultMaxFileBytes : Z := 20 * 1024 * 1024.
Definition MaxTextFileBytes : Z := 1024 * 1024.
Definition publishBudget : Z := 60 * second.
Definition maxFileNameBytes : Z := 255.
Definition maxPublishPaths : Z := 20.

Class FileTypes := {
  sha256_hex : string → string;
  TypeByExtension : string → string;
  DetectContentType : string → string
}.

Definition hidden_rune (r : Z) : bool := is_control r || is_format r.

Definition CleanFileName {GQ : GoQuote} (name : string) : string + string :=
  let name := trim_space name in
  if String.eqb name "" then inl "the file needs a name"
  else if String.eqb name "." || String.eqb name ".." then inl (quote name +:+ " is not a file name")
  else if has_byte "/" name || has_byte bslash name then inl (quote name +:+ " is a path: give a file name, with no / or \")
  else if negb (valid_utf8 name) then inl "the file name is not valid UTF-8"
  else if maxFileNameBytes <? len name then inl ("the file name is too long: at most " +:+ itoa maxFileNameBytes +:+ " bytes")
  else if existsb hidden_rune (runes name) then inl ("the file name " +:+ quote name +:+ " holds a control or invisible character")
  else inr name.

Definition fileTypes : list (string * string) :=
  [(".md", "text/markdown; charset=utf-8"); (".markdown", "text/markdown; charset=utf-8"); (".csv", "text/csv; charset=utf-8");
   (".tsv", "text/tab-separated-values; charset=utf-8"); (".txt", "text/plain; charset=utf-8"); (".log", "text/plain; charset=utf-8");
   (".json", "application/json"); (".yaml", "application/yaml"); (".yml", "application/yaml"); (".svg", "image/svg+xml");
   (".pdf", "application/pdf"); (".png", "image/png"); (".jpg", "image/jpeg"); (".jpeg", "image/jpeg"); (".gif", "image/gif");
   (".webp", "image/webp"); (".zip", "application/zip"); (".html", "text/html; charset=utf-8"); (".xml", "application/xml")].

(** [filepath.Ext]: from the last dot of the last element. *)
Fixpoint path_ext (s : string) : string :=
  match s with
  | "" => ""
  | String c s' => let e := path_ext s' in if negb (String.eqb e "") then e else if Ascii.eqb c "." && negb (has_byte "/" s') then s else ""
  end.

Definition ContentType {GT : GoText} {FT : FileTypes} (name content : string) : string :=
  let ext := ToLower (path_ext name) in
  match List.find (λ x, String.eqb x.1 ext) fileTypes with
  | Some x => x.2
  | None => let t := TypeByExtension ext in if String.eqb t "" then DetectContentType content else t
  end.

(** ** A worker's tools publish (tool/publish.go) *)

(** A Publisher: with no store at all, or one that lists a call's files. *)
Record Publisher := mkPublisher { PubStore : bool; PubMaxBytes : Z }.

Definition publisher_max (p : option Publisher) : Z :=
  match p with Some p => if PubMaxBytes p <=? 0 then DefaultMaxFileBytes else PubMaxBytes p | None => DefaultMaxFileBytes end.
Definition MaxFileBytes (p : option Publisher) : Z := publisher_max p.

Record PubCtx := mkPubCtx { PcCall : option CallContext; PcAgent : string; PcUser : string }.

Inductive PubError := PubText (msg : string) | takenError (name : string).

Definition pub_error (e : PubError) : string :=
  match e with
  | PubText msg => msg
  | takenError name => "a file named " +:+ name +:+ " was already published by this call with different content: rename one of them"
  end.

Definition errNoTurn : PubError :=
  PubText "Cannot publish: this run belongs to no session turn (a scheduled task, for instance), so there is no session to attach a file to. Put the content in your answer instead.".
Definition errNoCall : PubError :=
  PubText "Cannot publish: the worker could not tell which turn to attach the file to. Nothing was published; try again.".

(** The turn and the call of what may publish. *)
Definition publisher_call (p : option Publisher) (c : PubCtx) : PubError + (TurnRef * string) :=
  match p with
  | None | Some (mkPublisher false _) => inl (PubText "Cannot publish: this worker has no file store")
  | Some _ =>
      match PcCall c with
      | None => inl errNoCall
      | Some call =>
          match CtxTurn call with
          | None => inl errNoTurn
          | Some t =>
              if String.eqb (RefSession t) "" || String.eqb (RefTurn t) "" then inl errNoTurn
              else if String.eqb (CtxCallID call) "" then inl errNoCall
              else inr (t, CtxCallID call)
          end
      end
  end.

Definition fileRef (f : File) : FileRef := mkFileRef (FiID f) (FiName f) (FiType f) (FiSize f) (FiSHA f).

Section Publish.
Context {GQ : GoQuote} {GT : GoText} {FT : FileTypes}.

(** The row of a content. *)
Definition file_row (id session turn call agent user name content : string) : File :=
  mkFile id session turn call agent user name (ContentType name content) (len content) (sha256_hex content) 0.

(** A store that fails ([ScFails]: what it says) has written nothing;
    [ScRefused] is what it says of a row it refuses. *)
Record StoreCall := mkStoreCall { ScNow : time; ScID : string; ScFails : option string; ScRefused : string }.

Definition publish (p : option Publisher) (c : PubCtx) (name content : string) (max : Z) (io : StoreCall) (sdb : SDB) (db : FDB) :
    (PubError + File) * FDB :=
  match publisher_call p c with
  | inl e => (inl e, db)
  | inr (t, call) =>
      match CleanFileName name with
      | inl e => (inl (PubText e), db)
      | inr name =>
          if max <? len content then (inl (PubText (name +:+ " is too large: at most " +:+ FormatSize max +:+ " may be published")), db)
          else
            let failed msg := inl (PubText ("publish " +:+ name +:+ ": " +:+ msg)) in
            match ScFails io with
            | Some msg => (failed msg, db)
            | None =>
                let '(res, db1) := SaveFile (ScNow io) sdb
                    (file_row (ScID io) (RefSession t) (RefTurn t) call (PcAgent c) (PcUser c) name content) content db in
                (match res with
                 | inr f => inr f
                 | inl ErrFileSessionGone => inl (PubText "Cannot publish: the session was deleted")
                 | inl ErrFileExists => inl (takenError name)
                 | inl _ => failed (ScRefused io)
                 end, db1)
            end
      end
  end.

Definition Publish (p : option Publisher) (c : PubCtx) (name content : string) (io : StoreCall) (sdb : SDB) (db : FDB) :
    (PubError + FileRef) * FDB :=
  let '(res, db1) := publish p c name content (publisher_max p) io sdb db in
  (match res with inr f => inr (fileRef f) | inl e => inl e end, db1).

(** The call's file of that name, if any; the first in their order. *)
Definition Stored (p : option Publisher) (c : PubCtx) (name : string) (db : FDB) : PubError + option FileRef :=
  match publisher_call p c with
  | inl e => inl e
  | inr (t, call) =>
      inr (fileRef <$> List.find (λ f, String.eqb (FiName f) name) (ListCallFiles (RefSession t) (RefTurn t) call db))
  end.

Definition published (f : File) : string := FiName f +:+ " (" +:+ FormatSize (FiSize f) +:+ ", id " +:+ FiID f +:+ ")".

(** publish_file, its input decoded. *)
Definition publish_file (p : option Publisher) (c : PubCtx) (name content : string) (io : StoreCall) (sdb : SDB) (db : FDB) :
    (string + string) * FDB :=
  let '(res, db1) := publish p c name content MaxTextFileBytes io sdb db in
  (match res with
   | inr f => inr ("Published " +:+ published f +:+ ". The session's members can download it from your answer.")
   | inl e => inl (pub_error e)
   end, db1).

(** *** From the workspace, after a command *)

(** [filepath.Clean]: the elements, "." dropped, ".." taking the one before. *)
Fixpoint clean_elements (rooted : bool) (l done : list string) : list string :=
  match l with
  | [] => rev done
  | e :: l =>
      if String.eqb e "" || String.eqb e "." then clean_elements rooted l done
      else if String.eqb e ".." then
        match done with
        | x :: done' => if String.eqb x ".." then clean_elements rooted l (".." :: done) else clean_elements rooted l done'
        | [] => if rooted then clean_elements rooted l [] else clean_elements rooted l [".."]
        end
      else clean_elements rooted l (e :: done)
  end.

Definition IsAbs (path : string) : bool := has_prefix path "/".

Definition path_clean (path : string) : string :=
  let elements := clean_elements (IsAbs path) (split_byte "/" path) [] in
  if IsAbs path then "/" +:+ String.concat "/" elements
  else if (match elements with [] => true | _ => false end) then "." else String.concat "/" elements.

(** [filepath.Base] of a clean path. *)
Definition path_base (path : string) : string :=
  if String.eqb path "/" then "/" else default path (last (split_byte "/" path)).

Fixpoint trim_slashes (s : string) : string :=
  match s with String c s' => if Ascii.eqb c "/" then trim_slashes s' else s | _ => s end.

Definition relPath (p : string) : string + string :=
  let rel := path_clean (trim_slashes p) in
  if String.eqb rel ".." || has_prefix rel "../" then inl ("path escapes workspace: " +:+ p) else inr rel.

(** A path's turn: whether the budget had run out before it, what opening and
    reading its file gave, whether the budget had run out then, and what the
    store does. *)
Record Attempt := mkAttempt {
  AtPath : string;
  AtOver : bool;
  AtRead : string → string + string;
  AtReadOver : bool;
  AtStore : StoreCall;
  AtStoreOver : bool
}.

Definition limited (max : Z) (body : string) : string := let n := wrap64 (max + 1) in if n <=? 0 then "" else take_str (Z.to_nat n) body.

Definition readPublished (p : option Publisher) (path : string) (read : string → string + string) : string + string :=
  if IsAbs path then inl "absolute path: give a path relative to the workspace"
  else
    match relPath path with
    | inl e => inl e
    | inr rel =>
        match read rel with
        | inl e => inl e
        | inr body =>
            let max := publisher_max p in
            let content := limited max body in
            if max <? len content then inl ("too large: at most " +:+ FormatSize max +:+ " may be published") else inr content
        end
    end.

Definition outOfTime (budget : Z) : string := "not published: the " +:+ duration_string budget +:+ " given to publish ran out".
Definition not_done (path e : string) : string := "- " +:+ path +:+ ": " +:+ e.

Fixpoint publish_paths (p : option Publisher) (c : PubCtx) (budget : Z) (names : list string) (l : list Attempt) (sdb : SDB) (db : FDB) :
    list string * list string * FDB :=
  match l with
  | [] => ([], [], db)
  | a :: l =>
      let path := AtPath a in
      let next e names db :=
        let '(done, failed, db') := publish_paths p c budget names l sdb db in (done, not_done path e :: failed, db') in
      let cut over e := if over : bool then outOfTime budget else e in
      if AtOver a then next (outOfTime budget) names db
      else
        let name := path_base (path_clean path) in
        if contains names name then next (pub_error (takenError name)) names db
        else
          match readPublished p path (AtRead a) with
          | inl e => next (cut (AtReadOver a) e) (name :: names) db
          | inr content =>
              match publish p c name content (publisher_max p) (AtStore a) sdb db with
              | (inl e, db1) => next (cut (AtStoreOver a) (pub_error e)) (name :: names) db1
              | (inr f, db1) =>
                  let '(done, failed, db') := publish_paths p c budget (name :: names) l sdb db1 in
                  (("- " +:+ published f) :: done, failed, db')
              end
          end
  end.

Definition nl : string := String (byte 10) "".

Definition publishReport (done failed : list string) : string :=
  (match done with
   | [] => ""
   | _ => "Files published (the session's members can download them from your answer):" +:+ nl +:+ String.concat nl done +:+ nl +:+ nl
   end) +:+
  (match failed with [] => "" | _ => "Files not published:" +:+ nl +:+ String.concat nl failed +:+ nl +:+ nl end).

(** [opened]: why the workspace could not be opened, if so. *)
Definition publishFromWorkspace (p : option Publisher) (c : PubCtx) (opened : option string) (l : list Attempt) (sdb : SDB) (db : FDB) :
    string * FDB :=
  match l with
  | [] => ("", db)
  | _ =>
      let most := Z.to_nat maxPublishPaths in
      let past := (λ a, not_done (AtPath a) ("at most " +:+ itoa maxPublishPaths +:+ " files per command")) <$> drop most l in
      match opened with
      | Some e => (publishReport [] (past ++ ((λ a, not_done (AtPath a) e) <$> take most l)), db)
      | None =>
          let '(done, failed, db') := publish_paths p c publishBudget [] (take most l) sdb db in
          (publishReport done (past ++ failed), db')
      end
  end.
End Publish.

(** ** A machine uploads (gateway/files.go) *)

Definition MaxOutputFiles : Z := 20.
Definition maxFilesPerDirective : Z := 2 * MaxOutputFiles.
Definition uploadRate : Z := 1.
Definition uploadBurst : Z := MaxOutputFiles.

Definition directiveRefusal (state : string) (noTurn : bool) : option string :=
  if String.eqb state DirectiveReserved then Some "the directive has not started: nothing is published for it yet"
  else if negb (String.eqb state DirectiveRunning) then Some "the directive is over: nothing is published for it any more"
  else if noTurn then Some "this run belongs to no session turn (a scheduled task, for one): there is no session to publish to"
  else None.

(** A machine's limiter of uploads: [AllowUpload] is its answer and what it becomes. *)
Class Limiter := { limiter : Type; NewLimiter : Z → Z → limiter; Allow : time → limiter → bool * limiter }.

Section Gateway.
Context {GQ : GoQuote} {GT : GoText} {FT : FileTypes} {LM : Limiter}.

(** What the gateway keeps of uploads; what it told of the files published. *)
Record UploadState := mkUploads {
  UpFiles : FDB;
  UpLimiters : gmap string limiter;
  UpPublished : list (string * string * string * list string)
}.

(** A request: its header, its query, its length as it says, its body (what
    came of it, and what cut it, if anything); the database's failures. *)
Record UploadRequest := mkUpload {
  RqNow : time;
  RqAuthorization : string;
  RqDirective : string;
  RqName : string;
  RqLength : Z;
  RqBody : string;
  RqBroken : option string;
  RqID : string;
  RqTokenFails : bool;
  RqDirectiveFails : bool;
  RqSaveFails : bool
}.

Inductive UploadReply := UploadError (status : Z) (msg : string) | UploadStored (f : FileRef).

Definition gateway_max (configured : Z) : Z := if 0 <? configured then configured else DefaultMaxFileBytes.

Definition uploadAllowed (now : time) (machineID : string) (s : UploadState) : bool * UploadState :=
  let '(ok, l) := Allow now (default (NewLimiter uploadRate uploadBurst) (UpLimiters s !! machineID)) in
  (ok, mkUploads (UpFiles s) (<[machineID := l]> (UpLimiters s)) (UpPublished s)).

(** What is left of the body is read up to one byte past the bound. *)
Definition read_body (max : Z) (r : UploadRequest) : string + string :=
  let content := limited max (RqBody r) in
  if (len content <? wrap64 (max + 1)) then match RqBroken r with Some e => inl e | None => inr content end else inr content.

Definition save_refusal (name : string) (max : Z) (e : FileError) : Z * string :=
  let closed state noTurn := (409, default "" (directiveRefusal state noTurn)) in
  match e with
  | ErrFileExists => (409, "a file named " +:+ name +:+ " was already published by this run with different content: rename one of them")
  | ErrDirectiveFilesFull => (409, "this run published " +:+ itoa maxFilesPerDirective +:+ " files already, the most it may")
  | ErrDirectiveBytesFull => (409, "this run published as much as it may (" +:+ FormatSize (wrap64 (2 * max)) +:+ " in all)")
  | ErrFileSessionGone => (410, "the session was deleted")
  | OfDirective ErrDirectiveNotFound => (404, "unknown directive")
  | ErrDirectiveNotStarted => closed DirectiveReserved false
  | OfDirective ErrDirectiveClosed => closed DirectiveCompleted false
  | ErrDirectiveNoTurn => closed DirectiveRunning true
  | _ => (500, "internal error")
  end.

Definition upload_row (id name content : string) : File := file_row id "" "" "" "" "" name content.

Definition store_upload (max : Z) (m : Machine) (d : Directive) (name content : string) (r : UploadRequest) (sdb : SDB) (mdb : MDB)
    (s : UploadState) : UploadReply * UploadState :=
  if RqSaveFails r then (UploadError 500 "internal error", s)
  else
    match SaveDirectiveFile (RqNow r) sdb mdb (DirID d) (ID m) (upload_row (RqID r) name content) content
            (mkFileLimit maxFilesPerDirective (wrap64 (2 * max))) (UpFiles s) with
    | (inl e, db1) => let x := save_refusal name max e in (UploadError x.1 x.2, mkUploads db1 (UpLimiters s) (UpPublished s))
    | (inr f, db1) =>
        (UploadStored (fileRef f), mkUploads db1 (UpLimiters s) (UpPublished s ++ [(FiSession f, FiTurn f, FiAgent f, [FiID f])]))
    end.

Definition ServeFiles (configured : Z) (r : UploadRequest) (sdb : SDB) (mdb : MDB) (s : UploadState) : UploadReply * UploadState :=
  let fail s status msg := (UploadError status msg, s) in
  match cut_prefix "Bearer " (RqAuthorization r) with
  | None | Some "" => fail s 401 "machine token required"
  | Some token =>
      if RqTokenFails r then fail s 500 "internal error"
      else
        match MachineByToken (sha256_hex token) mdb with
        | (Some m, use) =>
            if negb (match use with TokenCurrent | TokenPending => true | _ => false end) || negb (is_none (RevokedAt m))
            then fail s 401 "machine token refused"
            else
              let '(ok, s) := uploadAllowed (RqNow r) (ID m) s in
              if negb ok then fail s 429 "too many files at once: try again in a moment"
              else if RqDirectiveFails r then fail s 500 "internal error"
              else
                match GetDirective (RqDirective r) mdb with
                | None => fail s 404 "unknown directive"
                | Some d =>
                    if negb (String.eqb (MachineOf d) (ID m)) then fail s 404 "unknown directive"
                    else
                      match directiveRefusal (DirState d) (no_turn d) with
                      | Some msg => fail s 409 msg
                      | None =>
                          match CleanFileName (RqName r) with
                          | inl e => fail s 400 e
                          | inr name =>
                              let max := gateway_max configured in
                              let large := fail s 413 ("too large: at most " +:+ FormatSize max +:+ " may be published") in
                              if max <? RqLength r then large
                              else
                                match read_body max r with
                                | inl e => fail s 400 ("read the file: " +:+ e)
                                | inr content =>
                                    if max <? len content then large else store_upload max m d name content r sdb mdb s
                                end
                          end
                      end
                end
        | (None, _) => fail s 401 "machine token refused"
        end
  end.

(** The files a result lists; a failure of the database loses the list. *)
Definition callFiles (fails : bool) (d : Directive) (db : FDB) : list FileRef :=
  if no_turn d || fails then [] else fileRef <$> ListCallFiles (DirSession d) (DirTurnKey d) (DirCallID d) db.
End Gateway.

(** ** The machine's side (machine/connect/upload.go) *)

Definition uploadTries : nat := 3.

Class UploadJSON := { unmarshal_ref : string → option FileRef; unmarshal_refusal : string → string }.

Inductive UploadFailure := UpError (msg : string) | UploadRefused (reason : string).

(** What the server answers to a try: an error of the connection, or its status and
    its body, of which 64 KiB are read. *)
Definition upload {GQ : GoQuote} {UJ : UploadJSON} (answer : string + Z * string) : UploadFailure + FileRef :=
  match answer with
  | inl e => inl (UpError e)
  | inr (status, body) =>
      let body := take_str 65536%nat body in
      if status =? 200 then
        match unmarshal_ref body with
        | Some ref => if String.eqb (FrID ref) "" then inl (UpError ("the server's answer: " +:+ quote (Cut body 200))) else inr ref
        | None => inl (UpError ("the server's answer: " +:+ quote (Cut body 200)))
        end
      else
        let msg := Cut (unmarshal_refusal body) 1024 in
        let msg := if String.eqb msg "" then "status " +:+ itoa status else msg in
        if (status =? 401) || (status / 100 =? 5) || (status =? 429) then inl (UpError msg) else inl (UploadRefused msg)
  end.

(** The tries, each after a wait twice as long as the one before: [answers]
    is what the server would answer at each, [cancelled] whether the run's context
    ended during the wait before it, and by its answer. The waits begun, too. *)
Record UploadTry := mkTry { TryWaitCut : option string; TryAnswer : string + Z * string; TryEnded : bool }.

Fixpoint upload_tries {GQ : GoQuote} {UJ : UploadJSON} (first : bool) (wait : Z) (last : UploadFailure) (l : list UploadTry) :
    (UploadFailure + FileRef) * list Z :=
  match l with
  | [] => (inl last, [])
  | t :: l =>
      match (if first then None else TryWaitCut t) with
      | Some e => (inl (UpError e), [wait])
      | None =>
          let waited := if first then [] else [wait] in
          match upload (TryAnswer t) with
          | inr ref => (inr ref, waited)
          | inl (UploadRefused reason) => (inl (UploadRefused reason), waited)
          | inl e => if TryEnded t then (inl e, waited)
                     else let '(res, waits) := upload_tries false (if first then wait else wait * 2) e l in (res, waited ++ waits)
          end
      end
  end.

Definition Upload {GQ : GoQuote} {UJ : UploadJSON} (directive : string) (answers : list UploadTry) : (UploadFailure + FileRef) * list Z :=
  if String.eqb directive "" then (inl (UpError "no directive to publish for"), [])
  else upload_tries true (2 * second) (UpError "") (take uploadTries answers).

(** ** Every file has its content *)

Lemma filter_unique {A} (p : A → bool) (l : list A) x :
  NoDup l → x ∈ l → p x = true → (∀ y, y ∈ l → p y = true → y = x) → List.filter p l = [x].
Proof.
  intros Hnd Hx Hp Hu. induction l as [|a l IH]; [by apply elem_of_nil in Hx|]. apply NoDup_cons in Hnd as [Ha Hnd].
  assert (Hnone : x = a → List.filter p l = []).
  { intros ->. destruct (List.filter p l) as [|y l'] eqn:E; [done|]. assert (y ∈ List.filter p l) as Hy by (rewrite E; by left).
    rewrite list_elem_of_In, filter_In, <- list_elem_of_In in Hy. destruct Hy as [Hy Hpy].
    rewrite (Hu y) in Hy by (done || by right). done. }
  cbn. apply elem_of_cons in Hx as [->|Hx]; [by rewrite Hp, Hnone|]. destruct (p a) eqn:E.
  - rewrite (Hu a) in Ha by (done || by left). done.
  - apply IH; try done. intros y Hy. apply Hu. by right.
Qed.

(** A name as a file takes it. *)
Record name_ok (name : string) : Prop := {
  nm_some : name ≠ "" ∧ name ≠ "." ∧ name ≠ "..";
  nm_no_path : has_byte "/" name = false ∧ has_byte bslash name = false;
  nm_text : valid_utf8 name = true ∧ len name ≤ 255;
  nm_seen : Forall (λ r, is_control r = false ∧ is_format r = false) (runes name)
}.

Section Kept.
Context {GQ : GoQuote} {GT : GoText} {FT : FileTypes}.

Lemma clean_name_ok s name : CleanFileName s = inr name → name_ok name.
Proof.
  unfold CleanFileName. set (n := trim_space s). clearbody n.
  destruct (String.eqb_spec n "") as [|H1]; [done|].
  destruct (String.eqb_spec n ".") as [|H2]; [done|]. destruct (String.eqb_spec n "..") as [|H3]; [done|]. cbn [orb].
  destruct (has_byte "/" n) eqn:H4; [done|]. destruct (has_byte bslash n) eqn:H5; [done|]. cbn [orb].
  destruct (valid_utf8 n) eqn:H6; [|done]. cbn [negb]. destruct (Z.ltb_spec maxFileNameBytes (len n)) as [|H7]; [done|].
  destruct (existsb hidden_rune (runes n)) eqn:H8; [done|]. intros [= <-]. split; [done|done|split; [done|exact H7]|].
  apply Forall_forall. intros r Hr. apply orb_false_iff. apply not_true_iff_false. intros Hh.
  apply not_true_iff_false in H8. apply H8. apply existsb_exists. exists r. by rewrite <- list_elem_of_In.
Qed.

(** A row keeps what its content is. *)
Definition row_of (f : File) (content : string) : Prop :=
  FiSize f = len content ∧ FiSHA f = sha256_hex content ∧ name_ok (FiName f).

Record files_ok (exists_ : string → bool) (db : FDB) : Prop := {
  fo_ids : keys_ok (rows db);
  fo_calls : ∀ f g, f ∈ rows db → g ∈ rows db → same_call f g = true → f = g;
  fo_content : ∀ f, f ∈ rows db → ∃ content, contents db !! FiID f = Some content ∧ row_of f content;
  fo_only : ∀ id content, contents db !! id = Some content → is_none (get id (rows db)) = false;
  fo_session : ∀ f, f ∈ rows db → exists_ (FiSession f) = true
}.

Lemma of_call_spec session turn call f :
  of_file_call session turn call f = true ↔ FiSession f = session ∧ FiTurn f = turn ∧ FiCall f = call.
Proof. unfold of_file_call. rewrite !andb_true_iff, !String.eqb_eq. tauto. Qed.

Lemma same_call_spec f g :
  same_call f g = true ↔ (FiSession g = FiSession f ∧ FiTurn g = FiTurn f ∧ FiCall g = FiCall f) ∧ FiName g = FiName f.
Proof. unfold same_call. by rewrite andb_true_iff, of_call_spec, String.eqb_eq. Qed.

Lemma find_same f db : List.find (same_call f) (rows db) = None → ∀ g, g ∈ rows db → same_call f g = false.
Proof. intros H g Hg. apply (find_none _ _ H). by apply list_elem_of_In. Qed.

(** What a write gives: nothing changes but when it returns a file that was not there, its content with it. *)
Lemma saveFile_cases now ex f content db res db1 :
  saveFile now ex f content db = (res, db1) →
  (db1 = db ∧ ∀ g, res = inr g → g ∈ rows db ∧ same_call f g = true ∧ FiSHA g = FiSHA f) ∨
  (res = inr (created now f) ∧ db1 = mkFDB (rows db ++ [created now f]) (<[FiID f := content]> (contents db)) ∧
   (∀ g, g ∈ rows db → same_call f g = false) ∧ get (FiID f) (rows db) = None ∧ ex (FiSession f) = true).
Proof.
  unfold saveFile. destruct (FiSize f <? 0); [intros [= <- <-]; by left|].
  destruct (List.find (same_call f) (rows db)) as [g|] eqn:E.
  - apply find_some in E as [Hg Hs]. rewrite <- list_elem_of_In in Hg.
    destruct (String.eqb_spec (FiSHA g) (FiSHA f)) as [Hsha|]; intros [= <- <-]; left; (split; [done|]); [|done].
    intros x [= <-]. done.
  - destruct (get (FiID f) (rows db)) eqn:Eg; [intros [= <- <-]; by left|]. cbn [is_none negb].
    destruct (ex (FiSession f)) eqn:Ex; [|intros [= <- <-]; by left]. cbn [negb].
    destruct (contents db !! FiID f); [intros [= <- <-]; by left|]. intros [= <- <-]. right. split_and!; try done.
    by apply find_same.
Qed.

Lemma saveFile_ok now ex f content db res db1 :
  saveFile now ex f content db = (res, db1) → row_of f content → files_ok ex db →
  files_ok ex db1 ∧ ∀ g, res = inr g → g ∈ rows db1 ∧ same_call f g = true ∧ FiSHA g = FiSHA f.
Proof.
  intros [[-> Hg]|(-> & -> & Hn & Hid & Hex)]%saveFile_cases Hrow Hok; [done|]. split; cycle 1.
  { intros g [= <-]. cbn [rows]. split_and!; [apply elem_of_app; right; by constructor|by apply same_call_spec|done]. }
  destruct Hok as [H1 H2 H3 H4 H5]. split; cbn [rows contents].
  - by apply keys_snoc.
  - assert (Hsame : ∀ x y, same_call (created now f) x = same_call f x ∧ same_call y (created now f) = same_call y f) by done.
    intros x y [Hx|Hx%list_elem_of_singleton]%elem_of_app [Hy|Hy%list_elem_of_singleton]%elem_of_app Hs; subst; [by apply H2| | |done].
    + apply Hn in Hx. exfalso. apply not_true_iff_false in Hx. apply Hx. apply same_call_spec.
      apply same_call_spec in Hs. naive_solver.
    + apply Hn in Hy. destruct (Hsame y y) as [Hc _]. congruence.
  - intros x [Hx|Hx%list_elem_of_singleton]%elem_of_app.
    + destruct (H3 _ Hx) as (c & Hc & Hr). exists c. split; [|done]. rewrite lookup_insert_ne; [done|].
      intros He. apply get_none in Hid. apply Hid. rewrite He. by apply (list_elem_of_fmap_2 FiID).
    + subst. exists content. by rewrite lookup_insert_eq.
  - intros id c. rewrite get_snoc. destruct (decide (FiID f = id)) as [<-|Hne].
    + intros _. rewrite Hid. unfold has_key. cbn. by rewrite String.eqb_refl.
    + rewrite lookup_insert_ne by done. intros Hc%H4. by destruct (get id (rows db)).
  - intros x [Hx|Hx%list_elem_of_singleton]%elem_of_app; [by apply H5|by subst].
Qed.

Lemma directive_save_ok now sdb mdb did mid f content limit db res db1 :
  SaveDirectiveFile now sdb mdb did mid f content limit db = (res, db1) → row_of f content →
  files_ok (in_sessions sdb) db → files_ok (in_sessions sdb) db1.
Proof.
  unfold SaveDirectiveFile. destruct (GetDirective did mdb) as [d|]; [|by intros [= <- <-]].
  repeat (destruct (_ : bool); [by intros [= <- <-]|]). destruct (List.find _ _); [by intros [= <- <-]|].
  repeat (destruct (_ : bool); [by intros [= <- <-]|]). intros H Hrow Hok. by eapply saveFile_ok in H as [? _].
Qed.

Lemma publish_ok p c name content max io sdb db res db1 :
  publish p c name content max io sdb db = (res, db1) → files_ok (in_sessions sdb) db → files_ok (in_sessions sdb) db1.
Proof.
  unfold publish. destruct (publisher_call p c) as [|[t call]]; [by intros [= <- <-]|].
  destruct (CleanFileName name) as [|n] eqn:En; [by intros [= <- <-]|]. destruct (_ <? _); [by intros [= <- <-]|].
  destruct (ScFails io); [by intros [= <- <-]|]. destruct (SaveFile _ _ _ _ _) as [r d] eqn:E. intros [= <- <-] Hok.
  eapply saveFile_ok in E as [? _]; [done| |done]. split_and!; [done|done|]. by eapply clean_name_ok.
Qed.

Lemma publish_paths_ok p c budget l sdb : ∀ names db done failed db1,
  publish_paths p c budget names l sdb db = (done, failed, db1) → files_ok (in_sessions sdb) db → files_ok (in_sessions sdb) db1.
Proof.
  induction l as [|a l IH]; intros names db done failed db1; [by intros [= <- <- <-]|]. cbn [publish_paths].
  assert (Hnext : ∀ e ns d, (let '(x, y, z) := publish_paths p c budget ns l sdb d in (x, not_done (AtPath a) e :: y, z)) = (done, failed, db1) →
      files_ok (in_sessions sdb) d → files_ok (in_sessions sdb) db1).
  { intros e ns d. destruct (publish_paths p c budget ns l sdb d) as [[x y] z] eqn:E. intros [= <- <- <-]. by eapply IH. }
  destruct (AtOver a); [apply Hnext|]. destruct (contains _ _); [apply Hnext|]. destruct (readPublished _ _ _); [apply Hnext|].
  destruct (publish _ _ _ _ _ _ _ _) as [[e|f] d] eqn:Ep.
  - intros H Hok. eapply Hnext; [exact H|]. by eapply publish_ok.
  - destruct (publish_paths p c budget _ l sdb d) as [[x y] z] eqn:E. intros [= <- <- <-] Hok.
    eapply IH; [exact E|]. by eapply publish_ok.
Qed.

Lemma workspace_ok p c opened l sdb db text db1 :
  publishFromWorkspace p c opened l sdb db = (text, db1) → files_ok (in_sessions sdb) db → files_ok (in_sessions sdb) db1.
Proof.
  unfold publishFromWorkspace. destruct l as [|a l]; [by intros [= <- <-]|]. destruct opened; [by intros [= <- <-]|].
  destruct (publish_paths _ _ _ _ _ _ _) as [[x y] z] eqn:E. intros [= <- <-]. by eapply publish_paths_ok.
Qed.

Lemma cascade_ok sdb session db :
  files_ok (in_sessions sdb) db → files_ok (in_sessions (DeleteSession session sdb)) (DeleteSessionFiles session db).
Proof.
  intros [H1 H2 H3 H4 H5].
  assert (Hin : ∀ f, f ∈ List.filter (λ f, negb (in_session session f)) (rows db) ↔ f ∈ rows db ∧ FiSession f ≠ session).
  { intros f. rewrite !list_elem_of_In, filter_In, <- list_elem_of_In, negb_true_iff. unfold in_session. by rewrite String.eqb_neq. }
  split; cbn [rows contents DeleteSessionFiles].
  - by apply keys_filter.
  - intros f g [Hf _]%Hin [Hg _]%Hin. by apply H2.
  - intros f [Hf Hs]%Hin. destruct (H3 _ Hf) as (c & Hc & Hr). exists c. split; [|done]. apply map_lookup_filter_Some_2; [done|].
    apply not_true_iff_false. intros Hg. apply contains_spec in Hg. apply list_elem_of_fmap in Hg as (g & Hid & Hg).
    rewrite list_elem_of_In, filter_In, <- list_elem_of_In in Hg. destruct Hg as [Hg Hgs].
    unfold in_session in Hgs. apply String.eqb_eq in Hgs. apply Hs. rewrite <- Hgs. f_equal. by eapply keys_unique.
  - intros id c [Hc Hn]%map_lookup_filter_Some. specialize (H4 _ _ Hc). destruct (get id (rows db)) as [f|] eqn:E; [|done].
    apply get_some in E as [Hf Hid]. cbn in Hid. subst id.
    enough (f ∈ List.filter (λ f, negb (in_session session f)) (rows db)) as Hf'.
    { apply get_in in Hf'; [|by apply keys_filter]. cbn in Hf'. by rewrite Hf'. }
    apply Hin. split; [done|]. intros Hs. apply not_true_iff_false in Hn. apply Hn. apply contains_spec.
    apply list_elem_of_fmap. exists f. split; [done|]. rewrite list_elem_of_In, filter_In, <- list_elem_of_In.
    split; [done|]. unfold in_session. by apply String.eqb_eq.
  - intros f [Hf Hs]%Hin. specialize (H5 _ Hf). unfold in_sessions in *. destruct (get (FiSession f) (sessions sdb)) as [x|] eqn:E; [|done].
    apply get_some in E as [Hx Hk]. cbn [sessions DeleteSession].
    destruct (get (FiSession f) _) eqn:E'; [done|]. apply get_none in E'. exfalso. apply E'.
    apply list_elem_of_fmap. exists (unlink session x). split; [unfold unlink; destruct (String.eqb _ _); by rewrite <- Hk|].
    apply list_elem_of_fmap. exists x. split; [done|]. rewrite list_elem_of_In, filter_In, <- list_elem_of_In. split; [done|].
    apply negb_true_iff, not_true_iff_false. intros He%has_key_spec. congruence.
Qed.

(** What happens to the tables: a tool publishes, after a command or not, a machine
    uploads, a session is deleted, or others come. *)
Inductive fstep {LM : Limiter} : SDB * FDB → SDB * FDB → Prop :=
| FPublish p c name content max io sdb db res db1 :
    publish p c name content max io sdb db = (res, db1) → fstep (sdb, db) (sdb, db1)
| FWorkspace p c opened l sdb db text db1 :
    publishFromWorkspace p c opened l sdb db = (text, db1) → fstep (sdb, db) (sdb, db1)
| FUpload configured r sdb mdb s reply s1 :
    ServeFiles configured r sdb mdb s = (reply, s1) → fstep (sdb, UpFiles s) (sdb, UpFiles s1)
| FDelete session sdb db : fstep (sdb, db) (DeleteSession session sdb, DeleteSessionFiles session db)
| FSessions sdb sdb1 db :
    (∀ id, in_sessions sdb id = true → in_sessions sdb1 id = true) → fstep (sdb, db) (sdb1, db).

(** An upload that reaches the store, and what the others leave. *)
Lemma serve_cases {LM : Limiter} configured r sdb mdb s reply s1 :
  ServeFiles configured r sdb mdb s = (reply, s1) →
  (UpFiles s1 = UpFiles s ∧ UpPublished s1 = UpPublished s ∧ ∀ ref, reply ≠ UploadStored ref) ∨
  ∃ m d name content res, let max := gateway_max configured in
    CleanFileName (RqName r) = inr name ∧ len content ≤ max ∧ GetDirective (RqDirective r) mdb = Some d ∧
    directiveRefusal (DirState d) (no_turn d) = None ∧ content = limited max (RqBody r) ∧
    SaveDirectiveFile (RqNow r) sdb mdb (DirID d) (ID m) (upload_row (RqID r) name content) content
      (mkFileLimit maxFilesPerDirective (wrap64 (2 * max))) (UpFiles s) = (res, UpFiles s1) ∧
    (∀ ref, reply = UploadStored ref → ∃ f, res = inr f ∧ ref = fileRef f).
Proof.
  unfold ServeFiles. destruct (cut_prefix _ _) as [[|a token]|]; [intros [= <- <-]; by left| |intros [= <- <-]; by left].
  destruct (RqTokenFails r); [intros [= <- <-]; by left|].
  destruct (MachineByToken _ mdb) as [[m|] use]; [|intros [= <- <-]; by left].
  destruct (_ || _); [intros [= <- <-]; by left|].
  destruct (uploadAllowed (RqNow r) (ID m) s) as [ok s'] eqn:Eu. unfold uploadAllowed in Eu.
  destruct (Allow _ _) as [ok' l]. injection Eu as <- <-. set (s' := mkUploads _ _ _).
  assert (Hs' : UpFiles s' = UpFiles s ∧ UpPublished s' = UpPublished s) by done. clearbody s'. destruct Hs' as [Hf Hp].
  destruct ok'; cbn [negb]; [|intros [= <- <-]; by left]. destruct (RqDirectiveFails r); [intros [= <- <-]; by left|].
  destruct (GetDirective _ mdb) as [d|] eqn:Ed; [|intros [= <- <-]; by left].
  destruct (negb _); [intros [= <- <-]; by left|]. destruct (directiveRefusal _ _) eqn:Er; [intros [= <- <-]; by left|].
  destruct (CleanFileName _) as [|name] eqn:En; [intros [= <- <-]; by left|]. destruct (_ <? _); [intros [= <- <-]; by left|].
  destruct (read_body _ _) as [|content] eqn:Eb; [intros [= <- <-]; by left|].
  destruct (Z.ltb_spec (gateway_max configured) (len content)) as [|Hl]; [intros [= <- <-]; by left|].
  assert (content = limited (gateway_max configured) (RqBody r)) as Hc.
  { revert Eb. unfold read_body. destruct (_ <? _); [destruct (RqBroken r)|]; congruence. }
  unfold store_upload. destruct (RqSaveFails r); [intros [= <- <-]; by left|].
  destruct (SaveDirectiveFile _ _ _ _ _ _ _ _ _) as [[e|f] db1] eqn:Es; intros [= <- <-]; right;
    exists m, d, name, content; rewrite Hf in Es; (eexists; split_and!; [done|done|done|done|done|exact Es|]); [done|].
  intros ref [= <-]. eauto.
Qed.

Lemma fstep_ok {LM : Limiter} w w1 : fstep w w1 → files_ok (in_sessions w.1) w.2 → files_ok (in_sessions w1.1) w1.2.
Proof.
  destruct 1 as [p c name content max io sdb db res db1 H|p c opened l sdb db text db1 H|configured r sdb mdb s reply s1 H| |sdb sdb1 db H];
    cbn [fst snd]; intros Hok.
  - by eapply publish_ok.
  - by eapply workspace_ok.
  - apply serve_cases in H as [(-> & _)|(m & d & name & content & res & Hn & _ & _ & _ & _ & Hs & _)]; [done|].
    eapply directive_save_ok; [exact Hs| |exact Hok]. split_and!; [done|done|]. by eapply clean_name_ok.
  - by apply cascade_ok.
  - destruct Hok as [H1 H2 H3 H4 H5]. split; auto.
Qed.

(** C25. Whatever tools publish, machines upload and users delete, in whatever
    order, every file a session lists has its content, of the size and the
    hash it says, under a name that is a name: no path, no control or
    invisible character, valid UTF-8 of at most 255 bytes. Its session exists;
    there is one file at most of an identifier, and one of a call and a name,
    and no content of no file. *)
Theorem files_kept {LM : Limiter} sdb0 sdb db :
  rtc fstep (sdb0, mkFDB [] ∅) (sdb, db) →
  (∀ f, f ∈ rows db →
     (∃ content, ReadFileContent (FiID f) db = Some content ∧ FiSize f = len content ∧ FiSHA f = sha256_hex content) ∧
     name_ok (FiName f) ∧ in_sessions sdb (FiSession f) = true ∧ GetFile (FiID f) db = Some f ∧
     List.filter (same_call f) (rows db) = [f]) ∧
  ∀ id content, ReadFileContent id db = Some content → ∃ f, GetFile id db = Some f.
Proof.
  intros Hr. assert (Hok : files_ok (in_sessions sdb) db).
  { change (files_ok (in_sessions (sdb, db).1) (sdb, db).2). assert (Hi : files_ok (in_sessions sdb0) (mkFDB [] ∅)).
    { split; cbn [rows contents]; [by apply NoDup_nil|by intros f g Hf%elem_of_nil|by intros f Hf%elem_of_nil| |by intros f Hf%elem_of_nil].
      intros id c. by rewrite lookup_empty. }
    change (files_ok (in_sessions (sdb0, mkFDB [] ∅).1) (sdb0, mkFDB [] ∅).2) in Hi. revert Hi.
    generalize dependent (sdb, db). generalize (sdb0, mkFDB [] ∅). intros w w' Hr. induction Hr; eauto using fstep_ok. }
  destruct Hok as [H1 H2 H3 H4 H5]. split.
  - intros f Hf. destruct (H3 _ Hf) as (c & Hc & Hsz & Hsha & Hn). split_and!; [by exists c|done|by apply H5|by apply get_in|].
    apply filter_unique; [by apply (NoDup_fmap_1 FiID)|done|by apply same_call_spec|]. intros g Hg Hs. symmetry. by apply H2.
  - intros id c Hc%H4. unfold GetFile. destruct (get id (rows db)); [by eexists|done].
Qed.
End Kept.

(** ** What a directive publishes is bounded *)

Section Bounded.
Context {GQ : GoQuote} {GT : GoText} {FT : FileTypes} {LM : Limiter}.

(** The uploads of machines, one after the other, each with the tables of then. *)
Definition serve_all (configured : Z) (l : list (UploadRequest * SDB * MDB)) (s : UploadState) : UploadState :=
  fold_left (λ s x, (ServeFiles configured x.1.1 x.1.2 x.2 s).2) l s.

Definition call_rows (session turn call : string) (s : UploadState) : list File :=
  List.filter (of_file_call session turn call) (rows (UpFiles s)).

Lemma files_total_app a b : files_total (a ++ b) = files_total a + files_total b.
Proof. unfold files_total. induction a; cbn; lia. Qed.

Definition within (max : Z) (l : list File) : Prop :=
  Z.of_nat (length l) ≤ maxFilesPerDirective ∧ files_total l ≤ 2 * max ∧ Forall (λ f, 0 ≤ FiSize f ≤ max) l.

Lemma total_nonneg max l : Forall (λ f, 0 ≤ FiSize f ≤ max) l → 0 ≤ files_total l.
Proof. induction 1; cbn; unfold files_total in *; lia. Qed.

Lemma wrap64_small z : - 2 ^ 63 ≤ z < 2 ^ 63 → wrap64 z = z.
Proof. intros H. unfold wrap64. rewrite Z.mod_small by lia. lia. Qed.

Lemma serve_within configured r sdb mdb s session turn call :
  gateway_max configured ≤ 2 ^ 61 → within (gateway_max configured) (call_rows session turn call s) →
  within (gateway_max configured) (call_rows session turn call (ServeFiles configured r sdb mdb s).2).
Proof.
  intros Hmax Hw. destruct (ServeFiles configured r sdb mdb s) as [reply s1] eqn:E. cbn [snd].
  apply serve_cases in E as [(Hs & _)|(m & d & name & content & res & _ & Hlen & Hd & _ & _ & Hs & _)].
  { unfold call_rows. by rewrite Hs. }
  set (max := gateway_max configured) in *. assert (Hpos : 0 ≤ len content) by (unfold len; lia).
  unfold SaveDirectiveFile in Hs. destruct (GetDirective (DirID d) mdb) as [d'|]; cycle 1.
  { injection Hs as _ Hs. unfold call_rows. by rewrite <- Hs. }
  do 4 (destruct (_ : bool); [injection Hs as _ Hs; unfold call_rows; by rewrite <- Hs|]).
  set (f := for_directive d' (upload_row (RqID r) name content)) in *.
  destruct (List.find _ _); [injection Hs as _ Hs; unfold call_rows; by rewrite <- Hs|]. cbn [LimFiles LimBytes] in Hs.
  set (l := List.filter _ _) in Hs.
  destruct ((0 <? maxFilesPerDirective) && _) eqn:H1; [injection Hs as _ Hs; unfold call_rows; by rewrite <- Hs|].
  destruct ((0 <? wrap64 (2 * max)) && _) eqn:H2; [injection Hs as _ Hs; unfold call_rows; by rewrite <- Hs|].
  apply saveFile_cases in Hs as [(Hs & _)|(_ & Hs & _)]; unfold call_rows; rewrite Hs; [done|]. cbn [rows].
  rewrite List.filter_app. cbn [List.filter]. destruct (of_file_call session turn call (created _ f)) eqn:Ec; [|by rewrite app_nil_r].
  assert (Hl : l = List.filter (of_file_call session turn call) (rows (UpFiles s))).
  { apply of_call_spec in Ec as (<- & <- & <-). done. }
  fold (call_rows session turn call s) in Hl. rewrite Hl in H1, H2. fold (call_rows session turn call s).
  destruct Hw as (Hn & Ht & Hf). pose proof (total_nonneg _ _ Hf) as Ht0. assert (Hsz : FiSize f = len content) by done.
  rewrite Hsz in H2. assert (0 ≤ max) by lia.
  rewrite !wrap64_small in H2 by lia. unfold within. rewrite length_app, files_total_app, Nat2Z.inj_add, Forall_app, Forall_singleton.
  cbn [length files_total foldr created FiSize]. rewrite Hsz.
  unfold maxFilesPerDirective, MaxOutputFiles in *. apply andb_false_iff in H1 as [H1|H1]; [done|]. apply Z.leb_gt in H1.
  apply andb_false_iff in H2 as [H2|H2]; [apply Z.ltb_ge in H2|apply Z.ltb_ge in H2]; split_and!; try done; lia.
Qed.

(** C36. Whatever the machines ask, with whatever tokens, bodies and tables at each
    request, one call's directive publishes at most 40 files, each within the
    server's bound, and twice that bound in all; for any bound up to 2 EiB,
    past which twice the bound is no longer a 64-bit number. *)
Theorem uploads_bounded configured l session turn call s0
    (Hmax : gateway_max configured ≤ 2 ^ 61) (Hnone : call_rows session turn call s0 = []) :
  let published := call_rows session turn call (serve_all configured l s0) in
  Z.of_nat (length published) ≤ 40 ∧ files_total published ≤ 2 * gateway_max configured ∧
  Forall (λ f, FiSize f ≤ gateway_max configured) published.
Proof.
  assert (Hw : within (gateway_max configured) (call_rows session turn call (serve_all configured l s0))).
  { assert (Hw0 : within (gateway_max configured) (call_rows session turn call s0)).
    { rewrite Hnone. unfold gateway_max, DefaultMaxFileBytes. split_and!; [done| |done].
      cbn. destruct (Z.ltb_spec 0 configured); lia. }
    clear Hnone. revert s0 Hw0. induction l as [|[[r sdb] mdb] l IH]; intros s0 Hw; [done|]. cbn. apply IH. by apply serve_within. }
  destruct Hw as (H1 & H2 & H3). split_and!; [exact H1|exact H2|]. eapply Forall_impl; [exact H3|]. by intros f [_ Hf].
Qed.
End Bounded.

(** A machine's first upload, which its directive's call stores. *)
Section Demo.
#[local] Instance demo_quote : GoQuote := λ s, s.
#[local] Instance demo_text : GoText := mkGoText (λ s, s) (λ _, false).
#[local] Instance demo_types : FileTypes := {| sha256_hex s := "sum of " +:+ s; TypeByExtension _ := ""; DetectContentType _ := "text/plain" |}.
#[local] Instance demo_limiter : Limiter := {| limiter := unit; NewLimiter _ _ := tt; Allow _ l := (true, l) |}.

Definition demo_sdb : SDB := mkSDB [] [mkSession "s1" "u1" "" "" "" "" 0 "" "" 0 "" "" 0 0 0 None] [] noMessages ∅.
Definition demo_mdb (state : string) : MDB :=
  let m := mkMachine "m1" "u1" "laptop" "linux" [] 1 0 false "" "" "" 0 None None "" "" 0 "" "" "" None None in
  let d := mkDirective "d1" "m1" "u1" "analyze_repo" "{}" "w" "r" "a" "k" None state 0 0 "" "s1" "p" "a1" "t1" "c1" "a1" None "" 0 None None in
  mkMDB [mkMachineRow m (Some "sum of tok") None] [] [] [d].
Definition demo_upload (name body : string) : UploadRequest :=
  mkUpload 1 "Bearer tok" "d1" name (len body) body None ("f-" +:+ name) false false false.
Definition no_uploads : UploadState := mkUploads (mkFDB [] ∅) ∅ [].

Definition names_of (s : UploadState) : list (string * Z) := (λ f, (FiName f, FiSize f)) <$> rows (UpFiles s).

(** The same name and content again is the file stored first; another content is refused. *)
Example uploads_told :
  let serve r s := ServeFiles 0 r demo_sdb (demo_mdb DirectiveRunning) s in
  let '(r1, s1) := serve (demo_upload "a.md" "hello") no_uploads in
  let '(r2, s2) := serve (demo_upload "a.md" "hello") s1 in
  let '(r3, s3) := serve (demo_upload "a.md" "other") s2 in
  let '(r4, s4) := serve (demo_upload "../b" "hello") s3 in
  let ref := mkFileRef "f-a.md" "a.md" "text/markdown; charset=utf-8" 5 "sum of hello" in
  [r1; r2; r3; r4] =
  [UploadStored ref; UploadStored ref;
   UploadError 409 "a file named a.md was already published by this run with different content: rename one of them";
   UploadError 400 "../b is a path: give a file name, with no / or \"] ∧
  names_of s4 = [("a.md", 5)].
Proof. vm_compute. by split. Qed.

(** FILES_MAX_BYTES at the largest number parseFileBytes takes: one byte more is
    a negative bound, and every file is stored empty. *)
Example unbounded_is_empty :
  let '(reply, s) := ServeFiles (2 ^ 63 - 1) (demo_upload "a.md" "hello") demo_sdb (demo_mdb DirectiveRunning) no_uploads in
  reply = UploadStored (mkFileRef "f-a.md" "a.md" "text/markdown; charset=utf-8" 0 "sum of ") ∧ names_of s = [("a.md", 0)].
Proof. vm_compute. by split. Qed.

Lemma uploads_bounded_witness :
  let l := [(demo_upload "a.md" "hello", demo_sdb, demo_mdb DirectiveRunning); (demo_upload "b.md" "12345678", demo_sdb, demo_mdb DirectiveRunning);
            (demo_upload "c.md" "1234567", demo_sdb, demo_mdb DirectiveRunning)] in
  (let published := call_rows "s1" "t1" "c1" (serve_all 7 l no_uploads) in
   Z.of_nat (length published) ≤ 40 ∧ files_total published ≤ 2 * gateway_max 7 ∧ Forall (λ f, FiSize f ≤ gateway_max 7) published) ∧
  names_of (serve_all 7 l no_uploads) = [("a.md", 5); ("c.md", 7)].
Proof.
  split; [|vm_compute; reflexivity].
  apply (uploads_bounded 7 [(demo_upload "a.md" "hello", demo_sdb, demo_mdb DirectiveRunning); (demo_upload "b.md" "12345678", demo_sdb, demo_mdb DirectiveRunning);
            (demo_upload "c.md" "1234567", demo_sdb, demo_mdb DirectiveRunning)] "s1" "t1" "c1" no_uploads); [vm_compute; by intros ?|reflexivity].
Defined.

Lemma files_kept_witness :
  let db := mkFDB [mkFile "f1" "s1" "t1" "c1" "a1" "u1" "a.md" "text/markdown; charset=utf-8" 5 "sum of hello" 1] (<["f1" := "hello"]> ∅) in
  (∀ f, f ∈ rows db →
     (∃ content, ReadFileContent (FiID f) db = Some content ∧ FiSize f = len content ∧ FiSHA f = sha256_hex content) ∧
     name_ok (FiName f) ∧ in_sessions demo_sdb (FiSession f) = true ∧ GetFile (FiID f) db = Some f ∧
     List.filter (same_call f) (rows db) = [f]) ∧
  ∀ id content, ReadFileContent id db = Some content → ∃ f, GetFile id db = Some f.
Proof.
  apply (@files_kept demo_quote demo_text demo_types demo_limiter demo_sdb demo_sdb). apply rtc_once.
  eapply (FPublish (Some (mkPublisher true 0)) (mkPubCtx (Some (mkContext [] "" "" "" "" None false (Some (mkTurnRef "s1" "t1")) "c1" "u1" [])) "a1" "u1")
    " a.md" "hello" MaxTextFileBytes (mkStoreCall 1 "f1" None "")). vm_compute. reflexivity.
Defined.
End Demo.
