(* ===== verification/FileServe.v ===== *)
(** * A published file's download (src/cmd/agent/files.go)

    What the server answers to a request of a file: its content to the members
    of its session, as an attachment under headers that no browser runs. The
    media types are the library's ([MediaTypes]); a failure of the database is
    an argument of the request. *)

From S2P Require Import Prelude GoStr Utf8 Json Message Store Table MachineData CallInputs Users Sessions AgentData AgentTurn CodingData Files.
Open Scope string_scope.
Open Scope Z_scope.
Open Scope list_scope.

(** ** The headers *)

(** [mime.ParseMediaType] and [mime.FormatMediaType]. *)
Class MediaTypes := {
  ParseMediaType : string → option (string * list (string * string));
  FormatMediaType : string → list (string * string) → string
}.

Definition servableTypes : list string :=
  ["text/plain"; "text/csv"; "text/markdown"; "text/tab-separated-values"; "application/json"; "application/yaml";
   "application/pdf"; "application/zip"; "image/png"; "image/jpeg"; "image/gif"; "image/webp"].

Definition servedType {MT : MediaTypes} (t : string) : string :=
  match ParseMediaType t with
  | None => "application/octet-stream"
  | Some (base, params) =>
      if negb (contains servableTypes base) then "application/octet-stream"
      else
        match List.find (λ kv, String.eqb kv.1 "charset") params with
        | Some cs => if has_prefix base "text/" then FormatMediaType base [("charset", cs.2)] else base
        | None => base
        end
  end.

(** The name in ASCII. *)
Definition plain_rune (r : Z) : bool := (32 <=? r) && (r <=? 126) && negb (r =? 34) && negb (r =? 92) && negb (r =? 37).
Definition ascii_rune (r : Z) : ascii := if plain_rune r then byte r else "_"%char.

Fixpoint string_of (l : list ascii) : string := match l with [] => "" | c :: l => String c (string_of l) end.

Definition ascii_name (name : string) : string := string_of (ascii_rune <$> runes name).

(** The name in UTF-8, its other bytes as a percent and two hexadecimal digits. *)
Definition is_alnum (b : Z) : bool := ((97 <=? b) && (b <=? 122)) || ((65 <=? b) && (b <=? 90)) || ((48 <=? b) && (b <=? 57)).
Definition isAttrChar (c : ascii) : bool := is_alnum (byte_of c) || (0 <=? index_byte c "!#$&+-.^_`|~").

Definition upper_hex (z : Z) : ascii := byte (if z <? 10 then 48 + z else 55 + z).

Fixpoint encoded_name (name : string) : string :=
  match name with
  | "" => ""
  | String c name =>
      (if isAttrChar c then String c ""
       else String "%" (String (upper_hex (byte_of c / 16)) (String (upper_hex (byte_of c mod 16)) ""))) +:+ encoded_name name
  end.

Definition disposition_start : string := "attachment; filename=" +:+ String dquote "".
Definition disposition_middle : string := String dquote "; filename*=UTF-8''".

Definition attachment (name : string) : string := disposition_start +:+ ascii_name name +:+ disposition_middle +:+ encoded_name name.

(** ** The handlers *)

Inductive Download :=
| DownloadError (status : Z) (msg : string)
| DownloadFile (headers : list (string * string)) (body : string).

(** The failures of the three reads. *)
Record DownloadFails := mkFails { FailFile : bool; FailMember : bool; FailContent : bool }.

Definition fileDownload {MT : MediaTypes} (fileID user : string) (fails : DownloadFails) (sdb : SDB) (db : FDB) : Download :=
  let broken := DownloadError 500 "Internal error" in
  let unknown := DownloadError 404 "File not found" in
  if FailFile fails then broken
  else
    match GetFile fileID db with
    | None => unknown
    | Some f =>
        if FailMember fails then broken
        else if negb (IsSessionMember (FiSession f) user sdb) then unknown
        else if FailContent fails then broken
        else
          match ReadFileContent (FiID f) db with
          | None => unknown
          | Some content =>
              DownloadFile
                [("Content-Type", servedType (FiType f)); ("Content-Disposition", attachment (FiName f));
                 ("Content-Length", itoa (len content)); ("X-Content-Type-Options", "nosniff");
                 ("Content-Security-Policy", "sandbox"); ("Cache-Control", "private")] content
          end
    end.

(** A file in the JSON API: where it is downloaded, too. *)
Definition listFiles (session : string) (fails : bool) (db : FDB) : Z + list (File * string) :=
  if fails then inl 500 else inr ((λ f, (f, "/files/" +:+ FiID f)) <$> ListSessionFiles session db).

(** ** What a client reads of the name

    The header's grammar, from the RFCs rather than from the code: a type, then
    parameters, each a token and a value, a token or a quoted string (RFC 6266,
    RFC 9110); the value of a starred parameter is a charset, a language and
    octets, some as a percent and two hexadecimal digits (RFC 5987). A byte
    that no rule admits, as a line's end, makes the header unreadable. *)

Definition alpha_digit (c : ascii) : bool :=
  let b := byte_of c in (48 <=? b) && (b <=? 57) || (65 <=? b) && (b <=? 90) || (97 <=? b) && (b <=? 122).

(** [tchar], [qdtext], what a quoted pair may hold, [attr-char]. *)
Definition tchar (c : ascii) : bool :=
  alpha_digit c || bool_decide (byte_of c ∈ [33; 35; 36; 37; 38; 39; 42; 43; 45; 46; 94; 95; 96; 124; 126]).
Definition qdtext (c : ascii) : bool :=
  let b := byte_of c in
  (b =? 9) || (b =? 32) || (b =? 33) || (35 <=? b) && (b <=? 91) || (93 <=? b) && (b <=? 126) || (128 <=? b).
Definition quotable (c : ascii) : bool := let b := byte_of c in (b =? 9) || (32 <=? b) && (b <=? 126) || (128 <=? b).
Definition attr_char (c : ascii) : bool :=
  alpha_digit c || bool_decide (byte_of c ∈ [33; 35; 36; 38; 43; 45; 46; 94; 95; 96; 124; 126]).

Definition backslash : ascii := byte 92.

Fixpoint span (p : ascii → bool) (s : string) : string * string :=
  match s with
  | "" => ("", "")
  | String c s' => if p c then let '(a, b) := span p s' in (String c a, b) else ("", s)
  end.

(** What a quoted string says, past its first quote, and what follows it. *)
Fixpoint quoted (s : string) : option (string * string) :=
  match s with
  | "" => None
  | String c s =>
      if Ascii.eqb c dquote then Some ("", s)
      else if Ascii.eqb c backslash then
        match s with
        | String d s => if quotable d then '(v, rest) ← quoted s; Some (String d v, rest) else None
        | "" => None
        end
      else if qdtext c then '(v, rest) ← quoted s; Some (String c v, rest)
      else None
  end.

Definition token (s : string) : option (string * string) :=
  let '(t, rest) := span tchar s in if String.eqb t "" then None else Some (t, rest).

Definition value (s : string) : option (string * string) :=
  match s with
  | String c s' => if Ascii.eqb c dquote then quoted s' else token s
  | "" => None
  end.

Definition blank (c : ascii) : bool := bool_decide (byte_of c ∈ [9; 32]).
Definition skip (s : string) : string := (span blank s).2.

Fixpoint parameters (fuel : nat) (s : string) : option (list (string * string)) :=
  match fuel, skip s with
  | _, "" => Some []
  | S fuel, String c s =>
      if Ascii.eqb c ";" then
        '(k, s) ← token (skip s);
        match s with
        | String e s =>
            if Ascii.eqb e "=" then '(v, s) ← value s; rest ← parameters fuel s; Some ((k, v) :: rest) else None
        | "" => None
        end
      else None
  | O, _ => None
  end.

(** The type and the parameters; each parameter takes a byte at least. *)
Definition read_disposition (s : string) : option (string * list (string * string)) :=
  '(t, s) ← token s; ps ← parameters (String.length s) s; Some (t, ps).

Fixpoint value_chars (s : string) : option string :=
  match s with
  | "" => Some ""
  | String c s =>
      if Ascii.eqb c "%" then
        match s with
        | String a (String b s) =>
            match hex_value a, hex_value b with
            | Some a, Some b => String (byte (a * 16 + b)) <$> value_chars s
            | _, _ => None
            end
        | _ => None
        end
      else if attr_char c then String c <$> value_chars s
      else None
  end.

(** The charset, the language and the octets of an extended value. *)
Definition ext_value (s : string) : option (string * string * string) :=
  let '(charset, s, ok) := cut_byte "'" s in
  let '(lang, s, ok') := cut_byte "'" s in
  if ok && ok' then v ← value_chars s; Some (charset, lang, v) else None.

(** ** What the server writes is read *)

Lemma span_stop p a c b : all_bytes p a = true → p c = false → span p (a +:+ String c b) = (a, String c b).
Proof.
  intros Ha Hc. induction a as [|x a IH]; cbn; [by rewrite Hc|]. cbn in Ha. apply andb_true_iff in Ha as [-> Ha].
  change (append a (String c b)) with (a +:+ String c b). by rewrite IH.
Qed.

Lemma span_all p a : all_bytes p a = true → span p a = (a, "").
Proof. induction a as [|x a IH]; cbn; [done|]. intros [-> Ha]%andb_true_iff. by rewrite IH. Qed.

Lemma attr_is c : isAttrChar c = attr_char c.
Proof. destruct c as [[] [] [] [] [] [] [] []]; reflexivity. Qed.

Lemma attr_not_percent c : attr_char c = true → Ascii.eqb c "%" = false.
Proof. intros H. by destruct (Ascii.eqb_spec c "%") as [->|]. Qed.

Lemma attr_token c : attr_char c = true → tchar c = true.
Proof. destruct c as [[] [] [] [] [] [] [] []]; reflexivity || discriminate. Qed.

Lemma hex_upper z : 0 ≤ z < 16 → hex_value (upper_hex z) = Some z ∧ attr_char (upper_hex z) = true.
Proof.
  intros H. assert (z ∈ [0;1;2;3;4;5;6;7;8;9;10;11;12;13;14;15]) as Hz.
  { rewrite !elem_of_cons. lia. }
  repeat (apply elem_of_cons in Hz as [->|Hz]; [by split|]). by apply elem_of_nil in Hz.
Qed.

Lemma encoded_roundtrip name : value_chars (encoded_name name) = Some name ∧ all_bytes tchar (encoded_name name) = true.
Proof.
  induction name as [|c name [IH1 IH2]]; [done|]. cbn [encoded_name]. rewrite all_bytes_app, IH2, andb_true_r, attr_is.
  destruct (attr_char c) eqn:E.
  - cbn [append value_chars all_bytes]. by rewrite (attr_not_percent _ E), E, IH1, (attr_token _ E).
  - pose proof (byte_of_range c). destruct (hex_upper (byte_of c / 16)) as [H1 H1']; [split; [apply Z.div_pos|apply Z.div_lt_upper_bound]; lia|].
    destruct (hex_upper (byte_of c mod 16)) as [H2 H2']; [apply Z.mod_pos_bound; lia|].
    cbn [append value_chars all_bytes]. rewrite Ascii.eqb_refl, H1, H2, IH1, (attr_token _ H1'), (attr_token _ H2').
    split; [|done]. cbn [fmap option_fmap option_map]. do 2 f_equal.
    rewrite (Z.mul_comm _ 16), <- Z.div_mod by lia. apply byte_byte_of.
Qed.

(** What the quotes hold: printable ASCII that no client unescapes. *)
Definition shown_rune (r : Z) : Prop := 32 ≤ r ≤ 126 ∧ r ∉ [34; 37; 92].
Definition shown (c : ascii) : bool := bool_decide (32 ≤ byte_of c ≤ 126) && bool_decide (byte_of c ∉ [34; 37; 92]).

Lemma plain_shown r : plain_rune r = true ↔ shown_rune r.
Proof.
  unfold plain_rune, shown_rune. rewrite !andb_true_iff, !negb_true_iff, !Z.leb_le, !Z.eqb_neq, !not_elem_of_cons.
  split; [intros [[[[? ?] ?] ?] ?]; split_and!; try lia; apply not_elem_of_nil|]. lia.
Qed.

Lemma shown_is c : shown c = true ↔ shown_rune (byte_of c).
Proof. unfold shown. rewrite andb_true_iff. by rewrite !bool_decide_eq_true. Qed.

Lemma shown_quoted c : shown c = true → qdtext c = true ∧ Ascii.eqb c dquote = false ∧ Ascii.eqb c backslash = false ∧ c ≠ "%"%char.
Proof. destruct c as [[] [] [] [] [] [] [] []]; vm_compute; first [discriminate | intros _; split_and!; (reflexivity || discriminate)]. Qed.

Lemma ascii_rune_spec r : shown (ascii_rune r) = true ∧ (shown_rune r → byte_of (ascii_rune r) = r) ∧ (¬ shown_rune r → ascii_rune r = "_"%char).
Proof.
  unfold ascii_rune. pose proof (plain_shown r) as H. destruct (plain_rune r).
  - destruct H as [H _]. specialize (H eq_refl). rewrite shown_is. rewrite byte_of_byte by (destruct H; lia). done.
  - split; [done|]. split; [|done]. intros Hr. apply H in Hr. done.
Qed.

Lemma quoted_shown a s : all_bytes shown a = true → quoted (a +:+ String dquote s) = Some (a, s).
Proof.
  induction a as [|c a IH]; cbn [append quoted all_bytes]; [by rewrite Ascii.eqb_refl|].
  intros [Hc Ha]%andb_true_iff. destruct (shown_quoted c Hc) as (-> & -> & -> & _). by rewrite IH.
Qed.

Lemma list_of_string l : list_ascii_of_string (string_of l) = l.
Proof. induction l as [|c l IH]; [done|]. cbn. by rewrite IH. Qed.

Lemma ascii_name_shown name : all_bytes shown (ascii_name name) = true.
Proof.
  unfold ascii_name. induction (runes name) as [|r l IH]; [done|]. cbn. by rewrite (proj1 (ascii_rune_spec r)).
Qed.

Lemma shown_no_percent a : all_bytes shown a = true → has_byte "%" a = false.
Proof.
  induction a as [|c a IH]; [done|]. cbn [all_bytes has_byte]. intros [Hc Ha]%andb_true_iff.
  destruct (shown_quoted c Hc) as (_ & _ & _ & Hp). rewrite (IH Ha).
  destruct (Ascii.eqb_spec c "%") as [|H1], (Ascii.eqb_spec "%" c) as [H2|]; try done; congruence.
Qed.

(** A name of such characters is its own. *)
Lemma runes_loop_ascii fuel s : (String.length s ≤ fuel)%nat → all_bytes shown s = true →
  string_of (ascii_rune <$> runes_loop fuel s) = s.
Proof.
  revert s. induction fuel as [|fuel IH]; intros [|c s] Hl Ha; [done| |done|]; cbn in Hl; [lia|].
  cbn [all_bytes] in Ha. apply andb_true_iff in Ha as [Hc%shown_is Ha]. cbn [runes_loop].
  assert (Hd : decode_rune (String c s) = (byte_of c, 1%nat)).
  { destruct Hc as [Hc _]. cbn [decode_rune]. destruct (Z.ltb_spec (byte_of c) 128); [done|lia]. }
  rewrite Hd. cbn [fmap list_fmap string_of]. f_equal; [|apply IH; [lia|done]].
  destruct (ascii_rune_spec (byte_of c)) as (_ & H & _). rewrite <- byte_byte_of. rewrite <- (H Hc) at 2. by rewrite byte_byte_of.
Qed.

Lemma token_stop k c s : String.eqb k "" = false → all_bytes tchar k = true → tchar c = false → token (k +:+ String c s) = Some (k, String c s).
Proof. intros Hn Hk Hc. unfold token. by rewrite span_stop, Hn. Qed.

Lemma token_all k : String.eqb k "" = false → all_bytes tchar k = true → token k = Some (k, "").
Proof. intros Hn Hk. unfold token. by rewrite span_all, Hn. Qed.

Lemma parameters_nil fuel : parameters fuel "" = Some [].
Proof. by destruct fuel. Qed.

(** One parameter. *)
Lemma parameters_step fuel k s v rest :
  (∀ t, skip (String " " (k +:+ t)) = k +:+ t) → String.eqb k "" = false → all_bytes tchar k = true → value s = Some (v, rest) →
  parameters (S fuel) (String ";" (String " " (k +:+ String "=" s))) = ps ← parameters fuel rest; Some ((k, v) :: ps).
Proof.
  intros Hskip Hn Hk Hv. cbn [parameters]. change (skip (String ";" (String " " (k +:+ String "=" s)))) with (String ";" (String " " (k +:+ String "=" s))).
  cbn iota. rewrite Ascii.eqb_refl, Hskip, token_stop by done. cbn [mbind option_bind]. by rewrite Ascii.eqb_refl, Hv.
Qed.

Lemma attachment_read name :
  read_disposition (attachment name) =
  Some ("attachment", [("filename", ascii_name name); ("filename*", "UTF-8''" +:+ encoded_name name)]).
Proof.
  unfold attachment, read_disposition. pose proof (ascii_name_shown name) as Ha. destruct (encoded_roundtrip name) as [_ He].
  set (a := ascii_name name) in *. set (e := encoded_name name) in *. clearbody a e.
  change (disposition_start +:+ a +:+ disposition_middle +:+ e)
    with ("attachment" +:+ String ";" (String " " ("filename" +:+ String "=" (String dquote (a +:+ String dquote
            (String ";" (String " " ("filename*" +:+ String "=" ("UTF-8''" +:+ e))))))))).
  rewrite token_stop by done. cbn [mbind option_bind String.length].
  rewrite (parameters_step _ "filename" _ a (String ";" (String " " ("filename*" +:+ String "=" ("UTF-8''" +:+ e))))); [|done|done|done|].
  2: { unfold value. rewrite Ascii.eqb_refl. by apply quoted_shown. }
  assert (∀ x, String.length ("filename" +:+ x) = S (S (6 + String.length x)))%nat as -> by done. cbn [Nat.add].
  rewrite (parameters_step _ "filename*" _ ("UTF-8''" +:+ e) ""); [|done|done|done|].
  - by rewrite parameters_nil.
  - change (token ("UTF-8''" +:+ e) = Some ("UTF-8''" +:+ e, "")). apply token_all; [done|].
    rewrite all_bytes_app. by rewrite He.
Qed.

(** C37. Whatever the bytes of a file's name, a client that reads the header
    by the RFCs' grammar reads it whole, as an attachment with two parameters
    and no other: no name ends the quoted one, adds a parameter, or puts a
    line's end or another control in the header. The extended name is, in
    UTF-8, the file's name itself. The plain one has a character for each of
    the name's: itself if it is printable ASCII and no quote, backslash or
    percent, an underscore otherwise; so a name of such characters is written
    as it is. *)
Theorem attachment_roundtrip name :
  ∃ plain extended, read_disposition (attachment name) = Some ("attachment", [("filename", plain); ("filename*", extended)]) ∧
    ext_value extended = Some ("UTF-8", "", name) ∧
    Forall2 (λ r c, (shown_rune r → byte_of c = r) ∧ (¬ shown_rune r → c = "_"%char)) (runes name) (list_ascii_of_string plain) ∧
    has_byte "%" plain = false ∧ (all_bytes shown name = true → plain = name).
Proof.
  exists (ascii_name name), ("UTF-8''" +:+ encoded_name name). split_and!.
  - apply attachment_read.
  - unfold ext_value. cbn. by rewrite (proj1 (encoded_roundtrip name)).
  - unfold ascii_name. rewrite list_of_string. induction (runes name) as [|r l IH]; [constructor|]. cbn. constructor; [|done].
    apply ascii_rune_spec.
  - apply shown_no_percent, ascii_name_shown.
  - by apply runes_loop_ascii.
Qed.

(** ** Who downloads, and as what *)

(** A media type the server may answer: inert, by itself or with a charset. *)
Definition inert {MT : MediaTypes} (t : string) : Prop :=
  t = "application/octet-stream" ∨ t ∈ servableTypes ∨ ∃ base charset, base ∈ servableTypes ∧ t = FormatMediaType base [("charset", charset)].

Lemma served_inert {MT : MediaTypes} t : inert (servedType t).
Proof.
  unfold servedType. destruct (ParseMediaType t) as [[base params]|]; [|by left].
  destruct (contains servableTypes base) eqn:E; [|by left]. apply contains_spec in E. cbn [negb].
  destruct (List.find _ _) as [cs|]; [|by right; left]. destruct (has_prefix base "text/"); [|by right; left].
  right; right. by exists base, cs.2.
Qed.

(** A file goes to the members of its session alone, whole, under headers
    that make it an attachment of an inert type, never sniffed and sandboxed;
    to others, a file that exists and one that does not have one answer, and a
    member whose file has its content always has it. *)
Theorem download_members_only {MT : MediaTypes} fileID user sdb db :
  let download := fileDownload fileID user (mkFails false false false) sdb db in
  (∀ fails headers body, fileDownload fileID user fails sdb db = DownloadFile headers body →
     ∃ f t, GetFile fileID db = Some f ∧ IsSessionMember (FiSession f) user sdb = true ∧ ReadFileContent (FiID f) db = Some body ∧
       inert t ∧ headers = [("Content-Type", t); ("Content-Disposition", attachment (FiName f)); ("Content-Length", itoa (len body));
         ("X-Content-Type-Options", "nosniff"); ("Content-Security-Policy", "sandbox"); ("Cache-Control", "private")]) ∧
  ((∀ f, GetFile fileID db = Some f → IsSessionMember (FiSession f) user sdb = false) →
     download = fileDownload fileID user (mkFails false false false) sdb (mkFDB [] ∅)) ∧
  (∀ f content, GetFile fileID db = Some f → IsSessionMember (FiSession f) user sdb = true → ReadFileContent (FiID f) db = Some content →
     ∃ headers, download = DownloadFile headers content).
Proof.
  unfold fileDownload. cbn [FailFile FailMember FailContent]. split_and!.
  - intros fails headers body. destruct (FailFile fails); [done|]. destruct (GetFile fileID db) as [f|]; [|done].
    destruct (FailMember fails); [done|]. destruct (IsSessionMember _ _ _) eqn:Em; [|done]. cbn [negb].
    destruct (FailContent fails); [done|]. destruct (ReadFileContent _ _) as [c|] eqn:Ec; [|done]. intros [= <- <-].
    exists f, (servedType (FiType f)). split_and!; try done. apply served_inert.
  - intros Hn. destruct (GetFile fileID db) as [f|]; [|done]. by rewrite (Hn f).
  - intros f c -> -> ->. by eexists.
Qed.

(** A name with an accent, a quote and a line's end. *)
Example attachment_told :
  attachment ("r" +:+ encode_rune 233 +:+ String dquote "" +:+ String (byte 10) ".csv") =
  disposition_start +:+ "r___.csv" +:+ disposition_middle +:+ "r%C3%A9%22%0A.csv".
Proof. vm_compute. reflexivity. Qed.
