(* ===== verification/Schedules.v ===== *)
(** * Scheduled tasks (src/tool/schedule.go, src/workflow/scheduled_agent.go, src/activity/schedule.go, src/activity/delivery.go, src/store/postgres.go)

    The tasks' logs, the tools that make, list and cancel them for their user,
    the workflow of one run, the activities that close or pause a schedule and
    deliver a result. Temporal's schedules are a third party's: what it answers
    is an argument of each call, and what was asked of it is recorded
    ([sched_call]); [live] is what its documentation makes of that. A call of a
    tool is one step: its failures are its arguments, a server that stops
    between the creation of a schedule and its log is not modelled. *)

From S2P Require Import Prelude GoStr Utf8 Keys Table Message Store MachineMessage AgentData Participant AgentTurn CodingData.
Open Scope string_scope.
Open Scope Z_scope.
Open Scope list_scope.

(** ** The logs (store/task_log.go, store/postgres.go) *)

Definition TaskScheduled : string := "scheduled".
Definition TaskCancelled : string := "cancelled".
Definition TaskCompleted : string := "completed".
Definition TaskFailed : string := "failed".
Definition TaskPaused : string := "paused".

Record TaskLog := mkLog {
  LogID : string;
  LogType : string;
  LogDescription : string;
  LogCron : string;
  LogDelay : string;
  LogPrompt : string;
  LogUser : string;
  LogChannel : string;
  LogCreated : time;
  LogStatus : string
}.

#[export] Instance log_key : Keyed TaskLog := LogID.

Definition log_at (now : time) (l : TaskLog) : TaskLog :=
  mkLog (LogID l) (LogType l) (LogDescription l) (LogCron l) (LogDelay l) (LogPrompt l) (LogUser l) (LogChannel l) now (LogStatus l).
Definition with_status (s : string) (l : TaskLog) : TaskLog :=
  mkLog (LogID l) (LogType l) (LogDescription l) (LogCron l) (LogDelay l) (LogPrompt l) (LogUser l) (LogChannel l) (LogCreated l) s.

(** The INSERT; [None]: its key is taken. *)
Definition SaveTaskLog (now : time) (l : TaskLog) (logs : list TaskLog) : option (list TaskLog) :=
  if is_none (get (LogID l) logs) then Some (logs ++ [log_at now l]) else None.

Definition newest_log (a b : TaskLog) : bool := LogCreated b <=? LogCreated a.

(** Newest first; those of one instant in no said order. *)
Definition ListTaskLogsByUser (user : string) (logs : list TaskLog) : list TaskLog :=
  sort_stable newest_log (List.filter (λ l, String.eqb (LogUser l) user) logs).

Definition GetTaskLog (id : string) (logs : list TaskLog) : option TaskLog := get id logs.

Definition UpdateTaskLogStatus (id status : string) (logs : list TaskLog) : list TaskLog := update_where (has_key id) (with_status status) logs.

(** ** What is asked of Temporal *)

Record ScheduledAgentInput := mkScheduled {
  ScAgent : string;
  ScPrompt : string;
  ScUser : string;
  ScChannel : string;
  ScScheduleID : string;
  ScCron : string
}.

Record ScheduleSpec := mkSpec { CronExpressions : list string; StartAt : option time; EndAt : option time; Every : list Z }.

(** A schedule: its times, how many actions are left (0: no limit), and the
    workflow it starts, under an ID and with an input. *)
Record Schedule := mkSchedule { SdSpec : ScheduleSpec; SdRemaining : Z; SdWorkflow : string; SdInput : ScheduledAgentInput }.

(** What Temporal did: it made, deleted, or paused with a note. *)
Inductive sched_call := Created (id : string) (s : Schedule) | Deleted (id : string) | Paused (id note : string).

(** The schedules there are: made and not deleted. *)
Definition live_step (m : gmap string Schedule) (c : sched_call) : gmap string Schedule :=
  match c with Created id s => <[id := s]> m | Deleted id => delete id m | Paused _ _ => m end.

Record SW := mkSW { logs : list TaskLog; calls : list sched_call }.
Definition live (w : SW) : gmap string Schedule := fold_left live_step (calls w) ∅.

Definition did (c : sched_call) (w : SW) : SW := mkSW (logs w) (calls w ++ [c]).
Definition with_logs (l : list TaskLog) (w : SW) : SW := mkSW l (calls w).

(** [handle.Delete]: what it says when it fails. *)
Definition handle_delete (id : string) (gives : option string) (w : SW) : SW := match gives with Some _ => w | None => did (Deleted id) w end.

(** ** The tools (tool/schedule.go) *)

Class GoDuration := ParseDuration : string → string + Z.

Section Tools.
Context {GQ : GoQuote} {GT : GoText} {GD : GoDuration}.

Definition alnum (c : ascii) : bool := ((97 <=? byte_of c) && (byte_of c <=? 122)) || is_digit c.

(** The runs of other characters, each a dash: no byte of a rune beyond ASCII
    is a letter or a digit of the pattern. *)
Fixpoint dashed (in_run : bool) (s : string) : string :=
  match s with
  | "" => ""
  | String c s => if alnum c then String c (dashed false s) else if in_run then dashed true s else String "-" (dashed true s)
  end.

Definition schedule_slug (s : string) : string := take_str 40 (trim_right_dash (trim_left_dash (dashed false (ToLower s)))).

Definition unix_milli (t : time) : Z := (t - unix 0) / millisecond.

Record ScheduleParams := mkParams { PmCron : string; PmDelay : string; PmPrompt : string; PmChannel : string; PmDescription : string }.

(** The clock at each reading, and what fails: Temporal's creation, the log's
    write (which says [IoSaveText] of a failure), the deletion that follows one. *)
Record ScheduleIO := mkIO {
  IoIDAt : time; IoSpecAt : time; IoSavedAt : time;
  IoCreate : option string; IoSaveFails : bool; IoSaveText : string; IoDelete : option string
}.

Definition noUser : string := "Cannot manage scheduled tasks: user not identified".

(** The one-shot's window: one minute's interval, for two minutes. *)
Definition spec_of (p : ScheduleParams) (now : time) : string + ScheduleSpec :=
  if negb (String.eqb (PmCron p) "") then inr (mkSpec [PmCron p] None None [])
  else if String.eqb (PmDelay p) "" then inr (mkSpec [] None None [])
  else
    match ParseDuration (PmDelay p) with
    | inl e => inl ("Invalid delay format " +:+ quote (PmDelay p) +:+ ": " +:+ e)
    | inr delay => inr (mkSpec [] (Some (now + delay)) (Some (now + delay + 2 * minute)) [minute])
    end.

Definition schedule_task (user agent : string) (p : ScheduleParams) (io : ScheduleIO) (w : SW) : string * SW :=
  let channel := if String.eqb (PmChannel p) "" then "app_notification" else PmChannel p in
  if String.eqb user "" then (noUser, w)
  else
    let id := "schedule-" +:+ schedule_slug (PmDescription p) +:+ "-" +:+ itoa (unix_milli (IoIDAt io)) in
    match spec_of p (IoSpecAt io) with
    | inl e => (e, w)
    | inr spec =>
        let input := mkScheduled agent (PmPrompt p) user channel id (PmCron p) in
        let remaining := if String.eqb (PmCron p) "" && negb (String.eqb (PmDelay p) "") then 1 else 0 in
        match IoCreate io with
        | Some e => ("Failed to create schedule: " +:+ e, w)
        | None =>
            let w := did (Created id (mkSchedule spec remaining ("cron-" +:+ id) input)) w in
            let l := mkLog id "schedule" (PmDescription p) (PmCron p) (PmDelay p) (PmPrompt p) user channel 0 TaskScheduled in
            let saved := if IoSaveFails io then None else SaveTaskLog (IoSavedAt io) l (logs w) in
            match saved with
            | None => ("Failed to record the schedule: " +:+ IoSaveText io, handle_delete id (IoDelete io) w)
            | Some logs =>
                (if negb (String.eqb (PmCron p) "")
                 then "Scheduled recurring task: " +:+ PmDescription p +:+ " (cron: " +:+ PmCron p +:+ ", schedule_id: " +:+ id +:+ ")"
                 else if negb (String.eqb (PmDelay p) "")
                 then "Scheduled one-shot task: " +:+ PmDescription p +:+ " (in " +:+ PmDelay p +:+ ", schedule_id: " +:+ id +:+ ")"
                 else "Scheduled task: " +:+ PmDescription p +:+ " (schedule_id: " +:+ id +:+ ")", with_logs logs w)
            end
        end
    end.

Definition log_line (l : TaskLog) : string :=
  let part name v := if String.eqb v "" then "" else ", " +:+ name +:+ ": " +:+ v in
  "- " +:+ LogDescription l +:+ " (id: " +:+ LogID l +:+ ", status: " +:+ LogStatus l +:+ part "cron" (LogCron l) +:+ part "delay" (LogDelay l) +:+
  part "channel" (LogChannel l) +:+ ")" +:+ String (byte 10) "".

Definition list_schedules (user : string) (fails : option string) (w : SW) : string :=
  if String.eqb user "" then noUser
  else
    match fails with
    | Some e => "Failed to list schedules: " +:+ e
    | None =>
        match ListTaskLogsByUser user (logs w) with
        | [] => "No scheduled tasks."
        | l => String.concat "" (log_line <$> l)
        end
    end.

(** What fails: the log's reading, Temporal's deletion, the status's write (which is not read). *)
Record CancelIO := mkCancelIO { CnRead : option string; CnDelete : option string; CnUpdateFails : bool }.

Definition cancel_schedule (user id : string) (io : CancelIO) (w : SW) : string * SW :=
  if String.eqb user "" then (noUser, w)
  else
    match CnRead io with
    | Some e => ("Failed to cancel schedule: " +:+ e, w)
    | None =>
        let unknown := ("No scheduled task " +:+ id +:+ " among yours.", w) in
        match GetTaskLog id (logs w) with
        | None => unknown
        | Some l =>
            if negb (String.eqb (LogUser l) user) then unknown
            else
              match CnDelete io with
              | Some e => ("Failed to cancel schedule: " +:+ e, w)
              | None =>
                  let w := did (Deleted id) w in
                  ("Schedule " +:+ id +:+ " cancelled.",
                   if CnUpdateFails io then w else with_logs (UpdateTaskLogStatus id TaskCancelled (logs w)) w)
              end
        end
    end.
End Tools.

(** ** The activities (activity/schedule.go) *)

(** A failure to delete, or to write the status, is not the activity's. *)
Definition DeleteSchedule (id status : string) (deleted : option string) (update_fails : bool) (w : SW) : SW :=
  match deleted with
  | Some _ => w
  | None =>
      let w := did (Deleted id) w in
      if update_fails then w else with_logs (UpdateTaskLogStatus id (if String.eqb status "" then TaskCompleted else status) (logs w)) w
  end.

Definition PauseSchedule (id reason : string) (paused update : option string) (w : SW) : option string * SW :=
  match paused with
  | Some e => (Some e, w)
  | None =>
      let w := did (Paused id reason) w in
      match update with Some e => (Some e, w) | None => (None, with_logs (UpdateTaskLogStatus id TaskPaused (logs w)) w) end
  end.

(** ** Delivery (activity/delivery.go) *)

Definition notifications_of (user : string) : string := "notifications:" +:+ user.

Record DeliverInput := mkDeliver { DlUser : string; DlContent : string; DlSchedule : string; DlRun : Z }.

(** The activity's error, the table after it, and the event shown. *)
Definition DeliverResult (web : bool) (now : time) (append : option string) (shown : option string) (i : DeliverInput) (t : Messages) :
    option string * Messages * list (string * string) :=
  if negb web then (Some "no web notifier configured", t, [])
  else
    match append with
    | Some e => (Some ("persist notification: " +:+ e), t, [])
    | None =>
        let session := notifications_of (DlUser i) in
        let '(_, t) := AppendMessage now session (ScheduledMessageKey (DlSchedule i) (DlRun i)) (plainMessage RoleAssistant (DlContent i)) t in
        (shown, t, [(session, DlContent i)])
    end.

(** ** A run (workflow/scheduled_agent.go) *)

(** What the run asks for, in order. *)
Inductive sched_step :=
| RunAgent (workflowID : string) (input : RunInput)
| AskPause (id reason : string)
| AskDeliver (i : DeliverInput)
| AskDelete (id status : string).

(** How the run's instant reads, and how each of its steps ends, retries included. *)
Record SchedEnv := mkSchedEnv { SeNow : time; SeChild : Err + AgentWorkflowOutput; SePause : option string; SeDeliver : option string }.

Definition scheduled_run (i : ScheduledAgentInput) : RunInput :=
  mkRun (ScScheduleID i) (ScUser i) "" (ScAgent i) (ScPrompt i) "" "" "" [] true [] "" "" None "" false None [] "".

(** What its user reads, whether it failed, and the pause it asks for. *)
Definition run_told (env : SchedEnv) (i : ScheduledAgentInput) : string * bool * list sched_step :=
  match SeChild env with
  | inl e => ("Scheduled task failed: " +:+ error_text e, true, [])
  | inr out =>
      if String.eqb (ErrorType out) AgentNotOpen && negb (String.eqb (ScCron i) "") then
        (if is_none (SePause env)
         then "Tâche planifiée mise en pause : " +:+ OutError out +:+
              " Elle ne reprendra pas d'elle-même ; une fois l'accès donné, annule-la et planifie-la à nouveau."
         else "Scheduled task failed: " +:+ OutError out, true,
         [AskPause (ScScheduleID i) ("agent not open to its owner: " +:+ OutError out)])
      else if negb (String.eqb (OutError out) "") then ("Scheduled task failed: " +:+ OutError out, true, [])
      else (Response out, false, [])
  end.

Definition ScheduledAgentWorkflow (env : SchedEnv) (i : ScheduledAgentInput) : list sched_step * option string :=
  let run := unix_milli (SeNow env) in
  let '(response, failed, pause) := run_told env i in
  let delete :=
    if String.eqb (ScCron i) ""
    then [AskDelete (ScScheduleID i) (if failed || negb (is_none (SeDeliver env)) then TaskFailed else TaskCompleted)] else [] in
  ([RunAgent (ScScheduleID i +:+ "-agent-" +:+ itoa run) (scheduled_run i)] ++ pause ++
   [AskDeliver (mkDeliver (ScUser i) response (ScScheduleID i) run)] ++ delete,
   (λ e, "deliver result: " +:+ e) <$> SeDeliver env).

(** ** A task is its owner's *)

(** What users and workflows do. *)
Inductive sched_op :=
| OpSchedule (user agent : string) (p : ScheduleParams) (io : ScheduleIO)
| OpCancel (user id : string) (io : CancelIO)
| OpDelete (id status : string) (deleted : option string) (update_fails : bool)
| OpPause (id reason : string) (paused update : option string).

Definition apply_sched {GQ : GoQuote} {GT : GoText} {GD : GoDuration} (w : SW) (o : sched_op) : SW :=
  match o with
  | OpSchedule user agent p io => (schedule_task user agent p io w).2
  | OpCancel user id io => (cancel_schedule user id io w).2
  | OpDelete id status deleted fails => DeleteSchedule id status deleted fails w
  | OpPause id reason paused update => (PauseSchedule id reason paused update w).2
  end.

#[export] Instance status_keeps s : KeepsKey (with_status s).
Proof. done. Qed.

Section Owned.
Context {GQ : GoQuote} {GT : GoText} {GD : GoDuration}.

(** Its input and its log name the same user. *)
Definition owned (logs : list TaskLog) (id : string) (s : Schedule) : Prop :=
  ∃ l, GetTaskLog id logs = Some l ∧ LogUser l = ScUser (SdInput s) ∧ LogUser l ≠ "" ∧ ScScheduleID (SdInput s) = id ∧
    LogCron l = ScCron (SdInput s) ∧ LogPrompt l = ScPrompt (SdInput s).

Lemma live_did c w : live (did c w) = live_step (live w) c.
Proof. unfold live. cbn. by rewrite fold_left_app. Qed.

Lemma live_logs l w : live (with_logs l w) = live w.
Proof. done. Qed.

Lemma owned_status l id s id' st : owned l id s → owned (UpdateTaskLogStatus id' st l) id s.
Proof.
  intros (x & Hx & H). unfold owned, GetTaskLog, UpdateTaskLogStatus in *. setoid_rewrite update_get; [|apply _]. rewrite Hx.
  eexists. split; [done|]. by destruct (has_key id' x).
Qed.

Lemma owned_saved now x l l' id s : SaveTaskLog now x l = Some l' → owned l id s → owned l' id s.
Proof.
  unfold SaveTaskLog. destruct (is_none _); [|done]. intros [= <-] (y & Hy & H). exists y. split; [|done].
  unfold GetTaskLog in *. by rewrite get_snoc, Hy.
Qed.

(** No log is lost. *)
Lemma apply_owned w o id s : owned (logs w) id s → owned (logs (apply_sched w o)) id s.
Proof.
  intros H. assert (Hu : ∀ id' st, owned (UpdateTaskLogStatus id' st (logs w)) id s) by (intros; by apply owned_status).
  destruct o as [user agent p io|user id' io|id' status deleted fails|id' reason paused update]; cbn [apply_sched].
  - unfold schedule_task. destruct (String.eqb user ""); [done|]. set (sid := _ +:+ _). destruct (spec_of _ _); [done|]. destruct (IoCreate io); [done|].
    cbn [logs did]. destruct (if IoSaveFails io then None else SaveTaskLog _ _ _) as [l'|] eqn:E; [|unfold handle_delete; by destruct (IoDelete io)].
    destruct (IoSaveFails io); [done|]. by eapply owned_saved.
  - unfold cancel_schedule. destruct (String.eqb user ""); [done|]. destruct (CnRead io); [done|]. destruct (GetTaskLog _ _); [|done].
    destruct (negb _); [done|]. destruct (CnDelete io); [done|]. cbn. destruct (CnUpdateFails io); [done|]. apply Hu.
  - unfold DeleteSchedule. destruct deleted; [done|]. destruct fails; [done|]. apply Hu.
  - unfold PauseSchedule. destruct paused; [done|]. destruct update; [done|]. apply Hu.
Qed.

(** The schedule that a call of the tool made, for the user it answered. *)
Definition made_by (w : SW) (user agent : string) (p : ScheduleParams) (io : ScheduleIO) (id : string) (s : Schedule) : Prop :=
  live (schedule_task user agent p io w).2 !! id = Some s ∧ user ≠ "" ∧ ScUser (SdInput s) = user ∧ ScAgent (SdInput s) = agent ∧
  ScPrompt (SdInput s) = PmPrompt p ∧ ScCron (SdInput s) = PmCron p ∧ ScScheduleID (SdInput s) = id.

(** The call told its user that the schedule was not recorded, and the
    deletion that follows failed. *)
Definition left_behind (w : SW) (user agent : string) (p : ScheduleParams) (io : ScheduleIO) : Prop :=
  (schedule_task user agent p io w).1 = "Failed to record the schedule: " +:+ IoSaveText io ∧ IoDelete io ≠ None.

Lemma schedule_live user agent p io w id s :
  live (schedule_task user agent p io w).2 !! id = Some s →
  live w !! id = Some s ∨
  (made_by w user agent p io id s ∧ (owned (logs (schedule_task user agent p io w).2) id s ∨ left_behind w user agent p io)).
Proof.
  unfold made_by, left_behind. intros H. assert (Hs : live (schedule_task user agent p io w).2 !! id = Some s) by done.
  rewrite Hs. revert H. unfold schedule_task.
  destruct (String.eqb_spec user "") as [|Hu]; [by left|].
  set (sid := _ +:+ _). clearbody sid. destruct (spec_of p _) as [|spec]; [by left|]. destruct (IoCreate io); [by left|].
  set (input := mkScheduled agent _ _ _ _ _). set (s0 := mkSchedule _ _ _ input). set (l := mkLog sid _ _ _ _ _ _ _ _ _).
  destruct (if IoSaveFails io then None else SaveTaskLog (IoSavedAt io) l _) as [logs'|] eqn:E.
  - destruct (IoSaveFails io); [done|]. cbn [logs did] in E. cbn [fst snd]. rewrite live_logs, live_did. cbn [live_step logs with_logs].
    destruct (decide (sid = id)) as [->|Hne]; [|rewrite lookup_insert_ne by done; by left].
    rewrite lookup_insert_eq. intros [= <-]. right. split; [done|]. left.
    exists (log_at (IoSavedAt io) l). unfold SaveTaskLog in E. destruct (get (LogID l) (logs w)) eqn:Eg; [done|]. injection E as <-.
    unfold GetTaskLog. rewrite get_snoc. change (LogID l) with id in Eg. rewrite Eg. unfold has_key. cbn. by rewrite String.eqb_refl.
  - unfold handle_delete. destruct (IoDelete io) as [e|]; cbn [fst snd].
    + rewrite live_did. cbn [live_step]. destruct (decide (sid = id)) as [->|Hne]; [|rewrite lookup_insert_ne by done; by left].
      rewrite lookup_insert_eq. intros [= <-]. right. split; [done|]. by right.
    + rewrite !live_did. cbn [live_step]. rewrite delete_insert_eq. intros [_ H]%lookup_delete_Some. by left.
Qed.

(** What else is done makes no schedule. *)
Lemma apply_live w o id s :
  live (apply_sched w o) !! id = Some s → live w !! id = Some s ∨
  (∃ user agent p io, o = OpSchedule user agent p io ∧ made_by w user agent p io id s ∧
     (owned (logs (apply_sched w o)) id s ∨ left_behind w user agent p io)).
Proof.
  assert (Hd : ∀ id', live (did (Deleted id') w) !! id = Some s → live w !! id = Some s).
  { intros id'. rewrite live_did. cbn [live_step]. by intros [_ H]%lookup_delete_Some. }
  destruct o as [user agent p io|user id' io|id' status deleted fails|id' reason paused update]; cbn [apply_sched].
  - intros [H|[H1 H2]]%schedule_live; [by left|]. right. by exists user, agent, p, io.
  - unfold cancel_schedule. intros H. left. revert H. destruct (String.eqb user ""); [done|]. destruct (CnRead io); [done|].
    destruct (GetTaskLog _ _); [|done]. destruct (negb _); [done|]. destruct (CnDelete io); [done|]. cbn [snd]. destruct (CnUpdateFails io); apply Hd.
  - unfold DeleteSchedule. intros H. left. revert H. destruct deleted; [done|]. destruct fails; apply Hd.
  - unfold PauseSchedule. intros H. left. revert H. destruct paused; [done|]. cbn [snd].
    assert (Hp : live (did (Paused id' reason) w) !! id = Some s → live w !! id = Some s) by (by rewrite live_did).
    destruct update; apply Hp.
Qed.

Lemma apply_keys w o : keys_ok (logs w) → keys_ok (logs (apply_sched w o)).
Proof.
  intros Hk. assert (Hu : ∀ id st, keys_ok (UpdateTaskLogStatus id st (logs w))) by (intros; by apply keys_update_ok; [apply _|]).
  destruct o as [user agent p io|user id io|id status deleted fails|id reason paused update]; cbn [apply_sched].
  - unfold schedule_task. destruct (String.eqb user ""); [done|]. set (id := _ +:+ _). destruct (spec_of _ _); [done|]. destruct (IoCreate io); [done|].
    cbn [logs did]. destruct (if IoSaveFails io then None else SaveTaskLog _ _ _) as [l'|] eqn:E; [|unfold handle_delete; by destruct (IoDelete io)].
    destruct (IoSaveFails io); [done|]. unfold SaveTaskLog in E. destruct (get (LogID _) _) eqn:Eg; [done|]. injection E as <-. by apply keys_snoc.
  - unfold cancel_schedule. destruct (String.eqb user ""); [done|]. destruct (CnRead io); [done|]. destruct (GetTaskLog _ _); [|done].
    destruct (negb _); [done|]. destruct (CnDelete io); [done|]. cbn. destruct (CnUpdateFails io); [done|]. apply Hu.
  - unfold DeleteSchedule. destruct deleted; [done|]. destruct fails; [done|]. apply Hu.
  - unfold PauseSchedule. destruct paused; [done|]. destruct update; [done|]. apply Hu.
Qed.

(** What was done, from the start. *)
Definition after_ops (ops : list sched_op) : SW := fold_left apply_sched ops (mkSW [] []).

Lemma after_snoc ops o : after_ops (ops ++ [o]) = apply_sched (after_ops ops) o.
Proof. unfold after_ops. by rewrite fold_left_app. Qed.

Lemma history_keys ops : keys_ok (logs (after_ops ops)).
Proof. induction ops as [|o ops IH] using rev_ind; [by apply NoDup_nil|]. rewrite after_snoc. by apply apply_keys. Qed.

Lemma history_made ops id s :
  live (after_ops ops) !! id = Some s →
  ∃ before user agent p io after, ops = before ++ OpSchedule user agent p io :: after ∧ made_by (after_ops before) user agent p io id s ∧
    (owned (logs (after_ops ops)) id s ∨ left_behind (after_ops before) user agent p io).
Proof.
  induction ops as [|o ops IH] using rev_ind; [done|]. rewrite after_snoc.
  intros [H|(user & agent & p & io & -> & Hm & Hor)]%apply_live; [|by exists ops, user, agent, p, io, []].
  destruct (IH H) as (before & user & agent & p & io & after & -> & Hm & Hor).
  exists before, user, agent, p, io, (after ++ [o]). rewrite <- app_assoc. split_and!; [done|done|].
  destruct Hor as [Ho|]; [left; by apply apply_owned|by right].
Qed.

Lemma listed user l logs : l ∈ ListTaskLogsByUser user logs ↔ l ∈ logs ∧ LogUser l = user.
Proof. unfold ListTaskLogsByUser. rewrite sort_stable_perm, list_elem_of_In, filter_In, <- list_elem_of_In. by rewrite String.eqb_eq. Qed.

(** To a user whose log it is not, a task is one that does not exist. *)
Lemma not_ones_own w id user :
  keys_ok (logs w) → (∀ l, GetTaskLog id (logs w) = Some l → LogUser l ≠ user) →
  (∀ io, cancel_schedule user id io w = ((cancel_schedule user id io (mkSW [] [])).1, w)) ∧
  ∀ l, l ∈ ListTaskLogsByUser user (logs w) → LogID l ≠ id.
Proof.
  intros Hk Hno. split.
  - intros io. unfold cancel_schedule. cbn [logs GetTaskLog]. destruct (String.eqb user ""); [done|]. destruct (CnRead io); [done|].
    destruct (GetTaskLog id (logs w)) as [l|]; [|done]. destruct (String.eqb_spec (LogUser l) user) as [E|]; [by destruct (Hno l eq_refl)|done].
  - intros l [Hl Hu]%listed <-. apply (Hno l); [|done]. by apply get_in.
Qed.

(** What a run asks for is for a user: the agent runs for that user, the result
    goes to that user, and it closes or pauses its own schedule. *)
Definition step_of (user id : string) (st : sched_step) : Prop :=
  match st with
  | RunAgent _ r => RunUserID r = user
  | AskDeliver d => DlUser d = user ∧ DlSchedule d = id
  | AskPause id' _ | AskDelete id' _ => id' = id
  end.

Lemma run_steps env i : Forall (step_of (ScUser i) (ScScheduleID i)) (fst (ScheduledAgentWorkflow env i)).
Proof.
  unfold ScheduledAgentWorkflow. assert (Forall (step_of (ScUser i) (ScScheduleID i)) (run_told env i).2) as Hp.
  { unfold run_told. repeat split_match; repeat constructor. }
  destruct (run_told env i) as [[response failed] pause]. cbn [snd fst] in *.
  repeat (apply Forall_app; split); [by repeat constructor|done|by repeat constructor|]. destruct (String.eqb _ _); by repeat constructor.
Qed.

(** C26. Whatever users schedule and cancel and runs close or pause, whatever
    Temporal and the database answer: every schedule there is was made by a
    call of the tool, with the prompt of that call and for the user it
    answered; each of its runs runs the agent for that user, delivers to that
    user, and closes or pauses no other schedule. That user's list tells it and
    that user can cancel it, but in one case: the call answered that it could
    not be recorded, and the deletion that follows failed; then it stays, and
    nobody is sure to be able to list it or cancel it. To whoever its log does
    not name, it is a task that does not exist: cancelling it answers as for an
    unknown one and changes nothing, and no list of theirs tells it. *)
Theorem schedules_owned ops id s :
  live (after_ops ops) !! id = Some s →
  ∃ before user agent p io after, ops = before ++ OpSchedule user agent p io :: after ∧
    made_by (after_ops before) user agent p io id s ∧
    (∀ env, Forall (step_of user id) (fst (ScheduledAgentWorkflow env (SdInput s)))) ∧
    (((∃ l, GetTaskLog id (logs (after_ops ops)) = Some l ∧ LogUser l = user ∧
         l ∈ ListTaskLogsByUser user (logs (after_ops ops)) ∧ LogPrompt l = PmPrompt p) ∧
      ∀ update, ∃ w1, cancel_schedule user id (mkCancelIO None None update) (after_ops ops) = ("Schedule " +:+ id +:+ " cancelled.", w1) ∧
        live w1 !! id = None) ∨
     left_behind (after_ops before) user agent p io) ∧
    ∀ other, (∀ l, GetTaskLog id (logs (after_ops ops)) = Some l → LogUser l ≠ other) →
      (∀ cn, cancel_schedule other id cn (after_ops ops) = ((cancel_schedule other id cn (mkSW [] [])).1, after_ops ops)) ∧
      ∀ l, l ∈ ListTaskLogsByUser other (logs (after_ops ops)) → LogID l ≠ id.
Proof.
  intros Hs. destruct (history_made _ _ _ Hs) as (before & user & agent & p & io & after & E & Hm & Hor).
  exists before, user, agent, p, io, after. pose proof Hm as (_ & Hne & Hu & _ & Hp & _ & Hid). pose proof (history_keys ops) as Hk.
  split_and!; [done|done| | |by intros other; apply not_ones_own].
  - intros env. pose proof (run_steps env (SdInput s)) as H. by rewrite Hu, Hid in H.
  - destruct Hor as [(l & Hl & Hlu & _ & _ & _ & Hlp)|]; [left|by right]. split.
    + exists l. split_and!; [done|congruence| |congruence]. apply listed. split; [by apply get_some in Hl as [? _]|congruence].
    + intros update. unfold cancel_schedule. cbn [CnRead CnDelete CnUpdateFails]. rewrite Hl.
      destruct (String.eqb_spec user ""); [done|]. rewrite Hlu, Hu, String.eqb_refl. cbn [negb]. eexists. split; [done|].
      destruct update; rewrite ?live_logs, live_did; apply lookup_delete_eq.
Qed.
End Owned.

(** ** A run is told once *)

Definition is_deliver (s : sched_step) : bool := match s with AskDeliver _ => true | _ => false end.

(** A try of the delivery: when, and what fails. *)
Definition deliver_try (d : DeliverInput) (t : Messages) (x : time * option string * option string) : Messages :=
  let '(now, append, shown) := x in (DeliverResult true now append shown d t).1.2.
Definition deliver_tries (d : DeliverInput) (tries : list (time * option string * option string)) (t : Messages) : Messages :=
  fold_left (deliver_try d) tries t.

Definition told_key (d : DeliverInput) : string * string := (notifications_of (DlUser d), ScheduledMessageKey (DlSchedule d) (DlRun d)).

(** The table once told: the message under its key, the others as they were. *)
Definition told_row (d : DeliverInput) (t t' : Messages) : Prop :=
  (∀ s k, (s, k) ≠ told_key d → row_under s k t' = row_under s k t) ∧
  ∃ r, row_under (told_key d).1 (told_key d).2 t' = Some r ∧ Message.Content (Msg (RowMsg r)) = DlContent d.

Lemma deliver_row d tries t : messages_ok t → row_under (told_key d).1 (told_key d).2 t = None →
  deliver_tries d tries t = t ∧ Forall (λ x, is_none x.1.2 = false) tries ∨ told_row d t (deliver_tries d tries t).
Proof.
  intros Hok Hnone.
  assert (Hstep : ∀ x t', messages_ok t' → t' = t ∨ told_row d t t' →
    messages_ok (deliver_try d t' x) ∧ (deliver_try d t' x = t ∧ is_none x.1.2 = false ∨ told_row d t (deliver_try d t' x))).
  { intros [[now append] shown] t' Hok' H. unfold deliver_try, DeliverResult. cbn [negb fst snd]. destruct append as [e|]; cbn [fst snd is_none].
    { split; [done|]. destruct H; [left|right]; done. }
    unfold AppendMessage. set (m := plainMessage _ _). pose proof (insert_row_under now (told_key d).1 (told_key d).2 m t' Hok') as Hi.
    pose proof (insert_row_ok now (told_key d).1 (told_key d).2 m t' Hok') as Hok1. unfold told_key in *. cbn [fst snd] in *.
    destruct (insert_row _ _ _ _ _) as [[r new] t1] eqn:E. cbn [fst snd] in *. destruct Hi as (Hr & Hkeep & Hoth). split; [done|]. right.
    destruct H as [->|[H1 (r0 & H2 & H3)]].
    - split; [done|]. exists r. split; [done|]. unfold insert_row in E. rewrite Hnone in E. by injection E as <- _ _.
    - split; [intros s k Hne; rewrite Hoth by done; by apply H1|]. exists r0. split; [by apply Hkeep|done]. }
  assert (Hall : ∀ t', messages_ok t' → (t' = t → deliver_tries d tries t' = t ∧ Forall (λ x, is_none x.1.2 = false) tries ∨ told_row d t (deliver_tries d tries t')) ∧
    (told_row d t t' → told_row d t (deliver_tries d tries t'))).
  { induction tries as [|x tries IH]; intros t' Hok'; [split; [by left; split|done]|]. cbn [deliver_tries fold_left]. fold (deliver_tries d tries).
    split; intros H.
    - destruct (Hstep x t' Hok' (or_introl H)) as [Hok1 [[H1 Hx]|H1]]; destruct (IH _ Hok1) as [IH1 IH2]; [|right; by apply IH2].
      destruct (IH1 H1) as [[H2 H3]|H2]; [left; split; [done|by constructor]|by right].
    - destruct (Hstep x t' Hok' (or_intror H)) as [Hok1 [[H1 _]|H1]]; destruct (IH _ Hok1) as [IH1 IH2]; [|by apply IH2].
      exfalso. assert (Hx : ∀ y, deliver_try d t' y = t → False); [|by eapply Hx].
      intros [[now append] shown] Hy. destruct H as [_ (r & Hr & _)]. enough (∃ r', row_under (told_key d).1 (told_key d).2 t = Some r') as [? ?] by congruence.
      rewrite <- Hy. unfold deliver_try, DeliverResult. cbn [negb]. destruct append; cbn [fst snd]; [eauto|].
      unfold AppendMessage. pose proof (insert_row_under now (told_key d).1 (told_key d).2 (plainMessage RoleAssistant (DlContent d)) t' Hok') as Hi.
      unfold told_key in *. cbn [fst snd] in *. destruct (insert_row _ _ _ _ _) as [[r1 new] t1]. cbn [fst snd]. destruct Hi as (_ & Hkeep & _). exists r. by apply Hkeep. }
  by apply Hall.
Qed.

(** A run of a scheduled task runs its agent once, for its owner, and says
    how it went once, to its owner alone: however often the delivery is tried
    again, the owner's notifications have the message once, and no other row
    changes; it is there as soon as one try wrote it. The run fails exactly
    when the delivery did. A one-shot is then closed, as completed exactly if
    it ran and was told; a recurring task is paused exactly when its agent is
    not open to its owner. *)
Theorem scheduled_told_once env i :
  let '(steps, err) := ScheduledAgentWorkflow env i in
  ∃ d child before after, steps = RunAgent child (scheduled_run i) :: before ++ AskDeliver d :: after ∧ DlUser d = ScUser i ∧
    List.filter is_deliver (before ++ after) = [] ∧ RunUserID (scheduled_run i) = ScUser i ∧
    (∀ tries t, messages_ok t → row_under (told_key d).1 (told_key d).2 t = None →
       deliver_tries d tries t = t ∧ Forall (λ x, is_none x.1.2 = false) tries ∨ told_row d t (deliver_tries d tries t)) ∧
    (err = None ↔ SeDeliver env = None) ∧
    (before = [] ∨ ∃ out why, SeChild env = inr out ∧ ErrorType out = AgentNotOpen ∧ ScCron i ≠ "" ∧ before = [AskPause (ScScheduleID i) why]) ∧
    (ScCron i ≠ "" → after = []) ∧
    (ScCron i = "" → ∃ status, after = [AskDelete (ScScheduleID i) status] ∧
       (status = TaskCompleted ↔ SeDeliver env = None ∧ ∃ out, SeChild env = inr out ∧ OutError out = "" ∧ DlContent d = Response out)).
Proof.
  unfold ScheduledAgentWorkflow. destruct (run_told env i) as [[response failed] pause] eqn:E.
  eexists (mkDeliver (ScUser i) response (ScScheduleID i) (unix_milli (SeNow env))), _, pause, _. split; [reflexivity|].
  assert (Hp : pause = [] ∨ ∃ out why, SeChild env = inr out ∧ ErrorType out = AgentNotOpen ∧ ScCron i ≠ "" ∧ pause = [AskPause (ScScheduleID i) why]).
  { unfold run_told in E. destruct (SeChild env) as [e|out]; [injection E as <- <- <-; by left|].
    destruct (String.eqb_spec (ErrorType out) AgentNotOpen) as [Ht|]; cbn [andb] in E.
    - destruct (String.eqb_spec (ScCron i) "") as [|Hc]; cbn [negb] in E; [destruct (negb _); injection E as <- <- <-; by left|].
      injection E as <- <- <-. right. by eexists _, _.
    - destruct (negb _); injection E as <- <- <-; by left. }
  assert (Hf : ScCron i = "" → (failed = false ↔ ∃ out, SeChild env = inr out ∧ OutError out = "" ∧ response = Response out)).
  { intros Hc. unfold run_told in E. rewrite Hc in E. cbn [String.eqb negb] in E. destruct (SeChild env) as [e|out]; [injection E as <- <- <-; naive_solver|].
    rewrite andb_false_r in E. destruct (String.eqb_spec (OutError out) ""); cbn [negb] in E; injection E as <- <- <-; naive_solver. }
  split_and!; try done.
  - rewrite List.filter_app. destruct Hp as [->|(? & ? & _ & _ & _ & ->)]; cbn; by destruct (String.eqb _ _).
  - intros tries t. apply deliver_row.
  - by destruct (SeDeliver env).
  - intros Hc. by destruct (String.eqb_spec (ScCron i) "").
  - intros Hc. specialize (Hf Hc). rewrite Hc. cbn [String.eqb]. eexists. split; [done|]. cbn [DlContent].
    destruct failed; cbn [orb]; [split; [done|intros [_ H%Hf]; done]|].
    destruct (SeDeliver env); cbn [is_none negb]; split; try done; [by intros []|]. intros _. split; [done|by apply Hf].
Qed.

(** ** Examples *)

Section Demo.
#[local] Instance demo_quote : GoQuote := λ s, s.
#[local] Instance demo_text : GoText := mkGoText (λ s, s) (λ _, false).
#[local] Instance demo_duration : GoDuration := λ s, if String.eqb s "2h" then inr (2 * hour) else inl "bad".

Definition demo_io : ScheduleIO := mkIO (unix 1000) (unix 1000) (unix 1001) None false "" None.
Definition demo_task : ScheduleParams := mkParams "" "2h" "say hello" "" "Hello, you!".
Definition demo_ops : list sched_op :=
  [OpSchedule "u1" "jarvis" demo_task demo_io; OpCancel "u2" "schedule-ello-you-1000000" (mkCancelIO None None false)].

(** A deletion tried again after a try that could not say so: the schedule is
    gone, its log says it waits, and its owner can no longer cancel it. *)
Example closed_not_told :
  let id := "schedule-ello-you-1000000" in
  let w := apply_sched (mkSW [] []) (OpSchedule "u1" "jarvis" demo_task demo_io) in
  let w := DeleteSchedule id TaskCompleted (Some "not found") false (DeleteSchedule id TaskCompleted None true w) in
  (LogStatus <$> logs w) = [TaskScheduled] ∧ live w !! id = None ∧
  (cancel_schedule "u1" id (mkCancelIO None (Some "not found") false) w).1 = "Failed to cancel schedule: not found".
Proof. vm_compute. by split_and!. Qed.

(** A task with neither a cron nor a delay is accepted, with no time to run at. *)
Example no_time_accepted :
  let '(told, w) := schedule_task "u1" "jarvis" (mkParams "" "" "say hello" "" "hello") demo_io (mkSW [] []) in
  told = "Scheduled task: hello (schedule_id: schedule-hello-1000000)" ∧ (LogStatus <$> logs w) = [TaskScheduled] ∧
  SdSpec <$> (live w !! "schedule-hello-1000000") = Some (mkSpec [] None None []).
Proof. vm_compute. by split_and!. Qed.

Definition demo_schedule : Schedule :=
  mkSchedule (mkSpec [] (Some (unix 8200)) (Some (unix 8320)) [minute]) 1 "cron-schedule-ello-you-1000000"
    (mkScheduled "jarvis" "say hello" "u1" "app_notification" "schedule-ello-you-1000000" "").

(** A log that is not written and a deletion that fails: the schedule runs on
    for its user, who cannot cancel it. *)
Definition demo_unlogged : ScheduleIO := mkIO (unix 1000) (unix 1000) (unix 1001) None true "timeout" (Some "unavailable").

Example left_behind_runs :
  let id := "schedule-ello-you-1000000" in
  let w := after_ops [OpSchedule "u1" "jarvis" demo_task demo_unlogged] in
  live w !! id = Some demo_schedule ∧ list_schedules "u1" None w = "No scheduled tasks." ∧
  (cancel_schedule "u1" id (mkCancelIO None None false) w).1 = "No scheduled task " +:+ id +:+ " among yours.".
Proof. vm_compute. by split_and!. Qed.

Lemma schedules_owned_witness :
  let w := after_ops demo_ops in
  live w !! "schedule-ello-you-1000000" = Some demo_schedule ∧
  ∃ before user agent p io after, demo_ops = before ++ OpSchedule user agent p io :: after ∧
    ∀ env, Forall (step_of user "schedule-ello-you-1000000") (fst (ScheduledAgentWorkflow env (SdInput demo_schedule))).
Proof.
  assert (Hs : live (after_ops demo_ops) !! "schedule-ello-you-1000000" = Some demo_schedule) by (vm_compute; reflexivity).
  split; [exact Hs|].
  destruct (schedules_owned demo_ops "schedule-ello-you-1000000" demo_schedule Hs) as (b & u & a & p & io & x & E & _ & H & _).
  exists b, u, a, p, io, x. exact (conj E H).
Defined.
End Demo.
