(* ===== verification/ClaudeCLI.v ===== *)
(** * Running the Claude CLI (src/claudecode/run.go, stream.go, auth.go, src/subproc/subproc.go, identity.go)

    What the CLI of a coding run is given (its arguments, its environment, the
    credential of one way to pay), what its stream makes of the run, when it is
    taken for stuck, and what the run then returns. The decoding of a line's
    JSON and Go's %g are parameters; the process is the system's: what it
    writes, when, and how it exits are arguments. *)

From S2P Require Import Prelude GoStr Utf8 MachineMessage AgentData AgentTurn CodingData PickRun.
Open Scope string_scope.
Open Scope Z_scope.
Open Scope list_scope.

Definition defaultBinary : string := "claude".
Definition defaultMaxReportBytes : Z := 64 * 1024.
Definition maxStderrTailBytes : Z := 8 * 1024.
Definition DefaultHeartbeatEvery : Z := 20 * second.
Definition DefaultStallTimeout : Z := 12 * minute.

(** ** Environments (subproc) *)

Definition baseNames : list string :=
  ["PATH"; "HOME"; "USER"; "LOGNAME"; "SHELL"; "TERM"; "LANG"; "TZ"; "TMPDIR";
   "HTTP_PROXY"; "HTTPS_PROXY"; "NO_PROXY"; "http_proxy"; "https_proxy"; "no_proxy"].
Definition basePrefixes : list string := ["LC_"].
Definition GoToolchainNames : list string :=
  ["GOPATH"; "GOROOT"; "GOCACHE"; "GOMODCACHE"; "GOTOOLCHAIN"; "GOFLAGS"; "GOENV";
   "GOPROXY"; "GOPRIVATE"; "GONOPROXY"; "GONOSUMDB"; "GOSUMDB"; "GOINSECURE"].

Definition var_name (kv : string) : string := (cut_byte "=" kv).1.1.
Definition var_value (kv : string) : string := (cut_byte "=" kv).1.2.

Definition hasAnyPrefix (s : string) (prefixes : list string) : bool := existsb (has_prefix s) prefixes.

Definition kept_name (names prefixes : list string) (name : string) : bool :=
  negb (String.eqb name "") && (contains (baseNames ++ names) name || hasAnyPrefix name (basePrefixes ++ prefixes)).

(** [subproc.Env] *)
Definition EnvOf (environ names prefixes : list string) : list string := List.filter (λ kv, kept_name names prefixes (var_name kv)) environ.

Definition envValue (environ : list string) (name : string) : string :=
  fold_left (λ v kv, if String.eqb (var_name kv) name then var_value kv else v) environ "".

(** [Identity.Env], for an identity's home and its go directory; [None]: this process's. *)
Definition identity_drops : list string := ["HOME"; "GOPATH"; "GOCACHE"; "GOMODCACHE"].
Definition identity_env (home : option (string * string)) (env : list string) : list string :=
  match home with
  | None => env
  | Some (h, go) => List.filter (λ kv, negb (contains identity_drops (var_name kv))) env ++ ["HOME=" +:+ h; "GOPATH=" +:+ go]
  end.

(** ** Who pays (auth.go) *)

Definition AuthAPI : string := "api".
Definition AuthSubscription : string := "subscription".
Definition OAuthTokenEnv : string := "CLAUDE_CODE_OAUTH_TOKEN".
Definition apiCredentialEnv : list string := ["ANTHROPIC_API_KEY"; "ANTHROPIC_AUTH_TOKEN"].

Section Auth.
Context {GQ : GoQuote}.

Definition ResolveAuth (mode : string) (environ : list string) : string + string :=
  let hasKey := negb (String.eqb (envValue environ "ANTHROPIC_API_KEY") "") in
  let hasToken := negb (String.eqb (envValue environ OAuthTokenEnv) "") in
  if String.eqb mode AuthAPI then (if hasKey then inr AuthAPI else inl "CLAUDE_CODE_AUTH=api needs ANTHROPIC_API_KEY")
  else if String.eqb mode AuthSubscription then inr AuthSubscription
  else if String.eqb mode "" then
    if hasKey && hasToken
    then inl ("both ANTHROPIC_API_KEY and " +:+ OAuthTokenEnv +:+ " are set: say which pays with CLAUDE_CODE_AUTH=api or subscription")
    else inr (if hasKey then AuthAPI else AuthSubscription)
  else inl ("CLAUDE_CODE_AUTH=" +:+ quote mode +:+ ": want api or subscription").

(** The credentials of the other way; none for the zero Auth. *)
Definition other_credentials (auth : string) : list string :=
  if String.eqb auth AuthAPI then [OAuthTokenEnv] else if String.eqb auth AuthSubscription then apiCredentialEnv else [].

Definition Filter (auth : string) (environ : list string) : list string :=
  List.filter (λ kv, negb (contains (other_credentials auth) (var_name kv))) environ.

Definition Describe (auth : string) (environ : list string) : string :=
  if String.eqb auth AuthAPI then "bill the Anthropic API (ANTHROPIC_API_KEY)"
  else if String.eqb auth AuthSubscription && negb (String.eqb (envValue environ OAuthTokenEnv) "")
  then "use a Claude subscription (" +:+ OAuthTokenEnv +:+ "); the dollar cap is only an estimate there"
  else if String.eqb auth AuthSubscription
  then "use the Claude subscription logged in to the CLI's configuration, if any; the dollar cap is only an estimate there"
  else "authenticate as the CLI finds".

Definition CostNote (auth : string) : string :=
  if String.eqb auth AuthAPI then "Each run is billed to the Anthropic API, from a few cents to a few dollars."
  else if String.eqb auth AuthSubscription
  then "Runs are paid by the operator's Claude subscription, not per call: they only count against its usage limits."
  else "".

(** What paid a run, from the worker's choice and the CLI's word; the error is for the log. *)
Definition Payer (auth source : string) : string * option string :=
  if String.eqb auth "" || String.eqb source "" then ("", None)
  else if String.eqb auth AuthSubscription && String.eqb source "none" then (AuthSubscription, None)
  else if String.eqb auth AuthAPI && negb (String.eqb source "none") then (AuthAPI, None)
  else ("", Some ("the worker authenticates runs as " +:+ quote auth +:+ ", but the CLI reports apiKeySource " +:+ quote source +:+
                  ": what paid the run is not said")).
End Auth.

(** ** The command (run.go) *)

Record Params := mkCLIParams {
  Cwd : string; Task : string; PModel : string; PermissionMode : string; PermissionPrompts : string;
  AllowedTools : list string; DisallowedTools : list string; PTools : list string; AppendSystemPrompt : string;
  AddDirs : list string; MCPConfig : list string; StrictMCPConfig : bool; SettingSources : list string;
  MaxBudgetUSD : float64; PluginDirs : list string; PSession : string; NoSessionPersistence : bool;
  PEnv : list string; ConfigDir : string
}.

(** Above zero, from the bits of a float64. *)
Definition above_zero (x : float64) : bool := (0 <? x) && (x <=? 0x7ff0000000000000).

Class FloatG := format_g : float64 → string.

Definition flag_str (flag s : string) : list string := if String.eqb s "" then [] else [flag; s].
Definition flag_list (flag : string) (l : list string) : list string := match l with [] => [] | _ => [flag; String.concat "," l] end.
Definition flag_each (flag : string) (l : list string) : list string := mjoin ((λ d, [flag; d]) <$> l).
Definition flag_bool (flag : string) (b : bool) : list string := if b then [flag] else [].

Definition buildArgs {FG : FloatG} (p : Params) : list string :=
  ["-p"; "--output-format"; "stream-json"; "--verbose";
   "--permission-prompts"; (if String.eqb (PermissionPrompts p) "" then "none" else PermissionPrompts p)] ++
  flag_str "--model" (PModel p) ++ flag_str "--permission-mode" (PermissionMode p) ++
  flag_list "--allowedTools" (AllowedTools p) ++ flag_list "--disallowedTools" (DisallowedTools p) ++ flag_list "--tools" (PTools p) ++
  flag_str "--append-system-prompt" (AppendSystemPrompt p) ++ flag_each "--add-dir" (AddDirs p) ++ flag_each PluginDirFlag (PluginDirs p) ++
  flag_each "--mcp-config" (MCPConfig p) ++ flag_bool "--strict-mcp-config" (StrictMCPConfig p) ++
  flag_list "--setting-sources" (SettingSources p) ++
  (if above_zero (MaxBudgetUSD p) then ["--max-budget-usd"; format_g (MaxBudgetUSD p)] else []) ++
  flag_str "--session-id" (PSession p) ++ flag_bool "--no-session-persistence" (NoSessionPersistence p).

Definition cliEnvNames : list string := ["CLAUDE_CONFIG_DIR"; "NODE_EXTRA_CA_CERTS"; OAuthTokenEnv] ++ GoToolchainNames.
Definition cliEnvPrefixes : list string := ["ANTHROPIC_"].
Definition cliEnv (environ : list string) : list string := EnvOf environ cliEnvNames cliEnvPrefixes.

Record Runner := mkRunner {
  RnBinary : string; RnMaxReport : Z; RnHeartbeatEvery : Z; RnStall : Z; RnRunAs : option (string * string); RnCounted : bool; RnAuth : string
}.

Definition binary (r : Runner) (environ : list string) : string :=
  if negb (String.eqb (RnBinary r) "") then RnBinary r
  else let bin := envValue environ "CLAUDE_CODE_BIN" in if negb (String.eqb bin "") then bin else defaultBinary.

(** [cmd.Env] *)
Definition command_env (r : Runner) (environ : list string) (p : Params) : list string :=
  identity_env (RnRunAs r) (Filter (RnAuth r) (cliEnv environ ++ PEnv p)) ++ ["DISABLE_AUTOUPDATER=1"] ++
  (if String.eqb (ConfigDir p) "" then [] else ["CLAUDE_CONFIG_DIR=" +:+ ConfigDir p]).

(** [SupportsFlag], from what --help wrote, if it ended well. *)
Fixpoint trim_flag (s : string) : string :=
  match s with
  | "" => ""
  | String c s' => let r := trim_flag s' in if String.eqb r "" && (Ascii.eqb c "," || Ascii.eqb c "=") then "" else String c r
  end.
Definition SupportsFlag (help : option string) (flag : string) : bool :=
  match help with Some out => existsb (λ f, String.eqb (trim_flag f) flag) (fields out) | None => false end.

(** ** The stream (stream.go) *)

Inductive EventKind := EventInit | EventText | EventThinking | EventToolUse | EventToolResult | EventResult | EventOther.
Record Event := mkEvent { EvKind : EventKind; EvText : string; EvTool : string; EvInput : string; EvError : bool; EvRaw : string }.

Record contentBlock := mkContent {
  CbType : string; CbText : string; CbThinking : string; CbName : string; CbID : string; CbInput : string; CbToolUse : string; CbError : bool }.

(** A line, with what its message decodes to. *)
Record streamLine := mkLine {
  SlType : string; SlSubtype : string; SlSession : string; SlModel : string; SlMessage : option (string * list contentBlock);
  SlKeySource : string; SlCommands : list string; SlResult : string; SlIsError : bool; SlTurns : Z; SlDuration : Z; SlCost : float64;
  SlTerminal : string; SlDenials : list (string * string); SlErrorRaw : string
}.

Class StreamJSON := parse_stream : string → option streamLine.

Record Progress := mkProg { PgSession : string; PgCount : Z; PgCalls : Z; PgTool : string; PgText : string }.

Record Result := mkRunResult {
  RsReport : string; RsIsError : bool; RsSubtype : string; RsSession : string; RsModel : string; RsKeySource : string; RsCommands : list string;
  RsTurns : Z; RsDuration : Z; RsCost : float64; RsTerminal : string; RsTools : gmap string Z; RsDenials : list string
}.
Definition emptyResult : Result := mkRunResult "" false "" "" "" "" [] 0 0 0 "" ∅ [].

Definition set_session (s : string) (r : Result) : Result :=
  mkRunResult (RsReport r) (RsIsError r) (RsSubtype r) s (RsModel r) (RsKeySource r) (RsCommands r) (RsTurns r) (RsDuration r) (RsCost r) (RsTerminal r) (RsTools r) (RsDenials r).
Definition set_model (m : string) (r : Result) : Result :=
  mkRunResult (RsReport r) (RsIsError r) (RsSubtype r) (RsSession r) m (RsKeySource r) (RsCommands r) (RsTurns r) (RsDuration r) (RsCost r) (RsTerminal r) (RsTools r) (RsDenials r).
Definition set_init (source : string) (commands : list string) (r : Result) : Result :=
  mkRunResult (RsReport r) (RsIsError r) (RsSubtype r) (RsSession r) (RsModel r) source commands (RsTurns r) (RsDuration r) (RsCost r) (RsTerminal r) (RsTools r) (RsDenials r).
Definition set_report (s : string) (r : Result) : Result :=
  mkRunResult s (RsIsError r) (RsSubtype r) (RsSession r) (RsModel r) (RsKeySource r) (RsCommands r) (RsTurns r) (RsDuration r) (RsCost r) (RsTerminal r) (RsTools r) (RsDenials r).
Definition used (name : string) (r : Result) : Result :=
  mkRunResult (RsReport r) (RsIsError r) (RsSubtype r) (RsSession r) (RsModel r) (RsKeySource r) (RsCommands r) (RsTurns r) (RsDuration r) (RsCost r) (RsTerminal r)
    (<[name := default 0 (RsTools r !! name) + 1]> (RsTools r)) (RsDenials r).

(** [truncate] *)
Definition truncate (s : string) (max : Z) : string :=
  if len s <=? max then s
  else
    let head := runeStart s (Z.quot (max * 2) 3) in
    let tail := runeStart s (len s - (max - Z.of_nat head)) in
    let tail := if (tail <=? head)%nat then String.length s else tail in
    let nl := String (byte 10) (String (byte 10) "") in
    take_str head s +:+ nl +:+ "[... " +:+ itoa (Z.of_nat tail - Z.of_nat head) +:+ " bytes omitted ...]" +:+ nl +:+ drop_str tail s.

Definition maxReportBytes (r : Runner) : Z := if 0 <? RnMaxReport r then RnMaxReport r else defaultMaxReportBytes.
Definition stallTimeout (r : Runner) : Z := if RnStall r =? 0 then DefaultStallTimeout else RnStall r.
Definition heartbeatEvery (r : Runner) : Z := if 0 <? RnHeartbeatEvery r then RnHeartbeatEvery r else DefaultHeartbeatEvery.

(** What the stream has said so far: the result, the assistant's words, the
    names of its calls, the run's progress, and the events told. *)
Record Watch := mkWatch { WRes : Result; WReport : string; WNames : gmap string string; WProg : Progress; WEvents : list Event }.
Definition newWatch : Watch := mkWatch emptyResult "" ∅ (mkProg "" 0 0 "" "") [].

Definition with_res (f : Result → Result) (w : Watch) : Watch := mkWatch (f (WRes w)) (WReport w) (WNames w) (WProg w) (WEvents w).

Definition observe (ev : Event) (session : string) (p : Progress) : Progress :=
  let p := mkProg session (PgCount p + 1) (PgCalls p) (PgTool p) (PgText p) in
  match EvKind ev with
  | EventToolUse => mkProg (PgSession p) (PgCount p) (PgCalls p + 1) (EvTool ev) (PgText p)
  | EventText => mkProg (PgSession p) (PgCount p) (PgCalls p) (PgTool p) (truncate (EvText ev) 500)
  | _ => p
  end.

(** One block of a message: what it changes, and its event. *)
Definition block (raw : string) (b : contentBlock) (w : Watch) : Watch * list Event :=
  let plain k := mkEvent k "" "" "" false raw in
  if String.eqb (CbType b) "text" then
    if String.eqb (CbText b) "" then (w, [])
    else (mkWatch (WRes w) (WReport w +:+ CbText b +:+ String (byte 10) "") (WNames w) (WProg w) (WEvents w), [mkEvent EventText (CbText b) "" "" false raw])
  else if String.eqb (CbType b) "thinking" then (w, [mkEvent EventThinking (CbThinking b) "" "" false raw])
  else if String.eqb (CbType b) "tool_use" then
    (mkWatch (used (CbName b) (WRes w)) (WReport w) (<[CbID b := CbName b]> (WNames w)) (WProg w) (WEvents w),
     [mkEvent EventToolUse "" (CbName b) (CbInput b) false raw])
  else if String.eqb (CbType b) "tool_result" then
    (w, [mkEvent EventToolResult "" (default "" (WNames w !! CbToolUse b)) "" (CbError b) raw])
  else (w, []).

Fixpoint blocks (raw : string) (l : list contentBlock) (w : Watch) : Watch * list Event :=
  match l with
  | [] => (w, [])
  | b :: l => let '(w, e) := block raw b w in let '(w, es) := blocks raw l w in (w, e ++ es)
  end.

Definition told_result (r : Runner) (sl : streamLine) (res : Result) : Result :=
  let text := if String.eqb (SlResult sl) "" then SlErrorRaw sl else SlResult sl in
  mkRunResult (truncate (trim_space text) (maxReportBytes r)) (SlIsError sl) (SlSubtype sl) (RsSession res) (RsModel res) (RsKeySource res) (RsCommands res)
    (SlTurns sl) (SlDuration sl) (SlCost sl) (SlTerminal sl) (RsTools res)
    (RsDenials res ++ ((λ d, trim_space (d.1 +:+ " " +:+ d.2)) <$> SlDenials sl)).

Definition set_unless_empty (f : string → Result → Result) (s : string) (r : Result) : Result := if String.eqb s "" then r else f s r.

Definition parseLine {SJ : StreamJSON} (r : Runner) (line : string) (w : Watch) : Watch * list Event :=
  match parse_stream line with
  | None => (w, [])
  | Some sl =>
      let w := with_res (set_unless_empty set_session (SlSession sl)) w in
      let other := (w, [mkEvent EventOther "" "" "" false line]) in
      if String.eqb (SlType sl) "system" then
        if String.eqb (SlSubtype sl) "init" then
          (with_res (set_init (SlKeySource sl) (SlCommands sl) ∘ set_unless_empty set_model (SlModel sl)) w, [mkEvent EventInit "" "" "" false line])
        else other
      else if String.eqb (SlType sl) "assistant" || String.eqb (SlType sl) "user" then
        match SlMessage sl with
        | None => other
        | Some (model, content) => blocks line content (with_res (set_unless_empty set_model model) w)
        end
      else if String.eqb (SlType sl) "result" then
        let w := with_res (told_result r sl) w in
        (w, [mkEvent EventResult (RsReport (WRes w)) "" "" (RsIsError (WRes w)) line])
      else other
  end.

(** [readLine], to the end: the lines without their ends; an empty one is skipped. *)
Definition drop_cr (s : string) : string :=
  let n := String.length s in
  if (0 <? n)%nat && bool_decide (String.get (n - 1) s = Some (byte 13)) then take_str (n - 1) s else s.
Fixpoint stream_lines (l : list string) : list string :=
  match l with [] => [] | [last] => [last] | x :: l => drop_cr x :: stream_lines l end.
Definition lines_of (out : string) : list string := List.filter (λ x, negb (String.eqb x "")) (stream_lines (split_byte (byte 10) out)).

Definition read_one {SJ : StreamJSON} (r : Runner) (w : Watch) (line : string) : Watch :=
  let '(w, events) := parseLine r line w in
  mkWatch (WRes w) (WReport w) (WNames w) (fold_left (λ p ev, observe ev (RsSession (WRes w)) p) events (WProg w)) (WEvents w ++ events).

(** [broken]: what cut the stream, if not its end. *)
Definition consume {SJ : StreamJSON} (r : Runner) (out : string) (broken : option string) : Watch * option string :=
  let w := fold_left (read_one r) (lines_of out) newWatch in
  match broken with
  | Some e => (w, Some ("claudecode: reading CLI output: " +:+ e))
  | None => (with_res (λ res, if String.eqb (RsReport res) "" then set_report (truncate (trim_space (WReport w)) (maxReportBytes r)) res else res) w, None)
  end.

(** [stderrTail] *)
Definition stderr_write (buf p : string) : string :=
  let s := buf +:+ p in if maxStderrTailBytes <? len s then drop_str (Z.to_nat (len s - maxStderrTailBytes)) s else s.

(** ** A CLI that writes nothing (monitor) *)

(** The last of the times up to [t], [last] before them; and those after it. *)
Fixpoint written (t last : time) (writes : list time) : time * list time :=
  match writes with
  | [] => (last, [])
  | w :: writes' => if w <=? t then written t w writes' else (last, writes)
  end.

(** The checks, from the one set for [check]: when the run is ended as stuck, if
    it is before its CLI exited. [last] is the last line's time; each check but the last
    has seen a new line, so the lines are enough fuel. *)
Fixpoint checks (fuel : nat) (limit check last : time) (writes : list time) (exited : time) : option time :=
  match fuel with
  | O => None
  | S fuel =>
      if exited <=? check then None
      else
        let '(last, writes) := written check last writes in
        let silent := check - last in
        if limit <=? silent then Some check else checks fuel limit (check + (limit - silent)) last writes exited
  end.

(** No check with a limit that is not positive. *)
Definition monitor (limit start : time) (writes : list time) (exited : time) : option time :=
  if 0 <? limit then checks (S (length writes)) limit (start + limit) start writes exited else None.

(** ** How a run ends (Run) *)

Inductive RunError :=
| NotRun (msg : string)
| Interrupted (after : Z) (why : string)
| Stalled (silence : Z) (stderr : string)
| StreamBroken (msg : string)
| NothingReported (msg : string).

(** What the run's process gave: its stream, what cut it, its error's text, its
    stderr, how long it took, the caller's context's error, whether the stall check ended it. *)
Record Ran := mkRan {
  RanOut : string; RanBroken : option string; RanWait : option string; RanStderr : string; RanMS : Z; RanSeconds : Z;
  RanCancelled : option string; RanStalled : option Z
}.

Record RunOutput := mkRunOutput { OutResult : Result; OutProgress : Progress; OutStderr : string }.

Definition with_duration (ms : Z) (r : Result) : Result :=
  mkRunResult (RsReport r) (RsIsError r) (RsSubtype r) (RsSession r) (RsModel r) (RsKeySource r) (RsCommands r) (RsTurns r)
    (if RsDuration r =? 0 then ms else RsDuration r) (RsCost r) (RsTerminal r) (RsTools r) (RsDenials r).

(** Before it starts: what refuses it. *)
Definition run_refused (r : Runner) (p : Params) : option string :=
  if String.eqb (Cwd p) "" then Some "claudecode: cwd is required"
  else if String.eqb (trim_space (Task p)) "" then Some "claudecode: task is required"
  else if negb (is_none (RnRunAs r)) && negb (RnCounted r)
  then Some "claudecode: a CLI run as another user needs a count of the runs (Runner.Runs)"
  else None.

Definition run_ended {SJ : StreamJSON} (r : Runner) (x : Ran) : RunOutput * option RunError :=
  let '(w, parseErr) := consume r (RanOut x) (RanBroken x) in
  let stderr := trim_space (RanStderr x) in
  let res := with_duration (RanMS x) (WRes w) in
  (mkRunOutput res (WProg w) stderr,
   match RanCancelled x with
   | Some why => Some (Interrupted (RanSeconds x) why)
   | None =>
       let silent := String.eqb (RsSubtype res) "" in
       match RanStalled x, silent with
       | Some limit, true => Some (Stalled limit stderr)
       | _, _ =>
           match parseErr with
           | Some e => Some (StreamBroken e)
           | None =>
               if silent then
                 Some (NothingReported (match RanWait x with
                                        | Some e => "claudecode: CLI exited with " +:+ e +:+ " and reported nothing: " +:+ stderr
                                        | None => "claudecode: CLI exited without reporting a result: " +:+ stderr
                                        end))
               else None
           end
       end
   end).

(** ** What reaches the CLI *)

(** The names a CLI's environment may have, but for what its caller adds. *)
Definition cli_name (name : string) : bool := kept_name cliEnvNames cliEnvPrefixes name.

(** The variables the runner sets itself. *)
Definition set_here (r : Runner) (p : Params) : list string :=
  (match RnRunAs r with Some (h, go) => ["HOME=" +:+ h; "GOPATH=" +:+ go] | None => [] end) ++ ["DISABLE_AUTOUPDATER=1"] ++
  (if String.eqb (ConfigDir p) "" then [] else ["CLAUDE_CONFIG_DIR=" +:+ ConfigDir p]).

Lemma in_filter {A} (f : A → bool) (l : list A) x : x ∈ List.filter f l ↔ x ∈ l ∧ f x = true.
Proof. by rewrite !list_elem_of_In, filter_In. Qed.

Lemma env_split r environ p kv :
  kv ∈ command_env r environ p ↔
    (kv ∈ Filter (RnAuth r) (cliEnv environ ++ PEnv p) ∧ (RnRunAs r ≠ None → var_name kv ∉ identity_drops)) ∨ kv ∈ set_here r p.
Proof.
  unfold command_env, set_here, identity_env. destruct (RnRunAs r) as [[h go]|].
  - rewrite !elem_of_app, in_filter, negb_true_iff, contains_false. naive_solver.
  - rewrite !elem_of_app. split; [intros [H|H]; [left; by split|right; by right]|intros [[H _]|[H|H]]; [by left| |by right]]. by apply elem_of_nil in H.
Qed.

Lemma envValue_snoc l kv name : envValue (l ++ [kv]) name = if String.eqb (var_name kv) name then var_value kv else envValue l name.
Proof. unfold envValue. by rewrite fold_left_app. Qed.

(** C28. Whatever the worker's environment holds, the CLI of a run gets of it
    only the variables named for it: no credential of the platform, whatever
    is added to the worker later. Of the two ways to pay, it gets the
    credential of the worker's alone, even among what its caller adds. And
    run as another user, it has that user's home, whatever the others say. *)
Theorem cli_env_sealed r environ p :
  (∀ kv, kv ∈ command_env r environ p → kv ∈ environ ∧ cli_name (var_name kv) = true ∨ kv ∈ PEnv p ∨ kv ∈ set_here r p) ∧
  (RnAuth r = AuthSubscription → ∀ kv, kv ∈ command_env r environ p → var_name kv ∉ apiCredentialEnv) ∧
  (RnAuth r = AuthAPI → ∀ kv, kv ∈ command_env r environ p → var_name kv ≠ OAuthTokenEnv) ∧
  (∀ h go kv, RnRunAs r = Some (h, go) → kv ∈ command_env r environ p → var_name kv = "HOME" → kv = "HOME=" +:+ h) ∧
  (∀ kv, kv ∈ environ → cli_name (var_name kv) = true → RnAuth r = "" → RnRunAs r = None → kv ∈ command_env r environ p).
Proof.
  assert (Hset : ∀ kv, kv ∈ set_here r p → var_name kv ∈ ["HOME"; "GOPATH"; "DISABLE_AUTOUPDATER"; "CLAUDE_CONFIG_DIR"]).
  { intros kv. unfold set_here. rewrite !elem_of_app. intros [H|[H|H]].
    - destruct (RnRunAs r) as [[h go]|]; [|by apply elem_of_nil in H]. apply elem_of_cons in H as [->|H]; [by left|].
      apply list_elem_of_singleton in H as ->. right. by left.
    - apply list_elem_of_singleton in H as ->. by do 2 right; left.
    - destruct (String.eqb _ _); [by apply elem_of_nil in H|]. apply list_elem_of_singleton in H as ->. by do 3 right; left. }
  assert (Hf : ∀ kv, kv ∈ command_env r environ p → var_name kv ∈ other_credentials (RnAuth r) → kv ∈ set_here r p).
  { intros kv [[H _]|H]%env_split Ho; [|done]. exfalso. unfold Filter in H. apply in_filter in H as [_ H]. rewrite negb_true_iff, contains_false in H. done. }
  split_and!.
  - intros kv [[H _]|H]%env_split; [|by right; right]. unfold Filter in H. apply in_filter in H as [H _]. apply elem_of_app in H as [H|H]; [left|by right; left].
    unfold cliEnv, EnvOf in H. by apply in_filter in H.
  - intros Ha kv Hk Hc. specialize (Hf kv Hk). rewrite Ha in Hf. specialize (Hf Hc). apply Hset in Hf. unfold apiCredentialEnv in Hc.
    revert Hf Hc. generalize (var_name kv). intros n. rewrite !elem_of_cons, elem_of_nil. naive_solver.
  - intros Ha kv Hk Hc. specialize (Hf kv Hk). rewrite Ha in Hf. cbn [other_credentials] in Hf. specialize (Hf ltac:(rewrite Hc; by left)). apply Hset in Hf.
    revert Hf. rewrite Hc. unfold OAuthTokenEnv. rewrite !elem_of_cons, elem_of_nil. naive_solver.
  - intros h go kv Hr [[_ H]|H]%env_split Hn.
    + exfalso. apply H; [by rewrite Hr|]. rewrite Hn. by left.
    + unfold set_here in H. rewrite Hr in H. rewrite !elem_of_app in H. destruct H as [H|[H|H]].
      * apply elem_of_cons in H as [->|H]; [done|]. apply list_elem_of_singleton in H as ->. done.
      * apply list_elem_of_singleton in H as ->. done.
      * destruct (String.eqb _ _); [by apply elem_of_nil in H|]. apply list_elem_of_singleton in H as ->. done.
  - intros kv Hk Hn Ha Hr. apply env_split. left. split; [|by rewrite Hr]. unfold Filter. apply in_filter. rewrite Ha. split; [|done].
    apply elem_of_app. left. unfold cliEnv, EnvOf. by apply in_filter.
Qed.

(** ** When it is taken for stuck *)

(** The reference: the first line, the start among them, that no other follows
    within [limit], if the CLI has not exited by then. *)
Fixpoint first_silence (limit last : time) (writes : list time) (exited : time) : option time :=
  let due := last + limit in
  if exited <=? due then None
  else
    match writes with
    | [] => Some due
    | w :: writes => if w <=? due then first_silence limit w writes exited else Some due
    end.

Lemma written_sorted t last writes :
  StronglySorted Z.le (last :: writes) → last ≤ t →
  let '(last', writes') := written t last writes in
  StronglySorted Z.le (last' :: writes') ∧ last ≤ last' ≤ t ∧ (length writes' ≤ length writes)%nat ∧ (last' = last ∨ (length writes' < length writes)%nat) ∧
  Forall (λ w, t < w) writes'.
Proof.
  revert last. induction writes as [|w writes IH]; intros last Hs Hl; cbn; [repeat split; try done; try lia; by left|].
  apply StronglySorted_inv in Hs as [Hs Hf]. inversion_clear Hf as [|? ? Hw Hf'].
  destruct (Z.leb_spec w t) as [Ht|Ht].
  - specialize (IH w Hs Ht). destruct (written t w writes) as [l' ws']. destruct IH as (H1 & H2 & H3 & H4 & H5).
    split_and!; try done; cbn; lia.
  - split_and!; try done; try lia; [by constructor; [|constructor]|].
    constructor; [lia|]. apply StronglySorted_inv in Hs as [_ Hs]. eapply Forall_impl; [exact Hs|]. cbn. lia.
Qed.

(** Once the CLI has not exited by [t], the lines up to [t] decide nothing. *)
Lemma silence_skip limit t exited writes : ∀ last, StronglySorted Z.le (last :: writes) → last ≤ t → t ≤ last + limit → t < exited → 0 < limit →
  let '(last', writes') := written t last writes in
  first_silence limit last writes exited = first_silence limit last' writes' exited.
Proof.
  induction writes as [|w writes IH]; intros last Hs Hl Hd He Hp; [done|]. cbn [written].
  apply StronglySorted_inv in Hs as [Hs Hf]. inversion_clear Hf as [|? ? Hw Hf'].
  destruct (Z.leb_spec w t) as [Ht|Ht]; [|done]. specialize (IH w Hs Ht ltac:(lia) He Hp).
  pose proof (written_sorted t w writes Hs Ht) as Hws. destruct (written t w writes) as [l' ws']. rewrite <- IH. cbn [first_silence].
  destruct (Z.leb_spec exited (last + limit)) as [He'|He'].
  - destruct writes as [|w2 writes]; cbn [first_silence]; (destruct (Z.leb_spec exited (w + limit)); [done|lia]).
  - destruct (Z.leb_spec w (last + limit)); [done|lia].
Qed.

Lemma checks_silence limit fuel : ∀ last writes exited, 0 < limit → (length writes < fuel)%nat → StronglySorted Z.le (last :: writes) →
  checks fuel limit (last + limit) last writes exited = first_silence limit last writes exited.
Proof.
  induction fuel as [|fuel IH]; intros last writes exited Hp Hf Hs; [lia|]. cbn [checks].
  destruct (Z.leb_spec exited (last + limit)) as [He|He].
  { destruct writes; cbn [first_silence]; (destruct (Z.leb_spec exited (last + limit)); [done|lia]). }
  pose proof (written_sorted (last + limit) last writes Hs ltac:(lia)) as Hw.
  pose proof (silence_skip limit (last + limit) exited writes last Hs ltac:(lia) ltac:(lia) He Hp) as Hk.
  destruct (written (last + limit) last writes) as [l' ws']. destruct Hw as (H1 & H2 & H3 & H4 & H5). rewrite Hk.
  destruct (Z.leb_spec limit (last + limit - l')) as [Hl|Hl].
  - assert (l' = last) as -> by lia. destruct ws' as [|w ws']; cbn [first_silence]; (destruct (Z.leb_spec exited (last + limit)); [lia|]); [done|].
    inversion_clear H5. destruct (Z.leb_spec w (last + limit)); [lia|done].
  - replace (last + limit + (limit - (last + limit - l'))) with (l' + limit) by lia. apply IH; [done|lia|done].
Qed.

(** The check that ends a stuck run, which looks only when its timer fires and
    sets it again for what is left of the silence, ends it exactly when a
    watch of every line would: [limit] after the first line that no other follows by
    then, and never while the CLI writes more often. So a run ended was silent
    for [limit] before, and one that is not was never silent that long. *)
Theorem stall_exact limit start writes exited (Hlimit : 0 < limit) (Hsorted : StronglySorted Z.le (start :: writes)) :
  monitor limit start writes exited = first_silence limit start writes exited ∧
  (∀ t, monitor limit start writes exited = Some t → t < exited ∧ t - limit ∈ start :: writes ∧ ∀ w, w ∈ writes → w ≤ t - limit ∨ t < w) ∧
  (monitor limit start writes exited = None → ∀ l1 a b l2, start :: writes = l1 ++ a :: b :: l2 → b < exited → b - a ≤ limit).
Proof.
  assert (Heq : monitor limit start writes exited = first_silence limit start writes exited).
  { unfold monitor. destruct (Z.ltb_spec 0 limit); [|lia]. apply checks_silence; [done|lia|done]. }
  split; [done|]. rewrite Heq. clear Heq. split.
  - intros t. revert start Hsorted. induction writes as [|w writes IH]; intros start Hs; cbn [first_silence].
    + destruct (Z.leb_spec exited (start + limit)); [done|]. intros [= <-]. split; [done|]. split; [apply elem_of_cons; left; lia|]. by intros w Hw%elem_of_nil.
    + apply StronglySorted_inv in Hs as [Hs Hf]. destruct (Z.leb_spec exited (start + limit)); [done|].
      destruct (Z.leb_spec w (start + limit)) as [Hw|Hw].
      * intros Ht. destruct (IH w Hs Ht) as (H1 & H2 & H3). split; [done|]. split; [by right|]. intros x [->|Hx]%elem_of_cons; [|by apply H3].
        left. apply StronglySorted_inv in Hs as [_ Hs]. rewrite Forall_forall in Hs. apply elem_of_cons in H2 as [->|H2]; [lia|]. by apply Hs.
      * intros [= <-]. split; [done|]. split; [apply elem_of_cons; left; lia|]. intros x [->|Hx]%elem_of_cons; [by right|]. right.
        apply StronglySorted_inv in Hs as [_ Hs]. rewrite Forall_forall in Hs. specialize (Hs _ Hx). lia.
  - revert start Hsorted. induction writes as [|w writes IH]; intros start Hs Hn l1 a b l2 Hl Hb.
    + destruct l1 as [|? [|? ?]]; discriminate.
    + cbn [first_silence] in Hn. apply StronglySorted_inv in Hs as [Hs Hf]. inversion_clear Hf as [|? ? Hw Hf'].
      destruct l1 as [|x l1]; [injection Hl as -> <- _|injection Hl as -> Hl].
      * destruct (Z.leb_spec exited (a + limit)); [lia|]. destruct (Z.leb_spec w (a + limit)); [lia|done].
      * destruct (Z.leb_spec exited (x + limit)) as [He|He].
        { assert (x ≤ a).
          { assert (a ∈ w :: writes) as Ha by (rewrite Hl; apply elem_of_app; right; by left). apply elem_of_cons in Ha as [->|Ha]; [done|].
            rewrite Forall_forall in Hf'. by apply Hf'. }
          lia. }
        destruct (Z.leb_spec w (x + limit)); [|done]. by eapply (IH w Hs Hn l1).
Qed.

Lemma stall_exact_witness :
  let writes := [3; 5; 9; 30] in
  (monitor 10 0 writes 100 = first_silence 10 0 writes 100 ∧
   (∀ t, monitor 10 0 writes 100 = Some t → t < 100 ∧ t - 10 ∈ 0 :: writes ∧ ∀ w, w ∈ writes → w ≤ t - 10 ∨ t < w) ∧
   (monitor 10 0 writes 100 = None → ∀ l1 a b l2, 0 :: writes = l1 ++ a :: b :: l2 → b < 100 → b - a ≤ 10)) ∧
  monitor 10 0 writes 100 = Some 19.
Proof. split; [|vm_compute; reflexivity]. apply (stall_exact 10 0 [3; 5; 9; 30] 100); [reflexivity|]. repeat constructor; lia. Defined.

(** ** What a run's stream makes of it *)

Definition total_uses (m : gmap string Z) : Z := map_fold (λ _ n t, n + t) 0 m.

Lemma total_delete m k : total_uses m = default 0 (m !! k) + total_uses (delete k m).
Proof.
  destruct (m !! k) as [n|] eqn:E; cbn.
  - unfold total_uses. rewrite <- (insert_delete_id m k n) at 1 by done. rewrite map_fold_insert_L; [done| |apply lookup_delete_eq].
    intros. lia.
  - by rewrite delete_id.
Qed.

Lemma total_used m k : total_uses (<[k := default 0 (m !! k) + 1]> m) = total_uses m + 1.
Proof.
  rewrite (total_delete _ k), (total_delete m k), lookup_insert_eq, delete_insert_eq. cbn. lia.
Qed.

Definition is_tool_use (ev : Event) : bool := match EvKind ev with EventToolUse => true | _ => false end.
Definition tool_uses (l : list Event) : Z := Z.of_nat (length (List.filter is_tool_use l)).

Lemma tool_uses_app a b : tool_uses (a ++ b) = tool_uses a + tool_uses b.
Proof. unfold tool_uses. rewrite List.filter_app, length_app. lia. Qed.

(** The counts a line adds: as many calls in the result as in the events. *)
Definition adds (w w1 : Watch) (events : list Event) : Prop :=
  total_uses (RsTools (WRes w1)) = total_uses (RsTools (WRes w)) + tool_uses events ∧ WProg w1 = WProg w ∧ WEvents w1 = WEvents w.

Lemma block_adds raw b w : let '(w1, events) := block raw b w in adds w w1 events.
Proof.
  unfold block, adds, tool_uses. destruct (String.eqb (CbType b) "text"); [destruct (String.eqb (CbText b) ""); cbn; (split_and!; [lia|done..])|].
  destruct (String.eqb (CbType b) "thinking"); [cbn; (split_and!; [lia|done..])|].
  destruct (String.eqb (CbType b) "tool_use"); [cbn; (split_and!; [apply total_used|done..])|].
  destruct (String.eqb (CbType b) "tool_result"); cbn; (split_and!; [lia|done..]).
Qed.

Lemma blocks_adds raw l : ∀ w, let '(w1, events) := blocks raw l w in adds w w1 events.
Proof.
  induction l as [|b l IH]; intros w; cbn [blocks]; [unfold adds, tool_uses; cbn; split_and!; [lia|done..]|].
  pose proof (block_adds raw b w) as Hb. destruct (block raw b w) as [w1 e]. specialize (IH w1). destruct (blocks raw l w1) as [w2 es].
  destruct Hb as (H1 & H2 & H3), IH as (H4 & H5 & H6). unfold adds. rewrite tool_uses_app. split_and!; [lia|congruence..].
Qed.

Section Stream.
Context {SJ : StreamJSON}.

Lemma line_adds r line w : let '(w1, events) := parseLine r line w in adds w w1 events.
Proof.
  assert (Hs : ∀ f s x, (∀ y, RsTools (f s y) = RsTools y) → RsTools (set_unless_empty f s x) = RsTools x).
  { intros f s x Hf. unfold set_unless_empty. destruct (String.eqb s ""); [done|apply Hf]. }
  unfold parseLine. destruct (parse_stream line) as [sl|]; [|unfold adds, tool_uses; cbn; split_and!; [lia|done..]].
  set (w0 := with_res _ w). assert (H0 : adds w w0 []) by (unfold adds, tool_uses, w0; cbn; split_and!; [rewrite Hs by done; lia|done..]). clearbody w0.
  assert (Hone : ∀ f ev, (∀ x, RsTools (f x) = RsTools x) → is_tool_use ev = false → adds w (with_res f w0) [ev]).
  { intros f ev Hf Hev. unfold adds, tool_uses in *. destruct H0 as (H1 & H2 & H3). cbn in *. rewrite Hf, Hev. cbn. split_and!; [lia|done..]. }
  assert (Hoth : adds w w0 [mkEvent EventOther "" "" "" false line]) by (destruct H0 as (H1 & H2 & H3); unfold adds, tool_uses in *; cbn in *; split_and!; [lia|done..]).
  destruct (String.eqb (SlType sl) "system").
  { destruct (String.eqb (SlSubtype sl) "init"); [|done]. apply Hone; [|done]. intros x. cbn. by rewrite Hs. }
  destruct (_ || _).
  { destruct (SlMessage sl) as [[model content]|]; [|done]. set (w1 := with_res _ w0). pose proof (blocks_adds line content w1) as Hb.
    destruct (blocks line content w1) as [w2 es]. destruct H0 as (H1 & H2 & H3), Hb as (H4 & H5 & H6). unfold adds.
    assert (RsTools (WRes w1) = RsTools (WRes w0)) as Hw by (unfold w1; cbn; by rewrite Hs). rewrite Hw in H4. cbn in H1.
    split_and!; [unfold tool_uses in *; cbn in *; lia|by rewrite H5|by rewrite H6]. }
  destruct (String.eqb (SlType sl) "result"); [|done]. by apply Hone.
Qed.

(** The progress counts the events told, and the calls of the result. *)
Definition counted (w : Watch) : Prop :=
  PgCount (WProg w) = Z.of_nat (length (WEvents w)) ∧ PgCalls (WProg w) = tool_uses (WEvents w) ∧ total_uses (RsTools (WRes w)) = tool_uses (WEvents w).

Lemma observe_counts events s : ∀ p, let p1 := fold_left (λ p ev, observe ev s p) events p in
  PgCount p1 = PgCount p + Z.of_nat (length events) ∧ PgCalls p1 = PgCalls p + tool_uses events.
Proof.
  induction events as [|ev events IH]; intros p; cbn [fold_left]; [unfold tool_uses; cbn; lia|]. cbv zeta in IH. destruct (IH (observe ev s p)) as [H1 H2].
  cbv zeta. rewrite H1, H2. unfold tool_uses, observe, is_tool_use. cbn [List.filter]. destruct (EvKind ev); cbn; lia.
Qed.

Lemma read_counted r w line : counted w → counted (read_one r w line).
Proof.
  intros (H1 & H2 & H3). unfold read_one. pose proof (line_adds r line w) as Ha. destruct (parseLine r line w) as [w1 events]. destruct Ha as (A1 & A2 & A3).
  pose proof (observe_counts events (RsSession (WRes w1)) (WProg w1)) as [O1 O2]. unfold counted. cbn [WProg WEvents WRes].
  rewrite O1, O2, A2, A3, length_app, tool_uses_app. split_and!; lia.
Qed.

Lemma consume_counted r out broken : counted (consume r out broken).1.
Proof.
  assert (H : counted (fold_left (read_one r) (lines_of out) newWatch)).
  { generalize (lines_of out). intros l. assert (H0 : counted newWatch) by done. revert H0. generalize newWatch.
    induction l as [|x l IH]; intros w Hw; [done|]. cbn. apply IH. by apply read_counted. }
  unfold consume. destruct broken; [done|]. destruct H as (H1 & H2 & H3). unfold counted. cbn. split_and!; [done|done|].
  by destruct (String.eqb _ _).
Qed.

(** Whatever the CLI writes, a run's progress and its result agree on its
    calls: as many as the events told of them. The run returns its result, and no
    error, exactly when it was not cancelled, its stream was read whole and
    said how it ended: however the CLI exits, and though it was taken for stuck as
    it did. It is said stuck only if it was, and had not reported. *)
Theorem run_reported r x :
  let '(o, err) := run_ended r x in
  PgCalls (OutProgress o) = total_uses (RsTools (OutResult o)) ∧
  (∃ events, PgCount (OutProgress o) = Z.of_nat (length events) ∧ PgCalls (OutProgress o) = tool_uses events) ∧
  (err = None ↔ RanCancelled x = None ∧ RanBroken x = None ∧ RsSubtype (OutResult o) ≠ "") ∧
  (∀ silence stderr, err = Some (Stalled silence stderr) → RanStalled x = Some silence ∧ RsSubtype (OutResult o) = "" ∧ RanCancelled x = None) ∧
  (∀ after why, err = Some (Interrupted after why) ↔ RanCancelled x = Some why ∧ after = RanSeconds x).
Proof.
  unfold run_ended. pose proof (consume_counted r (RanOut x) (RanBroken x)) as (H1 & H2 & H3).
  assert (Hb : is_none (consume r (RanOut x) (RanBroken x)).2 = is_none (RanBroken x)) by (unfold consume; by destruct (RanBroken x)).
  destruct (consume r (RanOut x) (RanBroken x)) as [w parseErr]. cbn [fst snd] in *. cbn [OutProgress OutResult].
  set (res := with_duration _ _). assert (Ht : RsTools res = RsTools (WRes w)) by done. rewrite Ht. clearbody res. clear Ht.
  split_and!; [lia|by eexists| | |].
  - destruct (RanCancelled x); [naive_solver|]. destruct (String.eqb_spec (RsSubtype res) "") as [Hs|Hs].
    + destruct (RanStalled x); [naive_solver|]. destruct parseErr; naive_solver.
    + destruct (RanStalled x), parseErr, (RanBroken x); cbn in Hb; naive_solver.
  - intros silence stderr. destruct (RanCancelled x); [done|]. destruct (RanStalled x) as [limit|], (String.eqb_spec (RsSubtype res) ""); try by destruct parseErr.
    intros [= -> _]. done.
  - intros after why. destruct (RanCancelled x) as [c|]; [naive_solver|]. split; [|naive_solver].
    destruct (RanStalled x), (String.eqb (RsSubtype res) ""); try done; by destruct parseErr.
Qed.
End Stream.

(** What paid a run is said only when the worker's choice and the CLI's word agree. *)
Lemma payer_agrees {GQ : GoQuote} auth source payer err : Payer auth source = (payer, err) → payer ≠ "" →
  payer = auth ∧ source ≠ "" ∧ (auth = AuthSubscription ↔ source = "none") ∧ err = None.
Proof.
  unfold Payer. destruct (String.eqb_spec auth ""); cbn [orb]; [naive_solver|]. destruct (String.eqb_spec source ""); [naive_solver|].
  destruct (String.eqb_spec auth AuthSubscription) as [->|Ha]; cbn [andb].
  - destruct (String.eqb_spec source "none"); [naive_solver|]. cbn. naive_solver.
  - destruct (String.eqb_spec auth AuthAPI) as [->|]; cbn [andb]; [|naive_solver]. destruct (String.eqb_spec source "none"); naive_solver.
Qed.

(** ** Examples *)

Section Demo.
#[local] Instance demo_stream : StreamJSON := λ line,
  let base t s m := mkLine t s "sid" "" m "" [] "" false 0 0 0 "" [] "" in
  if String.eqb line "user" then Some (base "user" "" (Some ("", [mkContent "text" "please go on" "" "" "" "" "" false])))
  else if String.eqb line "tool" then Some (base "assistant" "" (Some ("m", [mkContent "tool_use" "" "" "Bash" "t1" "{}" "" false])))
  else None.
Definition demo_runner : Runner := mkRunner "" 0 0 0 None false "".
Definition demo_out : string := "user" +:+ String (byte 10) "tool" +:+ String (byte 13) (String (byte 10) "noise").

(** A text in a line of the user's goes among the assistant's words. *)
Example user_text_reported :
  let '(o, err) := run_ended demo_runner (mkRan demo_out None (Some "exit status 1") " boom " 1500 2 None None) in
  RsReport (OutResult o) = "please go on" ∧ PgCalls (OutProgress o) = 1 ∧ RsDuration (OutResult o) = 1500 ∧
  err = Some (NothingReported "claudecode: CLI exited with exit status 1 and reported nothing: boom").
Proof. vm_compute. by split_and!. Qed.

(** A report that is cut is longer than its bound: the mark is not counted. *)
Example report_over_bound : (3 <? len (truncate "abcdef" 3)) = true.
Proof. reflexivity. Qed.
End Demo.
