(* ===== verification/Coder.v ===== *)
(** * Coding runs on a user's machine (src/machine/connect/analyze.go, implement.go, outputs.go, src/machine/outputs/outputs.go, src/machine/bundle.go, src/claudecode/login.go)

    The executors of analyze_repo and implement_feature: what they refuse, the
    clone, the CLI's run, the inspection, the push, the bundle of a push that
    failed, the outputs; and when Claude Code is announced. A run is the list
    of what it asks of the machine ([Ask]), in order; what git, the CLI, the
    files and the gateway answer is the environment's, and may depend on all
    that was asked before. The state of the clone's [.git] when it is looked at
    is the environment's too: what the CLI left running may change it between
    two steps. *)

From S2P Require Import Prelude GoStr Utf8 GoPath Message MachineMessage MachineInputs AgentData AgentTurn CodingData CodingRun CodingRoute PickRun Files ClaudeCLI.
Open Scope string_scope.
Open Scope Z_scope.
Open Scope list_scope.

(** ** What is asked, in order *)

(** A computation that asks: it only adds to what was asked. *)
Definition Asks (Q A : Type) : Type := list Q → list Q * A.
#[export] Instance asks_ret {Q} : MRet (Asks Q) := λ A x tr, (tr, x).
#[export] Instance asks_bind {Q} : MBind (Asks Q) := λ A B k m tr, let '(tr, x) := m tr in k x tr.

Definition ask_for {Q} (q : Q) : Asks Q unit := λ tr, (tr ++ [q], ()).
(** What the environment says, given all that was asked. *)
Definition answer {Q A} (f : list Q → A) : Asks Q A := λ tr, (tr, f tr).

(** ** git (subproc/git.go, analyze.go) *)

Definition GitSafeArgs : list string := ["-c"; "core.hooksPath=/dev/null"; "-c"; "core.fsmonitor=false"; "-c"; "submodule.recurse=false"].
Definition GitProtocolArgs : list string :=
  ["-c"; "protocol.allow=never"; "-c"; "protocol.ext.allow=never"; "-c"; "protocol.ssh.allow=always"; "-c"; "protocol.https.allow=always";
   "-c"; "protocol.file.allow=always"].
Definition noPrompt : string := "GIT_TERMINAL_PROMPT=0".
Definition GitEnvUser (environ names : list string) : list string := EnvOf environ names [] ++ [noPrompt].
Definition gitEnvNames : list string := ["SSH_AUTH_SOCK"; "GIT_SSH_COMMAND"; "XDG_CONFIG_HOME"].

(** The command line and the environment of each git of a run. *)
Definition gitArgv (args : list string) : list string := GitSafeArgs ++ GitProtocolArgs ++ args.
Definition machineGitEnv (environ : list string) : list string := GitEnvUser environ gitEnvNames ++ ["LC_ALL=C"].

(** [strings.Contains] *)
Fixpoint includes (sub s : string) : bool :=
  has_prefix s sub || match s with "" => false | String _ s => includes sub s end.

Section Hints.
Context {GT : GoText}.

Definition gitHint (out : string) : string :=
  let lower := ToLower out in
  if includes "terminal prompts disabled" lower || includes "could not read username" lower
  then " (this repository asks for credentials: git found none without asking — set a credential helper in your git configuration, or give its ssh URL)"
  else if includes "host key verification failed" lower
  then " (the host's ssh key is not in your known_hosts: connect to it once by hand, e.g. ssh -T git@github.com)"
  else if includes "permission denied (publickey)" lower
  then " (your ssh key was refused or is not loaded in your ssh agent)"
  else if includes "not allowed" lower
  then " (only ssh, https and local paths are allowed)"
  else "".

Definition pushHint (out : string) : string :=
  let lower := ToLower out in
  if includes "returned error: 403" lower || includes "permission to " lower
  then " (your git identity may read this repository but not push to it)"
  else gitHint out.

(** *** The CLI's own words (claudecode/login.go) *)

Definition authFailureMarks : list string :=
  ["invalid api key"; "run /login"; "authentication_error"; "token has expired"; "not logged in"; "invalid bearer token"; "oauth token revoked"].

Definition first_line (p : string → bool) (texts : list string) : string :=
  match List.find p (mjoin (split_byte (byte 10) <$> texts)) with Some line => trim_space line | None => "" end.

Definition AuthFailure (o : RunOutput) (err : option string) : string :=
  let res := OutResult o in
  let texts := (if RsIsError res then [RsReport res] else []) ++
    (if String.eqb (RsSubtype res) "" then [RsReport res; OutStderr o] ++ match err with Some e => [e] | None => [] end else []) in
  first_line (λ line, existsb (λ mark, includes mark (ToLower line)) authFailureMarks) texts.

Definition PluginRefusal (o : RunOutput) (err : option string) : string :=
  if negb (String.eqb (RsSubtype (OutResult o)) "") then ""
  else
    first_line (λ line, let lower := ToLower line in
      includes "disablesideloadflags" lower || (includes PluginDirFlag lower && includes "disabled by your organization" lower))
      ([OutStderr o] ++ match err with Some e => [e] | None => [] end).
End Hints.

(** ** The clone's git configuration (restoreGitConfig) *)

(** What is found in [.git]: the copy kept; what a linked worktree would have
    there, with the error of its removal; a regular [config], and its content
    if it can be read; and what fails. *)
Record GitDir := mkGitDir {
  GdIsDir : bool; GdSaved : string + string; GdCommondir : option (option string); GdWorktree : option (option string);
  GdConfig : option (option string); GdRemove : option string; GdOpen : option string; GdWrite : option string; GdClose : option string
}.

Inductive RestoreError := GitDirGone | NotKept (e : string) | RestoreFailed (e : string).

Definition drop_layout (there : option (option string)) (changed : bool) : bool * option string :=
  match there with None => (changed, None) | Some e => (true, e) end.

Definition first_error (l : list (option string)) : option string := foldr (λ e rest, match e with Some e => Some e | None => rest end) None l.

Definition restoreGitConfig (d : GitDir) : bool * option RestoreError :=
  if negb (GdIsDir d) then (false, Some GitDirGone)
  else
    match GdSaved d with
    | inl e => (false, Some (NotKept e))
    | inr saved =>
        let '(changed, e) := drop_layout (GdCommondir d) false in
        match e with
        | Some e => (changed, Some (RestoreFailed e))
        | None =>
            let '(changed, e) := drop_layout (GdWorktree d) changed in
            match e with
            | Some e => (changed, Some (RestoreFailed e))
            | None =>
                let same := match GdConfig d with Some (Some current) => String.eqb current saved | _ => false end in
                (changed || negb same, RestoreFailed <$> first_error [GdRemove d; GdOpen d; GdWrite d; GdClose d])
            end
        end
    end.

(** What [.git] reads as its configuration, once restored: the copy. *)
Definition config_after (d : GitDir) : option string :=
  match restoreGitConfig d, GdSaved d with (_, None), inr saved => Some saved | _, _ => None end.

Definition restore_text (gitDir : string) (e : RestoreError) : string :=
  match e with
  | GitDirGone => gitDir +:+ " is no longer the clone's git directory"
  | NotKept e => "the clone's git configuration was not kept: " +:+ e
  | RestoreFailed e => e
  end.

(** Restored without a change, it was the copy before, and nothing made git
    read it elsewhere. *)
Lemma restored_unchanged d :
  restoreGitConfig d = (false, None) → ∃ saved, GdSaved d = inr saved ∧ GdConfig d = Some (Some saved) ∧ GdCommondir d = None ∧ GdWorktree d = None ∧
    config_after d = Some saved.
Proof.
  intros H. unfold config_after. rewrite H. unfold restoreGitConfig in H. destruct (GdIsDir d); [|done]. cbn [negb] in H.
  destruct (GdSaved d) as [e|saved]; [done|]. exists saved. split; [done|].
  destruct (GdCommondir d) as [[e|]|]; cbn [drop_layout] in H; try done; destruct (GdWorktree d) as [[e|]|]; cbn [drop_layout] in H; try done.
  injection H as H _. destruct (GdConfig d) as [[c|]|]; cbn in H; try done. apply negb_false_iff, String.eqb_eq in H as ->. done.
Qed.

(** ** A bundle (machine/bundle.go) *)

Section Bundle.
Context {Q : Type}.
(** One git command in the clone: its error's text, its output. *)
Variable git : list string → Asks Q (option string * string).

Fixpoint git_all (l : list (string * list string)) : Asks Q (option string) :=
  match l with
  | [] => mret None
  | (what, args) :: l =>
      x ← git args;
      match x with
      | (Some e, out) => mret (Some (what +:+ ": " +:+ e +:+ ": " +:+ Cut out 512))
      | (None, _) => git_all l
      end
  end.

(** [path]: absolute. *)
Definition WriteBundle (branch base sha path : string) : Asks Q (option string) :=
  let ref := "refs/heads/" +:+ branch in
  git_all
    [("git update-ref", ["update-ref"; "--no-deref"; ref; sha]);
     ("git bundle create", ["-c"; "pack.threads=1"; "bundle"; "create"; "--quiet"; path; "--end-of-options"; ref; "^" +:+ base]);
     ("git bundle verify", ["bundle"; "verify"; "--quiet"; path])].
End Bundle.

Definition megabytes (n : Z) : string := tenths n (1024 * 1024) +:+ " MB".

(** The file at a path: why it cannot be opened, its kind, its size, what is read of it. *)
Record OpenFile := mkOpened { OfRegular : bool; OfShared : bool; OfSize : Z; OfContent : string + string }.

(** [io.LimitReader(f, max+1)] *)
Definition read_limited (max : Z) (content : string) : string := take_str (Z.to_nat (wrap64 (max + 1))) content.

Definition ReadBundle (max : Z) (f : string + OpenFile) : string + string :=
  match f with
  | inl e => inl e
  | inr f =>
      if negb (OfRegular f) then inl "the bundle is not a regular file"
      else if max <? OfSize f then inl ("the bundle is " +:+ megabytes (OfSize f) +:+ ", over the " +:+ megabytes max +:+ " a published file may be")
      else
        match OfContent f with
        | inl e => inl e
        | inr content =>
            let content := read_limited max content in
            if max <? len content then inl ("the bundle is over the " +:+ megabytes max +:+ " a published file may be") else inr content
        end
  end.

(** ** The outputs (machine/outputs/outputs.go) *)

Definition OutputsDir : string := "outputs".
Definition MaxOutputDepth : Z := 4.
Definition MaxOutputEntries : Z := 200.

(** An entry: a directory, with what cut its listing and its entries in the
    order they are walked, or what else it is; a regular file with what opening
    it gives. *)
Inductive Node := NDir (cut : option string) (entries : list (string * Node)) | NLink | NOther | NFile (f : string + OpenFile).

Fixpoint slashes (s : string) : Z := match s with "" => 0 | String c s => (if Ascii.eqb c slash then 1 else 0) + slashes s end.
Definition depth (p : string) : Z := 1 + slashes p.

(** What the walk keeps: how many entries it has read, what it refused, the files it found. *)
Record Walk := mkWalk { WkEntries : Z; WkRefused : list string; WkFiles : list (string * (string + OpenFile)) }.
Definition refused_too (why : string) (w : Walk) : Walk := mkWalk (WkEntries w) (WkRefused w ++ [why]) (WkFiles w).

Section WalkEntries.
(** The walk of one entry; it tells whether it stops there. *)
Variable walk : string → Node → Walk → bool * Walk.
Fixpoint walk_entries (dir : string) (l : list (string * Node)) (w : Walk) : bool * Walk :=
  match l with
  | [] => (false, w)
  | (name, n) :: l => let '(stop, w) := walk (if String.eqb dir "." then name else dir +:+ "/" +:+ name) n w in if stop then (true, w) else walk_entries dir l w
  end.
End WalkEntries.

Definition cut_told (p : string) (cut : option string) (w : Walk) : Walk :=
  match cut with Some e => refused_too (p +:+ ": " +:+ e) w | None => w end.

Fixpoint walk (p : string) (n : Node) (w : Walk) : bool * Walk :=
  let w := mkWalk (WkEntries w + 1) (WkRefused w) (WkFiles w) in
  if MaxOutputEntries <? WkEntries w
  then (true, refused_too ("the rest: more than " +:+ itoa MaxOutputEntries +:+ " entries, not looked at") w)
  else
    match n with
    | NDir cut entries =>
        if MaxOutputDepth <=? depth p
        then (false, refused_too (p +:+ "/: more than " +:+ itoa MaxOutputDepth +:+ " directories deep, not looked at") w)
        else walk_entries walk p entries (cut_told p cut w)
    | NLink => (false, refused_too (p +:+ ": a link, not published") w)
    | NOther => (false, refused_too (p +:+ ": not a regular file") w)
    | NFile f => (false, mkWalk (WkEntries w) (WkRefused w) (WkFiles w ++ [(p, f)]))
    end.

(** [read]: a regular file, of one link, within the bound. *)
Definition read_output (max : Z) (f : string + OpenFile) : string + string :=
  match f with
  | inl e => inl e
  | inr f =>
      if negb (OfRegular f) then inl "not a regular file"
      else if OfShared f then inl "another path shares this file (a hard link): not published"
      else if max <? OfSize f then inl ("too large: at most " +:+ FormatSize max +:+ " are published")
      else
        match OfContent f with
        | inl e => inl e
        | inr content =>
            let content := read_limited max content in
            if max <? len content then inl ("too large: at most " +:+ FormatSize max +:+ " are published") else inr content
        end
  end.

(** What becomes of the files found: whether the time given is over at each,
    and why an upload fails, given those before it. What is told of a file says its path. *)
Section Publish.
Variables (over : nat → bool) (upload : list (string * string) → option string) (max : Z) (reserved : list string).

Fixpoint publish_files (i : nat) (names : list string) (files : list (string * (string + OpenFile))) : Asks (string * string) (list string) :=
  match files with
  | [] => mret []
  | (p, f) :: files =>
      let told why names := rest ← publish_files (S i) names files; mret ((p +:+ ": " +:+ why) :: rest) in
      if MaxOutputFiles <=? Z.of_nat i then told ("at most " +:+ itoa MaxOutputFiles +:+ " files are published") names
      else if over i then told ("the " +:+ duration_string Budget +:+ " given to publish ran out") names
      else
        let name := path_base p in
        if contains reserved name then told ("the name " +:+ name +:+ " is reserved for the branch's bundle") names
        else if contains names name then told ("another file is published as " +:+ name) names
        else
          match read_output max f with
          | inl e => told e (names ++ [name])
          | inr content =>
              _ ← ask_for (name, content);
              failed ← answer upload;
              match failed with
              | Some e => told e (names ++ [name])
              | None => publish_files (S i) (names ++ [name]) files
              end
          end
  end.

(** The directory of the outputs, opened: missing, not to be opened, or what is
    in it, unless its root cannot even be looked at. *)
Inductive OutputsRoot := NoOutputs | OutputsClosed (e : string) | OutputsUnread (e : string) | OutputsIn (cut : option string) (entries : list (string * Node)).

Definition found (root : OutputsRoot) : Walk :=
  let w := mkWalk 0 [] [] in
  match root with
  | NoOutputs | OutputsClosed _ => w
  | OutputsUnread e => refused_too (".: " +:+ e) w
  | OutputsIn cut entries => (walk_entries walk "." entries (cut_told "." cut w)).2
  end.

Definition publish_walk (uploads : bool) (w : Walk) : Asks (string * string) (list string) :=
  match WkFiles w with
  | [] => mret (WkRefused w)
  | files =>
      if uploads then told ← publish_files 0 [] files; mret (WkRefused w ++ told)
      else mret (WkRefused w ++ [itoa (Z.of_nat (length files)) +:+ " files: nothing publishes them here"])
  end.

(** [outputs.Publish]: the context's end already come, as a deadline's or
    another's; whether anything uploads. *)
Definition outputs_Publish (ended : option bool) (uploads : bool) (root : OutputsRoot) : Asks (string * string) (list string) :=
  match ended with
  | Some true => mret ["outputs not published: the run's time ran out"]
  | Some false => mret ["outputs not published: the run was stopped"]
  | None =>
      match root with
      | NoOutputs => mret []
      | OutputsClosed e => mret [OutputsDir +:+ ": " +:+ e]
      | OutputsUnread _ | OutputsIn _ _ => publish_walk uploads (found root)
      end
  end.
End Publish.

(** *** What is published of them *)

Lemma read_output_ok max f content :
  read_output max f = inr content → len content ≤ max ∧ ∃ o whole, f = inr o ∧ OfRegular o = true ∧ OfShared o = false ∧ OfContent o = inr whole ∧ content = read_limited max whole.
Proof.
  unfold read_output. destruct f as [e|o]; [intros [=]|]. destruct (OfRegular o) eqn:Er; [|done]. destruct (OfShared o) eqn:Es; [done|]. cbn [negb].
  destruct (max <? OfSize o); [done|]. destruct (OfContent o) as [e|whole] eqn:Ec; [done|]. destruct (Z.ltb_spec max (len (read_limited max whole))) as [|Hl]; [done|].
  injection 1 as <-. split; [done|]. by exists o, whole.
Qed.

(** A file's path, and what its name and content are once published. *)
Definition published_as (max : Z) (files : list (string * (string + OpenFile))) (u : string * string) : Prop :=
  ∃ p f, (p, f) ∈ files ∧ path_base p = u.1 ∧ read_output max f = inr u.2.

Definition told_of (told : list string) (p : string) : Prop := ∃ why, p +:+ ": " +:+ why ∈ told.

(** [ups]: those of these files, after [tr]. *)
Definition settled (upload : list (string * string) → option string) (tr ups : list (string * string)) (told : list string) (p : string) : Prop :=
  (∃ k content, ups !! k = Some (path_base p, content) ∧ upload (tr ++ take (S k) ups) = None) ∨ told_of told p.

Lemma publish_files_spec over upload max reserved files i names tr :
  let '(tr', told) := publish_files over upload max reserved i names files tr in
  ∃ ups, tr' = tr ++ ups ∧ (length ups ≤ Z.to_nat MaxOutputFiles - i)%nat ∧ NoDup ups.*1 ∧
    (∀ u, u ∈ ups → (u.1 ∉ names) ∧ (u.1 ∉ reserved) ∧ published_as max files u) ∧
    (∀ p f, (p, f) ∈ files → settled upload tr ups told p).
Proof.
  revert i names tr. induction files as [|[p f] files IH]; intros i names tr.
  { cbn. exists []. rewrite app_nil_r. split_and!; [done|cbn; lia|constructor|by intros u ?%elem_of_nil|by intros p f ?%elem_of_nil]. }
  assert (Hmore : ∀ (u : string * string), published_as max files u → published_as max ((p, f) :: files) u).
  { intros u (p' & f' & Hin & H). exists p', f'. split; [by right|done]. }
  assert (Htold : ∀ names' why, (∀ x, x ∈ names → x ∈ names') →
    let '(tr', told) := (rest ← publish_files over upload max reserved (S i) names' files; mret ((p +:+ ": " +:+ why) :: rest)) tr in
    ∃ ups, tr' = tr ++ ups ∧ (length ups ≤ Z.to_nat MaxOutputFiles - i)%nat ∧ NoDup ups.*1 ∧
      (∀ u, u ∈ ups → (u.1 ∉ names) ∧ (u.1 ∉ reserved) ∧ published_as max ((p, f) :: files) u) ∧
      (∀ p' f', (p', f') ∈ (p, f) :: files → settled upload tr ups told p')).
  { intros names' why Hn. unfold mbind, asks_bind, mret, asks_ret. specialize (IH (S i) names' tr). destruct (publish_files _ _ _ _ _ _ _ _) as [tr' told].
    destruct IH as (ups & -> & Hl & Hd & Hu & Hs). exists ups. split_and!; [done|lia|done| |].
    - intros u Hin. destruct (Hu u Hin) as (H1 & H2 & H3). split_and!; [naive_solver|done|by apply Hmore].
    - intros p' f' [[= -> ->]|Hin]%elem_of_cons; [right; exists why; by left|]. destruct (Hs p' f' Hin) as [H|[w Hw]]; [by left|right; exists w; by right]. }
  cbn [publish_files]. cbv zeta. destruct (Z.leb_spec MaxOutputFiles (Z.of_nat i)) as [|Hi]; [by apply Htold|].
  destruct (over i); [by apply Htold|]. destruct (contains reserved (path_base p)) eqn:Er; [by apply Htold|].
  destruct (contains names (path_base p)) eqn:En; [by apply Htold|]. destruct (read_output max f) as [e|content] eqn:Ef.
  { apply Htold. intros x Hx. apply elem_of_app. by left. }
  apply contains_false in Er, En. unfold answer, ask_for, mbind, asks_bind.
  assert (Hself : published_as max ((p, f) :: files) (path_base p, content)) by (exists p, f; split_and!; [by left|done|done]).
  destruct (upload (tr ++ [(path_base p, content)])) as [e|] eqn:Eu.
  - specialize (IH (S i) (names ++ [path_base p]) (tr ++ [(path_base p, content)])). destruct (publish_files _ _ _ _ _ _ _ _) as [tr' told].
    destruct IH as (ups & -> & Hl & Hd & Hu & Hs). exists ((path_base p, content) :: ups). rewrite <- app_assoc. split_and!; [done|cbn; lia| | |].
    + cbn. constructor; [|done]. intros (u & Heq & Hin)%list_elem_of_fmap. destruct (Hu u Hin) as (H1 & _). apply H1. rewrite <- Heq. apply elem_of_app. right. by left.
    + intros u [->|Hin]%elem_of_cons; [done|]. destruct (Hu u Hin) as (H1 & H2 & H3). rewrite elem_of_app in H1. split_and!; [naive_solver|done|by apply Hmore].
    + intros p' f' [[= -> ->]|Hin]%elem_of_cons; [right; exists e; by left|]. destruct (Hs p' f' Hin) as [(k & c & Hk & Hup)|[w Hw]]; [left|right; exists w; by right].
      exists (S k), c. split; [done|]. by rewrite <- app_assoc in Hup.
  - specialize (IH (S i) (names ++ [path_base p]) (tr ++ [(path_base p, content)])). destruct (publish_files _ _ _ _ _ _ _ _) as [tr' told].
    destruct IH as (ups & -> & Hl & Hd & Hu & Hs). exists ((path_base p, content) :: ups). rewrite <- app_assoc. split_and!; [done|cbn; lia| | |].
    + cbn. constructor; [|done]. intros (u & Heq & Hin)%list_elem_of_fmap. destruct (Hu u Hin) as (H1 & _). apply H1. rewrite <- Heq. apply elem_of_app. right. by left.
    + intros u [->|Hin]%elem_of_cons; [done|]. destruct (Hu u Hin) as (H1 & H2 & H3). rewrite elem_of_app in H1. split_and!; [naive_solver|done|by apply Hmore].
    + intros p' f' [[= -> ->]|Hin]%elem_of_cons; [left; by exists 0%nat, content|]. destruct (Hs p' f' Hin) as [(k & c & Hk & Hup)|Hw]; [left|by right].
      exists (S k), c. split; [done|]. by rewrite <- app_assoc in Hup.
Qed.

(** An entry's name is one element of a path. *)
Fixpoint flat_names (n : Node) : Prop :=
  match n with NDir _ l => foldr (λ e rest, has_byte slash e.1 = false ∧ flat_names e.2 ∧ rest) True l | _ => True end.
Definition flat_entries (l : list (string * Node)) : Prop := flat_names (NDir None l).

(** What the walk has found: no more than it has read, none deeper than it looks. *)
Definition walked (w : Walk) : Prop :=
  Z.of_nat (length (WkFiles w)) ≤ WkEntries w ∧ Z.of_nat (length (WkFiles w)) ≤ MaxOutputEntries ∧ Forall (λ f, depth f.1 ≤ MaxOutputDepth) (WkFiles w).

Lemma slashes_nonneg s : 0 ≤ slashes s.
Proof. induction s as [|c s IH]; cbn; [done|]. destruct (Ascii.eqb c slash); lia. Qed.

Lemma slashes_flat s : has_byte slash s = false → slashes s = 0.
Proof. induction s as [|c s IH]; cbn; [done|]. intros [-> H]%orb_false_iff. by rewrite IH. Qed.

Lemma slashes_app a b : slashes (a +:+ b) = slashes a + slashes b.
Proof. induction a as [|c a IH]; [done|]. cbn. rewrite IH. lia. Qed.

Lemma walked_one n refused f :
  walked (mkWalk n refused f) → ∀ refused', walked (mkWalk (n + 1) refused' f).
Proof. intros (H1 & H2 & H3) refused'. split_and!; cbn in *; [lia|done|done]. Qed.

Lemma cut_told_walked p cut w : walked w → walked (cut_told p cut w).
Proof. by destruct cut. Qed.

(** Where the entries of a directory the walk enters are. *)
Definition entered (dir : string) : Prop := dir = "." ∨ depth dir < MaxOutputDepth.

Lemma entry_depth dir name : entered dir → has_byte slash name = false → depth (if String.eqb dir "." then name else dir +:+ "/" +:+ name) ≤ MaxOutputDepth.
Proof.
  unfold entered, depth, MaxOutputDepth. intros Hd Hn%slashes_flat. destruct (String.eqb_spec dir ".") as [|Hne]; [lia|]. rewrite slashes_app.
  change (slashes ("/" +:+ name)) with (1 + slashes name). destruct Hd; [done|lia].
Qed.

Lemma walk_entries_walked dir l w :
  Forall (λ e, ∀ p w, depth p ≤ MaxOutputDepth → flat_names e.2 → walked w → walked (walk p e.2 w).2) l →
  entered dir → flat_entries l → walked w → walked (walk_entries walk dir l w).2.
Proof.
  intros Hl Hd. revert w. induction Hl as [|[name n] l Hn _ IH]; intros w Hf Hw; [done|]. destruct Hf as (Hname & Hn' & Hf). cbn [walk_entries].
  specialize (Hn (if String.eqb dir "." then name else dir +:+ "/" +:+ name) w (entry_depth _ _ Hd Hname) Hn' Hw). cbn [snd] in Hn. destruct (walk _ n w) as [stop w1].
  destruct stop; [done|]. by apply IH.
Qed.

Lemma walk_walked n : ∀ p w, depth p ≤ MaxOutputDepth → flat_names n → walked w → walked (walk p n w).2.
Proof.
  revert n. fix walk_walked 1. intros n p w Hp Hf Hw. assert (Hone : ∀ r, walked (mkWalk (WkEntries w + 1) r (WkFiles w))) by (destruct w as [n0 r0 f0]; exact (walked_one n0 r0 f0 Hw)).
  destruct n as [cut l| | |f]; cbn [walk]; cbn [WkEntries]; (destruct (Z.ltb_spec MaxOutputEntries (WkEntries w + 1)) as [|He]; [apply Hone|]).
  - destruct (Z.leb_spec MaxOutputDepth (depth p)); [apply Hone|]. apply walk_entries_walked; [|by right|done|apply cut_told_walked, Hone].
    clear -walk_walked. induction l as [|e l IH]; constructor; [apply walk_walked|done].
  - apply Hone.
  - apply Hone.
  - destruct Hw as (H1 & H2 & H3). split_and!; cbn; rewrite ?length_app; cbn [length]; try lia. apply Forall_app. split; [done|]. by constructor.
Qed.

Lemma found_walked root :
  (∀ cut l, root = OutputsIn cut l → flat_entries l) → walked (found root).
Proof.
  intros Hf. assert (H0 : walked (mkWalk 0 [] [])) by (split_and!; cbn; try done; unfold MaxOutputEntries; lia).
  destruct root as [| | |cut l]; cbn [found]; try done. apply walk_entries_walked; [|by left|by eapply Hf|by apply cut_told_walked].
  apply Forall_forall. intros e _. apply walk_walked.
Qed.

(** What was published of the files found: within the bounds, and nothing else. *)
Definition published_well (max : Z) (reserved : list string) (files : list (string * (string + OpenFile))) (ups : list (string * string)) : Prop :=
  Z.of_nat (length ups) ≤ MaxOutputFiles ∧ NoDup ups.*1 ∧
  ∀ name content, (name, content) ∈ ups → (name ∉ reserved) ∧ len content ≤ max ∧
    ∃ p o whole, (p, inr o) ∈ files ∧ path_base p = name ∧ OfRegular o = true ∧ OfShared o = false ∧ OfContent o = inr whole ∧ content = read_limited max whole.

Lemma published_none max reserved files : published_well max reserved files [].
Proof. split_and!; [cbn; unfold MaxOutputFiles; lia|constructor|by intros ? ? ?%elem_of_nil]. Qed.

Lemma publish_walk_well over upload max reserved uploads w :
  let '(ups, told) := publish_walk over upload max reserved uploads w [] in
  published_well max reserved (WkFiles w) ups ∧
  (uploads = true → (∀ p f, (p, f) ∈ WkFiles w → settled upload [] ups told p) ∧ (∀ why, why ∈ WkRefused w → why ∈ told)).
Proof.
  unfold publish_walk. destruct (WkFiles w) as [|x files] eqn:Ef.
  { split; [apply published_none|]. intros _. split; [by intros ? ? ?%elem_of_nil|done]. }
  destruct uploads; [|split; [apply published_none|done]]. rewrite <- Ef. unfold mbind, asks_bind, mret, asks_ret.
  pose proof (publish_files_spec over upload max reserved (WkFiles w) 0 [] []) as Hs.
  destruct (publish_files _ _ _ _ _ _ _ _) as [tr told]. destruct Hs as (ups & -> & Hl & Hnd & Hu & Hs). cbn [app] in *. split.
  - split_and!; [unfold MaxOutputFiles in *; lia|done|]. intros name content Hin. destruct (Hu _ Hin) as (_ & Hr & (p & f & Hpf & Hb & Hread)). cbn in *.
    destruct (read_output_ok _ _ _ Hread) as (Hlen & o & whole & -> & H). split_and!; [done|done|]. exists p, o, whole. naive_solver.
  - intros _. split.
    + intros p f Hpf. destruct (Hs p f Hpf) as [H|[why Hw]]; [by left|right; exists why; apply elem_of_app; by right].
    + intros why Hw. apply elem_of_app. by left.
Qed.

(** Whatever a run leaves in its outputs, and however long it takes to read
    and to send, what is published of them is bounded: at most 20 files, of at
    most [max] bytes each, of distinct names, none of them a reserved one (the
    bundle's), each a regular file no other path shares, among at most 200
    entries and four directories deep. And nothing is dropped in silence: each file
    found is one the upload took, under its name, or is told of by its path;
    and so is what the walk refused, links and all. A run over its time, or
    stopped, publishes nothing. *)
Theorem outputs_bounded over upload max reserved ended uploads root (Hflat : ∀ cut l, root = OutputsIn cut l → flat_entries l) :
  let '(ups, told) := outputs_Publish over upload max reserved ended uploads root [] in
  published_well max reserved (WkFiles (found root)) ups ∧
  Z.of_nat (length (WkFiles (found root))) ≤ MaxOutputEntries ∧ (∀ p f, (p, f) ∈ WkFiles (found root) → depth p ≤ MaxOutputDepth) ∧
  (ended = None → uploads = true →
    (∀ p f, (p, f) ∈ WkFiles (found root) → settled upload [] ups told p) ∧ (∀ why, why ∈ WkRefused (found root) → why ∈ told)) ∧
  (ended ≠ None → ups = [] ∧ told ≠ []).
Proof.
  destruct (found_walked root Hflat) as (_ & Hm & Hd). rewrite Forall_forall in Hd.
  pose proof (publish_walk_well over upload max reserved uploads (found root)) as Hw. unfold outputs_Publish.
  assert (Hdepth : ∀ p f, (p, f) ∈ WkFiles (found root) → depth p ≤ MaxOutputDepth) by (intros p f Hpf; apply (Hd _ Hpf)).
  destruct ended as [[|]|]; [cbn; split_and!; try done; apply published_none..|].
  destruct root as [|e|e|cut l]; try (destruct (publish_walk _ _ _ _ _ _ _) as [ups told]; destruct Hw as [H1 H2]; split_and!; try done; by intros _).
  - cbn. split_and!; try done; [apply published_none|]. intros _ _. split; [by intros ? ? ?%elem_of_nil|by intros ? ?%elem_of_nil].
  - cbn. split_and!; try done; [apply published_none|]. intros _ _. split; [by intros ? ? ?%elem_of_nil|by intros ? ?%elem_of_nil].
Qed.

Definition demo_root : OutputsRoot :=
  let file s := NFile (inr (mkOpened true false (len s) (inr s))) in
  OutputsIn None
    [("a.txt", file "one"); ("agent-x.bundle", file "not the commits"); ("deep", NDir None [("a.txt", file "another"); ("b.txt", file "far too long")]); ("link", NLink)].

Lemma outputs_bounded_witness :
  let '(ups, told) := outputs_Publish (λ _, false) (λ _, None) 10 ["agent-x.bundle"] None true demo_root [] in
  ups = [("a.txt", "one")] ∧
  told = ["link: a link, not published"; "agent-x.bundle: the name agent-x.bundle is reserved for the branch's bundle";
          "deep/a.txt: another file is published as a.txt"; "deep/b.txt: too large: at most 10 B are published"] ∧
  published_well 10 ["agent-x.bundle"] (WkFiles (found demo_root)) ups.
Proof.
  pose proof (outputs_bounded (λ _, false) (λ _, None) 10 ["agent-x.bundle"] None true demo_root) as H.
  destruct (outputs_Publish (λ _, false) (λ _, None) 10 ["agent-x.bundle"] None true demo_root []) as [ups told] eqn:E.
  assert (Hf : ∀ cut l, demo_root = OutputsIn cut l → flat_entries l) by (intros cut l [= <- <-]; cbn; tauto).
  destruct (H Hf) as [Hw _]. vm_compute in E. injection E as <- <-. split; [reflexivity|split; [reflexivity|exact Hw]].
Defined.

(** ** When Claude Code is announced (Login, Retry, loginRefused) *)

Inductive LoginStatus := LoginOK | LoginAbsent | LoginNone.

Definition DefaultLoginRetry : Z := 10 * minute.
Definition loginCacheFor : Z := second.

(** [claudecode.FindLogin]: the API's key, or the subscription's token, login
    file or keychain; whether the file holds a login, and the keychain, are the
    machine's. *)
Definition FindLogin (auth : string) (environ : list string) (path : string) (file keychain : bool) : option string :=
  if String.eqb auth AuthAPI then (if String.eqb (envValue environ "ANTHROPIC_API_KEY") "" then None else Some "ANTHROPIC_API_KEY")
  else if String.eqb auth AuthSubscription then
    if negb (String.eqb (envValue environ OAuthTokenEnv) "") then Some OAuthTokenEnv
    else if file then Some path
    else if keychain then Some "macOS keychain" else None
  else None.

(** [refused], with when and what the login file's date was then; and the last
    answer, with when it was made. *)
Record LoginState := mkLogin { LgRefused : bool; LgRefusedAt : time; LgStamp : time; LgCached : LoginStatus; LgCachedAt : option time }.
Definition newLogin : LoginState := mkLogin false 0 0 LoginAbsent None.

(** What is found when it is asked: the CLI, a login, the file's date. *)
Record LoginFound := mkFound { FnCLI : bool; FnLogin : bool; FnStamp : time }.

Definition retry_after (configured : Z) : Z := if configured <=? 0 then DefaultLoginRetry else configured.

(** [login]: the status, and whether the refusal still holds. *)
Definition login (configured : Z) (now : time) (f : LoginFound) (s : LoginState) : LoginStatus * bool :=
  if negb (FnCLI f) then (LoginAbsent, LgRefused s)
  else if negb (FnLogin f) then (LoginNone, LgRefused s)
  else if LgRefused s then
    if negb (LgStamp s <? FnStamp f) && (now - LgRefusedAt s <? retry_after configured) then (LoginNone, true) else (LoginOK, false)
  else (LoginOK, false).

Definition Login (configured : Z) (now : time) (f : LoginFound) (s : LoginState) : LoginStatus * LoginState :=
  match LgCachedAt s with
  | Some at_ =>
      if now - at_ <? loginCacheFor then (LgCached s, s)
      else let '(status, refused) := login configured now f s in (status, mkLogin refused (LgRefusedAt s) (LgStamp s) status (Some now))
  | None => let '(status, refused) := login configured now f s in (status, mkLogin refused (LgRefusedAt s) (LgStamp s) status (Some now))
  end.

Definition Retry (s : LoginState) : LoginState := mkLogin false (LgRefusedAt s) (LgStamp s) (LgCached s) None.
Definition loginRefused (now stamp : time) (s : LoginState) : LoginState := mkLogin true now stamp (LgCached s) None.

Inductive login_op := OpLogin (now : time) (f : LoginFound) | OpRetry | OpRefused (now stamp : time).
Definition login_step (configured : Z) (s : LoginState) (o : login_op) : LoginState :=
  match o with OpLogin now f => (Login configured now f s).2 | OpRetry => Retry s | OpRefused now stamp => loginRefused now stamp s end.

(** A withdrawn login is asked about, and refused again, before it is to be tried
    again, by runs and checks that see no newer login file. *)
Definition withdrawn (configured : Z) (since stamp : time) (o : login_op) : Prop :=
  match o with
  | OpLogin now f => now < since + retry_after configured ∧ FnStamp f ≤ stamp
  | OpRetry => False
  | OpRefused now stamp' => since ≤ now ∧ stamp ≤ stamp'
  end.

Lemma login_withdrawn_keeps configured since stamp s o :
  (LgRefused s = true ∧ since ≤ LgRefusedAt s ∧ stamp ≤ LgStamp s ∧ (LgCachedAt s ≠ None → LgCached s ≠ LoginOK)) → withdrawn configured since stamp o →
  let s' := login_step configured s o in
  (LgRefused s' = true ∧ since ≤ LgRefusedAt s' ∧ stamp ≤ LgStamp s' ∧ (LgCachedAt s' ≠ None → LgCached s' ≠ LoginOK)) ∧
  match o with OpLogin now f => (Login configured now f s).1 ≠ LoginOK | _ => True end.
Proof.
  intros (H1 & H2 & H3 & H4) Ho. destruct o as [now f| |now stamp']; cbn [login_step withdrawn] in *; [|done|split; [split_and!; cbn; try done; lia|done]].
  destruct Ho as [Hn Hf].
  assert (Hl : login configured now f s = ((login configured now f s).1, true) ∧ (login configured now f s).1 ≠ LoginOK).
  { unfold login. rewrite H1. destruct (FnCLI f); [|done]. destruct (FnLogin f); [|done]. cbn [negb].
    destruct (Z.ltb_spec (LgStamp s) (FnStamp f)); [lia|]. destruct (Z.ltb_spec (now - LgRefusedAt s) (retry_after configured)); [done|lia]. }
  destruct (login configured now f s) as [status refused] eqn:El. cbn in Hl. destruct Hl as [[= ->] Hne].
  unfold Login. rewrite El. destruct (LgCachedAt s) as [t|] eqn:Ec; [destruct (now - t <? loginCacheFor)|]; cbn; rewrite ?Ec; split_and!; try done; by apply H4.
Qed.

(** A login a run saw refused is announced no more: after [loginRefused], and
    whatever runs and checks follow, Claude Code is never said usable until the login
    file is newer than it was, the delay to try again has passed, or a new
    connection lifts the refusal. Lifted so, it is usable as soon as it is
    looked for again; and what is answered is less than a second old. *)
Theorem login_withdrawn configured s now stamp ops :
  Forall (withdrawn configured now stamp) ops →
  (∀ pre t f post, ops = pre ++ OpLogin t f :: post → (Login configured t f (fold_left (login_step configured) pre (loginRefused now stamp s))).1 ≠ LoginOK) ∧
  (∀ t f s', FnCLI f = true → FnLogin f = true →
    (LgRefused s' = true → LgStamp s' < FnStamp f ∨ LgRefusedAt s' + retry_after configured ≤ t) →
    (∀ at_, LgCachedAt s' = Some at_ → at_ + loginCacheFor ≤ t) → (Login configured t f s').1 = LoginOK) ∧
  (∀ t f s', FnCLI f = true → FnLogin f = true → (Login configured t f (Retry s')).1 = LoginOK) ∧
  (∀ t f s', (Login configured t f s').1 = (login configured t f s').1 ∨ ∃ at_, LgCachedAt s' = Some at_ ∧ t < at_ + loginCacheFor ∧ (Login configured t f s').1 = LgCached s').
Proof.
  intros Hops. split_and!.
  - intros pre t f post ->. apply Forall_app in Hops as [Hpre Hops]. inversion_clear Hops as [|? ? Ho _].
    assert (Hinv : ∀ l s0, Forall (withdrawn configured now stamp) l →
      LgRefused s0 = true ∧ now ≤ LgRefusedAt s0 ∧ stamp ≤ LgStamp s0 ∧ (LgCachedAt s0 ≠ None → LgCached s0 ≠ LoginOK) →
      let s1 := fold_left (login_step configured) l s0 in
      LgRefused s1 = true ∧ now ≤ LgRefusedAt s1 ∧ stamp ≤ LgStamp s1 ∧ (LgCachedAt s1 ≠ None → LgCached s1 ≠ LoginOK)).
    { intros l. induction l as [|o l IH]; intros s0 Hl H0; [done|]. inversion_clear Hl as [|? ? Ho' Hl']. apply IH; [done|].
      by apply (login_withdrawn_keeps configured now stamp s0 o H0 Ho'). }
    apply (login_withdrawn_keeps configured now stamp _ (OpLogin t f) (Hinv pre (loginRefused now stamp s) Hpre ltac:(cbn; split_and!; done)) Ho).
  - intros t f s' Hc Hl Hr Hat. assert (Hlog : (login configured t f s').1 = LoginOK).
    { unfold login. rewrite Hc, Hl. cbn [negb]. destruct (LgRefused s'); [|done].
      destruct (Hr eq_refl) as [H|H]; [by destruct (Z.ltb_spec (LgStamp s') (FnStamp f)); [|lia]|].
      destruct (Z.ltb_spec (t - LgRefusedAt s') (retry_after configured)); [lia|]. by rewrite andb_false_r. }
    unfold Login. destruct (login configured t f s') as [status refused]. destruct (LgCachedAt s') as [at_|]; [|done].
    specialize (Hat at_ eq_refl). by destruct (Z.ltb_spec (t - at_) loginCacheFor); [lia|].
  - intros t f s' Hc Hl. unfold Login, login. cbn. by rewrite Hc, Hl.
  - intros t f s'. unfold Login. destruct (login configured t f s') as [status refused]. destruct (LgCachedAt s') as [at_|]; [|by left].
    destruct (Z.ltb_spec (t - at_) loginCacheFor); [right; exists at_; split_and!; [done|lia|done]|by left].
Qed.

Lemma login_withdrawn_witness :
  let f := mkFound true true 50 in
  let refused := loginRefused 100 50 newLogin in
  (Login 0 (100 + 5 * minute) f refused).1 = LoginNone ∧ (Login 0 (100 + 5 * minute) f refused).1 ≠ LoginOK ∧
  (Login 0 (100 + 5 * minute) (mkFound true true 60) refused).1 = LoginOK ∧ (Login 0 (100 + 11 * minute) f refused).1 = LoginOK.
Proof.
  cbv zeta. split_and!; [vm_compute; reflexivity| |vm_compute; reflexivity|vm_compute; reflexivity].
  refine (proj1 (login_withdrawn 0 newLogin 100 50 [OpLogin (100 + 5 * minute) (mkFound true true 50)] _) [] _ _ [] eq_refl).
  constructor; [|constructor]. cbn. vm_compute. split; [reflexivity|discriminate].
Defined.

(** ** A run (Analyze, Implement) *)

Record Coder := mkCoder {
  CdRunner : Runner; CdAuth : string; CdRepos : list string; CdAllowPush : bool; CdMaxBudget : float64; CdModel : string; CdPluginDir : bool;
  CdEnviron : list string; CdProgressEvery : Z; CdUpload : bool; CdMaxFileBytes : Z
}.

Definition AllowsRepo (a : Coder) (repo : string) : bool := existsb (λ g, match path_match g repo with Some ok => ok | None => false end) (CdRepos a).

Definition DefaultMachineFileBytes : Z := 20 * 1024 * 1024.
Definition maxFileBytes (a : Coder) : Z := if 0 <? CdMaxFileBytes a then CdMaxFileBytes a else DefaultMachineFileBytes.

(** [a <= 0] of float64s: not of a NaN. *)
Definition zero_or_below (x : float64) : bool := (x =? 0) || ((0x8000000000000000 <=? x) && (x <=? 0xfff0000000000000)).
Definition lowerCap (a b : float64) : float64 :=
  if zero_or_below a || (above_zero b && above_zero a && (b <? a)) then (if zero_or_below b then 0 else b) else a.

Definition lookupEnv (environ : list string) (name : string) : option string :=
  last (omap (cut_prefix (name +:+ "=")) environ).

(** [subproc.WithPath], of an environ that is the process's own when it names no PATH. *)
Definition WithPath (own : string) (environ : list string) (dir : string) : string :=
  "PATH=" +:+ dir +:+ ":" +:+ default own (lookupEnv environ "PATH").
Definition GitShimDir (dir : string) : string := dir +:+ ".bin".

(** *** What the CLI is told (machine/coding.go, machine/skills.go) *)

Definition runGitConfig : list (string * string) :=
  [("core.hooksPath", "/dev/null"); ("core.fsmonitor", "false"); ("core.editor", "true"); ("sequence.editor", "true"); ("core.pager", "cat");
   ("diff.external", ""); ("interactive.diffFilter", "cat"); ("commit.gpgSign", "false"); ("tag.gpgSign", "false"); ("gpg.program", "false");
   ("gpg.openpgp.program", "false"); ("gpg.ssh.program", "false"); ("gpg.x509.program", "false"); ("gpg.ssh.defaultKeyCommand", "false");
   ("submodule.recurse", "false"); ("status.submoduleSummary", "false")].

Definition RunGitEnv : list string :=
  ("GIT_CONFIG_COUNT=" +:+ itoa (Z.of_nat (length runGitConfig))) ::
  mjoin (imap (λ i kv, ["GIT_CONFIG_KEY_" +:+ itoa (Z.of_nat i) +:+ "=" +:+ kv.1; "GIT_CONFIG_VALUE_" +:+ itoa (Z.of_nat i) +:+ "=" +:+ kv.2]) runGitConfig).

Definition OutputsPrompt (dir : string) : string :=
  "To hand files back to the user (a report, a diagram, a patch, data), write them in " +:+ dir +:+ ", not in the repository: " +:+
  "once you finish, the files there (at most " +:+ itoa MaxOutputFiles +:+ ", regular files, no links) are published to the user's session, by their name. " +:+
  "Nothing else you write outside the repository is kept.".

Definition SkillsPrompt (names : list string) : string :=
  "The agent that started this run gave it skills: " +:+ commas (PluginSkill <$> names) +:+
  ". Load each with the Skill tool before you start, and follow them.".

Definition PushProgress : string := "push".
Definition PushCheckTimeout : Z := 2 * minute.

Definition CodingProgress (toolCalls : Z) (lastTool : string) : string :=
  itoa toolCalls +:+ " outil" +:+ (if 1 <? toolCalls then "s" else "") +:+ (if String.eqb lastTool "" then "" else " (dernier : " +:+ lastTool +:+ ")").

(** *** What is asked of the machine *)

Inductive Ask :=
| AskRun (outputs : bool)
| AskTell (progress : string)
| AskGit (inClone : bool) (args : list string)
| AskKeep
| AskPlugin (skills : list RunSkill)
| AskShim
| AskCLI (p : Params)
| AskWithdrawn
| AskRestore
| AskBundleRead (path : string)
| AskUpload (name content : string)
| AskOutputs (uploads : list (string * string))
| AskRemove.

(** What each gives: why the run's directory could not be made, or its path;
    each git's error and output; whether the dry run's own time ran out; what
    the CLI's run gave, unless it could not be run; [.git] at each look; what
    the bundle's file holds; the gateway's answers; whether the directive
    is over; and the outputs, with what becomes of each upload. *)
Record MachineEnv := mkMachineEnv {
  EnRun : string + string;
  EnLogin : LoginStatus;
  EnGit : list Ask → option string * string;
  EnTryOver : bool;
  EnKeep : option string;
  EnPlugin : option string;
  EnShim : option string;
  EnOwnPath : string;
  EnCLI : list Ask → string + Ran;
  EnRestore : list Ask → GitDir;
  EnBundle : string + OpenFile;
  EnUpload : list Ask → string + FileRef;
  EnOver : list Ask → option string;
  EnOutputs : OutputsRoot;
  EnOutputsOver : nat → bool;
  EnOutputsUpload : list (string * string) → option string
}.

Inductive Fail := Refused (why : string) | Invalid (bad : MachineInputs.BadInput) | Failed (why : string).

(** [machine.CodingOutput] as it is filled. *)
Definition emptyOutput (commit : string) : CodingOutput :=
  mkMachineCoding "" "" commit false "" 0 0 0 "" ∅ false 0 "" 0 [] false false "" "" [] [].
Definition set_error (e : string) (o : CodingOutput) : CodingOutput :=
  mkMachineCoding (CoReport o) e (CoCommit o) (CoIsError o) (CoSubtype o) (CoNumTurns o) (CoDurationMS o) (CoCostUSD o) (CoPaidBy o) (CoToolUses o) (CoInterrupted o)
    (CoToolCalls o) (CoLastTool o) (CoEvents o) (CoCommits o) (CoPushed o) (CoDirty o) (CoBundle o) (CoBundleError o) (CoUnpublished o) (CoSkillsMissing o).
Definition also (e : string) (o : CodingOutput) : CodingOutput := set_error (joinErrors (CoError o) e) o.
Definition set_missing (l : list string) (o : CodingOutput) : CodingOutput :=
  mkMachineCoding (CoReport o) (CoError o) (CoCommit o) (CoIsError o) (CoSubtype o) (CoNumTurns o) (CoDurationMS o) (CoCostUSD o) (CoPaidBy o) (CoToolUses o) (CoInterrupted o)
    (CoToolCalls o) (CoLastTool o) (CoEvents o) (CoCommits o) (CoPushed o) (CoDirty o) (CoBundle o) (CoBundleError o) (CoUnpublished o) l.
Definition set_inspected (commits : list CommitInfo) (dirty : bool) (o : CodingOutput) : CodingOutput :=
  mkMachineCoding (CoReport o) (CoError o) (CoCommit o) (CoIsError o) (CoSubtype o) (CoNumTurns o) (CoDurationMS o) (CoCostUSD o) (CoPaidBy o) (CoToolUses o) (CoInterrupted o)
    (CoToolCalls o) (CoLastTool o) (CoEvents o) commits (CoPushed o) dirty (CoBundle o) (CoBundleError o) (CoUnpublished o) (CoSkillsMissing o).
Definition set_published (pushed : bool) (bundle bundleError : string) (o : CodingOutput) : CodingOutput :=
  mkMachineCoding (CoReport o) (CoError o) (CoCommit o) (CoIsError o) (CoSubtype o) (CoNumTurns o) (CoDurationMS o) (CoCostUSD o) (CoPaidBy o) (CoToolUses o) (CoInterrupted o)
    (CoToolCalls o) (CoLastTool o) (CoEvents o) (CoCommits o) pushed (CoDirty o) bundle bundleError (CoUnpublished o) (CoSkillsMissing o).
Definition set_unpublished (l : list string) (o : CodingOutput) : CodingOutput :=
  mkMachineCoding (CoReport o) (CoError o) (CoCommit o) (CoIsError o) (CoSubtype o) (CoNumTurns o) (CoDurationMS o) (CoCostUSD o) (CoPaidBy o) (CoToolUses o) (CoInterrupted o)
    (CoToolCalls o) (CoLastTool o) (CoEvents o) (CoCommits o) (CoPushed o) (CoDirty o) (CoBundle o) (CoBundleError o) l (CoSkillsMissing o).
(** What the CLI said; of a run that failed, how far it got too. *)
Definition set_ran (r : Result) (paid : string) (o : CodingOutput) : CodingOutput :=
  mkMachineCoding (RsReport r) (CoError o) (CoCommit o) (RsIsError r) (RsSubtype r) (RsTurns r) (RsDuration r) (RsCost r) paid (RsTools r) (CoInterrupted o)
    (CoToolCalls o) (CoLastTool o) (CoEvents o) (CoCommits o) (CoPushed o) (CoDirty o) (CoBundle o) (CoBundleError o) (CoUnpublished o) (CoSkillsMissing o).
Definition set_failed (interrupted : bool) (g : Progress) (o : CodingOutput) : CodingOutput :=
  mkMachineCoding (CoReport o) (CoError o) (CoCommit o) (CoIsError o) (CoSubtype o) (CoNumTurns o) (CoDurationMS o) (CoCostUSD o) (CoPaidBy o) (CoToolUses o) interrupted
    (PgCalls g) (PgTool g) (PgCount g) (CoCommits o) (CoPushed o) (CoDirty o) (CoBundle o) (CoBundleError o) (CoUnpublished o) (CoSkillsMissing o).

Definition error_of (e : RunError) : string :=
  match e with
  | NotRun msg | StreamBroken msg | NothingReported msg => msg
  | Interrupted after why => "claudecode: run interrupted after " +:+ duration_string (after * second) +:+ ": " +:+ why
  | Stalled silence stderr =>
      "claudecode: the CLI wrote nothing for " +:+ duration_string silence +:+ " (stuck?), so the run was ended" +:+
      (if String.eqb stderr "" then "" else "; its stderr: " +:+ stderr)
  end.

(** [runner.Run]: what was not run gives no result. *)
Definition noOutput : RunOutput := mkRunOutput emptyResult (mkProg "" 0 0 "" "") "".
Definition cli_result {SJ : StreamJSON} (r : Runner) (p : Params) (x : string + Ran) : RunOutput * option string :=
  match run_refused r p, x with
  | Some why, _ | None, inl why => (noOutput, Some why)
  | None, inr ran => let '(o, e) := run_ended r ran in (o, error_of <$> e)
  end.

(** The parameters of a run, and what the machine adds to them. *)
Definition base_params (dir task mode : string) (allowed denied : list string) (prompt : string) (dirs : list string) (budget : float64) : Params :=
  mkCLIParams dir task "" mode "" allowed denied [] prompt dirs [] false [] budget [] "" false [] "".
Definition with_plugin (plugin : string) (names : list string) (p : Params) : Params :=
  mkCLIParams (Cwd p) (Task p) (PModel p) (PermissionMode p) (PermissionPrompts p) (AllowedTools p) (DisallowedTools p) (PTools p)
    (AppendSystemPrompt p +:+ nl +:+ SkillsPrompt names) (AddDirs p) (MCPConfig p) (StrictMCPConfig p) (SettingSources p) (MaxBudgetUSD p)
    [plugin] (PSession p) (NoSessionPersistence p) (PEnv p) (ConfigDir p).
Definition machine_params (a : Coder) (own : string) (p : Params) : Params :=
  mkCLIParams (Cwd p) (Task p) (CdModel a) (PermissionMode p) (PermissionPrompts p) (AllowedTools p) (DisallowedTools p) (PTools p)
    (AppendSystemPrompt p) (AddDirs p) (MCPConfig p) true ["user"] (lowerCap (CdMaxBudget a) (MaxBudgetUSD p))
    (PluginDirs p) (PSession p) true
    (PEnv p ++ RunGitEnv ++ [WithPath own (CdEnviron a) (GitShimDir (Cwd p))] ++
     match lookupEnv (CdEnviron a) "XDG_CONFIG_HOME" with Some xdg => ["XDG_CONFIG_HOME=" +:+ xdg] | None => [] end) (ConfigDir p).
Definition run_runner (a : Coder) : Runner :=
  let r := CdRunner a in
  mkRunner (RnBinary r) (RnMaxReport r) (if 0 <? CdProgressEvery a then CdProgressEvery a else 2 * second) (RnStall r) (RnRunAs r) (RnCounted r) (CdAuth a).

Section Execute.
Context {GQ : GoQuote} {GT : GoText} {SJ : StreamJSON}.
Variables (a : Coder) (env : MachineEnv).

Definition refuse (repo : string) (skills : list RunSkill) : option string :=
  if negb (AllowsRepo a repo) then Some ("repository " +:+ quote repo +:+ " is not one this machine may use (agent connect --repos)")
  else if (match EnLogin env with LoginOK => false | _ => true end) then Some "Claude Code is not logged in on this machine"
  else if (match skills with [] => false | _ => true end) && negb (CdPluginDir a)
  then Some ("the claude CLI on this machine is too old to load the agent's skills (no " +:+ PluginDirFlag +:+ "): update it, then restart agent connect")
  else None.

Definition git (inClone : bool) (args : list string) : Asks Ask (option string * string) :=
  _ ← ask_for (AskGit inClone args); answer (EnGit env).

Fixpoint resolve (candidates : list string) : Asks Ask string :=
  match candidates with
  | [] => mret ""
  | c :: candidates =>
      x ← git true ["rev-parse"; "--quiet"; "--verify"; "--end-of-options"; c +:+ "^{commit}"];
      match x with (None, sha) => mret sha | (Some _, _) => resolve candidates end
  end.

(** [clone]: why it failed, or the commit. *)
Definition clone (repo ref dir : string) : Asks Ask (string + string) :=
  x ← git false ["clone"; "--quiet"; "--no-hardlinks"; "--"; repo; dir];
  match x with
  | (Some e, out) => mret (inl ("clone " +:+ repo +:+ ": " +:+ e +:+ ": " +:+ Cut out 2048 +:+ gitHint out))
  | (None, _) =>
      checked ← (if String.eqb ref "" then mret None
                 else
                   sha ← resolve [ref; "origin/" +:+ ref];
                   if String.eqb sha "" then mret (Some ("unknown ref " +:+ quote ref))
                   else
                     y ← git true ["checkout"; "--quiet"; "--detach"; sha];
                     mret (match y with (Some e, out) => Some ("checkout " +:+ ref +:+ ": " +:+ e +:+ ": " +:+ out) | (None, _) => None end));
      match checked with
      | Some why => mret (inl why)
      | None =>
          z ← git true ["rev-parse"; "HEAD"];
          mret (match z with (Some e, out) => inl ("resolve HEAD: " +:+ e +:+ ": " +:+ out) | (None, commit) => inr commit end)
      end
  end.

(** [withSkills]: the names written, and the parameters that take them. *)
Definition with_skills (plugin : string) (skills : list RunSkill) (p : Params) : Asks Ask (string + list string * Params) :=
  match skills with
  | [] => mret (inr ([], p))
  | _ =>
      match CheckRunSkills (UniqueSkills skills) with
      | Some bad => mret (inl ("the run's skills: " +:+ bad_skills_text bad))
      | None =>
          _ ← ask_for (AskPlugin (UniqueSkills skills));
          mret (match EnPlugin env with
                | Some e => inl ("the run's skills: " +:+ e)
                | None => let names := MachineMessage.SkName <$> UniqueSkills skills in inr (names, with_plugin plugin names p)
                end)
      end
  end.

Definition plugin_refused (line : string) : string :=
  "Claude Code on this machine refuses the agent's skills: its managed settings forbid " +:+ PluginDirFlag +:+ " (" +:+ Cut line 512 +:+ ")".
Definition login_refused : string :=
  "Claude Code's login was refused on this machine (expired or revoked): its owner must log in again (claude, then /login)".

(** The end of [runCLI]: what was said, and of a failed run how far it got. *)
Definition ran_told (o : RunOutput) (err : option string) (out : CodingOutput) : option Fail * CodingOutput :=
  let res := OutResult o in
  let '(paid, doubt) := Payer (CdAuth a) (RsKeySource res) in
  let out := set_ran res (match doubt with None => paid | Some _ => CoPaidBy out end) out in
  match err with
  | None => (None, out)
  | Some e =>
      let out := set_failed (String.eqb (RsSubtype res) "") (OutProgress o) out in
      (Some (Failed e), if String.eqb (CoError out) "" then set_error (Cut e MaxErrorBytes) out else out)
  end.

Definition runCLI (p : Params) (skills : list string) (out : CodingOutput) : Asks Ask (option Fail * CodingOutput) :=
  _ ← ask_for AskShim;
  match EnShim env with
  | Some e => mret (Some (Failed ("the run's git: " +:+ e)), out)
  | None =>
      let p := machine_params a (EnOwnPath env) p in
      _ ← ask_for (AskCLI p);
      x ← answer (EnCLI env);
      let '(o, err) := cli_result (run_runner a) p x in
      let calls := PgCalls (OutProgress o) in
      let line := PluginRefusal o err in
      let bad := negb (String.eqb line "") && (match skills with [] => false | _ => true end) in
      if bad && (calls =? 0) then mret (Some (Refused (plugin_refused line)), out)
      else
        let out := if bad then set_error (plugin_refused line) out else out in
        let out := if String.eqb (RsSubtype (OutResult o)) "" then out else set_missing (SkillsNotLoaded skills (RsCommands (OutResult o))) out in
        if String.eqb (AuthFailure o err) "" then mret (ran_told o err out)
        else
          _ ← ask_for AskWithdrawn;
          if calls =? 0 then mret (Some (Refused "Claude Code's login was refused on this machine (expired or revoked)"), out)
          else mret (ran_told o (Some (default login_refused err)) (set_error login_refused out))
  end.

(** A run in its own directory, deleted at its end. *)
Definition in_run {A} (outputs : bool) (body : string → Asks Ask (option A * option Fail)) : Asks Ask (option A * option Fail) :=
  _ ← ask_for (AskRun outputs);
  match EnRun env with
  | inl e => mret (None, Some (Failed e))
  | inr dir => r ← body dir; _ ← ask_for AskRemove; mret r
  end.

(** What a coding run gives: nothing but a refusal, or its output with its error. *)
Definition ended (x : option Fail * CodingOutput) : option CodingOutput * option Fail :=
  match x with (Some (Refused why), _) => (None, Some (Refused why)) | (e, out) => (Some out, e) end.

Definition Analyze (i : AnalyzeInput) : Asks Ask (option CodingOutput * option Fail) :=
  match AnalyzeCheck i with
  | Some bad => mret (None, Some (Invalid bad))
  | None =>
      match refuse (ARepo i) (ASkills i) with
      | Some why => mret (None, Some (Refused why))
      | None =>
          in_run false (λ dir,
            let repo := dir +:+ "/repo" in
            _ ← ask_for (AskTell CloneProgress);
            commit ← clone (ARepo i) (ARef i) repo;
            match commit with
            | inl why => mret (None, Some (Failed why))
            | inr commit =>
                p ← with_skills (dir +:+ "/plugin") (ASkills i) (base_params repo (ATask i) AnalyzePermissionMode [] [] AnalyzeSystemPrompt [] 0);
                match p with
                | inl why => mret (None, Some (Failed why))
                | inr (names, p) => x ← runCLI p names (emptyOutput commit); mret (ended x)
                end
            end)
      end
  end.

(** [cliDeadline] *)
Definition pushReserve : Z := 10 * minute.
Definition cliDeadline (deadline : option time) (now : time) : time :=
  match deadline with
  | None => now + 100 * 365 * 24 * hour
  | Some d => let left := d - now in d - (if left <? 2 * pushReserve then Z.quot left 2 else pushReserve)
  end.

(** [checkPush]: the dry run, its time, and what it says. *)
Definition checkPush (repo branch base : string) : Asks Ask (option Fail) :=
  x ← git true ["push"; "--dry-run"; "--"; repo; base +:+ ":refs/heads/" +:+ branch];
  match x with
  | (None, _) => mret None
  | (Some e, out) =>
      over ← answer (EnOver env);
      mret (match over with
            | Some why => Some (Failed why)
            | None =>
                Some (Refused
                  (if EnTryOver env
                   then "this machine could not check that it may push to " +:+ quote repo +:+ ": git push --dry-run did not answer within " +:+ duration_string PushCheckTimeout
                   else "this machine's git may not push to " +:+ quote repo +:+ " (git push --dry-run, before the run): " +:+ e +:+ ": " +:+ Cut out 1024 +:+ pushHint out))
            end)
  end.

Definition restore : Asks Ask (bool * option RestoreError) := _ ← ask_for AskRestore; d ← answer (EnRestore env); mret (restoreGitConfig d).

(** The commits of [git log --format=%H %s], newest first. *)
Definition commits_of (out : string) : list CommitInfo :=
  omap (λ line, let '(sha, subject, _) := cut_byte " " (trim_space line) in if String.eqb sha "" then None else Some (mkCommit sha (Cut subject 200)))
    (split_byte (byte 10) out).

(** [bundle]: why there is none, or its file's name. *)
Definition bundle (dir : string) (branch base sha : string) : Asks Ask (string + string) :=
  if negb (CdUpload a) then mret (inl "nothing publishes a file from this machine")
  else
    x ← restore;
    match x with
    | (_, Some e) => mret (inl ("could not restore the clone's git configuration: " +:+ restore_text (dir +:+ "/repo/.git") e))
    | (true, None) => mret (inl "the clone's git configuration changed since the inspection")
    | (false, None) =>
        let name := BundleName branch in
        let path := dir +:+ "/" +:+ name in
        failed ← WriteBundle (git true) branch base sha path;
        match failed with
        | Some e => mret (inl e)
        | None =>
            _ ← ask_for (AskBundleRead path);
            match ReadBundle (maxFileBytes a) (EnBundle env) with
            | inl e => mret (inl e)
            | inr content =>
                _ ← ask_for (AskUpload name content);
                up ← answer (EnUpload env);
                mret (match up with inl e => inl (name +:+ " was not published: " +:+ e) | inr f => inr (FrName f) end)
            end
        end
    end.

(** The push of what was inspected, and the bundle of one that failed. *)
Definition push (dir repo branch base sha : string) (out : CodingOutput) : Asks Ask CodingOutput :=
  _ ← ask_for (AskTell PushProgress);
  x ← git true ["push"; "--"; repo; sha +:+ ":refs/heads/" +:+ branch];
  match x with
  | (None, _) => mret (set_published true (CoBundle out) (CoBundleError out) out)
  | (Some e, said) =>
      let out := also ("the commits were not pushed: " +:+ e +:+ ": " +:+ Cut said 2048 +:+ pushHint said) out in
      over ← answer (EnOver env);
      match over with
      | Some _ => mret out
      | None =>
          b ← bundle dir branch base sha;
          mret (match b with inl e => set_published (CoPushed out) "" (Cut e 1024) out | inr name => set_published (CoPushed out) name (CoBundleError out) out end)
      end
  end.

(** What may be pushed, past the inspection. *)
Definition not_pushed (changed : bool) (commits : list CommitInfo) (head repo branch : string) : option string :=
  if changed then Some "the run changed the repository's git configuration (.git/config), so nothing was pushed"
  else if (match commits with [] => true | _ => false end) then Some "the run produced no commit, so nothing was pushed"
  else if negb (String.eqb head branch) then Some ("the run left HEAD on " +:+ quote head +:+ " instead of " +:+ quote branch +:+ ", so nothing was pushed")
  else if negb (CdAllowPush a) || negb (AllowsRepo a repo) then Some "this machine does not let its runs push there, so nothing was pushed"
  else None.

(** [publish] *)
Definition publish_run (dir repo branch base : string) (out : CodingOutput) : Asks Ask CodingOutput :=
  let gitDir := dir +:+ "/repo/.git" in
  x ← restore;
  match x with
  | (_, Some e) => mret (also ("could not inspect the clone: " +:+ restore_text gitDir e +:+ "; nothing was pushed") out)
  | (changed, None) =>
      x ← git true ["rev-parse"; "--abbrev-ref"; "HEAD"];
      match x with
      | (Some e, head) => mret (also ("could not read the current branch: " +:+ e +:+ ": " +:+ head +:+ "; nothing was pushed") out)
      | (None, head) =>
          x ← git true ["status"; "--porcelain"; "--ignore-submodules=all"];
          match x with
          | (Some e, _) => mret (also ("could not read the clone's status: " +:+ e +:+ "; nothing was pushed") out)
          | (None, status) =>
              let dirty := negb (String.eqb status "") in
              x ← git true ["log"; "--format=%H %s"; base +:+ "..HEAD"];
              match x with
              | (Some e, said) =>
                  mret (also ("could not list the commits since " +:+ base +:+ ": " +:+ e +:+ ": " +:+ Cut said 1024 +:+ "; nothing was pushed")
                    (set_inspected (CoCommits out) dirty out))
              | (None, said) =>
                  let commits := commits_of said in
                  let out := set_inspected (CoCommits out ++ commits) dirty out in
                  match not_pushed changed (CoCommits out) head repo branch, CoCommits out with
                  | Some why, _ => mret (also why out)
                  | None, [] => mret out
                  | None, newest :: _ =>
                      x ← restore;
                      match x with
                      | (_, Some e) => mret (also ("could not restore the clone's git configuration: " +:+ restore_text gitDir e +:+ "; nothing was pushed") out)
                      | (true, None) => mret (also "the clone's git configuration changed since the inspection, so nothing was pushed" out)
                      | (false, None) => push dir repo branch base (SHA newest) out
                      end
                  end
              end
          end
      end
  end.

(** [publishOutputs] *)
Definition publish_outputs (branch : string) : Asks Ask (list string) :=
  over ← answer (EnOver env);
  let '(ups, told) :=
    outputs_Publish (EnOutputsOver env) (EnOutputsUpload env) (maxFileBytes a) [BundleName branch]
      ((λ why, String.eqb why "context deadline exceeded") <$> over) (CdUpload a) (EnOutputs env) [] in
  _ ← ask_for (AskOutputs ups);
  mret told.

(** After the CLI: the commits, unless the directive is over; the outputs. *)
Definition after_run (dir repo branch base : string) (e : option Fail) (out : CodingOutput) : Asks Ask (option CodingOutput * option Fail) :=
  over ← answer (EnOver env);
  out ← (match over with Some _ => mret (also "nothing was pushed" out) | None => publish_run dir repo branch base out end);
  told ← publish_outputs branch;
  mret (Some (set_unpublished told out), e).

(** From the branch of the clone on. *)
Definition implement_cloned (i : ImplementInput) (budget : float64) (dir base : string) : Asks Ask (option CodingOutput * option Fail) :=
  let repo := dir +:+ "/repo" in
  x ← git true ["checkout"; "--quiet"; "-b"; IBranch i];
  match x with
  | (Some e, out) => mret (None, Some (Failed ("create branch " +:+ IBranch i +:+ ": " +:+ e +:+ ": " +:+ out)))
  | (None, _) =>
      may ← checkPush (IRepo i) (IBranch i) base;
      match may with
      | Some e => mret (None, Some e)
      | None =>
          _ ← ask_for AskKeep;
          match EnKeep env with
          | Some e => mret (None, Some (Failed e))
          | None =>
              let outputs := dir +:+ "/" +:+ OutputsDir in
              p ← with_skills (dir +:+ "/plugin") (ISkills i)
                    (base_params repo (ITask i) ImplementPermissionMode ImplementAllowedTools ImplementDeniedTools
                       (ImplementSystemPrompt +:+ nl +:+ OutputsPrompt outputs) [outputs] budget);
              match p with
              | inl why => mret (None, Some (Failed why))
              | inr (names, p) =>
                  x ← runCLI p names (emptyOutput base);
                  match x with
                  | (Some (Refused why), _) => mret (None, Some (Refused why))
                  | (e, out) => after_run dir (IRepo i) (IBranch i) base e out
                  end
              end
          end
      end
  end.

(** [budget]: the directive's, of which [i] has the sign. *)
Definition Implement (i : ImplementInput) (budget : float64) : Asks Ask (option CodingOutput * option Fail) :=
  match ImplementCheck i with
  | Some bad => mret (None, Some (Invalid bad))
  | None =>
      if negb (CdAllowPush a) then mret (None, Some (Refused "this machine does not let its runs push (agent connect --allow-push)"))
      else
        match refuse (IRepo i) (ISkills i) with
        | Some why => mret (None, Some (Refused why))
        | None =>
            in_run true (λ dir,
              _ ← ask_for (AskTell CloneProgress);
              base ← clone (IRepo i) (IBase i) (dir +:+ "/repo");
              match base with
              | inl why => mret (None, Some (Failed why))
              | inr base => implement_cloned i budget dir base
              end)
        end
  end.
End Execute.

(** ** What a run asks *)

(** All that a computation adds satisfies [P]. *)
Definition asks_only {Q A} (P : Q → Prop) (m : Asks Q A) : Prop := ∀ tr, ∃ l, (m tr).1 = tr ++ l ∧ Forall P l.

Lemma only_ret {Q A} (P : Q → Prop) (x : A) : asks_only P (mret x).
Proof. intros tr. exists []. by rewrite app_nil_r. Qed.
Lemma only_answer {Q A} (P : Q → Prop) (f : list Q → A) : asks_only P (answer f).
Proof. intros tr. exists []. by rewrite app_nil_r. Qed.
Lemma only_ask {Q} (P : Q → Prop) q : P q → asks_only P (ask_for q).
Proof. intros H tr. exists [q]. split; [done|by constructor]. Qed.
Lemma only_bind {Q A B} (P : Q → Prop) (m : Asks Q A) (k : A → Asks Q B) : asks_only P m → (∀ x, asks_only P (k x)) → asks_only P (m ≫= k).
Proof.
  intros Hm Hk tr. unfold mbind, asks_bind. destruct (Hm tr) as (l & Hl & Hp). destruct (m tr) as [tr1 x]. cbn in Hl. subst tr1.
  destruct (Hk x (tr ++ l)) as (l' & Hl' & Hp'). exists (l ++ l'). rewrite Hl', app_assoc. split; [done|by apply Forall_app].
Qed.
Lemma only_weaken {Q A} (P P' : Q → Prop) (m : Asks Q A) : (∀ q, P q → P' q) → asks_only P m → asks_only P' m.
Proof. intros H Hm tr. destruct (Hm tr) as (l & Hl & Hp). exists l. split; [done|by eapply Forall_impl]. Qed.

Create HintDb asks.
#[export] Hint Resolve only_ret only_answer only_ask only_bind : asks.

(** Straight-line code: each step, each of its cases. *)
Ltac only_steps :=
  repeat first
    [ apply only_ret | apply only_answer | apply only_ask | apply only_bind; [|intros ?] | case_match | solve [eauto with asks] ].

Definition is_push (q : Ask) : bool := match q with AskGit _ (cmd :: flag :: _) => String.eqb cmd "push" && negb (String.eqb flag "--dry-run") | _ => false end.
Definition is_cli (q : Ask) : bool := match q with AskCLI _ => true | _ => false end.
(** Neither publishes nor spends. *)
Definition idle (q : Ask) : Prop := is_push q = false ∧ is_cli q = false.
Definition no_push (q : Ask) : Prop := is_push q = false.

Lemma idle_no_push q : idle q → no_push q.
Proof. by intros [H _]. Qed.

Section Runs.
Context {GQ : GoQuote} {GT : GoText} {SJ : StreamJSON}.
Implicit Types (a : Coder) (env : MachineEnv).

Lemma git_only (P : Ask → Prop) env b args : P (AskGit b args) → asks_only P (git env b args).
Proof. intros H. unfold git. by only_steps. Qed.

Lemma restore_only (P : Ask → Prop) env : P AskRestore → asks_only P (restore env).
Proof. intros H. unfold restore. by only_steps. Qed.

Lemma resolve_idle env l : asks_only idle (resolve env l).
Proof. induction l as [|c l IH]; cbn [resolve]; [apply only_ret|]. apply only_bind; [by apply git_only|]. intros [[e|] out]; [done|apply only_ret]. Qed.

Lemma clone_idle env repo ref dir : asks_only idle (clone env repo ref dir).
Proof.
  unfold clone. apply only_bind; [by apply git_only|]. intros [[e|] out]; [apply only_ret|]. apply only_bind.
  - destruct (String.eqb ref ""); [apply only_ret|]. apply only_bind; [apply resolve_idle|]. intros sha. destruct (String.eqb sha ""); [apply only_ret|].
    apply only_bind; [by apply git_only|]. intros x. apply only_ret.
  - intros [why|]; [apply only_ret|]. apply only_bind; [by apply git_only|]. intros x. apply only_ret.
Qed.

Lemma with_skills_idle env plugin skills p : asks_only idle (with_skills env plugin skills p).
Proof.
  unfold with_skills. destruct skills as [|s l]; [apply only_ret|]. destruct (CheckRunSkills _); [apply only_ret|].
  apply only_bind; [by apply only_ask|]. intros _. apply only_ret.
Qed.

Lemma checkPush_idle env repo branch base : asks_only idle (checkPush env repo branch base).
Proof.
  unfold checkPush. apply only_bind; [by apply git_only|]. intros [[e|] out]; [|apply only_ret]. apply only_bind; [apply only_answer|]. intros over. apply only_ret.
Qed.

Lemma git_all_only (P : Ask → Prop) (g : list string → Asks Ask (option string * string)) l :
  (∀ what args, (what, args) ∈ l → asks_only P (g args)) → asks_only P (git_all g l).
Proof.
  induction l as [|[what args] l IH]; intros H; cbn [git_all]; [apply only_ret|]. apply only_bind; [apply (H what); by left|].
  intros [[e|] out]; [apply only_ret|]. apply IH. intros w r Hin. apply (H w). by right.
Qed.

Lemma bundle_no_push a env dir branch base sha : asks_only no_push (bundle a env dir branch base sha).
Proof.
  unfold bundle. destruct (negb _); [apply only_ret|]. apply only_bind; [by apply restore_only|]. intros [[|] [e|]]; try apply only_ret.
  apply only_bind.
  - unfold WriteBundle. apply git_all_only. intros what args Hin. apply git_only. repeat (apply elem_of_cons in Hin as [[= -> ->]|Hin]; [done|]). by apply elem_of_nil in Hin.
  - intros [e|]; [apply only_ret|]. apply only_bind; [by apply only_ask|]. intros _. destruct (ReadBundle _ _); [apply only_ret|].
    apply only_bind; [by apply only_ask|]. intros _. apply only_bind; [apply only_answer|]. intros x. apply only_ret.
Qed.

(** The calls to tools of the CLI run asked last. *)
Definition cli_calls a env (tr : list Ask) (p : Params) : Z := PgCalls (OutProgress (cli_result (run_runner a) p (EnCLI env tr)).1).

Lemma ran_told_pushed a o err out : CoPushed (ran_told a o err out).2 = CoPushed out ∧ CoCommits (ran_told a o err out).2 = CoCommits out.
Proof. unfold ran_told. destruct (Payer _ _) as [paid [d|]], err as [e|]; cbn; try done; by destruct (String.eqb _ _). Qed.

Lemma ran_told_kept a o err out why : (ran_told a o err out).1 ≠ Some (Refused why).
Proof. unfold ran_told. destruct (Payer _ _) as [paid [d|]], err as [e|]; cbn; done. Qed.

(** The CLI is started once, with the machine's parameters; a run it refuses made no call. *)
Lemma runCLI_shape a env p names out tr :
  let '(tr', (e, out')) := runCLI a env p names out tr in
  let q := machine_params a (EnOwnPath env) p in
  ∃ l, tr' = tr ++ l ∧ CoPushed out' = CoPushed out ∧ CoCommits out' = CoCommits out ∧
    ((l = [AskShim] ∧ ∃ why, e = Some (Failed why)) ∨
     (∃ post, l = AskShim :: AskCLI q :: post ∧ Forall idle post ∧
        ∀ why, e = Some (Refused why) → cli_calls a env (tr ++ [AskShim; AskCLI q]) q = 0)).
Proof.
  unfold runCLI, ask_for, answer, mbind, asks_bind, mret, asks_ret. destruct (EnShim env) as [e|].
  { exists [AskShim]. split_and!; [done..|]. left. split; [done|by eexists]. }
  rewrite <- !app_assoc. cbn [app]. set (q := machine_params _ _ _). unfold cli_calls.
  destruct (cli_result (run_runner a) q (EnCLI env (tr ++ [AskShim; AskCLI q]))) as [o err] eqn:Eq. cbv zeta. cbn [fst].
  set (bad := negb _ && _). destruct (bad && (PgCalls (OutProgress o) =? 0)) eqn:Eb.
  { exists [AskShim; AskCLI q]. split_and!; [done..|]. right. exists []. split_and!; [done|constructor|]. intros why _. apply andb_true_iff in Eb as [_ ?%Z.eqb_eq]. done. }
  set (out1 := if String.eqb (RsSubtype (OutResult o)) "" then _ else _).
  assert (H1 : CoPushed out1 = CoPushed out ∧ CoCommits out1 = CoCommits out) by (unfold out1; destruct (String.eqb (RsSubtype _) ""), bad; split; reflexivity).
  destruct H1 as [H1 H2]. destruct (String.eqb (AuthFailure o err) "").
  - destruct (ran_told a o err out1) as [e out'] eqn:Er. pose proof (ran_told_pushed a o err out1) as [H3 H4]. rewrite Er in H3, H4. cbn in H3, H4.
    exists [AskShim; AskCLI q]. split_and!; [done|congruence|congruence|]. right. exists []. split_and!; [done|constructor|].
    intros why ->. by destruct (ran_told_kept a o err out1 why ltac:(by rewrite Er)).
  - destruct (PgCalls (OutProgress o) =? 0) eqn:Ec.
    + exists [AskShim; AskCLI q; AskWithdrawn]. rewrite <- app_assoc. split_and!; [done..|]. right. exists [AskWithdrawn].
      split_and!; [done|by constructor; [|constructor]|]. intros why _. by apply Z.eqb_eq in Ec.
    + set (e0 := Some _). set (out2 := set_error _ _). destruct (ran_told a o e0 out2) as [e out'] eqn:Er.
      pose proof (ran_told_pushed a o e0 out2) as [H3 H4]. rewrite Er in H3, H4. cbn in H3, H4.
      exists [AskShim; AskCLI q; AskWithdrawn]. rewrite <- app_assoc. split_and!; [done|congruence|congruence|]. right. exists [AskWithdrawn].
      split_and!; [done|by constructor; [|constructor]|]. intros why ->. by destruct (ran_told_kept a o e0 out2 why ltac:(by rewrite Er)).
Qed.

(** *** What is published *)

Definition push_args (repo branch sha : string) : list string := ["push"; "--"; repo; sha +:+ ":refs/heads/" +:+ branch].

(** All that is asked between the end of the CLI and a push. *)
Definition looked (base : string) : list Ask :=
  [AskRestore; AskGit true ["rev-parse"; "--abbrev-ref"; "HEAD"]; AskGit true ["status"; "--porcelain"; "--ignore-submodules=all"];
   AskGit true ["log"; "--format=%H %s"; base +:+ "..HEAD"]; AskRestore; AskTell PushProgress].

(** After [tr], the inspection finds [.git] as it was kept, twice; HEAD on the
    branch; and [sha] the newest commit since the base. *)
Definition inspected env (branch base : string) (tr : list Ask) (sha : string) : Prop :=
  restoreGitConfig (EnRestore env (tr ++ take 1 (looked base))) = (false, None) ∧
  EnGit env (tr ++ take 2 (looked base)) = (None, branch) ∧
  (∃ said subject rest, EnGit env (tr ++ take 4 (looked base)) = (None, said) ∧ commits_of said = mkCommit sha subject :: rest) ∧
  restoreGitConfig (EnRestore env (tr ++ take 5 (looked base))) = (false, None).

Lemma push_shape a env dir repo branch base sha out tr :
  CoPushed out = false →
  let '(tr', out') := push a env dir repo branch base sha out tr in
  ∃ post, tr' = tr ++ AskTell PushProgress :: AskGit true (push_args repo branch sha) :: post ∧ Forall no_push post ∧
    (CoPushed out' = true ↔ (EnGit env (tr ++ [AskTell PushProgress; AskGit true (push_args repo branch sha)])).1 = None).
Proof.
  intros Hout. unfold push, git. unfold ask_for, answer, mbind, asks_bind, mret, asks_ret. rewrite <- !app_assoc. cbn [app].
  change ["push"; "--"; repo; sha +:+ ":refs/heads/" +:+ branch] with (push_args repo branch sha). set (g := EnGit env _).
  destruct g as [[e|] said] eqn:Eg; subst g; [|exists []; split_and!; [done|constructor|done]].
  set (tr1 := tr ++ _) in *. destruct (EnOver env tr1) as [w|].
  { exists []. split_and!; [done|constructor|]. cbn. rewrite Hout. by split. }
  pose proof (bundle_no_push a env dir branch base sha tr1) as (l & Hl & Hf). destruct (bundle a env dir branch base sha tr1) as [tr' b]. cbn in Hl. subst tr'.
  exists l. split_and!; [unfold tr1; by rewrite <- app_assoc|done|]. cbn. destruct b; cbn; rewrite Hout; by split.
Qed.

Lemma no_push_list l : forallb (λ q, negb (is_push q)) l = true → Forall no_push l.
Proof. intros H. apply Forall_forall. intros q Hq. rewrite forallb_forall in H. apply negb_true_iff, H. by apply list_elem_of_In. Qed.

(** What was asked so far, as one list. *)
Ltac asked := cbv beta iota; rewrite <- ?app_assoc; cbn [app].

Lemma publish_shape a env dir repo branch base out tr :
  CoPushed out = false → CoCommits out = [] →
  let '(tr', out') := publish_run a env dir repo branch base out tr in
  (∃ l, tr' = tr ++ l ∧ Forall no_push l ∧ CoPushed out' = false) ∨
  (∃ sha post, tr' = tr ++ looked base ++ AskGit true (push_args repo branch sha) :: post ∧ Forall no_push post ∧ inspected env branch base tr sha ∧
     CdAllowPush a = true ∧ AllowsRepo a repo = true ∧
     (CoPushed out' = true ↔ (EnGit env (tr ++ looked base ++ [AskGit true (push_args repo branch sha)])).1 = None)).
Proof.
  intros Hpushed Hnone. unfold publish_run, restore, git. unfold ask_for, answer, mbind, asks_bind, mret, asks_ret. asked.
  destruct (restoreGitConfig (EnRestore env (tr ++ [AskRestore]))) as [changed [e|]] eqn:E1;
    [left; destruct changed; eexists; (split_and!; [done|by apply no_push_list|done])|].
  set (head_args := ["rev-parse"; "--abbrev-ref"; "HEAD"]).
  set (status_args := ["status"; "--porcelain"; "--ignore-submodules=all"]).
  set (log_args := ["log"; "--format=%H %s"; base +:+ "..HEAD"]).
  assert (Hstop : ∀ l out', CoPushed out' = false → forallb (λ q, negb (is_push q)) l = true →
    ∃ l', tr ++ l = tr ++ l' ∧ Forall no_push l' ∧ CoPushed out' = false).
  { intros l out' Ho Hl. exists l. split_and!; [done|by apply no_push_list|done]. }
  asked. destruct (EnGit env (tr ++ [AskRestore; AskGit true head_args])) as [[e|] head] eqn:E2; asked; [left; by apply Hstop|].
  destruct (EnGit env (tr ++ [AskRestore; AskGit true head_args; AskGit true status_args])) as [[e|] status] eqn:E3; asked; [left; by apply Hstop|].
  destruct (EnGit env (tr ++ [AskRestore; AskGit true head_args; AskGit true status_args; AskGit true log_args])) as [[e|] said] eqn:E4; asked; [left; by apply Hstop|].
  rewrite Hnone. cbn [CoCommits set_inspected app].
  destruct (not_pushed a changed (commits_of said) head repo branch) as [why|] eqn:Enp; [left; by apply Hstop|].
  unfold not_pushed in Enp. destruct changed; [done|]. destruct (commits_of said) as [|[sha subject] rest] eqn:Ec; [done|].
  destruct (String.eqb_spec head branch) as [->|]; [|done]. cbn [negb] in Enp. destruct (CdAllowPush a) eqn:Ea; [|done]. destruct (AllowsRepo a repo) eqn:Er; [|done].
  asked. set (tr5 := tr ++ _).
  destruct (restoreGitConfig (EnRestore env tr5)) as [[|] [e|]] eqn:E5; asked; try (left; by apply Hstop).
  cbn [SHA]. set (out1 := set_inspected _ _ out).
  pose proof (push_shape a env dir repo branch base sha out1 tr5 Hpushed) as Hp.
  destruct (push a env dir repo branch base sha out1 tr5) as [tr' out']. destruct Hp as (post & -> & Hf & Hiff).
  right. exists sha, post. unfold tr5 in *. rewrite <- ?app_assoc in *. split_and!; try done. unfold inspected. split_and!; [done|done|by exists said, subject, rest|done].
Qed.

Definition dry_args (repo branch base : string) : list string := ["push"; "--dry-run"; "--"; repo; base +:+ ":refs/heads/" +:+ branch].

(** Of all that is asked after [tr], nothing is a push; or one is, of what was
    inspected, to a remote that answered the dry run, once the CLI ran. *)
Definition published_once a env (repo branch base : string) (tr l : list Ask) (out : option CodingOutput) : Prop :=
  (Forall no_push l ∧ ∀ o, out = Some o → CoPushed o = false) ∨
  ∃ b1 b2 sha post o,
    l = (b1 ++ AskGit true (dry_args repo branch base) :: b2) ++ looked base ++ AskGit true (push_args repo branch sha) :: post ∧
    Forall idle b1 ∧ Forall no_push b2 ∧ Forall no_push post ∧
    (EnGit env (tr ++ b1 ++ [AskGit true (dry_args repo branch base)])).1 = None ∧
    inspected env branch base (tr ++ b1 ++ AskGit true (dry_args repo branch base) :: b2) sha ∧
    CdAllowPush a = true ∧ AllowsRepo a repo = true ∧ out = Some o ∧
    (CoPushed o = true ↔
       (EnGit env ((tr ++ b1 ++ AskGit true (dry_args repo branch base) :: b2) ++ looked base ++ [AskGit true (push_args repo branch sha)])).1 = None).

Lemma published_none_once a env repo branch base tr l out :
  Forall no_push l → (∀ o, out = Some o → CoPushed o = false) → published_once a env repo branch base tr l out.
Proof. by left. Qed.

Lemma idle_list l : Forall idle l → Forall no_push l.
Proof. intros H. eapply Forall_impl; [exact H|apply idle_no_push]. Qed.

(** What is asked around the outputs. *)
Lemma publish_outputs_shape a env branch tr :
  ∃ ups told, publish_outputs a env branch tr = (tr ++ [AskOutputs ups], told).
Proof.
  unfold publish_outputs, ask_for, answer, mbind, asks_bind, mret, asks_ret. destruct (outputs_Publish _ _ _ _ _ _ _ _) as [ups told]. by exists ups, told.
Qed.

(** [tr]: all asked up to the end of the CLI. *)
Lemma after_run_shape a env dir repo branch base e out tr :
  CoPushed out = false → CoCommits out = [] →
  let '(tr', (out', e')) := after_run a env dir repo branch base e out tr in
  e' = e ∧
  ((∃ l o, tr' = tr ++ l ∧ Forall no_push l ∧ out' = Some o ∧ CoPushed o = false) ∨
   (∃ sha post o, tr' = tr ++ looked base ++ AskGit true (push_args repo branch sha) :: post ∧ Forall no_push post ∧ inspected env branch base tr sha ∧
     CdAllowPush a = true ∧ AllowsRepo a repo = true ∧ out' = Some o ∧
     (CoPushed o = true ↔ (EnGit env (tr ++ looked base ++ [AskGit true (push_args repo branch sha)])).1 = None))).
Proof.
  intros Hp Hc. unfold after_run. unfold answer, mbind, asks_bind, mret, asks_ret.
  destruct (EnOver env tr) as [w|].
  { destruct (publish_outputs_shape a env branch tr) as (ups & told & ->). split; [done|]. left. eexists [AskOutputs ups], _. split_and!; [done|by apply no_push_list|done|done]. }
  pose proof (publish_shape a env dir repo branch base out tr Hp Hc) as Hs. destruct (publish_run a env dir repo branch base out tr) as [tr1 out1].
  destruct (publish_outputs_shape a env branch tr1) as (ups & told & ->). split; [done|].
  assert (Ho : Forall no_push [AskOutputs ups]) by by apply no_push_list.
  destruct Hs as [(l & -> & Hf & Hn)|(sha & post & -> & Hf & Hi & Ha & Hr & Hiff)].
  - left. eexists (l ++ [AskOutputs ups]), _. rewrite app_assoc. split_and!; [done|by apply Forall_app|done|done].
  - right. exists sha, (post ++ [AskOutputs ups]), (set_unpublished told out1). split_and!; try done; [|by apply Forall_app].
    by rewrite <- !app_assoc, <- app_comm_cons.
Qed.

Lemma bind_run {Q A B} (m : Asks Q A) (k : A → Asks Q B) tr : (m ≫= k) tr = let '(tr', x) := m tr in k x tr'.
Proof. done. Qed.
Lemma git_run env b args tr : git env b args tr = (tr ++ [AskGit b args], EnGit env (tr ++ [AskGit b args])).
Proof. done. Qed.
Lemma ask_run {Q} (q : Q) tr : ask_for q tr = (tr ++ [q], ()).
Proof. done. Qed.

Lemma ret_run {Q A} (x : A) (tr : list Q) : (mret x : Asks Q A) tr = (tr, x).
Proof. done. Qed.

(** The dry run that lets the run go on answered. *)
Lemma checkPush_run env repo branch base tr :
  ∃ e, checkPush env repo branch base tr = (tr ++ [AskGit true (dry_args repo branch base)], e) ∧
    (e = None → (EnGit env (tr ++ [AskGit true (dry_args repo branch base)])).1 = None).
Proof.
  unfold checkPush. rewrite bind_run, git_run. fold (dry_args repo branch base).
  destruct (EnGit env (tr ++ [AskGit true (dry_args repo branch base)])) as [[e|] said]; [|by eexists].
  rewrite bind_run. unfold answer, mret, asks_ret. eexists. split; [done|]. by destruct (EnOver _ _).
Qed.

Lemma implement_cloned_shape a env i budget dir base tr :
  let '(tr', (out, e)) := implement_cloned a env i budget dir base tr in
  ∃ l, tr' = tr ++ l ∧ published_once a env (IRepo i) (IBranch i) base tr l out.
Proof.
  unfold implement_cloned. rewrite bind_run, git_run. set (co := AskGit true ["checkout"; "--quiet"; "-b"; IBranch i]).
  destruct (EnGit env (tr ++ [co])) as [[e|] said] eqn:E1.
  { eexists. split; [done|]. apply published_none_once; [by apply no_push_list|done]. }
  rewrite bind_run. destruct (checkPush_run env (IRepo i) (IBranch i) base (tr ++ [co])) as (may & -> & Hmay). set (dry := AskGit true (dry_args _ _ _)) in *.
  destruct may as [e|]. { eexists [co; dry]. rewrite <- app_assoc. split; [done|]. apply published_none_once; [by apply no_push_list|done]. }
  rewrite bind_run, ask_run. rewrite <- !app_assoc. cbn [app]. specialize (Hmay eq_refl). rewrite <- app_assoc in Hmay. cbn [app] in Hmay.
  destruct (EnKeep env) as [e|]. { eexists [co; dry; AskKeep]. split; [done|]. apply published_none_once; [by apply no_push_list|done]. }
  rewrite bind_run. set (p0 := base_params _ _ _ _ _ _ _ _). set (tr1 := tr ++ _).
  destruct (with_skills_idle env (dir +:+ "/plugin") (ISkills i) p0 tr1) as (l1 & Hl1 & Hi1).
  destruct (with_skills env (dir +:+ "/plugin") (ISkills i) p0 tr1) as [tr2 sk]. cbn [fst] in Hl1. subst tr2.
  destruct sk as [why|[names p]].
  { exists ([co; dry; AskKeep] ++ l1). unfold tr1. rewrite <- app_assoc. split; [done|]. apply published_none_once; [|done]. apply Forall_app. split; [by apply no_push_list|by apply idle_list]. }
  rewrite bind_run. pose proof (runCLI_shape a env p names (emptyOutput base) (tr1 ++ l1)) as Hr.
  destruct (runCLI a env p names (emptyOutput base) (tr1 ++ l1)) as [tr3 [e out]]. destruct Hr as (l2 & -> & Hpush & Hcom & Hl2).
  assert (Hl2f : Forall no_push l2). { destruct Hl2 as [[-> _]|(post & -> & Hpost & _)]; [by apply no_push_list|]. constructor; [done|]. constructor; [done|by apply idle_list]. }
  assert (Hpre : ∀ l3, Forall no_push l3 → Forall no_push (([co; dry; AskKeep] ++ l1 ++ l2) ++ l3)).
  { intros l3 H3. rewrite !Forall_app. split_and!; [by apply no_push_list|by apply idle_list|done|done]. }
  assert (Heq : (tr1 ++ l1) ++ l2 = tr ++ [co; dry; AskKeep] ++ l1 ++ l2) by (unfold tr1; by rewrite <- !app_assoc).
  assert (Hafter : ∀ e, let '(tr', (out', e')) := after_run a env dir (IRepo i) (IBranch i) base e out ((tr1 ++ l1) ++ l2) in
    ∃ l, tr' = tr ++ l ∧ published_once a env (IRepo i) (IBranch i) base tr l out').
  { intros e0. pose proof (after_run_shape a env dir (IRepo i) (IBranch i) base e0 out ((tr1 ++ l1) ++ l2) Hpush Hcom) as Ha.
    rewrite Heq in *. set (l0 := [co; dry; AskKeep] ++ l1 ++ l2) in *.
    destruct (after_run _ _ _ _ _ _ _ _ _) as [tr4 [out' e']]. destruct Ha as [_ [(l & o & -> & Hf & -> & Ho)|(sha & post & o & -> & Hf & Hins & Hal & Har & -> & Hiff)]].
    - exists (l0 ++ l). rewrite <- app_assoc. split; [done|]. apply published_none_once; [by apply Hpre|by intros ? [= <-]].
    - exists (l0 ++ looked base ++ AskGit true (push_args (IRepo i) (IBranch i) sha) :: post). rewrite <- app_assoc. split; [done|]. right.
      exists [co], (AskKeep :: l1 ++ l2), sha, post, o. split_and!; try done; [by constructor|]. constructor; [done|]. apply Forall_app. split; [by apply idle_list|done]. }
  destruct e as [[why|b|why]|]; [|apply Hafter..]. exists ([co; dry; AskKeep] ++ l1 ++ l2). split; [by rewrite Heq|].
  apply published_none_once; [|done]. specialize (Hpre [] ltac:(constructor)). by rewrite app_nil_r in Hpre.
Qed.

Lemma push_unique A (P : Ask) B l1 q l2 :
  Forall no_push A → Forall no_push B → A ++ P :: B = l1 ++ q :: l2 → is_push q = true → l1 = A ∧ q = P ∧ l2 = B.
Proof.
  intros HA HB. revert l1. induction HA as [|x A Hx HA IH]; intros l1 Heq Hq; destruct l1 as [|y l1]; cbn in Heq.
  - by injection Heq as -> ->.
  - injection Heq as -> ->. exfalso. rewrite Forall_forall in HB. specialize (HB q ltac:(apply elem_of_app; right; by left)). congruence.
  - injection Heq as -> _. unfold no_push in Hx. congruence.
  - injection Heq as -> Heq. by destruct (IH l1 Heq Hq) as (-> & -> & ->).
Qed.

Lemma no_push_none l l1 q l2 : Forall no_push l → l = l1 ++ q :: l2 → is_push q = true → False.
Proof. intros H -> Hq. apply Forall_app in H as [_ H]. inversion_clear H as [|? ? H1 _]. unfold no_push in H1. congruence. Qed.

(** The whole of an implementation, from the first ask: what precedes the
    branch, what follows it, and the directory's removal. *)
Lemma Implement_shape a env i budget :
  let '(tr, (out, err)) := Implement a env i budget [] in
  (out = None ∧ Forall idle tr) ∨
  (CdAllowPush a = true ∧ branch_ok (IBranch i) = true ∧
   ∃ pre base l, tr = pre ++ l ++ [AskRemove] ∧ Forall idle pre ∧ published_once a env (IRepo i) (IBranch i) base pre l out).
Proof.
  unfold Implement. destruct (ImplementCheck i) as [bad|] eqn:Ec; [left; split; [done|constructor]|].
  destruct (CdAllowPush a) eqn:Ea; [|left; split; [done|constructor]]. cbn [negb].
  destruct (refuse a env (IRepo i) (ISkills i)) as [why|]; [left; split; [done|constructor]|].
  unfold in_run. rewrite bind_run, ask_run. destruct (EnRun env) as [e|dir]; [left; split; [done|by constructor]|].
  rewrite !bind_run, ask_run. cbn [app]. rewrite bind_run.
  destruct (clone_idle env (IRepo i) (IBase i) (dir +:+ "/repo") [AskRun true; AskTell CloneProgress]) as (l0 & Hl0 & Hi0).
  destruct (clone env (IRepo i) (IBase i) (dir +:+ "/repo") [AskRun true; AskTell CloneProgress]) as [tr0 base]. cbn [fst] in Hl0. subst tr0.
  assert (Hpre : Forall idle ([AskRun true; AskTell CloneProgress] ++ l0)) by (apply Forall_app; split; [by repeat constructor|done]).
  destruct base as [why|base].
  { rewrite ret_run, bind_run, ask_run, ret_run. left. split; [done|]. apply Forall_app. split; [done|by constructor]. }
  assert (Hbranch : branch_ok (IBranch i) = true).
  { unfold ImplementCheck in Ec. destruct (CheckRunSkills _); [done|]. destruct (blank _ || blank _); [done|]. destruct (bad_argument (IRepo i)); [done|].
    destruct (bad_argument (IBase i)); [done|]. by destruct (branch_ok (IBranch i)). }
  pose proof (implement_cloned_shape a env i budget dir base ([AskRun true; AskTell CloneProgress] ++ l0)) as Hs.
  destruct (implement_cloned a env i budget dir base ([AskRun true; AskTell CloneProgress] ++ l0)) as [tr [out err]]. destruct Hs as (l & -> & Hs).
  rewrite bind_run, ask_run, ret_run. right. split; [done|]. split; [done|].
  exists ([AskRun true; AskTell CloneProgress] ++ l0), base, l. rewrite <- app_assoc. by split_and!.
Qed.

(** C12. A machine publishes what it inspected, and nothing else. Whatever the
    CLI did to the clone, whatever git and the remote answer, and though what it
    left running changes [.git] meanwhile: an implementation pushes once at
    most, with its owner's leave to push, to a repository they allow, on a branch under agent/,
    and what it pushes is the newest commit of the inspection, given to git by its
    name. The remote took the push's dry run first; and between the end of the CLI and
    the push nothing is asked but to find [.git]'s configuration as it was
    kept, HEAD on the branch and the commits, and the configuration untouched
    again. What is told as pushed is what git pushed; the run's directory
    goes last. *)
Theorem machine_pushes_inspected a env i budget :
  let '(tr, (out, err)) := Implement a env i budget [] in
  (∀ l1 q l2, tr = l1 ++ q :: l2 → is_push q = true →
     Forall no_push l1 ∧ Forall no_push l2 ∧ CdAllowPush a = true ∧ AllowsRepo a (IRepo i) = true ∧ branch_ok (IBranch i) = true ∧
     ∃ base sha b1 b2, let dry := AskGit true (dry_args (IRepo i) (IBranch i) base) in
       l1 = (b1 ++ dry :: b2) ++ looked base ∧ q = AskGit true (push_args (IRepo i) (IBranch i) sha) ∧
       Forall idle b1 ∧ (EnGit env (b1 ++ [dry])).1 = None ∧ inspected env (IBranch i) base (b1 ++ dry :: b2) sha) ∧
  (∀ o, out = Some o → CoPushed o = true ↔ ∃ l1 q l2, tr = l1 ++ q :: l2 ∧ is_push q = true ∧ (EnGit env (l1 ++ [q])).1 = None) ∧
  (out = None → Forall no_push tr) ∧
  (∀ o, out = Some o → ∃ l, tr = l ++ [AskRemove]).
Proof.
  pose proof (Implement_shape a env i budget) as Hs. destruct (Implement a env i budget []) as [tr [out err]].
  destruct Hs as [[-> Hidle]|(Hallow & Hbranch & pre & base & l & -> & Hpre & Hs)].
  { split_and!; [|done|by intros _; apply idle_list|done]. intros l1 q l2 Heq Hq. by destruct (no_push_none tr l1 q l2 (idle_list _ Hidle) Heq Hq). }
  destruct Hs as [[Hno Hout]|(b1 & b2 & sha & post & o & -> & Hb1 & Hb2 & Hpost & Hdry & Hins & _ & Hrepo & -> & Hiff)].
  - assert (Hall : Forall no_push (pre ++ l ++ [AskRemove])).
    { rewrite !Forall_app. split_and!; [by apply idle_list|done|by constructor]. }
    split_and!.
    + intros l1 q l2 Heq Hq. by destruct (no_push_none _ l1 q l2 Hall Heq Hq).
    + intros o Ho. rewrite (Hout o Ho). split; [done|]. intros (l1 & q & l2 & Heq & Hq & _). by destruct (no_push_none _ l1 q l2 Hall Heq Hq).
    + done.
    + intros o _. exists (pre ++ l). by rewrite <- app_assoc.
  - set (dry := AskGit true (dry_args _ _ _)) in *. set (P := AskGit true (push_args _ _ _)) in *.
    assert (Heq0 : pre ++ ((b1 ++ dry :: b2) ++ looked base ++ P :: post) ++ [AskRemove] = (((pre ++ b1) ++ dry :: b2) ++ looked base) ++ P :: (post ++ [AskRemove])).
    { rewrite <- !app_assoc. cbn [app]. by rewrite <- ?app_assoc. }
    rewrite Heq0. assert (HA : Forall no_push (((pre ++ b1) ++ dry :: b2) ++ looked base)).
    { rewrite !Forall_app. split_and!; [by apply idle_list|by apply idle_list|by constructor|by apply no_push_list]. }
    assert (HB : Forall no_push (post ++ [AskRemove])) by (apply Forall_app; split; [done|by constructor]).
    split_and!.
    + intros l1 q l2 Heq Hq. destruct (push_unique _ _ _ _ _ _ HA HB Heq Hq) as (-> & -> & ->). split_and!; try done.
      exists base, sha, (pre ++ b1), b2. cbv zeta. rewrite <- !app_assoc. split_and!; [done|done|by apply Forall_app|done|done].
    + intros o' [= <-]. rewrite Hiff.
      assert (Heq1 : (pre ++ b1 ++ dry :: b2) ++ looked base ++ [P] = (((pre ++ b1) ++ dry :: b2) ++ looked base) ++ [P]) by by rewrite <- !app_assoc.
      rewrite Heq1. split; [intros Hg; by eexists _, _, _|].
      intros (l1 & q & l2 & Heq & Hq & Hg). by destruct (push_unique _ _ _ _ _ _ HA HB Heq Hq) as (-> & -> & ->).
    + done.
    + intros o' _. eexists. by rewrite app_comm_cons, app_assoc.
Qed.

(** *** What is spent *)

Definition no_cli (q : Ask) : Prop := is_cli q = false.

Lemma idle_no_cli q : idle q → no_cli q.
Proof. by intros [_ H]. Qed.

Lemma bundle_no_cli a env dir branch base sha : asks_only no_cli (bundle a env dir branch base sha).
Proof.
  unfold bundle. destruct (negb _); [apply only_ret|]. apply only_bind; [by apply restore_only|]. intros [[|] [e|]]; try apply only_ret.
  apply only_bind; [by apply git_all_only; intros; apply git_only|]. intros [e|]; [apply only_ret|].
  apply only_bind; [by apply only_ask|]. intros _. destruct (ReadBundle _ _); [apply only_ret|].
  apply only_bind; [by apply only_ask|]. intros _. apply only_bind; [apply only_answer|]. intros x. apply only_ret.
Qed.

Lemma publish_no_cli a env dir repo branch base out : asks_only no_cli (publish_run a env dir repo branch base out).
Proof.
  assert (Hpush : ∀ sha out, asks_only no_cli (push a env dir repo branch base sha out)).
  { intros sha out0. unfold push. apply only_bind; [by apply only_ask|]. intros _. apply only_bind; [by apply git_only|]. intros [[e|] said]; [|apply only_ret].
    apply only_bind; [apply only_answer|]. intros [w|]; [apply only_ret|]. apply only_bind; [apply bundle_no_cli|]. intros b. apply only_ret. }
  unfold publish_run. apply only_bind; [by apply restore_only|]. intros [changed [e|]]; [apply only_ret|].
  do 3 (apply only_bind; [by apply git_only|]; intros [[?|] ?]; [apply only_ret|]).
  destruct (not_pushed _ _ _ _ _ _); [apply only_ret|]. destruct (CoCommits _); [apply only_ret|].
  apply only_bind; [by apply restore_only|]. intros [[|] [e|]]; try apply only_ret. apply Hpush.
Qed.

Lemma after_run_no_cli a env dir repo branch base e out : asks_only no_cli (after_run a env dir repo branch base e out).
Proof.
  unfold after_run. apply only_bind; [apply only_answer|]. intros over. apply only_bind; [destruct over; [apply only_ret|apply publish_no_cli]|].
  intros out'. apply only_bind; [|intros told; apply only_ret]. intros tr. destruct (publish_outputs_shape a env branch tr) as (ups & told & ->).
  exists [AskOutputs ups]. split; [done|by constructor].
Qed.

Lemma after_run_end a env dir repo branch base e out tr : (after_run a env dir repo branch base e out tr).2.2 = e.
Proof.
  unfold after_run. rewrite bind_run. unfold answer at 1. rewrite bind_run. destruct (EnOver env tr); [rewrite ret_run|destruct (publish_run _ _ _ _ _ _ _ _)];
    rewrite bind_run; match goal with |- context [publish_outputs a env branch ?t] => by destruct (publish_outputs_shape a env branch t) as (? & ? & ->) end.
Qed.

Lemma with_skills_params env plugin skills p tr names p' :
  (with_skills env plugin skills p tr).2 = inr (names, p') → p' = p ∨ p' = with_plugin plugin names p.
Proof.
  unfold with_skills. destruct skills as [|s l]; [intros [= <- <-]; by left|]. destruct (CheckRunSkills _); [done|].
  rewrite bind_run, ask_run, ret_run. cbn [snd]. destruct (EnPlugin env); [done|]. intros [= <- <-]. by right.
Qed.

(** A CLI as a run of these parameters is started: the machine's own settings, its own cap. *)
Definition started_as a env (p0 p : Params) : Prop :=
  PermissionMode p = PermissionMode p0 ∧ AllowedTools p = AllowedTools p0 ∧ DisallowedTools p = DisallowedTools p0 ∧ Task p = Task p0 ∧
  SettingSources p = ["user"] ∧ StrictMCPConfig p = true ∧ PModel p = CdModel a ∧ MaxBudgetUSD p = lowerCap (CdMaxBudget a) (MaxBudgetUSD p0) ∧
  ∃ own, PEnv p = RunGitEnv ++ WithPath own (CdEnviron a) (GitShimDir (Cwd p0)) :: match lookupEnv (CdEnviron a) "XDG_CONFIG_HOME" with Some xdg => ["XDG_CONFIG_HOME=" +:+ xdg] | None => [] end.

Lemma started_params a env own p0 plugin names p :
  PEnv p0 = [] → p = p0 ∨ p = with_plugin plugin names p0 → started_as a env p0 (machine_params a own p).
Proof. intros He [-> | ->]; unfold started_as; cbn; rewrite He; split_and!; try done; by exists own. Qed.

(** Of all that is asked after [tr], nothing starts the CLI, or one does, once;
    a run then refused made no call. *)
Definition spent_once a env (p0 : Params) (tr l : list Ask) (err : option Fail) : Prop :=
  Forall no_cli l ∨
  ∃ l1 p l2, l = l1 ++ AskCLI p :: l2 ∧ Forall no_cli l1 ∧ Forall no_cli l2 ∧ started_as a env p0 p ∧
    ∀ why, err = Some (Refused why) → cli_calls a env (tr ++ l1 ++ [AskCLI p]) p = 0.

Lemma runCLI_spent a env own p0 plugin names p out tr :
  PEnv p0 = [] → p = p0 ∨ p = with_plugin plugin names p0 → own = EnOwnPath env →
  let '(tr', (e, out')) := runCLI a env p names out tr in ∃ l, tr' = tr ++ l ∧ spent_once a env p0 tr l e.
Proof.
  intros He Hp ->. pose proof (runCLI_shape a env p names out tr) as Hs. destruct (runCLI a env p names out tr) as [tr' [e out']].
  destruct Hs as (l & -> & _ & _ & [[-> _]|(post & -> & Hpost & Hcalls)]).
  - exists [AskShim]. split; [done|]. left. by constructor.
  - eexists. split; [done|]. right. exists [AskShim], (machine_params a (EnOwnPath env) p), post. split_and!; [done|by constructor|eapply Forall_impl; [exact Hpost|apply idle_no_cli]| |done].
    by eapply started_params.
Qed.

Lemma idle_none l : Forall idle l → Forall no_cli l.
Proof. intros H. eapply Forall_impl; [exact H|apply idle_no_cli]. Qed.

Lemma spent_around a env p0 tr pre l post err :
  Forall no_cli pre → Forall no_cli post → spent_once a env p0 (tr ++ pre) l err → spent_once a env p0 tr (pre ++ l ++ post) err.
Proof.
  intros Hpre Hpost [Hl|(l1 & p & l2 & -> & H1 & H2 & Hs & Hc)]; [left; by rewrite !Forall_app|]. right.
  exists (pre ++ l1), p, (l2 ++ post). split_and!; [by rewrite <- !app_assoc|by apply Forall_app|by apply Forall_app|done|].
  intros why He. specialize (Hc why He). by rewrite <- !app_assoc in *.
Qed.

Lemma cli_unique A (P : Params) B l1 p l2 :
  Forall no_cli A → Forall no_cli B → A ++ AskCLI P :: B = l1 ++ AskCLI p :: l2 → l1 = A ∧ p = P ∧ l2 = B.
Proof.
  intros HA HB. revert l1. induction HA as [|x A Hx HA IH]; intros l1 Heq; destruct l1 as [|y l1]; cbn in Heq.
  - by injection Heq as -> ->.
  - injection Heq as <- ->. exfalso. rewrite Forall_forall in HB. by specialize (HB (AskCLI p) ltac:(apply elem_of_app; right; by left)).
  - injection Heq as -> _. done.
  - injection Heq as -> Heq. by destruct (IH l1 Heq) as (-> & -> & ->).
Qed.

(** What a run's trace and its end owe to those who pay: the CLI started once at
    most, as the machine bounds it, on a repository its owner allows and with a
    login; and a refusal, nothing kept and no call made. *)
Definition spends_checked a env (repo : string) (started : Params → Prop) (tr : list Ask) (out : option CodingOutput) (err : option Fail) : Prop :=
  (∀ l1 p l2, tr = l1 ++ AskCLI p :: l2 →
     Forall no_cli l1 ∧ Forall no_cli l2 ∧ AllowsRepo a repo = true ∧ EnLogin env = LoginOK ∧ started p ∧
     ∀ why, err = Some (Refused why) → cli_calls a env (l1 ++ [AskCLI p]) p = 0) ∧
  (∀ why, err = Some (Refused why) → out = None).

Lemma spent_checked a env repo p0 (started : Params → Prop) tr out err :
  spent_once a env p0 [] tr err → AllowsRepo a repo = true → EnLogin env = LoginOK → (∀ p, started_as a env p0 p → started p) →
  (∀ why, err = Some (Refused why) → out = None) → spends_checked a env repo started tr out err.
Proof.
  intros Hs Ha Hl Hst Ho. split; [|done]. intros l1 p l2 Heq. destruct Hs as [Hno|(A & P & B & -> & HA & HB & HP & Hc)].
  - exfalso. rewrite Heq in Hno. apply Forall_app in Hno as [_ Hno]. inversion_clear Hno as [|? ? H _]. done.
  - destruct (cli_unique _ _ _ _ _ _ HA HB Heq) as (-> & -> & ->). split_and!; try done. by apply Hst.
Qed.

Lemma nothing_spent a env repo (started : Params → Prop) tr err : Forall no_cli tr → spends_checked a env repo started tr None err.
Proof.
  intros H. split; [|done]. intros l1 p l2 ->. exfalso. apply Forall_app in H as [_ H]. inversion_clear H as [|? ? H' _]. done.
Qed.

Lemma refuse_none a env repo skills : refuse a env repo skills = None → AllowsRepo a repo = true ∧ EnLogin env = LoginOK.
Proof. unfold refuse. destruct (AllowsRepo a repo); [|done]. cbn [negb]. by destruct (EnLogin env). Qed.

Lemma implement_cloned_spent a env i budget dir base tr :
  let p0 := base_params (dir +:+ "/repo") (ITask i) ImplementPermissionMode ImplementAllowedTools ImplementDeniedTools
              (ImplementSystemPrompt +:+ nl +:+ OutputsPrompt (dir +:+ "/" +:+ OutputsDir)) [dir +:+ "/" +:+ OutputsDir] budget in
  let '(tr', (out, e)) := implement_cloned a env i budget dir base tr in
  ∃ l, tr' = tr ++ l ∧ spent_once a env p0 tr l e ∧ ∀ why, e = Some (Refused why) → out = None.
Proof.
  cbv zeta. set (p0 := base_params _ _ _ _ _ _ _ _). unfold implement_cloned. rewrite bind_run, git_run. set (co := AskGit true ["checkout"; "--quiet"; "-b"; IBranch i]).
  destruct (EnGit env (tr ++ [co])) as [[e|] said]; [eexists; split_and!; [done|left; by constructor|done]|].
  rewrite bind_run. destruct (checkPush_run env (IRepo i) (IBranch i) base (tr ++ [co])) as (may & -> & _). set (dry := AskGit true (dry_args _ _ _)).
  destruct may as [e|]; [exists [co; dry]; rewrite <- app_assoc; split_and!; [done|left; by repeat constructor|done]|].
  rewrite bind_run, ask_run. rewrite <- !app_assoc. cbn [app].
  destruct (EnKeep env) as [e|]; [exists [co; dry; AskKeep]; split_and!; [done|left; by repeat constructor|done]|].
  rewrite bind_run. fold p0. set (tr1 := tr ++ _).
  destruct (with_skills_idle env (dir +:+ "/plugin") (ISkills i) p0 tr1) as (l1 & Hl1 & Hi1).
  pose proof (with_skills_params env (dir +:+ "/plugin") (ISkills i) p0 tr1) as Hparams.
  destruct (with_skills env (dir +:+ "/plugin") (ISkills i) p0 tr1) as [tr2 sk]. cbn [fst snd] in *. subst tr2.
  assert (Hpre : Forall no_cli ([co; dry; AskKeep] ++ l1)) by (apply Forall_app; split; [by repeat constructor|by apply idle_none]).
  destruct sk as [why|[names p]]; [exists ([co; dry; AskKeep] ++ l1); unfold tr1; rewrite <- app_assoc; split_and!; [done|by left|done]|].
  rewrite bind_run. pose proof (runCLI_spent a env _ p0 _ names p (emptyOutput base) (tr1 ++ l1) eq_refl (Hparams names p eq_refl) eq_refl) as Hr.
  destruct (runCLI a env p names (emptyOutput base) (tr1 ++ l1)) as [tr3 [e out]]. destruct Hr as (l2 & -> & Hl2).
  assert (Heq : tr1 ++ l1 = tr ++ [co; dry; AskKeep] ++ l1) by (unfold tr1; by rewrite <- !app_assoc). rewrite Heq in *.
  assert (Hafter : ∀ e0, (∀ why, e0 = Some (Refused why) → False) → e0 = e →
    let '(tr', (out', e')) := after_run a env dir (IRepo i) (IBranch i) base e0 out ((tr ++ [co; dry; AskKeep] ++ l1) ++ l2) in
    ∃ l, tr' = tr ++ l ∧ spent_once a env p0 tr l e' ∧ ∀ why, e' = Some (Refused why) → out' = None).
  { intros e0 Hno ->. destruct (after_run_no_cli a env dir (IRepo i) (IBranch i) base e out ((tr ++ [co; dry; AskKeep] ++ l1) ++ l2)) as (post & Hpost & Hf).
    pose proof (after_run_end a env dir (IRepo i) (IBranch i) base e out ((tr ++ [co; dry; AskKeep] ++ l1) ++ l2)) as He.
    destruct (after_run _ _ _ _ _ _ _ _ _) as [tr4 [out' e']]. cbn [fst snd] in *. subst tr4 e'.
    exists (([co; dry; AskKeep] ++ l1) ++ l2 ++ post). split_and!; [by rewrite <- !app_assoc|by apply spent_around|intros why He'; by destruct (Hno why)]. }
  destruct e as [[why|b|why]|]; [|by apply Hafter..].
  exists (([co; dry; AskKeep] ++ l1) ++ l2 ++ []). split_and!; [by rewrite app_nil_r, <- !app_assoc|by apply spent_around|done].
Qed.

(** C27. Nothing is spent on a machine but as its owner allows. Whatever the
    directive says and whatever is answered, an analysis or an implementation starts
    the CLI once at most, on a repository of the owner's list, with a login,
    in the mode and with the tools of its kind, the owner's settings alone, the
    owner's model, and a budget the directive can only lower; its git runs no program
    of the clone's. A run refused has made no call to a tool and leaves no
    output, so that it may go elsewhere; and an analysis publishes nothing. *)
Theorem machine_spends_checked a env :
  (∀ i, let '(tr, (out, err)) := Analyze a env i [] in
     Forall no_push tr ∧
     spends_checked a env (ARepo i)
       (λ p, ∃ dir, started_as a env (base_params (dir +:+ "/repo") (ATask i) AnalyzePermissionMode [] [] AnalyzeSystemPrompt [] 0) p) tr out err) ∧
  (∀ i budget, let '(tr, (out, err)) := Implement a env i budget [] in
     spends_checked a env (IRepo i)
       (λ p, ∃ dir, started_as a env (base_params (dir +:+ "/repo") (ITask i) ImplementPermissionMode ImplementAllowedTools ImplementDeniedTools
          (ImplementSystemPrompt +:+ nl +:+ OutputsPrompt (dir +:+ "/" +:+ OutputsDir)) [dir +:+ "/" +:+ OutputsDir] budget) p) tr out err).
Proof.
  split.
  - intros i. unfold Analyze. destruct (AnalyzeCheck i); [split; [constructor|by apply nothing_spent]|].
    destruct (refuse a env (ARepo i) (ASkills i)) as [why|] eqn:Er; [split; [constructor|by apply nothing_spent]|]. apply refuse_none in Er as [Hrepo Hlogin].
    unfold in_run. rewrite bind_run, ask_run. destruct (EnRun env) as [e|dir]; [split; [by constructor|by apply nothing_spent; constructor]|].
    rewrite !bind_run, ask_run. cbn [app]. rewrite bind_run.
    destruct (clone_idle env (ARepo i) (ARef i) (dir +:+ "/repo") [AskRun false; AskTell CloneProgress]) as (l0 & Hl0 & Hi0).
    destruct (clone env (ARepo i) (ARef i) (dir +:+ "/repo") [AskRun false; AskTell CloneProgress]) as [tr0 base]. cbn [fst] in Hl0. subst tr0.
    assert (Hpre : Forall idle ([AskRun false; AskTell CloneProgress] ++ l0)) by (apply Forall_app; split; [by repeat constructor|done]).
    assert (Hend : ∀ l, Forall idle l → Forall idle (l ++ [AskRemove])) by (intros l Hl; apply Forall_app; split; [done|by constructor]).
    destruct base as [why|base]; [rewrite ret_run, bind_run, ask_run, ret_run; split; [by apply idle_list, Hend|by apply nothing_spent, idle_none, Hend]|].
    set (p0 := base_params _ _ _ _ _ _ _ _). rewrite bind_run. set (tr1 := _ ++ l0) in *.
    destruct (with_skills_idle env (dir +:+ "/plugin") (ASkills i) p0 tr1) as (l1 & Hl1 & Hi1).
    pose proof (with_skills_params env (dir +:+ "/plugin") (ASkills i) p0 tr1) as Hparams.
    destruct (with_skills env (dir +:+ "/plugin") (ASkills i) p0 tr1) as [tr2 sk]. cbn [fst snd] in *. subst tr2.
    assert (Hpre1 : Forall idle (tr1 ++ l1)) by by apply Forall_app.
    destruct sk as [why|[names p]]; [rewrite ret_run, bind_run, ask_run, ret_run; split; [by apply idle_list, Hend|by apply nothing_spent, idle_none, Hend]|].
    rewrite bind_run. pose proof (runCLI_spent a env _ p0 _ names p (emptyOutput base) (tr1 ++ l1) eq_refl (Hparams names p eq_refl) eq_refl) as Hr.
    pose proof (runCLI_shape a env p names (emptyOutput base) (tr1 ++ l1)) as Hshape.
    destruct (runCLI a env p names (emptyOutput base) (tr1 ++ l1)) as [tr3 [e out]]. destruct Hr as (l2 & -> & Hl2). rewrite ret_run, bind_run, ask_run, ret_run.
    assert (Hp : Forall no_push l2).
    { destruct Hshape as (l & Heq & _ & _ & Hl). apply app_inv_head in Heq as ->. destruct Hl as [[-> _]|(post & -> & Hpost & _)]; [by constructor|].
      constructor; [done|]. constructor; [done|by apply idle_list]. }
    assert (Hsp : spent_once a env p0 [] (((tr1 ++ l1) ++ l2) ++ [AskRemove]) e) by (rewrite <- (app_assoc _ l2); apply spent_around; [by apply idle_none|by constructor|done]).
    assert (Hpushes : Forall no_push (((tr1 ++ l1) ++ l2) ++ [AskRemove])) by (rewrite !(Forall_app _ _ [_]), Forall_app; split_and!; [by apply idle_list|done|by constructor]).
    assert (Hst : ∀ q, started_as a env p0 q → ∃ dir, started_as a env (base_params (dir +:+ "/repo") (ATask i) AnalyzePermissionMode [] [] AnalyzeSystemPrompt [] 0) q) by (intros q Hq; by exists dir).
    unfold ended. destruct e as [[why|b|why]|]; (split; [done|]); by eapply spent_checked.
  - intros i budget. unfold Implement. destruct (ImplementCheck i); [by apply nothing_spent|]. destruct (CdAllowPush a); [|by apply nothing_spent]. cbn [negb].
    destruct (refuse a env (IRepo i) (ISkills i)) as [why|] eqn:Er; [by apply nothing_spent|]. apply refuse_none in Er as [Hrepo Hlogin].
    unfold in_run. rewrite bind_run, ask_run. destruct (EnRun env) as [e|dir]; [by apply nothing_spent; constructor|].
    rewrite !bind_run, ask_run. cbn [app]. rewrite bind_run.
    destruct (clone_idle env (IRepo i) (IBase i) (dir +:+ "/repo") [AskRun true; AskTell CloneProgress]) as (l0 & Hl0 & Hi0).
    destruct (clone env (IRepo i) (IBase i) (dir +:+ "/repo") [AskRun true; AskTell CloneProgress]) as [tr0 base]. cbn [fst] in Hl0. subst tr0.
    assert (Hpre : Forall no_cli ([AskRun true; AskTell CloneProgress] ++ l0)) by (apply Forall_app; split; [by repeat constructor|by apply idle_none]).
    destruct base as [why|base]; [rewrite ret_run, bind_run, ask_run, ret_run; apply nothing_spent, Forall_app; split; [done|by constructor]|].
    pose proof (implement_cloned_spent a env i budget dir base ([AskRun true; AskTell CloneProgress] ++ l0)) as Hs. cbv zeta in Hs.
    destruct (implement_cloned a env i budget dir base ([AskRun true; AskTell CloneProgress] ++ l0)) as [tr [out err]]. destruct Hs as (l & -> & Hs & Ho).
    rewrite bind_run, ask_run, ret_run. eapply spent_checked; [|done|done| |done].
    + rewrite <- (app_assoc _ l). apply spent_around; [done|by constructor|exact Hs].
    + intros p Hp. by exists dir.
Qed.
End Runs.

(** The CLI's time leaves the push and the outputs theirs: ten minutes, or half
    of what a short directive has left. *)
Lemma cliDeadline_keeps d now :
  now ≤ d →
  now ≤ cliDeadline (Some d) now ≤ d ∧
  (2 * pushReserve ≤ d - now → cliDeadline (Some d) now = d - pushReserve) ∧
  (d - now < 2 * pushReserve → d - cliDeadline (Some d) now = (d - now) / 2).
Proof.
  intros Hn. unfold cliDeadline. change pushReserve with 600000000000. pose proof (Z.div_mod (d - now) 2 ltac:(lia)). pose proof (Z.mod_pos_bound (d - now) 2 ltac:(lia)).
  rewrite Z.quot_div_nonneg by lia. destruct (Z.ltb_spec (d - now) (2 * 600000000000)); split_and!; lia.
Qed.

(** A directive's budget only lowers the machine's. *)
Lemma lowerCap_bounds x b : above_zero x = true → lowerCap x b = x ∨ (lowerCap x b = b ∧ above_zero b = true ∧ b < x).
Proof.
  intros Ha. unfold lowerCap. assert (zero_or_below x = false) as ->.
  { unfold above_zero in Ha. unfold zero_or_below. apply andb_true_iff in Ha as [H1 H2]. apply Z.ltb_lt in H1. apply Z.leb_le in H2.
    apply orb_false_iff. split; [apply Z.eqb_neq; lia|]. apply andb_false_iff. left. apply Z.leb_gt. lia. }
  rewrite Ha. cbn [orb]. destruct (above_zero b) eqn:Eb; [|by left]. cbn [andb]. destruct (Z.ltb_spec b x); [|by left]. right.
  assert (zero_or_below b = false) as ->; [|done]. unfold above_zero in Eb. apply andb_true_iff in Eb as [H1 H2]. apply Z.ltb_lt in H1. apply Z.leb_le in H2.
  unfold zero_or_below. apply orb_false_iff. split; [apply Z.eqb_neq; lia|]. apply andb_false_iff. left. apply Z.leb_gt. lia.
Qed.

(** ** One run *)

Definition demo_text : GoText := mkGoText (λ s, s) (λ _, false).
Definition demo_lines : StreamJSON :=
  λ s, if String.eqb s "result" then Some (mkLine "result" "success" "s" "" None "" [] "all done" false 3 1000 0 "" [] "") else None.
Definition demo_machine_coder : Coder := mkCoder (mkRunner "" 0 0 0 None false "") "api" ["https://git/*"] true 0 "" true [] 0 true 0.
Definition demo_git_dir (config : string) : GitDir := mkGitDir true (inr "[core]") None None (Some (Some config)) None None None None.
Definition demo_implement : ImplementInput := mkImplement "https://git/app" "" "fix the login" "agent/fix-login" false [] "".

(** git answers as on a clone where the run made one commit; [takes]: whether
    the remote takes the push; [config]: what [.git/config] holds after the CLI, then once the
    inspection is done. *)
Definition demo_env (takes : bool) (config later : string) : MachineEnv :=
  mkMachineEnv (inr "/run") LoginOK
    (λ tr, match last tr with
           | Some (AskGit _ ["rev-parse"; "HEAD"]) => (None, "ba5e")
           | Some (AskGit _ ["rev-parse"; "--abbrev-ref"; "HEAD"]) => (None, "agent/fix-login")
           | Some (AskGit _ ("log" :: _)) => (None, "c0ffee fix: the login")
           | Some (AskGit _ ["push"; "--"; _; _]) => if takes then (None, "") else (Some "exit status 1", "remote: protected branch")
           | _ => (None, "")
           end)
    false None None None "/bin" (λ _, inr (mkRan "result" None None "" 900 1 None None))
    (λ tr, demo_git_dir (if (6 <? Z.of_nat (length (List.filter (λ q, match q with AskGit _ _ => true | _ => false end) tr))) then later else config))
    (inr (mkOpened true false 4 (inr "pack"))) (λ _, inr (mkFileRef "f1" "agent-fix-login.bundle" "" 4 "")) (λ _, None) NoOutputs (λ _, false) (λ _, None).

Definition demo_run (env : MachineEnv) : list Ask * (option CodingOutput * option Fail) :=
  @Implement demo_quote demo_text demo_lines demo_machine_coder env demo_implement 0 [].
Definition demo_pushes (env : MachineEnv) : list Ask := List.filter is_push (demo_run env).1.
Definition demo_told (env : MachineEnv) : option (bool * string * string) :=
  (λ o, (CoPushed o, CoBundle o, CoError o)) <$> (demo_run env).2.1.

(** The commit is pushed by its name; a push refused leaves a bundle; a
    configuration changed by the run, or since the inspection, is never pushed with. *)
Example machine_runs :
  demo_pushes (demo_env true "[core]" "[core]") = [AskGit true ["push"; "--"; "https://git/app"; "c0ffee:refs/heads/agent/fix-login"]] ∧
  demo_told (demo_env true "[core]" "[core]") = Some (true, "", "") ∧
  demo_told (demo_env false "[core]" "[core]") =
    Some (false, "agent-fix-login.bundle", "the commits were not pushed: exit status 1: remote: protected branch") ∧
  demo_pushes (demo_env true "[core] fsmonitor" "[core]") = [] ∧
  demo_told (demo_env true "[core]" "[core] fsmonitor") = Some (false, "", "the clone's git configuration changed since the inspection, so nothing was pushed").
Proof. vm_compute. by split_and!. Qed.
