(* ===== verification/Worker.v ===== *)
(** * A coding run's steps on a worker of the installation (src/activity/claude_code.go, claude_code_sweep.go, src/subproc/identity.go, runs.go, gitshim.go, src/claudecode/config.go)

    The activities that the workflows of CodingRun.v ask for: what each checks,
    what it asks of git, of the CLI, of the files and of the store, in order, and
    what it gives back. As in Coder.v, a step is the list of what it asks
    ([WkAsk]); what answers is the environment's, and may depend on all that
    was asked before. Around them: whose processes run as the run's user, the
    git a run finds in its path, the login a run renews, and the claim on the
    directory of the runs, which the workers of one disk share. *)

From S2P Require Import Prelude GoStr Utf8 GoPath JsonValid Message MachineMessage MachineInputs CallInputs AgentData AgentTurn Catalog Prompt CodingData CodingRun CodingRoute PickRun Files ClaudeCLI Coder.
Open Scope string_scope.
Open Scope Z_scope.
Open Scope list_scope.

(** ** Who commands run as (subproc/identity.go) *)

Record Identity := mkIdentity { IdUID : Z; IdGID : Z; IdHome : string }.

Section Parse.
Context {GQ : GoQuote}.

(** The account's home, if it has one, and the temporary directory. *)
Definition ParseIdentity (account : option string) (temp uid gid : string) : string + option Identity :=
  let uid := trim_space uid in
  let gid := trim_space gid in
  if String.eqb uid "" then inr None
  else
    let gid := if String.eqb gid "" then uid else gid in
    match parse_digits (2 ^ 32 - 1) uid with
    | None => inl ("RUN_AS_UID " +:+ quote uid +:+ " is not a number")
    | Some u =>
        match parse_digits (2 ^ 32 - 1) gid with
        | None => inl ("RUN_AS_GID " +:+ quote gid +:+ " is not a number")
        | Some g =>
            if (u =? 0) || (g =? 0) then inl "RUN_AS_UID and RUN_AS_GID must not be root's"
            else
              let home := match account with
                          | Some h => if negb (String.eqb h "") && negb (String.eqb h "/nonexistent") then h else path_clean (temp +:+ "/run-as-" +:+ uid)
                          | None => path_clean (temp +:+ "/run-as-" +:+ uid)
                          end in
              inr (Some (mkIdentity u g home))
        end
    end.
End Parse.

Definition ErrRootWithoutIdentity : string :=
  "the worker runs as root and RUN_AS_UID is not set: commands chosen by a model would run as root, with the worker's credentials in reach".

Definition CheckRunAs (euid : Z) (id : option Identity) : option string :=
  match id with
  | None => if euid =? 0 then Some ErrRootWithoutIdentity else None
  | Some id => if negb (euid =? 0) && negb (IdUID id =? euid) then Some ("RUN_AS_UID=" +:+ itoa (IdUID id) +:+ " needs a worker running as root, to switch to it") else None
  end.

(** The user a command chosen by a model runs as. *)
Definition runs_as (euid : Z) (id : option Identity) : Z := match id with None => euid | Some id => IdUID id end.

(** No command chosen by a model runs as root, whatever the settings say. *)
Lemma never_root `{GoQuote} euid account temp uid gid id :
  ParseIdentity account temp uid gid = inr id → CheckRunAs euid id = None → runs_as euid id ≠ 0.
Proof.
  unfold ParseIdentity, CheckRunAs, runs_as. destruct (String.eqb _ ""); [intros [= <-]; by destruct (Z.eqb_spec euid 0)|].
  destruct (parse_digits _ (trim_space uid)) as [u|]; [|done]. destruct (parse_digits _ _) as [g|]; [|done].
  destruct (Z.eqb_spec u 0); [done|]. destruct (g =? 0); [done|]. cbn [orb]. intros [= <-] _. done.
Qed.

(** *** Files taken back (Reclaim, ReclaimTree) *)

(** An entry of a tree: its owner, its permissions, and how many paths share a file. *)
Inductive Tree :=
| TDir (owner mode : Z) (entries : list (string * Tree))
| TLink (owner : Z)
| TFile (owner mode links : Z)
| TOther (owner : Z).

(** [mode &^ 0o022], [| 0o700]. *)
Definition closed_mode (mode : Z) : Z := Z.ldiff mode 0x12.
Definition dir_mode (mode : Z) : Z := Z.lor (closed_mode mode) 0x1c0.

Section ReclaimEntries.
Variable reclaim : string → Tree → Tree * option string.
Fixpoint reclaim_entries (dir : string) (l : list (string * Tree)) : list (string * Tree) * option string :=
  match l with
  | [] => ([], None)
  | (name, t) :: l =>
      match reclaim (dir +:+ "/" +:+ name) t with
      | (t, Some e) => ((name, t) :: l, Some e)
      | (t, None) => let '(l, e) := reclaim_entries dir l in ((name, t) :: l, e)
      end
  end.
End ReclaimEntries.

(** [ReclaimTree] for the worker's user: the tree after it, and the file another
    path shares, if one stopped it. *)
Fixpoint ReclaimTree (euid : Z) (path : string) (t : Tree) : Tree * option string :=
  match t with
  | TDir _ mode l => let '(l, e) := reclaim_entries (ReclaimTree euid) path l in (TDir euid (dir_mode mode) l, e)
  | TLink _ => (TLink euid, None)
  | TFile owner mode links => if 1 <? links then (TFile owner mode links, Some path) else (TFile euid (closed_mode mode) links, None)
  | TOther _ => (TOther euid, None)
  end.

(** An entry that is the worker's alone to change. *)
Fixpoint owned (euid : Z) (t : Tree) : Prop :=
  match t with
  | TDir owner mode l => owner = euid ∧ Z.land mode 0x12 = 0 ∧ foldr (λ e rest, owned euid e.2 ∧ rest) True l
  | TLink owner | TOther owner => owner = euid
  | TFile owner mode links => owner = euid ∧ Z.land mode 0x12 = 0 ∧ links ≤ 1
  end.

Lemma closed_mode_closed mode : Z.land (closed_mode mode) 0x12 = 0.
Proof. apply Z.land_ldiff. Qed.

Lemma dir_mode_closed mode : Z.land (dir_mode mode) 0x12 = 0.
Proof. unfold dir_mode. by rewrite Z.land_lor_distr_l, closed_mode_closed. Qed.

(** A tree taken back is the worker's, down to its last entry: no other user may
    write in it, nor holds another path to a file of it. What it holds
    stays where it was. *)
Lemma reclaimed_owned euid t : ∀ path t', ReclaimTree euid path t = (t', None) → owned euid t'.
Proof.
  revert t. fix reclaimed_owned 1. intros [owner mode l|owner|owner mode links|owner] path t'; cbn [ReclaimTree]; try (intros [= <-]; done).
  - enough (Hl : ∀ l', reclaim_entries (ReclaimTree euid) path l = (l', None) → foldr (λ e rest, owned euid e.2 ∧ rest) True l').
    { destruct (reclaim_entries _ _ l) as [l' e]. intros [= <- ->]. cbn. split_and!; [done|apply dir_mode_closed|by apply Hl]. }
    induction l as [|[name u] l IH]; intros l'; cbn [reclaim_entries]; [by intros [= <-]|].
    destruct (ReclaimTree euid (path +:+ "/" +:+ name) u) as [u' [e|]] eqn:Eu; [done|].
    destruct (reclaim_entries _ _ l) as [l'' e]. intros [= <- ->]. cbn. split; [by eapply reclaimed_owned|by apply IH].
  - destruct (Z.ltb_spec 1 links); [done|]. intros [= <-]. cbn. split_and!; [done|apply closed_mode_closed|done].
Qed.

(** It stops at a file with another path, and says which. *)
Fixpoint files_of (path : string) (t : Tree) : list (string * Z) :=
  match t with
  | TDir _ _ l => mjoin ((λ e, files_of (path +:+ "/" +:+ e.1) e.2) <$> l)
  | TFile _ _ links => [(path, links)]
  | _ => []
  end.

Lemma reclaim_stops euid t : ∀ path t', ∀ e, ReclaimTree euid path t = (t', Some e) → ∃ links, (e, links) ∈ files_of path t ∧ 1 < links.
Proof.
  revert t. fix reclaim_stops 1. intros [owner mode l|owner|owner mode links|owner] path t' e; cbn [ReclaimTree files_of]; try done.
  - enough (Hl : ∀ l', reclaim_entries (ReclaimTree euid) path l = (l', Some e) →
      ∃ links, (e, links) ∈ mjoin ((λ e, files_of (path +:+ "/" +:+ e.1) e.2) <$> l) ∧ 1 < links).
    { destruct (reclaim_entries _ _ l) as [l' e']. intros [= <- ->]. by apply (Hl l'). }
    induction l as [|[name u] l IH]; intros l'; cbn [reclaim_entries]; [done|]. cbn [fmap list_fmap mjoin list_join fst snd].
    destruct (ReclaimTree euid (path +:+ "/" +:+ name) u) as [u' [e'|]] eqn:Eu.
    + intros [= <- ->]. destruct (reclaim_stops _ _ _ _ Eu) as (links & Hin & H). exists links. split; [apply elem_of_app; by left|done].
    + destruct (reclaim_entries _ _ l) as [l'' e']. intros [= <- ->]. destruct (IH l'' eq_refl) as (links & Hin & H). exists links. split; [apply elem_of_app; by right|done].
  - destruct (Z.ltb_spec 1 links); [|done]. intros [= <- <-]. exists links. split; [by left|done].
Qed.

(** ** The commands that run as that user (subproc/runs.go) *)

(** How many run, and how often every process of the user was ended. *)
Record Runs := mkRuns { InUse : nat; Swept : nat }.

(** [killAll]: never the worker's own user. *)
Definition killAll (euid : Z) (id : Identity) (r : Runs) : Runs := if IdUID id =? euid then r else mkRuns (InUse r) (S (Swept r)).
Definition Hold (r : Runs) : Runs := mkRuns (S (InUse r)) (Swept r).
Definition release (euid : Z) (id : Identity) (r : Runs) : Runs :=
  let r := mkRuns (pred (InUse r)) (Swept r) in match InUse r with O => killAll euid id r | _ => r end.
Definition KillStrays (euid : Z) (id : Identity) (r : Runs) : Runs := match InUse r with O => killAll euid id r | _ => r end.

Inductive runs_op := Started (cmd : nat) | Waited (cmd : nat) | Taken.
Definition runs_step (euid : Z) (id : Identity) (r : Runs) (o : runs_op) : Runs :=
  match o with Started _ => Hold r | Waited _ => release euid id r | Taken => KillStrays euid id r end.

(** The commands under way after these: each is started, then waited for, once. *)
Definition goes (running : gset nat) (o : runs_op) : option (gset nat) :=
  match o with
  | Started c => if decide (c ∈ running) then None else Some ({[c]} ∪ running)
  | Waited c => if decide (c ∈ running) then Some (running ∖ {[c]}) else None
  | Taken => Some running
  end.
Fixpoint under_way (running : gset nat) (l : list runs_op) : option (gset nat) :=
  match l with [] => Some running | o :: l => running ← goes running o; under_way running l end.

(** Whether an operation ends the user's processes. *)
Definition ends_strays (euid : Z) (id : Identity) (running : gset nat) (o : runs_op) : bool :=
  negb ((IdUID id =? euid) || negb (bool_decide (running = ∅)) || (match o with Started _ => true | _ => false end)).

Lemma goes_counted euid id r o running running' :
  InUse r = size running → goes running o = Some running' →
  let r' := runs_step euid id r o in
  InUse r' = size running' ∧
  Swept r' = (Swept r + Nat.b2n (ends_strays euid id running' o))%nat.
Proof.
  unfold ends_strays.
  intros Hr. assert (Hempty : ∀ X : gset nat, bool_decide (X = ∅) = match size X with O => true | _ => false end).
  { intros X. case_bool_decide as H; [subst; by rewrite size_empty|]. destruct (size X) eqn:E; [|done]. by apply size_empty_inv, leibniz_equiv in E. }
  assert (Hkill : ∀ r0, InUse r0 = 0%nat → InUse (killAll euid id r0) = 0%nat ∧ Swept (killAll euid id r0) = (Swept r0 + Nat.b2n (negb (IdUID id =? euid)%Z))%nat).
  { intros r0 H0. unfold killAll. destruct (IdUID id =? euid); cbn; split; lia. }
  destruct o as [c|c|]; cbn [goes runs_step].
  - destruct (decide (c ∈ running)); [done|]. intros [= <-]. rewrite orb_true_r, size_union by set_solver. rewrite size_singleton. cbn. lia.
  - destruct (decide (c ∈ running)) as [Hin|]; [|done]. intros [= <-]. assert (Hs : size (running ∖ {[c]}) = pred (size running)).
    { rewrite size_difference by set_solver. rewrite size_singleton. lia. }
    cbv zeta. unfold release. cbn [InUse]. rewrite Hempty, Hs, Hr. destruct (pred (size running)) as [|n] eqn:E; cbn [negb].
    + destruct (Hkill (mkRuns 0 (Swept r)) eq_refl) as [H1 H2]. split; [done|]. rewrite H2, !orb_false_r. done.
    + rewrite orb_true_r. cbn. lia.
  - intros [= <-]. cbv zeta. unfold KillStrays. rewrite Hempty, <- Hr. destruct (InUse r) as [|n] eqn:E; cbn [negb].
    + destruct (Hkill r E) as [H1 H2]. split; [done|]. rewrite H2, !orb_false_r. done.
    + rewrite orb_true_r. cbn. lia.
Qed.

(** Taking a clone back, or the end of a command, ends every process of the user
    when none of the worker's commands runs as it, and none otherwise: no
    command is cut by another's end. *)
Lemma runs_swept euid id l o running :
  under_way ∅ (l ++ [o]) = Some running →
  let r := fold_left (runs_step euid id) l (mkRuns 0 0) in
  let r' := runs_step euid id r o in
  InUse r' = size running ∧ (running ≠ ∅ → Swept r' = Swept r) ∧
  (running = ∅ → IdUID id ≠ euid → (∀ c, o ≠ Started c) → Swept r' = S (Swept r)).
Proof.
  assert (Hinv : ∀ l r0 run0 run1, InUse r0 = size run0 → under_way run0 l = Some run1 → InUse (fold_left (runs_step euid id) l r0) = size run1).
  { clear l. intros l. induction l as [|x l IH]; intros r0 run0 run1 H0; cbn [under_way fold_left]; [by intros [= <-]|].
    destruct (goes run0 x) as [run'|] eqn:Eg; [|done]. cbn. apply IH. by apply (goes_counted euid id r0 x run0). }
  assert (Hsplit : ∀ l run0, under_way run0 (l ++ [o]) = (run1 ← under_way run0 l; goes run1 o)).
  { clear l. intros l. induction l as [|x l IH]; intros run0; cbn; [by destruct (goes run0 o)|]. destruct (goes run0 x); [|done]. cbn. apply IH. }
  rewrite Hsplit. intros H. destruct (under_way ∅ l) as [run1|] eqn:El; [|done]. cbn in H. cbv zeta.
  destruct (goes_counted euid id _ o run1 running (Hinv l (mkRuns 0 0) ∅ run1 (eq_sym (size_empty (C := gset nat))) El) H) as [H1 H2].
  split_and!; [done| |].
  - intros Hne. rewrite H2. unfold ends_strays. rewrite bool_decide_false by done. cbn [negb]. rewrite orb_true_r. cbn. lia.
  - intros -> Hid Ho. rewrite H2. unfold ends_strays. rewrite bool_decide_true by done. destruct (Z.eqb_spec (IdUID id) euid); [done|]. destruct o as [c| |]; [by destruct (Ho c)| |]; cbn; lia.
Qed.

(** ** The git of a run (subproc/gitshim.go)

    The script that is first in the path of a run: what [git add] and [git
    commit] may read. [readlink] is [readlink -f] of a name, from the clone. *)
Section Shim.
Variables (root : string) (readlink : string → option string).

Definition inside (f : string) : bool :=
  negb (String.eqb f "-") && match readlink f with None => false | Some p => String.eqb p root || has_prefix p (root +:+ "/") end.

Definition fileopt (name : string) : bool :=
  (3 <=? len name) && existsb (λ o, has_prefix o name) ["file"; "template"; "pathspec-from-file"].

(** What an argument asks of the script: nothing, to look at a file, to take the
    next argument for a file, or to leave it. *)
Inductive Arg := ArgPlain | ArgFile (f : string) | ArgWant | ArgSkip.

(** A bundle of short options. *)
Fixpoint bundle_arg (b : string) : Arg :=
  match b with
  | "" => ArgPlain
  | String c b =>
      if Ascii.eqb c "F" || Ascii.eqb c "t" then (if String.eqb b "" then ArgWant else ArgFile b)
      else if Ascii.eqb c "m" || Ascii.eqb c "c" || Ascii.eqb c "C" then (if String.eqb b "" then ArgSkip else ArgPlain)
      else bundle_arg b
  end.

Definition shim_arg (a : string) : Arg :=
  match cut_prefix "--" a with
  | Some long =>
      if has_byte "=" long then let '(n, v, _) := cut_byte "=" long in if fileopt n then ArgFile v else ArgPlain
      else if fileopt long then ArgWant else ArgPlain
  | None => match cut_prefix "-" a with Some b => bundle_arg b | None => ArgPlain end
  end.

(** Whether the arguments are let through, given what the last one asked. *)
Fixpoint shim_args (want skip : bool) (l : list string) : bool :=
  match l with
  | [] => negb want
  | a :: l =>
      if want then inside a && shim_args false skip l
      else if skip then shim_args false false l
      else if String.eqb a "--" then true
      else
        match shim_arg a with
        | ArgPlain => shim_args false false l
        | ArgFile f => inside f && shim_args false false l
        | ArgWant => shim_args true false l
        | ArgSkip => shim_args false true l
        end
  end.

Definition gitShim (args : list string) : bool :=
  match args with
  | c :: l => if String.eqb c "commit" || String.eqb c "add" then shim_args false false l else true
  | [] => true
  end.

(** *** What git takes for a file

    git's own reading of a command line (gitcli(7), git-commit(1)), over what it
    knows of its options: a long name, abbreviated or not, reads a file, takes
    another value, in the next argument if not after an equal sign, or neither;
    a letter reads a file or takes another value, in the same argument or the
    next, or has its value, if any, in the same argument only, or none. *)
Inductive LongKind := LongReads | LongTakes | LongOther.
Inductive ShortKind := ShortReads | ShortTakes | ShortSticks | ShortFlag.
Variables (long : string → LongKind) (short : ascii → ShortKind).

Fixpoint git_short (b : string) : Arg :=
  match b with
  | "" => ArgPlain
  | String c b =>
      match short c with
      | ShortReads => if String.eqb b "" then ArgWant else ArgFile b
      | ShortTakes => if String.eqb b "" then ArgSkip else ArgPlain
      | ShortSticks => ArgPlain
      | ShortFlag => git_short b
      end
  end.

Definition git_arg (a : string) : Arg :=
  match cut_prefix "--" a with
  | Some name =>
      if has_byte "=" name then let '(n, v, _) := cut_byte "=" name in match long n with LongReads => ArgFile v | _ => ArgPlain end
      else match long name with LongReads => ArgWant | LongTakes => ArgSkip | LongOther => ArgPlain end
  | None => match cut_prefix "-" a with Some b => git_short b | None => ArgPlain end
  end.

Fixpoint git_files (want skip : bool) (l : list string) : list string :=
  match l with
  | [] => []
  | a :: l =>
      if want then a :: git_files false false l
      else if skip then git_files false false l
      else if String.eqb a "--" then []
      else
        match git_arg a with
        | ArgPlain => git_files false false l
        | ArgFile f => f :: git_files false false l
        | ArgWant => git_files true false l
        | ArgSkip => git_files false true l
        end
  end.

(** What git's documentation says of commit's and add's: a name of three
    letters or more reads a file when it abbreviates one of three (one that git
    finds ambiguous reads nothing: it is counted all the same); the letters that
    read a file, and those that take another value. *)
Record git_documented : Prop := {
  gd_long : ∀ n, 3 ≤ len n → long n = LongReads ↔ ∃ o, o ∈ ["file"; "template"; "pathspec-from-file"] ∧ has_prefix o n = true;
  gd_reads : ∀ c, short c = ShortReads ↔ c ∈ ["F"; "t"]%char;
  gd_takes : ∀ c, short c = ShortTakes ↔ c ∈ ["m"; "c"; "C"]%char
}.

(** The commands the script's reading is meant for: no name of fewer than three
    letters reads a file, no letter has its value in the same argument only, and
    the value that a long name takes in the next argument is no option. *)
Fixpoint no_stuck (b : string) : Prop :=
  match b with
  | "" => True
  | String c b => match short c with ShortSticks => False | ShortFlag => no_stuck b | _ => True end
  end.

Definition ordinary_arg (a : string) : Prop :=
  match cut_prefix "--" a with
  | Some name => long (cut_byte "=" name).1.1 = LongReads → 3 ≤ len (cut_byte "=" name).1.1
  | None => match cut_prefix "-" a with Some b => no_stuck b | None => True end
  end.

Definition takes_next (a : string) : bool :=
  match cut_prefix "--" a with
  | Some name => negb (has_byte "=" name) && match long name with LongTakes => true | _ => false end
  | None => false
  end.

Fixpoint ordinary (value : bool) (l : list string) : Prop :=
  match l with
  | [] => True
  | a :: l => (value = true → has_prefix a "-" = false) ∧ ordinary_arg a ∧ ordinary (takes_next a) l
  end.

(** The script reads an argument as git does, but for a long option that takes
    its value in the next one, which is then no option. *)
Definition unskipped (a : string) : bool := match git_arg a, shim_arg a with ArgSkip, ArgPlain => true | _, _ => false end.
Fixpoint read_alike (value : bool) (l : list string) : Prop :=
  match l with
  | [] => True
  | a :: l => (value = true → has_prefix a "-" = false) ∧ (git_arg a = shim_arg a ∨ unskipped a = true) ∧ read_alike (unskipped a) l
  end.

Lemma plain_read a : has_prefix a "-" = false → shim_arg a = ArgPlain ∧ git_arg a = ArgPlain ∧ a ≠ "--".
Proof.
  intros H. assert (Hc : cut_prefix "-" a = None) by (unfold has_prefix in H; by destruct (cut_prefix "-" a)).
  unfold shim_arg, git_arg. destruct (cut_prefix "--" a) as [r|] eqn:E; [apply cut_prefix_some in E as ->; by cbn in Hc|].
  rewrite Hc. split_and!; try done. by intros ->.
Qed.

(** Of an ordinary command, the script reads each argument as git does. *)
Lemma short_alike (Hgit : git_documented) b : no_stuck b → git_short b = bundle_arg b.
Proof.
  destruct Hgit as [_ Hr Ht]. induction b as [|c b IH]; [done|]. cbn [no_stuck git_short bundle_arg]. specialize (Hr c). specialize (Ht c).
  rewrite !elem_of_cons in Hr. rewrite !elem_of_cons in Ht.
  destruct (Ascii.eqb_spec c "F") as [->|H1]; [by rewrite (proj2 Hr) by (by left)|].
  destruct (Ascii.eqb_spec c "t") as [->|H2]; [by rewrite (proj2 Hr) by (by right; left)|]. cbn [orb].
  destruct (Ascii.eqb_spec c "m") as [->|H3]; [by rewrite (proj2 Ht) by (by left)|].
  destruct (Ascii.eqb_spec c "c") as [->|H4]; [by rewrite (proj2 Ht) by (by right; left)|].
  destruct (Ascii.eqb_spec c "C") as [->|H5]; [by rewrite (proj2 Ht) by (by right; right; left)|]. cbn [orb].
  destruct (short c); [|..|done|done].
  - by destruct (proj1 Hr eq_refl) as [?|[?|?%elem_of_nil]].
  - by destruct (proj1 Ht eq_refl) as [?|[?|[?|?%elem_of_nil]]].
Qed.

Lemma long_alike (Hgit : git_documented) n : (long n = LongReads → 3 ≤ len n) → fileopt n = match long n with LongReads => true | _ => false end.
Proof.
  intros Ho. unfold fileopt. destruct (Z.leb_spec 3 (len n)) as [Hl|Hl]; cbn [andb].
  - pose proof (gd_long Hgit n Hl) as H. destruct (existsb _ _) eqn:E.
    + apply existsb_exists in E as (o & Hin%list_elem_of_In & Hp). by rewrite (proj2 H) by by exists o.
    + destruct (long n); [|done|done]. destruct (proj1 H eq_refl) as (o & Hin & Hp).
      assert (existsb (λ o, has_prefix o n) ["file"; "template"; "pathspec-from-file"] = true); [|congruence].
      apply existsb_exists. exists o. by rewrite <- list_elem_of_In.
  - destruct (long n); [|done|done]. specialize (Ho eq_refl). lia.
Qed.

Lemma cut_absent sep a : has_byte sep a = false → (cut_byte sep a).1.1 = a.
Proof.
  induction a as [|c a IH]; [done|]. cbn [has_byte cut_byte]. intros [Hc Ha]%orb_false_iff. rewrite Hc.
  specialize (IH Ha). destruct (cut_byte sep a) as [[x y] z]. cbn in *. by subst x.
Qed.

Lemma arg_alike (Hgit : git_documented) a :
  ordinary_arg a → unskipped a = takes_next a ∧ (git_arg a = shim_arg a ∨ unskipped a = true).
Proof.
  unfold ordinary_arg, unskipped, takes_next, git_arg, shim_arg. destruct (cut_prefix "--" a) as [name|]; intros Ho.
  - destruct (has_byte "=" name) eqn:Eb.
    + destruct (cut_byte "=" name) as [[n v] z]. cbn [fst negb andb] in *. rewrite (long_alike Hgit n Ho). by destruct (long n); split; [|left| |left| |left].
    + rewrite (cut_absent _ _ Eb) in Ho. rewrite (long_alike Hgit name Ho). destruct (long name); split; try done; [by left|by right|by left].
  - destruct (cut_prefix "-" a) as [b|]; [|split; [done|by left]]. rewrite (short_alike Hgit b Ho). split; [by destruct (bundle_arg b)|by left].
Qed.

Lemma ordinary_alike (Hgit : git_documented) l value : ordinary value l → read_alike value l.
Proof.
  revert value. induction l as [|a l IH]; intros value; [done|]. intros (Hd & Ha & Hl). destruct (arg_alike Hgit a Ha) as [E Hr].
  cbn [read_alike]. rewrite E in *. split_and!; [done|done|by apply IH].
Qed.

(** [lag]: git leaves the next argument, which the script does not. *)
Lemma shim_inside l : ∀ want skip lag value,
  read_alike value l → (lag = true → value = true ∧ want = false ∧ skip = true) → shim_args want (negb lag && skip) l = true → want && skip = false →
  Forall (λ f, inside f = true) (git_files want skip l).
Proof.
  induction l as [|a l IH]; intros want skip lag value; [by constructor|]. intros (Hdash & Hread & Ha) Hlag Hs Hws. destruct lag.
  { destruct (Hlag eq_refl) as (-> & -> & ->). destruct (plain_read a (Hdash eq_refl)) as (Hp & Hg & Hne). cbn [git_files shim_args negb andb] in *.
    rewrite Hp in Hs. destruct (String.eqb_spec a "--"); [done|]. by apply (IH false false false (unskipped a)). }
  cbn [git_files shim_args negb andb] in *. destruct want; [apply andb_true_iff in Hs as [Hi Hs]; rewrite andb_true_l in Hws; subst skip; constructor; [done|]; by apply (IH false false false (unskipped a))|].
  destruct skip; [by apply (IH false false false (unskipped a))|]. destruct (String.eqb_spec a "--"); [constructor|].
  destruct Hread as [Heq|Hu].
  - rewrite Heq. destruct (shim_arg a) eqn:E; [|apply andb_true_iff in Hs as [Hi Hs]; constructor; [done|]| |].
    all: by first [apply (IH false false false (unskipped a)) | apply (IH true false false (unskipped a)) | apply (IH false true false (unskipped a))].
  - pose proof Hu as Hu'. unfold unskipped in Hu'. destruct (git_arg a); try done. destruct (shim_arg a); try done. by apply (IH false true true (unskipped a)).
Qed.
End Shim.

(** C39. What a run's [git commit] and [git add] can read. Of an ordinary
    command that the script lets through, every file that git reads for its
    message, its template or its paths, however the option is written (a long
    name abbreviated, its file attached or not, a bundle of letters), is one of
    the clone, links resolved, and not the standard input; every other command
    goes through. Three commands that are not ordinary go through and read any
    file: the value that a long option takes in the next argument is not left to
    it; two letters of template are no option to the script; and a letter whose
    value is in the same argument has the script leave the next one. *)
Theorem shim_reads root readlink (long : string → LongKind) (short : ascii → ShortKind) (Hgit : git_documented long short) :
  (∀ c args, c ∈ ["commit"; "add"] → ordinary long short false args → gitShim root readlink (c :: args) = true →
     Forall (λ f, f ≠ "-" ∧ ∃ p, readlink f = Some p ∧ (p = root ∨ has_prefix p (root +:+ "/") = true)) (git_files long short false false args)) ∧
  (∀ c args, c ∉ ["commit"; "add"] → gitShim root readlink (c :: args) = true) ∧
  (∀ secret, long "trailer" = LongTakes →
     gitShim root readlink ["commit"; "--trailer"; "--"; "-F"; secret] = true ∧ secret ∈ git_files long short false false ["--trailer"; "--"; "-F"; secret]) ∧
  (∀ secret, long "te" = LongReads →
     gitShim root readlink ["commit"; "--te=" +:+ secret; "--allow-empty-message"] = true ∧
     secret ∈ git_files long short false false ["--te=" +:+ secret; "--allow-empty-message"]) ∧
  (∀ secret, short "S"%char = ShortSticks → has_prefix secret "-" = false →
     gitShim root readlink ["commit"; "-Sm"; "-F"; secret; "--no-gpg-sign"] = true ∧
     secret ∈ git_files long short false false ["-Sm"; "-F"; secret; "--no-gpg-sign"]).
Proof.
  assert (HF : short "F"%char = ShortReads) by (apply (gd_reads _ _ Hgit); left). split_and!.
  - intros c args Hc Ha Hs. eapply Forall_impl; [apply (shim_inside root readlink long short args false false false false)|].
    + by apply ordinary_alike.
    + done.
    + unfold gitShim in Hs. rewrite !elem_of_cons in Hc. by destruct Hc as [->|[->|[]%not_elem_of_nil]].
    + done.
    + cbn beta. unfold inside. intros f Hf. apply andb_true_iff in Hf as [Hd Hf]. split; [by intros ->|].
      destruct (readlink f) as [p|]; [|done]. exists p. split; [done|]. apply orb_true_iff in Hf as [Hf|Hf]; [left; by apply String.eqb_eq|by right].
  - intros c args [H1 [H2 _]%not_elem_of_cons]%not_elem_of_cons. cbn. apply String.eqb_neq in H1, H2. by rewrite H1, H2.
  - intros secret Ht. split; [done|]. cbn. rewrite Ht. cbn. rewrite HF. cbn. by left.
  - intros secret Hr. split; [done|]. cbn. rewrite Hr. cbn. by left.
  - intros secret Hst Hd. destruct (plain_read long short secret Hd) as (Hp & _ & Hne). split.
    + cbn. rewrite Hp. by destruct (String.eqb_spec secret "--").
    + cbn. rewrite Hst, HF. cbn. by left.
Qed.

(** A git that knows some of commit's options. *)
Definition contains_ascii (c : ascii) (l : list ascii) : bool := bool_decide (c ∈ l).
Definition demo_long (n : string) : LongKind :=
  if existsb (λ o, has_prefix o n) ["file"; "template"; "pathspec-from-file"] && (2 <=? len n) then LongReads
  else if contains ["trailer"; "message"] n then LongTakes else LongOther.
Definition demo_short (c : ascii) : ShortKind :=
  if contains_ascii c ["F"; "t"]%char then ShortReads else if contains_ascii c ["m"; "c"; "C"]%char then ShortTakes
  else if contains_ascii c ["S"; "u"]%char then ShortSticks else ShortFlag.

Lemma demo_documented : git_documented demo_long demo_short.
Proof.
  split.
  - intros n Hn. unfold demo_long. destruct (Z.leb_spec 2 (len n)) as [_|]; [|lia]. rewrite andb_true_r. destruct (existsb _ _) eqn:E.
    + split; [|done]. intros _. apply existsb_exists in E as (o & Hin%list_elem_of_In & Hp). by exists o.
    + split; [by destruct (contains _ n)|]. intros (o & Hin & Hp).
      assert (existsb (λ o, has_prefix o n) ["file"; "template"; "pathspec-from-file"] = true); [|congruence].
      apply existsb_exists. exists o. by rewrite <- list_elem_of_In.
  - intros c. unfold demo_short, contains_ascii. by repeat case_bool_decide.
  - intros c. unfold demo_short, contains_ascii. repeat case_bool_decide; try done. split; [done|]. intros Hc. exfalso.
    rewrite !elem_of_cons in H. rewrite !elem_of_cons in Hc. destruct H as [->|[->|?%elem_of_nil]]; [| |done]; by destruct Hc as [?|[?|[?|?%elem_of_nil]]].
Qed.

Lemma shim_reads_witness :
  let readlink f := if String.eqb f "msg" then Some "/w/run-1/msg" else None in
  let args := ["-aF"; "msg"; "--message"; "x"; "--temp=msg"] in
  gitShim "/w/run-1" readlink ("commit" :: args) = true ∧ git_files demo_long demo_short false false args = ["msg"; "msg"] ∧
  Forall (λ f, f ≠ "-" ∧ ∃ p, readlink f = Some p ∧ (p = "/w/run-1" ∨ has_prefix p ("/w/run-1" +:+ "/") = true)) (git_files demo_long demo_short false false args).
Proof.
  split; [vm_compute; reflexivity|]. split; [vm_compute; reflexivity|].
  apply (proj1 (shim_reads "/w/run-1" (λ f, if String.eqb f "msg" then Some "/w/run-1/msg" else None) demo_long demo_short demo_documented) "commit");
    [left| |vm_compute; reflexivity].
  vm_compute. repeat split; discriminate.
Defined.

(** ** The CLI's configuration of a run (claudecode/config.go) *)

Definition seedFiles : list string := [".credentials.json"; ".claude.json"; "settings.json"; "CLAUDE.md"].
Definition credentialsFile : string := ".credentials.json".
Definition maxCredentialsBytes : Z := 64 * 1024.

Definition OwnConfig (base : string) (runAs : option Identity) : bool := negb (String.eqb base "") || negb (is_none runAs).

(** [SeedConfigDir], the directory made: what is copied of the operator's files
    ([None]: not there), until one cannot be read or written. *)
Fixpoint seed_files (read : string → option (string + string)) (write : string → option string) (names : list string) : list (string * string) * option string :=
  match names with
  | [] => ([], None)
  | n :: names =>
      match read n with
      | None => seed_files read write names
      | Some (inl e) => ([], Some e)
      | Some (inr data) =>
          match write n with
          | Some e => ([], Some e)
          | None => let '(l, e) := seed_files read write names in ((n, data) :: l, e)
          end
      end
  end.
Definition SeedConfigDir (base : string) (made : option string) (read : string → option (string + string)) (write : string → option string) (given : option string) :
    list (string * string) * option string :=
  match made with
  | Some e => ([], Some e)
  | None =>
      let '(l, e) := if String.eqb base "" then ([], None) else seed_files read write seedFiles in
      (l, match e with Some e => Some e | None => given end)
  end.

(** A JSON document as Go decodes it into any: what is neither null, nor a
    string, nor an object tells nothing here. *)
Inductive json := JNull | JStr (s : string) | JObj (l : list (string * json)) | JRest.
Class AnyJSON := json_any : string → option json.

Fixpoint field (k : string) (l : list (string * json)) : option json :=
  match l with [] => None | (k', v) :: l => if String.eqb k' k then Some v else field k l end.

Fixpoint holds (was got : json) : bool :=
  match was with
  | JObj l =>
      match got with
      | JObj i => forallb (λ kv, match field kv.1 i with None | Some JNull => false | Some iv => holds kv.2 iv end) l
      | _ => false
      end
  | JStr w => String.eqb w "" || match got with JStr s => negb (String.eqb s "") | _ => false end
  | _ => true
  end.

(** What the run left at its login's place: not there; not opened as a file of
    its own; or what it is, with what is read of it. *)
Record RunFile := mkRunFile { RfRegular : bool; RfContent : string + string }.
Definition readRunFile (path : string) (f : RunFile) : string + string :=
  if negb (RfRegular f) then inl (path +:+ " is not a regular file")
  else
    match RfContent f with
    | inl e => inl e
    | inr data =>
        let data := take_str (Z.to_nat (maxCredentialsBytes + 1)) data in
        if maxCredentialsBytes <? len data then inl (path +:+ " is larger than " +:+ itoa maxCredentialsBytes +:+ " bytes") else inr data
    end.

Section Login.
Context {AJ : AnyJSON}.

Definition sameShape (current renewed : string) : bool :=
  match json_any current with
  | Some (JObj l) => match json_any renewed with None => false | Some got => holds (JObj l) got end
  | _ => true
  end.

(** [KeepCredentials]: its error, and the login written in the operator's
    configuration, if one is. [written]: why it cannot be. *)
Definition KeepCredentials (base : string) (environ : list string) (current : option (string + string)) (path : string) (run : option (string + RunFile))
    (written : option string) : option string * option string :=
  if String.eqb base "" || negb (String.eqb (envValue environ "ANTHROPIC_API_KEY") "") then (None, None)
  else
    match current with
    | None => (None, None)
    | Some (inl e) => (Some e, None)
    | Some (inr current) =>
        match run with
        | None => (None, None)
        | Some (inl e) => (Some e, None)
        | Some (inr f) =>
            match readRunFile path f with
            | inl e => (Some e, None)
            | inr renewed =>
                if String.eqb renewed current then (None, None)
                else if negb (json_valid renewed) then (Some ("the run's " +:+ credentialsFile +:+ " is not JSON: not kept"), None)
                else if negb (sameShape current renewed)
                then (Some ("the run's " +:+ credentialsFile +:+ " lacks what the current login holds: not kept"), None)
                else match written with Some e => (Some e, None) | None => (None, Some renewed) end
            end
        end
    end.

(** A run, as the operator's login sees it. *)
Record Renewal := mkRenewal { RwEnviron : list string; RwPath : string; RwRun : option (string + RunFile); RwWritten : option string }.
Definition renew (base : string) (login : option string) (r : Renewal) : option string :=
  match (KeepCredentials base (RwEnviron r) (inr <$> login) (RwPath r) (RwRun r) (RwWritten r)).2 with Some new => Some new | None => login end.

Lemma field_in k l v : field k l = Some v → (k, v) ∈ l.
Proof. induction l as [|[k' v'] l IH]; cbn; [done|]. destruct (String.eqb_spec k' k) as [->|]; [intros [= ->]; by left|right; by apply IH]. Qed.

Lemma holds_trans a : ∀ b c, holds a b = true → holds b c = true → holds a c = true.
Proof.
  revert a. fix holds_trans 1. intros [|s|l|] b c; cbn [holds]; try done.
  - destruct (String.eqb_spec s ""); [done|]. cbn [orb]. destruct b as [|s'| |]; try done. intros Hs'. cbn [holds].
    destruct (String.eqb_spec s' ""); [done|]. done.
  - destruct b as [| |i|]; try done. intros Hl Hi. cbn [holds] in Hi. destruct c as [| |j|]; try done.
    induction l as [|[k v] l IH]; cbn [forallb] in *; [done|]. apply andb_true_iff in Hl as [Hv Hl]. apply andb_true_iff. split; [|by apply IH].
    clear IH Hl. cbn [fst snd] in *. destruct (field k i) as [iv|] eqn:Ei; [|done]. apply field_in in Ei.
    rewrite forallb_forall in Hi. specialize (Hi (k, iv) (proj1 (list_elem_of_In _ _) Ei)). cbn [fst snd] in Hi.
    destruct (field k j) as [jv|]; [|done]. assert (Hiv : holds v iv = true) by by destruct iv. destruct jv; try done; by apply (holds_trans v iv).
Qed.

(** What is kept of a run's login. *)
Lemma KeepCredentials_kept base environ current path run written e new :
  KeepCredentials base environ current path run written = (e, Some new) →
  base ≠ "" ∧ envValue environ "ANTHROPIC_API_KEY" = "" ∧ e = None ∧ json_valid new = true ∧ len new ≤ maxCredentialsBytes ∧
  ∃ was f, current = Some (inr was) ∧ run = Some (inr f) ∧ RfRegular f = true ∧ sameShape was new = true.
Proof.
  unfold KeepCredentials. destruct (String.eqb_spec base ""); [done|]. destruct (String.eqb_spec (envValue environ "ANTHROPIC_API_KEY") "") as [Hkey|]; [|done]. cbn [orb negb].
  destruct current as [[e0|was]|]; try done. destruct run as [[e0|f]|]; try done. unfold readRunFile. destruct (RfRegular f) eqn:Er; [|done]. cbn [negb].
  destruct (RfContent f) as [e0|data]; [done|]. destruct (Z.ltb_spec maxCredentialsBytes (len (take_str (Z.to_nat (maxCredentialsBytes + 1)) data))) as [|Hl]; [done|].
  set (data' := take_str _ data) in *. destruct (String.eqb data' was); [done|]. destruct (json_valid data') eqn:Ev; [|done]. cbn [negb]. destruct (sameShape was data') eqn:Es; [|done]. cbn [negb].
  destruct written; [done|]. intros [= <- <-]. split_and!; try done. by exists was, f.
Qed.

(** A login that holds a null is never renewed: whatever a run leaves is refused. *)
Lemma null_login_kept base environ was path run written k l :
  json_any was = Some (JObj l) → (k, JNull) ∈ l → (KeepCredentials base environ (Some (inr was)) path run written).2 = None ∨
    ∃ new i, json_any new = Some (JObj i) ∧ (KeepCredentials base environ (Some (inr was)) path run written).2 = Some new ∧ ∃ v, field k i = Some v ∧ v ≠ JNull.
Proof.
  intros Hw Hk. destruct (KeepCredentials base environ (Some (inr was)) path run written) as [e [new|]] eqn:E; [right|by left].
  apply KeepCredentials_kept in E as (_ & _ & _ & _ & _ & was' & f & [= <-] & _ & _ & Hs). unfold sameShape in Hs. rewrite Hw in Hs. destruct (json_any new) as [got|] eqn:En; [|done].
  cbn [holds] in Hs. destruct got as [| |i|]; try done. exists new, i. split_and!; [done|done|]. rewrite forallb_forall in Hs. specialize (Hs _ (proj1 (list_elem_of_In _ _) Hk)). cbn [fst snd] in Hs.
  destruct (field k i) as [v|]; [|done]. exists v. split; [done|]. by intros ->.
Qed.

Lemma renew_step base login r :
  renew base login r = login ∨
  ∃ was new, login = Some was ∧ renew base login r = Some new ∧ base ≠ "" ∧ envValue (RwEnviron r) "ANTHROPIC_API_KEY" = "" ∧
    json_valid new = true ∧ len new ≤ maxCredentialsBytes ∧ sameShape was new = true.
Proof.
  unfold renew. destruct (KeepCredentials _ _ _ _ _ _) as [e [new|]] eqn:E; cbn [snd]; [right|by left].
  apply KeepCredentials_kept in E as (Hb & Hk & _ & Hv & Hl & was & f & Hw & _ & _ & Hs). destruct login as [was'|]; [|done]. injection Hw as ->. by exists was, new.
Qed.

(** C29. The operator's login outlives the runs that renew it. Whatever the runs of
    a worker leave as their login, and however each ends, the operator's
    configuration keeps a login of the shape it had: every key of the first, at
    every depth, with no empty text where there was one, in a JSON document of
    64 KB at most; no run adds a login where there was none, nor touches one
    the CLI does not use, an API key being given. But a login that holds a null is
    never renewed by one that keeps it. *)
Theorem login_outlives base runs was l (Hwas : json_any was = Some (JObj l)) :
  (∃ now, fold_left (renew base) runs (Some was) = Some now ∧
     (now = was ∨ (json_valid now = true ∧ len now ≤ maxCredentialsBytes ∧ ∃ i, json_any now = Some (JObj i) ∧ holds (JObj l) (JObj i) = true))) ∧
  fold_left (renew base) runs None = None ∧
  (Forall (λ r, envValue (RwEnviron r) "ANTHROPIC_API_KEY" ≠ "") runs → fold_left (renew base) runs (Some was) = Some was) ∧
  (∀ k r now i, (k, JNull) ∈ l → renew base (Some was) r = Some now → json_any now = Some (JObj i) → field k i = Some JNull → now = was).
Proof.
  split_and!.
  - assert (Hgen : ∀ now, (now = was ∨ (json_valid now = true ∧ len now ≤ maxCredentialsBytes ∧ ∃ i, json_any now = Some (JObj i) ∧ holds (JObj l) (JObj i) = true)) →
      ∃ now', fold_left (renew base) runs (Some now) = Some now' ∧
        (now' = was ∨ (json_valid now' = true ∧ len now' ≤ maxCredentialsBytes ∧ ∃ i, json_any now' = Some (JObj i) ∧ holds (JObj l) (JObj i) = true))); [|by apply Hgen; left].
    induction runs as [|r runs IH]; intros now Hnow; [by exists now|]. cbn [fold_left]. destruct (renew_step base (Some now) r) as [->|(now0 & new & [= <-] & -> & _ & _ & Hv & Hl & Hs)]; [by apply IH|].
    apply IH. right. split_and!; [done|done|]. unfold sameShape in Hs. destruct Hnow as [->|(_ & _ & i & Hi & Hh)].
    + rewrite Hwas in Hs. destruct (json_any new) as [got|]; [|done]. destruct got as [| |i|]; try done. by exists i.
    + rewrite Hi in Hs. destruct (json_any new) as [got|]; [|done]. destruct got as [| |j|]; try done. exists j. split; [done|]. by apply (holds_trans _ (JObj i)).
  - induction runs as [|r runs IH]; [done|]. cbn [fold_left]. by destruct (renew_step base None r) as [->|(now0 & new & H & _)].
  - induction 1 as [|r runs' Hr _ IH]; [done|]. cbn [fold_left]. destruct (renew_step base (Some was) r) as [->|(now0 & new & _ & _ & _ & H & _)]; [done|by destruct Hr].
  - intros k r now i Hk Hnow Hi Hf. unfold renew in Hnow. destruct (null_login_kept base (RwEnviron r) was (RwPath r) (RwRun r) (RwWritten r) k l Hwas Hk) as [H|(new & i' & Hn & H & v & Hv & Hne)].
    + cbn [fmap option_fmap option_map] in Hnow. rewrite H in Hnow. by injection Hnow.
    + cbn [fmap option_fmap option_map] in Hnow. rewrite H in Hnow. injection Hnow as ->. rewrite Hn in Hi. injection Hi as ->. rewrite Hf in Hv. by injection Hv as <-.
Qed.
End Login.

Definition demo_any : AnyJSON :=
  λ s, if String.eqb s "{old}" then Some (JObj [("claudeAiOauth", JObj [("accessToken", JStr "a"); ("refreshToken", JStr "r")])])
       else if String.eqb s "[1]" then Some (JObj [("claudeAiOauth", JObj [("accessToken", JStr "b"); ("refreshToken", JStr "s")])])
       else if String.eqb s "[2]" then Some (JObj [("claudeAiOauth", JObj [("accessToken", JStr "b"); ("refreshToken", JStr "")])])
       else None.
Definition left_login (s : string) : Renewal := mkRenewal [] "/run/.credentials.json" (Some (inr (mkRunFile true (inr s)))) None.

(** A renewal is kept; an emptied login, a text, is not. *)
Lemma login_outlives_witness :
  (∃ now, fold_left (@renew demo_any "/op") [left_login "[2]"; left_login "[1]"; left_login "gone"] (Some "{old}") = Some now ∧
    (now = "{old}" ∨ (json_valid now = true ∧ len now ≤ maxCredentialsBytes ∧
       ∃ i, @json_any demo_any now = Some (JObj i) ∧ holds (JObj [("claudeAiOauth", JObj [("accessToken", JStr "a"); ("refreshToken", JStr "r")])]) (JObj i) = true))) ∧
  fold_left (@renew demo_any "/op") [left_login "[2]"; left_login "[1]"; left_login "gone"] (Some "{old}") = Some "[1]".
Proof.
  split; [exact (proj1 (@login_outlives demo_any "/op" [left_login "[2]"; left_login "[1]"; left_login "gone"] "{old}" _ eq_refl))|vm_compute; reflexivity].
Defined.

(** ** Workspaces (claude_code.go, claude_code_sweep.go) *)

Fixpoint right_slashes (s : string) : string :=
  match s with "" => "" | String c s => let r := right_slashes s in if Ascii.eqb c "/" && String.eqb r "" then "" else String c r end.
(** [filepath.Base] *)
Definition file_base (p : string) : string :=
  if String.eqb p "" then "."
  else let q := right_slashes p in if String.eqb q "" then "/" else default q (last (split_byte "/" q)).

Definition any_byte (chars s : string) : bool := existsb (λ c, has_byte c s) (String.list_ascii_of_string chars).

(** [strings.TrimSuffix] *)
Fixpoint trim_suffix (suffix s : string) : string :=
  if String.eqb s suffix then "" else match s with "" => "" | String c s => String c (trim_suffix suffix s) end.

(** What stands next to a workspace, and goes with it. *)
Definition gitConfigCopy (dir : string) : string := dir +:+ ".gitconfig".
Definition cliConfigDir (dir : string) : string := dir +:+ ".claude".
Definition pluginDir (dir : string) : string := dir +:+ ".plugin".
Definition outputsDir (dir : string) : string := dir +:+ ".outputs".
Definition bundlePath (dir : string) : string := dir +:+ ".bundle".
Definition workspace_paths (dir : string) : list string :=
  [dir; cliConfigDir dir; outputsDir dir; pluginDir dir; GitShimDir dir; gitConfigCopy dir; bundlePath dir].

Definition companions : list string := [".claude"; ".gitconfig"; ".outputs"; ".plugin"; ".bundle"; ".bin"].
Definition isRunEntry (name : string) : bool :=
  let base := fold_left (λ b c, trim_suffix c b) companions name in
  has_prefix base RunWorkspacePrefix && (len RunWorkspacePrefix <? len base).

(** ** What is refused *)

(** An activity's error: an application error (its type, its message, whether
    the step may be tried again, its cause and how far a run got), a
    cancellation, or any other. *)
Inductive ActError :=
| AppErr (type msg : string) (retry : bool) (cause : option string) (progress : option Progress)
| CancelErr
| PlainErr (msg : string).

Definition stepError (what : string) (e : ActError) : ActError := match e with PlainErr msg => PlainErr (what +:+ ": " +:+ msg) | _ => e end.
Definition refused_for_good (type msg : string) : ActError := AppErr type msg false None None.

Record ClaudeCodeActivities := mkActivities {
  AcRunner : option Runner; AcRoot : string; AcSSHKey : string; AcRunAs : option Identity; AcRuns : bool; AcConfigDir : string; AcRepos : list string;
  AcModel : string; AcMaxBudget : float64; AcAuth : string; AcQueueWait : Z; AcRunEndWait : Z; AcPublisher : option Publisher; AcSkills : option Prompts;
  AcEuid : Z; AcEnviron : list string
}.

(** Whether the CLI is found; the seconds a run may wait. *)
Definition ProbeRunWorker (a : ClaudeCodeActivities) (available : bool) : ActError + Z :=
  if negb available
  then inl (refused_for_good ErrNoClaudeCLI "this worker of the coding runs' queue has no claude CLI: every worker of that queue must have it")
  else
    let wait := if AcQueueWait a <=? 0 then DefaultRunQueueWait else AcQueueWait a in
    inr (Z.quot (wrap64 (wait + second - 1)) second).

(** A run waits as long as its worker's operator says, rounded up to the second. *)
Lemma probe_wait a secs :
  ProbeRunWorker a true = inr secs → AcQueueWait a < 2 ^ 63 - 2 * second →
  let wait := if AcQueueWait a <=? 0 then DefaultRunQueueWait else AcQueueWait a in wait ≤ QueueWait secs < wait + second.
Proof.
  unfold ProbeRunWorker. cbn [negb]. cbv zeta. intros [= <-] Hb. set (wait := if AcQueueWait a <=? 0 then DefaultRunQueueWait else AcQueueWait a).
  assert (Hw : 0 < wait < 2 ^ 63 - 2 * second). { unfold wait. change DefaultRunQueueWait with 1800000000000. change second with 1000000000 in *. destruct (Z.leb_spec (AcQueueWait a) 0); lia. }
  clearbody wait. change second with 1000000000 in *. rewrite (wrap64_small (wait + _ - 1)) by lia. rewrite Z.quot_div_nonneg by lia.
  pose proof (Z.div_mod (wait + 1000000000 - 1) 1000000000 ltac:(lia)). pose proof (Z.mod_pos_bound (wait + 1000000000 - 1) 1000000000 ltac:(lia)).
  unfold QueueWait. change second with 1000000000. destruct (Z.leb_spec ((wait + 1000000000 - 1) / 1000000000) 0); [lia|]. rewrite wrap64_small by lia. lia.
Qed.

Definition ErrRunStalled : string := "RunStalled".
Definition ErrRunFailed : string := "RunFailed".
Definition ErrBundleFailed : string := "BundleFailed".
Definition WorkspaceTampered : string := "WorkspaceTampered".

Section Refuse.
Context {GQ : GoQuote} {GT : GoText}.

Definition rootPath (root name : string) : string + string :=
  if String.eqb root "" then inl "claude code: workspace root is not configured"
  else if (String.eqb name "" || String.eqb name "." || String.eqb name "..") || (has_byte "/" name || has_byte (byte 92) name)
  then inl ("claude code: " +:+ quote name +:+ " is not a valid workspace name")
  else inr (path_clean (path_clean root +:+ "/" +:+ name)).

Variable a : ClaudeCodeActivities.

Definition workspaceDir (dir : string) : ActError + string :=
  match rootPath (AcRoot a) (file_base dir) with
  | inl e => inl (PlainErr e)
  | inr want => if String.eqb (path_clean dir) want then inr want
                else inl (refused_for_good "InvalidInput" (quote dir +:+ " is not a workspace under " +:+ quote (AcRoot a)))
  end.

Definition checkRepo (repo : string) : option ActError :=
  if String.eqb repo "" then Some (refused_for_good "InvalidInput" "repo is required")
  else if has_prefix repo "-" || any_byte (String (byte 0) (String (byte 10) (String (byte 13) ""))) repo
  then Some (refused_for_good "InvalidInput" ("invalid repository " +:+ quote repo))
  else if negb (MatchAny (AcRepos a) repo)
  then Some (refused_for_good "RepoNotAllowed" ("repository " +:+ quote repo +:+ " is not one this worker may use (CLAUDE_CODE_REPOS)"))
  else None.

Definition pushRefusals : list string :=
  ["permission denied"; "authentication failed"; "could not read username"; "could not read password"; "terminal prompts disabled"; "returned error: 401";
   "returned error: 403"; "permission to "; "host key verification failed"; "not allowed to push"; "repository not found"; "read only"; "read-only";
   "access denied"; "not have access"; "tf401019"].
Definition pushRefused (out : string) : bool := existsb (λ r, includes r (ToLower out)) pushRefusals.

Definition isSSHRemote (repo : string) : bool :=
  if has_prefix repo "ssh://" || has_prefix repo "git+ssh://" || has_prefix repo "ssh+git://" then true
  else if includes "://" repo then false
  else let i := index_byte ":" repo in (0 <? i) && negb (has_byte "/" (take_str (Z.to_nat i) repo)).

Definition sha_char (c : ascii) : bool := is_digit c || ((97 <=? byte_of c) && (byte_of c <=? 102)).
Definition isFullSHA (s : string) : bool := ((len s =? 40) || (len s =? 64)) && forallb sha_char (String.list_ascii_of_string s).

(** *** git, on a worker *)

Definition sshEnv : list string :=
  if String.eqb (AcSSHKey a) "" then []
  else ["GIT_SSH_COMMAND=ssh -i " +:+ AcSSHKey a +:+ " -o IdentitiesOnly=yes -o StrictHostKeyChecking=accept-new"].
Definition GitEnv (environ names : list string) : list string := EnvOf environ names [] ++ ["GIT_CONFIG_NOSYSTEM=1"; "GIT_CONFIG_GLOBAL=/dev/null"; noPrompt].
Definition worker_git_env (extra : list string) : list string := GitEnv (AcEnviron a) [] ++ extra ++ ["LC_ALL=C"].
Definition worker_git_argv (args : list string) : list string := GitSafeArgs ++ args.
End Refuse.

(** ** The runs under way on a worker (cliRuns) *)

(** A hold, its directory, and whether it was let go: a release counts once. *)
Record cliRuns := mkCLIRuns { CrCount : gmap string nat; CrHolds : list (string * bool) }.
Definition noRuns : cliRuns := mkCLIRuns ∅ [].
Definition hold (dir : string) (c : cliRuns) : cliRuns := mkCLIRuns (<[dir := S (default 0%nat (CrCount c !! dir))]> (CrCount c)) (CrHolds c ++ [(dir, false)]).
Definition release_hold (i : nat) (c : cliRuns) : cliRuns :=
  match CrHolds c !! i with
  | Some (dir, false) =>
      let n := pred (default 0%nat (CrCount c !! dir)) in
      mkCLIRuns (match n with O => delete dir (CrCount c) | _ => <[dir := n]> (CrCount c) end) (<[i := (dir, true)]> (CrHolds c))
  | _ => c
  end.
(** [idle], once: whether it answers, or waits for a release. *)
Definition idle (dir : string) (c : cliRuns) : bool := match CrCount c !! dir with None => true | Some n => Nat.eqb n 0 end.

Inductive cli_op := CLIHeld (dir : string) | CLIReleased (i : nat).
Definition cli_step (c : cliRuns) (o : cli_op) : cliRuns := match o with CLIHeld dir => hold dir c | CLIReleased i => release_hold i c end.

Definition held (dir : string) (l : list (string * bool)) : nat := length (List.filter (λ h, String.eqb h.1 dir && negb h.2) l).
Definition counted (c : cliRuns) : Prop := ∀ dir, CrCount c !! dir = match held dir (CrHolds c) with O => None | n => Some n end.

Lemma filter_insert {A} (f : A → bool) (l : list A) i x y :
  l !! i = Some x → (length (List.filter f (<[i := y]> l)) + Nat.b2n (f x) = length (List.filter f l) + Nat.b2n (f y))%nat.
Proof.
  intros H. rewrite (insert_take_drop l i y) by by apply lookup_lt_is_Some_1; eauto. rewrite <- (take_drop_middle l i x H) at 3.
  rewrite !List.filter_app, !length_app. cbn [List.filter]. destruct (f x), (f y); cbn [length Nat.b2n]; lia.
Qed.

Lemma cli_step_counts o c : counted c → counted (cli_step c o).
Proof.
  intros H dir. assert (Hd : ∀ d, default 0%nat (CrCount c !! d) = held d (CrHolds c)) by (intros d; rewrite H; by destruct (held d _)).
  destruct o as [d|i]; cbn [cli_step].
  - unfold hold. cbn [CrCount CrHolds]. assert (Hh : held dir (CrHolds c ++ [(d, false)]) = (held dir (CrHolds c) + if String.eqb d dir then 1 else 0)%nat).
    { unfold held. rewrite List.filter_app, length_app. cbn [List.filter fst snd negb]. rewrite andb_true_r. by destruct (String.eqb d dir). }
    rewrite Hh, Hd. destruct (String.eqb_spec d dir) as [->|Hne]; [rewrite lookup_insert_eq; by rewrite Nat.add_1_r|].
    rewrite lookup_insert_ne by done. rewrite Nat.add_0_r. apply H.
  - unfold release_hold. destruct (CrHolds c !! i) as [[d []]|] eqn:Ei; [apply H| |apply H]. cbn [CrCount CrHolds]. rewrite Hd.
    pose proof (filter_insert (λ h, String.eqb h.1 dir && negb h.2) (CrHolds c) i (d, false) (d, true) Ei) as Hf. cbn [fst snd negb] in Hf.
    rewrite andb_true_r, andb_false_r in Hf. cbn [Nat.b2n] in Hf. fold (held dir (<[i := (d, true)]> (CrHolds c))) (held dir (CrHolds c)) in Hf.
    destruct (String.eqb_spec d dir) as [->|Hne]; cbn [Nat.b2n] in Hf.
    + assert (Hp : pred (held dir (CrHolds c)) = held dir (<[i := (dir, true)]> (CrHolds c))) by lia. rewrite Hp.
      destruct (held dir (<[i := _]> _)); [by rewrite lookup_delete_eq|by rewrite lookup_insert_eq].
    + assert (Hp : held dir (<[i := (d, true)]> (CrHolds c)) = held dir (CrHolds c)) by lia. rewrite Hp.
      destruct (pred (held d _)); [rewrite lookup_delete_ne by done|rewrite lookup_insert_ne by done]; apply H.
Qed.

(** A step that waits for a run waits exactly as long as a CLI works there,
    however often a run's end is told. *)
Lemma idle_exact ops dir :
  let c := fold_left cli_step ops noRuns in idle dir c = true ↔ ∀ i, CrHolds c !! i ≠ Some (dir, false).
Proof.
  assert (H : ∀ ops c, counted c → counted (fold_left cli_step ops c)).
  { clear. intros ops. induction ops as [|o ops IH]; intros c Hc; [done|]. cbn [fold_left]. apply IH. by apply cli_step_counts. }
  cbv zeta. specialize (H ops noRuns (λ d, eq_refl)). set (c := fold_left cli_step ops noRuns) in *. unfold idle. rewrite (H dir).
  assert (Hz : held dir (CrHolds c) = 0%nat ↔ ∀ i, CrHolds c !! i ≠ Some (dir, false)).
  { unfold held. rewrite length_zero_iff_nil. split.
    - intros Hz i Hi%list_elem_of_lookup_2. assert (Hin : (dir, false) ∈ List.filter (λ h, String.eqb h.1 dir && negb h.2) (CrHolds c)).
      { apply in_filter. split; [done|]. cbn. by rewrite String.eqb_refl. } rewrite Hz in Hin. by apply elem_of_nil in Hin.
    - intros Hn. destruct (List.filter _ _) as [|[d b] l] eqn:E; [done|]. exfalso.
      assert (Hin : (d, b) ∈ List.filter (λ h, String.eqb h.1 dir && negb h.2) (CrHolds c)) by (rewrite E; by left). apply in_filter in Hin as [Hin Hb]. cbn in Hb.
      apply andb_true_iff in Hb as [->%String.eqb_eq Hb]. destruct b; [done|]. apply list_elem_of_lookup_1 in Hin as [i Hi]. by apply (Hn i). }
  rewrite <- Hz. by destruct (held dir _).
Qed.

(** ** What a step asks for *)

Inductive WkAsk :=
| WkAwait (dir : string)
| WkRemove (path : string)
| WkMake (path : string)
| WkGit (extra : list string) (dir : string) (args : list string)
| WkKeepConfig (dir : string)
| WkGive (path : string)
| WkPlugin (path : string) (skills : list RunSkill)
| WkStrays
| WkReclaim (dir : string)
| WkRestore (dir : string)
| WkSeed (path : string)
| WkKeepLogin (path : string)
| WkShim (dir : string)
| WkCLI (dir : string) (p : Params)
| WkReadBundle (path : string)
| WkPublish (c : CallContext) (name content : string)
| WkOutputs (c : CallContext) (uploads : list (string * string)).

(** A workspace at the moment it is taken back: why it, or its .git, is no
    directory to take; .git's tree; why its entries cannot be. *)
Record Reclaimed := mkReclaimed { RdDir : option string; RdGit : option string; RdTree : Tree; RdRead : option string }.

(** What answers: git, with its error and what it wrote; the files' operations;
    whether no CLI works in the workspace when the wait ends; the step's
    context, if it is over (cancelled, or out of time); whether the dry run's own
    time is; what is taken back, and what is found in .git; whether the
    workspace is there; the CLI's run, and whether the worker stopped meanwhile;
    the bundle's file; the store, for the bundle and for each output. *)
Record WorkerEnv := mkWorkerEnv {
  WeGit : list WkAsk → option string * string;
  WeDone : list WkAsk → option string;
  WeIdle : list WkAsk → bool;
  WeOver : list WkAsk → option bool;
  WeTryOver : bool;
  WeReclaimed : list WkAsk → Reclaimed;
  WeGitDir : list WkAsk → GitDir;
  WeThere : bool;
  WeCLI : list WkAsk → string + Ran;
  WeStopped : bool;
  WeOwnPath : string;
  WeBundle : string + OpenFile;
  WePublish : list WkAsk → (bool * string) + FileRef;
  WeStored : option FileRef;
  WeOutputs : OutputsRoot;
  WeOutputsOver : nat → bool;
  WeOutputsEnded : option bool;
  WeUpload : list (string * string) → string + FileRef
}.

Definition ctx_text (cancelled : bool) : string := if cancelled then "context canceled" else "context deadline exceeded".

Section Steps.
Context {GQ : GoQuote} {GT : GoText} {SJ : StreamJSON}.
Variables (a : ClaudeCodeActivities) (env : WorkerEnv).

Definition gitEnv (extra : list string) (dir : string) (args : list string) : Asks WkAsk (option string * string) :=
  _ ← ask_for (WkGit extra dir args); answer (WeGit env).
Definition git (dir : string) (args : list string) : Asks WkAsk (option string * string) := gitEnv [] dir args.

(** An operation on files: its error. *)
Definition file_op (q : WkAsk) : Asks WkAsk (option string) := _ ← ask_for q; answer (WeDone env).
Fixpoint file_ops (l : list WkAsk) : Asks WkAsk (option string) :=
  match l with
  | [] => mret None
  | q :: l => e ← file_op q; match e with Some e => mret (Some e) | None => file_ops l end
  end.
Definition removeWorkspace (dir : string) : Asks WkAsk (option string) := file_ops (WkRemove <$> workspace_paths dir).

(** [awaitRunEnd] *)
Definition run_end_wait : Z := if AcRunEndWait a <=? 0 then DefaultRunEndWait else AcRunEndWait a.
Definition awaitRunEnd (dir : string) : Asks WkAsk (option ActError) :=
  _ ← ask_for (WkAwait dir);
  gone ← answer (WeIdle env);
  if (gone : bool) then mret None
  else
    over ← answer (WeOver env);
    mret (Some (match over with
                | Some true => CancelErr
                | Some false => PlainErr (ctx_text false)
                | None => refused_for_good ErrRunStillActive ("the run's CLI still runs on this worker after " +:+ duration_string run_end_wait)
                end)).

(** [reclaim]: nothing, of a run made as the worker's user. *)
Definition tampered (msg : string) (cause : option string) : ActError := AppErr WorkspaceTampered msg false cause None.
Definition taken_back (dir : string) (r : Reclaimed) : option ActError :=
  let gitDir := dir +:+ "/.git" in
  match RdDir r, RdGit r with
  | Some e, _ => Some (PlainErr e)
  | None, Some e => Some (tampered (gitDir +:+ " is no longer the clone's git directory") (Some e))
  | None, None =>
      match ReclaimTree (AcEuid a) gitDir (RdTree r) with
      | (_, Some path) => Some (tampered ("the run left a file in " +:+ gitDir +:+ " that another path shares") (Some (path +:+ ": a file another path shares (hard link)")))
      | (_, None) => PlainErr <$> RdRead r
      end
  end.
Definition reclaim (dir : string) : Asks WkAsk (option ActError) :=
  match AcRunAs a with
  | None => mret None
  | Some _ =>
      _ ← (if AcRuns a then ask_for WkStrays else mret ());
      _ ← ask_for (WkReclaim dir);
      r ← answer (WeReclaimed env);
      mret (taken_back dir r)
  end.

(** [restoreGitConfig]: what was changed, or why it could not be put back. *)
Definition restore_error (dir : string) (e : RestoreError) : ActError :=
  match e with
  | GitDirGone => tampered (restore_text (dir +:+ "/.git") e) None
  | _ => PlainErr (restore_text (dir +:+ "/.git") e)
  end.
Definition restored (dir : string) (d : GitDir) : ActError + bool :=
  match restoreGitConfig d with (_, Some e) => inl (restore_error dir e) | (changed, None) => inr changed end.
Definition restoreConfig (dir : string) : Asks WkAsk (ActError + bool) :=
  e ← reclaim dir;
  match e with
  | Some e => mret (inl e)
  | None =>
      _ ← ask_for (WkRestore dir);
      d ← answer (WeGitDir env);
      mret (restored dir d)
  end.

(** *** PrepareWorkspace *)

Fixpoint resolve_ref (dir ref : string) (candidates : list string) : Asks WkAsk (ActError + string) :=
  match candidates with
  | [] => mret (inl (refused_for_good "UnknownRef" ("unknown ref " +:+ quote ref)))
  | c :: candidates =>
      x ← git dir ["rev-parse"; "--quiet"; "--verify"; "--end-of-options"; c +:+ "^{commit}"];
      match x with (None, out) => mret (inr (trim_space out)) | (Some _, _) => resolve_ref dir ref candidates end
  end.
Definition resolveRef (dir ref : string) : Asks WkAsk (ActError + string) := resolve_ref dir ref [ref; "origin/" +:+ ref].

Definition push_check_failed (repo branch e out : string) : ActError :=
  let out := trim_space out in
  let hint := if String.eqb (AcSSHKey a) "" && isSSHRemote repo
              then " (this worker has no git identity of its own: its operator sets one with CLAUDE_CODE_SSH_KEY)" else "" in
  AppErr ErrPushCheckFailed
    ("this worker may not push to " +:+ repo +:+ " (git push --dry-run, before the run): " +:+ e +:+ ": " +:+ Cut out 1024 +:+ hint +:+ "; nothing was run")
    (negb (pushRefused out)) None None.

Definition checkPush (dir repo base branch : string) : Asks WkAsk (option ActError) :=
  x ← gitEnv (sshEnv a) dir ["push"; "--dry-run"; "--"; repo; base +:+ ":refs/heads/" +:+ branch];
  match x with
  | (None, _) => mret None
  | (Some e, out) =>
      over ← answer (WeOver env);
      mret (Some (match over with
                  | Some cancelled => stepError "prepare workspace" (PlainErr (ctx_text cancelled))
                  | None =>
                      if WeTryOver env
                      then AppErr ErrPushCheckFailed
                             ("could not check that this worker may push to " +:+ repo +:+ ": git push --dry-run did not answer within " +:+
                              duration_string PushCheckTimeout +:+ "; nothing was run") true None None
                      else push_check_failed repo branch e out
                  end))
  end.

Definition runSkills (names : list string) : ActError + RunSkillSet :=
  match names with
  | [] => inr (mkSkillSet [] [] "")
  | _ =>
      let set := match AcSkills a with Some p => RunSkills names p | None => mkSkillSet [] names "" end in
      match CheckRunSkills (SetSkillsOf set) with
      | Some bad => inl (refused_for_good "InvalidInput" ("prepare workspace: the agent's skills cannot go with the run: " +:+ bad_skills_text bad))
      | None => inr set
      end
  end.

(** [writePlugin]: the output with what it wrote and did not find. *)
Definition writePlugin (dir : string) (set : RunSkillSet) (commit branch : string) : Asks WkAsk (ActError + PrepareWorkspaceOutput) :=
  let missing := not_found <$> SetMissing set in
  match SetSkillsOf set with
  | [] => mret (inr (mkPrepared dir commit branch [] missing ""))
  | skills =>
      let what := "prepare workspace: the run's skills" in
      match CheckRunSkills (UniqueSkills skills) with
      | Some bad => mret (inl (stepError what (PlainErr (bad_skills_text bad))))
      | None =>
          e ← file_op (WkPlugin (pluginDir dir) (UniqueSkills skills));
          mret (match e with
                | Some e => inl (stepError what (PlainErr e))
                | None => inr (mkPrepared dir commit branch (MachineMessage.SkName <$> UniqueSkills skills) missing (SetVersionOf set))
                end)
      end
  end.

(** The clone at its commit, and the branch a run starts on, its push tried. *)
Definition checkout (dir ref : string) : Asks WkAsk (option ActError) :=
  if String.eqb ref "" then mret None
  else
    x ← resolveRef dir ref;
    match x with
    | inl e => mret (Some e)
    | inr sha =>
        y ← git dir ["checkout"; "--quiet"; "--detach"; sha];
        mret (match y with (Some e, out) => Some (PlainErr ("checkout " +:+ ref +:+ ": " +:+ e +:+ ": " +:+ out)) | (None, _) => None end)
    end.

Definition start_branch (dir repo commit branch : string) : Asks WkAsk (option ActError) :=
  if String.eqb branch "" then mret None
  else
    x ← git dir ["checkout"; "--quiet"; "-b"; branch];
    match x with
    | (Some e, out) => mret (Some (PlainErr ("create branch " +:+ branch +:+ ": " +:+ e +:+ ": " +:+ out)))
    | (None, _) =>
        e ← checkPush dir repo commit branch;
        match e with
        | None => mret None
        | Some e => _ ← removeWorkspace dir; mret (Some e)
        end
    end.

Definition cloned (dir repo ref branch : string) : Asks WkAsk (ActError + string) :=
  x ← gitEnv (sshEnv a) "" ["clone"; "--quiet"; "--no-hardlinks"; "--"; repo; dir];
  match x with
  | (Some e, out) => mret (inl (PlainErr ("clone " +:+ repo +:+ ": " +:+ e +:+ ": " +:+ out)))
  | (None, _) =>
      e ← checkout dir ref;
      match e with
      | Some e => mret (inl e)
      | None =>
          y ← git dir ["rev-parse"; "HEAD"];
          match y with
          | (Some e, out) => mret (inl (PlainErr ("resolve HEAD: " +:+ e +:+ ": " +:+ out)))
          | (None, commit) =>
              e ← start_branch dir repo (trim_space commit) branch;
              mret (match e with Some e => inl e | None => inr (trim_space commit) end)
          end
      end
  end.

Definition plain_step (what : string) (e : option string) : option ActError := (λ e, stepError what (PlainErr e)) <$> e.

Definition PrepareWorkspace (i : PrepareWorkspaceInput) : Asks WkAsk (ActError + PrepareWorkspaceOutput) :=
  let what := "prepare workspace" in
  match rootPath (AcRoot a) (PwName i) with
  | inl e => mret (inl (PlainErr e))
  | inr dir =>
      match checkRepo a (PwRepo i) with
      | Some e => mret (inl (stepError what e))
      | None =>
          if has_prefix (PwRef i) "-" || has_prefix (PwBranch i) "-"
          then mret (inl (refused_for_good "InvalidInput" ("prepare workspace: invalid ref " +:+ quote (PwRef i) +:+ " or branch " +:+ quote (PwBranch i))))
          else
            e ← removeWorkspace dir;
            match plain_step what e, runSkills (PwSkills i) with
            | Some e, _ => mret (inl e)
            | None, inl e => mret (inl e)
            | None, inr skills =>
                e ← file_op (WkMake (AcRoot a));
                match plain_step what e with
                | Some e => mret (inl e)
                | None =>
                    c ← cloned dir (PwRepo i) (PwRef i) (PwBranch i);
                    match c with
                    | inl e => mret (inl e)
                    | inr commit =>
                        e ← file_ops ([WkKeepConfig dir; WkMake (outputsDir dir)] ++ (match AcRunAs a with Some _ => [WkGive dir; WkGive (outputsDir dir)] | None => [] end));
                        match plain_step what e with
                        | Some e => mret (inl e)
                        | None => writePlugin dir skills commit (PwBranch i)
                        end
                    end
                end
            end
      end
  end.

(** *** RunClaudeCode *)

(** The prompt and the directories a run is given. *)
Definition run_prompt (dir : string) (i : RunClaudeCodeInput) : string * list string * list string :=
  let prompt := RcPrompt i in
  let '(prompt, dirs) := if RcOutputs i then (trim_space (prompt +:+ nl +:+ OutputsPrompt (outputsDir dir)), [outputsDir dir]) else (prompt, []) in
  match RcSkills i with
  | [] => (prompt, dirs, [])
  | names => (trim_space (prompt +:+ nl +:+ SkillsPrompt names), dirs, [pluginDir dir])
  end.

Definition worker_params (i : RunClaudeCodeInput) (dir configDir : string) (shim : bool) : Params :=
  let '(prompt, dirs, plugins) := run_prompt dir i in
  mkCLIParams (RcDir i) (RcTask i) (AcModel a) (RcMode i) "" (RcAllowed i) (RcDenied i) [] prompt dirs [] true ["user"]
    (lowerCap (AcMaxBudget a) (RcBudget i)) plugins "" true
    (RunGitEnv ++ if shim then [WithPath (WeOwnPath env) (AcEnviron a) (GitShimDir dir)] else []) configDir.

Definition defaultRunner : Runner := mkRunner "" 0 0 0 None false "".
Definition worker_runner : Runner :=
  let r := default defaultRunner (AcRunner a) in
  mkRunner (RnBinary r) (RnMaxReport r) (RnHeartbeatEvery r) (RnStall r)
    ((λ id, (IdHome id, path_clean (IdHome id +:+ "/go"))) <$> AcRunAs a) (AcRuns a || RnCounted r) (AcAuth a).

(** [runner.Run]: its output, and its error, a stall's or another's. *)
Definition worker_cli (p : Params) (x : string + Ran) : RunOutput * option (bool * string) :=
  match run_refused worker_runner p, x with
  | Some why, _ | None, inl why => (noOutput, Some (false, why))
  | None, inr ran =>
      let '(o, e) := run_ended worker_runner ran in
      (o, (λ e, (match e with Stalled _ _ => true | _ => false end, error_of e)) <$> e)
  end.

Definition plugin_forbidden (line : string) : string :=
  "the CLI refused the run's skills: this worker's managed settings forbid --plugin-dir: " +:+ line.

Definition run_result (p : Params) (o : RunOutput) (err : option (bool * string)) : ActError + claudeCodeResult :=
  let res := OutResult o in
  let g := OutProgress o in
  if WeStopped env then inl (AppErr ErrWorkerStopping "claude code: the worker stopped during the run" false (snd <$> err) (Some g))
  else
    match err with
    | Some (stalled, e) =>
        let line := PluginRefusal o (Some e) in
        let cause := if negb (String.eqb line "") && negb (match PluginDirs p with [] => true | _ => false end) && (PgCalls g =? 0) then plugin_forbidden line else e in
        inl (if stalled : bool then AppErr ErrRunStalled "claude code: the run was ended as stuck" false (Some cause) (Some g)
             else AppErr ErrRunFailed "claude code: the run ended without the CLI's result" false (Some cause) (Some g))
    | None =>
        inr (mkCLI (RsReport res) (RsIsError res) (RsSubtype res) (RsTurns res) (RsDuration res) (RsCost res) (RsTools res)
               (Payer (AcAuth a) (RsKeySource res)).1 (RsCommands res))
    end.

(** The run once its configuration is its own. *)
Definition run_configured (i : RunClaudeCodeInput) (dir configDir : string) : Asks WkAsk (ActError + claudeCodeResult) :=
  e ← (if WeThere env then file_op (WkShim dir) else mret None);
  match e with
  | Some e => mret (inl (stepError "claude code: the run's git" (PlainErr e)))
  | None =>
      let p := worker_params i dir configDir (WeThere env) in
      _ ← ask_for (WkCLI dir p);
      x ← answer (WeCLI env);
      let '(o, err) := worker_cli p x in
      mret (run_result p o err)
  end.

Definition RunClaudeCode (i : RunClaudeCodeInput) : Asks WkAsk (ActError + claudeCodeResult) :=
  match CheckRunAs (AcEuid a) (AcRunAs a) with
  | Some e => mret (inl (refused_for_good "RunAsRoot" ("claude code: " +:+ e)))
  | None =>
      match workspaceDir a (RcDir i) with
      | inl e => mret (inl (stepError "claude code" e))
      | inr dir =>
          if OwnConfig (AcConfigDir a) (AcRunAs a) then
            e ← file_op (WkSeed (cliConfigDir dir));
            match e with
            | Some e => mret (inl (stepError "claude code: configuration" (PlainErr e)))
            | None =>
                r ← run_configured i dir (cliConfigDir dir);
                _ ← ask_for (WkKeepLogin (cliConfigDir dir));
                mret r
            end
          else run_configured i dir ""
      end
  end.

(** *** PublishOutputs *)

Definition upload_error (l : list (string * string)) : option string := match WeUpload env l with inl e => Some e | inr _ => None end.
Definition uploaded (ups : list (string * string)) : list FileRef :=
  omap (λ n, match WeUpload env (take (S n) ups) with inr f => Some f | inl _ => None end) (seq 0 (length ups)).

Definition reserved_names (branch : string) : list string := if String.eqb branch "" then [] else [BundleName branch].

Definition PublishOutputs (dir branch : string) (c : CallContext) : Asks WkAsk (ActError + (list FileRef * list string)) :=
  let what := "publish outputs" in
  match workspaceDir a dir with
  | inl e => mret (inl (stepError what e))
  | inr dir =>
      e ← awaitRunEnd dir;
      match e with
      | Some e => mret (inl (stepError what e))
      | None =>
          let '(ups, told) := outputs_Publish (WeOutputsOver env) upload_error (MaxFileBytes (AcPublisher a)) (reserved_names branch)
                                (WeOutputsEnded env) (negb (is_none (AcPublisher a))) (WeOutputs env) [] in
          _ ← ask_for (WkOutputs c ups);
          mret (inr (uploaded ups, told))
      end
  end.

(** *** InspectWorkspace *)

Definition worker_commits (out : string) : list CommitInfo :=
  omap (λ line, let '(sha, subject, found) := cut_byte " " (trim_space line) in if negb found && String.eqb sha "" then None else Some (mkCommit sha subject))
    (split_byte (byte 10) (trim_space out)).

Definition inspect_git (dir base : string) (changed : bool) : Asks WkAsk (ActError + InspectWorkspaceOutput) :=
  x ← git dir ["rev-parse"; "--abbrev-ref"; "HEAD"];
  match x with
  | (Some e, branch) => mret (inl (PlainErr ("read current branch: " +:+ e +:+ ": " +:+ branch)))
  | (None, branch) =>
      y ← git dir ["status"; "--porcelain"; "--ignore-submodules=all"];
      match y with
      | (Some e, status) => mret (inl (PlainErr ("read status: " +:+ e +:+ ": " +:+ status)))
      | (None, status) =>
          z ← git dir ["log"; "--format=%H %s"; base +:+ "..HEAD"];
          mret (match z with
                | (Some e, log) => inl (PlainErr ("list commits since " +:+ base +:+ ": " +:+ e +:+ ": " +:+ log))
                | (None, log) => inr (mkInspected changed (worker_commits log) (trim_space branch) (negb (String.eqb (trim_space status) "")))
                end)
      end
  end.

Definition InspectWorkspace (dir base : string) : Asks WkAsk (ActError + InspectWorkspaceOutput) :=
  let what := "inspect workspace" in
  if String.eqb dir "" || String.eqb base "" then mret (inl (PlainErr "inspect workspace: dir and base are required"))
  else
    match workspaceDir a dir with
    | inl e => mret (inl (stepError what e))
    | inr want =>
        e ← awaitRunEnd want;
        match e with
        | Some e => mret (inl (stepError what e))
        | None =>
            r ← restoreConfig dir;
            match r with inl e => mret (inl (stepError what e)) | inr changed => inspect_git dir base changed end
        end
    end.

(** *** PushBranch *)

Definition PushBranch (dir remote branch commit : string) : Asks WkAsk (option ActError) :=
  if String.eqb dir "" || String.eqb remote "" || String.eqb branch "" || String.eqb commit ""
  then mret (Some (refused_for_good "InvalidInput" "push: dir, remote, branch and commit are required"))
  else
    match checkRepo a remote with
    | Some e => mret (Some (stepError "push" e))
    | None =>
        if has_prefix branch "-" then mret (Some (refused_for_good "InvalidInput" ("push: invalid branch " +:+ quote branch)))
        else if negb (isFullSHA commit) then mret (Some (refused_for_good "InvalidInput" ("push: " +:+ quote commit +:+ " is not a full commit SHA")))
        else
          match workspaceDir a dir with
          | inl e => mret (Some (stepError "push" e))
          | inr want =>
              e ← awaitRunEnd want;
              match e with
              | Some e => mret (Some (stepError "push" e))
              | None =>
                  r ← restoreConfig dir;
                  match r with
                  | inl e => mret (Some (stepError "push" e))
                  | inr true => mret (Some (tampered "push: the clone's git configuration changed since the inspection" None))
                  | inr false =>
                      x ← gitEnv (sshEnv a) dir ["push"; "--"; remote; commit +:+ ":refs/heads/" +:+ branch];
                      mret (match x with
                            | (None, _) => None
                            | (Some e, out) =>
                                Some (AppErr ErrPushFailed ("git push of " +:+ branch +:+ " to " +:+ remote +:+ ": " +:+ e +:+ ": " +:+ Cut (trim_space out) 2048) true None None)
                            end)
                  end
              end
          end
    end.

(** *** BundleBranch *)

Definition publish_bundle (c : CallContext) (name content : string) : Asks WkAsk (ActError + FileRef) :=
  _ ← ask_for (WkPublish c name content);
  up ← answer (WePublish env);
  mret (match up with
        | inr f => inr f
        | inl (taken, e) =>
            match (if taken : bool then WeStored env else None) with
            | Some stored => inr stored
            | None => inl (stepError "bundle: publish" (PlainErr e))
            end
        end).

Definition make_bundle (dir base branch commit : string) (c : CallContext) : Asks WkAsk (ActError + FileRef) :=
  let path := bundlePath dir in
  e ← file_op (WkRemove path);
  match plain_step "bundle" e with
  | Some e => mret (inl e)
  | None =>
      failed ← WriteBundle (git dir) branch base commit path;
      match failed with
      | Some e =>
          over ← answer (WeOver env);
          mret (inl (match over with Some cancelled => stepError "bundle" (PlainErr (ctx_text cancelled)) | None => refused_for_good ErrBundleFailed e end))
      | None =>
          _ ← ask_for (WkReadBundle path);
          match ReadBundle (MaxFileBytes (AcPublisher a)) (WeBundle env) with
          | inl e => mret (inl (refused_for_good ErrBundleFailed e))
          | inr content => publish_bundle c (BundleName branch) content
          end
      end
  end.

Definition BundleBranch (dir base branch commit : string) (c : CallContext) : Asks WkAsk (ActError + FileRef) :=
  if negb (isFullSHA base) || negb (isFullSHA commit) || String.eqb branch "" || has_prefix branch "-"
  then mret (inl (refused_for_good "InvalidInput" "bundle: a full base and commit SHA and a branch are required"))
  else
    match workspaceDir a dir with
    | inl e => mret (inl (stepError "bundle" e))
    | inr dir =>
        if is_none (AcPublisher a) then mret (inl (refused_for_good ErrBundleFailed "this worker publishes no file"))
        else
          e ← awaitRunEnd dir;
          match e with
          | Some e => mret (inl (stepError "bundle" e))
          | None =>
              r ← restoreConfig dir;
              match r with
              | inl e => mret (inl (stepError "bundle" e))
              | inr true => mret (inl (tampered "the clone's git configuration changed since the inspection" None))
              | inr false => make_bundle dir base branch commit c
              end
          end
    end.

(** *** CleanupWorkspace *)

Definition CleanupWorkspace (dir : string) : Asks WkAsk (option ActError) :=
  if String.eqb dir "" then mret None
  else
    match rootPath (AcRoot a) (file_base dir) with
    | inl e => mret (Some (PlainErr e))
    | inr want =>
        if negb (String.eqb (path_clean dir) want)
        then mret (Some (PlainErr ("cleanup: refusing to delete " +:+ quote dir +:+ ", which is not a workspace under " +:+ quote (AcRoot a))))
        else
          e ← awaitRunEnd want;
          match e with
          | Some e => mret (Some (stepError "cleanup" e))
          | None => e ← removeWorkspace want; mret (PlainErr <$> e)
          end
    end.
End Steps.

(** ** What a step may do with git *)

Definition no_git (q : WkAsk) : Prop := match q with WkGit _ _ _ => False | _ => True end.
(** git in the clone alone: no identity, no remote. *)
Definition local_git (dir : string) (q : WkAsk) : Prop :=
  match q with WkGit extra d args => extra = [] ∧ d = dir ∧ head args ≠ Some "clone" ∧ head args ≠ Some "push" | _ => True end.
Definition dry_run (base branch repo : string) : list string := ["push"; "--dry-run"; "--"; repo; base +:+ ":refs/heads/" +:+ branch].
Definition real_push (commit branch remote : string) : list string := ["push"; "--"; remote; commit +:+ ":refs/heads/" +:+ branch].

Section Guarded.
Context {GQ : GoQuote} {GT : GoText} {SJ : StreamJSON}.
Implicit Types (a : ClaudeCodeActivities) (env : WorkerEnv) (tr : list WkAsk).

(** Before a step's git in a clone that a run had: its CLI is gone, the clone is
    the worker's again, and its configuration is the one kept before the run. *)
Definition entered a env (dir clone : string) (changed : bool) (l : list WkAsk) : Prop :=
  ∃ mid, l = WkAwait dir :: mid ++ [WkRestore clone] ∧ Forall no_git mid ∧ WeIdle env [WkAwait dir] = true ∧
    restoreGitConfig (WeGitDir env l) = (changed, None) ∧
    (AcRunAs a ≠ None →
      ∃ t, ReclaimTree (AcEuid a) (clone +:+ "/.git") (RdTree (WeReclaimed env (WkAwait dir :: mid))) = (t, None) ∧ owned (AcEuid a) t).

(** No git at all, or git once entered, in a workspace of the worker's. *)
Definition git_after a env (dir : string) (may : string → bool → list WkAsk → Prop) tr : Prop :=
  Forall no_git tr ∨
  ∃ want clone pre post changed, workspaceDir a dir = inr want ∧ (clone = dir ∨ clone = want) ∧ entered a env want clone changed pre ∧
    tr = pre ++ post ∧ may clone changed post.

Lemma await_run a env dir tr :
  ∃ e, awaitRunEnd a env dir tr = (tr ++ [WkAwait dir], e) ∧ (e = None → WeIdle env (tr ++ [WkAwait dir]) = true).
Proof.
  unfold awaitRunEnd. rewrite bind_run, ask_run, bind_run. unfold answer at 1. destruct (WeIdle env _) eqn:E; [by eexists|].
  rewrite bind_run. unfold answer. eexists. rewrite ret_run. split; [done|]. done.
Qed.

Lemma taken_back_owned a dir r :
  taken_back a dir r = None → ∃ t, ReclaimTree (AcEuid a) (dir +:+ "/.git") (RdTree r) = (t, None) ∧ owned (AcEuid a) t.
Proof.
  unfold taken_back. destruct (RdDir r); [done|]. destruct (RdGit r); [done|]. destruct (ReclaimTree _ _ _) as [t [p|]] eqn:E; [done|]. intros _. exists t. split; [done|by eapply reclaimed_owned].
Qed.

Lemma reclaim_run a env dir tr :
  ∃ l e, reclaim a env dir tr = (tr ++ l, e) ∧ Forall no_git l ∧
    (e = None → AcRunAs a ≠ None → ∃ t, ReclaimTree (AcEuid a) (dir +:+ "/.git") (RdTree (WeReclaimed env (tr ++ l))) = (t, None) ∧ owned (AcEuid a) t).
Proof.
  unfold reclaim. destruct (AcRunAs a) as [id|]; [|exists [], None; rewrite app_nil_r; split_and!; [done|constructor|done]]. rewrite bind_run.
  assert (Hs : ∃ l, (if AcRuns a then ask_for WkStrays else mret ()) tr = (tr ++ l, ()) ∧ Forall no_git l).
  { destruct (AcRuns a); [exists [WkStrays]; by split; [|repeat constructor]|exists []; rewrite app_nil_r; by split]. }
  destruct Hs as (l & -> & Hl). rewrite bind_run, ask_run, bind_run. unfold answer. rewrite ret_run, <- app_assoc.
  exists (l ++ [WkReclaim dir]), (taken_back a dir (WeReclaimed env (tr ++ l ++ [WkReclaim dir]))). split_and!; [done|by apply Forall_app; split; [|repeat constructor]|].
  intros He _. by apply taken_back_owned.
Qed.

Lemma restore_run a env dir tr :
  ∃ l x, restoreConfig a env dir tr = (tr ++ l, x) ∧ Forall no_git l ∧
    ∀ changed, x = inr changed →
      ∃ mid, l = mid ++ [WkRestore dir] ∧ restoreGitConfig (WeGitDir env (tr ++ l)) = (changed, None) ∧
        (AcRunAs a ≠ None → ∃ t, ReclaimTree (AcEuid a) (dir +:+ "/.git") (RdTree (WeReclaimed env (tr ++ mid))) = (t, None) ∧ owned (AcEuid a) t).
Proof.
  unfold restoreConfig. rewrite bind_run. destruct (reclaim_run a env dir tr) as (l & e & -> & Hl & He). destruct e as [e|].
  { exists l, (inl e). by rewrite ret_run. }
  rewrite bind_run, ask_run, bind_run. unfold answer. rewrite ret_run, <- app_assoc. exists (l ++ [WkRestore dir]). eexists. split; [reflexivity|].
  split; [by apply Forall_app; split; [|repeat constructor]|]. intros changed Hc. exists l. split_and!; [done| |by apply He].
  unfold restored in Hc. destruct (restoreGitConfig _) as [c [e|]]; [done|]. by injection Hc as ->.
Qed.

(** The beginning of a step in a run's clone. *)
Definition enter {A} a env (dir clone : string) (stop : ActError → A) (k : bool → Asks WkAsk A) : Asks WkAsk A :=
  e ← awaitRunEnd a env dir;
  match e with
  | Some e => mret (stop e)
  | None => r ← restoreConfig a env clone; match r with inl e => mret (stop e) | inr changed => k changed end
  end.

Lemma enter_run {A} a env dir clone (stop : ActError → A) (k : bool → Asks WkAsk A) :
  (∃ tr e, enter a env dir clone stop k [] = (tr, stop e) ∧ Forall no_git tr) ∨
  (∃ pre changed, entered a env dir clone changed pre ∧ enter a env dir clone stop k [] = k changed pre).
Proof.
  unfold enter. rewrite bind_run. destruct (await_run a env dir []) as (e & -> & He). cbn [app] in *. destruct e as [e|]; [left; exists [WkAwait dir], e; by split; [|repeat constructor]|].
  rewrite bind_run. destruct (restore_run a env clone [WkAwait dir]) as (l & x & -> & Hl & Hx). destruct x as [e|changed].
  - left. exists (WkAwait dir :: l), e. split; [done|]. by constructor.
  - right. destruct (Hx changed eq_refl) as (mid & -> & Hr & Ht). exists (WkAwait dir :: mid ++ [WkRestore clone]), changed. split; [|done]. exists mid.
    apply Forall_app in Hl as [Hl _]. split_and!; try done. by apply He.
Qed.

(** The steps that only look. *)
Lemma inspect_local env dir base changed : asks_only (local_git dir) (inspect_git env dir base changed).
Proof. unfold inspect_git, git, gitEnv. only_steps; by split_and!. Qed.

Lemma file_op_only (P : WkAsk → Prop) env q : P q → asks_only P (file_op env q).
Proof. intros H. unfold file_op. by only_steps. Qed.
Lemma file_ops_only (P : WkAsk → Prop) env l : Forall P l → asks_only P (file_ops env l).
Proof. induction 1 as [|q l Hq Hl IH]; cbn [file_ops]; [apply only_ret|]. apply only_bind; [by apply file_op_only|]. intros [e|]; [apply only_ret|done]. Qed.
Lemma remove_only (P : WkAsk → Prop) env dir : (∀ p, P (WkRemove p)) → asks_only P (removeWorkspace env dir).
Proof. intros H. apply file_ops_only, Forall_forall. intros q (p & -> & _)%list_elem_of_fmap. apply H. Qed.
Lemma ask_git_only (P : WkAsk → Prop) env extra dir args : P (WkGit extra dir args) → asks_only P (gitEnv env extra dir args).
Proof. intros H. unfold gitEnv. by only_steps. Qed.

Lemma bundle_local a env dir base branch commit c : asks_only (local_git dir) (make_bundle a env dir base branch commit c).
Proof.
  unfold make_bundle. apply only_bind; [by apply file_op_only|]. intros e. destruct (plain_step _ e); [apply only_ret|].
  apply only_bind.
  - unfold WriteBundle. cbn [git_all]. repeat (apply only_bind; [by apply ask_git_only; split_and!|]; intros [[?|] ?]; [apply only_ret|]). apply only_ret.
  - intros [e0|]; [by only_steps|]. unfold publish_bundle. by only_steps.
Qed.

(** *** Preparing *)

Definition prepares a (i : PrepareWorkspaceInput) (dir : string) (q : WkAsk) : Prop :=
  local_git dir q ∨ q = WkGit (sshEnv a) "" ["clone"; "--quiet"; "--no-hardlinks"; "--"; PwRepo i; dir] ∨
  ∃ base, q = WkGit (sshEnv a) dir (dry_run base (PwBranch i) (PwRepo i)).

Lemma resolve_prepares a env i dir ref l : asks_only (prepares a i dir) (resolve_ref env dir ref l).
Proof.
  induction l as [|c l IH]; cbn [resolve_ref]; [apply only_ret|]. apply only_bind; [by apply ask_git_only; left; split_and!|]. intros [[e|] out]; [done|apply only_ret].
Qed.

Lemma checkout_prepares a env i dir ref : asks_only (prepares a i dir) (checkout env dir ref).
Proof.
  unfold checkout. destruct (String.eqb ref ""); [apply only_ret|]. apply only_bind; [apply resolve_prepares|]. intros [e|sha]; [apply only_ret|].
  apply only_bind; [by apply ask_git_only; left; split_and!|]. intros [[e|] out]; apply only_ret.
Qed.

Lemma checkPush_prepares a env i dir base : asks_only (prepares a i dir) (checkPush a env dir (PwRepo i) base (PwBranch i)).
Proof.
  unfold checkPush. apply only_bind; [apply ask_git_only; right; right; by exists base|]. intros [[e|] out]; [|apply only_ret]. apply only_bind; [apply only_answer|]. intros over. apply only_ret.
Qed.

(** The push of the branch was tried, and answered. *)
Definition push_tried a env (dir commit branch repo : string) tr : Prop :=
  ∃ l1 l2, tr = l1 ++ WkGit (sshEnv a) dir (dry_run commit branch repo) :: l2 ∧ (WeGit env (l1 ++ [WkGit (sshEnv a) dir (dry_run commit branch repo)])).1 = None.

Lemma start_branch_tried a env dir repo commit branch tr :
  let '(tr', e) := start_branch a env dir repo commit branch tr in e = None → branch ≠ "" → push_tried a env dir commit branch repo tr'.
Proof.
  unfold start_branch. destruct (String.eqb_spec branch ""); [by rewrite ret_run|]. rewrite bind_run. unfold git, gitEnv at 1. rewrite bind_run, ask_run. unfold answer at 1.
  destruct (WeGit env _) as [[e|] out]; [by rewrite ret_run|]. rewrite bind_run. unfold checkPush, gitEnv. rewrite !bind_run, ask_run. unfold answer at 1.
  set (tr1 := tr ++ _). destruct (WeGit env (tr1 ++ _)) as [[e|] out'] eqn:E.
  - rewrite bind_run. unfold answer. rewrite ret_run. cbn [fst snd]. rewrite bind_run. destruct (removeWorkspace env dir _) as [tr2 x]. by rewrite ret_run.
  - rewrite !ret_run. intros _ _. exists tr1, []. split; [done|]. unfold dry_run. by rewrite E.
Qed.

Lemma start_branch_prepares a env i dir commit : asks_only (prepares a i dir) (start_branch a env dir (PwRepo i) commit (PwBranch i)).
Proof.
  unfold start_branch. destruct (String.eqb _ ""); [apply only_ret|]. apply only_bind; [by apply ask_git_only; left; split_and!|]. intros [[e|] out]; [apply only_ret|].
  apply only_bind; [apply checkPush_prepares|]. intros [e|]; [|apply only_ret]. apply only_bind; [apply remove_only; by left|]. intros x. apply only_ret.
Qed.

Lemma cloned_prepares a env i dir : asks_only (prepares a i dir) (cloned a env dir (PwRepo i) (PwRef i) (PwBranch i)).
Proof.
  unfold cloned. apply only_bind; [apply ask_git_only; right; by left|]. intros [[e|] out]; [apply only_ret|]. apply only_bind; [apply checkout_prepares|]. intros [e|]; [apply only_ret|].
  apply only_bind; [by apply ask_git_only; left; split_and!|]. intros [[e|] commit]; [apply only_ret|]. apply only_bind; [apply start_branch_prepares|]. intros [e|]; apply only_ret.
Qed.

Lemma cloned_tried a env dir repo ref branch tr :
  let '(tr', x) := cloned a env dir repo ref branch tr in ∀ commit, x = inr commit → branch ≠ "" → push_tried a env dir commit branch repo tr'.
Proof.
  unfold cloned. rewrite bind_run. destruct (gitEnv _ _ _ _ _) as [tr1 [[e|] out]]; [by rewrite ret_run|]. rewrite bind_run. destruct (checkout env dir ref tr1) as [tr2 [e|]]; [by rewrite ret_run|].
  rewrite bind_run. destruct (git env dir _ tr2) as [tr3 [[e|] c]]; [by rewrite ret_run|]. rewrite bind_run.
  pose proof (start_branch_tried a env dir repo (trim_space c) branch tr3) as Hs. destruct (start_branch _ _ _ _ _ _ _) as [tr4 [e|]]; rewrite ret_run; [done|].
  intros commit [= <-]. by apply Hs.
Qed.

Lemma push_tried_more a env dir commit branch repo tr l : push_tried a env dir commit branch repo tr → push_tried a env dir commit branch repo (tr ++ l).
Proof. intros (l1 & l2 & -> & H). exists l1, (l2 ++ l). by rewrite <- app_assoc. Qed.

Lemma prepares_files a i dir q : no_git q → prepares a i dir q.
Proof. intros H. left. by destruct q. Qed.

Lemma writePlugin_only a i env dir set commit branch : asks_only (prepares a i dir) (writePlugin env dir set commit branch).
Proof.
  unfold writePlugin. destruct (SetSkillsOf set); [apply only_ret|]. destruct (CheckRunSkills _); [apply only_ret|]. apply only_bind; [by apply file_op_only, prepares_files|]. intros x. apply only_ret.
Qed.

Lemma writePlugin_out env dir set commit branch tr tr' out :
  writePlugin env dir set commit branch tr = (tr', inr out) → PrDir out = dir ∧ PrCommit out = commit.
Proof.
  unfold writePlugin. destruct (SetSkillsOf set); [rewrite ret_run; by intros [= _ <-]|]. destruct (CheckRunSkills _); [by rewrite ret_run|]. rewrite bind_run.
  destruct (file_op env _ tr) as [tr1 [e|]]; rewrite ret_run; [done|]. by intros [= _ <-].
Qed.

(** A preparation either asks git nothing, or has its repository allowed. *)
Lemma prepare_only a env i dir :
  rootPath (AcRoot a) (PwName i) = inr dir → asks_only (prepares a i dir) (PrepareWorkspace a env i).
Proof.
  intros Hr. unfold PrepareWorkspace. rewrite Hr. destruct (checkRepo a (PwRepo i)); [apply only_ret|]. destruct (_ || _); [apply only_ret|].
  apply only_bind; [apply remove_only; by intros p; apply prepares_files|]. intros e. destruct (plain_step _ e); [apply only_ret|]. destruct (runSkills a _) as [e'|set]; [apply only_ret|].
  apply only_bind; [by apply file_op_only, prepares_files|]. intros e'. destruct (plain_step _ e'); [apply only_ret|]. apply only_bind; [apply cloned_prepares|]. intros [x|commit]; [apply only_ret|].
  apply only_bind; [apply file_ops_only; destruct (AcRunAs a); repeat constructor; by apply prepares_files|]. intros x. destruct (plain_step _ x); [apply only_ret|apply writePlugin_only].
Qed.

Lemma prepare_spec a env i :
  let '(tr, r) := PrepareWorkspace a env i [] in
  (Forall no_git tr ∨ (checkRepo a (PwRepo i) = None ∧ ∃ dir, rootPath (AcRoot a) (PwName i) = inr dir ∧ Forall (prepares a i dir) tr)) ∧
  (∀ out, r = inr out → PwBranch i ≠ "" → push_tried a env (PrDir out) (PrCommit out) (PwBranch i) (PwRepo i) tr).
Proof.
  destruct (rootPath (AcRoot a) (PwName i)) as [e|dir] eqn:Er.
  { unfold PrepareWorkspace. rewrite Er, ret_run. split; [left; constructor|done]. }
  pose proof (prepare_only a env i dir Er []) as (l & Hl & Hp). destruct (PrepareWorkspace a env i []) as [tr r] eqn:E. cbn [fst app] in Hl. subst l.
  unfold PrepareWorkspace in E. rewrite Er in E. destruct (checkRepo a (PwRepo i)) eqn:Ec; [rewrite ret_run in E; injection E as <- <-; split; [left; constructor|done]|].
  split; [right; split; [done|by exists dir]|]. intros out -> Hb. destruct (_ || _); [by rewrite ret_run in E|].
  rewrite bind_run in E. destruct (removeWorkspace env dir []) as [tr1 e]. destruct (plain_step _ e); [by rewrite ret_run in E|]. destruct (runSkills a _) as [e'|set]; [by rewrite ret_run in E|].
  rewrite bind_run in E. destruct (file_op env _ tr1) as [tr2 e']. destruct (plain_step _ e'); [by rewrite ret_run in E|]. rewrite bind_run in E.
  pose proof (cloned_tried a env dir (PwRepo i) (PwRef i) (PwBranch i) tr2) as Ht. destruct (cloned _ _ _ _ _ _ tr2) as [tr3 [x|commit]]; [by rewrite ret_run in E|].
  specialize (Ht commit eq_refl Hb). rewrite bind_run in E. set (ops := _ ++ _) in E.
  assert (Hops : asks_only (prepares a i dir) (file_ops env ops)) by (apply file_ops_only; unfold ops; destruct (AcRunAs a); repeat constructor; by apply prepares_files).
  destruct (Hops tr3) as (l4 & Hl4 & _). destruct (file_ops env ops tr3) as [tr4 x]. cbn [fst] in Hl4. subst tr4. destruct (plain_step _ x); [by rewrite ret_run in E|].
  destruct (writePlugin_only a i env dir set commit (PwBranch i) (tr3 ++ l4)) as (l5 & Hl5 & _). rewrite E in Hl5. cbn [fst] in Hl5. subst tr.
  destruct (writePlugin_out _ _ _ _ _ _ _ _ E) as [-> ->]. by do 2 apply push_tried_more.
Qed.

(** *** The steps after a run *)

Lemma inspect_guarded a env dir base :
  git_after a env dir (λ clone _ post, clone = dir ∧ Forall (local_git dir) post) (InspectWorkspace a env dir base []).1.
Proof.
  unfold InspectWorkspace. destruct (_ || _); [left; constructor|]. destruct (workspaceDir a dir) as [e|want] eqn:Ew; [left; constructor|].
  change (git_after a env dir (λ clone _ post, clone = dir ∧ Forall (local_git dir) post)
    (enter a env want dir (λ e, inl (stepError "inspect workspace" e)) (λ changed, inspect_git env dir base changed) []).1).
  destruct (enter_run a env want dir (λ e, inl (stepError "inspect workspace" e)) (λ changed, inspect_git env dir base changed)) as [(tr & e & -> & H)|(pre & changed & He & ->)]; [by left|].
  destruct (inspect_local env dir base changed pre) as (l & -> & Hl). right. exists want, dir, pre, l, changed. split_and!; try done. by left.
Qed.

Lemma bundle_guarded a env dir base branch commit c :
  git_after a env dir (λ clone changed post, changed = false ∧ Forall (local_git clone) post) (BundleBranch a env dir base branch commit c []).1.
Proof.
  unfold BundleBranch. destruct (_ || _); [left; constructor|]. destruct (workspaceDir a dir) as [e|want] eqn:Ew; [left; constructor|].
  destruct (is_none (AcPublisher a)); [left; constructor|].
  set (k := λ changed : bool, if changed then mret (inl (tampered "the clone's git configuration changed since the inspection" None)) else make_bundle a env want base branch commit c).
  change (git_after a env dir (λ clone changed post, changed = false ∧ Forall (local_git clone) post) (enter a env want want (λ e, inl (stepError "bundle" e)) k []).1).
  destruct (enter_run a env want want (λ e, inl (stepError "bundle" e)) k) as [(tr & e & -> & H)|(pre & changed & He & ->)]; [by left|].
  destruct changed; unfold k.
  - left. cbn [fst]. destruct He as (mid & -> & Hm & _). rewrite ret_run. cbn [fst]. constructor; [done|]. apply Forall_app. split; [done|by repeat constructor].
  - destruct (bundle_local a env want base branch commit c pre) as (l & -> & Hl). right. exists want, want, pre, l, false. split_and!; try done. by right.
Qed.

Lemma push_guarded a env dir remote branch commit :
  let '(tr, r) := PushBranch a env dir remote branch commit [] in
  let push := WkGit (sshEnv a) dir (real_push commit branch remote) in
  git_after a env dir (λ clone changed post, clone = dir ∧ changed = false ∧ checkRepo a remote = None ∧ isFullSHA commit = true ∧ post = [push]) tr ∧
  (r = None → ∃ pre, tr = pre ++ [push] ∧ (WeGit env tr).1 = None).
Proof.
  unfold PushBranch. destruct (_ || _); [split; [left; constructor|done]|]. destruct (checkRepo a remote) eqn:Er; [split; [left; constructor|done]|].
  destruct (has_prefix branch "-"); [split; [left; constructor|done]|]. destruct (isFullSHA commit) eqn:Es; [|split; [left; constructor|done]]. cbn [negb].
  destruct (workspaceDir a dir) as [e|want] eqn:Ew; [split; [left; constructor|done]|].
  set (k := λ changed : bool, if changed then mret (Some (tampered "push: the clone's git configuration changed since the inspection" None)) else
     x ← gitEnv env (sshEnv a) dir (real_push commit branch remote);
     mret (match x with (None, _) => None | (Some e, out) =>
       Some (AppErr ErrPushFailed ("git push of " +:+ branch +:+ " to " +:+ remote +:+ ": " +:+ e +:+ ": " +:+ Cut (trim_space out) 2048) true None None) end)).
  change (let '(tr, r) := enter a env want dir (λ e, Some (stepError "push" e)) k [] in
    let push := WkGit (sshEnv a) dir (real_push commit branch remote) in
    git_after a env dir (λ clone changed post, clone = dir ∧ changed = false ∧ None = (None : option ActError) ∧ true = true ∧ post = [push]) tr ∧
    (r = None → ∃ pre, tr = pre ++ [push] ∧ (WeGit env tr).1 = None)).
  destruct (enter_run a env want dir (λ e, Some (stepError "push" e)) k) as [(tr & e & -> & H)|(pre & changed & He & ->)]; [split; [by left|done]|].
  destruct changed; unfold k.
  - rewrite ret_run. split; [left|done]. destruct He as (mid & -> & Hm & _). constructor; [done|]. apply Forall_app. split; [done|by repeat constructor].
  - unfold gitEnv. rewrite !bind_run, ask_run. unfold answer. rewrite ret_run. set (push := WkGit _ _ _). split.
    + right. exists want, dir, pre, [push], false. split_and!; try done. by left.
    + intros Hr. exists pre. split; [done|]. by destruct (WeGit env (pre ++ [push])) as [[e|] out].
Qed.

(** The other steps ask git nothing. *)
Lemma run_no_git a env i : asks_only no_git (RunClaudeCode a env i).
Proof.
  assert (Hc : ∀ dir configDir, asks_only no_git (run_configured a env i dir configDir)).
  { intros dir configDir. unfold run_configured. apply only_bind; [destruct (WeThere env); [by apply file_op_only|apply only_ret]|]. intros [e|]; [apply only_ret|].
    apply only_bind; [by apply only_ask|]. intros _. apply only_bind; [apply only_answer|]. intros x. destruct (worker_cli _ _ _). apply only_ret. }
  unfold RunClaudeCode. destruct (CheckRunAs _ _); [apply only_ret|]. destruct (workspaceDir a _); [apply only_ret|]. destruct (OwnConfig _ _); [|apply Hc].
  apply only_bind; [by apply file_op_only|]. intros [e|]; [apply only_ret|]. apply only_bind; [apply Hc|]. intros r. apply only_bind; [by apply only_ask|]. intros _. apply only_ret.
Qed.

Lemma await_only a env dir : asks_only no_git (awaitRunEnd a env dir).
Proof. intros tr. destruct (await_run a env dir tr) as (e & -> & _). exists [WkAwait dir]. by split; [|repeat constructor]. Qed.

Lemma publish_no_git a env dir branch c : asks_only no_git (PublishOutputs a env dir branch c).
Proof.
  unfold PublishOutputs. destruct (workspaceDir a dir); [apply only_ret|]. apply only_bind; [apply await_only|]. intros [e|]; [apply only_ret|].
  destruct (outputs_Publish _ _ _ _ _ _ _ _). apply only_bind; [by apply only_ask|]. intros _. apply only_ret.
Qed.

Lemma cleanup_no_git a env dir : asks_only no_git (CleanupWorkspace a env dir).
Proof.
  unfold CleanupWorkspace. destruct (String.eqb dir ""); [apply only_ret|]. destruct (rootPath _ _); [apply only_ret|]. destruct (negb _); [apply only_ret|].
  apply only_bind; [apply await_only|]. intros [e|]; [apply only_ret|]. apply only_bind; [by apply remove_only|]. intros x. apply only_ret.
Qed.

Lemma only_first {A} (P : WkAsk → Prop) (m : Asks WkAsk A) : asks_only P m → Forall P (m []).1.
Proof. intros H. by destruct (H []) as (l & -> & Hl). Qed.

(** C13. What a worker's identity reaches, and when its git reads a run's clone.
    Whatever the inputs and the answers: preparing clones, and tries the push of,
    a repository the operator allows, and of no other; a workspace it gives for
    a branch had the push of that branch at its commit accepted; and it
    publishes nothing. After a run, git is asked something in its clone only once
    its CLI is gone, once all of .git is the worker's again (of a run
    made as another user) and once the configuration is the one kept before
    it; the inspection and the bundle ask there, without the identity, for
    nothing remote; the push, of a configuration found unchanged, asks for
    one thing, the branch at the full commit it was given, to an allowed
    repository, and says it is done only when git does. Running, publishing
    the outputs and cleaning up ask git nothing. *)
Theorem worker_git_guarded a env :
  (∀ i, let '(tr, r) := PrepareWorkspace a env i [] in
     (Forall no_git tr ∨ (checkRepo a (PwRepo i) = None ∧ ∃ dir, rootPath (AcRoot a) (PwName i) = inr dir ∧ Forall (prepares a i dir) tr)) ∧
     (∀ out, r = inr out → PwBranch i ≠ "" → push_tried a env (PrDir out) (PrCommit out) (PwBranch i) (PwRepo i) tr)) ∧
  (∀ i dir branch c, Forall no_git (RunClaudeCode a env i []).1 ∧ Forall no_git (PublishOutputs a env dir branch c []).1 ∧ Forall no_git (CleanupWorkspace a env dir []).1) ∧
  (∀ dir base, git_after a env dir (λ clone _ post, clone = dir ∧ Forall (local_git dir) post) (InspectWorkspace a env dir base []).1) ∧
  (∀ dir base branch commit c, git_after a env dir (λ clone changed post, changed = false ∧ Forall (local_git clone) post) (BundleBranch a env dir base branch commit c []).1) ∧
  (∀ dir remote branch commit, let '(tr, r) := PushBranch a env dir remote branch commit [] in
     let push := WkGit (sshEnv a) dir (real_push commit branch remote) in
     git_after a env dir (λ clone changed post, clone = dir ∧ changed = false ∧ checkRepo a remote = None ∧ isFullSHA commit = true ∧ post = [push]) tr ∧
     (r = None → ∃ pre, tr = pre ++ [push] ∧ (WeGit env tr).1 = None)).
Proof.
  split_and!.
  - apply prepare_spec.
  - intros i dir branch c. split_and!; apply only_first; [apply run_no_git|apply publish_no_git|apply cleanup_no_git].
  - apply inspect_guarded.
  - intros dir base branch commit c. apply bundle_guarded.
  - intros dir remote branch commit. apply push_guarded.
Qed.
End Guarded.

(** ** A whole implementation, its steps made on a worker

    The steps that the workflow asks for (CodingRun.v), each made as often as its
    retries have it, one after the other on the same machine. *)

Section Whole.
Context {GQ : GoQuote} {GT : GoText} {SJ : StreamJSON} {GF : GoFloat} {RD : RunDetails} {CJ : CodingJSON}.
Variables (a : ClaudeCodeActivities) (env : WorkerEnv).

Definition unit_of {A} (m : Asks WkAsk A) : Asks WkAsk unit := _ ← m; mret ().
Definition act (s : step) : Asks WkAsk unit :=
  match s with
  | CodingRun.PrepareWorkspace i => unit_of (PrepareWorkspace a env i)
  | CodingRun.RunClaudeCode i => unit_of (RunClaudeCode a env i)
  | CodingRun.PublishOutputs dir branch c => unit_of (PublishOutputs a env dir branch c)
  | CodingRun.InspectWorkspace dir base _ => unit_of (InspectWorkspace a env dir base)
  | CodingRun.PushBranch dir remote branch commit => unit_of (PushBranch a env dir remote branch commit)
  | CodingRun.BundleBranch dir base branch commit c => unit_of (BundleBranch a env dir base branch commit c)
  | CodingRun.CleanupWorkspace dir => unit_of (CleanupWorkspace a env dir)
  | _ => mret ()
  end.
Fixpoint attempts (n : nat) (m : Asks WkAsk unit) : Asks WkAsk unit := match n with O => mret () | S n => _ ← m; attempts n m end.
Fixpoint worked (l : list (step * nat)) : Asks WkAsk unit :=
  match l with [] => mret () | (s, n) :: l => _ ← attempts n (act s); worked l end.

(** What the workflow is given of a step is what an attempt of it answered. *)
Definition given {A} (m : Asks WkAsk (ActError + A)) (x : Err + A) : Prop := ∀ v, x = inr v → ∃ tr, (m tr).2 = inr v.

(** git, asked to publish something. *)
Definition publishes (q : WkAsk) : bool := match q with WkGit _ _ (cmd :: flag :: _) => String.eqb cmd "push" && negb (String.eqb flag "--dry-run") | _ => false end.
Definition pushes_only (s : step) (q : WkAsk) : Prop :=
  publishes q = true →
  ∃ dir remote branch commit, s = CodingRun.PushBranch dir remote branch commit ∧ q = WkGit (sshEnv a) dir (real_push commit branch remote) ∧
    checkRepo a remote = None ∧ isFullSHA commit = true.

Lemma local_publishes dir q : local_git dir q → publishes q = false.
Proof.
  destruct q as [| | |extra d args| | | | | | | | | | | | |]; try done. intros (_ & _ & _ & Hp). destruct args as [|cmd [|flag args]]; try done. cbn.
  destruct (String.eqb_spec cmd "push") as [->|]; [by destruct Hp|done].
Qed.

Lemma no_git_publishes q : no_git q → publishes q = false.
Proof. by destruct q. Qed.

Lemma prepares_publishes i dir q : prepares a i dir q → publishes q = false.
Proof. intros [H|[->|[base ->]]]; [by eapply local_publishes|done|done]. Qed.

Lemma silent {A} s (P : WkAsk → Prop) (m : Asks WkAsk A) : (∀ q, P q → publishes q = false) → asks_only P m → asks_only (pushes_only s) m.
Proof. intros H. apply only_weaken. intros q Hq Hp. by rewrite H in Hp. Qed.

Lemma restore_no_git dir : asks_only no_git (restoreConfig a env dir).
Proof. intros tr. destruct (restore_run a env dir tr) as (l & x & -> & Hl & _). by exists l. Qed.

Lemma enter_only {A} s dir clone (stop : ActError → A) (k : bool → Asks WkAsk A) :
  (∀ changed, asks_only (pushes_only s) (k changed)) → asks_only (pushes_only s) (enter a env dir clone stop k).
Proof.
  intros Hk. unfold enter. apply only_bind; [eapply silent; [apply no_git_publishes|apply await_only]|]. intros [e|]; [apply only_ret|].
  apply only_bind; [eapply silent; [apply no_git_publishes|apply restore_no_git]|]. intros [e|changed]; [apply only_ret|apply Hk].
Qed.

Lemma push_only dir remote branch commit : asks_only (pushes_only (CodingRun.PushBranch dir remote branch commit)) (PushBranch a env dir remote branch commit).
Proof.
  unfold PushBranch. destruct (_ || _); [apply only_ret|]. destruct (checkRepo a remote) eqn:Er; [apply only_ret|]. destruct (has_prefix branch "-"); [apply only_ret|].
  destruct (isFullSHA commit) eqn:Es; [|apply only_ret]. cbn [negb]. destruct (workspaceDir a dir) as [e|want]; [apply only_ret|].
  apply (enter_only _ want dir (λ e, Some (stepError "push" e)) (λ changed, if changed then _ else _)). intros [|]; [apply only_ret|].
  apply only_bind; [apply ask_git_only; intros _; by exists dir, remote, branch, commit|]. intros x. apply only_ret.
Qed.

Lemma inspect_only dir base s : asks_only (pushes_only s) (InspectWorkspace a env dir base).
Proof.
  unfold InspectWorkspace. destruct (_ || _); [apply only_ret|]. destruct (workspaceDir a dir) as [e|want]; [apply only_ret|].
  apply (enter_only s want dir (λ e, inl (stepError "inspect workspace" e)) (λ changed, inspect_git env dir base changed)). intros changed.
  eapply silent; [apply (local_publishes dir)|apply inspect_local].
Qed.

Lemma bundle_only dir base branch commit c s : asks_only (pushes_only s) (BundleBranch a env dir base branch commit c).
Proof.
  unfold BundleBranch. destruct (_ || _); [apply only_ret|]. destruct (workspaceDir a dir) as [e|want]; [apply only_ret|]. destruct (is_none _); [apply only_ret|].
  apply (enter_only s want want (λ e, inl (stepError "bundle" e)) (λ changed, if changed then _ else make_bundle a env want base branch commit c)). intros [|]; [apply only_ret|].
  eapply silent; [apply (local_publishes want)|apply bundle_local].
Qed.

Lemma act_only s : asks_only (pushes_only s) (act s).
Proof.
  assert (Hu : ∀ A (m : Asks WkAsk A), asks_only (pushes_only s) m → asks_only (pushes_only s) (unit_of m)).
  { intros A m Hm. apply only_bind; [done|]. intros x. apply only_ret. }
  destruct s; try apply only_ret; apply Hu.
  - destruct (rootPath (AcRoot a) (PwName i)) as [e|dir] eqn:Er; [unfold PrepareWorkspace; rewrite Er; apply only_ret|].
    eapply silent; [apply (prepares_publishes i dir)|by apply prepare_only].
  - eapply silent; [apply no_git_publishes|apply run_no_git].
  - eapply silent; [apply no_git_publishes|apply publish_no_git].
  - apply inspect_only.
  - apply push_only.
  - apply bundle_only.
  - eapply silent; [apply no_git_publishes|apply cleanup_no_git].
Qed.

Lemma attempts_only P n m : asks_only P m → asks_only P (attempts n m).
Proof. intros Hm. induction n as [|n IH]; cbn [attempts]; [apply only_ret|]. apply only_bind; [done|]. by intros _. Qed.

Lemma worked_only l : asks_only (λ q, ∃ s, s ∈ l.*1 ∧ pushes_only s q) (worked l).
Proof.
  induction l as [|[s n] l IH]; cbn [worked]; [apply only_ret|]. apply only_bind.
  - eapply only_weaken; [|apply attempts_only, act_only]. intros q Hq. exists s. split; [by left|done].
  - intros _. eapply only_weaken; [|exact IH]. intros q (s' & Hs & Hq). exists s'. split; [by right|done].
Qed.

(** What an inspection lists is what git said of the clone. *)
Lemma inspect_says dir base tr i :
  (InspectWorkspace a env dir base tr).2 = inr i →
  ∃ tr1 log, WeGit env (tr1 ++ [WkGit [] dir ["log"; "--format=%H %s"; base +:+ "..HEAD"]]) = (None, log) ∧ InCommits i = worker_commits log.
Proof.
  unfold InspectWorkspace. destruct (_ || _); [by rewrite ret_run|]. destruct (workspaceDir a dir) as [e|want]; [by rewrite ret_run|].
  rewrite bind_run. destruct (awaitRunEnd a env want tr) as [tr1 [e|]]; [by rewrite ret_run|]. rewrite bind_run. destruct (restoreConfig a env dir tr1) as [tr2 [e|changed]]; [by rewrite ret_run|].
  unfold inspect_git. rewrite bind_run. destruct (git env dir _ tr2) as [tr3 [[e|] branch]]; [by rewrite ret_run|]. rewrite bind_run. destruct (git env dir _ tr3) as [tr4 [[e|] status]]; [by rewrite ret_run|].
  unfold git, gitEnv. rewrite !bind_run, ask_run. unfold answer. rewrite ret_run. destruct (WeGit env _) as [[e|] log] eqn:E; [done|]. intros [= <-]. by exists tr4, log.
Qed.

(** What a preparation gives is in its own workspace. *)
Lemma prepare_says i tr p : (PrepareWorkspace a env i tr).2 = inr p → rootPath (AcRoot a) (PwName i) = inr (PrDir p).
Proof.
  unfold PrepareWorkspace. destruct (rootPath (AcRoot a) (PwName i)) as [e|dir]; [by rewrite ret_run|]. destruct (checkRepo a (PwRepo i)); [by rewrite ret_run|]. destruct (_ || _); [by rewrite ret_run|].
  rewrite bind_run. destruct (removeWorkspace env dir tr) as [tr1 e]. destruct (plain_step _ e); [by rewrite ret_run|]. destruct (runSkills a _) as [e'|set]; [by rewrite ret_run|].
  rewrite bind_run. destruct (file_op env _ tr1) as [tr2 e']. destruct (plain_step _ e'); [by rewrite ret_run|]. rewrite bind_run. destruct (cloned _ _ _ _ _ _ tr2) as [tr3 [x|commit]]; [by rewrite ret_run|].
  rewrite bind_run. destruct (file_ops env _ tr3) as [tr4 x]. destruct (plain_step _ x); [by rewrite ret_run|].
  destruct (writePlugin env dir set commit (PwBranch i) tr4) as [tr5 [y|out]] eqn:E; [done|]. cbn. intros [= <-]. by destruct (writePlugin_out _ _ _ _ _ _ _ _ E) as [-> _].
Qed.

(** What the workflow asks of the preparation. *)
Definition prepare_input (run : RunEnv) (input : ImplementFeatureInput) : PrepareWorkspaceInput :=
  mkPrepare (RunWorkspacePrefix +:+ EnvRunID run) (ImRepo input) (ImBase input) (branchName (ImTitle input) (ImTask input) (EnvRunID run)) (CtxRunSkills (ImCall input)).

(** C11. All that an implementation publishes, its workflow and its worker together.
    Whatever the call says, whatever git, the CLI and the run itself do, and
    however often each step is tried: over all that the worker asks for the
    run, git is asked to publish one thing at most, again at each try: the
    newest commit that git listed in the run's own workspace, since the commit
    it started at, on the branch the workflow named for the run, to the
    repository of the call, which is one the operator allows. *)
Theorem implementation_publishes_inspected (run : RunEnv) raw probed out notices st tries
    (Hrun : implementFeature run raw probed = (inr out, notices, st)) (Hsteps : tries.*1 = steps st)
    (Hprepared : ∀ input, read_implement raw = inr input → given (PrepareWorkspace a env (prepare_input run input)) (PrepareGives run))
    (Hinspected : ∀ p, PrepareGives run = inr p → given (InspectWorkspace a env (PrDir p) (PrCommit p)) (InspectGives run)) :
  Forall (λ q, publishes q = false) (worked tries []).1 ∨
  ∃ input p c rest tr log, read_implement raw = inr input ∧ PrepareGives run = inr p ∧ checkRepo a (ImRepo input) = None ∧
    WeGit env (tr ++ [WkGit [] (PrDir p) ["log"; "--format=%H %s"; PrCommit p +:+ "..HEAD"]]) = (None, log) ∧ worker_commits log = c :: rest ∧ isFullSHA (SHA c) = true ∧
    rootPath (AcRoot a) (RunWorkspacePrefix +:+ EnvRunID run) = inr (PrDir p) ∧
    Forall (λ q, publishes q = true → q = WkGit (sshEnv a) (PrDir p) (real_push (SHA c) (branchName (ImTitle input) (ImTask input) (EnvRunID run)) (ImRepo input)))
      (worked tries []).1.
Proof.
  destruct (worked_only tries []) as (l & Hl & Hp). rewrite Hsteps in Hp. cbn [app] in Hl. rewrite Hl.
  destruct (forallb (λ q, negb (publishes q)) l) eqn:Ef.
  { left. rewrite forallb_forall in Ef. apply Forall_forall. intros q Hq. apply negb_true_iff, Ef, list_elem_of_In, Hq. }
  right. rewrite Forall_forall in Hp. assert (Hex : ∃ q, q ∈ l ∧ publishes q = true).
  { clear -Ef. induction l as [|q l IH]; [done|]. cbn in Ef. destruct (publishes q) eqn:Eq; [exists q; split; [by left|done]|]. destruct (IH Ef) as (q' & Hq & H). exists q'. split; [by right|done]. }
  assert (Hpush : ∀ q, q ∈ l → publishes q = true → ∃ dir remote branch commit, CodingRun.PushBranch dir remote branch commit ∈ pushes (steps st) ∧
    q = WkGit (sshEnv a) dir (real_push commit branch remote) ∧ checkRepo a remote = None ∧ isFullSHA commit = true).
  { intros q Hq Hpub. destruct (Hp q Hq) as (s & Hs & H). destruct (H Hpub) as (dir & remote & branch & commit & -> & H1 & H2 & H3). exists dir, remote, branch, commit. split_and!; try done.
    unfold pushes. by apply in_filter. }
  destruct (implement_checked run raw probed out notices st Hrun) as (input & Hin & _ & _ & _ & [[Hno _]|(p & i & c & rest & Hpg & Hig & _ & _ & Hc & _ & Hps & _)]).
  { destruct Hex as (q & Hq & Hpub). destruct (Hpush q Hq Hpub) as (? & ? & ? & ? & H & _). rewrite Hno in H. by apply elem_of_nil in H. }
  destruct (Hinspected p Hpg i Hig) as [tr0 Hi]. destruct (inspect_says _ _ _ _ Hi) as (tr & log & Hlog & Hcommits). destruct (Hprepared input Hin p Hpg) as [tr' Hprep]. apply prepare_says in Hprep.
  exists input, p, c, rest, tr, log. assert (Hq : ∀ q, q ∈ l → publishes q = true →
    q = WkGit (sshEnv a) (PrDir p) (real_push (SHA c) (branchName (ImTitle input) (ImTask input) (EnvRunID run)) (ImRepo input)) ∧ checkRepo a (ImRepo input) = None ∧ isFullSHA (SHA c) = true).
  { intros q Hq Hpub. destruct (Hpush q Hq Hpub) as (dir & remote & branch & commit & H & -> & H1 & H2). rewrite Hps in H. apply list_elem_of_singleton in H. by injection H as -> -> -> ->. }
  destruct Hex as (q0 & Hq0 & Hpub0). destruct (Hq q0 Hq0 Hpub0) as (_ & Hr & Hsha). split_and!; try done; [congruence|]. apply Forall_forall. intros q Hql Hpub. by apply Hq.
Qed.
End Whole.

(** ** The workers of one directory (claude_code_sweep.go, cmd/agent/runtime.go) *)

(** A run's name: the prefix, and an execution's identifier. *)
Definition run_name (name : string) : bool := has_prefix name RunWorkspacePrefix && (len RunWorkspacePrefix <? len name) && negb (has_byte "." name).
(** Whose entry it is: what is before the companion's name. *)
Definition base_of (e : string) : string := (cut_byte "." e).1.1.

Inductive lock := LockEx | LockSh.

(** Where a worker's process is: waiting to share the claim; holding it, before
    its sweep; looking at what it listed; removing what it found stale (what
    could not be is kept aside); waiting to share what it held alone; serving. *)
Inductive claim :=
| Joining (deadline : time)
| Claimed (alone : bool)
| Sweeping (alone : bool) (keepAfter : option time) (look stale : list string)
| Removing (alone : bool) (stale failed : list string)
| Sharing (deadline : time)
| Serving.

(** The directory and its workers: the time; each process, with its lock; each
    entry, with when it was last changed; the runs in use, each with its worker
    and when its session began; every name given to a run so far. *)
Record Root := mkRoot {
  RtNow : time; RtProcs : gmap nat (claim * option lock); RtEntries : gmap string time; RtRuns : gmap string (nat * time); RtUsed : gset string }.

(** [flock] with LOCK_NB: what the others hold. *)
Definition others_hold (p : nat) (l : list lock) (r : Root) : bool :=
  existsb (λ q, negb (Nat.eqb q.1 p) && match q.2.2 with Some k => existsb (λ k', match k, k' with LockEx, LockEx | LockSh, LockSh => true | _, _ => false end) l | None => false end)
    (map_to_list (RtProcs r)).
Definition can_exclude (p : nat) (r : Root) : bool := negb (others_hold p [LockEx; LockSh] r).
Definition can_share (p : nat) (r : Root) : bool := negb (others_hold p [LockEx] r).

Definition set_proc (p : nat) (c : claim) (l : option lock) (r : Root) : Root :=
  mkRoot (RtNow r) (<[p := (c, l)]> (RtProcs r)) (RtEntries r) (RtRuns r) (RtUsed r).
(** A process that ends, or fails: its lock goes with it, and its runs. *)
Definition end_proc (p : nat) (r : Root) : Root :=
  mkRoot (RtNow r) (delete p (RtProcs r)) (RtEntries r) (filter (λ x, x.2.1 ≠ p) (RtRuns r)) (RtUsed r).
Definition set_entries (m : gmap string time) (r : Root) : Root := mkRoot (RtNow r) (RtProcs r) m (RtRuns r) (RtUsed r).

Section Claim.
(** How long a claim waits, and a run's workspace lives. *)
Variables (wait lifetime : Z).

Definition ClaimRoot (p : nat) (r : Root) : Root :=
  if can_exclude p r then set_proc p (Claimed true) (Some LockEx) r else set_proc p (Joining (RtNow r + wait)) None r.

(** [share], once: the lock is the shared one, or the process waits, or gives up. *)
Definition share (p : nat) (c after : claim) (deadline : time) (r : Root) : Root :=
  if can_share p r then set_proc p after (Some LockSh) r
  else if RtNow r <? deadline then set_proc p c None r
  else end_proc p r.

(** [sweepRoot], an entry at a time. *)
Definition Sweep (p : nat) (alone : bool) (l : option lock) (r : Root) : Root :=
  set_proc p (Sweeping alone (if alone then None else Some (RtNow r - lifetime)) ((map_to_list (RtEntries r)).*1) []) l r.

Definition stale_entry (keepAfter : option time) (e : string) (r : Root) : bool :=
  isRunEntry e && match RtEntries r !! e with None => false | Some m => match keepAfter with None => true | Some t => m <=? t end end.

Inductive root_event :=
| EvStart (p : nat)
| EvShare (p : nat)
| EvDrop (p : nat)
| EvSweep (p : nat)
| EvLook (p : nat)
| EvRemove (p : nat) (ok : bool)
| EvBegin (p : nat) (name : string)
| EvWrite (p : nat) (e : string)
| EvClean (p : nat) (e : string)
| EvEnd (p : nat) (name : string)
| EvExit (p : nat)
| EvTick (d : Z).

Definition owned_by (p : nat) (e : string) (r : Root) : bool := match RtRuns r !! base_of e with Some (q, _) => Nat.eqb q p | None => false end.

(** One event, unless it cannot be: a run begins on a worker that serves,
    under a name that was never given; time goes on as long as no run outlives
    a run's lifetime. *)
Definition root_step (r : Root) (ev : root_event) : option Root :=
  match ev with
  | EvStart p => match RtProcs r !! p with None => Some (ClaimRoot p r) | Some _ => None end
  | EvShare p =>
      match RtProcs r !! p with
      | Some (Joining d as c, _) => Some (share p c (Claimed false) d r)
      | Some (Sharing d as c, _) => Some (share p c Serving d r)
      | _ => None
      end
  | EvDrop p => match RtProcs r !! p with Some (Sharing d as c, _) => Some (set_proc p c None r) | _ => None end
  | EvSweep p => match RtProcs r !! p with Some (Claimed alone, l) => Some (Sweep p alone l r) | _ => None end
  | EvLook p =>
      match RtProcs r !! p with
      | Some (Sweeping alone k [] stale, l) => Some (set_proc p (Removing alone stale []) l r)
      | Some (Sweeping alone k (e :: look) stale, l) =>
          Some (set_proc p (Sweeping alone k look (if stale_entry k e r then stale ++ [e] else stale)) l r)
      | _ => None
      end
  | EvRemove p ok =>
      match RtProcs r !! p with
      | Some (Removing alone [] _, l) => Some (set_proc p (if alone then Sharing (RtNow r + wait) else Serving) l r)
      | Some (Removing alone (e :: stale) failed, l) =>
          Some (if ok then set_entries (delete e (RtEntries r)) (set_proc p (Removing alone stale failed) l r)
                else set_proc p (Removing alone stale (failed ++ [e])) l r)
      | _ => None
      end
  | EvBegin p name =>
      match RtProcs r !! p with
      | Some (Serving, _) =>
          if run_name name && negb (bool_decide (name ∈ RtUsed r))
          then Some (mkRoot (RtNow r) (RtProcs r) (RtEntries r) (<[name := (p, RtNow r)]> (RtRuns r)) ({[name]} ∪ RtUsed r)) else None
      | _ => None
      end
  | EvWrite p e => if owned_by p e r then Some (set_entries (<[e := RtNow r]> (RtEntries r)) r) else None
  | EvClean p e => if owned_by p e r then Some (set_entries (delete e (RtEntries r)) r) else None
  | EvEnd p name =>
      if owned_by p name r then Some (mkRoot (RtNow r) (RtProcs r) (RtEntries r) (delete (base_of name) (RtRuns r)) (RtUsed r)) else None
  | EvExit p => Some (end_proc p r)
  | EvTick d =>
      if (0 <=? d) && forallb (λ x, RtNow r + d <? x.2.2 + lifetime) (map_to_list (RtRuns r))
      then Some (mkRoot (RtNow r + d) (RtProcs r) (RtEntries r) (RtRuns r) (RtUsed r)) else None
  end.

Fixpoint root_steps (r : Root) (l : list root_event) : option Root :=
  match l with [] => Some r | ev :: l => r ← root_step r ev; root_steps r l end.
End Claim.

(** *** What holds of the directory *)

Definition lock_fits (c : claim) (l : option lock) : Prop :=
  match c with
  | Joining _ => l = None
  | Claimed alone | Sweeping alone _ _ _ | Removing alone _ _ => l = Some (if alone then LockEx else LockSh)
  | Sharing _ => l = Some LockEx ∨ l = None
  | Serving => l = Some LockSh
  end.
Definition stale_of (c : claim) : list string := match c with Sweeping _ _ _ stale | Removing _ stale _ => stale | _ => [] end.

(** What a process alone has seen of the entries there. *)
Definition seen (c : claim) : option (list string) :=
  match c with Sweeping true _ look stale => Some (look ++ stale) | Removing true stale failed => Some (stale ++ failed) | _ => None end.

Definition claim_ok (lifetime : Z) (c : claim) (r : Root) : Prop :=
  (∀ e, e ∈ stale_of c → base_of e ∈ RtUsed r ∧ RtRuns r !! base_of e = None) ∧
  (∀ alone k look stale, c = Sweeping alone k look stale → match k with None => alone = true | Some t => alone = false ∧ t + lifetime ≤ RtNow r end) ∧
  (∀ l, seen c = Some l → ∀ e m, RtEntries r !! e = Some m → isRunEntry e = true → e ∈ l).

Record root_ok (lifetime : Z) (r : Root) : Prop := {
  ok_fits : ∀ p c l, RtProcs r !! p = Some (c, l) → lock_fits c l;
  ok_locks : ∀ p q c c' k k', p ≠ q → RtProcs r !! p = Some (c, Some k) → RtProcs r !! q = Some (c', Some k') → k = LockSh ∧ k' = LockSh;
  ok_runs : ∀ name p t, RtRuns r !! name = Some (p, t) → (∃ l, RtProcs r !! p = Some (Serving, l)) ∧ RtNow r < t + lifetime ∧ name ∈ RtUsed r;
  ok_entries : ∀ e m, RtEntries r !! e = Some m → base_of e ∈ RtUsed r ∧ ∀ p t, RtRuns r !! base_of e = Some (p, t) → t ≤ m;
  ok_started : ∀ name p t, RtRuns r !! name = Some (p, t) → t ≤ RtNow r;
  ok_claims : ∀ p c l, RtProcs r !! p = Some (c, l) → claim_ok lifetime c r
}.

Section RootProofs.
Variables (wait lifetime : Z).
Implicit Types (r : Root).

Lemma others_hold_false p l r :
  others_hold p l r = false → ∀ q c k, q ≠ p → RtProcs r !! q = Some (c, Some k) → k ∉ l.
Proof.
  unfold others_hold. intros H q c k Hne Hq Hin. apply not_true_iff_false in H. apply H. apply existsb_exists. exists (q, (c, Some k)).
  split; [by apply list_elem_of_In, elem_of_map_to_list|]. cbn. apply andb_true_iff. split; [by apply negb_true_iff, Nat.eqb_neq|].
  apply existsb_exists. exists k. split; [by apply list_elem_of_In|by destruct k].
Qed.

(** Alone, nothing is in use. *)
Lemma alone_no_runs r p c : root_ok lifetime r → RtProcs r !! p = Some (c, Some LockEx) → RtRuns r = ∅.
Proof.
  intros Hok Hp. apply map_empty. intros name. destruct (RtRuns r !! name) as [[q t]|] eqn:E; [|done]. exfalso.
  destruct (ok_runs _ _ Hok _ _ _ E) as ((l & Hq) & _). pose proof (ok_fits _ _ Hok _ _ _ Hq) as Hf. cbn in Hf. subst l.
  destruct (decide (p = q)) as [->|Hne]; [by rewrite Hp in Hq|]. by destruct (ok_locks _ _ Hok _ _ _ _ _ _ Hne Hp Hq).
Qed.

(** A process that moves on. *)
Lemma set_proc_ok r p c l :
  root_ok lifetime r → lock_fits c l → claim_ok lifetime c r →
  (∀ l', RtProcs r !! p ≠ Some (Serving, l')) →
  (∀ q c' k k', q ≠ p → l = Some k → RtProcs r !! q = Some (c', Some k') → k = LockSh ∧ k' = LockSh) →
  root_ok lifetime (set_proc p c l r).
Proof.
  intros Hok Hf Hc Hs Hl. unfold set_proc. split; cbn.
  - intros q c0 l0. destruct (decide (q = p)) as [->|Hne]; [rewrite lookup_insert_eq; by intros [= <- <-]|rewrite lookup_insert_ne by done; apply Hok].
  - intros q1 q2 c1 c2 k1 k2 Hne. destruct (decide (q1 = p)) as [->|H1].
    + rewrite lookup_insert_eq, lookup_insert_ne by done. intros [= <- ->] H2. by eapply Hl.
    + rewrite lookup_insert_ne by done. intros H2. destruct (decide (q2 = p)) as [->|H3].
      * rewrite lookup_insert_eq. intros [= <- ->]. destruct (Hl q1 c1 k2 k1 H1 eq_refl H2). by split.
      * rewrite lookup_insert_ne by done. by eapply (ok_locks _ _ Hok).
  - intros name q t Hr. destruct (ok_runs _ _ Hok _ _ _ Hr) as ((l' & Hq) & H2). split; [|done]. exists l'. rewrite lookup_insert_ne; [done|]. intros ->. by destruct (Hs l').
  - apply Hok.
  - apply Hok.
  - intros q c0 l0. destruct (decide (q = p)) as [->|Hne]; [rewrite lookup_insert_eq; by intros [= <- <-]|rewrite lookup_insert_ne by done]. apply Hok.
Qed.

(** Its lock the same, or none. *)
Lemma set_proc_same r p c0 c l :
  root_ok lifetime r → RtProcs r !! p = Some (c0, l) → c0 ≠ Serving → lock_fits c l → claim_ok lifetime c r → root_ok lifetime (set_proc p c l r).
Proof.
  intros Hok Hp Hs Hf Hc. apply set_proc_ok; try done; [intros l' H; rewrite Hp in H; by injection H as -> ->|].
  intros q c' k k' Hne -> Hq. eapply (ok_locks _ _ Hok p q); [done|exact Hp|exact Hq].
Qed.

Lemma set_proc_free r p c c0 l :
  root_ok lifetime r → RtProcs r !! p = Some (c0, l) → c0 ≠ Serving → lock_fits c None → claim_ok lifetime c r → root_ok lifetime (set_proc p c None r).
Proof. intros Hok Hp Hs Hf Hc. apply set_proc_ok; try done. intros l' H. rewrite Hp in H. by injection H as -> ->. Qed.

Lemma end_proc_ok r p : root_ok lifetime r → root_ok lifetime (end_proc p r).
Proof.
  intros Hok. assert (Hr : ∀ name q t, filter (λ x : string * (nat * time), x.2.1 ≠ p) (RtRuns r) !! name = Some (q, t) → RtRuns r !! name = Some (q, t) ∧ q ≠ p).
  { intros name q t H. by apply map_lookup_filter_Some in H. }
  unfold end_proc. split; cbn.
  - intros q c l H. apply lookup_delete_Some in H as [_ H]. by apply (ok_fits _ _ Hok q).
  - intros q1 q2 c1 c2 k1 k2 Hne H1 H2. apply lookup_delete_Some in H1 as [_ H1], H2 as [_ H2]. by eapply (ok_locks _ _ Hok q1 q2).
  - intros name q t [H Hne]%Hr. destruct (ok_runs _ _ Hok _ _ _ H) as ((l & Hq) & H2). split; [|done]. exists l. by rewrite lookup_delete_ne.
  - intros e m H. destruct (ok_entries _ _ Hok _ _ H) as [H1 H2]. split; [done|]. intros q t [H3 _]%Hr. by eapply H2.
  - intros name q t [H _]%Hr. by eapply (ok_started _ _ Hok).
  - intros q c l H. apply lookup_delete_Some in H as [_ H]. destruct (ok_claims _ _ Hok _ _ _ H) as (H1 & H2 & H3). split_and!; [|done|done].
    intros e He. destruct (H1 e He) as [H4 H5]. split; [done|]. cbn. apply map_lookup_filter_None. by left.
Qed.

Lemma claim_ok_idle r c : (match c with Sweeping _ _ _ _ | Removing _ _ _ => False | _ => True end) → claim_ok lifetime c r.
Proof. destruct c; try done; intros _; split_and!; cbn; try done; by intros ? ?%elem_of_nil. Qed.

Lemma drop_entry_ok r e : root_ok lifetime r → root_ok lifetime (set_entries (delete e (RtEntries r)) r).
Proof.
  intros Hok. split; cbn; try apply Hok.
  - intros e' m H. apply lookup_delete_Some in H as [_ H]. by apply (ok_entries _ _ Hok).
  - intros p c l H. destruct (ok_claims _ _ Hok _ _ _ H) as (H1 & H2 & H3). split_and!; [done|done|]. intros l' Hl e' m He. cbn in He. apply lookup_delete_Some in He as [_ He]. by eapply H3.
Qed.

Lemma claim_start_ok r p : root_ok lifetime r → RtProcs r !! p = None → root_ok lifetime (ClaimRoot wait p r).
Proof.
  intros Hok Hp. unfold ClaimRoot, can_exclude. destruct (others_hold p [LockEx; LockSh] r) eqn:E; cbn [negb]; (apply set_proc_ok; [done|done|by apply claim_ok_idle|by rewrite Hp|]); [done|].
  intros q c' k k' Hne _ Hq. destruct (others_hold_false _ _ _ E q c' k' Hne Hq). destruct k'; [by left|by right; left].
Qed.

Lemma share_ok r p c l after d :
  root_ok lifetime r → RtProcs r !! p = Some (c, l) → c ≠ Serving → lock_fits c None → claim_ok lifetime c r →
  lock_fits after (Some LockSh) → claim_ok lifetime after r → root_ok lifetime (share p c after d r).
Proof.
  intros Hok Hp Hs Hf Hc Hf' Hc'. unfold share, can_share. destruct (others_hold p [LockEx] r) eqn:E; cbn [negb].
  - destruct (_ <? _); [by eapply set_proc_free|by apply end_proc_ok].
  - apply set_proc_ok; try done; [intros l' H; rewrite Hp in H; by injection H as -> ->|]. intros q c' k k' Hne [= <-] Hq. split; [done|].
    pose proof (others_hold_false _ _ _ E q c' k' Hne Hq) as H. destruct k'; [|done]. destruct H. by left.
Qed.

Lemma stale_idle r p alone k e look stale l :
  root_ok lifetime r → RtProcs r !! p = Some (Sweeping alone k (e :: look) stale, l) → stale_entry k e r = true →
  base_of e ∈ RtUsed r ∧ RtRuns r !! base_of e = None.
Proof.
  intros Hok Hp He. unfold stale_entry in He. apply andb_true_iff in He as [_ He]. destruct (RtEntries r !! e) as [m|] eqn:Em; [|done].
  destruct (ok_entries _ _ Hok _ _ Em) as [Hu Ht]. split; [done|]. destruct (ok_claims _ _ Hok _ _ _ Hp) as (_ & Hk & _). specialize (Hk _ _ _ _ eq_refl).
  pose proof (ok_fits _ _ Hok _ _ _ Hp) as Hf. cbn in Hf. destruct k as [t|].
  - destruct Hk as [_ Hk]. apply Z.leb_le in He. destruct (RtRuns r !! base_of e) as [[q t0]|] eqn:Er; [|done].
    pose proof (Ht _ _ eq_refl). destruct (ok_runs _ _ Hok _ _ _ Er) as (_ & Hlive & _). lia.
  - subst alone l. by rewrite (alone_no_runs _ _ _ Hok Hp).
Qed.

Lemma look_ok r p alone k look stale l :
  root_ok lifetime r → RtProcs r !! p = Some (Sweeping alone k look stale, l) →
  root_ok lifetime (match look with [] => set_proc p (Removing alone stale []) l r
                                  | e :: look => set_proc p (Sweeping alone k look (if stale_entry k e r then stale ++ [e] else stale)) l r end).
Proof.
  intros Hok Hp. pose proof (ok_fits _ _ Hok _ _ _ Hp) as Hf. destruct (ok_claims _ _ Hok _ _ _ Hp) as (H1 & H2 & H3). cbn in Hf, H1.
  destruct look as [|e look]; (eapply set_proc_same; [done|exact Hp|done|done|]); split_and!.
  - done.
  - done.
  - destruct alone; [|done]. intros l' [= <-]. rewrite app_nil_r. by apply H3.
  - cbn. intros e' He'. destruct (stale_entry k e r) eqn:Es; [|by apply H1]. apply elem_of_app in He' as [He'|He']; [by apply H1|]. apply list_elem_of_singleton in He' as ->.
    by eapply stale_idle.
  - intros alone' k' look' stale' [= <- <- <- <-]. by eapply H2.
  - destruct alone; [|done]. intros l' [= <-] e' m He Hr. specialize (H3 _ eq_refl e' m He Hr). apply elem_of_app. cbn in H3.
    apply elem_of_cons in H3 as [->|H3]; [|apply elem_of_app in H3 as [H3|H3]; [by left|right; destruct (stale_entry k e r); [apply elem_of_app; by left|done]]].
    right. assert (Hk : k = None) by (specialize (H2 _ _ _ _ eq_refl); destruct k as [t|]; [by destruct H2|done]). subst k.
    assert (Hs : stale_entry None e r = true) by (unfold stale_entry; by rewrite Hr, He). rewrite Hs. apply elem_of_app. right. by left.
Qed.

Lemma remove_ok r p alone (stale failed : list string) l (ok : bool) :
  root_ok lifetime r → RtProcs r !! p = Some (Removing alone stale failed, l) →
  root_ok lifetime (match stale with
    | [] => set_proc p (if alone then Sharing (RtNow r + wait) else Serving) l r
    | e :: stale => if ok then set_entries (delete e (RtEntries r)) (set_proc p (Removing alone stale failed) l r)
                    else set_proc p (Removing alone stale (failed ++ [e])) l r end).
Proof.
  intros Hok Hp. pose proof (ok_fits _ _ Hok _ _ _ Hp) as Hf. destruct (ok_claims _ _ Hok _ _ _ Hp) as (H1 & _ & H3). cbn in Hf, H1.
  destruct stale as [|e stale]; [eapply set_proc_same; [done|exact Hp|done| |]; destruct alone; subst l; try done; [by left|by apply claim_ok_idle..]|].
  assert (H1' : ∀ e', e' ∈ stale → base_of e' ∈ RtUsed r ∧ RtRuns r !! base_of e' = None) by (intros e' He'; apply H1; by right).
  destruct ok.
  - change (root_ok lifetime (set_proc p (Removing alone stale failed) l (set_entries (delete e (RtEntries r)) r))). eapply set_proc_same; [by apply drop_entry_ok|exact Hp|done|done|].
    split_and!; [done|done|]. destruct alone; [|done]. intros l' [= <-] e' m He Hr. cbn in He. apply lookup_delete_Some in He as [Hne He].
    specialize (H3 _ eq_refl e' m He Hr). cbn in H3. apply elem_of_cons in H3 as [->|H3]; done.
  - eapply set_proc_same; [done|exact Hp|done|done|]. split_and!; [done|done|]. destruct alone; [|done]. intros l' [= <-] e' m He Hr.
    specialize (H3 _ eq_refl e' m He Hr). cbn in H3. rewrite !elem_of_app in *. apply elem_of_cons in H3 as [->|H3]; [right; right; by left|]. apply elem_of_app in H3 as [H3|H3]; [by left|by right; left].
Qed.

Lemma begin_ok r p name l :
  0 < lifetime → root_ok lifetime r → RtProcs r !! p = Some (Serving, l) → name ∉ RtUsed r →
  root_ok lifetime (mkRoot (RtNow r) (RtProcs r) (RtEntries r) (<[name := (p, RtNow r)]> (RtRuns r)) ({[name]} ∪ RtUsed r)).
Proof.
  intros Hlt Hok Hp Hn. assert (Hb : ∀ e : string, base_of e ∈ RtUsed r → base_of e ≠ name) by (intros e He Heq; by rewrite Heq in He). split; cbn; try apply Hok.
  - intros n q t. destruct (decide (n = name)) as [->|Hne]; [rewrite lookup_insert_eq; intros [= <- <-]; split_and!; [by exists l|lia|set_solver]|].
    rewrite lookup_insert_ne by done. intros H. destruct (ok_runs _ _ Hok _ _ _ H) as (H1 & H2 & H3). split_and!; [done|done|set_solver].
  - intros e m He. destruct (ok_entries _ _ Hok _ _ He) as [H1 H2]. split; [set_solver|]. intros q t. rewrite lookup_insert_ne by (symmetry; by apply Hb). apply H2.
  - intros n q t. destruct (decide (n = name)) as [->|Hne]; [rewrite lookup_insert_eq; intros [= <- <-]; lia|]. rewrite lookup_insert_ne by done. apply (ok_started _ _ Hok).
  - intros q c l' Hq. destruct (ok_claims _ _ Hok _ _ _ Hq) as (H1 & H2 & H3). split_and!; [|done|done]. intros e He. destruct (H1 e He) as [H4 H5]. cbn. split; [set_solver|].
    rewrite lookup_insert_ne by (symmetry; by apply Hb). done.
Qed.

Lemma write_ok r p e : root_ok lifetime r → owned_by p e r = true → root_ok lifetime (set_entries (<[e := RtNow r]> (RtEntries r)) r).
Proof.
  intros Hok Ho. unfold owned_by in Ho. destruct (RtRuns r !! base_of e) as [[q t]|] eqn:Er; [|done]. split; cbn; try apply Hok.
  - intros e' m. destruct (decide (e' = e)) as [->|Hne]; [|rewrite lookup_insert_ne by done; apply (ok_entries _ _ Hok)]. rewrite lookup_insert_eq. intros [= <-].
    destruct (ok_runs _ _ Hok _ _ _ Er) as (_ & _ & Hu). split; [done|]. intros q' t'. rewrite Er. intros [= <- <-]. by apply (ok_started _ _ Hok _ _ _ Er).
  - intros p' c l Hp. destruct (ok_claims _ _ Hok _ _ _ Hp) as (H1 & H2 & H3). split_and!; [done|done|]. intros l' Hl. exfalso.
    pose proof (ok_fits _ _ Hok _ _ _ Hp) as Hf. assert (Hx : l = Some LockEx) by (destruct c as [|?|[] ? ? ?|[] ? ?| |]; done). subst l.
    rewrite (alone_no_runs _ _ _ Hok Hp) in Er. done.
Qed.

Lemma end_ok r name : root_ok lifetime r → root_ok lifetime (mkRoot (RtNow r) (RtProcs r) (RtEntries r) (delete name (RtRuns r)) (RtUsed r)).
Proof.
  intros Hok. split; cbn; try apply Hok.
  - intros n q t H. apply lookup_delete_Some in H as [_ H]. by apply (ok_runs _ _ Hok _ _ _ H).
  - intros e m H. destruct (ok_entries _ _ Hok _ _ H) as [H1 H2]. split; [done|]. intros q t H3. apply lookup_delete_Some in H3 as [_ H3]. by eapply H2.
  - intros n q t H. apply lookup_delete_Some in H as [_ H]. by apply (ok_started _ _ Hok _ _ _ H).
  - intros q c l H. destruct (ok_claims _ _ Hok _ _ _ H) as (H1 & H2 & H3). split_and!; [|done|done]. intros e He. destruct (H1 e He) as [H4 H5]. split; [done|]. cbn. apply lookup_delete_None. by right.
Qed.

Lemma tick_ok r d :
  0 ≤ d → (∀ name p t, RtRuns r !! name = Some (p, t) → RtNow r + d < t + lifetime) → root_ok lifetime r →
  root_ok lifetime (mkRoot (RtNow r + d) (RtProcs r) (RtEntries r) (RtRuns r) (RtUsed r)).
Proof.
  intros Hd Hr Hok. split; cbn; try apply Hok.
  - intros n q t H. destruct (ok_runs _ _ Hok _ _ _ H) as (H1 & _ & H3). split_and!; [done|by eapply Hr|done].
  - intros n q t H. pose proof (ok_started _ _ Hok _ _ _ H). lia.
  - intros q c l H. destruct (ok_claims _ _ Hok _ _ _ H) as (H1 & H2 & H3). split_and!; [done| |done]. intros alone k look stale Heq. specialize (H2 _ _ _ _ Heq). destruct k; [cbn in *; split; [apply H2|destruct H2; lia]|done].
Qed.

Lemma root_step_ok r ev r' : 0 < lifetime → root_ok lifetime r → root_step wait lifetime r ev = Some r' → root_ok lifetime r'.
Proof.
  intros Hlt Hok. destruct ev as [p|p|p|p|p|p ok|p name|p e|p e|p name|p|d]; cbn [root_step].
  - destruct (RtProcs r !! p) eqn:Hp; [done|]. intros [= <-]. by apply claim_start_ok.
  - destruct (RtProcs r !! p) as [[[d|?|? ? ? ?|? ? ?|d|] l]|] eqn:Hp; try done; intros [= <-]; (eapply share_ok; [done|exact Hp|done| |by apply claim_ok_idle|done|by apply claim_ok_idle]); [done|by right].
  - destruct (RtProcs r !! p) as [[[d|?|? ? ? ?|? ? ?|d|] l]|] eqn:Hp; try done. intros [= <-]. eapply set_proc_free; [done|exact Hp|done|by right|by apply claim_ok_idle].
  - destruct (RtProcs r !! p) as [[[d|alone|? ? ? ?|? ? ?|d|] l]|] eqn:Hp; try done. intros [= <-]. pose proof (ok_fits _ _ Hok _ _ _ Hp) as Hf. cbn in Hf.
    eapply set_proc_same; [done|exact Hp|done|done|]. split_and!; [by intros ? ?%elem_of_nil| |].
    + intros alone' k look stale [= <- <- <- <-]. destruct alone; [done|]. split; [done|lia].
    + destruct alone; [|done]. intros l' [= <-] e m He _. rewrite app_nil_r. apply list_elem_of_fmap. exists (e, m). split; [done|by apply elem_of_map_to_list].
  - destruct (RtProcs r !! p) as [[[d|?|alone k look stale|? ? ?|d|] l]|] eqn:Hp; try done. intros H. pose proof (look_ok r p alone k look stale l Hok Hp) as Hl. by destruct look; injection H as <-.
  - destruct (RtProcs r !! p) as [[[d|?|? ? ? ?|alone stale failed|d|] l]|] eqn:Hp; try done. intros H. pose proof (remove_ok r p alone stale failed l ok Hok Hp) as Hl. by destruct stale; injection H as <-.
  - destruct (RtProcs r !! p) as [[[d|?|? ? ? ?|? ? ?|d|] l]|] eqn:Hp; try done. destruct (run_name name); [|done]. case_bool_decide as Hu; [done|]. intros [= <-]. by eapply begin_ok.
  - destruct (owned_by p e r) eqn:Ho; [|done]. intros [= <-]. by eapply write_ok.
  - destruct (owned_by p e r); [|done]. intros [= <-]. by apply drop_entry_ok.
  - destruct (owned_by p name r); [|done]. intros [= <-]. by apply end_ok.
  - intros [= <-]. by apply end_proc_ok.
  - destruct (Z.leb_spec 0 d) as [Hd|]; [|done]. cbn [andb]. destruct (forallb _ _) eqn:Ef; [|done]. intros [= <-]. apply tick_ok; [done| |done].
    intros name p t Hr. rewrite forallb_forall in Ef. specialize (Ef (name, (p, t))). cbn in Ef. apply Z.ltb_lt, Ef, list_elem_of_In. by apply elem_of_map_to_list.
Qed.

Lemma root_steps_ok l r r' : 0 < lifetime → root_ok lifetime r → root_steps wait lifetime r l = Some r' → root_ok lifetime r'.
Proof.
  intros Hlt. revert r. induction l as [|ev l IH]; intros r Hok; cbn [root_steps]; [by intros [= <-]|]. destruct (root_step _ _ r ev) as [r1|] eqn:E; [|done]. cbn. apply IH.
  by eapply root_step_ok.
Qed.

(** Before the first worker: nothing but what is left there. *)
Definition left_over r : Prop := RtProcs r = ∅ ∧ RtRuns r = ∅ ∧ ∀ e m, RtEntries r !! e = Some m → base_of e ∈ RtUsed r.

Lemma left_over_ok r : left_over r → root_ok lifetime r.
Proof. intros (Hp & Hr & He). split; rewrite ?Hp, ?Hr; try done. intros e m H. split; [by eapply He|done]. Qed.

(** An entry of a run in use stays, unless its own worker removes it. *)
Lemma live_entry_kept r ev r' e p t :
  root_ok lifetime r → root_step wait lifetime r ev = Some r' → RtRuns r !! base_of e = Some (p, t) → is_Some (RtEntries r !! e) →
  is_Some (RtEntries r' !! e) ∨ ev = EvClean p e.
Proof.
  intros Hok H Hr He. destruct ev as [q|q|q|q|q|q ok|q name|q e'|q e'|q name|q|d]; cbn [root_step] in H.
  - left. destruct (RtProcs r !! q); [done|]. injection H as <-. unfold ClaimRoot. by destruct (can_exclude q r).
  - left. destruct (RtProcs r !! q) as [[[d|?|? ? ? ?|? ? ?|d|] l]|]; try done; injection H as <-; unfold share; destruct (can_share q r); try done; by destruct (_ <? _).
  - left. destruct (RtProcs r !! q) as [[[d|?|? ? ? ?|? ? ?|d|] l]|]; try done. by injection H as <-.
  - left. destruct (RtProcs r !! q) as [[[d|?|? ? ? ?|? ? ?|d|] l]|]; try done. by injection H as <-.
  - left. destruct (RtProcs r !! q) as [[[d|?|alone k [|? ?] ?|? ? ?|d|] l]|]; try done; by injection H as <-.
  - left. destruct (RtProcs r !! q) as [[[d|?|? ? ? ?|alone [|e' stale] failed|d|] l]|] eqn:Hq; try done; injection H as <-; [done|]. destruct ok; [|done]. cbn.
    destruct (ok_claims _ _ Hok _ _ _ Hq) as (Hs & _). destruct (Hs e') as [_ Hidle]; [by left|]. rewrite lookup_delete_ne; [done|]. intros ->. by rewrite Hr in Hidle.
  - left. destruct (RtProcs r !! q) as [[[d|?|? ? ? ?|? ? ?|d|] l]|]; try done. destruct (_ && _); [|done]. by injection H as <-.
  - left. destruct (owned_by q e' r); [|done]. injection H as <-. cbn. destruct (decide (e' = e)) as [->|Hne]; [rewrite lookup_insert_eq; by eexists|by rewrite lookup_insert_ne].
  - destruct (owned_by q e' r) eqn:Ho; [|done]. injection H as <-. cbn. destruct (decide (e' = e)) as [->|Hne]; [right|left; by rewrite lookup_delete_ne].
    unfold owned_by in Ho. rewrite Hr in Ho. by apply Nat.eqb_eq in Ho as ->.
  - left. destruct (owned_by q name r); [|done]. by injection H as <-.
  - left. by injection H as <-.
  - left. destruct (_ && _); [|done]. by injection H as <-.
Qed.

(** *** A run's entries *)

Lemma trim_suffix_app suffix p : suffix ≠ "" → trim_suffix suffix (p +:+ suffix) = p.
Proof.
  intros Hne. assert (Hcut : ∀ s : string, trim_suffix suffix s = if String.eqb s suffix then "" else match s with "" => "" | String c s => String c (trim_suffix suffix s) end) by by intros [].
  induction p as [|c p IH]; rewrite Hcut; cbn [String.append]; [by rewrite String.eqb_refl|]. destruct (String.eqb_spec (String c (p +:+ suffix)) suffix) as [H|]; [|by rewrite IH].
  exfalso. apply (f_equal String.length) in H. cbn in H. rewrite length_app_str in H. lia.
Qed.

Lemma trim_suffix_other suffix s : (∀ p, s ≠ p +:+ suffix) → trim_suffix suffix s = s.
Proof.
  induction s as [|c s IH]; intros H; cbn [trim_suffix].
  - destruct (String.eqb_spec "" suffix) as [<-|]; [by destruct (H "")|done].
  - destruct (String.eqb_spec (String c s) suffix) as [<-|]; [by destruct (H "")|]. f_equal. apply IH. intros p ->. by destruct (H (String c p)).
Qed.

(** Where the first dot is. *)
Lemma dotted_unique name p x y : has_byte "." name = false → has_byte "." x = false → name +:+ String "." x = p +:+ String "." y → name = p ∧ x = y.
Proof.
  intros Hn Hx H. destruct (has_byte "." p) eqn:Hp.
  - exfalso. pose proof (cut_byte_app "." name x Hn) as H1. destruct (cut_byte "." p) as [[p1 p2] f] eqn:Ep.
    assert (f = true) as -> by (destruct f; [done|]; exfalso; clear -Hp Ep; revert p1 p2 Ep; induction p as [|c p IH]; intros p1 p2; cbn in *; [done|];
      destruct (Ascii.eqb c "."); [done|]; cbn in Hp; destruct (cut_byte "." p) as [[? ?] ?]; intros [= <- <- ->]; by eapply IH).
    apply cut_byte_found in Ep as [-> Hp1]. rewrite app_assoc_str in H. cbn [String.append] in H. pose proof (cut_byte_app "." p1 (p2 +:+ String "." y) Hp1) as H2. rewrite <- H, H1 in H2.
    injection H2 as -> ->. rewrite has_byte_app in Hx. cbn in Hx. by rewrite orb_true_r in Hx.
  - pose proof (cut_byte_app "." name x Hn) as H1. rewrite H in H1. rewrite (cut_byte_app "." p y Hp) in H1. by injection H1 as -> ->.
Qed.

Definition companion_names : list string := ["claude"; "gitconfig"; "outputs"; "plugin"; "bundle"; "bin"].

Lemma trim_run name x c : has_byte "." name = false → has_byte "." x = false →
  trim_suffix (String "." c) (name +:+ String "." x) = if String.eqb x c then name else name +:+ String "." x.
Proof.
  intros Hn Hx. destruct (String.eqb_spec x c) as [<-|Hne]; [by apply trim_suffix_app|]. apply trim_suffix_other. intros p Hp. by destruct (dotted_unique name p x c Hn Hx Hp).
Qed.

Lemma trim_bare name c : has_byte "." name = false → trim_suffix (String "." c) name = name.
Proof. intros Hn. apply trim_suffix_other. intros p ->. rewrite has_byte_app in Hn. cbn in Hn. by rewrite orb_true_r in Hn. Qed.

(** Everything that stands for a run is swept with it, and told from the others. *)
Lemma run_entries name e : run_name name = true → e ∈ workspace_paths name → isRunEntry e = true ∧ base_of e = name.
Proof.
  unfold run_name. intros [[Hp Hl]%andb_true_iff Hd%negb_true_iff]%andb_true_iff He.
  assert (Hb : ∀ b, b = name → has_prefix b RunWorkspacePrefix && (len RunWorkspacePrefix <? len b) = true) by (intros b ->; by rewrite Hp, Hl).
  assert (Hc : e = name ∨ ∃ x, x ∈ companion_names ∧ e = name +:+ String "." x).
  { unfold workspace_paths in He. repeat (apply elem_of_cons in He as [->|He]; [first [by left|right; eexists; split; [|reflexivity]; by repeat first [left|right]]|]). by apply elem_of_nil in He. }
  destruct Hc as [->|(x & Hx & ->)].
  - split; [apply Hb; unfold companions; cbn [fold_left]; by repeat rewrite (trim_bare name) by done|]. unfold base_of. by rewrite cut_byte_absent.
  - assert (Hxd : has_byte "." x = false) by (repeat (apply elem_of_cons in Hx as [->|Hx]; [done|]); by apply elem_of_nil in Hx).
    split; [|unfold base_of; by rewrite cut_byte_app]. apply Hb. unfold companions. cbn [fold_left].
    repeat (apply elem_of_cons in Hx as [->|Hx]; [by repeat first [rewrite (trim_run name) by done; cbn [String.eqb Ascii.eqb Bool.eqb] | rewrite (trim_bare name) by done]|]). by apply elem_of_nil in Hx.
Qed.

(** C14. Workers that share a directory never delete each other's runs. Whatever the
    workers that start, sweep, serve and end there, in whatever order, and
    though the lock is let go while it is turned from exclusive to shared: an
    entry of a run in use, the clone or what stands next to it, goes only
    when the run's own worker removes it. One that holds the directory to itself is
    alone: no other serves, and no run is in use. Once its sweep is over, no
    entry of a run is left there but those it could not remove; and all that a run
    has there is told as such from its name. *)
Theorem live_runs_kept r0 l r (Hlt : 0 < lifetime) (Hleft : left_over r0) (Hl : root_steps wait lifetime r0 l = Some r) :
  (∀ ev r' e p t, root_step wait lifetime r ev = Some r' → RtRuns r !! base_of e = Some (p, t) → is_Some (RtEntries r !! e) →
     is_Some (RtEntries r' !! e) ∨ ev = EvClean p e) ∧
  (∀ p c, RtProcs r !! p = Some (c, Some LockEx) → RtRuns r = ∅ ∧ ∀ q k, RtProcs r !! q ≠ Some (Serving, k)) ∧
  (∀ p failed k, RtProcs r !! p = Some (Removing true [] failed, k) → ∀ e m, RtEntries r !! e = Some m → isRunEntry e = true → e ∈ failed) ∧
  (∀ name e, run_name name = true → e ∈ workspace_paths name → isRunEntry e = true ∧ base_of e = name).
Proof.
  pose proof (root_steps_ok l r0 r Hlt (left_over_ok r0 Hleft) Hl) as Hok. split_and!.
  - intros ev r' e p t. by apply live_entry_kept.
  - intros p c Hp. split; [by eapply alone_no_runs|]. intros q k Hq. pose proof (ok_fits _ _ Hok _ _ _ Hq) as Hf. cbn in Hf. subst k.
    destruct (decide (p = q)) as [<-|Hne]; [rewrite Hp in Hq; by injection Hq|]. by destruct (ok_locks _ _ Hok _ _ _ _ _ _ Hne Hp Hq).
  - intros p failed k Hp e m He Hr. destruct (ok_claims _ _ Hok _ _ _ Hp) as (_ & _ & Hs). by apply (Hs failed eq_refl e m).
  - apply run_entries.
Qed.
End RootProofs.

(** Two workers start at once, as the first turns its lock into a shared one; one
    dies with a run in use; a third sweeps what it left, and no more. *)
Definition demo_left : Root := mkRoot 1000 ∅ {[".workers.lock" := 0; "run-dead" := 5; "run-dead.claude" := 5]} ∅ {[""; "run-dead"]}.
Definition demo_alone (p : nat) (entries stale : nat) : list root_event :=
  [EvStart p; EvSweep p] ++ repeat (EvLook p) (S entries) ++ repeat (EvRemove p true) (S stale).
Definition demo_events : list root_event :=
  demo_alone 1 3 2 ++ [EvDrop 1] ++ [EvStart 2; EvShare 1] ++ [EvSweep 2; EvLook 2; EvLook 2; EvRemove 2 true; EvShare 2; EvShare 1] ++
  [EvBegin 1 "run-a"; EvWrite 1 "run-a"; EvBegin 2 "run-b"; EvWrite 2 "run-b"; EvExit 2; EvTick 500; EvClean 1 "run-a"; EvEnd 1 "run-a"] ++
  [EvBegin 1 "run-c"; EvWrite 1 "run-c"; EvTick 200; EvStart 3; EvShare 3; EvSweep 3] ++ repeat (EvLook 3) 4.
Definition demo_root_after (l : list root_event) : Root := default demo_left (root_steps 60 600 demo_left l).

Lemma demo_left_over : left_over demo_left.
Proof.
  split_and!; [done|done|]. intros e m H. unfold demo_left in *. cbn [RtEntries RtUsed] in *. rewrite !lookup_insert_Some, lookup_singleton_Some in H.
  destruct H as [[<- _]|[_ [[<- _]|[_ [<- _]]]]]; vm_compute; reflexivity.
Qed.

Lemma live_runs_kept_witness :
  RtProcs (demo_root_after demo_events) !! 3%nat = Some (Removing false ["run-b"] [], Some LockSh) ∧
  RtRuns (demo_root_after demo_events) !! "run-c" = Some (1%nat, 1500) ∧
  (∀ ev r' e p t, root_step 60 600 (demo_root_after demo_events) ev = Some r' → RtRuns (demo_root_after demo_events) !! base_of e = Some (p, t) →
     is_Some (RtEntries (demo_root_after demo_events) !! e) → is_Some (RtEntries r' !! e) ∨ ev = EvClean p e).
Proof.
  split; [vm_compute; reflexivity|]. split; [vm_compute; reflexivity|].
  refine (proj1 (live_runs_kept 60 600 demo_left demo_events (demo_root_after demo_events) _ demo_left_over _)); [reflexivity|vm_compute; reflexivity].
Defined.

Lemma demo_swept :
  let r := demo_root_after (demo_events ++ [EvRemove 3 true]) in RtEntries r !! "run-b" = None ∧ RtEntries r !! "run-c" = Some 1500 ∧ RtEntries r !! "run-dead" = None.
Proof. vm_compute. by split_and!. Qed.

(** ** A run's steps *)

Definition demo_worker : ClaudeCodeActivities :=
  mkActivities None "/runs" "/key" (Some (mkIdentity 10001 10001 "/home/run")) true "/op" ["https://git/*"] "" 0 "api" 0 0 (Some (mkPublisher true 0)) None 0 [].
Definition demo_sha : string := "c0ffee00c0ffee00c0ffee00c0ffee00c0ffee00".

(** git answers as on a clone where the run made one commit, on the branch [head]; [found]: whether the
    ref asked for is one; [links]: how many paths a file of .git has. *)
Definition demo_worker_env (head : string) (found : bool) (links : Z) (config : string) : WorkerEnv :=
  mkWorkerEnv
    (λ tr, match last tr with
           | Some (WkGit _ _ ["rev-parse"; "HEAD"]) => (None, "ba5e" +:+ nl)
           | Some (WkGit _ _ ("rev-parse" :: "--quiet" :: _)) => if found then (None, "ba5e" +:+ nl) else (Some "exit status 1", "")
           | Some (WkGit _ _ ["rev-parse"; "--abbrev-ref"; "HEAD"]) => (None, head +:+ nl)
           | Some (WkGit _ _ ("log" :: _)) => (None, demo_sha +:+ " fix: the login" +:+ nl)
           | _ => (None, "")
           end)
    (λ _, None) (λ _, true) (λ _, None) false (λ _, mkReclaimed None None (TDir 10001 0x1ff [("HEAD", TFile 10001 0x1b6 links)]) None) (λ _, demo_git_dir config)
    true (λ _, inr (mkRan "result" None None "" 900 1 None None)) false "/bin" (inr (mkOpened true false 4 (inr "pack")))
    (λ _, inr (mkFileRef "f1" "b.bundle" "" 4 "")) None NoOutputs (λ _, false) None (λ _, inl "").

Section Demo.
#[local] Existing Instance demo_quote.
#[local] Existing Instance demo_text.
#[local] Existing Instance demo_lines.

Definition demo_prepare (found : bool) : list WkAsk * (ActError + PrepareWorkspaceOutput) :=
  PrepareWorkspace demo_worker (demo_worker_env "agent/fix" found 1 "[core]") (mkPrepare "run-1" "https://git/app" "v1" "agent/fix" []) [].
Definition removed (path : string) (l : list WkAsk) : bool := existsb (λ q, match q with WkRemove p => String.eqb p path | _ => false end) l.

(** The push is of the commit inspected; a file of .git that another path shares
    stops it, and so does a changed configuration. *)
Example worker_runs :
  (λ o, (PrDir o, PrCommit o)) <$> (match (demo_prepare true).2 with inr o => Some o | inl _ => None end) = Some ("/runs/run-1", "ba5e") ∧
  (InspectWorkspace demo_worker (demo_worker_env "agent/fix" true 1 "[core]") "/runs/run-1" "ba5e" []).2 =
    inr (mkInspected false [mkCommit demo_sha "fix: the login"] "agent/fix" false) ∧
  last (PushBranch demo_worker (demo_worker_env "agent/fix" true 1 "[core]") "/runs/run-1" "https://git/app" "agent/fix" demo_sha []).1 =
    Some (WkGit ["GIT_SSH_COMMAND=ssh -i /key -o IdentitiesOnly=yes -o StrictHostKeyChecking=accept-new"] "/runs/run-1"
            ["push"; "--"; "https://git/app"; demo_sha +:+ ":refs/heads/agent/fix"]) ∧
  last (PushBranch demo_worker (demo_worker_env "agent/fix" true 2 "[core]") "/runs/run-1" "https://git/app" "agent/fix" demo_sha []).1 = Some (WkReclaim "/runs/run-1") ∧
  last (PushBranch demo_worker (demo_worker_env "agent/fix" true 1 "[core] fsmonitor") "/runs/run-1" "https://git/app" "agent/fix" demo_sha []).1 = Some (WkRestore "/runs/run-1").
Proof. vm_compute. by split_and!. Qed.

(** An implementation, each of its steps made twice. *)
Definition demo_dir : string := "/runs/" +:+ RunWorkspacePrefix +:+ demo_run_id.
Definition demo_whole : RunEnv :=
  mkRunEnv "session-s-participant-jarvis" demo_run_id "coding" (inr 60) (inr tt) false (λ _, false) (λ _, false) (λ _, false) (λ n, Z.of_nat n * minute)
    (inr (mkPrepared demo_dir "ba5e" CodingRun.demo_branch [] [] "")) (inr (mkCLI "done" false "" 3 60000 0 ∅ "api" []))
    (inr ([], [])) (inr (mkInspected false [mkCommit demo_sha "fix: the login"] CodingRun.demo_branch false)) (inr tt) (inl canceledErr).
Definition demo_implemented : (string + ClaudeCodeOutput) * list RunNotice * St :=
  @implementFeature demo_quote demo_text CodingRun.demo_details CodingRun.demo_json demo_whole "call" None.
Definition demo_out : ClaudeCodeOutput := match demo_implemented.1.1 with inr out => out | inl _ => noCoding end.
Definition demo_tries : list (step * nat) := (λ s, (s, 2%nat)) <$> steps demo_implemented.2.
Definition demo_on : WorkerEnv := demo_worker_env CodingRun.demo_branch true 1 "[core]".
Definition demo_asked : list WkAsk := (worked demo_worker demo_on demo_tries []).1.
Definition demo_pushed : WkAsk :=
  WkGit (sshEnv demo_worker) demo_dir (real_push demo_sha CodingRun.demo_branch "https://git/r").

Lemma implementation_publishes_inspected_witness :
  List.filter publishes demo_asked = [demo_pushed; demo_pushed] ∧
  ∃ input p c, PrepareGives demo_whole = inr p ∧ checkRepo demo_worker (ImRepo input) = None ∧ isFullSHA (SHA c) = true ∧
    Forall (λ q, publishes q = true →
      q = WkGit (sshEnv demo_worker) (PrDir p) (real_push (SHA c) (branchName (ImTitle input) (ImTask input) (EnvRunID demo_whole)) (ImRepo input))) demo_asked.
Proof.
  split; [vm_compute; reflexivity|].
  destruct (@implementation_publishes_inspected demo_quote demo_text demo_lines CodingRun.demo_details CodingRun.demo_json demo_worker demo_on
    demo_whole "call" None demo_out demo_implemented.1.2 demo_implemented.2 demo_tries) as [H|(input & p & c & rest & tr & log & _ & Hp & Hr & _ & _ & Hs & _ & Hf)].
  - vm_compute. reflexivity.
  - vm_compute. reflexivity.
  - intros input Hi p Hp. exists []. vm_compute in Hi, Hp. injection Hi as <-. injection Hp as <-. vm_compute. reflexivity.
  - intros p Hp i Hi. exists []. vm_compute in Hi, Hp. injection Hi as <-. injection Hp as <-. vm_compute. reflexivity.
  - exfalso. assert (Hx : existsb publishes demo_asked = true) by (vm_compute; reflexivity). apply existsb_exists in Hx as (q & Hq & Hp).
    rewrite Forall_forall in H. rewrite (H q) in Hp by by apply list_elem_of_In. discriminate.
  - exists input, p, c. split; [exact Hp|]. split; [exact Hr|]. split; [exact Hs|exact Hf].
Defined.

(** A preparation that fails once it has cloned leaves its clone: what it
    removed, it removed before. *)
Example unknown_ref_leaves :
  let tr := (demo_prepare false).1 in
  (match (demo_prepare false).2 with inl (AppErr type _ retry _ _) => Some (type, retry) | _ => None end) = Some ("UnknownRef", false) ∧
  last tr = Some (WkGit [] "/runs/run-1" ["rev-parse"; "--quiet"; "--verify"; "--end-of-options"; "origin/v1^{commit}"]) ∧
  removed "/runs/run-1" (drop 7 tr) = false ∧ length (take 7 tr) = 7%nat.
Proof. vm_compute. by split_and!. Qed.
End Demo.
